(* ===== verification/_CoqProject ===== *)
-Q . S2P
Prelude.v
GoLib.v
Strconv.v
Text.v
Paths.v
World.v
Storage.v
Lines.v
Instances.v
Transactions.v
TransactionsFacts.v
TransactionsWitness.v
Policy.v
PolicyFacts.v
PolicyWitness.v
RateLimit.v
L7RateLimit.v
LimitsWitness.v
L7Settings.v
L7SettingsFacts.v
L7Engine.v
L7EngineFacts.v
Sessions.v
SessionCookie.v
TitanTrust.v
Titan.v
TitanFacts.v
TitanWitness.v
Evidence.v
EvidenceFacts.v
EvidenceAppend.v
EvidenceRecovery.v
EvidenceVerify.v
EvidenceInstances.v
EvidenceWitness.v
NetIP.v
NetIPFacts.v
Exec.v
State.v
Snapshot.v
StateFacts.v
Release.v
ReleaseFrames.v
ReleaseFacts.v
ReleaseSafety.v
ReleaseLiveness.v
ReleaseWitness.v
KineticResponse.v
BlockOps.v
BlockFacts.v
KineticSafety.v
ExpiryFacts.v
BlockSafety.v
BlockWitness.v
L7Decode.v
L7DecodeFacts.v
L7Normalize.v
L7NormalizeFacts.v
L7NormalizeSafety.v
ThreatIndex.v
ThreatFacts.v
KineticEngine.v
KineticLive.v
EngineBounds.v
EngineStrikes.v
EngineResponse.v
EngineWindows.v
EngineWitness.v
FeedSettings.v
FeedFetch.v
Feeds.v
FeedSigning.v
FeedSync.v
FeedCompose.v
FeedSyncFacts.v
FeedKernel.v
KernelHook.v
FeedWitness.v
