(* ===== verification/Prelude.v ===== *)
(** * VGT GeDefense control plane: a verification development

    GeDefense is a host defence platform. A Go control plane (src/control)
    detects, decides and records; a Rust core in the kernel's neighbourhood
    holds the block list; a Go gateway (src/gateway) signs operators in and
    forwards to the control API. This library models the control plane's own
    state and decisions, and the gateway's sessions, as executable Rocq
    functions and proves what makes them correct. It covers the parts that
    decide: what is blocked, what is written down, what survives a crash and
    who is let in.

    ** How the code is represented

    A Go function is a function on explicit state. [World] is the outside: a
    file system, a tick counter and an oracle that decides, call by call,
    which system call fails, what the clock and the random source return; a
    theorem about all oracles is a theorem about every pattern of failures.
    Errors are values ([goerror], with wrapping and joining). Integers that can
    overflow are kept at their width ([i64], [u64]); [float64] is IEEE binary64
    (SpecFloat). A [time.Time] is a number of nanoseconds; [State.gotime] adds
    the monotonic reading where the code depends on it. Strings are byte
    strings. A Go map is a [gmap]; where a loop ranges over one, the order is a
    parameter or the result is shown not to depend on it. Handlers that thread
    the shared state through many calls and may end the process (a failing
    random source is fatal) are written in the monad [Exec.M].

    Code that is not in the repository is an interface: a type class with the
    documented behaviour as named laws, and a concrete instance in the witness
    files: SHA-256, AES-GCM and Ed25519 ([Crypto], [Ed25519]), the JSON codecs
    ([JSONDoc]), Unicode case folding ([Unicode]), the kernel core
    ([Release.CoreClient], [ReleaseFrames.CoreLaws]), the evidence and case
    sinks of the state ([State.Sinks]), the parsers of the Go library for URLs,
    media types, JSON, multipart and compressed bodies and the HTML entity table
    (the parameters of [L7Decode] and [L7Normalize]), the HTTP client and the
    JSON tokenizer of the feeds ([FeedFetch.FeedTransport], [FeedFetch.JSONTokens]).

    ** Files

    - Prelude, GoLib, Strconv, Text, Paths, Lines: errors, machine integers,
      time, strings, hex, base64, decimal text, paths, lines of a file.
    - World, Storage: the file system with faults, [atomicWriteFile]
      (src/control/policy.go) and the encrypted state files
      (src/control/storage_crypto.go, xdr_log.go).
    - Instances: concrete cryptography and codecs, so that definitions run.
    - Transactions, TransactionsFacts, TransactionsWitness: the reversible
      security transactions (src/control/transactions.go).
    - Policy, PolicyFacts, PolicyWitness: the signed policy store with its
      generation floor (src/control/policy.go).
    - RateLimit, L7RateLimit, LimitsWitness: API rate limiter and replay guard
      (src/control/rate_limit.go), Layer-7 budgets
      (src/control/l7_rate_limit.go).
    - L7Settings, L7SettingsFacts, L7Engine, L7EngineFacts: Layer-7
      settings (src/control/l7_fabric_settings.go) and the inspection engine
      (src/control/l7_engine.go, l7_detectors.go).
    - Sessions, SessionCookie: gateway sessions
      (src/gateway/sessions.go, main.go).
    - TitanTrust, Titan, TitanFacts, TitanWitness: trust evaluation, response,
      journal and operator actions of the file-change engine
      (src/control/titan_trust.go, titan.go).
    - Evidence, EvidenceFacts, EvidenceAppend, EvidenceRecovery,
      EvidenceVerify, EvidenceInstances, EvidenceWitness: the hash-chained,
      signed evidence ledger (src/control/evidence_ledger.go).
    - NetIP, NetIPFacts: Go's address parser and printer and the canonical
      form of block targets ([normalizeTarget], src/control/state.go).
    - Exec: the monad of handlers on shared state and its judgements.
    - State, Snapshot, StateFacts: the shared state
      (src/control/state.go) and the coverage and protection verdicts derived
      from it (kinetic_types.go, l7_tls.go, l7_server.go).
    - Release, ReleaseFrames, ReleaseFacts, ReleaseSafety,
      ReleaseLiveness, ReleaseWitness: the staged release
      controller (src/control/release.go).
    - KineticResponse: the automatic network containment
      (src/control/kinetic_response.go, kinetic_runtime.go).
    - BlockOps: the control API's block handlers with the undo tokens
      (src/control/server.go) and the expiry pass (src/control/block_expiry.go);
      BlockFacts: what their steps leave of the list, of the kernel and of the
      signed policy on disk, and the gates of the response; KineticSafety: the kinetic response never weakens
      a block and rolls back exactly; its budget and its escalating TTL.
    - ExpiryFacts, BlockSafety: the expiry pass and the operator's handlers as
      transactions; BlockWitness: all of them on concrete inputs.
    - L7Decode, L7DecodeFacts: the decoders of the inspection engine and
      their bounded expansion (src/control/l7_decode.go); L7Normalize,
      L7NormalizeFacts, L7NormalizeSafety: the normalizer
      that turns a request into the texts the detectors see
      (src/control/l7_normalize.go, l7_candidates.go, l7_validate.go).
    - ThreatIndex, ThreatFacts: threat indicators, their canonical form and the
      longest-prefix index (src/control/feeds.go).
    - KineticEngine, KineticLive: the rule registry
      (src/control/kinetic_rules.go), the detection engine
      (src/control/kinetic_engine.go) and its live windows
      (src/control/kinetic_live.go); EngineBounds: every table keeps its
      capacity; EngineStrikes: the events of a packet are those of the
      specification; EngineResponse: cooldown, and the composition with the
      response engine; EngineWindows: the rolling windows against the list of
      all samples, and that the seconds the kernel delivers fall into none; EngineWitness: all of them on concrete traffic.
    - FeedSettings, FeedFetch, FeedSigning, Feeds, FeedSync: the threat feeds:
      settings (src/control/threat_intel_fabric.go), parsing, signed manifest
      and download, the manager with its lock, synchronisation and kernel
      application (src/control/feeds.go), the local signing pipeline
      (src/control/feed_signing.go). FeedCompose: the published sets and the
      lock; FeedSyncFacts: what a synchronisation may change, in any
      order of the concurrent downloads; FeedKernel: the kernel update as a
      transaction; KernelHook: the hook of main.go that republishes the feeds
      after a reconciliation, and that it keeps the promise [hook_ok] the
      release controller's theorems use; FeedWitness: what differs from the comments, and concrete
      runs.
    The components meet in [Release.Sys]: the controller, the shared state, the
    signed policy store and the world. The state publishes into the evidence
    ledger, the controller reads the snapshot and writes the policy, and the
    block operations change the list, the kernel and the policy as one
    transaction.

    ** What the theorems show

    - Nothing is half done: a transaction ends applied or taken back and its
      intent is on disk first; a state file is the old or the new one after a
      crash; an interrupted evidence append after the first is recovered at the
      next start.
    - Nothing goes backwards: the policy floor never decreases and a correctly
      signed older policy is refused; the evidence head commits to the whole
      history; a revoked session stays revoked.
    - Enforcement is kept and is what it says: enforce means a verified kernel,
      it is entered through open gates only, automatic degradation never
      releases a held block, a promotion at most what the threat feeds own, an emergency stop holds until its marker is
      removed, a lost core is noticed and the fail-safe is not a dead end.
    - The shared state is well formed: typing and bounds of every component of
      it, canonical block targets, exact expiry, one owner of the degradation
      verdict, one meaning of full protection.
    - Block operations are transactions: automatic containment passes its gates,
      never weakens a block and is taken back without a trace; expiry and the
      operator's additions, removals and undos change the list, the kernel and
      the signed policy together, and leave every other block in force;
      [BlockFacts.filed] says what document the state file holds.
    - Decisions are justified: Layer-7 verdicts, Titan trust and containment,
      budgets that cannot be bypassed.
    - Nothing is hidden from the detectors: every window of every text of a
      request, and every decoding of it within the budget, is a candidate, or
      the request is refused.
    - Detection is exact and bounded: a packet makes exactly the rules strike
      whose conditions hold, an allowlisted source or an observing engine never
      leads to an action, a lookup in the threat index is membership in one of
      its prefixes, and no stream of packets exceeds a capacity.
    - Threat feeds are authentic and transactional: only an accepted download,
      under the signed-manifest policy a signed one not older than the last,
      replaces a generation; what is published depends neither on map order nor
      on the order of downloads; the kernel update completes, restores, or
      reports the divergence.
    - Findings: the places where the code does not do what its comments or its
      neighbours say are theorems too, with an input that shows them.

    ** Bounds and fuel

    Fuel is used where the source loops over something other than a list:
    [NetIP.parse_groups] (eight rounds, an address has eight groups and each
    round reads one), the rune and escape decoders (a round per byte of the
    text), the expansion of decodings (a round per layer it may visit;
    [L7DecodeFacts.expansion_terminates] shows the fuel is enough), the chunks of
    a long value (a round per byte, each advances), and the shrinking loops of
    [KineticEngine.UpdateConfig] (a round per bucket;
    [EngineBounds.reconfigure_ends]). Every other recursion is structural.
    Bounds of the program (windows of 250 events, 4096 deduplication entries,
    64 KiB records, 1441 minutes of history) are the source's constants.

    ** Not modelled

    Network listeners and HTTP plumbing, /proc and inotify readers, the
    HTTP client of the feeds, CMS and package parsers, systemd and namespace
    isolation, kernel settings: they are I/O around the modelled decisions and
    enter as parameters or answers of the world. The Rust core, the eBPF
    programs, the desktop tray and the web interface are other languages.
    Messages of events keep their fixed text; values formatted into them are
    kept where they are strings. Locks are not represented: every modelled
    operation runs under the lock of its component, so operations are
    sequences of atomic steps and theorems quantify over all sequences. *)

From Stdlib Require Import ZArith Lia Ascii String.
From stdpp Require Import base gmap strings list fin_maps sorting.

Open Scope Z_scope.

(** ** Scope of the development's own notations *)

Declare Scope go_scope.
Delimit Scope go_scope with go.
Open Scope go_scope.

(** [len s] is Go's [len] on strings and byte slices. *)
Definition slen (s : string) : Z := Z.of_nat (String.length s).

Notation "s1 +:+ s2" := (String.append s1 s2) : go_scope.

(** ** Errors

    A Go [error] value. [nil] is [None] of an [option goerror]. The texts are
    the literals of the source; a formatted argument is kept as a wrapped
    error or appended to the text. *)
Inductive goerror :=
| ErrText (msg : string)
| ErrNotExist
| ErrWrap (msg : string) (inner : goerror)
| ErrJoin (es : list goerror)
| RecoveryRequiredError (stage : string) (inner : goerror).

Abbreviation error := (option goerror).

Definition errors_New (msg : string) : error := Some (ErrText msg).
Definition errorf_w (msg : string) (e : error) : error := ErrWrap msg <$> e.

(** [errors.Join]: nil arguments are dropped, all nil gives nil. *)
Definition errors_Join (es : list error) : error :=
  match omap id es with
  | [] => None
  | es' => Some (ErrJoin es')
  end.

(** [errors.Is(err, os.ErrNotExist)] walks the wrapping tree. *)
Fixpoint is_not_exist (e : goerror) : bool :=
  match e with
  | ErrText _ => false
  | ErrNotExist => true
  | ErrWrap _ e' => is_not_exist e'
  | ErrJoin es => existsb is_not_exist es
  | RecoveryRequiredError _ e' => is_not_exist e'
  end.

(** [errors.As(err, &recovery)]: the stage of the first
    [RecoveryRequiredError] met in a depth-first walk. *)
Fixpoint as_recovery (e : goerror) : option string :=
  match e with
  | ErrText _ | ErrNotExist => None
  | ErrWrap _ e' => as_recovery e'
  | ErrJoin es =>
      (fix go (l : list goerror) : option string :=
         match l with
         | [] => None
         | x :: l' => match as_recovery x with Some s => Some s | None => go l' end
         end) es
  | RecoveryRequiredError s _ => Some s
  end.

Definition errors_Is_NotExist (e : error) : bool :=
  match e with Some x => is_not_exist x | None => false end.

Definition errors_As_Recovery (e : error) : option string :=
  match e with Some x => as_recovery x | None => None end.

(** Maps the value of a [(T, error)] result. *)
Definition ok_map {A B} (f : A -> B) (r : goerror + A) : goerror + B :=
  match r with inl e => inl e | inr a => inr (f a) end.

(** A Go call either returns or panics. *)
Inductive outcome (A : Type) :=
| Returns (a : A)
| Panics.
Arguments Returns {A} a.
Arguments Panics {A}.

(** ** Machine integers *)

Definition wrap (w : Z) (x : Z) : Z := x mod 2 ^ w.
Definition u16 (x : Z) : Z := wrap 16 x.
Definition u32 (x : Z) : Z := wrap 32 x.
Definition u64 (x : Z) : Z := wrap 64 x.
(** Two's complement reading of the low [w] bits. *)
Definition swrap (w : Z) (x : Z) : Z :=
  let y := x mod 2 ^ w in if y <? 2 ^ (w - 1) then y else y - 2 ^ w.
Definition i64 (x : Z) : Z := swrap 64 x.

Definition MaxInt64 : Z := 9223372036854775807.
Definition MinInt64 : Z := -9223372036854775808.
Definition MaxUint64 : Z := 18446744073709551615.
Definition MaxUint32 : Z := 4294967295.
Definition MaxUint16 : Z := 65535.

Lemma wrap_range w x : 0 <= w -> 0 <= wrap w x < 2 ^ w.
Proof. intros. apply Z.mod_pos_bound, Z.pow_pos_nonneg; lia. Qed.

Lemma wrap_small w x : 0 <= x < 2 ^ w -> wrap w x = x.
Proof. apply Z.mod_small. Qed.

Lemma u64_small x : 0 <= x <= MaxUint64 -> u64 x = x.
Proof. intros. apply wrap_small. unfold MaxUint64 in *. lia. Qed.

Lemma i64_small x : MinInt64 <= x <= MaxInt64 -> i64 x = x.
Proof.
  intros H. unfold i64, swrap, MinInt64, MaxInt64 in *.
  change (2 ^ 64) with 18446744073709551616.
  change (2 ^ (64 - 1)) with 9223372036854775808.
  destruct (Z.leb_spec 0 x).
  - rewrite Z.mod_small by lia. destruct (Z.ltb_spec x 9223372036854775808); lia.
  - assert (x mod 18446744073709551616 = x + 18446744073709551616) as ->.
    { symmetry. apply (Z.mod_unique _ _ (-1)); lia. }
    destruct (Z.ltb_spec (x + 18446744073709551616) 9223372036854775808); lia.
Qed.

(** ** Time

    [time.Time] is the number of nanoseconds since Go's zero instant
    (January 1, year 1, UTC); the zero value is 0. [time.Duration] is an
    int64 count of nanoseconds; [Sub] saturates at its bounds. *)
Abbreviation time := Z.
Abbreviation duration := Z.

Module Time.
Definition Nanosecond : duration := 1.
Definition Second : duration := 1000000000.
Definition Minute : duration := 60 * Second.
Definition Hour : duration := 60 * Minute.
(** Seconds from the zero instant to the Unix epoch. *)
Definition unixToInternal : Z := 62135596800.

Definition IsZero (t : time) : bool := t =? 0.
Definition Before (t u : time) : bool := t <? u.
Definition After (t u : time) : bool := u <? t.
Definition Sub (t u : time) : duration :=
  let d := t - u in
  if d <? MinInt64 then MinInt64 else if MaxInt64 <? d then MaxInt64 else d.
Definition Add (t : time) (d : duration) : time := t + d.
Definition Unix (t : time) : Z := t / Second - unixToInternal.
Definition UnixNano (t : time) : Z := i64 (t - unixToInternal * Second).

Lemma Sub_exact t u : MinInt64 <= t - u <= MaxInt64 -> Sub t u = t - u.
Proof.
  intros. unfold Sub.
  destruct (Z.ltb_spec (t - u) MinInt64); [lia|].
  destruct (Z.ltb_spec MaxInt64 (t - u)); lia.
Qed.

(** The comparison [t.Sub(u) > d] of the code is exact although [Sub]
    saturates. *)
Lemma Sub_gt t u d : MinInt64 <= d < MaxInt64 -> d < Sub t u <-> d < t - u.
Proof.
  intros. unfold Sub, MinInt64, MaxInt64 in *.
  destruct (Z.ltb_spec (t - u) (-9223372036854775808));
  [|destruct (Z.ltb_spec 9223372036854775807 (t - u))]; lia.
Qed.
End Time.

(** ** Strings and bytes *)

Definition byte_val (c : ascii) : Z := Z.of_N (N_of_ascii c).

Fixpoint string_forallb (p : ascii -> bool) (s : string) : bool :=
  match s with
  | EmptyString => true
  | String c s' => p c && string_forallb p s'
  end.

Definition in_range (lo hi : ascii) (c : ascii) : bool :=
  (byte_val lo <=? byte_val c) && (byte_val c <=? byte_val hi).

(** Go's [s1 < s2] on strings: bytewise lexicographic. *)
Definition string_lt (s1 s2 : string) : bool := String.ltb s1 s2.

(** ** Slices *)

(** The last [n] elements, as the code trims its slices. *)
Definition keep_last {A} (n : nat) (l : list A) : list A := drop (length l - n) l.

Lemma keep_last_suffix {A} n (l : list A) : exists t, l = t ++ keep_last n l.
Proof. exists (take (length l - n) l). unfold keep_last. by rewrite take_drop. Qed.

Lemma length_keep_last {A} n (l : list A) : (length (keep_last n l) <= n)%nat.
Proof. unfold keep_last. rewrite length_drop. lia. Qed.

Lemma last_suffix {A} (t l : list A) : l <> [] -> last (t ++ l) = last l.
Proof. intros Hl. rewrite last_app. destruct (last l) eqn:E; [done|]. by apply last_None in E. Qed.

Lemma keep_last_snoc {A} n (l : list A) x : (0 < n)%nat -> last (keep_last n (l ++ [x])) = Some x.
Proof.
  intros Hn. unfold keep_last. rewrite length_app, Nat.add_1_r.
  rewrite drop_app_le by lia. apply last_snoc.
Qed.

(** ** Tactics *)

(** Splits every [match] and [if] of the goal and of the hypotheses and
    removes the impossible branches. *)
Ltac split_branches :=
  repeat (case_match || case_decide); simplify_eq/=.

(** Turns boolean comparisons of hypotheses into propositions. *)
Ltac bool_to_prop :=
  repeat match goal with
  | H : _ && _ = true |- _ => apply andb_true_iff in H as [? ?]
  | H : _ || _ = false |- _ => apply orb_false_iff in H as [? ?]
  | H : negb _ = true |- _ => apply negb_true_iff in H
  | H : negb _ = false |- _ => apply negb_false_iff in H
  | H : (_ <? _) = true |- _ => apply Z.ltb_lt in H
  | H : (_ <? _) = false |- _ => apply Z.ltb_ge in H
  | H : (_ <=? _) = true |- _ => apply Z.leb_le in H
  | H : (_ <=? _) = false |- _ => apply Z.leb_gt in H
  | H : (_ =? _) = true |- _ => apply Z.eqb_eq in H
  | H : (_ =? _) = false |- _ => apply Z.eqb_neq in H
  end.

(** [setter eta f]: the function that replaces the field [f] of a record, where
    [eta] rebuilds a record from its fields. *)
Ltac setter eta f :=
  let body := eval cbv beta delta [eta] in eta in
  exact (fun v r => ltac:(
    let t := eval cbv beta in (body r) in
    lazymatch t with
    | context C [f r] => let t' := context C [v] in exact t'
    end)).

Create HintDb gedefense.
#[export] Hint Resolve wrap_range : gedefense.
