(* ===== verification/GoLib.v ===== *)
(** * The parts of Go's standard library the modelled code calls

    Byte-level models of [encoding/hex], [bytes.TrimSpace],
    [strings.HasPrefix], [strconv] decimal printing and the Unix
    [path/filepath] functions, with the facts the components share. *)

From Stdlib Require Import ZArith Lia Ascii String.
From stdpp Require Import base gmap strings list pretty.
From S2P Require Import Prelude.

(** ** Strings as lists of bytes *)

Definition bytes_of (s : string) : list ascii := String.list_ascii_of_string s.
Definition of_bytes (l : list ascii) : string := String.string_of_list_ascii l.

Lemma of_bytes_of s : of_bytes (bytes_of s) = s.
Proof. apply string_of_list_ascii_of_string. Qed.

Lemma bytes_of_of l : bytes_of (of_bytes l) = l.
Proof. apply list_ascii_of_string_of_list_ascii. Qed.

Lemma bytes_of_app s1 s2 : bytes_of (s1 +:+ s2) = bytes_of s1 ++ bytes_of s2.
Proof. induction s1 as [|c s1 IH]; simpl; [done|]. by rewrite <- IH. Qed.

Lemma length_bytes_of s : length (bytes_of s) = String.length s.
Proof. induction s; simpl; congruence. Qed.

Lemma slen_of_bytes l : slen (of_bytes l) = Z.of_nat (length l).
Proof. unfold slen. by rewrite <- length_bytes_of, bytes_of_of. Qed.

Lemma bytes_of_inj s1 s2 : bytes_of s1 = bytes_of s2 -> s1 = s2.
Proof. intros H. by rewrite <- (of_bytes_of s1), H, of_bytes_of. Qed.

Lemma string_app_assoc (a b c : string) : (a +:+ b) +:+ c = a +:+ (b +:+ c).
Proof. apply bytes_of_inj. rewrite !bytes_of_app. by rewrite app_assoc. Qed.

Lemma length_append (a b : string) : String.length (a +:+ b) = (String.length a + String.length b)%nat.
Proof. rewrite <- !length_bytes_of, bytes_of_app. apply length_app. Qed.

Lemma string_forallb_bytes p s : string_forallb p s = forallb p (bytes_of s).
Proof. induction s as [|c s IH]; simpl; [done|]. by rewrite IH. Qed.

(** ** [encoding/hex] *)

Definition hex_digit (n : N) : ascii :=
  ascii_of_N (if N.ltb n 10 then 48 + n else 87 + n).

Definition hex_value (c : ascii) : option N :=
  let n := N_of_ascii c in
  if N.leb 48 n && N.leb n 57 then Some (n - 48)%N
  else if N.leb 97 n && N.leb n 102 then Some (n - 87)%N
  else if N.leb 65 n && N.leb n 70 then Some (n - 55)%N
  else None.

Definition hex_byte (c : ascii) : list ascii :=
  [hex_digit (N.div (N_of_ascii c) 16); hex_digit (N.modulo (N_of_ascii c) 16)].

(** [hex.EncodeToString] *)
Definition hex_EncodeToString (s : string) : string :=
  of_bytes (concat (map hex_byte (bytes_of s))).

Fixpoint hex_decode_list (l : list ascii) : option (list ascii) :=
  match l with
  | [] => Some []
  | [_] => None
  | a :: b :: l' =>
      match hex_value a, hex_value b, hex_decode_list l' with
      | Some x, Some y, Some r => Some (ascii_of_N (16 * x + y) :: r)
      | _, _, _ => None
      end
  end.

(** [hex.DecodeString]: an odd length or a byte outside [0-9a-fA-F] is an
    error. *)
Definition hex_DecodeString (s : string) : option string :=
  of_bytes <$> hex_decode_list (bytes_of s).

Lemma hex_byte_roundtrip c rest :
  hex_decode_list (hex_byte c ++ rest)
  = match hex_decode_list rest with Some r => Some (c :: r) | None => None end.
Proof.
  destruct c as [[] [] [] [] [] [] [] []]; cbn -[hex_decode_list] in *;
    cbn; by destruct (hex_decode_list rest).
Qed.

(** Decoding the encoding gives the bytes back. *)
Lemma hex_roundtrip s : hex_DecodeString (hex_EncodeToString s) = Some s.
Proof.
  unfold hex_DecodeString, hex_EncodeToString. rewrite bytes_of_of.
  assert (hex_decode_list (concat (map hex_byte (bytes_of s))) = Some (bytes_of s)) as ->.
  { induction (bytes_of s) as [|c l IH]; [done|].
    cbn [map concat]. by rewrite hex_byte_roundtrip, IH. }
  cbn. by rewrite of_bytes_of.
Qed.

Lemma hex_encode_length s : slen (hex_EncodeToString s) = 2 * slen s.
Proof.
  unfold hex_EncodeToString. rewrite slen_of_bytes.
  unfold slen. rewrite <- length_bytes_of.
  induction (bytes_of s) as [|c l IH]; [done|].
  cbn [map concat]. rewrite length_app. cbn [hex_byte length]. lia.
Qed.

(** The lower-case hexadecimal digits accepted by the identifier checks. *)
Definition is_lower_hex (c : ascii) : bool :=
  in_range "0" "9" c || in_range "a" "f" c.

Lemma hex_byte_lower c : forallb is_lower_hex (hex_byte c) = true.
Proof. by destruct c as [[] [] [] [] [] [] [] []]. Qed.

Lemma hex_encode_lower s : string_forallb is_lower_hex (hex_EncodeToString s) = true.
Proof.
  rewrite string_forallb_bytes. unfold hex_EncodeToString. rewrite bytes_of_of.
  induction (bytes_of s) as [|c l IH]; [done|].
  cbn [map concat]. by rewrite forallb_app, hex_byte_lower, IH.
Qed.

(** ** [bytes.TrimSpace]

    The white space runes of [unicode.IsSpace] in UTF-8. *)
Definition space_runes : list (list N) :=
  [[9]; [10]; [11]; [12]; [13]; [32]; [194; 133]; [194; 160]; [225; 154; 128];
   [226; 128; 128]; [226; 128; 129]; [226; 128; 130]; [226; 128; 131];
   [226; 128; 132]; [226; 128; 133]; [226; 128; 134]; [226; 128; 135];
   [226; 128; 136]; [226; 128; 137]; [226; 128; 138]; [226; 128; 168];
   [226; 128; 169]; [226; 128; 175]; [226; 129; 159]; [227; 128; 128]]%N.

Fixpoint is_prefix_of (p : list N) (l : list ascii) : bool :=
  match p, l with
  | [], _ => true
  | n :: p', c :: l' => N.eqb n (N_of_ascii c) && is_prefix_of p' l'
  | _ :: _, [] => false
  end.

(** Drops leading white space; [runes] are the encodings in reading order. *)
Fixpoint trim_with (runes : list (list N)) (fuel : nat) (l : list ascii) : list ascii :=
  match fuel with
  | O => l
  | S fuel' =>
      match List.find (fun r => is_prefix_of r l) runes with
      | Some r => trim_with runes fuel' (drop (length r) l)
      | None => l
      end
  end.

Definition trim_left (l : list ascii) : list ascii :=
  trim_with space_runes (length l) l.
Definition trim_right (l : list ascii) : list ascii :=
  rev (trim_with (map (@rev N) space_runes) (length l) (rev l)).

Definition newline : string := String "010" EmptyString.

Definition TrimSpace (s : string) : string :=
  of_bytes (trim_right (trim_left (bytes_of s))).

(** ** [strings.HasPrefix], [strconv] *)

Definition HasPrefix (s prefix : string) : bool := String.prefix prefix s.

Lemma HasPrefix_app p s : HasPrefix (p +:+ s) p = true.
Proof.
  unfold HasPrefix. induction p as [|c p IH]; simpl; [by destruct s|].
  destruct (ascii_dec c c); [done|congruence].
Qed.

Lemma HasPrefix_spec s p : HasPrefix s p = true <-> exists r, s = p +:+ r.
Proof.
  split; [|intros [r ->]; apply HasPrefix_app].
  unfold HasPrefix. revert s. induction p as [|c p IH]; intros s H; [by exists s|].
  destruct s as [|d s]; simpl in H; [done|].
  destruct (ascii_dec c d); [|done]. subst. apply IH in H as [r ->]. by exists r.
Qed.

(** Decimal printing of an integer ([%d]). *)
Definition itoa (z : Z) : string := pretty z.

(** ** [path/filepath] on Unix *)

Definition slash : ascii := "/".

(** The elements between the slashes of a path. *)
Fixpoint split_slash (l : list ascii) : list (list ascii) :=
  match l with
  | [] => [[]]
  | c :: l' =>
      if ascii_dec c slash then [] :: split_slash l'
      else match split_slash l' with
           | e :: es => (c :: e) :: es
           | [] => [[c]]
           end
  end.

Fixpoint join_slash (es : list (list ascii)) : list ascii :=
  match es with
  | [] => []
  | [e] => e
  | e :: es' => e ++ slash :: join_slash es'
  end.

Definition dot : list ascii := ["."%char].
Definition dotdot : list ascii := ["."%char; "."%char].

(** One element of [filepath.Clean]; [stack] holds the kept elements, last
    first. *)
Definition clean_step (rooted : bool) (stack : list (list ascii)) (e : list ascii)
  : list (list ascii) :=
  if decide (e = []) then stack
  else if decide (e = dot) then stack
  else if decide (e = dotdot) then
    match stack with
    | top :: rest => if decide (top = dotdot) then e :: stack else rest
    | [] => if rooted then [] else [e]
    end
  else e :: stack.

Definition clean_elems (rooted : bool) (es : list (list ascii)) : list (list ascii) :=
  rev (fold_left (clean_step rooted) es []).

Definition IsAbs (path : string) : bool := HasPrefix path "/".

Definition elems_of (path : string) : list (list ascii) :=
  clean_elems (IsAbs path) (split_slash (bytes_of path)).

(** [filepath.Clean] *)
Definition Clean (path : string) : string :=
  match path with
  | EmptyString => "."
  | _ =>
      let es := elems_of path in
      if IsAbs path then of_bytes (slash :: join_slash es)
      else match es with [] => "." | _ => of_bytes (join_slash es) end
  end.

(** [filepath.Dir] as used to create the parent directory: everything before
    the final slash, cleaned. *)
Definition Dir (path : string) : string :=
  let es := split_slash (bytes_of path) in
  let dir := join_slash (take (length es - 1) es) in
  let prefix := if decide (length es = 1%nat) then [] else dir ++ [slash] in
  Clean (of_bytes prefix).

(** An element kept by [Clean]: non-empty, not a dot, without a slash. *)
Definition plain_elem (e : list ascii) : Prop :=
  e <> [] /\ e <> dot /\ slash ∉ e.

Lemma split_slash_no_slash l : Forall (fun e => slash ∉ e) (split_slash l).
Proof.
  induction l as [|c l IH]; simpl.
  - constructor; [set_solver|constructor].
  - destruct (ascii_dec c slash) as [->|Hc].
    + constructor; [set_solver|done].
    + destruct (split_slash l) as [|e es]; inversion IH; subst; constructor; set_solver.
Qed.

Lemma clean_step_ok rooted stack e :
  slash ∉ e ->
  Forall plain_elem stack -> (rooted = true -> dotdot ∉ stack) ->
  Forall plain_elem (clean_step rooted stack e) /\
  (rooted = true -> dotdot ∉ clean_step rooted stack e).
Proof.
  intros He Hst Hdd. unfold clean_step.
  repeat case_decide; [done|done| |].
  - destruct stack as [|top rest].
    + destruct rooted; split; [done|set_solver| |done].
      constructor; [|done]. subst. split_and!; [done|done|set_solver].
    + case_decide.
      * subst. split; [|intros HR; specialize (Hdd HR); set_solver].
        constructor; [|done]. split_and!; [done|done|set_solver].
      * inversion Hst; subst. split; [done|]. intros HR. specialize (Hdd HR). set_solver.
  - split; [constructor; [split_and!; done|done]|].
    intros HR. specialize (Hdd HR). set_solver.
Qed.

Lemma clean_elems_ok rooted es :
  Forall (fun e => slash ∉ e) es ->
  Forall plain_elem (clean_elems rooted es) /\
  (rooted = true -> dotdot ∉ clean_elems rooted es).
Proof.
  intros Hes. unfold clean_elems.
  assert (forall st, Forall plain_elem st -> (rooted = true -> dotdot ∉ st) ->
    Forall plain_elem (fold_left (clean_step rooted) es st) /\
    (rooted = true -> dotdot ∉ fold_left (clean_step rooted) es st)) as Hgen.
  { induction Hes as [|e es He Hes IH]; intros st Hst Hdd; [done|].
    simpl. pose proof (clean_step_ok rooted st e He Hst Hdd) as [H1 H2]. by apply IH. }
  destruct (Hgen [] (Forall_nil_2 _)) as [H1 H2]; [set_solver|].
  split.
  - by apply Forall_rev.
  - intros HR Hin. apply (H2 HR).
    rewrite list_elem_of_In in Hin. apply in_rev in Hin. by apply list_elem_of_In.
Qed.

(** The elements of a cleaned absolute path are plain names, never a parent
    reference. *)
Lemma elems_of_abs path :
  IsAbs path = true ->
  Forall (fun e => plain_elem e /\ e <> dotdot) (elems_of path).
Proof.
  intros HA. unfold elems_of. rewrite HA.
  destruct (clean_elems_ok true _ (split_slash_no_slash (bytes_of path))) as [H1 H2].
  specialize (H2 eq_refl). rewrite Forall_forall in *. intros e Hin.
  split; [by apply H1|]. intros ->. done.
Qed.

(** ** [base64.RawURLEncoding] *)

Definition b64_char (n : Z) : ascii :=
  ascii_of_N (Z.to_N (if n <? 26 then 65 + n
                      else if n <? 52 then 71 + n
                      else if n <? 62 then n - 4
                      else if n =? 62 then 45 else 95)).

Definition b64_value (c : ascii) : option Z :=
  let n := byte_val c in
  if (65 <=? n) && (n <=? 90) then Some (n - 65)
  else if (97 <=? n) && (n <=? 122) then Some (n - 71)
  else if (48 <=? n) && (n <=? 57) then Some (n + 4)
  else if n =? 45 then Some 62
  else if n =? 95 then Some 63
  else None.

Definition byte_of (z : Z) : ascii := ascii_of_N (Z.to_N (z mod 256)).

Fixpoint b64_encode_list (l : list ascii) : list ascii :=
  match l with
  | [] => []
  | [a] =>
      let x := byte_val a in [b64_char (x / 4); b64_char (x mod 4 * 16)]
  | [a; b] =>
      let x := byte_val a in let y := byte_val b in
      [b64_char (x / 4); b64_char (x mod 4 * 16 + y / 16); b64_char (y mod 16 * 4)]
  | a :: b :: c :: l' =>
      let x := byte_val a in let y := byte_val b in let z := byte_val c in
      b64_char (x / 4) :: b64_char (x mod 4 * 16 + y / 16) ::
      b64_char (y mod 16 * 4 + z / 64) :: b64_char (z mod 64) :: b64_encode_list l'
  end.

Definition base64_EncodeToString (s : string) : string :=
  of_bytes (b64_encode_list (bytes_of s)).

Fixpoint b64_decode_list (l : list Z) : option (list ascii) :=
  match l with
  | [] => Some []
  | [_] => None
  | [p; q] => Some [byte_of (p * 4 + q / 16)]
  | [p; q; r] => Some [byte_of (p * 4 + q / 16); byte_of (q mod 16 * 16 + r / 4)]
  | p :: q :: r :: s :: l' =>
      match b64_decode_list l' with
      | Some t => Some (byte_of (p * 4 + q / 16) :: byte_of (q mod 16 * 16 + r / 4)
                        :: byte_of (r mod 4 * 64 + s) :: t)
      | None => None
      end
  end.

(** [DecodeString]: carriage returns and line feeds are skipped, any other
    byte outside the alphabet is an error, unused trailing bits are not
    checked. *)
Definition base64_DecodeString (s : string) : option string :=
  let l := List.filter (fun c => negb ((byte_val c =? 10) || (byte_val c =? 13))) (bytes_of s) in
  match mapM b64_value l with
  | Some vs => of_bytes <$> b64_decode_list vs
  | None => None
  end.

Lemma byte_val_range c : 0 <= byte_val c < 256.
Proof. unfold byte_val. pose proof (N_ascii_bounded c). lia. Qed.

Lemma byte_of_val c : byte_of (byte_val c) = c.
Proof.
  unfold byte_of. rewrite Z.mod_small by apply byte_val_range.
  unfold byte_val. by rewrite N2Z.id, ascii_N_embedding.
Qed.

Lemma b64_char_table :
  Forall (fun n => let c := b64_char (Z.of_nat n) in
            b64_value c = Some (Z.of_nat n) /\ byte_val c <> 10 /\ byte_val c <> 13)
         (List.seq 0 64).
Proof. repeat (apply Forall_cons_2; [by vm_compute|]). apply Forall_nil_2. Qed.

Lemma b64_char_spec n :
  0 <= n < 64 ->
  b64_value (b64_char n) = Some n /\ byte_val (b64_char n) <> 10 /\ byte_val (b64_char n) <> 13.
Proof.
  intros Hn. pose proof b64_char_table as HT. rewrite Forall_forall in HT.
  specialize (HT (Z.to_nat n)). rewrite Z2Nat.id in HT by lia.
  apply HT. apply list_elem_of_In, in_seq. lia.
Qed.

Definition b64_keep (c : ascii) : bool := negb ((byte_val c =? 10) || (byte_val c =? 13)).

Lemma b64_keep_char n : 0 <= n < 64 -> b64_keep (b64_char n) = true.
Proof.
  intros Hn. destruct (b64_char_spec n Hn) as (_ & H1 & H2). unfold b64_keep.
  apply negb_true_iff, orb_false_iff. split; by apply Z.eqb_neq.
Qed.

(** The six-bit groups of an encoding. *)
Fixpoint b64_sextets (l : list ascii) : list Z :=
  match l with
  | [] => []
  | [a] => let x := byte_val a in [x / 4; x mod 4 * 16]
  | [a; b] =>
      let x := byte_val a in let y := byte_val b in [x / 4; x mod 4 * 16 + y / 16; y mod 16 * 4]
  | a :: b :: c :: l' =>
      let x := byte_val a in let y := byte_val b in let z := byte_val c in
      x / 4 :: x mod 4 * 16 + y / 16 :: y mod 16 * 4 + z / 64 :: z mod 64 :: b64_sextets l'
  end.

(** Induction three bytes at a time. *)
Lemma list_ind3 (P : list ascii -> Prop) :
  P [] -> (forall a, P [a]) -> (forall a b, P [a; b]) ->
  (forall a b c l, P l -> P (a :: b :: c :: l)) -> forall l, P l.
Proof.
  intros H0 H1 H2 H3. refine (fix go l := _).
  destruct l as [|a [|b [|c l]]]; [done|apply H1|apply H2|apply H3, go].
Qed.

#[local] Ltac Zify.zify_post_hook ::= Z.div_mod_to_equations.

Lemma b64_sextets_range l : Forall (fun n => 0 <= n < 64) (b64_sextets l).
Proof.
  induction l as [|a|a b|a b c l IH] using list_ind3; cbn [b64_sextets];
    repeat apply Forall_cons_2; try done; try apply Forall_nil_2;
    pose proof (byte_val_range a); try pose proof (byte_val_range b);
    try pose proof (byte_val_range c); lia.
Qed.

Lemma b64_encode_sextets l : b64_encode_list l = map b64_char (b64_sextets l).
Proof.
  induction l as [|a|a b|a b c l IH] using list_ind3; cbn [b64_sextets b64_encode_list map];
    congruence.
Qed.

Lemma byte_of_eq z c : z = byte_val c -> byte_of z = c.
Proof. intros ->. apply byte_of_val. Qed.

Lemma b64_decode_sextets l : b64_decode_list (b64_sextets l) = Some l.
Proof.
  induction l as [|a|a b|a b c l IH] using list_ind3; cbn [b64_sextets b64_decode_list];
    [done|..]; pose proof (byte_val_range a);
    try pose proof (byte_val_range b); try pose proof (byte_val_range c).
  - do 2 f_equal. apply byte_of_eq. lia.
  - do 2 f_equal; [|f_equal]; apply byte_of_eq; lia.
  - rewrite IH. do 2 f_equal; [|f_equal; [|f_equal]]; apply byte_of_eq; lia.
Qed.

Lemma b64_values_chars vs :
  Forall (fun n => 0 <= n < 64) vs ->
  List.filter b64_keep (map b64_char vs) = map b64_char vs /\
  mapM b64_value (map b64_char vs) = Some vs.
Proof.
  induction 1 as [|n vs Hn _ [IH1 IH2]]; [done|].
  cbn [map List.filter mapM]. rewrite b64_keep_char by done.
  destruct (b64_char_spec n Hn) as (-> & _). split; [by f_equal|].
  cbn. by rewrite IH2.
Qed.

(** Decoding the encoding gives the bytes back. *)
Lemma base64_roundtrip s : base64_DecodeString (base64_EncodeToString s) = Some s.
Proof.
  unfold base64_DecodeString, base64_EncodeToString. rewrite bytes_of_of, b64_encode_sextets.
  change (fun c => negb _) with b64_keep.
  destruct (b64_values_chars _ (b64_sextets_range (bytes_of s))) as [-> ->].
  rewrite b64_decode_sextets. cbn. by rewrite of_bytes_of.
Qed.

(** Three bytes take four characters. *)
Lemma base64_len_le s : slen (base64_EncodeToString s) <= 2 * slen s.
Proof.
  unfold base64_EncodeToString. rewrite slen_of_bytes. unfold slen.
  rewrite <- length_bytes_of, b64_encode_sextets, length_map.
  induction (bytes_of s) as [|a|a b|a b c l IH] using list_ind3; cbn [b64_sextets length]; lia.
Qed.

Lemma base64_len s : 4 * slen s <= 3 * slen (base64_EncodeToString s).
Proof.
  unfold base64_EncodeToString. rewrite slen_of_bytes. unfold slen.
  rewrite <- length_bytes_of, b64_encode_sextets, length_map.
  induction (bytes_of s) as [|a|a b|a b c l IH] using list_ind3; cbn [b64_sextets length]; lia.
Qed.

(** ** ASCII text *)

Definition is_ascii (s : string) : bool := string_forallb (fun c => byte_val c <? 128) s.

Lemma hex_is_ascii s : is_ascii (hex_EncodeToString s) = true.
Proof.
  unfold is_ascii. pose proof (hex_encode_lower s) as H.
  rewrite string_forallb_bytes in *. rewrite forallb_forall in *.
  intros c Hin. specialize (H c Hin). unfold is_lower_hex, in_range in H.
  change (byte_val "9") with 57 in H. change (byte_val "f") with 102 in H.
  apply Z.ltb_lt. apply orb_true_iff in H as [H|H]; bool_to_prop; lia.
Qed.

Lemma b64_ascii_table :
  forallb (fun n => byte_val (b64_char (Z.of_nat n)) <? 128) (List.seq 0 64) = true.
Proof. by vm_compute. Qed.

Lemma base64_is_ascii s : is_ascii (base64_EncodeToString s) = true.
Proof.
  unfold is_ascii, base64_EncodeToString. rewrite string_forallb_bytes, bytes_of_of.
  rewrite b64_encode_sextets. pose proof (b64_sextets_range (bytes_of s)) as HR.
  induction HR as [|n l Hn _ IH]; [done|]. cbn [map forallb]. rewrite IH, andb_true_r.
  pose proof b64_ascii_table as HT. rewrite forallb_forall in HT.
  specialize (HT (Z.to_nat n)). rewrite Z2Nat.id in HT by lia.
  apply HT, in_seq. lia.
Qed.

(** ** Searching and case *)

(** [s[:i]] for [i := strings.IndexByte(s, c)] when the byte occurs, [s]
    otherwise. *)
Fixpoint take_until (c : ascii) (s : string) : string :=
  match s with
  | EmptyString => EmptyString
  | String a s' => if Ascii.eqb a c then EmptyString else String a (take_until c s')
  end.

(** [s[strings.LastIndexByte(s, c)+1:]]: everything after the last occurrence,
    the whole string without one. *)
Fixpoint after_last (c : ascii) (s : string) : string :=
  match s with
  | EmptyString => EmptyString
  | String a s' =>
      if Ascii.eqb a c then after_last c s'
      else if string_forallb (fun b => negb (Ascii.eqb b c)) s' then String a s'
      else after_last c s'
  end.

(** [strings.HasSuffix] *)
Definition HasSuffix (s suffix : string) : bool :=
  HasPrefix (of_bytes (rev (bytes_of s))) (of_bytes (rev (bytes_of suffix))).

Definition lower_byte (c : ascii) : ascii :=
  if in_range "A" "Z" c then byte_of (byte_val c + 32) else c.
Definition upper_byte (c : ascii) : ascii :=
  if in_range "a" "z" c then byte_of (byte_val c - 32) else c.
Definition map_bytes (f : ascii -> ascii) (s : string) : string := of_bytes (map f (bytes_of s)).

(** [strings.ToLower] and [strings.ToUpper]. On ASCII text they map the bytes;
    the Unicode tables used beyond ASCII are a parameter. *)
Class Unicode := {
  ToLower : string -> string;
  ToUpper : string -> string;
  ToLower_ascii s : is_ascii s = true -> ToLower s = map_bytes lower_byte s;
  ToUpper_ascii s : is_ascii s = true -> ToUpper s = map_bytes upper_byte s;
}.
