(* ===== verification/Strconv.v ===== *)
(** * Decimal text and separated fields

    [strconv.ParseInt] with base 10 and 64 bits, the inverse of the decimal
    text [strconv.FormatInt] prints, and [strings.Split] on one byte. *)

From Stdlib Require Import ZArith Lia Ascii String.
From stdpp Require Import base strings list pretty sets.
From S2P Require Import Prelude.
From S2P Require Import GoLib.

(** ** Integers *)

Definition digit_value (c : ascii) : option Z :=
  if in_range "0" "9" c then Some (byte_val c - 48) else None.

Fixpoint parse_digits (acc : Z) (s : string) : option Z :=
  match s with
  | EmptyString => Some acc
  | String c s' => match digit_value c with Some d => parse_digits (acc * 10 + d) s' | None => None end
  end.

Definition ParseInt (s : string) : option Z :=
  let unsigned (neg : bool) (t : string) :=
    if bool_decide (t = "") then None
    else match parse_digits 0 t with
         | None => None
         | Some v =>
             if neg then (if MaxInt64 + 1 <? v then None else Some (- v))
             else (if MaxInt64 <? v then None else Some v)
         end in
  match s with
  | EmptyString => None
  | String c s' =>
      if Ascii.eqb c "+" then unsigned false s'
      else if Ascii.eqb c "-" then unsigned true s'
      else unsigned false s
  end.

Lemma digit_value_char (d : N) : (d < 10)%N -> digit_value (pretty_N_char d) = Some (Z.of_N d).
Proof.
  intros Hd.
  assert (Forall (fun d => digit_value (pretty_N_char d) = Some (Z.of_N d)) [0;1;2;3;4;5;6;7;8;9]%N) as HT
    by (repeat constructor).
  rewrite Forall_forall in HT. apply HT, list_elem_of_In.
  assert (d = 0 \/ d = 1 \/ d = 2 \/ d = 3 \/ d = 4 \/ d = 5 \/ d = 6 \/ d = 7 \/ d = 8 \/ d = 9)%N by lia.
  cbn. intuition auto.
Qed.

Lemma parse_pretty_go (x : N) s : parse_digits 0 (pretty_N_go x s) = parse_digits (Z.of_N x) s.
Proof.
  revert s. induction (N.lt_wf_0 x) as [x _ IH]; intros s.
  destruct (decide (0 < x)%N) as [Hx|Hx].
  - rewrite pretty_N_go_step, IH by (auto; apply N.div_lt; lia). cbn [parse_digits].
    rewrite digit_value_char by (apply N.mod_lt; lia). f_equal.
    rewrite (N.div_mod x 10) at 3 by lia. lia.
  - assert (x = 0)%N as -> by lia. by rewrite pretty_N_go_0.
Qed.

Lemma parse_pretty (x : N) : parse_digits 0 (pretty x) = Some (Z.of_N x) /\ pretty x <> "".
Proof.
  unfold pretty, pretty_N. destruct (decide (x = 0%N)) as [->|Hx]; [done|].
  rewrite parse_pretty_go. split; [done|]. intros HE.
  pose proof (parse_pretty_go x "") as HP. rewrite HE in HP. cbn in HP. simplify_eq. lia.
Qed.

Lemma pretty_digits (x : N) c : c ∈ bytes_of (pretty x) -> in_range "0" "9" c = true.
Proof.
  destruct (parse_pretty x) as [HP _]. revert HP. generalize (pretty x) 0 (Z.of_N x).
  intros s. induction s as [|a s IH]; intros acc v HP; [by intros []%not_elem_of_nil|].
  cbn in *. unfold digit_value in HP. destruct (in_range "0" "9" a) eqn:Ha; [|done].
  intros [->|Hin]%elem_of_cons; [done|]. by eapply IH.
Qed.

(** What [FormatInt] prints, [ParseInt] reads. *)
Lemma ParseInt_itoa z : MinInt64 <= z <= MaxInt64 -> ParseInt (itoa z) = Some z.
Proof.
  intros Hz. unfold itoa, pretty, pretty_Z. destruct z as [|p|p]; [done| |].
  - change (ParseInt (pretty (N.pos p)) = Some (Z.pos p)).
    destruct (parse_pretty (N.pos p)) as [HP Hne].
    destruct (pretty (N.pos p)) as [|c s] eqn:E; [done|].
    assert (in_range "0" "9" c = true) as Hc by (apply (pretty_digits (N.pos p)); rewrite E; cbn; left).
    unfold ParseInt.
    destruct (Ascii.eqb_spec c "+") as [->|_]; [done|].
    destruct (Ascii.eqb_spec c "-") as [->|_]; [done|].
    rewrite bool_decide_false, HP by done. cbn [Z.of_N].
    by rewrite (proj2 (Z.ltb_ge _ _)) by lia.
  - destruct (parse_pretty (N.pos p)) as [HP Hne].
    change (ParseInt (String "-" (pretty (N.pos p))) = Some (Z.neg p)). unfold ParseInt.
    change (Ascii.eqb "-" "+") with false. change (Ascii.eqb "-" "-") with true. cbv iota.
    rewrite bool_decide_false, HP by done. cbn [Z.of_N].
    by rewrite (proj2 (Z.ltb_ge _ _)) by (unfold MinInt64, MaxInt64 in *; lia).
Qed.

Lemma itoa_no_dot z : "."%char ∉ bytes_of (itoa z).
Proof.
  unfold itoa, pretty, pretty_Z. intros Hin. destruct z as [|p|p].
  - cbn in Hin. set_solver.
  - by apply (pretty_digits (N.pos p)) in Hin.
  - rewrite bytes_of_app in Hin. apply elem_of_app in Hin as [Hin|Hin].
    + cbn in Hin. set_solver.
    + by apply (pretty_digits (N.pos p)) in Hin.
Qed.

(** ** Fields *)

Fixpoint split_bytes (c : ascii) (l cur : list ascii) : list (list ascii) :=
  match l with
  | [] => [cur]
  | a :: l => if Ascii.eqb a c then cur :: split_bytes c l [] else split_bytes c l (cur ++ [a])
  end.
Definition Split (s : string) (c : ascii) : list string :=
  map of_bytes (split_bytes c (bytes_of s) []).

Lemma split_bytes_none c l cur : c ∉ l -> split_bytes c l cur = [cur ++ l].
Proof.
  revert cur. induction l as [|a l IH]; intros cur Hc; cbn; [by rewrite app_nil_r|].
  apply not_elem_of_cons in Hc as [Ha Hl]. destruct (Ascii.eqb_spec a c); [congruence|].
  rewrite IH by done. by rewrite <- app_assoc.
Qed.

Lemma split_bytes_one c l1 l2 cur : c ∉ l1 ->
  split_bytes c (l1 ++ c :: l2) cur = (cur ++ l1) :: split_bytes c l2 [].
Proof.
  revert cur. induction l1 as [|a l IH]; intros cur Hc; cbn.
  - rewrite Ascii.eqb_refl. by rewrite app_nil_r.
  - apply not_elem_of_cons in Hc as [Ha Hl]. destruct (Ascii.eqb_spec a c); [congruence|].
    rewrite IH by done. by rewrite <- app_assoc.
Qed.

Lemma Split_two a b : "."%char ∉ bytes_of a -> "."%char ∉ bytes_of b ->
  Split (a +:+ "." +:+ b) "." = [a; b].
Proof.
  intros Ha Hb. unfold Split. rewrite bytes_of_app.
  change (bytes_of ("." +:+ b)) with ("."%char :: bytes_of b).
  rewrite split_bytes_one, split_bytes_none by done. cbn. by rewrite !of_bytes_of.
Qed.

Lemma base64_no_dot s : "."%char ∉ bytes_of (base64_EncodeToString s).
Proof.
  unfold base64_EncodeToString. rewrite bytes_of_of, b64_encode_sextets.
  pose proof (b64_sextets_range (bytes_of s)) as HR.
  intros (n & Hn & Hin)%list_elem_of_fmap. rewrite Forall_forall in HR.
  destruct (b64_char_spec n (HR n Hin)) as [Hv _]. rewrite <- Hn in Hv. by vm_compute in Hv.
Qed.

(** Without padding, three bytes are four characters. *)
Lemma base64_exact_len n s : slen s = 3 * Z.of_nat n ->
  slen (base64_EncodeToString s) = 4 * Z.of_nat n.
Proof.
  intros Hs. unfold base64_EncodeToString. rewrite slen_of_bytes. unfold slen in Hs.
  rewrite <- length_bytes_of in Hs. assert (length (bytes_of s) = 3 * n)%nat as HL by lia.
  enough (length (b64_encode_list (bytes_of s)) = 4 * n)%nat by lia. clear Hs.
  revert n HL. induction (bytes_of s) as [|a|a b|a b c l IH] using list_ind3;
    intros n HL; cbn [length b64_encode_list] in *; try lia.
  destruct n as [|n]; [lia|]. specialize (IH n). lia.
Qed.
