(* ===== verification/Text.v ===== *)
(** * Text helpers

    [strconv.ParseUint] in base 10, [utf8.ValidString], sorted lists of strings
    ([sort.Strings]) and the idempotence of [strings.TrimSpace]. *)

From Stdlib Require Import ZArith Lia Ascii String.
From stdpp Require Import base strings list pretty sets sorting.
From S2P Require Import Prelude.
From S2P Require Import GoLib.
From S2P Require Import Strconv.

(** ** Unsigned integers *)

Definition ParseUint (s : string) : option Z :=
  if bool_decide (s = "") then None
  else match parse_digits 0 s with
       | Some v => if MaxUint64 <? v then None else Some v
       | None => None
       end.

Lemma ParseUint_itoa z : 0 <= z <= MaxUint64 -> ParseUint (itoa z) = Some z.
Proof.
  intros Hz. assert (itoa z = pretty (Z.to_N z)) as ->.
  { unfold itoa. destruct z as [|p|p]; [done|done|lia]. }
  destruct (parse_pretty (Z.to_N z)) as [HP Hne]. unfold ParseUint.
  rewrite bool_decide_false, HP, Z2N.id by (done || lia).
  by rewrite (proj2 (Z.ltb_ge _ _)) by lia.
Qed.

(** ** UTF-8 *)

Definition between (lo hi : Z) (c : ascii) : bool := (lo <=? byte_val c) && (byte_val c <=? hi).
Definition continuation : ascii -> bool := between 128 191.

(** The length of the valid encoding [l] starts with; 0 when there is none. *)
Definition rune_len (l : list ascii) : nat :=
  match l with
  | [] => 0
  | a :: l1 =>
      if between 0 127 a then 1
      else match l1 with
      | [] => 0
      | b :: l2 =>
          if between 194 223 a then if continuation b then 2 else 0
          else match l2 with
          | [] => 0
          | c :: l3 =>
              let second3 :=
                if between 224 224 a then between 160 191 b
                else if between 237 237 a then between 128 159 b
                else between 225 239 a && continuation b in
              if between 224 239 a then if second3 && continuation c then 3 else 0
              else match l3 with
              | [] => 0
              | d :: _ =>
                  let second4 :=
                    if between 240 240 a then between 144 191 b
                    else if between 244 244 a then between 128 143 b
                    else between 241 243 a && continuation b in
                  if second4 && continuation c && continuation d then 4 else 0
              end
          end
      end
  end%nat.

(** One rune per step; [fuel] bounds the number of bytes. *)
Fixpoint utf8_valid_list (fuel : nat) (l : list ascii) : bool :=
  match fuel, l with
  | _, [] => true
  | O, _ => false
  | S fuel, _ => match rune_len l with O => false | n => utf8_valid_list fuel (drop n l) end
  end.
Definition utf8_ValidString (s : string) : bool := utf8_valid_list (String.length s) (bytes_of s).

(** [encoding/json] coerces text to valid UTF-8: every byte that is not part of
    a valid encoding becomes U+FFFD. *)
Definition replacement : list ascii := [ascii_of_N 239; ascii_of_N 191; ascii_of_N 189].
Fixpoint coerce_list (fuel : nat) (l : list ascii) : list ascii :=
  match fuel, l with
  | _, [] => []
  | O, _ => l
  | S fuel, c :: l' =>
      match rune_len l with
      | O => replacement ++ coerce_list fuel l'
      | n => take n l ++ coerce_list fuel (drop n l)
      end
  end.
Definition coerce_utf8 (s : string) : string := of_bytes (coerce_list (String.length s) (bytes_of s)).

Lemma coerce_valid s : utf8_ValidString s = true -> coerce_utf8 s = s.
Proof.
  unfold utf8_ValidString, coerce_utf8. intros HV. rewrite <- (of_bytes_of s) at 3. f_equal.
  revert HV. generalize (String.length s) as fuel. generalize (bytes_of s) as l. intros l fuel.
  revert l. induction fuel as [|fuel IH]; intros l; [by destruct l|].
  destruct l as [|c l']; [done|]. cbn [utf8_valid_list coerce_list].
  destruct (rune_len (c :: l')) as [|n] eqn:HR; [done|]. intros HV. rewrite IH by done. apply take_drop.
Qed.

Lemma ascii_valid s : is_ascii s = true -> utf8_ValidString s = true.
Proof.
  unfold utf8_ValidString, is_ascii. rewrite string_forallb_bytes, <- length_bytes_of.
  generalize (bytes_of s) as l. induction l as [|c l IH]; [done|]. cbn. intros H.
  apply andb_true_iff in H as [Hc Hl].
  assert (between 0 127 c = true) as ->; [|by apply IH].
  unfold between. apply Z.ltb_lt in Hc. pose proof (byte_val_range c). apply andb_true_iff. split; apply Z.leb_le; lia.
Qed.

(** ** Sorting *)

Definition sort_Strings (l : list string) : list string := merge_sort String.le l.

Lemma sort_Strings_idem l : sort_Strings (sort_Strings l) = sort_Strings l.
Proof.
  unfold sort_Strings. eapply (StronglySorted_unique String.le).
  - apply StronglySorted_merge_sort; apply _.
  - apply StronglySorted_merge_sort; apply _.
  - by rewrite !merge_sort_Permutation.
Qed.

Lemma sort_Strings_sorted l : StronglySorted String.le l -> sort_Strings l = l.
Proof.
  intros Hl. unfold sort_Strings. eapply (StronglySorted_unique String.le); [|done|].
  - apply StronglySorted_merge_sort; apply _.
  - apply merge_sort_Permutation.
Qed.

(** ** White space *)

(** No rune of [runes] starts [l]. *)
Definition no_rune (runes : list (list N)) (l : list ascii) : Prop :=
  List.find (fun r => is_prefix_of r l) runes = None.

Lemma trim_with_stop runes fuel l : no_rune runes l -> trim_with runes fuel l = l.
Proof. intros H. destruct fuel; [done|]. cbn. unfold no_rune in H. by rewrite H. Qed.

Lemma trim_with_done runes fuel l : Forall (fun r => r <> []) runes -> (length l <= fuel)%nat ->
  no_rune runes (trim_with runes fuel l).
Proof.
  intros HR. revert l. induction fuel as [|fuel IH]; intros l Hl.
  - destruct l; [|cbn in Hl; lia]. cbn. unfold no_rune.
    induction HR as [|r rs Hr _ IHr]; [done|]. cbn. by destruct r.
  - cbn. destruct (List.find _ runes) as [r|] eqn:HF; [|done]. apply IH. rewrite length_drop.
    apply List.find_some in HF as [Hin _]. rewrite Forall_forall in HR.
    specialize (HR r (proj2 (list_elem_of_In _ _) Hin)). destruct r; [done|]. cbn. lia.
Qed.

Lemma is_prefix_of_app r l1 l2 : is_prefix_of r l1 = true -> is_prefix_of r (l1 ++ l2) = true.
Proof.
  revert l1. induction r as [|n r IH]; intros [|c l1]; cbn; [done..|].
  intros [Hn Hr]%andb_true_iff. by rewrite Hn, IH.
Qed.

Lemma no_rune_prefix runes l1 l2 : no_rune runes (l1 ++ l2) -> no_rune runes l1.
Proof.
  unfold no_rune. intros HN. destruct (List.find _ runes) as [r|] eqn:HF at 1; [|done].
  apply List.find_some in HF as [Hin HP]. exfalso.
  eapply List.find_none in HN; [|exact Hin]. cbn in HN. apply is_prefix_of_app with (l2 := l2) in HP. congruence.
Qed.

Lemma trim_with_suffix runes fuel l : exists t, l = t ++ trim_with runes fuel l.
Proof.
  revert l. induction fuel as [|fuel IH]; intros l; [by exists []|]. cbn.
  destruct (List.find _ runes) as [r|]; [|by exists []].
  destruct (IH (drop (length r) l)) as [t Ht]. exists (take (length r) l ++ t).
  rewrite <- app_assoc, <- Ht. by rewrite take_drop.
Qed.

Lemma TrimSpace_idem s : TrimSpace (TrimSpace s) = TrimSpace s.
Proof.
  unfold TrimSpace. rewrite bytes_of_of. f_equal.
  set (l := trim_left (bytes_of s)).
  assert (Hl : no_rune space_runes l) by (apply trim_with_done; [repeat constructor; done|done]).
  set (back := map (@rev N) space_runes).
  assert (Hr : no_rune back (rev (trim_right l))).
  { unfold trim_right. rewrite rev_involutive. apply trim_with_done; [repeat constructor; done|].
    by rewrite length_rev. }
  assert (Hp : no_rune space_runes (trim_right l)).
  { destruct (trim_with_suffix back (length l) (rev l)) as [t Ht].
    apply (no_rune_prefix _ _ (rev t)). unfold trim_right. fold back.
    rewrite <- rev_app_distr, <- Ht, rev_involutive. done. }
  assert (trim_left (trim_right l) = trim_right l) as -> by (by apply trim_with_stop).
  unfold trim_right at 1. fold back. rewrite trim_with_stop by done. apply rev_involutive.
Qed.

(** Text between two visible characters is left alone. *)
Definition not_space (c : ascii) : bool := (33 <=? byte_val c) && (byte_val c <=? 126).

Lemma find_space_none runes c l :
  Forall (fun r => match r with [] => False | n :: _ => N.ltb n 33 || N.ltb 126 n = true end) runes ->
  not_space c = true -> List.find (fun r => is_prefix_of r (c :: l)) runes = None.
Proof.
  intros HR Hc. induction HR as [|r runes Hr _ IH]; [done|]. simpl.
  destruct r as [|n r]; [done|]. simpl.
  assert (N.eqb n (N_of_ascii c) = false) as ->; [|done].
  apply N.eqb_neq. intros ->. unfold not_space, byte_val in Hc. bool_to_prop.
  apply orb_true_iff in Hr as [Hr|Hr]; apply N.ltb_lt in Hr; lia.
Qed.

Lemma trim_with_none runes fuel c l :
  Forall (fun r => match r with [] => False | n :: _ => N.ltb n 33 || N.ltb 126 n = true end) runes ->
  not_space c = true -> trim_with runes fuel (c :: l) = c :: l.
Proof. intros. destruct fuel; [done|]. cbn [trim_with]. by rewrite find_space_none. Qed.

Lemma rev_snoc (c : ascii) l d : rev (c :: l ++ [d]) = d :: rev (c :: l).
Proof. change (c :: l ++ [d]) with ((c :: l) ++ [d]). by rewrite rev_app_distr. Qed.

Lemma trim_solid c l d :
  not_space c = true -> not_space d = true ->
  TrimSpace (of_bytes (c :: l ++ [d])) = of_bytes (c :: l ++ [d]).
Proof.
  intros Hc Hd. unfold TrimSpace, trim_left, trim_right. rewrite bytes_of_of.
  rewrite trim_with_none; [|repeat constructor|done].
  rewrite rev_snoc, trim_with_none; [|repeat constructor|done].
  by rewrite <- rev_snoc, rev_involutive.
Qed.

Lemma trim_solid_newline c l d :
  not_space c = true -> not_space d = true ->
  TrimSpace (of_bytes (c :: l ++ [d]) +:+ newline) = of_bytes (c :: l ++ [d]).
Proof.
  intros Hc Hd. unfold TrimSpace, trim_left, trim_right.
  rewrite bytes_of_app, bytes_of_of. change (bytes_of newline) with ["010"%char].
  change ((c :: l ++ [d]) ++ ["010"%char]) with (c :: (l ++ [d]) ++ ["010"%char]).
  rewrite trim_with_none; [|repeat constructor|done].
  rewrite rev_snoc, rev_snoc.
  assert (exists n, length (c :: (l ++ [d]) ++ ["010"%char]) = S n) as [n ->] by (by eexists).
  cbn [trim_with]. change (List.find _ _) with (Some [10%N]). cbn [length drop].
  rewrite trim_with_none; [|repeat constructor|done].
  by rewrite <- rev_snoc, rev_involutive.
Qed.

Lemma b64_visible_table :
  forallb (fun n => not_space (b64_char (Z.of_nat n))) (List.seq 0 64) = true.
Proof. by vm_compute. Qed.

Lemma base64_visible s : Forall (fun c => not_space c = true) (bytes_of (base64_EncodeToString s)).
Proof.
  unfold base64_EncodeToString. rewrite bytes_of_of, b64_encode_sextets.
  pose proof (b64_sextets_range (bytes_of s)) as HR. apply Forall_map. eapply Forall_impl; [exact HR|].
  intros n Hn. cbv beta in Hn. pose proof b64_visible_table as HT. rewrite forallb_forall in HT.
  specialize (HT (Z.to_nat n)). rewrite Z2Nat.id in HT by lia. apply HT, in_seq. lia.
Qed.

Lemma base64_trim s : s <> "" -> TrimSpace (base64_EncodeToString s) <> "".
Proof.
  intros Hs. pose proof (base64_visible s) as HV. pose proof (base64_len s) as HL.
  assert (1 <= slen s) by (unfold slen; destruct s; [done|cbn; lia]).
  rewrite <- (of_bytes_of (base64_EncodeToString s)) in HL |- *. rewrite slen_of_bytes in HL.
  destruct (bytes_of (base64_EncodeToString s)) as [|c l]; [cbn [length] in HL; lia|].
  destruct l as [|d l _] using rev_ind; [cbn [length] in HL; lia|].
  apply Forall_cons in HV as [Hc HV]. apply Forall_app in HV as [_ Hd]. apply Forall_cons in Hd as [Hd _].
  rewrite trim_solid by done. done.
Qed.

(** ** Text that starts with a visible character *)

Lemma is_prefix_of_skip r c l : is_prefix_of r l = true -> N_of_ascii c ∉ r -> c ∈ l ->
  c ∈ drop (length r) l.
Proof.
  revert l. induction r as [|n r IH]; intros l; [done|]. destruct l as [|d l]; cbn; [done|].
  intros HP Hr Hc. apply not_elem_of_cons in Hr as [Hn Hr]. apply andb_true_iff in HP as [HE HP].
  apply elem_of_cons in Hc as [<-|Hc]; [|by apply IH]. apply N.eqb_eq in HE. by subst.
Qed.

Lemma trim_with_keeps runes fuel c l : Forall (fun r => N_of_ascii c ∉ r) runes -> c ∈ l ->
  c ∈ trim_with runes fuel l.
Proof.
  intros HR. revert l. induction fuel as [|fuel IH]; intros l Hc; [done|]. cbn [trim_with].
  destruct (List.find _ runes) as [r|] eqn:HF; [|done].
  apply find_some in HF as [Hin HP]. apply IH. apply is_prefix_of_skip; [done| |done].
  rewrite Forall_forall in HR. apply HR. by apply list_elem_of_In.
Qed.

Lemma TrimSpace_visible s c : Forall (fun r => N_of_ascii c ∉ r) space_runes -> c ∈ bytes_of s ->
  TrimSpace s <> "".
Proof.
  intros HR Hc HE. apply (f_equal bytes_of) in HE. revert HE. unfold TrimSpace, trim_left, trim_right.
  rewrite bytes_of_of. intros HE.
  enough (c ∈ bytes_of "") by (cbn in *; set_solver). rewrite <- HE.
  apply list_elem_of_In, in_rev. rewrite rev_involutive. apply list_elem_of_In, trim_with_keeps.
  - apply Forall_fmap. eapply Forall_impl; [exact HR|]. cbn. intros r Hr HI. apply Hr.
    apply list_elem_of_In, in_rev. by apply list_elem_of_In.
  - apply list_elem_of_In, in_rev. rewrite rev_involutive. apply list_elem_of_In. by apply trim_with_keeps.
Qed.
