(* ===== verification/Paths.v ===== *)
(** * Absolute paths as lists of names

    [filepath.Clean] is idempotent on absolute paths, and the textual prefix
    test on cleaned paths is the prefix test on their lists of names. *)

From Stdlib Require Import ZArith Lia Ascii String.
From stdpp Require Import base strings list sets.
From S2P Require Import Prelude.
From S2P Require Import GoLib.

(** A name as [Clean] keeps it below the root. *)
Definition name (e : list ascii) : Prop := plain_elem e /\ e <> dotdot.

Lemma split_slash_cons_name e l : slash ∉ e ->
  split_slash (e ++ slash :: l) = e :: split_slash l.
Proof.
  induction e as [|c e IH]; intros He; cbn.
  - by destruct (ascii_dec slash slash).
  - apply not_elem_of_cons in He as [Hc He]. rewrite IH by done.
    by destruct (ascii_dec c slash).
Qed.

Lemma split_slash_name e : slash ∉ e -> split_slash e = [e].
Proof.
  induction e as [|c e IH]; intros He; [done|]. cbn.
  apply not_elem_of_cons in He as [Hc He]. rewrite IH by done. by destruct (ascii_dec c slash).
Qed.

Lemma split_join es : es <> [] -> Forall name es -> split_slash (join_slash es) = es.
Proof.
  intros Hne HF. destruct HF as [|e es He HF]; [done|]. clear Hne.
  revert e He. induction HF as [|e' es He' HF IH]; intros e [(_ & _ & Hs) _].
  - by apply split_slash_name.
  - change (join_slash (e :: e' :: es)) with (e ++ slash :: join_slash (e' :: es)).
    rewrite split_slash_cons_name by done. by rewrite IH.
Qed.

Lemma clean_names es st : Forall name es ->
  fold_left (clean_step true) es st = rev es ++ st.
Proof.
  intros HF. revert st. induction HF as [|e es [(H1 & H2 & _) H3] HF IH]; intros st; [done|].
  cbn [fold_left]. rewrite IH. unfold clean_step. rewrite !decide_False by done.
  cbn [rev]. by rewrite <- app_assoc.
Qed.

Lemma clean_elems_names es : Forall name es -> clean_elems true ([] :: es) = es.
Proof.
  intros HF. unfold clean_elems. cbn [fold_left]. change (clean_step true [] []) with (@nil (list ascii)).
  rewrite clean_names, app_nil_r by done. apply rev_involutive.
Qed.

Lemma Clean_abs p : IsAbs p = true -> Clean p = of_bytes (slash :: join_slash (elems_of p)).
Proof. intros HA. unfold Clean. destruct p; [done|]. by rewrite HA. Qed.

Lemma IsAbs_slash l : IsAbs (of_bytes (slash :: l)) = true.
Proof. unfold IsAbs. apply HasPrefix_spec. by exists (of_bytes l). Qed.

Lemma IsAbs_Clean p : IsAbs p = true -> IsAbs (Clean p) = true.
Proof. intros HA. rewrite Clean_abs by done. apply IsAbs_slash. Qed.

Lemma elems_of_names es : Forall name es -> elems_of (of_bytes (slash :: join_slash es)) = es.
Proof.
  intros HF. unfold elems_of. rewrite IsAbs_slash, bytes_of_of.
  change (slash :: join_slash es) with ([] ++ slash :: join_slash es).
  rewrite split_slash_cons_name by set_solver.
  destruct es as [|e es]; [done|]. rewrite split_join by done. by apply clean_elems_names.
Qed.

Lemma elems_of_Clean p : IsAbs p = true -> elems_of (Clean p) = elems_of p.
Proof. intros HA. rewrite Clean_abs by done. by apply elems_of_names, elems_of_abs. Qed.

Lemma Clean_idem p : IsAbs p = true -> Clean (Clean p) = Clean p.
Proof.
  intros HA. rewrite (Clean_abs (Clean p)) by by apply IsAbs_Clean.
  rewrite elems_of_Clean by done. by rewrite <- Clean_abs.
Qed.

Lemma Clean_inj p q : IsAbs p = true -> IsAbs q = true ->
  Clean p = Clean q <-> elems_of p = elems_of q.
Proof.
  intros Hp Hq. split; intros HE.
  - rewrite <- (elems_of_Clean p), <- (elems_of_Clean q) by done. by rewrite HE.
  - rewrite !Clean_abs by done. by rewrite HE.
Qed.

(** ** Prefixes *)

Lemma split_first e l e' l' : slash ∉ e -> slash ∉ e' ->
  e ++ slash :: l = e' ++ slash :: l' -> e = e' /\ l = l'.
Proof.
  revert e'. induction e as [|c e IH]; intros [|c' e'] He He' HE; simplify_eq/=.
  - done.
  - set_solver.
  - set_solver.
  - destruct (IH e') as [-> ->]; [set_solver..|done|done].
Qed.

Lemma join_prefix es ps t : Forall name es -> Forall name ps -> es <> [] ->
  join_slash ps = join_slash es ++ slash :: t <->
  exists rest, rest <> [] /\ ps = es ++ rest /\ t = join_slash rest.
Proof.
  intros HE. revert ps. induction HE as [|e es [(_ & _ & He) _] HE IH]; intros ps HP Hne; [done|].
  split.
  - destruct HP as [|p ps [(Hp0 & _ & Hp) _] HP]; [destruct es; destruct e; done|].
    destruct es as [|e' es].
    + destruct ps as [|p' ps].
      * cbn. intros ->. set_solver.
      * change (join_slash (p :: p' :: ps)) with (p ++ slash :: join_slash (p' :: ps)). cbn [join_slash].
        intros [-> <-]%split_first; [|done..]. by exists (p' :: ps).
    + change (join_slash (e :: e' :: es)) with (e ++ slash :: join_slash (e' :: es)).
      rewrite <- app_assoc. cbn [app]. destruct ps as [|p' ps].
      * cbn [join_slash]. intros ->. set_solver.
      * change (join_slash (p :: p' :: ps)) with (p ++ slash :: join_slash (p' :: ps)).
        intros [-> Hr]%split_first; [|done..].
        apply IH in Hr as (rest & Hne' & -> & ->); [|done|done]. by exists rest.
  - intros (rest & Hr & -> & ->). apply Forall_cons in HP as [_ HP].
    destruct es as [|e' es].
    + destruct rest; done.
    + change (join_slash ((e :: e' :: es) ++ rest)) with (e ++ slash :: join_slash ((e' :: es) ++ rest)).
      change (join_slash (e :: e' :: es)) with (e ++ slash :: join_slash (e' :: es)).
      rewrite (proj2 (IH ((e' :: es) ++ rest) HP ltac:(done))) by (exists rest; done).
      by rewrite <- app_assoc.
Qed.
