(* ===== verification/World.v ===== *)
(** * The operating system the control plane runs on

    A file system as a finite map from paths to inodes, a clock, a random
    source and an oracle that decides which system call fails. Every call
    consumes one tick of the oracle, so a theorem quantified over the oracle
    covers every pattern of failures. [X] is the rest of the outside world
    (kernel tables, other processes), which only the injected interfaces
    change. The directories above a path are not represented, as the comment
    on [atomicWriteFile] in src/control/policy.go delimits its guarantee. *)

From Stdlib Require Import ZArith Lia Ascii String.
From stdpp Require Import base gmap strings list.
From S2P Require Import Prelude.
From S2P Require Import GoLib.

Inductive inode_kind := Regular | Symlink | Directory | Special.

#[export] Instance inode_kind_eq_dec : EqDecision inode_kind.
Proof. solve_decision. Defined.

Record inode := mkInode {
  i_kind : inode_kind;
  i_perm : Z;
  i_data : string;
}.

Record Oracle := mkOracle {
  o_fault : nat -> option string;  (* the system call of this tick fails with this text *)
  o_short : nat -> nat;      (* bytes that reach the file when a write fails *)
  o_rand : nat -> string;    (* bytes of the system random source *)
  o_now : nat -> time;       (* reading of the clock *)
}.

Record world (X : Type) := mkWorld {
  w_fs : gmap string inode;
  w_tick : nat;
  w_oracle : Oracle;
  w_ext : X;
}.
Arguments mkWorld {X}.
Arguments w_fs {X}.
Arguments w_tick {X}.
Arguments w_oracle {X}.
Arguments w_ext {X}.

Definition set_fs {X} (fs : gmap string inode) (w : world X) : world X :=
  mkWorld fs (w_tick w) (w_oracle w) (w_ext w).
Definition next_tick {X} (w : world X) : world X :=
  mkWorld (w_fs w) (S (w_tick w)) (w_oracle w) (w_ext w).
Definition set_ext {X} (x : X) (w : world X) : world X :=
  mkWorld (w_fs w) (w_tick w) (w_oracle w) x.

Section Syscalls.
Context {X : Type}.
Implicit Types (w : world X) (path : string).

(** The outcome the oracle has for this call; [ErrNotExist] is never a
    spurious failure, it is only returned for a file that is absent. *)
Definition sys w : error * world X :=
  (ErrText <$> o_fault (w_oracle w) (w_tick w), next_tick w).

(** [time.Now] *)
Definition time_Now w : time * world X :=
  (o_now (w_oracle w) (w_tick w), next_tick w).

(** [n] bytes of the random source: exactly [n], as [io.ReadFull] returns
    them when it succeeds. *)
Definition fit (n : nat) (s : string) : string :=
  of_bytes (take n (bytes_of s ++ replicate n Ascii.zero)).

Definition rand_Read (n : nat) w : (goerror + string) * world X :=
  match sys w with
  | (Some e, w1) => (inl e, w1)
  | (None, w1) => (inr (fit n (o_rand (w_oracle w) (w_tick w))), w1)
  end.

Lemma slen_fit n s : slen (fit n s) = Z.of_nat n.
Proof.
  unfold fit. rewrite slen_of_bytes, length_take, length_app, length_replicate. lia.
Qed.

Definition os_Lstat path w : (goerror + inode) * world X :=
  match sys w with
  | (Some e, w1) => (inl e, w1)
  | (None, w1) =>
      match w_fs w !! path with
      | Some i => (inr i, w1)
      | None => (inl ErrNotExist, w1)
      end
  end.

Definition os_Remove path w : error * world X :=
  match sys w with
  | (Some e, w1) => (Some e, w1)
  | (None, w1) =>
      match w_fs w !! path with
      | Some _ => (None, set_fs (delete path (w_fs w1)) w1)
      | None => (Some ErrNotExist, w1)
      end
  end.

(** [os.OpenFile(path, O_CREATE|O_EXCL|O_WRONLY, mode)] *)
Definition os_CreateExcl path (mode : Z) w : error * world X :=
  match sys w with
  | (Some e, w1) => (Some e, w1)
  | (None, w1) =>
      match w_fs w !! path with
      | Some _ => (errors_New "file exists", w1)
      | None => (None, set_fs (<[path := mkInode Regular mode ""]> (w_fs w1)) w1)
      end
  end.

Definition append_data (s : string) (i : inode) : inode :=
  mkInode (i_kind i) (i_perm i) (i_data i +:+ s).

(** A write to the open file at [path]; a failing write may have transferred
    a prefix. *)
Definition f_Write path (data : string) w : error * world X :=
  match sys w with
  | (Some e, w1) =>
      let part := of_bytes (take (o_short (w_oracle w) (w_tick w)) (bytes_of data)) in
      (Some e, set_fs (alter (append_data part) path (w_fs w1)) w1)
  | (None, w1) => (None, set_fs (alter (append_data data) path (w_fs w1)) w1)
  end.

Definition f_Sync w : error * world X := sys w.
Definition f_Close w : error * world X := sys w.

Definition os_Chmod path (mode : Z) w : error * world X :=
  match sys w with
  | (Some e, w1) => (Some e, w1)
  | (None, w1) =>
      (None, set_fs (alter (fun i => mkInode (i_kind i) mode (i_data i)) path (w_fs w1)) w1)
  end.

Definition os_Rename (from to : string) w : error * world X :=
  match sys w with
  | (Some e, w1) => (Some e, w1)
  | (None, w1) =>
      match w_fs w !! from with
      | Some i => (None, set_fs (<[to := i]> (delete from (w_fs w1))) w1)
      | None => (Some ErrNotExist, w1)
      end
  end.

(** [os.Open] of a directory, [os.MkdirAll]: directories are not
    represented, only the failure is. *)
Definition os_OpenDir w : error * world X := sys w.
Definition os_MkdirAll w : error * world X := sys w.

(** [os.Open] followed by reading at most [limit] bytes. *)
Definition read_limited path (limit : Z) w : (goerror + string) * world X :=
  match sys w with
  | (Some e, w1) => (inl e, w1)
  | (None, w1) =>
      match w_fs w !! path with
      | None => (inl ErrNotExist, w1)
      | Some i =>
          match sys w1 with
          | (Some e, w2) => (inl e, w2)
          | (None, w2) => (inr (of_bytes (take (Z.to_nat limit) (bytes_of (i_data i)))), w2)
          end
      end
  end.

(** [rejectSymlink] *)
Definition rejectSymlink path w : error * world X :=
  match os_Lstat path w with
  | (inl e, w1) => if is_not_exist e then (None, w1) else (Some e, w1)
  | (inr st, w1) =>
      if decide (i_kind st = Symlink)
      then (errors_New ("refusing symbolic link: " +:+ path), w1)
      else (None, w1)
  end.

(** [readBoundedPrivateFile] *)
Definition readBoundedPrivateFile path (max : Z) w : (goerror + string) * world X :=
  match os_Lstat path w with
  | (inl e, w1) => (inl e, w1)
  | (inr info, w1) =>
      if decide (i_kind info <> Regular) then
        (inl (ErrText "state file must be a regular non-symlink file"), w1)
      else if negb (Z.land (i_perm info) 63 =? 0) then
        (inl (ErrText "state file must not be group/world accessible"), w1)
      else if (slen (i_data info) <? 0) || (max <? slen (i_data info)) then
        (inl (ErrText "state file exceeds configured size bound"), w1)
      else read_limited path (max + 1) w1
  end.

(** [atomicWriteFile] *)
Definition atomicWriteFile path (data : string) (mode : Z) w : error * world X :=
  match rejectSymlink path w with
  | (Some e, w1) => (Some e, w1)
  | (None, w1) =>
      let tmp := path +:+ ".tmp" in
      let '(_, w2) := os_Remove tmp w1 in
      match os_CreateExcl tmp mode w2 with
      | (Some e, w3) => (Some e, w3)
      | (None, w3) =>
          let '(err, w5) :=
            match f_Write tmp data w3 with
            | (Some e, w4) => (Some e, w4)
            | (None, w4) => f_Sync w4
            end in
          let '(closeErr, w6) := f_Close w5 in
          match err with
          | Some e => let '(_, w7) := os_Remove tmp w6 in (Some e, w7)
          | None =>
              match closeErr with
              | Some e => let '(_, w7) := os_Remove tmp w6 in (Some e, w7)
              | None =>
                  match os_Chmod tmp mode w6 with
                  | (Some e, w7) => let '(_, w8) := os_Remove tmp w7 in (Some e, w8)
                  | (None, w7) =>
                      match os_Rename tmp path w7 with
                      | (Some e, w8) => let '(_, w9) := os_Remove tmp w8 in (Some e, w9)
                      | (None, w8) =>
                          match os_OpenDir w8 with
                          | (Some e, w9) => (Some e, w9)
                          | (None, w9) =>
                              let '(err, w10) := f_Sync w9 in
                              let '(closeErr, w11) := f_Close w10 in
                              match err with
                              | Some e => (Some e, w11)
                              | None => (closeErr, w11)
                              end
                          end
                      end
                  end
              end
          end
      end
  end.

(** ** Progress when no call fails *)

Definition no_faults w : Prop := forall n, o_fault (w_oracle w) n = None.

(** Without faults, writing to a path that is not a symbolic link succeeds. *)
Lemma atomicWriteFile_calm path data mode w :
  no_faults w -> (forall i, w_fs w !! path = Some i -> i_kind i <> Symlink) ->
  exists w', atomicWriteFile path data mode w = (None, w') /\ w_oracle w' = w_oracle w.
Proof.
  intros Hf Hs. unfold atomicWriteFile, rejectSymlink, os_Lstat, os_Remove, os_CreateExcl,
    f_Write, f_Sync, f_Close, os_Chmod, os_Rename, os_OpenDir, sys.
  destruct (w_fs w !! path) as [i|] eqn:Hi;
    [destruct (decide (i_kind i = Symlink)) as [Hk|Hk]; [by apply Hs in Hk|]|];
    (destruct (w_fs w !! (path +:+ ".tmp")) as [j|] eqn:Ht;
     repeat first [rewrite Hf | rewrite Hi | rewrite Ht | rewrite decide_False by done
       | rewrite lookup_delete_eq | rewrite lookup_alter_eq | rewrite lookup_insert_eq
       | progress cbn]; eauto).
Qed.

(** ** What a call may change *)

Lemma tmp_ne path : path <> path +:+ ".tmp".
Proof.
  intros H. apply (f_equal (length ∘ bytes_of)) in H. revert H.
  simpl. rewrite bytes_of_app, length_app. simpl. lia.
Qed.

Lemma set_fs_fs fs w : w_fs (set_fs fs w) = fs. Proof. done. Qed.

(** [same_but ps w w']: the two worlds differ only in the files [ps] and in
    the number of oracle ticks consumed. *)
Definition same_but (ps : list string) w w' : Prop :=
  w_oracle w' = w_oracle w /\ w_ext w' = w_ext w /\
  forall p, p ∉ ps -> w_fs w' !! p = w_fs w !! p.

Lemma same_but_refl ps w : same_but ps w w.
Proof. by split_and!. Qed.

Lemma same_but_trans ps w1 w2 w3 :
  same_but ps w1 w2 -> same_but ps w2 w3 -> same_but ps w1 w3.
Proof.
  intros (H1 & H2 & H3) (K1 & K2 & K3). split_and!; [congruence..|].
  intros p Hp. by rewrite K3, H3.
Qed.

Lemma rejectSymlink_fs path w : w_fs (rejectSymlink path w).2 = w_fs w.
Proof. unfold rejectSymlink, os_Lstat, sys. split_branches; done. Qed.

Lemma rejectSymlink_same ps path w : same_but ps w (rejectSymlink path w).2.
Proof. unfold rejectSymlink, os_Lstat, sys. split_branches; by split_and!. Qed.

(** What [atomicWriteFile] leaves behind: nothing but the target and the
    staging file changed; the target is the old file or the whole new one;
    a nil error means the new one, with no staging file left. *)
Record atomic_write_post path (data : string) (mode : Z) w (e : error) (w' : world X) : Prop := {
  awp_frame : same_but [path; path +:+ ".tmp"] w w';
  awp_atomic : w_fs w' !! path = w_fs w !! path \/
               w_fs w' !! path = Some (mkInode Regular mode data);
  awp_ok : e = None ->
    w_fs w' !! path = Some (mkInode Regular mode data) /\
    w_fs w' !! (path +:+ ".tmp") = None;
}.

Ltac frame_solve :=
  split_and!; [done|done|intros ? ?; simpl in *;
    repeat rewrite ?lookup_insert_ne, ?lookup_delete_ne, ?lookup_alter_ne by set_solver; done].

Lemma same_but_weaken ps qs w w' :
  (forall p, p ∈ ps -> p ∈ qs) -> same_but ps w w' -> same_but qs w w'.
Proof. intros Hs (H1 & H2 & H3). split_and!; [done..|]. intros p Hp. apply H3. set_solver. Qed.

Lemma sys_post w e w' : sys w = (e, w') -> same_but [] w w'.
Proof. unfold sys. intros [= <- <-]. frame_solve. Qed.

Lemma os_Remove_post p w e w' :
  os_Remove p w = (e, w') ->
  same_but [p] w w' /\ (e = None -> w_fs w' !! p = None).
Proof.
  unfold os_Remove, sys. intros H. split_branches;
    (split; [frame_solve|intros; simplify_map_eq; done]).
Qed.

Lemma os_CreateExcl_post p m w e w' :
  os_CreateExcl p m w = (e, w') ->
  same_but [p] w w' /\ (e = None -> w_fs w' !! p = Some (mkInode Regular m "")).
Proof.
  unfold os_CreateExcl, sys. intros H. split_branches;
    (split; [frame_solve|intros; simplify_map_eq; done]).
Qed.

Lemma f_Write_post p d w e w' :
  f_Write p d w = (e, w') ->
  same_but [p] w w' /\ (e = None -> w_fs w' !! p = append_data d <$> w_fs w !! p).
Proof.
  unfold f_Write, sys. intros H. split_branches;
    (split; [frame_solve|intros; simplify_eq/=; by rewrite ?lookup_alter_eq]).
Qed.

Lemma os_Chmod_post p m w e w' :
  os_Chmod p m w = (e, w') ->
  same_but [p] w w' /\
  (e = None -> w_fs w' !! p = (fun i => mkInode (i_kind i) m (i_data i)) <$> w_fs w !! p).
Proof.
  unfold os_Chmod, sys. intros H. split_branches;
    (split; [frame_solve|intros; simplify_eq/=; by rewrite ?lookup_alter_eq]).
Qed.

Lemma os_Rename_post f t w e w' :
  f <> t -> os_Rename f t w = (e, w') ->
  same_but [t; f] w w' /\
  (e = None -> w_fs w' !! t = w_fs w !! f /\ w_fs w' !! f = None /\ is_Some (w_fs w !! f)) /\
  (e <> None -> w_fs w' = w_fs w).
Proof.
  unfold os_Rename, sys. intros Hne H. split_branches;
    (split_and!; [frame_solve|..]);
    intros; simpl in *; simplify_map_eq; try done.
Qed.

Lemma rejectSymlink_refuses p w i :
  w_fs w !! p = Some i -> i_kind i = Symlink ->
  exists e w', rejectSymlink p w = (Some e, w') /\ w_fs w' = w_fs w.
Proof.
  intros Hi Hk. unfold rejectSymlink, os_Lstat, sys.
  destruct (o_fault _ _); simpl; [by eauto|]. rewrite Hi, Hk. simpl. eauto.
Qed.

Lemma rejectSymlink_post p w e w' :
  rejectSymlink p w = (e, w') ->
  same_but [] w w' /\
  (e = None -> forall i, w_fs w !! p = Some i -> i_kind i <> Symlink).
Proof.
  unfold rejectSymlink, os_Lstat, sys. intros H.
  split_branches; (split; [frame_solve|intros; simplify_map_eq; try done]);
  destruct (o_fault _ _); simplify_eq/=.
Qed.

(** Collects the post-condition of each call the goal has made. *)
Ltac call_post :=
  match goal with
  | H : rejectSymlink _ _ = _ |- _ => apply rejectSymlink_post in H as [? ?]
  | H : os_Remove _ _ = _ |- _ => apply os_Remove_post in H as [? ?]
  | H : os_CreateExcl _ _ _ = _ |- _ => apply os_CreateExcl_post in H as [? ?]
  | H : f_Write _ _ _ = _ |- _ => apply f_Write_post in H as [? ?]
  | H : os_Chmod _ _ _ = _ |- _ => apply os_Chmod_post in H as [? ?]
  | H : os_Rename _ _ _ = _ |- _ =>
      apply os_Rename_post in H as (? & ? & ?); [|by auto using tmp_ne]
  | H : f_Sync _ = _ |- _ => apply sys_post in H
  | H : f_Close _ = _ |- _ => apply sys_post in H
  | H : os_OpenDir _ = _ |- _ => apply sys_post in H
  end.

Ltac spec_refl :=
  repeat match goal with
  | H : None = None -> _ |- _ => specialize (H eq_refl)
  | H : Some ?x <> None -> _ |- _ => specialize (H ltac:(discriminate))
  end.

(** Composes the frames along the chain of worlds. *)
Lemma same_but_step ps qs w1 w2 w3 :
  same_but qs w1 w2 -> same_but ps w2 w3 -> (forall p, p ∈ ps -> p ∈ qs) ->
  same_but qs w1 w3.
Proof. intros. eapply same_but_trans; [done|]. by eapply same_but_weaken. Qed.

Lemma same_but_lookup ps w w' p : same_but ps w w' -> p ∉ ps -> w_fs w' !! p = w_fs w !! p.
Proof. intros (_ & _ & H). apply H. Qed.

Lemma same_but_fs_eq ps qs w w' : same_but ps w w' -> w_fs w' = w_fs w -> same_but qs w w'.
Proof. intros (? & ? & _) HF. split_and!; [done..|]. intros. by rewrite HF. Qed.

Lemma failed_write_post path data mode w e w' :
  same_but [path +:+ ".tmp"] w w' -> e <> None ->
  atomic_write_post path data mode w e w'.
Proof.
  intros HF He. pose proof (tmp_ne path). split.
  - eapply same_but_weaken; [|done]. set_solver.
  - left. eapply same_but_lookup; [done|set_solver].
  - done.
Qed.

Lemma renamed_write_post path data mode w w1 w2 e w' :
  same_but [path +:+ ".tmp"] w w1 ->
  same_but [path; path +:+ ".tmp"] w1 w2 -> same_but [] w2 w' ->
  w_fs w2 !! path = Some (mkInode Regular mode data) ->
  w_fs w2 !! (path +:+ ".tmp") = None ->
  atomic_write_post path data mode w e w'.
Proof.
  intros H1 H2 H3 Hp Ht. split.
  - eapply same_but_trans; [eapply same_but_weaken; [|exact H1]; set_solver|].
    eapply same_but_step; [done|done|set_solver].
  - right. erewrite same_but_lookup; [done|exact H3|set_solver].
  - intros _. split; (erewrite same_but_lookup; [done|exact H3|set_solver]).
Qed.

Ltac chain :=
  repeat first
    [ apply same_but_refl | eassumption
    | eapply same_but_step; [|eassumption|set_solver] ].

#[local] Opaque f_Sync f_Close os_OpenDir os_Remove os_Chmod os_Rename f_Write os_CreateExcl
  rejectSymlink.

Ltac step_call c w' :=
  destruct c as [[?|] w'] eqn:?; simplify_eq/=; repeat call_post; spec_refl.

Lemma atomicWriteFile_post path data mode w e w' :
  atomicWriteFile path data mode w = (e, w') ->
  atomic_write_post path data mode w e w'.
Proof.
  unfold atomicWriteFile. intros HW.
  destruct (rejectSymlink path w) as [[e1|] w1] eqn:?; simplify_eq/=; repeat call_post.
  { apply failed_write_post; [chain|done]. }
  destruct (os_Remove (path +:+ ".tmp") w1) as [r w2] eqn:?; repeat call_post.
  destruct (os_CreateExcl (path +:+ ".tmp") mode w2) as [[e3|] w3] eqn:?;
    simplify_eq/=; repeat call_post.
  { apply failed_write_post; [chain|done]. }
  destruct (match f_Write (path +:+ ".tmp") data w3 with
            | (Some e, w4) => (Some e, w4) | (None, w4) => f_Sync w4 end)
    as [err w5] eqn:Hwr.
  assert (same_but [path +:+ ".tmp"] w3 w5 /\
    (err = None -> w_fs w5 !! (path +:+ ".tmp") = Some (mkInode Regular mode data)))
    as [Hfr Hdata].
  { step_call (f_Write (path +:+ ".tmp") data w3) w4; [done|].
    split; [chain|intros ->]. erewrite same_but_lookup; [|done|set_solver].
    spec_refl. match goal with H : w_fs w4 !! _ = _ |- _ => rewrite H end.
    by match goal with H : w_fs w3 !! _ = _ |- _ => rewrite H end. }
  destruct (f_Close w5) as [cerr w6] eqn:?; repeat call_post.
  destruct err as [e5|].
  { step_call (os_Remove (path +:+ ".tmp") w6) w7; (apply failed_write_post; [chain|done]). }
  destruct cerr as [e6|].
  { step_call (os_Remove (path +:+ ".tmp") w6) w7; (apply failed_write_post; [chain|done]). }
  step_call (os_Chmod (path +:+ ".tmp") mode w6) w7.
  { step_call (os_Remove (path +:+ ".tmp") w7) w8; (apply failed_write_post; [chain|done]). }
  step_call (os_Rename (path +:+ ".tmp") path w7) w8.
  { assert (same_but [path +:+ ".tmp"] w7 w8).
    { by eapply same_but_fs_eq. }
    step_call (os_Remove (path +:+ ".tmp") w8) w9; (apply failed_write_post; [chain|done]). }
  assert (forall w9, same_but [] w8 w9 -> atomic_write_post path data mode w e w9) as Hdone.
  { intros w9 Hw9. destruct_and!. eapply renamed_write_post; [| |exact Hw9| |];
      [| eassumption | |done]; [chain|].
    repeat match goal with H : w_fs _ !! _ = _ |- _ => rewrite H; clear H end.
    erewrite same_but_lookup; [|eassumption|set_solver]. by rewrite Hdata. }
  step_call (os_OpenDir w8) w9; [by apply Hdone|].
  destruct (f_Sync w9) as [e10 w10] eqn:?, (f_Close w10) as [e11 w11] eqn:?; repeat call_post.
  destruct e10; simplify_eq; apply Hdone; chain.
Qed.

(** Reading back what was written: the bounded private read returns the file's
    whole content, and only for a private regular file within the bound. *)
Lemma readBounded_spec path max w d w' :
  readBoundedPrivateFile path max w = (inr d, w') ->
  same_but [] w w' /\
  exists i, w_fs w !! path = Some i /\ i_kind i = Regular /\
    Z.land (i_perm i) 63 = 0 /\ d = i_data i /\ slen d <= max.
Proof.
  unfold readBoundedPrivateFile, os_Lstat, read_limited, sys.
  intros H. split_branches; bool_to_prop.
  split; [frame_solve|].
  match goal with H : w_fs _ !! _ = Some ?i |- _ =>
    exists i; destruct (decide (i_kind i = Regular)); [|done] end.
  rewrite take_ge, of_bytes_of by (unfold slen in *; rewrite length_bytes_of; lia).
  by split_and!.
Qed.

(** Without faults a private file within the bound is read. *)
Lemma readBounded_calm path max w i :
  no_faults w -> w_fs w !! path = Some i -> i_kind i = Regular -> Z.land (i_perm i) 63 = 0 ->
  slen (i_data i) <= max -> exists w', readBoundedPrivateFile path max w = (inr (i_data i), w').
Proof.
  intros Hf Hi Hk Hp Hs. unfold readBoundedPrivateFile, os_Lstat, read_limited, sys.
  do 4 (rewrite ?Hf, ?Hi, ?Hk, ?Hp; simpl).
  assert ((slen (i_data i) <? 0) || (max <? slen (i_data i)) = false) as ->.
  { apply orb_false_iff. unfold slen in *. split; apply Z.ltb_ge; lia. }
  simpl. eexists. rewrite take_ge, of_bytes_of; [done|].
  unfold slen in *. rewrite length_bytes_of. lia.
Qed.

(** A file that is present is never reported as missing. *)
Lemma readBounded_present path max w err w' i :
  readBoundedPrivateFile path max w = (inl err, w') -> w_fs w !! path = Some i ->
  is_not_exist err = false.
Proof.
  unfold readBoundedPrivateFile, os_Lstat, read_limited. intros HR Hi.
  repeat (case_match; simplify_eq/=; try done).
  all: match goal with H : ErrText <$> ?x = Some _ |- _ => destruct x; by simplify_eq/= end.
Qed.

Lemma readBounded_frame path max w : same_but [] w (readBoundedPrivateFile path max w).2.
Proof.
  unfold readBoundedPrivateFile, os_Lstat, read_limited, sys. split_branches; frame_solve.
Qed.

(** C10: the crash-safety contract of the stores. Whatever system call fails,
    the target holds its previous content or the complete new document, no
    other file is touched, and success means the new document is in place. *)
Theorem atomicWriteFile_atomic path data mode w :
  let '(e, w') := atomicWriteFile path data mode w in
  (w_fs w' !! path = w_fs w !! path \/
   w_fs w' !! path = Some (mkInode Regular mode data)) /\
  (e = None -> w_fs w' !! path = Some (mkInode Regular mode data) /\
               w_fs w' !! (path +:+ ".tmp") = None) /\
  (forall p, p <> path -> p <> path +:+ ".tmp" -> w_fs w' !! p = w_fs w !! p) /\
  ((exists i, w_fs w !! path = Some i /\ i_kind i = Symlink) ->
   e <> None /\ w_fs w' = w_fs w).
Proof.
  destruct (atomicWriteFile path data mode w) as [e w'] eqn:HW.
  pose proof (atomicWriteFile_post _ _ _ _ _ _ HW) as [(_ & _ & HF) HA HO].
  split_and!; [done|done|intros; apply HF; set_solver|].
  intros (i & Hi & Hk). destruct (rejectSymlink_refuses _ _ _ Hi Hk) as (e1 & w1 & HR & Hfs).
  revert HW. unfold atomicWriteFile. rewrite HR. by intros [= <- <-].
Qed.
End Syscalls.
