(* ===== verification/Storage.v ===== *)
(** * Encrypted storage (src/control/storage_crypto.go)

    The authenticated envelope every state document of the control plane is
    written in. The primitives of Go's crypto packages and the JSON codec are
    parameters given by type classes whose laws state their documented
    behaviour. *)

From Stdlib Require Import ZArith Lia Ascii String.
From stdpp Require Import base gmap strings list countable pretty.
From S2P Require Import Prelude.
From S2P Require Import GoLib.
From S2P Require Import World.

(** ** Interfaces *)

(** [crypto/sha256], [crypto/hmac] and AES-256-GCM of [crypto/cipher]. *)
Class Crypto := {
  sha256_Sum : string -> string;
  hmac_sha256 : string -> string -> string;
  gcm_Seal : string -> string -> string -> string -> string;
  gcm_Open : string -> string -> string -> string -> option string;
}.

(** Digest sizes, and GCM as a deterministic authenticated encryption for a
    fixed key and nonce: opening succeeds exactly on what sealing produced
    under the same additional data, and the tag has sixteen bytes. *)
Class CryptoLaws (C : Crypto) := {
  sha256_len : forall m, slen (sha256_Sum m) = 32;
  hmac_len : forall k m, slen (hmac_sha256 k m) = 32;
  gcm_open_seal : forall k n p a, gcm_Open k n (gcm_Seal k n p a) a = Some p;
  gcm_open_inv : forall k n c p a, gcm_Open k n c a = Some p -> c = gcm_Seal k n p a;
  gcm_seal_len : forall k n p a, slen (gcm_Seal k n p a) = slen p + 16;
}.

(** A JSON document type: [json.Marshal], and the strict decoding the stores
    use ([DisallowUnknownFields], no trailing data). [json_canonical] holds of
    the values JSON represents faithfully (valid UTF-8 text, compact raw
    messages). *)
Class JSONDoc (T : Type) := {
  json_Marshal : T -> goerror + string;
  json_Decode : string -> goerror + T;
  json_canonical : T -> Prop;
}.

Class JSONDocLaws (T : Type) `{JSONDoc T} := {
  json_roundtrip : forall x b, json_canonical x -> json_Marshal x = inr b -> json_Decode b = inr x;
  json_trimmed : forall x b, json_Marshal x = inr b -> TrimSpace b = b /\ b <> "";
  json_newline : forall x b, json_Marshal x = inr b ->
    TrimSpace (b +:+ newline) = b /\ json_Decode (b +:+ newline) = json_Decode b;
}.

Definition encryptedStorageSchema : string := "vgt-gedefense-aes256gcm-v1".

Record encryptedStorageEnvelope := mkEnvelope {
  Schema : string;
  Cipher : string;
  Purpose : string;
  Sequence : Z;
  AADHash : string;
  Nonce : string;
  Ciphertext : string;
}.

(** The schema probe of [Decrypt]: a lenient [json.Unmarshal] that reads only
    the field "schema". *)
Class EnvelopeProbe `{JSONDoc encryptedStorageEnvelope} := {
  json_ProbeSchema : string -> option string;
  json_ascii_envelope : forall e,
    is_ascii (Schema e) = true -> is_ascii (Cipher e) = true -> is_ascii (Purpose e) = true ->
    is_ascii (AADHash e) = true -> is_ascii (Nonce e) = true -> is_ascii (Ciphertext e) = true ->
    0 <= Sequence e <= MaxUint64 -> json_canonical e;
  json_envelope_len : forall e b, json_Marshal e = inr b -> slen (Ciphertext e) <= slen b;
  json_probe_marshal : forall e b,
    json_canonical e -> json_Marshal e = inr b -> json_ProbeSchema b = Some (Schema e);
}.

Record StorageCipher := mkStorageCipher {
  rootKey : string;
  nodeName : string;
}.

Definition nul : string := String Ascii.zero EmptyString.

(** [storageAAD] *)
Definition storageAAD (node purpose path : string) (sequence : Z) : string :=
  encryptedStorageSchema +:+ nul +:+ "node=" +:+ node +:+ nul +:+ "purpose=" +:+ purpose
    +:+ nul +:+ "path=" +:+ Clean path +:+ nul +:+ "sequence=" +:+ itoa sequence.

(** [aes.NewCipher] accepts the AES key sizes only. *)
Definition aes_NewCipher (key : string) : error :=
  if (slen key =? 16) || (slen key =? 24) || (slen key =? 32) then None
  else errors_New "crypto/aes: invalid key size".

Definition gcm_NonceSize : nat := 12.
Definition gcm_Overhead : Z := 16.

Section StorageCipher.
Context {X : Type} `{C : Crypto} `{JE : JSONDoc encryptedStorageEnvelope} `{EP : !EnvelopeProbe}.

(** [purposeKey] *)
Definition purposeKey (c : option StorageCipher) (purpose : string) : goerror + string :=
  match c with
  | None => inl (ErrText "storage cipher unavailable")
  | Some c =>
      if decide (purpose = "") then inl (ErrText "invalid encryption purpose")
      else if 96 <? slen purpose then inl (ErrText "invalid encryption purpose")
      else inr (hmac_sha256 (rootKey c)
        ("VGT-GEDEFENSE-AES256GCM-KEY-V1" +:+ nul +:+ nodeName c +:+ nul +:+ purpose))
  end.

(** [Encrypt] *)
Definition Encrypt (c : option StorageCipher) (path purpose : string) (sequence : Z)
    (plaintext : string) (w : world X) : (goerror + string) * world X :=
  match purposeKey c purpose with
  | inl e => (inl e, w)
  | inr key =>
      match aes_NewCipher key with
      | Some e => (inl e, w)
      | None =>
          match rand_Read gcm_NonceSize w with
          | (inl e, w1) => (inl e, w1)
          | (inr nonce, w1) =>
              let node := match c with Some c => nodeName c | None => "" end in
              let aad := storageAAD node purpose path sequence in
              let sealed := gcm_Seal key nonce plaintext aad in
              let digest := sha256_Sum aad in
              let envelope := mkEnvelope encryptedStorageSchema "AES-256-GCM" purpose sequence
                (hex_EncodeToString digest) (base64_EncodeToString nonce)
                (base64_EncodeToString sealed) in
              (json_Marshal envelope, w1)
          end
      end
  end.

(** [Decrypt]: the plaintext and whether the document was not encrypted at
    all. *)
Definition Decrypt (c : option StorageCipher) (path purpose data : string)
    (expectedSequence : option Z) : goerror + (string * bool) :=
  let trimmed := TrimSpace data in
  if slen trimmed =? 0 then inl (ErrText "encrypted storage document is empty")
  else if negb (bool_decide (json_ProbeSchema trimmed = Some encryptedStorageSchema)) then
    inr (data, true)
  else
    match json_Decode trimmed with
    | inl e => inl (ErrWrap "encrypted envelope" e)
    | inr envelope =>
        if negb (bool_decide (Schema envelope = encryptedStorageSchema)
                 && bool_decide (Cipher envelope = "AES-256-GCM")
                 && bool_decide (Purpose envelope = purpose)) then
          inl (ErrText "encrypted envelope binding mismatch")
        else if match expectedSequence with
                | Some s => negb (Sequence envelope =? s) | None => false end then
          inl (ErrText "encrypted record sequence mismatch")
        else
          match base64_DecodeString (Nonce envelope) with
          | None => inl (ErrText "encrypted envelope nonce is malformed")
          | Some nonce =>
          match base64_DecodeString (Ciphertext envelope) with
          | None => inl (ErrText "encrypted envelope ciphertext is malformed")
          | Some ciphertext =>
              let node := match c with Some c => nodeName c | None => "" end in
              let aad := storageAAD node purpose path (Sequence envelope) in
              let digest := sha256_Sum aad in
              match hex_DecodeString (AADHash envelope) with
              | None => inl (ErrText "encrypted envelope AAD binding mismatch")
              | Some provided =>
                  if negb (bool_decide (provided = digest)) then
                    inl (ErrText "encrypted envelope AAD binding mismatch")
                  else
                    match purposeKey c purpose with
                    | inl e => inl e
                    | inr key =>
                        match aes_NewCipher key with
                        | Some e => inl e
                        | None =>
                            if negb (slen nonce =? Z.of_nat gcm_NonceSize)
                               || (slen ciphertext <? gcm_Overhead) then
                              inl (ErrText "encrypted envelope sizes are invalid")
                            else
                              match gcm_Open key nonce ciphertext aad with
                              | None => inl (ErrText "encrypted storage authentication failed")
                              | Some plaintext => inr (plaintext, false)
                              end
                        end
                    end
              end
          end
          end
    end.

Lemma Encrypt_same c path purpose seq pt w r w' :
  Encrypt c path purpose seq pt w = (r, w') -> same_but [] w w'.
Proof. unfold Encrypt, rand_Read, sys. intros H. split_branches; by split_and!. Qed.

Lemma Encrypt_trimmed `{!JSONDocLaws encryptedStorageEnvelope} c path purpose seq pt w b w' :
  Encrypt c path purpose seq pt w = (inr b, w') ->
  TrimSpace b = b /\ TrimSpace (b +:+ newline) = b.
Proof.
  unfold Encrypt. intros HE.
  destruct (purposeKey _ _) as [|key]; [done|]. destruct (aes_NewCipher key); [done|].
  destruct (rand_Read _ _) as [[|nonce] wr]; [done|]. injection HE as HE <-.
  exact (conj (proj1 (json_trimmed _ _ HE)) (proj1 (json_newline _ _ HE))).
Qed.

(** [Destroy] *)
Definition Destroy (c : option StorageCipher) : option StorageCipher :=
  match c with
  | None => None
  | Some _ => Some (mkStorageCipher "" "")
  end.

Context `{CL : !CryptoLaws C} `{JEL : !JSONDocLaws encryptedStorageEnvelope}.

Lemma Decrypt_Encrypt c path purpose seq pt w b w' :
  is_ascii purpose = true -> 0 <= seq <= MaxUint64 ->
  Encrypt c path purpose seq pt w = (inr b, w') ->
  forall data expected, TrimSpace data = b -> (expected = None \/ expected = Some seq) ->
  Decrypt c path purpose data expected = inr (pt, false).
Proof.
  intros Hpur Hrange HE data expected Htrim Hexp. unfold Encrypt in HE.
  destruct (purposeKey c purpose) as [e|key] eqn:Hkey; [done|].
  destruct (aes_NewCipher key) eqn:Haes; [done|].
  destruct (rand_Read gcm_NonceSize w) as [[e|nonce] w1] eqn:Hr; [done|].
  assert (slen nonce = 12) as Hn.
  { unfold rand_Read, sys in Hr. split_branches. by rewrite slen_fit. }
  injection HE as HM ->.
  match type of HM with json_Marshal ?e = _ => assert (json_canonical e) as Hcan end.
  { apply json_ascii_envelope; simpl; auto using hex_is_ascii, base64_is_ascii. }
  destruct (json_trimmed _ _ HM) as [_ Hne].
  unfold Decrypt. rewrite Htrim.
  assert ((slen b =? 0) = false) as -> by (destruct b; [done|]; unfold slen; simpl; lia).
  rewrite (json_probe_marshal _ _ Hcan HM), bool_decide_true by done.
  rewrite (json_roundtrip _ _ Hcan HM). cbn [negb Schema Cipher Purpose Sequence Nonce
    Ciphertext AADHash].
  rewrite !bool_decide_true by done. cbn [negb andb].
  assert (match expected with Some s => negb (seq =? s) | None => false end = false) as ->
    by (destruct Hexp as [-> | ->]; [done|by rewrite Z.eqb_refl]).
  rewrite !base64_roundtrip, hex_roundtrip, bool_decide_true, Hkey, Haes by done.
  cbn [negb]. rewrite Hn, gcm_seal_len. cbn [Z.of_nat gcm_NonceSize].
  destruct (Z.ltb_spec (slen pt + 16) gcm_Overhead); [unfold slen, gcm_Overhead in *; lia|].
  by rewrite gcm_open_seal.
Qed.

(** What [Encrypt] wrote under a path, purpose and sequence number,
    [Decrypt] returns for the same three, as an encrypted document, also with
    the white space (a final newline) the stores put around it. *)
Theorem decrypt_encrypt c path purpose seq pt w b w' :
  is_ascii purpose = true -> 0 <= seq <= MaxUint64 ->
  Encrypt c path purpose seq pt w = (inr b, w') ->
  forall data expected, TrimSpace data = b -> (expected = None \/ expected = Some seq) ->
  Decrypt c path purpose data expected = inr (pt, false).
Proof. exact (Decrypt_Encrypt c path purpose seq pt w b w'). Qed.

Lemma Decrypt_inv c path purpose data expected pt :
  Decrypt c path purpose data expected = inr (pt, false) ->
  exists c0 env key nonce,
    c = Some c0 /\
    json_Decode (TrimSpace data) = inr env /\
    Purpose env = purpose /\
    (forall s, expected = Some s -> Sequence env = s) /\
    purposeKey c purpose = inr key /\
    let aad := storageAAD (nodeName c0) purpose path (Sequence env) in
    hex_DecodeString (AADHash env) = Some (sha256_Sum aad) /\
    base64_DecodeString (Nonce env) = Some nonce /\ slen nonce = 12 /\
    base64_DecodeString (Ciphertext env) = Some (gcm_Seal key nonce pt aad).
Proof.
  unfold Decrypt. intros HD.
  destruct (slen (TrimSpace data) =? 0); [done|].
  case_bool_decide; [simpl in HD|done].
  destruct (json_Decode (TrimSpace data)) as [|env] eqn:Hdec; [done|].
  destruct (negb (_ && _)) eqn:Hb; [done|].
  destruct (match expected with Some s => _ | None => false end) eqn:Hseq; [done|].
  destruct (base64_DecodeString (Nonce env)) as [nonce|] eqn:Hnon; [|done].
  destruct (base64_DecodeString (Ciphertext env)) as [ct|] eqn:Hct; [|done].
  destruct (hex_DecodeString (AADHash env)) as [dg|] eqn:Hdg; [|done].
  case_bool_decide; [simpl in HD|done].
  destruct (purposeKey c purpose) as [|key] eqn:Hkey; [done|].
  destruct (aes_NewCipher key); [done|].
  destruct (_ || _) eqn:Hsz in HD; [done|].
  destruct (gcm_Open _ _ _ _) as [p|] eqn:Ho in HD; [|done]. simplify_eq.
  apply gcm_open_inv in Ho. bool_to_prop.
  rewrite !bool_decide_eq_true in *.
  destruct c as [c0|]; [|done].
  exists c0, env, key, nonce. split_and!; try done.
  - intros s ->. by bool_to_prop.
  - by subst.
Qed.

(** An accepted encrypted document is bound to its place: its envelope
    names the purpose and, when the caller expects one, the sequence number;
    its digest is that of the additional data computed from this node, purpose
    and path; and its ciphertext is what this node's key for the purpose seals
    for that additional data. Anything else is refused or is an unencrypted
    legacy document. *)
Theorem decrypt_bound c path purpose data expected pt :
  Decrypt c path purpose data expected = inr (pt, false) ->
  exists c0 env key nonce,
    c = Some c0 /\
    json_Decode (TrimSpace data) = inr env /\
    Purpose env = purpose /\
    (forall s, expected = Some s -> Sequence env = s) /\
    purposeKey c purpose = inr key /\
    let aad := storageAAD (nodeName c0) purpose path (Sequence env) in
    hex_DecodeString (AADHash env) = Some (sha256_Sum aad) /\
    base64_DecodeString (Nonce env) = Some nonce /\ slen nonce = 12 /\
    base64_DecodeString (Ciphertext env) = Some (gcm_Seal key nonce pt aad).
Proof. exact (Decrypt_inv c path purpose data expected pt). Qed.
End StorageCipher.
