(* ===== verification/Lines.v ===== *)
(** * Append-only text files

    A file that is only ever extended ([os.OpenFile] with O_APPEND) and read
    back line by line ([bufio.Scanner] with a 4 MiB buffer), as the evidence
    ledger does. *)

From Stdlib Require Import ZArith Lia Ascii String.
From stdpp Require Import base gmap strings list.
From S2P Require Import Prelude.
From S2P Require Import GoLib.
From S2P Require Import Storage.
From S2P Require Import World.

Definition lf : ascii := "010".
Definition cr : ascii := "013".

(** ** The scanner *)

(** The pieces between line feeds; a last piece without one counts when it is
    not empty. *)
Fixpoint split_lf (l cur : list ascii) : list (list ascii) :=
  match l with
  | [] => match cur with [] => [] | _ => [cur] end
  | c :: l => if Ascii.eqb c lf then cur :: split_lf l [] else split_lf l (cur ++ [c])
  end.

(** [bufio.ScanLines] drops one carriage return at the end of a line. *)
Definition drop_cr (l : list ascii) : list ascii :=
  match rev l with c :: r => if Ascii.eqb c cr then rev r else l | [] => l end.

Definition max_token : Z := 4194304.

(** The tokens before the first line that does not fit the buffer. *)
Fixpoint fitting (ls : list (list ascii)) : list string * error :=
  match ls with
  | [] => ([], None)
  | l :: rest =>
      if max_token <=? Z.of_nat (length l) then ([], errors_New "bufio.Scanner: token too long")
      else let '(ts, err) := fitting rest in (of_bytes (drop_cr l) :: ts, err)
  end.

Definition scan_data (data : string) : list string * error := fitting (split_lf (bytes_of data) []).

(** A line the scanner returns as it was written. *)
Record one_line (s : string) : Prop := {
  ol_lf : lf ∉ bytes_of s;
  ol_cr : cr ∉ bytes_of s;
  ol_fits : slen s < max_token;
}.

Definition lines_text (ls : list string) : string := of_bytes (concat (map (fun s => bytes_of s ++ [lf]) ls)).

Lemma split_lf_line l rest cur : lf ∉ l -> split_lf (l ++ lf :: rest) cur = (cur ++ l) :: split_lf rest [].
Proof.
  revert cur. induction l as [|c l IH]; intros cur Hl; cbn.
  - by rewrite app_nil_r.
  - apply not_elem_of_cons in Hl as [Hc Hl]. destruct (Ascii.eqb_spec c lf); [congruence|].
    rewrite IH by done. by rewrite <- app_assoc.
Qed.

Lemma split_lf_end l cur : lf ∉ l -> cur ++ l <> [] -> split_lf l cur = [cur ++ l].
Proof.
  revert cur. induction l as [|c l IH]; intros cur Hl Hne; cbn.
  - rewrite app_nil_r in *. by destruct cur.
  - apply not_elem_of_cons in Hl as [Hc Hl]. destruct (Ascii.eqb_spec c lf); [congruence|].
    rewrite IH; [by rewrite <- app_assoc|done|by rewrite <- app_assoc].
Qed.

Lemma drop_cr_none l : cr ∉ l -> drop_cr l = l.
Proof.
  intros Hl. unfold drop_cr. destruct (rev l) as [|c r] eqn:HR; [done|].
  destruct (Ascii.eqb_spec c cr) as [->|]; [|done]. destruct Hl.
  rewrite <- (rev_involutive l), HR. apply list_elem_of_In, in_rev. rewrite rev_involutive. by left.
Qed.

Lemma split_lines_text ls rest : Forall (fun s => lf ∉ bytes_of s) ls ->
  split_lf (concat (map (fun s => bytes_of s ++ [lf]) ls) ++ rest) [] = map bytes_of ls ++ split_lf rest [].
Proof.
  induction 1 as [|s ls Hs _ IH]; [done|]. cbn [map concat app]. rewrite <- !app_assoc. cbn [app].
  rewrite split_lf_line by done. cbn [app]. by rewrite IH.
Qed.

Lemma fitting_app ls rest : Forall one_line ls ->
  fitting (map bytes_of ls ++ rest) = (ls ++ (fitting rest).1, (fitting rest).2).
Proof.
  induction 1 as [|s ls [Hl Hc Hf] _ IH]; cbn; [by destruct (fitting rest)|].
  rewrite length_bytes_of, (proj2 (Z.leb_gt _ _)) by exact Hf.
  rewrite IH, drop_cr_none, of_bytes_of by done. done.
Qed.

(** Whole lines are read back as they were written. *)
Lemma scan_lines_text ls : Forall one_line ls -> scan_data (lines_text ls) = (ls, None).
Proof.
  intros HL. unfold scan_data, lines_text. rewrite bytes_of_of.
  rewrite <- (app_nil_r (concat _)), split_lines_text by (eapply Forall_impl; [exact HL|]; by intros s []).
  cbn [split_lf]. by rewrite fitting_app, app_nil_r.
Qed.

(** A partially written line after whole lines is one more line. *)
Lemma scan_partial_text ls part : Forall one_line ls -> one_line part -> part <> "" ->
  scan_data (lines_text ls +:+ part) = (ls ++ [part], None).
Proof.
  intros HL HP Hne. unfold scan_data, lines_text. rewrite bytes_of_app, bytes_of_of.
  rewrite split_lines_text by (eapply Forall_impl; [exact HL|]; by intros s []).
  rewrite split_lf_end; [|apply HP|].
  - cbn [app]. rewrite (fitting_app _ [bytes_of part]) by done.
    pose proof (fitting_app [part] []) as HF. cbn [map app] in HF. rewrite HF by (by constructor). done.
  - cbn. intros HE. apply Hne. by rewrite <- (of_bytes_of part), HE.
Qed.

Lemma lines_text_snoc ls s : lines_text (ls ++ [s]) = lines_text ls +:+ s +:+ newline.
Proof.
  unfold lines_text. apply bytes_of_inj. rewrite !bytes_of_app, !bytes_of_of.
  rewrite map_app, concat_app. cbn [map concat]. by rewrite app_nil_r.
Qed.

Lemma slen_app s1 s2 : slen (s1 +:+ s2) = slen s1 + slen s2.
Proof. unfold slen. rewrite <- !length_bytes_of, bytes_of_app, length_app. lia. Qed.

Lemma lines_text_len ls : Z.of_nat (length ls) <= slen (lines_text ls).
Proof.
  unfold lines_text. rewrite slen_of_bytes. induction ls as [|s ls IH]; [done|].
  cbn [map concat length]. rewrite !length_app. cbn [length]. lia.
Qed.

(** ** System calls *)

Section Calls.
Context {X : Type}.
Implicit Types (w : world X) (path : string).

(** [os.OpenFile(path, O_CREATE|O_APPEND|O_WRONLY|O_NOFOLLOW, mode)] *)
Definition os_OpenAppend path (mode : Z) w : error * world X :=
  match sys w with
  | (Some e, w1) => (Some e, w1)
  | (None, w1) =>
      match w_fs w !! path with
      | None => (None, set_fs (<[path := mkInode Regular mode ""]> (w_fs w1)) w1)
      | Some i =>
          match i_kind i with
          | Symlink => (errors_New "too many levels of symbolic links", w1)
          | Directory => (errors_New "is a directory", w1)
          | _ => (None, w1)
          end
      end
  end.

(** [os.Open] and a scan of the whole file: the tokens and the scanner's error.
    A failing read ends the data early; the scanner still returns the tokens
    before it. *)
Definition scan_file path w : (goerror + (list string * error)) * world X :=
  match sys w with
  | (Some e, w1) => (inl e, w1)
  | (None, w1) =>
      match w_fs w !! path with
      | None => (inl ErrNotExist, w1)
      | Some i =>
          match sys w1 with
          | (Some e, w2) =>
              let part := of_bytes (take (o_short (w_oracle w1) (w_tick w1)) (bytes_of (i_data i))) in
              (inr ((scan_data part).1, Some e), w2)
          | (None, w2) => (inr (scan_data (i_data i)), w2)
          end
      end
  end.

(** A call that changes no file. *)
Lemma same_but_nil ps w w' : same_but [] w w' -> same_but ps w w'.
Proof. apply same_but_weaken. intros p Hp. by apply not_elem_of_nil in Hp. Qed.

Lemma same_nil_fs w w' p : same_but [] w w' -> w_fs w' !! p = w_fs w !! p.
Proof. intros HS. apply (same_but_lookup _ _ _ _ HS), not_elem_of_nil. Qed.

Lemma scan_file_frame path w r w' : scan_file path w = (r, w') -> same_but [] w w'.
Proof. unfold scan_file, sys. intros H. split_branches; by split_and!. Qed.

(** Without an error the whole file was read. *)
Lemma scan_file_ok path w ls w' : scan_file path w = (inr (ls, None), w') ->
  exists i, w_fs w !! path = Some i /\ scan_data (i_data i) = (ls, None).
Proof. unfold scan_file, sys. intros H. split_branches. eauto. Qed.

Lemma scan_file_calm path w i : no_faults w -> w_fs w !! path = Some i ->
  exists w', scan_file path w = (inr (scan_data (i_data i)), w').
Proof. intros Hf Hi. unfold scan_file, sys. rewrite Hf, Hi. cbn. rewrite Hf. eauto. Qed.

Lemma os_OpenAppend_post path mode w e w' : os_OpenAppend path mode w = (e, w') ->
  same_but [path] w w' /\
  (e = None -> w_fs w' !! path = Some (default (mkInode Regular mode "") (w_fs w !! path))) /\
  (e <> None -> w_fs w' !! path = w_fs w !! path).
Proof.
  unfold os_OpenAppend, sys. intros H. split_branches;
    (split_and!; [by split_and!; [done|done|intros; cbn; rewrite ?lookup_insert_ne by set_solver]
      |intros; simplify_map_eq; done|intros; simplify_map_eq; try done]).
Qed.
End Calls.
