(* ===== verification/Instances.v ===== *)
(** * Concrete instances of the storage interfaces

    A small executable codec and a toy authenticated cipher that satisfy the
    laws of [Storage.v]. They show that the laws are consistent and let the
    witnesses of the theorems evaluate; no theorem about the program is
    proved only for them. *)

From Stdlib Require Import ZArith Lia Ascii String.
From stdpp Require Import base gmap strings list countable.
From S2P Require Import Prelude.
From S2P Require Import GoLib.
From S2P Require Import Strconv.
From S2P Require Import Text.
From S2P Require Import World.
From S2P Require Import Storage.

(** ** Packing a list of byte strings

    Every byte is preceded by a [c], every string is closed by a comma. *)
Definition pack_str (s : list ascii) : list ascii :=
  concat (map (fun c => ["c"%char; c]) s) ++ [","%char].

Definition pack (ss : list string) : string :=
  of_bytes (concat (map (fun s => pack_str (bytes_of s)) ss)).

Fixpoint unpack_list (l : list ascii) (cur : list ascii) : option (list string) :=
  match l with
  | [] => match cur with [] => Some [] | _ => None end
  | m :: l1 =>
      if ascii_dec m "c" then
        match l1 with
        | [] => None
        | x :: l2 => unpack_list l2 (x :: cur)
        end
      else if ascii_dec m "," then
        match unpack_list l1 [] with
        | Some r => Some (of_bytes (rev cur) :: r)
        | None => None
        end
      else None
  end.

Definition unpack (s : string) : option (list string) := unpack_list (bytes_of s) [].

Lemma unpack_str s rest cur :
  unpack_list (pack_str s ++ rest) cur
  = match unpack_list rest [] with
    | Some r => Some (of_bytes (rev cur ++ s) :: r) | None => None end.
Proof.
  revert cur. induction s as [|x s IH]; intros cur.
  - simpl. by rewrite app_nil_r.
  - unfold pack_str in *. cbn [map concat app unpack_list].
    destruct (ascii_dec "c" "c"); [|done]. rewrite IH. cbn [rev].
    by rewrite <- app_assoc.
Qed.

Lemma unpack_pack ss : unpack (pack ss) = Some ss.
Proof.
  unfold unpack, pack. rewrite bytes_of_of.
  induction ss as [|s ss IH]; [done|].
  cbn [map concat]. rewrite unpack_str, IH. simpl. by rewrite of_bytes_of.
Qed.

Lemma length_pack_str l : length (pack_str l) = S (2 * length l).
Proof.
  unfold pack_str. rewrite length_app. simpl.
  induction l as [|c l IH]; simpl in *; lia.
Qed.

(** The length of a packed list. *)
Lemma slen_pack ss : slen (pack ss) = foldr (fun s n => 2 * slen s + 1 + n) 0 ss.
Proof.
  unfold pack. rewrite slen_of_bytes. induction ss as [|s ss IH]; [done|].
  cbn [map concat foldr]. rewrite length_app, length_pack_str.
  unfold slen at 1. rewrite <- length_bytes_of. lia.
Qed.

Lemma slen_pack_elem s ss : s ∈ ss -> slen s <= slen (pack ss).
Proof.
  assert (forall ss, 0 <= foldr (fun s n => 2 * slen s + 1 + n) 0 ss) as Hpos.
  { intros l. induction l as [|y l IH]; cbn [foldr]; unfold slen in *; lia. }
  rewrite slen_pack. induction ss as [|x ss IH]; [by intros ?%not_elem_of_nil|].
  intros [->|Hin]%elem_of_cons; cbn [foldr]; [specialize (Hpos ss)|apply IH in Hin];
    unfold slen in *; lia.
Qed.

(** ** Integers *)

Fixpoint pos_bits (p : positive) : list ascii :=
  match p with
  | xH => ["1"%char]
  | xO q => "0"%char :: pos_bits q
  | xI q => "1"%char :: pos_bits q
  end.

Fixpoint bits_pos (l : list ascii) : option positive :=
  match l with
  | [] => None
  | [c] => if ascii_dec c "1" then Some xH else None
  | c :: l' =>
      match bits_pos l' with
      | Some p => if ascii_dec c "0" then Some (xO p) else Some (xI p)
      | None => None
      end
  end.

Lemma bits_pos_bits p : bits_pos (pos_bits p) = Some p.
Proof.
  induction p as [q IH|q IH|]; [| |done]; simpl; rewrite IH;
    destruct (pos_bits q) eqn:E; by try (destruct q; discriminate).
Qed.

Definition ser_Z (z : Z) : string :=
  match z with
  | Z0 => "z"
  | Zpos p => of_bytes ("+"%char :: pos_bits p)
  | Zneg p => of_bytes ("-"%char :: pos_bits p)
  end.

Definition unser_Z (s : string) : option Z :=
  match bytes_of s with
  | [c] => if ascii_dec c "z" then Some 0 else None
  | c :: l =>
      match bits_pos l with
      | Some p => if ascii_dec c "+" then Some (Zpos p) else Some (Zneg p)
      | None => None
      end
  | [] => None
  end.

Lemma unser_ser_Z z : unser_Z (ser_Z z) = Some z.
Proof.
  destruct z as [|p|p]; [done| |]; unfold unser_Z, ser_Z; rewrite bytes_of_of;
    pose proof (bits_pos_bits p) as H; destruct (pos_bits p) eqn:E;
    try (by destruct p); by rewrite H.
Qed.

(** ** Packed text survives trimming *)

Lemma pack_solid s ss : exists c l, pack (s :: ss) = of_bytes (c :: l ++ [","%char]) /\
  not_space c = true \/ pack (s :: ss) = ",".
Proof.
  unfold pack. destruct (exists_last (l := s :: ss)) as (init & last & ->); [done|].
  rewrite map_app, concat_app. cbn [map concat app]. rewrite app_nil_r.
  change (pack_str (bytes_of last))
    with (concat (map (fun c => ["c"%char; c]) (bytes_of last)) ++ [","%char]).
  rewrite app_assoc.
  set (body := concat (map _ init) ++ concat _).
  assert (body = [] \/ exists c l, body = c :: l /\ not_space c = true) as Hb.
  { unfold body. destruct init as [|s0 init]; cbn [map concat].
    - destruct (bytes_of last); cbn; eauto.
    - unfold pack_str at 1. destruct (bytes_of s0); cbn; eauto 6. }
  clearbody body. destruct Hb as [->|(c & l & -> & Hc)].
  - exists Ascii.zero, []. right. reflexivity.
  - exists c, l. by left.
Qed.

Lemma pack_nonempty s ss : pack (s :: ss) <> "".
Proof. destruct (pack_solid s ss) as (c & l & [[-> Hc]| ->]); done. Qed.

Lemma trim_pack s ss : TrimSpace (pack (s :: ss)) = pack (s :: ss).
Proof. destruct (pack_solid s ss) as (c & l & [[-> Hc]| ->]); [by apply trim_solid|done]. Qed.

Lemma trim_pack_newline s ss : TrimSpace (pack (s :: ss) +:+ newline) = pack (s :: ss).
Proof.
  destruct (pack_solid s ss) as (c & l & [[-> Hc]| ->]); [by apply trim_solid_newline|by vm_compute].
Qed.

(** ** A codec from a list-of-fields representation *)
Class Fields (T : Type) := {
  to_fields : T -> string * list string;
  of_fields : list string -> option T;
  of_to_fields : forall x, of_fields ((to_fields x).1 :: (to_fields x).2) = Some x;
}.

#[export] Instance fields_json {T} `{Fields T} : JSONDoc T := {
  json_Marshal x := inr (pack ((to_fields x).1 :: (to_fields x).2));
  json_Decode s :=
    match unpack (TrimSpace s) ≫= of_fields with
    | Some x => inr x
    | None => inl (ErrText "invalid document")
    end;
  json_canonical _ := True;
}.

#[export] Instance fields_json_laws {T} `{Fields T} : JSONDocLaws T.
Proof.
  split.
  - intros x b _ [= <-]. cbn [json_Decode fields_json].
    rewrite trim_pack, unpack_pack. cbn [mbind option_bind].
    by rewrite of_to_fields.
  - intros x b [= <-]. split; [apply trim_pack|apply pack_nonempty].
  - intros x b [= <-]. split; [apply trim_pack_newline|].
    cbn [json_Decode fields_json]. by rewrite trim_pack, trim_pack_newline.
Qed.

#[export, refine] Instance envelope_fields : Fields encryptedStorageEnvelope := {
  to_fields e := (Schema e, [Cipher e; Purpose e; ser_Z (Sequence e); AADHash e; Nonce e; Ciphertext e]);
  of_fields l :=
    match l with
    | [a; b; c; d; e; f; g] =>
        match unser_Z d with Some n => Some (mkEnvelope a b c n e f g) | None => None end
    | _ => None
    end;
  of_to_fields := _;
}.
Proof. intros []. cbn. by rewrite unser_ser_Z. Defined.

#[export, refine] Instance envelope_probe : EnvelopeProbe := {
  json_ProbeSchema s :=
    match json_Decode (T := encryptedStorageEnvelope) s with inr e => Some (Schema e) | inl _ => None end;
  json_ascii_envelope := _;
  json_envelope_len := _;
  json_probe_marshal := _;
}.
Proof.
  - done.
  - intros e b [= <-]. apply slen_pack_elem. cbn. set_solver.
  - intros e b H1 H2. by rewrite (json_roundtrip e b H1 H2).
Defined.

(** ** A toy authenticated cipher: the plaintext followed by sixteen bytes of
    the additional data. *)
Definition toy_open (c a : string) : option string :=
  let l := bytes_of c in
  let n := (length l - 16)%nat in
  if decide (drop n l = bytes_of (fit 16 a)) then Some (of_bytes (take n l)) else None.

#[export] Instance toy_crypto : Crypto := {
  sha256_Sum m := fit 32 m;
  hmac_sha256 k m := fit 32 (k +:+ m);
  gcm_Seal k n p a := p +:+ fit 16 a;
  gcm_Open k n c a := toy_open c a;
}.

Lemma length_fit n s : length (bytes_of (fit n s)) = n.
Proof. pose proof (slen_fit n s) as H. unfold slen in H. rewrite <- length_bytes_of in H. lia. Qed.

#[export] Instance toy_crypto_laws : CryptoLaws toy_crypto.
Proof.
  split; intros; cbn.
  - by rewrite slen_fit.
  - by rewrite slen_fit.
  - unfold toy_open. rewrite bytes_of_app, length_app, length_fit.
    replace (_ + 16 - 16)%nat with (length (bytes_of p)) by lia.
    rewrite drop_app_length, take_app_length, decide_True by done. by rewrite of_bytes_of.
  - match goal with H : _ = Some _ |- _ => revert H end. cbn. unfold toy_open.
    case_decide as Hd; [|done]. intros [= <-]. apply bytes_of_inj.
    rewrite bytes_of_app, bytes_of_of, <- Hd. by rewrite take_drop.
  - unfold slen. rewrite <- !length_bytes_of, bytes_of_app, length_app, length_fit. lia.
Qed.

(** An oracle under which no call fails. *)
Definition calm_oracle : Oracle :=
  mkOracle (fun _ => None) (fun _ => 0%nat) (fun _ => "entropy-entropy-entropy")
           (fun _ => 63900000000 * Time.Second).

Definition calm_world {X} (x : X) : world X := mkWorld ∅ 0 calm_oracle x.
