(* ===== verification/Transactions.v ===== *)
(** * Security transactions (src/control/transactions.go)

    The preview / apply / verify / reverse engine every privileged change goes
    through, with its encrypted history. The appliers are the engine's
    interface to the host: a record of functions acting on the world. *)

From Stdlib Require Import ZArith Lia Ascii String.
From stdpp Require Import base gmap strings list.
From S2P Require Import Prelude.
From S2P Require Import GoLib.
From S2P Require Import World.
From S2P Require Import Storage.

Definition transactionSchema : string := "vgt-gedefense-transactions-v1".
Definition transactionPurpose : string := "security-transactions".
Definition transactionMaxBytes : Z := 16777216.
Definition transactionMaxRecords : Z := 2048.
Definition transactionPreviewTTL : duration := 15 * Time.Minute.

(** Raw JSON text is a byte string. *)
Abbreviation RawMessage := string.

Record SecurityTransaction := mkTx {
  tx_ID : string;
  tx_Type : string;
  tx_Summary : string;
  tx_Reason : string;
  tx_Status : string;
  tx_CreatedAt : time;
  tx_AppliedAt : option time;
  tx_ReversedAt : option time;
  tx_Plan : RawMessage;
  tx_Before : RawMessage;
  tx_After : RawMessage;
  tx_PreviewHash : string;
  tx_FailureStage : string;
}.

Record TransactionView := mkView {
  v_ID : string;
  v_Type : string;
  v_Summary : string;
  v_Reason : string;
  v_Status : string;
  v_CreatedAt : time;
  v_AppliedAt : option time;
  v_ReversedAt : option time;
  v_Plan : RawMessage;
  v_PreviewHash : string;
  v_FailureStage : string;
}.

Definition zero_view : TransactionView := mkView "" "" "" "" "" 0 None None "" "" "".

Record TransactionStatus := mkTxStatus {
  ts_Healthy : bool;
  ts_Revision : Z;
  ts_Count : Z;
  ts_RecoveryRequired : bool;
  ts_Transactions : list TransactionView;
  ts_Error : string;
}.

Record transactionStore := mkStore {
  st_Schema : string;
  st_Revision : Z;
  st_Records : list SecurityTransaction;
}.

(** [EvidenceRecord] as the engine fills it (src/control/evidence_ledger.go):
    the fields the ledger completes are left out. *)
Record EvidenceIntent := mkIntent {
  ev_Severity : string;
  ev_Kind : string;
  ev_Source : string;
  ev_Message : string;
  ev_Target : string;
}.

(** Record updates. *)
Definition set_status (s : string) (r : SecurityTransaction) : SecurityTransaction :=
  mkTx (tx_ID r) (tx_Type r) (tx_Summary r) (tx_Reason r) s (tx_CreatedAt r) (tx_AppliedAt r)
    (tx_ReversedAt r) (tx_Plan r) (tx_Before r) (tx_After r) (tx_PreviewHash r) (tx_FailureStage r).
Definition set_stage (s : string) (r : SecurityTransaction) : SecurityTransaction :=
  mkTx (tx_ID r) (tx_Type r) (tx_Summary r) (tx_Reason r) (tx_Status r) (tx_CreatedAt r)
    (tx_AppliedAt r) (tx_ReversedAt r) (tx_Plan r) (tx_Before r) (tx_After r) (tx_PreviewHash r) s.
Definition set_after (a : RawMessage) (r : SecurityTransaction) : SecurityTransaction :=
  mkTx (tx_ID r) (tx_Type r) (tx_Summary r) (tx_Reason r) (tx_Status r) (tx_CreatedAt r)
    (tx_AppliedAt r) (tx_ReversedAt r) (tx_Plan r) (tx_Before r) a (tx_PreviewHash r)
    (tx_FailureStage r).
Definition set_appliedAt (t : time) (r : SecurityTransaction) : SecurityTransaction :=
  mkTx (tx_ID r) (tx_Type r) (tx_Summary r) (tx_Reason r) (tx_Status r) (tx_CreatedAt r)
    (Some t) (tx_ReversedAt r) (tx_Plan r) (tx_Before r) (tx_After r) (tx_PreviewHash r)
    (tx_FailureStage r).
Definition set_reversedAt (t : time) (r : SecurityTransaction) : SecurityTransaction :=
  mkTx (tx_ID r) (tx_Type r) (tx_Summary r) (tx_Reason r) (tx_Status r) (tx_CreatedAt r)
    (tx_AppliedAt r) (Some t) (tx_Plan r) (tx_Before r) (tx_After r) (tx_PreviewHash r)
    (tx_FailureStage r).

(** [transactionView] *)
Definition transactionView (r : SecurityTransaction) (includePlan : bool) : TransactionView :=
  mkView (tx_ID r) (tx_Type r) (tx_Summary r) (tx_Reason r) (tx_Status r) (tx_CreatedAt r)
    (tx_AppliedAt r) (tx_ReversedAt r) (if includePlan then tx_Plan r else "")
    (tx_PreviewHash r) (tx_FailureStage r).

(** [validTransactionID] *)
Definition validTransactionID (id : string) : bool :=
  if negb (slen id =? 19) || negb (HasPrefix id "TX-") then false
  else string_forallb is_lower_hex (of_bytes (drop 3 (bytes_of id))).

Definition known_statuses : list string :=
  ["previewed"; "applying"; "applied"; "reversing"; "reversed"; "failed"; "recovery_required"].

(** [json.Valid] *)
Class JSONText := {
  json_Valid : string -> bool;
  json_Valid_nonempty : json_Valid "" = false;
}.

Section Validation.
Context `{C : Crypto}.

(** [transactionPreviewHash] *)
Definition transactionPreviewHash (kind : string) (plan before : RawMessage) : string :=
  hex_EncodeToString (sha256_Sum
    ("VGT-GEDEFENSE-TRANSACTION-PREVIEW-V1" +:+ nul +:+ kind +:+ nul +:+ plan +:+ nul +:+ before)).

(** [validateTransactionRecord] *)
Definition validateTransactionRecord (r : SecurityTransaction) : error :=
  if negb (validTransactionID (tx_ID r)) || bool_decide (tx_Type r = "")
     || (64 <? slen (tx_Type r))
     || (slen (tx_Summary r) <? 3) || (160 <? slen (tx_Summary r))
     || (slen (tx_Reason r) <? 3) || (240 <? slen (tx_Reason r))
     || Time.IsZero (tx_CreatedAt r)
     || (slen (tx_Plan r) =? 0) || (65536 <? slen (tx_Plan r))
     || (slen (tx_Before r) =? 0) || (65536 <? slen (tx_Before r))
     || (65536 <? slen (tx_After r)) || negb (slen (tx_PreviewHash r) =? 64)
  then errors_New "transaction record violates structural bounds"
  else if negb (bool_decide (tx_Status r ∈ known_statuses))
  then errors_New "transaction record contains an invalid status"
  else
    match hex_DecodeString (tx_PreviewHash r) with
    | None => errors_New "transaction record contains an invalid preview digest"
    | Some providedHash =>
        match hex_DecodeString (transactionPreviewHash (tx_Type r) (tx_Plan r) (tx_Before r)) with
        | None => errors_New "transaction record preview digest mismatch"
        | Some expectedHash =>
            if bool_decide (providedHash = expectedHash) then None
            else errors_New "transaction record preview digest mismatch"
        end
    end.

(** The record loop of [decodeTransactionStore]: every record is valid and
    no identifier occurs twice. *)
Fixpoint checkRecords (seen : gset string) (rs : list SecurityTransaction) : error :=
  match rs with
  | [] => None
  | r :: rs' =>
      match validateTransactionRecord r with
      | Some e => Some e
      | None =>
          if bool_decide (tx_ID r ∈ seen)
          then errors_New "transaction store contains duplicate IDs"
          else checkRecords ({[tx_ID r]} ∪ seen) rs'
      end
  end.

(** [decodeTransactionStore] *)
Definition decodeTransactionStore `{JSONDoc transactionStore} (raw : string)
  : goerror + transactionStore :=
  match json_Decode raw with
  | inl e => inl (ErrWrap "transaction store decode" e)
  | inr store =>
      if negb (bool_decide (st_Schema store = transactionSchema)) || (st_Revision store =? 0)
         || (transactionMaxRecords <? Z.of_nat (length (st_Records store)))
      then inl (ErrText "transaction store metadata is invalid")
      else match checkRecords ∅ (st_Records store) with
           | Some e => inl e
           | None => inr store
           end
  end.
End Validation.

(** ** The engine *)

Section Engine.
Context {X : Type}.

(** [TransactionApplier] with the optional [TransactionExclusivity]. *)
Record TransactionApplier := mkApplier {
  ap_Type : string;
  ap_Exclusive : option bool;
  ap_Preview : RawMessage -> world X -> (goerror + (RawMessage * RawMessage)) * world X;
  ap_Apply : RawMessage -> RawMessage -> world X -> (RawMessage * error) * world X;
  ap_Verify : RawMessage -> RawMessage -> world X -> error * world X;
  ap_Reverse : RawMessage -> RawMessage -> world X -> error * world X;
}.

Record TransactionEngine := mkEngine {
  te_path : string;
  te_storage : option StorageCipher;
  te_revision : Z;
  te_records : list SecurityTransaction;
  te_appliers : gmap string TransactionApplier;
  te_integrity : error;
  te_evidence : option (EvidenceIntent -> world X -> error * world X);
}.

Definition set_records (rs : list SecurityTransaction) (e : TransactionEngine) : TransactionEngine :=
  mkEngine (te_path e) (te_storage e) (te_revision e) rs (te_appliers e) (te_integrity e)
    (te_evidence e).
Definition set_record (i : nat) (r : SecurityTransaction) (e : TransactionEngine) : TransactionEngine :=
  set_records (<[i := r]> (te_records e)) e.
Definition set_revision (n : Z) (e : TransactionEngine) : TransactionEngine :=
  mkEngine (te_path e) (te_storage e) n (te_records e) (te_appliers e) (te_integrity e)
    (te_evidence e).
Definition set_integrity (err : error) (e : TransactionEngine) : TransactionEngine :=
  mkEngine (te_path e) (te_storage e) (te_revision e) (te_records e) (te_appliers e) err
    (te_evidence e).

Context `{C : Crypto} `{JE : JSONDoc encryptedStorageEnvelope} `{EP : !EnvelopeProbe}
  `{JS : JSONDoc transactionStore} `{JT : !JSONText}.

Definition is_status (s : string) (r : SecurityTransaction) : bool := bool_decide (tx_Status r = s).

(** What [load] does to a record whose operation was interrupted. *)
Definition interrupt (r : SecurityTransaction) : SecurityTransaction :=
  if is_status "applying" r || is_status "reversing" r
  then set_stage "interrupted" (set_status "recovery_required" r) else r.

(** [load] *)
Definition load (e : TransactionEngine) (w : world X) : error * TransactionEngine * world X :=
  match readBoundedPrivateFile (te_path e) transactionMaxBytes w with
  | (inl err, w1) => (Some err, e, w1)
  | (inr raw, w1) =>
      match json_Decode (T := encryptedStorageEnvelope) (TrimSpace raw) with
      | inl err =>
          (Some (ErrWrap "transaction store envelope" (ErrWrap "encrypted envelope" err)), e, w1)
      | inr envelope =>
          let expectedSequence := Sequence envelope in
          match Decrypt (te_storage e) (te_path e) transactionPurpose raw (Some expectedSequence) with
          | inl err => (Some (ErrWrap "transaction store authentication failed" err), e, w1)
          | inr (plaintext, legacy) =>
              if legacy : bool
              then (errors_New "unencrypted transaction history is rejected", e, w1)
              else
                match decodeTransactionStore plaintext with
                | inl err => (Some err, e, w1)
                | inr store =>
                    if negb (st_Revision store =? expectedSequence)
                    then (errors_New "transaction store revision binding mismatch", e, w1)
                    else (None, set_records (map interrupt (st_Records store))
                                  (set_revision (st_Revision store) e), w1)
                end
          end
      end
  end.

(** The registration loop of [NewTransactionEngine]. *)
Fixpoint registerAppliers (aps : list (option TransactionApplier))
    (m : gmap string TransactionApplier) : goerror + gmap string TransactionApplier :=
  match aps with
  | [] => inr m
  | None :: _ => inl (ErrText "transaction applier is invalid")
  | Some ap :: aps' =>
      if bool_decide (ap_Type ap = "") then inl (ErrText "transaction applier is invalid")
      else match m !! ap_Type ap with
           | Some _ => inl (ErrText ("duplicate transaction applier: " +:+ ap_Type ap))
           | None => registerAppliers aps' (<[ap_Type ap := ap]> m)
           end
  end.

(** [NewTransactionEngine] *)
Definition NewTransactionEngine (path : string) (storage : option StorageCipher)
    (evidence : option (EvidenceIntent -> world X -> error * world X))
    (appliers : list (option TransactionApplier)) (w : world X)
  : (goerror + TransactionEngine) * world X :=
  match storage with
  | None => (inl (ErrText "transaction storage encryption is required"), w)
  | Some _ =>
      if negb (IsAbs path) then (inl (ErrText "transaction store path must be absolute"), w)
      else
        match registerAppliers appliers ∅ with
        | inl err => (inl err, w)
        | inr m =>
            if bool_decide (size m = 0%nat)
            then (inl (ErrText "at least one transaction applier is required"), w)
            else
              let engine := mkEngine path storage 0 [] m None evidence in
              match load engine w with
              | (None, engine1, w1) => (inr engine1, w1)
              | (Some err, engine1, w1) =>
                  if is_not_exist err then (inr engine1, w1)
                  else (inr (set_integrity (Some err) engine1), w1)
              end
        end
  end.

(** [persistLocked] *)
Definition persistLocked (e : TransactionEngine) (w : world X) : error * TransactionEngine * world X :=
  if transactionMaxRecords <? Z.of_nat (length (te_records e))
  then (errors_New "transaction history capacity exhausted", e, w)
  else
    let nextRevision := u64 (te_revision e + 1) in
    let store := mkStore transactionSchema nextRevision (te_records e) in
    match json_Marshal store with
    | inl err => (Some err, e, w)
    | inr plaintext =>
        if transactionMaxBytes <? slen plaintext
        then (errors_New "transaction history size budget exhausted", e, w)
        else
          match Encrypt (te_storage e) (te_path e) transactionPurpose nextRevision plaintext w with
          | (inl err, w1) => (Some err, e, w1)
          | (inr sealed, w1) =>
              match os_MkdirAll w1 with
              | (Some err, w2) => (Some err, e, w2)
              | (None, w2) =>
                  match atomicWriteFile (te_path e) sealed 384 w2 with
                  | (Some err, w3) => (Some err, e, w3)
                  | (None, w3) => (None, set_revision nextRevision e, w3)
                  end
              end
          end
    end.

(** [readyLocked] *)
Definition readyLocked (e : TransactionEngine) : error :=
  match te_integrity e with
  | Some err => Some err
  | None =>
      if existsb (is_status "recovery_required") (te_records e)
      then errors_New "transaction recovery is required before new mutations"
      else None
  end.

(** [indexLocked]: the first record with the identifier ([None] is -1). *)
Fixpoint index_from (id : string) (n : nat) (rs : list SecurityTransaction) : option nat :=
  match rs with
  | [] => None
  | r :: rs' => if bool_decide (tx_ID r = id) then Some n else index_from id (S n) rs'
  end.
Definition indexLocked (e : TransactionEngine) (id : string) : option nat :=
  index_from id 0 (te_records e).

(** [commitEvidenceLocked] *)
Definition commitEvidenceLocked (e : TransactionEngine) (r : SecurityTransaction)
    (kind severity : string) (w : world X) : error * world X :=
  match te_evidence e with
  | None => (errors_New "mandatory transaction evidence sink is unavailable", w)
  | Some sink =>
      sink (mkIntent severity kind "transaction-engine"
              "Durable security transaction authorized" (tx_ID r +:+ " " +:+ tx_Type r)) w
  end.

(** A status that blocks another transaction of an exclusive type. *)
Definition is_active (r : SecurityTransaction) : bool :=
  is_status "applied" r || is_status "applying" r || is_status "reversing" r
  || is_status "recovery_required" r.

Abbreviation result := (outcome (TransactionView * error) * TransactionEngine * world X)%type.

Definition refuse (err : goerror) (e : TransactionEngine) (w : world X) : result :=
  (Returns (zero_view, Some err), e, w).

(** [Preview]. A failing random source ends the process ([randomID]). *)
Definition Preview (e : TransactionEngine) (kind summary reason : string) (payload : RawMessage)
    (w : world X) : result :=
  match readyLocked e with
  | Some err => refuse err e w
  | None =>
  if transactionMaxRecords <=? Z.of_nat (length (te_records e))
  then refuse (ErrText "transaction history capacity exhausted") e w
  else if (slen summary <? 3) || (160 <? slen summary) || (slen reason <? 3) || (240 <? slen reason)
  then refuse (ErrText "transaction summary or reason is outside bounds") e w
  else if (slen payload =? 0) || (16384 <? slen payload)
  then refuse (ErrText "transaction payload is outside bounds") e w
  else
    match te_appliers e !! kind with
    | None => refuse (ErrText "transaction type is not supported") e w
    | Some applier =>
        let exclusive := default true (ap_Exclusive applier) in
        if exclusive &&
           existsb (fun r => bool_decide (tx_Type r = kind) && is_active r) (te_records e)
        then refuse (ErrText "an active transaction of this type must be reversed first") e w
        else
          match ap_Preview applier payload w with
          | (inl err, w1) => refuse err e w1
          | (inr (plan, before), w1) =>
              if negb (json_Valid plan) || negb (json_Valid before)
                 || (65536 <? slen plan) || (65536 <? slen before)
              then refuse (ErrText "transaction applier returned an invalid preview") e w1
              else
                match rand_Read 8 w1 with
                | (inl _, w2) => (Panics, e, w2)
                | (inr rnd, w2) =>
                    let '(created, w3) := time_Now w2 in
                    let record := mkTx ("TX-" +:+ hex_EncodeToString rnd) kind summary reason
                      "previewed" created None None plan before ""
                      (transactionPreviewHash kind plan before) "" in
                    match persistLocked (set_records (te_records e ++ [record]) e) w3 with
                    | (Some err, e1, w4) =>
                        refuse err (set_integrity (Some err) (set_records (te_records e) e1)) w4
                    | (None, e1, w4) => (Returns (transactionView record true, None), e1, w4)
                    end
                end
          end
    end
  end.

(** [failApplyLocked] *)
Definition failApplyLocked (e : TransactionEngine) (index : nat) (record : SecurityTransaction)
    (after : RawMessage) (applier : TransactionApplier) (applyErr : goerror) (w : world X) : result :=
  let record := set_stage "apply_or_verify" (set_status "failed" (set_after after record)) in
  let '(record, applyErr, w1) :=
    match as_recovery applyErr with
    | Some stage => (set_stage stage (set_status "recovery_required" record), Some applyErr, w)
    | None =>
        if 0 <? slen after then
          match ap_Reverse applier (tx_Before record) after w with
          | (Some reverseErr, w1) =>
              (set_stage "verify_and_reverse" (set_status "recovery_required" record),
               errors_Join [Some applyErr; Some reverseErr], w1)
          | (None, w1) => (record, Some applyErr, w1)
          end
        else (record, Some applyErr, w)
    end in
  match persistLocked (set_record index record e) w1 with
  | (Some persistErr, e1, w2) =>
      (Returns (transactionView record false, errors_Join [applyErr; Some persistErr]),
       set_integrity (Some persistErr) e1, w2)
  | (None, e1, w2) => (Returns (transactionView record false, applyErr), e1, w2)
  end.

(** The last part of [Apply]: the change is in place and verified, its commit
    is persisted or the change is taken back. *)
Definition commitApplied (e : TransactionEngine) (index : nat) (record : SecurityTransaction)
    (after : RawMessage) (applier : TransactionApplier) (w : world X) : result :=
  let '(now, w1) := time_Now w in
  let record := set_stage "" (set_after after (set_appliedAt now (set_status "applied" record))) in
  match persistLocked (set_record index record e) w1 with
  | (None, e1, w2) => (Returns (transactionView record false, None), e1, w2)
  | (Some err, e1, w2) =>
      let '(reverseErr, w3) := ap_Reverse applier (tx_Before record) (tx_After record) w2 in
      let record :=
        match reverseErr with
        | None => set_stage "commit" (set_status "failed" record)
        | Some _ => set_stage "commit_and_reverse" (set_status "recovery_required" record)
        end in
      let integrity := errors_Join [Some err; reverseErr] in
      (Returns (transactionView record false, integrity),
       set_integrity integrity (set_record index record e1), w3)
  end.

(** The part of [Apply] after the intent was recorded and "applying" was
    persisted. A type without an applier is a nil interface: calling it
    panics. *)
Definition runApply (e : TransactionEngine) (index : nat) (record : SecurityTransaction)
    (w : world X) : result :=
  match te_appliers e !! tx_Type record with
  | None => (Panics, e, w)
  | Some applier =>
      let '((after, applyErr), w1) := ap_Apply applier (tx_Plan record) (tx_Before record) w in
      let '(applyErr, w2) :=
        match applyErr with
        | None => ap_Verify applier (tx_Plan record) after w1
        | Some err => (Some err, w1)
        end in
      match applyErr with
      | Some err => failApplyLocked e index record after applier err w2
      | None => commitApplied e index record after applier w2
      end
  end.

(** [Apply] *)
Definition Apply (e : TransactionEngine) (id confirmation : string) (w : world X) : result :=
  match readyLocked e with
  | Some err => refuse err e w
  | None =>
  match indexLocked e id with
  | None => refuse (ErrText "transaction not found") e w
  | Some index =>
  match te_records e !! index with
  | None => (Panics, e, w)
  | Some record =>
      if negb (is_status "previewed" record)
      then refuse (ErrText "transaction is not in previewed state") e w
      else
        let '(now, w1) := time_Now w in
        if transactionPreviewTTL <? Time.Sub now (tx_CreatedAt record)
        then refuse (ErrText "transaction preview expired") e w1
        else if negb (bool_decide (confirmation = "APPLY " +:+ tx_ID record))
        then refuse (ErrText "transaction confirmation rejected") e w1
        else
          match commitEvidenceLocked e record "transaction.apply.intent" "high" w1 with
          | (Some err, w2) => refuse err e w2
          | (None, w2) =>
              let record := set_status "applying" record in
              match persistLocked (set_record index record e) w2 with
              | (Some err, e1, w3) => refuse err (set_integrity (Some err) e1) w3
              | (None, e1, w3) => runApply e1 index record w3
              end
          end
  end
  end
  end.

(** The part of [Reverse] after "reversing" was persisted. *)
Definition runReverse (e : TransactionEngine) (index : nat) (record : SecurityTransaction)
    (applier : TransactionApplier) (w : world X) : result :=
  match ap_Reverse applier (tx_Before record) (tx_After record) w with
  | (Some err, w1) =>
      let record := set_stage "reverse" (set_status "recovery_required" record) in
      match persistLocked (set_record index record e) w1 with
      | (Some persistErr, e1, w2) =>
          (Returns (transactionView record false, errors_Join [Some err; Some persistErr]),
           set_integrity (Some persistErr) e1, w2)
      | (None, e1, w2) => (Returns (transactionView record false, Some err), e1, w2)
      end
  | (None, w1) =>
      let '(now, w2) := time_Now w1 in
      let record := set_stage "" (set_reversedAt now (set_status "reversed" record)) in
      match persistLocked (set_record index record e) w2 with
      | (Some err, e1, w3) =>
          (Returns (transactionView record false, Some err), set_integrity (Some err) e1, w3)
      | (None, e1, w3) => (Returns (transactionView record false, None), e1, w3)
      end
  end.

(** [Reverse] *)
Definition Reverse (e : TransactionEngine) (id confirmation : string) (w : world X) : result :=
  match te_integrity e with
  | Some err => refuse err e w
  | None =>
  match indexLocked e id with
  | None => refuse (ErrText "transaction not found") e w
  | Some index =>
  match te_records e !! index with
  | None => (Panics, e, w)
  | Some record =>
      if negb (is_status "applied" record) && negb (is_status "recovery_required" record)
      then refuse (ErrText "transaction is not reversible") e w
      else if negb (bool_decide (confirmation = "REVERSE " +:+ tx_ID record))
      then refuse (ErrText "transaction confirmation rejected") e w
      else
        match commitEvidenceLocked e record "transaction.reverse.intent" "critical" w with
        | (Some err, w1) => refuse err e w1
        | (None, w1) =>
            match te_appliers e !! tx_Type record with
            | None => refuse (ErrText "transaction applier is unavailable") e w1
            | Some applier =>
                let record := set_status "reversing" record in
                match persistLocked (set_record index record e) w1 with
                | (Some err, e1, w2) => refuse err (set_integrity (Some err) e1) w2
                | (None, e1, w2) => runReverse e1 index record applier w2
                end
            end
        end
  end
  end
  end.

(** One iteration of [ReconcileApplied]: [inl] returns from the function,
    [inr] goes on with the next record. *)
Definition reconcileOne (e : TransactionEngine) (index : nat) (w : world X)
  : (error + unit) * TransactionEngine * world X :=
  match te_records e !! index with
  | None => (inr (), e, w)
  | Some record =>
  if negb (is_status "applied" record) then (inr (), e, w)
  else
  match te_appliers e !! tx_Type record with
  | None => (inl (errors_New "active transaction applier is unavailable"), e, w)
  | Some applier =>
  match ap_Verify applier (tx_Plan record) (tx_After record) w with
  | (None, w1) => (inr (), e, w1)
  | (Some _, w1) =>
  match commitEvidenceLocked e record "transaction.reconcile.intent" "high" w1 with
  | (Some err, w2) => (inl (Some err), e, w2)
  | (None, w2) =>
  let record := set_stage "startup_reconcile" (set_status "applying" record) in
  match persistLocked (set_record index record e) w2 with
  | (Some err, e1, w3) => (inl (Some err), set_integrity (Some err) e1, w3)
  | (None, e1, w3) =>
  let '((after, err), w4) := ap_Apply applier (tx_Plan record) (tx_Before record) w3 in
  let '(err, w5) :=
    match err with
    | None => ap_Verify applier (tx_Plan record) after w4
    | Some x => (Some x, w4)
    end in
  match err with
  | Some x =>
      let record := set_after after
        (set_stage "startup_reconcile" (set_status "recovery_required" record)) in
      match persistLocked (set_record index record e1) w5 with
      | (Some persistErr, e2, w6) =>
          (inl (errors_Join [Some x; Some persistErr]), set_integrity (Some persistErr) e2, w6)
      | (None, e2, w6) => (inl (Some x), e2, w6)
      end
  | None =>
      let record := set_after after (set_stage "" (set_status "applied" record)) in
      match persistLocked (set_record index record e1) w5 with
      | (Some x, e2, w6) => (inl (Some x), set_integrity (Some x) e2, w6)
      | (None, e2, w6) => (inr (), e2, w6)
      end
  end
  end
  end
  end
  end
  end.

Fixpoint reconcileLoop (indices : list nat) (e : TransactionEngine) (w : world X)
  : error * TransactionEngine * world X :=
  match indices with
  | [] => (None, e, w)
  | i :: rest =>
      match reconcileOne e i w with
      | (inl err, e1, w1) => (err, e1, w1)
      | (inr _, e1, w1) => reconcileLoop rest e1 w1
      end
  end.

(** [ReconcileApplied] *)
Definition ReconcileApplied (e : TransactionEngine) (w : world X) : error * TransactionEngine * world X :=
  match readyLocked e with
  | Some err => (Some err, e, w)
  | None => reconcileLoop (seq 0 (length (te_records e))) e w
  end.

(** One iteration of [VerifyApplied]. *)
Definition verifyOne (e : TransactionEngine) (index : nat) (w : world X)
  : (error + unit) * TransactionEngine * world X :=
  match te_records e !! index with
  | None => (inr (), e, w)
  | Some record =>
  if negb (is_status "applied" record) then (inr (), e, w)
  else
  match te_appliers e !! tx_Type record with
  | None => (inl (errors_New "active transaction applier is unavailable"), e, w)
  | Some applier =>
  match ap_Verify applier (tx_Plan record) (tx_After record) w with
  | (None, w1) => (inr (), e, w1)
  | (Some err, w1) =>
      let record := set_stage "runtime_drift" (set_status "recovery_required" record) in
      let e1 := set_record index record e in
      let '(evidenceErr, w2) :=
        commitEvidenceLocked e1 record "transaction.drift" "critical" w1 in
      match persistLocked e1 w2 with
      | (Some persistErr, e2, w3) =>
          (inl (errors_Join [Some err; evidenceErr; Some persistErr]),
           set_integrity (Some persistErr) e2, w3)
      | (None, e2, w3) => (inl (errors_Join [Some err; evidenceErr; None]), e2, w3)
      end
  end
  end
  end.

Fixpoint verifyLoop (indices : list nat) (e : TransactionEngine) (w : world X)
  : error * TransactionEngine * world X :=
  match indices with
  | [] => (None, e, w)
  | i :: rest =>
      match verifyOne e i w with
      | (inl err, e1, w1) => (err, e1, w1)
      | (inr _, e1, w1) => verifyLoop rest e1 w1
      end
  end.

(** [VerifyApplied] *)
Definition VerifyApplied (e : TransactionEngine) (w : world X) : error * TransactionEngine * world X :=
  match readyLocked e with
  | Some err => (Some err, e, w)
  | None => verifyLoop (seq 0 (length (te_records e))) e w
  end.

(** One tick of [runTransactionVerification]: whether an event is emitted,
    and the new [reported] flag. *)
Definition verificationTick (reported : bool) (e : TransactionEngine) (w : world X)
  : bool * bool * TransactionEngine * world X :=
  let '(err, e1, w1) := VerifyApplied e w in
  match err with
  | Some _ => (negb reported, true, e1, w1)
  | None => (false, false, e1, w1)
  end.

(** [Status] *)
Definition Status (e : TransactionEngine) (limit : Z) : TransactionStatus :=
  let limit := if (limit <? 1) || (500 <? limit) then 100 else limit in
  let n := Z.of_nat (length (te_records e)) in
  let start := if n - limit <? 0 then 0 else n - limit in
  let recovery := existsb (is_status "recovery_required") (te_records e) in
  let views := map (fun r => transactionView r (is_status "previewed" r))
                 (rev (drop (Z.to_nat start) (te_records e))) in
  mkTxStatus (match te_integrity e with None => negb recovery | Some _ => false end)
    (te_revision e) n recovery views
    (match te_integrity e with Some _ => "transaction history integrity unavailable" | None => "" end).

(** [recordsByType] *)
Definition recordsByType (e : TransactionEngine) (kind : string) : list SecurityTransaction :=
  List.filter (fun r => bool_decide (tx_Type r = kind)) (te_records e).

End Engine.
Arguments TransactionApplier : clear implicits.
Arguments TransactionEngine : clear implicits.
