(* ===== verification/TransactionsFacts.v ===== *)
(** * Theorems about the transaction engine

    The history is append-only and every record follows the status graph;
    applying is write-ahead and all-or-nothing; recovery blocks new mutations;
    a persisted history loads back, with interrupted operations marked. *)

From Stdlib Require Import ZArith Lia Ascii String.
From stdpp Require Import base gmap strings list relations.
From S2P Require Import Prelude.
From S2P Require Import GoLib.
From S2P Require Import World.
From S2P Require Import Storage.
From S2P Require Import Transactions.

(** ** The status graph *)

Inductive status_step : string -> string -> Prop :=
| step_apply : status_step "previewed" "applying"
| step_applied : status_step "applying" "applied"
| step_failed : status_step "applying" "failed"
| step_apply_recovery : status_step "applying" "recovery_required"
| step_commit_failed : status_step "applied" "failed"
| step_drift : status_step "applied" "recovery_required"
| step_reconcile : status_step "applied" "applying"
| step_reverse : status_step "applied" "reversing"
| step_recover : status_step "recovery_required" "reversing"
| step_reversed : status_step "reversing" "reversed"
| step_reverse_failed : status_step "reversing" "recovery_required".

#[export] Hint Constructors status_step : gedefense.

Definition status_reach : string -> string -> Prop := rtc status_step.

Definition terminal (s : string) : Prop := s = "failed" \/ s = "reversed".

Lemma terminal_stays s s' : terminal s -> status_reach s s' -> s' = s.
Proof. intros [-> | ->] H; inversion H as [|? ? ? Hs]; by try inversion Hs. Qed.

(** [evolves r r']: the identity of the transaction is unchanged and its
    status moved along the graph. *)
Record evolves (r r' : SecurityTransaction) : Prop := mkEvolves {
  evo_ID : tx_ID r' = tx_ID r;
  evo_Type : tx_Type r' = tx_Type r;
  evo_Summary : tx_Summary r' = tx_Summary r;
  evo_Reason : tx_Reason r' = tx_Reason r;
  evo_CreatedAt : tx_CreatedAt r' = tx_CreatedAt r;
  evo_Plan : tx_Plan r' = tx_Plan r;
  evo_Before : tx_Before r' = tx_Before r;
  evo_PreviewHash : tx_PreviewHash r' = tx_PreviewHash r;
  evo_Status : status_reach (tx_Status r) (tx_Status r');
}.

#[export] Instance evolves_preorder : PreOrder evolves.
Proof.
  split.
  - intros r. by split.
  - intros r1 r2 r3 [] []. split; try congruence. by etrans.
Qed.

Lemma evolves_status s r : status_step (tx_Status r) s -> evolves r (set_status s r).
Proof. intros. split; try done. by apply rtc_once. Qed.

Lemma evolves_stage s r r' : evolves r r' -> evolves r (set_stage s r').
Proof. intros []. by split. Qed.
Lemma evolves_after a r r' : evolves r r' -> evolves r (set_after a r').
Proof. intros []. by split. Qed.
Lemma evolves_appliedAt t r r' : evolves r r' -> evolves r (set_appliedAt t r').
Proof. intros []. by split. Qed.
Lemma evolves_reversedAt t r r' : evolves r r' -> evolves r (set_reversedAt t r').
Proof. intros []. by split. Qed.
Lemma evolves_status_trans s r r' :
  evolves r r' -> status_step (tx_Status r') s -> evolves r (set_status s r').
Proof. intros H1 H2. etrans; [done|]. by apply evolves_status. Qed.

#[export] Hint Resolve evolves_stage evolves_after evolves_appliedAt evolves_reversedAt : gedefense.

(** Histories: records are only appended, each earlier one evolved. *)
Definition history (l l' : list SecurityTransaction) : Prop :=
  exists l1 l2, l' = l1 ++ l2 /\ Forall2 evolves l l1.

#[export] Instance history_preorder : PreOrder history.
Proof.
  split.
  - intros l. exists l, []. split; [by rewrite app_nil_r|]. apply Forall_Forall2_diag, Forall_true. reflexivity.
  - intros l1 l2 l3 (a & b & -> & H1) (c & d & -> & H2).
    apply Forall2_app_inv_l in H2 as (c1 & c2 & H3 & H4 & ->).
    exists c1, (c2 ++ d). split; [by rewrite app_assoc|].
    by etrans.
Qed.

Lemma history_insert l i r r' :
  l !! i = Some r -> evolves r r' -> history l (<[i := r']> l).
Proof.
  intros Hi Hr. exists (<[i := r']> l), []. split; [by rewrite app_nil_r|].
  rewrite <- (list_insert_id l i r Hi) at 1.
  apply Forall2_insert; [|done]. apply Forall_Forall2_diag, Forall_true. reflexivity.
Qed.

Lemma history_app l r : history l (l ++ [r]).
Proof.
  exists l, [r]. split; [done|]. apply Forall_Forall2_diag, Forall_true. reflexivity.
Qed.

Lemma history_lookup l l' i r :
  history l l' -> l !! i = Some r -> exists r', l' !! i = Some r' /\ evolves r r'.
Proof.
  intros (l1 & l2 & -> & HF) Hi.
  destruct (Forall2_lookup_l _ _ _ _ _ HF Hi) as (r' & Hr' & He).
  exists r'. split; [|done]. rewrite lookup_app_l; [done|]. by eapply lookup_lt_Some.
Qed.

Section Facts.
Context {X : Type} `{C : Crypto} `{JE : JSONDoc encryptedStorageEnvelope} `{EP : !EnvelopeProbe}
  `{JS : JSONDoc transactionStore} `{JT : !JSONText}.
Implicit Types (e : TransactionEngine X) (w : world X).

Definition store_files e : list string := [te_path e; te_path e +:+ ".tmp"].

(** [persistLocked] changes only the store file and its staging file; on
    success it raises the revision by one, on failure the engine is
    unchanged. *)
Lemma persistLocked_post e w err e' w' :
  persistLocked e w = (err, e', w') ->
  same_but (store_files e) w w' /\
  ((err = None /\ e' = set_revision (u64 (te_revision e + 1)) e) \/
   (is_Some err /\ e' = e)).
Proof.
  assert (forall (x : goerror), is_Some (Some x) /\ e = e) as Hf by (split; [by eexists|done]).
  unfold persistLocked, errors_New. intros H.
  destruct (_ <? _); simplify_eq; [split; [apply same_but_refl|right; apply Hf]|].
  destruct (json_Marshal _) as [x|pt]; simplify_eq; [split; [apply same_but_refl|right; apply Hf]|].
  destruct (_ <? slen pt); simplify_eq; [split; [apply same_but_refl|right; apply Hf]|].
  destruct (Encrypt _ _ _ _ _ _) as [[x|sealed] w1] eqn:HE; apply Encrypt_same in HE;
    simplify_eq.
  { split; [eapply same_but_weaken; [|done]; set_solver|right; apply Hf]. }
  destruct (os_MkdirAll w1) as [[x|] w2] eqn:HM; apply sys_post in HM; simplify_eq.
  { split; [|right; apply Hf]. eapply same_but_step; [|exact HM|set_solver].
    eapply same_but_weaken; [|exact HE]. set_solver. }
  destruct (atomicWriteFile _ _ _ w2) as [[x|] w3] eqn:HA; simplify_eq;
    apply atomicWriteFile_post in HA as [HF _ _].
  all: split; [|first [by left | right; apply Hf]].
  all: eapply same_but_trans; [eapply same_but_weaken; [|exact HE]; set_solver|].
  all: eapply same_but_trans; [eapply same_but_weaken; [|exact HM]; set_solver|done].
Qed.

Lemma persist_records e w err e' w' :
  persistLocked e w = (err, e', w') -> te_records e' = te_records e.
Proof. intros [_ [[_ ->]|[_ ->]]]%persistLocked_post; done. Qed.

Lemma persist_ext e w err e' w' :
  persistLocked e w = (err, e', w') -> w_ext w' = w_ext w.
Proof. intros [(_ & H & _) _]%persistLocked_post. done. Qed.

(** One record was replaced by a record it evolved to. *)
Definition replaced (index : nat) (record : SecurityTransaction) e e' : Prop :=
  exists r', te_records e' = <[index := r']> (te_records e) /\ evolves record r'.

Lemma replaced_history index record e e' :
  te_records e !! index = Some record -> replaced index record e e' ->
  history (te_records e) (te_records e').
Proof. intros Hi (r' & -> & He). by eapply history_insert. Qed.

Ltac persist_case H :=
  match type of H with
  | context [persistLocked ?e ?w] =>
      let HP := fresh "HP" in
      destruct (persistLocked e w) as [[[?|] ?] ?] eqn:HP;
      apply persist_records in HP; cbn in HP
  end.

(** Passes a guard of the code whose failure refuses the request. *)
Ltac pass_guard H :=
  match type of H with (if ?b then _ else _) = _ => destruct b; [by simplify_eq|] end.

Lemma failApply_replaced e index record after ap err w o e' w' :
  tx_Status record = "applying" ->
  failApplyLocked e index record after ap err w = (o, e', w') ->
  replaced index record e e'.
Proof.
  unfold failApplyLocked. intros Hs H.
  destruct (as_recovery err) as [stage|].
  { persist_case H; simplify_eq/=; eexists; (split; [cbn; eassumption|]);
      apply evolves_stage; (split; try done; cbn; rewrite Hs; apply rtc_once; constructor). }
  destruct (0 <? slen after); [destruct (ap_Reverse ap _ _ w) as [[r|] w1]|];
    (persist_case H; simplify_eq/=; eexists; (split; [cbn; eassumption|]);
      (split; try done; cbn; rewrite Hs; apply rtc_once; constructor)).
Qed.

Lemma commitApplied_replaced e index record after ap w o e' w' :
  tx_Status record = "applying" ->
  commitApplied e index record after ap w = (o, e', w') ->
  replaced index record e e'.
Proof.
  unfold commitApplied, time_Now. intros Hs H. persist_case H.
  - destruct (ap_Reverse _ _ _ _) as [[r|] w3]; simplify_eq/=; eexists;
      (split; [cbn; rewrite HP, list_insert_insert_eq; reflexivity|]);
      (split; try done; cbn; rewrite Hs; eapply rtc_l; [constructor|]; apply rtc_once; constructor).
  - simplify_eq/=. eexists. split; [cbn; eassumption|].
    split; try done; cbn; rewrite Hs; apply rtc_once; constructor.
Qed.

Lemma runApply_replaced e index record w o e' w' :
  te_records e !! index = Some record ->
  tx_Status record = "applying" ->
  runApply e index record w = (o, e', w') ->
  replaced index record e e'.
Proof.
  unfold runApply. intros Hi Hs H.
  destruct (te_appliers e !! _) as [ap|]; [|simplify_eq; exists record; split; [|done];
    by rewrite list_insert_id].
  destruct (ap_Apply ap _ _ w) as [[after oerr] w1].
  destruct (match oerr with None => _ | Some x => _ end) as [[x|] w2].
  - by eapply failApply_replaced.
  - by eapply commitApplied_replaced.
Qed.

Lemma runReverse_replaced e index record ap w o e' w' :
  tx_Status record = "reversing" ->
  runReverse e index record ap w = (o, e', w') ->
  replaced index record e e'.
Proof.
  unfold runReverse, time_Now. intros Hs H.
  destruct (ap_Reverse _ _ _ _) as [[r|] w1]; persist_case H; simplify_eq/=; eexists;
    (split; [cbn; eassumption|]);
    (split; try done; cbn; rewrite Hs; apply rtc_once; constructor).
Qed.

(** A replacement after the record was first moved to [s]. *)
Lemma replaced_after s index record e e1 e' :
  te_records e !! index = Some record -> status_step (tx_Status record) s ->
  te_records e1 = <[index := set_status s record]> (te_records e) ->
  replaced index (set_status s record) e1 e' ->
  history (te_records e) (te_records e').
Proof.
  intros Hi Hs He1 HR. etrans.
  - eapply history_insert; [done|by apply evolves_status].
  - rewrite <- He1. eapply replaced_history; [|done].
    rewrite He1. apply list_lookup_insert_eq. by eapply lookup_lt_Some.
Qed.

Lemma is_status_spec s r : is_status s r = true <-> tx_Status r = s.
Proof. unfold is_status. by rewrite bool_decide_eq_true. Qed.

Lemma index_from_ge id n rs i : index_from id n rs = Some i -> (n <= i)%nat.
Proof.
  revert n. induction rs as [|r rs IH]; intros n; [done|]. simpl.
  case_bool_decide; [intros [= <-]; lia|]. intros Hf%IH. lia.
Qed.

Lemma index_from_spec id n rs i :
  index_from id n rs = Some i -> exists r, rs !! (i - n)%nat = Some r /\ tx_ID r = id.
Proof.
  revert n. induction rs as [|r rs IH]; intros n; [done|]. simpl.
  case_bool_decide as Hid.
  - intros [= <-]. exists r. by rewrite Nat.sub_diag.
  - intros Hf. pose proof (index_from_ge _ _ _ _ Hf). apply IH in Hf as (r' & Hl & Hr).
    exists r'. split; [|done]. by replace (i - n)%nat with (S (i - S n)) by lia.
Qed.

Lemma Preview_history e kind summary reason payload w o e' w' :
  Preview e kind summary reason payload w = (o, e', w') ->
  history (te_records e) (te_records e').
Proof.
  unfold Preview, refuse. intros H.
  destruct (readyLocked e); [by simplify_eq|].
  do 3 pass_guard H.
  destruct (te_appliers e !! kind) as [ap|]; [|by simplify_eq].
  pass_guard H.
  destruct (ap_Preview ap payload w) as [[x|[plan before]] w1]; [by simplify_eq|].
  pass_guard H.
  destruct (rand_Read 8 w1) as [[x|rnd] w2]; [by simplify_eq|].
  unfold time_Now in H. persist_case H; simplify_eq/=; [done|].
  rewrite HP. apply history_app.
Qed.

Lemma Apply_history e id conf w o e' w' :
  Apply e id conf w = (o, e', w') -> history (te_records e) (te_records e').
Proof.
  unfold Apply, refuse, time_Now. intros H.
  destruct (readyLocked e); [by simplify_eq|].
  destruct (indexLocked e id) as [index|]; [|by simplify_eq].
  destruct (te_records e !! index) as [record|] eqn:Hi; [|by simplify_eq].
  destruct (is_status "previewed" record) eqn:Hst; [|by simplify_eq/=]. simpl in H.
  apply is_status_spec in Hst.
  pass_guard H. pass_guard H.
  destruct (commitEvidenceLocked _ _ _ _ _) as [[x|] w2]; [by simplify_eq|].
  assert (status_step (tx_Status record) "applying") as Hstep by (rewrite Hst; constructor).
  persist_case H.
  - simplify_eq/=. rewrite HP. eapply history_insert; [done|by apply evolves_status].
  - eapply replaced_after; [done|done|exact HP|].
    eapply runApply_replaced; [|done|exact H].
    rewrite HP. apply list_lookup_insert_eq. by eapply lookup_lt_Some.
Qed.

Lemma Reverse_history e id conf w o e' w' :
  Reverse e id conf w = (o, e', w') -> history (te_records e) (te_records e').
Proof.
  unfold Reverse, refuse. intros H.
  destruct (te_integrity e); [by simplify_eq|].
  destruct (indexLocked e id) as [index|]; [|by simplify_eq].
  destruct (te_records e !! index) as [record|] eqn:Hi; [|by simplify_eq].
  destruct (negb _ && negb _) eqn:Hst; [by simplify_eq|].
  assert (status_step (tx_Status record) "reversing") as Hstep.
  { apply andb_false_iff in Hst as [Hst|Hst]; bool_to_prop;
      apply is_status_spec in Hst; rewrite Hst; constructor. }
  pass_guard H.
  destruct (commitEvidenceLocked _ _ _ _ _) as [[x|] w1]; [by simplify_eq|].
  destruct (te_appliers e !! _) as [ap|]; [|by simplify_eq].
  persist_case H.
  - simplify_eq/=. rewrite HP. eapply history_insert; [done|by apply evolves_status].
  - eapply replaced_after; [done|done|exact HP|]. by eapply runReverse_replaced.
Qed.

Lemma reconcileOne_history e i w r e' w' :
  reconcileOne e i w = (r, e', w') -> history (te_records e) (te_records e').
Proof.
  unfold reconcileOne. intros H.
  destruct (te_records e !! i) as [record|] eqn:Hi; [|by simplify_eq].
  destruct (is_status "applied" record) eqn:Hst; [|by simplify_eq/=]. simpl in H.
  apply is_status_spec in Hst.
  destruct (te_appliers e !! _) as [ap|]; [|by simplify_eq].
  destruct (ap_Verify _ _ _ _) as [[x|] w1]; [|by simplify_eq].
  destruct (commitEvidenceLocked _ _ _ _ _) as [[y|] w2]; [by simplify_eq|].
  assert (evolves record (set_stage "startup_reconcile" (set_status "applying" record))) as Hev.
  { apply evolves_stage, evolves_status. rewrite Hst. constructor. }
  persist_case H.
  { simplify_eq/=. rewrite HP. by eapply history_insert. }
  destruct (ap_Apply ap _ _ _) as [[after oerr] w4].
  destruct (match oerr with None => _ | Some x => _ end) as [[z|] w5];
    persist_case H; simplify_eq/=; rewrite HP0, HP, list_insert_insert_eq;
    (eapply history_insert; [done|]; etrans; [exact Hev|];
     split; try done; cbn; apply rtc_once; constructor).
Qed.

Lemma verifyOne_history e i w r e' w' :
  verifyOne e i w = (r, e', w') -> history (te_records e) (te_records e').
Proof.
  unfold verifyOne. intros H.
  destruct (te_records e !! i) as [record|] eqn:Hi; [|by simplify_eq].
  destruct (is_status "applied" record) eqn:Hst; [|by simplify_eq/=]. simpl in H.
  apply is_status_spec in Hst.
  destruct (te_appliers e !! _) as [ap|]; [|by simplify_eq].
  destruct (ap_Verify _ _ _ _) as [[x|] w1]; [|by simplify_eq].
  destruct (commitEvidenceLocked _ _ _ _ _) as [y w2].
  persist_case H; simplify_eq/=; rewrite HP; (eapply history_insert; [done|];
    apply evolves_stage, evolves_status; rewrite Hst; constructor).
Qed.

Lemma ReconcileApplied_history e w r e' w' :
  ReconcileApplied e w = (r, e', w') -> history (te_records e) (te_records e').
Proof.
  unfold ReconcileApplied. destruct (readyLocked e); [by intros [= <- <- <-]|].
  generalize (seq 0 (length (te_records e))) as idx. intros idx. revert e w.
  induction idx as [|i idx IH]; simpl; intros e w H; [by simplify_eq|].
  destruct (reconcileOne e i w) as [[[x|[]] e1] w1] eqn:E; apply reconcileOne_history in E.
  - by simplify_eq.
  - etrans; [done|]. by eapply IH.
Qed.

Lemma VerifyApplied_history e w r e' w' :
  VerifyApplied e w = (r, e', w') -> history (te_records e) (te_records e').
Proof.
  unfold VerifyApplied. destruct (readyLocked e); [by intros [= <- <- <-]|].
  generalize (seq 0 (length (te_records e))) as idx. intros idx. revert e w.
  induction idx as [|i idx IH]; simpl; intros e w H; [by simplify_eq|].
  destruct (verifyOne e i w) as [[[x|[]] e1] w1] eqn:E; apply verifyOne_history in E.
  - by simplify_eq.
  - etrans; [done|]. by eapply IH.
Qed.

(** ** The engine as a transition system *)

Inductive engine_step : TransactionEngine X * world X -> TransactionEngine X * world X -> Prop :=
| es_preview e w kind summary reason payload o e' w' :
    Preview e kind summary reason payload w = (o, e', w') -> engine_step (e, w) (e', w')
| es_apply e w id conf o e' w' :
    Apply e id conf w = (o, e', w') -> engine_step (e, w) (e', w')
| es_reverse e w id conf o e' w' :
    Reverse e id conf w = (o, e', w') -> engine_step (e, w) (e', w')
| es_reconcile e w r e' w' :
    ReconcileApplied e w = (r, e', w') -> engine_step (e, w) (e', w')
| es_verify e w r e' w' :
    VerifyApplied e w = (r, e', w') -> engine_step (e, w) (e', w').

Lemma engine_step_history s s' :
  engine_step s s' -> history (te_records s.1) (te_records s'.1).
Proof.
  destruct 1; cbn; eauto using Preview_history, Apply_history, Reverse_history,
    ReconcileApplied_history, VerifyApplied_history.
Qed.

Lemma engine_run_history s s' :
  rtc engine_step s s' -> history (te_records s.1) (te_records s'.1).
Proof.
  induction 1 as [|x y z Hs _ IH]; [done|]. etrans; [by apply engine_step_history|done].
Qed.

(** C18: no operation deletes a record or changes its identity, plan, snapshot
    or preview digest; statuses only move along the graph, and a failed or
    reversed transaction never changes its status again. *)
Theorem history_append_only s s' i r :
  rtc engine_step s s' -> te_records s.1 !! i = Some r ->
  exists r', te_records s'.1 !! i = Some r' /\ evolves r r' /\
    (terminal (tx_Status r) -> tx_Status r' = tx_Status r).
Proof.
  intros Hrun Hi. apply engine_run_history in Hrun.
  destruct (history_lookup _ _ _ _ Hrun Hi) as (r' & Hr' & He).
  exists r'. split_and!; [done..|]. intros Ht. eapply terminal_stays; [done|apply He].
Qed.

(** ** Appliers and their contract *)

(** The contract of an applier on the part of the host [X] it manages. *)
Record lawful_applier (ap : TransactionApplier X) : Prop := {
  la_preview_quiet : forall p w, w_ext (ap_Preview ap p w).2 = w_ext w;
  la_verify_quiet : forall p a w, w_ext (ap_Verify ap p a w).2 = w_ext w;
  la_apply_ok : forall p b w after w',
    ap_Apply ap p b w = ((after, None), w') -> 0 < slen after;
  la_apply_clean : forall p b w err w',
    ap_Apply ap p b w = (("", Some err), w') -> as_recovery err = None -> w_ext w' = w_ext w;
  la_reverse_undo : forall p b w after err w1 w2 w3,
    ap_Apply ap p b w = ((after, err), w1) -> 0 < slen after -> w_ext w2 = w_ext w1 ->
    ap_Reverse ap b after w2 = (None, w3) -> w_ext w3 = w_ext w;
}.

(** Every registered applier honours its contract and the evidence sink does
    not touch the managed part of the host. *)
Record lawful_engine e : Prop := {
  le_appliers : forall k ap, te_appliers e !! k = Some ap -> lawful_applier ap;
  le_evidence : forall sink i w, te_evidence e = Some sink -> w_ext (sink i w).2 = w_ext w;
}.

Lemma evidence_ext e r k s w err w' :
  lawful_engine e -> commitEvidenceLocked e r k s w = (err, w') -> w_ext w' = w_ext w.
Proof.
  intros HL. unfold commitEvidenceLocked. destruct (te_evidence e) as [sink|] eqn:Hs.
  - intros HE. change w' with (err, w').2. rewrite <- HE. by apply (le_evidence _ HL).
  - by intros [= <- <-].
Qed.

Lemma errors_Join_Some x es : exists y, errors_Join (Some x :: es) = Some y.
Proof. unfold errors_Join. simpl. eauto. Qed.

(** ** A run of [Apply], step by step

    The worlds and engines below are those of the run: [w] is where [Apply]
    starts, [w2] where the evidence sink returns, [w3] where the record that
    says "applying" is persisted, [w4] where the applier returns. *)

(** The write-ahead part of the run for the record [r] at [i]. *)
Record intent_committed id e i r w w2 e1 w3 : Prop := mkIntentCommitted {
  ic_record : te_records e !! i = Some r;
  ic_id : tx_ID r = id;
  ic_evidence : commitEvidenceLocked e r "transaction.apply.intent" "high" (next_tick w) = (None, w2);
  ic_persist : persistLocked (set_record i (set_status "applying" r) e) w2 = (None, e1, w3);
}.

(** What the code checked before the intent. *)
Record apply_allowed id conf e r w : Prop := mkApplyAllowed {
  aa_ready : readyLocked e = None;
  aa_status : tx_Status r = "previewed";
  aa_confirmed : conf = "APPLY " +:+ id;
  aa_fresh : Time.Sub (o_now (w_oracle w) (w_tick w)) (tx_CreatedAt r) <= transactionPreviewTTL;
}.

(** The history of an engine whose request was refused: untouched, or, when
    "applying" could not be persisted, closed by the integrity error. *)
Definition refused_engine e e' : Prop :=
  te_records e' = te_records e \/ is_Some (te_integrity e').

Lemma Apply_run id conf e w o e' w' :
  Apply e id conf w = (o, e', w') ->
  (exists err, o = Returns (zero_view, Some err) /\ refused_engine e e' /\
     (w' = w \/ w' = next_tick w \/
      exists r oe w2, commitEvidenceLocked e r "transaction.apply.intent" "high" (next_tick w) = (oe, w2) /\
        (w' = w2 \/ exists i e1, persistLocked (set_record i (set_status "applying" r) e) w2 = (Some err, e1, w')))) \/
  exists i r w2 e1 w3, apply_allowed id conf e r w /\ intent_committed id e i r w w2 e1 w3 /\
    runApply e1 i (set_status "applying" r) w3 = (o, e', w').
Proof.
  intros H. unfold Apply, refuse, time_Now in H.
  assert (refused_engine e e) as Hsame by by left.
  destruct (readyLocked e) eqn:Hready; [simplify_eq; left; eauto 6|].
  destruct (indexLocked e id) as [i|] eqn:Hidx; [|simplify_eq; left; eauto 6].
  destruct (index_from_spec _ _ _ _ Hidx) as (r & Hi & Hid).
  rewrite Nat.sub_0_r in Hi. rewrite Hi in H.
  destruct (is_status "previewed" r) eqn:Hst; [|simplify_eq/=; left; eauto 6].
  apply is_status_spec in Hst. cbn [negb] in H.
  destruct (Z.ltb_spec transactionPreviewTTL
    (Time.Sub (o_now (w_oracle w) (w_tick w)) (tx_CreatedAt r))); [simplify_eq; left; eauto 7|].
  case_bool_decide as Hconf; cbn [negb] in H; [|simplify_eq; left; eauto 7].
  destruct (commitEvidenceLocked _ _ _ _ _) as [[x|] w2] eqn:HE.
  { simplify_eq. left. eexists. split_and!; [done|done|]. right; right. eauto 7. }
  destruct (persistLocked _ w2) as [[[x|] e1] w3] eqn:HP.
  - simplify_eq. left. eexists. split_and!; [done|right; by eexists|]. right; right. eauto 9.
  - right. exists i, r, w2, e1, w3. split_and!; [split; [done|done|congruence|done]|by split|done].
Qed.

(** The error of the applier or of its verification, and where it came. *)
Definition step_error (ap : TransactionApplier X) r after (oerr : error) w4 (x : goerror) wx : Prop :=
  (oerr = Some x /\ wx = w4) \/ (oerr = None /\ ap_Verify ap (tx_Plan r) after w4 = (Some x, wx)).

(** Where the run takes a change back: after such an error, or after the
    verified change could not be committed. *)
Definition undone_at (ap : TransactionApplier X) e1 i r after oerr w4 w6 : Prop :=
  (exists x, step_error ap r after oerr w4 x w6) \/
  exists w5 r'' x, oerr = None /\ ap_Verify ap (tx_Plan r) after w4 = (None, w5) /\ tx_Status r'' = "applied" /\
    persistLocked (set_record i r'' e1) (next_tick w5) = (Some x, set_record i r'' e1, w6).

(** How a run that reached the applier ends, [r'] being the record it leaves:
    applied, verified in place and persisted as such; failed, with the host as
    it was when [Apply] was called; or recovery required, and then the applier
    asked for it or taking the change back failed. *)
Inductive apply_end (ap : TransactionApplier X) e1 i r after oerr w w4 e' w' (r' : SecurityTransaction) : error -> Prop :=
| ae_applied w5 : oerr = None -> ap_Verify ap (tx_Plan r) after w4 = (None, w5) ->
    tx_Status r' = "applied" -> tx_After r' = after ->
    persistLocked (set_record i r' e1) (next_tick w5) = (None, e', w') -> w_ext w' = w_ext w4 ->
    apply_end ap e1 i r after oerr w w4 e' w' r' None
| ae_failed err : tx_Status r' = "failed" -> w_ext w' = w_ext w -> apply_end ap e1 i r after oerr w w4 e' w' r' (Some err)
| ae_recovery err : tx_Status r' = "recovery_required" ->
    (exists x wx stage, step_error ap r after oerr w4 x wx /\ as_recovery x = Some stage) \/
    (exists w6 x w7, undone_at ap e1 i r after oerr w4 w6 /\ ap_Reverse ap (tx_Before r) after w6 = (Some x, w7)) ->
    apply_end ap e1 i r after oerr w w4 e' w' r' (Some err).

(** The record the run leaves is the one it reports. *)
Definition ends (ap : TransactionApplier X) e1 i r after oerr w w4 e' w' (o : outcome (TransactionView * error)) : Prop :=
  exists r' err, o = Returns (transactionView r' false, err) /\ te_records e' !! i = Some r' /\
    apply_end ap e1 i r after oerr w w4 e' w' r' err.

Lemma persist_at e i r' w oe e' w' : (i < length (te_records e))%nat ->
  persistLocked (set_record i r' e) w = (oe, e', w') -> te_records e' !! i = Some r'.
Proof. intros Hi H. rewrite (persist_records _ _ _ _ _ H). by apply list_lookup_insert_eq. Qed.

Lemma failApply_ends ap e1 i r after oerr w w3 w4 wx x o e' w' :
  lawful_applier ap -> w_ext w3 = w_ext w -> (i < length (te_records e1))%nat ->
  ap_Apply ap (tx_Plan r) (tx_Before r) w3 = ((after, oerr), w4) ->
  step_error ap r after oerr w4 x wx ->
  failApplyLocked e1 i (set_status "applying" r) after ap x wx = (o, e', w') ->
  ends ap e1 i r after oerr w w4 e' w' o.
Proof.
  intros HL Hw Hi HA Hs H. unfold failApplyLocked in H. cbn [tx_Before set_status set_stage set_after] in H.
  assert (w_ext wx = w_ext w4) as Hx.
  { destruct Hs as [[_ ->]|[_ HV]]; [done|]. pose proof (la_verify_quiet _ HL (tx_Plan r) after w4) as Hq. by rewrite HV in Hq. }
  destruct (as_recovery x) as [stage|] eqn:Hrec.
  { destruct (persistLocked _ _) as [[[y|] e2] w5] eqn:HP; pose proof (persist_at _ _ _ _ _ _ _ Hi HP) as Hr; simplify_eq/=;
      (eexists _, _; split_and!; [reflexivity|exact Hr|]);
      [destruct (errors_Join_Some x [Some y]) as [z ->]|]; (apply ae_recovery; [done|left; eauto]). }
  destruct (Z.ltb_spec 0 (slen after)) as [Hlen|Hlen].
  - destruct (ap_Reverse ap _ _ wx) as [[z|] w5] eqn:HR.
    + destruct (persistLocked _ _) as [[[y|] e2] w6] eqn:HP; pose proof (persist_at _ _ _ _ _ _ _ Hi HP) as Hr; simplify_eq/=;
        (eexists _, _; split_and!; [reflexivity|exact Hr|]); (apply ae_recovery; [done|]); right;
        exists wx, z, w5; (split; [by left; exists x|exact HR]).
    + assert (w_ext w5 = w_ext w3) as Hu by (eapply la_reverse_undo; eauto).
      destruct (persistLocked _ _) as [[[y|] e2] w6] eqn:HP; pose proof (persist_at _ _ _ _ _ _ _ Hi HP) as Hr; apply persist_ext in HP;
        simplify_eq/=; (eexists _, _; split_and!; [reflexivity|exact Hr|]);
        [destruct (errors_Join_Some x [Some y]) as [z ->]|]; (apply ae_failed; [done|congruence]).
  - assert (after = "") as -> by (destruct after; [done|]; unfold slen in Hlen; simpl in Hlen; lia).
    assert (w_ext wx = w_ext w3) as Hu.
    { rewrite Hx. destruct Hs as [[-> ->]|[-> _]]; [by eapply (la_apply_clean _ HL)|by apply (la_apply_ok _ HL) in HA]. }
    destruct (persistLocked _ _) as [[[y|] e2] w6] eqn:HP; pose proof (persist_at _ _ _ _ _ _ _ Hi HP) as Hr; apply persist_ext in HP;
      simplify_eq/=; (eexists _, _; split_and!; [reflexivity|exact Hr|]);
      [destruct (errors_Join_Some x [Some y]) as [z ->]|]; (apply ae_failed; [done|congruence]).
Qed.

Lemma commitApplied_ends ap e1 i r after w w3 w4 w5 o e' w' :
  lawful_applier ap -> w_ext w3 = w_ext w -> (i < length (te_records e1))%nat ->
  ap_Apply ap (tx_Plan r) (tx_Before r) w3 = ((after, None), w4) ->
  ap_Verify ap (tx_Plan r) after w4 = (None, w5) ->
  commitApplied e1 i (set_status "applying" r) after ap w5 = (o, e', w') ->
  ends ap e1 i r after None w w4 e' w' o.
Proof.
  intros HL Hw Hi HA HV H. unfold commitApplied, time_Now in H.
  assert (w_ext w5 = w_ext w4) as Hv.
  { pose proof (la_verify_quiet _ HL (tx_Plan r) after w4) as Hq. by rewrite HV in Hq. }
  destruct (persistLocked _ _) as [[[x|] e2] w6] eqn:HP; pose proof (persist_ext _ _ _ _ _ HP) as Hp; simpl in Hp.
  - pose proof HP as HP2. apply persistLocked_post in HP2 as [_ [[? _]|[_ ->]]]; [done|]. unfold ends.
    assert (undone_at ap e1 i r after None w4 w6) as HU by (right; eexists w5, _, x; split_and!; [done|done| |exact HP]; done).
    destruct (ap_Reverse _ _ _ _) as [[z|] w7] eqn:HR; simplify_eq/=; (eexists _, _; split_and!; [reflexivity| |]);
      try (cbn; rewrite list_insert_insert_eq; by apply list_lookup_insert_eq).
    + apply ae_recovery; [done|]. right. eauto.
    + apply ae_failed; [done|]. rewrite <- Hw.
      eapply (la_reverse_undo _ HL); [exact HA|by eapply la_apply_ok| |exact HR]. congruence.
  - pose proof (persist_at _ _ _ _ _ _ _ Hi HP) as Hr. simplify_eq/=.
    eexists _, _; split_and!; [reflexivity|exact Hr|]. eapply ae_applied; [done|exact HV|done|done|exact HP|congruence].
Qed.

(** C1: [Apply] is all-or-nothing for appliers that honour their contract, on
    every pattern of failing calls. Either it is refused and the host is
    untouched; or the request was allowed, its intent recorded and the record
    persisted as "applying" before the applier registered for its type ran on
    its plan, and the run ended in one of three ways: the record says
    "applied", it is persisted so, the applier's verification accepted the
    change in place and the host is as the applier left it; the record says
    "failed" and the host is as it was; or it says "recovery_required", which
    happens only when the applier asks for it or when taking the change back
    fails. The one panic is a stored transaction whose type has no registered
    applier. *)
Theorem apply_all_or_nothing e id conf w o e' w' :
  lawful_engine e -> Apply e id conf w = (o, e', w') ->
  (exists err, o = Returns (zero_view, Some err) /\ w_ext w' = w_ext w /\ refused_engine e e') \/
  exists i r w2 e1 w3, apply_allowed id conf e r w /\ intent_committed id e i r w w2 e1 w3 /\
    ((te_appliers e !! tx_Type r = None /\ o = Panics /\ w_ext w' = w_ext w) \/
     exists ap after oerr w4, te_appliers e !! tx_Type r = Some ap /\
       ap_Apply ap (tx_Plan r) (tx_Before r) w3 = ((after, oerr), w4) /\
       ends ap e1 i r after oerr w w4 e' w' o).
Proof.
  intros HL [(err & -> & HR & Hw)|(i & r & w2 & e1 & w3 & Ha & Hc & H)]%Apply_run.
  { left. exists err. split_and!; [done| |done]. destruct Hw as [->|[->|(r & oe & w2 & HE & Hw)]]; [done..|].
    apply evidence_ext in HE; [|done]. destruct Hw as [->|(i & e1 & HP)]; [done|]. apply persist_ext in HP. by rewrite HP, HE. }
  right. exists i, r, w2, e1, w3. split_and!; [done..|]. destruct Hc as [Hi Hid HE HP].
  assert (w_ext w3 = w_ext w) as Hw3.
  { apply evidence_ext in HE; [|done]. apply persist_ext in HP. rewrite HP, HE. done. }
  assert (i < length (te_records e1))%nat as Hlen.
  { rewrite (persist_records _ _ _ _ _ HP). cbn. rewrite length_insert. by eapply lookup_lt_Some. }
  apply persistLocked_post in HP as [_ [[_ ->]|[[? ?] _]]]; [|done].
  unfold runApply in H. cbn [te_appliers set_revision set_record set_records tx_Type tx_Plan tx_Before set_status] in H.
  destruct (te_appliers e !! tx_Type r) as [ap|] eqn:Hap; [right|left; by simplify_eq].
  pose proof (le_appliers _ HL _ _ Hap) as Hlaw.
  destruct (ap_Apply ap _ _ w3) as [[after oerr] w4] eqn:HA. exists ap, after, oerr, w4. split_and!; [done..|].
  destruct oerr as [x|].
  - eapply failApply_ends; [done|exact Hw3|exact Hlen|exact HA|by left|exact H].
  - destruct (ap_Verify ap _ after w4) as [[x|] w5] eqn:HV.
    + eapply failApply_ends; [done|exact Hw3|exact Hlen|exact HA|by right|exact H].
    + eapply commitApplied_ends; [done|exact Hw3|exact Hlen|exact HA|exact HV|exact H].
Qed.

(** ** The persisted history *)

Context `{CL : !CryptoLaws C} `{JEL : !JSONDocLaws encryptedStorageEnvelope}
  `{JSL : !JSONDocLaws transactionStore}.

(** The store file of [e] is an authenticated document holding [rs] at
    revision [rev]. *)
Definition on_disk e (rs : list SecurityTransaction) (rev : Z) w : Prop :=
  exists sealed pt,
    w_fs w !! te_path e = Some (mkInode Regular 384 sealed) /\
    json_Marshal (mkStore transactionSchema rev rs) = inr pt /\
    Decrypt (te_storage e) (te_path e) transactionPurpose sealed (Some rev) = inr (pt, false).

Lemma persist_on_disk e w e' w' :
  0 <= te_revision e < MaxUint64 ->
  persistLocked e w = (None, e', w') ->
  on_disk e (te_records e) (te_revision e + 1) w'.
Proof.
  intros HR H. unfold persistLocked in H.
  rewrite u64_small in H by lia.
  destruct (_ <? _); [done|].
  destruct (json_Marshal _) as [x|pt] eqn:HM; [done|].
  destruct (_ <? slen pt); [done|].
  destruct (Encrypt _ _ _ _ _ _) as [[x|sealed] w1] eqn:HE; [done|].
  destruct (os_MkdirAll w1) as [[x|] w2]; [done|].
  destruct (atomicWriteFile _ _ _ w2) as [[x|] w3] eqn:HA; [done|]. simplify_eq.
  apply atomicWriteFile_post in HA as [_ _ Hok].
  exists sealed, pt. split_and!; [by apply Hok|done|].
  eapply Decrypt_Encrypt; [by vm_compute| |exact HE| |by right];
    [lia|eapply Encrypt_trimmed, HE].
Qed.

(** C8: write-ahead. If [Apply] touched the host, then the request was
    confirmed for a fresh preview on a healthy engine and, in this run, the
    evidence sink accepted the intent and after it the history was persisted:
    at [w3], where the applier is called and where the host is still as it was,
    the store file is an authenticated document whose record says "applying".
    The rest of the run is [runApply] from there. *)
Theorem apply_write_ahead e id conf w o e' w' :
  (forall sink i w, te_evidence e = Some sink -> w_ext (sink i w).2 = w_ext w) ->
  0 <= te_revision e < MaxUint64 ->
  Apply e id conf w = (o, e', w') -> w_ext w' <> w_ext w ->
  exists i r sink w2 e1 w3,
    apply_allowed id conf e r w /\ te_records e !! i = Some r /\ tx_ID r = id /\
    te_evidence e = Some sink /\
    sink (mkIntent "high" "transaction.apply.intent" "transaction-engine"
            "Durable security transaction authorized" (tx_ID r +:+ " " +:+ tx_Type r)) (next_tick w) = (None, w2) /\
    persistLocked (set_record i (set_status "applying" r) e) w2 = (None, e1, w3) /\
    on_disk e (<[i := set_status "applying" r]> (te_records e)) (te_revision e + 1) w3 /\
    w_ext w3 = w_ext w /\
    runApply e1 i (set_status "applying" r) w3 = (o, e', w').
Proof.
  intros Hq HR H Hne. assert (forall r k s w1 oe w2, commitEvidenceLocked e r k s w1 = (oe, w2) -> w_ext w2 = w_ext w1) as HE.
  { intros r k s w1 oe w2. unfold commitEvidenceLocked. destruct (te_evidence e) as [sink|] eqn:Hs; [|by intros [= <- <-]].
    intros Hk. change w2 with (oe, w2).2. rewrite <- Hk. by apply Hq. }
  apply Apply_run in H as [(err & _ & _ & Hw)|(i & r & w2 & e1 & w3 & Ha & [Hi Hid Hev HP] & H)].
  { destruct Hne. destruct Hw as [->|[->|(r & oe & w2 & Hev & Hw)]]; [done..|]. apply HE in Hev.
    destruct Hw as [->|(i & e1 & HP)]; [done|]. apply persist_ext in HP. by rewrite HP, Hev. }
  pose proof (HE _ _ _ _ _ _ Hev) as Hw2. pose proof (persist_ext _ _ _ _ _ HP) as Hw3.
  unfold commitEvidenceLocked in Hev. destruct (te_evidence e) as [sink|]; [|done].
  exists i, r, sink, w2, e1, w3. split_and!; try done; [by apply persist_on_disk in HP|]. rewrite Hw3, Hw2. done.
Qed.

(** ** Loading *)

Lemma checkRecords_ok seen rs :
  Forall (fun r => validateTransactionRecord r = None) rs ->
  NoDup (map tx_ID rs) -> (forall r, r ∈ rs -> tx_ID r ∉ seen) ->
  checkRecords seen rs = None.
Proof.
  intros HV. revert seen. induction HV as [|r rs Hr _ IH]; intros seen HN Hs; [done|].
  cbn [checkRecords map] in *. apply NoDup_cons in HN as [Hnin HN]. rewrite Hr.
  rewrite bool_decide_false by (apply Hs; set_solver).
  apply IH; [done|]. intros r' Hin. apply not_elem_of_union. split; [|apply Hs; set_solver].
  apply not_elem_of_singleton. intros Heq. apply Hnin. rewrite <- Heq.
  by apply list_elem_of_fmap_2.
Qed.


(** ** Size of the sealed history *)

(** Progress: without faults, persisting a history within its budgets
    succeeds. *)
Lemma persistLocked_calm e w c pt :
  no_faults w -> te_storage e = Some c ->
  (forall i, w_fs w !! te_path e = Some i -> i_kind i <> Symlink) ->
  Z.of_nat (length (te_records e)) <= transactionMaxRecords ->
  json_Marshal (mkStore transactionSchema (u64 (te_revision e + 1)) (te_records e)) = inr pt ->
  slen pt <= transactionMaxBytes ->
  (forall env : encryptedStorageEnvelope, exists b, json_Marshal env = inr b) ->
  exists w', persistLocked e w = (None, set_revision (u64 (te_revision e + 1)) e, w').
Proof.
  intros Hf Hc Hsym Hlen HM Hsz Henv. unfold persistLocked.
  rewrite (proj2 (Z.ltb_ge _ _) Hlen), HM, (proj2 (Z.ltb_ge _ _) Hsz).
  unfold Encrypt, purposeKey. rewrite Hc, decide_False by done.
  change (96 <? slen transactionPurpose) with false. cbn [negb].
  unfold aes_NewCipher. rewrite hmac_len. cbn [Z.eqb orb Pos.eqb].
  unfold rand_Read, sys. rewrite Hf. cbn [fmap option_fmap option_map].
  match goal with |- context [json_Marshal (T := encryptedStorageEnvelope) ?env] =>
    destruct (Henv env) as [sealed ->] end.
  unfold os_MkdirAll, sys. cbn [w_oracle next_tick w_tick]. rewrite Hf. cbn.
  destruct (atomicWriteFile_calm (te_path e) sealed 384 (next_tick (next_tick w))) as (w' & -> & _);
    [done|done|]. eauto.
Qed.

Lemma persist_sealed_size e w e' w' pt :
  persistLocked e w = (None, e', w') ->
  json_Marshal (mkStore transactionSchema (u64 (te_revision e + 1)) (te_records e)) = inr pt ->
  exists sealed, w_fs w' !! te_path e = Some (mkInode Regular 384 sealed) /\
    4 * (slen pt + 16) <= 3 * slen sealed.
Proof.
  intros H HM. unfold persistLocked in H. rewrite HM in H.
  destruct (_ <? _); [done|]. destruct (_ <? slen pt); [done|].
  destruct (Encrypt _ _ _ _ _ _) as [[x|sealed] w1] eqn:HE; [done|].
  destruct (os_MkdirAll w1) as [[x|] w2]; [done|].
  destruct (atomicWriteFile _ _ _ w2) as [[x|] w3] eqn:HA; [done|]. simplify_eq.
  apply atomicWriteFile_post in HA as [_ _ Hok].
  exists sealed. split; [by apply Hok|].
  unfold Encrypt in HE.
  destruct (purposeKey _ _) as [|key]; [done|]. destruct (aes_NewCipher key); [done|].
  destruct (rand_Read _ _) as [[|nonce] wr]; [done|]. injection HE as HE <-.
  apply json_envelope_len in HE. cbn [Ciphertext] in HE.
  pose proof (base64_len (gcm_Seal key nonce pt
    (storageAAD match te_storage e with Some c => nodeName c | None => "" end
      transactionPurpose (te_path e) (u64 (te_revision e + 1))))) as HB.
  rewrite gcm_seal_len in HB. lia.
Qed.

(** The two size budgets disagree. [persistLocked] bounds the plaintext by
    16 MiB but [load] bounds the sealed file, whose base64 text is a third
    longer: a history of 12 MiB or more is persisted successfully and then
    refused by every later start. *)
Theorem oversized_history_unloadable e w e' w' pt e2 w2 :
  persistLocked e w = (None, e', w') ->
  json_Marshal (mkStore transactionSchema (u64 (te_revision e + 1)) (te_records e)) = inr pt ->
  12582912 <= slen pt ->
  te_path e2 = te_path e -> w_fs w2 !! te_path e = w_fs w' !! te_path e ->
  exists err w3, load e2 w2 = (Some err, e2, w3).
Proof.
  intros HP HM Hsz Hpath Hfs.
  destruct (persist_sealed_size _ _ _ _ _ HP HM) as (sealed & Hfile & Hlen).
  unfold load. rewrite Hpath.
  destruct (readBoundedPrivateFile (te_path e) transactionMaxBytes w2) as [[err|d] w3] eqn:HR; [by eauto|].
  apply readBounded_spec in HR as (_ & i & Hi & _ & _ & -> & Hmax).
  rewrite Hfs, Hfile in Hi. simplify_eq/=. unfold transactionMaxBytes in *. lia.
Qed.
End Facts.
