(* ===== verification/TransactionsWitness.v ===== *)
(** * The transaction engine on concrete inputs

    An engine with one applier that pushes a setting onto a stack, run with
    the concrete codec and cipher of [Instances.v]; the hypotheses of the
    engine's theorems hold for it. *)

From Stdlib Require Import ZArith Lia Ascii String.
From stdpp Require Import base gmap strings list relations.
From S2P Require Import Prelude.
From S2P Require Import GoLib.
From S2P Require Import World.
From S2P Require Import Storage.
From S2P Require Import Instances.
From S2P Require Import Transactions.
From S2P Require Import TransactionsFacts.

Definition ser_opt (t : option time) : string :=
  match t with None => "" | Some z => ser_Z z end.
Definition unser_opt (s : string) : option (option time) :=
  if decide (s = "") then Some None
  else match unser_Z s with Some z => Some (Some z) | None => None end.

Lemma unser_ser_opt t : unser_opt (ser_opt t) = Some t.
Proof.
  destruct t as [z|]; [|done]. unfold unser_opt. cbn [ser_opt].
  rewrite decide_False by (by destruct z). by rewrite unser_ser_Z.
Qed.

Definition tx_pack (r : SecurityTransaction) : string :=
  pack [tx_ID r; tx_Type r; tx_Summary r; tx_Reason r; tx_Status r; ser_Z (tx_CreatedAt r);
        ser_opt (tx_AppliedAt r); ser_opt (tx_ReversedAt r); tx_Plan r; tx_Before r; tx_After r;
        tx_PreviewHash r; tx_FailureStage r].

Definition tx_unpack (s : string) : option SecurityTransaction :=
  match unpack s with
  | Some [a; b; c; d; st; t; ta; tr; p; bf; af; h; fs] =>
      match unser_Z t, unser_opt ta, unser_opt tr with
      | Some t', Some ta', Some tr' => Some (mkTx a b c d st t' ta' tr' p bf af h fs)
      | _, _, _ => None
      end
  | _ => None
  end.

Lemma tx_unpack_pack r : tx_unpack (tx_pack r) = Some r.
Proof.
  unfold tx_unpack, tx_pack. rewrite unpack_pack, unser_ser_Z, !unser_ser_opt. by destruct r.
Qed.

#[export, refine] Instance store_fields : Fields transactionStore := {
  to_fields s := (st_Schema s, ser_Z (st_Revision s) :: map tx_pack (st_Records s));
  of_fields l :=
    match l with
    | sch :: rev :: rs =>
        match unser_Z rev, mapM tx_unpack rs with
        | Some n, Some rs' => Some (mkStore sch n rs')
        | _, _ => None
        end
    | _ => None
    end;
  of_to_fields := _;
}.
Proof.
  intros [sch n rs]. cbn [st_Schema st_Revision st_Records fst snd]. rewrite unser_ser_Z.
  assert (mapM tx_unpack (map tx_pack rs) = Some rs) as ->; [|done].
  induction rs as [|r rs IH]; [done|]. cbn [map mapM]. rewrite tx_unpack_pack. cbn. by rewrite IH.
Defined.

#[export, refine] Instance json_text : JSONText := {
  json_Valid s := negb (bool_decide (s = ""));
  json_Valid_nonempty := _;
}.
Proof. done. Defined.

(** The managed part of the host: a stack of settings. *)
Definition stack_applier : TransactionApplier (list Z) :=
  mkApplier "demo" None
    (fun payload w => (inr (payload, "{}"), w))
    (fun plan before w => (("[1]", None), set_ext (1 :: w_ext w) w))
    (fun plan after w => (if bool_decide (hd 0 (w_ext w) = 1) then None
                          else errors_New "setting drifted", w))
    (fun before after w => (None, set_ext (tl (w_ext w)) w)).

Definition demo_engine : TransactionEngine (list Z) :=
  mkEngine "/var/lib/tx.json" (Some (mkStorageCipher "key" "node")) 0 []
    {["demo" := stack_applier]} None (Some (fun _ w => (None, w))).

Lemma stack_applier_lawful : lawful_applier stack_applier.
Proof.
  split; cbn; try done.
  - by intros p b w after w' [= <- _].
  - intros p b w after err w1 w2 w3 [= <- <- <-] _ Hw [= <-]. cbn in *. by rewrite Hw.
Qed.

Lemma demo_engine_lawful e :
  te_appliers e = te_appliers demo_engine -> te_evidence e = te_evidence demo_engine ->
  lawful_engine e.
Proof.
  intros HA HE. split.
  - rewrite HA. intros k ap Hk. cbn in Hk. apply lookup_singleton_Some in Hk as [_ <-].
    apply stack_applier_lawful.
  - intros sink i w. rewrite HE. by intros [= <-].
Qed.

Definition demo_preview := Preview demo_engine "demo" "summary" "reason" "{}" (calm_world []).
Definition demo_e1 : TransactionEngine (list Z) := demo_preview.1.2.
Definition demo_w1 : world (list Z) := demo_preview.2.
Definition demo_id : string := "TX-656e74726f70792d".
Definition demo_apply := Apply demo_e1 demo_id ("APPLY " +:+ demo_id) demo_w1.
Definition demo_e2 : TransactionEngine (list Z) := demo_apply.1.2.
Definition demo_w2 : world (list Z) := demo_apply.2.

Lemma demo_apply_eq :
  Apply demo_e1 demo_id ("APPLY " +:+ demo_id) demo_w1 = (demo_apply.1.1, demo_e2, demo_w2).
Proof. unfold demo_e2, demo_w2, demo_apply. by destruct (Apply _ _ _ _) as [[? ?] ?]. Qed.

Lemma demo_status :
  map tx_Status (te_records demo_e1) = ["previewed"] /\
  map tx_Status (te_records demo_e2) = ["applied"] /\ w_ext demo_w2 = [1].
Proof. by vm_compute. Qed.

Definition demo_record : SecurityTransaction :=
  Eval vm_compute in default (mkTx "" "" "" "" "" 0 None None "" "" "" "" "") (te_records demo_e1 !! 0%nat).

Lemma demo_record_eq : te_records demo_e1 !! 0%nat = Some demo_record.
Proof. by vm_compute. Qed.

Lemma history_append_only_witness :
  exists r', te_records demo_e2 !! 0%nat = Some r' /\ evolves demo_record r' /\
    (terminal (tx_Status demo_record) -> tx_Status r' = tx_Status demo_record).
Proof.
  apply (history_append_only (demo_e1, demo_w1) (demo_e2, demo_w2) 0 demo_record).
  - apply rtc_once. eapply es_apply. apply demo_apply_eq.
  - apply demo_record_eq.
Defined.

Lemma apply_all_or_nothing_witness :
  (exists err, demo_apply.1.1 = Returns (zero_view, Some err) /\ w_ext demo_w2 = w_ext demo_w1 /\
     refused_engine demo_e1 demo_e2) \/
  exists i r w2 e1 w3, apply_allowed demo_id ("APPLY " +:+ demo_id) demo_e1 r demo_w1 /\
    intent_committed demo_id demo_e1 i r demo_w1 w2 e1 w3 /\
    ((te_appliers demo_e1 !! tx_Type r = None /\ demo_apply.1.1 = Panics /\ w_ext demo_w2 = w_ext demo_w1) \/
     exists ap after oerr w4, te_appliers demo_e1 !! tx_Type r = Some ap /\
       ap_Apply ap (tx_Plan r) (tx_Before r) w3 = ((after, oerr), w4) /\
       ends ap e1 i r after oerr demo_w1 w4 demo_e2 demo_w2 (demo_apply.1.1)).
Proof.
  apply (apply_all_or_nothing demo_e1 demo_id ("APPLY " +:+ demo_id) demo_w1
           (demo_apply.1.1) demo_e2 demo_w2).
  - apply demo_engine_lawful; reflexivity.
  - apply demo_apply_eq.
Defined.

Lemma apply_write_ahead_witness :
  exists i r sink w2 e1 w3,
    apply_allowed demo_id ("APPLY " +:+ demo_id) demo_e1 r demo_w1 /\
    te_records demo_e1 !! i = Some r /\ tx_ID r = demo_id /\
    te_evidence demo_e1 = Some sink /\
    sink (mkIntent "high" "transaction.apply.intent" "transaction-engine"
            "Durable security transaction authorized" (tx_ID r +:+ " " +:+ tx_Type r)) (next_tick demo_w1) = (None, w2) /\
    persistLocked (set_record i (set_status "applying" r) demo_e1) w2 = (None, e1, w3) /\
    on_disk demo_e1 (<[i := set_status "applying" r]> (te_records demo_e1)) (te_revision demo_e1 + 1) w3 /\
    w_ext w3 = w_ext demo_w1 /\
    runApply e1 i (set_status "applying" r) w3 = (demo_apply.1.1, demo_e2, demo_w2).
Proof.
  apply (apply_write_ahead demo_e1 demo_id ("APPLY " +:+ demo_id) demo_w1
           (demo_apply.1.1) demo_e2 demo_w2).
  - intros sink i w. by intros [= <-].
  - by vm_compute.
  - apply demo_apply_eq.
  - by vm_compute.
Defined.

(** A persisted history and its reload. *)
Definition demo_store : TransactionEngine (list Z) :=
  set_records [set_status "applying" demo_record] demo_engine.
Definition demo_saved := persistLocked demo_store (calm_world []).

Lemma demo_saved_eq :
  persistLocked demo_store (calm_world []) = (None, demo_saved.1.2, demo_saved.2).
Proof.
  assert (demo_saved.1.1 = None) as H by (by vm_compute).
  unfold demo_saved in *. destruct (persistLocked _ _) as [[? ?] ?]. cbn in *. by subst.
Qed.


(** A history of more than 12 MiB: one record with a large result. *)
Definition big_text : string := of_bytes (replicate (Z.to_nat 3400000) "x"%char).
Lemma slen_big_text : slen big_text = 3400000.
Proof. unfold big_text. rewrite slen_of_bytes, length_replicate. lia. Qed.
#[local] Opaque big_text.

Definition big_record : SecurityTransaction := set_after big_text demo_record.
Definition big_engine : TransactionEngine (list Z) := set_records [big_record] demo_engine.
Definition big_store : transactionStore := mkStore transactionSchema (u64 (0 + 1)) [big_record].
Definition big_plain : string :=
  match json_Marshal big_store with inr pt => pt | inl _ => "" end.

Lemma slen_big_plain : 12582912 <= slen big_plain <= transactionMaxBytes.
Proof.
  unfold big_plain. cbn [json_Marshal fields_json]. rewrite slen_pack.
  cbn [to_fields store_fields big_store st_Schema st_Revision st_Records fst snd map foldr].
  unfold tx_pack. rewrite slen_pack. cbn [foldr big_record set_after tx_After].
  rewrite slen_big_text. split; by vm_compute.
Qed.

Lemma big_marshal_eq :
  json_Marshal (mkStore transactionSchema (u64 (te_revision big_engine + 1)) (te_records big_engine))
  = inr big_plain.
Proof. reflexivity. Qed.

Lemma big_saved_eq : exists w', persistLocked big_engine (calm_world []) =
  (None, set_revision (u64 (te_revision big_engine + 1)) big_engine, w').
Proof.
  eapply persistLocked_calm with (pt := big_plain).
  - intros n. reflexivity.
  - reflexivity.
  - intros i Hi. cbn in Hi. by rewrite lookup_empty in Hi.
  - done.
  - unfold big_plain. reflexivity.
  - apply slen_big_plain.
  - intros env. by eexists.
Qed.

Lemma oversized_history_unloadable_witness :
  exists e' w' err w3,
    persistLocked big_engine (calm_world []) = (None, e', w') /\
    load demo_engine w' = (Some err, demo_engine, w3).
Proof.
  destruct big_saved_eq as [w' HP].
  exists (set_revision (u64 (te_revision big_engine + 1)) big_engine), w'.
  pose proof (oversized_history_unloadable big_engine (calm_world [])
    (set_revision (u64 (te_revision big_engine + 1)) big_engine) w' big_plain demo_engine w') as HT.
  specialize (HT HP big_marshal_eq (proj1 slen_big_plain) eq_refl eq_refl).
  destruct HT as (err & w3 & HL). exists err, w3. split; [exact HP|exact HL].
Defined.

(** Sealing and opening a document. *)
Definition demo_cipher : option StorageCipher := Some (mkStorageCipher "key" "node").
Definition demo_sealed : string :=
  match (Encrypt demo_cipher "/x" "doc" 7 "text" (calm_world ())).1 with inr b => b | inl _ => "" end.

Lemma decrypt_encrypt_witness :
  Decrypt demo_cipher "/x" "doc" demo_sealed (Some 7) = inr ("text", false).
Proof.
  apply (decrypt_encrypt demo_cipher "/x" "doc" 7 "text" (calm_world ()) demo_sealed
           (next_tick (calm_world ()))); [by vm_compute..|by right].
Defined.

Lemma decrypt_bound_witness :
  exists c0 env key nonce,
    demo_cipher = Some c0 /\
    json_Decode (TrimSpace demo_sealed) = inr env /\
    Purpose env = "doc" /\
    (forall s, Some 7 = Some s -> Sequence env = s) /\
    purposeKey demo_cipher "doc" = inr key /\
    let aad := storageAAD (nodeName c0) "doc" "/x" (Sequence env) in
    hex_DecodeString (AADHash env) = Some (sha256_Sum aad) /\
    base64_DecodeString (Nonce env) = Some nonce /\ slen nonce = 12 /\
    base64_DecodeString (Ciphertext env) = Some (gcm_Seal key nonce "text" aad).
Proof. apply (decrypt_bound demo_cipher "/x" "doc" demo_sealed (Some 7) "text"). by vm_compute. Defined.
