(* ===== verification/Policy.v ===== *)
(** * The signed policy store (src/control/policy.go, src/control/trust_fabric.go)

    The signed policy document, its anti-rollback generation floor and its
    last-known-good copy. Ed25519 is a parameter. *)

From Stdlib Require Import ZArith Lia Ascii String.
From stdpp Require Import base gmap strings list sorting.
From S2P Require Import Prelude.
From S2P Require Import GoLib.
From S2P Require Import World.
From S2P Require Import Storage.

Definition policyDocumentVersion : Z := 1.
Definition bootstrapPolicyGenerationFloor : Z := 1.
Definition policyFloorSchema : Z := 1.

(** [BlockEntry] (src/control/state.go) *)
Record BlockEntry := mkBlock {
  b_ID : string;
  b_Target : string;
  b_Reason : string;
  b_Source : string;
  b_CreatedAt : time;
  b_ExpiresAt : time;
  b_Enforced : bool;
}.

Record policyFloorDocument := mkFloorDoc {
  fl_Schema : Z;
  fl_MinimumGeneration : Z;
  fl_UpdatedAt : time;
}.

Record PolicyEnvelope := mkPolicy {
  pe_Version : Z;
  pe_Generation : Z;
  pe_NodeName : string;
  pe_Enforcement : string;
  pe_XDRMode : string;
  pe_UpdatedAt : time;
  pe_Blocks : list BlockEntry;
}.

Definition zero_policy : PolicyEnvelope := mkPolicy 0 0 "" "" "" 0 [].
Definition empty_policy : PolicyEnvelope := mkPolicy policyDocumentVersion 0 "" "" "" 0 [].

Record PolicyDocument := mkDoc {
  pd_Envelope : PolicyEnvelope;
  pd_Signature : string;
}.

Record PolicyStatus := mkPolicyStatus {
  pst_Verified : bool;
  pst_Generation : Z;
  pst_UpdatedAt : option time;
  pst_Signer : string;
  pst_Error : string;
  pst_MinimumGeneration : Z;
}.

Record PolicyTrustFabricSettings := mkTrust {
  pt_RequireSigned : bool;
  pt_MinimumGeneration : Z;
  pt_VerifyIntervalSeconds : Z;
  pt_MaxStateBytes : Z;
}.

(** [defaultPolicyTrustFabricSettings] *)
Definition defaultPolicyTrustFabricSettings : PolicyTrustFabricSettings :=
  mkTrust true bootstrapPolicyGenerationFloor 900 67108864.

(** [validatePolicyTrustFabricSettings] *)
Definition validatePolicyTrustFabricSettings (s : PolicyTrustFabricSettings) : error :=
  if (pt_VerifyIntervalSeconds s <? 30) || (86400 <? pt_VerifyIntervalSeconds s)
  then errors_New "policy verification interval must be between 30 and 86400 seconds"
  else if (pt_MaxStateBytes s <? 65536) || (536870912 <? pt_MaxStateBytes s)
  then errors_New "policy state read bound must be between 64 KiB and 512 MiB"
  else None.

Record PolicyStore := mkPolicyStore {
  ps_StateFile : string;
  ps_crypto : option StorageCipher;
  ps_nodeName : string;
  ps_privateKey : string;
  ps_publicKey : string;
  ps_generation : Z;
  ps_floor : Z;
  ps_recovered : bool;
  ps_status : PolicyStatus;
  ps_trust : PolicyTrustFabricSettings;
}.

(** Ed25519: signing, verification, and the size of a signature. *)
Class Ed25519 := {
  ed_Sign : string -> string -> string;
  ed_Verify : string -> string -> string -> bool;
  ed_Public : string -> string;
}.
Class Ed25519Laws (E : Ed25519) := {
  ed_sign_len : forall k m, slen (ed_Sign k m) = 64;
  ed_verify_sign : forall k m, ed_Verify (ed_Public k) m (ed_Sign k m) = true;
}.

Definition set_floor (f : Z) (p : PolicyStore) : PolicyStore :=
  mkPolicyStore (ps_StateFile p) (ps_crypto p) (ps_nodeName p) (ps_privateKey p) (ps_publicKey p)
    (ps_generation p) f (ps_recovered p) (ps_status p) (ps_trust p).
Definition set_generation (g : Z) (p : PolicyStore) : PolicyStore :=
  mkPolicyStore (ps_StateFile p) (ps_crypto p) (ps_nodeName p) (ps_privateKey p) (ps_publicKey p)
    g (ps_floor p) (ps_recovered p) (ps_status p) (ps_trust p).
Definition set_recovered (r : bool) (p : PolicyStore) : PolicyStore :=
  mkPolicyStore (ps_StateFile p) (ps_crypto p) (ps_nodeName p) (ps_privateKey p) (ps_publicKey p)
    (ps_generation p) (ps_floor p) r (ps_status p) (ps_trust p).
Definition set_pstatus (s : PolicyStatus) (p : PolicyStore) : PolicyStore :=
  mkPolicyStore (ps_StateFile p) (ps_crypto p) (ps_nodeName p) (ps_privateKey p) (ps_publicKey p)
    (ps_generation p) (ps_floor p) (ps_recovered p) s (ps_trust p).
Definition set_trust (t : PolicyTrustFabricSettings) (p : PolicyStore) : PolicyStore :=
  mkPolicyStore (ps_StateFile p) (ps_crypto p) (ps_nodeName p) (ps_privateKey p) (ps_publicKey p)
    (ps_generation p) (ps_floor p) (ps_recovered p) (ps_status p) t.

Definition policyFloorPath (p : PolicyStore) : string := ps_StateFile p +:+ ".floor".
Definition lastGoodPath (p : PolicyStore) : string := ps_StateFile p +:+ ".lastgood".

(** [raiseFloorLocked] *)
Definition raiseFloorLocked (floor : Z) (p : PolicyStore) : PolicyStore :=
  if ps_floor p <? floor then set_floor floor p else p.

Definition requireSigned (p : PolicyStore) : bool := pt_RequireSigned (ps_trust p).
Definition maxStateBytes (p : PolicyStore) : Z :=
  if 0 <? pt_MaxStateBytes (ps_trust p) then pt_MaxStateBytes (ps_trust p) else 67108864.

(** [ApplyPolicy]: the floor is monotonic. *)
Definition ApplyPolicy (s : PolicyTrustFabricSettings) (p : PolicyStore) : PolicyStore :=
  let m := pt_MinimumGeneration s in
  let m := if m <? bootstrapPolicyGenerationFloor then bootstrapPolicyGenerationFloor else m in
  let m := if m <? ps_floor p then ps_floor p else m in
  set_trust (mkTrust (pt_RequireSigned s) m (pt_VerifyIntervalSeconds s) (pt_MaxStateBytes s))
    (raiseFloorLocked m p).

(** [Status] *)
Definition PolicyStore_Status (p : PolicyStore) : PolicyStatus :=
  let st := ps_status p in
  let m := pst_MinimumGeneration st in
  let m := if m <? ps_floor p then ps_floor p else m in
  let m := if m <? bootstrapPolicyGenerationFloor then bootstrapPolicyGenerationFloor else m in
  mkPolicyStatus (pst_Verified st) (pst_Generation st) (pst_UpdatedAt st) (pst_Signer st)
    (pst_Error st) m.

(** The order of [canonicalPolicy]: by target, then by identifier. *)
Definition block_le (a b : BlockEntry) : Prop :=
  if bool_decide (b_Target a = b_Target b) then String.leb (b_ID a) (b_ID b) = true
  else String.leb (b_Target a) (b_Target b) = true.
#[export] Instance block_le_dec : RelDecision block_le.
Proof. intros a b. unfold block_le. destruct (bool_decide _); apply _. Defined.

Definition sort_blocks (bs : list BlockEntry) : list BlockEntry := merge_sort block_le bs.

Section PolicyStore.
Context {X : Type} `{C : Crypto} `{ED : Ed25519} `{JE : JSONDoc encryptedStorageEnvelope}
  `{EP : !EnvelopeProbe} `{JP : JSONDoc PolicyEnvelope} `{JD : JSONDoc PolicyDocument}
  `{JF : JSONDoc policyFloorDocument}.

(** [canonicalPolicy] *)
Definition canonicalPolicy (env : PolicyEnvelope) : goerror + string :=
  json_Marshal (mkPolicy (pe_Version env) (pe_Generation env) (pe_NodeName env)
    (pe_Enforcement env) (pe_XDRMode env) (pe_UpdatedAt env) (sort_blocks (pe_Blocks env))).

(** [decodePolicyDocument] *)
Definition decodePolicyDocument (data : string) : goerror + PolicyDocument :=
  match json_Decode data with
  | inl e => inl (ErrWrap "policy document" e)
  | inr doc =>
      if negb (pe_Version (pd_Envelope doc) =? policyDocumentVersion)
      then inl (ErrText "unsupported policy document version")
      else inr doc
  end.

(** [readPersistedFloor]: the floor and whether an anchor exists. *)
Definition readPersistedFloor (p : PolicyStore) (w : world X)
  : (goerror + (Z * bool)) * world X :=
  let path := policyFloorPath p in
  match readBoundedPrivateFile path 65536 w with
  | (inl e, w1) => if is_not_exist e then (inr (0, false), w1) else (inl e, w1)
  | (inr data, w1) =>
      let plain :=
        match ps_crypto p with
        | None => inr data
        | Some _ =>
            match Decrypt (ps_crypto p) path "policy-generation-floor" data None with
            | inl e => inl e
            | inr (d, _) => inr d
            end
        end in
      match plain with
      | inl e => (inl e, w1)
      | inr d =>
          match json_Decode (T := policyFloorDocument) d with
          | inl e => (inl (ErrWrap "policy generation floor" e), w1)
          | inr doc =>
              if negb (fl_Schema doc =? policyFloorSchema)
              then (inl (ErrText "unsupported policy generation floor schema"), w1)
              else (inr (fl_MinimumGeneration doc, true), w1)
          end
      end
  end.

(** [persistFloorLocked] *)
Definition persistFloorLocked (p : PolicyStore) (floor : Z) (w : world X) : error * world X :=
  let floor := if floor <? bootstrapPolicyGenerationFloor
               then bootstrapPolicyGenerationFloor else floor in
  let '(now, w1) := time_Now w in
  match json_Marshal (mkFloorDoc policyFloorSchema floor now) with
  | inl e => (Some e, w1)
  | inr data =>
      let path := policyFloorPath p in
      match ps_crypto p with
      | None => atomicWriteFile path (data +:+ newline) 384 w1
      | Some _ =>
          match Encrypt (ps_crypto p) path "policy-generation-floor" 0 data w1 with
          | (inl e, w2) => (Some e, w2)
          | (inr sealed, w2) => atomicWriteFile path (sealed +:+ newline) 384 w2
          end
      end
  end.

(** [encodeDocumentFor] *)
Definition encodeDocumentFor (p : PolicyStore) (path purpose : string) (doc : PolicyDocument)
    (w : world X) : (goerror + string) * world X :=
  match json_Marshal doc with
  | inl e => (inl e, w)
  | inr encoded =>
      let encoded := encoded +:+ newline in
      match ps_crypto p with
      | None => (inr encoded, w)
      | Some _ =>
          match Encrypt (ps_crypto p) path purpose 0 encoded w with
          | (inl e, w1) => (inl e, w1)
          | (inr sealed, w1) => (inr (sealed +:+ newline), w1)
          end
      end
  end.

(** [decodeDocumentFrom] *)
Definition decodeDocumentFrom (p : PolicyStore) (path purpose data : string)
  : goerror + (PolicyDocument * bool) :=
  match ps_crypto p with
  | None => ok_map (fun d => (d, false)) (decodePolicyDocument data)
  | Some _ =>
      match Decrypt (ps_crypto p) path purpose data None with
      | inl e => inl e
      | inr (plain, legacy) => ok_map (fun d => (d, legacy)) (decodePolicyDocument plain)
      end
  end.

(** [writeDocument] *)
Definition writeDocument (p : PolicyStore) (doc : PolicyDocument) (w : world X) : error * world X :=
  match encodeDocumentFor p (ps_StateFile p) "policy-state" doc w with
  | (inl e, w1) => (Some e, w1)
  | (inr encoded, w1) => atomicWriteFile (ps_StateFile p) encoded 384 w1
  end.

(** [writeLastKnownGoodLocked] *)
Definition writeLastKnownGoodLocked (p : PolicyStore) (doc : PolicyDocument) (w : world X)
  : error * world X :=
  match encodeDocumentFor p (lastGoodPath p) "policy-state-lastgood" doc w with
  | (inl e, w1) => (Some e, w1)
  | (inr encoded, w1) => atomicWriteFile (lastGoodPath p) encoded 384 w1
  end.

(** The signature test of [Load] and [loadLastKnownGoodLocked]. *)
Definition signatureValid (p : PolicyStore) (payload signature : string) : bool :=
  match base64_DecodeString signature with
  | None => false
  | Some sig => (slen sig =? 64) && ed_Verify (ps_publicKey p) payload sig
  end.

(** [loadLastKnownGoodLocked] *)
Definition loadLastKnownGoodLocked (p : PolicyStore) (w : world X)
  : option PolicyDocument * world X :=
  match readBoundedPrivateFile (lastGoodPath p) (maxStateBytes p) w with
  | (inl _, w1) => (None, w1)
  | (inr data, w1) =>
      match decodeDocumentFrom p (lastGoodPath p) "policy-state-lastgood" data with
      | inl _ => (None, w1)
      | inr (doc, _) =>
          match canonicalPolicy (pd_Envelope doc) with
          | inl _ => (None, w1)
          | inr payload =>
              if signatureValid p payload (pd_Signature doc) then (Some doc, w1) else (None, w1)
          end
      end
  end.

Definition verified_status (p : PolicyStore) (u : option time) : PolicyStatus :=
  mkPolicyStatus true (ps_generation p) u (pst_Signer (ps_status p)) "" (ps_floor p).

(** [recoverFromLastKnownGoodLocked] *)
Definition recoverFromLastKnownGoodLocked (p : PolicyStore) (w : world X)
  : option PolicyEnvelope * PolicyStore * world X :=
  match loadLastKnownGoodLocked p w with
  | (None, w1) => (None, p, w1)
  | (Some doc, w1) =>
      if pe_Generation (pd_Envelope doc) <? ps_floor p then (None, p, w1)
      else
        let p1 := raiseFloorLocked (pe_Generation (pd_Envelope doc))
                    (set_generation (pe_Generation (pd_Envelope doc)) (set_recovered true p)) in
        let '(_, w2) := persistFloorLocked p1 (ps_floor p1) w1 in
        let p2 := set_pstatus (verified_status p1 (Some (pe_UpdatedAt (pd_Envelope doc)))) p1 in
        let '(_, w3) := writeDocument p2 doc w2 in
        let '(_, w4) := writeLastKnownGoodLocked p2 doc w3 in
        (Some (pd_Envelope doc), p2, w4)
  end.

(** The [fail] closure of [Load]. *)
Definition fail_status (message : string) (p : PolicyStore) : PolicyStore :=
  set_pstatus (mkPolicyStatus false 0 None (pst_Signer (ps_status p)) message (ps_floor p)) p.

Abbreviation load_result := (PolicyEnvelope * error * PolicyStore * world X)%type.

Definition load_fail (message : string) (err : goerror) (p : PolicyStore) (w : world X) : load_result :=
  (zero_policy, Some err, fail_status message p, w).

(** The part of [Load] after a document was decoded. *)
Definition acceptDocument (p : PolicyStore) (doc : PolicyDocument) (wasLegacy : bool) (w : world X)
  : load_result :=
  match canonicalPolicy (pd_Envelope doc) with
  | inl e => load_fail "policy state could not be canonicalised" e p w
  | inr payload =>
      if negb (signatureValid p payload (pd_Signature doc)) then
        if requireSigned p
        then load_fail "signature verification failed"
               (ErrText "policy signature verification failed") p w
        else (empty_policy, None, fail_status "signature verification failed" p, w)
      else if pe_Generation (pd_Envelope doc) <? ps_floor p then
        load_fail ("policy generation " +:+ itoa (pe_Generation (pd_Envelope doc))
                   +:+ " is below the pinned minimum " +:+ itoa (ps_floor p))
          (ErrText ("policy rollback detected: generation "
                    +:+ itoa (pe_Generation (pd_Envelope doc))
                    +:+ " is below the pinned minimum " +:+ itoa (ps_floor p))) p w
      else
        let p1 := raiseFloorLocked (pe_Generation (pd_Envelope doc))
                    (set_generation (pe_Generation (pd_Envelope doc)) p) in
        match persistFloorLocked p1 (ps_floor p1) w with
        | (Some e, w1) => (zero_policy, errorf_w "policy generation floor persistence" (Some e), p1, w1)
        | (None, w1) =>
            let p2 := set_pstatus (verified_status p1 (Some (pe_UpdatedAt (pd_Envelope doc)))) p1 in
            let '(migration, w2) := if wasLegacy then writeDocument p2 doc w1 else (None, w1) in
            match migration with
            | Some e => (zero_policy, errorf_w "policy encryption migration" (Some e), p2, w2)
            | None =>
                let '(_, w3) := writeLastKnownGoodLocked p2 doc w2 in
                (pd_Envelope doc, None, p2, w3)
            end
        end
  end.

(** [Load] *)
Definition Load (p : PolicyStore) (w : world X) : load_result :=
  let p := set_recovered false p in
  match readPersistedFloor p w with
  | (inl e, w1) =>
      load_fail "policy generation floor state is unreadable"
        (ErrWrap "policy generation floor" e) p w1
  | (inr (persistedFloor, floorPresent), w1) =>
      let p := raiseFloorLocked (pt_MinimumGeneration (ps_trust p)) (raiseFloorLocked persistedFloor p) in
      match readBoundedPrivateFile (ps_StateFile p) (maxStateBytes p) w1 with
      | (inl readErr, w2) =>
          match recoverFromLastKnownGoodLocked p w2 with
          | (Some recovered, p1, w3) => (recovered, None, p1, w3)
          | (None, p1, w3) =>
              if is_not_exist readErr then
                if floorPresent || (bootstrapPolicyGenerationFloor <? ps_floor p1) then
                  load_fail "policy state is missing above the persisted generation floor"
                    (ErrText "policy state is missing but a generation floor is persisted") p1 w3
                else
                  (empty_policy, None,
                   set_pstatus (mkPolicyStatus true 0 None (pst_Signer (ps_status p1)) ""
                                  (ps_floor p1)) p1, w3)
              else load_fail "policy state is unreadable" readErr p1 w3
          end
      | (inr b, w2) =>
          match decodeDocumentFrom p (ps_StateFile p) "policy-state" b with
          | inl e => load_fail "policy state could not be decoded" e p w2
          | inr (doc, wasLegacy) => acceptDocument p doc wasLegacy w2
          end
      end
  end.

(** [Persist] *)
Definition Persist (p : PolicyStore) (node enforcement xdrMode : string) (blocks : list BlockEntry)
    (w : world X) : error * PolicyStore * world X :=
  let '(now, w1) := time_Now w in
  let active := List.filter (fun b => Time.After (b_ExpiresAt b) now) blocks in
  let nextGeneration := u64 (ps_generation p + 1) in
  let nextGeneration :=
    if nextGeneration <? ps_floor p then u64 (ps_floor p + 1) else nextGeneration in
  let envelope := mkPolicy policyDocumentVersion nextGeneration node enforcement xdrMode now active in
  match canonicalPolicy envelope with
  | inl e => (Some e, p, w1)
  | inr payload =>
      let doc := mkDoc envelope (base64_EncodeToString (ed_Sign (ps_privateKey p) payload)) in
      match writeDocument p doc w1 with
      | (Some e, w2) => (Some e, p, w2)
      | (None, w2) =>
          let p1 := raiseFloorLocked nextGeneration (set_generation nextGeneration p) in
          match persistFloorLocked p1 (ps_floor p1) w2 with
          | (Some e, w3) =>
              (errorf_w "signed policy persisted but the generation floor could not be raised"
                 (Some e), p1, w3)
          | (None, w3) =>
              let '(_, w4) := writeLastKnownGoodLocked p1 doc w3 in
              (None, set_pstatus (verified_status p1 (Some now)) p1, w4)
          end
      end
  end.
End PolicyStore.
