(* ===== verification/PolicyFacts.v ===== *)
(** * Theorems about the policy store

    The generation floor only rises; a load accepts nothing below it; a
    persisted policy cannot be rolled back while its floor anchor is intact,
    and loads back when nothing was damaged. *)

From Stdlib Require Import ZArith Lia Ascii String.
From stdpp Require Import base gmap strings list relations.
From S2P Require Import Prelude.
From S2P Require Import GoLib.
From S2P Require Import World.
From S2P Require Import Storage.
From S2P Require Import Policy.

Lemma raiseFloor_floor f p : ps_floor (raiseFloorLocked f p) = Z.max (ps_floor p) f.
Proof. unfold raiseFloorLocked. destruct (Z.ltb_spec (ps_floor p) f); cbn; lia. Qed.

(** [raiseFloorLocked] changes nothing but the floor. *)
Lemma raiseFloor_frame f p : raiseFloorLocked f p = set_floor (Z.max (ps_floor p) f) p.
Proof.
  unfold raiseFloorLocked. destruct (Z.ltb_spec (ps_floor p) f).
  - by rewrite Z.max_r by lia.
  - rewrite Z.max_l by lia. by destruct p.
Qed.

Lemma path_suffix_ne p s1 s2 : String.length s1 <> String.length s2 -> p +:+ s1 <> p +:+ s2.
Proof.
  intros Hne Heq. apply (f_equal (length ∘ bytes_of)) in Heq. revert Heq. simpl.
  rewrite !bytes_of_app, !length_app, !length_bytes_of. lia.
Qed.

Section Facts.
Context {X : Type} `{C : Crypto} `{ED : Ed25519} `{JE : JSONDoc encryptedStorageEnvelope}
  `{EP : !EnvelopeProbe} `{JP : JSONDoc PolicyEnvelope} `{JD : JSONDoc PolicyDocument}
  `{JF : JSONDoc policyFloorDocument}.
Implicit Types (p : PolicyStore) (w : world X).

(** The floor [Load] enforces: the one in memory, the administrable one and
    the persisted one. *)
Definition effective_floor p (persisted : Z) : Z :=
  Z.max (Z.max (ps_floor p) persisted) (pt_MinimumGeneration (ps_trust p)).

(** Why a [Load] returned without an error. *)
Inductive load_accepted p w : PolicyEnvelope -> PolicyStore -> Prop :=
| la_fresh p' w1 :
    readPersistedFloor (set_recovered false p) w = (inr (0, false), w1) ->
    effective_floor p 0 <= bootstrapPolicyGenerationFloor ->
    load_accepted p w empty_policy p'
| la_unsigned p' :
    requireSigned p = false -> pst_Verified (ps_status p') = false ->
    load_accepted p w empty_policy p'
| la_signed doc payload floor present w1 p' :
    readPersistedFloor (set_recovered false p) w = (inr (floor, present), w1) ->
    canonicalPolicy (pd_Envelope doc) = inr payload ->
    signatureValid p payload (pd_Signature doc) = true ->
    effective_floor p floor <= pe_Generation (pd_Envelope doc) ->
    ps_generation p' = pe_Generation (pd_Envelope doc) ->
    ps_floor p' = pe_Generation (pd_Envelope doc) ->
    pst_Verified (ps_status p') = true ->
    load_accepted p w (pd_Envelope doc) p'.

Lemma loadLastKnownGood_spec p w doc w' :
  loadLastKnownGoodLocked p w = (Some doc, w') ->
  exists payload, canonicalPolicy (pd_Envelope doc) = inr payload /\
    signatureValid p payload (pd_Signature doc) = true.
Proof.
  unfold loadLastKnownGoodLocked. intros H.
  destruct (readBoundedPrivateFile _ _ w) as [[e|data] w1]; [done|].
  destruct (decodeDocumentFrom _ _ _ _) as [e|[d l]]; [done|].
  destruct (canonicalPolicy (pd_Envelope d)) as [e|payload] eqn:Hc; [done|].
  destruct (signatureValid p payload _) eqn:Hs; [|done]. simplify_eq. eauto.
Qed.

Lemma recover_spec p w env p' w' :
  recoverFromLastKnownGoodLocked p w = (Some env, p', w') ->
  exists doc payload, env = pd_Envelope doc /\ canonicalPolicy env = inr payload /\
    signatureValid p payload (pd_Signature doc) = true /\
    ps_floor p <= pe_Generation env /\ ps_generation p' = pe_Generation env /\
    ps_floor p' = pe_Generation env /\ pst_Verified (ps_status p') = true.
Proof.
  unfold recoverFromLastKnownGoodLocked. intros H.
  destruct (loadLastKnownGoodLocked p w) as [[doc|] w1] eqn:HL; [|done].
  apply loadLastKnownGood_spec in HL as (payload & Hc & Hs).
  destruct (Z.ltb_spec (pe_Generation (pd_Envelope doc)) (ps_floor p)); [done|].
  cbv zeta in H. rewrite raiseFloor_frame in H.
  destruct (persistFloorLocked _ _ w1) as [? w2], (writeDocument _ doc w2) as [? w3],
    (writeLastKnownGoodLocked _ doc w3) as [? w4]. simplify_eq.
  exists doc, payload. cbn. split_and!; try done. lia.
Qed.

Lemma recover_none p w p' w' :
  recoverFromLastKnownGoodLocked p w = (None, p', w') -> p' = p.
Proof.
  unfold recoverFromLastKnownGoodLocked. intros H.
  destruct (loadLastKnownGoodLocked p w) as [[doc|] w1]; [|by simplify_eq].
  destruct (_ <? _); [by simplify_eq|].
  destruct (persistFloorLocked _ _ w1) as [? w2], (writeDocument _ doc w2) as [? w3],
    (writeLastKnownGoodLocked _ doc w3) as [? w4]. done.
Qed.

Lemma accept_spec p doc legacy w env p' w' :
  acceptDocument p doc legacy w = (env, None, p', w') ->
  (requireSigned p = false /\ env = empty_policy /\ pst_Verified (ps_status p') = false) \/
  (env = pd_Envelope doc /\ exists payload, canonicalPolicy env = inr payload /\
    signatureValid p payload (pd_Signature doc) = true /\
    ps_floor p <= pe_Generation env /\ ps_generation p' = pe_Generation env /\
    ps_floor p' = pe_Generation env /\ pst_Verified (ps_status p') = true).
Proof.
  unfold acceptDocument, load_fail. intros H.
  destruct (canonicalPolicy (pd_Envelope doc)) as [e|payload] eqn:Hc; [done|].
  destruct (signatureValid p payload _) eqn:Hs; cbn [negb] in H.
  2:{ destruct (requireSigned p) eqn:HR; [done|]. simplify_eq. by left. }
  destruct (Z.ltb_spec (pe_Generation (pd_Envelope doc)) (ps_floor p)); [done|].
  cbv zeta in H. rewrite raiseFloor_frame in H.
  destruct (persistFloorLocked _ _ w) as [[e|] w1]; [done|].
  destruct (if legacy then _ else _) as [[e|] w2]; [done|].
  destruct (writeLastKnownGoodLocked _ doc w2) as [? w3]. simplify_eq.
  right. split; [done|]. exists payload. cbn. split_and!; try done. lia.
Qed.

Lemma load_setup_floor p persisted :
  ps_floor (raiseFloorLocked (pt_MinimumGeneration (ps_trust (set_recovered false p)))
    (raiseFloorLocked persisted (set_recovered false p))) = effective_floor p persisted.
Proof. rewrite !raiseFloor_floor. done. Qed.

Lemma Load_accepted p w env p' w' :
  Load p w = (env, None, p', w') -> load_accepted p w env p'.
Proof.
  unfold Load, load_fail. intros H.
  destruct (readPersistedFloor _ w) as [[e|[floor present]] w1] eqn:HF; [done|].
  rewrite !raiseFloor_frame in H. cbn [ps_floor set_floor set_recovered ps_trust ps_StateFile] in H.
  set (p1 := set_floor _ _) in H.
  assert (ps_floor p1 = effective_floor p floor) as Hfl by done.
  destruct (readBoundedPrivateFile _ _ w1) as [[e|b] w2].
  - destruct (recoverFromLastKnownGoodLocked p1 w2) as [[[r|] p2] w3] eqn:HR.
    + simplify_eq. apply recover_spec in HR as (doc & payload & -> & ? & ? & ? & ? & ? & ?).
      by eapply la_signed.
    + apply recover_none in HR as ->. destruct (is_not_exist e); [|done].
      destruct (present || _) eqn:HB; [done|]. apply orb_false_iff in HB as [-> HB].
      bool_to_prop. rewrite Hfl in HB. simplify_eq.
      assert (floor = 0) as ->.
      { revert HF. unfold readPersistedFloor. repeat case_match; by intros [= <-]. }
      eapply la_fresh; [exact HF|done].
  - destruct (decodeDocumentFrom p1 _ _ b) as [e|[doc legacy]]; [done|].
    apply accept_spec in H as [(HR & -> & HV)|(-> & payload & ? & ? & ? & ? & ? & ?)].
    + by apply la_unsigned.
    + by eapply la_signed.
Qed.

(** A load that reports no error accepted a genuinely fresh node (no floor
    anchor and no pinned generation), or was told not to require signatures
    and installs the empty policy as unverified, or returns a correctly signed
    document whose generation is at least every floor (in memory, persisted
    and administrable); the floor then equals that generation. *)
Theorem load_never_below_floor p w env p' w' :
  Load p w = (env, None, p', w') -> load_accepted p w env p'.
Proof. exact (Load_accepted p w env p' w'). Qed.

(** ** The floor only rises *)

Lemma accept_floor p doc legacy w : ps_floor p <= ps_floor (acceptDocument p doc legacy w).1.2.
Proof.
  unfold acceptDocument, load_fail. repeat case_match; cbn; rewrite ?raiseFloor_floor; cbn; lia.
Qed.

Lemma recover_floor p w : ps_floor p <= ps_floor (recoverFromLastKnownGoodLocked p w).1.2.
Proof.
  unfold recoverFromLastKnownGoodLocked. repeat case_match; cbn; rewrite ?raiseFloor_floor; cbn; lia.
Qed.

Lemma Load_floor p w : ps_floor p <= ps_floor (Load p w).1.2.
Proof.
  unfold Load, load_fail.
  destruct (readPersistedFloor _ w) as [[e|[floor present]] w1]; [done|].
  set (p1 := raiseFloorLocked _ _).
  assert (ps_floor p <= ps_floor p1) as H1 by (unfold p1; rewrite !raiseFloor_floor; cbn; lia).
  destruct (readBoundedPrivateFile _ _ w1) as [[e|b] w2].
  - pose proof (recover_floor p1 w2) as H2.
    destruct (recoverFromLastKnownGoodLocked p1 w2) as [[[r|] p2] w3]; cbn in *; [lia|].
    repeat case_match; cbn; lia.
  - destruct (decodeDocumentFrom p1 _ _ b) as [e|[doc legacy]]; cbn; [lia|].
    etrans; [exact H1|apply accept_floor].
Qed.

Lemma Persist_floor p node enf xdr bs w : ps_floor p <= ps_floor (Persist p node enf xdr bs w).1.2.
Proof.
  unfold Persist. repeat case_match; cbn; rewrite ?raiseFloor_floor; cbn; lia.
Qed.

Lemma ApplyPolicy_floor s p : ps_floor p <= ps_floor (ApplyPolicy s p).
Proof. unfold ApplyPolicy. cbn. rewrite raiseFloor_floor. lia. Qed.

(** The operations of the store as a transition system. *)
Inductive policy_step : PolicyStore * world X -> PolicyStore * world X -> Prop :=
| ps_load p w env err p' w' : Load p w = (env, err, p', w') -> policy_step (p, w) (p', w')
| ps_persist p w node enf xdr bs err p' w' :
    Persist p node enf xdr bs w = (err, p', w') -> policy_step (p, w) (p', w')
| ps_apply p w s : policy_step (p, w) (ApplyPolicy s p, w)
| ps_env p w w' : policy_step (p, w) (p, w').

(** The anti-rollback floor never falls. No sequence of loads, persists and
    settings changes lowers it, whatever happens to the files in between. *)
Theorem floor_monotone s s' : rtc policy_step s s' -> ps_floor s.1 <= ps_floor s'.1.
Proof.
  induction 1 as [|x y z Hs _ IH]; [done|]. etrans; [|exact IH]. clear IH.
  destruct Hs as [p w env err p' w' H|p w node enf xdr bs err p' w' H|p w t|p w w']; cbn.
  - pose proof (Load_floor p w) as HL. by rewrite H in HL.
  - pose proof (Persist_floor p node enf xdr bs w) as HL. by rewrite H in HL.
  - apply ApplyPolicy_floor.
  - done.
Qed.

(** ** The floor anchor on disk *)

Context `{CL : !CryptoLaws C} `{EDL : !Ed25519Laws ED} `{JEL : !JSONDocLaws encryptedStorageEnvelope}
  `{JFL : !JSONDocLaws policyFloorDocument} `{JDL : !JSONDocLaws PolicyDocument}.
(** Floor documents hold numbers and an instant only: JSON represents them
    faithfully. *)
Context (floor_canonical : forall g t, 0 <= g <= MaxUint64 ->
  json_canonical (mkFloorDoc policyFloorSchema g t)).

(** The file content [data] decodes, for this store, to the floor [m]. *)
Definition floor_data p (data : string) (m : Z) : Prop :=
  exists d doc,
    match ps_crypto p with
    | None => d = data
    | Some _ => exists l, Decrypt (ps_crypto p) (policyFloorPath p) "policy-generation-floor" data None
                          = inr (d, l)
    end /\
    json_Decode d = inr doc /\ fl_Schema doc = policyFloorSchema /\ fl_MinimumGeneration doc = m.

Lemma read_floor_data p w i m r w' :
  w_fs w !! policyFloorPath p = Some i -> floor_data p (i_data i) m ->
  readPersistedFloor p w = (inr r, w') -> r = (m, true).
Proof.
  intros Hi (d & doc & Hplain & Hdec & Hsch & Hm) H. unfold readPersistedFloor in H.
  destruct (readBoundedPrivateFile _ _ w) as [[e|data] w1] eqn:HR.
  { destruct (is_not_exist e) eqn:He; [|done]. exfalso. revert HR He.
    unfold readBoundedPrivateFile, os_Lstat, read_limited, sys. rewrite Hi.
    destruct (o_fault _ _); cbn; [by intros [= <- <-]|].
    destruct (decide _); [by intros [= <- <-]|]. destruct (negb _); [by intros [= <- <-]|].
    destruct (_ || _); [by intros [= <- <-]|]. rewrite Hi.
    repeat (destruct (o_fault _ _); cbn; [by intros [= <- <-]|]). done. }
  apply readBounded_spec in HR as (_ & j & Hj & _ & _ & -> & _). simplify_eq.
  destruct (ps_crypto p) as [c|].
  - destruct Hplain as [l Hl]. rewrite Hl, Hdec in H. cbn in H. rewrite Hsch in H. cbn in H.
    by simplify_eq.
  - subst d. rewrite Hdec, Hsch in H. cbn in H. by simplify_eq.
Qed.

Lemma persistFloor_disk p floor w w' :
  floor <= MaxUint64 ->
  persistFloorLocked p floor w = (None, w') ->
  exists i, w_fs w' !! policyFloorPath p = Some i /\ floor_data p (i_data i) (Z.max floor 1).
Proof.
  intros Hmax H. unfold persistFloorLocked, time_Now in H.
  set (m := if floor <? _ then _ else _) in H.
  assert (m = Z.max floor 1) as Hm.
  { unfold m, bootstrapPolicyGenerationFloor. destruct (Z.ltb_spec floor 1); lia. }
  destruct (json_Marshal _) as [e|data] eqn:HM; [done|].
  assert (json_Decode data = inr (mkFloorDoc policyFloorSchema m (o_now (w_oracle w) (w_tick w)))) as HD.
  { eapply json_roundtrip; [|exact HM]. apply floor_canonical. unfold MaxUint64 in *. lia. }
  destruct (json_newline _ _ HM) as [_ HN].
  destruct (ps_crypto p) as [c|] eqn:Hc.
  - destruct (Encrypt _ _ _ _ _ _) as [[e|sealed] w2] eqn:HE; [done|].
    apply atomicWriteFile_post in H as [_ _ Hok]. destruct (Hok eq_refl) as [Hf _].
    eexists. split; [exact Hf|]. cbn. exists data. eexists. rewrite Hc.
    split_and!; [|exact HD|done|done]. exists false.
    eapply Decrypt_Encrypt; [by vm_compute| |exact HE| |by left];
      [done|by eapply Encrypt_trimmed].
  - apply atomicWriteFile_post in H as [_ _ Hok]. destruct (Hok eq_refl) as [Hf _].
    eexists. split; [exact Hf|]. cbn. exists (data +:+ newline). eexists. rewrite Hc.
    split_and!; [done|rewrite HN; exact HD|done|done].
Qed.

Lemma encode_frame p path purpose doc w r w' :
  encodeDocumentFor p path purpose doc w = (r, w') -> same_but [] w w'.
Proof.
  unfold encodeDocumentFor. intros H.
  destruct (json_Marshal doc); [simplify_eq; apply same_but_refl|].
  destruct (ps_crypto p); [|simplify_eq; apply same_but_refl].
  destruct (Encrypt _ _ _ _ _ _) as [[e|sealed] w1] eqn:HE; apply Encrypt_same in HE; by simplify_eq.
Qed.

Lemma writeLastKnownGood_frame p doc w e w' :
  writeLastKnownGoodLocked p doc w = (e, w') ->
  same_but [lastGoodPath p; lastGoodPath p +:+ ".tmp"] w w'.
Proof.
  unfold writeLastKnownGoodLocked. intros H.
  destruct (encodeDocumentFor _ _ _ _ _) as [[x|enc] w1] eqn:HE; apply encode_frame in HE.
  - simplify_eq. eapply same_but_weaken; [|exact HE]. clear; set_solver.
  - apply atomicWriteFile_post in H as [HF _ _].
    eapply same_but_trans; [|exact HF]. eapply same_but_weaken; [|exact HE]. clear; set_solver.
Qed.

Lemma floor_path_other p : policyFloorPath p ∉ [lastGoodPath p; lastGoodPath p +:+ ".tmp"].
Proof.
  unfold policyFloorPath, lastGoodPath. rewrite string_app_assoc.
  intros Hin. rewrite !elem_of_cons in Hin.
  destruct Hin as [Heq|[Heq|Hin]]; [| |by apply not_elem_of_nil in Hin];
    revert Heq; apply path_suffix_ne; by vm_compute.
Qed.

(** The generation [Persist] writes. *)
Lemma Persist_generation p node enf xdr bs w p1 w1 :
  0 <= ps_generation p < MaxUint64 -> 0 <= ps_floor p < MaxUint64 ->
  Persist p node enf xdr bs w = (None, p1, w1) ->
  ps_generation p < ps_generation p1 <= MaxUint64 /\ ps_floor p <= ps_generation p1 /\
  exists i, w_fs w1 !! policyFloorPath p = Some i /\
    floor_data p (i_data i) (Z.max (ps_generation p1) 1).
Proof.
  intros Hg Hf H. unfold Persist, time_Now in H.
  rewrite !u64_small in H by lia.
  set (g := if _ <? ps_floor p then _ else _) in H.
  assert (ps_generation p < g <= MaxUint64 /\ ps_floor p <= g) as [Hg1 Hg2].
  { unfold g. destruct (Z.ltb_spec (ps_generation p + 1) (ps_floor p)); lia. }
  destruct (canonicalPolicy _) as [e|payload]; [done|].
  destruct (writeDocument _ _ _) as [[e|] w2]; [done|].
  rewrite raiseFloor_frame in H. cbv zeta in H.
  set (p2 := set_floor _ _) in H.
  destruct (persistFloorLocked p2 _ w2) as [[e|] w3] eqn:HP; [done|].
  destruct (writeLastKnownGoodLocked _ _ w3) as [? w4] eqn:HW. simplify_eq.
  apply writeLastKnownGood_frame in HW.
  apply persistFloor_disk in HP as (i & Hi & Hd); [|cbn; lia].
  cbn [ps_generation set_pstatus p2 set_floor set_generation]. split_and!; [lia|lia|lia|].
  exists i. split.
  - transitivity (w_fs w3 !! policyFloorPath p2); [|exact Hi].
    exact (same_but_lookup _ _ _ _ HW (floor_path_other p2)).
  - assert (ps_floor p2 = g) as Hfl by (cbn; lia). by rewrite Hfl in Hd.
Qed.

(** ** The signed document on disk *)

(** The state file of the store holds [doc], signed with the store's key: as
    plain JSON, or sealed for the store's path and purpose. *)
Definition signed_file p w (doc : PolicyDocument) : Prop := exists raw plain payload,
  w_fs w !! ps_StateFile p = Some (mkInode Regular 384 raw) /\ json_Marshal doc = inr plain /\
  match ps_crypto p with
  | None => raw = plain +:+ newline
  | Some _ => Decrypt (ps_crypto p) (ps_StateFile p) "policy-state" raw None = inr (plain +:+ newline, false)
  end /\
  canonicalPolicy (pd_Envelope doc) = inr payload /\
  pd_Signature doc = base64_EncodeToString (ed_Sign (ps_privateKey p) payload).

Lemma writeDocument_disk p doc w w' payload : writeDocument p doc w = (None, w') ->
  canonicalPolicy (pd_Envelope doc) = inr payload ->
  pd_Signature doc = base64_EncodeToString (ed_Sign (ps_privateKey p) payload) -> signed_file p w' doc.
Proof.
  unfold writeDocument, encodeDocumentFor. intros H HC HS. destruct (json_Marshal doc) as [e|plain] eqn:HM; [done|].
  destruct (ps_crypto p) as [c|] eqn:Hc.
  - destruct (Encrypt _ _ _ _ _ w) as [[e|sealed] w1] eqn:HE; [done|]. apply atomicWriteFile_post in H as [_ _ Hok].
    exists (sealed +:+ newline), plain, payload. rewrite Hc. split_and!; [by apply Hok|done| |done|done].
    eapply Decrypt_Encrypt; [by vm_compute| |exact HE| |by left]; [done|by eapply Encrypt_trimmed].
  - apply atomicWriteFile_post in H as [_ _ Hok]. exists (plain +:+ newline), plain, payload. rewrite Hc.
    split_and!; [by apply Hok|done..].
Qed.

Lemma state_path_other p s : String.length s <> 0%nat -> ps_StateFile p <> ps_StateFile p +:+ s.
Proof.
  intros Hs Heq. pose proof (f_equal (fun x => length (bytes_of x)) Heq) as Hl. cbv beta in Hl.
  rewrite bytes_of_app, length_app, !length_bytes_of in Hl. lia.
Qed.

Lemma state_file_other p : (ps_StateFile p ∉ [policyFloorPath p; policyFloorPath p +:+ ".tmp"]) /\
  (ps_StateFile p ∉ [lastGoodPath p; lastGoodPath p +:+ ".tmp"]).
Proof.
  unfold policyFloorPath, lastGoodPath. rewrite !string_app_assoc.
  split; intros [H|[H|H%not_elem_of_nil]%elem_of_cons]%elem_of_cons; try done; revert H; by apply state_path_other.
Qed.

Lemma persistFloor_only p floor w e w' : persistFloorLocked p floor w = (e, w') ->
  same_but [policyFloorPath p; policyFloorPath p +:+ ".tmp"] w w'.
Proof using Type.
  unfold persistFloorLocked, time_Now. intros H.
  assert (forall ps, same_but ps w (next_tick w)) as HT by (intros; split_and!; done).
  destruct (json_Marshal _) as [x|data]; [by simplify_eq|].
  destruct (ps_crypto p).
  - destruct (Encrypt _ _ _ _ _ _) as [[x|sealed] w2] eqn:HE; apply Encrypt_same in HE.
    + simplify_eq. eapply same_but_trans; [apply HT|]. eapply same_but_weaken; [|exact HE]. apply list_subseteq_nil.
    + apply atomicWriteFile_post in H as [HF _ _]. eapply same_but_trans; [apply HT|].
      eapply same_but_trans; [|exact HF]. eapply same_but_weaken; [|exact HE]. apply list_subseteq_nil.
  - apply atomicWriteFile_post in H as [HF _ _]. eapply same_but_trans; [apply HT|done].
Qed.

(** What a successful [Persist] leaves on disk: a document signed with the
    store's key, with the given modes and those of the given blocks that had
    not expired at the time it is stamped with. *)
Lemma Persist_disk p node enf xdr bs w p1 w1 : Persist p node enf xdr bs w = (None, p1, w1) ->
  exists doc, signed_file p1 w1 doc /\
    pe_Blocks (pd_Envelope doc) = List.filter (fun b => Time.After (b_ExpiresAt b) (pe_UpdatedAt (pd_Envelope doc))) bs /\
    pe_Enforcement (pd_Envelope doc) = enf /\ pe_XDRMode (pd_Envelope doc) = xdr /\
    pe_Generation (pd_Envelope doc) = ps_generation p1 /\
    pe_UpdatedAt (pd_Envelope doc) = o_now (w_oracle w) (w_tick w).
Proof using CL JEL.
  intros H. unfold Persist, time_Now in H. cbv zeta in H. destruct (canonicalPolicy _) as [e|payload] eqn:HC; [done|].
  destruct (writeDocument p _ _) as [[e|] w2] eqn:HD; [done|]. rewrite raiseFloor_frame in H.
  destruct (persistFloorLocked _ _ w2) as [[e|] w3] eqn:HF; [done|].
  destruct (writeLastKnownGoodLocked _ _ w3) as [e w4] eqn:HW. simplify_eq.
  eapply writeDocument_disk in HD as (raw & plain & pl & Hf & HM & Hr & HC' & HS); [|exact HC|reflexivity].
  match type of HM with json_Marshal ?d = _ => exists d end. split; [|cbn; split_and!; reflexivity]. exists raw, plain, pl. split_and!; [|exact HM|exact Hr|exact HC'|exact HS].
  apply persistFloor_only in HF. apply writeLastKnownGood_frame in HW.
  transitivity (w_fs w3 !! ps_StateFile p); [exact (same_but_lookup _ _ _ _ HW (proj2 (state_file_other p)))|].
  transitivity (w_fs w2 !! ps_StateFile p); [exact (same_but_lookup _ _ _ _ HF (proj1 (state_file_other p)))|exact Hf].
Qed.

(** C6: no rollback. After a successful [Persist], whoever replaces the state
    file and the last-known-good copy by anything (an older signed document
    included) while the floor anchor stays, a restarted store with the same
    path and storage key either reports an error or loads a generation at
    least as new as the persisted one (or, when signatures are not required,
    the empty unverified policy). *)
Theorem no_rollback p node enf xdr bs w p1 w1 p2 w2 env p3 w3 :
  0 <= ps_generation p < MaxUint64 -> 0 <= ps_floor p < MaxUint64 ->
  Persist p node enf xdr bs w = (None, p1, w1) ->
  ps_StateFile p2 = ps_StateFile p -> ps_crypto p2 = ps_crypto p ->
  w_fs w2 !! policyFloorPath p = w_fs w1 !! policyFloorPath p ->
  Load p2 w2 = (env, None, p3, w3) ->
  ps_generation p1 <= pe_Generation env \/
  (requireSigned p2 = false /\ env = empty_policy /\ pst_Verified (ps_status p3) = false).
Proof.
  intros Hg Hf HP Hpath Hcr Hfs HL.
  apply Persist_generation in HP as (Hg1 & _ & i & Hi & Hd); [|done|done].
  rewrite Hi in Hfs.
  assert (policyFloorPath (set_recovered false p2) = policyFloorPath p) as Hpp
    by (unfold policyFloorPath; cbn; by rewrite Hpath).
  assert (floor_data (set_recovered false p2) (i_data i) (Z.max (ps_generation p1) 1)) as Hd2.
  { unfold floor_data in *. rewrite Hpp. cbn. by rewrite Hcr. }
  assert (forall r w', readPersistedFloor (set_recovered false p2) w2 = (inr r, w') ->
    r = (Z.max (ps_generation p1) 1, true)) as Hread.
  { intros r w'. eapply read_floor_data; [|exact Hd2]. by rewrite Hpp. }
  apply Load_accepted in HL. destruct HL as [p' w' Hr _|p' HR HV|doc payload fl pr w' p' Hr _ _ Hfl _ _ _].
  - apply Hread in Hr. simplify_eq.
  - right. done.
  - left. apply Hread in Hr. simplify_eq. unfold effective_floor in Hfl. lia.
Qed.
End Facts.
