(* ===== verification/PolicyWitness.v ===== *)
(** * The policy store on concrete inputs *)

From Stdlib Require Import ZArith Lia Ascii String.
From stdpp Require Import base gmap strings list relations.
From S2P Require Import Prelude.
From S2P Require Import GoLib.
From S2P Require Import World.
From S2P Require Import Storage.
From S2P Require Import Instances.
From S2P Require Import Policy.
From S2P Require Import PolicyFacts.

#[export, refine] Instance floor_fields : Fields policyFloorDocument := {
  to_fields d := (ser_Z (fl_Schema d), [ser_Z (fl_MinimumGeneration d); ser_Z (fl_UpdatedAt d)]);
  of_fields l :=
    match l with
    | [a; b; c] =>
        match unser_Z a, unser_Z b, unser_Z c with
        | Some x, Some y, Some z => Some (mkFloorDoc x y z)
        | _, _, _ => None
        end
    | _ => None
    end;
  of_to_fields := _;
}.
Proof. intros []. cbn. by rewrite !unser_ser_Z. Defined.

Definition block_pack (b : BlockEntry) : string :=
  pack [b_ID b; b_Target b; b_Reason b; b_Source b; ser_Z (b_CreatedAt b); ser_Z (b_ExpiresAt b);
        if b_Enforced b then "1" else "0"].
Definition block_unpack (s : string) : option BlockEntry :=
  match unpack s with
  | Some [a; b; c; d; t; u; e] =>
      match unser_Z t, unser_Z u with
      | Some t', Some u' => Some (mkBlock a b c d t' u' (bool_decide (e = "1")))
      | _, _ => None
      end
  | _ => None
  end.

Lemma block_unpack_pack b : block_unpack (block_pack b) = Some b.
Proof.
  unfold block_unpack, block_pack. rewrite unpack_pack, !unser_ser_Z. by destruct b as [? ? ? ? ? ? []].
Qed.

Definition env_fields (e : PolicyEnvelope) : list string :=
  ser_Z (pe_Version e) :: ser_Z (pe_Generation e) :: pe_NodeName e :: pe_Enforcement e
    :: pe_XDRMode e :: ser_Z (pe_UpdatedAt e) :: map block_pack (pe_Blocks e).
Definition env_unfields (l : list string) : option PolicyEnvelope :=
  match l with
  | v :: g :: n :: e :: x :: u :: bs =>
      match unser_Z v, unser_Z g, unser_Z u, mapM block_unpack bs with
      | Some v', Some g', Some u', Some bs' => Some (mkPolicy v' g' n e x u' bs')
      | _, _, _, _ => None
      end
  | _ => None
  end.

Lemma env_unfields_fields e : env_unfields (env_fields e) = Some e.
Proof.
  destruct e as [v g n en x u bs]. unfold env_unfields, env_fields.
  cbn [pe_Version pe_Generation pe_NodeName pe_Enforcement pe_XDRMode pe_UpdatedAt pe_Blocks].
  rewrite !unser_ser_Z.
  assert (mapM block_unpack (map block_pack bs) = Some bs) as ->; [|done].
  induction bs as [|b bs IH]; [done|]. cbn [map mapM]. rewrite block_unpack_pack. cbn. by rewrite IH.
Qed.

#[export, refine] Instance policy_env_fields : Fields PolicyEnvelope := {
  to_fields e := ("policy", env_fields e);
  of_fields l := match l with _ :: r => env_unfields r | [] => None end;
  of_to_fields := _;
}.
Proof. intros e. apply env_unfields_fields. Defined.

#[export, refine] Instance policy_doc_fields : Fields PolicyDocument := {
  to_fields d := (pd_Signature d, env_fields (pd_Envelope d));
  of_fields l :=
    match l with
    | s :: r => match env_unfields r with Some e => Some (mkDoc e s) | None => None end
    | [] => None
    end;
  of_to_fields := _;
}.
Proof. intros [e s]. cbn [fst snd pd_Signature pd_Envelope]. by rewrite env_unfields_fields. Defined.

(** A toy signature scheme: the key and the message. *)
#[export] Instance toy_ed25519 : Ed25519 := {
  ed_Sign k m := fit 64 (k +:+ m);
  ed_Verify pub m s := bool_decide (s = fit 64 (pub +:+ m));
  ed_Public k := k;
}.
#[export] Instance toy_ed25519_laws : Ed25519Laws toy_ed25519.
Proof. split; intros; cbn; [by rewrite slen_fit|by rewrite bool_decide_true]. Qed.

Definition demo_policy : PolicyStore :=
  mkPolicyStore "/var/lib/policy.json" (Some (mkStorageCipher "key" "node")) "node" "sk" "sk"
    0 1 false (mkPolicyStatus true 0 None "ed25519:00" "" 1) defaultPolicyTrustFabricSettings.

Definition demo_block : BlockEntry :=
  mkBlock "b1" "192.0.2.1/32" "scan" "manual" 1 (63900000100 * Time.Second) true.

Definition demo_persist := Persist demo_policy "node" "block" "enforce" [demo_block] (calm_world ()).
Definition demo_p1 : PolicyStore := demo_persist.1.2.
Definition demo_pw1 : world () := demo_persist.2.

Lemma demo_persist_eq :
  Persist demo_policy "node" "block" "enforce" [demo_block] (calm_world ())
  = (None, demo_p1, demo_pw1).
Proof.
  assert (demo_persist.1.1 = None) as H by (by vm_compute).
  unfold demo_p1, demo_pw1, demo_persist in *.
  destruct (Persist _ _ _ _ _ _) as [[? ?] ?]. cbn in *. by subst.
Qed.

Definition demo_load := Load demo_policy demo_pw1.
Definition demo_env : PolicyEnvelope :=
  mkPolicy 1 1 "node" "block" "enforce" (63900000000 * Time.Second) [demo_block].

Lemma demo_load_eq : Load demo_policy demo_pw1 = (demo_env, None, demo_load.1.2, demo_load.2).
Proof.
  assert (demo_load.1.1.1 = demo_env /\ demo_load.1.1.2 = None) as [H1 H2] by (by vm_compute).
  unfold demo_load in *. destruct (Load _ _) as [[[? ?] ?] ?]. cbn in *. by subst.
Qed.

Lemma load_never_below_floor_witness :
  load_accepted demo_policy demo_pw1 demo_env (demo_load.1.2).
Proof.
  apply (load_never_below_floor demo_policy demo_pw1 demo_env (demo_load.1.2) (demo_load.2)).
  apply demo_load_eq.
Defined.

Lemma floor_monotone_witness : ps_floor demo_policy <= ps_floor (demo_load.1.2).
Proof.
  apply (floor_monotone (demo_policy, calm_world ()) (demo_load.1.2, demo_load.2)).
  eapply rtc_l; [apply (ps_env _ _ demo_pw1)|].
  apply rtc_once. eapply ps_load. apply demo_load_eq.
Defined.

Lemma no_rollback_witness :
  ps_generation demo_p1 <= pe_Generation demo_env \/
  (requireSigned demo_policy = false /\ demo_env = empty_policy /\
   pst_Verified (ps_status (demo_load.1.2)) = false).
Proof.
  apply (no_rollback (JF := fields_json) (fun _ _ _ => I) demo_policy "node" "block" "enforce" [demo_block] (calm_world ())
    demo_p1 demo_pw1 demo_policy demo_pw1 demo_env (demo_load.1.2) (demo_load.2)).
  - split; by vm_compute.
  - split; by vm_compute.
  - apply demo_persist_eq.
  - reflexivity.
  - reflexivity.
  - reflexivity.
  - apply demo_load_eq.
Defined.
