(* ===== verification/RateLimit.v ===== *)
(** * Rate limiters and the replay guard

    src/control/rate_limit.go: the per-identity token bucket of the API
    ([RateLimiter], with [Configure] of src/control/system_fabric.go) and the
    guard against replayed request identifiers ([ReplayGuard]).

    Tokens are IEEE binary64 numbers, computed with the Standard Library's
    reference semantics ([SpecFloat], precision 53, exponent bound 1024). Go
    ranges over a map in an unspecified order: an operation whose result can
    depend on that order takes the order as an argument. *)

From Stdlib Require Import ZArith Lia Ascii String.
From Stdlib Require Import Floats.SpecFloat.
From stdpp Require Import base gmap strings list sorting.
From S2P Require Import Prelude.
From S2P Require Import GoLib.

(** ** float64 *)

Abbreviation float64 := spec_float.
Definition prec : Z := 53.
Definition emax : Z := 1024.

Definition f64 (n : Z) : float64 := binary_normalize prec emax n 0 false.
Definition fadd : float64 -> float64 -> float64 := SFadd prec emax.
Definition fsub : float64 -> float64 -> float64 := SFsub prec emax.
Definition fmul : float64 -> float64 -> float64 := SFmul prec emax.
Definition fdiv : float64 -> float64 -> float64 := SFdiv prec emax.
(** [a > b] and [a >= b] *)
Definition fgt (a b : float64) : bool := SFltb b a.
Definition fge (a b : float64) : bool := SFleb b a.

(** [Duration.Seconds]: whole seconds plus the fraction, [/] and [%] of Go
    truncating towards zero. *)
Definition Seconds (d : duration) : float64 :=
  fadd (f64 (Z.quot d Time.Second)) (fdiv (f64 (Z.rem d Time.Second)) (f64 1000000000)).

(** The order in which one [range] loop visits the keys of a map. *)
Definition range_order {A} (m : gmap string A) (order : list string) : Prop :=
  order ≡ₚ (map_to_list m).*1.

(** ** RateLimiter *)

Record rateBucket := mkRateBucket { tokens : float64; last : time }.

Record RateLimiter := mkRateLimiter {
  rate : float64;
  burst : float64;
  maxVisitors : Z;
  visitors : gmap string rateBucket;
  lastGC : time;
}.

Definition set_visitors (v : gmap string rateBucket) (l : RateLimiter) : RateLimiter :=
  mkRateLimiter (rate l) (burst l) (maxVisitors l) v (lastGC l).

Definition NewRateLimiter (perMinute b : Z) (now : time) : RateLimiter :=
  mkRateLimiter (fdiv (f64 perMinute) (f64 60)) (f64 b) 65536 ∅ now.

(** The loop of [Allow] that looks for the least recently seen identity. *)
Definition oldest_step (v : gmap string rateBucket) (acc : string * time) (key : string)
    : string * time :=
  match v !! key with
  | Some visitor =>
      if bool_decide (acc.1 = "") || Time.Before (last visitor) acc.2
      then (key, last visitor) else acc
  | None => acc
  end.
Definition oldest_visitor (v : gmap string rateBucket) (order : list string) : string :=
  (fold_left (oldest_step v) order ("", 0)).1.

(** The bucket after the refill for the time elapsed since it was last used. *)
Definition refill (rt bst : float64) (now : time) (b : rateBucket) : rateBucket :=
  let elapsed := Seconds (Time.Sub now (last b)) in
  if fgt elapsed (f64 0) then
    let t := fadd (tokens b) (fmul elapsed rt) in
    mkRateBucket (if fgt t bst then bst else t) now
  else b.

Definition gc_visitors (now : time) (v : gmap string rateBucket) : gmap string rateBucket :=
  filter (fun kv => ~ 15 * Time.Minute < Time.Sub now (last kv.2)) v.

(** The limiter after a decision, with the collection of idle visitors when it
    is due. *)
Definition settled (l : RateLimiter) (now : time) (v : gmap string rateBucket) : RateLimiter :=
  if 5 * Time.Minute <? Time.Sub now (lastGC l)
  then mkRateLimiter (rate l) (burst l) (maxVisitors l) (gc_visitors now v) now
  else set_visitors v l.

(** [Allow] after the admission of [identity] to the table: refill, take a
    token, store the bucket and collect idle visitors every five minutes. *)
Definition serve (l : RateLimiter) (identity : string) (now : time)
    (v : gmap string rateBucket) (b : rateBucket) : bool * RateLimiter :=
  let b := if Time.IsZero (last b) then mkRateBucket (burst l) now else b in
  let b := refill (rate l) (burst l) now b in
  let allowed := fge (tokens b) (f64 1) in
  let b := if allowed then mkRateBucket (fsub (tokens b) (f64 1)) (last b) else b in
  (allowed, settled l now (<[identity := b]> v)).

Definition Allow (l : RateLimiter) (identity : string) (now : time) (order : list string)
    : bool * RateLimiter :=
  match visitors l !! identity with
  | Some b => serve l identity now (visitors l) b
  | None =>
      if maxVisitors l <=? Z.of_nat (size (visitors l)) then
        let oldest := oldest_visitor (visitors l) order in
        if bool_decide (oldest = "") then (false, l)
        else serve l identity now (delete oldest (visitors l)) (mkRateBucket (f64 0) 0)
      else serve l identity now (visitors l) (mkRateBucket (f64 0) 0)
  end.

(** [Configure] *)
Definition Configure (l : option RateLimiter) (perMinute b : Z) : error * option RateLimiter :=
  match l with
  | None => (None, None)
  | Some l =>
      if (perMinute <? 1) || (b <? 1) || (perMinute <? b)
      then (errors_New "rate limit configuration is invalid", Some l)
      else
        let clamp bk := if fgt (tokens bk) (f64 b) then mkRateBucket (f64 b) (last bk) else bk in
        (None, Some (mkRateLimiter (fdiv (f64 perMinute) (f64 60)) (f64 b) (maxVisitors l)
                       (clamp <$> visitors l) (lastGC l)))
  end.

(** ** ReplayGuard *)

Record ReplayGuard := mkReplayGuard {
  seen : gmap string time;
  window : duration;
  maxEntries : Z;
}.

Definition NewReplayGuard (w : duration) : ReplayGuard := mkReplayGuard ∅ w 65536.

(** [^[A-Za-z0-9_-]{16,96}$] *)
Definition requestIDPattern (id : string) : bool :=
  (16 <=? slen id) && (slen id <=? 96) &&
  string_forallb (fun c => in_range "A" "Z" c || in_range "a" "z" c || in_range "0" "9" c ||
    Ascii.eqb c "_" || Ascii.eqb c "-") id.

Definition Claim (g : ReplayGuard) (id : string) (now : time) : bool * ReplayGuard :=
  if negb (requestIDPattern id) then (false, g)
  else
    let live := filter (fun kv => now < kv.2) (seen g) in
    let g1 := mkReplayGuard live (window g) (maxEntries g) in
    if match live !! id with Some expiry => Time.After expiry now | None => false end
    then (false, g1)
    else if maxEntries g <=? Z.of_nat (size live) then (false, g1)
    else (true, mkReplayGuard (<[id := Time.Add now (window g)]> live) (window g) (maxEntries g)).

(** ** The replay guard implements its specification

    The specification only knows the history of accepted claims, newest
    first: a claim is accepted when its identifier is well formed, no accepted
    claim of the same identifier is younger than the window, and fewer than
    [cap] accepted claims are. *)

Definition in_window (w : duration) (now : time) (h : string * time) : Prop :=
  now < h.2 + w.
#[export] Instance in_window_dec w now h : Decision (in_window w now h) := Z_lt_dec _ _.

Definition spec_accepts (w : duration) (cap : Z) (hist : list (string * time))
    (id : string) (now : time) : bool :=
  requestIDPattern id &&
  negb (existsb (fun h => bool_decide (h.1 = id /\ in_window w now h)) hist) &&
  (Z.of_nat (length (filter (in_window w now) hist)) <? cap).

Fixpoint spec_claims w cap hist (reqs : list (string * time)) : list bool :=
  match reqs with
  | [] => []
  | (id, now) :: rest =>
      let ok := spec_accepts w cap hist id now in
      ok :: spec_claims w cap (if ok then (id, now) :: hist else hist) rest
  end.

(** Consecutive calls of [Claim]. *)
Fixpoint claims (g : ReplayGuard) (reqs : list (string * time)) : list bool * ReplayGuard :=
  match reqs with
  | [] => ([], g)
  | (id, now) :: rest =>
      let '(ok, g1) := Claim g id now in
      let '(oks, g2) := claims g1 rest in
      (ok :: oks, g2)
  end.

(** The clock the claims were stamped with never goes back. *)
Definition clock_order (reqs : list (string * time)) : Prop :=
  StronglySorted (fun a b => a.2 <= b.2) reqs.

Record guard_rel (w : duration) (cap : Z) (hist : list (string * time)) (now : time)
    (g : ReplayGuard) : Prop := {
  gr_window : window g = w;
  gr_cap : maxEntries g = cap;
  gr_nodup : NoDup (filter (in_window w now) hist).*1;
  gr_seen : forall id e, now < e ->
    seen g !! id = Some e <-> exists t, (id, t) ∈ hist /\ e = t + w;
}.

Lemma filter_in_window_later w now now' (hist : list (string * time)) : now <= now' ->
  filter (in_window w now') hist = filter (in_window w now') (filter (in_window w now) hist).
Proof.
  intros. rewrite list_filter_filter. apply list_filter_iff. intros h.
  unfold in_window. lia.
Qed.

Lemma guard_rel_later w cap hist now now' g :
  now <= now' -> guard_rel w cap hist now g -> guard_rel w cap hist now' g.
Proof.
  intros Hle [Hw Hc HN HS]. split; [done|done| |].
  - rewrite (filter_in_window_later _ _ _ _ Hle).
    eapply sublist_NoDup; [exact HN|]. apply fmap_sublist, sublist_filter.
  - intros id e He. apply HS. lia.
Qed.

(** What the guard knows at [now] is the part of the history in the window. *)
Section Live.
Context (w : duration) (now : time) (hist : list (string * time)) (m : gmap string time).
Context (HN : NoDup (filter (in_window w now) hist).*1).
Context (HS : forall id e, now < e ->
  m !! id = Some e <-> exists t, (id, t) ∈ hist /\ e = t + w).

Let pairs := prod_map (fun k : string => k) (Z.add w) <$> filter (in_window w now) hist.

Lemma pairs_nodup : NoDup pairs.*1.
Proof.
  unfold pairs. rewrite <- list_fmap_compose.
  erewrite list_fmap_ext; [exact HN|]. by intros ? [].
Qed.

Lemma live_pairs : filter (fun kv => now < kv.2) m = list_to_map pairs.
Proof.
  apply map_eq. intros k. apply option_eq. intros e.
  rewrite map_lookup_filter_Some, <- elem_of_list_to_map by apply pairs_nodup.
  unfold pairs. rewrite list_elem_of_fmap. cbn [snd]. split.
  - intros [Hm Hlt]. apply HS in Hm as (t & Hin & ->); [|done].
    exists (k, t). cbn. split; [f_equal; lia|]. apply list_elem_of_filter. split; [|done].
    unfold in_window; cbn; lia.
  - intros ([k' t] & [= -> ->] & [Hw Hin]%list_elem_of_filter).
    unfold in_window in Hw; cbn in Hw.
    split; [|lia]. apply HS; [lia|]. exists t. split; [done|lia].
Qed.

Lemma live_size :
  size (filter (fun kv => now < kv.2) m) = length (filter (in_window w now) hist).
Proof.
  rewrite live_pairs, map_size_list_to_map by apply pairs_nodup. by apply length_fmap.
Qed.

Lemma live_duplicate id :
  match filter (fun kv => now < kv.2) m !! id with
  | Some e => Time.After e now | None => false end =
  existsb (fun h => bool_decide (h.1 = id /\ in_window w now h)) hist.
Proof.
  apply Bool.eq_iff_eq_true. rewrite existsb_exists. split.
  - destruct (filter _ m !! id) as [e|] eqn:He; [|done]. intros _.
    apply map_lookup_filter_Some in He as [He Hlt]. cbn in Hlt.
    apply HS in He as (t & Hin & ->); [|done].
    exists (id, t). rewrite <- list_elem_of_In. split; [done|].
    apply bool_decide_eq_true. split; [done|]. unfold in_window; cbn; lia.
  - intros ([k t] & Hin & [Hk Hlt]%bool_decide_eq_true). cbn in Hk. subst k.
    unfold in_window in Hlt; cbn in Hlt. apply list_elem_of_In in Hin.
    rewrite (proj2 (map_lookup_filter_Some _ _ id (t + w))).
    + unfold Time.After. by apply Z.ltb_lt.
    + split; [|cbn; lia]. apply HS; [lia|]. by exists t.
Qed.
End Live.

Lemma guard_rel_purged w cap hist now g :
  guard_rel w cap hist now g ->
  guard_rel w cap hist now
    (mkReplayGuard (filter (fun kv => now < kv.2) (seen g)) (window g) (maxEntries g)).
Proof.
  intros [Hw Hc HN HS]. split; try done. intros k e Hlt. cbn.
  rewrite map_lookup_filter_Some, HS by done. naive_solver.
Qed.

Lemma guard_rel_accept w cap hist now g id :
  guard_rel w cap hist now g ->
  existsb (fun h => bool_decide (h.1 = id /\ in_window w now h)) hist = false ->
  guard_rel w cap ((id, now) :: hist) now
    (mkReplayGuard (<[id := Time.Add now (window g)]> (seen g)) (window g) (maxEntries g)).
Proof.
  intros [Hw Hc HN HS] Hex.
  assert (Hfresh : forall t, (id, t) ∈ hist -> in_window w now (id, t) -> False).
  { intros t Hin Hwin. apply not_true_iff_false in Hex. apply Hex, existsb_exists.
    exists (id, t). rewrite <- list_elem_of_In. split; [done|]. by apply bool_decide_eq_true. }
  split; try done.
  - rewrite filter_cons. destruct (decide _); [|done]. cbn. apply NoDup_cons. split; [|done].
    intros ([k t] & Hk & [Hwin Hin]%list_elem_of_filter)%list_elem_of_fmap.
    cbn in Hk. subst k. by eapply Hfresh.
  - intros k e Hlt. cbn. destruct (decide (k = id)) as [->|Hne].
    + rewrite lookup_insert_eq. split.
      * intros [= <-]. exists now. split; [by left|]. by rewrite Hw.
      * intros (t & Hin & ->). apply elem_of_cons in Hin as [[= ->]|Hin]; [by rewrite Hw|].
        exfalso. eapply Hfresh; [done|]. unfold in_window; cbn; lia.
    + rewrite lookup_insert_ne, HS by done. setoid_rewrite elem_of_cons. naive_solver.
Qed.

Lemma Claim_refines w cap hist now g id :
  guard_rel w cap hist now g ->
  let ok := spec_accepts w cap hist id now in
  (Claim g id now).1 = ok /\
  guard_rel w cap (if ok then (id, now) :: hist else hist) now (Claim g id now).2.
Proof.
  intros HR. cbv zeta. unfold Claim, spec_accepts.
  destruct (requestIDPattern id) eqn:HP; cbn [negb andb]; [|done].
  pose proof (guard_rel_purged _ _ _ _ _ HR) as HR'.
  destruct HR as [Hw Hc HN HS].
  rewrite (live_duplicate w now hist), (live_size w now hist) by done.
  destruct (existsb _ hist) eqn:Hex; cbn [negb andb]; [done|].
  rewrite (Z.ltb_antisym cap), <- Hc.
  destruct (Z.leb_spec (maxEntries g) (Z.of_nat (length (filter (in_window w now) hist))));
    cbn [negb]; rewrite Hc in *; [done|].
  split; [done|]. exact (guard_rel_accept _ _ _ _ _ _ HR' Hex).
Qed.

Lemma claims_refine w cap hist now g reqs :
  guard_rel w cap hist now g -> clock_order reqs -> Forall (fun r => now <= r.2) reqs ->
  (claims g reqs).1 = spec_claims w cap hist reqs.
Proof.
  intros HR HO. revert hist now g HR. induction HO as [|[id t] reqs HO IH HF]; intros hist now g HR Hnow; [done|].
  apply Forall_cons in Hnow as [Ht _]. cbn in Ht, HF.
  apply (guard_rel_later _ _ _ _ t) in HR; [|done].
  apply (Claim_refines _ _ _ _ _ id) in HR as [HC HR].
  cbn [claims spec_claims]. destruct (Claim g id t) as [ok g1]. cbn in HC, HR. subst ok.
  specialize (IH _ _ _ HR HF). by destruct (claims g1 reqs); cbn in *; subst.
Qed.

(** C37: the guard implements its specification. On every sequence of claims
    stamped by a clock that does not go back, [Claim] decides exactly as the
    history of accepted claims prescribes: the table with expiries, the
    purging and the capacity test are an implementation detail. *)
Theorem replay_guard_refines w reqs :
  clock_order reqs -> (claims (NewReplayGuard w) reqs).1 = spec_claims w 65536 [] reqs.
Proof.
  intros HO. destruct reqs as [|[id t] reqs]; [done|].
  apply (claims_refine _ _ _ t); [|done|].
  - split; try done. { by apply NoDup_nil. }
    intros k e _. cbn. split; [done|]. by intros (? & []%not_elem_of_nil & _).
  - inversion HO; subst. by constructor.
Qed.

(** ** No identifier is accepted twice within the window *)

Lemma Claim_keeps g id now id' e :
  seen g !! id = Some e -> now < e ->
  seen (Claim g id' now).2 !! id = Some e /\ (id' = id -> (Claim g id' now).1 = false).
Proof.
  intros Hs Hlt. unfold Claim. destruct (requestIDPattern id'); cbn [negb]; [|done].
  set (live := filter _ _).
  assert (live !! id = Some e) as Hl by by apply map_lookup_filter_Some.
  destruct (decide (id' = id)) as [->|Hne].
  - rewrite Hl. unfold Time.After. by rewrite (proj2 (Z.ltb_lt now e) Hlt).
  - split; [|done]. repeat case_match; cbn; by rewrite ?lookup_insert_ne.
Qed.

Lemma Claim_accepted g id now :
  (Claim g id now).1 = true -> seen (Claim g id now).2 !! id = Some (now + window g).
Proof.
  unfold Claim. repeat case_match; cbn; try done; intros _; by rewrite lookup_insert_eq.
Qed.

Lemma claims_keep g id e reqs j t :
  seen g !! id = Some e -> Forall (fun r => r.2 < e) (take (S j) reqs) ->
  reqs !! j = Some (id, t) -> (claims g reqs).1 !! j = Some false.
Proof.
  revert g reqs. induction j as [|j IH]; intros g [|[id' t'] reqs] Hs HF Hj; [done|..|done|];
    cbn in HF, Hj; apply Forall_cons in HF as [Hlt HF]; cbn in Hlt;
    pose proof (Claim_keeps _ _ _ id' _ Hs Hlt) as [Hs' Hf]; cbn [claims];
    destruct (Claim g id' t') as [ok g1]; cbn in Hs', Hf.
  - simplify_eq. rewrite Hf by done. by destruct (claims g1 reqs).
  - specialize (IH g1 reqs Hs' HF Hj). by destruct (claims g1 reqs).
Qed.

Lemma clock_order_bound reqs j r r' k :
  clock_order reqs -> reqs !! j = Some r -> (k <= j)%nat -> reqs !! k = Some r' -> r'.2 <= r.2.
Proof.
  intros HO. revert j k. induction HO as [|x l HO IH HF]; intros [|j] [|k] Hj Hk Hr'; simplify_eq/=; try lia.
  - rewrite Forall_lookup in HF. by eapply HF.
  - eapply IH; [done| |done]. lia.
Qed.

(** A request identifier accepted at [ti] is refused at every later
    position of the sequence whose time is before the end of its window, from
    any state of the guard and whatever other requests come in between. *)
Theorem no_replay g reqs i j id ti tj :
  clock_order reqs -> (i < j)%nat ->
  reqs !! i = Some (id, ti) -> reqs !! j = Some (id, tj) ->
  (claims g reqs).1 !! i = Some true -> tj < ti + window g ->
  (claims g reqs).1 !! j = Some false.
Proof.
  intros HO. revert g i j. induction reqs as [|[id' t'] reqs IH]; intros g i j Hij Hi Hj Hok Hlt; [done|].
  destruct j as [|j]; [lia|]. cbn [claims] in *. cbn in Hj.
  destruct (Claim g id' t') as [ok g1] eqn:HC. inversion HO as [|? ? HO' HF]; subst.
  destruct i as [|i].
  - cbn in Hi. simplify_eq. destruct (claims g1 reqs) as [oks g2] eqn:HCs. cbn in Hok. simplify_eq.
    assert (seen g1 !! id = Some (ti + window g)) as Hs
      by (pose proof (Claim_accepted g id ti) as Ha; rewrite HC in Ha; by apply Ha).
    pose proof (claims_keep g1 id (ti + window g) reqs j tj Hs) as HK. rewrite HCs in HK.
    apply HK; [|done]. apply Forall_lookup. intros k r Hk.
    apply lookup_take_Some in Hk as [Hk ?].
    pose proof (clock_order_bound reqs j (id, tj) r k HO' Hj ltac:(lia) Hk). cbn in *. lia.
  - specialize (IH HO' g1 i j ltac:(lia) Hi Hj).
    assert (window g1 = window g) as Hw
      by (revert HC; unfold Claim; repeat case_match; by intros [= <- <-]).
    destruct (claims g1 reqs) as [oks g2]. cbn in *. rewrite Hw in IH. by apply IH.
Qed.

(** ** The visitor table *)

Lemma oldest_step_fold v order acc : acc.1 = "" \/ (exists b, v !! acc.1 = Some b /\ last b = acc.2) ->
  let r := fold_left (oldest_step v) order acc in
  r.1 = "" \/ exists b, v !! r.1 = Some b /\ last b = r.2.
Proof.
  revert acc. induction order as [|k order IH]; intros acc Hacc; [done|]. cbn.
  apply IH. unfold oldest_step. destruct (v !! k) as [b|] eqn:Hk; [|done].
  destruct (_ || _); [|done]. right. by exists b.
Qed.

Lemma oldest_visitor_in v order k :
  oldest_visitor v order = k -> k <> "" -> exists b, v !! k = Some b.
Proof.
  intros Hk Hne. unfold oldest_visitor in Hk.
  destruct (oldest_step_fold v order ("", 0)) as [H|(b & Hb & _)]; [by left|congruence|].
  exists b. by rewrite <- Hk.
Qed.

Lemma oldest_min v order acc :
  (forall k, k ∈ order -> k <> "" /\ is_Some (v !! k)) -> acc.1 <> "" ->
  let r := fold_left (oldest_step v) order acc in
  r.1 <> "" /\ r.2 <= acc.2 /\ (forall k b, k ∈ order -> v !! k = Some b -> r.2 <= last b).
Proof.
  revert acc. induction order as [|k order IH]; intros acc HO Hacc; cbn.
  { split_and!; [done|lia|]. by intros ? ? []%not_elem_of_nil. }
  destruct (HO k) as [Hk [b Hb]]; [by left|].
  assert (oldest_step v acc k = if last b <? acc.2 then (k, last b) else acc) as Hstep.
  { unfold oldest_step, Time.Before. by rewrite Hb, bool_decide_false. }
  destruct (IH (oldest_step v acc k)) as (H1 & H2 & H3).
  { intros k' Hk'. apply HO. by right. }
  { rewrite Hstep. by destruct (_ <? _). }
  split_and!; [done| |].
  - rewrite Hstep in H2 |- *. destruct (Z.ltb_spec (last b) acc.2); cbn in H2; lia.
  - intros k' b' [->|Hin]%elem_of_cons Hb'; [|by eapply H3].
    rewrite Hstep in H2 |- *. rewrite Hb in Hb'. injection Hb' as <-. destruct (Z.ltb_spec (last b) acc.2); cbn in H2; lia.
Qed.

(** Whatever the order of the loop, it ends on a least recently seen
    identity. *)
Lemma oldest_visitor_spec v order :
  range_order v order -> v <> ∅ -> v !! "" = None ->
  exists b, v !! oldest_visitor v order = Some b /\ oldest_visitor v order <> "" /\
    forall k b', v !! k = Some b' -> last b <= last b'.
Proof.
  intros HO Hne Hempty.
  assert (Hin : forall k, k ∈ order <-> is_Some (v !! k)).
  { intros k. rewrite HO. split.
    - intros ([k' b] & -> & Hb%elem_of_map_to_list)%list_elem_of_fmap. by exists b.
    - intros [b Hb]. apply list_elem_of_fmap. exists (k, b). by rewrite elem_of_map_to_list. }
  assert (Hkeys : forall k, k ∈ order -> k <> "" /\ is_Some (v !! k)).
  { intros k Hk%Hin. split; [|done]. intros ->. rewrite Hempty in Hk. by destruct Hk. }
  destruct order as [|k order].
  { destruct Hne. apply map_empty. intros k. destruct (v !! k) eqn:E; [|done].
    assert (k ∈ ([] : list string)) as []%not_elem_of_nil by (by apply Hin). }
  destruct (Hkeys k) as [Hk [b Hb]]; [by left|].
  assert (oldest_step v ("", 0) k = (k, last b)) as Hstep by (unfold oldest_step; by rewrite Hb).
  unfold oldest_visitor. cbn [fold_left]. rewrite Hstep.
  destruct (oldest_min v order (k, last b)) as (H1 & H2 & H3); [|done|].
  { intros k' Hk'. apply Hkeys. by right. }
  destruct (oldest_step_fold v order (k, last b)) as [?|(b0 & Hb0 & Hl)]; [right; by exists b|done|].
  exists b0. split_and!; [done|done|]. intros k' b' Hb'. rewrite Hl.
  assert (k' ∈ k :: order) as [->|Hin']%elem_of_cons by (by apply Hin).
  - simplify_eq. cbn in H2. lia.
  - by eapply H3.
Qed.

Lemma serve_size l identity now v b :
  (size (visitors (serve l identity now v b).2) <= size (delete identity v) + 1)%nat.
Proof.
  assert (forall x, size (<[identity := x]> v) = size (delete identity v) + 1)%nat as Hins.
  { intros x. rewrite <- insert_delete_eq, map_size_insert_None by apply lookup_delete_eq. lia. }
  unfold serve, settled. destruct (_ <? _); cbn [snd visitors set_visitors]; [|by rewrite Hins].
  erewrite <- Hins. apply map_subseteq_size, map_filter_subseteq.
Qed.

Definition table_ok (l : RateLimiter) : Prop :=
  0 < maxVisitors l /\ Z.of_nat (size (visitors l)) <= maxVisitors l.

Lemma serve_fields l identity now v b :
  maxVisitors (serve l identity now v b).2 = maxVisitors l /\
  burst (serve l identity now v b).2 = burst l /\ rate (serve l identity now v b).2 = rate l.
Proof. unfold serve, settled. by destruct (_ <? _). Qed.

(** The table of visitors never grows beyond its limit, whatever identities
    call and in whatever order the eviction loop runs. *)
Theorem Allow_table_bound l identity now order :
  table_ok l -> table_ok (Allow l identity now order).2.
Proof.
  intros [Hpos Hsz]. unfold table_ok, Allow.
  destruct (visitors l !! identity) as [b|] eqn:Hid.
  - rewrite (proj1 (serve_fields _ _ _ _ _)). split; [done|].
    pose proof (serve_size l identity now (visitors l) b).
    rewrite map_size_delete_Some in H by eauto.
    assert (size (visitors l) <> 0)%nat by (apply map_size_ne_0_lookup; eauto). lia.
  - destruct (Z.leb_spec (maxVisitors l) (Z.of_nat (size (visitors l)))).
    + case_bool_decide as Hold; [done|]. rewrite (proj1 (serve_fields _ _ _ _ _)). split; [done|].
      destruct (oldest_visitor_in _ _ _ eq_refl Hold) as [b Hb].
      set (v := delete (oldest_visitor (visitors l) order) (visitors l)).
      pose proof (serve_size l identity now v (mkRateBucket (f64 0) 0)) as HS.
      assert (delete identity v = v) as Hdel by (apply delete_id; unfold v; by rewrite lookup_delete_None; right).
      rewrite Hdel in HS. unfold v in HS at 2. rewrite map_size_delete_Some in HS by eauto.
      assert (size (visitors l) <> 0)%nat by (apply map_size_ne_0_lookup; eauto). lia.
    + rewrite (proj1 (serve_fields _ _ _ _ _)). split; [done|].
      pose proof (serve_size l identity now (visitors l) (mkRateBucket (f64 0) 0)) as HS.
      rewrite delete_id in HS by done. lia.
Qed.

Lemma Seconds_0 : Seconds 0 = f64 0.
Proof. reflexivity. Qed.

Lemma refill_now rt bst now t : refill rt bst now (mkRateBucket t now) = mkRateBucket t now.
Proof.
  unfold refill. cbn [last tokens]. rewrite Time.Sub_exact, Z.sub_diag by (unfold MinInt64, MaxInt64; lia).
  by rewrite Seconds_0.
Qed.

Lemma serve_fresh l identity now v :
  fge (burst l) (f64 1) = true ->
  serve l identity now v (mkRateBucket (f64 0) 0) =
  (true, settled l now (<[identity := mkRateBucket (fsub (burst l) (f64 1)) now]> v)).
Proof.
  intros Hb. unfold serve. cbn [last Time.IsZero Z.eqb]. rewrite refill_now. cbn [tokens last].
  by rewrite Hb.
Qed.

(** A full table never locks out a new client. A client without a bucket is
    admitted with a full burst; when the table is full, exactly one visitor is
    evicted for it, one that nobody was seen before, whatever the order of the
    loop. *)
Theorem Allow_new_client l identity now order :
  visitors l !! identity = None -> visitors l !! "" = None -> 0 < maxVisitors l ->
  range_order (visitors l) order -> fge (burst l) (f64 1) = true ->
  let bucket := mkRateBucket (fsub (burst l) (f64 1)) now in
  if maxVisitors l <=? Z.of_nat (size (visitors l))
  then exists k b, visitors l !! k = Some b /\
         (forall k' b', visitors l !! k' = Some b' -> last b <= last b') /\
         Allow l identity now order =
           (true, settled l now (<[identity := bucket]> (delete k (visitors l))))
  else Allow l identity now order =
         (true, settled l now (<[identity := bucket]> (visitors l))).
Proof.
  intros Hid Hempty Hpos HO Hb. cbv zeta. unfold Allow. rewrite Hid.
  destruct (Z.leb_spec (maxVisitors l) (Z.of_nat (size (visitors l)))); [|by apply serve_fresh].
  destruct (oldest_visitor_spec (visitors l) order) as (b & Hk & Hne & Hmin); [done| |done|].
  { intros HE. rewrite HE, map_size_empty in *. lia. }
  exists (oldest_visitor (visitors l) order), b. split_and!; [done|done|].
  rewrite bool_decide_false by done. by apply serve_fresh.
Qed.

(** ** The burst is exact *)

#[export] Instance spec_float_eq_dec : EqDecision spec_float.
Proof. solve_decision. Defined.

(** The largest burst [validateSystemFabricSettings] accepts. *)
Definition max_burst : Z := 10000.

Definition token_ok (n : Z) : bool :=
  fge (f64 n) (f64 1) && bool_decide (fsub (f64 n) (f64 1) = f64 (n - 1)).

Lemma tokens_table : forallb token_ok (seqZ 1 max_burst) = true.
Proof. vm_compute. reflexivity. Qed.

Lemma token_exact n : 1 <= n <= max_burst ->
  fge (f64 n) (f64 1) = true /\ fsub (f64 n) (f64 1) = f64 (n - 1).
Proof.
  intros Hn. pose proof tokens_table as HT. rewrite forallb_forall in HT.
  specialize (HT n). rewrite <- list_elem_of_In, elem_of_seqZ in HT.
  unfold token_ok in HT. rewrite andb_true_iff, bool_decide_eq_true in HT. apply HT. lia.
Qed.

(** Consecutive calls for one identity at one instant. *)
Fixpoint allow_run (l : RateLimiter) (identity : string) (now : time)
    (orders : list (list string)) : list bool * RateLimiter :=
  match orders with
  | [] => ([], l)
  | order :: rest =>
      let '(ok, l1) := Allow l identity now order in
      let '(oks, l2) := allow_run l1 identity now rest in
      (ok :: oks, l2)
  end.

Lemma settled_visitor l now v identity t :
  v !! identity = Some (mkRateBucket t now) ->
  visitors (settled l now v) !! identity = Some (mkRateBucket t now).
Proof.
  intros Hv. unfold settled. destruct (_ <? _); [|done]. cbn. unfold gc_visitors.
  apply map_lookup_filter_Some. split; [done|]. cbn.
  rewrite Time.Sub_exact, Z.sub_diag by (unfold MinInt64, MaxInt64; lia). done.
Qed.

Lemma Allow_again l identity now order m :
  now <> 0 -> visitors l !! identity = Some (mkRateBucket (f64 m) now) -> 0 <= m <= max_burst ->
  exists l', Allow l identity now order = (0 <? m, l') /\
    visitors l' !! identity = Some (mkRateBucket (f64 (if 0 <? m then m - 1 else m)) now).
Proof.
  intros Hnow Hv Hm. unfold Allow. rewrite Hv. unfold serve. cbn [last].
  assert (Time.IsZero now = false) as -> by (by apply Z.eqb_neq).
  rewrite refill_now. cbn [tokens last].
  assert (fge (f64 m) (f64 1) = (0 <? m) /\
    (if 0 <? m then fsub (f64 m) (f64 1) else f64 m) = f64 (if 0 <? m then m - 1 else m)) as [-> Ht].
  { destruct (Z.ltb_spec 0 m); [apply token_exact; lia|]. by replace m with 0 by lia. }
  eexists. split; [reflexivity|]. apply settled_visitor. rewrite lookup_insert_eq, <- Ht.
  by destruct (0 <? m).
Qed.

Lemma allow_run_burst l identity now orders m :
  now <> 0 -> visitors l !! identity = Some (mkRateBucket (f64 m) now) -> 0 <= m <= max_burst ->
  (allow_run l identity now orders).1 =
  replicate (Nat.min (length orders) (Z.to_nat m)) true ++
  replicate (length orders - Z.to_nat m) false.
Proof.
  intros Hnow. revert l m. induction orders as [|order orders IH]; intros l m Hv Hm; [done|].
  cbn [allow_run length]. destruct (Allow_again l identity now order m) as (l' & -> & Hv'); [done..|].
  specialize (IH l' (if 0 <? m then m - 1 else m) Hv').
  destruct (Z.ltb_spec 0 m).
  - rewrite surjective_pairing with (p := allow_run _ _ _ _). cbn. rewrite IH by lia.
    replace (Z.to_nat m) with (S (Z.to_nat (m - 1))) by lia. done.
  - rewrite surjective_pairing with (p := allow_run _ _ _ _). cbn. rewrite IH by lia.
    replace m with 0 by lia. cbn [Z.to_nat]. by rewrite !Nat.min_0_r, !Nat.sub_0_r.
Qed.

(** The burst is exact. Of any number of requests a new client sends at one
    instant, the first [n] (the configured burst, up to the largest the
    settings accept) are allowed and all others refused: the binary64
    arithmetic of the bucket loses no token and creates none. *)
Theorem Allow_burst_exact l n identity now order orders :
  burst l = f64 n -> 1 <= n <= max_burst -> now <> 0 ->
  visitors l !! identity = None -> Z.of_nat (size (visitors l)) < maxVisitors l ->
  (allow_run l identity now (order :: orders)).1 =
  replicate (Nat.min (S (length orders)) (Z.to_nat n)) true ++
  replicate (S (length orders) - Z.to_nat n) false.
Proof.
  intros Hb Hn Hnow Hid Hroom. destruct (token_exact n Hn) as [Hge Hsub]. cbn [allow_run].
  unfold Allow. rewrite Hid, (proj2 (Z.leb_gt _ _) Hroom), serve_fresh by (by rewrite Hb).
  rewrite Hb, Hsub.
  set (l1 := settled _ _ _).
  assert (visitors l1 !! identity = Some (mkRateBucket (f64 (n - 1)) now)) as Hv
    by (apply settled_visitor, lookup_insert_eq).
  pose proof (allow_run_burst l1 identity now orders (n - 1) Hnow Hv ltac:(lia)) as HR.
  rewrite surjective_pairing with (p := allow_run _ _ _ _). cbn. rewrite HR.
  by replace (Z.to_nat n) with (S (Z.to_nat (n - 1))) by lia.
Qed.

Lemma fgt_irrefl x : fgt x x = false.
Proof.
  unfold fgt, SFltb. destruct x as [[]|[]| |[] m e]; try done; cbn;
  by rewrite Z.compare_refl, Pos.compare_cont_refl.
Qed.

(** A tightened configuration takes effect at once: after [Configure] no
    bucket holds more than the new burst and no visitor is forgotten; an
    invalid configuration (a burst above the per-minute rate included) is
    refused and changes nothing. *)
Theorem Configure_clamps l perMinute b :
  match Configure (Some l) perMinute b with
  | (Some _, l') => l' = Some l /\ (perMinute < 1 \/ b < 1 \/ perMinute < b)
  | (None, l') => exists l1, l' = Some l1 /\ burst l1 = f64 b /\ 1 <= b <= perMinute /\
      dom (visitors l1) = dom (visitors l) /\
      map_Forall (fun _ bk => fgt (tokens bk) (burst l1) = false) (visitors l1)
  end.
Proof.
  unfold Configure.
  destruct (Z.ltb_spec perMinute 1); [cbn; auto with lia|].
  destruct (Z.ltb_spec b 1); [cbn; auto with lia|].
  destruct (Z.ltb_spec perMinute b); [cbn; auto with lia|]. cbn [orb].
  eexists. cbn [burst visitors]. split_and!; [done|done|lia|lia|apply dom_fmap_L|].
  intros k bk (bk0 & <- & _)%lookup_fmap_Some.
  destruct (fgt (tokens bk0) (f64 b)) eqn:E; [|done]. apply fgt_irrefl.
Qed.
