(* ===== verification/L7RateLimit.v ===== *)
(** * Rate limiting of the layer-7 engine

    src/control/l7_rate_limit.go: token buckets in 64 shards selected by an
    FNV-1a hash, with one shared overflow bucket per shard, and the policy that
    combines the client, the sensitive-route and the global sensitive-route
    budgets. The part of the runtime snapshot the policy reads
    (src/control/l7_fabric_settings.go) is a pair of records. *)

From Stdlib Require Import ZArith Lia Ascii String.
From stdpp Require Import base gmap strings list sorting.
From S2P Require Import Prelude.
From S2P Require Import GoLib.
From S2P Require Import RateLimit.

Definition l7LimiterShards : Z := 64.

Record l7TokenBucket := mkL7TokenBucket { tb_tokens : float64; tb_last : time }.

Record l7LimiterShard := mkL7LimiterShard {
  sh_buckets : gmap string l7TokenBucket;
  sh_overflow : l7TokenBucket;
  sh_lastGC : time;
}.

Record l7ShardedLimiter := mkL7ShardedLimiter {
  maxEntriesPerMap : Z;
  shards : list l7LimiterShard;
}.

Definition newL7ShardedLimiter (maxEntries : Z) (now : time) : l7ShardedLimiter :=
  let n := Z.quot (maxEntries + l7LimiterShards - 1) l7LimiterShards in
  mkL7ShardedLimiter (if n <? 16 then 16 else n)
    (replicate (Z.to_nat l7LimiterShards)
       (mkL7LimiterShard ∅ (mkL7TokenBucket (f64 0) 0) now)).

(** FNV-1a on 32 bits, modulo the number of shards. *)
Definition fnv_step (hash : Z) (c : ascii) : Z := u32 (Z.lxor hash (byte_val c) * 16777619).
Definition l7ShardIndex (key : string) : Z :=
  fold_left fnv_step (bytes_of key) 2166136261 mod l7LimiterShards.

Definition consumeL7Token (b : l7TokenBucket) (rate burst : float64) (now : time)
    : bool * l7TokenBucket :=
  let elapsed := Seconds (Time.Sub now (tb_last b)) in
  let b :=
    if fgt elapsed (f64 0) then
      let t := fadd (tb_tokens b) (fmul elapsed rate) in
      mkL7TokenBucket (if fgt t burst then burst else t) now
    else b in
  if SpecFloat.SFltb (tb_tokens b) (f64 1) then (false, b)
  else (true, mkL7TokenBucket (fsub (tb_tokens b) (f64 1)) (tb_last b)).

Definition l7LimiterGCLocked (sh : l7LimiterShard) (now : time) (maxIdle : duration)
    : l7LimiterShard :=
  mkL7LimiterShard (filter (fun kv => ~ tb_last kv.2 < now + - maxIdle) (sh_buckets sh))
    (sh_overflow sh) now.

(** The end of [Allow]: the request is charged to the key's own bucket. *)
Definition charge_own (sh : l7LimiterShard) (key : string) (bucket : l7TokenBucket)
    (rate burst : float64) (now : time) : bool * l7LimiterShard :=
  let '(allowed, bucket) := consumeL7Token bucket rate burst now in
  let sh := mkL7LimiterShard (<[key := bucket]> (sh_buckets sh)) (sh_overflow sh) (sh_lastGC sh) in
  (allowed, if 2 * Time.Minute <=? Time.Sub now (sh_lastGC sh)
            then l7LimiterGCLocked sh now (15 * Time.Minute) else sh).

(** The collection [Allow] tries on a full shard. *)
Definition gc_full (sh : l7LimiterShard) (now : time) : l7LimiterShard :=
  if 30 * Time.Second <=? Time.Sub now (sh_lastGC sh)
  then l7LimiterGCLocked sh now (5 * Time.Minute) else sh.

(** [Allow] on the selected shard. *)
Definition shard_Allow (limit : Z) (sh : l7LimiterShard) (key : string)
    (rate burst : float64) (now : time) : bool * l7LimiterShard :=
  match sh_buckets sh !! key with
  | Some bucket => charge_own sh key bucket rate burst now
  | None =>
      if limit <=? Z.of_nat (size (sh_buckets sh)) then
        let sh := gc_full sh now in
        if limit <=? Z.of_nat (size (sh_buckets sh)) then
          let '(allowed, o) := consumeL7Token (sh_overflow sh) rate burst now in
          (allowed, mkL7LimiterShard (sh_buckets sh) o (sh_lastGC sh))
        else charge_own sh key (mkL7TokenBucket burst now) rate burst now
      else charge_own sh key (mkL7TokenBucket burst now) rate burst now
  end.

(** An index beyond the array would panic in Go; [l7ShardIndex_range] excludes
    it. *)
Definition sharded_Allow (l : option l7ShardedLimiter) (key : string) (rate burst : float64)
    (now : time) : bool * option l7ShardedLimiter :=
  match l with
  | None => (false, None)
  | Some l0 =>
      if SpecFloat.SFleb rate (f64 0) || SpecFloat.SFleb burst (f64 0) then (false, l)
      else
        let i := Z.to_nat (l7ShardIndex key) in
        match shards l0 !! i with
        | None => (false, l)
        | Some sh =>
            let '(allowed, sh) := shard_Allow (maxEntriesPerMap l0) sh key rate burst now in
            (allowed, Some (mkL7ShardedLimiter (maxEntriesPerMap l0) (<[i := sh]> (shards l0))))
        end
  end.

(** ** The policy *)

(** The rate budgets of [L7Config]. *)
Record L7RateConfig := mkL7RateConfig {
  ClientRatePerMinute : Z;
  ClientRateBurst : Z;
  SensitiveRatePerMinute : Z;
  SensitiveRateBurst : Z;
  SensitiveGlobalRatePerMinute : Z;
  SensitiveGlobalRateBurst : Z;
}.

(** The sensitive routes of [l7RuntimeSnapshot]. *)
Record sensitive_routes := mkSensitiveRoutes {
  sensitiveExact : gset string;
  sensitiveRoots : list string;
}.

Definition sensitivePath (s : sensitive_routes) (path : string) : bool :=
  if bool_decide (path = "") then false
  else if bool_decide (path ∈ sensitiveExact s) then true
  else existsb (fun root => (slen root <=? slen path) && HasPrefix path root) (sensitiveRoots s).

(** The part of [buildL7RuntimeSnapshot] that fills them. The sorting of the
    roots by length does not matter to [sensitivePath]. *)
Definition build_sensitive (paths : list string) : sensitive_routes :=
  mkSensitiveRoutes (list_to_set paths)
    (map (fun p => p +:+ "/") (filter (fun p => p <> "/") paths)).

Record L7RateLimiter := mkL7RateLimiter {
  client : option l7ShardedLimiter;
  sensitive : option l7ShardedLimiter;
  sensitiveGlobal : option l7ShardedLimiter;
}.

Definition newL7RateLimiterWithRuntime (maxTracked : Z) (now : time) : L7RateLimiter :=
  let fresh := Some (newL7ShardedLimiter maxTracked now) in
  mkL7RateLimiter fresh fresh fresh.

Definition l7Rate (perMinute : Z) : float64 := fdiv (f64 perMinute) (f64 60).

Section Policy.
Context `{U : Unicode}.

Definition static_extensions : list string :=
  ["css"; "js"; "mjs"; "map"; "png"; "jpg"; "jpeg"; "gif"; "svg"; "webp"; "avif"; "ico";
   "woff"; "woff2"; "ttf"; "otf"; "eot"].

Definition l7ClientRateExempt (method requestURI : string) : bool :=
  if negb (bool_decide (method = "GET") || bool_decide (method = "HEAD")) then false
  else
    let path := take_until "?" requestURI in
    let lower := ToLower path in
    let dynamic := HasSuffix lower ".php" || HasSuffix lower ".phtml" ||
                   HasSuffix lower ".cgi" || HasSuffix lower ".pl" in
    if existsb (fun prefix => HasPrefix lower prefix && negb dynamic)
         ["/storage/"; "/wp-content/"; "/wp-includes/"] then true
    else if HasPrefix lower "/wp-admin/" &&
            (bool_decide (lower = "/wp-admin/load-styles.php") ||
             bool_decide (lower = "/wp-admin/load-scripts.php")) then true
    else bool_decide (ToLower (after_last "." path) ∈ static_extensions).

Definition evaluatePolicyWithBudget (l : option L7RateLimiter)
    (snapshot : option (L7RateConfig * sensitive_routes))
    (remoteIP host path method : string) (now : time) (bypassClient : bool)
    (clientRatePerMinute clientRateBurst : Z) : (bool * string) * option L7RateLimiter :=
  match l, snapshot with
  | Some l0, Some (cfg, routes) =>
      if l7ClientRateExempt method path then ((true, ""), l)
      else
        let clientKey := remoteIP +:+ "|" +:+ ToLower host in
        let own_budget := (0 <? clientRatePerMinute) && (0 <? clientRateBurst) in
        let rate := if own_budget then clientRatePerMinute else ClientRatePerMinute cfg in
        let burst := if own_budget then clientRateBurst else ClientRateBurst cfg in
        let '(clientOk, c) :=
          if bypassClient then (true, client l0)
          else sharded_Allow (client l0) clientKey (l7Rate rate) (f64 burst) now in
        if negb clientOk
        then ((false, "client"), Some (mkL7RateLimiter c (sensitive l0) (sensitiveGlobal l0)))
        else if sensitivePath routes path then
          let globalKey := ToLower host +:+ "|" +:+ method +:+ "|" +:+ path in
          let '(globalOk, g) := sharded_Allow (sensitiveGlobal l0) globalKey
            (l7Rate (SensitiveGlobalRatePerMinute cfg)) (f64 (SensitiveGlobalRateBurst cfg)) now in
          if negb globalOk
          then ((false, "sensitive-route-global"), Some (mkL7RateLimiter c (sensitive l0) g))
          else
            let key := clientKey +:+ "|" +:+ method +:+ "|" +:+ path in
            let '(ok, s) := sharded_Allow (sensitive l0) key
              (l7Rate (SensitiveRatePerMinute cfg)) (f64 (SensitiveRateBurst cfg)) now in
            if ok then ((true, ""), Some (mkL7RateLimiter c s g))
            else ((false, "sensitive-route"), Some (mkL7RateLimiter c s g))
        else ((true, ""), Some (mkL7RateLimiter c (sensitive l0) (sensitiveGlobal l0)))
  | _, _ => ((true, ""), l)
  end.

Definition EvaluatePolicy l snapshot remoteIP host path method now bypassClient :=
  evaluatePolicyWithBudget l snapshot remoteIP host path method now bypassClient 0 0.

Definition Evaluate l snapshot remoteIP host path method now :=
  EvaluatePolicy l snapshot remoteIP host path method now false.
End Policy.

(** ** Bounded memory *)

Lemma l7ShardIndex_range key : 0 <= l7ShardIndex key < l7LimiterShards.
Proof. apply Z.mod_pos_bound. done. Qed.

Definition limiter_ok (l : l7ShardedLimiter) : Prop :=
  0 < maxEntriesPerMap l /\ length (shards l) = Z.to_nat l7LimiterShards /\
  Forall (fun sh => Z.of_nat (size (sh_buckets sh)) <= maxEntriesPerMap l) (shards l).

Lemma newL7ShardedLimiter_ok n now : limiter_ok (newL7ShardedLimiter n now).
Proof.
  unfold limiter_ok, newL7ShardedLimiter. cbn [maxEntriesPerMap shards].
  destruct (Z.ltb_spec (Z.quot (n + l7LimiterShards - 1) l7LimiterShards) 16);
    split_and!; [lia|by rewrite length_replicate| |lia|by rewrite length_replicate|];
    apply Forall_replicate; cbn [sh_buckets]; rewrite map_size_empty; lia.
Qed.

Lemma gc_size sh now idle : (size (sh_buckets (l7LimiterGCLocked sh now idle)) <= size (sh_buckets sh))%nat.
Proof. apply map_subseteq_size, map_filter_subseteq. Qed.

Lemma insert_size_le {A} (m : gmap string A) k x n :
  Z.of_nat (size m) <= n -> (m !! k = None -> Z.of_nat (size m) < n) ->
  Z.of_nat (size (<[k := x]> m)) <= n.
Proof.
  intros Hn Hnew. destruct (m !! k) as [y|] eqn:E.
  - rewrite map_size_insert_Some by eauto. lia.
  - rewrite map_size_insert_None by done. specialize (Hnew eq_refl). lia.
Qed.

Lemma charge_own_size limit sh key b rate burst now :
  Z.of_nat (size (sh_buckets sh)) <= limit ->
  (sh_buckets sh !! key = None -> Z.of_nat (size (sh_buckets sh)) < limit) ->
  Z.of_nat (size (sh_buckets (charge_own sh key b rate burst now).2)) <= limit.
Proof.
  intros H1 H2. unfold charge_own. destruct (consumeL7Token _ _ _ _) as [ok b']. cbv zeta.
  assert (Z.of_nat (size (<[key := b']> (sh_buckets sh))) <= limit) by by apply insert_size_le.
  destruct (_ <=? _); cbn [snd]; [|done].
  etrans; [|eassumption]. apply inj_le, (gc_size (mkL7LimiterShard _ _ _)).
Qed.

Lemma gc_full_size sh now : (size (sh_buckets (gc_full sh now)) <= size (sh_buckets sh))%nat.
Proof. unfold gc_full. destruct (_ <=? _); [apply gc_size|done]. Qed.

Lemma shard_Allow_size limit sh key rate burst now :
  Z.of_nat (size (sh_buckets sh)) <= limit ->
  Z.of_nat (size (sh_buckets (shard_Allow limit sh key rate burst now).2)) <= limit.
Proof.
  intros Hsz. unfold shard_Allow. pose proof (gc_full_size sh now).
  destruct (sh_buckets sh !! key) eqn:Hk; [apply charge_own_size; [done|congruence]|].
  destruct (Z.leb_spec limit (Z.of_nat (size (sh_buckets sh)))); [|by apply charge_own_size].
  cbv zeta. destruct (Z.leb_spec limit (Z.of_nat (size (sh_buckets (gc_full sh now)))));
    [|apply charge_own_size; lia].
  destruct (consumeL7Token _ _ _ _). cbn [snd sh_buckets]. lia.
Qed.

(** A flood of distinct keys cannot grow a limiter: every shard keeps at
    most its share of buckets, whatever is asked of it and at whatever time. *)
Theorem l7_limiter_bounded l key rate burst now l' :
  limiter_ok l -> (sharded_Allow (Some l) key rate burst now).2 = Some l' ->
  limiter_ok l' /\ maxEntriesPerMap l' = maxEntriesPerMap l.
Proof.
  intros (Hpos & Hlen & HF). unfold sharded_Allow. cbv zeta.
  destruct (_ || _); cbn [snd]; [by intros [= <-]|].
  destruct (shards l !! _) as [sh|] eqn:Hsh; [|by intros [= <-]].
  pose proof (shard_Allow_size (maxEntriesPerMap l) sh key rate burst now) as HS.
  destruct (shard_Allow _ _ _ _ _ _) as [ok sh']. cbn [snd] in *. intros [= <-].
  unfold limiter_ok. cbn [maxEntriesPerMap shards]. rewrite length_insert.
  split_and!; try done. apply Forall_insert; [done|]. apply HS.
  rewrite Forall_lookup in HF. by eapply HF.
Qed.

(** Progress: a limiter has a shard for every key. *)
Lemma sharded_Allow_shard l key : limiter_ok l ->
  exists sh, shards l !! Z.to_nat (l7ShardIndex key) = Some sh.
Proof.
  intros (_ & Hlen & _). apply lookup_lt_is_Some. rewrite Hlen.
  pose proof (l7ShardIndex_range key). lia.
Qed.

(** ** Overflow *)

(** A shard that is full and whose collection is not due. *)
Definition crowded (limit : Z) (sh : l7LimiterShard) (now : time) : Prop :=
  limit <= Z.of_nat (size (sh_buckets sh)) /\ Time.Sub now (sh_lastGC sh) < 30 * Time.Second.

Lemma shard_Allow_crowded limit sh key rate burst now :
  crowded limit sh now -> sh_buckets sh !! key = None ->
  shard_Allow limit sh key rate burst now =
  let '(ok, o) := consumeL7Token (sh_overflow sh) rate burst now in
  (ok, mkL7LimiterShard (sh_buckets sh) o (sh_lastGC sh)).
Proof.
  intros [Hfull Hgc] Hk. unfold shard_Allow. rewrite Hk, (proj2 (Z.leb_le _ _) Hfull). cbv zeta.
  unfold gc_full. rewrite (proj2 (Z.leb_gt _ _) Hgc). by rewrite (proj2 (Z.leb_le _ _) Hfull).
Qed.

Lemma f64_lt_one n : 0 <= n <= max_burst -> SpecFloat.SFltb (f64 n) (f64 1) = (n =? 0).
Proof.
  intros Hn.
  assert (forallb (fun n => Bool.eqb (SpecFloat.SFltb (f64 n) (f64 1)) (n =? 0))
    (seqZ 0 (max_burst + 1)) = true) as HT by (vm_compute; reflexivity).
  rewrite forallb_forall in HT. apply Bool.eqb_prop, HT, list_elem_of_In, elem_of_seqZ. lia.
Qed.

Lemma consumeL7Token_now m rate burst now : 0 <= m <= max_burst ->
  consumeL7Token (mkL7TokenBucket (f64 m) now) rate burst now =
  (0 <? m, mkL7TokenBucket (f64 (if 0 <? m then m - 1 else m)) now).
Proof.
  intros Hm. unfold consumeL7Token. cbn [tb_last].
  rewrite Time.Sub_exact, Z.sub_diag by (unfold MinInt64, MaxInt64; lia).
  change (fgt (Seconds 0) (f64 0)) with false. cbv iota zeta. cbn [tb_tokens tb_last].
  rewrite f64_lt_one by done. destruct (Z.ltb_spec 0 m).
  - rewrite (proj2 (Z.eqb_neq m 0)) by lia. by rewrite (proj2 (token_exact m ltac:(lia))).
  - by replace m with 0 by lia.
Qed.

(** Requests of many keys against one shard at one instant. *)
Fixpoint shard_run (limit : Z) (sh : l7LimiterShard) (rate burst : float64) (now : time)
    (keys : list string) : list bool * l7LimiterShard :=
  match keys with
  | [] => ([], sh)
  | key :: rest =>
      let '(ok, sh) := shard_Allow limit sh key rate burst now in
      let '(oks, sh) := shard_run limit sh rate burst now rest in
      (ok :: oks, sh)
  end.

(** When a shard is full, the keys it does not know share one budget. With
    [m] tokens left in the overflow bucket, exactly the first [m] of any number
    of such requests at one instant are allowed, whichever keys they carry, and
    the shard does not grow: rotating keys does not multiply the budget. *)
Theorem l7_overflow_budget limit sh rate burst now keys m :
  crowded limit sh now -> Forall (fun key => sh_buckets sh !! key = None) keys ->
  sh_overflow sh = mkL7TokenBucket (f64 m) now -> 0 <= m <= max_burst ->
  (shard_run limit sh rate burst now keys).1 =
    replicate (Nat.min (length keys) (Z.to_nat m)) true ++
    replicate (length keys - Z.to_nat m) false /\
  sh_buckets (shard_run limit sh rate burst now keys).2 = sh_buckets sh.
Proof.
  revert sh m. induction keys as [|key keys IH]; intros sh m Hc HF Ho Hm; [done|].
  apply Forall_cons in HF as [Hk HF]. cbn [shard_run].
  rewrite shard_Allow_crowded, Ho, consumeL7Token_now by done. cbn [length].
  set (sh1 := mkL7LimiterShard _ _ _).
  specialize (IH sh1 (if 0 <? m then m - 1 else m) Hc HF eq_refl).
  destruct (shard_run limit sh1 rate burst now keys) as [oks sh2]. cbn [fst snd] in *.
  destruct (Z.ltb_spec 0 m).
  - destruct IH as [-> ->]; [lia|]. by replace (Z.to_nat m) with (S (Z.to_nat (m - 1))) by lia.
  - destruct IH as [-> ->]; [lia|]. replace m with 0 by lia. cbn [Z.to_nat].
    by rewrite !Nat.min_0_r, !Nat.sub_0_r.
Qed.

(** ** The policy *)

(** A path is sensitive when it is a configured route or lies below one: the
    prefix test respects path components. *)
Lemma sensitivePath_spec paths path :
  sensitivePath (build_sensitive paths) path = true <->
  path <> "" /\ exists p, p ∈ paths /\ (path = p \/ p <> "/" /\ exists r, path = p +:+ "/" +:+ r).
Proof.
  unfold sensitivePath, build_sensitive. cbn [sensitiveExact sensitiveRoots].
  case_bool_decide as He; [naive_solver|]. case_bool_decide as Hex.
  { split; [|done]. intros _. split; [done|]. exists path. rewrite elem_of_list_to_set in Hex. auto. }
  rewrite elem_of_list_to_set in Hex. rewrite existsb_exists. split.
  - intros (root & Hin & [_ HP]%andb_true_iff). split; [done|].
    apply list_elem_of_In, list_elem_of_fmap in Hin as (p & -> & [Hne Hin]%list_elem_of_filter).
    apply HasPrefix_spec in HP as [r ->]. exists p. split; [done|]. right. split; [done|].
    exists r. by rewrite string_app_assoc.
  - intros (_ & p & Hin & [->|[Hne [r ->]]]); [done|]. exists (p +:+ "/"). split.
    + apply list_elem_of_In, list_elem_of_fmap. exists p. by rewrite list_elem_of_filter.
    + rewrite andb_true_iff. split.
      * unfold slen. rewrite <- string_app_assoc, (length_append (p +:+ "/")). apply Z.leb_le. lia.
      * apply HasPrefix_spec. exists r. by rewrite string_app_assoc.
Qed.

Section PolicyFacts.
Context `{U : Unicode}.

(** A bypass of the client budget never bypasses the credential surface. A
    request to a sensitive route that is allowed (and is not one of the exempt
    static reads) was charged to the global and to the per-client budget of
    that route, both of which had a token, also when [bypassClient] is set or a
    relaxed client budget is in force. *)
Theorem sensitive_always_charged l cfg routes ip host path method now bypass rate burst l' :
  l7ClientRateExempt method path = false -> sensitivePath routes path = true ->
  evaluatePolicyWithBudget (Some l) (Some (cfg, routes)) ip host path method now bypass rate burst
    = ((true, ""), Some l') ->
  let clientKey := ip +:+ "|" +:+ ToLower host in
  let route := "|" +:+ method +:+ "|" +:+ path in
  sharded_Allow (sensitiveGlobal l) (ToLower host +:+ route)
    (l7Rate (SensitiveGlobalRatePerMinute cfg)) (f64 (SensitiveGlobalRateBurst cfg)) now
    = (true, sensitiveGlobal l') /\
  sharded_Allow (sensitive l) (clientKey +:+ route)
    (l7Rate (SensitiveRatePerMinute cfg)) (f64 (SensitiveRateBurst cfg)) now
    = (true, sensitive l').
Proof.
  intros Hex Hs. unfold evaluatePolicyWithBudget. rewrite Hex. cbv zeta.
  destruct (if bypass then _ else _) as [ok c]. destruct ok; cbn [negb]; [|done]. rewrite Hs.
  destruct (sharded_Allow (sensitiveGlobal l) _ _ _ _) as [[] g] eqn:HG; cbn [negb]; [|done].
  destruct (sharded_Allow (sensitive l) _ _ _ _) as [[] s] eqn:HS; [|done].
  by intros [= <-].
Qed.

(** State-changing methods are never exempt from the client budget. *)
Lemma exempt_reads_only method uri :
  l7ClientRateExempt method uri = true -> method = "GET" \/ method = "HEAD".
Proof.
  unfold l7ClientRateExempt. destruct (bool_decide_reflect (method = "GET")); [by left|].
  destruct (bool_decide_reflect (method = "HEAD")); [by right|done].
Qed.

(** The exemption for static files also covers dynamic requests: below the
    asset prefixes everything that does not end like a script is exempt, a
    script followed by a path included, and elsewhere a script followed by a
    path with a static extension. *)
Lemma exempt_script_with_path_info :
  l7ClientRateExempt "GET" "/wp-content/plugins/shell.php/run" = true /\
  l7ClientRateExempt "GET" "/storage/api" = true /\
  l7ClientRateExempt "GET" "/wp-login.php/x.css" = true /\
  l7ClientRateExempt "GET" "/wp-content/plugins/shell.php" = false.
Proof.
  unfold l7ClientRateExempt.
  change (take_until "?" "/wp-content/plugins/shell.php/run") with "/wp-content/plugins/shell.php/run".
  change (take_until "?" "/storage/api") with "/storage/api".
  change (take_until "?" "/wp-login.php/x.css") with "/wp-login.php/x.css".
  change (take_until "?" "/wp-content/plugins/shell.php") with "/wp-content/plugins/shell.php".
  change (after_last "." "/wp-content/plugins/shell.php/run") with "php/run".
  change (after_last "." "/storage/api") with "/storage/api".
  change (after_last "." "/wp-login.php/x.css") with "css".
  change (after_last "." "/wp-content/plugins/shell.php") with "php".
  rewrite !ToLower_ascii by reflexivity. vm_compute. done.
Qed.
End PolicyFacts.
