(* ===== verification/LimitsWitness.v ===== *)
(** * Witnesses for the limiters

    The hypotheses of the theorems of RateLimit.v and L7RateLimit.v hold of
    concrete limiters, on which the operations are evaluated. *)

From Stdlib Require Import ZArith Lia Ascii String.
From stdpp Require Import base gmap strings list sorting.
From S2P Require Import Prelude.
From S2P Require Import GoLib.
From S2P Require Import RateLimit.
From S2P Require Import L7RateLimit.

(** Unicode tables that leave everything beyond ASCII alone. *)
#[export, refine] Instance ascii_unicode : Unicode := {
  ToLower := map_bytes lower_byte;
  ToUpper := map_bytes upper_byte;
  ToLower_ascii := _;
  ToUpper_ascii := _;
}.
Proof. all: done. Defined.

(** ** Replay guard *)

Definition req_a : string := "request-identifier-a".
Definition req_b : string := "request-identifier-b".
Definition demo_reqs : list (string * time) :=
  [(req_a, 100); (req_b, 150); (req_a, 200); (req_a, 700)].

Lemma demo_clock : clock_order demo_reqs.
Proof. repeat constructor; cbn; lia. Defined.

Lemma replay_guard_refines_witness :
  (claims (NewReplayGuard 500) demo_reqs).1 = spec_claims 500 65536 [] demo_reqs /\
  spec_claims 500 65536 [] demo_reqs = [true; true; false; true].
Proof.
  split; [|by vm_compute]. apply (replay_guard_refines 500 demo_reqs). exact demo_clock.
Defined.

Lemma no_replay_witness : (claims (NewReplayGuard 500) demo_reqs).1 !! 2%nat = Some false.
Proof.
  apply (no_replay (NewReplayGuard 500) demo_reqs 0 2 req_a 100 200).
  - exact demo_clock.
  - lia.
  - reflexivity.
  - reflexivity.
  - by vm_compute.
  - cbn. lia.
Defined.

(** ** API rate limiter *)

Definition demo_limiter : RateLimiter := NewRateLimiter 120 3 1000000000.
(** A full table of two visitors. *)
Definition full_limiter : RateLimiter :=
  mkRateLimiter (rate demo_limiter) (burst demo_limiter) 2
    {[ "10.0.0.1" := mkRateBucket (f64 1) 5000000000; "10.0.0.2" := mkRateBucket (f64 0) 4000000000 ]}
    1000000000.

Lemma Allow_table_bound_witness :
  table_ok (Allow full_limiter "10.0.0.9" 6000000000 ["10.0.0.1"; "10.0.0.2"]).2.
Proof.
  apply (Allow_table_bound full_limiter "10.0.0.9" 6000000000 ["10.0.0.1"; "10.0.0.2"]).
  split; vm_compute; congruence.
Defined.

Lemma full_order : range_order (visitors full_limiter) (map_to_list (visitors full_limiter)).*1.
Proof. unfold range_order. reflexivity. Defined.

Lemma Allow_new_client_witness :
  exists k b, visitors full_limiter !! k = Some b /\
    (forall k' b', visitors full_limiter !! k' = Some b' -> last b <= last b') /\
    Allow full_limiter "10.0.0.9" 6000000000 (map_to_list (visitors full_limiter)).*1 =
      (true, settled full_limiter 6000000000
        (<["10.0.0.9" := mkRateBucket (fsub (burst full_limiter) (f64 1)) 6000000000]>
           (delete k (visitors full_limiter)))).
Proof.
  apply (Allow_new_client full_limiter "10.0.0.9" 6000000000 (map_to_list (visitors full_limiter)).*1).
  - reflexivity.
  - reflexivity.
  - reflexivity.
  - exact full_order.
  - reflexivity.
Defined.

Lemma Allow_burst_exact_witness :
  (allow_run demo_limiter "10.0.0.9" 2000000000 [[]; []; []; []; []]).1 = [true; true; true; false; false].
Proof.
  apply (Allow_burst_exact demo_limiter 3 "10.0.0.9" 2000000000 [] [[]; []; []; []]).
  - reflexivity.
  - unfold max_burst. lia.
  - lia.
  - reflexivity.
  - reflexivity.
Defined.

(** ** Layer-7 limiter *)

Definition demo_sharded : l7ShardedLimiter := newL7ShardedLimiter 1024 1000000000.

Lemma l7_limiter_bounded_witness :
  exists l', (sharded_Allow (Some demo_sharded) "10.0.0.9|host" (f64 2) (f64 5) 2000000000).2 = Some l' /\
    limiter_ok l' /\ maxEntriesPerMap l' = 16.
Proof.
  destruct (sharded_Allow (Some demo_sharded) "10.0.0.9|host" (f64 2) (f64 5) 2000000000).2 as [l'|] eqn:E;
    [|by vm_compute in E].
  exists l'. split; [reflexivity|].
  apply (l7_limiter_bounded demo_sharded "10.0.0.9|host" (f64 2) (f64 5) 2000000000 l').
  - apply newL7ShardedLimiter_ok.
  - exact E.
Defined.

Definition crowded_shard : l7LimiterShard :=
  mkL7LimiterShard {[ "known" := mkL7TokenBucket (f64 1) 0 ]} (mkL7TokenBucket (f64 2) 5000000000) 4000000000.

Lemma l7_overflow_budget_witness :
  (shard_run 1 crowded_shard (f64 1) (f64 5) 5000000000 ["a"; "b"; "c"; "d"]).1 =
    [true; true; false; false] /\
  sh_buckets (shard_run 1 crowded_shard (f64 1) (f64 5) 5000000000 ["a"; "b"; "c"; "d"]).2 =
    sh_buckets crowded_shard.
Proof.
  apply (l7_overflow_budget 1 crowded_shard (f64 1) (f64 5) 5000000000 ["a"; "b"; "c"; "d"] 2).
  - split; vm_compute; congruence.
  - repeat constructor.
  - reflexivity.
  - unfold max_burst. lia.
Defined.

Definition demo_cfg : L7RateConfig := mkL7RateConfig 600 100 30 5 600 20.
Definition demo_routes : sensitive_routes := build_sensitive ["/wp-login.php"; "/admin"].
Definition demo_l7 : L7RateLimiter := newL7RateLimiterWithRuntime 1024 1000000000.
Definition demo_decision : (bool * string) * option L7RateLimiter :=
  evaluatePolicyWithBudget (Some demo_l7) (Some (demo_cfg, demo_routes)) "10.0.0.9" "Example.org"
    "/admin/users" "POST" 2000000000 true 0 0.

Definition demo_route : string := "|" +:+ "POST" +:+ "|" +:+ "/admin/users".

Lemma sensitive_always_charged_witness :
  exists l', demo_decision = ((true, ""), Some l') /\
    sharded_Allow (sensitiveGlobal demo_l7) (ToLower "Example.org" +:+ demo_route)
      (l7Rate (SensitiveGlobalRatePerMinute demo_cfg)) (f64 (SensitiveGlobalRateBurst demo_cfg)) 2000000000
      = (true, sensitiveGlobal l') /\
    sharded_Allow (sensitive demo_l7) (("10.0.0.9" +:+ "|" +:+ ToLower "Example.org") +:+ demo_route)
      (l7Rate (SensitiveRatePerMinute demo_cfg)) (f64 (SensitiveRateBurst demo_cfg)) 2000000000
      = (true, sensitive l').
Proof.
  destruct demo_decision as [res ol] eqn:E.
  assert (res = (true, "")) as -> by (change res with (res, ol).1; rewrite <- E; by vm_compute).
  destruct ol as [l'|]; [|assert ((snd demo_decision) = None) as H by (by rewrite E); by vm_compute in H].
  exists l'. split; [reflexivity|].
  exact (sensitive_always_charged demo_l7 demo_cfg demo_routes "10.0.0.9" "Example.org" "/admin/users"
    "POST" 2000000000 true 0 0 l' eq_refl eq_refl E).
Defined.
