(* ===== verification/L7Settings.v ===== *)
(** * The administrable Layer-7 settings

    src/control/l7_fabric_settings.go: the settings document, its validator
    with every bound, the compilation into the immutable snapshot the engine
    reads, and the projection of a committed revision onto a running process.
    Go's [int] is 64 bits wide; the products and sums the validator bounds are
    written with their wrap-around. *)

From Stdlib Require Import ZArith Lia Ascii String.
From stdpp Require Import base gmap strings list sorting.
From S2P Require Import Prelude.
From S2P Require Import GoLib.
From S2P Require Import Strconv.
From S2P Require Import Text.
From S2P Require Import L7RateLimit.

Definition l7RuleOverrideLimit : Z := 128.

Record L7RuleOverride := mkRule {
  ro_ID : string;
  ro_Enabled : bool;
  ro_Score : Z;
  ro_Confidence : Z;
  ro_AlertOnly : bool;
}.

#[export] Instance L7RuleOverride_eq_dec : EqDecision L7RuleOverride.
Proof. solve_decision. Defined.

Definition supportedL7RuleOverrides : list string :=
  ["L7.SQLI.UNION_SELECT"; "L7.SQLI.BOOLEAN_TAUTOLOGY"; "L7.SQLI.TIME_DELAY"; "L7.SQLI.STACKED_QUERY";
   "L7.XSS.SCRIPT_TAG"; "L7.XSS.EVENT_HANDLER"; "L7.XSS.ACTIVE_URI"; "L7.XSS.IFRAME_SRCDOC";
   "L7.CMD.SHELL_CHAIN"; "L7.CMD.SUBSTITUTION"; "L7.CMD.WINDOWS_CHAIN";
   "L7.PATH.TRAVERSAL"; "L7.FILE.STREAM_WRAPPER"; "L7.SSTI.TEMPLATE_EXPR";
   "L7.XXE.DECLARATION"; "L7.XXE.EXTERNAL_SYSTEM";
   "L7.DESERIALIZE.PHP"; "L7.DESERIALIZE.JAVA";
   "L7.SCANNER.PROBE"; "L7.CRLF.HEADER_SPLIT"; "L7.CODE.PHP_TAG"; "L7.JNDI.LOOKUP";
   "L7.SSRF.DANGEROUS_SCHEME"; "L7.SSRF.INTERNAL_TARGET";
   "L7.HTTP.DUPLICATE_CONTENT_LENGTH"; "L7.HTTP.INVALID_CONTENT_LENGTH"; "L7.HTTP.CL_TE_AMBIGUITY";
   "L7.HTTP.INVALID_TRANSFER_ENCODING"; "L7.HTTP.TRACE_METHOD";
   "L7.UPLOAD.INVALID_MULTIPART"; "L7.UPLOAD.PART_BUDGET"; "L7.UPLOAD.SIZE_BUDGET"; "L7.UPLOAD";
   "L7.PHP.SESSION_UPLOAD_PROGRESS";
   "L7.RATE_LIMIT.CLIENT"; "L7.RATE_LIMIT.SENSITIVE_ROUTE"; "L7.RATE_LIMIT.SENSITIVE_ROUTE_GLOBAL"; "L7.RATE_LIMIT";
   "L7.RESPONSE.SQL_ERROR"; "L7.RESPONSE.SOURCE_CODE"; "L7.RESPONSE.STACK_TRACE";
   "L7.RESPONSE.DIRECTORY_INDEX"; "L7.RESPONSE.PRIVATE_KEY"; "L7.RESPONSE.TECHNOLOGY_DISCLOSURE";
   "TLS.CLIENTHELLO.MALFORMED"; "TLS.CLIENT_IP.INVALID"; "TLS.JA3.MALICIOUS"; "TLS.JA3.STRUCTURAL_SPOOF";
   "TLS.JA3.UNKNOWN"; "TLS.SNI.MISSING"; "TLS.SNI.INVALID"; "TLS.SNI.FOREIGN";
   "TLS.SNI.REPEATED_INVALID"; "TLS.HANDSHAKE.FLOOD"; "TLS.HOST_MISMATCH"].

Definition l7RuleFamilyPrefixes : list string := ["L7.RATE_LIMIT"; "L7.UPLOAD"].

Definition l7RuleOverrideIDAllowed (id : string) : bool := bool_decide (id ∈ supportedL7RuleOverrides).
Definition isL7RuleFamily (id : string) : bool := existsb (String.eqb id) l7RuleFamilyPrefixes.

Record L7FabricSettings := mkFabric {
  f_Enabled : bool;
  f_Mode : string;
  f_Socket : string;
  f_MaxConcurrent : Z;
  f_RequestTimeoutMillis : Z;
  f_MaxEnvelopeBytes : Z;
  f_MaxBodyBytes : Z;
  f_MaxUploadBytes : Z;
  f_MaxURIBytes : Z;
  f_MaxHeaderBytes : Z;
  f_MaxHeaders : Z;
  f_MaxValueBytes : Z;
  f_MaxInspectionBytes : Z;
  f_MaxDecodedValues : Z;
  f_MaxDecodeDepth : Z;
  f_MaxJSONDepth : Z;
  f_MaxFormFields : Z;
  f_MaxMultipartParts : Z;
  f_AlertScore : Z;
  f_BlockScore : Z;
  f_EnforceRules : list string;
  f_ClientRatePerMinute : Z;
  f_ClientRateBurst : Z;
  f_SensitiveRatePerMinute : Z;
  f_SensitiveRateBurst : Z;
  f_SensitiveGlobalRatePerMinute : Z;
  f_SensitiveGlobalRateBurst : Z;
  f_MaxTrackedClients : Z;
  f_SensitivePaths : list string;
  f_RequirePeerCredentials : bool;
  f_AllowedPeerUIDs : list Z;
  f_AllowedPeerGIDs : list Z;
  f_SocketGroup : string;
  f_InlineEnabled : bool;
  f_InlineSocket : string;
  f_InlineUpstream : string;
  f_InlineMaxResponseBytes : Z;
  f_TLSEnabled : bool;
  f_TLSAllowedDomains : list string;
  f_TLSFloodThreshold : Z;
  f_TLSSNIStrikeThreshold : Z;
  f_TLSAntiSpoof : bool;
  f_TLSMaxClientHelloBytes : Z;
  f_TLSJA3File : string;
  f_TLSJA3Reload : bool;
  f_TLSUnknownFingerprint : string;
  f_TLSUnknownFingerprintScore : Z;
  f_Rules : list L7RuleOverride;
}.

Record L7Config := mkConfig {
  c_Enabled : bool;
  c_Mode : string;
  c_CoverageRequired : string;
  c_Socket : string;
  c_SocketGroup : string;
  c_RequestTimeoutMillis : Z;
  c_MaxConcurrent : Z;
  c_MaxEnvelopeBytes : Z;
  c_MaxBodyBytes : Z;
  c_MaxURIBytes : Z;
  c_MaxHeaderBytes : Z;
  c_MaxHeaders : Z;
  c_MaxValueBytes : Z;
  c_MaxInspectionBytes : Z;
  c_MaxDecodedValues : Z;
  c_MaxDecodeDepth : Z;
  c_MaxJSONDepth : Z;
  c_MaxFormFields : Z;
  c_MaxMultipartParts : Z;
  c_MaxUploadBytes : Z;
  c_AlertScore : Z;
  c_BlockScore : Z;
  c_EnforceRules : list string;
  c_ClientRatePerMinute : Z;
  c_ClientRateBurst : Z;
  c_SensitiveRatePerMinute : Z;
  c_SensitiveRateBurst : Z;
  c_SensitiveGlobalRatePerMinute : Z;
  c_SensitiveGlobalRateBurst : Z;
  c_MaxTrackedClients : Z;
  c_SensitivePaths : list string;
  c_RequirePeerCredentials : bool;
  c_AllowedPeerUIDs : list Z;
  c_AllowedPeerGIDs : list Z;
  c_InlineEnabled : bool;
  c_InlineSocket : string;
  c_InlineUpstream : string;
  c_InlineMaxResponseBytes : Z;
  c_TLSEnabled : bool;
  c_TLSAllowedDomains : list string;
  c_TLSFloodThreshold : Z;
  c_TLSSNIStrikeThreshold : Z;
  c_TLSAntiSpoof : bool;
  c_TLSMaxClientHelloBytes : Z;
  c_TLSJA3File : string;
}.

(** ** Compilation to the runtime configuration *)

(** [toConfig] leaves the coverage requirement of the result empty. *)
Definition toConfig (f : L7FabricSettings) : L7Config :=
  mkConfig
    (f_Enabled f) (f_Mode f) "" (f_Socket f) (f_SocketGroup f) (f_RequestTimeoutMillis f) (f_MaxConcurrent f)
    (f_MaxEnvelopeBytes f) (f_MaxBodyBytes f) (f_MaxURIBytes f) (f_MaxHeaderBytes f) (f_MaxHeaders f)
    (f_MaxValueBytes f) (f_MaxInspectionBytes f) (f_MaxDecodedValues f) (f_MaxDecodeDepth f)
    (f_MaxJSONDepth f) (f_MaxFormFields f) (f_MaxMultipartParts f) (f_MaxUploadBytes f) (f_AlertScore f)
    (f_BlockScore f) (f_EnforceRules f) (f_ClientRatePerMinute f) (f_ClientRateBurst f)
    (f_SensitiveRatePerMinute f) (f_SensitiveRateBurst f) (f_SensitiveGlobalRatePerMinute f)
    (f_SensitiveGlobalRateBurst f) (f_MaxTrackedClients f) (f_SensitivePaths f) (f_RequirePeerCredentials f)
    (f_AllowedPeerUIDs f) (f_AllowedPeerGIDs f) (f_InlineEnabled f) (f_InlineSocket f) (f_InlineUpstream f)
    (f_InlineMaxResponseBytes f) (f_TLSEnabled f) (f_TLSAllowedDomains f) (f_TLSFloodThreshold f)
    (f_TLSSNIStrikeThreshold f) (f_TLSAntiSpoof f) (f_TLSMaxClientHelloBytes f) (f_TLSJA3File f).

Definition defaultL7FabricSettings (cfg : L7Config) : L7FabricSettings :=
  mkFabric
    (c_Enabled cfg) (c_Mode cfg) (c_Socket cfg) (c_MaxConcurrent cfg) (c_RequestTimeoutMillis cfg)
    (c_MaxEnvelopeBytes cfg) (c_MaxBodyBytes cfg) (c_MaxUploadBytes cfg) (c_MaxURIBytes cfg)
    (c_MaxHeaderBytes cfg) (c_MaxHeaders cfg) (c_MaxValueBytes cfg) (c_MaxInspectionBytes cfg)
    (c_MaxDecodedValues cfg) (c_MaxDecodeDepth cfg) (c_MaxJSONDepth cfg) (c_MaxFormFields cfg)
    (c_MaxMultipartParts cfg) (c_AlertScore cfg) (c_BlockScore cfg) (c_EnforceRules cfg)
    (c_ClientRatePerMinute cfg) (c_ClientRateBurst cfg) (c_SensitiveRatePerMinute cfg)
    (c_SensitiveRateBurst cfg) (c_SensitiveGlobalRatePerMinute cfg) (c_SensitiveGlobalRateBurst cfg)
    (c_MaxTrackedClients cfg) (c_SensitivePaths cfg) (c_RequirePeerCredentials cfg) (c_AllowedPeerUIDs cfg)
    (c_AllowedPeerGIDs cfg) (c_SocketGroup cfg) (c_InlineEnabled cfg) (c_InlineSocket cfg)
    (c_InlineUpstream cfg) (c_InlineMaxResponseBytes cfg) (c_TLSEnabled cfg) (c_TLSAllowedDomains cfg)
    (c_TLSFloodThreshold cfg) (c_TLSSNIStrikeThreshold cfg) (c_TLSAntiSpoof cfg)
    (c_TLSMaxClientHelloBytes cfg) (c_TLSJA3File cfg) false "allow" 35 [].

(** ** Updates *)

Definition set_lists (paths : list string) (uids gids : list Z) (domains : list string)
    (rules : list L7RuleOverride) (enforce : list string) (s : L7FabricSettings) : L7FabricSettings :=
  mkFabric
    (f_Enabled s) (f_Mode s) (f_Socket s) (f_MaxConcurrent s) (f_RequestTimeoutMillis s)
    (f_MaxEnvelopeBytes s) (f_MaxBodyBytes s) (f_MaxUploadBytes s) (f_MaxURIBytes s) (f_MaxHeaderBytes s)
    (f_MaxHeaders s) (f_MaxValueBytes s) (f_MaxInspectionBytes s) (f_MaxDecodedValues s) (f_MaxDecodeDepth s)
    (f_MaxJSONDepth s) (f_MaxFormFields s) (f_MaxMultipartParts s) (f_AlertScore s) (f_BlockScore s) enforce
    (f_ClientRatePerMinute s) (f_ClientRateBurst s) (f_SensitiveRatePerMinute s) (f_SensitiveRateBurst s)
    (f_SensitiveGlobalRatePerMinute s) (f_SensitiveGlobalRateBurst s) (f_MaxTrackedClients s) paths
    (f_RequirePeerCredentials s) uids gids (f_SocketGroup s) (f_InlineEnabled s) (f_InlineSocket s)
    (f_InlineUpstream s) (f_InlineMaxResponseBytes s) (f_TLSEnabled s) domains (f_TLSFloodThreshold s)
    (f_TLSSNIStrikeThreshold s) (f_TLSAntiSpoof s) (f_TLSMaxClientHelloBytes s) (f_TLSJA3File s) false
    (f_TLSUnknownFingerprint s) (f_TLSUnknownFingerprintScore s) rules.

(** The restart-class keys of [active], everything else of [desired]. *)
Definition keep_restart_class (active desired : L7FabricSettings) : L7FabricSettings :=
  mkFabric
    (f_Enabled active) (f_Mode desired) (f_Socket active) (f_MaxConcurrent active)
    (f_RequestTimeoutMillis active) (f_MaxEnvelopeBytes desired) (f_MaxBodyBytes desired)
    (f_MaxUploadBytes desired) (f_MaxURIBytes desired) (f_MaxHeaderBytes desired) (f_MaxHeaders desired)
    (f_MaxValueBytes desired) (f_MaxInspectionBytes desired) (f_MaxDecodedValues desired)
    (f_MaxDecodeDepth desired) (f_MaxJSONDepth desired) (f_MaxFormFields desired)
    (f_MaxMultipartParts desired) (f_AlertScore desired) (f_BlockScore desired) (f_EnforceRules desired)
    (f_ClientRatePerMinute desired) (f_ClientRateBurst desired) (f_SensitiveRatePerMinute desired)
    (f_SensitiveRateBurst desired) (f_SensitiveGlobalRatePerMinute desired)
    (f_SensitiveGlobalRateBurst desired) (f_MaxTrackedClients active) (f_SensitivePaths desired)
    (f_RequirePeerCredentials active) (f_AllowedPeerUIDs active) (f_AllowedPeerGIDs active)
    (f_SocketGroup active) (f_InlineEnabled active) (f_InlineSocket active) (f_InlineUpstream active)
    (f_InlineMaxResponseBytes desired) (f_TLSEnabled active) (f_TLSAllowedDomains desired)
    (f_TLSFloodThreshold desired) (f_TLSSNIStrikeThreshold desired) (f_TLSAntiSpoof desired)
    (f_TLSMaxClientHelloBytes desired) (f_TLSJA3File desired) (f_TLSJA3Reload desired)
    (f_TLSUnknownFingerprint desired) (f_TLSUnknownFingerprintScore desired) (f_Rules desired).

Definition withSocketPaths (previous f : L7FabricSettings) : L7FabricSettings :=
  let socket := if bool_decide (TrimSpace (f_Socket f) = "") then f_Socket previous else f_Socket f in
  let inline := if bool_decide (TrimSpace (f_InlineSocket f) = "") then f_InlineSocket previous
                else f_InlineSocket f in
  mkFabric
    (f_Enabled f) (f_Mode f) socket (f_MaxConcurrent f) (f_RequestTimeoutMillis f) (f_MaxEnvelopeBytes f)
    (f_MaxBodyBytes f) (f_MaxUploadBytes f) (f_MaxURIBytes f) (f_MaxHeaderBytes f) (f_MaxHeaders f)
    (f_MaxValueBytes f) (f_MaxInspectionBytes f) (f_MaxDecodedValues f) (f_MaxDecodeDepth f)
    (f_MaxJSONDepth f) (f_MaxFormFields f) (f_MaxMultipartParts f) (f_AlertScore f) (f_BlockScore f)
    (f_EnforceRules f) (f_ClientRatePerMinute f) (f_ClientRateBurst f) (f_SensitiveRatePerMinute f)
    (f_SensitiveRateBurst f) (f_SensitiveGlobalRatePerMinute f) (f_SensitiveGlobalRateBurst f)
    (f_MaxTrackedClients f) (f_SensitivePaths f) (f_RequirePeerCredentials f) (f_AllowedPeerUIDs f)
    (f_AllowedPeerGIDs f) (f_SocketGroup f) (f_InlineEnabled f) inline (f_InlineUpstream f)
    (f_InlineMaxResponseBytes f) (f_TLSEnabled f) (f_TLSAllowedDomains f) (f_TLSFloodThreshold f)
    (f_TLSSNIStrikeThreshold f) (f_TLSAntiSpoof f) (f_TLSMaxClientHelloBytes f) (f_TLSJA3File f)
    (f_TLSJA3Reload f) (f_TLSUnknownFingerprint f) (f_TLSUnknownFingerprintScore f) (f_Rules f).

Definition l7RestartClassChanged (previous next : L7FabricSettings) : bool :=
  negb (Bool.eqb (f_Enabled previous) (f_Enabled next)) ||
  negb (f_MaxConcurrent previous =? f_MaxConcurrent next) ||
  negb (f_RequestTimeoutMillis previous =? f_RequestTimeoutMillis next) ||
  negb (bool_decide (f_Socket previous = f_Socket next)) ||
  negb (f_MaxTrackedClients previous =? f_MaxTrackedClients next) ||
  negb (Bool.eqb (f_RequirePeerCredentials previous) (f_RequirePeerCredentials next)) ||
  negb (bool_decide (f_SocketGroup previous = f_SocketGroup next)) ||
  negb (Bool.eqb (f_InlineEnabled previous) (f_InlineEnabled next)) ||
  negb (bool_decide (f_InlineSocket previous = f_InlineSocket next)) ||
  negb (bool_decide (f_InlineUpstream previous = f_InlineUpstream next)) ||
  negb (Bool.eqb (f_TLSEnabled previous) (f_TLSEnabled next)) ||
  negb (bool_decide (f_AllowedPeerUIDs previous = f_AllowedPeerUIDs next)) ||
  negb (bool_decide (f_AllowedPeerGIDs previous = f_AllowedPeerGIDs next)).

Definition l7RuleWiringChanged (previous next : L7FabricSettings) : bool :=
  negb (bool_decide (f_Rules previous = f_Rules next)).

(** ** Validation helpers *)

(** The first guard that holds, as its error. *)
Fixpoint first_error (guards : list (bool * string)) : error :=
  match guards with
  | [] => None
  | (b, msg) :: rest => if b then errors_New msg else first_error rest
  end.

(** [strings.ContainsAny] for a set of bytes, [strings.Contains]. *)
Definition ContainsAny (s chars : string) : bool :=
  existsb (fun c => existsb (Ascii.eqb c) (bytes_of chars)) (bytes_of s).
Fixpoint Contains (s sub : string) : bool :=
  HasPrefix s sub || match s with EmptyString => false | String _ s' => Contains s' sub end.

(** A loop that collects the distinct results of [f] in order; [f] refuses a
    value, skips it or normalizes it. *)
Fixpoint collect (f : string -> goerror + option string) (values seen : list string)
    : goerror + list string :=
  match values with
  | [] => inr seen
  | raw :: rest =>
      match f raw with
      | inl e => inl e
      | inr None => collect f rest seen
      | inr (Some v) => if bool_decide (v ∈ seen) then collect f rest seen else collect f rest (seen ++ [v])
      end
  end.

Definition collect_sorted (f : string -> goerror + option string) (values : list string)
    : goerror + list string := ok_map sort_Strings (collect f values []).

(** Text of the control characters the validators refuse. *)
Definition nul : string := String "000" EmptyString.
Definition blanks : string := String "032" (String "009" (String "013" (String "010" EmptyString))).

Definition sensitive_path (maxURI : Z) (raw : string) : goerror + option string :=
  let path := TrimSpace raw in
  if bool_decide (path = "") || negb (HasPrefix path "/") || ContainsAny path ("?#" +:+ nul) || (maxURI <? slen path)
  then inl (ErrText "l7 sensitive path must be an absolute request path")
  else inr (Some path).

Definition dedup_step (l : list Z) (v : Z) : list Z :=
  match last l with Some p => if v =? p then l else l ++ [v] | None => [v] end.
Definition normalizeUIDList (values : list Z) : list Z :=
  fold_left dedup_step (merge_sort Z.le values) [].

Definition isSafeUnixIdentityName (value : string) : bool :=
  (1 <=? slen value) && (slen value <=? 32) &&
  match bytes_of value with
  | [] => false
  | c :: l =>
      in_range "a" "z" c &&
      forallb (fun b => in_range "a" "z" b || in_range "0" "9" b || Ascii.eqb b "_" || Ascii.eqb b "-") l
  end.

Definition validateAbsoluteCleanPath (label path : string) : error :=
  first_error
    [(negb (HasPrefix path "/") || Contains path "//" || ContainsAny path (nul +:+ String "013" newline),
      label +:+ " must be a clean absolute path");
     (negb (bool_decide (path = "/")) && HasSuffix path "/", label +:+ " must be a clean absolute path");
     (existsb (fun c => bool_decide (c = ".") || bool_decide (c = "..")) (Split path "/"),
      label +:+ " must not contain relative components");
     (512 <? slen path, label +:+ " exceeds 512 bytes")].

(** [strings.TrimSuffix(s, ".")] *)
Definition trim_dot (s : string) : string :=
  match rev (bytes_of s) with
  | c :: l => if Ascii.eqb c "." then of_bytes (rev l) else s
  | [] => s
  end.

Definition hostname_byte (c : ascii) : bool :=
  in_range "a" "z" c || in_range "0" "9" c || Ascii.eqb c "-" || Ascii.eqb c "_".

Section Validate.
Context `{U : Unicode}.

(** The loop over the labels: an empty or long label, then its characters. *)
Fixpoint check_labels (labels : list string) : error :=
  match labels with
  | [] => None
  | label :: rest =>
      if bool_decide (label = "") || (63 <? slen label) then errors_New "l7 TLS allowed domain is invalid"
      else if negb (forallb hostname_byte (bytes_of label))
      then errors_New "l7 TLS allowed domain contains an invalid character"
      else check_labels rest
  end.

Definition normalizeAllowedTLSHostname (raw : string) : goerror + string :=
  let domain := trim_dot (ToLower (TrimSpace raw)) in
  if bool_decide (domain = "") || (253 <? slen domain) then inl (ErrText "l7 TLS allowed domain is invalid")
  else if ContainsAny domain ("*/" +:+ nul +:+ blanks)
  then inl (ErrText "l7 TLS allowed domain must be an exact hostname")
  else match check_labels (Split domain ".") with
  | Some e => inl e
  | None => inr domain
  end.

Definition enforce_rule (raw : string) : goerror + option string :=
  let id := ToUpper (TrimSpace raw) in
  if bool_decide (id = "") then inr None
  else if negb (l7RuleOverrideIDAllowed id) && negb (isL7RuleFamily id)
  then inl (ErrText "l7 enforce rule is not a supported built-in rule or family")
  else inr (Some id).

(** The loop over the rule overrides: ids are normalized in place, duplicates
    refused. *)
Fixpoint check_rules (rules seen : list L7RuleOverride) : goerror + list L7RuleOverride :=
  match rules with
  | [] => inr seen
  | r :: rest =>
      let id := ToUpper (TrimSpace (ro_ID r)) in
      let r := mkRule id (ro_Enabled r) (ro_Score r) (ro_Confidence r) (ro_AlertOnly r) in
      if negb (l7RuleOverrideIDAllowed id) then inl (ErrText "l7 rule override is not a supported built-in rule")
      else if bool_decide (id ∈ map ro_ID seen) then inl (ErrText "duplicate l7 rule override")
      else if (ro_Score r <? 1) || (250 <? ro_Score r)
      then inl (ErrText "l7 rule override score must be between 1 and 250")
      else if (ro_Confidence r <? 1) || (100 <? ro_Confidence r)
      then inl (ErrText "l7 rule override confidence must be between 1 and 100")
      else check_rules rest (seen ++ [r])
  end.

Definition rule_le (a b : L7RuleOverride) : Prop := String.le (ro_ID a) (ro_ID b).
#[export] Instance rule_le_dec : RelDecision rule_le.
Proof. intros a b. unfold rule_le. apply _. Defined.

Definition validate_rules (rules : list L7RuleOverride) : goerror + list L7RuleOverride :=
  if l7RuleOverrideLimit <? Z.of_nat (length rules) then inl (ErrText "l7 rule override limit of 128 exceeded")
  else ok_map (merge_sort rule_le) (check_rules rules []).

(** ** The bounds *)

Definition MiB : Z := 1048576.

Definition requiredInspection (s : L7FabricSettings) : Z :=
  i64 (i64 (f_MaxBodyBytes s + f_MaxHeaderBytes s) + i64 (2 * f_MaxURIBytes s) + 65536).
Definition requiredEnvelope (s : L7FabricSettings) : Z :=
  i64 (Z.quot (f_MaxBodyBytes s + 2) 3 * 4 + f_MaxHeaderBytes s + 65536).

(** The guards before the sensitive paths. *)
Definition check_bounds (s : L7FabricSettings) : error :=
  first_error
    [(negb (bool_decide (f_Mode s = "observe")) && negb (bool_decide (f_Mode s = "block")),
      "l7 mode must be observe or block");
     ((f_MaxConcurrent s <? 1) || (1024 <? f_MaxConcurrent s),
      "l7 max concurrent inspections must be between 1 and 1024");
     ((f_RequestTimeoutMillis s <? 50) || (10000 <? f_RequestTimeoutMillis s),
      "l7 request timeout must be between 50 and 10000 milliseconds");
     ((f_MaxBodyBytes s <? 0) || (f_MaxUploadBytes s <? 0) || (f_MaxBodyBytes s <? f_MaxUploadBytes s),
      "l7 upload bound must not exceed the body bound");
     ((16 * MiB <? f_MaxBodyBytes s) || (f_MaxEnvelopeBytes s <? 4096) || (32 * MiB <? f_MaxEnvelopeBytes s),
      "l7 body and envelope bounds are outside safe limits");
     (f_MaxInspectionBytes s <? requiredInspection s,
      "l7 inspection budget must cover body, header and URI budgets");
     (f_MaxEnvelopeBytes s <? requiredEnvelope s,
      "l7 envelope bound must cover the base64 body, header and URI budgets");
     ((f_MaxURIBytes s <? 256) || (f_MaxHeaderBytes s <? 1024) || (f_MaxHeaders s <? 8) ||
      (f_MaxValueBytes s <? 256) || (f_MaxDecodedValues s <? 16) || (f_MaxFormFields s <? 1),
      "l7 request bounds are below the safe minimum");
     ((f_MaxDecodeDepth s <? 1) || (16 <? f_MaxDecodeDepth s) || (f_MaxJSONDepth s <? 1) || (256 <? f_MaxJSONDepth s),
      "l7 decode budgets are outside safe bounds");
     ((f_MaxMultipartParts s <? 1) || (4096 <? f_MaxMultipartParts s),
      "l7 multipart part budget is outside safe bounds");
     ((f_AlertScore s <? 1) || (250 <? f_BlockScore s) || (f_BlockScore s <=? f_AlertScore s),
      "l7 scores must satisfy 1 <= alert < block <= 250");
     ((f_ClientRatePerMinute s <? 1) || (f_ClientRateBurst s <? 1) ||
      (f_SensitiveRatePerMinute s <? 1) || (f_SensitiveRateBurst s <? 1) ||
      (f_SensitiveGlobalRatePerMinute s <? 1) || (f_SensitiveGlobalRateBurst s <? 1),
      "l7 rate limits must be positive");
     ((f_MaxTrackedClients s <? 64) || (1000000 <? f_MaxTrackedClients s),
      "l7 tracked client bound must be between 64 and 1000000");
     ((f_InlineMaxResponseBytes s <? 0) || (16 * MiB <? f_InlineMaxResponseBytes s),
      "l7 inline response bound is outside safe limits");
     (512 <? Z.of_nat (length (f_SensitivePaths s)), "l7 sensitive path list exceeds 512 entries")].

Definition perInspection (s : L7FabricSettings) : Z :=
  i64 (f_MaxEnvelopeBytes s + f_MaxBodyBytes s + f_MaxInspectionBytes s + f_InlineMaxResponseBytes s).

(** The guards from the peer credentials to the memory budgets. *)
Definition peer_guards (s : L7FabricSettings) : error :=
  first_error
    [(f_RequirePeerCredentials s && (f_Enabled s || f_InlineEnabled s) &&
      bool_decide (f_AllowedPeerUIDs s = []) && bool_decide (f_AllowedPeerGIDs s = []) &&
      bool_decide (TrimSpace (f_SocketGroup s) = ""),
      "l7 peer credentials require an allowed UID/GID list or a socket_group whose primary GID is attested via SO_PEERCRED");
     ((128 <? Z.of_nat (length (f_AllowedPeerUIDs s))) || (128 <? Z.of_nat (length (f_AllowedPeerGIDs s))),
      "l7 peer identity lists exceed 128 entries");
     (negb (bool_decide (f_SocketGroup s = "")) && negb (isSafeUnixIdentityName (f_SocketGroup s)),
      "l7 socket group name is invalid");
     (f_InlineEnabled s && negb (f_Enabled s), "l7 inline edge requires the Application Defense engine");
     (f_InlineEnabled s && bool_decide (f_InlineSocket s = f_Socket s),
      "l7 inline socket must differ from the inspection socket")].

Definition check_peers (validateL7InlineUpstream : string -> error) (s : L7FabricSettings) : error :=
  match peer_guards s with
  | Some e => Some e
  | None => if f_InlineEnabled s then validateL7InlineUpstream (f_InlineUpstream s) else None
  end.

Definition check_budgets (s : L7FabricSettings) : error :=
  first_error
    [(256 * MiB <? i64 (f_MaxEnvelopeBytes s * f_MaxConcurrent s),
      "l7 envelope budget times concurrency exceeds 256 MiB");
     (256 * MiB <? i64 (f_MaxInspectionBytes s * f_MaxConcurrent s),
      "l7 inspection budget times concurrency exceeds 256 MiB");
     (384 * MiB <? i64 (perInspection s * f_MaxConcurrent s),
      "l7 aggregate inspection memory budget exceeds 384 MiB");
     (f_TLSEnabled s && ((f_TLSFloodThreshold s <? 2) || (100000 <? f_TLSFloodThreshold s)),
      "l7 TLS flood threshold is outside safe bounds");
     (f_TLSEnabled s && ((f_TLSSNIStrikeThreshold s <? 2) || (1000 <? f_TLSSNIStrikeThreshold s)),
      "l7 SNI strike threshold is outside safe bounds");
     (f_TLSEnabled s && ((f_TLSMaxClientHelloBytes s <? 1024) || (MiB <? f_TLSMaxClientHelloBytes s)),
      "l7 ClientHello bound must be between 1024 and 1048576 bytes");
     (negb (bool_decide (f_TLSUnknownFingerprint s = "allow")) && negb (bool_decide (f_TLSUnknownFingerprint s = "alert")),
      "l7 unknown fingerprint behaviour must be allow or alert");
     ((f_TLSUnknownFingerprintScore s <? 1) || (250 <? f_TLSUnknownFingerprintScore s),
      "l7 unknown fingerprint score must be between 1 and 250");
     (4096 <? Z.of_nat (length (f_TLSAllowedDomains s)), "l7 TLS allowed domain list exceeds 4096 entries")].

Definition check_ja3_file (s : L7FabricSettings) : error :=
  if bool_decide (f_TLSJA3File s = "") then None
  else validateAbsoluteCleanPath "l7 JA3 fingerprint file" (f_TLSJA3File s).

Definition validate_enforce (rules : list string) : goerror + list string :=
  if l7RuleOverrideLimit <? Z.of_nat (length rules) then inl (ErrText "l7 enforce rule limit of 128 exceeded")
  else collect_sorted enforce_rule rules.

(** [validateL7FabricSettings]: the normalized settings. The check of the inline
    upstream URL is a parameter. *)
Definition validateL7FabricSettings (validateL7InlineUpstream : string -> error) (s : L7FabricSettings)
    : goerror + L7FabricSettings :=
  match check_bounds s with
  | Some e => inl e
  | None =>
  match collect_sorted (sensitive_path (f_MaxURIBytes s)) (f_SensitivePaths s) with
  | inl e => inl e
  | inr paths =>
  match check_peers validateL7InlineUpstream s with
  | Some e => inl e
  | None =>
  match check_budgets s with
  | Some e => inl e
  | None =>
  match collect_sorted (fun raw => ok_map Some (normalizeAllowedTLSHostname raw)) (f_TLSAllowedDomains s) with
  | inl e => inl e
  | inr domains =>
  match check_ja3_file s with
  | Some e => inl e
  | None =>
  match validate_rules (f_Rules s) with
  | inl e => inl e
  | inr rules =>
  match validate_enforce (f_EnforceRules s) with
  | inl e => inl e
  | inr enforce =>
      inr (set_lists paths (normalizeUIDList (f_AllowedPeerUIDs s)) (normalizeUIDList (f_AllowedPeerGIDs s))
             domains rules enforce s)
  end end end end end end end end.
End Validate.

(** ** The runtime snapshot *)

Record l7RuntimeSnapshot := mkSnapshot {
  sn_cfg : L7Config;
  sn_revision : Z;
  sn_active : L7FabricSettings;
  sn_routes : sensitive_routes;
  sn_unknownFingerprint : string;
  sn_unknownFingerprintScore : Z;
  sn_ruleExact : gmap string L7RuleOverride;
  sn_ruleFamilies : list string;
  sn_ruleByFamily : gmap string L7RuleOverride;
  sn_enforceExact : gset string;
  sn_enforceFamilies : list string;
}.

Definition longer (a b : string) : Prop := slen b <= slen a.
#[export] Instance longer_dec : RelDecision longer.
Proof. intros a b. unfold longer. apply _. Defined.

(** The loop over the overrides: exact rules, families and their overrides. *)
Fixpoint place_rules (rules : list L7RuleOverride) (exact_ : gmap string L7RuleOverride)
    (families : list string) (byFamily : gmap string L7RuleOverride)
    : gmap string L7RuleOverride * list string * gmap string L7RuleOverride :=
  match rules with
  | [] => (exact_, families, byFamily)
  | r :: rest =>
      if isL7RuleFamily (ro_ID r)
      then place_rules rest exact_ (families ++ [ro_ID r]) (<[ro_ID r := r]> byFamily)
      else place_rules rest (<[ro_ID r := r]> exact_) families byFamily
  end.

Definition buildL7RuntimeSnapshot (settings : L7FabricSettings) (revision : Z) : l7RuntimeSnapshot :=
  let '(exact_, families, byFamily) := place_rules (f_Rules settings) ∅ [] ∅ in
  mkSnapshot (toConfig settings) revision settings (build_sensitive (f_SensitivePaths settings))
    (f_TLSUnknownFingerprint settings) (f_TLSUnknownFingerprintScore settings)
    exact_ (merge_sort longer families) byFamily
    (list_to_set (filter (fun id => isL7RuleFamily id = false) (f_EnforceRules settings)))
    (merge_sort longer (filter (fun id => isL7RuleFamily id = true) (f_EnforceRules settings))).

Definition validateL7EngineConfig (cfg : L7Config) : error :=
  first_error
    [((c_MaxConcurrent cfg <? 1) || (c_MaxBodyBytes cfg <? 0) || (c_MaxInspectionBytes cfg <? c_MaxBodyBytes cfg) ||
      (c_MaxDecodedValues cfg <? 1), "l7 request validation failed: invalid engine resource bounds");
     ((c_AlertScore cfg <? 1) || (c_BlockScore cfg <=? c_AlertScore cfg) || (250 <? c_BlockScore cfg),
      "l7 request validation failed: invalid engine score thresholds");
     ((c_ClientRatePerMinute cfg <? 1) || (c_ClientRateBurst cfg <? 1) || (c_SensitiveRatePerMinute cfg <? 1) ||
      (c_SensitiveRateBurst cfg <? 1) || (c_SensitiveGlobalRatePerMinute cfg <? 1) ||
      (c_SensitiveGlobalRateBurst cfg <? 1), "l7 request validation failed: invalid engine rate limits");
     (c_MaxTrackedClients cfg <? 1, "l7 request validation failed: invalid engine tracking bound")].

(** ** Projection onto a running engine

    [live] is the published snapshot; the TLS sensor is an object of its own
    with two operations. *)
Record tls_ops (T : Type) := mkTLSOps {
  LoadFingerprintFile : string -> T -> error * T;
  UpdatePolicy : list string -> Z -> Z -> bool -> T -> T;
}.
Arguments LoadFingerprintFile {T} t.
Arguments UpdatePolicy {T} t.

Record l7FabricApplyResult := mkApplyResult { RestartRequired : bool; Ja3Reloaded : bool }.

Record l7_process (T : Type) := mkProcess { p_live : l7RuntimeSnapshot; p_tls : option T }.
Arguments mkProcess {T} p_live p_tls.
Arguments p_live {T} l.
Arguments p_tls {T} l.

(** The fingerprint file is reloaded when asked for. *)
Definition reload_ja3 {T} (ops : tls_ops T) (cfg : L7Config) (reload : bool) (tls : option T)
    : error * bool * option T :=
  if c_TLSEnabled cfg && reload && negb (bool_decide (c_TLSJA3File cfg = ""))
  then match tls with
    | None => (errors_New "reload l7 TLS fingerprint set: TLS sensor is not active in this process", false, tls)
    | Some t =>
        match LoadFingerprintFile ops (c_TLSJA3File cfg) t with
        | (Some err, t) => (Some (ErrWrap "reload l7 TLS fingerprint set" err), false, Some t)
        | (None, t) => (None, true, Some t)
        end
    end
  else (None, false, tls).

Definition applyL7FabricSettings {T} (ops : tls_ops T) (settings : L7FabricSettings) (revision : Z)
    (p : l7_process T) : error * l7FabricApplyResult * l7_process T :=
  let active := sn_active (p_live p) in
  let restart := l7RestartClassChanged active settings in
  let desired := if restart then keep_restart_class active settings else settings in
  match validateL7EngineConfig (toConfig desired) with
  | Some err => (Some err, mkApplyResult restart false, p)
  | None =>
      let snapshot := buildL7RuntimeSnapshot desired revision in
      let cfg := sn_cfg snapshot in
      match reload_ja3 ops cfg (f_TLSJA3Reload desired) (p_tls p) with
      | (Some err, _, tls) => (Some err, mkApplyResult restart false, mkProcess (p_live p) tls)
      | (None, reloaded, tls) =>
          (None, mkApplyResult restart reloaded,
           mkProcess snapshot
             ((fun t => UpdatePolicy ops (c_TLSAllowedDomains cfg) (c_TLSFloodThreshold cfg)
                          (c_TLSSNIStrikeThreshold cfg) (c_TLSAntiSpoof cfg) t) <$> tls))
      end
  end.

Record l7MemoryBudget := mkMemoryBudget { PerInspectionBytes : Z; AggregateBytes : Z; LimitBytes : Z }.

Definition computeL7MemoryBudget (s : L7FabricSettings) : l7MemoryBudget :=
  mkMemoryBudget (perInspection s) (i64 (perInspection s * f_MaxConcurrent s)) (384 * MiB).
