(* ===== verification/L7SettingsFacts.v ===== *)
(** * Theorems about the Layer-7 settings

    Validation is canonical and bounds the inspection memory as far as its
    machine arithmetic reaches; restart-class keys never change in a running
    process. *)

From Stdlib Require Import ZArith Lia Ascii String.
From stdpp Require Import base gmap strings list sorting relations.
From S2P Require Import Prelude.
From S2P Require Import GoLib.
From S2P Require Import Strconv.
From S2P Require Import Text.
From S2P Require Import L7RateLimit.
From S2P Require Import L7Settings.

(** ** Guards *)

Lemma first_error_none guards : first_error guards = None <-> Forall (fun g => g.1 = false) guards.
Proof.
  induction guards as [|[b msg] rest IH]; cbn; [by split|]. rewrite Forall_cons. cbn.
  destruct b; [split; [done|by intros [? _]]|]. rewrite IH. tauto.
Qed.

(** Turns a passed list of guards into facts. *)
Ltac passed H :=
  apply first_error_none in H;
  repeat (let G := fresh "G" in apply Forall_cons in H as [G H]; cbn [fst] in G).

(** ** Collecting loops *)

Section Collect.
Context (f : string -> goerror + option string).
Hypothesis f_idem : forall raw v, f raw = inr (Some v) -> f v = inr (Some v).
Definition kept (v : string) : Prop := f v = inr (Some v).

Lemma collect_kept values seen rs :
  collect f values seen = inr rs -> Forall kept seen -> NoDup seen ->
  Forall kept rs /\ NoDup rs /\ (length rs <= length seen + length values)%nat.
Proof.
  revert seen. induction values as [|raw rest IH]; intros seen HC HF HD; cbn in HC.
  { simplify_eq. split_and!; [done|done|cbn; lia]. }
  destruct (f raw) as [|[v|]] eqn:Hf; [done| |].
  - destruct (bool_decide_reflect (v ∈ seen)).
    + apply IH in HC as (? & ? & ?); [|done..]. split_and!; [done|done|cbn; lia].
    + apply IH in HC as (? & ? & Hl).
      * rewrite length_app in Hl. cbn in *. split_and!; [done|done|lia].
      * apply Forall_app. split; [done|]. constructor; [by eapply f_idem|done].
      * apply NoDup_app. split_and!; [done| |apply NoDup_singleton].
        by intros x Hx ->%list_elem_of_singleton.
  - apply IH in HC as (? & ? & ?); [|done..]. split_and!; [done|done|cbn; lia].
Qed.

Lemma collect_id values seen :
  Forall kept values -> NoDup (seen ++ values) -> collect f values seen = inr (seen ++ values).
Proof.
  revert seen. induction values as [|v rest IH]; intros seen HF HD; [by rewrite app_nil_r|].
  apply Forall_cons in HF as [Hv HF]. cbn. rewrite Hv.
  rewrite bool_decide_false by (apply NoDup_app in HD as (_ & HD & _); intros Hin; apply (HD v Hin); by left).
  rewrite IH; [by rewrite <- app_assoc|done|by rewrite <- app_assoc].
Qed.

Lemma collect_sorted_idem values rs : collect_sorted f values = inr rs ->
  collect_sorted f rs = inr rs /\ (length rs <= length values)%nat.
Proof.
  unfold collect_sorted. destruct (collect f values []) as [|ks] eqn:HC; [done|]. cbn. intros [= <-].
  apply collect_kept in HC as (HF & HD & Hl); [|done|apply NoDup_nil_2].
  assert (sort_Strings ks ≡ₚ ks) as HP by apply merge_sort_Permutation.
  split; [|rewrite HP; cbn in Hl; lia].
  rewrite (collect_id _ []); cbn [app]; rewrite ?HP; [|done|done]. cbn. by rewrite sort_Strings_idem.
Qed.
End Collect.

Lemma sensitive_path_idem n raw v : sensitive_path n raw = inr (Some v) -> sensitive_path n v = inr (Some v).
Proof.
  unfold sensitive_path. destruct (_ || _) eqn:HB; [done|]. intros [= <-].
  rewrite TrimSpace_idem. by rewrite HB.
Qed.

(** ** Host names and rule identifiers *)

Lemma solid_ends l : l <> [] -> Forall (fun c => not_space c = true) l -> TrimSpace (of_bytes l) = of_bytes l.
Proof.
  intros Hne HF. unfold TrimSpace, trim_left, trim_right. rewrite bytes_of_of.
  destruct l as [|c l]; [done|]. apply Forall_cons in HF as [Hc HF].
  rewrite trim_with_none; [|repeat constructor|done].
  destruct (rev (c :: l)) as [|d r] eqn:HR; [by apply (f_equal length) in HR; rewrite length_rev in HR|].
  rewrite trim_with_none.
  - by rewrite <- HR, rev_involutive.
  - repeat constructor.
  - assert (Forall (fun x => not_space x = true) (d :: r)) as HF' by (rewrite <- HR; apply Forall_rev; by constructor).
    by apply Forall_cons in HF' as [? _].
Qed.

Definition domain_byte (c : ascii) : bool := hostname_byte c || Ascii.eqb c ".".

Lemma domain_byte_table c : domain_byte c = true ->
  not_space c = true /\ lower_byte c = c /\ (byte_val c <? 128) = true.
Proof. destruct c as [[] [] [] [] [] [] [] []]; by vm_compute. Qed.

Lemma split_bytes_all P l cur : Forall (fun p => Forall P p) (split_bytes "." l cur) ->
  Forall (fun c => P c \/ c = "."%char) (cur ++ l).
Proof.
  revert cur. induction l as [|a l IH]; intros cur HF; cbn in HF.
  - apply Forall_cons in HF as [HF _]. rewrite app_nil_r. eapply Forall_impl; [exact HF|]. by left.
  - destruct (Ascii.eqb_spec a ".").
    + subst. apply Forall_cons in HF as [Hc HF]. apply Forall_app. split.
      * eapply Forall_impl; [exact Hc|]. by left.
      * constructor; [by right|]. by apply IH in HF.
    + apply IH in HF. by rewrite <- app_assoc in HF.
Qed.

Lemma check_labels_spec labels : check_labels labels = None ->
  Forall (fun l => l <> "" /\ forallb hostname_byte (bytes_of l) = true) labels.
Proof.
  induction labels as [|l rest IH]; [constructor|]. cbn.
  destruct (bool_decide_reflect (l = "")); [done|]. cbn [orb].
  destruct (63 <? slen l); [done|]. destruct (forallb hostname_byte (bytes_of l)) eqn:HF; [|done].
  cbn [negb]. intros H. constructor; [done|by apply IH].
Qed.

(** The last label of a name that ends in a dot is empty. *)
Lemma split_bytes_trailing l cur : [] ∈ split_bytes "." (l ++ ["."%char]) cur.
Proof.
  revert cur. induction l as [|a l IH]; intros cur; cbn [app split_bytes].
  - cbn. right. left.
  - destruct (Ascii.eqb a "."); [right; apply IH|apply IH].
Qed.

Section Names.
Context `{U : Unicode}.

Lemma domain_labels d : check_labels (Split d ".") = None ->
  Forall (fun c => domain_byte c = true) (bytes_of d) /\ trim_dot d = d.
Proof.
  intros HL%check_labels_spec. unfold Split in HL. rewrite Forall_map in HL.
  assert (Forall (fun p => p <> [] /\ Forall (fun c => hostname_byte c = true) p) (split_bytes "." (bytes_of d) []))
    as HF.
  { eapply Forall_impl; [exact HL|]. intros p [Hne Hb]. cbv beta in *. rewrite bytes_of_of in Hb. split.
    - by intros ->.
    - rewrite forallb_forall in Hb. apply Forall_forall. intros c Hc. apply Hb. by apply list_elem_of_In. }
  split.
  - assert (Forall (fun p => Forall (fun c => hostname_byte c = true) p) (split_bytes "." (bytes_of d) [])) as HF2
      by (eapply Forall_impl; [exact HF|]; intros p [_ Hp]; exact Hp).
    apply split_bytes_all in HF2. cbn [app] in HF2.
    eapply Forall_impl; [exact HF2|]. cbv beta. unfold domain_byte. intros c [->| ->]; [done|]. by rewrite orb_true_r.
  - unfold trim_dot. destruct (rev (bytes_of d)) as [|c l] eqn:HR; [done|].
    destruct (Ascii.eqb_spec c "."); [|done]. subst. exfalso.
    assert (bytes_of d = rev l ++ ["."%char]) as HE by (rewrite <- (rev_involutive (bytes_of d)), HR; done).
    rewrite HE in HF. rewrite Forall_forall in HF. destruct (HF [] (split_bytes_trailing _ _)) as [? _]. done.
Qed.

Lemma hostname_idem raw d : normalizeAllowedTLSHostname raw = inr d -> normalizeAllowedTLSHostname d = inr d.
Proof.
  unfold normalizeAllowedTLSHostname. set (dom := trim_dot (ToLower (TrimSpace raw))).
  destruct (bool_decide_reflect (dom = "")) as [|Hne]; [done|]. cbn [orb].
  destruct (253 <? slen dom) eqn:Hl; [done|].
  destruct (ContainsAny dom _) eqn:HC; [done|].
  destruct (check_labels (Split dom ".")) eqn:HL; [done|]. intros [= <-].
  destruct (domain_labels _ HL) as [HB HT].
  assert (TrimSpace dom = dom) as Htrim.
  { rewrite <- (of_bytes_of dom). apply solid_ends.
    - intros HE. apply Hne. by rewrite <- (of_bytes_of dom), HE.
    - eapply Forall_impl; [exact HB|]. intros c Hc. by apply domain_byte_table. }
  assert (ToLower dom = dom) as Hlow.
  { rewrite ToLower_ascii.
    - unfold map_bytes. rewrite <- (of_bytes_of dom) at 2. f_equal.
      induction HB as [|c l Hc _ IH]; [done|]. cbn. rewrite IH. f_equal. by apply domain_byte_table.
    - unfold is_ascii. rewrite string_forallb_bytes. apply forallb_forall. intros c Hin.
      rewrite Forall_forall in HB. apply domain_byte_table, HB. by apply list_elem_of_In. }
  rewrite Htrim, Hlow, HT. rewrite bool_decide_false by done. cbn [orb]. by rewrite Hl, HC, HL.
Qed.

(** The identifiers of the closed list are already upper-case and trimmed. *)
Lemma supported_table :
  forallb (fun id => bool_decide (TrimSpace id = id) && is_ascii id && bool_decide (map_bytes upper_byte id = id) &&
                     negb (bool_decide (id = "")))
    (supportedL7RuleOverrides ++ l7RuleFamilyPrefixes) = true.
Proof. by vm_compute. Qed.

Lemma supported_fixed id : id ∈ supportedL7RuleOverrides ++ l7RuleFamilyPrefixes ->
  ToUpper (TrimSpace id) = id /\ id <> "".
Proof.
  intros Hin. pose proof supported_table as HT. rewrite forallb_forall in HT.
  apply list_elem_of_In in Hin. specialize (HT id Hin). bool_to_prop.
  repeat match goal with H : bool_decide _ = true |- _ => apply bool_decide_eq_true in H
                       | H : bool_decide _ = false |- _ => apply bool_decide_eq_false in H end.
  split; [|done]. by rewrite ToUpper_ascii by congruence; congruence.
Qed.

Lemma allowed_in id : l7RuleOverrideIDAllowed id = true -> id ∈ supportedL7RuleOverrides ++ l7RuleFamilyPrefixes.
Proof. intros ?%bool_decide_eq_true. apply elem_of_app. by left. Qed.

Lemma family_in id : isL7RuleFamily id = true -> id ∈ supportedL7RuleOverrides ++ l7RuleFamilyPrefixes.
Proof.
  intros (x & Hx & ->%String.eqb_eq)%existsb_exists. apply elem_of_app. right. by apply list_elem_of_In.
Qed.

Lemma enforce_rule_idem raw v : enforce_rule raw = inr (Some v) -> enforce_rule v = inr (Some v).
Proof.
  unfold enforce_rule. set (id := ToUpper (TrimSpace raw)).
  destruct (bool_decide (id = "")); [done|].
  destruct (negb _ && negb _) eqn:HA; [done|]. intros [= <-].
  assert (id ∈ supportedL7RuleOverrides ++ l7RuleFamilyPrefixes) as Hin.
  { apply andb_false_iff in HA as [HA%negb_false_iff|HA%negb_false_iff]; [by apply allowed_in|by apply family_in]. }
  destruct (supported_fixed id Hin) as [-> Hne]. rewrite bool_decide_false by done. by rewrite HA.
Qed.

(** ** Rules *)

Definition rule_kept (r : L7RuleOverride) : Prop :=
  ToUpper (TrimSpace (ro_ID r)) = ro_ID r /\ l7RuleOverrideIDAllowed (ro_ID r) = true /\
  1 <= ro_Score r <= 250 /\ 1 <= ro_Confidence r <= 100.

Lemma check_rules_kept rules seen rs :
  check_rules rules seen = inr rs -> Forall rule_kept seen -> NoDup (map ro_ID seen) ->
  Forall rule_kept rs /\ NoDup (map ro_ID rs) /\ length rs = (length seen + length rules)%nat.
Proof.
  revert seen. induction rules as [|r rest IH]; intros seen HC HF HD; cbn [check_rules] in HC.
  { simplify_eq. split_and!; [done|done|cbn; lia]. }
  cbn [ro_ID ro_Score ro_Confidence] in HC. set (id := ToUpper (TrimSpace (ro_ID r))) in *.
  destruct (l7RuleOverrideIDAllowed id) eqn:HA; [|done]. cbn [negb] in HC.
  destruct (bool_decide_reflect (id ∈ map ro_ID seen)) as [|Hnew]; [done|].
  destruct ((ro_Score r <? 1) || _) eqn:HS; [done|]. destruct ((ro_Confidence r <? 1) || _) eqn:HK; [done|].
  bool_to_prop. apply IH in HC as (? & ? & Hl).
  - rewrite length_app in Hl. cbn in *. split_and!; [done|done|lia].
  - apply Forall_app. split; [done|]. constructor; [|done]. unfold rule_kept. cbn.
    split_and!; try done; try lia. by apply supported_fixed, allowed_in.
  - rewrite map_app. apply NoDup_app. split_and!; [done| |apply NoDup_singleton].
    by intros x Hx ->%list_elem_of_singleton.
Qed.

Lemma check_rules_id rules seen : Forall rule_kept rules -> NoDup (map ro_ID (seen ++ rules)) ->
  check_rules rules seen = inr (seen ++ rules).
Proof.
  revert seen. induction rules as [|r rest IH]; intros seen HF HD; [by rewrite app_nil_r|].
  apply Forall_cons in HF as [(Hid & HA & HS & HK) HF]. cbn [check_rules]. rewrite Hid. cbn [ro_Score ro_Confidence].
  rewrite HA. cbn [negb]. rewrite bool_decide_false.
  2:{ rewrite map_app in HD. apply NoDup_app in HD as (_ & HD & _). intros Hin. apply (HD _ Hin). by left. }
  rewrite !(proj2 (Z.ltb_ge _ _)) by lia. cbn [orb].
  assert (mkRule (ro_ID r) (ro_Enabled r) (ro_Score r) (ro_Confidence r) (ro_AlertOnly r) = r) as -> by by destruct r.
  rewrite IH; [by rewrite <- app_assoc|done|by rewrite <- app_assoc].
Qed.

#[local] Instance rule_le_total : Total rule_le.
Proof. intros a b. unfold rule_le. apply (total String.le). Qed.
#[local] Instance rule_le_trans : Transitive rule_le.
Proof. intros a b c. unfold rule_le. apply transitivity. Qed.

Lemma NoDup_id_inj rs a b : NoDup (map ro_ID rs) -> a ∈ rs -> b ∈ rs -> ro_ID a = ro_ID b -> a = b.
Proof.
  induction rs as [|r rs IH]; cbn; [by intros _ ?%elem_of_nil|].
  intros [Hnew HD]%NoDup_cons Ha Hb HE.
  apply elem_of_cons in Ha as [->|Ha], Hb as [->|Hb]; [done| | |by apply IH].
  - destruct Hnew. rewrite HE. by apply list_elem_of_fmap_2.
  - destruct Hnew. rewrite <- HE. by apply list_elem_of_fmap_2.
Qed.

Lemma sort_rules_idem rs : NoDup (map ro_ID rs) -> merge_sort rule_le (merge_sort rule_le rs) = merge_sort rule_le rs.
Proof.
  intros HD. assert (merge_sort rule_le rs ≡ₚ rs) as HP by apply merge_sort_Permutation.
  assert (merge_sort rule_le (merge_sort rule_le rs) ≡ₚ rs) as HP2 by (by rewrite !merge_sort_Permutation).
  apply (StronglySorted_unique_strong rule_le).
  - intros a b Ha Hb Hab Hba. rewrite HP2 in Ha. rewrite HP in Hb. eapply NoDup_id_inj; [done..|].
    by apply (anti_symm String.le).
  - apply StronglySorted_merge_sort; apply _.
  - apply StronglySorted_merge_sort; apply _.
  - by rewrite merge_sort_Permutation.
Qed.

Lemma validate_rules_idem rules rs : validate_rules rules = inr rs -> validate_rules rs = inr rs.
Proof.
  unfold validate_rules. destruct (Z.ltb_spec l7RuleOverrideLimit (Z.of_nat (length rules))); [done|].
  destruct (check_rules rules []) as [|ks] eqn:HC; [done|]. cbn. intros [= <-].
  apply check_rules_kept in HC as (HF & HD & Hl); [|done|apply NoDup_nil_2].
  assert (merge_sort rule_le ks ≡ₚ ks) as HP by apply merge_sort_Permutation.
  rewrite (Permutation_length HP), (proj2 (Z.ltb_ge _ _)) by (cbn in Hl; lia).
  rewrite (check_rules_id _ []); cbn [app].
  - cbn. by rewrite sort_rules_idem.
  - by rewrite HP.
  - by rewrite HP.
Qed.

Lemma validate_enforce_idem rules rs : validate_enforce rules = inr rs -> validate_enforce rs = inr rs.
Proof.
  unfold validate_enforce. destruct (Z.ltb_spec l7RuleOverrideLimit (Z.of_nat (length rules))); [done|].
  intros [HI Hl]%(collect_sorted_idem _ enforce_rule_idem). by rewrite (proj2 (Z.ltb_ge _ _)) by lia.
Qed.
End Names.

(** ** Identity lists *)

Lemma last_snoc_le (l : list Z) p : StronglySorted Z.lt l -> last l = Some p -> Forall (fun x => x <= p) l.
Proof.
  induction 1 as [|x l HS IH HF]; [done|]. destruct l as [|y l].
  - intros [= <-]. by repeat constructor.
  - intros Hl. specialize (IH Hl). constructor; [|done].
    apply Forall_cons in HF as [Hxy _]. apply Forall_cons in IH as [Hy _]. lia.
Qed.

Lemma dedup_sorted l acc :
  StronglySorted Z.lt acc -> Forall (fun x => Forall (Z.le x) l) acc -> StronglySorted Z.le l ->
  StronglySorted Z.lt (fold_left dedup_step l acc) /\
  (length (fold_left dedup_step l acc) <= length acc + length l)%nat.
Proof.
  revert acc. induction l as [|v l IH]; intros acc HA HC HS; cbn; [split; [done|lia]|].
  inversion HS as [|? ? HS' HF]; subst.
  assert (Forall (fun x => x <= v) acc /\ Forall (fun x => Forall (Z.le x) l) acc) as [Hv HC'].
  { split; (eapply Forall_impl; [exact HC|]); intros x [? ?]%Forall_cons; done. }
  assert (dedup_step acc v = match last acc with
    Some p => if v =? p then acc else acc ++ [v] | None => [v] end) as -> by done.
  destruct (last acc) as [p|] eqn:Hl.
  - destruct (Z.eqb_spec v p) as [->|Hne]; [destruct (IH acc HA HC' HS'); split; [done|lia]|].
    pose proof (last_snoc_le acc p HA Hl) as Hp. apply last_Some in Hl as [l0 ->].
    assert (p < v) as Hpv by (rewrite Forall_app, Forall_cons in Hv; lia).
    destruct (IH ((l0 ++ [p]) ++ [v])) as [H1 H2].
    + clear -HA Hp Hpv. induction HA as [|x l HA IH HF]; cbn; [repeat constructor|].
      apply Forall_cons in Hp as [Hx Hp]. constructor; [by apply IH|].
      apply Forall_app. split; [done|]. repeat constructor. lia.
    + apply Forall_app. split; [done|]. by repeat constructor.
    + done.
    + split; [done|]. rewrite length_app in H2. cbn in H2. lia.
  - apply last_None in Hl as ->. destruct (IH [v]) as [H1 H2]; [repeat constructor|by repeat constructor|done|].
    split; [done|]. cbn in H2 |- *. lia.
Qed.

Lemma dedup_id l acc : StronglySorted Z.lt (acc ++ l) -> fold_left dedup_step l acc = acc ++ l.
Proof.
  revert acc. induction l as [|v l IH]; intros acc HS; cbn; [by rewrite app_nil_r|].
  assert (dedup_step acc v = acc ++ [v]) as ->.
  { unfold dedup_step. destruct (last acc) as [p|] eqn:Hl; [|by apply last_None in Hl as ->].
    apply last_Some in Hl as [l0 ->]. destruct (Z.eqb_spec v p) as [->|]; [|done]. exfalso.
    rewrite <- app_assoc in HS. clear -HS. induction l0 as [|x l0 IH]; cbn in HS; inversion HS as [|? ? HS' HF]; subst.
    - apply Forall_cons in HF as [? _]. lia.
    - by apply IH. }
  rewrite IH; [by rewrite <- app_assoc|by rewrite <- app_assoc].
Qed.

Lemma sorted_uids values : StronglySorted Z.lt (normalizeUIDList values) /\
  (length (normalizeUIDList values) <= length values)%nat.
Proof.
  unfold normalizeUIDList. destruct (dedup_sorted (merge_sort Z.le values) []) as [H1 H2].
  - constructor.
  - constructor.
  - apply StronglySorted_merge_sort; apply _.
  - split; [done|]. rewrite <- (Permutation_length (merge_sort_Permutation Z.le values)). exact H2.
Qed.

Lemma normalizeUIDList_idem values : normalizeUIDList (normalizeUIDList values) = normalizeUIDList values.
Proof.
  destruct (sorted_uids values) as [HS _]. set (l := normalizeUIDList values) in *.
  unfold normalizeUIDList. assert (merge_sort Z.le l = l) as ->; [|by apply dedup_id].
  apply (StronglySorted_unique Z.le); [apply StronglySorted_merge_sort; apply _| |apply merge_sort_Permutation].
  clear -HS. induction HS as [|x r HS IH HF]; constructor; [done|]. eapply Forall_impl; [exact HF|]. lia.
Qed.

Lemma normalizeUIDList_nil values : bool_decide (normalizeUIDList values = []) = bool_decide (values = []).
Proof.
  assert (forall l acc, acc <> [] -> fold_left dedup_step l acc <> []) as Hne.
  { induction l as [|v l IH]; intros acc Ha; [done|]. cbn. apply IH. unfold dedup_step.
    destruct (last acc); [|done]. destruct (_ =? _); [done|]. by destruct acc. }
  apply bool_decide_ext. split; [|by intros ->].
  unfold normalizeUIDList. destruct (merge_sort Z.le values) as [|v l] eqn:HM; cbn.
  - intros _. pose proof (merge_sort_Permutation Z.le values) as HP. rewrite HM in HP. by apply Permutation_nil_l in HP.
  - intros HE. by apply Hne in HE.
Qed.

(** ** Validation is canonical *)

Section Settings.
Context `{U : Unicode} (upstream : string -> error).
Implicit Types s : L7FabricSettings.

Lemma check_bounds_lists paths uids gids domains rules enforce s :
  (length paths <= length (f_SensitivePaths s))%nat -> check_bounds s = None ->
  check_bounds (set_lists paths uids gids domains rules enforce s) = None.
Proof.
  intros Hl HB. apply first_error_none in HB. apply first_error_none.
  unfold requiredInspection, requiredEnvelope in *. cbn in *.
  repeat (apply Forall_cons in HB as [? HB]; constructor; [try done|]); [|done].
  cbn in *. bool_to_prop. apply Z.ltb_ge. lia.
Qed.

Lemma check_peers_lists paths domains rules enforce s :
  check_peers upstream s = None ->
  check_peers upstream (set_lists paths (normalizeUIDList (f_AllowedPeerUIDs s))
    (normalizeUIDList (f_AllowedPeerGIDs s)) domains rules enforce s) = None.
Proof.
  unfold check_peers. destruct (peer_guards s) eqn:HB; [done|]. intros HU.
  pose proof (sorted_uids (f_AllowedPeerUIDs s)) as [_ L1]. pose proof (sorted_uids (f_AllowedPeerGIDs s)) as [_ L2].
  assert (peer_guards (set_lists paths (normalizeUIDList (f_AllowedPeerUIDs s))
    (normalizeUIDList (f_AllowedPeerGIDs s)) domains rules enforce s) = None) as ->; [|exact HU].
  apply first_error_none in HB. apply first_error_none.
  cbn [f_AllowedPeerUIDs f_AllowedPeerGIDs set_lists]. rewrite !normalizeUIDList_nil. cbn in *.
  repeat (apply Forall_cons in HB as [? HB]; constructor; [try done|]); [|done].
  cbn in *. bool_to_prop. apply orb_false_iff. rewrite !Z.ltb_ge. lia.
Qed.

Lemma check_budgets_lists paths uids gids domains rules enforce s :
  (length domains <= length (f_TLSAllowedDomains s))%nat -> check_budgets s = None ->
  check_budgets (set_lists paths uids gids domains rules enforce s) = None.
Proof.
  intros Hl HB. apply first_error_none in HB. apply first_error_none. unfold perInspection in *. cbn in *.
  repeat (apply Forall_cons in HB as [? HB]; constructor; [try done|]); [|done].
  cbn in *. bool_to_prop. apply Z.ltb_ge. lia.
Qed.

(** What an accepted document passed. *)
Lemma validate_inv s s' : validateL7FabricSettings upstream s = inr s' ->
  exists paths domains rules enforce,
    check_bounds s = None /\
    collect_sorted (sensitive_path (f_MaxURIBytes s)) (f_SensitivePaths s) = inr paths /\
    check_peers upstream s = None /\ check_budgets s = None /\
    collect_sorted (fun raw => ok_map Some (normalizeAllowedTLSHostname raw)) (f_TLSAllowedDomains s) = inr domains /\
    check_ja3_file s = None /\ validate_rules (f_Rules s) = inr rules /\
    validate_enforce (f_EnforceRules s) = inr enforce /\
    s' = set_lists paths (normalizeUIDList (f_AllowedPeerUIDs s)) (normalizeUIDList (f_AllowedPeerGIDs s))
           domains rules enforce s.
Proof.
  unfold validateL7FabricSettings.
  destruct (check_bounds s) eqn:H1; [done|].
  destruct (collect_sorted (sensitive_path _) _) as [|paths] eqn:H2; [done|].
  destruct (check_peers upstream s) eqn:H3; [done|]. destruct (check_budgets s) eqn:H4; [done|].
  destruct (collect_sorted _ (f_TLSAllowedDomains s)) as [|domains] eqn:H5; [done|].
  destruct (check_ja3_file s) eqn:H6; [done|].
  destruct (validate_rules _) as [|rules] eqn:H7; [done|]. destruct (validate_enforce _) as [|enforce] eqn:H8; [done|].
  intros [= <-]. by exists paths, domains, rules, enforce.
Qed.

Lemma domain_idem raw v : ok_map Some (normalizeAllowedTLSHostname raw) = inr (Some v) ->
  ok_map Some (normalizeAllowedTLSHostname v) = inr (Some v).
Proof.
  destruct (normalizeAllowedTLSHostname raw) as [|d] eqn:HN; [done|]. cbn. intros [= ->].
  by rewrite (hostname_idem _ _ HN).
Qed.

(** Validation is canonical. A settings document the validator accepted is
    accepted again without a change: sensitive paths, peer identities, TLS host
    names, rule overrides and enforcement scope are sorted, free of duplicates
    and in normal form, and every bound still holds. A persisted revision is
    therefore stable across restarts. *)
Theorem settings_canonical s s' :
  validateL7FabricSettings upstream s = inr s' -> validateL7FabricSettings upstream s' = inr s'.
Proof.
  intros (paths & domains & rules & enforce & H1 & H2 & H3 & H4 & H5 & H6 & H7 & H8 & ->)%validate_inv.
  apply (collect_sorted_idem _ (sensitive_path_idem _)) in H2 as [H2 L2].
  apply (collect_sorted_idem _ domain_idem) in H5 as [H5 L5].
  apply validate_rules_idem in H7. apply validate_enforce_idem in H8.
  unfold validateL7FabricSettings.
  rewrite check_bounds_lists, check_peers_lists, check_budgets_lists by done.
  cbn [f_MaxURIBytes f_SensitivePaths f_TLSAllowedDomains f_Rules f_EnforceRules set_lists].
  change (check_ja3_file (set_lists _ _ _ _ _ _ s)) with (check_ja3_file s).
  rewrite H2, H5, H6, H7, H8. cbn [f_AllowedPeerUIDs f_AllowedPeerGIDs set_lists].
  by rewrite !normalizeUIDList_idem.
Qed.
End Settings.

(** ** Restart-class keys *)

(** The keys of [l7RestartClassKeys]. *)
Definition restart_class (s : L7FabricSettings) :=
  (f_Enabled s, f_MaxConcurrent s, f_RequestTimeoutMillis s, f_Socket s, f_MaxTrackedClients s,
   f_RequirePeerCredentials s, f_AllowedPeerUIDs s, f_AllowedPeerGIDs s, f_SocketGroup s,
   f_InlineEnabled s, f_InlineSocket s, f_InlineUpstream s, f_TLSEnabled s).

Lemma restart_changed_spec a b : l7RestartClassChanged a b = false <-> restart_class a = restart_class b.
Proof.
  unfold l7RestartClassChanged, restart_class.
  rewrite !orb_false_iff, !negb_false_iff, !Bool.eqb_true_iff, !Z.eqb_eq, !bool_decide_eq_true.
  split; [intuition congruence|]. by intros [= -> -> -> -> -> -> -> -> -> -> -> -> ->].
Qed.

Lemma keep_restart_same a s : restart_class a = restart_class s -> keep_restart_class a s = s.
Proof. intros [= H1 H2 H3 H4 H5 H6 H7 H8 H9 H10 H11 H12 H13]. destruct a, s. cbn in *. by subst. Qed.

Lemma keep_restart_class_keys a s : restart_class (keep_restart_class a s) = restart_class a.
Proof. done. Qed.

Lemma build_active s rev : sn_active (buildL7RuntimeSnapshot s rev) = s /\
  sn_cfg (buildL7RuntimeSnapshot s rev) = toConfig s.
Proof. unfold buildL7RuntimeSnapshot. by destruct (place_rules _ _ _ _) as [[? ?] ?]. Qed.

Section Apply.
Context {T : Type} (ops : tls_ops T).
Implicit Types (p : l7_process T) (s : L7FabricSettings).
Abbreviation live p := (sn_active (p_live p)).

Lemma desired_keep p s :
  (if l7RestartClassChanged (live p) s then keep_restart_class (live p) s else s) =
  keep_restart_class (live p) s.
Proof.
  destruct (l7RestartClassChanged (live p) s) eqn:HC; [done|].
  apply restart_changed_spec in HC. by rewrite keep_restart_same.
Qed.

(** Restart-class keys are never activated in a running process. Applying a
    revision reports a required restart exactly when one of those keys differs
    from the live one; on success the engine runs the revision with the live
    values of those keys in place, compiled into one snapshot; on failure the
    old snapshot stays in force. *)
Theorem restart_class_frozen s rev p err r p' :
  applyL7FabricSettings ops s rev p = (err, r, p') ->
  (RestartRequired r = true <-> restart_class (live p) <> restart_class s) /\
  restart_class (live p') = restart_class (live p) /\
  (err = None -> p_live p' = buildL7RuntimeSnapshot (keep_restart_class (live p) s) rev) /\
  (err <> None -> p_live p' = p_live p).
Proof.
  unfold applyL7FabricSettings. rewrite desired_keep. set (d := keep_restart_class (live p) s).
  assert (l7RestartClassChanged (live p) s = true <-> restart_class (live p) <> restart_class s) as HR.
  { rewrite <- restart_changed_spec. by destruct (l7RestartClassChanged _ _). }
  destruct (validateL7EngineConfig (toConfig d)) as [e|]; [intros [= <- <- <-]; by split_and!|].
  destruct (reload_ja3 _ _ _ _) as [[[e|] reloaded] tls]; intros [= <- <- <-]; split_and!; try done.
  cbn [p_live]. destruct (build_active d rev) as [-> _]. apply keep_restart_class_keys.
Qed.

(** The requested reload of the TLS fingerprint set never happens. The
    validator clears the reload flag of every document it accepts, so applying
    an accepted document never calls the loader, whatever the flag was in the
    request: the sensor only gets its thresholds. *)
Theorem ja3_reload_unreachable `{U : Unicode} upstream s s' rev p err r p' :
  validateL7FabricSettings upstream s = inr s' ->
  applyL7FabricSettings ops s' rev p = (err, r, p') ->
  Ja3Reloaded r = false /\
  (p_tls p' = p_tls p \/ exists domains flood strikes spoof,
     p_tls p' = UpdatePolicy ops domains flood strikes spoof <$> p_tls p).
Proof.
  intros (paths & domains & rules & enforce & _ & _ & _ & _ & _ & _ & _ & _ & ->)%validate_inv.
  unfold applyL7FabricSettings. rewrite desired_keep. cbn [f_TLSJA3Reload keep_restart_class set_lists].
  destruct (validateL7EngineConfig _) as [e|]; [intros [= <- <- <-]; by split; [|left]|].
  unfold reload_ja3. rewrite andb_false_r. cbn [andb]. intros [= <- <- <-]. split; [done|].
  right. eexists _, _, _, _. reflexivity.
Qed.
End Apply.

(** ** The memory budget *)

(** The worst case of one inspection, in exact arithmetic. *)
Definition inspection_bytes (s : L7FabricSettings) : Z :=
  f_MaxEnvelopeBytes s + f_MaxBodyBytes s + f_MaxInspectionBytes s + f_InlineMaxResponseBytes s.

Definition in_reach (s : L7FabricSettings) : Prop :=
  f_MaxInspectionBytes s <= 2 ^ 52 /\ f_MaxHeaderBytes s <= 2 ^ 52 /\ f_MaxURIBytes s <= 2 ^ 52.

(** Hard memory limits. Accepted settings whose byte limits are at most 2^52
    keep all concurrent inspections together within 384 MiB, in exact
    arithmetic, and give every inspection room for the body, the headers and the
    URI it may receive. *)
Theorem memory_budget_enforced `{U : Unicode} upstream s s' :
  validateL7FabricSettings upstream s = inr s' -> in_reach s ->
  inspection_bytes s' * f_MaxConcurrent s' <= 384 * MiB /\
  f_MaxBodyBytes s' + f_MaxHeaderBytes s' + 2 * f_MaxURIBytes s' <= f_MaxInspectionBytes s'.
Proof.
  intros (paths & domains & rules & enforce & HB & _ & _ & HM & _ & _ & _ & _ & ->)%validate_inv (R1 & R2 & R3).
  unfold inspection_bytes. cbn [f_MaxEnvelopeBytes f_MaxBodyBytes f_MaxInspectionBytes f_InlineMaxResponseBytes
    f_MaxConcurrent f_MaxHeaderBytes f_MaxURIBytes set_lists].
  passed HB. passed HM. bool_to_prop. unfold MiB in *. change (2 ^ 52) with 4503599627370496 in *.
  assert (f_MaxBodyBytes s + f_MaxHeaderBytes s + 2 * f_MaxURIBytes s <= f_MaxInspectionBytes s) as HI.
  { unfold requiredInspection in *.
    rewrite (i64_small (f_MaxBodyBytes s + _)), (i64_small (2 * _)), i64_small in *
      by (unfold MinInt64, MaxInt64; lia). lia. }
  split; [|exact HI]. unfold perInspection in *.
  rewrite (i64_small (f_MaxEnvelopeBytes s + _ + _ + _)) in * by (unfold MinInt64, MaxInt64; lia).
  match goal with H : i64 ((_ + _ + _ + _) * _) <= _ |- _ =>
    rewrite i64_small in H; [lia|unfold MinInt64, MaxInt64; nia] end.
Qed.

(** A document with the given concurrency, body, envelope, URI and inspection
    limits, everything else at a small value. *)
Definition sized_settings (concurrent body envelope uri inspection : Z) : L7FabricSettings :=
  mkFabric true "observe" "/run/gedefense/l7.sock" concurrent 1000 envelope body 0 uri 1024 8 256 inspection 16 1 1 1 1
    50 100 [] 60 60 60 60 60 60 64 [] false [] [] "" false "" "" 0 false [] 2 2 false 1024 "" false "allow" 35 [].

Definition wrapping_settings : L7FabricSettings := sized_settings 4 0 66560 (2 ^ 62) (2 ^ 62).

(** The hard limits wrap around. The validator multiplies the inspection
    bytes by the concurrency, and doubles the URI bytes, in 64-bit integers
    without an upper bound on either: a document that reserves 2^62 bytes for
    each of four inspections is accepted although the limit is 256 MiB, and its
    URI limit alone exceeds the inspection budget that must cover it. *)
Theorem inspection_budget_wraps `{U : Unicode} upstream :
  validateL7FabricSettings upstream wrapping_settings = inr wrapping_settings /\
  256 * MiB < f_MaxInspectionBytes wrapping_settings * f_MaxConcurrent wrapping_settings /\
  f_MaxInspectionBytes wrapping_settings < 2 * f_MaxURIBytes wrapping_settings.
Proof. split_and!; by vm_compute. Qed.

Definition many_small : L7FabricSettings := sized_settings 1024 0 66560 256 67072.
Definition few_large : L7FabricSettings := sized_settings 2 (16 * MiB) (32 * MiB) 256 (64 * MiB).

(** A live engine can exceed the memory limit although every document was
    accepted. The concurrency is a restart-class key and the byte limits are
    not: a revision with few large inspections, applied to a process that runs
    many small ones, is projected with the old concurrency and without another
    check of the product, and the engine may use more than a hundred GiB. *)
Theorem live_budget_exceeded `{U : Unicode} {T} (ops : tls_ops T) upstream rev0 rev tls :
  let p := mkProcess (buildL7RuntimeSnapshot many_small rev0) tls in
  validateL7FabricSettings upstream many_small = inr many_small /\
  validateL7FabricSettings upstream few_large = inr few_large /\
  exists r p', applyL7FabricSettings ops few_large rev p = (None, r, p') /\
    RestartRequired r = true /\
    100 * 1024 * MiB < AggregateBytes (computeL7MemoryBudget (sn_active (p_live p'))) /\
    LimitBytes (computeL7MemoryBudget (sn_active (p_live p'))) = 384 * MiB.
Proof.
  intros p. split_and!; [by vm_compute..|].
  destruct (applyL7FabricSettings ops few_large rev p) as [[err r] p'] eqn:HA. exists r, p'.
  assert (err = None /\ r = mkApplyResult true false /\ sn_active (p_live p') = keep_restart_class many_small few_large)
    as (-> & -> & ->).
  { unfold applyL7FabricSettings in HA. cbn in HA. by injection HA as <- <- <-. }
  split_and!; by vm_compute.
Qed.
