(* ===== verification/L7Engine.v ===== *)
(** * The Layer-7 inspection engine

    src/control/l7_engine.go with the scoring of l7_detectors.go and the rule
    registry of l7_fabric_settings.go: one inspection from the normalized
    request to the decision. The normalizer, the detectors, the CMS bridge and
    the TLS sensor are interfaces; the rate limiter and the snapshot are those
    of L7RateLimit.v and L7Settings.v. Maps that the code iterates are iterated
    in every order. *)

From Stdlib Require Import ZArith Lia Ascii String.
From stdpp Require Import base gmap strings list sorting.
From S2P Require Import Prelude.
From S2P Require Import GoLib.
From S2P Require Import Strconv.
From S2P Require Import Text.
From S2P Require Import Storage.
From S2P Require Import L7RateLimit.
From S2P Require Import L7Settings.

Record L7Finding := mkFinding {
  fi_RuleID : string;
  fi_Category : string;
  fi_Severity : string;
  fi_Score : Z;
  fi_Confidence : Z;
  fi_Location : string;
  fi_EvidenceSHA256 : string;
  fi_FingerprintType : string;
  fi_Fingerprint : string;
  fi_Summary : string;
}.

Record L7InspectionResponse := mkResponse {
  re_RequestID : string;
  re_Decision : string;
  re_Score : Z;
  re_Confidence : Z;
  re_Enforced : bool;
  re_Reason : string;
  re_BodySHA256 : string;
  re_Findings : list L7Finding;
}.

Record l7Candidate := mkCandidate { ca_Location : string; ca_Value : string; ca_Depth : Z }.

Record l7NormalizedRequest := mkNormalized {
  no_RequestID : string;
  no_Method : string;
  no_Scheme : string;
  no_Host : string;
  no_Path : string;
  no_RatePath : string;
  no_RemoteIP : string;
  no_Headers : gmap string (list string);
  no_Body : string;
  no_BodySHA256 : string;
  no_ContentType : string;
  no_Candidates : list l7Candidate;
  no_CandidateBytes : Z;
  no_CandidateBudgetExceeded : bool;
  no_ServerPID : Z;
  no_ServerProcess : string;
}.

Definition clampScore (score : Z) : Z := if score <? 0 then 0 else if 250 <? score then 250 else score.
Definition clampPercent (value : Z) : Z := if value <? 0 then 0 else if 100 <? value then 100 else value.

Definition newL7Finding `{C : Crypto} (id category severity : string) (score confidence : Z)
    (location evidence summary : string) : L7Finding :=
  mkFinding id category severity (clampScore score) (clampPercent confidence) location
    (hex_EncodeToString (sha256_Sum evidence)) "" "" summary.

(** ** Scoring *)

(** The best finding of every rule; the first one among equals. *)
Definition best_step (byRule : gmap string L7Finding) (f : L7Finding) : gmap string L7Finding :=
  match byRule !! fi_RuleID f with
  | Some existing => if fi_Score existing <? fi_Score f then <[fi_RuleID f := f]> byRule else byRule
  | None => <[fi_RuleID f := f]> byRule
  end.
Definition byRule (findings : list L7Finding) : gmap string L7Finding := fold_left best_step findings ∅.

Definition category_step (m : gmap string Z) (f : L7Finding) : gmap string Z :=
  if default 0 (m !! fi_Category f) <? fi_Score f then <[fi_Category f := fi_Score f]> m else m.
Definition categoryMax (entries : list L7Finding) : gmap string Z := fold_left category_step entries ∅.

(** Highest score first, then by rule. *)
Definition finding_le (a b : L7Finding) : Prop :=
  fi_Score b < fi_Score a \/ fi_Score a = fi_Score b /\ String.le (fi_RuleID a) (fi_RuleID b).
#[export] Instance finding_le_dec : RelDecision finding_le.
Proof. intros a b. unfold finding_le. apply _. Defined.

Definition weights : list Z := [1; 2; 4; 8].
Definition weighted (scores : list Z) : Z := foldr Z.add 0 (zip_with Z.quot scores weights).

Definition values {A} (m : gmap string A) : list A := (map_to_list m).*2.

(** The scoring after the first loop, for one order [entries] of the rules and
    one order [scores] of the categories. *)
Definition aggregate_with (entries : list L7Finding) (scores : list Z) : Z * Z * list L7Finding :=
  (clampScore (weighted (merge_sort Z.ge scores)),
   fold_left (fun c f => if c <? fi_Confidence f then fi_Confidence f else c) entries 0,
   merge_sort finding_le entries).

Definition aggregateL7Findings (findings : list L7Finding) : Z * Z * list L7Finding :=
  match findings with
  | [] => (0, 0, [])
  | _ => let entries := values (byRule findings) in aggregate_with entries (values (categoryMax entries))
  end.

(** ** The rule registry *)

Definition overrideFor (s : l7RuntimeSnapshot) (ruleID : string) : option L7RuleOverride :=
  match sn_ruleExact s !! ruleID with
  | Some o => Some o
  | None =>
      match list_find (fun family => HasPrefix ruleID (family +:+ ".") = true) (sn_ruleFamilies s) with
      | Some (_, family) => Some (default (mkRule "" false 0 0 false) (sn_ruleByFamily s !! family))
      | None => None
      end
  end.

Definition blockEligible (s : l7RuntimeSnapshot) (ruleID : string) : bool :=
  if bool_decide (sn_enforceExact s = ∅) && bool_decide (sn_enforceFamilies s = []) then true
  else bool_decide (ruleID ∈ sn_enforceExact s) ||
       existsb (fun family => HasPrefix ruleID (family +:+ ".")) (sn_enforceFamilies s).

Definition set_score (score confidence : Z) (f : L7Finding) : L7Finding :=
  mkFinding (fi_RuleID f) (fi_Category f) (fi_Severity f) score confidence (fi_Location f)
    (fi_EvidenceSHA256 f) (fi_FingerprintType f) (fi_Fingerprint f) (fi_Summary f).

(** A finding under an override. *)
Definition override_finding (o : L7RuleOverride) (f : L7Finding) : L7Finding :=
  set_score
    (if (0 <? ro_Score o) && negb (ro_Score o =? fi_Score f) then clampScore (ro_Score o) else fi_Score f)
    (if (0 <? ro_Confidence o) && negb (ro_Confidence o =? fi_Confidence f)
     then clampPercent (ro_Confidence o) else fi_Confidence f) f.

(** The loop of [applyRuleOverrides]: the findings kept, and those among them
    that may block. *)
Fixpoint override_loop (s : l7RuntimeSnapshot) (findings : list L7Finding) : list L7Finding * list L7Finding :=
  match findings with
  | [] => ([], [])
  | f :: rest =>
      let '(kept, blockable) := override_loop s rest in
      match overrideFor s (fi_RuleID f) with
      | None => (f :: kept, f :: blockable)
      | Some o =>
          if negb (ro_Enabled o) then (kept, blockable)
          else let f := override_finding o f in
               (f :: kept, if ro_AlertOnly o then blockable else f :: blockable)
      end
  end.

Definition applyRuleOverrides (s : l7RuntimeSnapshot) (findings : list L7Finding)
    : list L7Finding * list L7Finding :=
  if bool_decide (findings = []) then (findings, findings)
  else if bool_decide (sn_ruleExact s = ∅) && bool_decide (sn_ruleByFamily s = ∅) then (findings, findings)
  else override_loop s findings.

(** ** One inspection *)

Definition rate_config (cfg : L7Config) : L7RateConfig :=
  mkL7RateConfig (c_ClientRatePerMinute cfg) (c_ClientRateBurst cfg) (c_SensitiveRatePerMinute cfg)
    (c_SensitiveRateBurst cfg) (c_SensitiveGlobalRatePerMinute cfg) (c_SensitiveGlobalRateBurst cfg).

Definition l7Detector := l7NormalizedRequest -> l7RuntimeSnapshot -> goerror + list L7Finding.

(** What the engine asks of the CMS bridge and of the TLS sensor. *)
Record cms_ops (M : Type) := mkCMS {
  ObserveRequest : l7NormalizedRequest -> M -> M;
  Trusted : string -> string -> time -> M -> bool;
  ShouldRelax : l7NormalizedRequest -> M -> bool;
  RelaxedClientBudget : string -> M -> Z * Z;
  cmsTrustedEditorSurface : l7NormalizedRequest -> bool;
}.
Arguments ObserveRequest {M} c.
Arguments Trusted {M} c.
Arguments ShouldRelax {M} c.
Arguments RelaxedClientBudget {M} c.
Arguments cmsTrustedEditorSurface {M} c.

Record tls_sensor (T : Type) := mkTLSSensor {
  RecordHTTPRequestForHost : string -> string -> time -> T -> list L7Finding * T;
}.
Arguments RecordHTTPRequestForHost {T} t.

Record L7Engine (M T : Type) := mkL7Engine {
  e_live : option l7RuntimeSnapshot;
  e_detectors : list l7Detector;
  e_limiter : option L7RateLimiter;
  e_cms : option M;
  e_tls : option T;
  e_xdr : bool;
}.
Arguments mkL7Engine {M T}.
Arguments e_live {M T} l.
Arguments e_detectors {M T} l.
Arguments e_limiter {M T} l.
Arguments e_cms {M T} l.
Arguments e_tls {M T} l.
Arguments e_xdr {M T} l.

Definition set_limiter {M T} (l : option L7RateLimiter) (e : L7Engine M T) : L7Engine M T :=
  mkL7Engine (e_live e) (e_detectors e) l (e_cms e) (e_tls e) (e_xdr e).
Definition set_cms {M T} (m : option M) (e : L7Engine M T) : L7Engine M T :=
  mkL7Engine (e_live e) (e_detectors e) (e_limiter e) m (e_tls e) (e_xdr e).
Definition set_tls {M T} (t : option T) (e : L7Engine M T) : L7Engine M T :=
  mkL7Engine (e_live e) (e_detectors e) (e_limiter e) (e_cms e) t (e_xdr e).

(** What one inspection meets: the answers of the context, whether a slot was
    obtained, the normalized request, the clock and the release gate ([None]:
    no gate installed). *)
Record inspection := mkInspection {
  in_ctx : nat -> error;
  in_slot : error;
  in_normalized : l7RuntimeSnapshot -> goerror + l7NormalizedRequest;
  in_now : time;
  in_canBlock : option bool;
}.

Inductive l7_effect := InspectionRecorded (req : l7NormalizedRequest) (response : L7InspectionResponse).

Definition maxFindings : nat := 64.

(** The loop over the detectors; the [n]-th answer of the context guards the
    next one. *)
Fixpoint run_detectors (ctx : nat -> error) (n : nat) (ds : list l7Detector) (req : l7NormalizedRequest)
    (s : l7RuntimeSnapshot) (findings : list L7Finding) : goerror + list L7Finding :=
  match ds with
  | [] => inr findings
  | d :: ds =>
      match ctx n with
      | Some err => inl err
      | None =>
          match d req s with
          | inl err => inl err
          | inr detected =>
              let findings := findings ++ detected in
              if (maxFindings <=? length findings)%nat then inr (take maxFindings findings)
              else run_detectors ctx (S n) ds req s findings
          end
      end
  end.

Definition suppress_xss (findings : list L7Finding) : list L7Finding :=
  List.filter (fun f => negb (HasPrefix (fi_RuleID f) "L7.XSS.")) findings.

Definition releaseGateAllowsBlock (gate : option bool) : bool := default false gate.

(** From the findings to the response. *)
Definition respond (s : l7RuntimeSnapshot) (gate : option bool) (req : l7NormalizedRequest)
    (findings : list L7Finding) : L7InspectionResponse :=
  let '(kept, blockable) := applyRuleOverrides s findings in
  let '(score, confidence, unique) := aggregateL7Findings kept in
  let blockScore := (aggregateL7Findings (List.filter (fun f => blockEligible s (fi_RuleID f)) blockable)).1.1 in
  let found := negb (bool_decide (unique = [])) in
  let answer decision enforced reason :=
    mkResponse (no_RequestID req) decision score confidence enforced reason (no_BodySHA256 req) unique in
  if (c_BlockScore (sn_cfg s) <=? blockScore) && found then
    if bool_decide (c_Mode (sn_cfg s) = "block") && releaseGateAllowsBlock gate
    then answer "block" true "request blocked by L7 policy"
    else answer "observe" false "block threshold reached; release gate keeps L7 in observe"
  else if (c_AlertScore (sn_cfg s) <=? score) && found
  then answer "observe" false "security findings recorded"
  else answer "allow" false "no finding crossed the alert threshold".

Section Inspect.
Context `{U : Unicode} `{C : Crypto} {M T : Type} (cms : cms_ops M) (sensor : tls_sensor T).
Implicit Types (e : L7Engine M T) (req : l7NormalizedRequest).

(** [strings.ReplaceAll(scope, "-", "_")] *)
Definition dashes_to_underscores (scope : string) : string :=
  map_bytes (fun c => if Ascii.eqb c "-" then "_"%char else c) scope.

Definition rate_finding (scope : string) req : L7Finding :=
  newL7Finding ("L7.RATE_LIMIT." +:+ ToUpper (dashes_to_underscores scope)) "rate-limit" "high" 95 99 "request"
    (no_RemoteIP req +:+ "|" +:+ no_Host req +:+ "|" +:+ no_Path req)
    "Request rate exceeded the configured L7 budget".

(** The answers of the CMS bridge: a trusted administrator, a relaxed client
    and its budget, a trusted editor. *)
Definition ask_cms req (now : time) (m : option M) : bool * (Z * Z) * bool * option M :=
  match m with
  | None => (false, (0, 0), false, None)
  | Some m =>
      let m := ObserveRequest cms req m in
      let trusted := Trusted cms (no_RemoteIP req) (no_Host req) now m in
      let budget := if ShouldRelax cms req m then RelaxedClientBudget cms (no_Host req) m else (0, 0) in
      (trusted, budget, trusted && cmsTrustedEditorSurface cms req, Some m)
  end.

(** The rate budgets: a trusted administrator skips the client bucket. *)
Definition charge_rate (s : l7RuntimeSnapshot) req (now : time) (trusted : bool) (budget : Z * Z)
    (l : option L7RateLimiter) : list L7Finding * option L7RateLimiter :=
  let snapshot := Some (rate_config (sn_cfg s), sn_routes s) in
  let '((allowed, scope), l) :=
    if trusted
    then EvaluatePolicy l snapshot (no_RemoteIP req) (no_Host req) (no_RatePath req) (no_Method req) now true
    else evaluatePolicyWithBudget l snapshot (no_RemoteIP req) (no_Host req) (no_RatePath req) (no_Method req)
           now false budget.1 budget.2 in
  (if allowed then [] else [rate_finding scope req], l).

(** The TLS sensor adds its findings while there is room. *)
Definition ask_tls req (now : time) (findings : list L7Finding) (t : option T) : list L7Finding * option T :=
  match t with
  | Some t =>
      if (length findings <? maxFindings)%nat
      then let '(more, t) := RecordHTTPRequestForHost sensor (no_RemoteIP req) (no_Host req) now t in
           (take maxFindings (findings ++ more), Some t)
      else (findings, Some t)
  | None => (findings, None)
  end.

Definition inspect (i : inspection) e
    : (goerror + L7InspectionResponse * l7NormalizedRequest) * L7Engine M T * list l7_effect :=
  match in_ctx i 0%nat with
  | Some err => (inl err, e, [])
  | None =>
  match e_live e with
  | None => (inl (ErrText "l7 request validation failed: l7 runtime configuration unavailable"), e, [])
  | Some s =>
  match in_slot i with
  | Some err => (inl err, e, [])
  | None =>
  match in_normalized i s with
  | inl err => (inl err, e, [])
  | inr req =>
      let '(trusted, budget, editor, m) := ask_cms req (in_now i) (e_cms e) in
      let '(rated, l) := charge_rate s req (in_now i) trusted budget (e_limiter e) in
      let e := set_limiter l (set_cms m e) in
      match run_detectors (in_ctx i) 1 (e_detectors e) req s rated with
      | inl err => (inl err, e, [])
      | inr findings =>
          let findings := if editor then suppress_xss findings else findings in
          let '(findings, t) := ask_tls req (in_now i) findings (e_tls e) in
          let response := respond s (in_canBlock i) req findings in
          (inr (response, req), set_tls t e,
           if e_xdr e && negb (bool_decide (re_Findings response = [])) then [InspectionRecorded req response] else [])
      end
  end end end end.
End Inspect.
