(* ===== verification/L7EngineFacts.v ===== *)
(** * Theorems about the inspection engine

    The score does not depend on map iteration and never rises when rules are
    taken away; a request is blocked exactly when the operator, the release gate
    and block-eligible findings agree. *)

From Stdlib Require Import ZArith Lia Ascii String.
From stdpp Require Import base gmap strings list sorting.
From S2P Require Import Prelude.
From S2P Require Import GoLib.
From S2P Require Import Strconv.
From S2P Require Import Text.
From S2P Require Import Storage.
From S2P Require Import Instances.
From S2P Require Import L7RateLimit.
From S2P Require Import LimitsWitness.
From S2P Require Import L7Settings.
From S2P Require Import L7SettingsFacts.
From S2P Require Import L7Engine.

(** ** Best findings per rule *)

(** [byRule], one rule at a time. *)
Definition best_of (id : string) (best : option L7Finding) (f : L7Finding) : option L7Finding :=
  if bool_decide (fi_RuleID f = id)
  then match best with
       | Some b => if fi_Score b <? fi_Score f then Some f else Some b
       | None => Some f
       end
  else best.

Lemma best_step_lookup m f id : best_step m f !! id = best_of id (m !! id) f.
Proof.
  unfold best_step, best_of. destruct (bool_decide_reflect (fi_RuleID f = id)) as [<-|Hne].
  - destruct (m !! fi_RuleID f) as [b|] eqn:Hm; [|by rewrite lookup_insert_eq].
    destruct (_ <? _); [by rewrite lookup_insert_eq|done].
  - destruct (m !! fi_RuleID f); [destruct (_ <? _)|]; rewrite ?lookup_insert_ne by done; done.
Qed.

Lemma byRule_lookup fs id : byRule fs !! id = fold_left (best_of id) fs None.
Proof.
  unfold byRule. assert (forall m, fold_left best_step fs m !! id = fold_left (best_of id) fs (m !! id)) as H.
  { induction fs as [|f fs IH]; intros m; [done|]. cbn. by rewrite IH, best_step_lookup. }
  by rewrite H, lookup_empty.
Qed.

Lemma byRule_key fs id f : byRule fs !! id = Some f -> fi_RuleID f = id /\ f ∈ fs.
Proof.
  rewrite byRule_lookup.
  assert (forall b, fold_left (best_of id) fs b = Some f -> b = Some f \/ fi_RuleID f = id /\ f ∈ fs) as H.
  { induction fs as [|g fs IH]; intros b HB; [by left|]. cbn in HB.
    apply IH in HB as [HB|[? ?]]; [|right; split; [done|by right]].
    unfold best_of in HB. destruct (bool_decide_reflect (fi_RuleID g = id)) as [<-|]; [|by left].
    destruct b as [b|]; [destruct (_ <? _)|]; simplify_eq; (by left) || (right; split; [done|by left]). }
  intros HB. by apply H in HB as [|].
Qed.

(** Taking rules away takes away exactly their entries. *)
Lemma byRule_filter (P : string -> bool) fs :
  byRule (List.filter (fun f => P (fi_RuleID f)) fs) = filter (fun kv => P kv.1 = true) (byRule fs).
Proof.
  apply map_eq. intros id. rewrite map_lookup_filter, !byRule_lookup.
  assert (forall b, fold_left (best_of id) (List.filter (fun f => P (fi_RuleID f)) fs) b =
    if P id then fold_left (best_of id) fs b else b) as H.
  { induction fs as [|f fs IH]; intros b; cbn; [by destruct (P id)|].
    destruct (P (fi_RuleID f)) eqn:HP; cbn; rewrite IH.
    - destruct (P id) eqn:HPid; [done|]. unfold best_of.
      destruct (bool_decide_reflect (fi_RuleID f = id)); [congruence|done].
    - destruct (P id) eqn:HPid; [|done]. unfold best_of at 3.
      destruct (bool_decide_reflect (fi_RuleID f = id)); [congruence|done]. }
  rewrite H. destruct (fold_left (best_of id) fs None) as [f|]; cbn; [|by destruct (P id)].
  destruct (P id) eqn:HP; [by rewrite option_guard_True|by rewrite option_guard_False by congruence].
Qed.

Lemma values_elem {A} (m : gmap string A) x : x ∈ values m <-> exists k, m !! k = Some x.
Proof.
  unfold values. rewrite list_elem_of_fmap. split.
  - intros ([k y] & -> & Hin). exists k. by apply elem_of_map_to_list in Hin.
  - intros [k Hk]. exists (k, x). split; [done|]. by apply elem_of_map_to_list.
Qed.

(** The rules of the entries are pairwise distinct. *)
Lemma values_rules fs : NoDup (map fi_RuleID (values (byRule fs))).
Proof.
  assert (map fi_RuleID (values (byRule fs)) = (map_to_list (byRule fs)).*1) as ->.
  { unfold values. change (map fi_RuleID) with (fmap (M := list) fi_RuleID). rewrite <- list_fmap_compose.
    apply list_fmap_ext. intros i [k f] Hi. apply list_elem_of_lookup_2, elem_of_map_to_list, byRule_key in Hi.
    by destruct Hi. }
  apply NoDup_fst_map_to_list.
Qed.

(** ** Category scores *)

(** The category maximum, computed from any order of the entries. *)
Definition max_of (c : string) (best : Z) (f : L7Finding) : Z :=
  if bool_decide (fi_Category f = c) then Z.max best (fi_Score f) else best.

Definition category_top (entries : list L7Finding) (c : string) : Z := fold_left (max_of c) entries 0.

Lemma max_of_le c entries b : b <= fold_left (max_of c) entries b.
Proof.
  revert b. induction entries as [|f fs IH]; intros b; cbn; [lia|].
  etransitivity; [|apply IH]. unfold max_of. destruct (bool_decide _); lia.
Qed.

Lemma category_lookup entries c :
  categoryMax entries !! c = if 0 <? category_top entries c then Some (category_top entries c) else None.
Proof.
  unfold categoryMax, category_top.
  assert (forall m b, m !! c = (if 0 <? b then Some b else None) -> 0 <= b ->
    fold_left category_step entries m !! c =
    if 0 <? fold_left (max_of c) entries b then Some (fold_left (max_of c) entries b) else None) as H.
  { induction entries as [|f fs IH]; intros m b Hm Hb; [done|]. cbn. apply IH.
    - unfold category_step, max_of. destruct (bool_decide_reflect (fi_Category f = c)) as [<-|Hne].
      + assert (default 0 (m !! fi_Category f) = b) as -> by (rewrite Hm; destruct (Z.ltb_spec 0 b); cbn; lia).
        destruct (Z.ltb_spec b (fi_Score f)).
        * rewrite lookup_insert_eq, Z.max_r by lia. by rewrite (proj2 (Z.ltb_lt _ _)) by lia.
        * by rewrite Z.max_l by lia.
      + destruct (default 0 _ <? _); [by rewrite lookup_insert_ne|done].
    - unfold max_of. destruct (bool_decide _); lia. }
  by apply H.
Qed.

Lemma category_top_perm e1 e2 c : e1 ≡ₚ e2 -> category_top e1 c = category_top e2 c.
Proof.
  intros HP. unfold category_top. generalize 0. induction HP as [|x l1 l2 _ IH|x y l|l1 l2 l3 _ IH1 _ IH2]; intros b.
  - done.
  - cbn. apply IH.
  - cbn. f_equal. unfold max_of. destruct (bool_decide _), (bool_decide _); lia.
  - by rewrite IH1.
Qed.

Lemma categoryMax_perm e1 e2 : e1 ≡ₚ e2 -> categoryMax e1 = categoryMax e2.
Proof.
  intros HP. apply map_eq. intros c. rewrite !category_lookup. by rewrite (category_top_perm _ _ c HP).
Qed.

(** ** Order of iteration *)

#[local] Instance finding_le_total : Total finding_le.
Proof.
  intros a b. unfold finding_le. destruct (Z.lt_trichotomy (fi_Score a) (fi_Score b)) as [|[HE|]]; [by right; left| |by left; left].
  destruct (total String.le (fi_RuleID a) (fi_RuleID b)); [by left; right|by right; right].
Qed.
#[local] Instance finding_le_trans : Transitive finding_le.
Proof.
  intros a b c. unfold finding_le. intros [?|[? ?]] [?|[? ?]]; [left; lia..|].
  right. split; [lia|]. by transitivity (fi_RuleID b).
Qed.
#[local] Instance ge_total : Total Z.ge.
Proof. intros a b. lia. Qed.
#[local] Instance ge_trans : Transitive Z.ge.
Proof. intros a b c. lia. Qed.
#[local] Instance ge_antisymm : AntiSymm (=) Z.ge.
Proof. intros a b. lia. Qed.

Lemma sort_scores_perm l1 l2 : l1 ≡ₚ l2 -> merge_sort Z.ge l1 = merge_sort Z.ge l2.
Proof.
  intros HP. apply (StronglySorted_unique Z.ge); [apply StronglySorted_merge_sort; apply _..|].
  by rewrite !merge_sort_Permutation.
Qed.

Lemma sort_findings_perm l1 l2 : NoDup (map fi_RuleID l2) -> l1 ≡ₚ l2 ->
  merge_sort finding_le l1 = merge_sort finding_le l2.
Proof.
  intros HD HP.
  assert (merge_sort finding_le l1 ≡ₚ l2) as HP1 by (by rewrite merge_sort_Permutation).
  assert (merge_sort finding_le l2 ≡ₚ l2) as HP2 by apply merge_sort_Permutation.
  apply (StronglySorted_unique_strong finding_le); [|apply StronglySorted_merge_sort; apply _..|by rewrite HP1, HP2].
  intros a b Ha Hb Hab Hba. rewrite HP1 in Ha. rewrite HP2 in Hb.
  assert (fi_RuleID a = fi_RuleID b) as HE.
  { destruct Hab as [?|[? ?]], Hba as [?|[? ?]]; try lia. by apply (anti_symm String.le). }
  clear -HD Ha Hb HE. induction l2 as [|x l IH]; [by apply elem_of_nil in Ha|]. cbn in HD.
  apply NoDup_cons in HD as [Hnew HD]. apply elem_of_cons in Ha as [->|Ha], Hb as [->|Hb]; [done| | |by apply IH].
  - destruct Hnew. rewrite HE. by apply list_elem_of_fmap_2.
  - destruct Hnew. rewrite <- HE. by apply list_elem_of_fmap_2.
Qed.

Lemma confidence_perm e1 e2 b : e1 ≡ₚ e2 ->
  fold_left (fun c f => if c <? fi_Confidence f then fi_Confidence f else c) e1 b =
  fold_left (fun c f => if c <? fi_Confidence f then fi_Confidence f else c) e2 b.
Proof.
  intros HP. revert b. induction HP as [|x l1 l2 _ IH|x y l|l1 l2 l3 _ IH1 _ IH2]; intros b; cbn; [done|apply IH| |].
  - f_equal. destruct (Z.ltb_spec b (fi_Confidence x)), (Z.ltb_spec b (fi_Confidence y));
      repeat match goal with |- context [?a <? ?b] => destruct (Z.ltb_spec a b) end; lia.
  - by rewrite IH1.
Qed.

(** The verdict does not depend on map iteration. Whatever order the code
    visits the rules and the categories in, the score, the confidence and the
    list of findings are the same. *)
Theorem aggregate_order_irrelevant fs entries scores :
  fs <> [] -> entries ≡ₚ values (byRule fs) -> scores ≡ₚ values (categoryMax entries) ->
  aggregate_with entries scores = aggregateL7Findings fs.
Proof.
  intros Hne HE HS. unfold aggregateL7Findings. destruct fs as [|f fs]; [done|].
  rewrite (categoryMax_perm _ _ HE) in HS. unfold aggregate_with.
  rewrite (sort_scores_perm _ _ HS), (confidence_perm _ _ _ HE).
  by rewrite (sort_findings_perm entries (values (byRule (f :: fs)))) by (done || apply values_rules).
Qed.

(** ** Monotonicity of the score *)

Lemma sorted_count_le (l : list Z) (i : nat) (t : Z) : StronglySorted Z.ge l -> l !! i = Some t ->
  (i < length (filter (fun x : Z => (t <= x)%Z) l))%nat.
Proof.
  intros HS. revert i. induction HS as [|x l HS IH HF]; intros i Hi; [done|].
  destruct i as [|i]; cbn in Hi.
  - simplify_eq. rewrite filter_cons_True by lia. cbn. lia.
  - assert (t <= x) as Hx.
    { rewrite Forall_forall in HF. apply list_elem_of_lookup_2 in Hi. specialize (HF _ Hi). lia. }
    rewrite filter_cons_True by done. cbn. specialize (IH _ Hi). lia.
Qed.

Lemma sorted_count_ge (l : list Z) (i : nat) (t : Z) : StronglySorted Z.ge l ->
  (i < length (filter (fun x : Z => (t <= x)%Z) l))%nat -> exists x, l !! i = Some x /\ t <= x.
Proof.
  intros HS. revert i. induction HS as [|x l HS IH HF]; intros i Hi; [cbn in Hi; lia|].
  destruct (decide (t <= x)) as [Hx|Hx].
  - rewrite filter_cons_True in Hi by done. destruct i as [|i]; [by exists x|]. cbn in Hi |- *. apply IH. lia.
  - rewrite filter_cons_False in Hi by done. exfalso.
    assert (filter (fun y : Z => (t <= y)%Z) l = []) as HE; [|rewrite HE in Hi; cbn in Hi; lia].
    clear -HF Hx. induction HF as [|y l Hy _ IH]; [done|]. rewrite filter_cons_False by lia. done.
Qed.

(** A map below another, entry by entry. *)
Definition below (m1 m2 : gmap string Z) : Prop :=
  forall k x, m1 !! k = Some x -> exists y, m2 !! k = Some y /\ x <= y.

Lemma count_values m (t : Z) :
  length (filter (fun x : Z => (t <= x)%Z) (values m)) = length (filter (fun kv => (t <= kv.2)%Z) (map_to_list m)).*1.
Proof.
  unfold values. rewrite length_fmap. induction (map_to_list m) as [|[k x] l IH]; [done|].
  rewrite fmap_cons, !filter_cons. cbn [snd]. destruct (decide (t <= x)); [cbn; by rewrite IH|done].
Qed.

Lemma below_count m1 m2 (t : Z) : below m1 m2 ->
  (length (filter (fun x : Z => (t <= x)%Z) (values m1)) <= length (filter (fun x : Z => (t <= x)%Z) (values m2)))%nat.
Proof.
  intros HB. rewrite !count_values. apply submseteq_length, NoDup_submseteq.
  - eapply sublist_NoDup; [apply (NoDup_fst_map_to_list m1)|]. apply fmap_sublist, sublist_filter.
  - intros k ([k' x] & -> & Hin)%list_elem_of_fmap. apply list_elem_of_filter in Hin as [Hx Hin].
    apply elem_of_map_to_list in Hin. cbn in *. destruct (HB _ _ Hin) as (y & Hy & Hxy).
    apply list_elem_of_fmap. exists (k', y). split; [done|]. apply list_elem_of_filter. split; [cbn; lia|].
    by apply elem_of_map_to_list.
Qed.

(** Dominated lists weigh less. *)
Lemma weighted_mono (l1 l2 ws : list Z) :
  (forall i x, l1 !! i = Some x -> exists y, l2 !! i = Some y /\ x <= y) ->
  Forall (fun x => 0 <= x) l2 -> Forall (fun w => 0 < w) ws ->
  foldr Z.add 0 (zip_with Z.quot l1 ws) <= foldr Z.add 0 (zip_with Z.quot l2 ws).
Proof.
  intros HL HN HW. revert l1 l2 HL HN. induction HW as [|w ws Hw HW IH]; intros l1 l2 HL HN.
  { by rewrite !zip_with_nil_r. }
  destruct l2 as [|y l2].
  { destruct l1 as [|x l1]; [done|]. by destruct (HL 0%nat x eq_refl) as (? & ? & _). }
  apply Forall_cons in HN as [Hy HN]. destruct l1 as [|x l1]; cbn.
  - assert (foldr Z.add 0 (zip_with Z.quot [] ws) <= foldr Z.add 0 (zip_with Z.quot l2 ws)) as H
      by (apply IH; [by intros []|done]). cbn in H. pose proof (Z.quot_pos y w). lia.
  - destruct (HL 0%nat x eq_refl) as (y' & [= <-] & Hxy). apply Z.add_le_mono; [by apply Z.quot_le_mono|].
    apply IH; [|done]. intros i. exact (HL (S i)).
Qed.

Lemma clampScore_mono a b : a <= b -> clampScore a <= clampScore b.
Proof.
  intros. unfold clampScore.
  repeat match goal with |- context [?a <? ?b] => destruct (Z.ltb_spec a b) end; lia.
Qed.

Lemma weighted_below m1 m2 : below m1 m2 -> Forall (fun x => 0 <= x) (values m2) ->
  weighted (merge_sort Z.ge (values m1)) <= weighted (merge_sort Z.ge (values m2)).
Proof.
  intros HB HN. unfold weighted.
  assert (forall l, StronglySorted Z.ge (merge_sort Z.ge l)) as HS by (intros; apply StronglySorted_merge_sort; apply _).
  assert (forall l t, length (filter (fun x : Z => (t <= x)%Z) (merge_sort Z.ge l)) = length (filter (fun x : Z => (t <= x)%Z) l)) as HP.
  { intros l t. by rewrite (merge_sort_Permutation Z.ge l). }
  apply weighted_mono.
  - intros i x Hi. apply sorted_count_ge; [done|]. apply sorted_count_le in Hi; [|done].
    rewrite HP in Hi |- *. pose proof (below_count m1 m2 x HB). lia.
  - by rewrite merge_sort_Permutation.
  - repeat constructor.
Qed.

Lemma category_top_sub entries1 entries2 c :
  (forall f, f ∈ entries1 -> f ∈ entries2) -> category_top entries1 c <= category_top entries2 c.
Proof.
  intros Hsub. unfold category_top.
  assert (forall es b f, f ∈ es -> fi_Category f = c -> fi_Score f <= fold_left (max_of c) es b) as Hin.
  { induction es as [|g es IH]; intros b f Hf Hc; [by apply elem_of_nil in Hf|]. cbn.
    apply elem_of_cons in Hf as [<-|Hf]; [|by apply IH].
    etransitivity; [|apply max_of_le]. unfold max_of. rewrite bool_decide_true by done. lia. }
  assert (forall b, b <= fold_left (max_of c) entries2 0 -> fold_left (max_of c) entries1 b <=
    fold_left (max_of c) entries2 0) as H; [|apply H, max_of_le].
  induction entries1 as [|f es IH]; intros b Hb; [done|]. cbn. apply IH.
  - intros g Hg. apply Hsub. by right.
  - unfold max_of. destruct (bool_decide_reflect (fi_Category f = c)); [|done].
    apply Z.max_lub; [done|]. apply Hin; [|done]. apply Hsub. by left.
Qed.

Abbreviation score_of fs := (aggregateL7Findings fs).1.1.
Abbreviation unique_of fs := (aggregateL7Findings fs).2.

Lemma score_of_eq fs :
  score_of fs = clampScore (weighted (merge_sort Z.ge (values (categoryMax (values (byRule fs)))))).
Proof. by destruct fs. Qed.

Lemma unique_of_eq fs : unique_of fs = merge_sort finding_le (values (byRule fs)).
Proof. by destruct fs. Qed.

Lemma category_below e1 e2 : (forall f, f ∈ e1 -> f ∈ e2) -> below (categoryMax e1) (categoryMax e2).
Proof.
  intros Hsub c x. rewrite !category_lookup. pose proof (category_top_sub e1 e2 c Hsub) as Hle.
  destruct (Z.ltb_spec 0 (category_top e1 c)); [|done]. intros [= <-].
  exists (category_top e2 c). by rewrite (proj2 (Z.ltb_lt _ _)) by lia.
Qed.

Lemma category_values_pos entries : Forall (fun x => 0 <= x) (values (categoryMax entries)).
Proof.
  apply Forall_forall. intros x [c Hc]%values_elem. rewrite category_lookup in Hc.
  destruct (Z.ltb_spec 0 (category_top entries c)); [|done]. simplify_eq. lia.
Qed.

(** Without some of the rules the score is not higher. *)
Lemma score_filter_le (P : string -> bool) fs :
  score_of (List.filter (fun f => P (fi_RuleID f)) fs) <= score_of fs.
Proof.
  rewrite !score_of_eq. apply clampScore_mono, weighted_below; [|apply category_values_pos].
  apply category_below. intros f [id Hid]%values_elem. rewrite byRule_filter in Hid.
  apply map_lookup_filter_Some in Hid as [Hid _]. apply values_elem. by exists id.
Qed.

(** ** The response explains itself *)

Lemma byRule_nodup l id f : NoDup (map fi_RuleID l) -> f ∈ l -> fi_RuleID f = id -> byRule l !! id = Some f.
Proof.
  intros HD Hf Hid. rewrite byRule_lookup.
  assert (forall l b, id ∉ map fi_RuleID l -> fold_left (best_of id) l b = b) as Hskip.
  { clear. induction l as [|g l IH]; intros b Hn; [done|]. cbn in Hn |- *. apply not_elem_of_cons in Hn as [H1 H2].
    unfold best_of at 2. rewrite bool_decide_false by done. by apply IH. }
  induction l as [|g l IH]; [by apply elem_of_nil in Hf|]. cbn in HD. apply NoDup_cons in HD as [Hnew HD]. cbn.
  apply elem_of_cons in Hf as [<-|Hf].
  - unfold best_of at 2. rewrite bool_decide_true by done. subst id. by rewrite Hskip.
  - unfold best_of at 2. rewrite bool_decide_false; [by apply IH|].
    intros HE. destruct Hnew. rewrite HE, <- Hid. by apply list_elem_of_fmap_2.
Qed.

Lemma unique_elem fs f : f ∈ unique_of fs <-> byRule fs !! fi_RuleID f = Some f.
Proof.
  rewrite unique_of_eq, merge_sort_Permutation, values_elem. split; [|by eauto].
  intros [k Hk]. pose proof (byRule_key _ _ _ Hk) as [-> _]. done.
Qed.

Lemma unique_nodup fs : NoDup (map fi_RuleID (unique_of fs)).
Proof. rewrite unique_of_eq, merge_sort_Permutation. apply values_rules. Qed.

Lemma byRule_unique fs : byRule (unique_of fs) = byRule fs.
Proof.
  apply map_eq. intros id. destruct (byRule fs !! id) as [f|] eqn:Hf.
  - pose proof (byRule_key _ _ _ Hf) as [<- _]. by apply byRule_nodup; [apply unique_nodup|apply unique_elem|].
  - destruct (byRule (unique_of fs) !! id) as [f|] eqn:Hu; [|done].
    apply byRule_key in Hu as [<- Hin%unique_elem]. congruence.
Qed.

Lemma score_filter_unique (P : string -> bool) fs :
  score_of (List.filter (fun f => P (fi_RuleID f)) (unique_of fs)) =
  score_of (List.filter (fun f => P (fi_RuleID f)) fs).
Proof. rewrite !score_of_eq, !byRule_filter. by rewrite byRule_unique. Qed.

Lemma score_unique fs : score_of (unique_of fs) = score_of fs.
Proof. rewrite !score_of_eq. by rewrite byRule_unique. Qed.

Lemma score_range fs : 0 <= score_of fs <= 250.
Proof.
  rewrite score_of_eq. unfold clampScore.
  repeat match goal with |- context [?a <? ?b] => destruct (Z.ltb_spec a b) end; lia.
Qed.

(** ** Who may block *)

(** A rule may authorise a block: no override makes it alert-only, and it is in
    the enforcement scope. *)
Definition may_block (s : l7RuntimeSnapshot) (id : string) : bool :=
  (bool_decide (sn_ruleExact s = ∅) && bool_decide (sn_ruleByFamily s = ∅) ||
   match overrideFor s id with Some o => negb (ro_AlertOnly o) | None => true end) && blockEligible s id.

Lemma override_loop_blockable s fs kept blockable : override_loop s fs = (kept, blockable) ->
  blockable = List.filter (fun f => match overrideFor s (fi_RuleID f) with
    Some o => negb (ro_AlertOnly o) | None => true end) kept /\ (length kept <= length fs)%nat.
Proof.
  revert kept blockable. induction fs as [|f fs IH]; intros kept blockable; cbn; [by intros [= <- <-]|].
  destruct (override_loop s fs) as [k b]. destruct (IH _ _ eq_refl) as [-> Hl].
  destruct (overrideFor s (fi_RuleID f)) as [o|] eqn:Ho.
  - destruct (ro_Enabled o); cbn [negb]; intros [= <- <-]; [|split; [done|lia]].
    cbn. rewrite Ho. split; [by destruct (ro_AlertOnly o)|lia].
  - intros [= <- <-]. cbn. rewrite Ho. split; [done|lia].
Qed.

Lemma filter_filter {A} (p q : A -> bool) l :
  List.filter p (List.filter q l) = List.filter (fun x => q x && p x) l.
Proof. induction l as [|x l IH]; [done|]. cbn. destruct (q x); cbn; by rewrite ?IH. Qed.

Lemma filter_ext_eq {A} (p q : A -> bool) l : (forall x, p x = q x) -> List.filter p l = List.filter q l.
Proof. intros H. induction l as [|x l IH]; [done|]. cbn. by rewrite H, IH. Qed.

Lemma blockable_eq s fs kept blockable : applyRuleOverrides s fs = (kept, blockable) ->
  List.filter (fun f => blockEligible s (fi_RuleID f)) blockable =
  List.filter (fun f => may_block s (fi_RuleID f)) kept /\ (length kept <= length fs)%nat.
Proof.
  unfold applyRuleOverrides, may_block.
  destruct (bool_decide_reflect (fs = [])) as [->|]; [by intros [= <- <-]|].
  destruct (bool_decide (sn_ruleExact s = ∅) && bool_decide (sn_ruleByFamily s = ∅)).
  - intros [= <- <-]. done.
  - intros [-> Hl]%override_loop_blockable. split; [|done]. by rewrite filter_filter.
Qed.

(** What the engine's configuration check guarantees of the thresholds. *)
Definition thresholds_ok (cfg : L7Config) : Prop := 1 <= c_AlertScore cfg < c_BlockScore cfg.

Abbreviation block_score s fs := (score_of (List.filter (fun f => may_block s (fi_RuleID f)) fs)).

(** The verdict as a function of the published findings. *)
Definition verdict (s : l7RuntimeSnapshot) (gate : option bool) (fs : list L7Finding) : string :=
  if c_BlockScore (sn_cfg s) <=? block_score s fs
  then if bool_decide (c_Mode (sn_cfg s) = "block") && releaseGateAllowsBlock gate then "block" else "observe"
  else if c_AlertScore (sn_cfg s) <=? score_of fs then "observe" else "allow".

Lemma score_pos_found fs : 1 <= score_of fs -> unique_of fs <> [].
Proof. intros Hs HE. pose proof (score_unique fs) as HU. rewrite HE in HU. cbn in HU. lia. Qed.

Lemma respond_spec s gate req fs : thresholds_ok (sn_cfg s) ->
  let r := respond s gate req fs in
  re_Score r = score_of (re_Findings r) /\
  re_Decision r = verdict s gate (re_Findings r) /\
  (re_Enforced r = true <-> re_Decision r = "block") /\
  NoDup (map fi_RuleID (re_Findings r)) /\ (length (re_Findings r) <= length fs)%nat.
Proof.
  intros [Ha Hb]. unfold respond. destruct (applyRuleOverrides s fs) as [kept blockable] eqn:HO.
  destruct (blockable_eq _ _ _ _ HO) as [-> Hl].
  destruct (aggregateL7Findings kept) as [[score confidence] unique] eqn:HA.
  assert (score = score_of kept) as -> by (by rewrite HA).
  assert (unique = unique_of kept) as -> by (by rewrite HA). clear HA.
  assert (length (unique_of kept) <= length fs)%nat as Hlen.
  { etransitivity; [|exact Hl]. rewrite <- (length_map fi_RuleID (unique_of kept)), <- (length_map fi_RuleID kept).
    apply submseteq_length, NoDup_submseteq; [apply unique_nodup|].
    intros x (f & -> & Hf%unique_elem)%list_elem_of_fmap. apply byRule_key in Hf as [_ Hf]. by apply list_elem_of_fmap_2. }
  unfold verdict. pose proof (score_filter_le (may_block s) kept) as Hle.
  pose proof (score_pos_found kept) as Hfound.
  destruct (Z.leb_spec (c_BlockScore (sn_cfg s)) (block_score s kept)) as [HB|HB]; cbn [andb].
  - rewrite bool_decide_false by (apply Hfound; lia). cbn [negb].
    destruct (bool_decide (c_Mode (sn_cfg s) = "block") && releaseGateAllowsBlock gate) eqn:Hg;
      cbn [re_Score re_Findings re_Decision re_Enforced]; rewrite score_filter_unique, score_unique,
        (proj2 (Z.leb_le _ _) HB); split_and!; try done; apply unique_nodup.
  - destruct (Z.leb_spec (c_AlertScore (sn_cfg s)) (score_of kept)) as [HS|HS]; cbn [andb].
    + rewrite bool_decide_false by (apply Hfound; lia). cbn [negb re_Score re_Findings re_Decision re_Enforced].
      rewrite score_filter_unique, score_unique, (proj2 (Z.leb_gt _ _) HB), (proj2 (Z.leb_le _ _) HS).
      split_and!; try done. apply unique_nodup.
    + cbn [re_Score re_Findings re_Decision re_Enforced].
      rewrite score_filter_unique, score_unique, (proj2 (Z.leb_gt _ _) HB), (proj2 (Z.leb_gt _ _) HS).
      split_and!; try done. apply unique_nodup.
Qed.

Section Inspection.
Context `{U : Unicode} `{C : Crypto} {M T : Type} (cms : cms_ops M) (sensor : tls_sensor T).

Lemma inspect_inv i (e : L7Engine M T) s resp req e' fx :
  e_live e = Some s -> inspect cms sensor i e = (inr (resp, req), e', fx) ->
  exists fs, resp = respond s (in_canBlock i) req fs /\ in_normalized i s = inr req /\
    (length fs <= maxFindings)%nat /\ e_live e' = Some s.
Proof.
  intros Hlive. unfold inspect. destruct (in_ctx i 0); [done|]. rewrite Hlive.
  destruct (in_slot i); [done|]. destruct (in_normalized i s) as [|req0]; [done|].
  destruct (ask_cms cms req0 (in_now i) (e_cms e)) as [[[trusted budget] editor] m].
  destruct (charge_rate s req0 (in_now i) trusted budget (e_limiter e)) as [rated l] eqn:HC.
  assert (length rated <= 1)%nat as Hr.
  { unfold charge_rate in HC. destruct (if trusted then _ else _) as [[allowed scope] l0].
    injection HC as <- _. destruct allowed; cbn; lia. }
  cbn [e_detectors set_limiter set_cms].
  destruct (run_detectors _ _ _ _ _ _) as [|fs] eqn:HD; [done|].
  assert (length fs <= maxFindings)%nat as Hf.
  { clear -HD Hr. assert (length rated <= maxFindings)%nat as Hr' by (unfold maxFindings; lia). clear Hr.
    revert rated Hr' HD. generalize 1%nat. induction (e_detectors e) as [|d ds IH]; intros n rated Hr HD; cbn [run_detectors] in HD.
    { by simplify_eq. }
    destruct (in_ctx i n); [done|]. destruct (d req0 s) as [|detected]; [done|].
    destruct (Nat.leb_spec maxFindings (length (rated ++ detected))).
    - simplify_eq. rewrite length_take. lia.
    - eapply IH; [|exact HD]. lia. }
  set (fs' := if editor then suppress_xss fs else fs).
  assert (length fs' <= maxFindings)%nat as Hf'.
  { unfold fs', suppress_xss. destruct editor; [|done]. etransitivity; [apply List.filter_length_le|done]. }
  destruct (ask_tls sensor req0 (in_now i) fs' _) as [fs2 t] eqn:HT.
  assert (length fs2 <= maxFindings)%nat as Hf2.
  { unfold ask_tls in HT. destruct (e_tls _) as [t0|]; [|by simplify_eq].
    destruct (_ <? _)%nat; [|by simplify_eq].
    destruct (RecordHTTPRequestForHost _ _ _ _ _) as [more t1]. simplify_eq. rewrite length_take. lia. }
  intros HE. injection HE as <- <- <- _. exists fs2. split_and!; [done|done|done|exact Hlive].
Qed.

(** C36: the verdict is justified by the published findings. With the thresholds
    the settings check guarantees ([thresholds_ok]), a response carries at
    most 64 findings, one per rule, and its score and decision are recomputed
    from them: it is enforced exactly when the decision is to block, it blocks
    exactly when the operator's mode is block, the release gate is open and the
    findings that are neither alert-only nor out of the enforcement scope reach
    the block threshold by themselves, and it allows exactly when all findings
    together stay below the alert threshold. *)
Theorem verdict_justified i (e : L7Engine M T) s resp req e' fx :
  e_live e = Some s -> thresholds_ok (sn_cfg s) ->
  inspect cms sensor i e = (inr (resp, req), e', fx) ->
  let fs := re_Findings resp in
  (length fs <= 64)%nat /\ NoDup (map fi_RuleID fs) /\ re_Score resp = score_of fs /\
  (re_Enforced resp = true <-> re_Decision resp = "block") /\
  (re_Decision resp = "block" <->
     c_Mode (sn_cfg s) = "block" /\ in_canBlock i = Some true /\ c_BlockScore (sn_cfg s) <= block_score s fs) /\
  (re_Decision resp = "allow" <-> re_Score resp < c_AlertScore (sn_cfg s)).
Proof.
  intros Hlive Hok HI. destruct (inspect_inv _ _ _ _ _ _ _ Hlive HI) as (fs0 & -> & _ & Hl & _).
  destruct (respond_spec s (in_canBlock i) req fs0 Hok) as (HS & HD & HE & HN & HL). cbv zeta.
  set (r := respond s (in_canBlock i) req fs0) in *. set (fs := re_Findings r) in *. rewrite HS, HD in *.
  pose proof (score_filter_le (may_block s) fs) as Hle. destruct Hok as [Ha Hb].
  split_and!; [unfold maxFindings in Hl; lia|done|done|done| |]; unfold verdict.
  - destruct (Z.leb_spec (c_BlockScore (sn_cfg s)) (block_score s fs)) as [HB|HB].
    + destruct (bool_decide_reflect (c_Mode (sn_cfg s) = "block")); cbn [andb]; [|split; [done|tauto]].
      unfold releaseGateAllowsBlock. destruct (in_canBlock i) as [[]|]; cbn; split; try done; by intros (_ & ? & _).
    + split; [|lia]. by destruct (_ <=? score_of fs).
  - destruct (Z.leb_spec (c_BlockScore (sn_cfg s)) (block_score s fs)) as [HB|HB].
    + split; [|lia]. by destruct (_ && _).
    + destruct (Z.leb_spec (c_AlertScore (sn_cfg s)) (score_of fs)); split; (done || lia).
Qed.
End Inspection.

(** With an empty registry and scope every rule counts towards a block. *)
Lemma empty_registry_may_block s id :
  sn_ruleExact s = ∅ -> sn_ruleByFamily s = ∅ -> sn_enforceExact s = ∅ -> sn_enforceFamilies s = [] ->
  may_block s id = true.
Proof. intros H1 H2 H3 H4. unfold may_block, blockEligible. by rewrite H1, H2, H3, H4. Qed.

(** * The Layer-7 settings and engine on concrete inputs *)

(** A document with work for every normalization. *)
Definition raw_settings : L7FabricSettings :=
  mkFabric true "block" "/run/gedefense/l7.sock" 4 1000 66560 0 0 256 1024 8 256 131072 16 1 1 1 1
    50 100 [" l7.upload "; "L7.XSS.SCRIPT_TAG"; "L7.UPLOAD"] 60 60 60 60 60 60 64 ["/login"; " /admin "; "/login"]
    true [33; 0; 33] [] "" false "" "" 0 false ["Example.ORG."; "a.example"] 2 2 false 1024 "" true "alert" 35
    [mkRule "l7.rate_limit" true 40 90 true; mkRule "L7.JNDI.LOOKUP" true 120 99 false].

Definition no_upstream : string -> error := fun _ => errors_New "no upstream".

Definition clean_settings : L7FabricSettings :=
  Eval vm_compute in
    match validateL7FabricSettings no_upstream raw_settings with inr s => s | inl _ => raw_settings end.

Lemma raw_accepted : validateL7FabricSettings no_upstream raw_settings = inr clean_settings.
Proof. by vm_compute. Qed.

Lemma clean_lists :
  f_SensitivePaths clean_settings = ["/admin"; "/login"] /\ f_AllowedPeerUIDs clean_settings = [0; 33] /\
  f_TLSAllowedDomains clean_settings = ["a.example"; "example.org"] /\
  f_EnforceRules clean_settings = ["L7.UPLOAD"; "L7.XSS.SCRIPT_TAG"] /\
  map ro_ID (f_Rules clean_settings) = ["L7.JNDI.LOOKUP"; "L7.RATE_LIMIT"].
Proof. by vm_compute. Qed.

Lemma settings_canonical_witness : validateL7FabricSettings no_upstream clean_settings = inr clean_settings.
Proof. exact (settings_canonical no_upstream raw_settings clean_settings raw_accepted). Defined.

(** A sensor that counts its loads. *)
Definition counting_ops : tls_ops nat := mkTLSOps nat (fun _ t => (None, S t)) (fun _ _ _ _ t => t).
Definition demo_process : l7_process nat := mkProcess (buildL7RuntimeSnapshot many_small 1) (Some 0%nat).

Lemma restart_class_frozen_witness : exists r p',
  applyL7FabricSettings counting_ops few_large 2 demo_process = (None, r, p') /\ RestartRequired r = true /\
  restart_class (sn_active (p_live p')) = restart_class many_small /\
  f_MaxBodyBytes (sn_active (p_live p')) = 16 * MiB.
Proof.
  destruct (applyL7FabricSettings counting_ops few_large 2 demo_process) as [[err r] p'] eqn:HA.
  assert (err = None) as -> by (vm_compute in HA; by injection HA as <-).
  destruct (restart_class_frozen counting_ops few_large 2 demo_process None r p' HA) as (HR & HK & HL & _).
  exists r, p'. split; [reflexivity|]. split; [apply HR; by vm_compute|]. split; [exact HK|].
  rewrite (HL eq_refl). by vm_compute.
Defined.

Lemma ja3_reload_unreachable_witness : f_TLSJA3Reload raw_settings = true /\
  exists err r p', applyL7FabricSettings counting_ops clean_settings 2 demo_process = (err, r, p') /\
    Ja3Reloaded r = false.
Proof.
  split; [reflexivity|].
  destruct (applyL7FabricSettings counting_ops clean_settings 2 demo_process) as [[err r] p'] eqn:HA.
  exists err, r, p'. split; [reflexivity|].
  apply (ja3_reload_unreachable counting_ops no_upstream raw_settings clean_settings 2 demo_process err r p'
           raw_accepted HA).
Defined.

Lemma memory_budget_enforced_witness :
  inspection_bytes clean_settings * f_MaxConcurrent clean_settings <= 384 * MiB /\
  f_MaxBodyBytes clean_settings + f_MaxHeaderBytes clean_settings + 2 * f_MaxURIBytes clean_settings
    <= f_MaxInspectionBytes clean_settings.
Proof.
  apply (memory_budget_enforced no_upstream raw_settings clean_settings raw_accepted).
  split; [by vm_compute|]. split; by vm_compute.
Defined.

(** ** Inspections *)

Definition finding (id category : string) (score : Z) : L7Finding :=
  newL7Finding id category "high" score 90 "body" "evidence" "summary".

Definition some_findings : list L7Finding :=
  [finding "L7.SQLI.UNION_SELECT" "sqli" 90; finding "L7.XSS.SCRIPT_TAG" "xss" 80;
   finding "L7.XSS.SCRIPT_TAG" "xss" 95].

Lemma aggregate_order_irrelevant_witness :
  aggregate_with (rev (values (byRule some_findings))) [90; 95] = aggregateL7Findings some_findings.
Proof.
  apply (aggregate_order_irrelevant some_findings).
  - discriminate.
  - symmetry. apply Permutation_rev.
  - vm_compute. apply Permutation_refl || apply perm_swap.
Defined.

(** The score: the best category in full, the second one by half. *)
Lemma demo_score : (aggregateL7Findings some_findings).1.1 = 95 + 45.
Proof. by vm_compute. Qed.

Definition demo_snapshot : l7RuntimeSnapshot := buildL7RuntimeSnapshot clean_settings 1.
Definition demo_request : l7NormalizedRequest :=
  mkNormalized "req-1" "POST" "https" "example.org" "/upload" "/upload" "192.0.2.1" ∅ "" "" "" [] 0 false 0 "".

Definition demo_l7 : L7Engine () () :=
  mkL7Engine (Some demo_snapshot)
    [fun _ _ => inr some_findings; fun _ _ => inr [finding "L7.JNDI.LOOKUP" "injection" 110]]
    (Some (newL7RateLimiterWithRuntime 64 1000)) None None true.

Definition demo_cms : cms_ops () :=
  mkCMS () (fun _ m => m) (fun _ _ _ _ => false) (fun _ _ => false) (fun _ _ => (0, 0)) (fun _ => false).
Definition demo_sensor : tls_sensor () := mkTLSSensor () (fun _ _ _ t => ([], t)).

Definition demo_inspection : inspection :=
  mkInspection (fun _ => None) None (fun _ => inr demo_request) 1000 (Some true).

(** Three rules are found; only the XSS rule is in the enforcement scope, and it
    does not reach the threshold alone: the request passes, observed. *)
Lemma verdict_justified_witness : exists resp req e' fx,
  inspect demo_cms demo_sensor demo_inspection demo_l7 = (inr (resp, req), e', fx) /\
  length (re_Findings resp) = 3%nat /\ c_BlockScore (sn_cfg demo_snapshot) <= re_Score resp /\
  re_Decision resp <> "block" /\ re_Decision resp <> "allow".
Proof.
  destruct (inspect demo_cms demo_sensor demo_inspection demo_l7) as [[[err|[resp req]] e'] fx] eqn:HI;
    [by vm_compute in HI|].
  pose proof (verdict_justified demo_cms demo_sensor demo_inspection demo_l7 demo_snapshot resp req e' fx eq_refl
    ltac:(split; by vm_compute) HI) as (_ & _ & _ & _ & HB & HA).
  exists resp, req, e', fx. split; [reflexivity|].
  vm_compute in HI. injection HI as <- <- _ _. split; [reflexivity|]. split; [by vm_compute|]. split.
  - intros HD. apply HB in HD as (_ & _ & HD). vm_compute in HD. by apply HD.
  - intros HD. apply HA in HD. by vm_compute in HD.
Defined.
