(* ===== verification/Sessions.v ===== *)
(** * Gateway sessions

    src/gateway/sessions.go: the registry of browser sessions of the access
    gateway, its operations under the registry lock, and the signed cookie.

    The registry maps session ids to pointers: after a rotation two ids share
    one record, which the operations mutate in place. The model keeps that
    aliasing: records live in a heap indexed by addresses. Each operation takes
    the reading of [r.now()], the outcome of the random source and, where the
    result can depend on it, the order of its [range] loops. *)

From Stdlib Require Import ZArith Lia Ascii String.
From stdpp Require Import base gmap strings list relations functions.
From S2P Require Import Prelude.
From S2P Require Import GoLib.

Definition sessionAbsoluteLifetime : duration := 8 * Time.Hour.
Definition sessionIdleTimeout : duration := 30 * Time.Minute.
Definition sessionRotationInterval : duration := 15 * Time.Minute.
Definition sessionRotationGrace : duration := 30 * Time.Second.
Definition maxGatewaySessions : Z := 64.

Record gatewaySession := mkSession {
  s_id : string;
  s_previousID : string;
  s_previousValidUntil : time;
  s_created : time;
  s_rotatedAt : time;
  s_lastSeen : time;
  s_expires : time;
}.

Abbreviation address := nat.

Record sessionRegistry := mkRegistry {
  r_heap : address -> gatewaySession;
  r_next : address;                    (* first unused address *)
  r_sessions : gmap string address;
  r_maxEntries : Z;
  r_absolute : duration;
  r_idle : duration;
}.

Definition set_sessions (m : gmap string address) (r : sessionRegistry) : sessionRegistry :=
  mkRegistry (r_heap r) (r_next r) m (r_maxEntries r) (r_absolute r) (r_idle r).
(** [*p = s] *)
Definition store (p : address) (s : gatewaySession) (r : sessionRegistry) : sessionRegistry :=
  mkRegistry (<[p := s]> (r_heap r)) (r_next r) (r_sessions r) (r_maxEntries r) (r_absolute r) (r_idle r).
(** [&gatewaySession{...}] *)
Definition alloc (s : gatewaySession) (r : sessionRegistry) : address * sessionRegistry :=
  (r_next r, mkRegistry (<[r_next r := s]> (r_heap r)) (S (r_next r)) (r_sessions r)
               (r_maxEntries r) (r_absolute r) (r_idle r)).
Definition set_lastSeen (t : time) (s : gatewaySession) : gatewaySession :=
  mkSession (s_id s) (s_previousID s) (s_previousValidUntil s) (s_created s) (s_rotatedAt s) t (s_expires s).

Definition zero_session : gatewaySession := mkSession "" "" 0 0 0 0 0.
Definition newSessionRegistry : sessionRegistry :=
  mkRegistry (fun _ => zero_session) 0 ∅ maxGatewaySessions sessionAbsoluteLifetime sessionIdleTimeout.

(** [io.ReadFull(rand.Reader, raw)] on 24 bytes either fails or fills them. *)
Definition randomSessionID (raw : goerror + string) : goerror + string :=
  ok_map base64_EncodeToString raw.

Definition deleteLocked (p : address) (r : sessionRegistry) : sessionRegistry :=
  let s := r_heap r p in
  let m := delete (s_id s) (r_sessions r) in
  set_sessions (if bool_decide (s_previousID s = "") then m else delete (s_previousID s) m) r.

(** The entry is dead: past its expiry or idle for too long. *)
Definition gc_dead (r : sessionRegistry) (now : time) (s : gatewaySession) : bool :=
  negb (Time.Before now (s_expires s)) || (r_idle r <? Time.Sub now (s_lastSeen s)).

Definition gc_step (now : time) (r : sessionRegistry) (id : string) : sessionRegistry :=
  match r_sessions r !! id with
  | None => r
  | Some p =>
      if gc_dead r now (r_heap r p)
      then let r := deleteLocked p r in set_sessions (delete id (r_sessions r)) r
      else r
  end.

(** [order] lists the keys in the order the loop would reach them; an entry
    deleted before it is reached is not visited. *)
Definition gcLocked (now : time) (order : list string) (r : sessionRegistry) : sessionRegistry :=
  fold_left (gc_step now) order r.

(** The loop of [create] over a full table. *)
Definition oldest_session (r : sessionRegistry) (order : list string) : option address :=
  fold_left (fun oldest id =>
    match r_sessions r !! id with
    | None => oldest
    | Some p =>
        match oldest with
        | None => Some p
        | Some q =>
            if Time.Before (s_lastSeen (r_heap r p)) (s_lastSeen (r_heap r q)) then Some p else oldest
        end
    end) order None.

Definition evict_oldest (order : list string) (r : sessionRegistry) : sessionRegistry :=
  match oldest_session r order with Some p => deleteLocked p r | None => r end.

Definition create (expires now : time) (raw : goerror + string) (order_gc order : list string)
    (r : sessionRegistry) : (goerror + address) * sessionRegistry :=
  let r := gcLocked now order_gc r in
  let r := if r_maxEntries r <=? Z.of_nat (size (r_sessions r)) then evict_oldest order r else r in
  match randomSessionID raw with
  | inl err => (inl err, r)
  | inr id =>
      let limit := Time.Add now (r_absolute r) in
      let expires := if Time.IsZero expires || Time.After expires limit then limit else expires in
      let '(p, r) := alloc (mkSession id "" 0 now now now expires) r in
      (inr p, set_sessions (<[id := p]> (r_sessions r)) r)
  end.

Definition validate (id : string) (now : time) (r : sessionRegistry)
    : option address * sessionRegistry :=
  match r_sessions r !! id with
  | None => (None, r)
  | Some p =>
      let s := r_heap r p in
      if negb (bool_decide (s_id s = id)) &&
         (negb (bool_decide (s_previousID s = id)) || negb (Time.Before now (s_previousValidUntil s)))
      then (None, set_sessions (delete id (r_sessions r)) r)
      else if negb (Time.Before now (s_expires s)) ||
              (r_idle r <? Time.Sub now (s_lastSeen s)) ||
              (r_absolute r <? Time.Sub now (s_created s))
      then (None, deleteLocked p r)
      else (Some p, store p (set_lastSeen now s) r)
  end.

(** [rotate] on a non-nil session; a nil one is refused by the code with
    "session is unavailable". *)
Definition rotate (p : address) (now : time) (raw : goerror + string) (r : sessionRegistry)
    : (goerror + address) * sessionRegistry :=
  match randomSessionID raw with
  | inl err => (inl err, r)
  | inr id =>
      let s := r_heap r p in
      let m := delete (s_id s) (r_sessions r) in
      let s' := mkSession id (s_id s) (Time.Add now sessionRotationGrace) (s_created s) now now (s_expires s) in
      (inr p, set_sessions (<[s_id s := p]> (<[id := p]> m)) (store p s' r))
  end.

Definition revoke (p : option address) (r : sessionRegistry) : sessionRegistry :=
  match p with None => r | Some p => deleteLocked p r end.

Definition count (r : sessionRegistry) : Z :=
  Z.of_nat (size (filter (fun kv => s_id (r_heap r kv.2) <> "") (r_sessions r))).

Definition revokeAll (r : sessionRegistry) : Z * sessionRegistry := (count r, set_sessions ∅ r).

(** ** What a valid session id is *)

Definition config_ok (r : sessionRegistry) : Prop :=
  0 <= r_idle r < MaxInt64 /\ 0 <= r_absolute r < MaxInt64.

(** [id] is the current id, or the previous one within the grace period, of a
    session that is neither expired, idle for too long nor too old. *)
Record accepts (r : sessionRegistry) (id : string) (now : time) (s : gatewaySession) : Prop := {
  acc_id : s_id s = id \/ (s_previousID s = id /\ now < s_previousValidUntil s);
  acc_expiry : now < s_expires s;
  acc_idle : now - s_lastSeen s <= r_idle r;
  acc_age : now - s_created s <= r_absolute r;
}.

Lemma Sub_le_spec t u d : 0 <= d < MaxInt64 -> (d <? Time.Sub t u) = false <-> t - u <= d.
Proof.
  intros Hd. rewrite Z.ltb_ge. pose proof (Time.Sub_gt t u d). unfold MinInt64 in *. lia.
Qed.

Lemma validate_accepts id now r p : config_ok r ->
  validate id now r = (Some p, store p (set_lastSeen now (r_heap r p)) r) /\
    r_sessions r !! id = Some p /\ accepts r id now (r_heap r p) \/
  (validate id now r).1 = None /\
    ~ (r_sessions r !! id = Some p /\ accepts r id now (r_heap r p)) \/
  r_sessions r !! id <> Some p /\ (validate id now r).1 <> Some p.
Proof.
  intros [Hi Ha]. unfold validate. destruct (r_sessions r !! id) as [q|] eqn:Hq; [|naive_solver].
  destruct (decide (q = p)) as [->|Hne]; [|right; right; split; [congruence|repeat case_match; naive_solver]].
  case_match eqn:E1.
  { right. left. split; [done|]. intros [_ [Hid _ _ _]]. revert E1.
    rewrite andb_true_iff, orb_true_iff, !negb_true_iff, !bool_decide_eq_false.
    unfold Time.Before. rewrite Z.ltb_ge. intuition lia. }
  case_match eqn:E2.
  { right. left. split; [done|]. intros [_ [_ He Hidle Hage]]. revert E2.
    rewrite !orb_true_iff, negb_true_iff. unfold Time.Before. rewrite Z.ltb_ge.
    apply (Sub_le_spec _ _ _ Hi) in Hidle. apply (Sub_le_spec _ _ _ Ha) in Hage.
    rewrite Hidle, Hage. intuition (done || lia). }
  left. split; [done|]. split; [done|]. revert E1 E2.
  rewrite !orb_false_iff, andb_false_iff, orb_false_iff, !negb_false_iff, !bool_decide_eq_true.
  rewrite Sub_le_spec, Sub_le_spec by done. unfold Time.Before. rewrite !Z.ltb_lt.
  intros Hid [[He Hidle] Hage]. split; naive_solver.
Qed.

(** [validate] accepts exactly the live ids. It answers with session [p]
    precisely when the id is registered for [p] and is its current id, or its
    previous id inside the 30 second grace period, and [p] is not expired, not
    idle beyond the idle timeout and not older than the absolute lifetime. Then
    only the activity time of [p] changes. *)
Theorem validate_exact id now r p : config_ok r ->
  (validate id now r).1 = Some p <->
  r_sessions r !! id = Some p /\ accepts r id now (r_heap r p) /\
  (validate id now r).2 = store p (set_lastSeen now (r_heap r p)) r.
Proof.
  intros Hc. destruct (validate_accepts id now r p Hc) as [(-> & H1 & H2)|[(-> & H)|[H1 H2]]];
    naive_solver.
Qed.

(** ** Revocation *)

Definition raw_ok (raw : goerror + string) : Prop :=
  match raw with inl _ => True | inr b => slen b = 24 end.

(** One critical section of the registry lock. [may_rotate] restricts which
    sessions are rotated. *)
Inductive session_step (may_rotate : address -> Prop) : sessionRegistry -> sessionRegistry -> Prop :=
| st_create expires now raw og o r : raw_ok raw ->
    session_step may_rotate r (create expires now raw og o r).2
| st_validate id now r : session_step may_rotate r (validate id now r).2
| st_rotate p now raw r : may_rotate p -> (p < r_next r)%nat -> raw_ok raw ->
    session_step may_rotate r (rotate p now raw r).2
| st_revoke p r : session_step may_rotate r (revoke p r)
| st_revokeAll r : session_step may_rotate r (revokeAll r).2.

Definition reachable (r : sessionRegistry) : Prop :=
  rtc (session_step (fun _ => True)) newSessionRegistry r.

(** No id of session [p] is registered any more; other stale keys may still
    point at it. *)
Definition unreachable (p : address) (r : sessionRegistry) : Prop :=
  (p < r_next r)%nat /\ forall id, r_sessions r !! id = Some p ->
    id <> s_id (r_heap r p) /\ id <> s_previousID (r_heap r p).

(** [r'] has no entry for [p] that [r] had not, and [p] kept its ids. *)
Record shrinks (p : address) (r r' : sessionRegistry) : Prop := {
  sk_next : (r_next r <= r_next r')%nat;
  sk_id : s_id (r_heap r' p) = s_id (r_heap r p);
  sk_prev : s_previousID (r_heap r' p) = s_previousID (r_heap r p);
  sk_entries : forall id, r_sessions r' !! id = Some p -> r_sessions r !! id = Some p;
}.

#[export] Instance shrinks_preorder p : PreOrder (shrinks p).
Proof.
  split; [by split|]. intros r1 r2 r3 [] []. split; [lia|congruence..|by auto].
Qed.

Lemma shrinks_unreachable p r r' : shrinks p r r' -> unreachable p r -> unreachable p r'.
Proof.
  intros [Hn Hi Hp He] [Hlt HU]. split; [lia|]. intros id Hid. rewrite Hi, Hp. auto.
Qed.

Lemma shrinks_sub p r m : m ⊆ r_sessions r -> shrinks p r (set_sessions m r).
Proof. intros Hm. split; try done. cbn. intros id Hid. by eapply lookup_weaken. Qed.

Lemma deleteLocked_shrinks p q r : shrinks p r (deleteLocked q r).
Proof.
  apply shrinks_sub. case_bool_decide; [apply delete_subseteq|].
  etrans; apply delete_subseteq.
Qed.

Lemma gcLocked_shrinks p now order r : shrinks p r (gcLocked now order r).
Proof.
  unfold gcLocked. revert r. induction order as [|id order IH]; intros r; [done|]. cbn.
  etrans; [|apply IH]. unfold gc_step. destruct (r_sessions r !! id); [|done].
  destruct (gc_dead _ _ _); [|done]. etrans; [apply (deleteLocked_shrinks p)|].
  apply shrinks_sub, delete_subseteq.
Qed.

Lemma create_shrinks p expires now raw og o r : (p < r_next r)%nat ->
  shrinks p r (create expires now raw og o r).2.
Proof.
  intros Hp. unfold create.
  set (r1 := gcLocked now og r). set (r2 := if _ <=? _ then _ else r1).
  assert (shrinks p r r2) as H2.
  { etrans; [apply (gcLocked_shrinks p now og)|]. fold r1. unfold r2.
    destruct (_ <=? _); [|done]. unfold evict_oldest. destruct (oldest_session _ _); [|done].
    apply deleteLocked_shrinks. }
  destruct (randomSessionID raw) as [e|id]; [done|]. etrans; [exact H2|].
  destruct H2 as [Hn _ _ _]. cbn. split; cbn; [lia| | |].
  - by rewrite fn_lookup_insert_ne by lia.
  - by rewrite fn_lookup_insert_ne by lia.
  - intros id'. rewrite lookup_insert_Some. intros [[_ <-]|[_ H]]; [lia|done].
Qed.

Lemma validate_shrinks p id now r : shrinks p r (validate id now r).2.
Proof.
  unfold validate. destruct (r_sessions r !! id) as [q|]; [|done].
  destruct (_ && _); [apply shrinks_sub, delete_subseteq|].
  destruct (_ || _ || _); [apply deleteLocked_shrinks|]. cbn.
  destruct (decide (p = q)) as [->|Hne]; split; cbn; try done;
    by rewrite ?fn_lookup_insert, ?fn_lookup_insert_ne by done.
Qed.

Lemma rotate_shrinks p q now raw r : q <> p -> shrinks p r (rotate q now raw r).2.
Proof.
  intros Hne. unfold rotate. destruct (randomSessionID raw) as [e|id]; [done|]. cbn.
  split; cbn; try done; try (by rewrite fn_lookup_insert_ne).
  intros id'. rewrite !lookup_insert_Some, lookup_delete_Some. naive_solver.
Qed.

Lemma step_shrinks p r r' : (p < r_next r)%nat ->
  session_step (fun q => q <> p) r r' -> shrinks p r r'.
Proof.
  intros Hp Hs. destruct Hs as [| |q now raw r Hq|q r|r].
  - by apply create_shrinks.
  - apply validate_shrinks.
  - by apply rotate_shrinks.
  - destruct q; [apply deleteLocked_shrinks|done].
  - apply shrinks_sub, map_empty_subseteq.
Qed.

Lemma unreachable_validate p r id now : unreachable p r -> (validate id now r).1 <> Some p.
Proof.
  intros [_ HU] HV. unfold validate in HV.
  destruct (r_sessions r !! id) as [q|] eqn:Hq; [|done].
  destruct (_ && _) eqn:E; [done|]. destruct (_ || _ || _); [done|]. cbn in HV. simplify_eq.
  apply HU in Hq as [H1 H2]. revert E. by rewrite !bool_decide_false.
Qed.

(** ** Registered ids are never empty *)

Record registry_ok (r : sessionRegistry) : Prop := {
  ro_keys : forall id p, r_sessions r !! id = Some p -> id <> "" /\ (p < r_next r)%nat;
  ro_ids : forall p, (p < r_next r)%nat -> s_id (r_heap r p) <> "";
}.

Lemma randomSessionID_nonempty raw id : raw_ok raw -> randomSessionID raw = inr id -> id <> "".
Proof.
  destruct raw as [|b]; [done|]. cbn. intros Hb [= <-] Hid.
  pose proof (base64_len b) as HL. rewrite Hid in HL. change (slen "") with 0 in HL. lia.
Qed.

Lemma registry_ok_sub r m : m ⊆ r_sessions r -> registry_ok r -> registry_ok (set_sessions m r).
Proof.
  intros Hm [Hk Hi]. split; [|done]. cbn. intros id p Hid. apply Hk. by eapply lookup_weaken.
Qed.

Lemma deleteLocked_ok q r : registry_ok r -> registry_ok (deleteLocked q r).
Proof.
  apply registry_ok_sub. case_bool_decide; [apply delete_subseteq|].
  etrans; apply delete_subseteq.
Qed.

Lemma gcLocked_ok now order r : registry_ok r -> registry_ok (gcLocked now order r).
Proof.
  unfold gcLocked. revert r. induction order as [|id order IH]; intros r Hr; [done|]. cbn.
  apply IH. unfold gc_step. destruct (r_sessions r !! id); [|done].
  destruct (gc_dead _ _ _); [|done].
  by apply registry_ok_sub, deleteLocked_ok; [apply delete_subseteq|].
Qed.

Lemma create_ok expires now raw og o r : raw_ok raw -> registry_ok r ->
  registry_ok (create expires now raw og o r).2.
Proof.
  intros Hraw Hr. unfold create. set (r2 := if _ <=? _ then _ else _).
  assert (registry_ok r2) as [Hk Hi].
  { unfold r2, evict_oldest. repeat case_match; auto using deleteLocked_ok, gcLocked_ok. }
  destruct (randomSessionID raw) as [e|id] eqn:Hid; [done|].
  apply (randomSessionID_nonempty _ _ Hraw) in Hid. cbn. split; cbn.
  - intros id' p [[<- <-]|[_ H]]%lookup_insert_Some; [split; [done|lia]|].
    apply Hk in H as [? ?]. split; [done|lia].
  - intros p Hp. destruct (decide (p = r_next r2)) as [->|Hne]; [by rewrite fn_lookup_insert|].
    rewrite fn_lookup_insert_ne by done. apply Hi. lia.
Qed.

Lemma validate_ok id now r : registry_ok r -> registry_ok (validate id now r).2.
Proof.
  intros Hr. unfold validate. destruct (r_sessions r !! id) as [q|]; [|done].
  destruct (_ && _); [by apply registry_ok_sub; [apply delete_subseteq|]|].
  destruct (_ || _ || _); [by apply deleteLocked_ok|]. destruct Hr as [Hk Hi]. cbn.
  split; cbn; [done|]. intros p Hp. destruct (decide (p = q)) as [->|Hne].
  - rewrite fn_lookup_insert. by apply Hi.
  - rewrite fn_lookup_insert_ne by done. by apply Hi.
Qed.

Lemma rotate_ok q now raw r : (q < r_next r)%nat -> raw_ok raw -> registry_ok r ->
  registry_ok (rotate q now raw r).2.
Proof.
  intros Hq Hraw [Hk Hi]. unfold rotate. destruct (randomSessionID raw) as [e|id] eqn:Hid; [done|].
  apply (randomSessionID_nonempty _ _ Hraw) in Hid. cbn. split; cbn.
  - intros id' p. rewrite !lookup_insert_Some, lookup_delete_Some. specialize (Hi q Hq). naive_solver.
  - intros p Hp. destruct (decide (p = q)) as [->|Hne]; [by rewrite fn_lookup_insert|].
    rewrite fn_lookup_insert_ne by done. by apply Hi.
Qed.

Lemma reachable_ok r : reachable r -> registry_ok r.
Proof.
  intros HR. unfold reachable in HR. remember newSessionRegistry as r0 eqn:H0.
  assert (registry_ok r0) as Hok by (subst; split; cbn; [intros ? ?; by rewrite lookup_empty|lia]). clear H0.
  induction HR as [|r1 r2 r3 Hs _ IH]; [done|]. apply IH. clear IH.
  destruct Hs as [| |q now raw r Hq|q r|r].
  - by apply create_ok.
  - by apply validate_ok.
  - by apply rotate_ok.
  - destruct q; [by apply deleteLocked_ok|done].
  - apply registry_ok_sub; [apply map_empty_subseteq|done].
Qed.

Lemma revoke_unreachable p r : registry_ok r -> (p < r_next r)%nat ->
  unreachable p (revoke (Some p) r).
Proof.
  intros [Hk Hi] Hp. split; [done|]. intros id. cbn.
  case_bool_decide as Hprev; rewrite ?lookup_delete_Some; cbn.
  - intros [Hne Hid]. split; [done|]. rewrite Hprev. by apply Hk in Hid as [? _].
  - intros (? & ? & _). done.
Qed.

(** C34: a revoked session stays revoked. From every reachable registry, after
    [revoke] of session [p] and any further sequence of sign-ins, validations,
    rotations of other sessions and revocations, no session id (its current and
    previous ids included) is resolved to [p]. *)
Theorem revoked_stays_revoked r p r' :
  reachable r -> (p < r_next r)%nat ->
  rtc (session_step (fun q => q <> p)) (revoke (Some p) r) r' ->
  forall id now, (validate id now r').1 <> Some p.
Proof.
  intros HR Hp HS id now. apply unreachable_validate.
  assert (unreachable p (revoke (Some p) r)) as HU by auto using revoke_unreachable, reachable_ok.
  induction HS as [r0|r1 r2 r3 Hs _ IH]; [done|]. apply IH.
  eapply shrinks_unreachable; [|exact HU]. apply step_shrinks; [|done]. by destruct HU.
Qed.

(** ** Rotation *)

Definition rotated (s : gatewaySession) (id : string) (now : time) : gatewaySession :=
  mkSession id (s_id s) (now + sessionRotationGrace) (s_created s) now now (s_expires s).

Record rotation (r : sessionRegistry) (p : address) (now : time) (id : string)
    (r' : sessionRegistry) : Prop := {
  rt_heap : r_heap r' p = rotated (r_heap r p) id now;
  rt_sessions : r_sessions r' = <[s_id (r_heap r p) := p]> (<[id := p]> (r_sessions r));
  rt_idle : r_idle r' = r_idle r;
  rt_absolute : r_absolute r' = r_absolute r;
}.

Lemma rotate_rotation p now raw id r : randomSessionID raw = inr id ->
  exists r', rotate p now raw r = (inr p, r') /\ rotation r p now id r'.
Proof.
  intros Hid. unfold rotate. rewrite Hid. eexists. split; [reflexivity|]. split; cbn; try done.
  - by rewrite fn_lookup_insert.
  - apply map_eq. intros k. destruct (decide (k = s_id (r_heap r p))) as [->|Hk].
    + by rewrite !lookup_insert_eq.
    + rewrite !(lookup_insert_ne _ (s_id _)) by done.
      destruct (decide (k = id)) as [->|Hi]; [by rewrite !lookup_insert_eq|].
      by rewrite !(lookup_insert_ne _ id), lookup_delete_ne by done.
Qed.

Lemma rotation_config r p now id r' : rotation r p now id r' -> config_ok r -> config_ok r'.
Proof. intros [_ _ Hi Ha] [? ?]. unfold config_ok. by rewrite Hi, Ha. Qed.

(** The fresh id and, within the grace period, the old one are accepted. *)
Lemma rotation_accepts r p now id r' id' t : rotation r p now id r' -> config_ok r ->
  id' = id \/ (id' = s_id (r_heap r p) /\ t < now + sessionRotationGrace) ->
  t < s_expires (r_heap r p) -> t - now <= r_idle r -> t - s_created (r_heap r p) <= r_absolute r ->
  (validate id' t r').1 = Some p.
Proof.
  intros HR Hc Hid He Hi Ha. pose proof (rotation_config _ _ _ _ _ HR Hc) as Hc'.
  destruct HR as [Hh Hs HI HA].
  destruct (validate_accepts id' t r' p Hc') as [(-> & _)|[[_ Hn]|[Hn _]]]; [done|..].
  - destruct Hn. split.
    + rewrite Hs. destruct Hid as [->|[-> _]]; [|by rewrite lookup_insert_eq].
      destruct (decide (id = s_id (r_heap r p))) as [->|]; [by rewrite lookup_insert_eq|].
      by rewrite lookup_insert_ne, lookup_insert_eq.
    + rewrite Hh. split; cbn; rewrite ?HI, ?HA; try done. naive_solver.
  - destruct Hn. rewrite Hs. destruct Hid as [->|[-> _]]; [|by rewrite lookup_insert_eq].
    destruct (decide (id = s_id (r_heap r p))) as [->|]; [by rewrite lookup_insert_eq|].
    by rewrite lookup_insert_ne, lookup_insert_eq.
Qed.

(** The restriction on rotations is needed. A request that validated its
    session before the revocation and rotates it afterwards registers the
    session again under a fresh id, which is then accepted: [rotate] does not
    check that the session it is given is still registered. *)
Theorem rotation_revives_revoked_session r p now raw id :
  randomSessionID raw = inr id -> config_ok r ->
  now < s_expires (r_heap r p) -> now - s_created (r_heap r p) <= r_absolute r ->
  exists r', rotate p now raw (revoke (Some p) r) = (inr p, r') /\
    (validate id now r').1 = Some p.
Proof.
  intros Hid Hc He Ha.
  destruct (rotate_rotation p now raw id (revoke (Some p) r) Hid) as (r' & Hrot & HR).
  exists r'. split; [done|]. destruct Hc as [Hi Hb].
  eapply rotation_accepts; [exact HR|done|by left|done| |done]. cbn. lia.
Qed.

(** Rotation hands over without a gap and without a second life. After a
    rotation at [now] the fresh id is accepted; the old id is accepted until 30
    seconds later and refused from then on (while the session itself is
    otherwise live). *)
Theorem rotation_grace r p now raw id t :
  randomSessionID raw = inr id -> config_ok r -> id <> s_id (r_heap r p) ->
  now <= t -> t < s_expires (r_heap r p) -> t - now <= r_idle r ->
  t - s_created (r_heap r p) <= r_absolute r ->
  exists r', rotate p now raw r = (inr p, r') /\
    (validate id t r').1 = Some p /\
    (validate (s_id (r_heap r p)) t r').1 =
      (if t <? now + sessionRotationGrace then Some p else None).
Proof.
  intros Hid Hc Hne Hle He Hi Ha.
  destruct (rotate_rotation p now raw id r Hid) as (r' & Hrot & HR).
  exists r'. split_and!; [done| |].
  - eapply rotation_accepts; [exact HR|done|by left|done..].
  - destruct (Z.ltb_spec t (now + sessionRotationGrace)) as [Hg|Hg].
    + eapply rotation_accepts; [exact HR|done|by right|done..].
    + destruct HR as [Hh Hs _ _]. unfold validate. rewrite Hs, lookup_insert_eq, Hh. cbn.
      rewrite bool_decide_false, bool_decide_true by done. cbn.
      unfold Time.Before. by rewrite (proj2 (Z.ltb_ge _ _) Hg).
Qed.

(** Every rotation leaks a table entry. The entry of the id that was the
    previous one is never removed, so a rotation with a fresh id makes the
    table one entry larger, although no session was added: neither
    [maxEntries] bounds the table nor does [count] count sessions. *)
Theorem rotation_leaks_entry r p now raw id :
  randomSessionID raw = inr id -> r_sessions r !! id = None ->
  r_sessions r !! s_id (r_heap r p) = Some p ->
  exists r', rotate p now raw r = (inr p, r') /\
    size (r_sessions r') = S (size (r_sessions r)) /\
    (forall k q, r_sessions r !! k = Some q -> r_sessions r' !! k = Some q).
Proof.
  intros Hid Hfresh Hcur.
  destruct (rotate_rotation p now raw id r Hid) as (r' & Hrot & [_ Hs _ _]).
  assert (id <> s_id (r_heap r p)) by congruence.
  exists r'. split_and!; [done| |].
  - rewrite Hs, map_size_insert_Some, map_size_insert_None; [done|done|].
    rewrite lookup_insert_ne by done. by eexists.
  - intros k q Hk. rewrite Hs. destruct (decide (k = s_id (r_heap r p))) as [->|].
    + rewrite lookup_insert_eq. congruence.
    + rewrite lookup_insert_ne by done. rewrite lookup_insert_ne by congruence. done.
Qed.

(** ** Creation *)

(** Everything but the table. *)
Definition same_config (r r' : sessionRegistry) : Prop :=
  r_heap r' = r_heap r /\ r_next r' = r_next r /\ r_idle r' = r_idle r /\
  r_absolute r' = r_absolute r /\ r_maxEntries r' = r_maxEntries r.

Lemma gcLocked_config now order r : same_config r (gcLocked now order r).
Proof.
  unfold gcLocked. revert r. induction order as [|id order IH]; intros r; [done|]. cbn.
  assert (same_config r (gc_step now r id)) as (H1 & H2 & H3 & H4 & H5)
    by (unfold gc_step; repeat case_match; done).
  destruct (IH (gc_step now r id)) as (G1 & G2 & G3 & G4 & G5).
  unfold same_config. by rewrite G1, G2, G3, G4, G5.
Qed.

Lemma create_result expires now raw og o r p r' :
  create expires now (inr raw) og o r = (inr p, r') ->
  let id := base64_EncodeToString raw in
  let limit := now + r_absolute r in
  p = r_next r /\
  r_heap r' p = mkSession id "" 0 now now now
    (if Time.IsZero expires || Time.After expires limit then limit else expires) /\
  r_sessions r' !! id = Some p /\ r_idle r' = r_idle r /\ r_absolute r' = r_absolute r.
Proof.
  unfold create. set (r2 := if _ <=? _ then _ else _).
  assert (same_config r r2) as (H1 & H2 & H3 & H4 & _).
  { unfold r2, evict_oldest. pose proof (gcLocked_config now og r).
    repeat case_match; done. }
  cbn. intros [= <- <-]. cbn. rewrite fn_lookup_insert, lookup_insert_eq, H2, H3, H4. done.
Qed.
