(* ===== verification/SessionCookie.v ===== *)
(** * The session cookie and the handlers that consume it

    src/gateway/sessions.go (cookie format, [validateSession],
    [rotateSession]) and [logout] of src/gateway/main.go. A request is its
    session cookie, if it has one, and whether [sameOriginRequired] accepts
    it; a response is its status and the session cookie it sets. The cookie
    attributes other than the value are not represented. *)

From Stdlib Require Import ZArith Lia Ascii String.
From stdpp Require Import base gmap strings list relations functions.
From S2P Require Import Prelude.
From S2P Require Import GoLib.
From S2P Require Import Strconv.
From S2P Require Import World.
From S2P Require Import Storage.
From S2P Require Import Instances.
From S2P Require Import Sessions.

Record gateway := mkGateway {
  g_sessionKey : string;
  g_sessions : option sessionRegistry;
}.

Definition set_registry (r : sessionRegistry) (g : gateway) : gateway :=
  mkGateway (g_sessionKey g) (Some r).

(** [ensureSessions] *)
Definition ensureSessions (g : gateway) : sessionRegistry :=
  match g_sessions g with Some r => r | None => newSessionRegistry end.

Section Cookie.
Context `{C : Crypto}.

Definition cookie_domain : string := "VGT-GEDEFENSE-ACCESS-COOKIE-V3" +:+ nul.

Definition sessionCookiePayload (s : gatewaySession) : string :=
  itoa (Time.Unix (s_expires s)) +:+ "." +:+ s_id s.

Definition signSessionPayload (g : gateway) (payload : string) : string :=
  base64_EncodeToString payload +:+ "." +:+
  base64_EncodeToString (hmac_sha256 (g_sessionKey g) (cookie_domain +:+ payload)).

(** [time.Unix(sec, 0)] *)
Definition unix_time (sec : Z) : time := (sec + Time.unixToInternal) * Time.Second.

Definition parseSessionCookie (g : gateway) (cookie : option string) (now : time)
    : option (string * time) :=
  match cookie with
  | None => None
  | Some value =>
      match Split value "." with
      | [p0; p1] =>
          match base64_DecodeString p0, base64_DecodeString p1 with
          | Some payload, Some signature =>
              if negb (slen signature =? 32) then None
              else if negb (bool_decide
                (signature = hmac_sha256 (g_sessionKey g) (cookie_domain +:+ payload))) then None
              else
                match Split payload "." with
                | [f0; f1] =>
                    match ParseInt f0 with
                    | None => None
                    | Some expiry =>
                        if (slen f1 <? 16) || (128 <? slen f1) then None
                        else if (expiry <? Time.Unix now) ||
                                (Time.Unix (Time.Add now (sessionAbsoluteLifetime + Time.Hour)) <? expiry)
                        then None
                        else Some (f1, unix_time expiry)
                    end
                | _ => None
                end
          | _, _ => None
          end
      | _ => None
      end
  end.

(** The clock readings and random bytes one request consumes. *)
Record request_env := mkEnv {
  e_parse : time;      (* time.Now in parseSessionCookie *)
  e_validate : time;   (* r.now in validate *)
  e_since : time;      (* time.Since(session.rotatedAt) *)
  e_rotate : time;     (* r.now in rotate *)
  e_raw : goerror + string;
}.

(** [validateSession]: the session, the cookie set on the response (when there
    is a writer), and the gateway afterwards. *)
Definition validateSession (writer : bool) (cookie : option string) (e : request_env) (g : gateway)
    : option address * option string * gateway :=
  match parseSessionCookie g cookie (e_parse e) with
  | None => (None, None, g)
  | Some (id, _) =>
      let '(session, r) := validate id (e_validate e) (ensureSessions g) in
      match session with
      | None => (None, None, set_registry r g)
      | Some p =>
          if sessionRotationInterval <=? Time.Sub (e_since e) (s_rotatedAt (r_heap r p)) then
            match rotate p (e_rotate e) (e_raw e) r with
            | (inr q, r2) =>
                (Some q,
                 if writer then Some (signSessionPayload g (sessionCookiePayload (r_heap r2 q))) else None,
                 set_registry r2 g)
            | (inl _, r2) => (Some p, None, set_registry r2 g)
            end
          else (Some p, None, set_registry r g)
      end
  end.

(** [validSession] *)
Definition validSession (cookie : option string) (e : request_env) (g : gateway) : bool * gateway :=
  let '(session, _, g) := validateSession false cookie e g in
  (bool_decide (is_Some session), g).

(** [rotateSession]; the second rotation reads the clock and the random source
    again. *)
Definition rotateSession (cookie : option string) (same_origin : bool) (e : request_env)
    (now2 : time) (raw2 : goerror + string) (g : gateway) : Z * option string * gateway :=
  match validateSession false cookie e g with
  | (None, _, g1) => (401, None, g1)
  | (Some p, _, g1) =>
      if negb same_origin then (403, None, g1)
      else
        match rotate p now2 raw2 (ensureSessions g1) with
        | (inl _, r) => (503, None, set_registry r g1)
        | (inr q, r) =>
            (204, Some (signSessionPayload g1 (sessionCookiePayload (r_heap r q))), set_registry r g1)
        end
  end.

(** [logout]: 303 redirects to the sign-in page; the empty cookie clears the
    browser's. *)
Definition logout (cookie : option string) (same_origin : bool) (now_parse now_validate : time)
    (g : gateway) : Z * option string * gateway :=
  if negb same_origin then (403, None, g)
  else
    match parseSessionCookie g cookie now_parse with
    | None => (303, Some "", g)
    | Some (id, _) =>
        let '(session, r) := validate id now_validate (ensureSessions g) in
        (303, Some "", set_registry (revoke session r) g)
    end.

Context `{CL : !CryptoLaws C}.

(** ** The cookie is authentic *)

(** The expiry the cookie of a session carries is acceptable at [now]. *)
Definition cookie_current (s : gatewaySession) (now : time) : Prop :=
  Time.Unix now <= Time.Unix (s_expires s) <= Time.Unix (now + sessionAbsoluteLifetime + Time.Hour) /\
  MinInt64 <= Time.Unix (s_expires s) <= MaxInt64.

Lemma parse_sign g s now raw :
  randomSessionID (inr raw) = inr (s_id s) -> slen raw = 24 ->
  cookie_current s now ->
  parseSessionCookie g (Some (signSessionPayload g (sessionCookiePayload s))) now =
  Some (s_id s, unix_time (Time.Unix (s_expires s))).
Proof.
  intros [= Hid] Hraw [[Hlo Hhi] Hrange]. unfold parseSessionCookie, signSessionPayload.
  rewrite Split_two by apply base64_no_dot. rewrite !base64_roundtrip.
  rewrite hmac_len, Z.eqb_refl, bool_decide_true by done. cbn [negb].
  unfold sessionCookiePayload. rewrite <- Hid, Split_two by (apply itoa_no_dot || apply base64_no_dot).
  rewrite ParseInt_itoa by done.
  assert (slen (base64_EncodeToString raw) = 32) as ->.
  { by rewrite (base64_exact_len 8). }
  cbn [orb Z.ltb]. unfold Time.Add. rewrite Z.add_assoc.
  rewrite (proj2 (Z.ltb_ge _ _) Hlo), (proj2 (Z.ltb_ge _ _) Hhi). done.
Qed.

(** The cookie of a session names that session. For every session whose id
    came from the random source, the cookie the gateway signs is parsed back to
    the id and the expiry (in whole seconds), until the expiry. *)
Theorem cookie_roundtrip g s now raw :
  randomSessionID (inr raw) = inr (s_id s) -> slen raw = 24 -> cookie_current s now ->
  parseSessionCookie g (Some (signSessionPayload g (sessionCookiePayload s))) now =
  Some (s_id s, unix_time (Time.Unix (s_expires s))).
Proof. exact (parse_sign g s now raw). Qed.

(** [value] is "base64(payload).base64(mac)" with the gateway's MAC of the
    payload "expiry.id". *)
Definition authentic (g : gateway) (value id : string) (expiry : Z) : Prop :=
  exists p0 p1 payload f0,
    Split value "." = [p0; p1] /\
    base64_DecodeString p0 = Some payload /\
    base64_DecodeString p1 = Some (hmac_sha256 (g_sessionKey g) (cookie_domain +:+ payload)) /\
    Split payload "." = [f0; id] /\ ParseInt f0 = Some expiry.

Lemma parse_inv g value now id t :
  parseSessionCookie g (Some value) now = Some (id, t) ->
  exists expiry, authentic g value id expiry /\ t = unix_time expiry /\
    16 <= slen id <= 128 /\
    Time.Unix now <= expiry <= Time.Unix (now + (sessionAbsoluteLifetime + Time.Hour)).
Proof.
  unfold parseSessionCookie. intros HP.
  destruct (Split value ".") as [|p0 [|p1 [|]]] eqn:HS; try done.
  destruct (base64_DecodeString p0) as [payload|] eqn:H0; [|done].
  destruct (base64_DecodeString p1) as [mac|] eqn:H1; [|done].
  destruct (negb (slen mac =? 32)); [done|].
  case_bool_decide as Hmac; cbn [negb] in HP; [|done].
  destruct (Split payload ".") as [|f0 [|f1 [|]]] eqn:HF; try done.
  destruct (ParseInt f0) as [expiry|] eqn:HI; [|done].
  destruct (_ || _) eqn:Hlen in HP; [done|]. destruct (_ || _) eqn:Htime in HP; [done|]. simplify_eq.
  exists expiry. apply orb_false_iff in Hlen as [?%Z.ltb_ge ?%Z.ltb_ge].
  apply orb_false_iff in Htime as [?%Z.ltb_ge ?%Z.ltb_ge].
  split_and!; try done. exists p0, p1, payload, f0. by split_and!.
Qed.

Lemma authentic_id g value id1 id2 e1 e2 :
  authentic g value id1 e1 -> authentic g value id2 e2 -> id1 = id2.
Proof.
  intros (? & ? & ? & ? & HS1 & H1 & _ & HF1 & _) (? & ? & ? & ? & HS2 & H2 & _ & HF2 & _).
  rewrite HS1 in HS2. simplify_eq. rewrite HF1 in HF2. by simplify_eq.
Qed.

(** Only the gateway makes cookies. Whatever cookie parses carries, under
    the gateway's own key and domain separator, the MAC of exactly the payload
    whose id and expiry are returned; the expiry has not passed and is at most
    nine hours away. *)
Theorem cookie_authentic g value now id t :
  parseSessionCookie g (Some value) now = Some (id, t) ->
  exists expiry, authentic g value id expiry /\ t = unix_time expiry /\
    Time.Unix now <= expiry <= Time.Unix (now + (sessionAbsoluteLifetime + Time.Hour)).
Proof. intros (e & ? & ? & _ & ?)%parse_inv. by exists e. Qed.

(** ** Signing out *)

(** A refused id is not registered afterwards. *)
Lemma validate_refused id now r r' : id <> "" ->
  validate id now r = (None, r') -> r_sessions r' !! id = None.
Proof.
  intros Hid. unfold validate. destruct (r_sessions r !! id) as [p|] eqn:Hp; [|congruence].
  destruct (negb (bool_decide (s_id (r_heap r p) = id)) && _) eqn:E.
  { intros [= <-]. apply lookup_delete_eq. }
  destruct (_ || _ || _); [|done]. intros [= <-]. revert E. cbn.
  destruct (bool_decide_reflect (s_id (r_heap r p) = id)) as [->|Hne]; cbn [negb andb].
  - intros _. case_bool_decide; rewrite lookup_delete_None; [by left|].
    right. apply lookup_delete_eq.
  - case_bool_decide as Hprev; [|done]. intros _. rewrite bool_decide_false by congruence.
    rewrite Hprev. apply lookup_delete_eq.
Qed.

Lemma validate_revoke id now r p r' : id <> "" ->
  validate id now r = (Some p, r') -> r_sessions (revoke (Some p) r') !! id = None.
Proof.
  intros Hid. unfold validate. destruct (r_sessions r !! id) as [q|] eqn:Hp; [|done].
  destruct (_ && _) eqn:E; [done|]. destruct (_ || _ || _); [done|]. intros [= -> <-]. revert E.
  cbn. rewrite fn_lookup_insert. cbn.
  destruct (bool_decide_reflect (s_id (r_heap r p) = id)) as [->|Hne]; cbn [negb andb].
  - intros _. case_bool_decide; rewrite lookup_delete_None; [by left|].
    right. apply lookup_delete_eq.
  - case_bool_decide as Hprev; [|done]. intros _. rewrite bool_decide_false by congruence.
    rewrite Hprev. apply lookup_delete_eq.
Qed.

Lemma logout_unregisters cookie g now1 now2 id t :
  parseSessionCookie g cookie now1 = Some (id, t) ->
  r_sessions (ensureSessions (logout cookie true now1 now2 g).2) !! id = None.
Proof.
  intros HP. assert (id <> "") as Hid.
  { destruct cookie; [|done]. apply parse_inv in HP as (? & _ & _ & Hl & _). intros ->. unfold slen in Hl. cbn in Hl. lia. }
  unfold logout. cbn [negb]. rewrite HP.
  destruct (validate id now2 (ensureSessions g)) as [[p|] r] eqn:HV; cbn [fst snd ensureSessions set_registry g_sessions].
  - by eapply validate_revoke.
  - by eapply validate_refused.
Qed.

(** Signing out kills the cookie itself, not only the browser's copy of it.
    After [logout] with a cookie, a request with the same cookie is refused at
    any time, with or without a response writer. *)
Theorem logout_kills_cookie cookie g now1 now2 id t e writer :
  parseSessionCookie g cookie now1 = Some (id, t) ->
  (validateSession writer cookie e (logout cookie true now1 now2 g).2).1.1 = None.
Proof.
  intros HP. pose proof (logout_unregisters cookie g now1 now2 id t HP) as HL.
  unfold validateSession.
  assert (g_sessionKey (logout cookie true now1 now2 g).2 = g_sessionKey g) as Hkey.
  { unfold logout. cbn [negb]. rewrite HP. by destruct (validate _ _ _). }
  destruct cookie as [value|]; [|done].
  destruct (parseSessionCookie _ (Some value) (e_parse e)) as [[id' t']|] eqn:HP'; [|done].
  apply parse_inv in HP as (e1 & Ha1 & _). apply parse_inv in HP' as (e2 & Ha2 & _).
  unfold authentic in Ha2. rewrite Hkey in Ha2.
  rewrite <- (authentic_id _ _ _ _ _ _ Ha1 Ha2). unfold validate. by rewrite HL.
Qed.

(** ** Signing in *)

Lemma Unix_mono t u : t <= u -> Time.Unix t <= Time.Unix u.
Proof. intros. unfold Time.Unix. pose proof (Z.div_le_mono t u Time.Second eq_refl). lia. Qed.

Lemma signin_current s now t :
  s_expires s = now + sessionAbsoluteLifetime ->
  0 < now + sessionAbsoluteLifetime < 2 ^ 63 * Time.Second ->
  now <= t < now + sessionAbsoluteLifetime -> cookie_current s t.
Proof.
  intros He Hr Ht. unfold cookie_current. rewrite He. split.
  - split; apply Unix_mono; unfold Time.Hour, Time.Minute, Time.Second; lia.
  - unfold Time.Unix, MinInt64, MaxInt64, Time.unixToInternal.
    assert (0 <= (now + sessionAbsoluteLifetime) / Time.Second < 2 ^ 63); [|lia].
    split; [apply Z.div_pos; [lia|done]|apply Z.div_lt_upper_bound; [done|lia]].
Qed.

(** A sign-in works. The session [create] registers for a sign-in at [now]
    (with the full lifetime, as the login handler asks) is found by its signed
    cookie in every request of the next fifteen minutes, whatever else is in
    the registry and in whatever order its loops ran; no rotation happens yet. *)
Theorem signin_accepted g now raw og o p r e writer :
  slen raw = 24 ->
  r_absolute (ensureSessions g) = sessionAbsoluteLifetime ->
  r_idle (ensureSessions g) = sessionIdleTimeout ->
  0 < now + sessionAbsoluteLifetime < 2 ^ 63 * Time.Second ->
  create (now + sessionAbsoluteLifetime) now (inr raw) og o (ensureSessions g) = (inr p, r) ->
  now <= e_parse e < now + sessionRotationInterval ->
  now <= e_validate e < now + sessionRotationInterval ->
  now <= e_since e < now + sessionRotationInterval ->
  let cookie := signSessionPayload g (sessionCookiePayload (r_heap r p)) in
  (validateSession writer (Some cookie) e (set_registry r g)).1 = (Some p, None).
Proof.
  intros Hraw Habs Hidle Hnow HC Hp Hv Hs. cbv zeta.
  apply create_result in HC as (Hp0 & Hh & Hlk & Hi & Ha). rewrite Habs in Hh, Ha. rewrite Hidle in Hi.
  unfold Time.IsZero, Time.After in Hh.
  rewrite (proj2 (Z.eqb_neq (now + sessionAbsoluteLifetime) 0)), Z.ltb_irrefl in Hh by lia. cbn [orb] in Hh.
  assert (s_expires (r_heap r p) = now + sessionAbsoluteLifetime) as He by (by rewrite Hh).
  assert (s_id (r_heap r p) = base64_EncodeToString raw) as Hid by (by rewrite Hh).
  change sessionRotationInterval with 900000000000 in *.
  change sessionAbsoluteLifetime with 28800000000000 in *.
  change sessionIdleTimeout with 1800000000000 in *.
  unfold validateSession.
  change (signSessionPayload g) with (signSessionPayload (set_registry r g)).
  rewrite (parse_sign _ _ _ raw); [|by rewrite Hid|done|
    apply (signin_current _ now); [done|done|change sessionAbsoluteLifetime with 28800000000000; lia]].
  cbn [ensureSessions set_registry g_sessions]. rewrite Hid.
  assert (config_ok r) as Hc by (unfold config_ok; rewrite Hi, Ha; unfold MaxInt64; lia).
  destruct (validate_accepts (base64_EncodeToString raw) (e_validate e) r p Hc) as [(-> & _)|[[_ Hn]|[Hn _]]].
  - cbn [r_heap store]. rewrite fn_lookup_insert. cbn [set_lastSeen s_rotatedAt]. rewrite Hh. cbn [s_rotatedAt].
    rewrite Time.Sub_exact by (unfold MinInt64, MaxInt64; lia).
    change sessionRotationInterval with 900000000000. by rewrite (proj2 (Z.leb_gt _ _)) by lia.
  - destruct Hn. split; [done|]. rewrite Hh. split; cbn; [by left|lia|rewrite Hi; lia|rewrite Ha; lia].
  - done.
Qed.

(** ** Rotation without a response *)

(** A validation without a response writer may lose the session. When the
    rotation is due, [validSession] rotates although it cannot hand the fresh
    id to the browser: the request is accepted, no cookie is set, and from 30
    seconds later on the id the browser holds is refused. *)
Theorem rotation_without_writer g id t value e r p raw :
  parseSessionCookie g (Some value) (e_parse e) = Some (id, t) ->
  e_raw e = inr raw -> base64_EncodeToString raw <> id ->
  validate id (e_validate e) (ensureSessions g) = (Some p, r) ->
  s_id (r_heap r p) = id ->
  sessionRotationInterval <= Time.Sub (e_since e) (s_rotatedAt (r_heap r p)) ->
  exists g', validateSession false (Some value) e g = (Some p, None, g') /\
    forall t', e_rotate e + sessionRotationGrace <= t' ->
      (validate id t' (ensureSessions g')).1 = None.
Proof.
  intros HP Hraw Hfresh HV Hid Hdue.
  destruct (rotate_rotation p (e_rotate e) (inr raw) (base64_EncodeToString raw) r eq_refl)
    as (r' & Hrot & [Hh Hs _ _]).
  unfold validateSession. rewrite HP, HV, (proj2 (Z.leb_le _ _) Hdue), Hraw, Hrot.
  eexists. split; [done|]. intros t' Ht'. cbn [ensureSessions set_registry g_sessions].
  unfold validate. rewrite Hs, Hid, lookup_insert_eq, Hh. cbn [rotated s_id s_previousID s_previousValidUntil].
  rewrite bool_decide_false, Hid, bool_decide_true by done. cbn.
  unfold Time.Before. by rewrite (proj2 (Z.ltb_ge _ _)) by lia.
Qed.
End Cookie.

(** * Witnesses for the gateway sessions *)

Definition raw_a : string := "abcdefghijklmnopqrstuvwx".
Definition raw_b : string := "ABCDEFGHIJKLMNOPQRSTUVWX".
Definition id_a : string := base64_EncodeToString raw_a.
Definition id_b : string := base64_EncodeToString raw_b.
Definition t0 : time := 63900000000 * Time.Second.

(** One operator signed in at [t0]. *)
Definition signed_in : sessionRegistry :=
  (create (t0 + sessionAbsoluteLifetime) t0 (inr raw_a) [] [] newSessionRegistry).2.

Lemma signed_in_config : config_ok signed_in.
Proof. vm_compute. repeat split; congruence. Defined.

Lemma signed_in_reachable : reachable signed_in.
Proof. apply rtc_once. apply st_create. reflexivity. Defined.

Lemma validate_exact_witness :
  (validate id_a (t0 + 60) signed_in).1 = Some 0%nat <->
  r_sessions signed_in !! id_a = Some 0%nat /\ accepts signed_in id_a (t0 + 60) (r_heap signed_in 0%nat) /\
  (validate id_a (t0 + 60) signed_in).2 = store 0 (set_lastSeen (t0 + 60) (r_heap signed_in 0%nat)) signed_in.
Proof. apply (validate_exact id_a (t0 + 60) signed_in 0). exact signed_in_config. Defined.

Lemma revoked_stays_revoked_witness :
  (validate id_a (t0 + 60) (validate id_a (t0 + 50) (revoke (Some 0%nat) signed_in)).2).1 <> Some 0%nat.
Proof.
  apply (revoked_stays_revoked signed_in 0 (validate id_a (t0 + 50) (revoke (Some 0%nat) signed_in)).2).
  - exact signed_in_reachable.
  - vm_compute. lia.
  - apply rtc_once. apply st_validate.
Defined.

Lemma rotation_revives_revoked_session_witness :
  exists r', rotate 0 (t0 + 60) (inr raw_b) (revoke (Some 0%nat) signed_in) = (inr 0%nat, r') /\
    (validate id_b (t0 + 60) r').1 = Some 0%nat.
Proof.
  apply (rotation_revives_revoked_session signed_in 0 (t0 + 60) (inr raw_b) id_b).
  - reflexivity.
  - exact signed_in_config.
  - by vm_compute.
  - by vm_compute.
Defined.

Lemma rotation_grace_witness :
  exists r', rotate 0 t0 (inr raw_b) signed_in = (inr 0%nat, r') /\
    (validate id_b (t0 + 31 * Time.Second) r').1 = Some 0%nat /\
    (validate (s_id (r_heap signed_in 0%nat)) (t0 + 31 * Time.Second) r').1 =
      (if t0 + 31 * Time.Second <? t0 + sessionRotationGrace then Some 0%nat else None).
Proof.
  apply (rotation_grace signed_in 0 t0 (inr raw_b) id_b (t0 + 31 * Time.Second)).
  - reflexivity.
  - exact signed_in_config.
  - by vm_compute.
  - by vm_compute.
  - by vm_compute.
  - by vm_compute.
  - by vm_compute.
Defined.

Lemma rotation_leaks_entry_witness :
  exists r', rotate 0 t0 (inr raw_b) signed_in = (inr 0%nat, r') /\
    size (r_sessions r') = 2%nat /\
    (forall k q, r_sessions signed_in !! k = Some q -> r_sessions r' !! k = Some q).
Proof.
  apply (rotation_leaks_entry signed_in 0 t0 (inr raw_b) id_b).
  - reflexivity.
  - by vm_compute.
  - by vm_compute.
Defined.

(** ** Cookie *)

Definition demo_gateway : gateway := mkGateway "0123456789abcdef0123456789abcdef" (Some signed_in).
Definition demo_session : gatewaySession := r_heap signed_in 0%nat.
Definition demo_cookie : string := signSessionPayload demo_gateway (sessionCookiePayload demo_session).

Lemma demo_current : cookie_current demo_session (t0 + 60).
Proof. vm_compute. repeat split; congruence. Defined.

Lemma cookie_roundtrip_witness :
  parseSessionCookie demo_gateway (Some demo_cookie) (t0 + 60) =
  Some (s_id demo_session, unix_time (Time.Unix (s_expires demo_session))).
Proof.
  apply (cookie_roundtrip demo_gateway demo_session (t0 + 60) raw_a).
  - reflexivity.
  - reflexivity.
  - exact demo_current.
Defined.

Lemma demo_parse : parseSessionCookie demo_gateway (Some demo_cookie) (t0 + 60) =
  Some (id_a, unix_time (Time.Unix (t0 + sessionAbsoluteLifetime))).
Proof. by vm_compute. Defined.

Lemma cookie_authentic_witness :
  exists expiry, authentic demo_gateway demo_cookie id_a expiry /\
    unix_time (Time.Unix (t0 + sessionAbsoluteLifetime)) = unix_time expiry /\
    Time.Unix (t0 + 60) <= expiry <= Time.Unix (t0 + 60 + (sessionAbsoluteLifetime + Time.Hour)).
Proof. apply (cookie_authentic demo_gateway demo_cookie (t0 + 60) id_a). exact demo_parse. Defined.

Definition demo_env (t : time) : request_env := mkEnv t t t t (inr raw_b).

Lemma logout_kills_cookie_witness :
  (validateSession true (Some demo_cookie) (demo_env (t0 + 70))
     (logout (Some demo_cookie) true (t0 + 60) (t0 + 60) demo_gateway).2).1.1 = None.
Proof.
  apply (logout_kills_cookie (Some demo_cookie) demo_gateway (t0 + 60) (t0 + 60) id_a
    (unix_time (Time.Unix (t0 + sessionAbsoluteLifetime)))).
  exact demo_parse.
Defined.

Definition empty_gateway : gateway := mkGateway "0123456789abcdef0123456789abcdef" None.

Lemma signin_accepted_witness :
  (validateSession true (Some (signSessionPayload empty_gateway (sessionCookiePayload (r_heap signed_in 0%nat))))
     (demo_env (t0 + 60)) (set_registry signed_in empty_gateway)).1 = (Some 0%nat, None).
Proof.
  apply (signin_accepted empty_gateway t0 raw_a [] [] 0 signed_in (demo_env (t0 + 60)) true).
  - reflexivity.
  - reflexivity.
  - reflexivity.
  - by vm_compute.
  - reflexivity.
  - by vm_compute.
  - by vm_compute.
  - by vm_compute.
Defined.

(** Twenty minutes later the rotation is due. *)
Definition t_due : time := t0 + 20 * Time.Minute.
Definition due_registry : sessionRegistry := (validate id_a t_due signed_in).2.

Lemma rotation_without_writer_witness :
  exists g', validateSession false (Some demo_cookie) (demo_env t_due) demo_gateway = (Some 0%nat, None, g') /\
    forall t', t_due + sessionRotationGrace <= t' -> (validate id_a t' (ensureSessions g')).1 = None.
Proof.
  apply (rotation_without_writer demo_gateway id_a (unix_time (Time.Unix (t0 + sessionAbsoluteLifetime)))
    demo_cookie (demo_env t_due) due_registry 0 raw_b).
  - by vm_compute.
  - reflexivity.
  - by vm_compute.
  - reflexivity.
  - by vm_compute.
  - by vm_compute.
Defined.
