(* ===== verification/TitanTrust.v ===== *)
(** * Titan: trust evaluation and response policy

    src/control/titan_trust.go with the data types of src/control/titan.go.
    What the host answers (file status and content, package ownership, the FIM
    baseline, recent incidents, the quarantine service) are the injected
    dependencies of [TitanDeps] or, for the file probes, explicit answers of
    the operating system; what the engine does to the host (containment
    requests, evidence records) is the list of effects it returns. *)

From Stdlib Require Import ZArith Lia Ascii String.
From stdpp Require Import base gmap strings list.
From S2P Require Import Prelude.
From S2P Require Import GoLib.
From S2P Require Import Paths.
From S2P Require Import World.
From S2P Require Import Storage.

Definition titanMaxPathBytes : Z := 4096.

Definition TitanModeObserve : string := "OBSERVE".
Definition TitanModeContain : string := "CONTAIN".
Definition TitanModeStrict : string := "STRICT".
Definition TitanTrustAuthorized : string := "AUTHORIZED".
Definition TitanTrustTolerated : string := "TOLERATED".
Definition TitanTrustUnexpected : string := "UNEXPECTED".
Definition TitanTrustCompromised : string := "COMPROMISED".
Definition TitanCorrelationObserved : string := "OBSERVED".
Definition TitanCorrelationTemporal : string := "TEMPORAL".
Definition TitanCorrelationNone : string := "NONE".
Definition TitanChangeRemoved : string := "REMOVED".
Definition TitanResponseObserved : string := "OBSERVED".
Definition TitanResponseContained : string := "CONTAINED".
Definition TitanResponseContainUnavailable : string := "CONTAIN_UNAVAILABLE".
Definition TitanResponseContainFailed : string := "CONTAIN_FAILED".
Definition TitanResponseNoAction : string := "NO_ACTION".
Definition TitanResponseReviewRequired : string := "REVIEW_REQUIRED".

(** ** File identity *)

(** What [Lstat] and [Stat] report: [fi_object] stands for device and inode,
    which [os.SameFile] compares. *)
Record finfo := mkFinfo {
  fi_kind : inode_kind;
  fi_size : Z;
  fi_object : Z;
  fi_mtime : time;
  fi_perm : string;
}.

(** The answers of the system to the calls of [readTitanIdentity], in order;
    each may fail, and the file may be replaced between any two of them. *)
Record titan_probe := mkProbe {
  pr_lstat : option finfo;
  pr_open : bool;
  pr_fstat : option finfo;
  pr_content : option string;   (* what io.Copy read, before the limit *)
  pr_fstat_after : option finfo;
}.

Record titanFileIdentity := mkIdentity {
  id_Path : string;
  id_SHA256 : string;
  id_Size : Z;
  id_FileMode : string;
  id_Exists : bool;
  id_Regular : bool;
  id_Symlink : bool;
  id_Readable : bool;
  id_Error : string;
}.

Definition has_nul (s : string) : bool := existsb (Ascii.eqb Ascii.zero) (bytes_of s).

Section Identity.
Context `{C : Crypto}.

Definition readTitanIdentity (path : string) (maxBytes : Z) (pr : titan_probe) : titanFileIdentity :=
  let p := Clean path in
  if negb (IsAbs path) || (titanMaxPathBytes <? slen path) || has_nul path
  then mkIdentity p "" 0 "" false false false false "path is not a bounded absolute path"
  else match pr_lstat pr with
  | None => mkIdentity p "" 0 "" false false false false "object could not be inspected"
  | Some before =>
      if decide (fi_kind before = Symlink)
      then mkIdentity p "" 0 "" true false true false "object is a symlink; content authorization is impossible"
      else if negb (bool_decide (fi_kind before = Regular))
      then mkIdentity p "" 0 "" true false false false "object is not a regular file"
      else if (fi_size before <? 0) || (maxBytes <? fi_size before)
      then mkIdentity p "" (fi_size before) "" true true false false "object exceeds the bounded hash size"
      else if negb (pr_open pr)
      then mkIdentity p "" (fi_size before) "" true true false false "object could not be opened for hashing"
      else
        let same o := match o with Some i => bool_decide (fi_object i = fi_object before) | None => false end in
        if negb (same (pr_fstat pr))
        then mkIdentity p "" 0 "" true true false false "object identity changed before hashing"
        else match pr_content pr with
        | None => mkIdentity p "" (fi_size before) "" true true false false "object changed while hashing"
        | Some content =>
            let read := of_bytes (take (Z.to_nat (maxBytes + 1)) (bytes_of content)) in
            if negb (slen read =? fi_size before)
            then mkIdentity p "" (fi_size before) "" true true false false "object changed while hashing"
            else match pr_fstat_after pr with
            | Some after =>
                if negb (bool_decide (fi_object after = fi_object before)) ||
                   negb (fi_size after =? fi_size before) || negb (fi_mtime after =? fi_mtime before)
                then mkIdentity p "" 0 "" true true false false "object identity changed while hashing"
                else mkIdentity p (hex_EncodeToString (sha256_Sum read)) (fi_size after) (fi_perm after)
                       true true false true ""
            | None => mkIdentity p "" 0 "" true true false false "object identity changed while hashing"
            end
        end
  end.
End Identity.

(** ** Paths *)

Definition titanPathUnder (path root : string) : bool :=
  let path := Clean path in
  let root := Clean root in
  if bool_decide (path = root) then true
  else if bool_decide (root = "/") then HasPrefix path root
  else HasPrefix path (root +:+ "/").

Definition titanPathWithinRoots (path : string) (roots : list string) : bool :=
  let path := Clean path in
  existsb (titanPathUnder path) roots.

Definition titanBuiltinProtected : list string :=
  ["/etc/passwd"; "/etc/shadow"; "/etc/group"; "/etc/gshadow"; "/etc/sudoers"; "/etc/sudoers.d";
   "/etc/pam.d"; "/etc/security"; "/etc/ssh"; "/etc/ld.so.preload"; "/etc/audit";
   "/etc/auditd.conf"; "/etc/selinux"; "/etc/apparmor.d"; "/etc/systemd"; "/lib/systemd";
   "/usr/lib/systemd"; "/boot"].

Definition titanBuiltinContainDeny : list string :=
  ["/proc"; "/sys"; "/dev"; "/run"; "/boot"; "/usr/lib/modules"; "/lib/modules"; "/etc/passwd";
   "/etc/shadow"; "/etc/group"; "/etc/gshadow"; "/etc/sudoers"; "/etc/ld.so.preload"].

Definition titanPathProtected (path : string) (configured : list string) : bool :=
  if titanPathWithinRoots path configured then true
  else titanPathWithinRoots path titanBuiltinProtected.

Definition titanPathMatchesAllowlist (path : string) (allowlist : list string) : bool :=
  titanPathWithinRoots path allowlist.

(** ** Policy, observations and events *)

Record titanPolicy := mkTitanPolicy {
  tp_Mode : string;
  tp_Armed : bool;
  tp_AutoContain : bool;
  tp_Roots : list string;
  tp_Allowlist : list string;
  tp_DevelopmentRoots : list string;
  tp_ProtectedPaths : list string;
  tp_MaxFileBytes : Z;
  tp_MaxEvents : Z;
  tp_JournalMaxBytes : Z;
  tp_UpdatedUTC : time;
  tp_Revision : Z;
}.

Record titanObservation := mkObservation {
  ob_Path : string;
  ob_ChangeType : string;
  ob_ObservedUTC : time;
  ob_Sensor : string;
  ob_Live : bool;
}.

Record TitanEvent := mkTitanEvent {
  ev_ID : string;
  ev_ObservedUTC : time;
  ev_Path : string;
  ev_ChangeType : string;
  ev_TrustState : string;
  ev_AuthorizationReason : string;
  ev_Response : string;
  ev_CorrelationQuality : string;
  ev_Severity : string;
  ev_Sensor : string;
  ev_SHA256 : string;
  ev_Size : Z;
  ev_Mode : string;
  ev_FileMode : string;
  ev_Review : string;
  ev_ReviewReason : string;
  ev_ReviewUTC : option time;
  ev_Containment : string;
  ev_ContainmentDetail : string;
  ev_QuarantineID : string;
  ev_EvidenceID : string;
  ev_JournalSequence : Z;
}.

(** The assignments of the code to an event. *)
Definition set_trust (state reason : string) (e : TitanEvent) : TitanEvent :=
  mkTitanEvent (ev_ID e) (ev_ObservedUTC e) (ev_Path e) (ev_ChangeType e) state reason
    (ev_Response e) (ev_CorrelationQuality e) (ev_Severity e) (ev_Sensor e) (ev_SHA256 e) (ev_Size e)
    (ev_Mode e) (ev_FileMode e) (ev_Review e) (ev_ReviewReason e) (ev_ReviewUTC e) (ev_Containment e)
    (ev_ContainmentDetail e) (ev_QuarantineID e) (ev_EvidenceID e) (ev_JournalSequence e).
Definition set_mode_change (mode change : string) (e : TitanEvent) : TitanEvent :=
  mkTitanEvent (ev_ID e) (ev_ObservedUTC e) (ev_Path e) change (ev_TrustState e)
    (ev_AuthorizationReason e) (ev_Response e) (ev_CorrelationQuality e) (ev_Severity e) (ev_Sensor e)
    (ev_SHA256 e) (ev_Size e) mode (ev_FileMode e) (ev_Review e) (ev_ReviewReason e) (ev_ReviewUTC e)
    (ev_Containment e) (ev_ContainmentDetail e) (ev_QuarantineID e) (ev_EvidenceID e) (ev_JournalSequence e).
Definition set_severity (s : string) (e : TitanEvent) : TitanEvent :=
  mkTitanEvent (ev_ID e) (ev_ObservedUTC e) (ev_Path e) (ev_ChangeType e) (ev_TrustState e)
    (ev_AuthorizationReason e) (ev_Response e) (ev_CorrelationQuality e) s (ev_Sensor e)
    (ev_SHA256 e) (ev_Size e) (ev_Mode e) (ev_FileMode e) (ev_Review e) (ev_ReviewReason e) (ev_ReviewUTC e)
    (ev_Containment e) (ev_ContainmentDetail e) (ev_QuarantineID e) (ev_EvidenceID e) (ev_JournalSequence e).
Definition set_correlation (q : string) (e : TitanEvent) : TitanEvent :=
  mkTitanEvent (ev_ID e) (ev_ObservedUTC e) (ev_Path e) (ev_ChangeType e) (ev_TrustState e)
    (ev_AuthorizationReason e) (ev_Response e) q (ev_Severity e) (ev_Sensor e)
    (ev_SHA256 e) (ev_Size e) (ev_Mode e) (ev_FileMode e) (ev_Review e) (ev_ReviewReason e) (ev_ReviewUTC e)
    (ev_Containment e) (ev_ContainmentDetail e) (ev_QuarantineID e) (ev_EvidenceID e) (ev_JournalSequence e).
Definition set_response (r : string) (e : TitanEvent) : TitanEvent :=
  mkTitanEvent (ev_ID e) (ev_ObservedUTC e) (ev_Path e) (ev_ChangeType e) (ev_TrustState e)
    (ev_AuthorizationReason e) r (ev_CorrelationQuality e) (ev_Severity e) (ev_Sensor e)
    (ev_SHA256 e) (ev_Size e) (ev_Mode e) (ev_FileMode e) (ev_Review e) (ev_ReviewReason e) (ev_ReviewUTC e)
    (ev_Containment e) (ev_ContainmentDetail e) (ev_QuarantineID e) (ev_EvidenceID e) (ev_JournalSequence e).
Definition set_containment (r c d q : string) (e : TitanEvent) : TitanEvent :=
  mkTitanEvent (ev_ID e) (ev_ObservedUTC e) (ev_Path e) (ev_ChangeType e) (ev_TrustState e)
    (ev_AuthorizationReason e) r (ev_CorrelationQuality e) (ev_Severity e) (ev_Sensor e)
    (ev_SHA256 e) (ev_Size e) (ev_Mode e) (ev_FileMode e) (ev_Review e) (ev_ReviewReason e) (ev_ReviewUTC e)
    c d q (ev_EvidenceID e) (ev_JournalSequence e).
Definition set_review (rv reason : string) (at_ : time) (e : TitanEvent) : TitanEvent :=
  mkTitanEvent (ev_ID e) (ev_ObservedUTC e) (ev_Path e) (ev_ChangeType e) (ev_TrustState e)
    (ev_AuthorizationReason e) (ev_Response e) (ev_CorrelationQuality e) (ev_Severity e) (ev_Sensor e)
    (ev_SHA256 e) (ev_Size e) (ev_Mode e) (ev_FileMode e) rv reason (Some at_)
    (ev_Containment e) (ev_ContainmentDetail e) (ev_QuarantineID e) (ev_EvidenceID e) (ev_JournalSequence e).
Definition set_sequence (n : Z) (e : TitanEvent) : TitanEvent :=
  mkTitanEvent (ev_ID e) (ev_ObservedUTC e) (ev_Path e) (ev_ChangeType e) (ev_TrustState e)
    (ev_AuthorizationReason e) (ev_Response e) (ev_CorrelationQuality e) (ev_Severity e) (ev_Sensor e)
    (ev_SHA256 e) (ev_Size e) (ev_Mode e) (ev_FileMode e) (ev_Review e) (ev_ReviewReason e) (ev_ReviewUTC e)
    (ev_Containment e) (ev_ContainmentDetail e) (ev_QuarantineID e) (ev_EvidenceID e) n.

(** ** Dependencies and effects *)

Record titanContainmentResult := mkContainmentResult {
  cr_TransactionID : string;
  cr_ObjectID : string;
  cr_SHA256 : string;
}.

(** [TitanDeps]: a missing dependency is [None]. [d_FIM] maps a path to the
    digest of its approved baseline record; [d_Packages] to manager and package
    of its owner; [d_Context] counts the incidents since a time;
    [d_Containment] answers a containment request (a failure as its text). *)
Record TitanDeps := mkTitanDeps {
  d_FIM : option (string -> option string);
  d_Packages : option (string -> option (string * string));
  d_Context : option (time -> goerror + Z);
  d_Containment : option (string -> string -> string + titanContainmentResult);
}.

Inductive titan_effect :=
| ContainRequested (path reason : string)
| EvidenceRecorded (severity kind message target : string)
| EventEmitted (severity kind message target : string).

(** ** Evaluation *)

Definition setTitanSeverity (protected : bool) (e : TitanEvent) : TitanEvent :=
  let t := ev_TrustState e in
  set_severity
    (if bool_decide (t = TitanTrustCompromised) then "critical"
     else if bool_decide (t = TitanTrustUnexpected) then (if protected then "high" else "medium")
     else if bool_decide (t = TitanTrustTolerated) then "low"
     else if bool_decide (t = TitanTrustAuthorized) then "info"
     else "medium") e.

Definition firstNonEmpty (values : list string) : string :=
  match List.find (fun v => negb (bool_decide (TrimSpace v = ""))) values with
  | Some v => v
  | None => ""
  end.

(** The facts [evaluateTrust] establishes before it walks the ladder. *)
Record trust_facts := mkFacts {
  f_protected : bool;
  f_rooted : bool;
  f_allowlisted : bool;
  f_devRoot : bool;
  f_criticalProtected : bool;
  f_temporal : bool;
  f_removed : bool;
  f_identityUsable : bool;
  f_baselineKnown : bool;
  f_baselineMatches : bool;
}.

Definition facts_of (deps : TitanDeps) (e : TitanEvent) (o : titanObservation) (policy : titanPolicy)
    (identity : titanFileIdentity) : trust_facts :=
  let usable := id_Regular identity && negb (id_Symlink identity) &&
                negb (bool_decide (id_SHA256 identity = "")) in
  let baseline := match d_FIM deps with Some fim => if usable then fim (ev_Path e) else None | None => None end in
  mkFacts (titanPathProtected (ev_Path e) (tp_ProtectedPaths policy))
    (titanPathWithinRoots (ev_Path e) (tp_Roots policy))
    (titanPathMatchesAllowlist (ev_Path e) (tp_Allowlist policy))
    (titanPathWithinRoots (ev_Path e) (tp_DevelopmentRoots policy))
    (titanPathWithinRoots (ev_Path e) titanBuiltinProtected)
    (bool_decide (ev_CorrelationQuality e = TitanCorrelationTemporal))
    (bool_decide (ob_ChangeType o = TitanChangeRemoved))
    usable
    (bool_decide (is_Some baseline))
    (match baseline with Some sha => bool_decide (sha = id_SHA256 identity) | None => false end).

(** The switch over the remaining cases, as trust state and reason. *)
Definition trust_ladder (f : trust_facts) (owner : option (string * string)) (identity : titanFileIdentity)
    : string * string :=
  let note := match owner with
    | Some (manager, package) => "installed package " +:+ package +:+ " (" +:+ manager +:+ ")"
    | None => "" end in
  let owned := bool_decide (is_Some owner) in
  let deviation := f_baselineKnown f && negb (f_baselineMatches f) in
  if deviation && owned then
    (TitanTrustUnexpected, "package-owned path differs from the approved FIM baseline (" +:+ note +:+ ")")
  else if deviation && f_protected f then
    if f_temporal f
    then (TitanTrustCompromised, "security-critical path deviates from the approved baseline with a temporally correlated XDR incident")
    else (TitanTrustUnexpected, "security-critical path deviates from the approved FIM baseline")
  else if deviation then (TitanTrustUnexpected, "path differs from the approved FIM baseline")
  else if owned then
    (TitanTrustTolerated, "path is owned by " +:+ note +:+ " but has no approved baseline or allowlist entry")
  else if f_devRoot f && negb (f_protected f) then
    (TitanTrustTolerated, "change is inside a configured development root; development context is not an owner authorization")
  else if f_protected f && negb (f_baselineKnown f) && f_temporal f then
    (TitanTrustCompromised, "security-critical path has no approved baseline and changed during a temporally correlated XDR incident")
  else if f_protected f && negb (f_baselineKnown f) then
    (TitanTrustUnexpected, "security-critical path has no approved baseline and no explicit allowlist entry")
  else if f_removed f then
    (TitanTrustUnexpected, "object was removed without an approved baseline authorizing the removal")
  else if negb (f_identityUsable f) then
    (TitanTrustUnexpected, "object content could not be verified: " +:+ firstNonEmpty [id_Error identity; "missing file identity"])
  else (TitanTrustUnexpected, "no approved baseline, allowlist entry or package ownership evidence exists").

Definition evaluateTrust (deps : TitanDeps) (e : TitanEvent) (o : titanObservation)
    (policy : titanPolicy) (identity : titanFileIdentity) : TitanEvent :=
  let e := set_mode_change (tp_Mode policy) (ob_ChangeType o) e in
  let f := facts_of deps e o policy identity in
  let finish e := setTitanSeverity (f_protected f) e in
  if f_allowlisted f && negb (f_criticalProtected f) && negb (id_Symlink identity) && id_Regular identity then
    finish (if f_removed f
            then set_trust TitanTrustUnexpected "allowlisted object was removed; removal is not covered by a path allowlist" e
            else set_trust TitanTrustAuthorized "path is explicitly allowlisted by the owner policy" e)
  else if f_baselineMatches f && negb (f_removed f) then
    finish (set_trust TitanTrustAuthorized "content matches the approved encrypted FIM baseline" e)
  else if negb (f_rooted f) then
    finish (set_trust TitanTrustUnexpected "observed path is outside the configured Titan roots" e)
  else
    let owner := match d_Packages deps with
      | Some packages => if f_allowlisted f then None else packages (ev_Path e)
      | None => None end in
    let '(state, reason) := trust_ladder f owner identity in
    let e := set_trust state reason e in
    let e := if bool_decide (ev_TrustState e = TitanTrustAuthorized) &&
                (negb (id_Regular identity) || id_Symlink identity)
             then set_trust TitanTrustUnexpected "object is a symlink or not a regular file; content authorization is impossible" e
             else e in
    let e := if bool_decide (ev_TrustState e = TitanTrustAuthorized) &&
                negb (f_identityUsable f) && f_removed f
             then set_trust TitanTrustUnexpected (ev_AuthorizationReason e) e else e in
    finish e.

(** ** Response *)

Definition boundedTitanText (value : string) (limit : nat) : string :=
  if Nat.leb (String.length value) limit then value else of_bytes (take limit (bytes_of value)).

(** [validateTitanContainSafePath]: [current] is the engine's policy at the
    time of the call, [lstat] the answer of the system. *)
Definition validateTitanContainSafePath (current : titanPolicy) (journalPath policyPath path : string)
    (lstat : option finfo) : option string :=
  if (slen path =? 0) || (titanMaxPathBytes <? slen path) || negb (IsAbs path) || has_nul path
  then Some "containment path is not a bounded absolute path"
  else
    let clean := Clean path in
    if negb (bool_decide (clean = path)) then Some "containment path is not canonical"
    else if bool_decide (clean = "/") then Some "filesystem root cannot be contained"
    else if negb (titanPathWithinRoots clean (tp_Roots current))
    then Some "containment path is outside the configured Titan roots"
    else if bool_decide (clean = Clean journalPath) || bool_decide (clean = Clean policyPath)
    then Some "Titan state documents cannot be contained"
    else if existsb (titanPathUnder clean) titanBuiltinContainDeny
    then Some "system-critical object is excluded from automatic containment; operator review is required"
    else match lstat with
    | None => Some "containment object is not present for a safe transaction"
    | Some info =>
        if bool_decide (fi_kind info = Symlink) then Some "containment refuses a symlink target"
        else if negb (bool_decide (fi_kind info = Regular)) then Some "containment requires a regular file"
        else if (fi_size info <? 0) || (tp_MaxFileBytes current <? fi_size info)
        then Some "containment object exceeds the bounded size"
        else None
    end.

(** The engine state the response reads. *)
Record contain_env := mkContainEnv {
  ce_policy : titanPolicy;
  ce_journalPath : string;
  ce_policyPath : string;
  ce_lstat : option finfo;
}.
Definition safe_path (env : contain_env) (path : string) : option string :=
  validateTitanContainSafePath (ce_policy env) (ce_journalPath env) (ce_policyPath env) path (ce_lstat env).

Definition tryAutoContain (deps : TitanDeps) (env : contain_env) (policy : titanPolicy) (e : TitanEvent)
    : TitanEvent * list titan_effect :=
  if negb (tp_Armed policy) || negb (tp_AutoContain policy)
  then (set_containment TitanResponseNoAction "NOT_REQUESTED"
          "auto-containment requires policy mode CONTAIN/STRICT, armed=true and auto_contain=true"
          (ev_QuarantineID e) e, [])
  else match d_Containment deps with
  | None => (set_containment TitanResponseContainUnavailable "UNAVAILABLE"
               "privileged quarantine core is unavailable" (ev_QuarantineID e) e, [])
  | Some request =>
      match safe_path env (ev_Path e) with
      | Some err => (set_containment TitanResponseContainUnavailable "UNAVAILABLE" err (ev_QuarantineID e) e, [])
      | None =>
          let reason := "Titan automatic containment of an " +:+ ev_TrustState e +:+ " change" in
          match request (ev_Path e) reason with
          | inl err =>
              (set_containment TitanResponseContainFailed "FAILED"
                 ("quarantine transaction rejected: " +:+ boundedTitanText err 200) (ev_QuarantineID e) e,
               [ContainRequested (ev_Path e) reason;
                EvidenceRecorded "critical" "titan.auto_contain.failed"
                  "Automatic Titan containment failed closed" (ev_Path e)])
          | inr result =>
              (set_containment TitanResponseContained "CONTAINED"
                 ("quarantined by verified transaction " +:+ cr_TransactionID result) (cr_TransactionID result) e,
               [ContainRequested (ev_Path e) reason;
                EvidenceRecorded "critical" "titan.auto_contained"
                  "Automatic Titan containment completed through the quarantine transaction engine" (ev_Path e)])
          end
      end
  end.

Definition applyResponse (deps : TitanDeps) (env : contain_env) (policy : titanPolicy) (e : TitanEvent)
    : TitanEvent * list titan_effect :=
  let e := set_response TitanResponseObserved e in
  let t := ev_TrustState e in
  if bool_decide (tp_Mode policy = TitanModeObserve) then (e, [])
  else if bool_decide (tp_Mode policy = TitanModeStrict) then
    if bool_decide (t = TitanTrustAuthorized) then (set_response TitanResponseObserved e, [])
    else if bool_decide (t = TitanTrustTolerated) then (set_response TitanResponseReviewRequired e, [])
    else
      let '(e, fx) := tryAutoContain deps env policy e in
      (if bool_decide (ev_Response e = TitanResponseContained) then e
       else set_response TitanResponseReviewRequired e, fx)
  else if bool_decide (t = TitanTrustAuthorized) || bool_decide (t = TitanTrustTolerated)
  then (set_response TitanResponseObserved e, [])
  else tryAutoContain deps env policy e.

(** [attachContext] *)
Definition attachContext (deps : TitanDeps) (at_ : time) (e : TitanEvent) : TitanEvent :=
  match d_Context deps with
  | None => set_correlation TitanCorrelationNone e
  | Some recent =>
      match recent (Time.Add at_ (- (2 * Time.Minute))) with
      | inl _ => set_correlation TitanCorrelationNone e
      | inr count => if count <=? 0 then set_correlation TitanCorrelationNone e
                     else set_correlation TitanCorrelationTemporal e
      end
  end.

(** ** Paths are compared by components *)

Lemma HasPrefix_bytes s p : HasPrefix s p = true <-> exists t, bytes_of s = bytes_of p ++ t.
Proof.
  rewrite HasPrefix_spec. split.
  - intros [r ->]. exists (bytes_of r). apply bytes_of_app.
  - intros [t Ht]. exists (of_bytes t). apply bytes_of_inj. by rewrite bytes_of_app, bytes_of_of.
Qed.

Lemma titanPathUnder_prefix path root : IsAbs path = true -> IsAbs root = true ->
  titanPathUnder path root = true <-> elems_of root `prefix_of` elems_of path.
Proof.
  intros Hp Hr. unfold titanPathUnder.
  pose proof (elems_of_abs path Hp) as HPn. pose proof (elems_of_abs root Hr) as HRn.
  destruct (bool_decide_reflect (Clean path = Clean root)) as [Heq|Hne].
  { apply Clean_inj in Heq as ->; [|done..]. done. }
  assert (elems_of path <> elems_of root) as Hne' by (intros HE; by apply Hne, Clean_inj).
  destruct (decide (elems_of root = [])) as [Hnil|Hcons].
  - assert (Clean root = "/") as HC by (rewrite Clean_abs by done; by rewrite Hnil).
    rewrite HC, bool_decide_true, Hnil by done. split; [intros _; apply prefix_nil|].
    intros _. by apply IsAbs_Clean.
  - assert (Clean root <> "/") as HC.
    { rewrite Clean_abs by done. intros HE. apply (f_equal bytes_of) in HE. rewrite bytes_of_of in HE.
      cbn in HE. simplify_eq. destruct HRn as [|e es [(He & _) _] _]; [done|].
      destruct es; destruct e; done. }
    rewrite bool_decide_false by done. rewrite HasPrefix_bytes, !Clean_abs, bytes_of_app, !bytes_of_of by done.
    cbn [app]. split.
    + intros [t Ht]. injection Ht as Ht. rewrite <- app_assoc in Ht. cbn [app] in Ht.
      apply join_prefix in Ht as (rest & _ & -> & _); [|done..]. by exists rest.
    + intros [rest HE]. exists (join_slash rest). f_equal. rewrite <- app_assoc. cbn [app].
      apply join_prefix; [done..|]. exists rest. split_and!; [|done|done].
      intros ->. rewrite app_nil_r in HE. done.
Qed.

(** A path is inside a list of absolute roots when the names of one of them
    start its own. *)
Lemma within_roots_spec path roots : IsAbs path = true -> Forall (fun r => IsAbs r = true) roots ->
  titanPathWithinRoots path roots = true <->
  exists r, r ∈ roots /\ elems_of r `prefix_of` elems_of path.
Proof.
  intros Hp HR. unfold titanPathWithinRoots. rewrite existsb_exists.
  setoid_rewrite <- list_elem_of_In. rewrite Forall_forall in HR.
  split; intros (r & Hin & Hu); exists r; (split; [done|]).
  - rewrite <- (elems_of_Clean path) by done. apply titanPathUnder_prefix; auto using IsAbs_Clean.
  - apply titanPathUnder_prefix; auto using IsAbs_Clean. by rewrite elems_of_Clean.
Qed.

(** The containment test on paths is component-aware: for absolute paths,
    [path] is under [root] exactly when the names of the cleaned root are the
    first names of the cleaned path, so "/var/www2" is not under "/var/www" and
    no sequence of dots, slashes or parent references changes the answer. *)
Theorem titanPathUnder_components path root : IsAbs path = true -> IsAbs root = true ->
  titanPathUnder path root = true <-> elems_of root `prefix_of` elems_of path.
Proof. exact (titanPathUnder_prefix path root). Qed.

(** ** Trust *)

Lemma ladder_state f owner identity :
  (trust_ladder f owner identity).1 = TitanTrustUnexpected \/
  ((trust_ladder f owner identity).1 = TitanTrustTolerated /\
     (is_Some owner \/ (f_devRoot f = true /\ f_protected f = false)) /\
     (f_baselineKnown f = true -> f_baselineMatches f = true)) \/
  ((trust_ladder f owner identity).1 = TitanTrustCompromised /\
     owner = None /\ f_protected f = true /\ f_temporal f = true /\
     (f_baselineKnown f = true -> f_baselineMatches f = false)).
Proof.
  unfold trust_ladder. destruct f as [prot root allow dev crit temp rem usable known matches]. cbn.
  destruct owner as [[man pack]|]; cbn [bool_decide];
  [rewrite (bool_decide_true (is_Some (Some _))) by done | rewrite (bool_decide_false (is_Some None)) by (by intros [])];
  destruct prot, temp, known, matches, dev; cbn; repeat case_match; naive_solver.
Qed.

Section Trust.
Context (deps : TitanDeps) (e : TitanEvent) (o : titanObservation) (policy : titanPolicy)
        (identity : titanFileIdentity).

Let f := facts_of deps (set_mode_change (tp_Mode policy) (ob_ChangeType o) e) o policy identity.
Let owner := match d_Packages deps with
  | Some packages => if f_allowlisted f then None else packages (ev_Path e)
  | None => None end.

(** The allowlist branch applies. *)
Definition by_allowlist : bool :=
  f_allowlisted f && negb (f_criticalProtected f) && negb (id_Symlink identity) && id_Regular identity.

Lemma evaluateTrust_state :
  ev_TrustState (evaluateTrust deps e o policy identity) =
  if by_allowlist then (if f_removed f then TitanTrustUnexpected else TitanTrustAuthorized)
  else if f_baselineMatches f && negb (f_removed f) then TitanTrustAuthorized
  else if negb (f_rooted f) then TitanTrustUnexpected
  else (trust_ladder f owner identity).1.
Proof.
  unfold evaluateTrust. fold f. unfold by_allowlist. destruct (_ && _ && _ && _); [by destruct (f_removed f)|].
  destruct (_ && _); [done|]. destruct (negb (f_rooted f)); [done|]. cbv zeta.
  change (ev_Path (set_mode_change _ _ e)) with (ev_Path e). fold owner.
  pose proof (ladder_state f owner identity) as HL.
  destruct (trust_ladder f owner identity) as [state reason]. cbn [fst] in HL |- *.
  assert (state <> TitanTrustAuthorized) as Hs by (destruct HL as [->|[[-> _]|[-> _]]]; done).
  cbn [ev_TrustState set_trust]. rewrite (bool_decide_false (state = _)) by done. cbn [andb].
  cbn [ev_TrustState set_trust]. rewrite (bool_decide_false (state = _)) by done. done.
Qed.

(** What [facts_of] says about the baseline. *)
Lemma facts_baseline : f_baselineMatches f = true ->
  exists fim, d_FIM deps = Some fim /\ fim (ev_Path e) = Some (id_SHA256 identity) /\
    id_Regular identity = true /\ id_Symlink identity = false /\ id_SHA256 identity <> "".
Proof.
  unfold f, facts_of. cbn. destruct (d_FIM deps) as [fim|]; [|done].
  destruct (id_Regular identity), (id_Symlink identity); cbn; try done.
  destruct (bool_decide_reflect (id_SHA256 identity = "")); cbn; [done|].
  destruct (fim (ev_Path e)) as [sha|] eqn:Hs; [|done].
  intros ->%bool_decide_eq_true. by exists fim.
Qed.

(** Owner authorization of the observed change: an allowlist entry for an
    object that is not security-critical, or content equal to the approved
    baseline. *)
Definition authorized : Prop :=
  ob_ChangeType o <> TitanChangeRemoved /\
  id_Regular identity = true /\ id_Symlink identity = false /\
  (titanPathWithinRoots (ev_Path e) (tp_Allowlist policy) = true /\
     titanPathWithinRoots (ev_Path e) titanBuiltinProtected = false \/
   exists fim, d_FIM deps = Some fim /\ fim (ev_Path e) = Some (id_SHA256 identity) /\
     id_SHA256 identity <> "").

Lemma by_allowlist_true : by_allowlist = true <->
  titanPathWithinRoots (ev_Path e) (tp_Allowlist policy) = true /\
  titanPathWithinRoots (ev_Path e) titanBuiltinProtected = false /\
  id_Symlink identity = false /\ id_Regular identity = true.
Proof.
  unfold by_allowlist, f, facts_of. cbn. unfold titanPathMatchesAllowlist.
  rewrite !andb_true_iff, !negb_true_iff. tauto.
Qed.

Lemma removed_spec : f_removed f = false <-> ob_ChangeType o <> TitanChangeRemoved.
Proof. unfold f, facts_of. cbn. apply bool_decide_eq_false. Qed.

Lemma evaluateTrust_authorized :
  ev_TrustState (evaluateTrust deps e o policy identity) = TitanTrustAuthorized <-> authorized.
Proof.
  rewrite evaluateTrust_state. unfold authorized. split.
  - destruct by_allowlist eqn:HA.
    { apply by_allowlist_true in HA as (? & ? & ? & ?). destruct (f_removed f) eqn:HR; [done|].
      apply removed_spec in HR. intros _. split_and!; try done. by left. }
    destruct (f_baselineMatches f && negb (f_removed f)) eqn:HB.
    { apply andb_true_iff in HB as [HM HR%negb_true_iff%removed_spec].
      apply facts_baseline in HM as (fim & ? & ? & ? & ? & ?). intros _. split_and!; try done. right. eauto. }
    destruct (negb (f_rooted f)); [done|].
    destruct (ladder_state f owner identity) as [->|[[-> _]|[-> _]]]; done.
  - intros (HR%removed_spec & Hreg & Hsym & Hev). rewrite HR. cbn [negb].
    destruct by_allowlist eqn:HA; [done|].
    destruct Hev as [[H1 H2]|(fim & H1 & H2 & H3)].
    { enough (by_allowlist = true) by congruence. by apply by_allowlist_true. }
    assert (f_baselineMatches f = true) as ->; [|done].
    unfold f, facts_of. cbn. rewrite H1, Hreg, Hsym, bool_decide_false by done. cbn. rewrite H2.
    by apply bool_decide_eq_true.
Qed.
End Trust.

(** Authorization is exactly owner evidence. An observed change is
    AUTHORIZED precisely when it is not a removal, the object is a regular
    file, and either its path is allowlisted and not a built-in protected
    system object, or its content hash equals the approved FIM baseline of its
    path. In particular no package ownership, development root or missing
    evidence authorizes a change. *)
Theorem authorized_exactly deps e o policy identity :
  ev_TrustState (evaluateTrust deps e o policy identity) = TitanTrustAuthorized <->
  authorized deps e o policy identity.
Proof. apply evaluateTrust_authorized. Qed.

(** ** Missing package evidence lowers trust *)

Definition trust_rank (state : string) : Z :=
  if bool_decide (state = TitanTrustCompromised) then 0
  else if bool_decide (state = TitanTrustUnexpected) then 1
  else if bool_decide (state = TitanTrustTolerated) then 2 else 3.

Definition without_packages (deps : TitanDeps) : TitanDeps :=
  mkTitanDeps (d_FIM deps) None (d_Context deps) (d_Containment deps).

Lemma ladder_monotone f owner identity :
  trust_rank (trust_ladder f None identity).1 <= trust_rank (trust_ladder f owner identity).1.
Proof.
  destruct owner as [[man pack]|]; [|lia]. unfold trust_ladder.
  rewrite (bool_decide_true (is_Some (Some _))), (bool_decide_false (is_Some None)) by (done || by intros []).
  destruct f as [prot root allow dev crit temp rem usable known matches]. cbn.
  destruct prot, temp, known, matches, dev, rem, usable; vm_compute; intros ?; discriminate.
Qed.

(** Missing evidence lowers trust. Without the package verifier every change
    is judged at most as trustworthy as with it, whatever the verifier
    answers. *)
Theorem missing_packages_lower deps e o policy identity :
  trust_rank (ev_TrustState (evaluateTrust (without_packages deps) e o policy identity)) <=
  trust_rank (ev_TrustState (evaluateTrust deps e o policy identity)).
Proof.
  rewrite !evaluateTrust_state.
  change (facts_of (without_packages deps)) with (facts_of deps).
  change (by_allowlist (without_packages deps) e o policy identity) with (by_allowlist deps e o policy identity).
  destruct (by_allowlist _ _ _ _ _); [lia|].
  destruct (_ && _); [lia|]. destruct (negb _); [lia|]. apply ladder_monotone.
Qed.

(** ** Containment *)

(** What [validateTitanContainSafePath] guarantees of a path it accepts. *)
Record containable (env : contain_env) (path : string) : Prop := {
  ct_abs : IsAbs path = true;
  ct_canonical : Clean path = path;
  ct_rooted : titanPathWithinRoots path (tp_Roots (ce_policy env)) = true;
  ct_not_state : path <> Clean (ce_journalPath env) /\ path <> Clean (ce_policyPath env);
  ct_not_denied : forall d, d ∈ titanBuiltinContainDeny -> ~ elems_of d `prefix_of` elems_of path;
  ct_regular : exists info, ce_lstat env = Some info /\ fi_kind info = Regular /\
    0 <= fi_size info <= tp_MaxFileBytes (ce_policy env);
}.

Lemma deny_absolute d : d ∈ titanBuiltinContainDeny -> IsAbs d = true.
Proof.
  assert (Forall (fun d => IsAbs d = true) titanBuiltinContainDeny) as HF by (repeat constructor).
  rewrite Forall_forall in HF. apply HF.
Qed.

Lemma safe_path_containable env path : safe_path env path = None -> containable env path.
Proof.
  unfold safe_path, validateTitanContainSafePath.
  destruct ((slen path =? 0) || _ || _ || _) eqn:H0; [done|].
  destruct (bool_decide_reflect (Clean path = path)) as [HC|]; cbn [negb]; [|done].
  destruct (bool_decide_reflect (Clean path = "/")); [done|].
  destruct (titanPathWithinRoots _ _) eqn:HR; cbn [negb]; [|done].
  destruct (bool_decide (_ = Clean (ce_journalPath env)) || _) eqn:HS; [done|].
  destruct (existsb (titanPathUnder (Clean path)) titanBuiltinContainDeny) eqn:HD; [done|].
  destruct (ce_lstat env) as [info|] eqn:HL; [|done].
  destruct (bool_decide_reflect (fi_kind info = Symlink)); [done|].
  destruct (bool_decide_reflect (fi_kind info = Regular)); cbn [negb]; [|done].
  destruct ((fi_size info <? 0) || _) eqn:Hsz; [done|]. intros _.
  rewrite HC in *. apply orb_false_iff in Hsz as [?%Z.ltb_ge ?%Z.ltb_ge].
  rewrite !orb_false_iff, negb_false_iff in H0. destruct H0 as [[[_ _] HA] _].
  rewrite orb_false_iff, !bool_decide_eq_false in HS.
  split; try done; [|by eexists].
  intros d Hd Hpre. apply titanPathUnder_prefix in Hpre; [|done|by apply deny_absolute].
  apply not_true_iff_false in HD. apply HD, existsb_exists. exists d.
  split; [by apply list_elem_of_In|done].
Qed.

Definition requests (fx : list titan_effect) : list (string * string) :=
  omap (fun x => match x with ContainRequested p r => Some (p, r) | _ => None end) fx.

Lemma tryAutoContain_cases deps env policy e e' fx :
  tryAutoContain deps env policy e = (e', fx) ->
  (requests fx = [] /\ ev_Response e' <> TitanResponseContained) \/
  (tp_Armed policy = true /\ tp_AutoContain policy = true /\ safe_path env (ev_Path e) = None /\
   exists request reason, d_Containment deps = Some request /\ requests fx = [(ev_Path e, reason)] /\
   match request (ev_Path e) reason with
   | inl _ => ev_Response e' = TitanResponseContainFailed
   | inr result => ev_Response e' = TitanResponseContained /\ ev_QuarantineID e' = cr_TransactionID result
   end).
Proof.
  unfold tryAutoContain. destruct (tp_Armed policy), (tp_AutoContain policy); cbn [negb orb];
    try (intros [= <- <-]; by left).
  destruct (d_Containment deps) as [request|]; [|intros [= <- <-]; by left].
  destruct (safe_path env (ev_Path e)) eqn:HS; [intros [= <- <-]; by left|].
  set (reason := "Titan automatic containment of an " +:+ _).
  destruct (request (ev_Path e) reason) as [err|result] eqn:HR; intros [= <- <-]; right;
    split_and!; try done; exists request, reason; by rewrite HR.
Qed.

Lemma applyResponse_cases deps env policy e e' fx :
  applyResponse deps env policy e = (e', fx) ->
  (requests fx = [] /\ ev_Response e' <> TitanResponseContained) \/
  (tp_Mode policy <> TitanModeObserve /\
   ev_TrustState e <> TitanTrustAuthorized /\ ev_TrustState e <> TitanTrustTolerated /\
   tp_Armed policy = true /\ tp_AutoContain policy = true /\ safe_path env (ev_Path e) = None /\
   exists request reason, d_Containment deps = Some request /\ requests fx = [(ev_Path e, reason)] /\
   match request (ev_Path e) reason with
   | inl _ => ev_Response e' <> TitanResponseContained
   | inr result => ev_Response e' = TitanResponseContained /\ ev_QuarantineID e' = cr_TransactionID result
   end).
Proof.
  unfold applyResponse. cbn [ev_TrustState set_response].
  destruct (bool_decide_reflect (tp_Mode policy = TitanModeObserve)) as [|Hm]; [intros [= <- <-]; by left|].
  destruct (bool_decide_reflect (ev_TrustState e = TitanTrustAuthorized)) as [|Ha];
    [destruct (bool_decide _); intros [= <- <-]; by left|].
  destruct (bool_decide_reflect (ev_TrustState e = TitanTrustTolerated)) as [|Ht];
    [destruct (bool_decide _); intros [= <- <-]; by left|]. cbn [orb].
  destruct (tryAutoContain deps env policy (set_response TitanResponseObserved e)) as [e1 fx1] eqn:HT.
  apply tryAutoContain_cases in HT. cbn [ev_Path set_response] in HT.
  destruct (bool_decide (tp_Mode policy = TitanModeStrict)); intros [= <- <-].
  - destruct HT as [[H1 H2]|(H1 & H2 & H3 & request & reason & H4 & H5 & H6)].
    + left. split; [done|]. by rewrite bool_decide_false.
    + right. split_and!; try done. exists request, reason. split_and!; try done.
      destruct (request (ev_Path e) reason) as [err|result].
      * by rewrite H6, bool_decide_false.
      * destruct H6 as [H6 H7]. by rewrite bool_decide_true.
  - destruct HT as [?|(H1 & H2 & H3 & request & reason & H4 & H5 & H6)]; [by left|].
    right. split_and!; try done. exists request, reason. split_and!; try done.
    destruct (request (ev_Path e) reason); [by rewrite H6|done].
Qed.

(** The response requests a containment only in mode CONTAIN or STRICT, armed
    and with automatic containment enabled, for a change that is neither
    authorized nor tolerated, at most once and for the path of the event. *)
Lemma response_guarded deps env policy e e' fx :
  applyResponse deps env policy e = (e', fx) -> requests fx <> [] ->
  (exists reason, requests fx = [(ev_Path e, reason)]) /\
  tp_Mode policy <> TitanModeObserve /\ tp_Armed policy = true /\ tp_AutoContain policy = true /\
  ev_TrustState e <> TitanTrustAuthorized /\ ev_TrustState e <> TitanTrustTolerated /\
  containable env (ev_Path e).
Proof.
  intros [[? _]|(H1 & H2 & H3 & H4 & H5 & H6%safe_path_containable & request & reason & _ & H8 & _)]%applyResponse_cases
    Hne; [done|]. split_and!; try done. by exists reason.
Qed.

Lemma applyResponse_same deps env policy e e' fx : applyResponse deps env policy e = (e', fx) ->
  ev_Path e' = ev_Path e /\ ev_TrustState e' = ev_TrustState e.
Proof.
  assert (forall e0 e1 fx0, tryAutoContain deps env policy e0 = (e1, fx0) ->
    ev_Path e1 = ev_Path e0 /\ ev_TrustState e1 = ev_TrustState e0) as HT.
  { intros e0 e1 fx0. unfold tryAutoContain. by repeat case_match; intros [= <- <-]. }
  unfold applyResponse. intros H. repeat case_match; simplify_eq; try done;
    match goal with HC : tryAutoContain _ _ _ _ = _ |- _ => by apply HT in HC end.
Qed.

(** Containment is never claimed without a verified transaction. The event is
    marked CONTAINED exactly when the quarantine service was asked for its path
    and answered with a transaction, whose id the event then carries. *)
Theorem contained_only_if_verified deps env policy e e' fx :
  applyResponse deps env policy e = (e', fx) ->
  ev_Response e' = TitanResponseContained <->
  exists request reason result, d_Containment deps = Some request /\
    requests fx = [(ev_Path e, reason)] /\ request (ev_Path e) reason = inr result /\
    ev_QuarantineID e' = cr_TransactionID result.
Proof.
  intros [[HR Hne]|(_ & _ & _ & _ & _ & _ & request & reason & HD & HR & HM)]%applyResponse_cases.
  - split; [done|]. intros (? & ? & ? & _ & HR' & _). congruence.
  - split.
    + intros HC. destruct (request (ev_Path e) reason) as [|result] eqn:HQ; [done|].
      exists request, reason, result. by destruct HM.
    + intros (request' & reason' & result & HD' & HR' & HQ & _). simplify_eq.
      rewrite HR in HR'. simplify_eq. rewrite HQ in HM. by destruct HM.
Qed.

(** In STRICT mode every change that is not explicitly authorized is either
    verifiably contained or surfaced for operator review. *)
Theorem strict_surfaces_everything deps env policy e :
  tp_Mode policy = TitanModeStrict -> ev_TrustState e <> TitanTrustAuthorized ->
  let e' := (applyResponse deps env policy e).1 in
  ev_Response e' = TitanResponseContained \/ ev_Response e' = TitanResponseReviewRequired.
Proof.
  intros Hm Ha. cbv zeta. unfold applyResponse. cbn [ev_TrustState set_response].
  rewrite Hm, (bool_decide_false (TitanModeStrict = _)), bool_decide_true, bool_decide_false by done.
  case_bool_decide; [by right|].
  destruct (tryAutoContain _ _ _ _) as [e1 fx1]. cbn [fst]. case_bool_decide; [by left|by right].
Qed.

(** ** File identity *)

Section IdentityFacts.
Context `{C : Crypto}.

(** A hash is only reported for a file that held still. When the identity
    carries a digest, the path is a bounded absolute path, the object was a
    regular file of at most [maxBytes] bytes, the same object before, while and
    after it was read, with unchanged size and modification time, and the digest
    is that of exactly the bytes of that size. *)
Theorem identity_of_stable_file path maxBytes pr : 0 <= maxBytes ->
  let i := readTitanIdentity path maxBytes pr in
  id_Readable i = true ->
  id_Regular i = true /\ id_Symlink i = false /\ id_Path i = Clean path /\ IsAbs path = true /\
  exists before opened after content,
    pr_lstat pr = Some before /\ pr_fstat pr = Some opened /\ pr_fstat_after pr = Some after /\
    pr_content pr = Some content /\ fi_kind before = Regular /\
    fi_object opened = fi_object before /\ fi_object after = fi_object before /\
    fi_mtime after = fi_mtime before /\ fi_size after = fi_size before /\
    fi_size before <= maxBytes /\ slen content = fi_size before /\
    id_Size i = fi_size before /\ id_SHA256 i = hex_EncodeToString (sha256_Sum content).
Proof.
  intros Hmax. cbv zeta. unfold readTitanIdentity.
  destruct (_ || _ || _) eqn:H0; [done|]. rewrite !orb_false_iff, negb_false_iff in H0.
  destruct H0 as [[HA _] _].
  destruct (pr_lstat pr) as [before|]; [|done]. destruct (decide (fi_kind before = Symlink)); [done|].
  case_bool_decide as HR; cbn [negb]; [|done].
  destruct (_ || _) eqn:Hsz; [done|]. apply orb_false_iff in Hsz as [?%Z.ltb_ge ?%Z.ltb_ge].
  destruct (pr_open pr); cbn [negb]; [|done].
  destruct (pr_fstat pr) as [opened|]; [|done]. case_bool_decide as Ho; cbn [negb]; [|done].
  destruct (pr_content pr) as [content|]; [|done].
  set (read := of_bytes _). destruct (Z.eqb_spec (slen read) (fi_size before)) as [Hlen|]; cbn [negb]; [|done].
  destruct (pr_fstat_after pr) as [after|]; [|done].
  destruct (_ || _ || _) eqn:HF; [done|]. rewrite !orb_false_iff, !negb_false_iff, bool_decide_eq_true, !Z.eqb_eq in HF.
  destruct HF as [[? ?] ?]. intros _. cbn.
  assert (read = content) as Hread.
  { unfold read in *. rewrite slen_of_bytes, length_take, length_bytes_of in Hlen.
    rewrite take_ge, of_bytes_of; [done|]. rewrite length_bytes_of. lia. }
  rewrite Hread in *. split_and!; try done. exists before, opened, after, content. by split_and!.
Qed.
End IdentityFacts.
