(* ===== verification/Titan.v ===== *)
(** * Titan: policy, journal and operator actions

    src/control/titan.go: the validated owner policy with its persisted
    document, the bounded observation journal, the observation pipeline, paging,
    operator review and containment. Files go through [atomicWriteFile] and
    [readBoundedPrivateFile] of World.v; the JSON codecs are interfaces. The
    clock is the world's. *)

From Stdlib Require Import ZArith Lia Ascii String.
From stdpp Require Import base gmap strings list sorting.
From S2P Require Import Prelude.
From S2P Require Import GoLib.
From S2P Require Import Strconv.
From S2P Require Import Text.
From S2P Require Import Paths.
From S2P Require Import World.
From S2P Require Import Storage.
From S2P Require Import TitanTrust.

Definition titanPolicySchema : string := "vgt-gedefense-titan-policy-v1".
Definition titanJournalSchema : string := "vgt-gedefense-titan-journal-v1".
Definition titanMaxPolicyBytes : Z := 65536.
Definition titanMaxJournalReadBytes : Z := 8388608.
Definition titanMinJournalEvents : Z := 50.
Definition titanMaxJournalEvents : Z := 2000.
Definition titanMinJournalBytes : Z := 262144.
Definition titanMaxJournalBytes : Z := 8388608.
Definition titanMinFileBytes : Z := 1024.
Definition titanMaxFileBytes : Z := 67108864.
Definition titanMaxRoots : Z := 32.
Definition titanMaxAllowlist : Z := 256.
Definition titanMaxEventIDBytes : Z := 64.
Definition titanMinReasonBytes : Z := 8.
Definition titanMaxReasonBytes : Z := 512.
Definition titanDefaultLimit : Z := 20.
Definition titanMaxLimit : Z := 50.
Definition titanMaxQuarantine : nat := 200.

Record TitanTrustCounts := mkTrustCounts {
  tc_Authorized : Z; tc_Tolerated : Z; tc_Unexpected : Z; tc_Compromised : Z }.
Record TitanCorrelationCounts := mkCorrelationCounts {
  cc_Observed : Z; cc_Temporal : Z; cc_None : Z }.
Record TitanSensorStatus := mkSensor {
  sn_State : string; sn_LastObservationUTC : option time; sn_Error : string }.

Record titanQuarantineItem := mkQuarantineItem {
  qi_ID : string;
  qi_EventID : string;
  qi_Path : string;
  qi_SampleSHA256 : string;
  qi_CreatedUTC : time;
  qi_State : string;
}.

Record titanPolicyDocument := mkPolicyDocument {
  pdoc_Schema : string;
  pdoc_Version : Z;
  pdoc_Policy : titanPolicy;
  pdoc_SavedUTC : time;
}.

Record titanJournalDocument := mkJournalDocument {
  jd_Schema : string;
  jd_Version : Z;
  jd_SavedUTC : time;
  jd_TotalEvents : Z;
  jd_Events : list TitanEvent;
  jd_Quarantine : list titanQuarantineItem;
}.

Record TitanEngine := mkTitanEngine {
  t_policy : titanPolicy;
  t_policyPath : string;
  t_journalPath : string;
  t_events : list TitanEvent;
  t_quarantine : list titanQuarantineItem;
  t_totalEvents : Z;
  t_sequence : Z;
  t_openFindings : Z;
  t_trustCounts : TitanTrustCounts;
  t_corrCounts : TitanCorrelationCounts;
  t_sensor : TitanSensorStatus;
  t_enabled : bool;
}.

Definition set_tpolicy (p : titanPolicy) (e : TitanEngine) : TitanEngine :=
  mkTitanEngine p (t_policyPath e) (t_journalPath e) (t_events e) (t_quarantine e) (t_totalEvents e)
    (t_sequence e) (t_openFindings e) (t_trustCounts e) (t_corrCounts e) (t_sensor e) (t_enabled e).
Definition set_events (evs : list TitanEvent) (e : TitanEngine) : TitanEngine :=
  mkTitanEngine (t_policy e) (t_policyPath e) (t_journalPath e) evs (t_quarantine e) (t_totalEvents e)
    (t_sequence e) (t_openFindings e) (t_trustCounts e) (t_corrCounts e) (t_sensor e) (t_enabled e).
Definition set_quarantine (q : list titanQuarantineItem) (e : TitanEngine) : TitanEngine :=
  mkTitanEngine (t_policy e) (t_policyPath e) (t_journalPath e) (t_events e) q (t_totalEvents e)
    (t_sequence e) (t_openFindings e) (t_trustCounts e) (t_corrCounts e) (t_sensor e) (t_enabled e).
Definition set_totals (total seq : Z) (e : TitanEngine) : TitanEngine :=
  mkTitanEngine (t_policy e) (t_policyPath e) (t_journalPath e) (t_events e) (t_quarantine e) total
    seq (t_openFindings e) (t_trustCounts e) (t_corrCounts e) (t_sensor e) (t_enabled e).
Definition set_sensor (s : TitanSensorStatus) (e : TitanEngine) : TitanEngine :=
  mkTitanEngine (t_policy e) (t_policyPath e) (t_journalPath e) (t_events e) (t_quarantine e)
    (t_totalEvents e) (t_sequence e) (t_openFindings e) (t_trustCounts e) (t_corrCounts e) s (t_enabled e).

(** ** Policy validation *)

Definition validTitanMode (mode : string) : bool :=
  bool_decide (mode = TitanModeObserve) || bool_decide (mode = TitanModeContain) ||
  bool_decide (mode = TitanModeStrict).

Definition validTitanChangeType (change : string) : bool :=
  bool_decide (change ∈ ["CREATED"; "MODIFIED"; "REMOVED"; "ATTRIBUTES"; "UNKNOWN"]).

(** The loop of [normalizeTitanPaths]; [seen] are the paths kept so far, which
    are also the keys of the code's set. The messages omit the quoted path. *)
Fixpoint normalize_loop (values : list string) (seen : list string) : goerror + list string :=
  match values with
  | [] => inr seen
  | raw :: rest =>
      let value := TrimSpace raw in
      if bool_decide (value = "") then normalize_loop rest seen
      else if (titanMaxPathBytes <? slen value) || has_nul value
      then inl (ErrText "path contains NUL or is too long")
      else if negb (IsAbs value) then inl (ErrText "path is not absolute")
      else if negb (bool_decide (Clean value = value)) then inl (ErrText "path is not canonical")
      else if bool_decide (Clean value = "/")
      then inl (ErrText "the filesystem root is not a bounded Titan target")
      else if bool_decide (Clean value ∈ seen) then normalize_loop rest seen
      else normalize_loop rest (seen ++ [Clean value])
  end.

Definition normalizeTitanPaths (values : list string) (limit : Z) : goerror + list string :=
  if limit <? Z.of_nat (length values) then inl (ErrText ("list exceeds " +:+ itoa limit +:+ " entries"))
  else ok_map sort_Strings (normalize_loop values []).

Definition or_default (v d : Z) : Z := if v =? 0 then d else v.

Definition normalizeTitanPolicy (p : titanPolicy) : goerror + titanPolicy :=
  if negb (validTitanMode (tp_Mode p)) then inl (ErrText "Titan mode must be OBSERVE, CONTAIN or STRICT")
  else match normalizeTitanPaths (tp_Roots p) titanMaxRoots with
  | inl e => inl (ErrWrap "Titan roots" e)
  | inr roots =>
      if bool_decide (roots = []) then inl (ErrText "Titan requires at least one configured root")
      else match normalizeTitanPaths (tp_Allowlist p) titanMaxAllowlist with
      | inl e => inl (ErrWrap "Titan allowlist" e)
      | inr allowlist =>
          match normalizeTitanPaths (tp_DevelopmentRoots p) titanMaxRoots with
          | inl e => inl (ErrWrap "Titan development roots" e)
          | inr devRoots =>
              match normalizeTitanPaths (tp_ProtectedPaths p) (titanMaxRoots * 2) with
              | inl e => inl (ErrWrap "Titan protected paths" e)
              | inr protected =>
                  let fileBytes := or_default (tp_MaxFileBytes p) 16777216 in
                  let events := or_default (tp_MaxEvents p) 500 in
                  let journal := or_default (tp_JournalMaxBytes p) 4194304 in
                  if (fileBytes <? titanMinFileBytes) || (titanMaxFileBytes <? fileBytes)
                  then inl (ErrText ("Titan max file bytes must be between " +:+ itoa titanMinFileBytes +:+ " and " +:+ itoa titanMaxFileBytes))
                  else if (events <? titanMinJournalEvents) || (titanMaxJournalEvents <? events)
                  then inl (ErrText ("Titan max journal events must be between " +:+ itoa titanMinJournalEvents +:+ " and " +:+ itoa titanMaxJournalEvents))
                  else if (journal <? titanMinJournalBytes) || (titanMaxJournalBytes <? journal)
                  then inl (ErrText ("Titan journal bytes must be between " +:+ itoa titanMinJournalBytes +:+ " and " +:+ itoa titanMaxJournalBytes))
                  else inr (mkTitanPolicy (tp_Mode p) (tp_Armed p) (tp_AutoContain p) roots allowlist
                              devRoots protected fileBytes events journal (tp_UpdatedUTC p) (tp_Revision p))
              end
          end
      end
  end.

Definition validateTitanReason (reason : string) : goerror + string :=
  let trimmed := TrimSpace reason in
  if (slen trimmed <? titanMinReasonBytes) || (titanMaxReasonBytes <? slen trimmed)
  then inl (ErrText "reason must be 8-512 bytes")
  else if negb (utf8_ValidString trimmed) then inl (ErrText "reason is not valid UTF-8")
  else if existsb (fun c => (byte_val c <? 32) || (byte_val c =? 127)) (bytes_of trimmed)
  then inl (ErrText "reason contains control characters")
  else inr trimmed.

Definition trust_states : list string :=
  [TitanTrustAuthorized; TitanTrustTolerated; TitanTrustUnexpected; TitanTrustCompromised].

Definition validateTitanEvent (ev : TitanEvent) : error :=
  if (slen (ev_ID ev) <? 8) || (titanMaxEventIDBytes <? slen (ev_ID ev))
  then errors_New "Titan journal event identifier is invalid"
  else if Time.IsZero (ev_ObservedUTC ev) || (slen (ev_Path ev) =? 0) ||
          (titanMaxPathBytes <? slen (ev_Path ev)) || negb (IsAbs (ev_Path ev))
  then errors_New "Titan journal event path or time is invalid"
  else if negb (validTitanChangeType (ev_ChangeType ev))
  then errors_New "Titan journal event change type is invalid"
  else if negb (bool_decide (ev_TrustState ev ∈ trust_states))
  then errors_New "Titan journal event trust state is invalid"
  else if (512 <? slen (ev_AuthorizationReason ev)) || (128 <? slen (ev_Response ev)) ||
          (64 <? slen (ev_SHA256 ev))
  then errors_New "Titan journal event text is outside bounds"
  else None.

(** ** Counting *)

Definition is_pending (ev : TitanEvent) : bool :=
  bool_decide (ev_Review ev = "") || bool_decide (ev_Review ev = "PENDING").

Record tally := mkTally { ta_trust : TitanTrustCounts; ta_corr : TitanCorrelationCounts; ta_open : Z }.

Definition count_event (t : tally) (ev : TitanEvent) : tally :=
  let c := ta_trust t in
  let s := ev_TrustState ev in
  let open := if is_pending ev then ta_open t + 1 else ta_open t in
  let '(trust, opened) :=
    if bool_decide (s = TitanTrustAuthorized)
    then (mkTrustCounts (tc_Authorized c + 1) (tc_Tolerated c) (tc_Unexpected c) (tc_Compromised c), ta_open t)
    else if bool_decide (s = TitanTrustTolerated)
    then (mkTrustCounts (tc_Authorized c) (tc_Tolerated c + 1) (tc_Unexpected c) (tc_Compromised c), ta_open t)
    else if bool_decide (s = TitanTrustUnexpected)
    then (mkTrustCounts (tc_Authorized c) (tc_Tolerated c) (tc_Unexpected c + 1) (tc_Compromised c), open)
    else if bool_decide (s = TitanTrustCompromised)
    then (mkTrustCounts (tc_Authorized c) (tc_Tolerated c) (tc_Unexpected c) (tc_Compromised c + 1), open)
    else (c, ta_open t) in
  let k := ta_corr t in
  let corr :=
    if bool_decide (ev_CorrelationQuality ev = TitanCorrelationObserved)
    then mkCorrelationCounts (cc_Observed k + 1) (cc_Temporal k) (cc_None k)
    else if bool_decide (ev_CorrelationQuality ev = TitanCorrelationTemporal)
    then mkCorrelationCounts (cc_Observed k) (cc_Temporal k + 1) (cc_None k)
    else mkCorrelationCounts (cc_Observed k) (cc_Temporal k) (cc_None k + 1) in
  mkTally trust corr opened.

Definition count_events (evs : list TitanEvent) : tally :=
  fold_left count_event evs (mkTally (mkTrustCounts 0 0 0 0) (mkCorrelationCounts 0 0 0) 0).

Definition recountLocked (e : TitanEngine) : TitanEngine :=
  let t := count_events (t_events e) in
  mkTitanEngine (t_policy e) (t_policyPath e) (t_journalPath e) (t_events e) (t_quarantine e)
    (t_totalEvents e) (t_sequence e) (ta_open t) (ta_trust t) (ta_corr t) (t_sensor e) (t_enabled e).

Section Engine.
Context {X : Type} `{C : Crypto} `{JP : JSONDoc titanPolicyDocument} `{JJ : JSONDoc titanJournalDocument}.
Implicit Types (e : TitanEngine) (w : world X).

(** ** Journal *)

Definition set_jevents (evs : list TitanEvent) (d : titanJournalDocument) : titanJournalDocument :=
  mkJournalDocument (jd_Schema d) (jd_Version d) (jd_SavedUTC d) (jd_TotalEvents d) evs (jd_Quarantine d).

Definition journalDocumentLocked e w : titanJournalDocument * world X :=
  let '(now, w) := time_Now w in
  (mkJournalDocument titanJournalSchema 1 now (t_totalEvents e) (t_events e) (t_quarantine e), w).

(** The loop of [persistJournal]: the oldest events are dropped one by one
    until the document fits or the minimum is reached; an encoding error stops
    it. *)
Fixpoint shrink_events (d : titanJournalDocument) (maxBytes : Z) (evs : list TitanEvent)
    : list TitanEvent * error :=
  match evs with
  | [] => ([], None)
  | _ :: rest =>
      if Z.of_nat (length evs) <=? titanMinJournalEvents then (evs, None)
      else match json_Marshal (set_jevents rest d) with
      | inl err => (rest, Some err)
      | inr payload => if slen payload + 1 <=? maxBytes then (rest, None) else shrink_events d maxBytes rest
      end
  end.

Definition persistJournal (d : titanJournalDocument) e w : error * TitanEngine * world X :=
  let maxBytes := tp_JournalMaxBytes (t_policy e) in
  match json_Marshal d with
  | inl err => (Some err, e, w)
  | inr payload =>
      if maxBytes <? slen payload + 1 then
        let '(evs, err) := shrink_events d maxBytes (t_events e) in
        let e := recountLocked (set_events evs e) in
        match err with
        | Some err => (Some err, e, w)
        | None =>
            match json_Marshal (set_jevents evs d) with
            | inl err => (Some err, e, w)
            | inr payload =>
                if maxBytes <? slen payload + 1
                then (errors_New "Titan journal exceeds its bounded byte budget", e, w)
                else let '(err, w) := atomicWriteFile (t_journalPath e) (payload +:+ newline) 384 w in
                     (err, e, w)
            end
        end
      else let '(err, w) := atomicWriteFile (t_journalPath e) (payload +:+ newline) 384 w in
           (err, e, w)
  end.

(** The quarantine list grows by one and keeps its newest entries. *)
Definition add_quarantine (item : titanQuarantineItem) e : TitanEngine :=
  set_quarantine (keep_last titanMaxQuarantine (t_quarantine e ++ [item])) e.

(** The part of [appendEvent] under the lock. *)
Definition journal_append (ev : TitanEvent) e : TitanEngine :=
  let seq := u64 (t_sequence e + 1) in
  let ev := set_sequence seq ev in
  let evs := keep_last (Z.to_nat (tp_MaxEvents (t_policy e))) (t_events e ++ [ev]) in
  let e := set_totals (u64 (t_totalEvents e + 1)) seq (set_events evs e) in
  let e :=
    if bool_decide (ev_Containment ev = TitanResponseContained) && negb (bool_decide (ev_QuarantineID ev = ""))
    then add_quarantine (mkQuarantineItem (ev_QuarantineID ev) (ev_ID ev) (ev_Path ev) (ev_SHA256 ev)
           (ev_ObservedUTC ev) "APPLIED") e
    else e in
  recountLocked e.

(** [err.Error()] *)
Fixpoint error_text (err : goerror) : string :=
  match err with
  | ErrText s => s
  | ErrNotExist => "file does not exist"
  | ErrWrap msg e => msg +:+ ": " +:+ error_text e
  | ErrJoin es =>
      (fix go (l : list goerror) : string :=
         match l with
         | [] => ""
         | [x] => error_text x
         | x :: l' => error_text x +:+ newline +:+ go l'
         end) es
  | RecoveryRequiredError stage e => stage +:+ ": " +:+ error_text e
  end.

Definition appendEvent (ev : TitanEvent) e w : TitanEngine * list titan_effect * world X :=
  let e := journal_append ev e in
  let '(d, w) := journalDocumentLocked e w in
  let '(err, e, w) := persistJournal d e w in
  match err with
  | None => (e, [], w)
  | Some err =>
      (e, [EvidenceRecorded "high" "titan.journal.persist_failed"
             ("Titan journal could not be persisted: " +:+ boundedTitanText (error_text err) 240) ""], w)
  end.

(** ** Observation *)

(** What the host answers while one observation is processed. *)
Record host_answers := mkAnswers {
  ha_id : string;               (* randomID *)
  ha_probe : titan_probe;       (* readTitanIdentity *)
  ha_lstat : option finfo;      (* validateTitanContainSafePath *)
}.

Definition setSensorObservation (at_ : time) e : TitanEngine :=
  set_sensor (mkSensor "healthy" (Some at_) "") e.

Definition new_event (id : string) (observed : time) (identity : titanFileIdentity) (o : titanObservation)
    : TitanEvent :=
  mkTitanEvent id observed (id_Path identity) (ob_ChangeType o) "" "" "" TitanCorrelationNone ""
    (if bool_decide (ob_Sensor o = "") then "linux-inotify" else ob_Sensor o)
    (id_SHA256 identity) (id_Size identity) "" (id_FileMode identity) "PENDING" "" None "" "" "" "" 0.

(** The event [observe] appends, with the effects of its response. *)
Definition judge (deps : TitanDeps) (h : host_answers) (o : titanObservation) (observed : time) e
    : TitanEvent * list titan_effect :=
  let policy := t_policy e in
  let identity := readTitanIdentity (ob_Path o) (tp_MaxFileBytes policy) (ha_probe h) in
  let ev := attachContext deps observed (new_event (ha_id h) observed identity o) in
  let ev := evaluateTrust deps ev o policy identity in
  applyResponse deps (mkContainEnv policy (t_journalPath e) (t_policyPath e) (ha_lstat h)) policy ev.

Definition observe `{U : Unicode} (deps : TitanDeps) (h : host_answers) (o : titanObservation) e w
    : TitanEngine * list titan_effect * world X :=
  if negb (t_enabled e) || bool_decide (ob_Path o = "") then (e, [], w)
  else
    let '(observed, w) := if Time.IsZero (ob_ObservedUTC o) then time_Now w else (ob_ObservedUTC o, w) in
    let '(ev, fx1) := judge deps h o observed e in
    let '(e, fx2, w) := appendEvent ev e w in
    let e := setSensorObservation observed e in
    let ledger := EvidenceRecorded (ev_Severity ev) ("titan." +:+ ToLower (ev_ChangeType ev))
      ("Titan observation: " +:+ ev_TrustState ev +:+ " - " +:+ ev_AuthorizationReason ev) (ev_Path ev) in
    let alert :=
      if bool_decide (ev_Severity ev = "critical") || bool_decide (ev_Severity ev = "high")
      then [EventEmitted (ev_Severity ev) "titan.finding"
              ("Titan " +:+ ev_TrustState ev +:+ " change on " +:+ ev_Path ev +:+ ": " +:+
               ev_AuthorizationReason ev +:+ " (" +:+ ev_Response ev +:+ ")") (ev_Path ev)]
      else [] in
    (e, fx1 ++ fx2 ++ [ledger] ++ alert, w).
(** ** Owner policy *)

Definition titanReasonDigest (reason : string) : string :=
  hex_EncodeToString (sha256_Sum (TrimSpace reason)).

Definition go_bool (b : bool) : string := if b then "true" else "false".

(** [ApplyPolicy]: the code installs the new policy before it writes the
    document and restores the previous one when that fails. The returned status
    is a view of the engine and is left out. *)
Definition Titan_ApplyPolicy (mode : string) (armed autoContain : bool) (reason : string) e w
    : error * TitanEngine * list titan_effect * world X :=
  match validateTitanReason reason with
  | inl err => (Some err, e, [], w)
  | inr _ =>
      let p := t_policy e in
      let '(now, w) := time_Now w in
      let next := mkTitanPolicy mode armed autoContain (tp_Roots p) (tp_Allowlist p)
        (tp_DevelopmentRoots p) (tp_ProtectedPaths p) (tp_MaxFileBytes p) (tp_MaxEvents p)
        (tp_JournalMaxBytes p) now (u64 (tp_Revision p + 1)) in
      match normalizeTitanPolicy next with
      | inl err => (Some err, e, [], w)
      | inr next =>
          match json_Marshal (mkPolicyDocument titanPolicySchema 1 next (tp_UpdatedUTC next)) with
          | inl err => (Some err, e, [], w)
          | inr payload =>
              let '(err, w) := atomicWriteFile (t_policyPath e) (payload +:+ newline) 384 w in
              match err with
              | Some err => (Some err, e, [], w)
              | None =>
                  (None, set_tpolicy next e,
                   EvidenceRecorded "high" "titan.policy.updated"
                     ("Titan policy set to " +:+ tp_Mode next +:+ " (armed=" +:+ go_bool (tp_Armed next) +:+
                      " auto_contain=" +:+ go_bool (tp_AutoContain next) +:+ "); reason-sha256=" +:+
                      titanReasonDigest reason) "" ::
                   (if negb (bool_decide (tp_Mode next = tp_Mode p)) || negb (Bool.eqb (tp_Armed next) (tp_Armed p))
                    then [EventEmitted "high" "titan.policy.updated"
                            ("Titan policy changed from " +:+ tp_Mode p +:+ " to " +:+ tp_Mode next) ""]
                    else []), w)
              end
          end
      end
  end.

(** [loadPolicy]: the engine keeps its configured policy unless the document is
    accepted. *)
Definition loadPolicy e w : error * TitanEngine * world X :=
  match readBoundedPrivateFile (t_policyPath e) titanMaxPolicyBytes w with
  | (inl err, w) => if is_not_exist err then (None, e, w) else (Some err, e, w)
  | (inr raw, w) =>
      match json_Decode raw with
      | inl err => (Some err, e, w)
      | inr d =>
          if negb (bool_decide (pdoc_Schema d = titanPolicySchema)) || negb (pdoc_Version d =? 1)
          then (errors_New "Titan policy schema is unsupported", e, w)
          else match normalizeTitanPolicy (pdoc_Policy d) with
          | inl err => (Some err, e, w)
          | inr policy => (None, set_tpolicy policy e, w)
          end
      end
  end.

Definition loadJournal e w : error * TitanEngine * world X :=
  match readBoundedPrivateFile (t_journalPath e) titanMaxJournalReadBytes w with
  | (inl err, w) => if is_not_exist err then (None, e, w) else (Some err, e, w)
  | (inr raw, w) =>
      match json_Decode raw with
      | inl err => (Some err, e, w)
      | inr d =>
          if negb (bool_decide (jd_Schema d = titanJournalSchema)) || negb (jd_Version d =? 1)
          then (errors_New "Titan journal schema is unsupported", e, w)
          else if (titanMaxJournalEvents <? Z.of_nat (length (jd_Events d))) ||
                  (Z.of_nat titanMaxQuarantine <? Z.of_nat (length (jd_Quarantine d)))
          then (errors_New "Titan journal exceeds its bounds", e, w)
          else match list_find (fun ev => is_Some (validateTitanEvent ev)) (jd_Events d) with
          | Some (_, ev) => (validateTitanEvent ev, e, w)
          | None =>
              let e := set_quarantine (jd_Quarantine d) (set_events (jd_Events d) e) in
              let seq := match last (jd_Events d) with Some ev => ev_JournalSequence ev | None => t_sequence e end in
              (None, set_totals (jd_TotalEvents d) seq e, w)
          end
      end
  end.

(** ** Reading the journal *)

Definition titanEventCursor (sequence : Z) : string := base64_EncodeToString (itoa sequence).

Definition decode_cursor (before : string) : goerror + Z :=
  if bool_decide (TrimSpace before = "") then inr 0
  else match base64_DecodeString before with
  | None => inl (ErrText "Titan event cursor is malformed")
  | Some decoded =>
      match ParseUint decoded with
      | None => inl (ErrText "Titan event cursor is malformed")
      | Some n => inr n
      end
  end.

Definition page_limit (limit : Z) : Z :=
  let limit := if limit <=? 0 then titanDefaultLimit else limit in
  if titanMaxLimit <? limit then titanMaxLimit else limit.

(** One page: newest first, older than the cursor, and the next cursor. *)
Definition Events (limit : Z) (before : string) e : goerror + (list TitanEvent * string) :=
  match decode_cursor before with
  | inl err => inl err
  | inr b =>
      let older ev := (b =? 0) || (ev_JournalSequence ev <? b) in
      let result := take (Z.to_nat (page_limit limit)) (List.filter older (rev (t_events e))) in
      let next :=
        match last result with
        | None => ""
        | Some oldest =>
            if existsb (fun ev => ev_JournalSequence ev <? ev_JournalSequence oldest) (rev (t_events e))
            then titanEventCursor (ev_JournalSequence oldest) else ""
        end in
      inr (result, next)
  end.

(** ** Operator actions *)

(** The newest event with an id, as the loops from the end find it. *)
Definition find_event (id : string) (evs : list TitanEvent) : option nat :=
  match list_find (fun ev => ev_ID ev = id) (rev evs) with
  | Some (i, _) => Some (length evs - S i)%nat
  | None => None
  end.

(** [Review]: the reviewed event is returned also when it could not be
    persisted. *)
Definition Review `{U : Unicode} (id decision reason : string) e w
    : error * option TitanEvent * TitanEngine * list titan_effect * world X :=
  match validateTitanReason reason with
  | inl err => (Some err, None, e, [], w)
  | inr _ =>
      let normalized := ToUpper (TrimSpace decision) in
      if negb (bool_decide (normalized ∈ ["REVIEWED"; "TOLERATED"; "ESCALATED"]))
      then (errors_New "Titan review decision must be REVIEWED, TOLERATED or ESCALATED", None, e, [], w)
      else if (slen id <? 8) || (titanMaxEventIDBytes <? slen id)
      then (errors_New "Titan event identifier is invalid", None, e, [], w)
      else match find_event id (t_events e) with
      | None => (errors_New "Titan event not found", None, e, [], w)
      | Some i =>
          let '(now, w) := time_Now w in
          let reviewed := set_review normalized (boundedTitanText reason 512) now in
          let e := recountLocked (set_events (alter reviewed i (t_events e)) e) in
          match t_events e !! i with
          | None => (errors_New "Titan event not found", None, e, [], w)
          | Some ev =>
              let '(d, w) := journalDocumentLocked e w in
              let '(err, e, w) := persistJournal d e w in
              match err with
              | Some err => (Some err, Some ev, e, [], w)
              | None =>
                  (None, Some ev, e,
                   [EvidenceRecorded "high" "titan.review"
                      ("Titan event " +:+ id +:+ " reviewed as " +:+ normalized +:+ "; reason-sha256=" +:+
                       titanReasonDigest reason) (ev_Path ev)], w)
              end
          end
      end
  end.

Record titanContainResponse := mkContainResponse {
  rs_Status : string;
  rs_Action : string;
  rs_Detail : string;
  rs_QuarantineID : string;
  rs_SHA256 : string;
}.

(** [Contain]: a refusal is a response, not an error. *)
Definition Contain (deps : TitanDeps) (lstat : option finfo) (eventID reason : string) e w
    : (goerror + titanContainResponse) * TitanEngine * list titan_effect * world X :=
  match validateTitanReason reason with
  | inl err => (inl err, e, [], w)
  | inr _ =>
      match find_event eventID (t_events e) ≫= (fun i => t_events e !! i) with
      | None => (inl (ErrText "Titan event not found"), e, [], w)
      | Some ev =>
          if bool_decide (ev_TrustState ev = TitanTrustAuthorized)
          then (inr (mkContainResponse "REJECTED" "NONE" "authorized changes are not contained" "" ""), e, [], w)
          else match d_Containment deps with
          | None => (inr (mkContainResponse "UNAVAILABLE" "NONE" "privileged quarantine core is unavailable" "" ""),
                     e, [], w)
          | Some request =>
              let env := mkContainEnv (t_policy e) (t_journalPath e) (t_policyPath e) lstat in
              match safe_path env (ev_Path ev) with
              | Some err => (inr (mkContainResponse "UNAVAILABLE" "NONE" err "" ""), e, [], w)
              | None =>
                  let text := boundedTitanText reason 240 in
                  match request (ev_Path ev) text with
                  | inl err =>
                      (inr (mkContainResponse "UNAVAILABLE" "NONE"
                              ("quarantine transaction rejected: " +:+ boundedTitanText err 200) "" ""),
                       e, [ContainRequested (ev_Path ev) text;
                           EvidenceRecorded "high" "titan.contain.failed" "Titan containment failed closed" (ev_Path ev)], w)
                  | inr result =>
                      let detail := "object moved to the quarantine vault by verified transaction " +:+ cr_TransactionID result in
                      let '(now, w) := time_Now w in
                      let mark := set_containment TitanResponseContained "CONTAINED" detail (cr_TransactionID result) in
                      let evs := match find_event (ev_ID ev) (t_events e) with
                        | Some i => alter mark i (t_events e) | None => t_events e end in
                      let e := add_quarantine (mkQuarantineItem (cr_TransactionID result) (ev_ID ev) (ev_Path ev)
                                 (cr_SHA256 result) now "APPLIED") (set_events evs e) in
                      let e := recountLocked e in
                      let '(d, w) := journalDocumentLocked e w in
                      let '(_, e, w) := persistJournal d e w in
                      (inr (mkContainResponse "CONTAINED" "QUARANTINE" detail (cr_TransactionID result) (cr_SHA256 result)),
                       e, [ContainRequested (ev_Path ev) text;
                           EvidenceRecorded "critical" "titan.contained"
                             "Titan containment completed through the quarantine transaction engine" (ev_Path ev)], w)
                  end
              end
          end
      end
  end.
End Engine.
