(* ===== verification/TitanFacts.v ===== *)
(** * Theorems about the Titan engine

    The journal stays bounded, ordered and counted; every observation reaches
    it; paging visits every event once; an accepted owner policy survives a
    restart. *)

From Stdlib Require Import ZArith Lia Ascii String.
From stdpp Require Import base gmap strings list sorting relations.
From S2P Require Import Prelude.
From S2P Require Import GoLib.
From S2P Require Import Strconv.
From S2P Require Import Text.
From S2P Require Import Paths.
From S2P Require Import World.
From S2P Require Import Storage.
From S2P Require Import TitanTrust.
From S2P Require Import Titan.

(** ** The policy is canonical *)

Definition kept_path (v : string) : Prop :=
  TrimSpace v = v /\ v <> "" /\ slen v <= titanMaxPathBytes /\ has_nul v = false /\
  IsAbs v = true /\ Clean v = v /\ v <> "/".

Lemma normalize_loop_kept values seen rs :
  normalize_loop values seen = inr rs -> Forall kept_path seen -> NoDup seen ->
  Forall kept_path rs /\ NoDup rs /\ (length rs <= length seen + length values)%nat.
Proof.
  revert seen. induction values as [|raw rest IH]; intros seen HN HF HD; cbn in HN.
  { simplify_eq. split_and!; [done|done|cbn; lia]. }
  destruct (bool_decide_reflect (TrimSpace raw = "")) as [|Hne].
  { apply IH in HN as (? & ? & ?); [|done..]. split_and!; [done|done|cbn; lia]. }
  destruct (_ || _) eqn:Hb; [done|]. apply orb_false_iff in Hb as [Hlen%Z.ltb_ge Hnul].
  destruct (IsAbs (TrimSpace raw)) eqn:HA; [|done].
  destruct (bool_decide_reflect (Clean (TrimSpace raw) = TrimSpace raw)) as [HC|]; [|done].
  cbn [negb] in HN. rewrite HC in HN.
  destruct (bool_decide_reflect (TrimSpace raw = "/")) as [|Hr]; [done|].
  destruct (bool_decide_reflect (TrimSpace raw ∈ seen)) as [|Hin].
  { apply IH in HN as (? & ? & ?); [|done..]. split_and!; [done|done|cbn; lia]. }
  apply IH in HN as (? & ? & Hl).
  - split_and!; [done|done|]. rewrite length_app in Hl. cbn in *. lia.
  - apply Forall_app. split; [done|]. constructor; [|done]. split_and!; try done. apply TrimSpace_idem.
  - apply NoDup_app. split_and!; [done| |apply NoDup_singleton].
    intros x Hx ->%list_elem_of_singleton. done.
Qed.

Lemma normalize_loop_id values seen :
  Forall kept_path values -> NoDup (seen ++ values) -> normalize_loop values seen = inr (seen ++ values).
Proof.
  revert seen. induction values as [|v rest IH]; intros seen HF HD; [by rewrite app_nil_r|].
  apply Forall_cons in HF as [(Ht & Hne & Hlen & Hnul & HA & HC & Hr) HF]. cbn. rewrite Ht.
  rewrite bool_decide_false by done. rewrite (proj2 (Z.ltb_ge _ _) Hlen), Hnul, HA, HC. cbn [orb negb].
  rewrite bool_decide_true, bool_decide_false by done. cbn [negb].
  rewrite bool_decide_false.
  - rewrite IH; [by rewrite <- app_assoc|done|]. by rewrite <- app_assoc.
  - apply NoDup_app in HD as (_ & HD & _). intros Hin. apply (HD v Hin). by left.
Qed.

Lemma normalizeTitanPaths_idem values limit rs :
  normalizeTitanPaths values limit = inr rs -> normalizeTitanPaths rs limit = inr rs.
Proof.
  unfold normalizeTitanPaths. destruct (Z.ltb_spec limit (Z.of_nat (length values))); [done|].
  destruct (normalize_loop values []) as [|ks] eqn:HN; [done|]. cbn. intros [= <-].
  apply normalize_loop_kept in HN as (HF & HD & Hl); [|done|apply NoDup_nil_2]. cbn in Hl.
  assert (sort_Strings ks ≡ₚ ks) as HP by apply merge_sort_Permutation.
  rewrite (Permutation_length HP), (proj2 (Z.ltb_ge _ _)) by lia.
  rewrite (normalize_loop_id _ []); cbn [app]; rewrite ?HP; [|done|done].
  cbn. by rewrite sort_Strings_idem.
Qed.

Lemma or_default_idem v d : d <> 0 -> or_default (or_default v d) d = or_default v d.
Proof. intros. unfold or_default. destruct (Z.eqb_spec v 0); [by rewrite (proj2 (Z.eqb_neq d 0))|]. by rewrite (proj2 (Z.eqb_neq v 0)). Qed.

(** A policy the validator accepted is accepted unchanged. *)
Definition policy_ok (p : titanPolicy) : Prop := normalizeTitanPolicy p = inr p.

Lemma normalizeTitanPolicy_idem p q : normalizeTitanPolicy p = inr q -> policy_ok q.
Proof.
  unfold policy_ok, normalizeTitanPolicy. intros HN.
  destruct (validTitanMode (tp_Mode p)) eqn:Hm; cbn [negb] in HN; [|done].
  destruct (normalizeTitanPaths (tp_Roots p) _) as [|roots] eqn:H1; [done|].
  destruct (bool_decide_reflect (roots = [])) as [|Hne]; [done|].
  destruct (normalizeTitanPaths (tp_Allowlist p) _) as [|al] eqn:H2; [done|].
  destruct (normalizeTitanPaths (tp_DevelopmentRoots p) _) as [|dr] eqn:H3; [done|].
  destruct (normalizeTitanPaths (tp_ProtectedPaths p) _) as [|pr] eqn:H4; [done|].
  apply normalizeTitanPaths_idem in H1, H2, H3, H4.
  destruct (_ || _) eqn:B1 in HN; [done|]. destruct (_ || _) eqn:B2 in HN; [done|].
  destruct (_ || _) eqn:B3 in HN; [done|]. simplify_eq. cbn.
  rewrite Hm, H1, H2, H3, H4. cbn [negb]. rewrite bool_decide_false by done.
  rewrite !or_default_idem by done. by rewrite B1, B2, B3.
Qed.

Lemma normalizeTitanPolicy_bounds p q : normalizeTitanPolicy p = inr q ->
  titanMinJournalEvents <= tp_MaxEvents q <= titanMaxJournalEvents /\
  titanMinJournalBytes <= tp_JournalMaxBytes q <= titanMaxJournalBytes.
Proof.
  unfold normalizeTitanPolicy. intros HN.
  destruct (validTitanMode (tp_Mode p)); cbn [negb] in HN; [|done].
  destruct (normalizeTitanPaths (tp_Roots p) _) as [|roots]; [done|].
  destruct (bool_decide (roots = [])); [done|].
  destruct (normalizeTitanPaths (tp_Allowlist p) _) as [|al]; [done|].
  destruct (normalizeTitanPaths (tp_DevelopmentRoots p) _) as [|dr]; [done|].
  destruct (normalizeTitanPaths (tp_ProtectedPaths p) _) as [|pr]; [done|].
  destruct ((or_default (tp_MaxFileBytes p) _ <? _) || _); [done|].
  destruct ((or_default (tp_MaxEvents p) _ <? _) || _) eqn:B2; [done|].
  destruct ((or_default (tp_JournalMaxBytes p) _ <? _) || _) eqn:B3; [done|]. simplify_eq. cbn.
  apply orb_false_iff in B2 as [?%Z.ltb_ge ?%Z.ltb_ge].
  by apply orb_false_iff in B3 as [?%Z.ltb_ge ?%Z.ltb_ge].
Qed.

Definition with_switches (mode : string) (armed auto : bool) (now : time) (rev : Z) (p : titanPolicy) : titanPolicy :=
  mkTitanPolicy mode armed auto (tp_Roots p) (tp_Allowlist p) (tp_DevelopmentRoots p) (tp_ProtectedPaths p)
    (tp_MaxFileBytes p) (tp_MaxEvents p) (tp_JournalMaxBytes p) now rev.

(** Changing the switches of a canonical policy changes nothing else. *)
Lemma policy_ok_switches p mode armed auto now rev q : policy_ok p ->
  normalizeTitanPolicy (with_switches mode armed auto now rev p) = inr q ->
  q = with_switches mode armed auto now rev p.
Proof.
  unfold policy_ok, normalizeTitanPolicy, with_switches. cbn. intros Hp.
  destruct (negb (validTitanMode (tp_Mode p))); [done|].
  destruct (negb (validTitanMode mode)); [done|].
  destruct (normalizeTitanPaths (tp_Roots p) _) as [|roots]; [done|].
  destruct (bool_decide (roots = [])); [done|].
  destruct (normalizeTitanPaths (tp_Allowlist p) _) as [|al]; [done|].
  destruct (normalizeTitanPaths (tp_DevelopmentRoots p) _) as [|dr]; [done|].
  destruct (normalizeTitanPaths (tp_ProtectedPaths p) _) as [|pr]; [done|].
  destruct ((or_default (tp_MaxFileBytes p) _ <? _) || _); [done|].
  destruct ((or_default (tp_MaxEvents p) _ <? _) || _); [done|].
  destruct ((or_default (tp_JournalMaxBytes p) _ <? _) || _); [done|].
  injection Hp as Hp. destruct p; cbn in *. injection Hp as -> -> -> -> H1 H2 H3. rewrite H1, H2, H3.
  by intros [= <-].
Qed.

(** ** The journal invariant *)

Abbreviation seqs evs := (map ev_JournalSequence evs).

Record journal_ok (e : TitanEngine) : Prop := {
  jo_policy : policy_ok (t_policy e);
  jo_sorted : StronglySorted Z.lt (seqs (t_events e));
  jo_range : Forall (fun n => 1 <= n <= t_sequence e) (seqs (t_events e));
  jo_sequence : 0 <= t_sequence e <= MaxUint64;
  jo_len : Z.of_nat (length (t_events e)) <= tp_MaxEvents (t_policy e);
  jo_quarantine : (length (t_quarantine e) <= titanMaxQuarantine)%nat;
  jo_counts : count_events (t_events e) =
    mkTally (t_trustCounts e) (t_corrCounts e) (t_openFindings e);
}.

Lemma StronglySorted_suffix l1 l2 : StronglySorted Z.lt (l1 ++ l2) -> StronglySorted Z.lt l2.
Proof. induction l1 as [|a l1 IH]; [done|]. cbn. intros HS. inversion HS; subst. auto. Qed.

Lemma StronglySorted_snoc l x : StronglySorted Z.lt l -> Forall (fun n => n < x) l ->
  StronglySorted Z.lt (l ++ [x]).
Proof.
  intros HS. induction HS as [|a l HS IH HA]; intros HF; cbn; [repeat constructor|].
  apply Forall_cons in HF as [Ha HF]. constructor; [by apply IH|].
  apply Forall_app. split; [done|]. by constructor.
Qed.

Lemma recount_ok e : count_events (t_events (recountLocked e)) =
  mkTally (t_trustCounts (recountLocked e)) (t_corrCounts (recountLocked e)) (t_openFindings (recountLocked e)).
Proof.
  unfold recountLocked. cbn [t_events t_trustCounts t_corrCounts t_openFindings].
  by destruct (count_events (t_events e)).
Qed.

(** Fewer or rewritten events with the same numbers keep the invariant, once
    recounted. *)
Lemma journal_ok_events e t evs :
  seqs (t_events e) = t ++ seqs evs -> journal_ok e -> journal_ok (recountLocked (set_events evs e)).
Proof.
  intros HE [Hp HS HR Hq Hl Hqu Hc]. rewrite HE in HS, HR. split; try done; cbn [t_events recountLocked set_events].
  - by eapply StronglySorted_suffix.
  - apply Forall_app in HR as [_ HR]. done.
  - apply (f_equal length) in HE. rewrite length_app, !length_map in HE. cbn. lia.
  - apply (recount_ok (set_events evs e)).
Qed.

Lemma journal_ok_sensor e s : journal_ok e -> journal_ok (set_sensor s e).
Proof. intros []. by split. Qed.

Lemma seqs_alter f i evs : (forall ev, ev_JournalSequence (f ev) = ev_JournalSequence ev) ->
  seqs (alter f i evs) = seqs evs.
Proof.
  intros Hf. revert i. induction evs as [|ev evs IH]; intros [|i]; cbn; [done|done| |]; f_equal; auto.
Qed.

Section Facts.
Context {X : Type} `{C : Crypto} `{JP : JSONDoc titanPolicyDocument} `{JJ : JSONDoc titanJournalDocument}.
Implicit Types (e : TitanEngine) (w : world X).

Lemma shrink_events_suffix d max evs evs' err :
  shrink_events d max evs = (evs', err) -> exists t, evs = t ++ evs'.
Proof.
  induction evs as [|ev rest IH]; cbn; [intros [= <- <-]; by exists []|].
  destruct (_ <=? _); [intros [= <- <-]; by exists []|].
  destruct (json_Marshal _); [intros [= <- <-]; by exists [ev]|].
  destruct (_ <=? _); [intros [= <- <-]; by exists [ev]|].
  intros (t & ->)%IH. by exists (ev :: t).
Qed.

(** The minimum of the journal survives trimming to the byte budget. *)
Lemma shrink_events_min d max evs evs' err :
  shrink_events d max evs = (evs', err) ->
  Z.of_nat (length evs) <= titanMinJournalEvents /\ evs' = evs \/
  titanMinJournalEvents <= Z.of_nat (length evs').
Proof.
  induction evs as [|ev rest IH]; [intros [= <- <-]; by left|].
  cbn [shrink_events]. destruct (Z.leb_spec (Z.of_nat (length (ev :: rest))) titanMinJournalEvents) as [|Hgt].
  { intros [= <- <-]. by left. }
  assert (titanMinJournalEvents <= Z.of_nat (length rest)) by (cbn in Hgt; lia).
  destruct (json_Marshal _); [intros [= <- <-]; by right|].
  destruct (_ <=? _); [intros [= <- <-]; by right|].
  intros [[_ ->]|?]%IH; by right.
Qed.

(** What [persistJournal] may do to the engine. *)
Lemma persistJournal_frame d e w err e' w' :
  persistJournal d e w = (err, e', w') ->
  e' = e \/ exists t evs, t_events e = t ++ evs /\ e' = recountLocked (set_events evs e) /\
    (Z.of_nat (length (t_events e)) <= titanMinJournalEvents /\ t = [] \/
     titanMinJournalEvents <= Z.of_nat (length evs)).
Proof.
  unfold persistJournal. destruct (json_Marshal d) as [|payload]; [intros [= <- <- <-]; by left|].
  destruct (_ <? _).
  2:{ destruct (atomicWriteFile _ _ _ _). intros [= <- <- <-]. by left. }
  destruct (shrink_events _ _ _) as [evs err1] eqn:HS.
  pose proof (shrink_events_min _ _ _ _ _ HS) as HM. apply shrink_events_suffix in HS as [t Ht].
  intros HP. assert (e' = recountLocked (set_events evs e)) as ->.
  { revert HP. destruct err1; [by intros [= <- <- <-]|].
    destruct (json_Marshal (set_jevents evs d)); [by intros [= <- <- <-]|].
    destruct (_ <? _); [by intros [= <- <- <-]|].
    destruct (atomicWriteFile _ _ _ _). by intros [= <- <- <-]. }
  right. exists t, evs. split_and!; [done|done|].
  destruct HM as [[HM1 HM2]|HM]; [left|by right]. split; [done|].
  rewrite HM2 in Ht. apply (f_equal length) in Ht. rewrite length_app in Ht. destruct t; [done|cbn in Ht; lia].
Qed.

Lemma persistJournal_ok d e w err e' w' :
  persistJournal d e w = (err, e', w') -> journal_ok e -> journal_ok e'.
Proof.
  intros [->|(t & evs & Ht & -> & _)]%persistJournal_frame Hok; [done|].
  eapply journal_ok_events; [|done]. by rewrite Ht, map_app.
Qed.

Lemma journal_append_ok ev e : t_sequence e < MaxUint64 -> journal_ok e -> journal_ok (journal_append ev e).
Proof.
  intros Hlt [Hp HS HR Hq Hl Hqu Hc].
  assert (u64 (t_sequence e + 1) = t_sequence e + 1) as Hseq by (apply u64_small; lia).
  unfold journal_append. rewrite Hseq. set (ev' := set_sequence _ ev).
  set (n := Z.to_nat (tp_MaxEvents (t_policy e))).
  destruct (keep_last_suffix n (t_events e ++ [ev'])) as [t Ht].
  assert (StronglySorted Z.lt (seqs (t_events e ++ [ev']))) as HS'.
  { rewrite map_app. apply StronglySorted_snoc; [done|]. eapply Forall_impl; [exact HR|]. cbn. lia. }
  assert (Forall (fun k => 1 <= k <= t_sequence e + 1) (seqs (t_events e ++ [ev']))) as HR'.
  { rewrite map_app. apply Forall_app. split; [|repeat constructor; cbn; lia].
    eapply Forall_impl; [exact HR|]. cbn. lia. }
  rewrite Ht, map_app in HS', HR'. apply StronglySorted_suffix in HS'. apply Forall_app in HR' as [_ HR'].
  apply normalizeTitanPolicy_bounds in Hp as Hb. pose proof (length_keep_last n (t_events e ++ [ev'])).
  set (q := if _ && _ then _ else _).
  assert (t_events q = keep_last n (t_events e ++ [ev']) /\ t_policy q = t_policy e /\
    t_sequence q = t_sequence e + 1 /\ (length (t_quarantine q) <= titanMaxQuarantine)%nat) as (H1 & H2 & H3 & H4).
  { unfold q. destruct (_ && _); cbn; split_and!; try done. apply length_keep_last. }
  split; cbn [recountLocked t_policy t_events t_sequence t_quarantine]; rewrite ?H1, ?H2, ?H3; try done; [lia| |].
  - unfold n in *. unfold titanMinJournalEvents in Hb. lia.
  - rewrite <- H1. apply (recount_ok q).
Qed.

Lemma appendEvent_ok ev e w e' fx w' : t_sequence e < MaxUint64 -> journal_ok e ->
  appendEvent ev e w = (e', fx, w') -> journal_ok e'.
Proof.
  intros Hlt Hok. unfold appendEvent. destruct (journalDocumentLocked _ w) as [d w1].
  destruct (persistJournal d _ w1) as [[err e1] w2] eqn:HP.
  apply persistJournal_ok in HP; [|by apply journal_append_ok].
  destruct err; by intros [= <- <- <-].
Qed.

Lemma observe_ok `{U : Unicode} deps h o e w e' fx w' : t_sequence e < MaxUint64 -> journal_ok e ->
  observe deps h o e w = (e', fx, w') -> journal_ok e'.
Proof.
  intros Hlt Hok. unfold observe. destruct (_ || _); [by intros [= <- <- <-]|].
  destruct (if Time.IsZero _ then _ else _) as [observed w1].
  destruct (judge _ _ _ _ _) as [ev fx1].
  destruct (appendEvent ev e w1) as [[e1 fx2] w2] eqn:HA.
  apply appendEvent_ok in HA; [|done..]. intros [= <- _ _]. by apply journal_ok_sensor.
Qed.

Lemma Review_ok `{U : Unicode} id decision reason e w err ev e' fx w' : journal_ok e ->
  Review id decision reason e w = (err, ev, e', fx, w') -> journal_ok e'.
Proof.
  intros Hok. unfold Review.
  destruct (validateTitanReason reason); [by intros [= <- <- <- <- <-]|].
  destruct (negb _); [by intros [= <- <- <- <- <-]|]. destruct (_ || _); [by intros [= <- <- <- <- <-]|].
  destruct (find_event id (t_events e)) as [i|]; [|by intros [= <- <- <- <- <-]].
  destruct (time_Now w) as [now w1].
  set (e1 := recountLocked _).
  assert (journal_ok e1) as Hok1.
  { apply (journal_ok_events e []); [|done]. cbn [app]. by rewrite seqs_alter. }
  destruct (t_events e1 !! i); [|by intros [= <- <- <- <- <-]].
  destruct (journalDocumentLocked e1 w1) as [d w2].
  destruct (persistJournal d e1 w2) as [[err1 e2] w3] eqn:HP.
  apply persistJournal_ok in HP; [|done]. destruct err1; by intros [= <- <- <- <- <-].
Qed.

Lemma Contain_ok deps lstat id reason e w r e' fx w' : journal_ok e ->
  Contain deps lstat id reason e w = (r, e', fx, w') -> journal_ok e'.
Proof.
  intros Hok. unfold Contain.
  destruct (validateTitanReason reason); [by intros [= <- <- <- <-]|].
  destruct (_ ≫= _) as [ev|]; [|by intros [= <- <- <- <-]].
  destruct (bool_decide _); [by intros [= <- <- <- <-]|].
  destruct (d_Containment deps) as [request|]; [|by intros [= <- <- <- <-]].
  destruct (safe_path _ _); [by intros [= <- <- <- <-]|].
  destruct (request _ _) as [|result]; [by intros [= <- <- <- <-]|].
  destruct (time_Now w) as [now w1]. set (e1 := recountLocked _).
  assert (journal_ok e1) as Hok1.
  { set (evs := match find_event (ev_ID ev) (t_events e) with Some i => _ | None => _ end) in e1.
    assert (journal_ok (recountLocked (set_events evs e))) as [Hp HS HR Hq Hl _ Hc].
    { apply (journal_ok_events e []); [|done]. cbn [app]. unfold evs.
      destruct (find_event _ _); [by rewrite seqs_alter|done]. }
    split; try done. apply length_keep_last. }
  destruct (journalDocumentLocked e1 w1) as [d w2].
  destruct (persistJournal d e1 w2) as [[err1 e2] w3] eqn:HP.
  apply persistJournal_ok in HP; [|done]. by intros [= <- <- <- <-].
Qed.

(** The document [ApplyPolicy] writes. *)
Definition policy_document (p : titanPolicy) : titanPolicyDocument :=
  mkPolicyDocument titanPolicySchema 1 p (tp_UpdatedUTC p).

Lemma ApplyPolicy_result mode armed auto reason e w err e' fx w' : policy_ok (t_policy e) ->
  Titan_ApplyPolicy mode armed auto reason e w = (err, e', fx, w') ->
  (is_Some err /\ e' = e) \/
  (err = None /\ exists now payload w1,
    let next := with_switches mode armed auto now (u64 (tp_Revision (t_policy e) + 1)) (t_policy e) in
    policy_ok next /\ e' = set_tpolicy next e /\
    json_Marshal (policy_document next) = inr payload /\
    atomicWriteFile (t_policyPath e) (payload +:+ newline) 384 w1 = (None, w')).
Proof.
  intros Hp. unfold Titan_ApplyPolicy. destruct (validateTitanReason reason); [intros [= <- <- <- <-]; by left|].
  destruct (time_Now w) as [now w1].
  destruct (normalizeTitanPolicy _) as [|next] eqn:HN; [intros [= <- <- <- <-]; by left|].
  apply normalizeTitanPolicy_idem in HN as Hok. apply policy_ok_switches in HN; [|done]. subst next.
  destruct (json_Marshal _) as [|payload] eqn:HM; [intros [= <- <- <- <-]; by left|].
  destruct (atomicWriteFile _ _ _ _) as [[err1|] w2] eqn:HW; intros [= <- <- <- <-]; [by left|].
  right. split; [done|]. by exists now, payload, w1.
Qed.

Lemma ApplyPolicy_ok mode armed auto reason e w err e' fx w' : journal_ok e ->
  Titan_ApplyPolicy mode armed auto reason e w = (err, e', fx, w') -> journal_ok e'.
Proof.
  intros Hok HA. apply ApplyPolicy_result in HA; [|apply Hok].
  destruct HA as [[_ ->]|(_ & now & payload & w1 & Hp & -> & _)]; [done|].
  destruct Hok. by split.
Qed.

(** One operation of the engine, from any goroutine. *)
Inductive titan_step `{U : Unicode} : TitanEngine * world X -> TitanEngine * world X -> Prop :=
| ts_observe deps h o e w e' fx w' : t_sequence e < MaxUint64 ->
    observe deps h o e w = (e', fx, w') -> titan_step (e, w) (e', w')
| ts_review id decision reason e w err ev e' fx w' :
    Review id decision reason e w = (err, ev, e', fx, w') -> titan_step (e, w) (e', w')
| ts_contain deps lstat id reason e w r e' fx w' :
    Contain deps lstat id reason e w = (r, e', fx, w') -> titan_step (e, w) (e', w')
| ts_policy mode armed auto reason e w err e' fx w' :
    Titan_ApplyPolicy mode armed auto reason e w = (err, e', fx, w') -> titan_step (e, w) (e', w')
| ts_world e w w' : titan_step (e, w) (e, w').

(** The journal is bounded, ordered and counted. Along every sequence of
    observations, reviews, containments and policy changes, with any faults of
    the host in between, the events carry strictly increasing sequence numbers,
    there are never more of them than the policy allows (nor more than 200
    quarantine items), the policy stays canonical, and the published counts are
    those of the events. *)
Theorem titan_journal_invariant `{U : Unicode} s s' :
  rtc titan_step s s' -> journal_ok s.1 -> journal_ok s'.1.
Proof.
  induction 1 as [|s1 s2 s3 Hs _ IH]; [done|]. intros Hok. apply IH. clear IH.
  destruct Hs; cbn in *; eauto using observe_ok, Review_ok, Contain_ok, ApplyPolicy_ok.
Qed.

(** ** Every observation is journaled *)

Lemma journal_append_last ev e : policy_ok (t_policy e) ->
  last (t_events (journal_append ev e)) = Some (set_sequence (u64 (t_sequence e + 1)) ev) /\
  t_sequence (journal_append ev e) = u64 (t_sequence e + 1) /\
  t_totalEvents (journal_append ev e) = u64 (t_totalEvents e + 1).
Proof.
  intros [Hb _]%normalizeTitanPolicy_bounds. unfold titanMinJournalEvents in Hb.
  unfold journal_append. set (ev' := set_sequence _ ev). set (q := if _ && _ then _ else _).
  assert (t_events q = keep_last (Z.to_nat (tp_MaxEvents (t_policy e))) (t_events e ++ [ev']) /\
    t_sequence q = u64 (t_sequence e + 1) /\ t_totalEvents q = u64 (t_totalEvents e + 1)) as (H1 & H2 & H3)
    by (unfold q; by destruct (_ && _)).
  cbn. rewrite H1, H2, H3. split_and!; try done. apply keep_last_snoc. lia.
Qed.

Lemma appendEvent_last ev e w e' fx w' : policy_ok (t_policy e) -> appendEvent ev e w = (e', fx, w') ->
  last (t_events e') = Some (set_sequence (u64 (t_sequence e + 1)) ev) /\
  t_sequence e' = u64 (t_sequence e + 1) /\ t_totalEvents e' = u64 (t_totalEvents e + 1).
Proof.
  intros Hp. destruct (journal_append_last ev e Hp) as (HL & HS & HT). unfold appendEvent.
  destruct (journalDocumentLocked _ w) as [d w1].
  destruct (persistJournal d _ w1) as [[err e1] w2] eqn:HP.
  intros HE. assert (e' = e1) as -> by (by destruct err; injection HE). clear HE.
  apply persistJournal_frame in HP as [->|(t & evs & Ht & -> & Hmin)]; [done|].
  cbn [t_events t_sequence t_totalEvents recountLocked set_events]. rewrite HS, HT. split_and!; try done. rewrite Ht in HL.
  destruct evs as [|x evs]; [|by rewrite last_suffix in HL].
  rewrite app_nil_r in *. destruct Hmin as [[_ ->]|Hmin]; [done|]. unfold titanMinJournalEvents in Hmin. cbn in Hmin. lia.
Qed.

(** No observation is lost. An enabled engine turns every observation of a
    path into one event: judged as the policy prescribes, it becomes the newest
    journal entry under the next sequence number, whatever faults the host has
    and however the journal is trimmed, and it is recorded in the evidence
    ledger with its severity. *)
Theorem observation_journaled `{U : Unicode} deps h o e w e' fx w' :
  journal_ok e -> t_enabled e = true -> ob_Path o <> "" -> t_sequence e < MaxUint64 ->
  observe deps h o e w = (e', fx, w') ->
  exists observed ev fx1, judge deps h o observed e = (ev, fx1) /\
    last (t_events e') = Some (set_sequence (t_sequence e + 1) ev) /\
    t_sequence e' = t_sequence e + 1 /\
    (exists kind message, EvidenceRecorded (ev_Severity ev) kind message (ev_Path ev) ∈ fx).
Proof.
  intros Hok Hen Hpath Hlt. unfold observe. rewrite Hen, bool_decide_false by done. cbn [negb orb].
  destruct (if Time.IsZero _ then _ else _) as [observed w1].
  destruct (judge deps h o observed e) as [ev fx1] eqn:HJ.
  destruct (appendEvent ev e w1) as [[e1 fx2] w2] eqn:HA. intros HE.
  apply appendEvent_last in HA as (HL & HS & _); [|apply Hok].
  assert (u64 (t_sequence e + 1) = t_sequence e + 1) as Hu
    by (apply u64_small; destruct (jo_sequence e Hok); lia).
  rewrite Hu in *. exists observed, ev, fx1. injection HE as <- <- _.
  split_and!; [done|done|done|]. eexists _, _. rewrite !elem_of_app. right. right. left.
Qed.

(** ** Containment *)

(** The operations of the engine, with what the host answers. *)
Inductive titan_op :=
| TObserve (deps : TitanDeps) (h : host_answers) (o : titanObservation)
| TReview (id decision reason : string)
| TContain (deps : TitanDeps) (lstat : option finfo) (id reason : string)
| TPolicy (mode : string) (armed auto : bool) (reason : string).
Definition titan_effects `{U : Unicode} (op : titan_op) e w : list titan_effect :=
  match op with
  | TObserve deps h o => (observe deps h o e w).1.2
  | TReview id decision reason => (Review id decision reason e w).1.2
  | TContain deps lstat id reason => (Contain deps lstat id reason e w).1.2
  | TPolicy mode armed auto reason => (Titan_ApplyPolicy mode armed auto reason e w).1.2
  end.

Lemma requests_app fx1 fx2 : requests (fx1 ++ fx2) = requests fx1 ++ requests fx2.
Proof. apply omap_app. Qed.

Lemma observe_requests `{U : Unicode} deps h o e w : requests (observe deps h o e w).1.2 <> [] ->
  exists observed, requests (observe deps h o e w).1.2 = requests (judge deps h o observed e).2.
Proof.
  unfold observe. destruct (_ || _); [done|]. destruct (if Time.IsZero _ then _ else _) as [observed w1]. intros _. exists observed.
  destruct (judge deps h o observed e) as [ev fx1]. destruct (appendEvent ev e w1) as [[e1 fx2] w2] eqn:HA.
  assert (requests fx2 = []) as H2.
  { unfold appendEvent in HA. destruct (journalDocumentLocked _ _). destruct (persistJournal _ _ _) as [[err ?] ?]. by destruct err; simplify_eq. }
  cbn [fst snd]. rewrite !requests_app, H2. destruct (_ || _); cbn; by rewrite app_nil_r.
Qed.

Lemma contain_requests deps lstat id reason e w : requests (Contain deps lstat id reason e w).1.2 <> [] ->
  exists ev, find_event id (t_events e) ≫= (fun i => t_events e !! i) = Some ev /\
    requests (Contain deps lstat id reason e w).1.2 = [(ev_Path ev, boundedTitanText reason 240)] /\
    ev_TrustState ev <> TitanTrustAuthorized /\ (exists r, validateTitanReason reason = inr r) /\
    containable (mkContainEnv (t_policy e) (t_journalPath e) (t_policyPath e) lstat) (ev_Path ev).
Proof.
  unfold Contain. destruct (validateTitanReason reason) as [|r]; [done|]. destruct (_ ≫= _) as [ev|]; [|done].
  destruct (bool_decide_reflect (ev_TrustState ev = TitanTrustAuthorized)) as [|Hu]; [done|].
  destruct (d_Containment deps) as [request|]; [|done]. destruct (safe_path _ _) eqn:HS; [done|]. intros _. exists ev.
  apply safe_path_containable in HS. split; [done|]. split; [|by eauto]. destruct (request _ _) as [|result]; [done|].
  destruct (time_Now w) as [now w1]. destruct (journalDocumentLocked _ _) as [d w2]. by destruct (persistJournal _ _ _) as [[? ?] ?].
Qed.

Lemma silent_review `{U : Unicode} id decision reason e w : requests (Review id decision reason e w).1.2 = [].
Proof.
  unfold Review. destruct (validateTitanReason reason); [done|]. destruct (negb _); [done|]. destruct (_ || _); [done|].
  destruct (find_event _ _); [|done]. destruct (time_Now w) as [now w1]. destruct (_ !! _); [|done].
  destruct (journalDocumentLocked _ _) as [d w2]. destruct (persistJournal _ _ _) as [[err ?] ?]. by destruct err.
Qed.
Lemma silent_policy mode armed auto reason e w : requests (Titan_ApplyPolicy mode armed auto reason e w).1.2 = [].
Proof.
  unfold Titan_ApplyPolicy. destruct (validateTitanReason reason); [done|]. destruct (time_Now w) as [now w1].
  destruct (normalizeTitanPolicy _); [done|]. destruct (json_Marshal _); [done|]. destruct (atomicWriteFile _ _ _ _) as [[err|] w2]; [done|].
  cbn. by destruct (_ || _).
Qed.

(** C35: containment is guarded. Whenever an operation of the engine asks the
    quarantine service to contain a file, it asks once, and either it processed
    an observation: the mode was not OBSERVE, the engine armed, automatic
    containment enabled, and the path is that of the event, whose trust state is
    neither AUTHORIZED nor TOLERATED; or the operator asked: with a valid
    reason, for the path of a journaled event that is not AUTHORIZED. In both
    cases the path is absolute and canonical, inside the configured roots, not
    a Titan state document, not at or below any system-critical path, and a
    regular file within the size bound. Reviews and policy changes never ask. *)
Theorem containment_guarded `{U : Unicode} op e w path reason : (path, reason) ∈ requests (titan_effects op e w) ->
  requests (titan_effects op e w) = [(path, reason)] /\
  match op with
  | TObserve deps h o => exists observed ev, (judge deps h o observed e).1 = ev /\ path = ev_Path ev /\
      tp_Mode (t_policy e) <> TitanModeObserve /\ tp_Armed (t_policy e) = true /\ tp_AutoContain (t_policy e) = true /\
      ev_TrustState ev <> TitanTrustAuthorized /\ ev_TrustState ev <> TitanTrustTolerated /\
      containable (mkContainEnv (t_policy e) (t_journalPath e) (t_policyPath e) (ha_lstat h)) path
  | TContain deps lstat id why => exists ev, find_event id (t_events e) ≫= (fun i => t_events e !! i) = Some ev /\ path = ev_Path ev /\
      ev_TrustState ev <> TitanTrustAuthorized /\ (exists r, validateTitanReason why = inr r) /\
      containable (mkContainEnv (t_policy e) (t_journalPath e) (t_policyPath e) lstat) path
  | TReview _ _ _ | TPolicy _ _ _ _ => False
  end.
Proof.
  destruct op as [deps h o|id decision why|deps lstat id why|mode armed auto why]; cbn [titan_effects]; intros H.
  - destruct (observe_requests deps h o e w) as [observed Ho]; [intros Hn; by rewrite Hn in H; apply not_elem_of_nil in H|].
    rewrite Ho in H |- *. unfold judge in *.
    set (ev0 := evaluateTrust _ _ _ _ _) in *. destruct (applyResponse _ _ _ ev0) as [ev fx] eqn:HA. cbn [snd fst] in *.
    destruct (applyResponse_same _ _ _ _ _ _ HA) as [Hp Ht].
    destruct (response_guarded _ _ _ _ _ _ HA) as ((r & Hr) & H1 & H2 & H3 & H4 & H5 & H6);
      [intros Hn; by rewrite Hn in H; apply not_elem_of_nil in H|].
    rewrite Hr in H |- *. apply list_elem_of_singleton in H. injection H as -> ->. split; [done|]. exists observed, ev.
    rewrite Ht, Hp. split_and!; try done. fold ev0. by rewrite HA.
  - rewrite silent_review in H. by apply not_elem_of_nil in H.
  - destruct (contain_requests deps lstat id why e w) as (ev & He & Hr & H1 & H2 & H3); [intros Hn; by rewrite Hn in H; apply not_elem_of_nil in H|].
    rewrite Hr in H |- *. apply list_elem_of_singleton in H. injection H as -> ->. split; [done|]. exists ev. by split_and!.
  - rewrite silent_policy in H. by apply not_elem_of_nil in H.
Qed.

(** ** Paging *)

(** Following the cursors from one page to the next. *)
Fixpoint read_all (fuel : nat) (limit : Z) (before : string) e : option (list TitanEvent) :=
  match fuel with
  | O => None
  | S fuel =>
      match Events limit before e with
      | inl _ => None
      | inr (page, next) =>
          if bool_decide (next = "") then Some page
          else (fun rest => page ++ rest) <$> read_all fuel limit next e
      end
  end.

Lemma decode_titanEventCursor n : 0 <= n <= MaxUint64 ->
  decode_cursor (titanEventCursor n) = inr n /\ titanEventCursor n <> "".
Proof.
  intros Hn. assert (itoa n <> "") as Hne.
  { intros HE. pose proof (ParseUint_itoa n Hn) as HP. by rewrite HE in HP. }
  pose proof (base64_trim _ Hne) as HT. unfold decode_cursor, titanEventCursor. split.
  - by rewrite bool_decide_false, base64_roundtrip, ParseUint_itoa.
  - intros HE. by rewrite HE in HT.
Qed.

Lemma filter_all {A} (f : A -> bool) l : Forall (fun x => f x = true) l -> List.filter f l = l.
Proof. induction 1 as [|x l Hx _ IH]; [done|]. cbn. by rewrite Hx, IH. Qed.
Lemma filter_none {A} (f : A -> bool) l : Forall (fun x => f x = false) l -> List.filter f l = [].
Proof. induction 1 as [|x l Hx _ IH]; [done|]. cbn. by rewrite Hx. Qed.

(** In newest-first order, the events older than one of them are those after
    it. *)
Lemma older_suffix pre x rest :
  StronglySorted (fun a b => ev_JournalSequence b < ev_JournalSequence a) (pre ++ x :: rest) ->
  List.filter (fun ev => ev_JournalSequence ev <? ev_JournalSequence x) (pre ++ x :: rest) = rest.
Proof.
  intros HS. rewrite List.filter_app. cbn [List.filter]. rewrite Z.ltb_irrefl.
  rewrite filter_none, filter_all; [done| |].
  - induction pre as [|y pre IH]; cbn in HS; inversion HS as [|? ? HS' HF]; subst.
    + eapply Forall_impl; [exact HF|]. intros z Hz. by apply Z.ltb_lt.
    + by apply IH.
  - induction pre as [|y pre IH]; [constructor|]. cbn in HS. inversion HS as [|? ? HS' HF]; subst.
    constructor; [|by apply IH]. apply Z.ltb_ge. apply Forall_app in HF as [_ HF].
    apply Forall_cons in HF as [HF _]. lia.
Qed.

Lemma journal_newest_first e : journal_ok e ->
  StronglySorted (fun a b => ev_JournalSequence b < ev_JournalSequence a) (rev (t_events e)) /\
  Forall (fun ev => 1 <= ev_JournalSequence ev <= MaxUint64) (rev (t_events e)).
Proof.
  intros [_ HS HR Hq _ _ _]. split.
  - induction (t_events e) as [|x l IH]; [constructor|]. cbn in HS, HR |- *.
    inversion HS as [|? ? HS' HF]; subst. apply Forall_cons in HR as [_ HR].
    specialize (IH HS' HR). clear HS HS' HR.
    assert (Forall (fun y => ev_JournalSequence x < ev_JournalSequence y) (rev l)) as HF'.
    { apply Forall_rev. rewrite Forall_map in HF. exact HF. }
    induction IH as [|y r HSr IHr HFr]; cbn; [repeat constructor|].
    apply Forall_cons in HF' as [Hy HF']. constructor; [by apply IHr|].
    apply Forall_app. split; [done|]. repeat constructor. done.
  - apply Forall_rev. apply Forall_map in HR. eapply Forall_impl; [exact HR|]. cbn. lia.
Qed.

Lemma page_limit_pos limit : (0 < Z.to_nat (page_limit limit))%nat.
Proof.
  unfold page_limit, titanMaxLimit, titanDefaultLimit.
  destruct (Z.leb_spec limit 0); [cbn; lia|]. destruct (Z.ltb_spec 50 limit); lia.
Qed.

(** The page at a cursor whose older events are [rest]. *)
Lemma Events_page e limit before b pre rest :
  journal_ok e -> decode_cursor before = inr b -> rev (t_events e) = pre ++ rest ->
  List.filter (fun ev => (b =? 0) || (ev_JournalSequence ev <? b)) (rev (t_events e)) = rest ->
  let n := Z.to_nat (page_limit limit) in
  exists next, Events limit before e = inr (take n rest, next) /\
    (drop n rest = [] /\ next = "" \/
     exists x pre', rev (t_events e) = pre' ++ x :: drop n rest /\ next = titanEventCursor (ev_JournalSequence x)
       /\ drop n rest <> []).
Proof.
  intros Hok Hd HL HF n. destruct (journal_newest_first e Hok) as [HS _]. unfold Events. rewrite Hd, HF.
  eexists. split; [reflexivity|]. fold n. pose proof (page_limit_pos limit) as Hn. fold n in Hn.
  destruct (last (take n rest)) as [x|] eqn:Hx.
  - apply last_Some in Hx as [l Hl].
    assert (rev (t_events e) = (pre ++ l) ++ x :: drop n rest) as HE.
    { rewrite HL, <- (take_drop n rest) at 1. rewrite Hl, <- !app_assoc. done. }
    rewrite HE in HS. pose proof (older_suffix _ _ _ HS) as HO. rewrite <- HE in HO.
    destruct (existsb _ _) eqn:Hex.
    + right. exists x, (pre ++ l). split_and!; [done|done|]. intros Hnil. rewrite Hnil in HO.
      apply existsb_exists in Hex as (y & Hin & Hy).
      assert (In y []) as []. rewrite <- HO. by apply List.filter_In.
    + left. split; [|done]. destruct (drop n rest) as [|y l'] eqn:Hdrop; [done|]. exfalso.
      apply not_true_iff_false in Hex. apply Hex, existsb_exists. exists y.
      rewrite <- (List.filter_In (fun ev => ev_JournalSequence ev <? ev_JournalSequence x)), HO. by left.
  - left. apply last_None in Hx. split; [|done]. destruct rest; [apply drop_nil|]. destruct n; [lia|done].
Qed.

Lemma read_all_rest e limit fuel before b pre rest :
  journal_ok e -> (length rest < fuel)%nat -> decode_cursor before = inr b ->
  rev (t_events e) = pre ++ rest ->
  List.filter (fun ev => (b =? 0) || (ev_JournalSequence ev <? b)) (rev (t_events e)) = rest ->
  read_all fuel limit before e = Some rest.
Proof.
  intros Hok. revert before b pre rest. induction fuel as [|fuel IH]; intros before b pre rest Hf Hd HL HF; [lia|].
  destruct (Events_page e limit before b pre rest Hok Hd HL HF) as (next & HE & Hnext).
  cbn [read_all]. rewrite HE. set (n := Z.to_nat (page_limit limit)) in *.
  destruct Hnext as [[Hnil ->]|(x & pre' & HL' & -> & Hne)].
  - rewrite bool_decide_true by done. f_equal. rewrite <- (take_drop n rest) at 2. by rewrite Hnil, app_nil_r.
  - destruct (journal_newest_first e Hok) as [HS HR].
    assert (1 <= ev_JournalSequence x <= MaxUint64) as Hx.
    { rewrite HL', Forall_app, Forall_cons in HR. tauto. }
    destruct (decode_titanEventCursor (ev_JournalSequence x)) as [Hdec Hcur]; [lia|].
    rewrite bool_decide_false by done.
    rewrite (IH _ (ev_JournalSequence x) (pre' ++ [x]) (drop n rest)).
    + cbn. f_equal. apply take_drop.
    + rewrite length_drop. pose proof (page_limit_pos limit). fold n in H.
      assert (rest <> []) by (intros ->; by rewrite drop_nil in Hne). destruct rest; [done|]. cbn in *. lia.
    + done.
    + by rewrite <- app_assoc.
    + rewrite (proj2 (Z.eqb_neq (ev_JournalSequence x) 0)) by lia. cbn [orb].
      rewrite HL' in HS |- *. by apply older_suffix.
Qed.

(** Paging loses nothing and repeats nothing. Reading page after page with
    the returned cursors, with any page size, returns every event of the journal
    exactly once, newest first, and ends. *)
Theorem titan_paging_complete e limit : journal_ok e ->
  read_all (S (length (t_events e))) limit "" e = Some (rev (t_events e)).
Proof.
  intros Hok. apply (read_all_rest e limit _ "" 0 []); [done|rewrite length_rev; lia|done|done|].
  apply filter_all. apply Forall_true. done.
Qed.

(** ** The owner policy survives a restart *)

Context `{JPL : !JSONDocLaws titanPolicyDocument}.

(** An accepted policy survives a restart. After a successful [ApplyPolicy]
    (at most 64 KiB of document), an engine started on the same policy file, with
    whatever configured policy, loads exactly the policy in force. *)
Theorem policy_survives_restart mode armed auto reason e w e' fx w' e2 w2 :
  policy_ok (t_policy e) ->
  Titan_ApplyPolicy mode armed auto reason e w = (None, e', fx, w') ->
  json_canonical (policy_document (t_policy e')) ->
  t_policyPath e2 = t_policyPath e -> w_fs w2 !! t_policyPath e = w_fs w' !! t_policyPath e -> no_faults w2 ->
  (forall i, w_fs w' !! t_policyPath e = Some i -> slen (i_data i) <= titanMaxPolicyBytes) ->
  exists w3, loadPolicy e2 w2 = (None, set_tpolicy (t_policy e') e2, w3).
Proof.
  intros Hp HA HC Hpath Hfs Hcalm Hsize. apply ApplyPolicy_result in HA; [|done].
  destruct HA as [[[? ?] _]|(_ & now & payload & w1 & Hok & -> & HM & HW)]; [done|].
  set (next := with_switches _ _ _ _ _ _) in *. cbn [t_policy set_tpolicy] in *.
  apply atomicWriteFile_post in HW as [_ _ Hpost]. destruct (Hpost eq_refl) as [Hfile _].
  specialize (Hsize _ Hfile). rewrite Hfile in Hfs.
  destruct (readBounded_calm (t_policyPath e) titanMaxPolicyBytes w2 _ Hcalm Hfs) as [w3 HR]; [done..|].
  exists w3. unfold loadPolicy. rewrite Hpath, HR. cbn [i_data].
  destruct (json_newline _ _ HM) as [_ ->]. rewrite (json_roundtrip _ _ HC HM).
  cbn [policy_document pdoc_Schema pdoc_Version pdoc_Policy]. rewrite bool_decide_true by done.
  cbn [negb orb Z.eqb Pos.eqb]. unfold policy_ok in Hok. by rewrite Hok.
Qed.

(** A policy document above 64 KiB is written successfully and refused by the
    next start, which falls back to the configured policy. *)
Lemma oversized_policy_lost mode armed auto reason e w e' fx w' payload e2 w2 :
  policy_ok (t_policy e) ->
  Titan_ApplyPolicy mode armed auto reason e w = (None, e', fx, w') ->
  json_Marshal (policy_document (t_policy e')) = inr payload -> titanMaxPolicyBytes <= slen payload ->
  t_policyPath e2 = t_policyPath e -> w_fs w2 !! t_policyPath e = w_fs w' !! t_policyPath e ->
  exists err w3, loadPolicy e2 w2 = (Some err, e2, w3).
Proof.
  intros Hp HA HM Hsz Hpath Hfs. apply ApplyPolicy_result in HA; [|done].
  destruct HA as [[[? ?] _]|(_ & now & payload' & w1 & Hok & -> & HM' & HW)]; [done|].
  cbn [t_policy set_tpolicy] in HM. rewrite HM in HM'. simplify_eq.
  apply atomicWriteFile_post in HW as [_ _ Hpost]. destruct (Hpost eq_refl) as [Hfile _].
  unfold loadPolicy. rewrite Hpath.
  destruct (readBoundedPrivateFile _ _ w2) as [[err|d] w3] eqn:HR.
  - rewrite Hfile in Hfs. rewrite (readBounded_present _ _ _ _ _ _ HR Hfs). by eauto.
  - apply readBounded_spec in HR as (_ & i & Hi & _ & _ & -> & Hmax).
    rewrite Hfs, Hfile in Hi. simplify_eq. cbn in Hmax. unfold slen in *. rewrite length_append in Hmax. cbn in Hmax. lia.
Qed.
End Facts.
