(* ===== verification/TitanWitness.v ===== *)
(** * Witnesses for Titan *)

From Stdlib Require Import ZArith Lia Ascii String.
From stdpp Require Import base gmap strings list sorting relations.
From S2P Require Import Prelude.
From S2P Require Import GoLib.
From S2P Require Import Strconv.
From S2P Require Import Text.
From S2P Require Import Paths.
From S2P Require Import World.
From S2P Require Import Storage.
From S2P Require Import Instances.
From S2P Require Import LimitsWitness.
From S2P Require Import TitanTrust.
From S2P Require Import Titan.
From S2P Require Import TitanFacts.

Lemma titanPathUnder_components_witness :
  titanPathUnder "/var//www/./a/../b" "/var/www" = true <->
  elems_of "/var/www" `prefix_of` elems_of "/var//www/./a/../b".
Proof. apply (titanPathUnder_components "/var//www/./a/../b" "/var/www"); reflexivity. Defined.

Lemma titanPathUnder_sibling : titanPathUnder "/var/www2" "/var/www" = false.
Proof. reflexivity. Qed.

Definition demo_titan_policy : titanPolicy :=
  mkTitanPolicy TitanModeStrict true true ["/srv/www"] ["/srv/www/cache"] [] [] 1048576 500 4194304 0 1.

Definition demo_event : TitanEvent :=
  mkTitanEvent "event-0001" 1000 "/srv/www/shell.php" "CREATED" TitanTrustUnexpected "" "" "NONE" "medium"
    "linux-inotify" "" 0 TitanModeStrict "" "PENDING" "" None "" "" "" "" 0.

Definition demo_deps : TitanDeps :=
  mkTitanDeps None None None
    (Some (fun path reason => inr (mkContainmentResult "tx-1" "object-1" "digest"))).

Definition demo_contain_env : contain_env :=
  mkContainEnv demo_titan_policy "/var/lib/vgt/titan-journal.json" "/var/lib/vgt/titan-policy.json"
    (Some (mkFinfo Regular 12 7 900 "-rw-r--r--")).

Definition demo_response : TitanEvent * list titan_effect :=
  applyResponse demo_deps demo_contain_env demo_titan_policy demo_event.

Lemma contained_only_if_verified_witness :
  ev_Response demo_response.1 = TitanResponseContained <->
  exists request reason result, d_Containment demo_deps = Some request /\
    requests demo_response.2 = [(ev_Path demo_event, reason)] /\
    request (ev_Path demo_event) reason = inr result /\
    ev_QuarantineID demo_response.1 = cr_TransactionID result.
Proof.
  apply (contained_only_if_verified demo_deps demo_contain_env demo_titan_policy demo_event
    demo_response.1 demo_response.2).
  reflexivity.
Defined.

Lemma strict_surfaces_everything_witness :
  ev_Response demo_response.1 = TitanResponseContained \/
  ev_Response demo_response.1 = TitanResponseReviewRequired.
Proof.
  apply (strict_surfaces_everything demo_deps demo_contain_env demo_titan_policy demo_event).
  - reflexivity.
  - discriminate.
Defined.

Definition demo_finfo : finfo := mkFinfo Regular 5 42 900 "-rw-r--r--".
Definition demo_probe : titan_probe :=
  mkProbe (Some demo_finfo) true (Some demo_finfo) (Some "hello") (Some demo_finfo).

Lemma identity_of_stable_file_witness :
  exists before opened after content,
    pr_lstat demo_probe = Some before /\ pr_fstat demo_probe = Some opened /\
    pr_fstat_after demo_probe = Some after /\ pr_content demo_probe = Some content /\
    id_SHA256 (readTitanIdentity "/srv/www/a" 1024 demo_probe) = hex_EncodeToString (sha256_Sum content).
Proof.
  pose proof (identity_of_stable_file "/srv/www/a" 1024 demo_probe ltac:(lia) eq_refl)
    as (_ & _ & _ & _ & b & o & a & c & H1 & H2 & H3 & H4 & _ & _ & _ & _ & _ & _ & _ & _ & H5).
  exists b, o, a, c. split; [exact H1|]. split; [exact H2|]. split; [exact H3|]. split; [exact H4|exact H5].
Defined.

(** ** The engine on concrete inputs *)

Definition ser_bool (b : bool) : string := if b then "t" else "f".
Definition unser_bool (s : string) : bool := bool_decide (s = "t").
Lemma unser_ser_bool b : unser_bool (ser_bool b) = b.
Proof. by destruct b. Qed.

#[export, refine] Instance titan_policy_fields : Fields titanPolicyDocument := {
  to_fields d :=
    let p := pdoc_Policy d in
    (pdoc_Schema d,
     [ser_Z (pdoc_Version d); ser_Z (pdoc_SavedUTC d); tp_Mode p; ser_bool (tp_Armed p);
      ser_bool (tp_AutoContain p); pack (tp_Roots p); pack (tp_Allowlist p); pack (tp_DevelopmentRoots p);
      pack (tp_ProtectedPaths p); ser_Z (tp_MaxFileBytes p); ser_Z (tp_MaxEvents p);
      ser_Z (tp_JournalMaxBytes p); ser_Z (tp_UpdatedUTC p); ser_Z (tp_Revision p)]);
  of_fields l :=
    match l with
    | [sch; v; sv; mode; ar; au; ro; al; de; pr; fb; me; jb; up; re] =>
        match unser_Z v, unser_Z sv, unpack ro, unpack al, unpack de, unpack pr with
        | Some v, Some sv, Some ro, Some al, Some de, Some pr =>
            match unser_Z fb, unser_Z me, unser_Z jb, unser_Z up, unser_Z re with
            | Some fb, Some me, Some jb, Some up, Some re =>
                Some (mkPolicyDocument sch v
                  (mkTitanPolicy mode (unser_bool ar) (unser_bool au) ro al de pr fb me jb up re) sv)
            | _, _, _, _, _ => None
            end
        | _, _, _, _, _, _ => None
        end
    | _ => None
    end;
  of_to_fields := _;
}.
Proof.
  intros [sch v [] sv]. cbn -[ser_Z unser_Z pack unpack ser_bool unser_bool].
  by rewrite !unser_ser_Z, !unpack_pack, !unser_ser_bool.
Defined.

(** A codec that refuses every journal: the events stay in memory. *)
#[export] Instance titan_journal_offline : JSONDoc titanJournalDocument := {
  json_Marshal _ := inl (ErrText "journal encoder is offline");
  json_Decode _ := inl (ErrText "journal encoder is offline");
  json_canonical _ := True;
}.

Definition demo_titan : TitanEngine :=
  mkTitanEngine demo_titan_policy "/var/lib/vgt/titan-policy.json" "/var/lib/vgt/titan-journal.json"
    [] [] 0 0 0 (mkTrustCounts 0 0 0 0) (mkCorrelationCounts 0 0 0) (mkSensor "starting" None "") true.

Lemma demo_titan_ok : journal_ok demo_titan.
Proof. split; [by vm_compute|apply SSorted_nil|apply Forall_nil_2|split; by vm_compute|by vm_compute|cbn; lia|done]. Qed.

Definition demo_obs : titanObservation := mkObservation "/srv/www/shell.php" "CREATED" 0 "" true.
Definition demo_answers : host_answers :=
  mkAnswers "event-0001" demo_probe (Some (mkFinfo Regular 12 7 900 "-rw-r--r--")).
Definition demo_observe := observe demo_deps demo_answers demo_obs demo_titan (calm_world ()).

Lemma titan_journal_invariant_witness : exists e' fx w',
  observe demo_deps demo_answers demo_obs demo_titan (calm_world ()) = (e', fx, w') /\ journal_ok e'.
Proof.
  destruct (observe demo_deps demo_answers demo_obs demo_titan (calm_world ())) as [[e' fx] w'] eqn:HO.
  exists e', fx, w'. split; [reflexivity|].
  apply (titan_journal_invariant (demo_titan, calm_world ()) (e', w')); [|exact demo_titan_ok].
  apply rtc_once, (ts_observe demo_deps demo_answers demo_obs demo_titan _ _ _ _ eq_refl HO).
Defined.

Lemma observation_journaled_witness : exists e' fx w',
  observe demo_deps demo_answers demo_obs demo_titan (calm_world ()) = (e', fx, w') /\
  exists observed ev fx1, judge demo_deps demo_answers demo_obs observed demo_titan = (ev, fx1) /\
    last (t_events e') = Some (set_sequence (t_sequence demo_titan + 1) ev) /\
    t_sequence e' = t_sequence demo_titan + 1 /\
    (exists kind message, EvidenceRecorded (ev_Severity ev) kind message (ev_Path ev) ∈ fx).
Proof.
  destruct (observe demo_deps demo_answers demo_obs demo_titan (calm_world ())) as [[e' fx] w'] eqn:HO.
  exists e', fx, w'. split; [reflexivity|].
  apply (observation_journaled demo_deps demo_answers demo_obs demo_titan (calm_world ()) e' fx w').
  - exact demo_titan_ok.
  - reflexivity.
  - discriminate.
  - reflexivity.
  - exact HO.
Defined.

(** The change is contained and journaled as such. *)
Lemma demo_observed :
  map (fun ev => (ev_TrustState ev, ev_Response ev, ev_QuarantineID ev)) (t_events demo_observe.1.1) =
    [(TitanTrustUnexpected, TitanResponseContained, "tx-1")] /\
  length (t_quarantine demo_observe.1.1) = 1%nat /\ t_openFindings demo_observe.1.1 = 1.
Proof. by vm_compute. Qed.

Definition demo_journal : TitanEngine :=
  recountLocked (set_totals 3 3 (set_events
    [set_sequence 1 demo_event; set_sequence 2 demo_event; set_sequence 3 demo_event] demo_titan)).

Lemma demo_journal_ok : journal_ok demo_journal.
Proof.
  split; [by vm_compute| | |split; by vm_compute|by vm_compute|cbn; lia|done]; cbn.
  - repeat constructor.
  - repeat constructor; lia.
Qed.

(** An observation is contained automatically; a journaled event is contained on
    request also while the engine is disarmed. *)
Definition watch_op : titan_op := TObserve demo_deps demo_answers demo_obs.
Definition disarmed : TitanEngine :=
  set_tpolicy (mkTitanPolicy TitanModeObserve false false ["/srv/www"] [] [] [] 1048576 500 4194304 0 1) demo_journal.
Definition ask_op : titan_op := TContain demo_deps (Some (mkFinfo Regular 12 7 900 "-rw-r--r--")) "event-0001" "web shell found by the team".
Definition request_of (op : titan_op) (e : TitanEngine) : string * string := hd ("", "") (requests (titan_effects op e (calm_world ()))).
Lemma request_in op e : (if requests (titan_effects op e (calm_world ())) is [] then false else true) = true ->
  ((request_of op e).1, (request_of op e).2) ∈ requests (titan_effects op e (calm_world ())).
Proof. unfold request_of. destruct (requests _) as [|[p r] l]; [done|]. intros _. left. Qed.
Lemma containment_guarded_witness :
  requests (titan_effects watch_op demo_titan (calm_world ())) = [((request_of watch_op demo_titan).1, (request_of watch_op demo_titan).2)] /\
  requests (titan_effects ask_op disarmed (calm_world ())) = [("/srv/www/shell.php", (request_of ask_op disarmed).2)].
Proof.
  split.
  - apply (containment_guarded watch_op demo_titan (calm_world ()) (request_of watch_op demo_titan).1 (request_of watch_op demo_titan).2).
    apply request_in. by vm_compute.
  - apply (containment_guarded ask_op disarmed (calm_world ()) "/srv/www/shell.php" (request_of ask_op disarmed).2).
    apply (request_in ask_op disarmed). by vm_compute.
Defined.

Lemma titan_paging_complete_witness :
  read_all 4 2 "" demo_journal = Some (rev (t_events demo_journal)).
Proof. apply (titan_paging_complete demo_journal 2). apply demo_journal_ok. Defined.

Definition demo_policy_apply :=
  Titan_ApplyPolicy TitanModeContain true false "maintenance window" demo_titan (calm_world ()).

Lemma demo_policy_apply_eq :
  Titan_ApplyPolicy TitanModeContain true false "maintenance window" demo_titan (calm_world ()) =
    (None, demo_policy_apply.1.1.2, demo_policy_apply.1.2, demo_policy_apply.2).
Proof. by vm_compute. Qed.

Lemma policy_survives_restart_witness :
  exists w3, loadPolicy demo_titan demo_policy_apply.2 =
    (None, set_tpolicy (t_policy demo_policy_apply.1.1.2) demo_titan, w3).
Proof.
  apply (policy_survives_restart TitanModeContain true false "maintenance window" demo_titan (calm_world ())
    demo_policy_apply.1.1.2 demo_policy_apply.1.2 demo_policy_apply.2 demo_titan demo_policy_apply.2).
  - by vm_compute.
  - apply demo_policy_apply_eq.
  - done.
  - reflexivity.
  - reflexivity.
  - intros n. reflexivity.
  - intros i Hi. vm_compute in Hi. injection Hi as <-. by vm_compute.
Defined.
