(* ===== verification/Evidence.v ===== *)
(** * The evidence ledger

    src/control/evidence_ledger.go: signed, hash-chained records, one per line
    of an append-only file, with a sealed checkpoint of the head and a verified
    watermark. Ed25519 and the JSON codecs are interfaces; encryption is
    Storage.v's, files are World.v's and Lines.v's. *)

From Stdlib Require Import ZArith Lia Ascii String.
From stdpp Require Import base gmap strings list.
From S2P Require Import Prelude.
From S2P Require Import GoLib.
From S2P Require Import World.
From S2P Require Import Storage.
From S2P Require Import Lines.

(** ** Signatures *)

(** [crypto/ed25519]. *)
Class Ed25519 := {
  ed_NewKeyFromSeed : string -> string;
  ed_Public : string -> string;
  ed_Sign : string -> string -> string;
  ed_Verify : string -> string -> string -> bool;
}.

Class Ed25519Laws (E : Ed25519) := {
  ed_verify_sign : forall k m, ed_Verify (ed_Public k) m (ed_Sign k m) = true;
  ed_sign_len : forall k m, slen (ed_Sign k m) = 64;
}.

Definition ed25519_SeedSize : nat := 32.
Definition ed25519_PrivateKeySize : Z := 64.
Definition ed25519_PublicKeySize : Z := 32.
Definition ed25519_SignatureSize : Z := 64.

(** ** Data *)

Definition evidenceRecordVersion : Z := 1.
Definition evidenceDomain : string := "VGT-GEDEFENSE-EVIDENCE-V1" +:+ nul.
Definition evidenceRecentLimit : nat := 4096.
Definition evidenceIncrementalChunkRecords : Z := 25000.

Record EvidenceRecord := mkEvidence {
  er_Version : Z;
  er_Sequence : Z;
  er_ID : string;
  er_Time : time;
  er_Severity : string;
  er_Kind : string;
  er_Source : string;
  er_Message : string;
  er_Target : string;
  er_RequestID : string;
  er_PrevHash : string;
  er_Hash : string;
  er_Signature : string;
}.

Record evidencePayload := mkPayload {
  ep_Version : Z;
  ep_Sequence : Z;
  ep_ID : string;
  ep_Time : time;
  ep_Severity : string;
  ep_Kind : string;
  ep_Source : string;
  ep_Message : string;
  ep_Target : string;
  ep_RequestID : string;
  ep_PrevHash : string;
}.

Record evidenceCheckpoint := mkCheckpoint { cp_Version : Z; cp_Sequence : Z; cp_HeadHash : string }.
Record evidenceWatermark := mkWatermark { wm_Version : Z; wm_Sequence : Z; wm_HeadHash : string }.

Record EvidenceFabricSettings := mkEvidenceSettings {
  ev_MaxBytes : Z;
  ev_VerifyIntervalSeconds : Z;
  ev_APIRecentDefault : Z;
  ev_APIRecentMax : Z;
}.

Record EvidenceStatus := mkEvidenceStatus {
  es_Enabled : bool;
  es_Healthy : bool;
  es_Full : bool;
  es_Records : Z;
  es_HeadHash : string;
  es_PublicKey : string;
  es_Error : string;
  es_MaxBytes : Z;
  es_StoredBytes : Z;
  es_VerifyScope : string;
  es_FullVerifiedAt : option time;
}.

Record EvidenceLedger := mkLedger {
  l_path : string;
  l_headPath : string;
  l_keyPath : string;
  l_publicPath : string;
  l_privateKey : string;
  l_publicKey : string;
  l_crypto : option StorageCipher;
  l_sequence : Z;
  l_headHash : string;
  l_expectedSize : Z;
  l_maxBytes : Z;
  l_integrityErr : error;
  l_budgetExhausted : bool;
  l_recent : list EvidenceRecord;
  l_policy : EvidenceFabricSettings;
  l_verifyScope : string;
  l_fullVerifiedAt : option time;
  l_incrementalChunk : Z;
}.

Definition set_chain (seq : Z) (head : string) (size : Z) (recent : list EvidenceRecord) (l : EvidenceLedger)
    : EvidenceLedger :=
  mkLedger (l_path l) (l_headPath l) (l_keyPath l) (l_publicPath l) (l_privateKey l) (l_publicKey l) (l_crypto l)
    seq head size (l_maxBytes l) (l_integrityErr l) (l_budgetExhausted l) recent (l_policy l)
    (l_verifyScope l) (l_fullVerifiedAt l) (l_incrementalChunk l).
Definition set_integrity (e : error) (l : EvidenceLedger) : EvidenceLedger :=
  mkLedger (l_path l) (l_headPath l) (l_keyPath l) (l_publicPath l) (l_privateKey l) (l_publicKey l) (l_crypto l)
    (l_sequence l) (l_headHash l) (l_expectedSize l) (l_maxBytes l) e (l_budgetExhausted l) (l_recent l)
    (l_policy l) (l_verifyScope l) (l_fullVerifiedAt l) (l_incrementalChunk l).
Definition set_exhausted (b : bool) (l : EvidenceLedger) : EvidenceLedger :=
  mkLedger (l_path l) (l_headPath l) (l_keyPath l) (l_publicPath l) (l_privateKey l) (l_publicKey l) (l_crypto l)
    (l_sequence l) (l_headHash l) (l_expectedSize l) (l_maxBytes l) (l_integrityErr l) b (l_recent l)
    (l_policy l) (l_verifyScope l) (l_fullVerifiedAt l) (l_incrementalChunk l).
Definition set_evidence_policy (maxBytes : Z) (p : EvidenceFabricSettings) (l : EvidenceLedger) : EvidenceLedger :=
  mkLedger (l_path l) (l_headPath l) (l_keyPath l) (l_publicPath l) (l_privateKey l) (l_publicKey l) (l_crypto l)
    (l_sequence l) (l_headHash l) (l_expectedSize l) maxBytes (l_integrityErr l) (l_budgetExhausted l) (l_recent l)
    p (l_verifyScope l) (l_fullVerifiedAt l) (l_incrementalChunk l).
Definition set_scope (scope : string) (at_ : option time) (l : EvidenceLedger) : EvidenceLedger :=
  mkLedger (l_path l) (l_headPath l) (l_keyPath l) (l_publicPath l) (l_privateKey l) (l_publicKey l) (l_crypto l)
    (l_sequence l) (l_headHash l) (l_expectedSize l) (l_maxBytes l) (l_integrityErr l) (l_budgetExhausted l)
    (l_recent l) (l_policy l) scope at_ (l_incrementalChunk l).

(** ** Text bounds *)

Definition has_nul (s : string) : bool := existsb (Ascii.eqb Ascii.zero) (bytes_of s).

(** Label, text, limit and whether the field may be empty. *)
Definition text_fields (r : EvidenceRecord) : list (string * string * Z * bool) :=
  [("severity", er_Severity r, 32, false); ("kind", er_Kind r, 128, false); ("source", er_Source r, 128, false);
   ("message", er_Message r, 4096, false); ("target", er_Target r, 1024, true);
   ("request_id", er_RequestID r, 256, true)].

Fixpoint check_fields (fields : list (string * string * Z * bool)) : error :=
  match fields with
  | [] => None
  | (label, text, max, optional) :: rest =>
      if bool_decide (text = "") && negb optional then errors_New ("evidence " +:+ label +:+ " is required")
      else if (max <? slen text) || has_nul text
      then errors_New ("evidence " +:+ label +:+ " exceeds its boundary")
      else check_fields rest
  end.

(** [validateEvidenceText] ranges over a map: [check_fields] of any order of the
    fields. Only the message depends on the order. *)
Definition validateEvidenceText (r : EvidenceRecord) : error := check_fields (text_fields r).

(** ** Chain records *)

Definition payload_of (r : EvidenceRecord) : evidencePayload :=
  mkPayload (er_Version r) (er_Sequence r) (er_ID r) (er_Time r) (er_Severity r) (er_Kind r) (er_Source r)
    (er_Message r) (er_Target r) (er_RequestID r) (er_PrevHash r).

Section Ledger.
Context {X : Type} `{C : Crypto} `{E : Ed25519} `{JE : JSONDoc encryptedStorageEnvelope} `{EP : !EnvelopeProbe}
  `{JR : JSONDoc EvidenceRecord} `{JY : JSONDoc evidencePayload} `{JC : JSONDoc evidenceCheckpoint}
  `{JW : JSONDoc evidenceWatermark}.
Implicit Types (w : world X) (l : EvidenceLedger).

Definition evidenceCanonical (r : EvidenceRecord) : goerror + string := json_Marshal (payload_of r).
Definition evidenceHash (canonical : string) : string := sha256_Sum (evidenceDomain +:+ canonical).
Definition decodeEvidenceRecord (data : string) : goerror + EvidenceRecord := json_Decode data.

Definition verifyEvidenceRecord (r : EvidenceRecord) (sequence : Z) (previous publicKey : string) : error :=
  if negb (er_Version r =? evidenceRecordVersion) || negb (er_Sequence r =? sequence) ||
     bool_decide (er_ID r = "") || Time.IsZero (er_Time r)
  then errors_New "evidence record identity is invalid"
  else if negb (bool_decide (er_PrevHash r = previous)) then errors_New "evidence chain predecessor mismatch"
  else match validateEvidenceText r with
  | Some e => Some e
  | None =>
      match evidenceCanonical r with
      | inl e => Some e
      | inr canonical =>
          let expected := evidenceHash canonical in
          match hex_DecodeString (er_Hash r) with
          | None => errors_New "evidence content hash mismatch"
          | Some provided =>
              if negb (slen provided =? 32) || negb (bool_decide (provided = expected))
              then errors_New "evidence content hash mismatch"
              else match base64_DecodeString (er_Signature r) with
              | None => errors_New "evidence signature verification failed"
              | Some signature =>
                  if negb (slen signature =? ed25519_SignatureSize) ||
                     negb (ed_Verify publicKey expected signature)
                  then errors_New "evidence signature verification failed"
                  else None
              end
          end
      end
  end.

(** The plaintext of a stored line or document, and the stored form of one; a
    ledger without a storage key keeps plaintext. *)
Definition open_stored (c : option StorageCipher) (path purpose data : string) (sequence : option Z)
    : goerror + string :=
  match c with
  | None => inr data
  | Some _ => ok_map fst (Decrypt c path purpose data sequence)
  end.

Definition seal_stored (c : option StorageCipher) (path purpose : string) (sequence : Z) (data : string) w
    : (goerror + string) * world X :=
  match c with None => (inr data, w) | Some _ => Encrypt c path purpose sequence data w end.

(** One line of the file: decrypted, decoded, verified against its predecessor;
    [None] takes the predecessor the record names. *)
Definition verify_line (publicKey : string) (c : option StorageCipher) (path : string) (sequence : Z)
    (previous : option string) (line : string) : goerror + EvidenceRecord :=
  match open_stored c path "evidence-record" line (Some sequence) with
  | inl e => inl (ErrWrap "evidence line decrypt" e)
  | inr line =>
      match decodeEvidenceRecord line with
      | inl e => inl (ErrWrap "evidence line decode" e)
      | inr r =>
          match verifyEvidenceRecord r sequence (default (er_PrevHash r) previous) publicKey with
          | Some e => inl (ErrWrap "evidence line" e)
          | None => inr r
          end
      end
  end.

(** ** Walking the chain *)

Record evidenceWalkBounds := mkBounds { b_From : Z; b_To : Z; b_PrevHash : string }.

(** The state of the walk: records counted, predecessor, last verified hash,
    recent records. *)
Record walk_state := mkWalk {
  ws_sequence : Z;
  ws_previous : string;
  ws_last : string;
  ws_recent : list EvidenceRecord;
}.

(** The loop over the tokens; the flag tells whether it ran to their end. *)
Fixpoint walk_lines (publicKey : string) (c : option StorageCipher) (path : string) (b : evidenceWalkBounds)
    (lines : list string) (s : walk_state) : goerror + (walk_state * bool) :=
  match lines with
  | [] => inr (s, true)
  | line :: rest =>
      let sequence := ws_sequence s + 1 in
      if (0 <? b_To b) && (b_To b <? sequence) then inr (s, false)
      else if sequence <? b_From b
      then walk_lines publicKey c path b rest (mkWalk sequence (ws_previous s) (ws_last s) (ws_recent s))
      else match verify_line publicKey c path sequence (Some (ws_previous s)) line with
      | inl e => inl e
      | inr r =>
          let s := mkWalk sequence (er_Hash r) (er_Hash r)
                     (keep_last evidenceRecentLimit (ws_recent s ++ [r])) in
          if (0 <? b_To b) && (sequence =? b_To b) then inr (s, false)
          else walk_lines publicKey c path b rest s
      end
  end.

(** head, records, recent records, file size, error *)
Abbreviation chain_result := (string * Z * list EvidenceRecord * Z * error)%type.
Definition failed (size : Z) (e : goerror) : chain_result := ("", 0, [], size, Some e).

Definition is_private (i : inode) : bool := bool_decide (i_kind i = Regular) && (Z.land (i_perm i) 63 =? 0).

Definition verifyEvidenceChain (path publicKey : string) (c : option StorageCipher) (maxBytes : Z)
    (b : evidenceWalkBounds) w : chain_result * world X :=
  match os_Lstat path w with
  | (inl e, w) => if is_not_exist e then (("", 0, [], 0, None), w) else (failed 0 e, w)
  | (inr info, w) =>
      let size := slen (i_data info) in
      if negb (is_private info)
      then (failed 0 (ErrText "evidence ledger must be a private regular non-symlink file"), w)
      else if maxBytes <? size then (failed size (ErrText "evidence ledger exceeds its size budget"), w)
      else match scan_file path w with
      | (inl e, w) => (failed size e, w)
      | (inr (lines, scanErr), w) =>
          match walk_lines publicKey c path b lines (mkWalk 0 (b_PrevHash b) "" []) with
          | inl e => (failed size e, w)
          | inr (s, ended) =>
              match (if ended then scanErr else None) with
              | Some e => (failed size e, w)
              | None =>
                  if ws_sequence s + 1 <? b_From b
                  then (("", ws_sequence s, ws_recent s, size,
                         errors_New "evidence ledger is shorter than the verified watermark"), w)
                  else let head := if bool_decide (ws_last s = "") then b_PrevHash b else ws_last s in
                       ((head, ws_sequence s, ws_recent s, size, None), w)
              end
          end
      end
  end.

(** ** Checkpoint *)

Definition readEvidenceCheckpoint (path : string) (c : option StorageCipher) w
    : (goerror + evidenceCheckpoint) * world X :=
  match readBoundedPrivateFile path 131072 w with
  | (inl e, w) => (inl e, w)
  | (inr data, w) =>
      match open_stored c path "evidence-head" data None with
      | inl e => (inl e, w)
      | inr data => (json_Decode data, w)
      end
  end.

Definition verifyEvidenceCheckpoint (path : string) (sequence : Z) (headHash : string) (c : option StorageCipher) w
    : error * world X :=
  match readBoundedPrivateFile path 131072 w with
  | (inl e, w) =>
      if is_not_exist e
      then (if (sequence =? 0) && bool_decide (headHash = "") then None
            else errors_New "evidence checkpoint is missing", w)
      else (Some e, w)
  | (inr data, w) =>
      match open_stored c path "evidence-head" data None with
      | inl e => (Some e, w)
      | inr data =>
          match json_Decode data with
          | inl e => (Some e, w)
          | inr cp =>
              if negb (cp_Version cp =? evidenceRecordVersion) || negb (cp_Sequence cp =? sequence) ||
                 negb (bool_decide (cp_HeadHash cp = headHash))
              then (errors_New "evidence checkpoint does not match verified ledger head", w)
              else (None, w)
          end
      end
  end.

Definition writeEvidenceCheckpoint (path : string) (sequence : Z) (headHash : string) (c : option StorageCipher) w
    : error * world X :=
  match json_Marshal (mkCheckpoint evidenceRecordVersion sequence headHash) with
  | inl e => (Some e, w)
  | inr data =>
      match seal_stored c path "evidence-head" sequence data w with
      | (inl e, w) => (Some e, w)
      | (inr data, w) => atomicWriteFile path (data +:+ newline) 384 w
      end
  end.

Definition verifyEvidenceFiles (path headPath publicKey : string) (c : option StorageCipher) (maxBytes : Z) w
    : chain_result * world X :=
  let walk w :=
    let '((head, sequence, recent, size, err), w) :=
      verifyEvidenceChain path publicKey c maxBytes (mkBounds 1 0 "") w in
    match err with
    | Some e => (failed size e, w)
    | None =>
        match verifyEvidenceCheckpoint headPath sequence head c w with
        | (Some e, w) => (failed size e, w)
        | (None, w) => ((head, sequence, recent, size, None), w)
        end
    end in
  match os_Lstat path w with
  | (inl e, w) =>
      if is_not_exist e
      then match os_Lstat headPath w with
        | (inr _, w) => (failed 0 (ErrText "evidence checkpoint exists without ledger"), w)
        | (inl headErr, w) =>
            if is_not_exist headErr then (("", 0, [], 0, None), w) else (failed 0 headErr, w)
        end
      else walk w
  | (inr _, w) => walk w
  end.

(** ** A bounded start *)

Definition blank (line : string) : bool := slen (TrimSpace line) =? 0.
Definition records_of (lines : list string) : list string := List.filter (fun line => negb (blank line)) lines.

(** The ring buffer of [evidenceLineWindow]: line number [n] (from 0) of the
    sealed prefix goes to slot [n mod limit]. *)
Fixpoint fill_ring (limit sealed n : nat) (records ring : list string) : list string :=
  match records with
  | [] => ring
  | r :: rest =>
      fill_ring limit sealed (S n) rest (if (n <? sealed)%nat then <[(n mod limit)%nat := r]> ring else ring)
  end.

Definition ring_window (limit sealed : nat) (records : list string) : list string :=
  let lines := length records in
  let ring := fill_ring limit sealed 0 records (replicate limit "") in
  let keep := Nat.min (Nat.min lines sealed) limit in
  let start := if (lines <? sealed)%nat then (lines - keep)%nat else (sealed - keep)%nat in
  map (fun i => default "" (ring !! ((start + i) mod limit)%nat)) (List.seq 0 keep).

(** [evidenceLineWindow] with its limit; [None] counts only. *)
Definition evidenceLineWindow (path : string) (window : option (Z * nat)) w
    : (goerror + (Z * list string)) * world X :=
  match scan_file path w with
  | (inl e, w) => (inl e, w)
  | (inr (_, Some e), w) => (inl e, w)
  | (inr (lines, None), w) =>
      let records := records_of lines in
      (inr (Z.of_nat (length records),
            match window with
            | None => []
            | Some (sealed, limit) => ring_window limit (Z.to_nat sealed) records
            end), w)
  end.

(** [os.CreateTemp]: a new file with a random suffix. *)
Definition os_CreateTemp (dir prefix : string) w : (goerror + string) * world X :=
  let name := dir +:+ "/" +:+ prefix +:+ hex_EncodeToString (fit 4 (o_rand (w_oracle w) (w_tick w))) in
  match os_CreateExcl name 384 w with
  | (Some e, w) => (inl e, w)
  | (None, w) => (inr name, w)
  end.

(** The deferred close and removal of the temporary file. *)
Definition discard (name : string) (e : error) w : error * world X :=
  let '(_, w) := f_Close w in
  let '(_, w) := os_Remove name w in (e, w).

(** [truncateEvidenceTo]: the buffered writes reach the file with the flush. *)
Definition truncateEvidenceTo (path : string) (count : Z) w : error * world X :=
  match scan_file path w with
  | (inl e, w) => (Some e, w)
  | (inr (lines, scanErr), w) =>
      match os_CreateTemp (Dir path) ".evidence-truncate-" w with
      | (inl e, w) => (Some e, w)
      | (inr name, w) =>
          match os_Chmod name 384 w with
          | (Some e, w) => discard name (Some e) w
          | (None, w) =>
              let kept := take (Z.to_nat count) (records_of lines) in
              match (if count <? Z.of_nat (length (records_of lines)) then None else scanErr) with
              | Some e => discard name (Some e) w
              | None =>
                  match f_Write name (lines_text kept) w with
                  | (Some e, w) => discard name (Some e) w
                  | (None, w) =>
                      match f_Sync w with
                      | (Some e, w) => discard name (Some e) w
                      | (None, w) =>
                          match f_Close w with
                          | (Some e, w) => discard name (Some e) w
                          | (None, w) => let '(e, w) := os_Rename name path w in discard name e w
                          end
                      end
                  end
              end
          end
      end
  end.

Definition readTrailingEvidenceLine (path : string) w : (goerror + string) * world X :=
  match scan_file path w with
  | (inl e, w) => (inl e, w)
  | (inr (_, Some e), w) => (inl e, w)
  | (inr (lines, None), w) =>
      match last (records_of lines) with
      | None => (inl (ErrText "evidence ledger has no records"), w)
      | Some r => (inr r, w)
      end
  end.

(** Adopts or drops the record that was written and never sealed. *)
Definition recoverUnsealedEvidenceTail (path headPath publicKey : string) (c : option StorageCipher)
    (cp : evidenceCheckpoint) w : (goerror + string) * world X :=
  match readTrailingEvidenceLine path w with
  | (inl e, w) => (inl e, w)
  | (inr raw, w) =>
      let sequence := u64 (cp_Sequence cp + 1) in
      match verify_line publicKey c path sequence (Some (cp_HeadHash cp)) raw with
      | inr r =>
          match writeEvidenceCheckpoint headPath sequence (er_Hash r) c w with
          | (Some e, w) => (inl (ErrWrap "seal the recovered record" e), w)
          | (None, w) => (inr "adopted", w)
          end
      | inl _ =>
          match truncateEvidenceTo path (cp_Sequence cp) w with
          | (Some e, w) => (inl (ErrWrap "remove the unsealed record" e), w)
          | (None, w) => (inr "dropped", w)
          end
      end
  end.

(** The records of the window, each verified against the one before it. *)
Fixpoint verify_window (publicKey : string) (c : option StorageCipher) (path : string) (sequence : Z)
    (previous : option string) (window : list string) : goerror + list EvidenceRecord :=
  match window with
  | [] => inr []
  | line :: rest =>
      match verify_line publicKey c path sequence previous line with
      | inl e => inl e
      | inr r => ok_map (cons r) (verify_window publicKey c path (sequence + 1) (Some (er_Hash r)) rest)
      end
  end.

(** The size of the ledger file, as the second [Lstat] reports it. *)
Definition file_size (path : string) (default_ : Z) w : Z * world X :=
  match os_Lstat path w with
  | (inr i, w) => (slen (i_data i), w)
  | (inl _, w) => (default_, w)
  end.

(** The checkpoint, the number of records and the size after a recovery. *)
Definition reread_tail (path headPath : string) (c : option StorageCipher) (size : Z) w
    : (goerror * Z + evidenceCheckpoint * Z * Z) * world X :=
  let '(size, w) := file_size path size w in
  match readEvidenceCheckpoint headPath c w with
  | (inl e, w) => (inl (e, size), w)
  | (inr cp, w) =>
      match evidenceLineWindow path None w with
      | (inl e, w) => (inl (e, size), w)
      | (inr (lines, _), w) => (inr (cp, lines, size), w)
      end
  end.

(** An unsealed record is recovered before anything is verified. *)
Definition recover_tail (path headPath publicKey : string) (c : option StorageCipher) (cp : evidenceCheckpoint)
    (lines size : Z) w : (goerror * Z + evidenceCheckpoint * Z * Z) * world X :=
  if lines =? u64 (cp_Sequence cp + 1) then
    match recoverUnsealedEvidenceTail path headPath publicKey c cp w with
    | (inl e, w) => (inl (ErrWrap "unsealed evidence record" e, size), w)
    | (inr _, w) => reread_tail path headPath c size w
    end
  else (inr (cp, lines, size), w).

(** The sealed tail: the last [limit] records end in the checkpoint's head. *)
Definition verify_tail (path publicKey : string) (c : option StorageCipher) (cp : evidenceCheckpoint)
    (lines size : Z) (limit : nat) w : (chain_result * string) * world X :=
  if negb (lines =? cp_Sequence cp)
  then ((failed size (ErrText "evidence ledger and its checkpoint disagree on the number of records"), ""), w)
  else match evidenceLineWindow path (Some (cp_Sequence cp, limit)) w with
  | (inl e, w) => ((failed size e, ""), w)
  | (inr (_, window), w) =>
      let start := u64 (cp_Sequence cp - Z.of_nat (length window) + 1) in
      match verify_window publicKey c path start None window with
      | inl e => ((failed size e, ""), w)
      | inr recent =>
          let head := match last recent with Some r => er_Hash r | None => "" end in
          if negb (bool_decide (head = cp_HeadHash cp))
          then ((failed size (ErrText "evidence ledger tail does not reproduce the sealed checkpoint"), ""), w)
          else ((head, lines, recent, size, None, if start =? 1 then "full" else "tail"), w)
      end
  end.

Definition verifyEvidenceFilesBounded (path headPath publicKey : string) (c : option StorageCipher) (maxBytes : Z)
    (tailLimit : nat) w : (chain_result * string) * world X :=
  let limit := if (tailLimit <? 1)%nat then evidenceRecentLimit else tailLimit in
  match os_Lstat path w with
  | (inl e, w) =>
      if is_not_exist e
      then match os_Lstat headPath w with
        | (inr _, w) => ((failed 0 (ErrText "evidence checkpoint exists without ledger"), ""), w)
        | (inl headErr, w) =>
            if is_not_exist headErr then (("", 0, [], 0, None, "empty"), w) else ((failed 0 headErr, ""), w)
        end
      else ((failed 0 e, ""), w)
  | (inr info, w) =>
      let size := slen (i_data info) in
      if negb (is_private info)
      then ((failed 0 (ErrText "evidence ledger must be a private regular non-symlink file"), ""), w)
      else if maxBytes <? size then ((failed size (ErrText "evidence ledger exceeds its size budget"), ""), w)
      else match readEvidenceCheckpoint headPath c w with
      | (inl e, w) =>
          if is_not_exist e && (size =? 0) then (("", 0, [], 0, None, "empty"), w) else ((failed size e, ""), w)
      | (inr cp, w) =>
          if negb (cp_Version cp =? evidenceRecordVersion)
          then ((failed size (ErrText "evidence checkpoint has an unsupported version"), ""), w)
          else if cp_Sequence cp =? 0
          then if negb (size =? 0)
               then ((failed size (ErrText "evidence ledger holds records but its checkpoint seals none"), ""), w)
               else (("", 0, [], 0, None, "empty"), w)
          else match evidenceLineWindow path None w with
          | (inl e, w) => ((failed size e, ""), w)
          | (inr (lines, _), w) =>
              match recover_tail path headPath publicKey c cp lines size w with
              | (inl (e, size), w) => ((failed size e, ""), w)
              | (inr (cp, lines, size), w) => verify_tail path publicKey c cp lines size limit w
              end
          end
      end
  end.

(** ** Appending *)

Definition effectiveMaxBytesLocked l : Z :=
  if 0 <? ev_MaxBytes (l_policy l) then ev_MaxBytes (l_policy l) else l_maxBytes l.

Definition verifyUnchangedLocked l w : error * world X :=
  match rejectSymlink (l_path l) w with
  | (Some e, w) => (Some e, w)
  | (None, w) =>
      match verifyEvidenceCheckpoint (l_headPath l) (l_sequence l) (l_headHash l) (l_crypto l) w with
      | (Some e, w) => (Some e, w)
      | (None, w) =>
          match os_Lstat (l_path l) w with
          | (inl e, w) => if is_not_exist e && (l_expectedSize l =? 0) then (None, w) else (Some e, w)
          | (inr info, w) =>
              if negb (is_private info) then (errors_New "evidence ledger file policy changed", w)
              else if negb (slen (i_data info) =? l_expectedSize l)
              then (errors_New "evidence ledger size changed outside the trusted writer", w)
              else (None, w)
          end
      end
  end.

(** [randomID]; a failing random source ends the process. *)
Definition randomID w : option string * world X :=
  match rand_Read 8 w with
  | (inl _, w) => (None, w)
  | (inr b, w) => (Some (hex_EncodeToString b), w)
  end.

(** The record as [Append] completes it before signing. *)
Definition stamp (id : string) (now : time) l (r : EvidenceRecord) : EvidenceRecord :=
  mkEvidence evidenceRecordVersion (u64 (l_sequence l + 1)) id now (er_Severity r) (er_Kind r) (er_Source r)
    (er_Message r) (er_Target r) (er_RequestID r) (l_headHash l) "" "".

Definition sign_record (privateKey : string) (digest : string) (r : EvidenceRecord) : EvidenceRecord :=
  mkEvidence (er_Version r) (er_Sequence r) (er_ID r) (er_Time r) (er_Severity r) (er_Kind r) (er_Source r)
    (er_Message r) (er_Target r) (er_RequestID r) (er_PrevHash r) (hex_EncodeToString digest)
    (base64_EncodeToString (ed_Sign privateKey digest)).

(** Open, write, sync and close. *)
Definition append_line (path line : string) w : error * world X :=
  match os_OpenAppend path 384 w with
  | (Some e, w) => (Some e, w)
  | (None, w) =>
      let '(err, w) := match f_Write path (line +:+ newline) w with
                       | (Some e, w) => (Some e, w)
                       | (None, w) => f_Sync w
                       end in
      let '(closeErr, w) := f_Close w in
      match err with Some e => (Some e, w) | None => (closeErr, w) end
  end.

(** The identity and the time, when the caller left them out. *)
Definition fill_identity (r : EvidenceRecord) w : option (string * time) * world X :=
  let '(id, w) := if bool_decide (er_ID r = "") then randomID w else (Some (er_ID r), w) in
  match id with
  | None => (None, w)
  | Some id => let '(now, w) := if Time.IsZero (er_Time r) then time_Now w else (er_Time r, w) in (Some (id, now), w)
  end.

(** Signing and storing a stamped record. *)
Definition commit_record (r : EvidenceRecord) l w : (goerror + EvidenceRecord) * EvidenceLedger * world X :=
  match evidenceCanonical r with
  | inl e => (inl e, l, w)
  | inr canonical =>
      let r := sign_record (l_privateKey l) (evidenceHash canonical) r in
      match json_Marshal r with
      | inl e => (inl e, l, w)
      | inr line =>
          match seal_stored (l_crypto l) (l_path l) "evidence-record" (er_Sequence r) line w with
          | (inl e, w) => (inl e, l, w)
          | (inr line, w) =>
              let nextSize := i64 (l_expectedSize l + slen line + 1) in
              if effectiveMaxBytesLocked l <? nextSize
              then (inl (ErrText "evidence ledger size budget exhausted"), set_exhausted true l, w)
              else
                let l := set_exhausted false l in
                match append_line (l_path l) line w with
                | (Some e, w) => (inl e, l, w)
                | (None, w) =>
                    match writeEvidenceCheckpoint (l_headPath l) (er_Sequence r) (er_Hash r) (l_crypto l) w with
                    | (Some e, w) =>
                        let e := ErrWrap "evidence checkpoint commit failed" e in
                        (inl e, set_integrity (Some e) l, w)
                    | (None, w) =>
                        (inr r, set_chain (er_Sequence r) (er_Hash r) nextSize
                                  (keep_last evidenceRecentLimit (l_recent l ++ [r])) l, w)
                    end
                end
          end
      end
  end.

Definition Append (r : EvidenceRecord) l w : outcome ((goerror + EvidenceRecord) * EvidenceLedger) * world X :=
  match l_integrityErr l with
  | Some e => (Returns (inl (ErrWrap "evidence ledger is quarantined" e), l), w)
  | None =>
      match fill_identity r w with
      | (None, w) => (Panics, w)
      | (Some (id, now), w) =>
          let r := stamp id now l r in
          match validateEvidenceText r with
          | Some e => (Returns (inl e, l), w)
          | None =>
              match verifyUnchangedLocked l w with
              | (Some e, w) => (Returns (inl e, set_integrity (Some e) l), w)
              | (None, w) => let '(res, l, w) := commit_record r l w in (Returns (res, l), w)
              end
          end
      end
  end.

(** ** Administration and views *)

Definition Evidence_ApplyPolicy (settings : EvidenceFabricSettings) l : EvidenceLedger :=
  set_evidence_policy (if 0 <? ev_MaxBytes settings then ev_MaxBytes settings else l_maxBytes l) settings l.

Definition Healthy l : error := l_integrityErr l.

Definition Evidence_Status l : EvidenceStatus :=
  let healthy := match l_integrityErr l with None => true | Some _ => false end in
  mkEvidenceStatus true healthy (healthy && l_budgetExhausted l) (l_sequence l) (l_headHash l)
    (hex_EncodeToString (l_publicKey l)) (if healthy then "" else "evidence integrity unavailable")
    (effectiveMaxBytesLocked l) (l_expectedSize l) (l_verifyScope l) (l_fullVerifiedAt l).

Definition Recent (limit : Z) l : list EvidenceRecord :=
  let limit := if limit <? 1 then 100 else limit in
  let limit := if 500 <? limit then 500 else limit in
  rev (keep_last (Z.to_nat limit) (l_recent l)).

(** ** Verification *)

Definition watermarkPath l : string := l_path l +:+ ".verified".

Definition readWatermark l w : (goerror + evidenceWatermark) * world X :=
  match readBoundedPrivateFile (watermarkPath l) 65536 w with
  | (inl e, w) => (inl e, w)
  | (inr data, w) =>
      match (match l_crypto l with
             | None => inr data
             | Some _ =>
                 match Decrypt (l_crypto l) (watermarkPath l) "evidence-verified" data None with
                 | inl e => inl e
                 | inr (plaintext, true) => inl (ErrText "evidence watermark is not authenticated")
                 | inr (plaintext, false) => inr plaintext
                 end
             end) with
      | inl e => (inl e, w)
      | inr data =>
          match json_Decode data with
          | inl e => (inl e, w)
          | inr mark =>
              if negb (wm_Version mark =? evidenceRecordVersion) || bool_decide (wm_HeadHash mark = "") ||
                 (wm_Sequence mark =? 0)
              then (inl (ErrText "evidence watermark is not usable"), w)
              else (inr mark, w)
          end
      end
  end.

Definition writeWatermark (mark : evidenceWatermark) l w : error * world X :=
  match json_Marshal mark with
  | inl e => (Some e, w)
  | inr data =>
      match seal_stored (l_crypto l) (watermarkPath l) "evidence-verified" (wm_Sequence mark) data w with
      | (inl e, w) => (Some e, w)
      | (inr data, w) => atomicWriteFile (watermarkPath l) (data +:+ newline) 384 w
      end
  end.

Definition markFullVerifiedLocked l w : EvidenceLedger * world X :=
  let '(now, w) := time_Now w in (set_scope "full" (Some now) l, w).

Definition Verify l w : error * EvidenceLedger * world X :=
  match l_integrityErr l with
  | Some e => (Some e, l, w)
  | None =>
      let '((head, sequence, _, size, err), w) :=
        verifyEvidenceFiles (l_path l) (l_headPath l) (l_publicKey l) (l_crypto l) (effectiveMaxBytesLocked l) w in
      let err := match err with
        | Some e => Some e
        | None =>
            if negb (bool_decide (head = l_headHash l)) || negb (sequence =? l_sequence l) ||
               negb (size =? l_expectedSize l)
            then errors_New "evidence ledger advanced outside the trusted writer" else None
        end in
      match err with
      | Some e => (Some e, set_integrity (Some e) l, w)
      | None =>
          match writeWatermark (mkWatermark evidenceRecordVersion sequence head) l w with
          | (Some e, w) =>
              let e := ErrWrap "evidence watermark" e in (Some e, set_integrity (Some e) l, w)
          | (None, w) => let '(l, w) := markFullVerifiedLocked l w in (None, l, w)
          end
      end
  end.

Definition recordIntegrity (e : goerror) l w : error * EvidenceLedger * world X :=
  (Some e, set_integrity (Some e) l, w).

(** One pass of [VerifyIncremental] with nothing appended meanwhile. *)
Definition VerifyIncremental l w : error * EvidenceLedger * world X :=
  match l_integrityErr l with
  | Some e => (Some e, l, w)
  | None =>
      let chunk := if l_incrementalChunk l =? 0 then evidenceIncrementalChunkRecords else l_incrementalChunk l in
      match readEvidenceCheckpoint (l_headPath l) (l_crypto l) w with
      | (inl e, w) => recordIntegrity (ErrWrap "evidence checkpoint" e) l w
      | (inr cp, w) =>
          if negb (cp_Version cp =? evidenceRecordVersion)
          then recordIntegrity (ErrText "evidence checkpoint has an unsupported version") l w
          else
            let '(mark, w) := readWatermark l w in
            let '(from, prev) := match mark with
              | inl _ => (1, "") | inr mark => (u64 (wm_Sequence mark + 1), wm_HeadHash mark) end in
            if cp_Sequence cp <? from
            then let '(l, w) := markFullVerifiedLocked l w in (None, l, w)
            else
              let to := u64 (from + chunk - 1) in
              let to := if cp_Sequence cp <? to then cp_Sequence cp else to in
              let '((head, sequence, _, _, err), w) :=
                verifyEvidenceChain (l_path l) (l_publicKey l) (l_crypto l) (effectiveMaxBytesLocked l)
                  (mkBounds from to prev) w in
              match err with
              | Some e => recordIntegrity e l w
              | None =>
                  if negb (sequence =? to)
                  then recordIntegrity (ErrText "evidence ledger holds fewer records than the verified range ends at") l w
                  else match writeWatermark (mkWatermark evidenceRecordVersion to head) l w with
                  | (Some e, w) => recordIntegrity (ErrWrap "evidence watermark" e) l w
                  | (None, w) =>
                      if to =? cp_Sequence cp
                      then let '(l, w) := markFullVerifiedLocked l w in (None, l, w)
                      else (None, set_scope ("partial:" +:+ itoa to +:+ "/" +:+ itoa (cp_Sequence cp))
                                    (l_fullVerifiedAt l) l, w)
                  end
              end
      end
  end.
End Ledger.
