(* ===== verification/EvidenceFacts.v ===== *)
(** * Theorems about the evidence ledger

    What is appended verifies; an interrupted append is repaired; the head hash
    commits to the whole history; incremental verification covers what a full
    walk covers. *)

From Stdlib Require Import ZArith Lia Ascii String.
From stdpp Require Import base gmap strings list.
From S2P Require Import Prelude.
From S2P Require Import GoLib.
From S2P Require Import Text.
From S2P Require Import World.
From S2P Require Import Storage.
From S2P Require Import Lines.
From S2P Require Import Evidence.

(** ** Laws of the codecs *)

(** What [json.Marshal] writes for a struct: an object on one line. *)
Class JSONLine (T : Type) `{JSONDoc T} := {
  json_one_line : forall x b, json_Marshal x = inr b -> (lf ∉ bytes_of b) /\ (cr ∉ bytes_of b);
  json_brace : forall x b, json_Marshal x = inr b -> exists rest, bytes_of b = "{"%char :: rest;
}.

(** A byte of text takes at most six bytes of JSON ("\u0000"); names, numbers
    and time stamps of these documents take less than 4096. *)
Class JSONSize (T : Type) `{JSONDoc T} (text_size : T -> Z) := {
  json_size : forall x b, json_Marshal x = inr b -> slen b <= 6 * text_size x + 4096;
}.

Definition record_text (r : EvidenceRecord) : Z :=
  slen (er_ID r) + slen (er_Severity r) + slen (er_Kind r) + slen (er_Source r) + slen (er_Message r) +
  slen (er_Target r) + slen (er_RequestID r) + slen (er_PrevHash r) + slen (er_Hash r) + slen (er_Signature r).
Definition envelope_text (e : encryptedStorageEnvelope) : Z :=
  slen (Schema e) + slen (Cipher e) + slen (Purpose e) + slen (AADHash e) + slen (Nonce e) + slen (Ciphertext e).

(** What decoding returns for text that is not valid UTF-8. *)
Definition coerce_record (r : EvidenceRecord) : EvidenceRecord :=
  mkEvidence (er_Version r) (er_Sequence r) (coerce_utf8 (er_ID r)) (er_Time r) (coerce_utf8 (er_Severity r))
    (coerce_utf8 (er_Kind r)) (coerce_utf8 (er_Source r)) (coerce_utf8 (er_Message r)) (coerce_utf8 (er_Target r))
    (coerce_utf8 (er_RequestID r)) (coerce_utf8 (er_PrevHash r)) (coerce_utf8 (er_Hash r))
    (coerce_utf8 (er_Signature r)).

(** The documents of the ledger as [encoding/json] treats them. *)
Class EvidenceCodecs `{JE : JSONDoc encryptedStorageEnvelope} `{EP : !EnvelopeProbe}
    `{JR : JSONDoc EvidenceRecord} `{JC : JSONDoc evidenceCheckpoint} `{JW : JSONDoc evidenceWatermark} := {
  ec_envelope_laws : JSONDocLaws encryptedStorageEnvelope;
  ec_envelope_line : JSONLine encryptedStorageEnvelope;
  ec_envelope_size : JSONSize encryptedStorageEnvelope envelope_text;
  ec_record_laws : JSONDocLaws EvidenceRecord;
  ec_record_line : JSONLine EvidenceRecord;
  ec_record_size : JSONSize EvidenceRecord record_text;
  ec_record_decode : forall r b, json_Marshal r = inr b -> json_Decode b = inr (coerce_record r);
  ec_checkpoint_laws : JSONDocLaws evidenceCheckpoint;
  ec_checkpoint_size : JSONSize evidenceCheckpoint (fun cp => slen (cp_HeadHash cp));
  ec_checkpoint_ascii : forall cp, is_ascii (cp_HeadHash cp) = true -> 0 <= cp_Sequence cp <= MaxUint64 ->
    0 <= cp_Version cp <= MaxUint32 -> json_canonical cp;
  ec_checkpoint_probe : forall (cp : evidenceCheckpoint) b, json_Marshal cp = inr b ->
    json_ProbeSchema b <> Some encryptedStorageSchema;
  ec_checkpoint_total : forall cp, exists b, json_Marshal (T := evidenceCheckpoint) cp = inr b;
  ec_envelope_total : forall env, exists b, json_Marshal (T := encryptedStorageEnvelope) env = inr b;
  ec_watermark_total : forall m, exists b, json_Marshal (T := evidenceWatermark) m = inr b;
  ec_watermark_laws : JSONDocLaws evidenceWatermark;
  ec_watermark_ascii : forall m, is_ascii (wm_HeadHash m) = true -> 0 <= wm_Sequence m <= MaxUint64 ->
    0 <= wm_Version m <= MaxUint32 -> json_canonical m;
}.
#[export] Existing Instances ec_envelope_laws ec_envelope_line ec_envelope_size ec_record_laws ec_record_line
  ec_record_size ec_checkpoint_laws ec_checkpoint_size ec_watermark_laws.

(** ** Walking *)

Definition head_of (prev : string) (rs : list EvidenceRecord) : string :=
  match last rs with Some r => er_Hash r | None => prev end.

Lemma head_of_cons prev r rs : head_of prev (r :: rs) = head_of (er_Hash r) rs.
Proof. unfold head_of. rewrite last_cons. by destruct (last rs). Qed.

Lemma head_of_app prev rs1 rs2 : head_of prev (rs1 ++ rs2) = head_of (head_of prev rs1) rs2.
Proof. unfold head_of. rewrite last_app. by destruct (last rs2). Qed.

Section Chain.
Context {X : Type} `{C : Crypto} `{E : Ed25519} `{JE : JSONDoc encryptedStorageEnvelope} `{EP : !EnvelopeProbe}
  `{JR : JSONDoc EvidenceRecord} `{JY : JSONDoc evidencePayload} `{JC : JSONDoc evidenceCheckpoint}
  `{JW : JSONDoc evidenceWatermark}.
Context (pub : string) (c : option StorageCipher) (path : string).
Abbreviation vw := (verify_window pub c path).

Lemma verify_window_length n p ls rs : vw n p ls = inr rs -> length rs = length ls.
Proof.
  revert n p rs. induction ls as [|line ls IH]; intros n p rs; cbn; [by intros [= <-]|].
  destruct (verify_line _ _ _ _ _ _) as [|r]; [done|].
  destruct (vw (n + 1) (Some (er_Hash r)) ls) as [|rs'] eqn:HV; [done|]. cbn. intros [= <-].
  cbn. f_equal. by eapply IH.
Qed.

(** Verifying in two parts, the second anchored at the head of the first, is
    verifying in one. *)
Lemma verify_window_app n p l1 l2 rs1 : vw n (Some p) l1 = inr rs1 ->
  vw n (Some p) (l1 ++ l2) = ok_map (app rs1) (vw (n + Z.of_nat (length l1)) (Some (head_of p rs1)) l2).
Proof.
  revert n p rs1. induction l1 as [|line l1 IH]; intros n p rs1; cbn.
  - intros [= <-]. rewrite Z.add_0_r. cbn. by destruct (vw n (Some p) l2).
  - destruct (verify_line _ _ _ _ _ _) as [|r]; [done|].
    destruct (vw (n + 1) (Some (er_Hash r)) l1) as [|rs'] eqn:HV; [done|]. cbn. intros [= <-].
    rewrite (IH _ _ _ HV), head_of_cons. replace (n + 1 + Z.of_nat (length l1)) with (n + Z.of_nat (S (length l1))) by lia.
    by destruct (vw _ _ l2).
Qed.

Lemma verify_window_prefix n p l1 l2 rs : vw n p (l1 ++ l2) = inr rs ->
  exists rs1, vw n p l1 = inr rs1.
Proof.
  revert n p rs. induction l1 as [|line l1 IH]; intros n p rs; cbn; [by eauto|].
  destruct (verify_line _ _ _ _ _ _) as [|r]; [done|].
  destruct (vw (n + 1) (Some (er_Hash r)) (l1 ++ l2)) as [|rs'] eqn:HV; [done|].
  destruct (IH _ _ _ HV) as [rs1 ->]. by eauto.
Qed.

(** A window that verifies from its predecessor verifies on its own. *)
Lemma verify_window_unanchor n p ls rs : vw n (Some p) ls = inr rs -> vw n None ls = inr rs.
Proof.
  destruct ls as [|line ls]; [done|]. cbn [verify_window]. intros HV. rewrite <- HV.
  assert (verify_line pub c path n None line = verify_line pub c path n (Some p) line \/
    exists e, verify_line pub c path n (Some p) line = inl e) as [->|[e He]]; [|done|by rewrite He in HV].
  clear HV. unfold verify_line. destruct (open_stored _ _ _ _ _) as [|l']; [by left|].
  destruct (decodeEvidenceRecord l') as [|r]; [by left|]. cbn [default].
  destruct (decide (er_PrevHash r = p)) as [<-|Hp]; [by left|]. right. unfold verifyEvidenceRecord.
  destruct (_ || Time.IsZero _); [by eauto|]. rewrite (bool_decide_false (er_PrevHash r = p)) by done. cbn. eauto.
Qed.

Lemma verify_window_suffix n p l1 l2 rs : vw n (Some p) (l1 ++ l2) = inr rs ->
  vw (n + Z.of_nat (length l1)) None l2 = inr (drop (length l1) rs).
Proof.
  intros HV. destruct (verify_window_prefix _ _ _ _ _ HV) as [rs1 H1].
  rewrite (verify_window_app _ _ _ _ _ H1) in HV.
  destruct (vw _ (Some _) l2) as [|rs2] eqn:H2; [done|]. injection HV as <-.
  rewrite (drop_app_length' rs1 rs2) by (by rewrite (verify_window_length _ _ _ _ H1)).
  by eapply verify_window_unanchor.
Qed.

(** The lines the bounds select from record [n] on. *)
Definition in_range (b : evidenceWalkBounds) (n : Z) (lines : list string) : list string :=
  if b_To b =? 0 then lines else take (Z.to_nat (b_To b - n)) lines.

Lemma walk_skip b skip rest n p s rec :
  n + Z.of_nat (length skip) < b_From b -> (b_To b = 0 \/ b_From b <= b_To b) ->
  walk_lines pub c path b (skip ++ rest) (mkWalk n p s rec) =
  walk_lines pub c path b rest (mkWalk (n + Z.of_nat (length skip)) p s rec).
Proof.
  revert n. induction skip as [|line skip IH]; intros n Hn Ht; cbn [length app]; [by rewrite Z.add_0_r|].
  cbn [length] in Hn. cbn [walk_lines ws_sequence].
  assert ((0 <? b_To b) && (b_To b <? n + 1) = false) as -> by (destruct (Z.ltb_spec 0 (b_To b)); [|done]; apply Z.ltb_ge; lia).
  rewrite (proj2 (Z.ltb_lt (n + 1) (b_From b))) by lia. cbn [ws_previous ws_last ws_recent].
  rewrite IH by lia. f_equal. f_equal. lia.
Qed.

Lemma walk_verify b lines n p s rec :
  b_From b <= n + 1 -> 0 <= b_To b -> (b_To b = 0 \/ n < b_To b) ->
  match vw (n + 1) (Some p) (in_range b n lines) with
  | inl e => walk_lines pub c path b lines (mkWalk n p s rec) = inl e
  | inr rs => exists rec' flag,
      walk_lines pub c path b lines (mkWalk n p s rec) =
        inr (mkWalk (n + Z.of_nat (length rs)) (head_of p rs) (head_of s rs) rec', flag) /\
      (flag = true -> in_range b n lines = lines)
  end.
Proof.
  revert n p s rec. unfold in_range. induction lines as [|line lines IH]; intros n p s rec Hf H0 Ht.
  { destruct (b_To b =? 0); rewrite ?take_nil; cbn; rewrite Z.add_0_r; by eauto. }
  cbn [walk_lines ws_sequence ws_previous].
  assert ((0 <? b_To b) && (b_To b <? n + 1) = false) as -> by (destruct (Z.ltb_spec 0 (b_To b)); [|done]; apply Z.ltb_ge; lia).
  rewrite (proj2 (Z.ltb_ge (n + 1) (b_From b))) by lia.
  assert ((if b_To b =? 0 then line :: lines else take (Z.to_nat (b_To b - n)) (line :: lines)) =
    line :: (if b_To b =? 0 then lines else take (Z.to_nat (b_To b - (n + 1))) lines)) as ->.
  { destruct (Z.eqb_spec (b_To b) 0); [done|]. replace (Z.to_nat (b_To b - n)) with (S (Z.to_nat (b_To b - (n + 1)))) by lia. done. }
  cbn [verify_window]. destruct (verify_line pub c path (n + 1) (Some p) line) as [e|r]; [done|].
  destruct ((0 <? b_To b) && (n + 1 =? b_To b)) eqn:Hend.
  - bool_to_prop. rewrite (proj2 (Z.eqb_neq (b_To b) 0)) by lia.
    replace (Z.to_nat (b_To b - (n + 1))) with 0%nat by lia. rewrite take_0. cbn.
    eexists _, false. by split.
  - specialize (IH (n + 1) (er_Hash r) (er_Hash r) (keep_last evidenceRecentLimit (rec ++ [r]))).
    assert (b_To b = 0 \/ n + 1 < b_To b) as Ht'.
    { apply andb_false_iff in Hend as [Hend|Hend]; bool_to_prop; lia. }
    cbn [ws_recent]. specialize (IH ltac:(lia) H0 Ht').
    destruct (vw (n + 1 + 1) (Some (er_Hash r)) _) as [e|rs]; [exact IH|]. cbn.
    destruct IH as (rec' & flag & -> & Hflag). exists rec', flag. rewrite !head_of_cons. split.
    + do 3 f_equal. lia.
    + intros Hft. by rewrite (Hflag Hft).
Qed.
End Chain.

(** ** Stored records *)

Lemma check_fields_bound fields : check_fields fields = None ->
  Forall (fun '(_, text, max, _) => slen text <= max) fields.
Proof.
  induction fields as [|[[[label text] max] opt] fields IH]; cbn; intros HC; constructor; revert HC.
  - destruct (bool_decide _ && _); [done|]. destruct (max <? slen text) eqn:HB; [done|]. intros _. by bool_to_prop.
  - destruct (bool_decide _ && _); [done|]. destruct (_ || _); [done|]. exact IH.
Qed.

Lemma validated_text r : validateEvidenceText r = None ->
  slen (er_Severity r) + slen (er_Kind r) + slen (er_Source r) + slen (er_Message r) + slen (er_Target r) +
  slen (er_RequestID r) <= 5664.
Proof.
  intros HV. apply check_fields_bound in HV. repeat (apply Forall_cons in HV as [? HV]). lia.
Qed.

(** Text JSON keeps as it is. *)
Record plain_text (r : EvidenceRecord) : Prop := {
  pt_id : utf8_ValidString (er_ID r) = true;
  pt_severity : utf8_ValidString (er_Severity r) = true;
  pt_kind : utf8_ValidString (er_Kind r) = true;
  pt_source : utf8_ValidString (er_Source r) = true;
  pt_message : utf8_ValidString (er_Message r) = true;
  pt_target : utf8_ValidString (er_Target r) = true;
  pt_request : utf8_ValidString (er_RequestID r) = true;
}.

(** The identifier a caller may supply is not bounded by the code; a bounded
    one keeps the line within the scanner's buffer. *)
Definition id_limit : Z := 4096.

Lemma coerce_plain r : plain_text r -> utf8_ValidString (er_PrevHash r) = true ->
  utf8_ValidString (er_Hash r) = true -> utf8_ValidString (er_Signature r) = true -> coerce_record r = r.
Proof. intros [] ? ? ?. unfold coerce_record. rewrite !coerce_valid by done. by destruct r. Qed.

Section Records.
Context {X : Type} `{C : Crypto} `{E : Ed25519} `{JE : JSONDoc encryptedStorageEnvelope} `{EP : !EnvelopeProbe}
  `{JR : JSONDoc EvidenceRecord} `{JY : JSONDoc evidencePayload} `{JC : JSONDoc evidenceCheckpoint}
  `{JW : JSONDoc evidenceWatermark}.
Context `{CL : !CryptoLaws C} `{EL : !Ed25519Laws E} `{EC : !EvidenceCodecs}.
Implicit Types (w : world X).

Lemma seal_same c path purpose seq data w res w' :
  seal_stored c path purpose seq data w = (res, w') -> same_but [] w w'.
Proof. destruct c; cbn; [by apply Encrypt_same|]. intros [= <- <-]. apply same_but_refl. Qed.

(** What is sealed is read back, with or without the newline after it. *)
Lemma open_seal c path purpose seq data w s w' expected :
  seal_stored c path purpose seq data w = (inr s, w') ->
  is_ascii purpose = true -> 0 <= seq <= MaxUint64 -> (expected = None \/ expected = Some seq) ->
  open_stored c path purpose s expected = inr data /\
  (open_stored c path purpose (s +:+ newline) expected = inr data \/
   open_stored c path purpose (s +:+ newline) expected = inr (data +:+ newline)).
Proof.
  destruct c as [c|]; cbn -[Decrypt Encrypt].
  - intros HE Ha Hs He. destruct (Encrypt_trimmed _ _ _ _ _ _ _ _ HE) as [Ht1 Ht2].
    rewrite (Decrypt_Encrypt _ _ _ _ _ _ _ _ Ha Hs HE s expected Ht1 He).
    rewrite (Decrypt_Encrypt _ _ _ _ _ _ _ _ Ha Hs HE (s +:+ newline) expected Ht2 He). cbn. auto.
  - intros [= <- <-] _ _ _. auto.
Qed.

Lemma sealed_marshal c path purpose seq b w s w' :
  seal_stored c path purpose seq b w = (inr s, w') ->
  (c = None /\ s = b) \/ exists env : encryptedStorageEnvelope, json_Marshal env = inr s /\
    slen (Purpose env) <= 96 /\ envelope_text env <= 2 * slen b + 512.
Proof.
  destruct c as [c|]; cbn; [|intros [= <- <-]; by left].
  unfold Encrypt. destruct (purposeKey _ _) as [|key] eqn:HK; [done|]. destruct (aes_NewCipher key); [done|].
  destruct (rand_Read _ _) as [[|nonce] wr] eqn:HR; [done|]. intros [= HE _]. right. eexists. split; [exact HE|].
  assert (slen nonce = 12) as Hn by (unfold rand_Read, sys in HR; split_branches; by rewrite slen_fit).
  unfold purposeKey in HK. cbn in HK. destruct (decide _); [done|]. destruct (Z.ltb_spec 96 (slen purpose)); [done|].
  split; [done|]. unfold envelope_text. cbn [Schema Cipher Purpose AADHash Nonce Ciphertext].
  rewrite hex_encode_length, sha256_len.
  pose proof (base64_len_le nonce). pose proof (base64_len_le (gcm_Seal key nonce b
    (storageAAD (nodeName c) purpose path seq))) as HB. rewrite gcm_seal_len in HB.
  change (slen encryptedStorageSchema) with 26. change (slen "AES-256-GCM") with 11. lia.
Qed.

(** A stored record is one line of the file, not blank, as is every part of it. *)
Definition braced (s : string) : Prop := exists rest, bytes_of s = "{"%char :: rest.

Lemma brace_visible : Forall (fun r => N_of_ascii "{" ∉ r) space_runes.
Proof. refine (bool_decide_unpack _ _). vm_compute. exact I. Qed.

Lemma braced_not_blank s : braced s -> blank s = false.
Proof.
  intros [rest HB]. unfold blank. apply Z.eqb_neq. intros H0.
  apply (TrimSpace_visible s "{"%char brace_visible); [rewrite HB; by left|].
  destruct (TrimSpace s); [done|]. unfold slen in H0. cbn in H0. lia.
Qed.

Lemma stored_line c path seq (r : EvidenceRecord) b w s w' :
  json_Marshal r = inr b -> record_text r <= 10240 ->
  seal_stored c path "evidence-record" seq b w = (inr s, w') -> one_line s /\ braced s /\ slen s <= 1048576.
Proof.
  intros HM Hr HS. pose proof (json_size _ _ HM) as Hb.
  destruct (sealed_marshal _ _ _ _ _ _ _ _ HS) as [[-> ->]|(env & HE & _ & Hl)].
  - destruct (json_one_line _ _ HM). split_and!; [constructor; [done..|unfold max_token in *; lia]|exact (json_brace _ _ HM)|lia].
  - destruct (json_one_line _ _ HE). pose proof (json_size _ _ HE).
    split_and!; [constructor; [done..|unfold max_token in *; lia]|exact (json_brace _ _ HE)|lia].
Qed.
(** A record [Append] has completed verifies at its place. *)
Record storable (id : string) (now : time) (l : EvidenceLedger) (r : EvidenceRecord) : Prop := {
  so_id : id <> "" /\ slen id <= id_limit;
  so_time : now <> 0;
  so_text : validateEvidenceText (stamp id now l r) = None;
}.

Record chained (l : EvidenceLedger) : Prop := {
  ch_key : l_publicKey l = ed_Public (l_privateKey l);
  ch_range : 0 <= l_sequence l < MaxUint64;
  ch_head : is_ascii (l_headHash l) = true /\ slen (l_headHash l) <= 64;
}.

Lemma signed_text id now l r digest : storable id now l r -> chained l -> slen digest = 32 ->
  record_text (sign_record (l_privateKey l) digest (stamp id now l r)) <= 10240.
Proof.
  intros [[_ Hid] _ Htext] [_ _ [_ Hh]] Hd. apply validated_text in Htext. unfold record_text.
  cbn [stamp sign_record er_ID er_Severity er_Kind er_Source er_Message er_Target er_RequestID er_PrevHash er_Hash
    er_Signature] in *.
  rewrite hex_encode_length, Hd. pose proof (base64_len_le (ed_Sign (l_privateKey l) digest)) as HB.
  rewrite ed_sign_len in HB. unfold id_limit in Hid. lia.
Qed.

Lemma stored_verifies id now l r can b w s w' :
  let r1 := sign_record (l_privateKey l) (evidenceHash can) (stamp id now l r) in
  storable id now l r -> plain_text (stamp id now l r) -> chained l -> evidenceCanonical (stamp id now l r) = inr can ->
  json_Marshal r1 = inr b -> seal_stored (l_crypto l) (l_path l) "evidence-record" (er_Sequence r1) b w = (inr s, w') ->
  verify_line (l_publicKey l) (l_crypto l) (l_path l) (l_sequence l + 1) (Some (l_headHash l)) s = inr r1.
Proof.
  intros r1 HS Hplain HC Hcan HM HE. destruct HC as [Hkey Hrange [Hascii _]].
  assert (er_Sequence r1 = l_sequence l + 1) as Hseq by (cbn [r1 sign_record stamp er_Sequence]; apply u64_small; lia).
  rewrite Hseq in HE. unfold verify_line.
  assert (0 <= l_sequence l + 1 <= MaxUint64) as Hr by lia.
  destruct (open_seal _ _ _ _ _ _ _ _ _ HE eq_refl Hr (or_intror eq_refl)) as [-> _].
  unfold decodeEvidenceRecord. rewrite (ec_record_decode _ _ HM).
  destruct HS as [[Hid _] Htime Htext].
  rewrite (coerce_plain r1); [|by destruct Hplain; constructor|apply ascii_valid; first [done|apply hex_is_ascii|apply base64_is_ascii]..].
  unfold verifyEvidenceRecord. rewrite Hseq, Z.eqb_refl, Z.eqb_refl. cbn -[validateEvidenceText hex_DecodeString base64_DecodeString Z.eqb].
  rewrite (bool_decide_false _ Hid). unfold Time.IsZero. rewrite (proj2 (Z.eqb_neq _ _) Htime).
  rewrite bool_decide_true by done. cbn -[validateEvidenceText hex_DecodeString base64_DecodeString Z.eqb].
  change (validateEvidenceText r1) with (validateEvidenceText (stamp id now l r)). rewrite Htext.
  change (evidenceCanonical r1) with (evidenceCanonical (stamp id now l r)). rewrite Hcan.
  change (er_Hash r1) with (hex_EncodeToString (evidenceHash can)).
  rewrite hex_roundtrip. unfold evidenceHash at 1. rewrite sha256_len, bool_decide_true by done. cbn -[base64_DecodeString].
  change (er_Signature r1) with (base64_EncodeToString (ed_Sign (l_privateKey l) (evidenceHash can))).
  rewrite base64_roundtrip, ed_sign_len, Hkey, ed_verify_sign. done.
Qed.

(** A hash that decodes is hexadecimal text. *)
Lemma hex_value_ascii c n : hex_value c = Some n -> byte_val c < 128.
Proof.
  unfold hex_value, byte_val. intros H. repeat case_match; simplify_eq; bool_to_prop;
    rewrite ?N.leb_le in *; lia.
Qed.

Lemma hex_decode_shape fuel l b : (length l <= fuel)%nat -> hex_decode_list l = Some b ->
  forallb (fun c => byte_val c <? 128) l = true /\ length l = (2 * length b)%nat.
Proof.
  revert l b. induction fuel as [|fuel IH]; intros [|x [|y l]] b Hl; cbn in *; try (lia || done); try by intros [= <-].
  destruct (hex_value x) eqn:HX; [|done]. destruct (hex_value y) eqn:HY; [|done].
  destruct (hex_decode_list l) as [r|] eqn:HD; [|done]. intros [= <-].
  destruct (IH l r ltac:(lia) HD) as [-> HL]. cbn. rewrite HL.
  rewrite (proj2 (Z.ltb_lt _ _) (hex_value_ascii _ _ HX)), (proj2 (Z.ltb_lt _ _) (hex_value_ascii _ _ HY)).
  split; [done|lia].
Qed.

Lemma verified_hash pub c path n p line r : verify_line pub c path n p line = inr r ->
  is_ascii (er_Hash r) = true /\ slen (er_Hash r) = 64.
Proof.
  unfold verify_line. destruct (open_stored _ _ _ _ _) as [|line']; [done|].
  destruct (decodeEvidenceRecord line') as [|r0]; [done|].
  destruct (verifyEvidenceRecord _ _ _ _) eqn:HV; [done|]. intros [= <-]. revert HV. unfold verifyEvidenceRecord.
  destruct (_ || Time.IsZero _); [done|]. destruct (negb (bool_decide (er_PrevHash r0 = _))); [done|].
  destruct (validateEvidenceText r0); [done|]. destruct (evidenceCanonical r0) as [|can]; [done|].
  destruct (hex_DecodeString (er_Hash r0)) as [h|] eqn:HH; [|done].
  destruct (negb (slen h =? 32)) eqn:HL; [done|]. intros _. bool_to_prop. unfold hex_DecodeString in HH.
  destruct (hex_decode_list (bytes_of (er_Hash r0))) as [b|] eqn:HD; [|done]. injection HH as <-.
  destruct (hex_decode_shape _ _ _ (le_n _) HD) as [HA Hlen]. rewrite slen_of_bytes in HL.
  split; [unfold is_ascii; by rewrite string_forallb_bytes|]. unfold slen. rewrite <- length_bytes_of. lia.
Qed.

(** ** The checkpoint *)

(** The head file holds this checkpoint. *)
Definition checkpoint_at (path : string) (c : option StorageCipher) (seq : Z) (head : string) w : Prop :=
  exists i pt, w_fs w !! path = Some i /\ is_private i = true /\ slen (i_data i) <= 131072 /\
    open_stored c path "evidence-head" (i_data i) None = inr pt /\
    json_Decode pt = inr (mkCheckpoint evidenceRecordVersion seq head).

Lemma is_private_spec i : is_private i = true <-> i_kind i = Regular /\ Z.land (i_perm i) 63 = 0.
Proof. unfold is_private. rewrite andb_true_iff, bool_decide_eq_true, Z.eqb_eq. done. Qed.

Lemma checkpoint_same path c seq head ps w w' : same_but ps w w' -> path ∉ ps ->
  checkpoint_at path c seq head w -> checkpoint_at path c seq head w'.
Proof. intros HS Hp (i & pt & Hi & HR). exists i, pt. by rewrite (same_but_lookup _ _ _ _ HS Hp). Qed.

Lemma checkpoint_written path c seq head b w s w1 w2 : 0 <= seq <= MaxUint64 -> is_ascii head = true -> slen head <= 64 ->
  json_Marshal (mkCheckpoint evidenceRecordVersion seq head) = inr b ->
  seal_stored c path "evidence-head" seq b w = (inr s, w1) ->
  w_fs w2 !! path = Some (mkInode Regular 384 (s +:+ newline)) -> checkpoint_at path c seq head w2.
Proof.
  intros Hs Ha Hl HM HE Hi.
  assert (json_canonical (mkCheckpoint evidenceRecordVersion seq head)) as Hcan
    by (apply ec_checkpoint_ascii; cbn; unfold evidenceRecordVersion, MaxUint32; try done; lia).
  pose proof (json_size _ _ HM) as Hb. cbn in Hb.
  assert (slen s <= 65536) as Hlen.
  { destruct (sealed_marshal _ _ _ _ _ _ _ _ HE) as [[_ ->]|(env & HE' & _ & Hle)]; [lia|].
    pose proof (json_size _ _ HE'). lia. }
  destruct (open_seal _ _ _ _ _ _ _ _ _ HE eq_refl Hs (or_introl eq_refl)) as [_ HO].
  destruct HO as [HO|HO]; (eexists _, _; split_and!; [exact Hi|done|cbn; rewrite slen_app; unfold slen at 2; cbn; lia|exact HO|]).
  - by apply json_roundtrip.
  - destruct (json_newline _ _ HM) as [_ ->]. by apply json_roundtrip.
Qed.

Lemma writeCheckpoint_post path seq head c w e w' : 0 <= seq <= MaxUint64 -> is_ascii head = true -> slen head <= 64 ->
  writeEvidenceCheckpoint path seq head c w = (e, w') ->
  same_but [path; path +:+ ".tmp"] w w' /\
  (e = None -> checkpoint_at path c seq head w') /\
  (w_fs w' !! path = w_fs w !! path \/ checkpoint_at path c seq head w').
Proof.
  intros Hs Ha Hl. unfold writeEvidenceCheckpoint.
  destruct (json_Marshal _) as [e0|b] eqn:HM; [intros [= <- <-]; split_and!; [apply same_but_refl|done|by left]|].
  destruct (seal_stored _ _ _ _ _ _) as [[e0|s] w1] eqn:HE; apply seal_same in HE as HF.
  { intros [= <- <-]. split_and!; [by apply same_but_nil|done|left].
    by apply same_nil_fs. }
  intros HW. apply atomicWriteFile_post in HW as [Hfr Hat Hok].
  assert (w_fs w' !! path = Some (mkInode Regular 384 (s +:+ newline)) -> checkpoint_at path c seq head w') as HC
    by (intros; by eapply checkpoint_written).
  split_and!.
  - eapply same_but_trans; [|exact Hfr]. by apply same_but_nil.
  - intros ->. by apply HC, Hok.
  - destruct Hat as [->|?]; [left|by right; apply HC]. by apply same_nil_fs.
Qed.
End Records.

(** ** The ring buffer *)

Lemma mod_distinct i n k : (i < n)%nat -> (n < i + k)%nat -> (i mod k <> n mod k)%nat.
Proof.
  intros Hi Hn HE. pose proof (Nat.div_mod_eq i k). pose proof (Nat.div_mod_eq n k).
  assert (i / k <= n / k)%nat by (apply Nat.Div0.div_le_mono; lia).
  assert (k * (n / k) - k * (i / k) < k)%nat by lia.
  assert (n / k = i / k)%nat by nia. nia.
Qed.

(** Slot [i mod limit] holds record [i] for the last [limit] sealed records. *)
Definition ring_holds (limit m : nat) (all ring : list string) : Prop :=
  length ring = limit /\
  forall i, (i < m)%nat -> (m <= i + limit)%nat -> (ring !! (i mod limit)%nat) = all !! i.

Lemma fill_ring_holds limit sealed done_ rest ring : (1 <= limit)%nat ->
  ring_holds limit (Nat.min (length done_) sealed) (done_ ++ rest) ring ->
  ring_holds limit (Nat.min (length (done_ ++ rest)) sealed) (done_ ++ rest)
    (fill_ring limit sealed (length done_) rest ring).
Proof.
  intros Hl. revert done_ ring. induction rest as [|r rest IH]; intros done_ ring HR; cbn [fill_ring].
  { by rewrite app_nil_r in *. }
  specialize (IH (done_ ++ [r])). rewrite length_app, <- app_assoc, Nat.add_1_r in IH. cbn [app] in IH.
  apply IH. destruct HR as [HL HR]. destruct (Nat.ltb_spec (length done_) sealed).
  - split; [by rewrite length_insert|]. intros i Hi Hm.
    destruct (decide (i = length done_)) as [->|Hne].
    + rewrite list_lookup_insert_eq by (rewrite HL; apply Nat.mod_upper_bound; lia). by rewrite list_lookup_middle.
    + rewrite list_lookup_insert_ne by (apply not_eq_sym, mod_distinct; lia). apply HR; lia.
  - split; [done|]. intros i Hi Hm. apply HR; lia.
Qed.

Lemma ring_window_spec limit sealed records : (1 <= limit)%nat ->
  ring_window limit sealed records = keep_last limit (take sealed records).
Proof.
  intros Hl. unfold ring_window.
  destruct (fill_ring_holds limit sealed [] records (replicate limit "") Hl) as [_ HR];
    [split; [by rewrite length_replicate|]; cbn; lia|]. cbn [length app] in HR.
  set (ring := fill_ring _ _ _ _ _) in *. unfold keep_last. rewrite length_take.
  set (keep := Nat.min (Nat.min (length records) sealed) limit).
  apply list_eq. intros i. change (@map nat string) with (@fmap list _ nat string).
  rewrite list_lookup_fmap, lookup_drop.
  destruct (Nat.lt_ge_cases i keep) as [Hi|Hi].
  - rewrite (proj2 (lookup_seq 0 keep i i)) by lia. cbn [fmap option_fmap option_map].
    assert (((if (length records <? sealed) then length records - keep else sealed - keep) + i) =
      (Nat.min sealed (length records) - limit + i))%nat as ->.
    { destruct (Nat.ltb_spec (length records) sealed); unfold keep; lia. }
    rewrite lookup_take_lt by (unfold keep in Hi; lia).
    rewrite HR by (unfold keep in Hi; lia).
    destruct (lookup_lt_is_Some_2 records (Nat.min sealed (length records) - limit + i)) as [x ->];
      [unfold keep in Hi; lia|done].
  - rewrite (proj2 (lookup_ge_None (List.seq 0 keep) i)) by (rewrite length_seq; lia). cbn. symmetry.
    destruct (Nat.lt_ge_cases (Nat.min sealed (length records) - limit + i) sealed) as [Hs|Hs].
    + rewrite lookup_take_lt by done. apply lookup_ge_None. unfold keep in Hi. lia.
    + by apply lookup_take_ge.
Qed.

(** The ring buffer of the bounded start is exact. [evidenceLineWindow] keeps
    [limit] slots and overwrites the oldest; what it returns are the last
    [limit] of the first [sealed] records of the file, in their order, for
    every number of records before, at and beyond the wrap-around. *)
Theorem evidence_window_exact {X} path sealed limit (w : world X) n window w' : (1 <= limit)%nat ->
  evidenceLineWindow path (Some (sealed, limit)) w = (inr (n, window), w') ->
  exists i lines, w_fs w !! path = Some i /\ scan_data (i_data i) = (lines, None) /\
    n = Z.of_nat (length (records_of lines)) /\
    window = keep_last limit (take (Z.to_nat sealed) (records_of lines)).
Proof.
  intros Hl. unfold evidenceLineWindow.
  destruct (scan_file path w) as [[e|[lines [e|]]] w1] eqn:HS; [done|done|]. intros [= <- <- <-].
  destruct (scan_file_ok _ _ _ _ HS) as (i & Hi & HD). exists i, lines. rewrite ring_window_spec by done. done.
Qed.
