(* ===== verification/EvidenceAppend.v ===== *)
(** * Appending to the evidence ledger

    The ledger stays verifiable: [sealed] relates the ledger's memory, its file
    and its checkpoint; [Append] keeps it, [Verify] accepts it, and a start
    after an interrupted append repairs it. *)

From Stdlib Require Import ZArith Lia Ascii String.
From stdpp Require Import base gmap strings list.
From S2P Require Import Prelude.
From S2P Require Import GoLib.
From S2P Require Import Text.
From S2P Require Import World.
From S2P Require Import Storage.
From S2P Require Import Lines.
From S2P Require Import Evidence.
From S2P Require Import EvidenceFacts.

Section Calls.
Context {X : Type}.
Implicit Types (w : world X).

Lemma no_faults_same ps w w' : same_but ps w w' -> no_faults w -> no_faults w'.
Proof. intros (HO & _ & _) Hf n. rewrite HO. apply Hf. Qed.

Lemma os_Lstat_calm path w : no_faults w -> exists w', same_but [] w w' /\
  os_Lstat path w = (match w_fs w !! path with Some i => inr i | None => inl ErrNotExist end, w').
Proof.
  intros Hf. unfold os_Lstat, sys. rewrite Hf. exists (next_tick w). split; [by split_and!|]. cbn.
  by destruct (w_fs w !! path).
Qed.

Lemma os_Lstat_frame path w r w' : os_Lstat path w = (r, w') -> same_but [] w w'.
Proof. unfold os_Lstat, sys. intros H. split_branches; by split_and!. Qed.

Lemma os_Lstat_ok path w i w' : os_Lstat path w = (inr i, w') -> w_fs w !! path = Some i.
Proof. unfold os_Lstat, sys. intros H. by split_branches. Qed.

(** The private file [path] holds [d]; an empty file may be absent. *)
Definition file_text (path d : string) w : Prop :=
  (w_fs w !! path = None /\ d = "") \/ exists i, w_fs w !! path = Some i /\ is_private i = true /\ i_data i = d.

Lemma file_text_same path d ps w w' : same_but ps w w' -> path ∉ ps -> file_text path d w -> file_text path d w'.
Proof. intros HS Hp. unfold file_text. by rewrite (same_but_lookup _ _ _ _ HS Hp). Qed.

Lemma f_Write_part p d w e w' i : f_Write p d w = (e, w') -> w_fs w !! p = Some i ->
  exists k, w_fs w' !! p = Some (append_data (of_bytes (take k (bytes_of d))) i) /\
    (e = None -> take k (bytes_of d) = bytes_of d).
Proof.
  unfold f_Write, sys. intros HW Hi.
  destruct (ErrText <$> _); injection HW as <- <-; cbn; rewrite lookup_alter_eq, Hi; cbn.
  - eexists. split; [done|done].
  - exists (length (bytes_of d)). rewrite take_ge by done. by rewrite of_bytes_of.
Qed.

Lemma str_app_nil_r s : s +:+ "" = s.
Proof. apply bytes_of_inj. rewrite bytes_of_app. apply app_nil_r. Qed.

(** Whatever call fails, an append leaves the old text and a prefix of the new
    line. *)
Lemma append_line_post path line d w e w' : file_text path d w -> append_line path line w = (e, w') ->
  same_but [path] w w' /\
  exists k, file_text path (d +:+ of_bytes (take k (bytes_of (line +:+ newline)))) w' /\
    (e = None -> take k (bytes_of (line +:+ newline)) = bytes_of (line +:+ newline)).
Proof.
  intros HD. unfold append_line. destruct (os_OpenAppend path 384 w) as [eo w1] eqn:HO.
  apply os_OpenAppend_post in HO as (HF & Hok & Hbad).
  destruct eo as [eo|].
  { intros [= <- <-]. split; [done|]. exists 0%nat. cbn. rewrite str_app_nil_r. split; [|done].
    unfold file_text. by rewrite Hbad. }
  specialize (Hok eq_refl).
  destruct (match f_Write path _ w1 with (Some e, w) => (Some e, w) | (None, w) => f_Sync w end) as [err w3] eqn:HW.
  destruct (f_Close w3) as [cerr w4] eqn:HC. apply sys_post in HC.
  assert (same_but [path] w1 w3 /\ exists k, file_text path (d +:+ of_bytes (take k (bytes_of (line +:+ newline)))) w3 /\
    (err = None -> take k (bytes_of (line +:+ newline)) = bytes_of (line +:+ newline))) as (HF3 & k & HT & Hk).
  { destruct (f_Write path _ w1) as [ew w2] eqn:HW1.
    destruct (f_Write_part _ _ _ _ _ _ HW1 Hok) as (k & Hi & Hk). apply f_Write_post in HW1 as [HF2 _].
    assert (file_text path (d +:+ of_bytes (take k (bytes_of (line +:+ newline)))) w2) as HT.
    { right. eexists. split; [exact Hi|].
      destruct HD as [[Hn ->]|(i & Hs & Hp & <-)]; rewrite ?Hn, ?Hs; by unfold is_private in *. }
    destruct ew; [injection HW as <- <-; split; [done|]; exists k; by split|]. apply sys_post in HW.
    split; [eapply same_but_trans; [done|by apply same_but_nil]|]. exists k. split; [|by auto].
    eapply file_text_same; [exact HW|apply not_elem_of_nil|done]. }
  assert (same_but [path] w w4) as HF4
    by (eapply same_but_trans; [exact HF|eapply same_but_trans; [exact HF3|by apply same_but_nil]]).
  assert (file_text path (d +:+ of_bytes (take k (bytes_of (line +:+ newline)))) w4) as HT4
    by (eapply file_text_same; [exact HC|apply not_elem_of_nil|done]).
  destruct err; intros [= <- <-]; (split; [done|]; exists k; split; [done|by auto]).
Qed.
End Calls.

(** ** The invariant *)

Section Ledger.
Context {X : Type} `{C : Crypto} `{E : Ed25519} `{JE : JSONDoc encryptedStorageEnvelope} `{EP : !EnvelopeProbe}
  `{JR : JSONDoc EvidenceRecord} `{JY : JSONDoc evidencePayload} `{JC : JSONDoc evidenceCheckpoint}
  `{JW : JSONDoc evidenceWatermark}.
Context `{CL : !CryptoLaws C} `{EL : !Ed25519Laws E} `{EC : !EvidenceCodecs}.
Implicit Types (w : world X) (l : EvidenceLedger).

Definition max_ledger : Z := 4611686018427387904.

(** The three files of a ledger are different files. *)
Definition separate l : Prop :=
  l_path l <> l_headPath l /\ l_path l <> l_headPath l +:+ ".tmp".

(** Nothing appended since the chain was started. *)
Definition unsealed l w : Prop := l_sequence l = 0 /\ l_headHash l = "" /\ w_fs w !! l_headPath l = None.

(** The file holds exactly [lines], which verify from the first record on as
    the records [rs]; memory and checkpoint name their number and head. *)
Record sealed l w (lines : list string) (rs : list EvidenceRecord) : Prop := {
  se_chained : chained l;
  se_separate : separate l;
  se_file : file_text (l_path l) (lines_text lines) w;
  se_absent : w_fs w !! l_path l = None -> w_fs w !! l_headPath l = None;
  se_lines : Forall one_line lines;
  se_braced : Forall braced lines;
  se_verify : verify_window (l_publicKey l) (l_crypto l) (l_path l) 1 (Some "") lines = inr rs;
  se_count : Z.of_nat (length lines) = l_sequence l;
  se_head : head_of "" rs = l_headHash l;
  se_size : slen (lines_text lines) = l_expectedSize l;
  se_budget : l_expectedSize l <= effectiveMaxBytesLocked l <= max_ledger;
  se_checkpoint : unsealed l w \/ checkpoint_at (l_headPath l) (l_crypto l) (l_sequence l) (l_headHash l) w;
}.

(** What an append that failed leaves: the old files, a torn or unsealed line,
    or a record sealed without the caller learning of it. *)
Inductive left_behind l w (lines : list string) w' : Prop :=
| lb_untouched :
    file_text (l_path l) (lines_text lines) w' -> w_fs w' !! l_headPath l = w_fs w !! l_headPath l ->
    left_behind l w lines w'
| lb_torn s k :
    one_line s -> braced s -> slen (lines_text lines) + slen s + 1 <= effectiveMaxBytesLocked l ->
    file_text (l_path l) (lines_text lines +:+ of_bytes (take k (bytes_of (s +:+ newline)))) w' ->
    w_fs w' !! l_headPath l = w_fs w !! l_headPath l -> left_behind l w lines w'
| lb_unacknowledged s r :
    one_line s -> braced s -> slen (lines_text lines) + slen s + 1 <= effectiveMaxBytesLocked l ->
    verify_line (l_publicKey l) (l_crypto l) (l_path l) (l_sequence l + 1) (Some (l_headHash l)) s = inr r ->
    file_text (l_path l) (lines_text (lines ++ [s])) w' ->
    checkpoint_at (l_headPath l) (l_crypto l) (l_sequence l + 1) (er_Hash r) w' -> left_behind l w lines w'.

Lemma verify_window_snoc pub c path lines rs s r : verify_window pub c path 1 (Some "") lines = inr rs ->
  verify_line pub c path (1 + Z.of_nat (length lines)) (Some (head_of "" rs)) s = inr r ->
  verify_window pub c path 1 (Some "") (lines ++ [s]) = inr (rs ++ [r]).
Proof. intros HV HL. rewrite (verify_window_app _ _ _ _ _ _ _ _ HV). cbn [verify_window]. by rewrite HL. Qed.

Lemma slen_nonneg s : 0 <= slen s.
Proof. unfold slen. lia. Qed.

Lemma commit_post id now l r w lines rs res l' w' : sealed l w lines rs -> storable id now l r ->
  plain_text (stamp id now l r) -> commit_record (stamp id now l r) l w = (res, l', w') ->
  match res with
  | inl _ => left_behind l w lines w'
  | inr r1 => exists s, sealed l' w' (lines ++ [s]) (rs ++ [r1])
  end.
Proof.
  intros HS Hr Hpl. pose proof HS as [Hch [Hp1 Hp2] Hfile Habs Hlines Hbr Hver Hcount Hhead Hsize Hbud Hcp].
  unfold commit_record.
  destruct (evidenceCanonical _) as [e|can] eqn:Hcan; [intros [= <- <- <-]; by constructor|].
  set (r1 := sign_record _ _ _).
  destruct (json_Marshal r1) as [e|b] eqn:HM; [intros [= <- <- <-]; by constructor|].
  destruct (seal_stored _ _ _ _ _ _) as [[e|s] w1] eqn:HE; apply seal_same in HE as HF1.
  { intros [= <- <- <-]. constructor; [eapply file_text_same; [exact HF1|apply not_elem_of_nil|done]|by apply same_nil_fs]. }
  assert (Hlen : slen (evidenceHash can) = 32) by apply sha256_len.
  destruct (stored_line _ _ _ _ _ _ _ _ HM (signed_text _ _ _ _ _ Hr Hch Hlen) HE) as (Hone & Hb & Hs).
  pose proof (stored_verifies _ _ _ _ _ _ _ _ _ Hr Hpl Hch Hcan HM HE) as Hv. fold r1 in Hv.
  assert (file_text (l_path l) (lines_text lines) w1) as Hf1
    by (eapply file_text_same; [exact HF1|apply not_elem_of_nil|done]).
  destruct (_ <? _) eqn:Hroom.
  { intros [= <- <- <-]. constructor; [done|by apply same_nil_fs]. }
  apply Z.ltb_ge in Hroom. pose proof (slen_nonneg s). pose proof (slen_nonneg (lines_text lines)).
  assert (i64 (l_expectedSize l + slen s + 1) = l_expectedSize l + slen s + 1) as Hi.
  { apply i64_small. unfold MinInt64, MaxInt64, max_ledger in *. lia. }
  rewrite Hi in *. assert (slen (lines_text lines) + slen s + 1 <= effectiveMaxBytesLocked l) as Hfit by lia.
  cbn [set_exhausted l_path l_headPath l_crypto].
  destruct (append_line (l_path l) s w1) as [ea w2] eqn:HA.
  destruct (append_line_post _ _ _ _ _ _ Hf1 HA) as (HF2 & k & Hf2 & Hk).
  assert (w_fs w2 !! l_headPath l = w_fs w !! l_headPath l) as Hh2.
  { rewrite (same_but_lookup _ _ _ _ HF2) by set_solver. by apply same_nil_fs. }
  destruct ea as [ea|]; [intros [= <- <- <-]; by eapply lb_torn|].
  specialize (Hk eq_refl). rewrite Hk, of_bytes_of, <- lines_text_snoc in Hf2.
  destruct (verified_hash _ _ _ _ _ _ _ Hv) as [Hasc Hl64].
  assert (er_Sequence r1 = l_sequence l + 1) as Hseq
    by (destruct Hch as [_ ? _]; cbn [r1 sign_record stamp er_Sequence]; apply u64_small; lia).
  assert (0 <= l_sequence l + 1 <= MaxUint64) as Hrange by (destruct Hch as [_ ? _]; lia).
  rewrite Hseq.
  destruct (writeEvidenceCheckpoint _ _ _ _ _) as [ec w3] eqn:HC.
  destruct (writeCheckpoint_post _ _ _ _ _ _ _ Hrange Hasc ltac:(lia) HC) as (HF3 & Hok & Hat).
  assert (file_text (l_path l) (lines_text (lines ++ [s])) w3) as Hf3
    by (eapply file_text_same; [exact HF3|set_solver|done]).
  destruct ec as [ec|].
  { intros [= <- <- <-]. destruct Hat as [Hat|Hat]; [|by eapply lb_unacknowledged].
    eapply (lb_torn _ _ _ _ s (length (bytes_of (s +:+ newline)))); [done..| |congruence].
    rewrite take_ge, of_bytes_of, <- lines_text_snoc by done. done. }
  intros [= <- <- <-]. exists s. rewrite lines_text_snoc in Hf3.
  assert (slen (lines_text (lines ++ [s])) = l_expectedSize l + slen s + 1) as Hnext
    by (rewrite lines_text_snoc, !slen_app, Hsize; change (slen newline) with 1; lia).
  pose proof (lines_text_len (lines ++ [s])) as HLL. rewrite length_app in HLL. cbn in HLL.
  destruct Hch as [Hkey _ _]. constructor; cbn [set_chain set_exhausted l_path l_headPath l_crypto l_publicKey
    l_sequence l_headHash l_expectedSize].
  - constructor; cbn [set_chain set_exhausted l_publicKey l_privateKey l_sequence l_headHash]; [done|unfold max_ledger, MaxUint64 in *; lia|split; [done|rewrite hex_encode_length; lia]].
  - done.
  - by rewrite lines_text_snoc.
  - intros Hn. destruct Hf3 as [[_ Hemp]|(i & Hsome & _)]; [|congruence].
    apply (f_equal slen) in Hemp. rewrite !slen_app in Hemp. change (slen newline) with 1 in Hemp. change (slen "") with 0 in Hemp. lia.
  - apply Forall_app. by split; [|constructor].
  - apply Forall_app. by split; [|constructor].
  - eapply verify_window_snoc; [done|]. rewrite Hhead, Hcount, Z.add_comm. done.
  - rewrite length_app. cbn. lia.
  - rewrite head_of_app. done.
  - done.
  - unfold effectiveMaxBytesLocked in *. cbn in *. lia.
  - right. by apply Hok.
Qed.
(** ** [Append] *)

Definition clock_set w : Prop := forall n, o_now (w_oracle w) n <> 0.

Record request (r : EvidenceRecord) : Prop := {
  rq_plain : plain_text r;
  rq_id : slen (er_ID r) <= id_limit;
}.

Lemma fill_identity_post r l w id now w' : slen (er_ID r) <= id_limit -> clock_set w ->
  fill_identity r w = (Some (id, now), w') ->
  same_but [] w w' /\ (validateEvidenceText (stamp id now l r) = None -> storable id now l r) /\
  (plain_text r -> plain_text (stamp id now l r)).
Proof.
  intros Hid Hc. unfold fill_identity.
  destruct (if bool_decide _ then _ else _) as [oid w1] eqn:HI.
  destruct oid as [id1|]; [|done]. destruct (if Time.IsZero _ then _ else _) as [t w2] eqn:HT. intros [= <- <- <-].
  assert (same_but [] w w1 /\ id1 <> "" /\ slen id1 <= id_limit /\ (plain_text r -> utf8_ValidString id1 = true)) as (HF1 & Hne & Hl & Hu).
  { case_bool_decide as Hd.
    - unfold randomID in HI. destruct (rand_Read 8 w) as [[|b] wr] eqn:HR; [done|]. injection HI as <- <-.
      unfold rand_Read, sys in HR. destruct (ErrText <$> _); [done|]. injection HR as <- <-.
      split_and!; [by split_and!| | |intros _; apply ascii_valid, hex_is_ascii].
      + intros HE. apply (f_equal slen) in HE. by rewrite hex_encode_length, slen_fit in HE.
      + rewrite hex_encode_length, slen_fit. done.
    - injection HI as <- <-. split_and!; [apply same_but_refl|done|done|by intros []]. }
  assert (same_but [] w1 w2 /\ t <> 0) as [HF2 Ht].
  { unfold Time.IsZero in HT. destruct (Z.eqb_spec (er_Time r) 0).
    - unfold time_Now in HT. injection HT as <- <-. split; [by split_and!|]. destruct HF1 as (-> & _ & _). apply Hc.
    - injection HT as <- <-. split; [apply same_but_refl|done]. }
  split_and!; [by eapply same_but_trans|by intros HV; split|]. intros Hp. specialize (Hu Hp). destruct Hp. by constructor.
Qed.

Lemma verifyCheckpoint_frame path seq head c w e w' :
  verifyEvidenceCheckpoint path seq head c w = (e, w') -> same_but [] w w'.
Proof.
  unfold verifyEvidenceCheckpoint. pose proof (readBounded_frame path 131072 w) as HF.
  destruct (readBoundedPrivateFile _ _ _) as [[e0|d] w1]; cbn in HF; intros HV; split_branches; done.
Qed.

Lemma verifyUnchanged_frame l w e w' : verifyUnchangedLocked l w = (e, w') -> same_but [] w w'.
Proof.
  unfold verifyUnchangedLocked. destruct (rejectSymlink _ _) as [[e0|] w1] eqn:HR;
    apply rejectSymlink_post in HR as [HF1 _]; [by intros [= <- <-]|].
  destruct (verifyEvidenceCheckpoint _ _ _ _ _) as [[e0|] w2] eqn:HC; apply verifyCheckpoint_frame in HC as HF2.
  { intros [= <- <-]. by eapply same_but_trans. }
  destruct (os_Lstat _ _) as [res w3] eqn:HL. apply os_Lstat_frame in HL.
  intros HV. assert (w' = w3) as -> by (split_branches; done).
  eapply same_but_trans; [exact HF1|]. by eapply same_but_trans.
Qed.

Lemma sealed_same l w w' lines rs : same_but [] w w' -> sealed l w lines rs -> sealed l w' lines rs.
Proof.
  intros HF []. constructor; try done.
  - eapply file_text_same; [exact HF|apply not_elem_of_nil|done].
  - by rewrite !(same_nil_fs _ _ _ HF).
  - destruct se_checkpoint0 as [(? & ? & ?)|?]; [left; split_and!; [done..|by rewrite (same_nil_fs _ _ _ HF)]|right].
    eapply checkpoint_same; [exact HF|apply not_elem_of_nil|done].
Qed.

Lemma left_behind_same l w w1 w' lines : same_but [] w w1 -> left_behind l w1 lines w' -> left_behind l w lines w'.
Proof.
  intros HF HL. destruct HL as [? Hh|? ? ? ? ? ? Hh|]; [apply lb_untouched|eapply lb_torn|eapply lb_unacknowledged];
    try done; by rewrite Hh, (same_nil_fs _ _ _ HF).
Qed.

Lemma Append_post r l w lines rs res l' w' : sealed l w lines rs -> request r -> clock_set w ->
  Append r l w = (Returns (res, l'), w') ->
  match res with
  | inl _ => left_behind l w lines w'
  | inr r1 => exists s, sealed l' w' (lines ++ [s]) (rs ++ [r1])
  end.
Proof.
  intros HS Hr Hc. unfold Append.
  assert (forall w1, same_but [] w w1 -> left_behind l w lines w1) as Hstay.
  { intros w1 HF. eapply sealed_same in HF as HS1; [|done]. apply lb_untouched; [apply HS1|by apply same_nil_fs]. }
  destruct (l_integrityErr l); [intros [= <- <- <-]; apply Hstay, same_but_refl|].
  destruct (fill_identity r w) as [[[id now]|] w1] eqn:HI; [|done].
  destruct (fill_identity_post _ l _ _ _ _ (rq_id _ Hr) Hc HI) as (HF1 & Hst & Hpl).
  destruct (validateEvidenceText _) eqn:HV; [intros [= <- <- <-]; by apply Hstay|]. specialize (Hst eq_refl).
  destruct (verifyUnchangedLocked l w1) as [[e|] w2] eqn:HU; apply verifyUnchanged_frame in HU.
  { intros [= <- <- <-]. apply Hstay. by eapply same_but_trans. }
  assert (same_but [] w w2) as HF2 by (by eapply same_but_trans).
  destruct (commit_record _ l w2) as [[res' l2] w3] eqn:HC. intros [= <- <- <-].
  pose proof (commit_post _ _ _ _ _ _ _ _ _ _ (sealed_same _ _ _ _ _ HF2 HS) Hst (Hpl (rq_plain _ Hr)) HC) as HP.
  destruct res'; [|done]. by eapply left_behind_same.
Qed.
(** ** Verification accepts a sealed ledger *)

Lemma readCheckpoint_calm path c seq head w : no_faults w -> checkpoint_at path c seq head w ->
  exists w', same_but [] w w' /\
    readEvidenceCheckpoint path c w = (inr (mkCheckpoint evidenceRecordVersion seq head), w').
Proof.
  intros Hf (i & pt & Hi & Hp & Hl & HO & HD). apply is_private_spec in Hp as [Hk Hperm].
  destruct (readBounded_calm path 131072 w i Hf Hi Hk Hperm Hl) as [w' HR].
  pose proof (readBounded_frame path 131072 w) as HF. rewrite HR in HF. exists w'. split; [done|].
  unfold readEvidenceCheckpoint. by rewrite HR, HO, HD.
Qed.

Lemma verifyCheckpoint_calm path c seq head w : no_faults w -> checkpoint_at path c seq head w ->
  exists w', same_but [] w w' /\ verifyEvidenceCheckpoint path seq head c w = (None, w').
Proof.
  intros Hf (i & pt & Hi & Hp & Hl & HO & HD). apply is_private_spec in Hp as [Hk Hperm].
  destruct (readBounded_calm path 131072 w i Hf Hi Hk Hperm Hl) as [w' HR].
  pose proof (readBounded_frame path 131072 w) as HF. rewrite HR in HF. exists w'. split; [done|].
  unfold verifyEvidenceCheckpoint. rewrite HR, HO, HD. cbn. by rewrite Z.eqb_refl, bool_decide_true.
Qed.

Lemma scan_text_calm path w i ls : no_faults w -> w_fs w !! path = Some i -> scan_data (i_data i) = (ls, None) ->
  exists w', same_but [] w w' /\ scan_file path w = (inr (ls, None), w').
Proof.
  intros Hf Hi HD. destruct (scan_file_calm path w i Hf Hi) as [w' HS]. rewrite HD in HS. exists w'.
  split; [by eapply scan_file_frame|done].
Qed.

(** The walk over a whole file from its first record. *)
Lemma chain_calm pub c path maxBytes lines rs w i : no_faults w -> w_fs w !! path = Some i -> is_private i = true ->
  i_data i = lines_text lines -> slen (lines_text lines) <= maxBytes -> Forall one_line lines ->
  verify_window pub c path 1 (Some "") lines = inr rs ->
  exists recent w', same_but [] w w' /\
    verifyEvidenceChain path pub c maxBytes (mkBounds 1 0 "") w =
      ((head_of "" rs, Z.of_nat (length lines), recent, slen (lines_text lines), None), w').
Proof.
  intros Hf Hi Hp Hd Hm HL HV. unfold verifyEvidenceChain.
  destruct (os_Lstat_calm path w Hf) as (w1 & HF1 & ->). rewrite Hi, Hp, Hd. cbn [negb].
  rewrite (proj2 (Z.ltb_ge _ _) Hm).
  destruct (scan_text_calm path w1 i lines) as (w2 & HF2 & ->);
    [by eapply no_faults_same|by rewrite (same_nil_fs _ _ _ HF1)|by rewrite Hd, scan_lines_text|].
  pose proof (walk_verify pub c path (mkBounds 1 0 "") lines 0 "" "" []) as HW.
  specialize (HW ltac:(cbn; lia) ltac:(cbn; lia) ltac:(by left)).
  change (in_range (mkBounds 1 0 "") 0 lines) with lines in HW. change (0 + 1) with 1 in HW. rewrite HV in HW.
  cbn [b_PrevHash]. destruct HW as (rec & flag & -> & _). cbn [ws_sequence ws_last ws_recent b_From b_PrevHash].
  rewrite (proj2 (Z.ltb_ge _ _)) by lia. rewrite (verify_window_length _ _ _ _ _ _ _ HV).
  exists rec, w2. split; [by eapply same_but_trans|]. destruct flag; (case_bool_decide as Hh; [rewrite Hh|]; done).
Qed.

Lemma sealed_accepted l w lines rs : sealed l w lines rs -> no_faults w ->
  exists recent w', same_but [] w w' /\
    verifyEvidenceFiles (l_path l) (l_headPath l) (l_publicKey l) (l_crypto l) (effectiveMaxBytesLocked l) w =
      ((l_headHash l, l_sequence l, recent, l_expectedSize l, None), w').
Proof.
  intros HS Hf. pose proof HS as [_ _ Hfile Habs HL _ HV Hcount Hhead Hsize Hbud Hcp]. unfold verifyEvidenceFiles.
  destruct (os_Lstat_calm (l_path l) w Hf) as (w1 & HF1 & ->).
  destruct Hfile as [[Hn Hlt]|(i & Hi & Hp & Hd)].
  - rewrite Hn. cbn [is_not_exist]. destruct (os_Lstat_calm (l_headPath l) w1) as (w2 & HF2 & ->); [by eapply no_faults_same|].
    rewrite (same_nil_fs _ _ _ HF1), Habs by done. cbn [is_not_exist]. exists [], w2. split; [by eapply same_but_trans|].
    destruct lines as [|s lines]; [|pose proof (lines_text_len (s :: lines)) as HLL; rewrite Hlt in HLL; change (slen "") with 0 in HLL; cbn [length] in HLL; lia].
    cbn in HV. injection HV as <-. by rewrite <- Hcount, <- Hhead, <- Hsize.
  - rewrite Hi. assert (no_faults w1) as Hf1 by (by eapply no_faults_same).
    destruct (chain_calm (l_publicKey l) (l_crypto l) (l_path l) (effectiveMaxBytesLocked l) lines rs w1 i)
      as (recent & w2 & HF2 & ->); try done; [by rewrite (same_nil_fs _ _ _ HF1)|lia|].
    assert (same_but [] w w2) as HF by (by eapply same_but_trans). rewrite Hcount, Hhead, Hsize.
    assert (no_faults w2) as Hf2 by (by eapply no_faults_same).
    destruct (sealed_same _ _ _ _ _ HF HS) as [_ _ _ _ _ _ _ _ _ _ _ [(H0 & Hh & Hno)|Hcp2]].
    + exists recent. unfold verifyEvidenceCheckpoint, readBoundedPrivateFile.
      destruct (os_Lstat_calm (l_headPath l) w2 Hf2) as (w3 & HF3 & ->). rewrite Hno. cbn.
      rewrite H0, Hh. cbn. exists w3. split; [by eapply same_but_trans|done].
    + destruct (verifyCheckpoint_calm _ _ _ _ _ Hf2 Hcp2) as (w3 & HF3 & ->).
      exists recent, w3. split; [by eapply same_but_trans|done].
Qed.

(** C7: the ledger stays verifiable. When the clock is set and the text of the
    request is valid UTF-8 with an identifier of at most [id_limit] bytes
    (which [Append] does not check itself), a record that [Append] accepts is
    chained, signed, stored and sealed: the file, the checkpoint and the
    ledger's memory again describe one chain, extended by exactly that record,
    and the complete verification walk accepts it with the new head and count. *)
Theorem append_keeps_sealed r l w lines rs r1 l' w' : sealed l w lines rs -> request r -> clock_set w ->
  Append r l w = (Returns (inr r1, l'), w') ->
  (exists s, sealed l' w' (lines ++ [s]) (rs ++ [r1])) /\
  l_sequence l' = l_sequence l + 1 /\ l_headHash l' = er_Hash r1 /\
  (no_faults w' -> exists recent w2,
     verifyEvidenceFiles (l_path l') (l_headPath l') (l_publicKey l') (l_crypto l') (effectiveMaxBytesLocked l') w' =
       ((er_Hash r1, l_sequence l + 1, recent, l_expectedSize l', None), w2)).
Proof.
  intros HS Hr Hc HA. destruct (Append_post _ _ _ _ _ _ _ _ HS Hr Hc HA) as [s HS'].
  assert (l_sequence l' = l_sequence l + 1) as Hseq.
  { rewrite <- (se_count _ _ _ _ HS), <- (se_count _ _ _ _ HS'), length_app. cbn. lia. }
  assert (l_headHash l' = er_Hash r1) as Hh by (by rewrite <- (se_head _ _ _ _ HS'), head_of_app).
  split_and!; [by exists s|done|done|]. intros Hf.
  destruct (sealed_accepted _ _ _ _ HS' Hf) as (recent & w2 & _ & HV). rewrite Hseq, Hh in HV. eauto.
Qed.
(** The steps of an append that succeeds, for any content of the file. *)
Lemma commit_success id now l r w r1 l' w' : chained l -> storable id now l r ->
  commit_record (stamp id now l r) l w = (inr r1, l', w') ->
  exists b s w1 w2, json_Marshal r1 = inr b /\
    seal_stored (l_crypto l) (l_path l) "evidence-record" (l_sequence l + 1) b w = (inr s, w1) /\
    append_line (l_path l) s w1 = (None, w2) /\
    same_but [l_headPath l; l_headPath l +:+ ".tmp"] w2 w' /\
    one_line s /\ braced s /\ slen s <= 1048576 /\
    i64 (l_expectedSize l + slen s + 1) <= effectiveMaxBytesLocked l /\
    checkpoint_at (l_headPath l) (l_crypto l) (l_sequence l + 1) (er_Hash r1) w'.
Proof.
  intros Hch Hr. unfold commit_record.
  destruct (evidenceCanonical _) as [e|can] eqn:Hcan; [done|]. set (r2 := sign_record _ _ _).
  destruct (json_Marshal r2) as [e|b] eqn:HM; [done|].
  destruct (seal_stored _ _ _ _ _ _) as [[e|s] w1] eqn:HE; [done|].
  assert (Hlen : slen (evidenceHash can) = 32) by apply sha256_len.
  destruct (stored_line _ _ _ _ _ _ _ _ HM (signed_text _ _ _ _ _ Hr Hch Hlen) HE) as (Hone & Hb & Hs).
  destruct (_ <? _) eqn:Hroom; [done|]. apply Z.ltb_ge in Hroom. cbn [set_exhausted l_path l_headPath l_crypto].
  destruct (append_line (l_path l) s w1) as [[ea|] w2] eqn:HA; [done|].
  destruct (writeEvidenceCheckpoint _ _ _ _ _) as [[ec|] w3] eqn:HC; [done|]. intros [= <- <- <-].
  destruct Hch as [_ Hrg _].
  assert (er_Sequence r2 = l_sequence l + 1) as Hseq by (cbn [r2 sign_record stamp er_Sequence]; apply u64_small; lia).
  rewrite Hseq in HC, HE. assert (0 <= l_sequence l + 1 <= MaxUint64) as Hrange by lia.
  assert (is_ascii (er_Hash r2) = true) as Hasc by apply hex_is_ascii.
  assert (slen (er_Hash r2) <= 64) as Hle by (cbn [r2 sign_record er_Hash]; rewrite hex_encode_length; lia).
  destruct (writeCheckpoint_post _ _ _ _ _ _ _ Hrange Hasc Hle HC) as (HF3 & Hok & _).
  exists b, s, w1, w2. split_and!; try done. by apply Hok.
Qed.
End Ledger.
