(* ===== verification/EvidenceRecovery.v ===== *)
(** * Starting the evidence ledger after an interrupted append

    [verifyEvidenceFilesBounded] counts the records, recovers one unsealed
    record and verifies a bounded tail. *)

From Stdlib Require Import ZArith Lia Ascii String.
From stdpp Require Import base gmap strings list.
From S2P Require Import Prelude.
From S2P Require Import GoLib.
From S2P Require Import Text.
From S2P Require Import World.
From S2P Require Import Storage.
From S2P Require Import Lines.
From S2P Require Import Evidence.
From S2P Require Import EvidenceFacts.
From S2P Require Import EvidenceAppend.

Lemma records_of_braced lines : Forall braced lines -> records_of lines = lines.
Proof.
  induction 1 as [|s lines Hs _ IH]; [done|]. cbn. rewrite (braced_not_blank _ Hs). cbn. by f_equal.
Qed.

Lemma drop_last_nonempty {A} n (l : list A) : (n < length l)%nat -> last (drop n l) = last l.
Proof.
  intros Hn. rewrite <- (take_drop n l) at 2. symmetry. apply last_suffix.
  intros HE. apply (f_equal length) in HE. rewrite length_drop in HE. cbn in HE. lia.
Qed.

Section Recovery.
Context {X : Type} `{C : Crypto} `{E : Ed25519} `{JE : JSONDoc encryptedStorageEnvelope} `{EP : !EnvelopeProbe}
  `{JR : JSONDoc EvidenceRecord} `{JY : JSONDoc evidencePayload} `{JC : JSONDoc evidenceCheckpoint}
  `{JW : JSONDoc evidenceWatermark}.
Context `{CL : !CryptoLaws C} `{EL : !Ed25519Laws E} `{EC : !EvidenceCodecs}.
Implicit Types (w : world X) (l : EvidenceLedger).

(** The file [path] reads back as the lines [lines]. *)
Definition reads_as (path : string) (lines : list string) w : Prop :=
  exists i, w_fs w !! path = Some i /\ is_private i = true /\ scan_data (i_data i) = (lines, None).

Lemma reads_as_same path lines ps w w' : same_but ps w w' -> path ∉ ps -> reads_as path lines w -> reads_as path lines w'.
Proof. intros HF Hp. unfold reads_as. by rewrite (same_but_lookup _ _ _ _ HF Hp). Qed.

Lemma window_calm path lines window w : no_faults w -> reads_as path lines w -> Forall braced lines ->
  exists w', same_but [] w w' /\ evidenceLineWindow path window w =
    (inr (Z.of_nat (length lines),
       match window with None => [] | Some (sealed, limit) => ring_window limit (Z.to_nat sealed) lines end), w').
Proof.
  intros Hf (i & Hi & _ & HD) HB. destruct (scan_text_calm _ _ _ _ Hf Hi HD) as (w' & HF & HS).
  exists w'. split; [done|]. unfold evidenceLineWindow. by rewrite HS, records_of_braced.
Qed.

(** A file whose lines verify up to the checkpoint is accepted. *)
Lemma verify_tail_calm pub c path lines rs size limit w : no_faults w -> reads_as path lines w -> Forall braced lines ->
  verify_window pub c path 1 (Some "") lines = inr rs -> (1 <= limit)%nat -> (1 <= length lines)%nat ->
  Z.of_nat (length lines) <= max_ledger ->
  exists recent scope w', same_but [] w w' /\
    verify_tail path pub c (mkCheckpoint evidenceRecordVersion (Z.of_nat (length lines)) (head_of "" rs))
      (Z.of_nat (length lines)) size limit w =
    ((head_of "" rs, Z.of_nat (length lines), recent, size, None, scope), w').
Proof.
  intros Hf HR HB HV Hl H1 Hmax. unfold verify_tail. cbn [cp_Sequence cp_HeadHash]. rewrite Z.eqb_refl. cbn [negb].
  destruct (window_calm path lines (Some (Z.of_nat (length lines), limit)) w Hf HR HB) as (w1 & HF & ->).
  rewrite Nat2Z.id, ring_window_spec, take_ge by done.
  set (k := (length lines - limit)%nat). assert (keep_last limit lines = drop k lines) as -> by done.
  rewrite length_drop.
  assert (u64 (Z.of_nat (length lines) - Z.of_nat (length lines - k) + 1) = 1 + Z.of_nat k) as ->.
  { rewrite u64_small; unfold k, MaxUint64, max_ledger in *; lia. }
  rewrite <- (take_drop k lines) in HV. apply verify_window_suffix in HV as HW.
  assert (length (take k lines) = k) as Hk by (rewrite length_take; lia). rewrite Hk in HW. rewrite HW.
  rewrite take_drop in HV. pose proof (verify_window_length _ _ _ _ _ _ _ HV) as HLen.
  rewrite drop_last_nonempty by lia. fold (head_of "" rs).
  rewrite bool_decide_true by done. cbn [negb]. eauto.
Qed.

Lemma Encrypt_calm c path purpose seq pt w : no_faults w -> purpose <> "" -> slen purpose <= 96 ->
  exists b w', same_but [] w w' /\ Encrypt (Some c) path purpose seq pt w = (inr b, w').
Proof.
  intros Hf Hp Hl. unfold Encrypt, purposeKey. rewrite decide_False by done.
  rewrite (proj2 (Z.ltb_ge _ _) Hl). unfold aes_NewCipher. rewrite hmac_len. cbn [Z.eqb orb Pos.eqb].
  unfold rand_Read, sys. rewrite Hf. cbn.
  destruct (ec_envelope_total (mkEnvelope encryptedStorageSchema "AES-256-GCM" purpose seq
    (hex_EncodeToString (sha256_Sum (storageAAD (nodeName c) purpose path seq)))
    (base64_EncodeToString (fit 12 (o_rand (w_oracle w) (w_tick w))))
    (base64_EncodeToString (gcm_Seal (hmac_sha256 (rootKey c) ("VGT-GEDEFENSE-AES256GCM-KEY-V1" +:+ nul +:+ nodeName c
       +:+ nul +:+ purpose)) (fit 12 (o_rand (w_oracle w) (w_tick w))) pt (storageAAD (nodeName c) purpose path seq))))) as [b HM].
  exists b, (next_tick w). split; [by split_and!|]. by rewrite <- HM.
Qed.

Lemma seal_calm c path purpose seq pt w : no_faults w -> purpose <> "" -> slen purpose <= 96 ->
  exists b w', same_but [] w w' /\ seal_stored c path purpose seq pt w = (inr b, w').
Proof.
  intros Hf Hp Hl. destruct c as [c|]; cbn -[Encrypt]; [by apply Encrypt_calm|]. exists pt, w. split; [apply same_but_refl|done].
Qed.

Lemma writeCheckpoint_calm path seq head c w : no_faults w ->
  (forall i, w_fs w !! path = Some i -> i_kind i <> Symlink) ->
  exists w', writeEvidenceCheckpoint path seq head c w = (None, w').
Proof.
  intros Hf Hk. unfold writeEvidenceCheckpoint.
  destruct (ec_checkpoint_total (mkCheckpoint evidenceRecordVersion seq head)) as [b ->].
  destruct (seal_calm c path "evidence-head" seq b w Hf) as (s & w1 & HF & ->); [done|done|].
  destruct (atomicWriteFile_calm path (s +:+ newline) 384 w1) as (w2 & -> & _); [by eapply no_faults_same| |by eauto].
  intros i. rewrite (same_nil_fs _ _ _ HF). apply Hk.
Qed.
(** ** Dropping an unsealed line *)

(** [os.CreateTemp] picks a name that is not in use. *)
Definition staging_name (path : string) (o : Oracle) (n : nat) : string :=
  Dir path +:+ "/" +:+ ".evidence-truncate-" +:+ hex_EncodeToString (fit 4 (o_rand o n)).
Definition staging_free (path headPath : string) w : Prop :=
  forall n, let name := staging_name path (w_oracle w) n in
    w_fs w !! name = None /\ name <> path /\ name <> headPath.

Lemma sys_calm w : no_faults w -> sys w = (None, next_tick w).
Proof. intros Hf. unfold sys. by rewrite Hf. Qed.

Lemma os_CreateTemp_calm path w : no_faults w ->
  w_fs w !! staging_name path (w_oracle w) (w_tick w) = None ->
  exists w', os_CreateTemp (Dir path) ".evidence-truncate-" w = (inr (staging_name path (w_oracle w) (w_tick w)), w') /\
    same_but [staging_name path (w_oracle w) (w_tick w)] w w' /\
    w_fs w' !! staging_name path (w_oracle w) (w_tick w) = Some (mkInode Regular 384 "").
Proof.
  intros Hf Hn. unfold os_CreateTemp. fold (staging_name path (w_oracle w) (w_tick w)).
  destruct (os_CreateExcl _ 384 w) as [[e|] w1] eqn:HC.
  - unfold os_CreateExcl in HC. rewrite sys_calm, Hn in HC by done. done.
  - apply os_CreateExcl_post in HC as [HF Hi]. exists w1. split_and!; [done|done|by apply Hi].
Qed.

Lemma discard_same name e w r w' : discard name e w = (r, w') -> same_but [name] w w' /\ r = e.
Proof.
  unfold discard. destruct (f_Close w) as [ec w1] eqn:H1. destruct (os_Remove name w1) as [er w2] eqn:H2.
  apply sys_post in H1. apply os_Remove_post in H2 as [H2 _]. intros [= <- <-].
  split; [|done]. eapply same_but_trans; [by apply same_but_nil|done].
Qed.

(** Staging, writing and renaming the shortened file. *)
Lemma publish_calm path name data w : no_faults w -> name <> path ->
  w_fs w !! name = Some (mkInode Regular 384 "") ->
  exists w', same_but [path; name] w w' /\ w_fs w' !! path = Some (mkInode Regular 384 data) /\
    (match os_Chmod name 384 w with
     | (Some e, w) => discard name (Some e) w
     | (None, w) =>
       match f_Write name data w with
       | (Some e, w) => discard name (Some e) w
       | (None, w) =>
         match f_Sync w with
         | (Some e, w) => discard name (Some e) w
         | (None, w) =>
             match f_Close w with
             | (Some e, w) => discard name (Some e) w
             | (None, w) => let '(e, w) := os_Rename name path w in discard name e w
             end
         end
       end
     end) = (None, w').
Proof.
  intros Hf Hne Hi. unfold os_Chmod at 1. rewrite sys_calm by done.
  set (w1 := set_fs _ _). assert (w_fs w1 !! name = Some (mkInode Regular 384 "")) as Hi1.
  { cbn. by rewrite lookup_alter_eq, Hi. }
  assert (no_faults w1) as Hf1 by done. unfold f_Write. rewrite sys_calm by done.
  set (w2 := set_fs _ _). assert (w_fs w2 !! name = Some (mkInode Regular 384 data)) as Hi2.
  { cbn. by rewrite lookup_alter_eq, lookup_alter_eq, Hi. }
  assert (no_faults w2) as Hf2 by done. unfold f_Sync, f_Close at 1. rewrite !sys_calm by done.
  destruct (os_Rename name path (next_tick (next_tick w2))) as [er w3] eqn:HR.
  assert (er = None) as ->.
  { unfold os_Rename in HR. rewrite sys_calm in HR by done. cbn [w_fs next_tick] in HR. rewrite Hi2 in HR. by injection HR. }
  destruct (os_Rename_post _ _ _ _ _ Hne HR) as (HF3 & Hr & _). destruct (Hr eq_refl) as (Hp & _ & _).
  destruct (discard name None w3) as [ed w4] eqn:HD. apply discard_same in HD as [HF4 ->].
  assert (same_but [path; name] w (next_tick (next_tick w2))) as HF2.
  { split_and!; [done|done|]. intros p Hpn. cbn. rewrite !lookup_alter_ne by set_solver. done. }
  exists w4. split_and!; [|by rewrite (same_but_lookup _ _ _ _ HF4), Hp by set_solver|done].
  eapply same_but_trans; [exact HF2|]. eapply same_but_trans; [exact HF3|].
  eapply same_but_weaken; [|exact HF4]. set_solver.
Qed.

Lemma truncate_calm path headPath lines part w : no_faults w -> reads_as path (lines ++ [part]) w ->
  Forall braced (lines ++ [part]) -> staging_free path headPath w ->
  exists w' n, truncateEvidenceTo path (Z.of_nat (length lines)) w = (None, w') /\
    same_but [path; staging_name path (w_oracle w) n] w w' /\
    w_fs w' !! path = Some (mkInode Regular 384 (lines_text lines)).
Proof.
  intros Hf (i & Hi & _ & HD) HB Hfree. unfold truncateEvidenceTo.
  destruct (scan_text_calm _ _ _ _ Hf Hi HD) as (w1 & HF1 & ->).
  assert (no_faults w1) as Hf1 by (by eapply no_faults_same).
  assert (w_oracle w1 = w_oracle w) as HO by apply HF1.
  destruct (Hfree (w_tick w1)) as (Hn & Hne & _). rewrite <- HO in Hn, Hne.
  destruct (os_CreateTemp_calm path w1 Hf1) as (w2 & -> & HF2 & Hi2); [by rewrite (same_nil_fs _ _ _ HF1)|].
  set (name := staging_name _ _ _) in *.
  rewrite records_of_braced by done. rewrite length_app, Nat2Z.inj_add. cbn [length].
  rewrite (proj2 (Z.ltb_lt _ _)) by lia. rewrite Nat2Z.id, take_app_length.
  destruct (publish_calm path name (lines_text lines) w2) as (w3 & HF3 & Hp & HW);
    [by eapply no_faults_same|done|done|].
  exists w3, (w_tick w1). rewrite <- HO. fold name. split_and!; [|..|done].
  - rewrite <- HW. by destruct (os_Chmod name 384 w2) as [[]].
  - eapply same_but_trans; [by apply same_but_nil|]. eapply same_but_trans; [|exact HF3].
    eapply same_but_weaken; [|exact HF2]. set_solver.
Qed.
(** ** The bounded start *)

Definition within (path : string) (maxBytes : Z) w : Prop :=
  forall i, w_fs w !! path = Some i -> slen (i_data i) <= maxBytes.

Definition effective_limit (tailLimit : nat) : nat := if (tailLimit <? 1)%nat then evidenceRecentLimit else tailLimit.

Lemma effective_limit_pos n : (1 <= effective_limit n)%nat.
Proof. unfold effective_limit. destruct (Nat.ltb_spec n 1); [apply Nat.leb_le; by vm_compute|lia]. Qed.

(** With a checkpoint that seals records, the start comes down to recovery and
    the tail. *)
Lemma bounded_start path headPath pub c maxBytes tailLimit lines seq head w :
  no_faults w -> reads_as path lines w -> within path maxBytes w -> Forall braced lines ->
  checkpoint_at headPath c seq head w -> seq <> 0 ->
  exists size w1, same_but [] w w1 /\
    verifyEvidenceFilesBounded path headPath pub c maxBytes tailLimit w =
    match recover_tail path headPath pub c (mkCheckpoint evidenceRecordVersion seq head)
            (Z.of_nat (length lines)) size w1 with
    | (inl (e, size), w) => ((failed size e, ""), w)
    | (inr (cp, lines, size), w) => verify_tail path pub c cp lines size (effective_limit tailLimit) w
    end.
Proof.
  intros Hf HR Hin HB Hcp Hseq. unfold verifyEvidenceFilesBounded.
  destruct (os_Lstat_calm path w Hf) as (w1 & HF1 & ->). pose proof HR as (i & Hi & Hp & HD).
  rewrite Hi, Hp. cbn [negb]. rewrite (proj2 (Z.ltb_ge _ _) (Hin i Hi)).
  destruct (readCheckpoint_calm headPath c seq head w1) as (w2 & HF2 & ->);
    [by eapply no_faults_same|by eapply checkpoint_same; [exact HF1|apply not_elem_of_nil|]|].
  cbn [cp_Version cp_Sequence]. rewrite Z.eqb_refl, (proj2 (Z.eqb_neq _ _) Hseq). cbn [negb].
  assert (same_but [] w w2) as HF by (by eapply same_but_trans).
  destruct (window_calm path lines None w2) as (w3 & HF3 & ->);
    [by eapply no_faults_same|by eapply reads_as_same; [exact HF|apply not_elem_of_nil|]|done|].
  exists (slen (i_data i)), w3. split; [by eapply same_but_trans|done].
Qed.

Abbreviation accepts path headPath pub c maxBytes tailLimit w head n :=
  (exists recent size scope w',
    verifyEvidenceFilesBounded path headPath pub c maxBytes tailLimit w = ((head, n, recent, size, None, scope), w')).

Lemma bounded_sealed path headPath pub c maxBytes tailLimit lines rs w :
  no_faults w -> reads_as path lines w -> within path maxBytes w -> Forall braced lines ->
  verify_window pub c path 1 (Some "") lines = inr rs -> (1 <= length lines)%nat -> Z.of_nat (length lines) <= max_ledger ->
  checkpoint_at headPath c (Z.of_nat (length lines)) (head_of "" rs) w ->
  accepts path headPath pub c maxBytes tailLimit w (head_of "" rs) (Z.of_nat (length lines)).
Proof.
  intros Hf HR Hin HB HV H1 Hmax Hcp.
  destruct (bounded_start path headPath pub c maxBytes tailLimit lines (Z.of_nat (length lines)) (head_of "" rs) w)
    as (size & w1 & HF1 & ->); try done; [lia|].
  unfold recover_tail. cbn [cp_Sequence].
  rewrite u64_small by (unfold MaxUint64, max_ledger in *; lia). rewrite (proj2 (Z.eqb_neq _ _)) by lia.
  destruct (verify_tail_calm pub c path lines rs size (effective_limit tailLimit) w1) as (recent & scope & w2 & HF2 & ->);
    try done; [by eapply no_faults_same|by eapply reads_as_same; [exact HF1|apply not_elem_of_nil|]
      |apply effective_limit_pos|]. eauto.
Qed.

Lemma trailing_calm path lines part w : no_faults w -> reads_as path (lines ++ [part]) w -> Forall braced (lines ++ [part]) ->
  exists w', same_but [] w w' /\ readTrailingEvidenceLine path w = (inr part, w').
Proof.
  intros Hf (i & Hi & _ & HD) HB. unfold readTrailingEvidenceLine.
  destruct (scan_text_calm _ _ _ _ Hf Hi HD) as (w1 & HF1 & ->). exists w1. split; [done|].
  by rewrite records_of_braced, last_snoc.
Qed.

Lemma staging_free_same path headPath w w' : same_but [] w w' -> staging_free path headPath w -> staging_free path headPath w'.
Proof. intros HF Hfree n. cbn zeta. rewrite (same_nil_fs _ _ _ HF). destruct HF as (HO & _ & _). rewrite HO. apply Hfree. Qed.

(** What follows a recovery accepts the files it left. *)
Lemma reread_calm path headPath pub c size limit lines rs w :
  no_faults w -> reads_as path lines w -> Forall braced lines ->
  verify_window pub c path 1 (Some "") lines = inr rs -> (1 <= limit)%nat -> (1 <= length lines)%nat ->
  Z.of_nat (length lines) <= max_ledger ->
  checkpoint_at headPath c (Z.of_nat (length lines)) (head_of "" rs) w ->
  exists recent size' scope w',
    match reread_tail path headPath c size w with
    | (inl (e, size), w) => ((failed size e, ""), w)
    | (inr (cp, lines, size), w) => verify_tail path pub c cp lines size limit w
    end = ((head_of "" rs, Z.of_nat (length lines), recent, size', None, scope), w').
Proof.
  intros Hf HR HB HV Hl H1 Hmax Hcp. unfold reread_tail, file_size.
  destruct (os_Lstat_calm path w Hf) as (w1 & HF1 & ->). pose proof HR as (i & Hi & _ & _). rewrite Hi.
  destruct (readCheckpoint_calm headPath c (Z.of_nat (length lines)) (head_of "" rs) w1) as (w2 & HF2 & ->);
    [by eapply no_faults_same|by eapply checkpoint_same; [exact HF1|apply not_elem_of_nil|]|].
  assert (same_but [] w w2) as HF by (by eapply same_but_trans).
  destruct (window_calm path lines None w2) as (w3 & HF3 & ->);
    [by eapply no_faults_same|by eapply reads_as_same; [exact HF|apply not_elem_of_nil|]|done|].
  assert (same_but [] w w3) as HF' by (by eapply same_but_trans).
  destruct (verify_tail_calm pub c path lines rs (slen (i_data i)) limit w3) as (recent & scope & w4 & HF4 & ->);
    try done; [by eapply no_faults_same|by eapply reads_as_same; [exact HF'|apply not_elem_of_nil|]|]. eauto.
Qed.

(** One line more than the checkpoint seals: it is adopted when it verifies and
    dropped otherwise. *)
Lemma bounded_torn path headPath pub c maxBytes tailLimit lines rs part w :
  no_faults w -> reads_as path (lines ++ [part]) w -> within path maxBytes w -> Forall one_line lines ->
  Forall braced (lines ++ [part]) ->
  verify_window pub c path 1 (Some "") lines = inr rs -> (1 <= length lines)%nat ->
  Z.of_nat (length lines) < max_ledger -> path <> headPath -> path <> headPath +:+ ".tmp" ->
  staging_free path headPath w ->
  checkpoint_at headPath c (Z.of_nat (length lines)) (head_of "" rs) w ->
  accepts path headPath pub c maxBytes tailLimit w (head_of "" rs) (Z.of_nat (length lines)) \/
  exists r, verify_window pub c path 1 (Some "") (lines ++ [part]) = inr (rs ++ [r]) /\
    accepts path headPath pub c maxBytes tailLimit w (er_Hash r) (Z.of_nat (length lines) + 1).
Proof.
  intros Hf HR Hin HL HB HV H1 Hmax Hp1 Hp2 Hfree Hcp.
  destruct (bounded_start path headPath pub c maxBytes tailLimit (lines ++ [part]) (Z.of_nat (length lines))
    (head_of "" rs) w) as (size & w1 & HF1 & HS); try done; [lia|].
  assert (no_faults w1) as Hf1 by (by eapply no_faults_same).
  eapply reads_as_same in HR as HR1; [|exact HF1|apply not_elem_of_nil].
  destruct (trailing_calm path lines part w1 Hf1 HR1 HB) as (w2 & HF2 & HT).
  assert (u64 (Z.of_nat (length lines) + 1) = Z.of_nat (length lines) + 1) as Hu
    by (apply u64_small; unfold MaxUint64, max_ledger in *; lia).
  assert (no_faults w2) as Hf2 by (by eapply no_faults_same).
  assert (same_but [] w w2) as HF by (by eapply same_but_trans).
  eapply checkpoint_same in Hcp as Hcp2; [|exact HF|apply not_elem_of_nil].
  unfold recover_tail, recoverUnsealedEvidenceTail in HS. cbn [cp_Sequence cp_HeadHash] in HS.
  rewrite HT, length_app, Nat2Z.inj_add, Hu, Z.eqb_refl in HS.
  destruct (verify_line pub c path _ (Some (head_of "" rs)) part) as [e|r] eqn:HVL.
  - left. destruct (truncate_calm path headPath lines part w2) as (w3 & n & HTr & HF3 & Hi3);
      [done|by eapply reads_as_same; [exact HF2|apply not_elem_of_nil|]|done|by eapply staging_free_same|].
    rewrite HTr in HS. rewrite HS. apply reread_calm; try done.
    + by eapply no_faults_same.
    + eexists. split_and!; [exact Hi3|done|by apply scan_lines_text].
    + by apply Forall_app in HB as [HB _].
    + apply effective_limit_pos.
    + lia.
    + eapply checkpoint_same; [exact HF3| |done]. destruct (Hfree n) as (_ & _ & Hne).
      destruct HF as (HO & _ & _). rewrite HO. set_solver.
  - right. exists r.
    assert (verify_window pub c path 1 (Some "") (lines ++ [part]) = inr (rs ++ [r])) as HV'
      by (eapply verify_window_snoc; [done|by rewrite Z.add_comm]).
    split; [done|]. destruct (verified_hash _ _ _ _ _ _ _ HVL) as [Ha Hl64].
    destruct (writeCheckpoint_calm headPath (Z.of_nat (length lines) + 1) (er_Hash r) c w2 Hf2) as [w3 HC].
    { intros i Hi. destruct Hcp2 as (i' & _ & Hi' & Hpr & _). rewrite Hi in Hi'. injection Hi' as <-.
      apply is_private_spec in Hpr as [-> _]. done. }
    assert (0 <= Z.of_nat (length lines) + 1 <= MaxUint64) as Hrange by (unfold MaxUint64, max_ledger in *; lia).
    destruct (writeCheckpoint_post _ _ _ _ _ _ _ Hrange Ha ltac:(lia) HC) as (HF3 & Hok & _).
    specialize (Hok eq_refl). rewrite HC in HS. rewrite HS.
    assert (Z.of_nat (length (lines ++ [part])) = Z.of_nat (length lines) + 1) as Hlen by (rewrite length_app; cbn; lia).
    assert (head_of "" (rs ++ [r]) = er_Hash r) as Hhd by (by rewrite head_of_app).
    rewrite <- Hlen, <- Hhd in *. apply reread_calm; try done.
    + by eapply no_faults_same.
    + eapply reads_as_same; [exact HF3|set_solver|]. by eapply reads_as_same; [exact HF2|apply not_elem_of_nil|].
    + apply effective_limit_pos.
    + lia.
    + lia.
Qed.
(** ** After an interrupted append *)

(** Part of a line that was being appended. *)
Lemma torn_text lines s k : Forall one_line lines -> one_line s -> braced s ->
  let text := lines_text lines +:+ of_bytes (take k (bytes_of (s +:+ newline))) in
  slen text <= slen (lines_text lines) + slen s + 1 /\
  (text = lines_text lines \/ exists part, braced part /\ scan_data text = (lines ++ [part], None)).
Proof.
  intros HL Hs [rest Hb]. cbn zeta.
  assert (slen (of_bytes (take k (bytes_of (s +:+ newline)))) <= slen s + 1) as Hlen.
  { rewrite slen_of_bytes, length_take, bytes_of_app, length_app. unfold slen. rewrite <- length_bytes_of. cbn [length bytes_of newline list_ascii_of_string]. lia. }
  split; [rewrite slen_app; lia|].
  destruct (Nat.lt_ge_cases (length (bytes_of s)) k) as [Hk|Hk].
  { right. exists s. split; [by exists rest|].
    rewrite take_ge, of_bytes_of by (rewrite bytes_of_app, length_app; cbn; lia).
    rewrite <- lines_text_snoc. apply scan_lines_text. apply Forall_app. by split; [|constructor]. }
  rewrite bytes_of_app, take_app_le by done.
  destruct k as [|k]; [left; apply str_app_nil_r|]. right. exists (of_bytes (take (S k) (bytes_of s))).
  assert (braced (of_bytes (take (S k) (bytes_of s)))) as HB.
  { exists (take k rest). by rewrite bytes_of_of, Hb. }
  split; [done|]. apply scan_partial_text; [done| |].
  - destruct Hs as [Hlf Hcr Hfit]. constructor; rewrite ?bytes_of_of.
    + intros HI. apply Hlf. by eapply subseteq_take.
    + intros HI. apply Hcr. by eapply subseteq_take.
    + rewrite slen_of_bytes, length_take. unfold slen in Hfit. rewrite <- length_bytes_of in Hfit. lia.
  - intros HE. destruct HB as [x HB]. by rewrite HE in HB.
Qed.

Lemma file_present path lines w : file_text path (lines_text lines) w -> (1 <= length lines)%nat -> Forall one_line lines ->
  reads_as path lines w /\ within path (slen (lines_text lines)) w.
Proof.
  intros HT H1 HL. destruct HT as [[_ HE]|(i & Hi & Hp & Hd)].
  - pose proof (lines_text_len lines) as HLL. rewrite HE in HLL. change (slen "") with 0 in HLL. lia.
  - split; [exists i; split_and!; [done..|by rewrite Hd, scan_lines_text]|]. intros j. rewrite Hi. intros [= <-]. by rewrite Hd.
Qed.

Lemma left_behind_recovers l w lines rs w' w2 tailLimit :
  sealed l w lines rs -> 1 <= l_sequence l -> left_behind l w lines w' -> w_fs w2 = w_fs w' -> no_faults w2 ->
  staging_free (l_path l) (l_headPath l) w2 ->
  accepts (l_path l) (l_headPath l) (l_publicKey l) (l_crypto l) (effectiveMaxBytesLocked l) tailLimit w2
    (l_headHash l) (l_sequence l) \/
  exists s r, verify_window (l_publicKey l) (l_crypto l) (l_path l) 1 (Some "") (lines ++ [s]) = inr (rs ++ [r]) /\
    accepts (l_path l) (l_headPath l) (l_publicKey l) (l_crypto l) (effectiveMaxBytesLocked l) tailLimit w2
      (er_Hash r) (l_sequence l + 1).
Proof.
  intros [Hch [Hp1 Hp2] Hfile _ HL HB HV Hcount Hhead Hsize Hbud Hcp] H1 HLB HD Hf Hfree.
  destruct Hcp as [(? & _)|Hcp]; [lia|].
  pose proof (lines_text_len lines) as HLL. rewrite <- Hcount, <- Hhead in Hcp |- *. rewrite <- Hcount in H1.
  assert (w_fs w' !! l_headPath l = w_fs w !! l_headPath l ->
    checkpoint_at (l_headPath l) (l_crypto l) (Z.of_nat (length lines)) (head_of "" rs) w2) as Hkeep.
  { intros Hh. destruct Hcp as (i & pt & Hi & HR). exists i, pt. by rewrite HD, Hh. }
  assert (file_text (l_path l) (lines_text lines) w2 -> w_fs w' !! l_headPath l = w_fs w !! l_headPath l ->
    accepts (l_path l) (l_headPath l) (l_publicKey l) (l_crypto l) (effectiveMaxBytesLocked l) tailLimit w2
      (head_of "" rs) (Z.of_nat (length lines))) as Hold.
  { intros HT Hh. destruct (file_present _ _ _ HT ltac:(lia) HL) as [HR Hw].
    apply bounded_sealed; try done; [|lia|lia|by apply Hkeep]. intros i Hi. specialize (Hw i Hi). lia. }
  destruct HLB as [HT Hh|s k Hs Hbr Hfit HT Hh|s r Hs Hbr Hfit HVL HT Hcp'].
  - left. apply Hold; [|done]. unfold file_text. by rewrite HD.
  - destruct (torn_text lines s k HL Hs Hbr) as [Hlen [Htxt|(part & Hpart & Hscan)]].
    { left. apply Hold; [|done]. unfold file_text. rewrite HD. rewrite <- Htxt. done. }
    destruct HT as [[_ HE]|(i & Hi & Hpr & Hd)]; [by rewrite HE in Hscan; destruct lines|].
    edestruct (bounded_torn (l_path l) (l_headPath l) (l_publicKey l) (l_crypto l) (effectiveMaxBytesLocked l) tailLimit
      lines rs part w2) as [?|(r & HW & HA)]; try done; [..|by left|right; by exists part, r].
    + exists i. rewrite HD, Hd. done.
    + intros j. rewrite HD, Hi. intros [= <-]. rewrite Hd. lia.
    + apply Forall_app. by split; [|constructor].
    + lia.
    + pose proof (slen_nonneg s). lia.
    + by apply Hkeep.
  - right. exists s, r. pose proof (slen_nonneg s). rewrite <- Hcount, <- Hhead in HVL. rewrite <- Hcount in Hcp'.
    assert (verify_window (l_publicKey l) (l_crypto l) (l_path l) 1 (Some "") (lines ++ [s]) = inr (rs ++ [r])) as HW
      by (eapply verify_window_snoc; [done|by rewrite Z.add_comm]).
    split; [done|].
    assert (Z.of_nat (length (lines ++ [s])) = Z.of_nat (length lines) + 1) as Hl by (rewrite length_app; cbn; lia).
    assert (head_of "" (rs ++ [r]) = er_Hash r) as Hhd by (by rewrite head_of_app).
    rewrite <- Hl, <- Hhd in Hcp' |- *.
    assert (file_text (l_path l) (lines_text (lines ++ [s])) w2) as HT2 by (unfold file_text; by rewrite HD).
    assert (Forall one_line (lines ++ [s])) as HL' by (apply Forall_app; by split; [|constructor]).
    destruct (file_present _ _ _ HT2 ltac:(lia) HL') as [HR Hw].
    apply bounded_sealed; try done; [|by apply Forall_app; split; [|constructor]|lia|lia|].
    + intros i Hi. specialize (Hw i Hi). rewrite lines_text_snoc, !slen_app in Hw. change (slen newline) with 1 in Hw. lia.
    + destruct Hcp' as (i & pt & Hi & HR'). exists i, pt. by rewrite HD.
Qed.

(** C9: an interrupted append is repaired. On a ledger that holds a record
    already (the very first append is not repaired), with the clock set and a
    request of valid UTF-8 text within bounds, whatever system call of [Append]
    failed, the next start, with no call failing and a free staging name,
    accepts the ledger: with the history before the append, or with that
    history and one more record that verifies as its successor. *)
Theorem interrupted_append_recovers r l w lines rs e l' w' w2 tailLimit :
  sealed l w lines rs -> 1 <= l_sequence l -> request r -> clock_set w ->
  Append r l w = (Returns (inl e, l'), w') ->
  w_fs w2 = w_fs w' -> no_faults w2 -> staging_free (l_path l) (l_headPath l) w2 ->
  exists head n recent size scope w3,
    verifyEvidenceFilesBounded (l_path l) (l_headPath l) (l_publicKey l) (l_crypto l) (effectiveMaxBytesLocked l)
      tailLimit w2 = ((head, n, recent, size, None, scope), w3) /\
    ((n = l_sequence l /\ head = l_headHash l) \/
     exists s r', verify_window (l_publicKey l) (l_crypto l) (l_path l) 1 (Some "") (lines ++ [s]) = inr (rs ++ [r']) /\
       n = l_sequence l + 1 /\ head = er_Hash r').
Proof.
  intros HS H1 Hr Hc HA HD Hf Hfree. pose proof (Append_post _ _ _ _ _ _ _ _ HS Hr Hc HA) as HP. cbn in HP.
  destruct (left_behind_recovers _ _ _ _ _ _ tailLimit HS H1 HP HD Hf Hfree)
    as [(recent & size & scope & w3 & HB)|(s & r' & HW & recent & size & scope & w3 & HB)].
  - exists (l_headHash l), (l_sequence l), recent, size, scope, w3. by split; [|left].
  - exists (er_Hash r'), (l_sequence l + 1), recent, size, scope, w3. split; [done|]. right. by exists s, r'.
Qed.
(** ** What recovery does not cover *)

(** Recovery needs a checkpoint that already seals a record. When the very
    first append of a chain was interrupted after its line reached the file,
    the next start finds records and no checkpoint and refuses the ledger. *)
Theorem first_append_not_recovered path headPath pub c maxBytes tailLimit i w :
  no_faults w -> w_fs w !! path = Some i -> is_private i = true -> 0 < slen (i_data i) <= maxBytes ->
  w_fs w !! headPath = None ->
  exists w', verifyEvidenceFilesBounded path headPath pub c maxBytes tailLimit w =
    ((failed (slen (i_data i)) ErrNotExist, ""), w').
Proof.
  intros Hf Hi Hp [H0 Hm] Hh. unfold verifyEvidenceFilesBounded.
  destruct (os_Lstat_calm path w Hf) as (w1 & HF1 & ->). rewrite Hi, Hp. cbn [negb].
  rewrite (proj2 (Z.ltb_ge _ _) Hm). unfold readEvidenceCheckpoint, readBoundedPrivateFile.
  destruct (os_Lstat_calm headPath w1) as (w2 & HF2 & ->); [by eapply no_faults_same|].
  rewrite (same_nil_fs _ _ _ HF1), Hh. cbn [is_not_exist]. rewrite (proj2 (Z.eqb_neq _ _)) by lia. by eauto.
Qed.

(** The state after a line without its line feed was adopted: [s] is the last
    record, sealed, and the file ends with it. *)
Record adopted_open l w (lines : list string) (s : string) : Prop := {
  ao_chained : chained l;
  ao_separate : separate l;
  ao_file : file_text (l_path l) (lines_text lines +:+ s) w;
  ao_lines : Forall one_line lines /\ Forall braced lines;
  ao_last : one_line s /\ braced s /\ slen s <= 1048576;
  ao_count : l_sequence l = Z.of_nat (length lines) + 1;
  ao_size : l_expectedSize l = slen (lines_text lines +:+ s);
  ao_budget : l_expectedSize l <= effectiveMaxBytesLocked l <= max_ledger;
}.

(** Recovery may adopt a record whose line feed never reached the file. The
    next record, although [Append] reports success, continues that line: the
    file holds one line less than the checkpoint seals, and the following start
    refuses the ledger. *)
Theorem adopted_line_glued r l w lines s r1 l' w' tailLimit :
  adopted_open l w lines s -> slen (er_ID r) <= id_limit -> clock_set w -> Append r l w = (Returns (inr r1, l'), w') -> no_faults w' ->
  exists size w2,
    verifyEvidenceFilesBounded (l_path l) (l_headPath l) (l_publicKey l) (l_crypto l) (effectiveMaxBytesLocked l)
      tailLimit w' =
    ((failed size (ErrText "evidence ledger and its checkpoint disagree on the number of records"), ""), w2).
Proof.
  intros [Hch [Hp1 Hp2] Hfile [HL HB] (Hs1 & [rest Hs2] & Hs3) Hcount Hsize Hbud] Hr Hc. unfold Append.
  destruct (l_integrityErr l); [done|]. destruct (fill_identity r w) as [[[id now]|] w1] eqn:HI; [|done].
  destruct (fill_identity_post _ l _ _ _ _ Hr Hc HI) as (HF1 & Hst & _).
  destruct (validateEvidenceText _) eqn:HV; [done|]. specialize (Hst eq_refl).
  destruct (verifyUnchangedLocked l w1) as [[e|] w2] eqn:HU; [done|]. apply verifyUnchanged_frame in HU.
  destruct (commit_record _ l w2) as [[res' l2] w3] eqn:HC. intros [= -> -> ->] Hf.
  destruct (commit_success _ _ _ _ _ _ _ _ Hch Hst HC) as (b & s2 & w4 & w5 & _ & HF4 & HA & HF5 & Ho2 & Hb2 & Hl2 & Hroom & Hcp).
  apply seal_same in HF4. assert (same_but [] w w4) as HF by (eapply same_but_trans; [by eapply same_but_trans|done]).
  eapply file_text_same in Hfile; [|exact HF|apply not_elem_of_nil].
  destruct (append_line_post _ _ _ _ _ _ Hfile HA) as (_ & k & HT & Hk). rewrite (Hk eq_refl), of_bytes_of in HT.
  eapply file_text_same in HT; [|exact HF5|set_solver].
  assert (one_line (s +:+ s2)) as Hglue.
  { destruct Hs1, Ho2. constructor; rewrite ?bytes_of_app, ?not_elem_of_app, ?slen_app; [done..|unfold max_token; lia]. }
  assert ((lines_text lines +:+ s) +:+ s2 +:+ newline = lines_text (lines ++ [s +:+ s2])) as Htxt
    by (by rewrite lines_text_snoc, !string_app_assoc).
  rewrite Htxt in HT.
  assert (Forall braced (lines ++ [s +:+ s2])) as HB'.
  { apply Forall_app. split; [done|]. constructor; [|done]. exists (rest ++ bytes_of s2). by rewrite bytes_of_app, Hs2. }
  destruct (file_present _ _ _ HT) as [HR Hw]; [rewrite length_app; cbn; lia|by apply Forall_app; split; [|constructor]|].
  pose proof (slen_nonneg s2). pose proof (slen_nonneg (lines_text lines +:+ s)).
  rewrite i64_small in Hroom by (unfold MinInt64, MaxInt64, max_ledger in *; lia).
  destruct (bounded_start (l_path l) (l_headPath l) (l_publicKey l) (l_crypto l) (effectiveMaxBytesLocked l) tailLimit
    (lines ++ [s +:+ s2]) (l_sequence l + 1) (er_Hash r1) w') as (size & w6 & HF6 & ->); try done; [|lia|].
  { intros i Hi. specialize (Hw i Hi). rewrite <- Htxt, slen_app, (slen_app s2 newline) in Hw.
    change (slen newline) with 1 in Hw. lia. }
  unfold recover_tail, verify_tail. cbn [cp_Sequence]. rewrite length_app. cbn [length].
  pose proof (lines_text_len lines). rewrite slen_app in *. pose proof (slen_nonneg s).
  rewrite u64_small by (unfold MaxUint64, max_ledger in *; lia).
  rewrite (proj2 (Z.eqb_neq _ _)) by lia. cbn [cp_Sequence]. rewrite (proj2 (Z.eqb_neq _ _)) by lia. cbn [negb]. eauto.
Qed.

(** A checkpoint in plain text opens under any storage key. *)
Lemma plain_checkpoint path c seq head b w : 0 <= seq <= MaxUint64 -> is_ascii head = true -> slen head <= 64 ->
  json_Marshal (mkCheckpoint evidenceRecordVersion seq head) = inr b ->
  w_fs w !! path = Some (mkInode Regular 384 b) -> checkpoint_at path c seq head w.
Proof.
  intros Hs Ha Hl HM Hi. pose proof (json_size _ _ HM) as Hb. cbn in Hb.
  exists (mkInode Regular 384 b), b. split_and!; [done|done|cbn; lia| |].
  - destruct c as [c|]; [|done]. cbn [open_stored i_data]. unfold Decrypt.
    destruct (json_trimmed _ _ HM) as [-> Hne].
    rewrite (proj2 (Z.eqb_neq (slen b) 0)) by (destruct b; [done|]; unfold slen; cbn; lia).
    rewrite bool_decide_false by (by eapply ec_checkpoint_probe). done.
  - apply json_roundtrip; [|done]. apply ec_checkpoint_ascii; cbn; [done|done|]. unfold evidenceRecordVersion, MaxUint32. lia.
Qed.

Lemma verified_prefix pub c path lines cut rs cutrs : length lines = length rs ->
  verify_window pub c path 1 (Some "") (lines ++ cut) = inr (rs ++ cutrs) ->
  verify_window pub c path 1 (Some "") lines = inr rs.
Proof.
  intros Hl HV. destruct (verify_window_prefix _ _ _ _ _ _ _ _ HV) as [rs1 H1]. rewrite H1. f_equal.
  rewrite (verify_window_app _ _ _ _ _ _ _ _ H1) in HV. destruct (verify_window _ _ _ _ _ cut); [done|].
  cbn in HV. injection HV as HV. apply app_inj_1 in HV as [-> _]; [done|].
  rewrite (verify_window_length _ _ _ _ _ _ _ H1). done.
Qed.

Lemma lines_text_prefix ls1 ls2 : slen (lines_text ls1) <= slen (lines_text (ls1 ++ ls2)).
Proof. unfold lines_text. rewrite !slen_of_bytes, map_app, concat_app, length_app. lia. Qed.

(** The checkpoint of an encrypted ledger is not required to be encrypted.
    Whoever can write the two files and knows an earlier head can cut the
    ledger back to it: a shortened file beside a plaintext checkpoint is
    accepted as complete. *)
Theorem checkpoint_not_authenticated l w lines rs cut cutrs b w2 tailLimit :
  sealed l w (lines ++ cut) (rs ++ cutrs) -> length lines = length rs -> (1 <= length lines)%nat ->
  json_Marshal (mkCheckpoint evidenceRecordVersion (Z.of_nat (length lines)) (head_of "" rs)) = inr b ->
  is_ascii (head_of "" rs) = true -> slen (head_of "" rs) <= 64 ->
  no_faults w2 -> w_fs w2 !! l_path l = Some (mkInode Regular 384 (lines_text lines)) ->
  w_fs w2 !! l_headPath l = Some (mkInode Regular 384 b) ->
  exists recent size scope w3,
    verifyEvidenceFilesBounded (l_path l) (l_headPath l) (l_publicKey l) (l_crypto l) (effectiveMaxBytesLocked l)
      tailLimit w2 = ((head_of "" rs, Z.of_nat (length lines), recent, size, None, scope), w3).
Proof.
  intros [_ _ _ _ HL HB HV _ _ Hsize Hbud _] Hlen H1 HM Ha Hl64 Hf Hi Hh.
  apply verified_prefix in HV; [|done]. apply Forall_app in HL as [HL _]. apply Forall_app in HB as [HB _].
  pose proof (lines_text_prefix lines cut). pose proof (lines_text_len lines).
  apply bounded_sealed; try done.
  - eexists. split_and!; [exact Hi|done|by apply scan_lines_text].
  - intros i. rewrite Hi. intros [= <-]. cbn. lia.
  - lia.
  - eapply plain_checkpoint; try done. unfold MaxUint64, max_ledger in *. lia.
Qed.
End Recovery.
