(* ===== verification/EvidenceVerify.v ===== *)
(** * What a verified evidence chain says

    The head hash commits to every record before it; the incremental passes
    cover what one walk over the whole file covers; the size budget decides
    about verification too. *)

From Stdlib Require Import ZArith Lia Ascii String.
From stdpp Require Import base gmap strings list.
From S2P Require Import Prelude.
From S2P Require Import GoLib.
From S2P Require Import Text.
From S2P Require Import World.
From S2P Require Import Storage.
From S2P Require Import Lines.
From S2P Require Import Evidence.
From S2P Require Import EvidenceFacts.
From S2P Require Import EvidenceAppend.
From S2P Require Import EvidenceRecovery.

Section Verify.
Context {X : Type} `{C : Crypto} `{E : Ed25519} `{JE : JSONDoc encryptedStorageEnvelope} `{EP : !EnvelopeProbe}
  `{JR : JSONDoc EvidenceRecord} `{JY : JSONDoc evidencePayload} `{JC : JSONDoc evidenceCheckpoint}
  `{JW : JSONDoc evidenceWatermark}.
Implicit Types (w : world X) (l : EvidenceLedger).

(** ** The head commits to the history *)

(** What a verified line says about its record. *)
Lemma verified_record pub c path n p line r : verify_line pub c path n (Some p) line = inr r ->
  er_Sequence r = n /\ er_PrevHash r = p /\ (exists plain, json_Decode plain = inr r) /\
  exists can, evidenceCanonical r = inr can /\ hex_DecodeString (er_Hash r) = Some (evidenceHash can).
Proof.
  unfold verify_line. destruct (open_stored _ _ _ _ _) as [|plain]; [done|].
  destruct (decodeEvidenceRecord plain) as [|r0] eqn:HD; [done|].
  destruct (verifyEvidenceRecord _ _ _ _) eqn:HV; [done|]. intros [= <-]. revert HV. unfold verifyEvidenceRecord.
  destruct (_ || Time.IsZero _) eqn:H1; [done|].
  destruct (negb (bool_decide (er_PrevHash r0 = _))) eqn:H2; [done|].
  destruct (validateEvidenceText r0); [done|]. destruct (evidenceCanonical r0) as [|can] eqn:HC; [done|].
  destruct (hex_DecodeString (er_Hash r0)) as [h|]; [|done].
  destruct (negb (slen h =? 32) || _) eqn:H3; [done|]. intros _. bool_to_prop.
  apply bool_decide_eq_true in H2. match goal with H : bool_decide (h = _) = true |- _ => apply bool_decide_eq_true in H as -> end.
  split_and!; [done|done|by eexists|by exists can].
Qed.

(** Decoding returns values JSON represents faithfully: a payload is determined
    by its canonical text. *)
Class PayloadCodec := {
  payload_canonical : forall plain r, json_Decode plain = inr r -> json_canonical (payload_of r);
  payload_laws : JSONDocLaws evidencePayload;
}.

(** A collision between the two histories: a record of each whose canonical
    texts differ and whose SHA-256 digests agree. *)
Definition collision (rs1 rs2 : list EvidenceRecord) : Prop := exists r1 r2 can1 can2,
  r1 ∈ rs1 /\ r2 ∈ rs2 /\ evidenceCanonical r1 = inr can1 /\ evidenceCanonical r2 = inr can2 /\
  can1 <> can2 /\ sha256_Sum (evidenceDomain +:+ can1) = sha256_Sum (evidenceDomain +:+ can2).

Lemma collision_app rs1 rs2 t1 t2 : collision rs1 rs2 -> collision (rs1 ++ t1) (rs2 ++ t2).
Proof.
  intros (r1 & r2 & can1 & can2 & H1 & H2 & H). exists r1, r2, can1, can2.
  split_and!; [by apply elem_of_app; left|by apply elem_of_app; left|apply H..].
Qed.

Lemma same_hash_payload `{PC : !PayloadCodec} pub1 pub2 c1 c2 path n1 n2 p1 p2 line1 line2 r1 r2 :
  verify_line pub1 c1 path n1 (Some p1) line1 = inr r1 -> verify_line pub2 c2 path n2 (Some p2) line2 = inr r2 ->
  er_Hash r1 = er_Hash r2 -> collision [r1] [r2] \/ payload_of r1 = payload_of r2.
Proof.
  intros H1 H2 HE. apply verified_record in H1 as (_ & _ & (pl1 & D1) & can1 & C1 & X1).
  apply verified_record in H2 as (_ & _ & (pl2 & D2) & can2 & C2 & X2). rewrite HE, X2 in X1. injection X1 as X1.
  destruct (decide (can1 = can2)) as [->|Hne].
  - right. pose proof payload_laws.
    pose proof (json_roundtrip _ _ (payload_canonical _ _ D1) C1) as R1.
    pose proof (json_roundtrip _ _ (payload_canonical _ _ D2) C2) as R2. congruence.
  - left. exists r1, r2, can1, can2. split_and!; try done; by apply list_elem_of_singleton.
Qed.

(** The last record of a verified window. *)
Lemma verify_window_snoc_inv pub c path lines line rs : verify_window pub c path 1 (Some "") (lines ++ [line]) = inr rs ->
  exists rs0 r, rs = rs0 ++ [r] /\ verify_window pub c path 1 (Some "") lines = inr rs0 /\
    verify_line pub c path (1 + Z.of_nat (length lines)) (Some (head_of "" rs0)) line = inr r.
Proof.
  intros HV. destruct (verify_window_prefix _ _ _ _ _ _ _ _ HV) as [rs0 H0].
  rewrite (verify_window_app _ _ _ _ _ _ _ _ H0) in HV. cbn [verify_window] in HV.
  destruct (verify_line _ _ _ _ _ line) as [|r] eqn:HL; [done|]. cbn in HV. injection HV as <-. by exists rs0, r.
Qed.

Lemma head_binds `{CL : !CryptoLaws C} `{PC : !PayloadCodec} pub1 pub2 c1 c2 path lines1 lines2 rs1 rs2 :
  verify_window pub1 c1 path 1 (Some "") lines1 = inr rs1 -> verify_window pub2 c2 path 1 (Some "") lines2 = inr rs2 ->
  head_of "" rs1 = head_of "" rs2 -> collision rs1 rs2 \/ map payload_of rs1 = map payload_of rs2.
Proof.
  revert lines2 rs1 rs2. induction lines1 as [|line1 lines1 IH] using rev_ind; intros lines2 rs1 rs2 H1 H2 HH;
    destruct lines2 as [|line2 lines2 _] using rev_ind.
  - injection H1 as <-. injection H2 as <-. by right.
  - injection H1 as <-. apply verify_window_snoc_inv in H2 as (rs2' & r2 & -> & _ & HL2).
    rewrite head_of_app in HH. cbn in HH. destruct (verified_hash _ _ _ _ _ _ _ HL2) as [_ H64]. rewrite <- HH in H64. done.
  - injection H2 as <-. apply verify_window_snoc_inv in H1 as (rs1' & r1 & -> & _ & HL1).
    rewrite head_of_app in HH. cbn in HH. destruct (verified_hash _ _ _ _ _ _ _ HL1) as [_ H64]. rewrite HH in H64. done.
  - apply verify_window_snoc_inv in H1 as (rs1' & r1 & -> & HW1 & HL1).
    apply verify_window_snoc_inv in H2 as (rs2' & r2 & -> & HW2 & HL2). rewrite !head_of_app in HH. cbn in HH.
    destruct (same_hash_payload _ _ _ _ _ _ _ _ _ _ _ _ _ HL1 HL2 HH) as [Hc|HP].
    { left. destruct Hc as (x1 & x2 & can1 & can2 & ->%list_elem_of_singleton & ->%list_elem_of_singleton & Hc).
      exists r1, r2, can1, can2. split_and!; [apply elem_of_app; right; by apply list_elem_of_singleton|apply elem_of_app; right; by apply list_elem_of_singleton|apply Hc..]. }
    apply verified_record in HL1 as (_ & P1 & _). apply verified_record in HL2 as (_ & P2 & _).
    apply (f_equal ep_PrevHash) in HP as HPP. cbn in HPP. rewrite P1, P2 in HPP.
    destruct (IH _ _ _ HW1 HW2 HPP) as [?|Hm]; [left; by apply collision_app|]. right. rewrite !map_app, Hm. cbn. by rewrite HP.
Qed.

(** C19: the head hash commits to the whole history. Two ledgers that verify and
    end in the same head, whoever signed or encrypted them, hold the same
    records in the same order - identifier, time, severity, text, sequence and
    predecessor - unless a record of the one and a record of the other have
    different canonical texts with one SHA-256 digest: whoever forges a second
    history for a head has found a collision between the two. *)
Theorem head_commits_to_history `{CL : !CryptoLaws C} `{PC : !PayloadCodec} pub1 pub2 c1 c2 path lines1 lines2 rs1 rs2 :
  verify_window pub1 c1 path 1 (Some "") lines1 = inr rs1 -> verify_window pub2 c2 path 1 (Some "") lines2 = inr rs2 ->
  head_of "" rs1 = head_of "" rs2 ->
  collision rs1 rs2 \/ map payload_of rs1 = map payload_of rs2.
Proof. apply head_binds. Qed.

(** ** Incremental verification *)

Context `{CL : !CryptoLaws C} `{EL : !Ed25519Laws E} `{EC : !EvidenceCodecs}.

Lemma verified_heads pub c path n p ls rs : verify_window pub c path n p ls = inr rs ->
  Forall (fun r => slen (er_Hash r) = 64) rs.
Proof.
  revert n p rs. induction ls as [|line ls IH]; intros n p rs; cbn [verify_window]; [by intros [= <-]|].
  destruct (verify_line _ _ _ _ _ _) as [|r] eqn:HL; [done|].
  destruct (verify_window _ _ _ _ _ ls) as [|rs'] eqn:HV; [done|]. cbn. intros [= <-].
  constructor; [by eapply verified_hash|by eapply IH].
Qed.

Lemma head_of_heads prev rs : Forall (fun r => slen (er_Hash r) = 64) rs -> rs <> [] ->
  slen (head_of prev rs) = 64 /\ head_of prev rs = head_of "" rs.
Proof.
  intros HF Hne. destruct rs as [|r rs] using rev_ind; [done|]. rewrite !head_of_app. cbn.
  apply Forall_app in HF as [_ HF]. by apply Forall_cons in HF as [-> _].
Qed.

Lemma window_head_ascii pub c path n p ls rs prev : verify_window pub c path n p ls = inr rs -> (1 <= length rs)%nat ->
  is_ascii (head_of prev rs) = true.
Proof.
  revert n p rs prev. induction ls as [|line ls IH]; intros n p rs prev; cbn [verify_window]; [intros [= <-]; cbn; lia|].
  destruct (verify_line _ _ _ _ _ _) as [|r] eqn:HL; [done|].
  destruct (verify_window _ _ _ _ _ ls) as [|rs'] eqn:HV; [done|]. cbn. intros [= <-] _. rewrite head_of_cons.
  destruct rs' as [|r' rs']; [by eapply verified_hash|]. eapply IH; [exact HV|cbn; lia].
Qed.

(** The walk over the records [from] to [to], anchored at the head before them. *)
Lemma chain_range pub c path maxBytes lines k to prev w head n rec size w' :
  no_faults w -> reads_as path lines w -> (k < to)%nat ->
  verifyEvidenceChain path pub c maxBytes (mkBounds (Z.of_nat k + 1) (Z.of_nat to) prev) w =
    ((head, n, rec, size, None), w') ->
  n = Z.of_nat to ->
  same_but [] w w' /\ (k <= length lines)%nat /\
  exists rs, verify_window pub c path (Z.of_nat k + 1) (Some prev) (take (to - k) (drop k lines)) = inr rs /\
    length rs = (to - k)%nat /\ head = head_of prev rs.
Proof.
  intros Hf (i & Hi & Hp & HD) Hk. unfold verifyEvidenceChain.
  destruct (os_Lstat_calm path w Hf) as (w1 & HF1 & ->). rewrite Hi, Hp. cbn [negb].
  destruct (maxBytes <? slen (i_data i)); [by unfold failed|].
  destruct (scan_text_calm path w1 i lines) as (w2 & HF2 & ->);
    [by eapply no_faults_same|by rewrite (same_nil_fs _ _ _ HF1)|done|].
  set (b := mkBounds _ _ _). cbn [b_PrevHash b].
  destruct (Nat.le_gt_cases k (length lines)) as [Hle|Hgt].
  - assert (lines = take k lines ++ drop k lines) as HL by (by rewrite take_drop).
    rewrite HL at 1. rewrite (walk_skip pub c path b (take k lines) (drop k lines) 0) by (cbn; rewrite ?length_take; lia).
    rewrite length_take, Nat.min_l, Z.add_0_l by done.
    pose proof (walk_verify pub c path b (drop k lines) (Z.of_nat k) prev "" []) as HW.
    specialize (HW ltac:(cbn; lia) ltac:(cbn; lia) ltac:(cbn; lia)).
    assert (in_range b (Z.of_nat k) (drop k lines) = take (to - k) (drop k lines)) as HR.
    { unfold in_range. cbn [b_To b]. rewrite (proj2 (Z.eqb_neq _ _)) by lia. f_equal. lia. }
    rewrite HR in HW. destruct (verify_window _ _ _ _ _ (take (to - k) _)) as [e|rs] eqn:HV; [by rewrite HW|].
    destruct HW as (rec' & flag & -> & _). cbn [ws_sequence ws_last ws_recent b_From b].
    assert ((if flag then None else None) = (None : error)) as -> by (by destruct flag).
    rewrite (proj2 (Z.ltb_ge _ _)) by lia. intros [= <- <- <- <- <-] Hn.
    split; [by eapply same_but_trans|]. split; [done|]. exists rs. split_and!; [done|lia|].
    apply verified_heads in HV. destruct (head_of_heads prev rs HV) as [H64 ->]; [by intros ->; cbn in *; lia|].
    rewrite bool_decide_false; [done|]. intros HE. destruct (head_of_heads "" rs HV) as [H0 _]; [by intros ->; cbn in *; lia|].
    by rewrite HE in H0.
  - rewrite <- (app_nil_r lines) at 1. rewrite (walk_skip pub c path b lines [] 0) by (cbn; lia). cbn [walk_lines ws_sequence b_From b].
    rewrite (proj2 (Z.ltb_lt _ _)) by lia. done.
Qed.
(** The first [k] records verify from the beginning and end in [head]. *)
Definition covered l (lines : list string) (k : nat) (head : string) : Prop :=
  exists rs, verify_window (l_publicKey l) (l_crypto l) (l_path l) 1 (Some "") (take k lines) = inr rs /\
    length rs = k /\ head_of "" rs = head.

(** The watermark, whenever it can be read, names a range that is verified. *)
Definition truthful l w (lines : list string) : Prop :=
  forall w0 m w1, w_fs w0 !! watermarkPath l = w_fs w !! watermarkPath l -> readWatermark l w0 = (inr m, w1) ->
    1 <= wm_Sequence m /\ covered l lines (Z.to_nat (wm_Sequence m)) (wm_HeadHash m).

Lemma covered_extend l lines k j head rs : covered l lines k head -> (k <= length lines)%nat ->
  verify_window (l_publicKey l) (l_crypto l) (l_path l) (Z.of_nat k + 1) (Some head) (take j (drop k lines)) = inr rs ->
  length rs = j -> covered l lines (k + j) (head_of head rs).
Proof.
  intros (rs0 & HV & Hl & <-) Hk HW Hj. exists (rs0 ++ rs). rewrite head_of_app, length_app, Hl, Hj. split_and!; try done.
  assert (take (k + j) lines = take k lines ++ take j (drop k lines)) as ->.
  { rewrite take_drop_commute, <- (take_drop k (take (k + j) lines)) at 1. by rewrite take_take, Nat.min_l by lia. }
  rewrite (verify_window_app _ _ _ _ _ _ _ _ HV), length_take, Nat.min_l by lia. rewrite Z.add_comm in HW. by rewrite HW.
Qed.

Lemma covered_nil l lines : covered l lines 0 "".
Proof. exists []. done. Qed.

Lemma watermark_paths l : l_path l <> watermarkPath l /\ l_path l <> watermarkPath l +:+ ".tmp".
Proof.
  unfold watermarkPath. split; intros HE; apply (f_equal slen) in HE; rewrite ?slen_app in HE; cbn in HE; unfold slen in HE;
    cbn in HE; lia.
Qed.

Lemma readWatermark_frame l w r w' : readWatermark l w = (r, w') -> same_but [] w w'.
Proof.
  unfold readWatermark. pose proof (readBounded_frame (watermarkPath l) 65536 w) as HF.
  destruct (readBoundedPrivateFile _ _ _) as [[e0|d] w1]; cbn in HF; intros HV; split_branches; done.
Qed.

(** Reading back a watermark gives what was written. *)
Lemma writeWatermark_post m l w w' : 1 <= wm_Sequence m <= max_ledger -> wm_Version m = evidenceRecordVersion ->
  is_ascii (wm_HeadHash m) = true -> writeWatermark m l w = (None, w') ->
  same_but [watermarkPath l; watermarkPath l +:+ ".tmp"] w w' /\
  forall w0 m' w1, w_fs w0 !! watermarkPath l = w_fs w' !! watermarkPath l -> readWatermark l w0 = (inr m', w1) -> m' = m.
Proof.
  intros Hs Hver Ha. unfold writeWatermark. destruct (json_Marshal m) as [|b] eqn:HM; [done|].
  destruct (seal_stored _ _ _ _ _ _) as [[|s] w1] eqn:HE; [done|]. intros HW.
  apply seal_same in HE as HF. apply atomicWriteFile_post in HW as [Hfr _ Hok]. destruct (Hok eq_refl) as [Hi _].
  split; [eapply same_but_trans; [by apply same_but_nil|done]|]. intros w0 m' w2 Hsame. unfold readWatermark.
  destruct (readBoundedPrivateFile _ _ _) as [[|d] w3] eqn:HR; [done|].
  apply readBounded_spec in HR as (_ & i & Hi' & _ & _ & -> & _). rewrite Hsame, Hi in Hi'. injection Hi' as <-.
  assert (json_canonical m) as Hcan.
  { apply ec_watermark_ascii; [done|unfold MaxUint64, max_ledger in *; lia|rewrite Hver; unfold evidenceRecordVersion, MaxUint32; lia]. }
  cbn [i_data]. destruct (l_crypto l) as [c|].
  - cbn [seal_stored] in HE. destruct (Encrypt_trimmed _ _ _ _ _ _ _ _ HE) as [_ Ht].
    assert (0 <= wm_Sequence m <= MaxUint64) as Hr by (unfold MaxUint64, max_ledger in *; lia).
    rewrite (Decrypt_Encrypt _ _ "evidence-verified" _ _ _ _ _ eq_refl Hr HE _ None Ht (or_introl eq_refl)).
    rewrite (json_roundtrip _ _ Hcan HM). destruct (_ || _); [done|]. by intros [= <- _].
  - cbn [seal_stored] in HE. injection HE as <- <-. destruct (json_newline _ _ HM) as [_ ->].
    rewrite (json_roundtrip _ _ Hcan HM). destruct (_ || _); [done|]. by intros [= <- _].
Qed.
Lemma truthful_same l l' w w' lines : l_publicKey l' = l_publicKey l -> l_crypto l' = l_crypto l -> l_path l' = l_path l ->
  w_fs w' !! watermarkPath l = w_fs w !! watermarkPath l -> truthful l w lines -> truthful l' w' lines.
Proof.
  intros H1 H2 H3 HF HT w0 m w1. unfold watermarkPath, readWatermark, covered, watermarkPath in *. rewrite H1, H2, H3, HF.
  apply HT.
Qed.

Definition chunk_of l : Z := if l_incrementalChunk l =? 0 then evidenceIncrementalChunkRecords else l_incrementalChunk l.

(** The range one pass starts from: the watermark, or the first record. *)
Lemma pass_start l w lines mark w' : truthful l w lines -> readWatermark l w = (mark, w') ->
  exists k head, match mark with inl _ => (1, "") | inr mark => (u64 (wm_Sequence mark + 1), wm_HeadHash mark) end =
    (u64 (Z.of_nat k + 1), head) /\ covered l lines k head /\ (k <= length lines)%nat.
Proof.
  intros HT HR. destruct mark as [e|m].
  - exists 0%nat, "". split_and!; [done|apply covered_nil|lia].
  - destruct (HT w m w' eq_refl HR) as [Hs HC]. exists (Z.to_nat (wm_Sequence m)), (wm_HeadHash m).
    rewrite Z2Nat.id by lia. split_and!; [done|done|]. destruct HC as (rs & HV & Hl & _).
    apply verify_window_length in HV. rewrite length_take in HV. lia.
Qed.

(** One pass extends the verified range and says "full" only when it covers
    every sealed record. *)
Lemma pass_truthful l w lines seq head l' w' : no_faults w -> reads_as (l_path l) lines w -> truthful l w lines ->
  checkpoint_at (l_headPath l) (l_crypto l) seq head w -> 0 <= seq <= max_ledger -> Z.of_nat (length lines) <= max_ledger ->
  0 <= l_incrementalChunk l <= max_ledger ->
  VerifyIncremental l w = (None, l', w') ->
  truthful l' w' lines /\ reads_as (l_path l') lines w' /\
  (l_verifyScope l' = "full" -> exists k h, (Z.to_nat seq <= k)%nat /\ covered l lines k h).
Proof.
  intros Hf HR HT Hcp Hseq Hlen Hchunk. unfold VerifyIncremental. fold (chunk_of l).
  destruct (l_integrityErr l); [done|].
  destruct (readCheckpoint_calm _ _ _ _ _ Hf Hcp) as (w1 & HF1 & ->). cbn [cp_Version cp_Sequence]. rewrite Z.eqb_refl. cbn [negb].
  destruct (readWatermark l w1) as [mark w2] eqn:HM. apply readWatermark_frame in HM as HF2.
  assert (truthful l w1 lines) as HT1 by (by eapply truthful_same; [..|apply same_nil_fs|exact HT]).
  destruct (pass_start _ _ _ _ _ HT1 HM) as (k & prev & -> & HC & Hk).
  assert (same_but [] w w2) as HF by (by eapply same_but_trans).
  rewrite u64_small by (unfold MaxUint64, max_ledger in *; lia).
  destruct (Z.ltb_spec seq (Z.of_nat k + 1)).
  { cbn. intros [= <- <-]. split_and!.
    - eapply truthful_same; [done..| |exact HT]. cbn. by apply same_nil_fs.
    - eapply reads_as_same; [|apply not_elem_of_nil|exact HR]. destruct HF as (? & ? & HP). by split_and!.
    - intros _. exists k, prev. split; [lia|done]. }
  assert (1 <= chunk_of l <= max_ledger) as Hch.
  { unfold chunk_of. destruct (Z.eqb_spec (l_incrementalChunk l) 0); unfold evidenceIncrementalChunkRecords, max_ledger in *; lia. }
  rewrite (u64_small (Z.of_nat k + 1 + chunk_of l - 1)) by (unfold MaxUint64, max_ledger in *; lia).
  set (to := if seq <? _ then seq else _).
  assert (Z.of_nat k < to <= seq) as Hto by (unfold to; destruct (Z.ltb_spec seq (Z.of_nat k + 1 + chunk_of l - 1)); lia).
  replace to with (Z.of_nat (Z.to_nat to)) by lia. set (t := Z.to_nat to) in *.
  assert (k < t)%nat as Hkt by (unfold t; lia). assert (Z.of_nat t = to) as Htt by (unfold t; lia).
  destruct (verifyEvidenceChain _ _ _ _ _ w2) as [[[[[hd n] rec] size] err] w3] eqn:HV.
  destruct err as [e|]; [done|]. destruct (Z.eqb_spec n (Z.of_nat t)) as [Hn|]; [cbn [negb]|done].
  destruct (chain_range _ _ _ _ _ _ _ _ _ _ _ _ _ _ (no_faults_same _ _ _ HF Hf)
    (reads_as_same _ _ _ _ _ HF (not_elem_of_nil _) HR) Hkt HV Hn) as (HF3 & _ & rs & HW & Hrs & ->).
  pose proof (covered_extend _ _ _ _ _ _ HC Hk HW Hrs) as HC'. replace (k + (t - k))%nat with t in HC' by lia.
  assert (is_ascii (head_of prev rs) = true) as Ha by (eapply window_head_ascii; [exact HW|lia]).
  destruct (writeWatermark _ l w3) as [[e|] w4] eqn:HWM; [done|].
  apply writeWatermark_post in HWM as [HF4 Hread]; [|cbn; lia|done|done].
  assert (same_but [watermarkPath l; watermarkPath l +:+ ".tmp"] w w4) as HF5.
  { eapply same_but_trans; [|exact HF4]. apply same_but_nil. by eapply same_but_trans. }
  assert (reads_as (l_path l) lines w4) as HR4.
  { eapply reads_as_same; [exact HF5| |exact HR]. destruct (watermark_paths l). set_solver. }
  assert (truthful l w4 lines) as HT4.
  { intros w0 m w5 Hsame Hm. rewrite (Hread w0 m w5 Hsame Hm). cbn [wm_Sequence wm_HeadHash]. rewrite Nat2Z.id. split; [lia|done]. }
  destruct (Z.eqb_spec (Z.of_nat t) seq) as [Heq|].
  - cbn. intros [= <- <-]. split_and!; [by eapply truthful_same|by eapply reads_as_same; [|apply not_elem_of_nil|exact HR4]|].
    intros _. exists t, (head_of prev rs). split; [lia|done].
  - cbn. intros [= <- <-]. split_and!; [by eapply truthful_same|done|done].
Qed.
(** Incremental verification is as good as one walk over the file. As long
    as the watermark names a range that is verified from the first record, a
    pass that reports no error leaves such a watermark, and reports "full" only
    when every record the checkpoint seals is verified from the beginning. *)
Theorem incremental_truthful l w lines seq head l' w' : no_faults w -> reads_as (l_path l) lines w -> truthful l w lines ->
  checkpoint_at (l_headPath l) (l_crypto l) seq head w -> 0 <= seq <= max_ledger -> Z.of_nat (length lines) <= max_ledger ->
  0 <= l_incrementalChunk l <= max_ledger ->
  VerifyIncremental l w = (None, l', w') ->
  truthful l' w' lines /\ reads_as (l_path l') lines w' /\
  (l_verifyScope l' = "full" -> exists k rs, (Z.to_nat seq <= k)%nat /\ length rs = k /\
     verify_window (l_publicKey l) (l_crypto l) (l_path l) 1 (Some "") (take k lines) = inr rs).
Proof.
  intros Hf HR HT Hcp Hs Hl Hch HV. destruct (pass_truthful _ _ _ _ _ _ _ Hf HR HT Hcp Hs Hl Hch HV) as (H1 & H2 & H3).
  split_and!; [done|done|]. intros Hfull. destruct (H3 Hfull) as (k & h & Hk & rs & HW & Hlen & _). by exists k, rs.
Qed.

(** An empty ledger does not survive a verification pass. Before anything
    was appended there is no checkpoint, and [VerifyIncremental] records its
    absence as an integrity error: from then on every [Append] is refused. *)
Theorem incremental_quarantines_empty l w r : no_faults w -> unsealed l w -> l_integrityErr l = None ->
  exists l' w', VerifyIncremental l w = (Some (ErrWrap "evidence checkpoint" ErrNotExist), l', w') /\
    forall w2, exists e, Append r l' w2 = (Returns (inl e, l'), w2).
Proof.
  intros Hf (_ & _ & Hh) Hi. unfold VerifyIncremental. rewrite Hi.
  unfold readEvidenceCheckpoint at 1, readBoundedPrivateFile at 1.
  destruct (os_Lstat_calm (l_headPath l) w Hf) as (w1 & _ & ->). rewrite Hh. unfold recordIntegrity.
  eexists _, _. split; [done|]. intros w2. unfold Append. cbn. eauto.
Qed.

(** Lowering the budget below the size of the ledger quarantines it. The
    documented effect is on the next append only; but the next verification
    refuses the intact file for its size and records that as an integrity
    error. *)
Theorem lowered_budget_quarantines l w lines rs settings : sealed l w lines rs -> no_faults w ->
  l_integrityErr l = None -> 0 < ev_MaxBytes settings < l_expectedSize l ->
  exists w' l', Verify (Evidence_ApplyPolicy settings l) w =
    (errors_New "evidence ledger exceeds its size budget", l', w') /\
    l_integrityErr l' = errors_New "evidence ledger exceeds its size budget".
Proof.
  intros [_ _ Hfile _ _ _ _ _ _ Hsize _ _] Hf Hi Hlow. unfold Verify. cbn [Evidence_ApplyPolicy set_evidence_policy l_integrityErr].
  rewrite Hi. unfold Evidence_ApplyPolicy. rewrite (proj2 (Z.ltb_lt _ _)) by lia.
  cbn [set_evidence_policy l_path l_headPath l_publicKey l_crypto l_headHash l_sequence l_expectedSize].
  unfold effectiveMaxBytesLocked. cbn [set_evidence_policy l_policy]. rewrite (proj2 (Z.ltb_lt _ _)) by lia.
  destruct Hfile as [[_ HE]|(i & Hpath & Hp & Hd)]; [rewrite HE in Hsize; change (slen "") with 0 in Hsize; lia|].
  unfold verifyEvidenceFiles, verifyEvidenceChain.
  destruct (os_Lstat_calm (l_path l) w Hf) as (w1 & HF1 & ->). rewrite Hpath.
  destruct (os_Lstat_calm (l_path l) w1) as (w2 & HF2 & ->); [by eapply no_faults_same|].
  rewrite (same_nil_fs _ _ _ HF1), Hpath, Hp, Hd, Hsize. cbn [negb]. rewrite (proj2 (Z.ltb_lt _ _)) by lia.
  unfold failed. eexists _, _. split; [done|]. done.
Qed.

(** ** Text that is not UTF-8 *)

Lemma invalid_text_refused r n p pub e : validateEvidenceText r = Some e ->
  exists e', verifyEvidenceRecord r n p pub = Some e'.
Proof.
  intros HV. unfold verifyEvidenceRecord. destruct (_ || Time.IsZero _); [by eexists|].
  destruct (negb _); [by eexists|]. rewrite HV. by eexists.
Qed.

(** Text that is not valid UTF-8 can poison the ledger. [Append] measures the
    bytes it is given, JSON stores every invalid byte as the three bytes of
    U+FFFD, and verification measures those: a record that fits when it is
    appended and does not fit when it is read back makes the whole ledger fail
    verification although [Append] reported success. *)
Theorem invalid_text_poisons r l w lines rs r1 l' w' e0 : sealed l w lines rs -> slen (er_ID r) <= id_limit -> clock_set w ->
  Append r l w = (Returns (inr r1, l'), w') -> validateEvidenceText (coerce_record r1) = Some e0 -> no_faults w' ->
  exists size e w2,
    verifyEvidenceFiles (l_path l) (l_headPath l) (l_publicKey l) (l_crypto l) (effectiveMaxBytesLocked l) w' =
      (failed size e, w2).
Proof.
  intros [Hch [Hp1 Hp2] Hfile _ HL HB HV Hcount Hhead Hsize Hbud _] Hr Hc. unfold Append.
  destruct (l_integrityErr l); [done|]. destruct (fill_identity r w) as [[[id now]|] w1] eqn:HI; [|done].
  destruct (fill_identity_post _ l _ _ _ _ Hr Hc HI) as (HF1 & Hst & _).
  destruct (validateEvidenceText _) eqn:HT; [done|]. specialize (Hst eq_refl).
  destruct (verifyUnchangedLocked l w1) as [[e|] w2] eqn:HU; [done|]. apply verifyUnchanged_frame in HU.
  destruct (commit_record _ l w2) as [[res' l2] w3] eqn:HC. intros [= -> -> ->] Hbad Hf.
  destruct (commit_success _ _ _ _ _ _ _ _ Hch Hst HC) as
    (b & s & w4 & w5 & HM & HE & HA & HF5 & Ho2 & Hb2 & Hl2 & Hroom & Hcp).
  apply seal_same in HE as HF4. assert (same_but [] w w4) as HF by (eapply same_but_trans; [by eapply same_but_trans|done]).
  eapply file_text_same in Hfile; [|exact HF|apply not_elem_of_nil].
  destruct (append_line_post _ _ _ _ _ _ Hfile HA) as (_ & k & HTx & Hk). rewrite (Hk eq_refl), of_bytes_of, <- lines_text_snoc in HTx.
  eapply file_text_same in HTx; [|exact HF5|set_solver].
  assert (exists e, verify_window (l_publicKey l) (l_crypto l) (l_path l) 1 (Some "") (lines ++ [s]) = inl e) as [e HW].
  { rewrite (verify_window_app _ _ _ _ _ _ _ _ HV). cbn [verify_window]. rewrite Hcount, Hhead. unfold verify_line.
    assert (0 <= l_sequence l + 1 <= MaxUint64) as Hrg by (destruct Hch; lia). rewrite (Z.add_comm 1).
    destruct (open_seal _ _ _ _ _ _ _ _ _ HE eq_refl Hrg (or_intror eq_refl)) as [-> _].
    unfold decodeEvidenceRecord. rewrite (ec_record_decode _ _ HM).
    match goal with |- context [verifyEvidenceRecord ?r ?n ?p ?k] =>
      destruct (invalid_text_refused r n p k _ Hbad) as [e' ->] end.
    by eexists. }
  assert (Forall one_line (lines ++ [s])) as HL' by (apply Forall_app; by split; [|constructor]).
  destruct HTx as [[_ HE']|(i & Hi & Hpr & Hd)].
  { pose proof (lines_text_len (lines ++ [s])) as HLL. rewrite HE', length_app in HLL. change (slen "") with 0 in HLL. cbn in HLL. lia. }
  unfold verifyEvidenceFiles, verifyEvidenceChain. destruct (os_Lstat_calm (l_path l) w' Hf) as (w6 & HF6 & ->). rewrite Hi.
  destruct (os_Lstat_calm (l_path l) w6) as (w7 & HF7 & ->); [by eapply no_faults_same|].
  rewrite (same_nil_fs _ _ _ HF6), Hi, Hpr. cbn [negb]. destruct (_ <? slen _); [by unfold failed; eauto|].
  assert (same_but [] w' w7) as HF8 by (by eapply same_but_trans).
  destruct (scan_text_calm (l_path l) w7 i (lines ++ [s])) as (w8 & HF9 & ->);
    [by eapply no_faults_same|by rewrite (same_nil_fs _ _ _ HF8)|by rewrite Hd, scan_lines_text|].
  pose proof (walk_verify (l_publicKey l) (l_crypto l) (l_path l) (mkBounds 1 0 "") (lines ++ [s]) 0 "" "" []) as Hwalk.
  specialize (Hwalk ltac:(cbn; lia) ltac:(cbn; lia) ltac:(by left)).
  change (in_range (mkBounds 1 0 "") 0 (lines ++ [s])) with (lines ++ [s]) in Hwalk. change (0 + 1) with 1 in Hwalk.
  rewrite HW in Hwalk. cbn [b_PrevHash]. rewrite Hwalk. unfold failed. eauto.
Qed.
End Verify.
