(* ===== verification/EvidenceInstances.v ===== *)
(** * Concrete instances for the evidence ledger

    A line-oriented codec that satisfies the laws of EvidenceFacts.v and
    EvidenceVerify.v, and a toy signature scheme, so that the witnesses
    evaluate. *)

From Stdlib Require Import ZArith Lia Ascii String.
From stdpp Require Import base gmap strings list countable.
From S2P Require Import Prelude.
From S2P Require Import GoLib.
From S2P Require Import Strconv.
From S2P Require Import Text.
From S2P Require Import World.
From S2P Require Import Storage.
From S2P Require Import Instances.
From S2P Require Import Lines.
From S2P Require Import Evidence.
From S2P Require Import EvidenceFacts.
From S2P Require Import EvidenceVerify.

(** ** An object on one line: hexadecimal fields, a comma after each *)

Definition enc_fields (fs : list string) : list ascii :=
  concat (map (fun s => bytes_of (hex_EncodeToString s) ++ [","%char]) fs).

Fixpoint dec_fields (l cur : list ascii) : option (list string) :=
  match l with
  | [] => match cur with [] => Some [] | _ => None end
  | c :: l =>
      if Ascii.eqb c "," then
        match hex_decode_list cur, dec_fields l [] with
        | Some b, Some r => Some (of_bytes b :: r)
        | _, _ => None
        end
      else dec_fields l (cur ++ [c])
  end.

Definition object_text (fs : list string) : string := of_bytes ("{"%char :: enc_fields fs ++ ["}"%char]).

Definition object_fields (s : string) : option (list string) :=
  match bytes_of s with
  | c :: l => if Ascii.eqb c "{" then
                match rev l with
                | d :: r => if Ascii.eqb d "}" then dec_fields (rev r) [] else None
                | [] => None
                end
              else None
  | [] => None
  end.

Lemma hex_bytes_lower s : Forall (fun c => is_lower_hex c = true) (bytes_of (hex_EncodeToString s)).
Proof.
  pose proof (hex_encode_lower s) as H. rewrite string_forallb_bytes, forallb_forall in H.
  apply List.Forall_forall. exact H.
Qed.

Lemma lower_hex_not c d : is_lower_hex c = true -> is_lower_hex d = false -> c <> d.
Proof. intros H1 H2 ->. congruence. Qed.

Lemma dec_field h rest cur : Forall (fun c => is_lower_hex c = true) h ->
  dec_fields (h ++ ","%char :: rest) cur =
  match hex_decode_list (cur ++ h), dec_fields rest [] with Some b, Some r => Some (of_bytes b :: r) | _, _ => None end.
Proof.
  intros HF. revert cur. induction HF as [|c h Hc _ IH]; intros cur; cbn; [by rewrite app_nil_r|].
  destruct (Ascii.eqb_spec c ",") as [->|_]; [done|]. rewrite IH. by rewrite <- app_assoc.
Qed.

Lemma dec_enc fs : dec_fields (enc_fields fs) [] = Some fs.
Proof.
  unfold enc_fields. induction fs as [|s fs IH]; [done|]. cbn [map concat]. rewrite <- app_assoc. cbn [app].
  rewrite dec_field by apply hex_bytes_lower. cbn [app]. rewrite IH.
  pose proof (hex_roundtrip s) as HR. unfold hex_DecodeString in HR.
  destruct (hex_decode_list _) as [b|]; [|done]. cbn in HR. injection HR as ->. done.
Qed.

Lemma object_roundtrip fs : object_fields (object_text fs) = Some fs.
Proof.
  unfold object_fields, object_text. rewrite bytes_of_of. cbn [Ascii.eqb Bool.eqb]. rewrite rev_app_distr. cbn.
  rewrite rev_involutive. apply dec_enc.
Qed.

Lemma object_trim fs : TrimSpace (object_text fs) = object_text fs /\ TrimSpace (object_text fs +:+ newline) = object_text fs.
Proof. split; [by apply trim_solid|by apply trim_solid_newline]. Qed.

Lemma object_chars fs c : is_lower_hex c = false -> c <> ","%char -> c <> "{"%char -> c <> "}"%char ->
  c ∉ bytes_of (object_text fs).
Proof.
  intros Hc H1 H2 H3. unfold object_text. rewrite bytes_of_of, not_elem_of_cons, not_elem_of_app, list_elem_of_singleton.
  split_and!; [done| |done]. unfold enc_fields. induction fs as [|s fs IH]; [apply not_elem_of_nil|].
  cbn [map concat]. rewrite !not_elem_of_app, list_elem_of_singleton. split_and!; [|done|done].
  intros Hin. pose proof (hex_bytes_lower s) as HF. rewrite List.Forall_forall in HF. apply list_elem_of_In, HF in Hin. congruence.
Qed.

Lemma slen_object fs : slen (object_text fs) = 2 + foldr (fun s n => 2 * slen s + 1 + n) 0 fs.
Proof.
  unfold object_text. rewrite slen_of_bytes. cbn [length]. rewrite length_app. cbn [length].
  unfold enc_fields. induction fs as [|s fs IH]; [done|]. cbn [map concat foldr]. rewrite !length_app. cbn [length].
  pose proof (hex_encode_length s) as HL. unfold slen in HL at 1. rewrite <- length_bytes_of in HL. lia.
Qed.

(** ** A codec from fields *)

Class LineFields (T : Type) := {
  line_fields : T -> list string;
  line_of : list string -> option T;
  line_ok : T -> bool;
  line_norm : T -> T;
  line_canonical : T -> Prop;
  line_law : forall x, line_ok x = true -> line_of (line_fields x) = Some (line_norm x);
  line_canonical_norm : forall x, line_canonical x -> line_norm x = x;
}.

#[export] Instance line_json {T} `{LineFields T} : JSONDoc T | 0 := {
  json_Marshal x := if line_ok x then inr (object_text (line_fields x)) else inl (ErrText "unsupported value");
  json_Decode s :=
    match object_fields (TrimSpace s) ≫= line_of with
    | Some x => inr x
    | None => inl (ErrText "invalid document")
    end;
  json_canonical := line_canonical;
}.

Lemma line_marshal {T} `{LineFields T} (x : T) b : json_Marshal x = inr b -> line_ok x = true /\ b = object_text (line_fields x).
Proof. cbn. destruct (line_ok x); [|done]. by intros [= <-]. Qed.

Lemma line_decode {T} `{LineFields T} (x : T) b : json_Marshal x = inr b -> json_Decode b = inr (line_norm x).
Proof.
  intros [Hok ->]%line_marshal. cbn [json_Decode line_json]. destruct (object_trim (line_fields x)) as [-> _].
  rewrite object_roundtrip. cbn [mbind option_bind]. by rewrite line_law.
Qed.

#[export] Instance line_laws {T} `{LineFields T} : JSONDocLaws T.
Proof.
  split.
  - intros x b Hc HM. rewrite (line_decode _ _ HM). by rewrite line_canonical_norm.
  - intros x b [_ ->]%line_marshal. split; [apply object_trim|done].
  - intros x b [_ ->]%line_marshal. destruct (object_trim (line_fields x)) as [H1 H2]. split; [done|].
    cbn [json_Decode line_json]. by rewrite H1, H2.
Qed.

#[export] Instance line_line {T} `{LineFields T} : JSONLine T.
Proof.
  split.
  - intros x b [_ ->]%line_marshal. split; by apply object_chars.
  - intros x b [_ ->]%line_marshal. unfold braced, object_text. rewrite bytes_of_of. by eexists.
Qed.

(** ** Sizes *)

Lemma length_pos_bits p k : Zpos p < 2 ^ Z.of_nat k -> (length (pos_bits p) <= k)%nat.
Proof.
  revert k. induction p as [q IH|q IH|]; intros k Hk; cbn [pos_bits length];
    (destruct k as [|k]; [cbn in Hk; lia|]); rewrite Nat2Z.inj_succ, Z.pow_succ_r in Hk by lia;
    try (specialize (IH k); lia). lia.
Qed.

Lemma slen_ser_Z z k : 0 <= z < 2 ^ Z.of_nat k -> slen (ser_Z z) <= Z.of_nat k + 1.
Proof.
  intros Hz. destruct z as [|p|p]; [unfold slen; cbn; lia| |lia]. unfold ser_Z. rewrite slen_of_bytes. cbn [length].
  pose proof (length_pos_bits p k). lia.
Qed.

Lemma slen_ser_u64 z : slen (ser_Z (u64 z)) <= 65.
Proof. apply (slen_ser_Z _ 64). apply wrap_range. lia. Qed.

Lemma slen_coerce s : slen (coerce_utf8 s) <= 3 * slen s.
Proof.
  unfold coerce_utf8. rewrite slen_of_bytes. unfold slen. rewrite <- length_bytes_of at 2.
  generalize (String.length s) as fuel. generalize (bytes_of s) as l. intros l fuel.
  revert l. induction fuel as [|fuel IH]; intros [|c l]; cbn [coerce_list length]; try lia.
  destruct (rune_len (c :: l)) as [|n].
  - specialize (IH l). rewrite length_app. cbn [length replacement]. lia.
  - specialize (IH (drop (S n) (c :: l))). rewrite length_app, length_take. rewrite length_drop in IH. cbn [length] in *. lia.
Qed.

(** ** The documents *)

#[export, refine] Instance envelope_line : LineFields encryptedStorageEnvelope | 0 := {
  line_fields e := [Schema e; Cipher e; Purpose e; ser_Z (u64 (Sequence e)); AADHash e; Nonce e; Ciphertext e];
  line_of l :=
    match l with
    | [a; b; c; d; e; f; g] => match unser_Z d with Some n => Some (mkEnvelope a b c n e f g) | None => None end
    | _ => None
    end;
  line_ok _ := true;
  line_norm e := mkEnvelope (Schema e) (Cipher e) (Purpose e) (u64 (Sequence e)) (AADHash e) (Nonce e) (Ciphertext e);
  line_canonical e := 0 <= Sequence e <= MaxUint64;
}.
Proof.
  - intros [] _. cbn -[u64]. by rewrite unser_ser_Z.
  - intros [] Hs. cbn in *. by rewrite u64_small.
Defined.

#[export, refine] Instance line_probe : EnvelopeProbe | 0 := {
  json_ProbeSchema s :=
    match json_Decode (T := encryptedStorageEnvelope) s with inr e => Some (Schema e) | inl _ => None end;
}.
Proof.
  - intros e ? ? ? ? ? ? ?. done.
  - intros e b [_ ->]%line_marshal. rewrite slen_object. cbn [line_fields envelope_line foldr]. unfold slen. lia.
  - intros e b H1 H2. by rewrite (json_roundtrip e b H1 H2).
Defined.

Definition in_u80 (z : Z) : bool := (0 <=? z) && (z <? 2 ^ 80).

Lemma in_u80_len z : in_u80 z = true -> slen (ser_Z z) <= 81.
Proof. intros H. unfold in_u80 in H. bool_to_prop. apply (slen_ser_Z z 80). cbn. lia. Qed.

#[export, refine] Instance record_line : LineFields EvidenceRecord := {
  line_fields r :=
    [ser_Z (er_Version r); ser_Z (er_Sequence r); coerce_utf8 (er_ID r); ser_Z (er_Time r); coerce_utf8 (er_Severity r);
     coerce_utf8 (er_Kind r); coerce_utf8 (er_Source r); coerce_utf8 (er_Message r); coerce_utf8 (er_Target r);
     coerce_utf8 (er_RequestID r); coerce_utf8 (er_PrevHash r); coerce_utf8 (er_Hash r); coerce_utf8 (er_Signature r)];
  line_of l :=
    match l with
    | [a; b; id; t; c; d; e; f; g; h; i; j; k] =>
        match unser_Z a, unser_Z b, unser_Z t with
        | Some v, Some s, Some t => Some (mkEvidence v s id t c d e f g h i j k)
        | _, _, _ => None
        end
    | _ => None
    end;
  line_ok r := in_u80 (er_Version r) && in_u80 (er_Sequence r) && in_u80 (er_Time r);
  line_norm := coerce_record;
  line_canonical r := coerce_record r = r;
}.
Proof.
  - intros r _. cbn. by rewrite !unser_ser_Z.
  - done.
Defined.

#[export, refine] Instance payload_line : LineFields evidencePayload := {
  line_fields r :=
    [ser_Z (ep_Version r); ser_Z (ep_Sequence r); ep_ID r; ser_Z (ep_Time r); ep_Severity r;
     ep_Kind r; ep_Source r; ep_Message r; ep_Target r; ep_RequestID r; ep_PrevHash r];
  line_of l :=
    match l with
    | [a; b; id; t; c; d; e; f; g; h; i] =>
        match unser_Z a, unser_Z b, unser_Z t with
        | Some v, Some s, Some t => Some (mkPayload v s id t c d e f g h i)
        | _, _, _ => None
        end
    | _ => None
    end;
  line_ok _ := true;
  line_norm x := x;
  line_canonical _ := True;
}.
Proof.
  - intros [] _. cbn. by rewrite !unser_ser_Z.
  - done.
Defined.

#[export, refine] Instance checkpoint_line : LineFields evidenceCheckpoint := {
  line_fields r := [ser_Z (u64 (cp_Version r)); ser_Z (u64 (cp_Sequence r)); cp_HeadHash r];
  line_of l :=
    match l with
    | [a; b; h] => match unser_Z a, unser_Z b with Some v, Some s => Some (mkCheckpoint v s h) | _, _ => None end
    | _ => None
    end;
  line_ok _ := true;
  line_norm r := mkCheckpoint (u64 (cp_Version r)) (u64 (cp_Sequence r)) (cp_HeadHash r);
  line_canonical r := 0 <= cp_Version r <= MaxUint64 /\ 0 <= cp_Sequence r <= MaxUint64;
}.
Proof.
  - intros [] _. cbn -[u64]. by rewrite !unser_ser_Z.
  - intros [] [H1 H2]. cbn in *. by rewrite !u64_small.
Defined.

#[export, refine] Instance watermark_line : LineFields evidenceWatermark := {
  line_fields r := [ser_Z (u64 (wm_Version r)); ser_Z (u64 (wm_Sequence r)); wm_HeadHash r; "verified"];
  line_of l :=
    match l with
    | [a; b; h; _] => match unser_Z a, unser_Z b with Some v, Some s => Some (mkWatermark v s h) | _, _ => None end
    | _ => None
    end;
  line_ok _ := true;
  line_norm r := mkWatermark (u64 (wm_Version r)) (u64 (wm_Sequence r)) (wm_HeadHash r);
  line_canonical r := 0 <= wm_Version r <= MaxUint64 /\ 0 <= wm_Sequence r <= MaxUint64;
}.
Proof.
  - intros [] _. cbn -[u64]. by rewrite !unser_ser_Z.
  - intros [] [H1 H2]. cbn in *. by rewrite !u64_small.
Defined.

#[export] Instance evidence_codecs : EvidenceCodecs.
Proof.
  split; try apply _.
  - split. intros e b [_ ->]%line_marshal. rewrite slen_object. cbn [line_fields envelope_line foldr]. unfold envelope_text.
    pose proof (slen_ser_u64 (Sequence e)). unfold slen in *. lia.
  - split. intros r b [Hok ->]%line_marshal. cbn [line_ok record_line] in Hok. bool_to_prop.
    rewrite slen_object. cbn [line_fields record_line foldr]. unfold record_text.
    repeat match goal with H : in_u80 _ = true |- _ => apply in_u80_len in H end.
    pose proof (slen_coerce (er_ID r)). pose proof (slen_coerce (er_Severity r)). pose proof (slen_coerce (er_Kind r)).
    pose proof (slen_coerce (er_Source r)). pose proof (slen_coerce (er_Message r)). pose proof (slen_coerce (er_Target r)).
    pose proof (slen_coerce (er_RequestID r)). pose proof (slen_coerce (er_PrevHash r)). pose proof (slen_coerce (er_Hash r)).
    pose proof (slen_coerce (er_Signature r)). unfold slen in *. lia.
  - intros r b HM. by rewrite (line_decode _ _ HM).
  - split. intros r b [_ ->]%line_marshal. rewrite slen_object. cbn [line_fields checkpoint_line foldr].
    pose proof (slen_ser_u64 (cp_Version r)). pose proof (slen_ser_u64 (cp_Sequence r)). unfold slen in *. lia.
  - intros r _ H1 H2. split; [|done]. unfold MaxUint64, MaxUint32 in *. lia.
  - intros r b [_ ->]%line_marshal. cbn [json_ProbeSchema line_probe json_Decode line_json].
    destruct (object_trim (line_fields r)) as [-> _]. rewrite object_roundtrip. done.
  - intros r. by eexists.
  - intros r. by eexists.
  - intros r. by eexists.
  - intros r _ H1 H2. split; [|done]. unfold MaxUint64, MaxUint32 in *. lia.
Qed.

#[export] Instance payload_codec : PayloadCodec.
Proof. split; [done|apply _]. Qed.

(** ** A toy signature *)
#[export] Instance toy_ed25519 : Ed25519 := {
  ed_NewKeyFromSeed seed := fit 64 seed;
  ed_Public k := fit 32 k;
  ed_Sign k m := fit 64 (fit 32 k +:+ m);
  ed_Verify pub m sig := bool_decide (sig = fit 64 (pub +:+ m));
}.

#[export] Instance toy_ed25519_laws : Ed25519Laws toy_ed25519.
Proof. split; intros; cbn; [by apply bool_decide_eq_true|by rewrite slen_fit]. Qed.
