(* ===== verification/EvidenceWitness.v ===== *)
(** * Witnesses for the evidence ledger *)

From Stdlib Require Import ZArith Lia Ascii String.
From stdpp Require Import base gmap strings list.
From S2P Require Import Prelude.
From S2P Require Import GoLib.
From S2P Require Import Text.
From S2P Require Import World.
From S2P Require Import Storage.
From S2P Require Import Instances.
From S2P Require Import Lines.
From S2P Require Import Evidence.
From S2P Require Import EvidenceFacts.
From S2P Require Import EvidenceAppend.
From S2P Require Import EvidenceRecovery.
From S2P Require Import EvidenceVerify.
From S2P Require Import EvidenceInstances.

Definition demo_settings : EvidenceFabricSettings := mkEvidenceSettings 1048576 900 100 500.

Definition demo_ledger (c : option StorageCipher) : EvidenceLedger :=
  let key := ed_NewKeyFromSeed "seed" in
  mkLedger "/e/ledger" "/e/ledger.head" "/e/key" "/e/key.pub" key (ed_Public key) c 0 "" 0 1048576 None false []
    demo_settings "empty" None 25000.

Definition demo_record (message target : string) : EvidenceRecord :=
  mkEvidence 0 0 "" 0 "info" "demo" "test" message target "" "" "" "".

Definition demo_w0 : world unit := calm_world tt.

Lemma ledger_calm : no_faults demo_w0. Proof. done. Qed.
Lemma ledger_clock : clock_set demo_w0. Proof. intros n. done. Qed.

Lemma demo_sealed c : sealed (demo_ledger c) demo_w0 [] [].
Proof.
  constructor; try done; by left.
Qed.

Lemma demo_request message target : utf8_ValidString message = true -> utf8_ValidString target = true ->
  request (demo_record message target).
Proof. intros Hm Ht. by split; [constructor|]. Qed.

(** Two appends. *)
Definition first_run (c : option StorageCipher) := Append (demo_record "started" "") (demo_ledger c) demo_w0.
Definition after (run : outcome ((goerror + EvidenceRecord) * EvidenceLedger) * world unit) : EvidenceLedger * world unit :=
  match run with (Returns (_, l), w) => (l, w) | (Panics, w) => (demo_ledger None, w) end.
Definition ledger1 c : EvidenceLedger := (after (first_run c)).1.
Definition world1 c : world unit := (after (first_run c)).2.

Lemma run_returns (run : outcome ((goerror + EvidenceRecord) * EvidenceLedger) * world unit) :
  match run with (Returns (inr _, _), _) => true | _ => false end = true ->
  exists r1, run = (Returns (inr r1, (after run).1), (after run).2).
Proof. destruct run as [[[[e|r1] l]|] w]; try done. by exists r1. Qed.

Lemma run_fails (run : outcome ((goerror + EvidenceRecord) * EvidenceLedger) * world unit) :
  match run with (Returns (inl _, _), _) => true | _ => false end = true ->
  exists e, run = (Returns (inl e, (after run).1), (after run).2).
Proof. destruct run as [[[[e|r1] l]|] w]; try done. by exists e. Qed.

Lemma append_keeps_sealed_witness : exists r1,
  Append (demo_record "started" "") (demo_ledger None) demo_w0 = (Returns (inr r1, ledger1 None), world1 None) /\
  l_sequence (ledger1 None) = 1 /\ l_headHash (ledger1 None) = er_Hash r1.
Proof.
  destruct (run_returns (first_run None)) as [r1 HR]; [by vm_compute|]. exists r1. split; [exact HR|].
  pose proof (append_keeps_sealed (demo_record "started" "") (demo_ledger None) demo_w0 [] [] r1 (ledger1 None) (world1 None)
    (demo_sealed None) (demo_request "started" "" eq_refl eq_refl) ledger_clock HR) as (_ & H1 & H2 & _). exact (conj H1 H2).
Defined.

(** The same disk under another oracle. *)
Definition faulty (k : nat) : Oracle :=
  mkOracle (fun n => if Nat.eqb n k then Some "input/output error" else None) (fun _ => 0%nat)
    (fun _ => "entropy-entropy-entropy") (fun _ => 63900000000 * Time.Second).
Definition reboot (o : Oracle) (w : world unit) : world unit := mkWorld (w_fs w) 0 o tt.

Lemma sealed_fs l (w w' : world unit) lines rs : w_fs w' = w_fs w -> sealed l w lines rs -> sealed l w' lines rs.
Proof.
  intros HF []. constructor; try done.
  - unfold file_text in *. by rewrite HF.
  - by rewrite HF.
  - unfold unsealed, checkpoint_at in *. by rewrite HF.
Qed.

Lemma sealed1 c : match first_run c with (Returns (inr _, _), _) => true | _ => false end = true ->
  exists r1 s, sealed (ledger1 c) (world1 c) [s] [r1].
Proof.
  intros HR. destruct (run_returns _ HR) as [r1 HR1].
  destruct (Append_post _ _ _ _ _ _ _ _ (demo_sealed c) (demo_request "started" "" eq_refl eq_refl) ledger_clock HR1) as [s HS].
  by exists r1, s.
Qed.

(** The write of the second record is not confirmed. *)
Definition torn_run := Append (demo_record "second" "") (ledger1 None) (reboot (faulty 9) (world1 None)).
Definition restarted : world unit := reboot calm_oracle (after torn_run).2.

Lemma interrupted_append_recovers_witness : exists head n recent size scope w3,
  verifyEvidenceFilesBounded "/e/ledger" "/e/ledger.head" (l_publicKey (ledger1 None)) None 1048576 16 restarted =
    ((head, n, recent, size, None, scope), w3) /\ (n = 1 \/ n = 2).
Proof.
  destruct (sealed1 None) as (r1 & s & HS); [by vm_compute|].
  destruct (run_fails torn_run) as [e HR]; [by vm_compute|].
  destruct (interrupted_append_recovers (demo_record "second" "") (ledger1 None) (reboot (faulty 9) (world1 None)) [s] [r1] e
    (after torn_run).1 (after torn_run).2 restarted 16) as (head & n & recent & size & scope & w3 & HV & HC).
  - apply (sealed_fs _ (world1 None)); [reflexivity|exact HS].
  - by vm_compute.
  - exact (demo_request "second" "" eq_refl eq_refl).
  - intros n. done.
  - exact HR.
  - reflexivity.
  - intros n. done.
  - intros n. split; [vm_compute; reflexivity|]. split; intros HE; apply (f_equal String.length) in HE; vm_compute in HE; lia.
  - exists head, n, recent, size, scope, w3. split; [exact HV|].
    assert (l_sequence (ledger1 None) = 1) as H1 by (by vm_compute).
    destruct HC as [[-> _]|(s' & r' & _ & -> & _)]; rewrite H1; [by left|by right].
Defined.

Lemma restart_adopts :
  (verifyEvidenceFilesBounded "/e/ledger" "/e/ledger.head" (l_publicKey (ledger1 None)) None 1048576 16 restarted).1.1.1.1.1.2 = 2.
Proof. by vm_compute. Qed.

Definition three_lines : world unit :=
  mkWorld {[ "/e/ledger" := mkInode Regular 384 (lines_text ["{1}"; "{2}"; ""; "{3}"; "{4}"]) ]} 0 calm_oracle tt.

Lemma evidence_window_exact_witness : exists n window w',
  evidenceLineWindow "/e/ledger" (Some (3, 2%nat)) three_lines = (inr (n, window), w') /\ window = ["{2}"; "{3}"].
Proof.
  destruct (evidenceLineWindow "/e/ledger" (Some (3, 2%nat)) three_lines) as [[e|[n window]] w'] eqn:HW; [by vm_compute in HW|].
  exists n, window, w'. split; [reflexivity|].
  destruct (evidence_window_exact _ _ _ _ _ _ _ (le_S _ _ (le_n 1)) HW) as (i & lines & Hi & HD & _ & ->).
  vm_compute in Hi. injection Hi as <-. vm_compute in HD. injection HD as <-. by vm_compute.
Defined.

(** The first record of a chain is written and not sealed: the checkpoint
    cannot be renamed. *)
Definition first_torn := Append (demo_record "started" "") (demo_ledger None) (reboot (faulty 7) demo_w0).
Definition first_restart : world unit := reboot calm_oracle (after first_torn).2.

Lemma first_append_not_recovered_witness : exists size w',
  verifyEvidenceFilesBounded "/e/ledger" "/e/ledger.head" (l_publicKey (demo_ledger None)) None 1048576 16 first_restart =
    ((failed size ErrNotExist, ""), w').
Proof.
  destruct (w_fs first_restart !! "/e/ledger") as [i|] eqn:Hi; [|by vm_compute in Hi].
  exists (slen (i_data i)). apply (first_append_not_recovered "/e/ledger" "/e/ledger.head" _ None 1048576 16 i first_restart).
  - intros n. reflexivity.
  - exact Hi.
  - vm_compute in Hi. injection Hi as <-. by vm_compute.
  - vm_compute in Hi. injection Hi as <-. vm_compute. split; [reflexivity|discriminate].
  - by vm_compute.
Defined.

Lemma incremental_quarantines_empty_witness : exists l' w',
  VerifyIncremental (demo_ledger None) demo_w0 = (Some (ErrWrap "evidence checkpoint" ErrNotExist), l', w') /\
  forall w2 : world unit, exists e, Append (demo_record "started" "") l' w2 = (Returns (inl e, l'), w2).
Proof.
  apply (incremental_quarantines_empty (demo_ledger None) demo_w0 (demo_record "started" "")).
  - exact ledger_calm.
  - by split_and!.
  - reflexivity.
Defined.

Lemma lowered_budget_quarantines_witness : exists w' l',
  Verify (Evidence_ApplyPolicy (mkEvidenceSettings 100 900 100 500) (ledger1 None)) (world1 None) =
    (errors_New "evidence ledger exceeds its size budget", l', w') /\
  l_integrityErr l' = errors_New "evidence ledger exceeds its size budget".
Proof.
  destruct (sealed1 None) as (r1 & s & HS); [by vm_compute|].
  apply (lowered_budget_quarantines (ledger1 None) (world1 None) [s] [r1]); [exact HS|..].
  - intros n. by vm_compute.
  - by vm_compute.
  - vm_compute. split; reflexivity.
Defined.

Definition bad_target : string := of_bytes (replicate 400 (ascii_of_N 255)).
Definition poison_run := Append (demo_record "seen" bad_target) (demo_ledger None) demo_w0.

Lemma invalid_text_poisons_witness : exists r1 size e w2,
  poison_run = (Returns (inr r1, (after poison_run).1), (after poison_run).2) /\
  verifyEvidenceFiles "/e/ledger" "/e/ledger.head" (l_publicKey (demo_ledger None)) None 1048576 (after poison_run).2 =
    (failed size e, w2).
Proof.
  destruct (run_returns poison_run) as [r1 HR]; [by vm_compute|]. exists r1.
  destruct (validateEvidenceText (coerce_record r1)) as [e0|] eqn:HB.
  - destruct (invalid_text_poisons _ _ _ _ _ _ _ _ e0 (demo_sealed None)
      (ltac:(by vm_compute) : slen (er_ID (demo_record "seen" bad_target)) <= id_limit) ledger_clock HR HB) as (size & e & w2 & HV).
    + intros n. by vm_compute.
    + exists size, e, w2. split; [exact HR|exact HV].
  - exfalso. apply (f_equal (fun x => match x with (Returns (inr r, _), _) => validateEvidenceText (coerce_record r) | _ => None end)) in HR.
    rewrite HB in HR. by vm_compute in HR.
Defined.

Definition demo_cipher : option StorageCipher := Some (mkStorageCipher "root-key-root-key-root-key-root-k" "node-1").

(** The same record in a plaintext and in an encrypted ledger. *)
Lemma head_commits_to_history_witness : exists s1 s2 r1 r2, s1 <> s2 /\
  verify_window (l_publicKey (ledger1 None)) None "/e/ledger" 1 (Some "") [s1] = inr [r1] /\
  verify_window (l_publicKey (ledger1 demo_cipher)) demo_cipher "/e/ledger" 1 (Some "") [s2] = inr [r2] /\
  (collision [r1] [r2] \/ map payload_of [r1] = map payload_of [r2]).
Proof.
  destruct (sealed1 None) as (r1 & s1 & HS1); [by vm_compute|].
  destruct (sealed1 demo_cipher) as (r2 & s2 & HS2); [by vm_compute|].
  pose proof (se_verify _ _ _ _ HS1) as HV1. pose proof (se_verify _ _ _ _ HS2) as HV2.
  assert (l_path (ledger1 None) = "/e/ledger" /\ l_crypto (ledger1 None) = None) as [HP1 HC1]
    by (split; vm_compute; reflexivity).
  assert (l_path (ledger1 demo_cipher) = "/e/ledger" /\ l_crypto (ledger1 demo_cipher) = demo_cipher) as [HP2 HC2]
    by (split; vm_compute; reflexivity).
  rewrite HP1, HC1 in HV1. rewrite HP2, HC2 in HV2. exists s1, s2, r1, r2.
  split; [|split; [exact HV1|split; [exact HV2|]]].
  - intros ->. pose proof (se_size _ _ _ _ HS1) as HZ1. rewrite (se_size _ _ _ _ HS2) in HZ1. by vm_compute in HZ1.
  - apply (head_commits_to_history _ _ _ _ _ _ _ _ _ HV1 HV2).
    rewrite (se_head _ _ _ _ HS1), (se_head _ _ _ _ HS2). by vm_compute.
Defined.

Definition second_run (c : option StorageCipher) := Append (demo_record "second" "") (ledger1 c) (world1 c).

Definition ledger2 c : EvidenceLedger := (after (second_run c)).1.

(** The ledger has two records; the attacker keeps the first. *)
Lemma checkpoint_not_authenticated_witness : exists (w2 : world unit) r1 recent size scope w3,
  l_sequence (ledger2 demo_cipher) = 2 /\ l_crypto (ledger2 demo_cipher) = demo_cipher /\
  verifyEvidenceFilesBounded (l_path (ledger2 demo_cipher)) (l_headPath (ledger2 demo_cipher))
    (l_publicKey (ledger2 demo_cipher)) (l_crypto (ledger2 demo_cipher))
    (effectiveMaxBytesLocked (ledger2 demo_cipher)) 16 w2 = ((er_Hash r1, 1, recent, size, None, scope), w3).
Proof.
  destruct (sealed1 demo_cipher) as (r1 & s1 & HS1); [by vm_compute|].
  destruct (run_returns (second_run demo_cipher)) as [r2 HR]; [by vm_compute|].
  assert (clock_set (world1 demo_cipher)) as Hclock by (intros n; by vm_compute).
  destruct (Append_post _ _ _ _ _ _ _ _ HS1 (demo_request "second" "" eq_refl eq_refl) Hclock HR) as [s2 HS2].
  fold (ledger2 demo_cipher) in HS2.
  assert (l_path (ledger2 demo_cipher) = "/e/ledger") as HP by (vm_compute; reflexivity).
  assert (l_headPath (ledger2 demo_cipher) = "/e/ledger.head") as HP' by (vm_compute; reflexivity).
  set (b := object_text (line_fields (mkCheckpoint evidenceRecordVersion 1 (er_Hash r1)))).
  set (w2 := mkWorld (<["/e/ledger" := mkInode Regular 384 (lines_text [s1])]>
    (<["/e/ledger.head" := mkInode Regular 384 b]> ∅)) 0 calm_oracle tt : world unit).
  assert (er_Hash r1 = l_headHash (ledger1 demo_cipher)) as Hh by exact (se_head _ _ _ _ HS1).
  destruct (checkpoint_not_authenticated (ledger2 demo_cipher) _ [s1] [r1] [s2] [r2] b w2 16 HS2 eq_refl (le_n 1) eq_refl)
    as (rc & sz & sc & w3 & HV).
  - cbn. rewrite Hh. by vm_compute.
  - cbn. rewrite Hh. by vm_compute.
  - intros n. reflexivity.
  - rewrite HP. reflexivity.
  - rewrite HP'. reflexivity.
  - exists w2, r1, rc, sz, sc, w3. split; [vm_compute; reflexivity|]. split; [vm_compute; reflexivity|exact HV].
Defined.

Lemma incremental_truthful_witness : exists lines l' w',
  VerifyIncremental (ledger1 None) (world1 None) = (None, l', w') /\ truthful l' w' lines /\
  exists k rs, (1 <= k)%nat /\ length rs = k /\
    verify_window (l_publicKey (ledger1 None)) (l_crypto (ledger1 None)) (l_path (ledger1 None)) 1 (Some "") (take k lines) = inr rs.
Proof.
  destruct (sealed1 None) as (r1 & s & HS); [by vm_compute|].
  destruct (VerifyIncremental (ledger1 None) (world1 None)) as [[[e|] l'] w'] eqn:HV; [by vm_compute in HV|].
  assert (no_faults (world1 None)) as Hf by (intros n; by vm_compute).
  assert (l_sequence (ledger1 None) = 1) as Hseq by (vm_compute; reflexivity).
  assert (w_fs (world1 None) !! watermarkPath (ledger1 None) = None) as Hw by (vm_compute; reflexivity).
  destruct (file_present _ _ _ (se_file _ _ _ _ HS) (le_n 1) (se_lines _ _ _ _ HS)) as [HR _].
  destruct (se_checkpoint _ _ _ _ HS) as [(H0 & _)|Hcp]; [rewrite H0 in Hseq; discriminate|].
  assert (l_verifyScope l' = "full") as Hfull.
  { apply (f_equal (fun x => l_verifyScope x.1.2)) in HV. cbn in HV. rewrite <- HV. by vm_compute. }
  destruct (incremental_truthful (ledger1 None) (world1 None) [s] (l_sequence (ledger1 None)) (l_headHash (ledger1 None)) l' w' Hf HR)
    as (HT & _ & HF).
  - intros w0 m w1 Hsame Hm. rewrite Hw in Hsame. unfold readWatermark in Hm.
    destruct (readBoundedPrivateFile _ _ _) as [[|d] w2] eqn:HB in Hm; [done|].
    apply readBounded_spec in HB as (_ & i & Hi & _). congruence.
  - exact Hcp.
  - rewrite Hseq. unfold max_ledger. lia.
  - unfold max_ledger. cbn. lia.
  - vm_compute. split; discriminate.
  - exact HV.
  - exists [s], l', w'. split; [reflexivity|]. split; [exact HT|]. destruct (HF Hfull) as (k & rs & Hk & Hl & HW).
    exists k, rs. rewrite Hseq in Hk. split; [exact Hk|]. split; [exact Hl|exact HW].
Defined.

(** The second line reaches the file without its line feed; the restart adopts
    it; the third record is appended. *)
Definition short_oracle (k len : nat) : Oracle :=
  mkOracle (fun n => if Nat.eqb n k then Some "no space left on device" else None) (fun _ => len)
    (fun _ => "entropy-entropy-entropy") (fun _ => 63900000000 * Time.Second).
Definition file_of (w : world unit) : string := match w_fs w !! "/e/ledger" with Some i => i_data i | None => "" end.
Definition second_line_len : nat :=
  (String.length (file_of (after (second_run None)).2) - String.length (file_of (world1 None)) - 1)%nat.
Definition short_run :=
  Append (demo_record "second" "") (ledger1 None) (reboot (short_oracle 8 second_line_len) (world1 None)).
Definition adopted_start :=
  verifyEvidenceFilesBounded "/e/ledger" "/e/ledger.head" (l_publicKey (ledger1 None)) None 1048576 16
    (reboot calm_oracle (after short_run).2).
(** The ledger as the constructor fills it in. *)
Definition adopted_ledger : EvidenceLedger :=
  let '((head, n, recent, size, _), _) := adopted_start.1 in set_chain n head size recent (ledger1 None).
Definition adopted_world : world unit := reboot calm_oracle adopted_start.2.
Definition third_run := Append (demo_record "third" "") adopted_ledger adopted_world.

Definition one_line_b (s : string) : bool :=
  negb (existsb (Ascii.eqb lf) (bytes_of s)) && negb (existsb (Ascii.eqb cr) (bytes_of s)) && (slen s <? 1048576) &&
  match bytes_of s with c :: _ => Ascii.eqb c "{" | [] => false end.

Lemma one_line_b_spec s : one_line_b s = true -> one_line s /\ braced s /\ slen s <= 1048576.
Proof.
  unfold one_line_b. intros H. bool_to_prop.
  assert (forall c, existsb (Ascii.eqb c) (bytes_of s) = false -> c ∉ bytes_of s) as Hno.
  { intros c HE HI. apply list_elem_of_In in HI. assert (existsb (Ascii.eqb c) (bytes_of s) = true); [|congruence].
    apply existsb_exists. exists c. split; [done|apply Ascii.eqb_refl]. }
  split_and!; [constructor; [by apply Hno..|unfold max_token; lia]| |lia].
  destruct (bytes_of s) as [|c rest] eqn:HB; [done|]. exists rest. rewrite HB. f_equal. by apply Ascii.eqb_eq.
Qed.

Lemma adopted_line_glued_witness : exists r1 size w2,
  third_run = (Returns (inr r1, (after third_run).1), (after third_run).2) /\
  verifyEvidenceFilesBounded (l_path adopted_ledger) (l_headPath adopted_ledger) (l_publicKey adopted_ledger)
    (l_crypto adopted_ledger) (effectiveMaxBytesLocked adopted_ledger) 16 (after third_run).2 =
    ((failed size (ErrText "evidence ledger and its checkpoint disagree on the number of records"), ""), w2).
Proof.
  destruct (run_returns third_run) as [r1 HR]; [by vm_compute|].
  set (s1 := of_bytes (take (String.length (file_of (world1 None)) - 1) (bytes_of (file_of (world1 None))))).
  set (s2 := of_bytes (drop (String.length (file_of (world1 None))) (bytes_of (file_of adopted_world)))).
  destruct (adopted_line_glued (demo_record "third" "") adopted_ledger adopted_world [s1] s2 r1 (after third_run).1
    (after third_run).2 16) as (size & w2 & HV).
  - constructor.
    + constructor; [by vm_compute|vm_compute; split; [discriminate|reflexivity]|vm_compute; split; [reflexivity|discriminate]].
    + vm_compute. split; discriminate.
    + right. eexists. split; [vm_compute; reflexivity|]. split; vm_compute; reflexivity.
    + destruct (one_line_b_spec s1) as (H1 & H2 & _); [by vm_compute|]. split; constructor; [exact H1|constructor|exact H2|constructor].
    + apply one_line_b_spec. by vm_compute.
    + by vm_compute.
    + by vm_compute.
    + vm_compute. split; discriminate.
  - by vm_compute.
  - intros n. by vm_compute.
  - exact HR.
  - intros n. by vm_compute.
  - exists r1, size, w2. split; [exact HR|exact HV].
Defined.
