(* ===== verification/NetIP.v ===== *)
(** * IP addresses and networks (net.ParseIP, net.ParseCIDR, net.IPNet)

    The part of Go's [net] and [net/netip] packages the block list depends on:
    parsing and printing addresses, masks, and [normalizeTarget]
    (src/control/state.go), which gives every block target its canonical
    text. An address is its eight 16-bit groups; an IPv4 address is the
    IPv4-mapped one, as [net.ParseIP] returns it. *)

From Stdlib Require Import ZArith Lia Ascii String.
From stdpp Require Import base strings list pretty.
From S2P Require Import Prelude.
From S2P Require Import GoLib.
From S2P Require Import Strconv.

Abbreviation ip := (list Z).

(** ** Parsing *)

(** [parseIPv4Fields]: four decimal fields below 256, without leading zeros. *)
Definition parse_octet (f : string) : option Z :=
  match f with
  | "" => None
  | String "0" (String _ _) => None
  | _ => if (3 <? slen f) then None
         else match parse_digits 0 f with
              | Some n => if n <=? 255 then Some n else None
              | None => None
              end
  end.

Definition parseIPv4 (s : string) : option (list Z) :=
  match Split s "." with
  | [a; b; c; d] =>
      a ← parse_octet a; b ← parse_octet b; c ← parse_octet c; d ← parse_octet d;
      Some [a; b; c; d]
  | _ => None
  end.

Definition v4_groups (o : list Z) : option (list Z) :=
  match o with
  | [a; b; c; d] => Some [a * 256 + b; c * 256 + d]
  | _ => None
  end.

Definition hex_val (c : ascii) : option Z :=
  if in_range "0" "9" c then Some (byte_val c - 48)
  else if in_range "a" "f" c then Some (byte_val c - 87)
  else if in_range "A" "F" c then Some (byte_val c - 55)
  else None.

(** The leading hexadecimal digits of a text: their number, their value, the
    rest. *)
Fixpoint scan_hex (n : nat) (acc : Z) (s : string) : nat * Z * string :=
  match s with
  | String c t =>
      match hex_val c with
      | Some v => scan_hex (S n) (acc * 16 + v) t
      | None => (n, acc, s)
      end
  | EmptyString => (n, acc, s)
  end.

(** The loop of [netip.parseIPv6] over the 16-bit groups: [done] are the
    groups read so far, [ell] the number of groups before the ellipsis. Eight
    rounds suffice, each reads a group. *)
Fixpoint parse_groups (fuel : nat) (done : list Z) (ell : option nat) (s : string)
  : option (list Z * option nat) :=
  match fuel with
  | O => None
  | S fuel =>
      let '(n, acc, rest) := scan_hex 0 0 s in
      if (n =? 0)%nat || (4 <? n)%nat then None
      else
        match rest with
        | String "." _ =>
            if match ell with None => negb (length done =? 6)%nat | Some _ => false end
               || (6 <? length done)%nat then None
            else (q ← parseIPv4 s; g ← v4_groups q; Some (done ++ g, ell))
        | EmptyString => Some (done ++ [acc], ell)
        | String ":" EmptyString => None
        | String ":" (String c t) =>
            let done := done ++ [acc] in
            if bool_decide (c = ":"%char) then
              match ell with
              | Some _ => None
              | None =>
                  match t with
                  | EmptyString => Some (done, Some (length done))
                  | _ => if (length done =? 8)%nat then None
                         else parse_groups fuel done (Some (length done)) t
                  end
              end
            else if (length done =? 8)%nat then None
            else parse_groups fuel done ell (String c t)
        | _ => None
        end
  end.

(** Filling the ellipsis: it stands for at least one group. *)
Definition expand (done : list Z) (ell : option nat) : option ip :=
  match ell with
  | None => if (length done =? 8)%nat then Some done else None
  | Some e =>
      if (length done <? 8)%nat
      then Some (take e done ++ replicate (8 - length done) 0 ++ drop e done)
      else None
  end.

Definition parseIPv6 (s : string) : option ip :=
  match s with
  | String ":" (String ":" EmptyString) => Some (replicate 8 0)
  | String ":" (String ":" t) => p ← parse_groups 8 [] (Some 0%nat) t; expand p.1 p.2
  | _ => p ← parse_groups 8 [] None s; expand p.1 p.2
  end.

Definition v4_prefix : list Z := [0; 0; 0; 0; 0; 65535].

(** [netip.ParseAddr] without a zone, with the width of the address: the first
    of the characters '.', ':' and '%' decides. *)
Fixpoint first_mark (s : string) : option ascii :=
  match s with
  | EmptyString => None
  | String c t => if bool_decide (c ∈ ["."; ":"; "%"]%char) then Some c else first_mark t
  end.

Definition ParseAddr (s : string) : option (ip * Z) :=
  match first_mark s with
  | Some "."%char => q ← parseIPv4 s; g ← v4_groups q; Some (v4_prefix ++ g, 32)
  | Some ":"%char => if bool_decide ("%"%char ∈ bytes_of s) then None
                     else g ← parseIPv6 s; Some (g, 128)
  | _ => None
  end.

(** [net.ParseIP] *)
Definition ParseIP (s : string) : option ip := fst <$> ParseAddr s.

(** [ip.To4() != nil] *)
Definition is_v4 (a : ip) : bool := bool_decide (take 6 a = v4_prefix).

(** [ip.IsUnspecified()] *)
Definition IsUnspecified (a : ip) : bool :=
  bool_decide (a = v4_prefix ++ [0; 0]) || bool_decide (a = replicate 8 0).

(** ** Printing *)

Definition hex_char (n : Z) : ascii := byte_of (if n <? 10 then 48 + n else 87 + n).

(** A 16-bit group in hexadecimal without leading zeros. *)
Definition hex_group (g : Z) : string :=
  let d3 := g / 4096 in let d2 := (g / 256) mod 16 in
  let d1 := (g / 16) mod 16 in let d0 := g mod 16 in
  of_bytes (map hex_char
    (if g <? 16 then [d0] else if g <? 256 then [d1; d0]
     else if g <? 4096 then [d2; d1; d0] else [d3; d2; d1; d0])).

Fixpoint join_with (sep : string) (l : list string) : string :=
  match l with
  | [] => ""
  | [x] => x
  | x :: rest => x +:+ sep +:+ join_with sep rest
  end.

(** Length of the run of zeros a list starts with. *)
Fixpoint zero_run (l : list Z) : nat :=
  match l with
  | 0 :: t => S (zero_run t)
  | _ => 0
  end.

(** The first longest run of at least two zero groups: start and length. *)
Fixpoint best_run (i : nat) (best : nat * nat) (l : list Z) : nat * nat :=
  match l with
  | [] => best
  | _ :: t =>
      let n := zero_run l in
      best_run (S i) (if (2 <=? n)%nat && (best.2 <? n)%nat then (i, n) else best) t
  end.

Definition print_groups (l : list Z) : string := join_with ":" (map hex_group l).

Definition print_v6 (a : ip) : string :=
  let '(i, n) := best_run 0 (0%nat, 0%nat) a in
  if (n =? 0)%nat then print_groups a
  else print_groups (take i a) +:+ "::" +:+ print_groups (drop (i + n) a).

Definition print_v4 (g : list Z) : string :=
  match g with
  | [hi; lo] => join_with "." (map itoa [hi / 256; hi mod 256; lo / 256; lo mod 256])
  | _ => ""
  end.

(** [ip.String()] *)
Definition IP_String (a : ip) : string :=
  if is_v4 a then print_v4 (drop 6 a) else print_v6 a.

(** ** Networks *)

(** [*net.IPNet]: the masked address in 16-byte form, the prefix length and
    the width of the mask. *)
Record IPNet := mkNet { n_IP : ip; n_ones : Z; n_bits : Z }.

(** The value of an address as one 128-bit number, and back. *)
Definition ip_value (a : ip) : Z := fold_left (fun acc g => acc * 65536 + g) a 0.
Fixpoint groups_of (k : nat) (v : Z) : ip :=
  match k with
  | O => []
  | S k => groups_of k (v / 65536) ++ [v mod 65536]
  end.

(** Keep the first [n] of [bits] bits; for a 32-bit mask the four address
    bytes at the end are masked. *)
Definition mask_ip (a : ip) (n bits : Z) : ip :=
  groups_of 8 (ip_value a / 2 ^ (bits - n) * 2 ^ (bits - n)).

Definition dtoi (s : string) : option Z :=
  if bool_decide (s = "") then None
  else match parse_digits 0 s with
       | Some n => if n <? 16777215 then Some n else None
       | None => None
       end.

Definition cut_slash (s : string) : option (string * string) :=
  match Split s "/" with
  | a :: b :: rest => Some (a, join_with "/" (b :: rest))
  | _ => None
  end.

(** [net.ParseCIDR] *)
Definition ParseCIDR (s : string) : option IPNet :=
  p ← cut_slash s;
  a ← ParseAddr p.1;
  n ← dtoi p.2;
  if n <=? a.2 then Some (mkNet (mask_ip a.1 n a.2) n a.2) else None.

(** [networkNumberAndMask]: the width and prefix length that
    [Contains] and [String] work with. *)
Definition net_bits (n : IPNet) : Z := if is_v4 (n_IP n) then 32 else 128.
Definition net_ones (n : IPNet) : Z :=
  if is_v4 (n_IP n) && (n_bits n =? 128) then Z.max 0 (n_ones n - 96) else n_ones n.

(** [n.Contains(ip)] *)
Definition Contains (n : IPNet) (a : ip) : bool :=
  Bool.eqb (is_v4 (n_IP n)) (is_v4 a) &&
  (ip_value (n_IP n) / 2 ^ (net_bits n - net_ones n) =? ip_value a / 2 ^ (net_bits n - net_ones n)).

(** [n.String()] *)
Definition IPNet_String (n : IPNet) : string :=
  IP_String (n_IP n) +:+ "/" +:+ itoa (net_ones n).

(** [normalizeTarget] *)
Definition normalizeTarget (target : string) : goerror + string :=
  match ParseIP target with
  | Some a =>
      if IsUnspecified a then inl (ErrText "blocking the unspecified address is not allowed")
      else if is_v4 a then inr (IP_String a +:+ "/32")
      else inr (IP_String a +:+ "/128")
  | None =>
      match ParseCIDR target with
      | None => inl (ErrText "target must be an IPv4/IPv6 address or CIDR")
      | Some network =>
          if IsUnspecified (n_IP network)
          then inl (ErrText "blocking the unspecified address is not allowed")
          else inr (IPNet_String network)
      end
  end.
