(* ===== verification/NetIPFacts.v ===== *)
(** * Addresses: printing and parsing back, canonical block targets

    Every text [normalizeTarget] (src/control/state.go) returns is a fixed
    point of it, so a block list keyed by normalized targets has one entry per
    network. The proof is the round trip of Go's address printer and parser. *)

From Stdlib Require Import ZArith Lia Ascii String.
From stdpp Require Import base strings list pretty.
From S2P Require Import Prelude.
From S2P Require Import GoLib.
From S2P Require Import Strconv.
From S2P Require Import NetIP.

Definition group (g : Z) : Prop := 0 <= g < 65536.
Definition wf_ip (a : ip) : Prop := length a = 8%nat /\ Forall group a.

(** ** Text *)

Definition has (c : ascii) (s : string) : Prop := c ∈ bytes_of s.
Lemma has_cons c d s : has c (String d s) <-> c = d \/ has c s.
Proof. unfold has. cbn. apply elem_of_cons. Qed.
Lemma has_app c s t : has c (s +:+ t) <-> has c s \/ has c t.
Proof. unfold has. rewrite bytes_of_app. apply elem_of_app. Qed.
Lemma append_nil (s : string) : s +:+ "" = s.
Proof. apply bytes_of_inj. rewrite bytes_of_app. apply app_nil_r. Qed.
Lemma has_nil c : ~ has c "".
Proof. apply not_elem_of_nil. Qed.

Lemma hex_char_val d : 0 <= d < 16 -> hex_val (hex_char d) = Some d.
Proof.
  intros Hd. assert (forallb (fun d => bool_decide (hex_val (hex_char d) = Some d)) (seqZ 0 16) = true) as H by by vm_compute.
  rewrite forallb_forall in H. specialize (H d). rewrite bool_decide_eq_true in H. apply H, list_elem_of_In, elem_of_seqZ. lia.
Qed.
Definition hexlike (c : ascii) : bool := bool_decide (is_Some (hex_val c)) || bool_decide (c = ":"%char).
Definition stops (s : string) : Prop := match s with "" => True | String c _ => hex_val c = None end.

Lemma scan_stop n acc s : stops s -> scan_hex n acc s = (n, acc, s).
Proof. destruct s as [|c s]; cbn; [done|]. by intros ->. Qed.

Definition digits_of (g : Z) : list Z :=
  if g <? 16 then [g mod 16] else if g <? 256 then [(g / 16) mod 16; g mod 16]
  else if g <? 4096 then [(g / 256) mod 16; (g / 16) mod 16; g mod 16]
  else [g / 4096; (g / 256) mod 16; (g / 16) mod 16; g mod 16].
Lemma hex_group_digits g : hex_group g = of_bytes (map hex_char (digits_of g)).
Proof. unfold hex_group, digits_of. by repeat case_match. Qed.
Lemma digits_range g : group g -> Forall (fun d => 0 <= d < 16) (digits_of g).
Proof.
  unfold group. intros H. unfold digits_of. destruct (Z.ltb_spec g 16); [|destruct (Z.ltb_spec g 256); [|destruct (Z.ltb_spec g 4096)]];
    repeat first [apply Forall_nil_2|apply Forall_cons_2; [Z.to_euclidean_division_equations; lia|]].
Qed.
Lemma digits_value g : group g -> fold_left (fun acc d => acc * 16 + d) (digits_of g) 0 = g.
Proof.
  unfold group. intros H. unfold digits_of. destruct (Z.ltb_spec g 16); [|destruct (Z.ltb_spec g 256); [|destruct (Z.ltb_spec g 4096)]]; cbn [fold_left];
    Z.to_euclidean_division_equations; lia.
Qed.
Lemma digits_length g : (1 <= length (digits_of g) <= 4)%nat.
Proof. unfold digits_of. repeat case_match; cbn; lia. Qed.

Lemma scan_digits ds : Forall (fun d => 0 <= d < 16) ds -> forall n acc rest, stops rest ->
  scan_hex n acc (of_bytes (map hex_char ds) +:+ rest) = ((n + length ds)%nat, fold_left (fun acc d => acc * 16 + d) ds acc, rest).
Proof.
  induction 1 as [|d ds Hd _ IH]; intros n acc rest Hr; cbn [map of_bytes length fold_left].
  - rewrite Nat.add_0_r. by apply scan_stop.
  - change (of_bytes (hex_char d :: map hex_char ds) +:+ rest) with (String (hex_char d) (of_bytes (map hex_char ds) +:+ rest)).
    cbn [scan_hex]. rewrite hex_char_val by done. rewrite IH by done. f_equal. f_equal. lia.
Qed.
Lemma scan_group g rest : group g -> stops rest -> scan_hex 0 0 (hex_group g +:+ rest) = (length (digits_of g), g, rest).
Proof. intros Hg Hr. rewrite hex_group_digits, scan_digits, digits_value by auto using digits_range. done. Qed.
Lemma group_head g rest : group g -> exists c t, hex_group g +:+ rest = String c t /\ is_Some (hex_val c).
Proof.
  intros Hg. rewrite hex_group_digits. pose proof (digits_length g). pose proof (digits_range g Hg) as HF.
  destruct (digits_of g) as [|d ds]; cbn in *; [lia|]. apply Forall_cons in HF as [Hd _].
  eexists _, _. split; [done|]. rewrite hex_char_val by done. eauto.
Qed.

Lemma print_groups_cons g l : print_groups (g :: l) = hex_group g +:+ (match l with [] => "" | _ => ":" +:+ print_groups l end).
Proof. unfold print_groups. destruct l; cbn [map join_with]; [by rewrite append_nil|done]. Qed.
Lemma print_groups_head g l rest : group g -> exists c t, print_groups (g :: l) +:+ rest = String c t /\ is_Some (hex_val c).
Proof. intros Hg. rewrite print_groups_cons, string_app_assoc. by apply group_head. Qed.
Lemma hex_not_colon c : is_Some (hex_val c) -> c <> ":"%char.
Proof. intros [v Hv] ->. done. Qed.

(** ** Parsing what is printed *)

Lemma parse_print_groups l : Forall group l -> forall fuel pre ell, l <> [] -> (length pre + length l <= 8)%nat ->
  (length l <= fuel)%nat -> parse_groups fuel pre ell (print_groups l) = Some (pre ++ l, ell).
Proof.
  induction 1 as [|g l Hg Hl IH]; intros fuel pre ell Hne Hlen Hf; [done|]. cbn in Hlen, Hf.
  destruct fuel as [|fuel]; [lia|]. cbn [parse_groups]. pose proof (digits_length g) as Hd.
  rewrite print_groups_cons. destruct l as [|g' l].
  - rewrite scan_group by done. assert ((length (digits_of g) =? 0)%nat || (4 <? length (digits_of g))%nat = false) as ->
      by (apply orb_false_iff; split; [apply Nat.eqb_neq|apply Nat.ltb_ge]; lia). done.
  - apply Forall_cons in Hl as Hl'. destruct Hl' as [Hg' _].
    destruct (print_groups_head g' l "" Hg') as (c & t & Hc & Hv). rewrite append_nil in Hc.
    rewrite Hc, scan_group by done. assert ((length (digits_of g) =? 0)%nat || (4 <? length (digits_of g))%nat = false) as ->
      by (apply orb_false_iff; split; [apply Nat.eqb_neq|apply Nat.ltb_ge]; lia).
    change (":" +:+ String c t) with (String ":" (String c t)). cbv iota beta.
    rewrite bool_decide_eq_false_2 by by apply hex_not_colon. cbn in Hlen.
    rewrite length_app. cbn [length]. rewrite (proj2 (Nat.eqb_neq _ _)) by lia. rewrite <- Hc, IH; [|done| |].
    + by rewrite <- app_assoc.
    + rewrite length_app. cbn. lia.
    + cbn in *. lia.
Qed.

Lemma scan_ok g : (length (digits_of g) =? 0)%nat || (4 <? length (digits_of g))%nat = false.
Proof. pose proof (digits_length g). apply orb_false_iff; split; [apply Nat.eqb_neq|apply Nat.ltb_ge]; lia. Qed.

Lemma parse_print_ellipsis l1 l2 : Forall group l1 -> Forall group l2 -> forall fuel pre, l1 <> [] ->
  (length pre + length l1 + length l2 <= 7)%nat -> (length l1 + length l2 <= fuel)%nat ->
  parse_groups fuel pre None (print_groups l1 +:+ "::" +:+ print_groups l2) =
    Some (pre ++ l1 ++ l2, Some (length pre + length l1)%nat).
Proof.
  intros H1 H2. induction H1 as [|g l Hg Hl IH]; intros fuel pre Hne Hlen Hf; [done|]. cbn in Hlen, Hf.
  destruct fuel as [|fuel]; [lia|]. cbn [parse_groups]. rewrite print_groups_cons, string_app_assoc.
  destruct l as [|g' l].
  - change ("" +:+ "::" +:+ print_groups l2) with (String ":" (String ":" (print_groups l2))).
    rewrite scan_group, scan_ok by done. cbv iota beta. rewrite bool_decide_eq_true_2 by done. rewrite length_app. cbn [length] in *.
    destruct l2 as [|g2 l2]; [cbn; by rewrite Nat.add_1_r|].
    apply Forall_cons in H2 as H2'. destruct H2' as [Hg2 _]. destruct (print_groups_head g2 l2 "" Hg2) as (c & t & Hc & Hv).
    rewrite append_nil in Hc. rewrite Hc. rewrite (proj2 (Nat.eqb_neq _ _)) by (cbn in *; lia).
    rewrite <- Hc, parse_print_groups; [|done|done|rewrite length_app; cbn in *; lia|cbn in *; lia].
    by rewrite <- app_assoc, Nat.add_1_r.
  - apply Forall_cons in Hl as Hl'. destruct Hl' as [Hg' _].
    destruct (print_groups_head g' l ("::" +:+ print_groups l2) Hg') as (c & t & Hc & Hv).
    rewrite string_app_assoc, Hc. change (":" +:+ String c t) with (String ":" (String c t)). rewrite scan_group, scan_ok by done. cbv iota beta.
    rewrite bool_decide_eq_false_2 by by apply hex_not_colon. rewrite length_app. cbn [length] in *.
    rewrite (proj2 (Nat.eqb_neq _ _)) by lia. rewrite <- Hc, IH; [|done| |].
    + rewrite <- app_assoc, length_app. cbn [length app].
      by replace (length pre + 1 + S (length l))%nat with (length pre + S (S (length l)))%nat by lia.
    + rewrite length_app. cbn in *. lia.
    + cbn in *. lia.
Qed.

(** The run of zeros the printer drops. *)
Lemma zero_run_spec l : (zero_run l <= length l)%nat /\ take (zero_run l) l = replicate (zero_run l) 0.
Proof.
  induction l as [|g l [IH1 IH2]]; cbn; [done|]. destruct g; cbn; [|split; [lia|done]..]. split; [lia|]. by rewrite IH2.
Qed.
Definition zeros_at (a : ip) (r : nat * nat) : Prop :=
  r.2 = 0%nat \/ (2 <= r.2 /\ r.1 + r.2 <= length a)%nat /\ take r.2 (drop r.1 a) = replicate r.2 0.
Lemma best_run_spec l : forall pre best, zeros_at (pre ++ l) best -> zeros_at (pre ++ l) (best_run (length pre) best l).
Proof.
  induction l as [|g l IH]; intros pre best Hb; [done|]. cbn [best_run].
  assert (pre ++ g :: l = (pre ++ [g]) ++ l) as -> by by rewrite <- app_assoc.
  replace (S (length pre)) with (length (pre ++ [g])) by (rewrite length_app; cbn; lia). apply IH.
  rewrite <- app_assoc. cbn [app]. destruct (_ && _) eqn:HT; [|done].
  apply andb_true_iff in HT as [H1%Nat.leb_le _]. right. cbn [fst snd]. destruct (zero_run_spec (g :: l)) as [H2 H3].
  rewrite length_app, drop_app_length. split; [lia|done].
Qed.

Lemma parseIPv6_hex c t : is_Some (hex_val c) ->
  parseIPv6 (String c t) = (p ← parse_groups 8 [] None (String c t); expand p.1 p.2).
Proof. intros H. pose proof (hex_not_colon c H). destruct c as [[][][][][][][][]]; try done. Qed.
Lemma parseIPv6_colons c t : is_Some (hex_val c) ->
  parseIPv6 (String ":" (String ":" (String c t))) = (p ← parse_groups 8 [] (Some 0%nat) (String c t); expand p.1 p.2).
Proof. done. Qed.

Lemma parse_print_v6 a : wf_ip a -> parseIPv6 (print_v6 a) = Some a.
Proof.
  intros [H8 Ha]. unfold print_v6. pose proof (best_run_spec a [] (0%nat, 0%nat) (or_introl eq_refl)) as Hz. cbn [app length] in Hz.
  destruct (best_run 0 (0%nat, 0%nat) a) as [i n]. destruct Hz as [Hz|[[Hn Hi] Hz]]; cbn [fst snd] in *.
  - subst n. cbn [Nat.eqb]. destruct a as [|g a]; [done|]. apply Forall_cons in Ha as Ha'. destruct Ha' as [Hg _].
    destruct (print_groups_head g a "" Hg) as (c & t & Hc & Hv). rewrite append_nil in Hc.
    rewrite Hc, parseIPv6_hex by done. rewrite <- Hc, parse_print_groups by (done || (cbn in *; lia)). cbn [mbind option_bind fst snd app].
    unfold expand. by rewrite H8.
  - rewrite (proj2 (Nat.eqb_neq n 0)) by lia.
    assert (a = take i a ++ replicate n 0 ++ drop (i + n) a) as Hsplit.
    { rewrite <- (take_drop i a) at 1. f_equal. rewrite <- (take_drop n (drop i a)) at 1. by rewrite Hz, drop_drop. }
    assert (Forall group (drop (i + n) a)) as Hd by by apply Forall_drop.
    assert (length (drop (i + n) a) = 8 - (i + n))%nat as Hld by by rewrite length_drop, H8.
    destruct i as [|i].
    + change (print_groups (take 0 a) +:+ "::" +:+ print_groups (drop (0 + n) a)) with
        (String ":" (String ":" (print_groups (drop n a)))). change (0 + n)%nat with n in *.
      destruct (drop n a) as [|g l] eqn:Hdr.
      * cbn in Hld. assert (n = 8%nat) as -> by lia. change (Some (replicate 8 0) = Some a). by rewrite Hsplit.
      * apply Forall_cons in Hd as Hd'. destruct Hd' as [Hg _].
        destruct (print_groups_head g l "" Hg) as (c & t & Hc & Hv). rewrite append_nil in Hc.
        rewrite Hc, parseIPv6_colons by done. cbn [length] in Hld. rewrite <- Hc, parse_print_groups by (done || (cbn; lia)).
        cbn [mbind option_bind fst snd app]. unfold expand. rewrite (proj2 (Nat.ltb_lt _ _)) by (cbn; lia).
        cbn [take drop app length]. rewrite Hld. replace (8 - (8 - n))%nat with n by lia. change (a = replicate n 0 ++ g :: l) in Hsplit. by rewrite <- Hsplit.
    + assert (Forall group (take (S i) a)) as Ht by by apply Forall_take.
      assert (length (take (S i) a) = S i) as Hlt by (rewrite length_take; lia).
      destruct (take (S i) a) as [|g l] eqn:Htk; [done|]. apply Forall_cons in Ht as Ht'. destruct Ht' as [Hg _].
      destruct (print_groups_head g l ("::" +:+ print_groups (drop (S i + n) a)) Hg) as (c & t & Hc & Hv).
      rewrite Hc, parseIPv6_hex by done. rewrite <- Hc, parse_print_ellipsis; [|done|done|done|cbn in *; lia|cbn in *; lia].
      cbn [mbind option_bind fst snd]. unfold expand. rewrite app_nil_l, length_app, Hld, Hlt. rewrite (proj2 (Nat.ltb_lt _ _)) by lia.
      rewrite Nat.add_0_l. rewrite take_app_length', drop_app_length' by done. 
      replace (8 - (S i + (8 - (S i + n))))%nat with n by lia. by rewrite <- Hsplit.
Qed.

(** ** The characters of an address *)

Lemma hex_group_chars g : group g -> Forall (fun c => hexlike c = true) (bytes_of (hex_group g)).
Proof.
  intros Hg. rewrite hex_group_digits, bytes_of_of. apply Forall_map. eapply Forall_impl; [by apply digits_range|].
  intros d Hd. unfold hexlike. rewrite hex_char_val by done. done.
Qed.
Lemma print_groups_chars l : Forall group l -> Forall (fun c => hexlike c = true) (bytes_of (print_groups l)).
Proof.
  induction 1 as [|g l Hg Hl IH]; [constructor|]. rewrite print_groups_cons, bytes_of_app. apply Forall_app_2; [by apply hex_group_chars|].
  destruct l; [constructor|]. rewrite bytes_of_app. apply Forall_app_2; [by apply Forall_singleton|done].
Qed.
Lemma first_mark_v6 s : Forall (fun c => hexlike c = true) (bytes_of s) -> has ":" s -> first_mark s = Some ":"%char.
Proof.
  induction s as [|c s IH]; cbn [bytes_of]; intros HF Hin; [by apply has_nil in Hin|].
  change (bytes_of (String c s)) with (c :: bytes_of s) in HF. apply Forall_cons in HF as [Hc HF]. cbn [first_mark].
  destruct (decide (c = ":"%char)) as [->|Hne]; [done|]. rewrite bool_decide_eq_false_2.
  - apply IH; [done|]. apply has_cons in Hin as [Hin|?]; [by symmetry in Hin|done].
  - unfold hexlike in Hc. rewrite (bool_decide_eq_false_2 (c = _)), orb_false_r in Hc by done. apply bool_decide_eq_true in Hc as [v Hv].
    rewrite !elem_of_cons. intros [->|[->|[->|H]]]; [done..|]. by apply not_elem_of_nil in H.
Qed.
Lemma hexlike_without (c : ascii) l : hexlike c = false -> Forall (fun c => hexlike c = true) l -> c ∉ l.
Proof. intros Hc HF Hin. rewrite Forall_forall in HF. apply HF in Hin. congruence. Qed.

Lemma print_v6_chars a : wf_ip a -> Forall (fun c => hexlike c = true) (bytes_of (print_v6 a)) /\ has ":" (print_v6 a).
Proof.
  intros [H8 Ha]. unfold print_v6. destruct (best_run 0 (0%nat, 0%nat) a) as [i n].
  destruct (n =? 0)%nat.
  - split; [by apply print_groups_chars|]. destruct a as [|g [|g' a]]; [discriminate..|].
    rewrite print_groups_cons. cbv iota. rewrite !has_app. right. left. apply has_cons. by left.
  - rewrite !bytes_of_app, !has_app. split.
    + assert (Forall (fun c => hexlike c = true) (bytes_of "::")) by (repeat (apply Forall_cons; split; [done|]); constructor).
      repeat apply Forall_app_2; [|done|]; apply print_groups_chars; [by apply Forall_take|by apply Forall_drop].
    + right. left. apply has_cons. by left.
Qed.

(** The numbers below 256 in decimal. *)
Lemma byte_table n : 0 <= n < 256 ->
  parse_octet (itoa n) = Some n /\ dtoi (itoa n) = Some n /\ ~ has "." (itoa n) /\ ~ has "/" (itoa n) /\
  forall r, first_mark (itoa n +:+ "." +:+ r) = Some "."%char.
Proof.
  intros Hn. assert (forallb (fun n => bool_decide (parse_octet (itoa n) = Some n /\ dtoi (itoa n) = Some n /\
    ("."%char ∉ bytes_of (itoa n)) /\ ("/"%char ∉ bytes_of (itoa n)) /\ Forall (fun c => c ∉ [".";":";"%"]%char) (bytes_of (itoa n))))
    (seqZ 0 256) = true) as H by by vm_compute.
  rewrite forallb_forall in H. specialize (H n). rewrite bool_decide_eq_true in H.
  destruct H as (H1 & H2 & H3 & H4 & H5); [by apply list_elem_of_In, elem_of_seqZ; lia|]. split_and!; [done..|].
  intros r. clear -H5. induction (itoa n) as [|c s IH]; [done|].
  change (bytes_of (String c s)) with (c :: bytes_of s) in H5. apply Forall_cons in H5 as [Hc H5].
  change (String c s +:+ "." +:+ r) with (String c (s +:+ "." +:+ r)). cbn [first_mark]. rewrite bool_decide_eq_false_2 by done. by apply IH.
Qed.

Lemma Split_dot a r : ~ has "." a -> Split (a +:+ "." +:+ r) "." = a :: Split r ".".
Proof.
  intros Ha. unfold Split. rewrite bytes_of_app. change (bytes_of ("." +:+ r)) with ("."%char :: bytes_of r).
  rewrite split_bytes_one by done. cbn [map app]. by rewrite of_bytes_of.
Qed.
Lemma Split_single c a : ~ has c a -> Split a c = [a].
Proof. intros Ha. unfold Split. rewrite split_bytes_none by done. cbn [map app]. by rewrite of_bytes_of. Qed.

Definition octet (n : Z) : Prop := 0 <= n < 256.
Lemma group_octets g : group g -> octet (g / 256) /\ octet (g mod 256).
Proof. unfold group, octet. intros. Z.to_euclidean_division_equations; lia. Qed.

Lemma parse_print_v4 hi lo : group hi -> group lo -> ParseAddr (print_v4 [hi; lo]) = Some (v4_prefix ++ [hi; lo], 32).
Proof.
  intros [H1 H2]%group_octets [H3 H4]%group_octets. unfold octet in *.
  apply byte_table in H1 as (P1 & _ & D1 & _ & F1). apply byte_table in H2 as (P2 & _ & D2 & _ & _).
  apply byte_table in H3 as (P3 & _ & D3 & _ & _). apply byte_table in H4 as (P4 & _ & D4 & _ & _).
  unfold print_v4. cbn [map join_with]. unfold ParseAddr. rewrite F1. unfold parseIPv4.
  rewrite !Split_dot, Split_single by done. rewrite P1, P2, P3, P4. cbn [mbind option_bind v4_groups].
  repeat f_equal; rewrite Z.mul_comm; symmetry; apply Z.div_mod; lia.
Qed.

(** The address printed and parsed is the address. *)
Lemma parse_print a : wf_ip a -> ParseAddr (IP_String a) = Some (a, if is_v4 a then 32 else 128).
Proof.
  intros Hw. unfold IP_String. unfold is_v4. case_bool_decide as Hv.
  - destruct Hw as [H8 Ha]. destruct a as [|a0 [|a1 [|a2 [|a3 [|a4 [|a5 [|a6 [|a7 [|]]]]]]]]]; try done. cbn in Hv.
    injection Hv as -> -> -> -> -> ->. rewrite !Forall_cons in Ha. cbn [drop]. rewrite parse_print_v4 by tauto. done.
  - unfold ParseAddr. destruct (print_v6_chars a Hw) as [HF Hc]. rewrite first_mark_v6 by done.
    rewrite bool_decide_eq_false_2 by by apply hexlike_without. by rewrite parse_print_v6.
Qed.
Lemma IP_String_no_slash a : wf_ip a -> ~ has "/" (IP_String a).
Proof.
  intros Hw. unfold IP_String. destruct (is_v4 a).
  - destruct Hw as [H8 Ha]. destruct a as [|a0 [|a1 [|a2 [|a3 [|a4 [|a5 [|a6 [|a7 [|]]]]]]]]]; try done. rewrite !Forall_cons in Ha.
    destruct Ha as (_ & _ & _ & _ & _ & _ & [H1 H2]%group_octets & [H3 H4]%group_octets & _).
    apply byte_table in H1, H2, H3, H4. cbn [drop print_v4 map join_with]. rewrite !has_app.
    assert (~ has "/" ".") by (rewrite has_cons; intros [?|?%has_nil]; done). tauto.
  - apply hexlike_without; [done|]. by apply print_v6_chars.
Qed.

(** ** A text with a slash is no address *)

Lemma parse_digits_slash s acc : has "/" s -> parse_digits acc s = None.
Proof.
  revert acc. induction s as [|c s IH]; intros acc H; [by apply has_nil in H|]. apply has_cons in H. cbn [parse_digits].
  destruct H as [<-|H]; [done|]. destruct (digit_value c); [by apply IH|done].
Qed.
Lemma parse_octet_slash s : has "/" s -> parse_octet s = None.
Proof.
  intros H. unfold parse_octet. rewrite (parse_digits_slash s 0 H). destruct s as [|c [|d s]]; [done| |];
    destruct c as [[][][][][][][][]]; by repeat case_match.
Qed.
Lemma split_bytes_has (c x : ascii) l cur : x <> c -> x ∈ cur ++ l -> exists f, f ∈ split_bytes c l cur /\ x ∈ f.
Proof.
  intros Hx. revert cur. induction l as [|a l IH]; intros cur H; cbn [split_bytes].
  - exists cur. rewrite app_nil_r in H. by split; [apply list_elem_of_singleton|].
  - destruct (Ascii.eqb_spec a c) as [->|Ha].
    + apply elem_of_app in H as [H|H]; [exists cur; by split; [apply list_elem_of_here|]|].
      apply elem_of_cons in H as [H|H]; [done|]. destruct (IH [] H) as (f & Hf & Hxf). exists f. by split; [apply list_elem_of_further|].
    + apply IH. by rewrite <- app_assoc.
Qed.
Lemma parseIPv4_slash s : has "/" s -> parseIPv4 s = None.
Proof.
  intros H. unfold parseIPv4. destruct (split_bytes_has "." "/" (bytes_of s) []) as (f & Hf & Hx); [done|done|].
  assert (of_bytes f ∈ Split s ".") as Hin by by apply list_elem_of_fmap_2.
  assert (parse_octet (of_bytes f) = None) as Hn by (apply parse_octet_slash; unfold has; by rewrite bytes_of_of).
  destruct (Split s ".") as [|a [|b [|c [|d [|]]]]]; try done. rewrite !elem_of_cons in Hin.
  destruct Hin as [<-|[<-|[<-|[<-|Hin]]]]; [by rewrite Hn|by rewrite Hn; destruct (parse_octet a)|..|by apply not_elem_of_nil in Hin];
    rewrite Hn; destruct (parse_octet a); cbn; [|done| |done]; destruct (parse_octet b); cbn; try done; by destruct (parse_octet c).
Qed.
Lemma scan_hex_slash s n acc : has "/" s -> has "/" (scan_hex n acc s).2.
Proof.
  revert n acc. induction s as [|c s IH]; intros n acc H; [by apply has_nil in H|]. cbn [scan_hex].
  destruct (hex_val c) eqn:Hv; [|done]. apply IH. apply has_cons in H as [<-|H]; [done|done].
Qed.
Lemma parse_groups_slash fuel : forall pre ell s, has "/" s -> parse_groups fuel pre ell s = None.
Proof.
  induction fuel as [|fuel IH]; intros pre ell s H; cbn [parse_groups]; [done|].
  pose proof (scan_hex_slash s 0 0 H) as Hr. destruct (scan_hex 0 0 s) as [[n acc] rest]. cbn [snd] in Hr.
  destruct (_ || _); [done|]. destruct rest as [|d rest]; [by apply has_nil in Hr|].
  destruct (decide (d = "."%char)) as [->|Hd].
  { cbn. destruct (_ || _); [done|]. by rewrite parseIPv4_slash. }
  destruct (decide (d = ":"%char)) as [->|Hd'].
  2:{ clear -Hd Hd'. destruct d as [[][][][][][][][]]; done. }
  apply has_cons in Hr as [?|Hr]; [done|]. cbv iota beta. destruct rest as [|c t]; [done|].
  destruct (decide (c = ":"%char)) as [->|Hc].
  - rewrite bool_decide_eq_true_2 by done. apply has_cons in Hr as [?|Hr]; [done|].
    destruct ell; [done|]. destruct t as [|x t]; [by apply has_nil in Hr|]. destruct (_ =? _)%nat; [done|]. by apply IH.
  - rewrite bool_decide_eq_false_2 by done. destruct (_ =? _)%nat; [done|]. by apply IH.
Qed.
Lemma parseIPv6_slash s : has "/" s -> parseIPv6 s = None.
Proof.
  intros H. assert (forall ell t, has "/" t -> (p ← parse_groups 8 [] ell t; expand p.1 p.2) = None) as Hp
    by (intros; by rewrite parse_groups_slash).
  destruct s as [|c s]; [by apply has_nil in H|]. destruct (decide (c = ":"%char)) as [->|Hc].
  2:{ transitivity (p ← parse_groups 8 [] None (String c s); expand p.1 p.2); [|by apply Hp].
      clear -Hc. destruct c as [[][][][][][][][]]; done. }
  destruct s as [|d s]; [by apply (Hp None)|]. destruct (decide (d = ":"%char)) as [->|Hd].
  2:{ transitivity (p ← parse_groups 8 [] None (String ":" (String d s)); expand p.1 p.2); [|by apply Hp].
      clear -Hd. destruct d as [[][][][][][][][]]; done. }
  rewrite !has_cons in H. destruct H as [?|[?|H]]; [done..|]. destruct s as [|x s]; [by apply has_nil in H|]. by apply (Hp (Some 0%nat)).
Qed.
Lemma ParseAddr_slash s : has "/" s -> ParseAddr s = None.
Proof.
  intros H. unfold ParseAddr. destruct (first_mark s) as [c|]; [|done].
  destruct (decide (c = "."%char)) as [->|Hd]; [by rewrite parseIPv4_slash|].
  destruct (decide (c = ":"%char)) as [->|Hc]; [rewrite parseIPv6_slash by done; by case_bool_decide|].
  clear -Hd Hc. destruct c as [[][][][][][][][]]; done.
Qed.

(** ** Parsed addresses are well formed *)

Lemma digit_value_range c d : digit_value c = Some d -> 0 <= d <= 9.
Proof.
  unfold digit_value, in_range. destruct (_ && _) eqn:H; [|done]. intros [= <-]. apply andb_true_iff in H as [H1%Z.leb_le H2%Z.leb_le].
  change (byte_val "0") with 48 in H1. change (byte_val "9") with 57 in H2. lia.
Qed.
Lemma parse_digits_nonneg s acc n : 0 <= acc -> parse_digits acc s = Some n -> 0 <= n.
Proof.
  revert acc. induction s as [|c s IH]; intros acc Ha; cbn [parse_digits]; [by intros [= <-]|].
  destruct (digit_value c) as [d|] eqn:Hd; [|done]. apply digit_value_range in Hd. apply IH. lia.
Qed.
Lemma parse_octet_range s n : parse_octet s = Some n -> octet n.
Proof.
  intros H. assert (parse_digits 0 s = Some n /\ n <= 255) as [Hn Hle].
  { unfold parse_octet in H. revert H. destruct s as [|c [|d s]]; [done| |]; destruct c as [[][][][][][][][]]; intros H;
      repeat (case_match; try done); simplify_eq; split; try done; by apply Z.leb_le. }
  apply parse_digits_nonneg in Hn; [|done]. unfold octet. lia.
Qed.
Lemma v4_parse_groups s q g : parseIPv4 s = Some q -> v4_groups q = Some g -> length g = 2%nat /\ Forall group g.
Proof.
  unfold parseIPv4. intros H Hg. destruct (Split s ".") as [|a [|b [|c [|d [|]]]]]; try done.
  destruct (parse_octet a) as [a'|] eqn:Ha; [|done]. destruct (parse_octet b) as [b'|] eqn:Hb; [|done].
  destruct (parse_octet c) as [c'|] eqn:Hc; [|done]. destruct (parse_octet d) as [d'|] eqn:Hd; [|done].
  cbn in H. injection H as <-. cbn in Hg. injection Hg as <-.
  apply parse_octet_range in Ha, Hb, Hc, Hd. unfold octet in *. split; [done|]. unfold group.
  repeat first [apply Forall_nil_2|apply Forall_cons_2; [lia|]].
Qed.
Lemma hex_val_range c v : hex_val c = Some v -> 0 <= v < 16.
Proof.
  unfold hex_val, in_range. intros H. 
  repeat (destruct (_ && _) eqn:Hr in H; [injection H as <-; apply andb_true_iff in Hr as [H1%Z.leb_le H2%Z.leb_le]|clear Hr]).
  - change (byte_val "0") with 48 in H1. change (byte_val "9") with 57 in H2. lia.
  - change (byte_val "a") with 97 in H1. change (byte_val "f") with 102 in H2. lia.
  - change (byte_val "A") with 65 in H1. change (byte_val "F") with 70 in H2. lia.
  - done.
Qed.
Lemma scan_hex_range s n acc m v rest : 0 <= acc < 16 ^ Z.of_nat n -> scan_hex n acc s = (m, v, rest) -> 0 <= v < 16 ^ Z.of_nat m.
Proof.
  revert n acc. induction s as [|c s IH]; intros n acc Ha; cbn [scan_hex]; [by intros [= <- <- <-]|].
  destruct (hex_val c) as [d|] eqn:Hd; [|by intros [= <- <- <-]]. apply hex_val_range in Hd. apply IH.
  rewrite Nat2Z.inj_succ, Z.pow_succ_r by lia. lia.
Qed.
Lemma parse_groups_range fuel : forall pre ell s l e, Forall group pre -> parse_groups fuel pre ell s = Some (l, e) -> Forall group l.
Proof.
  induction fuel as [|fuel IH]; intros pre ell s l e Hp; cbn [parse_groups]; [done|].
  destruct (scan_hex 0 0 s) as [[n acc] rest] eqn:Hs. apply scan_hex_range in Hs; [|done].
  destruct (_ || _) eqn:Hn; [done|]. apply orb_false_iff in Hn as [_ Hn%Nat.ltb_ge].
  assert (group acc) as Hg. { unfold group. split; [lia|]. apply (Z.lt_le_trans _ (16 ^ Z.of_nat n)); [lia|].
    change 65536 with (16 ^ 4). apply Z.pow_le_mono_r; lia. }
  assert (Forall group (pre ++ [acc])) as Hq by (apply Forall_app_2; [done|by apply Forall_singleton]).
  destruct rest as [|d rest]; [by intros [= <- <-]|].
  destruct (decide (d = "."%char)) as [->|Hd].
  { cbn. destruct (_ || _); [done|]. destruct (parseIPv4 s) as [q|] eqn:Hq4; [|done]. cbn. destruct (v4_groups q) as [g|] eqn:Hv; [|done].
    cbn. intros [= <- <-]. apply Forall_app_2; [done|]. by eapply v4_parse_groups. }
  destruct (decide (d = ":"%char)) as [->|Hd'].
  2:{ clear -Hd Hd'. destruct d as [[][][][][][][][]]; done. }
  cbv iota beta. destruct rest as [|c t]; [done|]. destruct (bool_decide (c = ":"%char)).
  - destruct ell; [done|]. destruct t; [by intros [= <- <-]|]. destruct (_ =? _)%nat; [done|]. by apply IH.
  - destruct (_ =? _)%nat; [done|]. by apply IH.
Qed.
Lemma expand_wf l e a : Forall group l -> expand l e = Some a -> wf_ip a.
Proof.
  intros Hl. unfold expand. destruct e as [e|].
  - destruct (length l <? 8)%nat eqn:H; [|done]. apply Nat.ltb_lt in H. intros [= <-]. split.
    + rewrite !length_app, length_replicate, length_take, length_drop. lia.
    + repeat apply Forall_app_2; [by apply Forall_take| |by apply Forall_drop]. apply Forall_replicate. unfold group. lia.
  - destruct (length l =? 8)%nat eqn:H; [|done]. apply Nat.eqb_eq in H. by intros [= <-].
Qed.
Lemma ParseAddr_wf s a w : ParseAddr s = Some (a, w) -> wf_ip a /\ ((w = 32 /\ is_v4 a = true) \/ w = 128).
Proof.
  unfold ParseAddr. destruct (first_mark s) as [c|]; [|done].
  destruct (decide (c = "."%char)) as [->|Hd].
  { destruct (parseIPv4 s) as [q|] eqn:Hq; [|done]. cbn [mbind option_bind]. destruct (v4_groups q) as [g|] eqn:Hg; [|done].
    cbn [mbind option_bind]. intros [= <- <-]. destruct (v4_parse_groups s q g Hq Hg) as [Hl Hf]. split.
    - split; [cbn; by rewrite Hl|]. change (Forall group (v4_prefix ++ g)). apply Forall_app_2; [|done]. unfold v4_prefix, group.
      repeat first [apply Forall_nil_2|apply Forall_cons_2; [lia|]].
    - left. split; [done|]. unfold is_v4. by destruct g as [|? [|? []]]. }
  destruct (decide (c = ":"%char)) as [->|Hc].
  2:{ clear -Hd Hc. destruct c as [[][][][][][][][]]; done. }
  case_bool_decide; [done|]. destruct (parseIPv6 s) as [g|] eqn:Hg; [|done]. cbn [mbind option_bind]. intros [= <- <-]. split; [|by right].
  assert (forall ell t, Forall group [] -> (p ← parse_groups 8 [] ell t; expand p.1 p.2) = Some g -> wf_ip g) as Hp.
  { intros ell t Hn Ht. destruct (parse_groups 8 [] ell t) as [[l e]|] eqn:Hl; [|done]. apply parse_groups_range in Hl; [|done].
    by eapply expand_wf in Ht. }
  unfold parseIPv6 in Hg. repeat (case_match; try (by eapply Hp in Hg)). simplify_eq. split; [done|]. apply Forall_replicate. unfold group; lia.
Qed.

(** ** Masks *)

Lemma ip_value_snoc l g : ip_value (l ++ [g]) = ip_value l * 65536 + g.
Proof. unfold ip_value. by rewrite fold_left_app. Qed.
Lemma ip_value_range l : Forall group l -> 0 <= ip_value l < 65536 ^ Z.of_nat (length l).
Proof.
  induction l as [|g l IH] using rev_ind; [cbn; lia|]. intros [Hl Hg]%Forall_app. apply Forall_cons in Hg as [Hg _].
  rewrite ip_value_snoc, length_app, Nat.add_1_r, Nat2Z.inj_succ, Z.pow_succ_r by lia. specialize (IH Hl). unfold group in Hg.
  revert IH. generalize (65536 ^ Z.of_nat (length l)). intros. lia.
Qed.
Lemma groups_value l : Forall group l -> groups_of (length l) (ip_value l) = l.
Proof.
  induction l as [|g l IH] using rev_ind; [done|]. intros [Hl Hg]%Forall_app. apply Forall_cons in Hg as [Hg _]. unfold group in Hg.
  rewrite length_app, Nat.add_1_r, ip_value_snoc. cbn [groups_of].
  assert ((ip_value l * 65536 + g) / 65536 = ip_value l /\ (ip_value l * 65536 + g) mod 65536 = g) as [-> ->]; [|by rewrite IH].
  Z.to_euclidean_division_equations; lia.
Qed.
Lemma groups_range k v : length (groups_of k v) = k /\ Forall group (groups_of k v).
Proof.
  revert v. induction k as [|k IH]; intros v; cbn [groups_of]; [done|]. destruct (IH (v / 65536)) as [H1 H2].
  rewrite length_app, H1. split; [cbn; lia|]. apply Forall_app_2; [done|]. apply Forall_singleton. unfold group. apply Z.mod_pos_bound. lia.
Qed.
Lemma value_groups k v : 0 <= v < 65536 ^ Z.of_nat k -> ip_value (groups_of k v) = v.
Proof.
  revert v. induction k as [|k IH]; intros v Hv; [cbn in *; lia|]. cbn [groups_of]. rewrite ip_value_snoc, IH.
  - rewrite Z.mul_comm. symmetry. apply Z.div_mod. lia.
  - rewrite Nat2Z.inj_succ, Z.pow_succ_r in Hv by lia. split; [apply Z.div_pos; lia|]. apply Z.div_lt_upper_bound; lia.
Qed.
Lemma mask_wf a n bits : wf_ip (mask_ip a n bits).
Proof. unfold mask_ip. apply groups_range. Qed.
Lemma floor_le x m : 0 < m -> 0 <= x -> 0 <= x / m * m <= x.
Proof. intros Hm Hx. pose proof (Z.mul_div_le x m Hm). pose proof (Z.div_pos x m Hx Hm). nia. Qed.
Lemma mask_value a n bits : wf_ip a -> n <= bits -> ip_value (mask_ip a n bits) = ip_value a / 2 ^ (bits - n) * 2 ^ (bits - n).
Proof.
  intros [H8 Ha] Hn. pose proof (ip_value_range a Ha) as Hr. rewrite H8 in Hr.
  assert (0 < 2 ^ (bits - n)) as Hp by (apply Z.pow_pos_nonneg; lia).
  unfold mask_ip. apply value_groups. pose proof (floor_le (ip_value a) _ Hp). lia.
Qed.
(** A mask that keeps every set bit changes nothing. *)
Lemma mask_fixed a n bits : wf_ip a -> n <= bits -> (2 ^ (bits - n) | ip_value a) -> mask_ip a n bits = a.
Proof.
  intros [H8 Ha] Hn Hd. assert (0 < 2 ^ (bits - n)) as Hp by (apply Z.pow_pos_nonneg; lia).
  unfold mask_ip. rewrite <- H8. rewrite Z.mul_comm, <- Z.divide_div_mul_exact, Z.mul_comm, Z.div_mul by (done || lia). by apply groups_value.
Qed.
Lemma mask_divides a n bits : wf_ip a -> n <= bits -> (2 ^ (bits - n) | ip_value (mask_ip a n bits)).
Proof. intros Hw Hn. rewrite mask_value by done. apply Z.divide_factor_r. Qed.

Lemma is_v4_shape a : wf_ip a -> is_v4 a = true -> exists hi lo, a = v4_prefix ++ [hi; lo] /\ group hi /\ group lo.
Proof.
  intros [H8 Ha] Hv. unfold is_v4 in Hv. apply bool_decide_eq_true in Hv.
  destruct a as [|a0 [|a1 [|a2 [|a3 [|a4 [|a5 [|a6 [|a7 [|]]]]]]]]]; try done. cbn in Hv.
  injection Hv as -> -> -> -> -> ->. rewrite !Forall_cons in Ha. exists a6, a7. tauto.
Qed.
Lemma v4_value hi lo : ip_value (v4_prefix ++ [hi; lo]) = 65535 * 2 ^ 32 + (hi * 65536 + lo).
Proof. unfold ip_value. cbn. lia. Qed.
Lemma mask_v4 a n : wf_ip a -> is_v4 a = true -> 0 <= n <= 32 -> is_v4 (mask_ip a n 32) = true.
Proof.
  intros Hw Hv Hn. destruct (is_v4_shape a Hw Hv) as (hi & lo & -> & Hh & Hl). unfold group in *.
  set (x := hi * 65536 + lo). assert (0 <= x < 2 ^ 32) as Hx by (unfold x; lia).
  assert (0 < 2 ^ (32 - n)) as Hp by (apply Z.pow_pos_nonneg; lia).
  assert (2 ^ 32 = 2 ^ n * 2 ^ (32 - n)) as H32 by (rewrite <- Z.pow_add_r by lia; f_equal; lia).
  pose proof (floor_le x (2 ^ (32 - n)) Hp) as Hf.
  unfold mask_ip. rewrite v4_value. fold x. rewrite H32 at 1. rewrite Z.mul_assoc, Z.add_comm, Z.div_add by lia.
  set (z := x / 2 ^ (32 - n) * 2 ^ (32 - n)) in *.
  assert ((x / 2 ^ (32 - n) + 65535 * 2 ^ n) * 2 ^ (32 - n) = ip_value (v4_prefix ++ [z / 65536; z mod 65536])) as ->.
  { rewrite v4_value, H32. rewrite <- (Z.mul_comm 65536 (z / 65536)), <- Z.div_mod by lia. unfold z. ring. }
  assert (groups_of 8 (ip_value (v4_prefix ++ [z / 65536; z mod 65536])) = v4_prefix ++ [z / 65536; z mod 65536]) as ->; [|done].
  apply (groups_value (v4_prefix ++ [z / 65536; z mod 65536])). unfold v4_prefix, group. cbn [app].
  repeat first [apply Forall_nil_2|apply Forall_cons_2; [try lia|]]; Z.to_euclidean_division_equations; lia.
Qed.

(** ** Canonical targets *)

Lemma cut_slash_app s t : ~ has "/" s -> ~ has "/" t -> cut_slash (s +:+ "/" +:+ t) = Some (s, t).
Proof.
  intros Hs Ht. unfold cut_slash, Split. rewrite bytes_of_app. change (bytes_of ("/" +:+ t)) with ("/"%char :: bytes_of t).
  rewrite split_bytes_one, split_bytes_none by done. cbn. by rewrite !of_bytes_of.
Qed.
Lemma reparse a n : wf_ip a -> 0 <= n < 256 -> n <= (if is_v4 a then 32 else 128) ->
  (2 ^ ((if is_v4 a then 32 else 128) - n) | ip_value a) ->
  ParseCIDR (IP_String a +:+ "/" +:+ itoa n) = Some (mkNet a n (if is_v4 a then 32 else 128)).
Proof.
  intros Hw Hn Hle Hd. destruct (byte_table n Hn) as (_ & Hdt & _ & Hns & _). unfold ParseCIDR.
  rewrite cut_slash_app by (done || by apply IP_String_no_slash). cbn [mbind option_bind fst snd].
  rewrite parse_print by done. cbn [mbind option_bind fst snd]. rewrite Hdt. cbn [mbind option_bind].
  rewrite (proj2 (Z.leb_le _ _)) by done. by rewrite mask_fixed.
Qed.
Lemma normal_form a n : wf_ip a -> 0 <= n < 256 -> n <= (if is_v4 a then 32 else 128) ->
  (2 ^ ((if is_v4 a then 32 else 128) - n) | ip_value a) -> IsUnspecified a = false ->
  normalizeTarget (IP_String a +:+ "/" +:+ itoa n) = inr (IP_String a +:+ "/" +:+ itoa n).
Proof.
  intros Hw Hn Hle Hd Hu. unfold normalizeTarget, ParseIP. rewrite ParseAddr_slash.
  - cbn [fmap option_fmap option_map]. rewrite reparse by done. cbn [n_IP]. rewrite Hu. unfold IPNet_String, net_ones. cbn [n_IP n_ones n_bits].
    by destruct (is_v4 a).
  - rewrite !has_app. right. left. apply has_cons. by left.
Qed.
Lemma dtoi_range s n : dtoi s = Some n -> 0 <= n.
Proof. unfold dtoi. case_bool_decide; [done|]. destruct (parse_digits 0 s) eqn:Hp; [|done]. case_match; [|done]. intros [= <-]. by eapply parse_digits_nonneg. Qed.

Lemma normalizeTarget_fixed t t' : normalizeTarget t = inr t' -> normalizeTarget t' = inr t'.
Proof.
  unfold normalizeTarget at 1. unfold ParseIP. destruct (ParseAddr t) as [[a w]|] eqn:Ha; cbn [fmap option_fmap option_map fst].
  - apply ParseAddr_wf in Ha as [Hw _]. destruct (IsUnspecified a) eqn:Hu; [done|].
    destruct (is_v4 a) eqn:Hv; intros [= <-].
    + apply (normal_form a 32); rewrite ?Hv; try done. apply Z.divide_1_l.
    + apply (normal_form a 128); rewrite ?Hv; try done. apply Z.divide_1_l.
  - unfold ParseCIDR. destruct (cut_slash t) as [[x y]|]; [|done]. cbn [mbind option_bind fst snd].
    destruct (ParseAddr x) as [[a w]|] eqn:Hx; [|done]. cbn [mbind option_bind fst snd].
    destruct (dtoi y) as [n|] eqn:Hy; [|done]. cbn [mbind option_bind]. apply dtoi_range in Hy.
    destruct (Z.leb_spec n w) as [Hle|]; [|done]. apply ParseAddr_wf in Hx as [Hw Hcase]. cbn [n_IP].
    pose proof (mask_wf a n w) as Hm. pose proof (mask_divides a n w Hw Hle) as Hd.
    destruct (IsUnspecified (mask_ip a n w)) eqn:Hu; [done|]. intros [= <-]. unfold IPNet_String, net_ones. cbn [n_IP n_ones n_bits].
    destruct Hcase as [[-> Hv]| ->].
    + pose proof (mask_v4 a n Hw Hv ltac:(lia)) as Hv'. rewrite Hv'. cbn [andb Z.eqb Pos.eqb]. apply normal_form; [exact Hm|lia|rewrite Hv'; lia|rewrite Hv'; exact Hd|exact Hu].
    + destruct (is_v4 (mask_ip a n 128)) eqn:Hv'; cbn [andb Z.eqb Pos.eqb].
      * apply normal_form; [exact Hm|lia|rewrite Hv'; lia|rewrite Hv'|exact Hu]. etransitivity; [|exact Hd].
        exists (2 ^ (128 - n - (32 - Z.max 0 (n - 96)))). rewrite <- Z.pow_add_r by lia. f_equal. lia.
      * apply normal_form; [exact Hm|lia|rewrite Hv'; lia|rewrite Hv'; exact Hd|exact Hu].
Qed.

Lemma normalizeTarget_slash t t' : normalizeTarget t = inr t' -> has "/" t'.
Proof.
  unfold normalizeTarget, IPNet_String. intros H. repeat case_match; simplify_eq; rewrite !has_app; right; try left; apply has_cons; by left.
Qed.
Lemma normalizeTarget_net t t' : normalizeTarget t = inr t' ->
  exists n, ParseCIDR t' = Some n /\ IPNet_String n = t' /\ IsUnspecified (n_IP n) = false.
Proof.
  intros H. pose proof (normalizeTarget_slash _ _ H) as Hs. apply normalizeTarget_fixed in H. unfold normalizeTarget, ParseIP in H.
  rewrite (ParseAddr_slash _ Hs) in H. cbn in H. destruct (ParseCIDR t') as [n|]; [|done]. exists n.
  destruct (IsUnspecified (n_IP n)) eqn:Hu; [done|]. by injection H as ->.
Qed.

(** Block targets are canonical. Whatever text the operator, a feed or the
    kinetic engine proposes, the normalized target is a fixed point: it parses
    as a network, that network prints as the same text, and normalizing it
    again changes nothing. The block list therefore has one key per network,
    and a lookup by a normalized target finds the entry. *)
Theorem target_canonical t t' : normalizeTarget t = inr t' ->
  normalizeTarget t' = inr t' /\ exists n, ParseCIDR t' = Some n /\ IPNet_String n = t' /\ IsUnspecified (n_IP n) = false.
Proof. intros H. split; [by eapply normalizeTarget_fixed|by eapply normalizeTarget_net]. Qed.

Lemma target_canonical_witness : normalizeTarget "2001:DB8:0:0::1/48" = inr "2001:db8::/48" /\
  normalizeTarget "2001:db8::/48" = inr "2001:db8::/48".
Proof. split; [by vm_compute|]. apply (target_canonical "2001:DB8:0:0::1/48"). by vm_compute. Defined.
