(* ===== verification/Exec.v ===== *)
(** * Stateful code that may end the process

    The control plane threads one shared state through many calls, and a
    failing random source ends the process (log.Fatalf in [randomID],
    src/control/state.go). [M S A] is such a computation: from a state to a
    result and a new state, or to [None] when the process ends. The two
    judgements below are closed under sequencing, so a property of a handler
    follows from the properties of its calls. *)

From stdpp Require Import base option list.
From S2P Require Import Prelude.

Definition M (S A : Type) : Type := S -> option (A * S).

#[export] Instance M_ret {S} : MRet (M S) := fun A a s => Some (a, s).
#[export] Instance M_bind {S} : MBind (M S) := fun A B f m s =>
  match m s with
  | None => None
  | Some (a, s') => f a s'
  end.

Definition get {S} : M S S := fun s => Some (s, s).
Definition gets {S A} (f : S -> A) : M S A := fun s => Some (f s, s).
Definition modify {S} (f : S -> S) : M S unit := fun s => Some (tt, f s).
Definition fatal {S A} : M S A := fun _ => None.
Definition lift {S A} (o : option A) : M S A := fun s => (fun a => (a, s)) <$> o.

(** Running a computation on a part of the state. *)
Definition zoom {S T A} (prj : S -> T) (inj : T -> S -> S) (m : M T A) : M S A := fun s =>
  match m (prj s) with
  | None => None
  | Some (a, t) => Some (a, inj t s)
  end.

(** A loop over a list, in order. *)
Fixpoint for_each {S A} (f : A -> M S unit) (l : list A) : M S unit :=
  match l with
  | [] => mret tt
  | x :: l => f x ≫= fun _ => for_each f l
  end.

Arguments M_ret {_} _ _ /.
Arguments M_bind {_} _ _ _ _ /.

(** [moves R m]: every run of [m] that returns relates the state before to
    the state after by [R]. *)
Definition moves {S A} (R : S -> S -> Prop) (m : M S A) : Prop :=
  forall s a s', m s = Some (a, s') -> R s s'.

(** [returns P m]: every run of [m] that returns satisfies [P]. *)
Definition returns {S A} (P : S -> A -> S -> Prop) (m : M S A) : Prop :=
  forall s a s', m s = Some (a, s') -> P s a s'.

(** Preservation of an invariant. *)
Definition keeps {S A} (I : S -> Prop) (m : M S A) : Prop := moves (fun s s' => I s -> I s') m.

Section Moves.
Context {S : Type} (R : S -> S -> Prop) `{!PreOrder R}.

Lemma moves_ret {A} (a : A) : moves R (mret a).
Proof. intros s b s' [= <- <-]. reflexivity. Qed.

Lemma moves_bind {A B} (m : M S A) (f : A -> M S B) :
  moves R m -> (forall a, moves R (f a)) -> moves R (m ≫= f).
Proof.
  intros Hm Hf s b s' H. unfold mbind, M_bind in H. destruct (m s) as [[a s1]|] eqn:E; [|done].
  transitivity s1; [by eapply Hm|by eapply Hf].
Qed.

(** The result of the first part may be used with what it guarantees. *)
Lemma moves_bind_returns {A B} (P : S -> A -> S -> Prop) (m : M S A) (f : A -> M S B) :
  moves R m -> returns P m -> (forall s a s1 b s', P s a s1 -> f a s1 = Some (b, s') -> R s1 s') ->
  moves R (m ≫= f).
Proof.
  intros Hm HP Hf s b s' H. unfold mbind, M_bind in H. destruct (m s) as [[a s1]|] eqn:E; [|done].
  transitivity s1; [by eapply Hm|]. eapply Hf; [by apply HP|done].
Qed.

Lemma moves_get : moves R get.
Proof. intros s b s' [= <- <-]. reflexivity. Qed.
Lemma moves_gets {A} (f : S -> A) : moves R (gets f).
Proof. intros s b s' [= <- <-]. reflexivity. Qed.
Lemma moves_modify (f : S -> S) : (forall s, R s (f s)) -> moves R (modify f).
Proof. intros Hf s b s' [= <- <-]. apply Hf. Qed.
Lemma moves_fatal {A} : moves R (fatal (A := A)).
Proof. by intros s b s'. Qed.
Lemma moves_lift {A} (o : option A) : moves R (lift o).
Proof. intros s b s'. unfold lift. destruct o; intros [= <- <-]. reflexivity. Qed.

Lemma moves_for_each {A} (f : A -> M S unit) l : (forall a, moves R (f a)) -> moves R (for_each f l).
Proof.
  intros Hf. induction l as [|x l IH]; cbn [for_each]; [apply moves_ret|].
  apply moves_bind; [apply Hf|done].
Qed.
End Moves.

Lemma moves_zoom {S T A} (R : S -> S -> Prop) (Q : T -> T -> Prop) prj inj (m : M T A) :
  moves Q m -> (forall s t, Q (prj s) t -> R s (inj t s)) -> moves R (zoom prj inj m).
Proof.
  intros Hm HR s a s' H. unfold zoom in H. destruct (m (prj s)) as [[b t]|] eqn:E; [|done].
  simplify_eq. apply HR. by eapply Hm.
Qed.

Lemma moves_weaken {S A} (R Q : S -> S -> Prop) (m : M S A) :
  moves Q m -> (forall s s', Q s s' -> R s s') -> moves R m.
Proof. intros Hm HR s a s' H. apply HR. by eapply Hm. Qed.

#[export] Instance keeps_preorder {S} (I : S -> Prop) : PreOrder (fun s s' => I s -> I s').
Proof. split; [by intros ?|]. intros ? ? ? H1 H2 H. by apply H2, H1. Qed.

Lemma returns_bind {S A B} (P : S -> A -> S -> Prop) (Q : S -> B -> S -> Prop) (m : M S A) (f : A -> M S B) :
  returns P m -> (forall s a s1 b s', P s a s1 -> f a s1 = Some (b, s') -> Q s b s') -> returns Q (m ≫= f).
Proof.
  intros HP Hf s b s' H. unfold mbind, M_bind in H. destruct (m s) as [[a s1]|] eqn:E; [|done].
  eapply Hf; [by apply HP|done].
Qed.

(** Splits a sequence along its calls and discharges the leaves that do not
    touch the state; the calls that remain are looked up in [moves]. *)
Create HintDb moves.
#[export] Hint Resolve moves_ret moves_get moves_gets moves_fatal moves_lift : moves.
Ltac moves_step :=
  lazymatch goal with
  | |- moves _ (mbind _ _) => apply moves_bind; [apply _| |intros ?]
  | |- moves _ (mret _) => apply moves_ret, _
  | |- moves _ get => apply moves_get, _
  | |- moves _ (gets _) => apply moves_gets, _
  | |- moves _ (lift _) => apply moves_lift, _
  | |- moves _ (for_each _ _) => apply moves_for_each; [apply _|intros ?]
  | |- moves _ (match ?x with _ => _ end) => destruct x
  | |- moves _ (let '(_, _) := ?x in _) => destruct x
  | |- moves _ (if ?b then _ else _) => destruct b
  end.
Ltac moves_solve := cbv beta; repeat (moves_step || (progress eauto with moves)).

(** Runs taken apart: what a sequence, a read and an update did. *)
Lemma bind_inv {S A B} (m : M S A) (f : A -> M S B) s r :
  (m ≫= f) s = Some r -> exists a s1, m s = Some (a, s1) /\ f a s1 = Some r.
Proof. unfold mbind, M_bind. intros H. destruct (m s) as [[a s1]|]; [eauto|done]. Qed.

Lemma ret_inv {S A} (a b : A) (s s' : S) : (mret a : M S A) s = Some (b, s') -> b = a /\ s' = s.
Proof. by intros [= <- <-]. Qed.
Lemma get_inv {S} (s b s' : S) : get s = Some (b, s') -> b = s /\ s' = s.
Proof. by intros [= <- <-]. Qed.
Lemma gets_inv {S A} (f : S -> A) s b s' : gets f s = Some (b, s') -> b = f s /\ s' = s.
Proof. by intros [= <- <-]. Qed.
Lemma modify_inv {S} (f : S -> S) s b s' : modify f s = Some (b, s') -> s' = f s.
Proof. by intros [= <- <-]. Qed.
Lemma zoom_inv {S T A} (prj : S -> T) inj (m : M T A) s a s' :
  zoom prj inj m s = Some (a, s') -> exists t, m (prj s) = Some (a, t) /\ s' = inj t s.
Proof. unfold zoom. intros H. destruct (m (prj s)) as [[b t]|]; [|done]. simplify_eq. eauto. Qed.

(** One step of taking the run in [H] apart. *)
Ltac run_inv H :=
  lazymatch type of H with
  | (mbind _ _) _ = Some _ =>
      let a := fresh "a" in let s := fresh "y" in let H1 := fresh "Hrun" in
      apply bind_inv in H as (a & s & H1 & H); run_inv H1; run_inv H
  | (mret _) _ = Some _ => apply ret_inv in H as [? ->]; subst
  | get _ = Some _ => apply get_inv in H as [-> ->]
  | (gets _) _ = Some _ => apply gets_inv in H as [-> ->]
  | (modify _) _ = Some _ => apply modify_inv in H; subst
  | _ => idtac
  end.

(** Closes [R s s'] from a run in [H] whose steps are all known to move by [R]. *)
Ltac by_moves H :=
  lazymatch type of H with
  | ?m _ = Some _ =>
      lazymatch goal with
      | |- ?R _ _ => let HM := fresh in assert (moves R m) as HM by (moves_solve; fail); exact (HM _ _ _ H)
      end
  end.

(** [runs I m]: from every state in [I] the computation returns, in [I]. *)
Definition runs {S A} (I : S -> Prop) (m : M S A) : Prop :=
  forall s, I s -> exists a s', m s = Some (a, s') /\ I s'.

Section Runs.
Context {S : Type} (I : S -> Prop).
Lemma runs_ret {A} (a : A) : runs I (mret a).
Proof. intros s HI. by exists a, s. Qed.
Lemma runs_bind {A B} (m : M S A) (f : A -> M S B) : runs I m -> (forall a, runs I (f a)) -> runs I (m ≫= f).
Proof.
  intros Hm Hf s HI. destruct (Hm s HI) as (a & s1 & H1 & HI1). destruct (Hf a s1 HI1) as (b & s2 & H2 & HI2).
  exists b, s2. unfold mbind, M_bind. by rewrite H1.
Qed.
Lemma runs_get : runs I get.
Proof. intros s HI. by exists s, s. Qed.
Lemma runs_gets {A} (f : S -> A) : runs I (gets f).
Proof. intros s HI. by exists (f s), s. Qed.
Lemma runs_modify (f : S -> S) : (forall s, I s -> I (f s)) -> runs I (modify f).
Proof. intros Hf s HI. exists tt, (f s). auto. Qed.
Lemma runs_zoom {T A} (J : T -> Prop) prj inj (m : M T A) : runs J m -> (forall s, I s -> J (prj s)) ->
  (forall s t, I s -> J t -> I (inj t s)) -> runs I (zoom prj inj m).
Proof.
  intros Hm HJ HI s Hs. destruct (Hm (prj s) (HJ s Hs)) as (a & t & H & Ht). exists a, (inj t s).
  unfold zoom. rewrite H. auto.
Qed.
End Runs.
Create HintDb runs.
Ltac runs_step :=
  lazymatch goal with
  | |- runs _ (mbind _ _) => apply runs_bind; [|intros ?]
  | |- runs _ (mret _) => apply runs_ret
  | |- runs _ get => apply runs_get
  | |- runs _ (gets _) => apply runs_gets
  | |- runs _ (match ?x with _ => _ end) => destruct x
  | |- runs _ (let '(_, _) := ?x in _) => destruct x
  | |- runs _ (if ?b then _ else _) => destruct b
  end.
Ltac runs_solve := cbv beta; repeat (runs_step || (progress eauto with runs)).
