(* ===== verification/State.v ===== *)
(** * The shared state of the control plane (src/control/state.go)

    The store every component publishes into: the block list with its
    deadlines, the two enforcement modes, the XDR degradation causes, the
    incident and event windows, the evidence gate, and the snapshot with the
    coverage and protection verdicts derived from it. The evidence ledger and
    the case history are reached through an interface ([Sinks]); the
    subscribers of the event stream, the feed counters and the host gauges are
    left out, no decision of the modelled code reads them. *)

From Stdlib Require Import ZArith Lia Ascii String.
From stdpp Require Import base gmap strings list sorting.
From S2P Require Import Prelude.
From S2P Require Import GoLib.
From S2P Require Import Text.
From S2P Require Import World.
From S2P Require Import Exec.
From S2P Require Import NetIP.
From S2P Require Import Policy.
From S2P Require Import Evidence.

(** ** Time with a monotonic reading

    A [time.Time] carries a wall clock and, when it comes straight from
    [time.Now], a monotonic reading; [UTC] and [Round(0)] strip it, [Add] keeps
    it. Two values that both carry one are compared by it. *)
Record gotime := mkGoTime { g_wall : time; g_mono : option Z }.

Definition g_UTC (t : gotime) : gotime := mkGoTime (g_wall t) None.
Definition g_Add (t : gotime) (d : duration) : gotime :=
  mkGoTime (Time.Add (g_wall t) d) ((fun m => m + d) <$> g_mono t).
Definition g_Sub (t u : gotime) : duration :=
  match g_mono t, g_mono u with
  | Some m, Some n => Time.Sub m n
  | _, _ => Time.Sub (g_wall t) (g_wall u)
  end.
Definition g_After (t u : gotime) : bool :=
  match g_mono t, g_mono u with
  | Some m, Some n => n <? m
  | _, _ => Time.After (g_wall t) (g_wall u)
  end.
Definition wall_only (t : time) : gotime := mkGoTime t None.

(** ** Data *)

Record Event := mkEvent {
  ev_ID : string; ev_Time : time; ev_Severity : string; ev_Kind : string;
  ev_Source : string; ev_Message : string; ev_Target : string;
}.

(** [XDRIncident] (src/control/xdr_types.go), the fields read here. *)
Record XDRIncident := mkIncident {
  in_ID : string; in_Time : time; in_Severity : string; in_Process : string; in_Remote : string;
  in_RuleIDs : list string; in_Summary : string; in_Decision : string; in_Action : string;
  in_Outcome : string; in_Acknowledged : bool;
}.

(** [XDRStatus] without the behaviour summary. *)
Record XDRStatus := mkXDR {
  x_Enabled : bool; x_Mode : string; x_Degraded : bool; x_DegradedReason : string;
  x_Processes : Z; x_OpenConnections : Z; x_IncidentsTotal : Z; x_ActionsTotal : Z;
  x_LastScan : option time; x_Sensor : string; x_ProtectedObjects : Z;
  x_QueueDepth : Z; x_QueueCapacity : Z; x_EvaluationDrops : Z; x_EvaluationsTotal : Z;
  x_AnomaliesTotal : Z;
}.
Definition eta_xdr (x : XDRStatus) : XDRStatus :=
  mkXDR (x_Enabled x) (x_Mode x) (x_Degraded x) (x_DegradedReason x) (x_Processes x) (x_OpenConnections x)
    (x_IncidentsTotal x) (x_ActionsTotal x) (x_LastScan x) (x_Sensor x) (x_ProtectedObjects x) (x_QueueDepth x)
    (x_QueueCapacity x) (x_EvaluationDrops x) (x_EvaluationsTotal x) (x_AnomaliesTotal x).
Definition set_xEnabled : bool -> XDRStatus -> XDRStatus := ltac:(setter eta_xdr x_Enabled).
Definition set_xMode : string -> XDRStatus -> XDRStatus := ltac:(setter eta_xdr x_Mode).
Definition set_xDegraded : bool -> XDRStatus -> XDRStatus := ltac:(setter eta_xdr x_Degraded).
Definition set_xReason : string -> XDRStatus -> XDRStatus := ltac:(setter eta_xdr x_DegradedReason).
Definition set_xProcesses : Z -> XDRStatus -> XDRStatus := ltac:(setter eta_xdr x_Processes).
Definition set_xConnections : Z -> XDRStatus -> XDRStatus := ltac:(setter eta_xdr x_OpenConnections).
Definition set_xIncidents : Z -> XDRStatus -> XDRStatus := ltac:(setter eta_xdr x_IncidentsTotal).
Definition set_xActions : Z -> XDRStatus -> XDRStatus := ltac:(setter eta_xdr x_ActionsTotal).
Definition set_xLastScan : option time -> XDRStatus -> XDRStatus := ltac:(setter eta_xdr x_LastScan).
Definition set_xSensor : string -> XDRStatus -> XDRStatus := ltac:(setter eta_xdr x_Sensor).
Definition set_xProtected : Z -> XDRStatus -> XDRStatus := ltac:(setter eta_xdr x_ProtectedObjects).
Definition set_xQueueDepth : Z -> XDRStatus -> XDRStatus := ltac:(setter eta_xdr x_QueueDepth).
Definition set_xQueueCapacity : Z -> XDRStatus -> XDRStatus := ltac:(setter eta_xdr x_QueueCapacity).
Definition set_xDrops : Z -> XDRStatus -> XDRStatus := ltac:(setter eta_xdr x_EvaluationDrops).
Definition set_xEvaluations : Z -> XDRStatus -> XDRStatus := ltac:(setter eta_xdr x_EvaluationsTotal).
Definition set_xAnomalies : Z -> XDRStatus -> XDRStatus := ltac:(setter eta_xdr x_AnomaliesTotal).

(** [L7Status] (src/control/l7_types.go), the fields the verdicts read. *)
Record L7Status := mkL7 {
  l7_Enabled : bool; l7_Mode : string; l7_Healthy : bool; l7_RequestsTotal : Z;
  l7_InlineEnabled : bool; l7_InlineHealthy : bool; l7_SelfTestOutcome : string;
  l7_SelfTestAt : option time; l7_InlineRequestsTotal : Z; l7_InlineLastError : string;
  l7_LastInspection : option time; l7_LastRequestAt : option time;
  l7_Coverage : string; l7_CoverageRequired : bool; l7_WebSurfaceNote : string; l7_Miswired : bool;
  l7_CoverageReason : string; l7_TrafficPathVerified : bool; l7_TLSEnabled : bool;
  l7_TLSHandshakesTotal : Z;
}.
Definition eta_l7 (l : L7Status) : L7Status :=
  mkL7 (l7_Enabled l) (l7_Mode l) (l7_Healthy l) (l7_RequestsTotal l) (l7_InlineEnabled l) (l7_InlineHealthy l)
    (l7_SelfTestOutcome l) (l7_SelfTestAt l) (l7_InlineRequestsTotal l) (l7_InlineLastError l)
    (l7_LastInspection l) (l7_LastRequestAt l) (l7_Coverage l) (l7_CoverageRequired l) (l7_WebSurfaceNote l)
    (l7_Miswired l) (l7_CoverageReason l) (l7_TrafficPathVerified l) (l7_TLSEnabled l) (l7_TLSHandshakesTotal l).
Definition set_l7Coverage : string -> L7Status -> L7Status := ltac:(setter eta_l7 l7_Coverage).
Definition set_l7Reason : string -> L7Status -> L7Status := ltac:(setter eta_l7 l7_CoverageReason).
Definition set_l7Verified : bool -> L7Status -> L7Status := ltac:(setter eta_l7 l7_TrafficPathVerified).

(** [SensorCoverageStatus] (src/control/kinetic_types.go) *)
Inductive SensorCoverageStatus :=
| CoverageOnline | CoverageDegraded | CoverageOffline | CoverageDisabled | CoverageNotApplicable.
#[export] Instance coverage_eq_dec : EqDecision SensorCoverageStatus.
Proof. solve_decision. Defined.

Record SensorCoverage := mkSensor {
  sc_Name : string; sc_Status : SensorCoverageStatus; sc_Required : bool; sc_LastOK : option time;
  sc_LastError : string; sc_SelfTest : string; sc_CoverageReason : string;
}.

Record SystemCoverage := mkCoverage {
  cv_OverallStatus : SensorCoverageStatus; cv_Nominal : bool;
  cv_Sensors : gmap string SensorCoverage; cv_Summary : string;
}.

(** [ReleaseStatus] (src/control/release.go) *)
Record ReleaseStatus := mkRelease {
  rs_Channel : string; rs_Phase : string; rs_Since : time; rs_Ready : bool; rs_Blockers : list string;
  rs_CoreMisses : Z; rs_EmergencyStop : bool; rs_FailSafeVerified : bool; rs_KernelPolicyState : string;
  rs_LastTransition : option time; rs_Detail : string; rs_FailSafeReason : string;
  rs_FailSafeAt : option time; rs_NominalSince : option time;
}.

(** [RuntimeSettings] (src/control/runtime_settings.go), the fields the block
    list, the release gate and the protection verdict read. *)
Record RuntimeSettings := mkRuntime {
  ru_FabricVersion : Z; ru_XDREnabled : bool; ru_AutoDegrade : bool; ru_ManagementAllowlist : list string;
  ru_KineticEnabled : bool; ru_KineticEnforcementMode : string;
  ru_DefaultTTLSeconds : Z; ru_MaxTTLSeconds : Z; ru_MaxBlockEntries : Z;
  ru_MinimumObserveSeconds : Z; ru_MinimumCanarySeconds : Z; ru_CoreFailureThreshold : Z;
  ru_MaxEvaluationDropPermille : Z;
}.

(** [KineticTelemetry]: the counters of the detection engine, those of the
    response, and the stored coverage. *)
Record DetectionCounters := mkCounters {
  dc_HitsTotal : Z; dc_VelocityBurstsTotal : Z; dc_PortscansTotal : Z; dc_SubnetStrikesTotal : Z; dc_L7StrikesTotal : Z;
  dc_TrackingDropsTotal : Z; dc_TrackingEvictionsTotal : Z; dc_AggregateEvictionsTotal : Z;
  dc_ActiveTrackingIPs : Z; dc_ActiveSubnetsV4 : Z; dc_ActiveSubnetsV6 : Z; dc_ActiveWideV4 : Z; dc_TrackingCapacity : Z;
}.
Record KineticTelemetry := mkKinetic {
  kt_BansEnforcedTotal : Z; kt_BansExpiredTotal : Z; kt_ResponseAppliedTotal : Z; kt_ResponseRollbackTotal : Z;
  kt_ResponseFailedTotal : Z; kt_ResponseSuppressedTotal : Z; kt_LastStrikeAt : option time;
  kt_Coverage : SystemCoverage; kt_Detection : DetectionCounters;
}.

Record State (L K : Type) := mkState {
  st_enforcement : string; st_releaseXDRMode : string; st_started : time;
  st_coreConnected : bool; st_coreMode : string; st_allowlistReady : bool;
  st_blocks : gmap string BlockEntry; st_blockDeadlines : gmap string gotime;
  st_events : list Event; st_eventCap : nat;
  st_xdr : XDRStatus; st_xdrCauses : gmap string string; st_caseHistoryFailures : Z;
  st_l7 : L7Status; st_incidents : list XDRIncident; st_incidentDedupe : gmap string time; st_incidentCap : nat;
  st_policy : PolicyStatus; st_release : ReleaseStatus; st_settings : RuntimeSettings;
  st_evidence : option L; st_evidenceStatus : EvidenceStatus; st_evidenceErr : error;
  st_cases : option K; st_kinetic : KineticTelemetry; st_sensors : gmap string SensorCoverage;
}.
Arguments mkState {L K}.
Arguments st_enforcement {L K}.
Arguments st_releaseXDRMode {L K}.
Arguments st_started {L K}.
Arguments st_coreConnected {L K}.
Arguments st_coreMode {L K}.
Arguments st_allowlistReady {L K}.
Arguments st_blocks {L K}.
Arguments st_blockDeadlines {L K}.
Arguments st_events {L K}.
Arguments st_eventCap {L K}.
Arguments st_xdr {L K}.
Arguments st_xdrCauses {L K}.
Arguments st_caseHistoryFailures {L K}.
Arguments st_l7 {L K}.
Arguments st_incidents {L K}.
Arguments st_incidentDedupe {L K}.
Arguments st_incidentCap {L K}.
Arguments st_policy {L K}.
Arguments st_release {L K}.
Arguments st_settings {L K}.
Arguments st_evidence {L K}.
Arguments st_evidenceStatus {L K}.
Arguments st_evidenceErr {L K}.
Arguments st_cases {L K}.
Arguments st_kinetic {L K}.
Arguments st_sensors {L K}.

Section Setters.
Context {L K : Type}.
Definition eta_state (s : State L K) : State L K :=
  mkState (st_enforcement s) (st_releaseXDRMode s) (st_started s) (st_coreConnected s) (st_coreMode s)
    (st_allowlistReady s) (st_blocks s) (st_blockDeadlines s) (st_events s) (st_eventCap s) (st_xdr s)
    (st_xdrCauses s) (st_caseHistoryFailures s) (st_l7 s) (st_incidents s) (st_incidentDedupe s)
    (st_incidentCap s) (st_policy s) (st_release s) (st_settings s) (st_evidence s) (st_evidenceStatus s)
    (st_evidenceErr s) (st_cases s) (st_kinetic s) (st_sensors s).
Definition set_enforcement : string -> State L K -> State L K := ltac:(setter eta_state (@st_enforcement L K)).
Definition set_releaseXDRMode : string -> State L K -> State L K := ltac:(setter eta_state (@st_releaseXDRMode L K)).
Definition set_started : time -> State L K -> State L K := ltac:(setter eta_state (@st_started L K)).
Definition set_coreConnected : bool -> State L K -> State L K := ltac:(setter eta_state (@st_coreConnected L K)).
Definition set_coreMode : string -> State L K -> State L K := ltac:(setter eta_state (@st_coreMode L K)).
Definition set_allowlistReady : bool -> State L K -> State L K := ltac:(setter eta_state (@st_allowlistReady L K)).
Definition set_blocks : gmap string BlockEntry -> State L K -> State L K := ltac:(setter eta_state (@st_blocks L K)).
Definition set_blockDeadlines : gmap string gotime -> State L K -> State L K := ltac:(setter eta_state (@st_blockDeadlines L K)).
Definition set_events : list Event -> State L K -> State L K := ltac:(setter eta_state (@st_events L K)).
Definition set_eventCap : nat -> State L K -> State L K := ltac:(setter eta_state (@st_eventCap L K)).
Definition set_xdr : XDRStatus -> State L K -> State L K := ltac:(setter eta_state (@st_xdr L K)).
Definition set_xdrCauses : gmap string string -> State L K -> State L K := ltac:(setter eta_state (@st_xdrCauses L K)).
Definition set_caseHistoryFailures : Z -> State L K -> State L K := ltac:(setter eta_state (@st_caseHistoryFailures L K)).
Definition set_l7 : L7Status -> State L K -> State L K := ltac:(setter eta_state (@st_l7 L K)).
Definition set_incidents : list XDRIncident -> State L K -> State L K := ltac:(setter eta_state (@st_incidents L K)).
Definition set_incidentDedupe : gmap string time -> State L K -> State L K := ltac:(setter eta_state (@st_incidentDedupe L K)).
Definition set_incidentCap : nat -> State L K -> State L K := ltac:(setter eta_state (@st_incidentCap L K)).
Definition set_policy : PolicyStatus -> State L K -> State L K := ltac:(setter eta_state (@st_policy L K)).
Definition set_release : ReleaseStatus -> State L K -> State L K := ltac:(setter eta_state (@st_release L K)).
Definition set_settings : RuntimeSettings -> State L K -> State L K := ltac:(setter eta_state (@st_settings L K)).
Definition set_evidence : option L -> State L K -> State L K := ltac:(setter eta_state (@st_evidence L K)).
Definition set_evidenceStatus : EvidenceStatus -> State L K -> State L K := ltac:(setter eta_state (@st_evidenceStatus L K)).
Definition set_evidenceErr : error -> State L K -> State L K := ltac:(setter eta_state (@st_evidenceErr L K)).
Definition set_cases : option K -> State L K -> State L K := ltac:(setter eta_state (@st_cases L K)).
Definition set_kinetic : KineticTelemetry -> State L K -> State L K := ltac:(setter eta_state (@st_kinetic L K)).
Definition set_sensors : gmap string SensorCoverage -> State L K -> State L K := ltac:(setter eta_state (@st_sensors L K)).
End Setters.

(** What the state asks of the evidence ledger and of the case history.
    [None] as the outcome of an append: the process ended. *)
Class Sinks (L K X : Type) := {
  sk_Append : EvidenceRecord -> L -> world X -> option (error * L * world X);
  sk_Status : L -> EvidenceStatus;
  sk_Healthy : L -> error;
  sk_IngestIncident : XDRIncident -> K -> world X -> error * K * world X;
}.

(** [errors.Is(err, errEvidenceBudgetExhausted)] *)
Fixpoint is_budget_exhausted (e : goerror) : bool :=
  match e with
  | ErrText m => bool_decide (m = "evidence ledger size budget exhausted")
  | ErrNotExist => false
  | ErrWrap _ e' => is_budget_exhausted e'
  | ErrJoin es => existsb is_budget_exhausted es
  | RecoveryRequiredError _ e' => is_budget_exhausted e'
  end.

(** [err.Error()] as far as the texts are kept. *)
Fixpoint error_text (e : goerror) : string :=
  match e with
  | ErrText m => m
  | ErrNotExist => "file does not exist"
  | ErrWrap m e' => m +:+ ": " +:+ error_text e'
  | ErrJoin es => join_with newline (map error_text es)
  | RecoveryRequiredError stage e' => stage +:+ ": " +:+ error_text e'
  end.

Section Blocks.
Context {L K : Type}.
Implicit Types (s : State L K) (b : BlockEntry).

Definition set_ExpiresAt (t : time) b : BlockEntry :=
  mkBlock (b_ID b) (b_Target b) (b_Reason b) (b_Source b) (b_CreatedAt b) t (b_Enforced b).
Definition set_Reason (r : string) b : BlockEntry :=
  mkBlock (b_ID b) (b_Target b) r (b_Source b) (b_CreatedAt b) (b_ExpiresAt b) (b_Enforced b).
Definition set_Enforced (e : bool) b : BlockEntry :=
  mkBlock (b_ID b) (b_Target b) (b_Reason b) (b_Source b) (b_CreatedAt b) (b_ExpiresAt b) e.
Definition set_Target (t : string) b : BlockEntry :=
  mkBlock (b_ID b) t (b_Reason b) (b_Source b) (b_CreatedAt b) (b_ExpiresAt b) (b_Enforced b).

Definition put_block (target : string) b s : State L K := set_blocks (<[target := b]> (st_blocks s)) s.
Definition put_deadline (target : string) (d : gotime) s : State L K :=
  set_blockDeadlines (<[target := d]> (st_blockDeadlines s)) s.
Definition drop_block (target : string) s : State L K :=
  set_blockDeadlines (delete target (st_blockDeadlines s)) (set_blocks (delete target (st_blocks s)) s).

(** [AddBlockAt]. [fresh] is the identifier [randomID] mints and [clock] what
    [time.Now] returns should the caller pass the zero time. *)
Definition AddBlockAt (target reason source : string) (ttl : duration) (enforced : bool) (maxEntries : Z)
    (now : gotime) (fresh : string) (clock : gotime) s : (goerror + BlockEntry) * State L K :=
  match normalizeTarget target with
  | inl e => (inl e, s)
  | inr target =>
      if (slen reason <? 3) || (240 <? slen reason)
      then (inl (ErrText "reason must contain 3-240 characters"), s)
      else
        let now := if Time.IsZero (g_wall now) then clock else now in
        let deadline := g_Add now ttl in
        let now := g_wall now in
        if maxEntries <=? 0 then (inl (ErrText "blocklist capacity must be positive"), s)
        else
          match st_blocks s !! target with
          | Some old =>
              let old := set_Enforced enforced (set_Reason reason (set_ExpiresAt (Time.Add now ttl) old)) in
              (inr old, put_deadline target deadline (put_block target old s))
          | None =>
              if maxEntries <=? Z.of_nat (size (st_blocks s))
              then (inl (ErrText "blocklist capacity reached"), s)
              else
                let b := mkBlock fresh target reason source now (Time.Add now ttl) enforced in
                (inr b, put_deadline target deadline (put_block target b s))
          end
  end.

(** [AddBlock]: the time is stripped of its monotonic reading before it is
    passed on. *)
Definition AddBlock (target reason source : string) (ttl : duration) (enforced : bool) (maxEntries : Z)
    (fresh : string) (clock : gotime) s : (goerror + BlockEntry) * State L K :=
  AddBlockAt target reason source ttl enforced maxEntries (g_UTC clock) fresh clock s.

(** [blockExpiryDeadline] *)
Definition blockExpiryDeadline (target : string) b s : gotime :=
  match st_blockDeadlines s !! target with
  | Some d => if Time.IsZero (g_wall d) then wall_only (b_ExpiresAt b) else d
  | None => wall_only (b_ExpiresAt b)
  end.

(** [blockExpired]: a deadline with a monotonic reading differs from its own
    [Round(0)]. *)
Definition blockExpired (deadline wallNow monoNow : gotime) : bool :=
  match g_mono deadline with
  | Some _ => negb (g_After deadline monoNow)
  | None => negb (g_After deadline wallNow)
  end.

(** The blocks in the order of [map_to_list]; the source ranges over a Go map,
    in no particular order. *)
Definition block_list s : list (string * BlockEntry) := map_to_list (st_blocks s).

(** [BlockByID] *)
Definition BlockByID (id : string) s : option BlockEntry :=
  (fun r => r.2.2) <$> list_find (fun kb => b_ID kb.2 = id) (block_list s).

(** [BlockByTarget] *)
Definition BlockByTarget (target : string) s : option BlockEntry :=
  match normalizeTarget target with
  | inl _ => None
  | inr t => st_blocks s !! t
  end.

(** [RemoveBlockByID] *)
Definition RemoveBlockByID (id : string) s : option BlockEntry * State L K :=
  match list_find (fun kb => b_ID kb.2 = id) (block_list s) with
  | Some (_, (target, b)) => (Some b, drop_block target s)
  | None => (None, s)
  end.

(** [Expired] *)
Definition Expired (now monoNow : gotime) s : list BlockEntry * State L K :=
  let gone := List.filter (fun kb => blockExpired (blockExpiryDeadline kb.1 kb.2 s) now monoNow) (block_list s) in
  (map snd gone, fold_left (fun s kb => drop_block kb.1 s) gone s).

(** [RestoreBlock] *)
Definition RestoreBlock b s : State L K :=
  set_blockDeadlines (delete (b_Target b) (st_blockDeadlines s)) (put_block (b_Target b) b s).

(** [SetBlockEnforced] *)
Definition SetBlockEnforced (target : string) (enforced : bool) s : State L K :=
  match st_blocks s !! target with
  | None => s
  | Some b => put_block target (set_Enforced enforced b) s
  end.

(** [ImportBlocks]: the number imported and the state. *)
Definition import_step (now monoNow : gotime) (maxEntries : Z) (acc : Z * State L K) b : Z * State L K :=
  let '(count, s) := acc in
  if (maxEntries <=? count) || blockExpired (wall_only (b_ExpiresAt b)) now monoNow then (count, s)
  else
    match normalizeTarget (b_Target b) with
    | inl _ => (count, s)
    | inr normalized =>
        if bool_decide (b_ID b = "") then (count, s)
        else (count + 1, set_blockDeadlines (delete normalized (st_blockDeadlines s))
                           (put_block normalized (set_Target normalized b) s))
    end.
Definition ImportBlocks (blocks : list BlockEntry) (now monoNow : gotime) (maxEntries : Z) s : Z * State L K :=
  fold_left (import_step now monoNow maxEntries) blocks (0, s).

Definition target_le (a b : BlockEntry) : Prop := String.le (b_Target a) (b_Target b).
Global Instance target_le_dec : RelDecision target_le.
Proof. intros a b. unfold target_le. apply _. Defined.

(** [BlocksSnapshot] *)
Definition BlocksSnapshot s : list BlockEntry := merge_sort target_le (map snd (block_list s)).

(** [SetModes] and [Modes] *)
Definition SetModes (enforcement xdrMode : string) s : State L K :=
  set_xdr (set_xMode xdrMode (st_xdr s)) (set_releaseXDRMode xdrMode (set_enforcement enforcement s)).
Definition Modes s : string * string :=
  (st_enforcement s, if bool_decide (st_releaseXDRMode s = "") then x_Mode (st_xdr s) else st_releaseXDRMode s).

Definition SetReleaseStatus (status : ReleaseStatus) s : State L K := set_release status s.
Definition SetPolicyStatus (p : PolicyStatus) s : State L K := set_policy p s.
Definition SetCore (connected : bool) (mode : string) s : State L K :=
  set_coreMode mode (set_coreConnected connected s).
Definition SetAllowlistReady (ready : bool) s : State L K := set_allowlistReady ready s.
Definition SetSettings (settings : RuntimeSettings) s : State L K := set_settings settings s.
Definition SetL7Status (status : L7Status) s : State L K := set_l7 status s.
(** [UpdateL7Status]; a nil function changes nothing. *)
Definition UpdateL7Status (update : option (L7Status -> L7Status)) s : State L K :=
  match update with None => s | Some f => set_l7 (f (st_l7 s)) s end.
(** [UpdateKineticTelemetry]; a nil function changes nothing. *)
Definition UpdateKineticTelemetry (fn : option (KineticTelemetry -> KineticTelemetry)) s : State L K :=
  match fn with None => s | Some f => set_kinetic (f (st_kinetic s)) s end.
Definition SetEvidenceStatus (status : EvidenceStatus) s : State L K := set_evidenceStatus status s.
Definition AttachCases (engine : option K) s : error * State L K :=
  match engine with
  | None => (errors_New "case engine is required", s)
  | Some k => (None, set_cases (Some k) s)
  end.

(** [SetEventCap] (src/control/system_fabric.go): the new budget of the event
    window takes effect on the window as it is. *)
Definition SetEventCap (cap : Z) s : State L K :=
  if cap <=? 0 then s
  else
    let s := set_eventCap (Z.to_nat cap) s in
    if cap <? Z.of_nat (length (st_events s)) then set_events (keep_last (Z.to_nat cap) (st_events s)) s else s.
End Blocks.

(** ** The degradation causes *)

Definition xdrCauseEngine : string := "engine".
Definition xdrCauseCaseHistory : string := "case_history".
Definition xdrCauseEvidence : string := "evidence_ledger".
Definition caseHistoryFailureThreshold : Z := 2.

Section Causes.
Context {L K : Type}.
Implicit Types (s : State L K).

Definition cause_keys (causes : gmap string string) : list string := sort_Strings (elements (dom causes)).
Definition cause_reason (causes : gmap string string) : string :=
  join_with "; " (omap (fun k => causes !! k) (cause_keys causes)).

(** [recomputeXDRDegradedLocked], without the journal line it returns. *)
Definition recomputeXDRDegradedLocked s : State L K :=
  let degraded := negb (bool_decide (st_xdrCauses s = ∅)) in
  let reason := cause_reason (st_xdrCauses s) in
  if Bool.eqb (x_Degraded (st_xdr s)) degraded && bool_decide (x_DegradedReason (st_xdr s) = reason) then s
  else set_xdr (set_xReason reason (set_xDegraded degraded (st_xdr s))) s.

(** [markXDRCauseLocked] and [clearXDRCauseLocked] *)
Definition markXDRCauseLocked (cause reason : string) s : State L K :=
  if bool_decide (st_xdrCauses s !! cause = Some reason) then s
  else recomputeXDRDegradedLocked (set_xdrCauses (<[cause := reason]> (st_xdrCauses s)) s).
Definition clearXDRCauseLocked (cause : string) s : State L K :=
  match st_xdrCauses s !! cause with
  | None => s
  | Some _ => recomputeXDRDegradedLocked (set_xdrCauses (delete cause (st_xdrCauses s)) s)
  end.

(** [MarkXDRDegraded] and [SetXDRDegraded] *)
Definition MarkXDRDegraded (reason : string) s : State L K := markXDRCauseLocked xdrCauseEngine reason s.
Definition SetXDRDegraded (degraded : bool) (reason : string) s : State L K :=
  if degraded then markXDRCauseLocked xdrCauseEngine reason s else clearXDRCauseLocked xdrCauseEngine s.

(** [noteCaseHistoryFailure] and [noteCaseHistorySuccess] *)
Definition noteCaseHistoryFailure (err : goerror) s : State L K :=
  let attempts := st_caseHistoryFailures s + 1 in
  let s := set_caseHistoryFailures attempts s in
  if caseHistoryFailureThreshold <=? attempts
  then markXDRCauseLocked xdrCauseCaseHistory ("case history integrity unavailable: " +:+ error_text err) s
  else s.
Definition noteCaseHistorySuccess s : State L K :=
  clearXDRCauseLocked xdrCauseCaseHistory (set_caseHistoryFailures 0 s).

(** [SetXDREnabled] *)
Definition SetXDREnabled (enabled networkSensor : bool) s : State L K :=
  let x := set_xEnabled enabled (st_xdr s) in
  set_xdr
    (if negb enabled then set_xSensor "disabled-by-operator" x
     else if bool_decide (x_Sensor x = "") || bool_decide (x_Sensor x = "initializing")
     then set_xSensor (if networkSensor then "procfs+network-bounded" else "procfs-bounded") x
     else x) s.

(** [SetXDRStatus] *)
Definition SetXDRStatus (x : XDRStatus) s : State L K :=
  let old := st_xdr s in
  let x := if x_IncidentsTotal x =? 0 then set_xIncidents (x_IncidentsTotal old) x else x in
  let x := if x_ActionsTotal x =? 0 then set_xActions (x_ActionsTotal old) x else x in
  let x := if x_Degraded old && negb (x_Degraded x)
           then set_xReason (x_DegradedReason old) (set_xDegraded true x) else x in
  set_xdr x s.

(** [UpdateXDRScan] *)
Definition UpdateXDRScan (processes connections : Z) (at_ : time) (degraded : bool) (reason : string)
    (protected : Z) s : State L K :=
  let x := set_xProcesses processes (set_xEnabled true (st_xdr s)) in
  let x := if 0 <=? connections then set_xConnections connections x else x in
  let x := set_xProtected protected (set_xReason reason (set_xDegraded degraded (set_xLastScan (Some at_) x))) in
  set_xdr (if bool_decide (x_Sensor x = "") || bool_decide (x_Sensor x = "initializing")
           then set_xSensor "procfs-fallback" x else x) s.

(** [UpdateXDRRuntime], without the behaviour summary. *)
Definition UpdateXDRRuntime (queueDepth queueCapacity drops evaluations anomalies : Z) s : State L K :=
  set_xdr (set_xAnomalies anomalies (set_xEvaluations evaluations (set_xDrops drops
    (set_xQueueCapacity queueCapacity (set_xQueueDepth queueDepth (st_xdr s)))))) s.
End Causes.

(** ** Incidents, events and evidence *)

Section Records.
Context {L K X : Type} `{SK : !Sinks L K X}.
Implicit Types (s : State L K) (w : world X).

(** [append ...; if len > cap, keep the last cap] *)
Definition push_capped {A} (cap : nat) (l : list A) (x : A) : list A := keep_last cap (l ++ [x]).

(** [randomID]; the process ends when the random source fails. *)
Definition mint (w : world X) : option (string * world X) :=
  match randomID w with
  | (Some id, w1) => Some (id, w1)
  | (None, _) => None
  end.

(** [RecordEvidence] *)
Definition unhealthy_status (st : EvidenceStatus) : EvidenceStatus :=
  mkEvidenceStatus (es_Enabled st) false (es_Full st) (es_Records st) (es_HeadHash st) (es_PublicKey st)
    "evidence integrity unavailable" (es_MaxBytes st) (es_StoredBytes st) (es_VerifyScope st) (es_FullVerifiedAt st).
Definition full_status (st : EvidenceStatus) : EvidenceStatus :=
  mkEvidenceStatus (es_Enabled st) (es_Healthy st) true (es_Records st) (es_HeadHash st) (es_PublicKey st)
    (es_Error st) (es_MaxBytes st) (es_StoredBytes st) (es_VerifyScope st) (es_FullVerifiedAt st).

Definition note_append (err : error) (ledger : L) s : State L K :=
  let s := set_evidence (Some ledger) s in
  let status := sk_Status (K := K) (X := X) ledger in
  match err with
  | None =>
      clearXDRCauseLocked xdrCauseEvidence (set_evidenceStatus status (set_evidenceErr None s))
  | Some e =>
      if is_budget_exhausted e
      then clearXDRCauseLocked xdrCauseEvidence
             (set_evidenceStatus (full_status status) (set_evidenceErr (Some e) s))
      else markXDRCauseLocked xdrCauseEvidence "mandatory evidence ledger unavailable"
             (set_evidenceStatus (unhealthy_status status) (set_evidenceErr (Some e) s))
  end.

Definition RecordEvidence (record : EvidenceRecord) : M (State L K * world X) error := fun '(s, w) =>
  match st_evidence s with
  | None => Some (None, (s, w))
  | Some ledger =>
      match sk_Append (K := K) record ledger w with
      | None => None
      | Some (err, ledger, w) => Some (err, (note_append err ledger s, w))
      end
  end.

(** [AddEvent] *)
Definition event_record (e : Event) : EvidenceRecord :=
  mkEvidence 0 0 (ev_ID e) (ev_Time e) (ev_Severity e) (ev_Kind e) (ev_Source e) (ev_Message e) (ev_Target e)
    "" "" "" "".
Definition fill_event (e : Event) (w : world X) : option (Event * world X) :=
  '(id, w) ← (if bool_decide (ev_ID e = "") then mint w else Some (ev_ID e, w));
  let '(t, w) := if Time.IsZero (ev_Time e) then time_Now w else (ev_Time e, w) in
  Some (mkEvent id t (ev_Severity e) (ev_Kind e) (ev_Source e) (ev_Message e) (ev_Target e), w).
Definition AddEvent (e : Event) : M (State L K * world X) unit := fun '(s, w) =>
  match fill_event e w with
  | None => None
  | Some (e, w) =>
      match RecordEvidence (event_record e) (s, w) with
      | None => None
      | Some (_, (s, w)) => Some (tt, (set_events (push_capped (st_eventCap s) (st_events s) e) s, w))
      end
  end.

(** [incidentFingerprint] *)
Definition incidentFingerprint (i : XDRIncident) : string :=
  let rule := match in_RuleIDs i with r :: _ => r | [] => "" end in
  rule +:+ "|" +:+ in_Severity i +:+ "|" +:+ in_Process i +:+ "|" +:+ in_Remote i +:+ "|" +:+ in_Summary i.

(** The bound on the deduplication table: above 4096 entries it is reduced to
    2048. Go's map order decides which stay; the model keeps the first ones of
    [map_to_list]. *)
Definition trim_dedupe (m : gmap string time) : gmap string time :=
  if (4096 <? Z.of_nat (size m)) then list_to_map (take 2048 (map_to_list m)) else m.

(** The deduplication step of [AddIncident]: [None] when the incident repeats
    internet background noise seen within a minute. *)
Definition dedupe (i : XDRIncident) (now : time) s : bool * State L K :=
  match in_RuleIDs i with
  | rule :: _ =>
      if HasPrefix rule "L7.SCANNER" then
        let fp := incidentFingerprint i in
        let seen := st_incidentDedupe s in
        match seen !! fp with
        | Some last_ =>
            if Time.Sub now last_ <? 60 * Time.Second
            then (true, set_incidentDedupe (<[fp := now]> seen) s)
            else (false, set_incidentDedupe (<[fp := now]> (trim_dedupe seen)) s)
        | None => (false, set_incidentDedupe (<[fp := now]> (trim_dedupe seen)) s)
        end
      else (false, s)
  | [] => (false, s)
  end.

Definition count_incident (i : XDRIncident) (x : XDRStatus) : XDRStatus :=
  let x := set_xIncidents (u64 (x_IncidentsTotal x + 1)) x in
  if negb (bool_decide (in_Action i = "")) && negb (bool_decide (in_Action i = "none"))
  then set_xActions (u64 (x_ActionsTotal x + 1)) x else x.

Definition fill_incident (i : XDRIncident) (w : world X) : option (XDRIncident * world X) :=
  '(id, w) ← (if bool_decide (in_ID i = "") then mint w else Some (in_ID i, w));
  let '(t, w) := if Time.IsZero (in_Time i) then time_Now w else (in_Time i, w) in
  Some (mkIncident id t (in_Severity i) (in_Process i) (in_Remote i) (in_RuleIDs i) (in_Summary i)
          (in_Decision i) (in_Action i) (in_Outcome i) (in_Acknowledged i), w).

(** [AddIncident] *)
Definition AddIncident (i : XDRIncident) : M (State L K * world X) unit := fun '(s, w) =>
  match fill_incident i w with
  | None => None
  | Some (i, w) =>
      let '(now, w) := time_Now w in
      match dedupe i now s with
      | (true, s) => Some (tt, (s, w))
      | (false, s) =>
          let s := set_incidents (push_capped (st_incidentCap s) (st_incidents s) i) s in
          let s := set_xdr (count_incident i (st_xdr s)) s in
          match st_cases s with
          | None => Some (tt, (s, w))
          | Some cases =>
              let '(err, cases, w) := sk_IngestIncident (L := L) i cases w in
              let s := set_cases (Some cases) s in
              Some (tt, (match err with
                         | Some e => noteCaseHistoryFailure e s
                         | None => noteCaseHistorySuccess s
                         end, w))
          end
      end
  end.

(** [RestoreIncidents] *)
Definition RestoreIncidents (incidents : list XDRIncident) s : State L K :=
  let restored := List.filter (fun i => negb (bool_decide (in_ID i = ""))) incidents in
  let existing := map in_ID (st_incidents s) in
  let added := List.filter (fun i => negb (bool_decide (in_ID i ∈ existing))) restored in
  if bool_decide (restored = []) then s
  else set_incidents (keep_last (st_incidentCap s) (st_incidents s ++ added)) s.

(** [AcknowledgeIncident]: the first incident with this identifier. *)
Fixpoint acknowledge (id : string) (l : list XDRIncident) : bool * list XDRIncident :=
  match l with
  | [] => (false, [])
  | i :: l =>
      if bool_decide (in_ID i = id)
      then (true, mkIncident (in_ID i) (in_Time i) (in_Severity i) (in_Process i) (in_Remote i) (in_RuleIDs i)
                    (in_Summary i) (in_Decision i) (in_Action i) (in_Outcome i) true :: l)
      else let '(ok, l) := acknowledge id l in (ok, i :: l)
  end.
Definition AcknowledgeIncident (id : string) s : bool * State L K :=
  let '(ok, l) := acknowledge id (st_incidents s) in (ok, set_incidents l s).

(** [AttachEvidenceLedger] *)
Definition AttachEvidenceLedger (ledger : option L) s : error * State L K :=
  match ledger with
  | None => (errors_New "evidence ledger is required", s)
  | Some l =>
      match sk_Healthy (K := K) (X := X) l with
      | Some e => (Some e, s)
      | None => (None, set_evidenceStatus (sk_Status (K := K) (X := X) l)
                         (set_evidenceErr None (set_evidence (Some l) s)))
      end
  end.

(** [EvidenceGateCondition] *)
Definition EvidenceGateCondition s : string * error :=
  match st_evidenceErr s with
  | None => ("", None)
  | Some e => if is_budget_exhausted e then ("evidence ledger retention budget reached", Some e)
              else ("mandatory evidence ledger unavailable", Some e)
  end.
End Records.
