(* ===== verification/Snapshot.v ===== *)
(** * The derived verdicts (State.Snapshot, src/control/state.go)

    The platform coverage ([EvaluateCoverage], src/control/kinetic_types.go),
    the L7 coverage ([EvaluateL7Coverage], src/control/l7_tls.go;
    [deriveL7SensorCoverage], src/control/l7_server.go) and the answer to "is
    full protection active?" ([deriveProtectionStatus]), all derived from the
    published fields when a snapshot is read. *)

From Stdlib Require Import ZArith Lia Ascii String.
From stdpp Require Import base gmap strings list sorting.
From S2P Require Import Prelude.
From S2P Require Import GoLib.
From S2P Require Import Text.
From S2P Require Import World.
From S2P Require Import Exec.
From S2P Require Import NetIP.
From S2P Require Import Policy.
From S2P Require Import Evidence.
From S2P Require Import State.

(** [l7SelfTestEvidenceWindow], [InlinePathVerifiedBySelfTest] *)
Definition l7SelfTestEvidenceWindow : duration := 15 * Time.Minute.
Definition InlinePathVerifiedBySelfTest (status : L7Status) (now : time) : bool :=
  if negb (bool_decide (l7_SelfTestOutcome status = "PASS")) then false
  else match l7_SelfTestAt status with
       | None => false
       | Some at_ =>
           let age := Time.Sub now at_ in
           if age <? 0 then false else age <=? l7SelfTestEvidenceWindow
       end.

(** [EvaluateL7Coverage] *)
Definition EvaluateL7Coverage (status : L7Status) (uptimeSeconds : Z) (now : time) : string :=
  if negb (l7_Enabled status) then "DISABLED"
  else if negb (l7_Healthy status) then "OFFLINE"
  else if l7_InlineEnabled status && negb (l7_InlineHealthy status)
          && negb (InlinePathVerifiedBySelfTest status now) then "INLINE_DEGRADED"
  else
    let httpTraffic := u64 (l7_RequestsTotal status + l7_InlineRequestsTotal status) in
    let traffic := u64 (httpTraffic + l7_TLSHandshakesTotal status) in
    if negb (l7_InlineEnabled status) && (httpTraffic =? 0) && (l7_TLSHandshakesTotal status =? 0)
    then "READY_NOT_ATTACHED"
    else if l7_TLSEnabled status && l7_CoverageRequired status && (300 <? uptimeSeconds)
            && (0 <? httpTraffic) && (l7_TLSHandshakesTotal status =? 0) then "TLS_NOT_IN_PATH"
    else if (traffic =? 0) && (300 <? uptimeSeconds) then "NO_TRAFFIC_WARNING"
    else if 0 <? traffic then "TRAFFIC_ACTIVE"
    else "HEALTHY_AWAITING_TRAFFIC".

(** [describeL7Coverage] *)
Definition describeL7Coverage (coverage : string) : string :=
  if bool_decide (coverage = "OFFLINE") then "L7 service is not healthy"
  else if bool_decide (coverage = "INLINE_DEGRADED") then "inline L7 listener is degraded"
  else if bool_decide (coverage = "NO_TRAFFIC_WARNING")
  then "L7 service is alive but no HTTP or TLS inspection traffic has traversed it for more than five minutes"
  else if bool_decide (coverage = "TLS_NOT_IN_PATH")
  then "HTTP inspection traffic is active, but TLS inspection is enabled and no ClientHello telemetry has reached the TLS sensor"
  else if bool_decide (coverage = "READY_NOT_ATTACHED")
  then "L7 engine is healthy; no inline listener or producer is attached, so the engine is available but not in the traffic path"
  else if bool_decide (coverage = "HEALTHY_AWAITING_TRAFFIC")
  then "L7 service is healthy and awaiting its first verified inspection"
  else if bool_decide (coverage = "TRAFFIC_ACTIVE")
  then "verified application-layer inspection traffic is active"
  else "L7 subsystem disabled".

(** [inlineDegradedReason] *)
Definition inlineDegradedReason (status : L7Status) : string :=
  let detail := TrimSpace (l7_InlineLastError status) in
  if bool_decide (detail = "") then l7_CoverageReason status
  else l7_CoverageReason status +:+ ": " +:+ detail.

(** [deriveL7SensorCoverage] *)
Definition l7_verdict (status : L7Status) (healthy : bool) : SensorCoverageStatus * string * string :=
  let cov := l7_Coverage status in
  if negb (l7_Enabled status) then (CoverageDisabled, "L7 disabled by configuration", "disabled")
  else if negb healthy then (CoverageOffline, "L7 service is offline", "failed")
  else if bool_decide (cov = "INLINE_DEGRADED") then (CoverageDegraded, inlineDegradedReason status, "failed")
  else if bool_decide (cov = "READY_NOT_ATTACHED") && negb (l7_CoverageRequired status)
  then (CoverageNotApplicable,
        "L7 engine is healthy; no traffic path is attached and coverage is not required", "ready-not-attached")
  else if bool_decide (cov = "HEALTHY_AWAITING_TRAFFIC") || bool_decide (cov = "NO_TRAFFIC_WARNING")
          || bool_decide (cov = "TLS_NOT_IN_PATH") || bool_decide (cov = "READY_NOT_ATTACHED")
  then (CoverageDegraded, l7_CoverageReason status, "awaiting-traffic")
  else (CoverageOnline, "verified L7 inspection traffic active", "pass").
Definition deriveL7SensorCoverage (status : L7Status) (healthy : bool) : SensorCoverage :=
  let '(st, reason, selfTest) := l7_verdict status healthy in
  mkSensor "l7_application" st (l7_CoverageRequired status)
    (if decide (st = CoverageOnline)
     then match l7_LastInspection status with Some t => Some t | None => l7_LastRequestAt status end
     else None)
    (if decide (st = CoverageOffline \/ st = CoverageDegraded) then reason else "")
    selfTest reason.

(** [EvaluateCoverage]: the required sensors in a given state, by name. *)
Definition required_in (P : SensorCoverageStatus -> bool) (sensors : gmap string SensorCoverage) : list string :=
  map (fun kv => sc_Name kv.2)
    (List.filter (fun kv => sc_Required kv.2 && P (sc_Status kv.2)) (map_to_list sensors)).
Definition is_offline (st : SensorCoverageStatus) : bool :=
  match st with CoverageOffline | CoverageDisabled => true | _ => false end.
Definition is_degraded (st : SensorCoverageStatus) : bool :=
  match st with CoverageDegraded => true | _ => false end.

Definition EvaluateCoverage (sensors : gmap string SensorCoverage) : SystemCoverage :=
  let offline := required_in is_offline sensors in
  let degraded := required_in is_degraded sensors in
  if negb (bool_decide (offline = []))
  then mkCoverage CoverageOffline false sensors
         ("Critical mandatory sensors offline: " +:+ join_with ", " (sort_Strings offline))
  else if negb (bool_decide (degraded = []))
  then mkCoverage CoverageDegraded false sensors
         ("Mandatory sensors degraded: " +:+ join_with ", " (sort_Strings degraded))
  else mkCoverage CoverageOnline true sensors "All mandatory sensors operational".

(** ** The protection verdict *)

Record ProtectionDomain := mkDomain { pd_Name : string; pd_Active : bool; pd_Mode : string; pd_Detail : string }.
Record ProtectionStatus := mkProtection {
  pr_Effective : bool; pr_Level : string; pr_Summary : string;
  pr_Domains : list ProtectionDomain; pr_Gaps : list string;
}.

(** [Snapshot], the fields the verdict and the release gate read. *)
Record Snapshot := mkSnapshot {
  sn_Enforcement : string; sn_CoreConnected : bool; sn_CoreMode : string; sn_AllowlistReady : bool;
  sn_Blocks : list BlockEntry; sn_XDR : XDRStatus; sn_L7 : L7Status; sn_Policy : PolicyStatus;
  sn_Release : ReleaseStatus; sn_Settings : RuntimeSettings; sn_Evidence : EvidenceStatus;
  sn_Coverage : SystemCoverage; sn_Protection : ProtectionStatus;
}.

Definition no_protection : ProtectionStatus := mkProtection false "" "" [] [].

Section Protection.
Context `{U : Unicode}.

Definition gap (closed : bool) (name : string) : list string := if closed then [name] else [].

Definition xdr_gap (enabled degraded : bool) (mode : string) : list string :=
  if negb enabled then ["xdr_disabled"]
  else if degraded then ["xdr_degraded"]
  else if bool_decide (mode = "enforce") then []
  else if bool_decide (mode = "observe") then ["xdr_observe"]
  else if bool_decide (mode = "contain") then ["xdr_contain"]
  else ["xdr_disabled"].

(** [deriveProtectionStatus] *)
Definition deriveProtectionStatus (snap : Snapshot) (releaseXDRMode : string) : ProtectionStatus :=
  let phase := ToLower (TrimSpace (rs_Phase (sn_Release snap))) in
  let emergency := rs_EmergencyStop (sn_Release snap) in
  let kernelActive := bool_decide (sn_Enforcement snap = "enforce")
                      && bool_decide (rs_KernelPolicyState (sn_Release snap) = "verified-enforce") in
  let xdrMode := TrimSpace releaseXDRMode in
  let xdrMode := if bool_decide (xdrMode = "") then TrimSpace (x_Mode (sn_XDR snap)) else xdrMode in
  let xdrActive := x_Enabled (sn_XDR snap) && bool_decide (xdrMode = "enforce")
                   && negb (x_Degraded (sn_XDR snap)) in
  let coreActive := sn_CoreConnected snap in
  let kineticMode := TrimSpace (ru_KineticEnforcementMode (sn_Settings snap)) in
  let kineticActive := ru_KineticEnabled (sn_Settings snap) && bool_decide (kineticMode = "block") in
  let l7Active := l7_Enabled (sn_L7 snap) && bool_decide (l7_Mode (sn_L7 snap) = "block") in
  let evidenceActive := es_Enabled (sn_Evidence snap) && es_Healthy (sn_Evidence snap) in
  let domains :=
    [mkDomain "kernel" kernelActive (sn_Enforcement snap) (rs_KernelPolicyState (sn_Release snap));
     mkDomain "xdr" xdrActive xdrMode ""; mkDomain "core" coreActive (sn_CoreMode snap) "";
     mkDomain "kinetic" kineticActive kineticMode (cv_Summary (sn_Coverage snap));
     mkDomain "l7" l7Active (l7_Mode (sn_L7 snap)) (l7_CoverageReason (sn_L7 snap));
     mkDomain "evidence" evidenceActive (es_VerifyScope (sn_Evidence snap)) ""] in
  let gaps :=
    gap (negb kernelActive) "kernel_not_enforcing"
    ++ xdr_gap (x_Enabled (sn_XDR snap)) (x_Degraded (sn_XDR snap)) xdrMode
    ++ gap (negb coreActive) "core_disconnected"
    ++ gap (negb (ru_KineticEnabled (sn_Settings snap)) || negb (bool_decide (kineticMode = "block")))
         "kinetic_not_block"
    ++ gap (negb l7Active) "l7_not_block"
    ++ gap (negb evidenceActive) "evidence_unhealthy"
    ++ gap emergency "emergency_stop"
    ++ gap (negb (bool_decide (phase = "enforce"))) "release_not_enforce" in
  let effective := bool_decide (phase = "enforce") && negb emergency && kernelActive && xdrActive
                   && coreActive && kineticActive && l7Active && evidenceActive in
  let level :=
    if emergency then "emergency"
    else if effective then "full"
    else if bool_decide (phase = "observe") then "observe"
    else if bool_decide (phase = "canary") then "canary"
    else if bool_decide (phase = "degraded") then "degraded"
    else "restricted" in
  let summary := if effective then "every protection layer enforces" else join_with "," gaps in
  mkProtection effective level summary domains gaps.

Context {L K X : Type}.
Implicit Types (s : State L K) (w : world X).

Definition expires_le (a b : BlockEntry) : Prop := b_ExpiresAt a <= b_ExpiresAt b.
Global Instance expires_le_dec : RelDecision expires_le.
Proof. intros a b. unfold expires_le. apply _. Defined.

(** [derivedCoverageLocked] *)
Definition derivedCoverageLocked (uptime : Z) (now : time) s : L7Status * SystemCoverage :=
  let l7 := st_l7 s in
  let l7 := set_l7Coverage (EvaluateL7Coverage l7 uptime now) l7 in
  let l7 := set_l7Verified (bool_decide (l7_Coverage l7 = "TRAFFIC_ACTIVE")) l7 in
  let l7 := set_l7Reason (describeL7Coverage (l7_Coverage l7)) l7 in
  let l7 := if l7_Miswired l7 && negb (bool_decide (l7_Coverage l7 = "OFFLINE"))
            then set_l7Reason (l7_WebSurfaceNote l7) l7 else l7 in
  (l7, EvaluateCoverage (<["l7_application" := deriveL7SensorCoverage l7 (l7_Healthy l7)]> (st_sensors s))).

(** [Snapshot] at a clock reading. *)
Definition snapshot_at (now : time) s : Snapshot :=
  let uptime := Z.quot (Time.Sub now (st_started s)) Time.Second in
  let '(l7, coverage) := derivedCoverageLocked uptime now s in
  let xdr := if negb (bool_decide (st_releaseXDRMode s = "")) && x_Enabled (st_xdr s)
             then set_xMode (st_releaseXDRMode s) (st_xdr s) else st_xdr s in
  let snap p := mkSnapshot (st_enforcement s) (st_coreConnected s) (st_coreMode s) (st_allowlistReady s)
    (merge_sort expires_le (map snd (block_list s))) xdr l7 (st_policy s) (st_release s) (st_settings s)
    (st_evidenceStatus s) coverage p in
  snap (deriveProtectionStatus (snap no_protection) (st_releaseXDRMode s)).

Definition State_Snapshot : M (State L K * world X) Snapshot := fun '(s, w) =>
  let '(now, w) := time_Now w in Some (snapshot_at now s, (s, w)).

(** [SetSensorCoverage] *)
Definition SetSensorCoverage (cov : SensorCoverage) s : State L K :=
  let sensors := <[sc_Name cov := cov]> (st_sensors s) in
  let k := st_kinetic s in
  set_kinetic (mkKinetic (kt_BansEnforcedTotal k) (kt_BansExpiredTotal k) (kt_ResponseAppliedTotal k)
                 (kt_ResponseRollbackTotal k) (kt_ResponseFailedTotal k) (kt_ResponseSuppressedTotal k)
                 (kt_LastStrikeAt k) (EvaluateCoverage sensors) (kt_Detection k))
    (set_sensors sensors s).
End Protection.
