(* ===== verification/StateFacts.v ===== *)
(** * The shared state: well-formedness, expiry, causes and verdicts

    Theorems about src/control/state.go: the invariant every operation keeps,
    the block deadlines, the owner map of the XDR degradation causes, and the
    coverage and protection verdicts derived from the published fields. *)

From Stdlib Require Import ZArith Lia Ascii String.
From stdpp Require Import base gmap strings list sorting.
From S2P Require Import Prelude.
From S2P Require Import GoLib.
From S2P Require Import Text.
From S2P Require Import World.
From S2P Require Import Exec.
From S2P Require Import NetIP.
From S2P Require Import Policy.
From S2P Require Import Evidence.
From S2P Require Import State.
From S2P Require Import Snapshot.

Section Facts.
Context {L K X : Type} `{SK : !Sinks L K X}.
Implicit Types (s : State L K) (b : BlockEntry) (w : world X).

(** ** The operations *)

Inductive sop :=
| SAddBlock (target reason source : string) (ttl : duration) (enforced : bool) (max : Z) (now : gotime)
    (fresh : string) (clock : gotime)
| SRemoveBlock (id : string)
| SExpired (now mono : gotime)
| SRestoreBlock (b : BlockEntry)
| SFlag (target : string) (enforced : bool)
| SImport (blocks : list BlockEntry) (now mono : gotime) (max : Z)
| SModes (enforcement xdrMode : string)
| SRelease (status : ReleaseStatus)
| SEngineCause (degraded : bool) (reason : string)
| SXDREnabled (enabled networkSensor : bool)
| SXDRStatus (x : XDRStatus)
| SScan (processes connections : Z) (at_ : time) (degraded : bool) (reason : string) (protected : Z)
| SEvidence (record : EvidenceRecord)
| SEvent (e : Event)
| SIncident (i : XDRIncident)
| SRestoreIncidents (l : list XDRIncident)
| SAcknowledge (id : string)
| SEventCap (cap : Z)
| SCore (connected : bool) (mode : string)
| SAllowlist (ready : bool)
| SPolicy (p : PolicyStatus)
| SSettings (settings : RuntimeSettings)
| SL7 (update : option (L7Status -> L7Status))
| SSensor (cov : SensorCoverage)
| SRuntime (queueDepth queueCapacity drops evaluations anomalies : Z)
| SEvidenceStatus (status : EvidenceStatus)
| SAttachEvidence (ledger : option L)
| SAttachCases (engine : option K)
| SKinetic (fn : option (KineticTelemetry -> KineticTelemetry))
| SMarkCause (cause reason : string)
| SClearCause (cause : string).

Definition pure_op (f : State L K -> State L K) : M (State L K * world X) unit := modify (fun sw => (f sw.1, sw.2)).
Definition exec (o : sop) : M (State L K * world X) unit :=
  match o with
  | SAddBlock t r src ttl e mx now id clock => pure_op (fun s => (AddBlockAt t r src ttl e mx now id clock s).2)
  | SRemoveBlock id => pure_op (fun s => (RemoveBlockByID id s).2)
  | SExpired now mono => pure_op (fun s => (Expired now mono s).2)
  | SRestoreBlock b => pure_op (RestoreBlock b)
  | SFlag t e => pure_op (SetBlockEnforced t e)
  | SImport bs now mono mx => pure_op (fun s => (ImportBlocks bs now mono mx s).2)
  | SModes e x => pure_op (SetModes e x)
  | SRelease st => pure_op (SetReleaseStatus st)
  | SEngineCause d r => pure_op (SetXDRDegraded d r)
  | SXDREnabled e n => pure_op (SetXDREnabled e n)
  | SXDRStatus x => pure_op (SetXDRStatus x)
  | SScan p c t d r n => pure_op (UpdateXDRScan p c t d r n)
  | SEvidence r => RecordEvidence r ≫= fun _ => mret tt
  | SEvent e => AddEvent e
  | SIncident i => AddIncident i
  | SRestoreIncidents l => pure_op (RestoreIncidents l)
  | SAcknowledge id => pure_op (fun s => (AcknowledgeIncident id s).2)
  | SEventCap cap => pure_op (SetEventCap cap)
  | SCore c m => pure_op (SetCore c m)
  | SAllowlist ready => pure_op (SetAllowlistReady ready)
  | SPolicy p => pure_op (SetPolicyStatus p)
  | SSettings st => pure_op (SetSettings st)
  | SL7 f => pure_op (UpdateL7Status f)
  | SSensor cov => pure_op (SetSensorCoverage cov)
  | SRuntime d c n e a => pure_op (UpdateXDRRuntime d c n e a)
  | SEvidenceStatus st => pure_op (SetEvidenceStatus st)
  | SAttachEvidence l => pure_op (fun s => (AttachEvidenceLedger (X := X) l s).2)
  | SAttachCases k => pure_op (fun s => (AttachCases k s).2)
  | SKinetic fn => pure_op (UpdateKineticTelemetry fn)
  | SMarkCause c r => pure_op (markXDRCauseLocked c r)
  | SClearCause c => pure_op (clearXDRCauseLocked c)
  end.

(** ** Well-formedness *)

Record wf s : Prop := {
  wf_keyed : forall t b, st_blocks s !! t = Some b -> b_Target b = t;
  wf_deadlines : dom (st_blockDeadlines s) ⊆ dom (st_blocks s);
  wf_events : (length (st_events s) <= st_eventCap s)%nat;
  wf_incidents : (length (st_incidents s) <= st_incidentCap s)%nat;
  wf_dedupe : (size (st_incidentDedupe s) <= 4097)%nat;
}.

(** What well-formedness depends on. *)
Definition shape s := (st_blocks s, st_blockDeadlines s, (st_events s, st_eventCap s),
                       (st_incidents s, st_incidentCap s), st_incidentDedupe s).
Lemma wf_shape s s' : shape s' = shape s -> wf s -> wf s'.
Proof. unfold shape. intros [= H1 H2 H3 H4 H5 H6 H7] []. constructor; rewrite ?H1, ?H2, ?H3, ?H4, ?H5, ?H6, ?H7; done. Qed.

Lemma wf_put t b d s : b_Target b = t -> wf s -> wf (put_deadline t d (put_block t b s)).
Proof.
  intros Hb []. constructor; cbn; try done; [|set_solver].
  intros t' b' [[<- <-]|[_ H]]%lookup_insert_Some; auto.
Qed.
Lemma wf_put_only t b s : b_Target b = t -> wf s -> wf (set_blockDeadlines (delete t (st_blockDeadlines s)) (put_block t b s)).
Proof.
  intros Hb []. constructor; cbn; try done; [|set_solver].
  intros t' b' [[<- <-]|[_ H]]%lookup_insert_Some; auto.
Qed.
Lemma wf_drop t s : wf s -> wf (drop_block t s).
Proof. intros []. constructor; cbn; try done; [|set_solver]. intros t' b' [_ H]%lookup_delete_Some. auto. Qed.
Lemma wf_fold_drop (l : list (string * BlockEntry)) s : wf s -> wf (fold_left (fun s kb => drop_block kb.1 s) l s).
Proof. revert s. induction l as [|kb l IH]; cbn; intros s H; [done|]. by apply IH, wf_drop. Qed.

Lemma wf_add t r src ttl e mx now id clock s : wf s -> wf (AddBlockAt t r src ttl e mx now id clock s).2.
Proof.
  intros H. unfold AddBlockAt. destruct (normalizeTarget t) as [|target]; [done|]. destruct (_ || _); [done|].
  destruct (_ <=? 0); [done|]. destruct (st_blocks s !! target) as [old|] eqn:Ho.
  - apply wf_put; [|done]. exact (wf_keyed s H _ _ Ho).
  - destruct (_ <=? _); [done|]. by apply wf_put.
Qed.
Lemma wf_import bs now mono mx s : wf s -> wf (ImportBlocks bs now mono mx s).2.
Proof.
  intros H. unfold ImportBlocks. generalize 0. revert s H. induction bs as [|b bs IH]; intros s H n; [done|].
  cbn [fold_left]. unfold import_step at 2. destruct (_ || _); [by apply IH|]. destruct (normalizeTarget _); [by apply IH|].
  case_bool_decide; [by apply IH|]. apply IH. by apply wf_put_only.
Qed.
Lemma wf_flag t e s : wf s -> wf (SetBlockEnforced t e s).
Proof.
  intros H. unfold SetBlockEnforced. destruct (st_blocks s !! t) as [b|] eqn:Hb; [|done]. destruct H. constructor; cbn; try done.
  - intros t' b' [[<- <-]|[_ H]]%lookup_insert_Some; cbn; eauto.
  - set_solver.
Qed.

Lemma recompute_shape s : shape (recomputeXDRDegradedLocked s) = shape s.
Proof. unfold recomputeXDRDegradedLocked. by destruct (_ && _). Qed.
Lemma mark_shape c r s : shape (markXDRCauseLocked c r s) = shape s.
Proof. unfold markXDRCauseLocked. case_bool_decide; [done|]. by rewrite recompute_shape. Qed.
Lemma clear_shape c s : shape (clearXDRCauseLocked c s) = shape s.
Proof. unfold clearXDRCauseLocked. case_match; [|done]. by rewrite recompute_shape. Qed.
Lemma note_append_shape err (l : L) s : shape (note_append (X := X) err l s) = shape s.
Proof. unfold note_append. repeat case_match; rewrite ?clear_shape, ?mark_shape; done. Qed.
Lemma note_failure_shape e s : shape (noteCaseHistoryFailure e s) = shape s.
Proof. unfold noteCaseHistoryFailure. case_match; [by rewrite mark_shape|done]. Qed.
Lemma note_success_shape s : shape (noteCaseHistorySuccess s) = shape s.
Proof. unfold noteCaseHistorySuccess. by rewrite clear_shape. Qed.

Lemma record_shape r s w e s' w' : RecordEvidence r (s, w) = Some (e, (s', w')) -> shape s' = shape s.
Proof.
  unfold RecordEvidence. intros H. destruct (st_evidence s) as [l|]; [|by simplify_eq].
  destruct (sk_Append r l w) as [[[err l'] w1]|]; [|done]. simplify_eq. apply note_append_shape.
Qed.

Lemma size_of_list (l : list (string * time)) : (size (list_to_map l : gmap string time) <= length l)%nat.
Proof. induction l as [|kv l IH]; cbn; [done|]. rewrite map_size_insert. destruct (_ !! _); cbn; lia. Qed.
Lemma trim_bound (m : gmap string time) : (size (trim_dedupe m) <= 4096)%nat.
Proof.
  unfold trim_dedupe. destruct (Z.ltb_spec 4096 (Z.of_nat (size m))); [|lia].
  etransitivity; [apply size_of_list|]. rewrite length_take. lia.
Qed.
Lemma dedupe_wf i now s d s' : dedupe i now s = (d, s') -> wf s -> wf s' /\ shape s' = (st_blocks s, st_blockDeadlines s,
  (st_events s, st_eventCap s), (st_incidents s, st_incidentCap s), st_incidentDedupe s').
Proof.
  unfold dedupe. intros H Hw. destruct (in_RuleIDs i) as [|r rs]; [by simplify_eq|]. destruct (HasPrefix _ _); [|by simplify_eq].
  pose proof (trim_bound (st_incidentDedupe s)) as Ht.
  assert (forall m, (size m <= 4096)%nat -> wf (set_incidentDedupe (<[incidentFingerprint i := now]> m) s)) as Hnew.
  { intros m Hm. destruct Hw. constructor; try done. cbn [st_incidentDedupe set_incidentDedupe].
    rewrite map_size_insert. destruct (m !! _); cbn [id]; lia. }
  destruct (st_incidentDedupe s !! incidentFingerprint i) as [t|] eqn:Hf; [destruct (_ <? _)|]; simplify_eq; split; try done; auto.
  destruct Hw. constructor; try done. cbn [st_incidentDedupe set_incidentDedupe]. by rewrite map_size_insert, Hf.
Qed.

Lemma wf_incident i s w a s' w' : AddIncident i (s, w) = Some (a, (s', w')) -> wf s -> wf s'.
Proof.
  unfold AddIncident. intros H Hw. destruct (fill_incident i w) as [[i' w1]|]; [|done].
  destruct (time_Now w1) as [now w2]. destruct (dedupe i' now s) as [d s1] eqn:Hd.
  apply dedupe_wf in Hd as [H1 _]; [|done]. destruct d; [by simplify_eq|].
  assert (forall x, wf (set_xdr x (set_incidents (push_capped (st_incidentCap s1) (st_incidents s1) i') s1))) as Hp.
  { intros x. destruct H1. constructor; cbn; try done. apply length_keep_last. }
  destruct (st_cases _); [|simplify_eq; apply Hp]. destruct (sk_IngestIncident _ _ _) as [[err hist] w3]. simplify_eq.
  eapply wf_shape; [|apply (Hp (st_xdr s))]. destruct err; [rewrite note_failure_shape|rewrite note_success_shape]; done.
Qed.

Lemma wf_event e s w a s' w' : AddEvent e (s, w) = Some (a, (s', w')) -> wf s -> wf s'.
Proof.
  unfold AddEvent. intros H Hw. destruct (fill_event e w) as [[e' w1]|]; [|done].
  destruct (RecordEvidence _ _) as [[r [s1 w2]]|] eqn:Hr; [|done]. simplify_eq.
  apply record_shape in Hr. apply (wf_shape _ _ Hr) in Hw. destruct Hw. constructor; cbn; try done. apply length_keep_last.
Qed.

Lemma acknowledge_length id l : length (acknowledge id l).2 = length l.
Proof.
  induction l as [|i l IH]; cbn; [done|]. case_bool_decide; [done|]. destruct (acknowledge id l). cbn in *. by rewrite IH.
Qed.

Lemma wf_event_cap cap s : wf s -> wf (SetEventCap cap s).
Proof.
  intros []. unfold SetEventCap. destruct (Z.leb_spec cap 0); [by constructor|].
  destruct (Z.ltb_spec cap (Z.of_nat (length (st_events (set_eventCap (Z.to_nat cap) s))))) as [|Hle];
    constructor; cbn in *; try done; [apply length_keep_last|lia].
Qed.

(** C38: the shared state stays well formed. Every operation that changes a
    field of it, the resizing of the event window included, with any outcome
    of the ledger and of the case history, keeps the block list keyed
    by normalized target, the deadlines a subset of the blocks, and the event
    window, the incident window and the deduplication table within their
    bounds. *)
Theorem state_well_formed o s w a s' w' : exec o (s, w) = Some (a, (s', w')) -> wf s -> wf s'.
Proof.
  intros H Hw. destruct o; cbn [exec] in H;
    try (unfold pure_op in H; apply modify_inv in H; cbn in H; injection H as -> _).
  - by apply wf_add.
  - unfold RemoveBlockByID. destruct (list_find _ _) as [[? [? ?]]|]; [by apply wf_drop|done].
  - by apply wf_fold_drop.
  - by apply wf_put_only.
  - by apply wf_flag.
  - by apply wf_import.
  - by apply (wf_shape s).
  - by apply (wf_shape s).
  - eapply wf_shape; [|done]. unfold SetXDRDegraded. destruct degraded; [apply mark_shape|apply clear_shape].
  - by apply (wf_shape s).
  - by apply (wf_shape s).
  - by apply (wf_shape s).
  - apply bind_inv in H as (e & [s1 w1] & H & [_ [= -> ->]]%ret_inv). eapply wf_shape; [by eapply record_shape|done].
  - by eapply wf_event.
  - by eapply wf_incident.
  - unfold RestoreIncidents. case_bool_decide; [done|]. destruct Hw. constructor; cbn; try done. apply length_keep_last.
  - unfold AcknowledgeIncident. pose proof (acknowledge_length id (st_incidents s)) as Hl. destruct (acknowledge id _).
    destruct Hw. constructor; cbn in *; try done. by rewrite Hl.
  - by apply wf_event_cap.
  - by apply (wf_shape s).
  - by apply (wf_shape s).
  - by apply (wf_shape s).
  - by apply (wf_shape s).
  - apply (wf_shape s); [|done]. by destruct update.
  - by apply (wf_shape s).
  - by apply (wf_shape s).
  - by apply (wf_shape s).
  - apply (wf_shape s); [|done]. unfold AttachEvidenceLedger. destruct ledger; [|done]. by destruct (sk_Healthy _).
  - apply (wf_shape s); [|done]. by destruct engine.
  - apply (wf_shape s); [|done]. by destruct fn.
  - eapply wf_shape; [apply mark_shape|done].
  - eapply wf_shape; [apply clear_shape|done].
Qed.

(** ** Expiry *)

Lemma drops_lookup (l : list (string * BlockEntry)) s t :
  st_blocks (fold_left (fun s kb => drop_block kb.1 s) l s) !! t = (if bool_decide (t ∈ l.*1) then None else st_blocks s !! t).
Proof.
  revert s. induction l as [|[k b] l IH]; intros s; [done|].
  rewrite fmap_cons. cbn [fold_left fst]. rewrite IH. destruct (decide (t ∈ l.*1)) as [Hl|Hl].
  - rewrite (bool_decide_eq_true_2 (t ∈ l.*1)), bool_decide_eq_true_2 by (rewrite ?elem_of_cons; auto). done.
  - rewrite (bool_decide_eq_false_2 (t ∈ l.*1)) by done. destruct (decide (t = k)) as [->|Hk].
    + rewrite bool_decide_eq_true_2 by (rewrite elem_of_cons; auto). cbn. by rewrite lookup_delete_eq.
    + rewrite bool_decide_eq_false_2 by (rewrite elem_of_cons; naive_solver). cbn. by rewrite lookup_delete_ne.
Qed.

(** The expiry pass removes exactly what is due. A block of the list is
    reported and gone when its deadline (the in-process one when there is one,
    the persisted expiry otherwise) has passed, and stays untouched when not;
    nothing else is reported. *)
Theorem expired_exact now mono s t : st_blocks (Expired now mono s).2 !! t =
    (b ← st_blocks s !! t; if blockExpired (blockExpiryDeadline t b s) now mono then None else Some b) /\
  forall b, b ∈ (Expired now mono s).1 <->
    exists t, st_blocks s !! t = Some b /\ blockExpired (blockExpiryDeadline t b s) now mono = true.
Proof.
  unfold Expired. set (due := fun kb : string * BlockEntry => blockExpired (blockExpiryDeadline kb.1 kb.2 s) now mono).
  assert (forall t b, (t, b) ∈ List.filter due (block_list s) <-> st_blocks s !! t = Some b /\ due (t, b) = true) as Hin.
  { intros t' b. rewrite !list_elem_of_In, filter_In, <- list_elem_of_In. unfold block_list. by rewrite elem_of_map_to_list. }
  split.
  - cbn [snd]. rewrite drops_lookup. case_bool_decide as Ht.
    + apply list_elem_of_fmap in Ht as ([t' b] & -> & [Hb Hd]%Hin). cbn [fst]. rewrite Hb. cbn. unfold due in Hd. cbn in Hd. by rewrite Hd.
    + destruct (st_blocks s !! t) as [b|] eqn:Hb; cbn; [|done]. destruct (blockExpired _ now mono) eqn:Hd; [|done].
      exfalso. apply Ht, list_elem_of_fmap. exists (t, b). split; [done|]. by apply Hin.
  - intros b. cbn [fst]. rewrite list_elem_of_fmap. split.
    + intros ([t' b'] & -> & H%Hin). eauto.
    + intros (t' & H). exists (t', b). split; [done|]. by apply Hin.
Qed.

Lemma AddBlockAt_ok t r src ttl e mx now id clock s b s' : AddBlockAt t r src ttl e mx now id clock s = (inr b, s') ->
  exists target, normalizeTarget t = inr target /\ 0 < mx /\ st_blocks s' = <[target := b]> (st_blocks s) /\
    let now := if Time.IsZero (g_wall now) then clock else now in
    st_blockDeadlines s' = <[target := g_Add now ttl]> (st_blockDeadlines s) /\
    b_ExpiresAt b = Time.Add (g_wall now) ttl /\ b_Enforced b = e /\
    (is_Some (st_blocks s !! target) \/ Z.of_nat (size (st_blocks s)) < mx).
Proof.
  unfold AddBlockAt. intros H. destruct (normalizeTarget t) as [|target]; [done|]. exists target.
  destruct (_ || _); [done|]. destruct (Z.leb_spec mx 0); [done|].
  destruct (st_blocks s !! target) as [old|] eqn:Ho; [|destruct (Z.leb_spec mx (Z.of_nat (size (st_blocks s)))); [done|]];
    simplify_eq; cbn; split_and!; eauto.
Qed.

(** The deadline of a block added with a clock reading straight from
    [time.Now] follows the monotonic clock: no step of the wall clock shortens
    or extends it. *)
Lemma deadline_monotonic t r src ttl e mx (t0 : time) m id clock s b s' target wall mono m' :
  AddBlockAt t r src ttl e mx (mkGoTime t0 (Some m)) id clock s = (inr b, s') -> normalizeTarget t = inr target ->
  Time.IsZero t0 = false -> Time.IsZero (Time.Add t0 ttl) = false -> g_mono mono = Some m' ->
  blockExpired (blockExpiryDeadline target b s') wall mono = (m + ttl <=? m').
Proof.
  intros (t' & Ht & _ & _ & Hd & _)%AddBlockAt_ok Hn Hw Hz Hm. rewrite Ht in Hn. simplify_eq. cbn [g_wall] in Hd. rewrite Hw in Hd.
  unfold blockExpiryDeadline. rewrite Hd, lookup_insert_eq. cbn. rewrite Hz. unfold blockExpired, g_After. cbn. rewrite Hm.
  by rewrite Z.ltb_antisym, negb_involutive.
Qed.

(** A block added through [AddBlock] expires by the wall clock. The
    monotonic reading is stripped before the deadline is computed, so, against
    the comment on the deadlines, a step of the wall clock releases the block
    early or holds it longer, whatever the monotonic clock says. *)
Theorem added_block_follows_wall_clock t r src ttl e mx id clock s b s' target wall mono :
  AddBlock t r src ttl e mx id clock s = (inr b, s') -> normalizeTarget t = inr target ->
  Time.IsZero (g_wall clock) = false -> g_mono wall = None ->
  blockExpired (blockExpiryDeadline target b s') wall mono = (b_ExpiresAt b <=? g_wall wall).
Proof.
  unfold AddBlock. intros (t' & Ht & _ & _ & Hd & He & _)%AddBlockAt_ok Hn Hw Hm. rewrite Ht in Hn. simplify_eq.
  cbn [g_wall g_UTC] in Hd, He. rewrite Hw in Hd, He. cbn in He, Hd.
  unfold blockExpiryDeadline. rewrite Hd, lookup_insert_eq. unfold g_Add, g_UTC, wall_only. cbn [g_wall g_mono fmap option_fmap option_map].
  rewrite He. destruct (Time.IsZero (Time.Add (g_wall clock) ttl)); unfold blockExpired, g_After, Time.After; cbn [g_mono g_wall]; rewrite ?He; by rewrite Z.ltb_antisym, negb_involutive.
Qed.

(** ** The degradation causes *)

Definition coherent s : Prop :=
  x_Degraded (st_xdr s) = negb (bool_decide (st_xdrCauses s = ∅)) /\ x_DegradedReason (st_xdr s) = cause_reason (st_xdrCauses s).
Definition verdict s := (x_Degraded (st_xdr s), x_DegradedReason (st_xdr s), st_xdrCauses s).
Lemma coherent_verdict s s' : verdict s' = verdict s -> coherent s -> coherent s'.
Proof. unfold verdict, coherent. by intros [= -> -> ->]. Qed.

Lemma recompute_coherent s : coherent (recomputeXDRDegradedLocked s).
Proof.
  unfold recomputeXDRDegradedLocked. destruct (Bool.eqb _ _ && _) eqn:H; [|done].
  apply andb_true_iff in H as [H1%eqb_prop H2%bool_decide_eq_true]. done.
Qed.
Lemma mark_coherent c r s : coherent s -> coherent (markXDRCauseLocked c r s).
Proof. unfold markXDRCauseLocked. intros H. case_bool_decide; [done|]. apply recompute_coherent. Qed.
Lemma clear_coherent c s : coherent s -> coherent (clearXDRCauseLocked c s).
Proof. unfold clearXDRCauseLocked. intros H. case_match; [|done]. apply recompute_coherent. Qed.
Lemma note_append_coherent err (l : L) s : coherent s -> coherent (note_append (X := X) err l s).
Proof. intros H. unfold note_append. repeat case_match; first [apply clear_coherent|apply mark_coherent]; done. Qed.
Lemma record_coherent r s w e s' w' : RecordEvidence r (s, w) = Some (e, (s', w')) -> coherent s -> coherent s'.
Proof.
  unfold RecordEvidence. intros H. destruct (st_evidence s) as [l|]; [|by simplify_eq].
  destruct (sk_Append r l w) as [[[err l'] w1]|]; [|done]. simplify_eq. apply note_append_coherent.
Qed.

(** The writers that go through the owner map: everything but the scan, and a
    status refresh that carries no verdict of its own. *)
Definition owned (o : sop) : Prop :=
  match o with
  | SScan _ _ _ _ _ _ => False
  | SXDRStatus x => x_Degraded x = false /\ x_DegradedReason x = ""
  | _ => True
  end.

Lemma drops_verdict (l : list (string * BlockEntry)) s : verdict (fold_left (fun s kb => drop_block kb.1 s) l s) = verdict s.
Proof. revert s. induction l as [|kb l IH]; intros s; [done|]. cbn [fold_left]. by rewrite IH. Qed.
Lemma import_verdict bs now mono mx s : verdict (ImportBlocks bs now mono mx s).2 = verdict s.
Proof.
  unfold ImportBlocks. generalize 0. revert s. induction bs as [|b bs IH]; intros s n; [done|].
  cbn [fold_left]. unfold import_step at 2. repeat case_match; by rewrite ?IH.
Qed.
Lemma add_verdict t r src ttl e mx now id clock s : verdict (AddBlockAt t r src ttl e mx now id clock s).2 = verdict s.
Proof. unfold AddBlockAt. by repeat case_match. Qed.
Lemma dedupe_verdict i now s : verdict (dedupe i now s).2 = verdict s.
Proof. unfold dedupe. by repeat case_match. Qed.
Lemma incident_coherent i s w a s' w' : AddIncident i (s, w) = Some (a, (s', w')) -> coherent s -> coherent s'.
Proof.
  unfold AddIncident. intros H Hc. destruct (fill_incident i w) as [[i' w1]|]; [|done].
  destruct (time_Now w1) as [now w2]. pose proof (dedupe_verdict i' now s) as Hd. destruct (dedupe i' now s) as [d s1].
  apply (coherent_verdict s s1) in Hc; [|done].
  destruct d; [by simplify_eq|].
  assert (coherent (set_xdr (count_incident i' (st_xdr s1)) (set_incidents (push_capped (st_incidentCap s1) (st_incidents s1) i') s1))) as Hp.
  { eapply coherent_verdict; [|exact Hc]. unfold count_incident. by destruct (_ && _). }
  destruct (st_cases _); [|by simplify_eq]. destruct (sk_IngestIncident _ _ _) as [[err hist] w3]. simplify_eq.
  destruct err; [unfold noteCaseHistoryFailure; destruct (_ <=? _); [apply mark_coherent|]|apply clear_coherent]; exact Hp.
Qed.

(** The published XDR verdict has one owner. Every writer that goes through
    the cause map (engine, case history, evidence ledger, and a status refresh
    without a verdict of its own) leaves the degradation flag and its reason
    equal to what the recorded causes say, whoever recorded them. *)
Theorem xdr_verdict_owned o s w a s' w' : owned o -> exec o (s, w) = Some (a, (s', w')) -> coherent s -> coherent s'.
Proof.
  intros Ho H Hc. destruct o; cbn [exec owned] in *; try done;
    try (unfold pure_op in H; apply modify_inv in H; cbn [fst snd] in H; injection H as -> _).
  - eapply coherent_verdict; [apply add_verdict|done].
  - unfold RemoveBlockByID. by destruct (list_find _ _) as [[? [? ?]]|].
  - eapply coherent_verdict; [apply drops_verdict|done].
  - done.
  - unfold SetBlockEnforced. by case_match.
  - eapply coherent_verdict; [apply import_verdict|done].
  - done.
  - done.
  - unfold SetXDRDegraded. destruct degraded; [by apply mark_coherent|by apply clear_coherent].
  - eapply coherent_verdict; [|done]. unfold SetXDREnabled, verdict. cbn. by repeat case_match.
  - destruct Ho as [Hx Hr], Hc as [Hc1 Hc2]. unfold SetXDRStatus, coherent. cbn [st_xdr set_xdr st_xdrCauses].
    destruct (x_IncidentsTotal x =? 0), (x_ActionsTotal _ =? 0); cbn; rewrite Hx; cbn; rewrite ?andb_true_r;
      (destruct (x_Degraded (st_xdr s)); cbn; [by rewrite <- Hc1, <- Hc2|]); rewrite Hx, Hr, <- Hc1;
      symmetry in Hc1; apply negb_false_iff, bool_decide_eq_true in Hc1; by rewrite Hc1.
  - apply bind_inv in H as (e & [s1 w1] & H & [_ [= -> ->]]%ret_inv). by eapply record_coherent.
  - unfold AddEvent in H. destruct (fill_event _ _) as [[e' w1]|]; [|done].
    destruct (RecordEvidence _ _) as [[r [s1 w2]]|] eqn:Hr; [|done]. simplify_eq. by eapply record_coherent in Hr.
  - by eapply incident_coherent.
  - unfold RestoreIncidents. by case_bool_decide.
  - unfold AcknowledgeIncident. by destruct (acknowledge _ _).
  - unfold SetEventCap. by repeat case_match.
  - done.
  - done.
  - done.
  - done.
  - by destruct update.
  - done.
  - done.
  - done.
  - unfold AttachEvidenceLedger. destruct ledger; [|done]. by destruct (sk_Healthy _).
  - by destruct engine.
  - by destruct fn.
  - by apply mark_coherent.
  - by apply clear_coherent.
Qed.

(** The scan erases what others own. A routine scan of an engine without a
    cause of its own publishes "not degraded" although the case history or the
    ledger still stands in the cause map; recording the standing cause again
    changes nothing, so the verdict stays wrong until some cause changes. *)
Theorem scan_erases_cause s c r p n t m : st_xdrCauses s !! c = Some r ->
  let s' := markXDRCauseLocked c r (UpdateXDRScan p n t false "" m s) in
  x_Degraded (st_xdr s') = false /\ st_xdrCauses s' = st_xdrCauses s /\ ~ coherent s'.
Proof.
  intros Hc. cbv zeta. unfold markXDRCauseLocked. rewrite bool_decide_eq_true_2 by done.
  assert (x_Degraded (st_xdr (UpdateXDRScan p n t false "" m s)) = false) as Hd.
  { unfold UpdateXDRScan. cbn. destruct (0 <=? n); cbn; by case_match. }
  split_and!; [done|done|]. intros [Hf _]. rewrite Hd in Hf. symmetry in Hf. apply negb_false_iff, bool_decide_eq_true in Hf.
  change (st_xdrCauses s = ∅) in Hf. by rewrite Hf, lookup_empty in Hc.
Qed.
End Facts.

(** ** Verdicts *)

Lemma required_in_nil P (sensors : gmap string SensorCoverage) :
  required_in P sensors = [] <-> forall k cov, sensors !! k = Some cov -> sc_Required cov = true -> P (sc_Status cov) = false.
Proof.
  unfold required_in. split.
  - intros H%map_eq_nil k cov Hk Hr. destruct (P (sc_Status cov)) eqn:HP; [|done]. exfalso.
    assert ((k, cov) ∈ List.filter (fun kv => sc_Required kv.2 && P (sc_Status kv.2)) (map_to_list sensors)) as Hin.
    { apply list_elem_of_In, filter_In. split; [by apply list_elem_of_In, elem_of_map_to_list|]. cbn. by rewrite Hr, HP. }
    rewrite H in Hin. by apply not_elem_of_nil in Hin.
  - intros H. destruct (List.filter _ _) as [|[k cov] l] eqn:HF; [done|]. exfalso.
    assert ((k, cov) ∈ (k, cov) :: l) as Hin by apply list_elem_of_here. rewrite <- HF in Hin.
    apply list_elem_of_In, filter_In in Hin as [Hin [Hr HP]%andb_true_iff]. apply list_elem_of_In, elem_of_map_to_list in Hin.
    cbn in *. by rewrite (H _ _ Hin Hr) in HP.
Qed.

(** Coverage is nominal exactly when every mandatory sensor is. The verdict
    is computed by scanning a map in no particular order; it says nominal iff
    no required sensor is offline, disabled or degraded, offline wins over
    degraded, and nominal is the same as the overall status online. *)
Theorem coverage_nominal (sensors : gmap string SensorCoverage) :
  (cv_Nominal (EvaluateCoverage sensors) = true <->
     forall k cov, sensors !! k = Some cov -> sc_Required cov = true ->
       sc_Status cov = CoverageOnline \/ sc_Status cov = CoverageNotApplicable) /\
  (cv_Nominal (EvaluateCoverage sensors) = true <-> cv_OverallStatus (EvaluateCoverage sensors) = CoverageOnline) /\
  (cv_OverallStatus (EvaluateCoverage sensors) = CoverageOffline <->
     exists k cov, sensors !! k = Some cov /\ sc_Required cov = true /\ is_offline (sc_Status cov) = true).
Proof.
  pose proof (required_in_nil is_offline sensors) as HO. pose proof (required_in_nil is_degraded sensors) as HD.
  assert ((required_in is_offline sensors = [] /\ required_in is_degraded sensors = []) <->
    forall k cov, sensors !! k = Some cov -> sc_Required cov = true ->
      sc_Status cov = CoverageOnline \/ sc_Status cov = CoverageNotApplicable) as HN.
  { rewrite HO, HD. split.
    - intros [H1 H2] k cov Hk Hr. specialize (H1 _ _ Hk Hr). specialize (H2 _ _ Hk Hr). destruct (sc_Status cov); auto; done.
    - intros H. split; intros k cov Hk Hr; by destruct (H k cov Hk Hr) as [-> | ->]. }
  rewrite <- HN. unfold EvaluateCoverage. destruct (decide (required_in is_offline sensors = [])) as [H1|H1];
    [rewrite (bool_decide_eq_true_2 _ H1)|rewrite (bool_decide_eq_false_2 _ H1)]; cbn [negb].
  - assert (~ exists k cov, sensors !! k = Some cov /\ sc_Required cov = true /\ is_offline (sc_Status cov) = true) as Hne.
    { intros (k & cov & Hk & Hr & Hs). pose proof (proj1 HO H1 k cov Hk Hr). congruence. }
    case_bool_decide; cbn; naive_solver.
  - cbn. split_and!; [naive_solver|naive_solver|]. split; [intros _|done].
    destruct (required_in is_offline sensors) as [|x l] eqn:Hl; [done|]. unfold required_in in Hl.
    destruct (List.filter _ _) as [|[k cov] l'] eqn:HF; [done|]. assert ((k, cov) ∈ (k, cov) :: l') as Hin by apply list_elem_of_here.
    rewrite <- HF in Hin. apply list_elem_of_In, filter_In in Hin as [Hin [Hr HP]%andb_true_iff].
    apply list_elem_of_In, elem_of_map_to_list in Hin. eauto.
Qed.

Lemma gap_nil c n : gap c n = [] <-> c = false.
Proof. by destruct c. Qed.
Lemma xdr_gap_nil e d m : xdr_gap e d m = [] <-> e && bool_decide (m = "enforce") && negb d = true.
Proof. unfold xdr_gap. destruct e, d; cbn; rewrite ?andb_false_r; try done. by repeat case_bool_decide. Qed.

(** "Full protection" has one meaning. The snapshot reports it as a flag, a
    level and a list of gaps; the flag is set exactly when the list is empty
    and exactly when the level is full, and then every domain (kernel, XDR,
    core, kinetic, L7, evidence) is active, the phase is enforce and no
    emergency stop stands. *)
Theorem full_protection `{U : Unicode} snap mode : let p := deriveProtectionStatus snap mode in
  (pr_Effective p = true <-> pr_Gaps p = []) /\ (pr_Effective p = true <-> pr_Level p = "full") /\
  (pr_Effective p = true -> Forall (fun d => pd_Active d = true) (pr_Domains p) /\
     ToLower (TrimSpace (rs_Phase (sn_Release snap))) = "enforce" /\ rs_EmergencyStop (sn_Release snap) = false /\
     sn_Enforcement snap = "enforce" /\ rs_KernelPolicyState (sn_Release snap) = "verified-enforce").
Proof.
  cbv zeta. unfold deriveProtectionStatus. cbn [pr_Effective pr_Gaps pr_Level pr_Domains].
  set (phase := ToLower _). set (emergency := rs_EmergencyStop _).
  set (kernel := bool_decide (sn_Enforcement snap = "enforce") && _). set (mode' := if bool_decide (TrimSpace mode = "") then _ else _).
  set (kmode := TrimSpace (ru_KineticEnforcementMode _)). set (l7 := l7_Enabled _ && _). set (ev := es_Enabled _ && _).
  split_and!.
  - rewrite !app_nil, !gap_nil, xdr_gap_nil, !andb_true_iff, orb_false_iff, !negb_false_iff, negb_true_iff. tauto.
  - destruct emergency; [rewrite andb_false_r; cbn; by split|].
    lazymatch goal with |- ?e = true <-> _ => destruct e end; [done|]. split; [done|]. by repeat case_bool_decide.
  - rewrite !andb_true_iff, negb_true_iff. intros (((((((H1 & H2) & H3) & (H4 & H5) & H6) & H7) & H8 & H9) & H10) & H11).
    unfold kernel in *. rewrite H3, H7, H10, H11. apply andb_true_iff in H3 as [He%bool_decide_eq_true Hk%bool_decide_eq_true].
    split_and!; try done; [|by apply bool_decide_eq_true in H1]. repeat constructor; cbn; rewrite ?H4, ?H5, ?H6, ?H8, ?H9; done.
Qed.
