(* ===== verification/Release.v ===== *)
(** * The release controller (src/control/release.go)

    The phase of the platform (observe, canary, enforce, degraded), the gates
    in front of every promotion, and the kernel reconciliation behind every
    phase change. A computation of this file runs on the controller, the
    shared state, the signed policy store and the world; the kernel is reached
    through [CoreClient], the interface [ReleaseCore] of the source. *)

From Stdlib Require Import ZArith Lia Ascii String.
From stdpp Require Import base gmap strings list sorting.
From S2P Require Import Prelude.
From S2P Require Import GoLib.
From S2P Require Import Text.
From S2P Require Import World.
From S2P Require Import Storage.
From S2P Require Import Exec.
From S2P Require Import NetIP.
From S2P Require Import Policy.
From S2P Require Import Evidence.
From S2P Require Import State.
From S2P Require Import Snapshot.

Definition ReleasePhaseObserve : string := "observe".
Definition ReleasePhaseCanary : string := "canary".
Definition ReleasePhaseEnforce : string := "enforce".
Definition ReleasePhaseDegraded : string := "degraded".

(** The privileged core and the monotonic clock, as the outside world [X]
    provides them. *)
Class CoreClient (X : Type) := {
  core_Add : string -> world X -> error * world X;
  core_Delete : string -> world X -> error * world X;
  core_ClearBlocklist : world X -> error * world X;
  core_VerifyBlocklistEmpty : world X -> error * world X;
  mono_reading : X -> nat -> Z;
}.

(** [time.Now()] with its monotonic reading. *)
Definition time_Now_mono {X} `{!CoreClient X} (w : world X) : gotime * world X :=
  (mkGoTime (o_now (w_oracle w) (w_tick w)) (Some (mono_reading (w_ext w) (w_tick w))), next_tick w).

(** [os.Stat]: a symbolic link is followed once. *)
Definition os_Stat {X} (path : string) (w : world X) : (goerror + inode) * world X :=
  match os_Lstat path w with
  | (inr i, w1) =>
      if decide (i_kind i = Symlink)
      then (match w_fs w !! i_data i with Some j => inr j | None => inl ErrNotExist end, w1)
      else (inr i, w1)
  | r => r
  end.

Record ReleaseConfig := mkReleaseConfig {
  rg_Channel : string; rg_MinimumObserveSeconds : Z; rg_MinimumCanarySeconds : Z;
  rg_CoreFailureThreshold : Z; rg_MaxEvaluationDropPermille : Z; rg_EmergencyStopFile : string;
  rg_AutoDegrade : bool;
}.

(** [AdvisoryConfig] and [KernelExposure] (src/control/kernel_advisories.go),
    the fields the gate reads. *)
Record AdvisoryConfig := mkAdvisory { ad_Enabled : bool; ad_Mode : string; ad_MaxExposure : Z }.
Record KernelExposure := mkExposure { ke_Verdict : string; ke_Score : Z; ke_Highest : string }.

(** [ReleaseController]. Of [Config] the fields it reads; [rc_runtime] is what
    [runtimeSettingsLocked] returns, [rc_exposure] what the attached exposure
    cache measures. *)
Record ReleaseController (L K X : Type) := mkController {
  rc_cfg : ReleaseConfig; rc_node : string; rc_requireSigned : bool;
  rc_l7Enabled : bool; rc_l7InlineEnabled : bool; rc_advisories : AdvisoryConfig;
  rc_core : bool; rc_runtime : RuntimeSettings; rc_exposure : option KernelExposure;
  rc_hook : option (M (State L K * world X) unit);
  rc_monoSince : gotime; rc_monoNominal : option gotime; rc_status : ReleaseStatus;
}.
Arguments mkController {L K X}.
Arguments rc_cfg {L K X}.
Arguments rc_node {L K X}.
Arguments rc_requireSigned {L K X}.
Arguments rc_l7Enabled {L K X}.
Arguments rc_l7InlineEnabled {L K X}.
Arguments rc_advisories {L K X}.
Arguments rc_core {L K X}.
Arguments rc_runtime {L K X}.
Arguments rc_exposure {L K X}.
Arguments rc_hook {L K X}.
Arguments rc_monoSince {L K X}.
Arguments rc_monoNominal {L K X}.
Arguments rc_status {L K X}.

Record Sys (L K X : Type) := mkSys {
  y_ctl : ReleaseController L K X; y_state : State L K; y_policy : PolicyStore; y_w : world X;
}.
Arguments mkSys {L K X}.
Arguments y_ctl {L K X}.
Arguments y_state {L K X}.
Arguments y_policy {L K X}.
Arguments y_w {L K X}.

Definition eta_rs (r : ReleaseStatus) : ReleaseStatus :=
  mkRelease (rs_Channel r) (rs_Phase r) (rs_Since r) (rs_Ready r) (rs_Blockers r) (rs_CoreMisses r)
    (rs_EmergencyStop r) (rs_FailSafeVerified r) (rs_KernelPolicyState r) (rs_LastTransition r) (rs_Detail r)
    (rs_FailSafeReason r) (rs_FailSafeAt r) (rs_NominalSince r).
Definition set_Phase : string -> ReleaseStatus -> ReleaseStatus := ltac:(setter eta_rs rs_Phase).
Definition set_Since : time -> ReleaseStatus -> ReleaseStatus := ltac:(setter eta_rs rs_Since).
Definition set_Ready : bool -> ReleaseStatus -> ReleaseStatus := ltac:(setter eta_rs rs_Ready).
Definition set_Blockers : list string -> ReleaseStatus -> ReleaseStatus := ltac:(setter eta_rs rs_Blockers).
Definition set_CoreMisses : Z -> ReleaseStatus -> ReleaseStatus := ltac:(setter eta_rs rs_CoreMisses).
Definition set_EmergencyStop : bool -> ReleaseStatus -> ReleaseStatus := ltac:(setter eta_rs rs_EmergencyStop).
Definition set_FailSafeVerified : bool -> ReleaseStatus -> ReleaseStatus := ltac:(setter eta_rs rs_FailSafeVerified).
Definition set_KernelPolicyState : string -> ReleaseStatus -> ReleaseStatus :=
  ltac:(setter eta_rs rs_KernelPolicyState).
Definition set_LastTransition : option time -> ReleaseStatus -> ReleaseStatus :=
  ltac:(setter eta_rs rs_LastTransition).
Definition set_Detail : string -> ReleaseStatus -> ReleaseStatus := ltac:(setter eta_rs rs_Detail).
Definition set_FailSafeReason : string -> ReleaseStatus -> ReleaseStatus := ltac:(setter eta_rs rs_FailSafeReason).
Definition set_FailSafeAt : option time -> ReleaseStatus -> ReleaseStatus := ltac:(setter eta_rs rs_FailSafeAt).
Definition set_NominalSince : option time -> ReleaseStatus -> ReleaseStatus := ltac:(setter eta_rs rs_NominalSince).

(** [releaseModes] *)
Definition releaseModes (phase : string) : goerror + (string * string) :=
  if bool_decide (phase = ReleasePhaseObserve) || bool_decide (phase = ReleasePhaseDegraded)
  then inr ("observe", "observe")
  else if bool_decide (phase = ReleasePhaseCanary) then inr ("observe", "contain")
  else if bool_decide (phase = ReleasePhaseEnforce) then inr ("enforce", "enforce")
  else inl (ErrText ("unsupported release phase " +:+ phase)).

(** [kernelPolicyVerified] *)
Definition kernelPolicyVerified (kernelState : string) : bool :=
  bool_decide (kernelState = "verified-empty") || bool_decide (kernelState = "verified-enforce").

(** [kernelAdvisoryBlocker] (src/control/kernel_advisories.go); the score and
    the limit are kept in the text. *)
Definition kernelAdvisoryBlocker (target currentPhase : string) (cfg : AdvisoryConfig) (e : KernelExposure) : string :=
  if negb (ad_Enabled cfg) || negb (bool_decide (ad_Mode cfg = "strict")) then ""
  else if bool_decide (target = currentPhase) then ""
  else if bool_decide (ke_Verdict e = "unaffected") then ""
  else if ke_Score e <? ad_MaxExposure cfg then ""
  else "kernel advisory exposure " +:+ itoa (ke_Score e) +:+ " of 100 exceeds the strict limit "
       +:+ itoa (ad_MaxExposure cfg) +:+ " (" +:+ ke_Highest e +:+ ")".

Definition fabricSettingsVersion : Z := 12.

Definition when {A} (b : bool) (x : A) : list A := if b then [x] else [].

Section Gates.
Context {L K X : Type}.
Implicit Types (c : ReleaseController L K X).

(** [retainedEnforcementLocked] *)
Definition retainedEnforcementLocked c (target requested : string) : string :=
  if bool_decide (target = ReleasePhaseObserve) then requested
  else if bool_decide (rs_KernelPolicyState (rc_status c) = "verified-enforce") && bool_decide (requested = "observe")
  then "enforce" else requested.

(** [effectiveReleaseConfigLocked] *)
Definition effectiveReleaseConfigLocked c : ReleaseConfig :=
  let cfg := rc_cfg c in let ru := rc_runtime c in
  if fabricSettingsVersion <=? ru_FabricVersion ru
  then mkReleaseConfig (rg_Channel cfg) (ru_MinimumObserveSeconds ru) (ru_MinimumCanarySeconds ru)
         (ru_CoreFailureThreshold ru) (ru_MaxEvaluationDropPermille ru) (rg_EmergencyStopFile cfg) (ru_AutoDegrade ru)
  else cfg.

Definition seconds (n : Z) : duration := i64 (n * Time.Second).

(** The emergency-stop gate, from the outcome of [os.Stat] on the marker. *)
Definition emergency_gate (stat : goerror + inode) : list string :=
  match stat with
  | inr _ => ["emergency stop is active"]
  | inl e => if is_not_exist e then [] else ["emergency stop state cannot be verified"]
  end.

(** The L7 gates apply to promotions. *)
Definition promotes (target : string) : bool :=
  negb (bool_decide (target = ReleasePhaseObserve)) && negb (bool_decide (target = ReleasePhaseDegraded)).

Definition pending_gate c (target : string) (blocks : list BlockEntry) : list string :=
  match releaseModes target with
  | inl _ => []
  | inr (enforcement, _) =>
      when (negb (bool_decide (retainedEnforcementLocked c target enforcement = "enforce"))
            && existsb b_Enforced blocks) "kernel policy reconciliation is pending"
  end.

(** The gates of the enforce phase alone. *)
Definition enforce_gates c (snap : Snapshot) : list string :=
  (match ru_ManagementAllowlist (rc_runtime c) with
   | [] => ["management network allowlist is empty"]
   | _ => when (negb (sn_AllowlistReady snap)) "kernel management allowlist is not synchronized"
   end)
  ++ when (bool_decide (cv_OverallStatus (sn_Coverage snap) = CoverageOffline)
           || bool_decide (cv_OverallStatus (sn_Coverage snap) = CoverageDegraded))
       ("kinetic sensor coverage is not nominal: " +:+ cv_Summary (sn_Coverage snap)).

Definition ingress_gate (snap : Snapshot) : list string :=
  match cv_Sensors (sn_Coverage snap) !! "xdp_ingress" with
  | Some cov => when (sc_Required cov && negb (bool_decide (sc_Status cov = CoverageOnline)))
                  "Kinetic ingress sensor is unavailable"
  | None => []
  end.

Definition kernel_state_gates c : list string :=
  let st := rc_status c in
  when (bool_decide (rs_Phase st = ReleasePhaseDegraded) && negb (rs_FailSafeVerified st))
    "fail-safe transition is not verified"
  ++ when ((bool_decide (rs_Phase st = ReleasePhaseObserve) || bool_decide (rs_Phase st = ReleasePhaseDegraded))
           && (negb (rs_FailSafeVerified st) || negb (kernelPolicyVerified (rs_KernelPolicyState st))))
       "kernel policy state is not verified".

Definition drop_gate (cfg : ReleaseConfig) (x : XDRStatus) : list string :=
  if 0 <? x_EvaluationsTotal x then
    let dropPermille := u64 (x_EvaluationDrops x * 1000) / x_EvaluationsTotal x in
    when (u64 (rg_MaxEvaluationDropPermille cfg) <? dropPermille)
      ("XDR evaluation drop rate is " +:+ itoa dropPermille +:+ " permille")
  else [].

(** The ladder and the soak times; the remaining time is not kept in the text. *)
Definition duration_gate c (cfg : ReleaseConfig) (target : string) (elapsed : duration) : list string :=
  let phase := rs_Phase (rc_status c) in
  if bool_decide (target = ReleasePhaseCanary) then
    if negb (bool_decide (phase = ReleasePhaseObserve)) && negb (bool_decide (phase = ReleasePhaseDegraded))
    then ["canary promotion requires observe phase"]
    else when (elapsed <? seconds (rg_MinimumObserveSeconds cfg)) "observe soak time remaining"
  else if bool_decide (target = ReleasePhaseEnforce) then
    if negb (bool_decide (phase = ReleasePhaseCanary)) then ["enforce promotion requires canary phase"]
    else when (elapsed <? seconds (rg_MinimumCanarySeconds cfg)) "canary soak time remaining"
  else [].

(** [currentBlockersLocked], from the snapshot, the outcome of the marker
    probe, the clock and the time since the last phase change. *)
Definition blockers_of c (snap : Snapshot) (stat : goerror + inode) (now : time) (elapsed : duration)
    (target : string) (includeDuration : bool) : list string :=
  let cfg := effectiveReleaseConfigLocked c in
  emergency_gate stat
  ++ when (rc_requireSigned c && negb (pst_Verified (sn_Policy snap))) "signed policy is not verified"
  ++ when (es_Enabled (sn_Evidence snap) && negb (es_Healthy (sn_Evidence snap)))
       "mandatory evidence ledger is unavailable"
  ++ when (ru_XDREnabled (rc_runtime c) && x_Degraded (sn_XDR snap)) "XDR is degraded"
  ++ when (rc_l7Enabled c && promotes target && negb (l7_Healthy (sn_L7 snap))) "L7 inspection service is unavailable"
  ++ when (rc_l7InlineEnabled c && promotes target && negb (l7_InlineHealthy (sn_L7 snap))
           && negb (InlinePathVerifiedBySelfTest (sn_L7 snap) now)) "L7 inline service is unavailable"
  ++ pending_gate c target (sn_Blocks snap)
  ++ when (negb (sn_CoreConnected snap)) "authenticated Rust core is offline"
  ++ (if bool_decide (target = ReleasePhaseEnforce) then enforce_gates c snap else [])
  ++ (if bool_decide (target = ReleasePhaseCanary) || bool_decide (target = ReleasePhaseEnforce)
      then ingress_gate snap else [])
  ++ when (rg_CoreFailureThreshold cfg <=? rs_CoreMisses (rc_status c)) "core heartbeat failure threshold reached"
  ++ (match rc_exposure c with
      | None => []
      | Some e =>
          let blocker := kernelAdvisoryBlocker target (rs_Phase (rc_status c)) (rc_advisories c) e in
          when (negb (bool_decide (blocker = ""))) blocker
      end)
  ++ kernel_state_gates c
  ++ drop_gate cfg (sn_XDR snap)
  ++ (if includeDuration then duration_gate c cfg target elapsed else []).
End Gates.

Section Controller.
Context {L K X : Type} `{SK : !Sinks L K X} `{CC : !CoreClient X} `{U : Unicode} `{C : Crypto} `{ED : Policy.Ed25519}
  `{JE : JSONDoc encryptedStorageEnvelope} `{EP : !EnvelopeProbe} `{JP : JSONDoc PolicyEnvelope}
  `{JD : JSONDoc PolicyDocument} `{JF : JSONDoc policyFloorDocument}.

Abbreviation sys := (Sys L K X).
Abbreviation ctl := (ReleaseController L K X).

Definition set_ctl (c : ctl) (y : sys) : sys := mkSys c (y_state y) (y_policy y) (y_w y).
Definition set_state_w (sw : State L K * world X) (y : sys) : sys := mkSys (y_ctl y) sw.1 (y_policy y) sw.2.
Definition set_policy_w (pw : PolicyStore * world X) (y : sys) : sys := mkSys (y_ctl y) (y_state y) pw.1 pw.2.
Definition set_w (w : world X) (y : sys) : sys := mkSys (y_ctl y) (y_state y) (y_policy y) w.

Definition set_status (r : ReleaseStatus) (c : ctl) : ctl :=
  mkController (rc_cfg c) (rc_node c) (rc_requireSigned c) (rc_l7Enabled c) (rc_l7InlineEnabled c) (rc_advisories c)
    (rc_core c) (rc_runtime c) (rc_exposure c) (rc_hook c) (rc_monoSince c) (rc_monoNominal c) r.
Definition set_monoSince (t : gotime) (c : ctl) : ctl :=
  mkController (rc_cfg c) (rc_node c) (rc_requireSigned c) (rc_l7Enabled c) (rc_l7InlineEnabled c) (rc_advisories c)
    (rc_core c) (rc_runtime c) (rc_exposure c) (rc_hook c) t (rc_monoNominal c) (rc_status c).
Definition set_monoNominal (t : option gotime) (c : ctl) : ctl :=
  mkController (rc_cfg c) (rc_node c) (rc_requireSigned c) (rc_l7Enabled c) (rc_l7InlineEnabled c) (rc_advisories c)
    (rc_core c) (rc_runtime c) (rc_exposure c) (rc_hook c) (rc_monoSince c) t (rc_status c).

(** Access to the parts. *)
Definition in_state {A} (m : M (State L K * world X) A) : M sys A :=
  zoom (fun y => (y_state y, y_w y)) set_state_w m.
Definition on_state (f : State L K -> State L K) : M sys unit :=
  in_state (modify (fun sw => (f sw.1, sw.2))).
Definition on_world {A} (f : world X -> A * world X) : M sys A :=
  zoom y_w set_w (fun w => Some (f w)).
Definition status : M sys ReleaseStatus := gets (fun y => rc_status (y_ctl y)).
Definition with_status (f : ReleaseStatus -> ReleaseStatus) : M sys unit :=
  modify (fun y => set_ctl (set_status (f (rc_status (y_ctl y))) (y_ctl y)) y).
Definition now_utc : M sys time := on_world time_Now.
Definition now_mono : M sys gotime := on_world time_Now_mono.
Definition publish : M sys unit := status ≫= fun r => on_state (SetReleaseStatus r).

(** [r.policy.Persist(r.cfg.Node.Name, enforcement, xdr, r.state.BlocksSnapshot())] *)
Definition persist (enforcement xdrMode : string) : M sys error := fun y =>
  let '(err, p, w) := Persist (y_policy y) (rc_node (y_ctl y)) enforcement xdrMode
                        (BlocksSnapshot (y_state y)) (y_w y) in
  Some (err, set_policy_w (p, w) y).
Definition publish_policy : M sys unit :=
  gets y_policy ≫= fun p => on_state (SetPolicyStatus (PolicyStore_Status p)).

Definition event (severity kind source message : string) : M sys unit :=
  in_state (AddEvent (mkEvent "" 0 severity kind source message "")).

(** [sinceElapsed] and [nominalElapsed]: the monotonic anchor is used while it
    denotes the same wall-clock instant as the published time. *)
Definition since_elapsed_at (c : ctl) (now : gotime) : duration :=
  if negb (Time.IsZero (g_wall (rc_monoSince c))) && (rs_Since (rc_status c) =? g_wall (rc_monoSince c))
  then g_Sub now (rc_monoSince c)
  else g_Sub now (wall_only (rs_Since (rc_status c))).
Definition sinceElapsed : M sys duration :=
  c ← gets y_ctl; now ← now_mono; mret (since_elapsed_at c now).
Definition nominal_elapsed_at (c : ctl) (now : gotime) : duration :=
  match rs_NominalSince (rc_status c) with
  | None => 0
  | Some since =>
      match rc_monoNominal c with
      | Some anchor => if since =? g_wall anchor then g_Sub now anchor else g_Sub now (wall_only since)
      | None => g_Sub now (wall_only since)
      end
  end.
Definition nominalElapsed : M sys duration :=
  c ← gets y_ctl; now ← now_mono; mret (nominal_elapsed_at c now).

(** [currentBlockersLocked] *)
Definition currentBlockersLocked (target : string) (includeDuration : bool) : M sys (list string) :=
  snap ← in_state State_Snapshot;
  c ← gets y_ctl;
  stat ← on_world (os_Stat (rg_EmergencyStopFile (rc_cfg c)));
  now ← now_utc;
  elapsed ← sinceElapsed;
  mret (blockers_of c snap stat now elapsed target includeDuration).

(** [refreshLocked] *)
Definition refreshed_detail (unverifiable : error) (emergency : bool) (blockers : list string) (st : ReleaseStatus)
  : string :=
  match unverifiable with
  | Some e => "emergency stop state cannot be verified: " +:+ error_text e
  | None =>
      if emergency then "emergency stop active"
      else match blockers with
           | b :: _ => b
           | [] =>
               if bool_decide (rs_Phase st = ReleasePhaseDegraded)
               then if kernelPolicyVerified (rs_KernelPolicyState st)
                    then "automatic response paused; kernel enforcement retained and verified"
                    else "automatic response paused; kernel enforcement not confirmed"
               else "release gates satisfied"
           end
  end.
Definition refreshLocked : M sys unit :=
  c ← gets y_ctl;
  stat ← on_world (os_Stat (rg_EmergencyStopFile (rc_cfg c)));
  let '(emergency, unverifiable) :=
    match stat with
    | inr _ => (true, None)
    | inl e => if is_not_exist e then (false, None) else (true, Some e)
    end in
  with_status (set_EmergencyStop emergency) ;;
  st ← status;
  blockers ← currentBlockersLocked (rs_Phase st) false;
  with_status (fun st =>
    set_Detail (refreshed_detail unverifiable emergency blockers st)
      (set_Ready (bool_decide (blockers = [])) (set_Blockers blockers st))).

(** ** Kernel reconciliation *)

Definition core_call (op : world X -> error * world X) : M sys error := on_world op.

(** [reconcileVerifiedLocked]: every block the platform owns is applied again. *)
Fixpoint confirm_blocks (blocks : list BlockEntry) : M sys error :=
  match blocks with
  | [] => mret None
  | b :: blocks =>
      err ← core_call (core_Add (b_Target b));
      match err with
      | Some e => mret (Some (ErrWrap ("kernel policy confirmation failed for " +:+ b_Target b) e))
      | None => on_state (SetBlockEnforced (b_Target b) true) ;; confirm_blocks blocks
      end
  end.
Definition reconcileVerifiedLocked : M sys error :=
  y ← get;
  if negb (rc_core (y_ctl y)) then mret (errors_New "kernel policy confirmation unavailable: core client is nil")
  else confirm_blocks (BlocksSnapshot (y_state y)).

(** [notifyKernelReconciledLocked] *)
Definition notifyKernelReconciledLocked : M sys unit :=
  c ← gets y_ctl;
  match rc_hook c with
  | Some hook => in_state hook
  | None => mret tt
  end.

(** The compensation of [reconcileLocked]: remove what this pass added. *)
Fixpoint rollback_applied (applied : list string) : M sys (list error) :=
  match applied with
  | [] => mret []
  | target :: applied =>
      err ← core_call (core_Delete target);
      match err with
      | Some e =>
          errs ← rollback_applied applied;
          mret (Some (ErrWrap ("rollback removal failed for " +:+ target) e) :: errs)
      | None => on_state (SetBlockEnforced target false) ;; rollback_applied applied
      end
  end.

(** The enforcing pass of [reconcileLocked]. *)
Fixpoint apply_blocks (applied : list string) (blocks : list BlockEntry) : M sys error :=
  match blocks with
  | [] => mret None
  | b :: blocks =>
      if b_Enforced b then apply_blocks applied blocks
      else
        err ← core_call (core_Add (b_Target b));
        match err with
        | Some e =>
            errs ← rollback_applied applied;
            mret (errors_Join (Some (ErrWrap ("kernel policy reconciliation failed for " +:+ b_Target b) e) :: errs))
        | None =>
            on_state (SetBlockEnforced (b_Target b) true) ;; apply_blocks (applied ++ [b_Target b]) blocks
        end
  end.

Definition clear_flags (blocks : list BlockEntry) : M sys unit :=
  for_each (fun b => if b_Enforced b then on_state (SetBlockEnforced (b_Target b) false) else mret tt) blocks.

(** [reconcileLocked] *)
Definition reconcileLocked (enforcement : string) : M sys error :=
  y ← get;
  if negb (rc_core (y_ctl y)) then mret (errors_New "kernel policy reconciliation unavailable: core client is nil")
  else
    let blocks := BlocksSnapshot (y_state y) in
    if bool_decide (enforcement = "enforce") then
      err ← apply_blocks [] blocks;
      match err with
      | Some e => mret (Some e)
      | None => notifyKernelReconciledLocked ;; mret None
      end
    else
      err ← core_call core_ClearBlocklist;
      match err with
      | Some e => mret (Some (ErrWrap "authoritative kernel blocklist clear failed" e))
      | None =>
          err ← core_call core_VerifyBlocklistEmpty;
          match err with
          | Some e => mret (Some (ErrWrap "kernel blocklist empty-state verification failed" e))
          | None => clear_flags blocks ;; notifyKernelReconciledLocked ;; mret None
          end
      end.

(** The two clock readings every phase change takes: [time.Now().UTC()] for
    the status, [time.Now()] for the anchor. *)
Definition stamp_phase : M sys time :=
  now ← now_utc;
  with_status (fun st => set_LastTransition (Some now) (set_Since now st)) ;;
  mono ← now_mono;
  modify (fun y => set_ctl (set_monoSince mono (y_ctl y)) y) ;;
  mret now.

(** [markDegradedLocked] *)
Definition markDegradedLocked (reason kernelState : string) (verified : bool) : M sys unit :=
  now ← stamp_phase;
  with_status (fun st =>
    set_FailSafeAt (Some now) (set_FailSafeReason reason (set_Blockers [reason] (set_Detail reason
      (set_KernelPolicyState kernelState (set_FailSafeVerified verified
        (set_Ready false (set_Phase ReleasePhaseDegraded st)))))))) ;;
  publish ;;
  id ← zoom y_w set_w mint;
  in_state (AddIncident (mkIncident id now "critical" "" "" ["RELEASE.FAIL_SAFE"]
    ("Automatic response paused; kernel enforcement retained: " +:+ reason) "fail_safe" "automatic_response_paused"
    "kernel blocklist retained and verified; automatic decisions stay paused until the cause clears and the calm holds, or an operator promotes"
    false)).

(** [degradeLocked] *)
Definition degradeLocked (reason : string) : M sys error :=
  on_state (SetModes "unverified" "observe") ;;
  err ← reconcileVerifiedLocked;
  match err with
  | Some e =>
      markDegradedLocked (reason +:+ "; retained kernel policy could not be verified") "unverified" false ;;
      event "critical" "release.degrade_unverified" "release-gate"
        ("Enforcement retained but unverified; out-of-band verification required: " +:+ reason) ;;
      mret (Some (ErrWrap "fail-closed retention could not verify the kernel policy" e))
  | None =>
      err ← persist "enforce" "observe";
      match err with
      | Some e =>
          publish_policy ;;
          markDegradedLocked (reason +:+ "; retained policy persistence failed") "unverified" false ;;
          event "critical" "release.degrade_policy_failed" "release-gate"
            ("Kernel enforcement is retained but the signed policy could not be persisted: " +:+ reason) ;;
          mret (Some (ErrWrap "fail-closed retention could not persist the signed policy" e))
      | None =>
          publish_policy ;;
          on_state (SetModes "enforce" "observe") ;;
          markDegradedLocked reason "verified-enforce" true ;;
          event "critical" "release.degraded_enforcement_retained" "release-gate"
            ("Automatic response paused; kernel enforcement retained (fail-closed): " +:+ reason) ;;
          mret None
      end
  end.

(** ** Operations *)

Abbreviation answer := (ReleaseStatus * error)%type.
Definition refuse (e : error) : M sys answer := st ← status; mret (st, e).

Definition reason_ok (reason : string) : bool :=
  negb ((slen (TrimSpace reason) <? 8) || (240 <? slen reason)).

(** The commit of [Transition] once the kernel and the signed policy agree. *)
Definition enter_phase (target newEnforcement newXDR reason : string) : M sys unit :=
  on_state (SetModes newEnforcement newXDR) ;;
  publish_policy ;;
  _ ← stamp_phase;
  with_status (fun st =>
    let kernel := if bool_decide (newEnforcement = "observe") then "verified-empty" else "verified-enforce" in
    set_FailSafeVerified (kernelPolicyVerified kernel) (set_KernelPolicyState kernel (set_Ready true
      (set_Blockers [] (set_Detail (TrimSpace reason) (set_Phase target st)))))) ;;
  publish.

(** [Transition] *)
Definition Transition (target confirmation reason : string) : M sys answer :=
  let target := ToLower (TrimSpace target) in
  if negb (bool_decide (target = ReleasePhaseObserve)) && negb (bool_decide (target = ReleasePhaseCanary))
     && negb (bool_decide (target = ReleasePhaseEnforce))
  then refuse (errors_New "target phase must be observe, canary, or enforce")
  else
    let expected := if bool_decide (target = ReleasePhaseObserve) then "RETURN:OBSERVE"
                    else "PROMOTE:" +:+ ToUpper target in
    if negb (bool_decide (confirmation = expected))
    then refuse (errors_New "explicit transition confirmation is invalid")
    else if negb (reason_ok reason) then refuse (errors_New "transition reason must contain 8-240 characters")
    else
      st ← status;
      if bool_decide (target = rs_Phase st) then refuse None
      else
        blockers ← (if bool_decide (target = ReleasePhaseObserve) then mret []
                    else currentBlockersLocked target true);
        match blockers with
        | b :: _ =>
            with_status (fun st => set_Detail b (set_Ready false (set_Blockers blockers st))) ;;
            publish ;;
            refuse (errors_New ("release gate rejected transition: " +:+ join_with "; " blockers))
        | [] =>
            modes ← gets (fun y => Modes (y_state y));
            let '(oldEnforcement, _) := modes in
            match releaseModes target with
            | inl e => refuse (Some e)
            | inr (requested, newXDR) =>
                c ← gets y_ctl;
                let newEnforcement := retainedEnforcementLocked c target requested in
                err ← reconcileLocked newEnforcement;
                match err with
                | Some e => refuse (Some e)
                | None =>
                    err ← persist newEnforcement newXDR;
                    match err with
                    | Some e =>
                        let persistErr := ErrWrap "signed policy transition failed" e in
                        rollbackErr ← reconcileLocked oldEnforcement;
                        match rollbackErr with
                        | Some r =>
                            on_state (SetModes "unverified" "observe") ;;
                            markDegradedLocked "policy transition and kernel rollback failed" "unverified" false ;;
                            refuse (errors_Join [Some persistErr; Some (ErrWrap "kernel rollback failed" r)])
                        | None => refuse (Some persistErr)
                        end
                    | None =>
                        enter_phase target newEnforcement newXDR reason ;;
                        event "high" "release.transition" "release-gate"
                          ("Beta phase changed from " +:+ rs_Phase st +:+ " to " +:+ target +:+ ": "
                           +:+ TrimSpace reason) ;;
                        refuse None
                    end
                end
            end
        end.

(** [initializeObserveLocked] *)
Definition initializeObserveLocked : M sys error :=
  err ← reconcileLocked "observe";
  match err with
  | Some e =>
      markDegradedLocked "startup kernel observe verification failed" "unverified" false ;;
      mret (Some (ErrWrap "startup kernel observe reconciliation failed" e))
  | None =>
      on_state (SetModes "observe" "observe") ;;
      err ← persist "observe" "observe";
      match err with
      | Some e =>
          publish_policy ;;
          markDegradedLocked "startup observe policy persistence failed" "verified-empty" false ;;
          mret (Some (ErrWrap "startup signed observe policy persistence failed" e))
      | None =>
          publish_policy ;;
          with_status (fun st => set_Detail "startup kernel blocklist verified empty"
            (set_KernelPolicyState "verified-empty" (set_FailSafeVerified true (set_Phase ReleasePhaseObserve st)))) ;;
          refreshLocked ;;
          publish ;;
          event "info" "release.startup_verified" "release-gate"
            "Startup Observe policy persisted and kernel blocklist verified empty" ;;
          mret None
      end
  end.

(** The enforcing branch of [InitializeStartup]. *)
Definition retain_at_startup : M sys error :=
  on_state (SetModes "unverified" "observe") ;;
  err ← reconcileVerifiedLocked;
  match err with
  | Some e =>
      markDegradedLocked "startup retained enforcement could not be verified" "unverified" false ;;
      event "critical" "release.startup_retention_unverified" "release-gate"
        "Signed policy states enforcement but the kernel state could not be verified; out-of-band verification required" ;;
      mret (Some (ErrWrap "startup enforcement retention failed" e))
  | None =>
      err ← persist "enforce" "observe";
      match err with
      | Some e =>
          publish_policy ;;
          markDegradedLocked "startup retained policy persistence failed" "unverified" false ;;
          mret (Some (ErrWrap "startup retained policy persistence failed" e))
      | None =>
          publish_policy ;;
          on_state (SetModes "enforce" "observe") ;;
          _ ← stamp_phase;
          with_status (fun st => set_Detail
            "startup retained the verified kernel enforcement from the signed policy; automatic response stays paused until the promotion gates pass"
            (set_KernelPolicyState "verified-enforce" (set_FailSafeVerified true
              (set_Ready false (set_Phase ReleasePhaseDegraded st))))) ;;
          refreshLocked ;;
          publish ;;
          event "high" "release.startup_enforcement_retained" "release-gate"
            "Startup retained verified kernel enforcement from the signed policy; automatic response paused until promotion" ;;
          mret None
      end
  end.

(** [InitializeStartup] *)
Definition InitializeStartup (policyEnforcement : string) (policyVerified : bool) : M sys error :=
  c ← gets y_ctl;
  stat ← on_world (os_Stat (rg_EmergencyStopFile (rc_cfg c)));
  match stat with
  | inr _ => with_status (set_EmergencyStop true) ;; degradeLocked "emergency stop active at startup"
  | inl _ =>
      if negb policyVerified then
        event "critical" "release.startup_policy_unverified" "release-gate"
          "Startup signed policy could not be verified; kernel enforcement is retained and degraded until an operator verifies or confirms a release" ;;
        degradeLocked "startup: signed policy intent could not be verified"
      else if negb (bool_decide (policyEnforcement = "enforce")) then initializeObserveLocked
      else retain_at_startup
  end.

(** [strings.TrimSuffix] *)
Definition TrimSuffix (s suffix : string) : string :=
  if HasSuffix s suffix
  then of_bytes (take (String.length s - String.length suffix) (bytes_of s)) else s.

(** [ObserveCore] *)
Definition ObserveCore (success : bool) : M sys unit :=
  c ← gets y_ctl;
  let cfg := effectiveReleaseConfigLocked c in
  (if success then
     with_status (set_CoreMisses 0) ;;
     st ← status;
     if bool_decide (rs_Phase st = ReleasePhaseDegraded) && negb (rs_FailSafeVerified st)
     then _ ← degradeLocked (TrimSuffix (rs_Detail st) "; retained kernel policy could not be verified"); mret tt
     else mret tt
   else
     st ← status;
     if rs_CoreMisses st <? rg_CoreFailureThreshold cfg + 1
     then with_status (set_CoreMisses (rs_CoreMisses st + 1)) else mret tt) ;;
  st ← status;
  (if rg_AutoDegrade cfg && negb (bool_decide (rs_Phase st = ReleasePhaseObserve))
      && (rg_CoreFailureThreshold cfg <=? rs_CoreMisses st)
   then _ ← degradeLocked "authenticated core heartbeat threshold exceeded"; mret tt
   else mret tt) ;;
  refreshLocked ;;
  publish.

(** [trackNominalLocked] *)
Definition markNominalLocked : M sys unit :=
  mono ← now_mono;
  modify (fun y => set_ctl (set_monoNominal (Some mono) (y_ctl y)) y) ;;
  with_status (set_NominalSince (Some (g_wall mono))).
Definition trackNominalLocked : M sys unit :=
  st ← status;
  if negb (bool_decide (rs_Phase st = ReleasePhaseDegraded)) then with_status (set_NominalSince None)
  else
    blockers ← currentBlockersLocked ReleasePhaseEnforce false;
    if negb (bool_decide (blockers = [])) then with_status (set_NominalSince None)
    else match rs_NominalSince st with
         | None => markNominalLocked
         | Some _ => mret tt
         end.

(** The commit shared by [recoverIfGatesPassLocked] and [ReArmVerified]. *)
Definition enter_enforce (detail : string) : M sys unit :=
  _ ← stamp_phase;
  with_status (fun st =>
    set_Detail detail (set_NominalSince None (set_FailSafeAt None (set_FailSafeReason ""
      (set_FailSafeVerified true (set_KernelPolicyState "verified-enforce"
        (set_Blockers [] (set_Ready true (set_Phase ReleasePhaseEnforce st))))))))) ;;
  on_state (SetModes "enforce" "enforce") ;;
  _ ← persist "enforce" "enforce";
  publish_policy.

(** [recoverIfGatesPassLocked] *)
Definition recoverIfGatesPassLocked : M sys unit :=
  st ← status;
  if negb (bool_decide (rs_Phase st = ReleasePhaseDegraded)) || rs_EmergencyStop st then mret tt
  else if negb (bool_decide (rs_KernelPolicyState st = "verified-enforce")) || negb (rs_FailSafeVerified st)
  then mret tt
  else
    c ← gets y_ctl;
    let cfg := effectiveReleaseConfigLocked c in
    match rs_NominalSince st with
    | None => mret tt
    | Some _ =>
        elapsed ← nominalElapsed;
        if elapsed <? seconds (rg_MinimumObserveSeconds cfg) then mret tt
        else
          blockers ← currentBlockersLocked ReleasePhaseEnforce false;
          if negb (bool_decide (blockers = [])) then mret tt
          else
            err ← reconcileVerifiedLocked;
            match err with
            | Some _ => mret tt
            | None =>
                enter_enforce "recovered to enforce after the cause cleared and the calm held" ;;
                event "high" "release.recovered" "release-gate"
                  ("Automatic response resumed; kernel enforcement stayed in place throughout. Cause was: "
                   +:+ rs_FailSafeReason st)
            end
    end.

(** [Evaluate] *)
Definition Evaluate : M sys unit :=
  y ← get;
  let st := rc_status (y_ctl y) in
  (if negb (ru_AutoDegrade (rc_runtime (y_ctl y))) || bool_decide (rs_Phase st = ReleasePhaseObserve)
      || bool_decide (rs_Phase st = ReleasePhaseDegraded)
   then trackNominalLocked ;; recoverIfGatesPassLocked
   else
     blockers ← currentBlockersLocked (rs_Phase st) false;
     (if negb (bool_decide (blockers = []))
      then _ ← degradeLocked (join_with "; " blockers); mret tt else mret tt) ;;
     trackNominalLocked) ;;
  refreshLocked ;;
  publish.

(** [ReArmVerified] *)
Definition ReArmVerified (reason : string) : M sys answer :=
  st ← status;
  if rs_EmergencyStop st then refuse (errors_New "emergency stop is active")
  else if bool_decide (rs_Phase st = ReleasePhaseEnforce) then refuse None
  else if negb (bool_decide (rs_KernelPolicyState st = "verified-enforce")) || negb (rs_FailSafeVerified st)
  then refuse (errors_New "kernel enforcement is not verified")
  else
    blockers ← currentBlockersLocked ReleasePhaseEnforce false;
    if negb (bool_decide (blockers = []))
    then refuse (errors_New ("release gates are not satisfied: " +:+ join_with "; " blockers))
    else
      err ← reconcileVerifiedLocked;
      match err with
      | Some e => refuse (Some (ErrWrap "kernel could not be confirmed" e))
      | None =>
          enter_enforce "startup self-check verified every module; enforcement re-armed without the ladder" ;;
          event "high" "release.startup_rearmed" "release-gate"
            ("Startup self-check verified every module and re-armed protection. Reason: " +:+ reason) ;;
          refuse None
      end.

(** [ReconcileVerifiedPolicy] and [FailSafe] *)
Definition ReconcileVerifiedPolicy : M sys error := reconcileVerifiedLocked.
Definition FailSafe (reason : string) : M sys error :=
  let reason := if bool_decide (TrimSpace reason = "") then "kernel transaction integrity failure" else reason in
  err ← degradeLocked reason;
  refreshLocked ;;
  publish ;;
  mret err.

(** [EmergencyStop]; [format] renders the time of the marker. *)
Definition EmergencyStop (format : time -> string) (reason : string) : M sys answer :=
  if negb (reason_ok reason) then refuse (errors_New "emergency stop reason must contain 8-240 characters")
  else
    c ← gets y_ctl;
    now ← now_utc;
    err ← on_world (atomicWriteFile (rg_EmergencyStopFile (rc_cfg c))
                      (format now +:+ " " +:+ TrimSpace reason +:+ newline) 384);
    match err with
    | Some e => refuse (Some e)
    | None =>
        degradeErr ← degradeLocked ("emergency stop: " +:+ TrimSpace reason);
        with_status (set_EmergencyStop true) ;;
        publish ;;
        refuse (errorf_w "emergency stop persisted but fail-safe verification failed" degradeErr)
    end.

(** [ClearEmergencyStop] after the marker is gone. *)
Definition clear_tail (reason : string) : M sys answer :=
  err ← reconcileLocked "observe";
  match err with
  | Some e => refuse (Some e)
  | None =>
      err ← persist "observe" "observe";
      match err with
      | Some e => refuse (Some (ErrWrap "signed policy update failed" e))
      | None =>
          on_state (SetModes "observe" "observe") ;;
          publish_policy ;;
          _ ← stamp_phase;
          with_status (fun st => set_Blockers [] (set_Detail (TrimSpace reason)
            (set_KernelPolicyState "verified-empty" (set_FailSafeVerified true
              (set_EmergencyStop false (set_Phase ReleasePhaseObserve st)))))) ;;
          refreshLocked ;;
          publish ;;
          event "high" "release.emergency_stop_cleared" "operator"
            ("Emergency stop cleared; system remains in Observe: " +:+ TrimSpace reason) ;;
          refuse None
      end
  end.

(** [ClearEmergencyStop] *)
Definition ClearEmergencyStop (confirmation reason : string) : M sys answer :=
  if negb (bool_decide (confirmation = "CLEAR:EMERGENCY-STOP"))
  then refuse (errors_New "explicit emergency-stop clear confirmation is invalid")
  else if negb (reason_ok reason) then refuse (errors_New "clear reason must contain 8-240 characters")
  else
    c ← gets y_ctl;
    err ← on_world (os_Remove (rg_EmergencyStopFile (rc_cfg c)));
    match err with
    | Some e =>
        if negb (is_not_exist e) then refuse (Some e) else clear_tail reason
    | None => clear_tail reason
    end.

(** [Status] and [Ready] *)
Definition Release_Status : M sys ReleaseStatus := refreshLocked ;; publish ;; status.
Definition Ready : M sys (bool * list string) :=
  st ← Release_Status; mret (rs_Ready st, rs_Blockers st).

(** [Readiness] *)
Record ReleaseReadiness := mkReadiness {
  rr_Target : string; rr_Ready : bool; rr_Blockers : list string; rr_CurrentPhase : string;
  rr_ReadyAt : option time; rr_SoakRemainingSeconds : Z; rr_MinimumSoakSeconds : Z; rr_ElapsedSoakSeconds : Z;
}.
Definition next_target (phase : string) : string :=
  if bool_decide (phase = ReleasePhaseObserve) || bool_decide (phase = ReleasePhaseDegraded) then ReleasePhaseCanary
  else if bool_decide (phase = ReleasePhaseCanary) then ReleasePhaseEnforce else ReleasePhaseObserve.
Definition Readiness (target : string) : M sys (goerror + ReleaseReadiness) :=
  c ← gets y_ctl;
  let cfg := effectiveReleaseConfigLocked c in
  let target := ToLower (TrimSpace target) in
  let target := if bool_decide (target = "") then next_target (rs_Phase (rc_status c)) else target in
  if negb (bool_decide (target = ReleasePhaseObserve)) && negb (bool_decide (target = ReleasePhaseCanary))
     && negb (bool_decide (target = ReleasePhaseEnforce))
  then mret (inl (ErrText "target phase must be observe, canary, or enforce"))
  else
    refreshLocked ;;
    blockers ← currentBlockersLocked target true;
    elapsed ← sinceElapsed;
    st ← status;
    let minSoak := if bool_decide (target = ReleasePhaseCanary) then seconds (rg_MinimumObserveSeconds cfg)
                   else if bool_decide (target = ReleasePhaseEnforce) then seconds (rg_MinimumCanarySeconds cfg)
                   else 0 in
    let soaking := (0 <? minSoak) && (elapsed <? minSoak) in
    mret (inr (mkReadiness target (bool_decide (blockers = [])) blockers (rs_Phase st)
      (if soaking then Some (Time.Add (rs_Since st) minSoak) else None)
      (if soaking then Z.quot (i64 (minSoak - elapsed)) Time.Second else 0)
      (Z.quot minSoak Time.Second) (Z.quot elapsed Time.Second))).

(** [NewReleaseController]: the controller it starts from and its first
    refresh. *)
Definition fresh_status (channel : string) (now : time) : ReleaseStatus :=
  mkRelease channel ReleasePhaseObserve now false [] 0 false false "unverified" None
    "beta startup safety gate" "" None None.
Definition NewReleaseController : M sys unit :=
  mono ← now_mono;
  modify (fun y => set_ctl (set_monoSince mono
    (set_status (fresh_status (rg_Channel (rc_cfg (y_ctl y))) (g_wall mono)) (y_ctl y))) y) ;;
  refreshLocked ;;
  publish.
End Controller.
