(* ===== verification/ReleaseFrames.v ===== *)
(** * What the steps of the release controller leave alone

    The view of the system the release theorems are about, the laws of the
    core and of the sinks, and for every step of src/control/release.go what
    it may change of the view. *)

From Stdlib Require Import ZArith Lia Ascii String.
From stdpp Require Import base gmap strings list sorting.
From S2P Require Import Prelude.
From S2P Require Import GoLib.
From S2P Require Import Text.
From S2P Require Import World.
From S2P Require Import Storage.
From S2P Require Import Policy.
From S2P Require Import PolicyFacts.
From S2P Require Import Evidence.
From S2P Require Import NetIP.
From S2P Require Import Exec.
From S2P Require Import State.
From S2P Require Import Snapshot.
From S2P Require Import Release.

(** ** The laws of the core

    [kernel]: the addresses in the kernel block map; [feed_owned]: those the
    threat feeds own, which the hook after a reconciliation may withdraw. An addition is an
    unconditional insert and a removal deletes that entry (comment on
    [reconcileVerifiedLocked]); a nil error confirms the operation in the
    kernel; a failed call may or may not have had its effect. *)
Class CoreLaws (X : Type) `{CC : !CoreClient X} := {
  kernel : X -> gset string;
  add_keeps t w e w' : core_Add t w = (e, w') -> kernel (w_ext w) ⊆ kernel (w_ext w');
  add_only t w e w' : core_Add t w = (e, w') -> kernel (w_ext w') ⊆ {[t]} ∪ kernel (w_ext w);
  add_ok t w w' : core_Add t w = (None, w') -> t ∈ kernel (w_ext w');
  delete_only t w e w' : core_Delete t w = (e, w') -> kernel (w_ext w) ⊆ {[t]} ∪ kernel (w_ext w');
  delete_shrinks t w e w' : core_Delete t w = (e, w') -> kernel (w_ext w') ⊆ kernel (w_ext w);
  delete_ok t w w' : core_Delete t w = (None, w') -> t ∉ kernel (w_ext w');
  verify_keeps w e w' : core_VerifyBlocklistEmpty w = (e, w') -> kernel (w_ext w') = kernel (w_ext w);
  verify_ok w w' : core_VerifyBlocklistEmpty w = (None, w') -> kernel (w_ext w') = ∅;
  feed_owned : X -> gset string;
  add_owned t w e w' : core_Add t w = (e, w') -> feed_owned (w_ext w') = feed_owned (w_ext w);
  delete_owned t w e w' : core_Delete t w = (e, w') -> feed_owned (w_ext w') = feed_owned (w_ext w);
}.

(** When nothing fails: the core accepts an addition and appends return. *)
Class CalmOutside (L K X : Type) `{SK : !Sinks L K X} `{CC : !CoreClient X} := {
  add_calm t w : no_faults w -> (core_Add t w).1 = None /\ no_faults (core_Add t w).2;
  append_calm r l w : no_faults w -> exists e l' w', sk_Append (K := K) r l w = Some (e, l', w') /\ no_faults w';
  ingest_calm i k w : no_faults w -> no_faults (sk_IngestIncident (L := L) i k w).2;
}.

(** Evidence and case history do not reach the kernel. *)
Class QuietSinks (L K X : Type) `{SK : !Sinks L K X} := {
  append_quiet r l w e l' w' : sk_Append (K := K) r l w = Some (e, l', w') -> w_ext w' = w_ext w;
  ingest_quiet i k w e k' w' : sk_IngestIncident (L := L) i k w = (e, k', w') -> w_ext w' = w_ext w;
}.

(** The frame of [Persist]: the three policy files and their staging files. *)
Definition policy_files (p : PolicyStore) : list string :=
  [ps_StateFile p; ps_StateFile p +:+ ".tmp"; policyFloorPath p; policyFloorPath p +:+ ".tmp";
   lastGoodPath p; lastGoodPath p +:+ ".tmp"].

Section PersistFrame.
Context {X : Type} `{C : Crypto} `{ED : Policy.Ed25519} `{JE : JSONDoc encryptedStorageEnvelope}
  `{EP : !EnvelopeProbe} `{JP : JSONDoc PolicyEnvelope} `{JD : JSONDoc PolicyDocument}
  `{JF : JSONDoc policyFloorDocument}.

Lemma same_but_then ps qs (w1 w2 w3 : world X) :
  same_but [] w1 w2 -> same_but ps w2 w3 -> (forall p, p ∈ ps -> p ∈ qs) -> same_but qs w1 w3.
Proof. intros H1 H2 Hin. eapply same_but_step; [|exact H2|exact Hin]. eapply same_but_weaken; [|exact H1]. set_solver. Qed.

Lemma writeDocument_frame p doc (w : world X) e w' : writeDocument p doc w = (e, w') ->
  same_but (policy_files p) w w'.
Proof.
  unfold writeDocument. intros H.
  destruct (encodeDocumentFor _ _ _ _ _) as [[x|enc] w1] eqn:HE; apply encode_frame in HE.
  - simplify_eq. eapply same_but_weaken; [|exact HE]. set_solver.
  - apply atomicWriteFile_post in H as [HF _ _]. eapply same_but_then; [exact HE|exact HF|set_solver].
Qed.

Lemma writeLastGood_frame p doc (w : world X) e w' : writeLastKnownGoodLocked p doc w = (e, w') ->
  same_but (policy_files p) w w'.
Proof.
  unfold writeLastKnownGoodLocked. intros H.
  destruct (encodeDocumentFor _ _ _ _ _) as [[x|enc] w1] eqn:HE; apply encode_frame in HE.
  - simplify_eq. eapply same_but_weaken; [|exact HE]. set_solver.
  - apply atomicWriteFile_post in H as [HF _ _]. eapply same_but_then; [exact HE|exact HF|set_solver].
Qed.

Lemma persistFloor_frame p floor (w : world X) e w' : persistFloorLocked p floor w = (e, w') ->
  same_but (policy_files p) w w'.
Proof.
  unfold persistFloorLocked, time_Now. intros H. cbv zeta in H.
  assert (same_but [] w (next_tick w)) as HT by by split_and!.
  destruct (json_Marshal _) as [x|data]; [simplify_eq; eapply same_but_weaken; [|exact HT]; set_solver|].
  destruct (ps_crypto p); [destruct (Encrypt _ _ _ _ _ _) as [[x|sealed] w2] eqn:HE; apply Encrypt_same in HE|].
  - simplify_eq. eapply same_but_weaken; [|eapply same_but_trans; [exact HT|exact HE]]. set_solver.
  - apply atomicWriteFile_post in H as [HF _ _].
    eapply same_but_then; [eapply same_but_trans; [exact HT|exact HE]|exact HF|set_solver].
  - apply atomicWriteFile_post in H as [HF _ _]. eapply same_but_then; [exact HT|exact HF|set_solver].
Qed.

Lemma Persist_frame p node enf xdr bs (w : world X) e p' w' : Persist p node enf xdr bs w = (e, p', w') ->
  same_but (policy_files p) w w'.
Proof.
  unfold Persist, time_Now. intros H. cbv zeta in H.
  assert (same_but (policy_files p) w (next_tick w)) as HT by by split_and!.
  destruct (canonicalPolicy _) as [x|payload]; [by simplify_eq|].
  destruct (writeDocument _ _ _) as [[x|] w2] eqn:HD; apply writeDocument_frame in HD;
    (assert (same_but (policy_files p) w w2) as H2 by by eapply same_but_trans); [by simplify_eq|].
  rewrite raiseFloor_frame in H.
  destruct (persistFloorLocked _ _ w2) as [[x|] w3] eqn:HP; apply persistFloor_frame in HP;
    (assert (same_but (policy_files p) w w3) as H3 by by eapply same_but_trans); [by simplify_eq|].
  destruct (writeLastKnownGoodLocked _ _ w3) as [? w4] eqn:HW. simplify_eq.
  apply writeLastGood_frame in HW. by eapply same_but_trans.
Qed.
End PersistFrame.

(** ** Recording is quiet

    Events, evidence and incidents change neither the block list nor the modes
    nor what is published about the release, the policy and the core. *)
Section Recording.
Context {L K X : Type} `{SK : !Sinks L K X} `{QS : !QuietSinks L K X}.
Implicit Types (s : State L K) (w : world X).

Definition outline s :=
  (st_enforcement s, st_releaseXDRMode s, st_blocks s, st_blockDeadlines s, st_release s, st_policy s,
   st_coreConnected s, st_allowlistReady s, st_settings s, st_sensors s, st_l7 s).
Definition recorded (a b : State L K * world X) : Prop := outline b.1 = outline a.1 /\ w_ext b.2 = w_ext a.2.

#[export] Instance recorded_preorder : PreOrder recorded.
Proof. split; [by split|]. intros ? ? ? [H1 H2] [K1 K2]. split; congruence. Qed.

Lemma recompute_outline s : outline (recomputeXDRDegradedLocked s) = outline s.
Proof. unfold recomputeXDRDegradedLocked. by case_match. Qed.
Lemma mark_outline c r s : outline (markXDRCauseLocked c r s) = outline s.
Proof. unfold markXDRCauseLocked. case_match; [done|]. by rewrite recompute_outline. Qed.
Lemma clear_outline c s : outline (clearXDRCauseLocked c s) = outline s.
Proof. unfold clearXDRCauseLocked. case_match; [|done]. by rewrite recompute_outline. Qed.
Lemma note_append_outline e l s : outline (note_append (X := X) e l s) = outline s.
Proof. unfold note_append. repeat case_match; rewrite ?clear_outline, ?mark_outline; done. Qed.

Lemma randomID_ext w r w' : randomID w = (r, w') -> w_ext w' = w_ext w.
Proof. unfold randomID, rand_Read, sys. intros H. by repeat case_match; simplify_eq/=. Qed.
Lemma mint_ext w id w' : mint w = Some (id, w') -> w_ext w' = w_ext w.
Proof. unfold mint. destruct (randomID w) as [[?|] w1] eqn:H; [|done]. intros [= <- <-]. by eapply randomID_ext. Qed.

Lemma RecordEvidence_recorded r : moves recorded (RecordEvidence (L := L) (K := K) (X := X) r).
Proof.
  intros [s w] e [s' w'] H. unfold RecordEvidence in H.
  destruct (st_evidence s) as [l|]; [|by simplify_eq].
  destruct (sk_Append r l w) as [[[err l'] w1]|] eqn:HA; [|done]. simplify_eq.
  split; [apply note_append_outline|by eapply append_quiet].
Qed.

Lemma fill_event_ext e w e' w' : fill_event e w = Some (e', w') -> w_ext w' = w_ext w.
Proof.
  unfold fill_event. intros H. apply bind_Some in H as ([id w1] & H1 & H2).
  assert (w_ext w1 = w_ext w) as HE by (destruct (bool_decide _); [by eapply mint_ext|by simplify_eq]).
  cbn in H2. destruct (Time.IsZero _); by simplify_eq/=.
Qed.

Lemma AddEvent_recorded e : moves recorded (AddEvent (L := L) (K := K) (X := X) e).
Proof.
  intros [s w] u [s' w'] H. unfold AddEvent in H.
  destruct (fill_event e w) as [[e' w1]|] eqn:HF; [|done].
  destruct (RecordEvidence _ _) as [[err [s2 w2]]|] eqn:HR; [|done]. simplify_eq.
  apply RecordEvidence_recorded in HR as [HO HW]. split; [exact HO|].
  cbn in *. rewrite HW. by eapply fill_event_ext.
Qed.

Lemma dedupe_outline i now s : outline (dedupe i now s).2 = outline s.
Proof. unfold dedupe. by repeat case_match. Qed.

Lemma fill_incident_ext i w i' w' : fill_incident i w = Some (i', w') -> w_ext w' = w_ext w.
Proof.
  unfold fill_incident. intros H. apply bind_Some in H as ([id w1] & H1 & H2).
  assert (w_ext w1 = w_ext w) as HE by (destruct (bool_decide _); [by eapply mint_ext|by simplify_eq]).
  cbn in H2. destruct (Time.IsZero _); by simplify_eq/=.
Qed.

Lemma AddIncident_recorded i : moves recorded (AddIncident (L := L) (K := K) (X := X) i).
Proof.
  intros [s w] u [s' w'] H. unfold AddIncident in H.
  destruct (fill_incident i w) as [[i' w1]|] eqn:HF; [|done]. apply fill_incident_ext in HF.
  destruct (time_Now w1) as [now w2] eqn:HN. injection HN as <- <-.
  destruct (dedupe i' _ s) as [[] s1] eqn:HD;
    (assert (outline s1 = outline s) as HO by (by rewrite <- (dedupe_outline i' (o_now (w_oracle w1) (w_tick w1)) s), HD)).
  { injection H as _ <- <-. split; [exact HO|exact HF]. }
  cbn [st_cases set_xdr set_incidents] in H. destruct (st_cases s1) as [k|].
  - destruct (sk_IngestIncident i' k (next_tick w1)) as [[err k'] w3] eqn:HI. apply ingest_quiet in HI.
    assert (w_ext w' = w_ext w) as HW by (injection H as _ _ <-; rewrite HI; exact HF).
    split; [|exact HW]. cbn [fst]. destruct err as [x|]; injection H as _ <- _.
    + unfold noteCaseHistoryFailure. case_match; rewrite ?mark_outline; exact HO.
    + unfold noteCaseHistorySuccess. rewrite clear_outline. exact HO.
  - injection H as _ <- <-. split; [exact HO|exact HF].
Qed.
End Recording.

(** ** Steps that leave the phase, the modes, the blocks and the kernel alone *)

Section Frames.
Context {L K X : Type} `{SK : !Sinks L K X} `{QS : !QuietSinks L K X} `{CC : !CoreClient X} `{U : Unicode}
  `{C : Crypto} `{ED : Policy.Ed25519} `{JE : JSONDoc encryptedStorageEnvelope} `{EP : !EnvelopeProbe}
  `{JP : JSONDoc PolicyEnvelope} `{JD : JSONDoc PolicyDocument} `{JF : JSONDoc policyFloorDocument}.
Abbreviation sys := (Sys L K X).
Implicit Types (y : sys).

Definition blank_status : ReleaseStatus := fresh_status "" 0.

(** The part of the controller no operation changes. *)
Definition frozen (c : ReleaseController L K X) : ReleaseController L K X :=
  set_status blank_status (set_monoSince (wall_only 0) (set_monoNominal None c)).

Definition phase y : string := rs_Phase (rc_status (y_ctl y)).
Definition kernel_state y : string := rs_KernelPolicyState (rc_status (y_ctl y)).
Definition verified y : bool := rs_FailSafeVerified (rc_status (y_ctl y)).

Definition keyview y :=
  (frozen (y_ctl y), (phase y, kernel_state y, verified y),
   (st_enforcement (y_state y), st_releaseXDRMode (y_state y), st_blocks (y_state y)), w_ext (y_w y)).
Definition quiet y y' : Prop := keyview y' = keyview y.

(** Only the clock advanced. *)
Definition still y y' : Prop :=
  y_ctl y' = y_ctl y /\ y_state y' = y_state y /\ y_policy y' = y_policy y /\
  w_fs (y_w y') = w_fs (y_w y) /\ w_ext (y_w y') = w_ext (y_w y) /\ w_oracle (y_w y') = w_oracle (y_w y).

#[export] Instance quiet_preorder : PreOrder quiet.
Proof. split; [by intros ?|]. unfold quiet. intros ? ? ? H1 H2. congruence. Qed.
#[export] Instance still_preorder : PreOrder still.
Proof. split; [by intros ?|]. unfold still. intros ? ? ? H1 H2. intuition congruence. Qed.

Lemma quiet_inv y y' : quiet y y' ->
  frozen (y_ctl y') = frozen (y_ctl y) /\ phase y' = phase y /\ kernel_state y' = kernel_state y /\
  verified y' = verified y /\ st_enforcement (y_state y') = st_enforcement (y_state y) /\
  st_releaseXDRMode (y_state y') = st_releaseXDRMode (y_state y) /\
  st_blocks (y_state y') = st_blocks (y_state y) /\ w_ext (y_w y') = w_ext (y_w y).
Proof.
  intros H. split_and!; [exact (f_equal (fun v => v.1.1.1) H)|exact (f_equal (fun v => v.1.1.2.1.1) H)
    |exact (f_equal (fun v => v.1.1.2.1.2) H)|exact (f_equal (fun v => v.1.1.2.2) H)
    |exact (f_equal (fun v => v.1.2.1.1) H)|exact (f_equal (fun v => v.1.2.1.2) H)
    |exact (f_equal (fun v => v.1.2.2) H)|exact (f_equal (fun v => v.2) H)].
Qed.

Lemma still_quiet y y' : still y y' -> quiet y y'.
Proof. intros (H1 & H2 & _ & _ & H3 & _). unfold quiet, keyview, phase, kernel_state, verified. by rewrite H1, H2, H3. Qed.

Lemma still_moves_quiet {A} (m : M sys A) : moves still m -> moves quiet m.
Proof. intros H. eapply moves_weaken; [exact H|apply still_quiet]. Qed.

Lemma on_world_still {A} (f : world X -> A * world X) :
  (forall w, same_but [] w (f w).2) -> moves still (on_world (L := L) (K := K) f).
Proof.
  intros Hf y a y' H. unfold on_world in H. apply zoom_inv in H as (w & H & ->). cbn in H.
  specialize (Hf (y_w y)). destruct (f (y_w y)) as [b w1]. simplify_eq. cbn in Hf.
  destruct Hf as (H1 & H2 & H3). repeat split; try done. apply map_eq. intros p. apply H3. set_solver.
Qed.

Lemma now_utc_still : moves still (now_utc (L := L) (K := K) (X := X)).
Proof. apply on_world_still. intros w. by split_and!. Qed.
Lemma now_mono_still : moves still (now_mono (L := L) (K := K) (X := X)).
Proof. apply on_world_still. intros w. by split_and!. Qed.
Lemma os_Stat_still path : moves still (on_world (L := L) (K := K) (X := X) (os_Stat path)).
Proof.
  apply on_world_still. intros w. unfold os_Stat, os_Lstat, World.sys. by repeat case_match; simplify_eq/=; split_and!.
Qed.
Lemma snapshot_still : moves still (in_state (L := L) (K := K) (X := X) State_Snapshot).
Proof.
  intros y a y' H. unfold in_state in H. apply zoom_inv in H as ([s w] & H & ->). unfold State_Snapshot, time_Now in H.
  simplify_eq. by repeat split.
Qed.
Hint Resolve now_utc_still now_mono_still os_Stat_still snapshot_still : moves.

Lemma sinceElapsed_still : moves still (sinceElapsed (L := L) (K := K) (X := X)).
Proof. unfold sinceElapsed. moves_solve. Qed.
Lemma nominalElapsed_still : moves still (nominalElapsed (L := L) (K := K) (X := X)).
Proof. unfold nominalElapsed. moves_solve. Qed.
Hint Resolve sinceElapsed_still nominalElapsed_still : moves.
Lemma currentBlockers_still target dur : moves still (currentBlockersLocked (L := L) (K := K) (X := X) target dur).
Proof. unfold currentBlockersLocked. moves_solve. Qed.

Lemma with_status_quiet f :
  (forall st, rs_Phase (f st) = rs_Phase st /\ rs_KernelPolicyState (f st) = rs_KernelPolicyState st /\
              rs_FailSafeVerified (f st) = rs_FailSafeVerified st) ->
  moves quiet (with_status (L := L) (K := K) (X := X) f).
Proof.
  intros Hf. apply moves_modify. intros y. destruct (Hf (rc_status (y_ctl y))) as (H1 & H2 & H3).
  unfold quiet, keyview, phase, kernel_state, verified. cbn. by rewrite H1, H2, H3.
Qed.

Lemma in_state_quiet {A} (m : M (State L K * world X) A) : moves recorded m -> moves quiet (in_state m).
Proof.
  intros Hm. eapply moves_zoom; [exact Hm|]. intros y [s w] [HO HW]. cbn in HO, HW.
  unfold outline in HO. unfold quiet, keyview, phase, kernel_state, verified. cbn. by simplify_eq HO; simplify_eq; congruence.
Qed.
Lemma event_quiet a b c d : moves quiet (event (L := L) (K := K) (X := X) a b c d).
Proof. apply in_state_quiet, AddEvent_recorded. Qed.
Lemma publish_quiet : moves quiet (publish (L := L) (K := K) (X := X)).
Proof. intros y a y' H. unfold publish, status, on_state, in_state in H. run_inv H. by apply zoom_inv in H as ([s w] & [= <- <- <-] & ->). Qed.
Lemma publish_policy_quiet : moves quiet (publish_policy (L := L) (K := K) (X := X)).
Proof. intros y a y' H. unfold publish_policy, on_state, in_state in H. run_inv H. by apply zoom_inv in H as ([s w] & [= <- <- <-] & ->). Qed.
Lemma persist_quiet e x : moves quiet (persist (L := L) (K := K) (X := X) e x).
Proof.
  intros y a y' H. unfold persist in H. destruct (Persist _ _ _ _ _ _) as [[err p] w] eqn:HP.
  simplify_eq. apply Persist_frame in HP as (_ & HX & _). unfold quiet, keyview. cbn. by rewrite HX.
Qed.
Hint Resolve still_moves_quiet with_status_quiet event_quiet publish_quiet publish_policy_quiet persist_quiet
  currentBlockers_still : moves.
End Frames.
#[export] Hint Resolve now_utc_still now_mono_still os_Stat_still snapshot_still sinceElapsed_still nominalElapsed_still
  currentBlockers_still still_moves_quiet event_quiet publish_quiet publish_policy_quiet persist_quiet
  in_state_quiet AddIncident_recorded : moves.
#[export] Hint Extern 1 (moves quiet (with_status _)) => apply with_status_quiet; intros; repeat split : moves.
#[export] Hint Extern 1 (moves quiet (modify _)) => apply moves_modify; intros; reflexivity : moves.
#[export] Hint Extern 1 (moves quiet status) => unfold status; apply moves_gets, _ : moves.
#[export] Hint Extern 1 (moves still status) => unfold status; apply moves_gets, _ : moves.

Section Steps.
Context {L K X : Type} `{SK : !Sinks L K X} `{QS : !QuietSinks L K X} `{CC : !CoreClient X} `{CL : !CoreLaws X}
  `{U : Unicode} `{C : Crypto} `{ED : Policy.Ed25519} `{JE : JSONDoc encryptedStorageEnvelope} `{EP : !EnvelopeProbe}
  `{JP : JSONDoc PolicyEnvelope} `{JD : JSONDoc PolicyDocument} `{JF : JSONDoc policyFloorDocument}.
Abbreviation sys := (Sys L K X).
Implicit Types (y : sys).

Definition kern y : gset string := kernel (w_ext (y_w y)).

Lemma refresh_quiet : moves quiet (refreshLocked (L := L) (K := K) (X := X)).
Proof. unfold refreshLocked. moves_solve. Qed.
Lemma stamp_quiet : moves quiet (stamp_phase (L := L) (K := K) (X := X)).
Proof. unfold stamp_phase. moves_solve. Qed.
Lemma mint_quiet : moves quiet (zoom (y_w (L := L) (K := K) (X := X)) set_w mint).
Proof.
  intros y a y' H. apply zoom_inv in H as (w & H & ->). apply mint_ext in H.
  unfold quiet, keyview. cbn. by rewrite H.
Qed.
Lemma refuse_still e : moves still (refuse (L := L) (K := K) (X := X) e).
Proof. unfold refuse. moves_solve. Qed.
End Steps.

(** * The release controller and the kernel

    What each reconciliation pass does to the kernel block map and to the
    Enforced flags, whatever calls of the core fail; and the state each
    composite step of src/control/release.go ends in. *)

Section Kernel.
Context {L K X : Type} `{SK : !Sinks L K X} `{QS : !QuietSinks L K X} `{CC : !CoreClient X} `{CL : !CoreLaws X}
  `{U : Unicode} `{C : Crypto} `{ED : Policy.Ed25519} `{JE : JSONDoc encryptedStorageEnvelope} `{EP : !EnvelopeProbe}
  `{JP : JSONDoc PolicyEnvelope} `{JD : JSONDoc PolicyDocument} `{JF : JSONDoc policyFloorDocument}.
Abbreviation sys := (Sys L K X).
Implicit Types (y : sys) (T : gset string).

(** A block the platform calls enforced and the kernel holds. *)
Definition held y (t : string) : Prop :=
  t ∈ kern y /\ exists b, st_blocks (y_state y) !! t = Some b /\ b_Enforced b = true.
Definition keyed (s : State L K) : Prop := forall t b, st_blocks s !! t = Some b -> b_Target b = t.

(** Nothing but flags of blocks and the kernel changed. *)
Record kept y y' : Prop := {
  k_ctl : y_ctl y' = y_ctl y;
  k_enf : st_enforcement (y_state y') = st_enforcement (y_state y);
  k_xdr : st_releaseXDRMode (y_state y') = st_releaseXDRMode (y_state y);
  k_keyed : keyed (y_state y) -> keyed (y_state y');
  k_dom : dom (st_blocks (y_state y')) = dom (st_blocks (y_state y));
}.
#[export] Instance kept_preorder : PreOrder kept.
Proof.
  split; [by constructor|]. intros ? ? ? [] []. constructor; try congruence. auto.
Qed.

(** [spares T]: every held block outside [T] stays held. *)
Definition spares T y y' : Prop := kept y y' /\ forall t, held y t -> t ∉ T -> held y' t.
#[export] Instance spares_preorder T : PreOrder (spares T).
Proof.
  split; [by split|]. intros y1 y2 y3 [H1 H2] [H3 H4]. split; [by transitivity y2|]. auto.
Qed.
Definition hardens y y' : Prop := spares ∅ y y' /\ kern y ⊆ kern y'.
#[export] Instance hardens_preorder : PreOrder hardens.
Proof.
  split; [by split|]. intros y1 y2 y3 [H1 H2] [H3 H4]. split; [by transitivity y2|set_solver].
Qed.
Lemma hardens_spares T y y' : hardens y y' -> spares T y y'.
Proof. intros [[H1 H2] _]. split; [done|]. intros t Ht _. apply H2; [done|set_solver]. Qed.

(** *** Single steps *)

Lemma put_flag_lookup t e (s : State L K) t' b :
  st_blocks (SetBlockEnforced t e s) !! t' = Some b ->
  exists b0, st_blocks s !! t' = Some b0 /\ b = (if bool_decide (t' = t) then set_Enforced e b0 else b0).
Proof.
  unfold SetBlockEnforced. destruct (st_blocks s !! t) as [b1|] eqn:H1; cbn.
  - intros H. apply lookup_insert_Some in H as [[<- <-]|[Hne H]].
    + exists b1. by rewrite bool_decide_eq_true_2.
    + exists b. by rewrite bool_decide_eq_false_2.
  - intros H. exists b. split; [done|]. rewrite bool_decide_eq_false_2; [done|]. intros ->. by rewrite H1 in H.
Qed.

Lemma put_flag_same t (s : State L K) t' b :
  st_blocks s !! t' = Some b -> b_Enforced b = true -> forall e, (e = true \/ t' <> t) ->
  exists b', st_blocks (SetBlockEnforced t e s) !! t' = Some b' /\ b_Enforced b' = true.
Proof.
  intros Hb He e Hor. unfold SetBlockEnforced. destruct (st_blocks s !! t) as [b1|] eqn:H1; cbn; [|eauto].
  destruct (decide (t' = t)) as [->|Hne]; [|rewrite lookup_insert_ne by done; eauto].
  destruct Hor as [->|Hor]; [|done]. rewrite lookup_insert_eq. eauto.
Qed.

Lemma flag_kept t e : moves kept (on_state (L := L) (K := K) (X := X) (SetBlockEnforced t e)).
Proof.
  intros y a y' H. unfold on_state, in_state in H. apply zoom_inv in H as ([s w] & [= <- <- <-] & ->).
  assert (forall s : State L K, st_enforcement (SetBlockEnforced t e s) = st_enforcement s /\
    st_releaseXDRMode (SetBlockEnforced t e s) = st_releaseXDRMode s) as HE
    by (intros s; unfold SetBlockEnforced; by case_match).
  constructor; cbn; [done|apply HE|apply HE| |].
  - intros HK t' b Hb. apply put_flag_lookup in Hb as (b0 & Hb0 & ->). apply HK in Hb0. by case_bool_decide.
  - unfold SetBlockEnforced. destruct (st_blocks (y_state y) !! t) eqn:H1; cbn; [|done].
    apply elem_of_dom_2 in H1. set_solver.
Qed.

Lemma flag_kern t e y a y' : on_state (L := L) (K := K) (X := X) (SetBlockEnforced t e) y = Some (a, y') -> kern y' = kern y.
Proof. unfold on_state, in_state. intros H. by apply zoom_inv in H as ([s w] & [= <- <- <-] & ->). Qed.

Lemma flag_on_hardens t : moves hardens (on_state (L := L) (K := K) (X := X) (SetBlockEnforced t true)).
Proof.
  intros y a y' H. pose proof (flag_kept _ _ _ _ _ H) as HK. pose proof (flag_kern _ _ _ _ _ H) as HN.
  split; [split; [done|]|by rewrite HN]. intros t' [Hk (b & Hb & He)] _. split; [by rewrite HN|].
  unfold on_state, in_state in H. apply zoom_inv in H as ([s w] & [= <- <- <-] & ->). cbn.
  eapply put_flag_same; eauto.
Qed.
Lemma flag_off_spares t T : t ∈ T -> moves (spares T) (on_state (L := L) (K := K) (X := X) (SetBlockEnforced t false)).
Proof.
  intros HT y a y' H. pose proof (flag_kept _ _ _ _ _ H) as HK. pose proof (flag_kern _ _ _ _ _ H) as HN.
  split; [done|]. intros t' [Hk (b & Hb & He)] Hn. split; [by rewrite HN|].
  unfold on_state, in_state in H. apply zoom_inv in H as ([s w] & [= <- <- <-] & ->). cbn.
  eapply put_flag_same; [done..|]. right. by intros ->.
Qed.

Lemma core_kept op : moves kept (core_call (L := L) (K := K) (X := X) op).
Proof.
  intros y e y' H. unfold core_call, on_world in H. apply zoom_inv in H as (w & _ & ->). by constructor.
Qed.
Lemma add_hardens t : moves hardens (core_call (L := L) (K := K) (core_Add t)).
Proof.
  intros y e y' H. pose proof (core_kept _ _ _ _ H) as HK.
  unfold core_call, on_world in H. apply zoom_inv in H as (w & [= H] & ->).
  apply add_keeps in H. split; [split; [done|]|done].
  intros t' [Ht Hb] _. split; [unfold kern; cbn; set_solver|done].
Qed.
Lemma delete_spares t T : t ∈ T -> moves (spares T) (core_call (L := L) (K := K) (core_Delete t)).
Proof.
  intros HT y e y' H. pose proof (core_kept _ _ _ _ H) as HK.
  unfold core_call, on_world in H. apply zoom_inv in H as (w & [= H] & ->).
  apply delete_only in H. split; [done|].
  intros t' [Ht Hb] Hn. split; [|done]. unfold kern in *. cbn. apply H in Ht. set_solver.
Qed.
Lemma add_in t y y' : core_call (L := L) (K := K) (core_Add t) y = Some (None, y') -> t ∈ kern y'.
Proof.
  unfold core_call, on_world. intros H. apply zoom_inv in H as (w & [= H] & ->). by apply add_ok in H.
Qed.
Hint Resolve flag_on_hardens add_hardens : moves.

(** *** The passes *)

Lemma confirm_hardens bs : moves hardens (confirm_blocks (L := L) (K := K) (X := X) bs).
Proof. induction bs as [|b bs IH]; cbn [confirm_blocks]; moves_solve. Qed.

Lemma confirm_in bs y y' : confirm_blocks (L := L) (K := K) (X := X) bs y = Some (None, y') ->
  Forall (fun b => b_Target b ∈ kern y') bs.
Proof.
  revert y. induction bs as [|b bs IH]; intros y H; cbn [confirm_blocks] in H; [constructor|].
  run_inv H. destruct a as [e|]; [by run_inv H|]. run_inv H. constructor; [|by eapply IH].
  apply add_in in Hrun. apply confirm_hardens in H as [_ H]. apply flag_on_hardens in Hrun0 as [_ H0]. set_solver.
Qed.

Lemma reconcileVerified_hardens : moves hardens (reconcileVerifiedLocked (L := L) (K := K) (X := X)).
Proof. unfold reconcileVerifiedLocked. pose proof confirm_hardens. moves_solve. Qed.

Lemma snapshot_in (s : State L K) b : b ∈ BlocksSnapshot s <-> exists t, st_blocks s !! t = Some b.
Proof.
  unfold BlocksSnapshot. rewrite merge_sort_Permutation. unfold block_list. rewrite list_elem_of_fmap. split.
  - intros ([t b'] & -> & H). exists t. by apply elem_of_map_to_list.
  - intros [t H]. exists (t, b). split; [done|]. by apply elem_of_map_to_list.
Qed.

Lemma snapshot_lookup (s : State L K) b : keyed s -> b ∈ BlocksSnapshot s -> st_blocks s !! b_Target b = Some b.
Proof. intros HK Hb. apply snapshot_in in Hb as [t Ht]. by rewrite (HK _ _ Ht). Qed.

(** A confirmation that succeeds leaves every block of the list in the kernel. *)
Lemma reconcileVerified_in y y' : keyed (y_state y) ->
  reconcileVerifiedLocked (L := L) (K := K) (X := X) y = Some (None, y') -> dom (st_blocks (y_state y')) ⊆ kern y'.
Proof.
  intros HK H. pose proof (reconcileVerified_hardens _ _ _ H) as [[[_ _ _ _ HD] _] _].
  unfold reconcileVerifiedLocked in H. run_inv H. destruct (negb _); run_inv H; [done|].
  apply confirm_in in H. rewrite HD. intros t Ht. apply elem_of_dom in Ht as [b Hb].
  rewrite <- (HK _ _ Hb). revert H. rewrite Forall_forall. intros H. apply H, snapshot_in. eauto.
Qed.

Lemma rollback_spares T ts : (forall t, t ∈ ts -> t ∈ T) -> moves (spares T) (rollback_applied (L := L) (K := K) (X := X) ts).
Proof.
  induction ts as [|t ts IH]; intros Hin; cbn [rollback_applied]; [moves_solve|].
  assert (t ∈ T) as Ht by (apply Hin; set_solver).
  pose proof (delete_spares t T Ht). pose proof (flag_off_spares t T Ht).
  assert (moves (spares T) (rollback_applied (L := L) (K := K) (X := X) ts)) by (apply IH; set_solver). moves_solve.
Qed.

Lemma hardens_moves {A} T (m : M sys A) : moves hardens m -> moves (spares T) m.
Proof. intros H. eapply moves_weaken; [exact H|]. apply hardens_spares. Qed.

Lemma apply_spares T applied bs : (forall t, t ∈ applied -> t ∈ T) ->
  (forall b, b ∈ bs -> b_Enforced b = false -> b_Target b ∈ T) ->
  moves (spares T) (apply_blocks (L := L) (K := K) (X := X) applied bs).
Proof.
  revert applied. induction bs as [|b bs IH]; intros applied Ha Hb; cbn [apply_blocks]; [moves_solve|].
  destruct (b_Enforced b) eqn:He; [apply IH; set_solver|].
  pose proof (hardens_moves T _ (add_hardens (b_Target b))). pose proof (hardens_moves T _ (flag_on_hardens (b_Target b))).
  pose proof (rollback_spares T applied Ha).
  assert (moves (spares T) (apply_blocks (L := L) (K := K) (X := X) (applied ++ [b_Target b]) bs)).
  { apply IH; [|set_solver]. intros t [Ht| ->%list_elem_of_singleton]%elem_of_app; [by apply Ha|]. apply Hb; set_solver. }
  moves_solve.
Qed.

(** The pass succeeds only without a removal, and then everything it had to
    apply is in the kernel. *)
Lemma apply_ok applied bs y y' : apply_blocks (L := L) (K := K) (X := X) applied bs y = Some (None, y') ->
  kern y ⊆ kern y' /\ Forall (fun b => b_Enforced b = true \/ b_Target b ∈ kern y') bs.
Proof.
  revert applied y. induction bs as [|b bs IH]; intros applied y H; cbn [apply_blocks] in H; [by run_inv H|].
  destruct (b_Enforced b) eqn:He.
  - apply IH in H as [H1 H2]. split; [done|]. constructor; auto.
  - run_inv H. destruct a as [e|]; [run_inv H; discriminate|]. run_inv H.
    pose proof (add_in _ _ _ Hrun) as Hin. apply add_hardens in Hrun as [_ H1].
    apply flag_on_hardens in Hrun0 as [_ H2]. apply IH in H as [H3 H4].
    split; [set_solver|]. constructor; [|done]. right. set_solver.
Qed.

(** The targets the threat feeds own. *)
Definition owned y : gset string := feed_owned (w_ext (y_w y)).
Definition same_owned y y' : Prop := owned y' = owned y.
#[export] Instance same_owned_preorder : PreOrder same_owned.
Proof. split; [by intros ?|]. unfold same_owned. intros ? ? ? H1 H2. congruence. Qed.
Lemma on_state_owned f : moves same_owned (on_state (L := L) (K := K) (X := X) f).
Proof. intros y a y' H. unfold on_state, in_state in H. by apply zoom_inv in H as ([s w] & [= <- <- <-] & ->). Qed.
Lemma add_same_owned t : moves same_owned (core_call (L := L) (K := K) (core_Add t)).
Proof. intros y e y' H. unfold core_call, on_world in H. apply zoom_inv in H as (w & [= H] & ->). by apply add_owned in H. Qed.
Lemma delete_same_owned t : moves same_owned (core_call (L := L) (K := K) (core_Delete t)).
Proof. intros y e y' H. unfold core_call, on_world in H. apply zoom_inv in H as (w & [= H] & ->). by apply delete_owned in H. Qed.
Hint Resolve on_state_owned add_same_owned delete_same_owned : moves.
Lemma rollback_owned ts : moves same_owned (rollback_applied (L := L) (K := K) (X := X) ts).
Proof. induction ts; cbn [rollback_applied]; moves_solve. Qed.
Hint Resolve rollback_owned : moves.
Lemma apply_owned bs ts : moves same_owned (apply_blocks (L := L) (K := K) (X := X) ts bs).
Proof. revert ts. induction bs; intros ts; cbn [apply_blocks]; moves_solve. Qed.

(** What the kernel-reconciled hook promises: it publishes into the kernel
    without touching the block list, the modes, or the entries of the list
    that the feeds do not own, and the feeds own no more afterwards. *)
Definition hook_ok (c : ReleaseController L K X) : Prop := forall h s w s' w',
  rc_hook c = Some h -> h (s, w) = Some (tt, (s', w')) ->
  outline s' = outline s /\ feed_owned (w_ext w') ⊆ feed_owned (w_ext w) /\
  forall t, t ∈ dom (st_blocks s) -> t ∉ feed_owned (w_ext w) -> t ∈ kernel (w_ext w) -> t ∈ kernel (w_ext w').

Lemma notify_spares y a y' : hook_ok (y_ctl y) ->
  notifyKernelReconciledLocked (L := L) (K := K) (X := X) y = Some (a, y') ->
  kept y y' /\ st_blocks (y_state y') = st_blocks (y_state y) /\ owned y' ⊆ owned y /\
  forall t, t ∈ dom (st_blocks (y_state y)) -> t ∉ owned y -> t ∈ kern y -> t ∈ kern y'.
Proof.
  intros HO H. unfold notifyKernelReconciledLocked in H. run_inv H.
  destruct (rc_hook (y_ctl y)) as [h|] eqn:Hh; [|by run_inv H].
  unfold in_state in H. apply zoom_inv in H as ([s w] & H & ->). destruct a.
  apply (HO h) in H as (H1 & Ho & H2); [|done]. unfold outline in H1. simplify_eq H1. intros. split_and!; [|done|done|by apply H2].
  assert (st_blocks s = st_blocks (y_state y)) as Hb by done.
  constructor; cbn; try done; unfold keyed; by rewrite Hb.
Qed.

Lemma clear_flags_kept bs : moves kept (clear_flags (L := L) (K := K) (X := X) bs).
Proof. unfold clear_flags. pose proof flag_kept. moves_solve. Qed.

(** [reconcileLocked] in any mode changes flags and the kernel only. *)
Lemma reconcile_kept enforcement y e y' : hook_ok (y_ctl y) ->
  reconcileLocked (L := L) (K := K) (X := X) enforcement y = Some (e, y') -> kept y y'.
Proof.
  intros HO H. unfold reconcileLocked in H. run_inv H. destruct (negb _); run_inv H; [reflexivity|].
  destruct (bool_decide _); run_inv H.
  - assert (kept y y0) as HA.
    { eapply (apply_spares (list_to_set (map b_Target (BlocksSnapshot (y_state y))))); [| |exact Hrun];
        [set_solver|]. intros b Hb _. apply elem_of_list_to_set, list_elem_of_fmap. eauto. }
    destruct a as [x|]; run_inv H; [done|]. etransitivity; [exact HA|].
    eapply notify_spares; [|exact Hrun0]. by rewrite (k_ctl _ _ HA).
  - pose proof (core_kept _ _ _ _ Hrun) as H1. destruct a as [x|]; run_inv H; [done|].
    pose proof (core_kept _ _ _ _ Hrun0) as H2. destruct a as [x|]; run_inv H; [by transitivity y0|].
    pose proof (clear_flags_kept _ _ _ _ Hrun1) as H3. etransitivity; [exact H1|]. etransitivity; [exact H2|].
    etransitivity; [exact H3|]. eapply notify_spares; [|exact Hrun2].
    by rewrite (k_ctl _ _ H3), (k_ctl _ _ H2), (k_ctl _ _ H1).
Qed.

(** The enforcing pass never releases a held block the feeds do not own, also
    when it fails half-way and compensates; and when it succeeds, every block
    of the list is flagged already, was applied, or is the feeds'. *)
Lemma reconcile_enforce y e y' : hook_ok (y_ctl y) -> keyed (y_state y) ->
  reconcileLocked (L := L) (K := K) (X := X) "enforce" y = Some (e, y') ->
  (forall t, held y t -> t ∉ owned y -> held y' t) /\ owned y' ⊆ owned y /\
  (e = None -> forall t b, st_blocks (y_state y) !! t = Some b -> b_Enforced b = true \/ t ∈ owned y \/ t ∈ kern y').
Proof.
  intros HO HK H. unfold reconcileLocked in H. run_inv H. destruct (negb _); run_inv H; [done|].
  rewrite bool_decide_eq_true_2 in H by done. run_inv H.
  set (T := list_to_set (map b_Target (List.filter (fun b => negb (b_Enforced b)) (BlocksSnapshot (y_state y)))) : gset string).
  assert (forall b, b ∈ BlocksSnapshot (y_state y) -> b_Enforced b = false -> b_Target b ∈ T) as HT.
  { intros b Hb He. apply elem_of_list_to_set, list_elem_of_fmap. exists b. split; [done|].
    apply list_elem_of_In, filter_In. rewrite He. split; [by apply list_elem_of_In|done]. }
  assert (forall t, held y t -> t ∉ T) as Hfree.
  { intros t [_ (b & Hb & He)] HinT. apply elem_of_list_to_set, list_elem_of_fmap in HinT as (b' & Ht & Hb').
    apply list_elem_of_In, filter_In in Hb' as [Hb' He']. apply list_elem_of_In in Hb'.
    apply snapshot_lookup in Hb'; [|done]. rewrite <- Ht in Hb'. simplify_eq. by rewrite He in He'. }
  assert (spares T y y0) as HA by (eapply (apply_spares T); [| |exact Hrun]; [set_solver|done]).
  pose proof (apply_owned _ _ _ _ _ Hrun) as Hoy. destruct HA as [HA1 HA2]. destruct a as [x|].
  { run_inv H. split_and!; [auto|by rewrite Hoy|done]. }
  run_inv H. apply apply_ok in Hrun as [Hsub Hall].
  apply notify_spares in Hrun0 as (HN1 & HNb & HNo & HN2); [|by rewrite (k_ctl _ _ HA1)].
  rewrite Hoy in HNo, HN2.
  assert (forall t, t ∈ dom (st_blocks (y_state y)) -> t ∉ owned y -> t ∈ kern y0 -> t ∈ kern y1) as Hown.
  { intros t Ht Hn Hk. apply HN2; [|done..]. by rewrite (k_dom _ _ HA1). }
  split_and!; [|done|].
  - intros t Ht Hn. pose proof (HA2 _ Ht (Hfree _ Ht)) as [Hk0 (b & Hb & He)].
    destruct Ht as [_ (b0 & Hb0 & _)]. split; [apply Hown; [by apply elem_of_dom_2 in Hb0|done..]|].
    exists b. by rewrite HNb.
  - intros _ t b Hb. rewrite Forall_forall in Hall. destruct (Hall b) as [He|Hk]; [apply snapshot_in; eauto|by left|].
    right. destruct (decide (t ∈ owned y)); [by left|right]. rewrite (HK _ _ Hb) in Hk. apply Hown; [by apply elem_of_dom_2 in Hb|done..].
Qed.
End Kernel.
