(* ===== verification/ReleaseFacts.v ===== *)
(** * The release controller: invariant, gates and retention

    Theorems about the operations of src/control/release.go in any order,
    with any pattern of failing system calls, core calls and evidence writes. *)

From Stdlib Require Import ZArith Lia Ascii String.
From stdpp Require Import base gmap strings list sorting.
From S2P Require Import Prelude.
From S2P Require Import GoLib.
From S2P Require Import Text.
From S2P Require Import World.
From S2P Require Import Storage.
From S2P Require Import Exec.
From S2P Require Import NetIP.
From S2P Require Import Policy.
From S2P Require Import Evidence.
From S2P Require Import State.
From S2P Require Import Snapshot.
From S2P Require Import Release.
From S2P Require Import ReleaseFrames.

Section Facts.
Context {L K X : Type} `{SK : !Sinks L K X} `{QS : !QuietSinks L K X} `{CC : !CoreClient X} `{CL : !CoreLaws X}
  `{U : Unicode} `{C : Crypto} `{ED : Policy.Ed25519} `{JE : JSONDoc encryptedStorageEnvelope} `{EP : !EnvelopeProbe}
  `{JP : JSONDoc PolicyEnvelope} `{JD : JSONDoc PolicyDocument} `{JF : JSONDoc policyFloorDocument}.
Abbreviation sys := (Sys L K X).
Implicit Types (y : sys).

(** ** Retention as a frame *)

Record retains y y' : Prop := {
  rt_frozen : frozen (y_ctl y') = frozen (y_ctl y);
  rt_keyed : keyed (y_state y) -> keyed (y_state y');
  rt_held : forall t, held y t -> held y' t;
}.
#[export] Instance retains_preorder : PreOrder retains.
Proof. split; [by constructor|]. intros ? ? ? [] []. constructor; [congruence|auto|auto]. Qed.

Lemma retains_same y y' : frozen (y_ctl y') = frozen (y_ctl y) -> st_blocks (y_state y') = st_blocks (y_state y) ->
  w_ext (y_w y') = w_ext (y_w y) -> retains y y'.
Proof.
  intros HF HB HW. constructor; [done| |]; unfold keyed, held, kern; rewrite HB, ?HW; done.
Qed.
Lemma quiet_retains y y' : quiet y y' -> retains y y'.
Proof. intros (HF & _ & _ & _ & _ & _ & HB & HW)%quiet_inv. by apply retains_same. Qed.
Lemma hardens_retains y y' : hardens y y' -> retains y y'.
Proof.
  intros [[[Hc _ _ Hk _] Hh] _]. constructor; [by rewrite Hc|done|]. intros t Ht. apply Hh; [done|set_solver].
Qed.
Lemma quiet_moves {A} (m : M sys A) : moves quiet m -> moves retains m.
Proof. intros H. eapply moves_weaken; [exact H|apply quiet_retains]. Qed.

Lemma set_modes_retains e x : moves retains (on_state (L := L) (K := K) (X := X) (SetModes e x)).
Proof.
  intros y a y' H. unfold on_state, in_state in H. apply zoom_inv in H as ([s w] & [= <- <- <-] & ->). by apply retains_same.
Qed.
Lemma with_status_retains f : moves retains (with_status (L := L) (K := K) (X := X) f).
Proof. apply moves_modify. intros y. by apply retains_same. Qed.
Hint Resolve set_modes_retains with_status_retains : moves.
Hint Resolve quiet_moves : moves.
Hint Resolve refresh_quiet stamp_quiet mint_quiet refuse_still : moves.
Hint Extern 1 (moves retains status) => unfold status; apply moves_gets, _ : moves.
Hint Extern 1 (moves retains (modify _)) => apply moves_modify; intros; by apply retains_same : moves.

Lemma reconcileVerified_retains : moves retains (reconcileVerifiedLocked (L := L) (K := K) (X := X)).
Proof. eapply moves_weaken; [apply reconcileVerified_hardens|apply hardens_retains]. Qed.
Hint Resolve reconcileVerified_retains : moves.

Lemma markDegraded_retains r k v : moves retains (markDegradedLocked (L := L) (K := K) (X := X) r k v).
Proof. unfold markDegradedLocked. moves_solve. Qed.
Hint Resolve markDegraded_retains : moves.
Lemma degrade_retains r : moves retains (degradeLocked (L := L) (K := K) (X := X) r).
Proof. unfold degradeLocked. moves_solve. Qed.
Hint Resolve degrade_retains : moves.
Lemma trackNominal_quiet : moves quiet (trackNominalLocked (L := L) (K := K) (X := X)).
Proof. unfold trackNominalLocked, markNominalLocked. moves_solve. Qed.
Hint Resolve trackNominal_quiet : moves.
Lemma enter_enforce_retains d : moves retains (enter_enforce (L := L) (K := K) (X := X) d).
Proof. unfold enter_enforce. moves_solve. Qed.
Hint Resolve enter_enforce_retains : moves.
Lemma recover_retains : moves retains (recoverIfGatesPassLocked (L := L) (K := K) (X := X)).
Proof. unfold recoverIfGatesPassLocked. moves_solve. Qed.
Hint Resolve recover_retains : moves.
Lemma Evaluate_retains : moves retains (Evaluate (L := L) (K := K) (X := X)).
Proof. unfold Evaluate. moves_solve. Qed.
Lemma ObserveCore_retains b : moves retains (ObserveCore (L := L) (K := K) (X := X) b).
Proof. unfold ObserveCore. moves_solve. Qed.
Lemma ReArm_retains r : moves retains (ReArmVerified (L := L) (K := K) (X := X) r).
Proof. unfold ReArmVerified. moves_solve. Qed.
Lemma FailSafe_retains r : moves retains (FailSafe (L := L) (K := K) (X := X) r).
Proof. unfold FailSafe. moves_solve. Qed.
Lemma Status_retains : moves retains (Release_Status (L := L) (K := K) (X := X)).
Proof. unfold Release_Status. moves_solve. Qed.
Lemma Readiness_retains t : moves retains (Readiness (L := L) (K := K) (X := X) t).
Proof. unfold Readiness. moves_solve. Qed.

Lemma on_world_quiet {A} (f : world X -> A * world X) : (forall w, w_ext (f w).2 = w_ext w) ->
  moves quiet (on_world (L := L) (K := K) f).
Proof.
  intros Hf y a y' H. unfold on_world in H. apply zoom_inv in H as (w & [= H] & ->).
  unfold quiet, keyview. cbn. by rewrite <- (Hf (y_w y)), H.
Qed.
Lemma marker_write_quiet path data mode : moves quiet (on_world (L := L) (K := K) (X := X) (atomicWriteFile path data mode)).
Proof.
  apply on_world_quiet. intros w. destruct (atomicWriteFile path data mode w) as [e w'] eqn:H.
  by apply atomicWriteFile_post in H as [(_ & HX & _) _ _].
Qed.
Lemma marker_remove_quiet path : moves quiet (on_world (L := L) (K := K) (X := X) (os_Remove path)).
Proof. apply on_world_quiet. intros w. unfold os_Remove, World.sys. by repeat case_match; simplify_eq/=. Qed.
Hint Resolve marker_write_quiet marker_remove_quiet : moves.

Lemma EmergencyStop_retains f r : moves retains (EmergencyStop (L := L) (K := K) (X := X) f r).
Proof. unfold EmergencyStop. moves_solve. Qed.
Lemma retain_at_startup_retains : moves retains (retain_at_startup (L := L) (K := K) (X := X)).
Proof. unfold retain_at_startup. moves_solve. Qed.
Hint Resolve retain_at_startup_retains : moves.
Lemma InitializeStartup_retains e v : v = false \/ e = "enforce" ->
  moves retains (InitializeStartup (L := L) (K := K) (X := X) e v).
Proof.
  intros Hor. unfold InitializeStartup. destruct Hor as [->| ->]; [|destruct v]; cbn [negb];
    rewrite ?bool_decide_eq_true_2 by done; cbn [negb]; moves_solve.
Qed.
Lemma enter_phase_retains t e x r : moves retains (enter_phase (L := L) (K := K) (X := X) t e x r).
Proof. unfold enter_phase. moves_solve. Qed.

(** ** The operations *)

Inductive op :=
| OpTransition (target confirmation reason : string)
| OpStartup (policyEnforcement : string) (policyVerified : bool)
| OpObserveCore (success : bool)
| OpEvaluate
| OpReArm (reason : string)
| OpReconcile
| OpFailSafe (reason : string)
| OpEmergencyStop (format : time -> string) (reason : string)
| OpClear (confirmation reason : string)
| OpStatus
| OpReadiness (target : string).

Definition ignore {A} (m : M sys A) : M sys unit := m ≫= fun _ => mret tt.
Definition run (o : op) : M sys unit :=
  match o with
  | OpTransition t c r => ignore (Transition t c r)
  | OpStartup e v => ignore (InitializeStartup e v)
  | OpObserveCore b => ObserveCore b
  | OpEvaluate => Evaluate
  | OpReArm r => ignore (ReArmVerified r)
  | OpReconcile => ignore ReconcileVerifiedPolicy
  | OpFailSafe r => ignore (FailSafe r)
  | OpEmergencyStop f r => ignore (EmergencyStop f r)
  | OpClear c r => ignore (ClearEmergencyStop c r)
  | OpStatus => ignore Release_Status
  | OpReadiness t => ignore (Readiness t)
  end.

(** ** The invariant *)

Record sound y : Prop := {
  s_phase : phase y ∈ [ReleasePhaseObserve; ReleasePhaseCanary; ReleasePhaseEnforce; ReleasePhaseDegraded];
  s_enforce : phase y = ReleasePhaseEnforce ->
    kernel_state y = "verified-enforce" /\ verified y = true /\ st_releaseXDRMode (y_state y) = "enforce";
  s_canary : phase y = ReleasePhaseCanary -> verified y = true;
  s_verified : verified y = true -> kernelPolicyVerified (kernel_state y) = true;
  s_modes : kernel_state y = "verified-enforce" -> st_enforcement (y_state y) = "enforce";
}.

(** What the invariant is about. *)
Definition posture y :=
  (phase y, kernel_state y, verified y, st_enforcement (y_state y), st_releaseXDRMode (y_state y)).
Definition poised y y' : Prop := posture y' = posture y.
#[export] Instance poised_preorder : PreOrder poised.
Proof. split; [by intros ?|]. unfold poised. intros ? ? ? H1 H2. congruence. Qed.
Lemma quiet_poised y y' : quiet y y' -> poised y y'.
Proof. intros (_ & H1 & H2 & H3 & H4 & H5 & _ & _)%quiet_inv. unfold poised, posture. congruence. Qed.
Lemma kept_poised y y' : kept y y' -> poised y y'.
Proof. intros [Hc H4 H5 _ _]. unfold poised, posture, phase, kernel_state, verified. by rewrite Hc, H4, H5. Qed.
Lemma poised_moves {A} (m : M sys A) : moves quiet m -> moves poised m.
Proof. intros H. eapply moves_weaken; [exact H|apply quiet_poised]. Qed.

(** The posture a computation ends in, whatever it started from. *)
Definition ends {A} (P : string * string * bool * string * string -> Prop) (m : M sys A) : Prop :=
  returns (fun _ _ y' => P (posture y')) m.
Lemma ends_then {A B} P (m : M sys A) (f : A -> M sys B) :
  ends P m -> (forall a, moves poised (f a)) -> ends P (m ≫= f).
Proof.
  intros Hm Hf. eapply returns_bind; [exact Hm|]. intros y a y1 b y' HP H. cbn in *.
  apply Hf in H. unfold poised in H. by rewrite H.
Qed.
Lemma ends_last {A B} P (m : M sys A) (f : A -> M sys B) : (forall a, ends P (f a)) -> ends P (m ≫= f).
Proof. intros Hf y b y' H. apply bind_inv in H as (a & y1 & _ & H). by eapply Hf. Qed.
Lemma ends_weaken {A} P Q (m : M sys A) : ends P m -> (forall p, P p -> Q p) -> ends Q m.
Proof. intros Hm HQ y a y' H. apply HQ. by eapply Hm. Qed.

(** Postures after the steps that set them. *)
Lemma set_modes_posture e x y a y' : on_state (L := L) (K := K) (X := X) (SetModes e x) y = Some (a, y') ->
  posture y' = (phase y, kernel_state y, verified y, e, x).
Proof. unfold on_state, in_state. intros H. by apply zoom_inv in H as ([s w] & [= <- <- <-] & ->). Qed.
Lemma with_status_posture f y a y' : with_status (L := L) (K := K) (X := X) f y = Some (a, y') ->
  posture y' = (rs_Phase (f (rc_status (y_ctl y))), rs_KernelPolicyState (f (rc_status (y_ctl y))),
                rs_FailSafeVerified (f (rc_status (y_ctl y))), st_enforcement (y_state y), st_releaseXDRMode (y_state y)).
Proof. intros H. by apply modify_inv in H as ->. Qed.
Lemma posture_inv y p k v e x : posture y = (p, k, v, e, x) ->
  phase y = p /\ kernel_state y = k /\ verified y = v /\ st_enforcement (y_state y) = e /\ st_releaseXDRMode (y_state y) = x.
Proof. unfold posture. intros H. by injection H as -> -> -> -> ->. Qed.

Lemma reconcileVerified_poised : moves poised (reconcileVerifiedLocked (L := L) (K := K) (X := X)).
Proof. eapply moves_weaken; [apply reconcileVerified_hardens|]. intros y y' [[H _] _]. by apply kept_poised. Qed.

(** [moves poised] from what is known of the steps. *)
Ltac poised_of H := 
  lazymatch type of H with
  | ?m ?y = Some (?a, ?y') =>
      let P := fresh in assert (poised y y') as P;
        [first [apply (reconcileVerified_poised _ _ _ H) | eapply poised_moves; [|exact H]; by eauto with moves]
        |clear H; rename P into H]
  end.

Lemma markDegraded_posture r k v y a y' : markDegradedLocked (L := L) (K := K) (X := X) r k v y = Some (a, y') ->
  posture y' = (ReleasePhaseDegraded, k, v, st_enforcement (y_state y), st_releaseXDRMode (y_state y)).
Proof.
  unfold markDegradedLocked. intros H.
  apply bind_inv in H as (now & y1 & H1 & H). apply bind_inv in H as (u & y2 & H2 & H).
  assert (poised y2 y') as HP.
  { eapply poised_moves; [|exact H]. moves_solve. }
  poised_of H1. apply posture_inv in H1 as (_ & _ & _ & H4 & H5).
  apply with_status_posture in H2. cbn in H2. unfold poised in HP. rewrite HP, H2. by rewrite H4, H5.
Qed.

Definition fallen (p : string * string * bool * string * string) : Prop :=
  p = (ReleasePhaseDegraded, "verified-enforce", true, "enforce", "observe") \/
  p = (ReleasePhaseDegraded, "unverified", false, "unverified", "observe").

Lemma degrade_ends r : ends fallen (degradeLocked (L := L) (K := K) (X := X) r).
Proof.
  intros y a y' H. unfold degradeLocked in H.
  apply bind_inv in H as (u & y1 & H1 & H). apply set_modes_posture in H1.
  apply bind_inv in H as (err & y2 & H2 & H). poised_of H2. unfold poised in H2. rewrite H1 in H2.
  apply posture_inv in H2 as (_ & _ & _ & He & Hx).
  assert (forall r y3 u y4 y5, poised y2 y3 -> markDegradedLocked r "unverified" false y3 = Some (u, y4) ->
    poised y4 y5 -> fallen (posture y5)) as Hun.
  { intros r' y3 u' y4 y5 H23 HM H45. apply markDegraded_posture in HM. unfold poised in *.
    apply posture_inv in H23 as (_ & _ & _ & He3 & Hx3). right. by rewrite H45, HM, He3, Hx3, He, Hx. }
  destruct err as [e|].
  - apply bind_inv in H as (u3 & y3 & H3 & H). eapply (Hun _ y2); [reflexivity|exact H3|].
    eapply poised_moves; [|exact H]. moves_solve.
  - apply bind_inv in H as (err & y3 & H3 & H). poised_of H3. destruct err as [e|].
    + apply bind_inv in H as (u4 & y4 & H4 & H). poised_of H4. apply bind_inv in H as (u5 & y5 & H5 & H).
      eapply (Hun _ y4); [by transitivity y3|exact H5|]. eapply poised_moves; [|exact H]. moves_solve.
    + apply bind_inv in H as (u4 & y4 & H4 & H). poised_of H4. apply bind_inv in H as (u5 & y5 & H5 & H).
      apply bind_inv in H as (u6 & y6 & H6 & H). apply set_modes_posture in H5. apply markDegraded_posture in H6.
      assert (poised y6 y') as HP by (eapply poised_moves; [|exact H]; moves_solve).
      apply posture_inv in H5 as (_ & _ & _ & He5 & Hx5). left. unfold poised in HP. by rewrite HP, H6, He5, Hx5.
Qed.

Lemma sound_poised y y' : poised y y' -> sound y -> sound y'.
Proof.
  unfold poised. intros H. apply posture_inv in H as (H1 & H2 & H3 & H4 & H5). intros [].
  constructor; rewrite ?H1, ?H2, ?H3, ?H4, ?H5; done.
Qed.
Lemma fallen_sound y : fallen (posture y) -> sound y.
Proof.
  intros [H|H]; apply posture_inv in H as (H1 & H2 & H3 & H4 & H5);
    constructor; rewrite ?H1, ?H2, ?H3, ?H4, ?H5; try done; set_solver.
Qed.

(** Either the posture did not change or a sound one was entered. *)
Definition steady y y' : Prop := poised y y' \/ sound y'.
#[export] Instance steady_preorder : PreOrder steady.
Proof.
  split; [by left|]. intros y1 y2 y3 [H1|H1] [H2|H2]; [left; by transitivity y2|by right| |by right].
  right. by eapply sound_poised.
Qed.
Lemma steady_sound {A} (m : M sys A) : moves steady m -> keeps sound m.
Proof. intros Hm y a y' H Hy. destruct (Hm _ _ _ H) as [HP|HP]; [by eapply sound_poised|done]. Qed.
Lemma steady_quiet {A} (m : M sys A) : moves quiet m -> moves steady m.
Proof. intros H. eapply moves_weaken; [exact H|]. intros y y' HQ. left. by apply quiet_poised. Qed.
Lemma steady_ends {A} (m : M sys A) : ends fallen m -> moves steady m.
Proof. intros Hm y a y' H. right. apply fallen_sound. by eapply Hm. Qed.
Hint Resolve steady_quiet steady_ends degrade_ends : moves.
Hint Extern 1 (moves steady status) => unfold status; apply moves_gets, _ : moves.

Lemma reconcileVerified_steady : moves steady (reconcileVerifiedLocked (L := L) (K := K) (X := X)).
Proof. eapply moves_weaken; [apply reconcileVerified_poised|]. by left. Qed.
Hint Resolve reconcileVerified_steady : moves.

Lemma ObserveCore_steady b : moves steady (ObserveCore (L := L) (K := K) (X := X) b).
Proof. unfold ObserveCore. moves_solve. Qed.
Lemma FailSafe_steady r : moves steady (FailSafe (L := L) (K := K) (X := X) r).
Proof. unfold FailSafe. moves_solve. Qed.
Lemma EmergencyStop_steady f r : moves steady (EmergencyStop (L := L) (K := K) (X := X) f r).
Proof. unfold EmergencyStop. moves_solve. Qed.

Lemma sound_from y ph ks v e x : posture y = (ph, ks, v, e, x) ->
  ((ph = ReleasePhaseObserve \/ ph = ReleasePhaseDegraded \/ ph = ReleasePhaseCanary /\ v = true \/
    ph = ReleasePhaseEnforce /\ ks = "verified-enforce" /\ v = true /\ x = "enforce") /\
   (v = true -> kernelPolicyVerified ks = true) /\ (ks = "verified-enforce" -> e = "enforce")) -> sound y.
Proof.
  intros H (Hp & Hv & Hm). apply posture_inv in H as (H1 & H2 & H3 & H4 & H5).
  constructor; rewrite ?H1, ?H2, ?H3, ?H4, ?H5; [|intros Hq; rewrite Hq in Hp; naive_solver..|done|done].
  destruct Hp as [->|[->|[[-> _]|[-> _]]]]; set_solver.
Qed.

Lemma enter_enforce_posture d y a y' : enter_enforce (L := L) (K := K) (X := X) d y = Some (a, y') ->
  posture y' = (ReleasePhaseEnforce, "verified-enforce", true, "enforce", "enforce").
Proof.
  unfold enter_enforce. intros H. apply bind_inv in H as (now & y1 & H1 & H). apply bind_inv in H as (u & y2 & H2 & H).
  apply bind_inv in H as (u3 & y3 & H3 & H). apply with_status_posture in H2. apply set_modes_posture in H3.
  apply posture_inv in H2 as (Hp & Hk & Hv & _ & _). rewrite Hp, Hk, Hv in H3.
  assert (poised y3 y') as HP by (eapply poised_moves; [|exact H]; moves_solve). unfold poised in HP. by rewrite HP, H3.
Qed.
Lemma enter_enforce_steady d : moves steady (enter_enforce (L := L) (K := K) (X := X) d).
Proof. intros y a y' H. right. eapply sound_from; [by eapply enter_enforce_posture|]. split_and!; naive_solver. Qed.
Hint Resolve enter_enforce_steady : moves.

Lemma Evaluate_steady : moves steady (Evaluate (L := L) (K := K) (X := X)).
Proof. unfold Evaluate, recoverIfGatesPassLocked. moves_solve. Qed.
Lemma ReArm_steady r : moves steady (ReArmVerified (L := L) (K := K) (X := X) r).
Proof. unfold ReArmVerified. moves_solve. Qed.

(** *** Steps that reconcile the kernel to a mode, with a lawful hook *)

Definition firm y y' : Prop := hook_ok (y_ctl y) -> hook_ok (y_ctl y') /\ poised y y'.
#[export] Instance firm_preorder : PreOrder firm.
Proof.
  split; [by intros y; split|]. intros y1 y2 y3 H1 H2 H. destruct (H1 H) as [Hh HP]. destruct (H2 Hh) as [Hh' HP'].
  split; [done|]. by transitivity y2.
Qed.
Lemma hook_frozen (c c' : ReleaseController L K X) : frozen c' = frozen c -> hook_ok c -> hook_ok c'.
Proof.
  intros H. assert (rc_hook c' = rc_hook c) as E by exact (f_equal rc_hook H). unfold hook_ok. by rewrite E.
Qed.
Lemma quiet_firm {A} (m : M sys A) : moves quiet m -> moves firm m.
Proof.
  intros H. eapply moves_weaken; [exact H|]. intros y y' HQ HO. split; [|by apply quiet_poised].
  apply quiet_inv in HQ as (HF & _). by eapply hook_frozen.
Qed.
Lemma reconcile_firm e : moves firm (reconcileLocked (L := L) (K := K) (X := X) e).
Proof.
  intros y a y' H HO. apply reconcile_kept in H; [|done]. split; [by rewrite (k_ctl _ _ H)|by apply kept_poised].
Qed.
Lemma reconcileVerified_firm : moves firm (reconcileVerifiedLocked (L := L) (K := K) (X := X)).
Proof.
  intros y a y' H HO. apply reconcileVerified_hardens in H as [[H _] _].
  split; [by rewrite (k_ctl _ _ H)|by apply kept_poised].
Qed.
Hint Resolve quiet_firm reconcile_firm reconcileVerified_firm : moves.
Hint Extern 1 (moves firm status) => unfold status; apply moves_gets, _ : moves.

Definition sound_after {A} (m : M sys A) : Prop :=
  forall y a y', hook_ok (y_ctl y) -> m y = Some (a, y') -> sound y -> sound y'.

Lemma steady_after {A} (m : M sys A) : moves steady m -> sound_after m.
Proof. intros Hm y a y' _ H. by eapply (steady_sound _ Hm). Qed.

(** The last parts of the steps: a phase is marked and then only recorded. *)
Lemma mark_then_sound {A} r k v (f : unit -> M sys A) y a y' :
  (forall u, moves quiet (f u)) -> v = false -> k <> "verified-enforce" ->
  (markDegradedLocked r k v ≫= f) y = Some (a, y') -> sound y'.
Proof.
  intros Hf -> Hk H. apply bind_inv in H as (u & y1 & H1 & H). apply markDegraded_posture in H1.
  apply (poised_moves _ (Hf u)) in H. unfold poised in H. rewrite H1 in H.
  eapply sound_from; [exact H|]. split_and!; naive_solver.
Qed.
Lemma status_then_sound {A} f (g : unit -> M sys A) y a y' :
  (forall u, moves quiet (g u)) -> (with_status f ≫= g) y = Some (a, y') ->
  posture y' = (rs_Phase (f (rc_status (y_ctl y))), rs_KernelPolicyState (f (rc_status (y_ctl y))),
                rs_FailSafeVerified (f (rc_status (y_ctl y))), st_enforcement (y_state y), st_releaseXDRMode (y_state y)).
Proof.
  intros Hg H. apply bind_inv in H as (u & y1 & H1 & H). apply with_status_posture in H1.
  apply (poised_moves _ (Hg u)) in H. unfold poised in H. by rewrite H, H1.
Qed.

Lemma initializeObserve_sound : sound_after (initializeObserveLocked (L := L) (K := K) (X := X)).
Proof.
  intros y a y' HO H Hy. unfold initializeObserveLocked in H. apply bind_inv in H as (err & y1 & H1 & H).
  destruct err as [e|]; [eapply mark_then_sound; [|reflexivity| |exact H]; [intros; moves_solve|done]|].
  apply bind_inv in H as (u & y2 & H2 & H). apply set_modes_posture in H2.
  apply bind_inv in H as (err & y3 & H3 & H). poised_of H3.
  destruct err as [e|].
  - apply bind_inv in H as (u4 & y4 & H4 & H). eapply mark_then_sound; [|reflexivity| |exact H]; [intros; moves_solve|done].
  - apply bind_inv in H as (u4 & y4 & H4 & H). apply status_then_sound in H; [|intros; moves_solve].
    eapply sound_from; [exact H|]. cbn. split_and!; naive_solver.
Qed.

Lemma retain_at_startup_sound : sound_after (retain_at_startup (L := L) (K := K) (X := X)).
Proof.
  intros y a y' HO H Hy. unfold retain_at_startup in H.
  apply bind_inv in H as (u & y1 & H1 & H). apply bind_inv in H as (err & y2 & H2 & H).
  destruct err as [e|]; [eapply mark_then_sound; [|reflexivity| |exact H]; [intros; moves_solve|done]|].
  apply bind_inv in H as (err & y3 & H3 & H).
  destruct err as [e|]; apply bind_inv in H as (u4 & y4 & H4 & H);
    [eapply mark_then_sound; [|reflexivity| |exact H]; [intros; moves_solve|done]|].
  apply bind_inv in H as (u5 & y5 & H5 & H). apply set_modes_posture in H5.
  apply bind_inv in H as (now & y6 & H6 & H). poised_of H6. unfold poised in H6. rewrite H5 in H6.
  apply posture_inv in H6 as (_ & _ & _ & He & Hx).
  apply status_then_sound in H; [|intros; moves_solve]. rewrite He, Hx in H.
  eapply sound_from; [exact H|]. cbn. split_and!; naive_solver.
Qed.

Lemma InitializeStartup_sound e v : sound_after (InitializeStartup (L := L) (K := K) (X := X) e v).
Proof.
  intros y a y' HO H Hy. unfold InitializeStartup in H.
  apply bind_inv in H as (c & y1 & H1 & H). apply bind_inv in H as (st & y2 & H2 & H).
  assert (firm y y2) as HF.
  { transitivity y1; [eapply moves_gets; [apply _|exact H1]|]. eapply quiet_firm; [|exact H2]. eauto with moves. }
  destruct (HF HO) as [HO2 HP]. apply sound_poised in HP; [|done].
  destruct st as [x|i]; [destruct (negb v); [|destruct (negb _)]|].
  - eapply (steady_after (_ ≫= _)); [|exact HO2|exact H|done]. moves_solve.
  - by eapply initializeObserve_sound.
  - by eapply retain_at_startup_sound.
  - eapply (steady_after (_ ≫= _)); [|exact HO2|exact H|done]. moves_solve.
Qed.

Lemma refuse_sound e y a y' : refuse (L := L) (K := K) (X := X) e y = Some (a, y') -> sound y -> sound y'.
Proof.
  intros H. apply sound_poised, quiet_poised, still_quiet. by eapply refuse_still.
Qed.

Lemma clear_tail_sound r : sound_after (clear_tail (L := L) (K := K) (X := X) r).
Proof.
  intros y a y' HO H Hy. unfold clear_tail in H. apply bind_inv in H as (err & y1 & H1 & H).
  apply reconcile_firm in H1. destruct (H1 HO) as [HO1 HP1].
  assert (sound y1) as Hy1 by (by eapply sound_poised).
  destruct err as [e|]; [by eapply refuse_sound|].
  apply bind_inv in H as (err & y2 & H2 & H). poised_of H2.
  assert (sound y2) as Hy2 by (by eapply sound_poised).
  destruct err as [e|]; [by eapply refuse_sound|].
  apply bind_inv in H as (u & y3 & H3 & H). apply set_modes_posture in H3.
  apply bind_inv in H as (u4 & y4 & H4 & H). poised_of H4. apply bind_inv in H as (now & y5 & H5 & H). poised_of H5.
  apply status_then_sound in H; [|intros; moves_solve].
  eapply sound_from; [exact H|]. cbn. split_and!; naive_solver.
Qed.

Lemma Clear_sound c r : sound_after (ClearEmergencyStop (L := L) (K := K) (X := X) c r).
Proof.
  intros y a y' HO H Hy. unfold ClearEmergencyStop in H.
  destruct (negb _); [by eapply refuse_sound|]. destruct (negb _); [by eapply refuse_sound|].
  apply bind_inv in H as (ct & y1 & H1 & H). apply gets_inv in H1 as [-> ->].
  apply bind_inv in H as (err & y2 & H2 & H).
  assert (firm y y2) as HF by (eapply quiet_firm; [|exact H2]; eauto with moves).
  destruct (HF HO) as [HO2 HP]. apply sound_poised in HP; [|done].
  destruct err as [e|]; [destruct (negb _)|]; [by eapply refuse_sound|by eapply clear_tail_sound..].
Qed.

(** *** [Transition] *)

(** The commit of a transition enters the posture of its target. *)
Lemma enter_phase_posture t e x r y a y' : enter_phase (L := L) (K := K) (X := X) t e x r y = Some (a, y') ->
  posture y' = (t, if bool_decide (e = "observe") then "verified-empty" else "verified-enforce", true, e, x).
Proof.
  unfold enter_phase. intros H. apply bind_inv in H as (u & y1 & H1 & H). apply set_modes_posture in H1.
  apply bind_inv in H as (u2 & y2 & H2 & H). poised_of H2. apply bind_inv in H as (now & y3 & H3 & H). poised_of H3.
  unfold poised in *. rewrite H2, H1 in H3. apply posture_inv in H3 as (_ & _ & _ & He & Hx).
  apply status_then_sound in H; [|intros; moves_solve]. rewrite He, Hx in H. rewrite H. cbn. by case_bool_decide.
Qed.

(** The part of [Transition] behind the gate. *)
Definition transition_core (target reason : string) (st : ReleaseStatus) (oldEnforcement newEnforcement newXDR : string)
  : M sys (ReleaseStatus * error) :=
  err ← reconcileLocked newEnforcement;
  match err with
  | Some e => refuse (Some e)
  | None =>
      err ← persist newEnforcement newXDR;
      match err with
      | Some e =>
          rollbackErr ← reconcileLocked oldEnforcement;
          match rollbackErr with
          | Some r =>
              on_state (SetModes "unverified" "observe") ;;
              markDegradedLocked "policy transition and kernel rollback failed" "unverified" false ;;
              refuse (errors_Join [Some (ErrWrap "signed policy transition failed" e);
                                   Some (ErrWrap "kernel rollback failed" r)])
          | None => refuse (Some (ErrWrap "signed policy transition failed" e))
          end
      | None =>
          enter_phase target newEnforcement newXDR reason ;;
          event "high" "release.transition" "release-gate"
            ("Beta phase changed from " +:+ rs_Phase st +:+ " to " +:+ target +:+ ": " +:+ TrimSpace reason) ;;
          refuse None
      end
  end.

Lemma transition_core_sound t r st o e x : t <> ReleasePhaseDegraded -> releaseModes t = inr (e, x) -> forall e',
  e' = e \/ e' = "enforce" -> sound_after (transition_core t r st o e' x).
Proof.
  intros Ht HM e' He' y a y' HO H Hy. unfold transition_core in H. apply bind_inv in H as (err & y1 & H1 & H).
  apply reconcile_firm in H1. destruct (H1 HO) as [HO1 HP1].
  assert (sound y1) as Hy1 by (by eapply sound_poised). destruct err as [er|]; [by eapply refuse_sound|].
  apply bind_inv in H as (err & y2 & H2 & H).
  assert (firm y1 y2) as HF2 by (eapply quiet_firm; [|exact H2]; eauto with moves). destruct (HF2 HO1) as [HO2 HP2].
  assert (sound y2) as Hy2 by (by eapply sound_poised). destruct err as [er|].
  - apply bind_inv in H as (rb & y3 & H3 & H). apply reconcile_firm in H3. destruct (H3 HO2) as [HO3 HP3].
    assert (sound y3) as Hy3 by (by eapply sound_poised). destruct rb as [rb|]; [|by eapply refuse_sound].
    apply bind_inv in H as (u & y4 & H4 & H). eapply mark_then_sound; [|reflexivity| |exact H]; [intros; moves_solve|done].
  - apply bind_inv in H as (u & y3 & H3 & H). apply enter_phase_posture in H3.
    assert (poised y3 y') as HP by (eapply poised_moves; [|exact H]; moves_solve).
    eapply sound_poised; [exact HP|]. eapply sound_from; [exact H3|].
    unfold releaseModes in HM. repeat case_bool_decide; simplify_eq/=; naive_solver.
Qed.

(** Either [Transition] changed nothing of the posture, the blocks or the
    kernel, or it passed its gate and ran [transition_core]. *)
Lemma Transition_inv target c r y a y' : Transition (L := L) (K := K) (X := X) target c r y = Some (a, y') ->
  let t := ToLower (TrimSpace target) in
  quiet y y' \/
  exists y1 e x, still y y1 /\ t <> phase y /\ t <> ReleasePhaseDegraded /\ releaseModes t = inr (e, x) /\
    (t = ReleasePhaseObserve \/ currentBlockersLocked t true y = Some ([], y1)) /\
    transition_core t r (rc_status (y_ctl y)) (st_enforcement (y_state y1))
      (retainedEnforcementLocked (y_ctl y1) t e) x y1 = Some (a, y').
Proof.
  intros H t. unfold Transition in H. fold t in H.
  destruct (negb (bool_decide (t = ReleasePhaseObserve)) && negb (bool_decide (t = ReleasePhaseCanary))
            && negb (bool_decide (t = ReleasePhaseEnforce))) eqn:Ht;
    [left; apply still_quiet; by eapply refuse_still|].
  destruct (bool_decide (c = _)); cbn [negb] in H; [|left; apply still_quiet; by eapply refuse_still].
  destruct (reason_ok r); cbn [negb] in H; [|left; apply still_quiet; by eapply refuse_still].
  apply bind_inv in H as (st & y0 & H0 & H). unfold status in H0. apply gets_inv in H0 as [-> ->].
  case_bool_decide as Hne; [left; apply still_quiet; by eapply refuse_still|].
  apply bind_inv in H as (bl & y1 & H1 & H).
  assert (still y y1) as HS.
  { case_bool_decide; [eapply moves_ret; [apply _|exact H1]|eapply currentBlockers_still; exact H1]. }
  destruct bl as [|b bl].
  2:{ left. transitivity y1; [by apply still_quiet|]. eapply moves_bind; [apply _| | |exact H]; [|intros]; moves_solve. }
  apply bind_inv in H as (md & y2 & H2 & H). apply gets_inv in H2 as [-> ->]. unfold Modes in H.
  destruct (releaseModes t) as [er|[e x]] eqn:HM;
    [left; transitivity y1; apply still_quiet; [done|by eapply refuse_still]|].
  apply bind_inv in H as (ct & y3 & H3 & H). apply gets_inv in H3 as [-> ->].
  right. exists y1, e, x. split_and!; [done|done| |done| |exact H].
  - intros E. rewrite E in Ht. by vm_compute in Ht.
  - case_bool_decide; [by left|]. by right.
Qed.

Lemma retained_cases c t e : retainedEnforcementLocked (L := L) (K := K) (X := X) c t e = e \/
  retainedEnforcementLocked c t e = "enforce".
Proof. unfold retainedEnforcementLocked. repeat case_match; auto. Qed.

Lemma Transition_sound target c r : sound_after (Transition (L := L) (K := K) (X := X) target c r).
Proof.
  intros y a y' HO H Hy. apply Transition_inv in H as [HQ|(y1 & e & x & HS & _ & Hd & HM & _ & H)].
  - by eapply sound_poised; [apply quiet_poised|].
  - eapply transition_core_sound; [exact Hd|exact HM|apply retained_cases| |exact H|].
    + destruct HS as (Hc & _). by rewrite Hc.
    + by eapply sound_poised; [apply quiet_poised, still_quiet|].
Qed.

Lemma ignore_after {A} (m : M sys A) : sound_after m -> sound_after (ignore m).
Proof. intros Hm y a y' HO H. unfold ignore in H. run_inv H. by eapply Hm. Qed.

Lemma run_sound o : sound_after (run o).
Proof.
  destruct o; cbn [run]; try apply ignore_after.
  - apply Transition_sound.
  - apply InitializeStartup_sound.
  - apply steady_after, ObserveCore_steady.
  - apply steady_after, Evaluate_steady.
  - apply steady_after, ReArm_steady.
  - apply steady_after. unfold ReconcileVerifiedPolicy. eauto with moves.
  - apply steady_after, FailSafe_steady.
  - apply steady_after, EmergencyStop_steady.
  - apply Clear_sound.
  - apply steady_after. unfold Release_Status. moves_solve.
  - apply steady_after. unfold Readiness. moves_solve.
Qed.

(** ** Reachable states *)

(** Other components publish into the state, change settings and files; the
    modes and the status of the controller are the controller's own. *)
Definition env_step y y' : Prop := posture y' = posture y /\ hook_ok (y_ctl y').

Inductive reachable : sys -> Prop :=
| reach_new y0 a y : hook_ok (y_ctl y0) -> NewReleaseController y0 = Some (a, y) -> reachable y
| reach_op y o a y' : reachable y -> run o y = Some (a, y') -> reachable y'
| reach_env y y' : reachable y -> env_step y y' -> reachable y'.

Lemma kept_frozen y y' : kept y y' -> frozen (y_ctl y') = frozen (y_ctl y).
Proof. intros [Hc _ _ _ _]. by rewrite Hc. Qed.
Definition rests y y' : Prop := hook_ok (y_ctl y) -> frozen (y_ctl y') = frozen (y_ctl y).
#[export] Instance rests_preorder : PreOrder rests.
Proof.
  split; [by intros ? ?|]. intros y1 y2 y3 H1 H2 HO. rewrite <- (H1 HO). apply H2. by eapply hook_frozen; [apply H1|].
Qed.
Lemma retains_rests {A} (m : M sys A) : moves retains m -> moves rests m.
Proof. intros H. eapply moves_weaken; [exact H|]. intros y y' [HF _ _] _. done. Qed.
Lemma reconcile_rests e : moves rests (reconcileLocked (L := L) (K := K) (X := X) e).
Proof. intros y a y' H HO. by apply kept_frozen, (reconcile_kept e y a). Qed.
Hint Resolve retains_rests reconcile_rests enter_phase_retains : moves.
Hint Extern 1 (moves rests status) => unfold status; apply moves_gets, _ : moves.

(** No operation changes the configuration or the hook of the controller. *)
Lemma run_rests o : moves rests (run o).
Proof.
  destruct o; cbn [run]; unfold ignore, ReconcileVerifiedPolicy;
    try (apply retains_rests; pose proof Evaluate_retains; pose proof ObserveCore_retains; pose proof ReArm_retains;
         pose proof FailSafe_retains; pose proof EmergencyStop_retains; pose proof Status_retains;
         pose proof Readiness_retains; moves_solve; fail).
  - unfold Transition. moves_solve.
  - unfold InitializeStartup, initializeObserveLocked, retain_at_startup. moves_solve.
  - unfold ClearEmergencyStop, clear_tail. moves_solve.
Qed.

Lemma new_sound y0 a y : hook_ok (y_ctl y0) -> NewReleaseController y0 = Some (a, y) -> sound y /\ hook_ok (y_ctl y).
Proof.
  intros HO H. unfold NewReleaseController in H. apply bind_inv in H as (m & y1 & H1 & H).
  apply bind_inv in H as (u & y2 & H2 & H). apply modify_inv in H2.
  assert (quiet y2 y) as HQ.
  { eapply moves_bind; [apply _| | |exact H]; [apply refresh_quiet|intros; apply publish_quiet]. }
  apply now_mono_still in H1 as (Hc & _ & _ & _ & _ & _).
  split.
  - eapply sound_poised; [by apply quiet_poised|]. subst y2.
    eapply sound_from; [reflexivity|]. cbn. split_and!; naive_solver.
  - apply quiet_inv in HQ as (HF & _). subst y2. cbn in HF. eapply hook_frozen; [|exact HO].
    rewrite HF, Hc. done.
Qed.

Lemma reachable_sound y : reachable y -> sound y /\ hook_ok (y_ctl y).
Proof.
  induction 1 as [y0 a y HO H|y o a y' _ [IH HO] H|y y' _ [IH _] [HP HO]].
  - by eapply new_sound.
  - split; [by eapply run_sound|]. eapply hook_frozen; [|exact HO]. by eapply run_rests.
  - split; [by eapply sound_poised|done].
Qed.

(** C14: in every state the controller can be in, enforcing means verified. The
    phase is one of the four; when it is enforce, the kernel policy state is
    verified-enforce, the fail-safe is verified and both modes are enforce; a
    verified fail-safe always names a verified kernel state; and a
    verified-enforce kernel always goes with the enforce mode. It holds for
    every sequence of operations, with any failing call in between and with
    any change by the other components. *)
Theorem enforce_is_verified y : reachable y ->
  phase y ∈ [ReleasePhaseObserve; ReleasePhaseCanary; ReleasePhaseEnforce; ReleasePhaseDegraded] /\
  (phase y = ReleasePhaseEnforce -> kernel_state y = "verified-enforce" /\ verified y = true /\
     Modes (y_state y) = ("enforce", "enforce")) /\
  (verified y = true -> kernelPolicyVerified (kernel_state y) = true) /\
  (kernel_state y = "verified-enforce" -> (Modes (y_state y)).1 = "enforce").
Proof.
  intros [[Hp He _ Hv Hm] _]%reachable_sound. split_and!; [done| |done|done].
  intros HE. destruct (He HE) as (Hk & Hver & Hx). split_and!; [done..|]. unfold Modes. rewrite Hx, Hm by done. done.
Qed.
End Facts.
#[export] Hint Resolve set_modes_retains with_status_retains quiet_moves refresh_quiet stamp_quiet mint_quiet refuse_still
  reconcileVerified_retains markDegraded_retains degrade_retains trackNominal_quiet enter_enforce_retains
  recover_retains marker_write_quiet marker_remove_quiet retain_at_startup_retains enter_phase_retains : moves.
#[export] Hint Extern 1 (moves retains status) => unfold status; apply moves_gets, _ : moves.
