(* ===== verification/ReleaseSafety.v ===== *)
(** * The release controller: retention, gates, latches and liveness *)

From Stdlib Require Import ZArith Lia Ascii String.
From stdpp Require Import base gmap strings list sorting.
From S2P Require Import Prelude.
From S2P Require Import GoLib.
From S2P Require Import Text.
From S2P Require Import World.
From S2P Require Import Storage.
From S2P Require Import Policy.
From S2P Require Import Evidence.
From S2P Require Import NetIP.
From S2P Require Import Exec.
From S2P Require Import State.
From S2P Require Import Snapshot.
From S2P Require Import Release.
From S2P Require Import ReleaseFrames.
From S2P Require Import ReleaseFacts.

Section Safety.
Context {L K X : Type} `{SK : !Sinks L K X} `{QS : !QuietSinks L K X} `{CC : !CoreClient X} `{CL : !CoreLaws X}
  `{U : Unicode} `{C : Crypto} `{ED : Policy.Ed25519} `{JE : JSONDoc encryptedStorageEnvelope} `{EP : !EnvelopeProbe}
  `{JP : JSONDoc PolicyEnvelope} `{JD : JSONDoc PolicyDocument} `{JF : JSONDoc policyFloorDocument}.
Abbreviation sys := (Sys L K X).
Implicit Types (y : sys).

(** ** Retention *)

(** The operations that may release kernel blocks: the operator's return to
    observe, a promotion while the kernel does not carry a verified
    enforcement, the clearing of an emergency stop, and a start from a verified
    policy that does not enforce. *)
Definition may_release y (o : op) : Prop :=
  match o with
  | OpTransition t _ _ => ToLower (TrimSpace t) = ReleasePhaseObserve \/ kernel_state y <> "verified-enforce"
  | OpStartup e v => v = true /\ e <> "enforce"
  | OpClear _ _ => True
  | _ => False
  end.

(** The targets the hook of a reconciliation may withdraw during [o]: only a
    transition runs it, and only what the threat feeds own is at its disposal. *)
Definition feed_reach y (o : op) (t : string) : Prop :=
  match o with OpTransition _ _ _ => t ∈ owned y | _ => False end.

(** Retention of what the feeds do not own. *)
Record keeps y y' : Prop := {
  kp_frozen : frozen (y_ctl y') = frozen (y_ctl y);
  kp_keyed : keyed (y_state y) -> keyed (y_state y');
  kp_owned : owned y' ⊆ owned y;
  kp_held : forall t, held y t -> t ∉ owned y -> held y' t;
}.
#[export] Instance keeps_preorder : PreOrder keeps.
Proof. split; [by constructor|]. intros ? ? ? [] []. constructor; [congruence|auto|set_solver|]. intros t Ht Hn. set_solver. Qed.
Lemma quiet_keeps y y' : quiet y y' -> keeps y y'.
Proof.
  intros HQ. pose proof (quiet_retains _ _ HQ) as []. apply quiet_inv in HQ as (_ & _ & _ & _ & _ & _ & _ & HW).
  constructor; [done|done| |by auto]. unfold owned. by rewrite HW.
Qed.

Lemma reconcile_enforce_keeps y e y' : hook_ok (y_ctl y) -> keyed (y_state y) ->
  reconcileLocked (L := L) (K := K) (X := X) "enforce" y = Some (e, y') -> keeps y y'.
Proof.
  intros HO HK H. pose proof (reconcile_kept _ _ _ _ HO H) as HC. apply reconcile_enforce in H as (Hh & Ho & _); [|done..].
  constructor; [by apply kept_frozen|apply (k_keyed _ _ HC)|done|done].
Qed.

Lemma transition_core_keeps t r st x y a y' : hook_ok (y_ctl y) -> keyed (y_state y) ->
  transition_core (L := L) (K := K) (X := X) t r st "enforce" "enforce" x y = Some (a, y') ->
  forall u, held y u -> u ∉ owned y -> held y' u.
Proof.
  intros HO HK H u Hu Hn. unfold transition_core in H. apply bind_inv in H as (err & y1 & H1 & H).
  apply reconcile_enforce_keeps in H1; [|done..].
  assert (forall z, keeps y z -> retains z y' -> held y' u) as Hend by (intros z Hz HR; by apply HR, Hz).
  destruct err as [e|]; [apply (Hend y1); [done|]; by apply quiet_retains, still_quiet; eapply refuse_still|].
  apply bind_inv in H as (err & y2 & H2 & H). apply persist_quiet, quiet_keeps in H2.
  assert (keeps y y2) as HR by by transitivity y1. destruct err as [e|].
  - apply bind_inv in H as (rb & y3 & H3 & H). apply reconcile_enforce_keeps in H3;
      [|eapply hook_frozen; [apply (kp_frozen _ _ HR)|done]|by apply (kp_keyed _ _ HR)].
    apply (Hend y3); [by transitivity y2|]. destruct rb as [rb|]; [|by apply quiet_retains, still_quiet; eapply refuse_still].
    by_moves H.
  - apply (Hend y2); [done|]. by_moves H.
Qed.


(** ** The gates *)

(** The emergency-stop marker is there ([os.Stat] follows a symbolic link). *)
Definition marker_set y : Prop := exists i,
  w_fs (y_w y) !! rg_EmergencyStopFile (rc_cfg (y_ctl y)) = Some i /\
  (i_kind i = Symlink -> is_Some (w_fs (y_w y) !! i_data i)).

Lemma os_Stat_marker path (w : world X) i r w' : w_fs w !! path = Some i ->
  (i_kind i = Symlink -> is_Some (w_fs w !! i_data i)) -> os_Stat path w = (r, w') -> emergency_gate r <> [].
Proof.
  intros Hi Hl H. unfold os_Stat, os_Lstat, World.sys in H. destruct (o_fault (w_oracle w) (w_tick w)); cbn in H.
  - simplify_eq. done.
  - rewrite Hi in H. case_decide as Hk; [|simplify_eq; done]. destruct (Hl Hk) as [j Hj]. rewrite Hj in H. by simplify_eq.
Qed.

Lemma currentBlockers_inv t d y bl y' : currentBlockersLocked (L := L) (K := K) (X := X) t d y = Some (bl, y') ->
  exists now now2 stat elapsed, bl = blockers_of (y_ctl y) (snapshot_at now (y_state y)) stat now2 elapsed t d /\
    (marker_set y -> emergency_gate stat <> []).
Proof.
  intros H. unfold currentBlockersLocked in H.
  apply bind_inv in H as (snap & y1 & H1 & H). pose proof (snapshot_still _ _ _ H1) as (Hc1 & Hs1 & _ & Hf1 & _ & _).
  apply bind_inv in H as (c & y2 & H2 & H). apply gets_inv in H2 as [-> ->].
  apply bind_inv in H as (stat & y3 & H3 & H). apply bind_inv in H as (now2 & y4 & H4 & H).
  apply bind_inv in H as (el & y5 & H5 & H). apply ret_inv in H as [-> ->].
  unfold in_state in H1. apply zoom_inv in H1 as ([s w] & H1 & _). unfold State_Snapshot, time_Now in H1.
  injection H1 as <- _ _. exists (o_now (w_oracle (y_w y)) (w_tick (y_w y))), now2, stat, el.
  split; [by rewrite Hc1|]. intros (i & Hi & Hl). unfold on_world in H3. apply zoom_inv in H3 as (w3 & [= H3] & _).
  eapply os_Stat_marker; [| |exact H3]; [by rewrite Hf1, Hc1; exact Hi|]. rewrite Hf1. exact Hl.
Qed.

(** A sensor whose failure closes the gate: required and not the L7 one, which
    is derived from the L7 status. *)
Definition sensor_fit (cov : SensorCoverage) : Prop :=
  sc_Status cov = CoverageOnline \/ sc_Status cov = CoverageNotApplicable.

Lemma required_in_elem P (m : gmap string SensorCoverage) k cov : m !! k = Some cov -> sc_Required cov = true ->
  P (sc_Status cov) = true -> required_in P m <> [].
Proof.
  intros Hm Hr HP He. unfold required_in in He. apply fmap_nil_inv in He.
  assert ((k, cov) ∈ List.filter (fun kv => sc_Required kv.2 && P (sc_Status kv.2)) (map_to_list m)) as Hin.
  { apply list_elem_of_In, filter_In. split; [by apply list_elem_of_In, elem_of_map_to_list|]. cbn. by rewrite Hr, HP. }
  rewrite He in Hin. by apply not_elem_of_nil in Hin.
Qed.

Lemma coverage_online m : cv_OverallStatus (EvaluateCoverage m) <> CoverageOffline ->
  cv_OverallStatus (EvaluateCoverage m) <> CoverageDegraded ->
  forall k cov, m !! k = Some cov -> sc_Required cov = true -> sensor_fit cov.
Proof.
  intros H1 H2 k cov Hk Hr. unfold EvaluateCoverage in *.
  destruct (bool_decide_reflect (required_in is_offline m = [])) as [Ho|Ho]; cbn [negb] in *; [|done].
  destruct (bool_decide_reflect (required_in is_degraded m = [])) as [Hd|Hd]; cbn [negb] in *; [|done].
  unfold sensor_fit. destruct (sc_Status cov) eqn:Hs; auto; exfalso.
  - eapply (required_in_elem is_degraded); eauto. by rewrite Hs.
  - eapply (required_in_elem is_offline); eauto. by rewrite Hs.
  - eapply (required_in_elem is_offline); eauto. by rewrite Hs.
Qed.

(** Everything a promotion to enforce needs, read off the system. *)
Record gates_open y : Prop := {
  go_marker : ~ marker_set y;
  go_policy : rc_requireSigned (y_ctl y) = true -> pst_Verified (st_policy (y_state y)) = true;
  go_evidence : es_Enabled (st_evidenceStatus (y_state y)) = true -> es_Healthy (st_evidenceStatus (y_state y)) = true;
  go_xdr : ru_XDREnabled (rc_runtime (y_ctl y)) = true -> x_Degraded (st_xdr (y_state y)) = false;
  go_core : st_coreConnected (y_state y) = true;
  go_allowlist : ru_ManagementAllowlist (rc_runtime (y_ctl y)) <> [] /\ st_allowlistReady (y_state y) = true;
  go_heartbeat : rs_CoreMisses (rc_status (y_ctl y)) < rg_CoreFailureThreshold (effectiveReleaseConfigLocked (y_ctl y));
  go_sensors : forall k cov, st_sensors (y_state y) !! k = Some cov -> k <> "l7_application" ->
    sc_Required cov = true -> sensor_fit cov;
  go_kernel : phase y = ReleasePhaseDegraded -> verified y = true /\ kernelPolicyVerified (kernel_state y) = true;
}.

Lemma when_nil {A} b (x : A) : when b x = [] -> b = false.
Proof. by destruct b. Qed.

Lemma snapshot_fields now (s : State L K) :
  sn_Policy (snapshot_at now s) = st_policy s /\ sn_Evidence (snapshot_at now s) = st_evidenceStatus s /\
  x_Degraded (sn_XDR (snapshot_at now s)) = x_Degraded (st_xdr s) /\
  sn_CoreConnected (snapshot_at now s) = st_coreConnected s /\ sn_AllowlistReady (snapshot_at now s) = st_allowlistReady s.
Proof. split_and!; try reflexivity. unfold snapshot_at. cbn. by destruct (negb _ && _). Qed.

Lemma snapshot_coverage now (s : State L K) : exists l7,
  sn_Coverage (snapshot_at now s) = EvaluateCoverage (<["l7_application" := l7]> (st_sensors s)).
Proof. eexists. reflexivity. Qed.

Lemma blockers_open now now2 stat elapsed d y :
  (marker_set y -> emergency_gate stat <> []) ->
  blockers_of (y_ctl y) (snapshot_at now (y_state y)) stat now2 elapsed ReleasePhaseEnforce d = [] -> gates_open y.
Proof.
  intros Hm H. unfold blockers_of in H. cbv zeta in H.
  destruct (snapshot_fields now (y_state y)) as (Fp & Fe & Fx & Fc & Fa). rewrite Fp, Fe, Fx, Fc in H.
  repeat match type of H with _ ++ _ = [] => let E := fresh "E" in apply app_eq_nil in H as [E H] end.
  rewrite bool_decide_eq_true_2 in E7 by done. unfold enforce_gates in E7. rewrite Fa in E7. apply app_eq_nil in E7 as [Ea Ec].
  unfold kernel_state_gates in E11. apply app_eq_nil in E11 as [Ek1 Ek2].
  repeat match goal with E : when _ _ = [] |- _ => apply when_nil in E end.
  destruct (snapshot_coverage now (y_state y)) as [l7 Hcov]. rewrite Hcov in Ec. apply orb_false_iff in Ec as [Ec1 Ec2].
  apply bool_decide_eq_false in Ec1, Ec2. pose proof (coverage_online _ Ec1 Ec2) as Hfit.
  constructor.
  - intros HM. by apply Hm in HM.
  - intros Hr. rewrite Hr in E0. by apply negb_false_iff in E0.
  - intros Hr. rewrite Hr in E1. by apply negb_false_iff in E1.
  - intros Hr. by rewrite Hr in E2.
  - by apply negb_false_iff in E6.
  - destruct (ru_ManagementAllowlist _); [done|]. split; [done|]. apply when_nil in Ea. by apply negb_false_iff in Ea.
  - by apply Z.leb_gt in E9.
  - intros k cov Hk Hne. apply Hfit with k. by rewrite lookup_insert_ne.
  - unfold phase, verified, kernel_state. intros Hp. rewrite Hp in Ek2.
    rewrite (bool_decide_eq_true_2 (ReleasePhaseDegraded = ReleasePhaseDegraded)), orb_true_r in Ek2 by done. cbn [andb] in Ek2. apply orb_false_iff in Ek2 as [K1 K2].
    by apply negb_false_iff in K1, K2.
Qed.

Lemma gate_open d y y' : currentBlockersLocked (L := L) (K := K) (X := X) ReleasePhaseEnforce d y = Some ([], y') -> gates_open y.
Proof. intros (now & now2 & stat & el & Hb & Hm)%currentBlockers_inv. by eapply blockers_open. Qed.

(** The gates read the published state, the configuration and the status;
    recording the time of the calm does not move them. *)
Lemma gates_same y y' : y_state y' = y_state y -> w_fs (y_w y') = w_fs (y_w y) -> frozen (y_ctl y') = frozen (y_ctl y) ->
  rs_CoreMisses (rc_status (y_ctl y')) = rs_CoreMisses (rc_status (y_ctl y)) -> phase y' = phase y ->
  verified y' = verified y -> kernel_state y' = kernel_state y -> gates_open y -> gates_open y'.
Proof.
  intros Hs Hf HF Hc Hp Hv Hk [].
  assert (rc_cfg (y_ctl y') = rc_cfg (y_ctl y)) as F1 by exact (f_equal rc_cfg HF).
  assert (rc_requireSigned (y_ctl y') = rc_requireSigned (y_ctl y)) as F2 by exact (f_equal rc_requireSigned HF).
  assert (rc_runtime (y_ctl y') = rc_runtime (y_ctl y)) as F3 by exact (f_equal rc_runtime HF).
  constructor; unfold marker_set, effectiveReleaseConfigLocked in *; rewrite ?Hs, ?Hf, ?F1, ?F2, ?F3, ?Hc, ?Hp, ?Hv, ?Hk; done.
Qed.

(** *** Who can arm *)

(** The phase stays, or falls to observe or degraded. *)
Definition unarmed y y' : Prop :=
  phase y' = phase y \/ phase y' = ReleasePhaseObserve \/ phase y' = ReleasePhaseDegraded.
#[export] Instance unarmed_preorder : PreOrder unarmed.
Proof.
  split; [by left|]. intros y1 y2 y3 H1 [H2|H2]; [|by right]. unfold unarmed in *. by rewrite H2.
Qed.
(** The kernel is untouched. *)
Definition grounded y y' : Prop := w_ext (y_w y') = w_ext (y_w y).
#[export] Instance grounded_preorder : PreOrder grounded.
Proof. split; [by intros ?|]. unfold grounded. intros ? ? ? H1 H2. congruence. Qed.

Lemma quiet_unarmed {A} (m : M sys A) : moves quiet m -> moves unarmed m.
Proof. intros H. eapply moves_weaken; [exact H|]. intros y y' (_ & Hp & _)%quiet_inv. by left. Qed.
Lemma quiet_grounded {A} (m : M sys A) : moves quiet m -> moves grounded m.
Proof. intros H. eapply moves_weaken; [exact H|]. intros y y' HQ. apply quiet_inv in HQ. unfold grounded. naive_solver. Qed.
Lemma on_state_unarmed f : moves unarmed (on_state (L := L) (K := K) (X := X) f).
Proof. intros y a y' H. unfold on_state, in_state in H. apply zoom_inv in H as ([s w] & _ & ->). by left. Qed.
Lemma on_state_grounded f : moves grounded (on_state (L := L) (K := K) (X := X) f).
Proof. intros y a y' H. unfold on_state, in_state in H. by apply zoom_inv in H as ([s w] & [= <- <- <-] & ->). Qed.
Lemma in_state_unarmed {A} (m : M (State L K * world X) A) : moves unarmed (in_state m).
Proof. intros y a y' H. unfold in_state in H. apply zoom_inv in H as ([s w] & _ & ->). by left. Qed.
Lemma on_world_unarmed {A} (f : world X -> A * world X) : moves unarmed (on_world (L := L) (K := K) f).
Proof. intros y a y' H. unfold on_world in H. apply zoom_inv in H as (w & _ & ->). by left. Qed.
Lemma core_unarmed f : moves unarmed (core_call (L := L) (K := K) (X := X) f).
Proof. apply on_world_unarmed. Qed.
Hint Resolve quiet_unarmed quiet_grounded on_state_unarmed on_state_grounded in_state_unarmed on_world_unarmed core_unarmed : moves.
Hint Extern 1 (moves unarmed status) => unfold status; apply moves_gets, _ : moves.
Hint Extern 2 (moves unarmed (with_status _)) => apply moves_modify; intros; first [by left|by right; left|by right; right] : moves.
Hint Extern 2 (moves grounded (with_status _)) => apply moves_modify; intros; reflexivity : moves.

Lemma rollback_unarmed ts : moves unarmed (rollback_applied (L := L) (K := K) (X := X) ts).
Proof. induction ts; cbn [rollback_applied]; moves_solve. Qed.
Hint Resolve rollback_unarmed : moves.
Lemma apply_unarmed bs ts : moves unarmed (apply_blocks (L := L) (K := K) (X := X) ts bs).
Proof. revert ts. induction bs; intros ts; cbn [apply_blocks]; moves_solve. Qed.
Lemma confirm_unarmed bs : moves unarmed (confirm_blocks (L := L) (K := K) (X := X) bs).
Proof. induction bs; cbn [confirm_blocks]; moves_solve. Qed.
Hint Resolve apply_unarmed confirm_unarmed : moves.
Lemma reconcile_unarmed e : moves unarmed (reconcileLocked (L := L) (K := K) (X := X) e).
Proof. unfold reconcileLocked, notifyKernelReconciledLocked, clear_flags. moves_solve. Qed.
Lemma reconcileVerified_unarmed : moves unarmed (reconcileVerifiedLocked (L := L) (K := K) (X := X)).
Proof. unfold reconcileVerifiedLocked. moves_solve. Qed.
Hint Resolve reconcile_unarmed reconcileVerified_unarmed : moves.
Lemma markDegraded_unarmed r k v : moves unarmed (markDegradedLocked (L := L) (K := K) (X := X) r k v).
Proof. unfold markDegradedLocked. moves_solve. Qed.
Hint Resolve markDegraded_unarmed : moves.
Lemma degrade_unarmed r : moves unarmed (degradeLocked (L := L) (K := K) (X := X) r).
Proof. unfold degradeLocked. moves_solve. Qed.
Hint Resolve degrade_unarmed : moves.

(** Transition, evaluation and re-arming are the only operations that can. *)
Lemma run_unarmed o : match o with OpTransition _ _ _ | OpEvaluate | OpReArm _ => True | _ => moves unarmed (run o) end.
Proof.
  destruct o; try done; cbn [run]; unfold ignore, InitializeStartup, initializeObserveLocked, retain_at_startup,
    ObserveCore, ReconcileVerifiedPolicy, FailSafe, EmergencyStop, ClearEmergencyStop, clear_tail, Release_Status,
    Readiness; moves_solve.
Qed.

(** Only times were recorded. *)
Definition watching y y' : Prop :=
  y_state y' = y_state y /\ w_fs (y_w y') = w_fs (y_w y) /\ frozen (y_ctl y') = frozen (y_ctl y) /\
  rs_CoreMisses (rc_status (y_ctl y')) = rs_CoreMisses (rc_status (y_ctl y)) /\ phase y' = phase y /\
  verified y' = verified y /\ kernel_state y' = kernel_state y.
#[export] Instance watching_preorder : PreOrder watching.
Proof. split; [by intros ?|]. unfold watching. intros ? ? ? H1 H2. intuition congruence. Qed.
Lemma watching_gates y y' : watching y y' -> gates_open y' -> gates_open y.
Proof. intros (H1 & H2 & H3 & H4 & H5 & H6 & H7). by apply gates_same. Qed.
Lemma still_watches y y' : still y y' -> watching y y'.
Proof. intros (H1 & H2 & _ & H3 & _). unfold watching, phase, verified, kernel_state. by rewrite H1, H2, H3. Qed.
Lemma still_watching {A} (m : M sys A) : moves still m -> moves watching m.
Proof. intros H. eapply moves_weaken; [exact H|apply still_watches]. Qed.
Hint Resolve still_watching : moves.
Hint Extern 1 (moves watching status) => unfold status; apply moves_gets, _ : moves.
Hint Extern 2 (moves watching (with_status _)) => apply moves_modify; intros; repeat split : moves.
Hint Extern 2 (moves watching (modify _)) => apply moves_modify; intros; repeat split : moves.
Lemma trackNominal_watching : moves watching (trackNominalLocked (L := L) (K := K) (X := X)).
Proof. unfold trackNominalLocked, markNominalLocked. moves_solve. Qed.

(** The whole gate list of the enforce phase was read as empty, on a system
    that differs from [y] in recorded times only. *)
Definition passed_gates y (duration : bool) : Prop := exists y1 y2,
  watching y y1 /\ currentBlockersLocked (L := L) (K := K) (X := X) ReleasePhaseEnforce duration y1 = Some ([], y2).
Lemma passed_watching y1 y2 d : watching y1 y2 -> passed_gates y2 d -> passed_gates y1 d.
Proof. intros HW (z1 & z2 & H1 & H2). exists z1, z2. split; [by transitivity y2|done]. Qed.

(** What arming the platform requires and leaves behind. *)
Definition armed_from y y' : Prop := gates_open y /\ passed_gates y false /\
  forall t b, st_blocks (y_state y) !! t = Some b -> b_Enforced b = true \/ t ∈ kern y'.

Lemma armed_watching y1 y2 y' : watching y1 y2 -> armed_from y2 y' -> armed_from y1 y'.
Proof.
  intros HW (HG & HP & HB). pose proof HW as (Hs & _). rewrite Hs in HB.
  split_and!; [by eapply watching_gates|by eapply passed_watching|done].
Qed.
Lemma armed_grounded y y1 y' : armed_from y y1 -> grounded y1 y' -> armed_from y y'.
Proof. intros (HG & HP & HB) HW. split_and!; [done..|]. unfold kern in *. by rewrite HW. Qed.

(** A passed gate followed by a confirmed reconciliation arms. *)
Lemma gate_then_confirm y y1 y2 : keyed (y_state y) ->
  currentBlockersLocked (L := L) (K := K) (X := X) ReleasePhaseEnforce false y = Some ([], y1) ->
  reconcileVerifiedLocked y1 = Some (None, y2) -> armed_from y y2.
Proof.
  intros HK HG HR. split_and!; [by eapply gate_open|by exists y, y1|]. intros t b Hb. right.
  apply currentBlockers_still in HG as (_ & Hs & _). rewrite <- Hs in Hb, HK.
  pose proof (reconcileVerified_hardens _ _ _ HR) as [[[_ _ _ _ HD] _] _].
  apply (reconcileVerified_in _ _ HK HR). rewrite HD. by apply elem_of_dom_2 in Hb.
Qed.

Lemma enter_enforce_grounded s : moves grounded (enter_enforce (L := L) (K := K) (X := X) s).
Proof. unfold enter_enforce. moves_solve. Qed.
Hint Resolve enter_enforce_grounded : moves.

Lemma recover_arms y a y' : keyed (y_state y) -> recoverIfGatesPassLocked (L := L) (K := K) (X := X) y = Some (a, y') ->
  unarmed y y' \/ armed_from y y'.
Proof.
  intros HK H. unfold recoverIfGatesPassLocked in H. apply bind_inv in H as (st & y0 & H0 & H).
  unfold status in H0. apply gets_inv in H0 as [-> ->].
  destruct (negb _ || _); [left; by_moves H|]. destruct (negb _ || _); [left; by_moves H|].
  apply bind_inv in H as (c & y0 & H0 & H). apply gets_inv in H0 as [-> ->].
  destruct (rs_NominalSince _); [|left; by_moves H]. apply bind_inv in H as (el & y1 & H1 & H).
  apply nominalElapsed_still in H1. pose proof H1 as (Hc & Hs & _). apply still_watches in H1.
  assert (unarmed y y1) as HU by (left; unfold phase; by rewrite Hc).
  destruct (el <? _); [left; transitivity y1; [done|by_moves H]|].
  apply bind_inv in H as (bl & y2 & H2 & H). pose proof (currentBlockers_still _ _ _ _ _ H2) as (Hc2 & _).
  assert (unarmed y y2) as HU2 by (left; unfold phase; by rewrite Hc2, Hc).
  case_bool_decide as Hbl; cbn [negb] in H; [|left; transitivity y2; [done|by_moves H]]. subst bl.
  apply bind_inv in H as (err & y3 & H3 & H). destruct err as [e|].
  - left. transitivity y2; [done|]. apply reconcileVerified_unarmed in H3. etransitivity; [exact H3|]. by_moves H.
  - right. eapply armed_watching; [exact H1|]. rewrite <- Hs in HK.
    eapply armed_grounded; [by eapply gate_then_confirm|]. by_moves H.
Qed.

Lemma Evaluate_arms y a y' : keyed (y_state y) -> Evaluate (L := L) (K := K) (X := X) y = Some (a, y') ->
  unarmed y y' \/ armed_from y y'.
Proof.
  intros HK H. unfold Evaluate in H. apply bind_inv in H as (s0 & y0 & H0 & H). apply get_inv in H0 as [-> ->].
  apply bind_inv in H as (u & y1 & H1 & H).
  assert (unarmed y1 y') as HU by by_moves H. assert (grounded y1 y') as HG by by_moves H.
  destruct (_ || _ || _); [|left; transitivity y1; [by_moves H1|done]].
  apply bind_inv in H1 as (u2 & y2 & H2 & H1). apply trackNominal_watching in H2. pose proof H2 as (Hs & _ & _ & _ & Hp & _).
  apply recover_arms in H1 as [HU1|HA]; [left|right|by rewrite Hs].
  - transitivity y2; [by left|]. by transitivity y1.
  - eapply armed_watching; [exact H2|]. by eapply armed_grounded.
Qed.

Lemma ReArm_arms r y a y' : keyed (y_state y) -> ReArmVerified (L := L) (K := K) (X := X) r y = Some (a, y') ->
  unarmed y y' \/ armed_from y y'.
Proof.
  intros HK H. unfold ReArmVerified in H. apply bind_inv in H as (st & y0 & H0 & H).
  unfold status in H0. apply gets_inv in H0 as [-> ->].
  destruct (rs_EmergencyStop _); [left; by_moves H|]. case_bool_decide; [left; by_moves H|].
  destruct (negb _ || _); [left; by_moves H|].
  apply bind_inv in H as (bl & y2 & H2 & H). pose proof (currentBlockers_still _ _ _ _ _ H2) as (Hc2 & _).
  assert (unarmed y y2) as HU2 by (left; unfold phase; by rewrite Hc2).
  case_bool_decide as Hbl; cbn [negb] in H; [|left; transitivity y2; [done|by_moves H]]. subst bl.
  apply bind_inv in H as (err & y3 & H3 & H). destruct err as [e|].
  - left. transitivity y2; [done|]. apply reconcileVerified_unarmed in H3. etransitivity; [exact H3|]. by_moves H.
  - right. eapply armed_grounded; [by eapply gate_then_confirm|]. by_moves H.
Qed.

Lemma transition_core_arms t r st o x y a y' : hook_ok (y_ctl y) -> keyed (y_state y) ->
  transition_core (L := L) (K := K) (X := X) t r st o "enforce" x y = Some (a, y') ->
  unarmed y y' \/
  phase y' = t /\ forall t b, st_blocks (y_state y) !! t = Some b -> b_Enforced b = true \/ t ∈ owned y \/ t ∈ kern y'.
Proof.
  intros HO HK H. unfold transition_core in H. apply bind_inv in H as (err & y1 & H1 & H).
  pose proof (reconcile_unarmed _ _ _ _ H1) as HU1. apply reconcile_enforce in H1 as (_ & _ & Hin); [|done..].
  destruct err as [e|]; [left; transitivity y1; [done|by_moves H]|]. specialize (Hin eq_refl).
  apply bind_inv in H as (err & y2 & H2 & H). apply persist_quiet in H2.
  apply quiet_inv in H2 as (_ & Hp2 & _ & _ & _ & _ & _ & HX2).
  assert (unarmed y y2) as HU2 by (transitivity y1; [done|by left]).
  destruct err as [e|]; [left; transitivity y2; [done|by_moves H]|]. right.
  apply bind_inv in H as (u & y3 & H3 & H).
  assert (grounded y2 y3) as HG by (clear -H3 QS; unfold enter_phase in H3; by_moves H3).
  apply enter_phase_posture, posture_inv in H3 as (Hp3 & _).
  assert (quiet y3 y') as HQ by by_moves H. apply quiet_inv in HQ as (_ & Hp & _ & _ & _ & _ & _ & HX).
  split; [by rewrite Hp|]. intros t' b Hb. destruct (Hin _ _ Hb) as [He|[Hw|Hk]]; [by left|by right; left|right; right].
  unfold kern, grounded in *. by rewrite HX, HG, HX2.
Qed.

Lemma transition_other t r st o e x y a y' :
  transition_core (L := L) (K := K) (X := X) t r st o e x y = Some (a, y') -> unarmed y y' \/ phase y' = t.
Proof.
  intros H. unfold transition_core in H. apply bind_inv in H as (err & y1 & H1 & H). apply reconcile_unarmed in H1.
  destruct err as [er|]; [left; etransitivity; [exact H1|]; by_moves H|].
  apply bind_inv in H as (err & y2 & H2 & H). apply persist_quiet in H2. apply quiet_inv in H2 as (_ & Hp2 & _).
  assert (unarmed y y2) as HU by (transitivity y1; [done|by left]).
  destruct err as [er|]; [left; etransitivity; [exact HU|]; by_moves H|]. apply bind_inv in H as (u & y3 & H3 & H).
  apply enter_phase_posture, posture_inv in H3 as (Hp3 & _).
  assert (quiet y3 y') as HQ by by_moves H. apply quiet_inv in HQ as (_ & Hp & _). right. by rewrite Hp.
Qed.

Lemma duration_ladder y now now2 stat el :
  blockers_of (y_ctl y) (snapshot_at now (y_state y)) stat now2 el ReleasePhaseEnforce true = [] ->
  phase y = ReleasePhaseCanary /\ seconds (rg_MinimumCanarySeconds (effectiveReleaseConfigLocked (y_ctl y))) <= el.
Proof.
  intros H. unfold blockers_of in H. repeat apply app_eq_nil in H as [_ H]. unfold duration_gate in H.
  rewrite bool_decide_eq_false_2, bool_decide_eq_true_2 in H by done. unfold phase.
  destruct (bool_decide_reflect (rs_Phase (rc_status (y_ctl y)) = ReleasePhaseCanary)) as [Hp|]; cbn [negb] in H; [|done].
  split; [done|]. apply when_nil in H. by apply Z.ltb_ge in H.
Qed.


(** ** The emergency stop *)

Lemma marker_blocks t d y bl y' : marker_set y ->
  currentBlockersLocked (L := L) (K := K) (X := X) t d y = Some (bl, y') -> bl <> [].
Proof.
  intros HM (n1 & n2 & stat & el & -> & Hm)%currentBlockers_inv H. unfold blockers_of in H.
  apply app_eq_nil in H as [H _]. by apply Hm in HM.
Qed.

Lemma marked_unarmed y o a y' : reachable y -> keyed (y_state y) -> marker_set y -> run o y = Some (a, y') -> unarmed y y'.
Proof.
  intros _ HK HM H. pose proof (run_unarmed o) as HU. destruct o; cbn [run] in *; unfold ignore in H; try by eapply HU.
  - run_inv H. apply Transition_inv in Hrun as [HQ|(y1 & e & x & HS1 & _ & _ & _ & [Hg|Hg] & H)].
    + apply quiet_inv in HQ as (_ & Hp & _). by left.
    + apply transition_other in H as [HU'|Hp]; [|right; left; congruence].
      transitivity y1; [|done]. left. destruct HS1 as (Hc & _). unfold phase. by rewrite Hc.
    + by apply marker_blocks in Hg.
  - apply Evaluate_arms in H as [?|[[] _]]; done.
  - run_inv H. apply ReArm_arms in Hrun as [?|[[] _]]; done.
Qed.

(** Operations and changes by others while the marker file stands. *)
Inductive marked_run : sys -> sys -> Prop :=
| mr_done y : marked_run y y
| mr_op y o a y1 y2 : marker_set y -> keyed (y_state y) -> run o y = Some (a, y1) -> marked_run y1 y2 -> marked_run y y2
| mr_env y y1 y2 : env_step y y1 -> marked_run y1 y2 -> marked_run y y2.

Definition standing_down y : Prop := phase y = ReleasePhaseObserve \/ phase y = ReleasePhaseDegraded.

Lemma marked_run_down y y' : marked_run y y' -> reachable y -> standing_down y -> standing_down y'.
Proof.
  induction 1 as [|y o a y1 y2 HM HK Hrun _ IH|y y1 y2 He _ IH]; intros HR HS; [done| |].
  - apply IH; [by eapply reach_op|]. apply marked_unarmed in Hrun; [|done..]. unfold standing_down in *. 
    destruct Hrun as [Hp|?]; [by rewrite Hp|naive_solver].
  - apply IH; [by eapply reach_env|]. destruct He as [HP _].
    apply posture_inv in HP as (Hp & _). unfold standing_down in *. by rewrite Hp.
Qed.

Lemma publish_ctl y a y' : publish (L := L) (K := K) (X := X) y = Some (a, y') -> y_ctl y' = y_ctl y.
Proof.
  unfold publish, status, on_state, in_state. intros H. run_inv H. by apply zoom_inv in H as ([s w] & _ & ->).
Qed.
Lemma refuse_inv e y st e' y' : refuse (L := L) (K := K) (X := X) e y = Some ((st, e'), y') ->
  e' = e /\ st = rc_status (y_ctl y) /\ y' = y.
Proof. unfold refuse, status. intros H. run_inv H. by simplify_eq. Qed.

Lemma EmergencyStop_down f r y st y1 : EmergencyStop (L := L) (K := K) (X := X) f r y = Some ((st, None), y1) ->
  fallen (posture y1) /\ rs_EmergencyStop st = true.
Proof.
  intros H. unfold EmergencyStop in H. destruct (negb _); [by apply refuse_inv in H as [? _]|].
  apply bind_inv in H as (c & y2 & _ & H). apply bind_inv in H as (now & y3 & _ & H).
  apply bind_inv in H as (err & y4 & _ & H). destruct err as [e|]; [by apply refuse_inv in H as [? _]|].
  apply bind_inv in H as (de & y5 & H5 & H). apply degrade_ends in H5.
  apply bind_inv in H as (u & y6 & H6 & H). pose proof (with_status_posture _ _ _ _ H6) as HP6. apply modify_inv in H6.
  apply bind_inv in H as (u7 & y7 & H7 & H). pose proof (publish_ctl _ _ _ H7) as Hc7.
  apply publish_quiet, quiet_poised in H7. apply refuse_inv in H as (_ & -> & ->).
  split; [|by rewrite Hc7, H6]. unfold poised in H7. rewrite H7, HP6. exact H5.
Qed.

(** C15: an emergency stop holds. Once [EmergencyStop] reported success, the
    platform is degraded, and as long as the marker file stands no sequence of
    operations (promotions, evaluation, re-arming, restarts of the evaluation)
    and no change by other components brings it to canary or enforce: only the
    removal of the marker can. *)
Theorem emergency_stop_latches f r y st y1 y2 : reachable y ->
  EmergencyStop f r y = Some ((st, None), y1) -> marked_run y1 y2 ->
  rs_EmergencyStop st = true /\ phase y1 = ReleasePhaseDegraded /\
  (phase y2 = ReleasePhaseObserve \/ phase y2 = ReleasePhaseDegraded).
Proof.
  intros HR HE HM. assert (reachable y1) as HR1.
  { eapply (reach_op y (OpEmergencyStop f r) tt); [done|]. cbn [run]. unfold ignore, mbind, M_bind. by rewrite HE. }
  apply EmergencyStop_down in HE as [HF HS]. assert (phase y1 = ReleasePhaseDegraded) as Hp
    by (destruct HF as [H|H]; by apply posture_inv in H as (? & _)).
  split_and!; [done|done|]. eapply marked_run_down; [exact HM|done|]. by right.
Qed.
End Safety.

(** * The release controller: where it differs from its comments *)

Section Findings.
Context {L K X : Type} `{SK : !Sinks L K X} `{QS : !QuietSinks L K X} `{CC : !CoreClient X} `{CL : !CoreLaws X}
  `{U : Unicode} `{C : Crypto} `{ED : Policy.Ed25519} `{JE : JSONDoc encryptedStorageEnvelope} `{EP : !EnvelopeProbe}
  `{JP : JSONDoc PolicyEnvelope} `{JD : JSONDoc PolicyDocument} `{JF : JSONDoc policyFloorDocument}.
Abbreviation sys := (Sys L K X).
Implicit Types (y : sys).

(** The safety soak follows the wall clock after a phase change. The two
    clock readings a phase change takes differ as soon as the clock advanced
    between them; from then on the elapsed time is the wall-clock difference
    whatever the monotonic clock says, so a forward step of the wall clock
    shortens the soak (the comment on [monoSince] says it cannot). *)
Theorem soak_follows_wall_clock y t y' w m :
  (forall n, o_now (w_oracle (y_w y)) n <> o_now (w_oracle (y_w y)) (S n)) ->
  stamp_phase y = Some (t, y') ->
  rs_Since (rc_status (y_ctl y')) = t /\ since_elapsed_at (y_ctl y') (mkGoTime w m) = Time.Sub w t.
Proof.
  intros Hadv H. unfold stamp_phase in H. apply bind_inv in H as (now & y1 & H1 & H).
  unfold now_utc, on_world in H1. apply zoom_inv in H1 as (w1 & [= <- <-] & ->).
  apply bind_inv in H as (u & y2 & H2 & H). apply modify_inv in H2.
  apply bind_inv in H as (mono & y3 & H3 & H). unfold now_mono, on_world in H3. apply zoom_inv in H3 as (w3 & [= <- <-] & ->).
  apply bind_inv in H as (u4 & y4 & H4 & H). apply modify_inv in H4. apply ret_inv in H as [-> ->]. subst y2 y4.
  split; [done|]. unfold since_elapsed_at. cbn. rewrite (proj2 (Z.eqb_neq _ _)), andb_false_r; [|apply Hadv].
  unfold g_Sub. cbn. by destruct m.
Qed.

(** A return to observe that fails half-way is reported as if nothing had
    happened. When the core clears the block list but the empty-state
    verification fails, [Transition] returns an error and leaves the status
    and every Enforced flag as they were: a platform in enforce goes on
    reporting verified-enforce although the kernel holds no block. *)
Theorem observe_half_done confirmation reason y w1 e w2 :
  confirmation = "RETURN:OBSERVE" -> reason_ok reason = true -> rc_core (y_ctl y) = true ->
  phase y <> ReleasePhaseObserve -> core_ClearBlocklist (y_w y) = (None, w1) ->
  core_VerifyBlocklistEmpty w1 = (Some e, w2) ->
  exists y', Transition "observe" confirmation reason y =
    Some ((rc_status (y_ctl y), Some (ErrWrap "kernel blocklist empty-state verification failed" e)), y') /\
  y_ctl y' = y_ctl y /\ y_state y' = y_state y /\ kern y' = kernel (w_ext w1).
Proof.
  intros -> Hr Hc Hp H1 H2. exists (set_w w2 y). split; [|split_and!; [done|done|by apply verify_keeps in H2]].
  assert (ToLower (TrimSpace "observe") = ReleasePhaseObserve) as Ht.
  { change (TrimSpace "observe") with "observe". by rewrite ToLower_ascii. }
  unfold Transition. rewrite Ht. rewrite (bool_decide_eq_true_2 (ReleasePhaseObserve = ReleasePhaseObserve)) by done.
  cbn [negb andb]. rewrite (bool_decide_eq_true_2 ("RETURN:OBSERVE" = _)) by done. rewrite Hr. cbn [negb].
  unfold mbind, M_bind at 1. unfold status, gets. unfold phase in Hp. rewrite bool_decide_eq_false_2 by done.
  assert (retainedEnforcementLocked (y_ctl y) ReleasePhaseObserve "observe" = "observe") as Hre by done.
  assert (releaseModes ReleasePhaseObserve = inr ("observe", "observe")) as Hm by done.
  unfold M_bind. unfold mret, M_ret. rewrite Hm. unfold Modes. cbn beta iota zeta. rewrite Hre.
  unfold reconcileLocked, mbind, M_bind, get. rewrite Hc. cbn [negb]. rewrite bool_decide_eq_false_2 by done.
  unfold core_call, on_world, zoom. rewrite H1. cbn beta iota. cbn [y_w set_w]. rewrite H2. reflexivity.
Qed.

(** The published release status is untouched. *)
Definition unpublished y y' : Prop := st_release (y_state y') = st_release (y_state y).
#[export] Instance unpublished_preorder : PreOrder unpublished.
Proof. split; [by intros ?|]. unfold unpublished. intros ? ? ? H1 H2. congruence. Qed.
Lemma still_unpublished {A} (m : M sys A) : moves still m -> moves unpublished m.
Proof. intros H. eapply moves_weaken; [exact H|]. intros y y' (_ & Hs & _). unfold unpublished. by rewrite Hs. Qed.
Lemma in_state_unpublished {A} (m : M (State L K * world X) A) : moves recorded m -> moves unpublished (in_state m).
Proof.
  intros Hm. eapply moves_zoom; [exact Hm|]. intros y [s w] [HO _]. unfold unpublished. cbn in *.
  exact (f_equal (fun v => v.1.1.1.1.1.1.2) HO).
Qed.
Lemma event_unpublished a b c d : moves unpublished (event (L := L) (K := K) (X := X) a b c d).
Proof. apply in_state_unpublished, AddEvent_recorded. Qed.
Lemma persist_unpublished e x : moves unpublished (persist (L := L) (K := K) (X := X) e x).
Proof. intros y a y' H. unfold persist in H. destruct (Persist _ _ _ _ _ _) as [[? ?] ?]. by simplify_eq. Qed.
Lemma on_state_unpublished f : (forall s, st_release (f s) = st_release s) ->
  moves unpublished (on_state (L := L) (K := K) (X := X) f).
Proof. intros Hf y a y' H. unfold on_state, in_state in H. apply zoom_inv in H as ([s w] & [= <- <- <-] & ->). apply Hf. Qed.
Lemma flag_unpublished t e : moves unpublished (on_state (L := L) (K := K) (X := X) (SetBlockEnforced t e)).
Proof. apply on_state_unpublished. intros s. unfold SetBlockEnforced. by case_match. Qed.
Lemma core_unpublished f : moves unpublished (core_call (L := L) (K := K) (X := X) f).
Proof. intros y a y' H. unfold core_call, on_world in H. by apply zoom_inv in H as (w & _ & ->). Qed.
Hint Resolve still_unpublished event_unpublished persist_unpublished flag_unpublished core_unpublished : moves.
Hint Extern 2 (moves unpublished (with_status _)) => apply moves_modify; intros; reflexivity : moves.
Hint Extern 2 (moves unpublished (modify _)) => apply moves_modify; intros; reflexivity : moves.
Hint Extern 1 (moves unpublished status) => unfold status; apply moves_gets, _ : moves.
Hint Extern 1 (moves unpublished (on_state (SetModes _ _))) => apply on_state_unpublished; done : moves.
Hint Extern 1 (moves unpublished (on_state (SetPolicyStatus _))) => apply on_state_unpublished; done : moves.
Lemma confirm_unpublished bs : moves unpublished (confirm_blocks (L := L) (K := K) (X := X) bs).
Proof. induction bs; cbn [confirm_blocks]; moves_solve. Qed.
Hint Resolve confirm_unpublished : moves.

(** Re-arming is not published. [ReArmVerified] returns the enforcing status
    to its caller but leaves the release status of the shared state as it was,
    so whoever decides by the published phase (the kinetic response does) goes
    on seeing the old one until another operation publishes. *)
Theorem rearm_not_published r y st y' : ReArmVerified r y = Some ((st, None), y') ->
  phase y <> ReleasePhaseEnforce ->
  rs_Phase st = ReleasePhaseEnforce /\ st_release (y_state y') = st_release (y_state y).
Proof.
  intros H Hne. split.
  - unfold ReArmVerified in H. apply bind_inv in H as (st0 & y0 & H0 & H). unfold status in H0. apply gets_inv in H0 as [-> ->].
    destruct (rs_EmergencyStop _); [by apply refuse_inv in H as (? & _)|].
    unfold phase in Hne. rewrite bool_decide_eq_false_2 in H by done.
    destruct (negb _ || _); [by apply refuse_inv in H as (? & _)|].
    apply bind_inv in H as (bl & y1 & _ & H). destruct (negb _); [by apply refuse_inv in H as (? & _)|].
    apply bind_inv in H as (err & y2 & _ & H). destruct err as [e|]; [by apply refuse_inv in H as (? & _)|].
    apply bind_inv in H as (u & y3 & H3 & H). apply enter_enforce_posture, posture_inv in H3 as (Hp & _).
    apply bind_inv in H as (u4 & y4 & H4 & H). apply event_quiet, quiet_inv in H4 as (_ & Hq & _).
    apply refuse_inv in H as (_ & -> & _). unfold phase in *. congruence.
  - assert (moves unpublished (ReArmVerified (L := L) (K := K) (X := X) r)) as HM; [|by eapply HM].
    unfold ReArmVerified, reconcileVerifiedLocked, enter_enforce, stamp_phase, publish_policy. moves_solve.
Qed.
End Findings.
