(* ===== verification/ReleaseLiveness.v ===== *)
(** * The release controller: what it is bound to do

    With no failing call, the operations return; a lost core degrades the
    platform within the configured number of heartbeats, and a platform whose
    cause has cleared returns to enforce by itself. *)

From Stdlib Require Import ZArith Lia Ascii String.
From stdpp Require Import base gmap strings list sorting.
From S2P Require Import Prelude.
From S2P Require Import GoLib.
From S2P Require Import Text.
From S2P Require Import World.
From S2P Require Import Storage.
From S2P Require Import Exec.
From S2P Require Import NetIP.
From S2P Require Import Policy.
From S2P Require Import Evidence.
From S2P Require Import State.
From S2P Require Import Snapshot.
From S2P Require Import Release.
From S2P Require Import ReleaseFrames.
From S2P Require Import ReleaseFacts.
From S2P Require Import ReleaseSafety.

Section Liveness.
Context {L K X : Type} `{SK : !Sinks L K X} `{QS : !QuietSinks L K X} `{CC : !CoreClient X} `{CL : !CoreLaws X}
  `{CO : !CalmOutside L K X}
  `{U : Unicode} `{C : Crypto} `{ED : Policy.Ed25519} `{JE : JSONDoc encryptedStorageEnvelope} `{EP : !EnvelopeProbe}
  `{JP : JSONDoc PolicyEnvelope} `{JD : JSONDoc PolicyDocument} `{JF : JSONDoc policyFloorDocument}.
Abbreviation sys := (Sys L K X).
Implicit Types (y : sys).

Definition calm y : Prop := no_faults (y_w y).
Definition calm_sw (sw : State L K * world X) : Prop := no_faults sw.2.

Lemma in_state_runs {A} (m : M (State L K * world X) A) : runs calm_sw m -> runs calm (in_state m).
Proof. intros H. eapply runs_zoom; [exact H|done|]. by intros y [s w]. Qed.
Lemma on_state_runs f : runs calm (on_state (L := L) (K := K) (X := X) f).
Proof. apply in_state_runs, runs_modify. by intros [s w]. Qed.
Lemma with_status_runs f : runs calm (with_status (L := L) (K := K) (X := X) f).
Proof. apply runs_modify. by intros y. Qed.
Lemma on_world_runs {A} (f : world X -> A * world X) : (forall w, no_faults w -> no_faults (f w).2) ->
  runs calm (on_world (L := L) (K := K) f).
Proof.
  intros Hf. eapply (runs_zoom _ no_faults); [|done|done].
  intros w Hw. destruct (f w) as [a w'] eqn:E. exists a, w'. split; [by f_equal|]. specialize (Hf w Hw). by rewrite E in Hf.
Qed.

Lemma same_calm ps (w w' : world X) : same_but ps w w' -> no_faults w -> no_faults w'.
Proof. intros (HO & _) H n. rewrite HO. apply H. Qed.

Lemma rand_calm n (w : world X) : no_faults w -> exists b, rand_Read n w = (inr b, next_tick w).
Proof. intros H. unfold rand_Read, World.sys. rewrite H. eauto. Qed.
Lemma mint_calm (w : world X) : no_faults w -> exists id, mint w = Some (id, next_tick w).
Proof. intros H. unfold mint, randomID. destruct (rand_calm 8 w H) as [b ->]. eauto. Qed.
Lemma mint_runs : runs calm (zoom (y_w (L := L) (K := K) (X := X)) set_w mint).
Proof.
  eapply (runs_zoom _ no_faults); [|done|done]. intros w Hw. destruct (mint_calm w Hw) as [id E]. exists id, (next_tick w). done.
Qed.

Lemma record_runs r : runs calm_sw (RecordEvidence (L := L) (K := K) (X := X) r).
Proof.
  intros [s w] Hw. unfold RecordEvidence. destruct (st_evidence s) as [l|]; [|by eexists _, _].
  destruct (append_calm (K := K) r l w Hw) as (e & l' & w' & -> & Hw'). eexists _, _; split; [reflexivity|exact Hw'].
Qed.
Lemma AddEvent_runs e : runs calm_sw (AddEvent (L := L) (K := K) (X := X) e).
Proof.
  intros [s w] Hw. unfold AddEvent, fill_event.
  assert (exists id w1, (if bool_decide (ev_ID e = "") then mint w else Some (ev_ID e, w)) = Some (id, w1) /\ no_faults w1)
    as (id & w1 & -> & Hw1).
  { destruct (bool_decide _); [destruct (mint_calm w Hw) as [id ->]|]; eexists _, _; (split; [reflexivity|exact Hw]). }
  cbn [mbind option_bind].
  destruct (if Time.IsZero (ev_Time e) then time_Now w1 else (ev_Time e, w1)) as [t w2] eqn:E.
  assert (no_faults w2) as Hw2 by (destruct (Time.IsZero _); injection E as _ <-; exact Hw1).
  edestruct (record_runs (event_record (mkEvent id t (ev_Severity e) (ev_Kind e) (ev_Source e) (ev_Message e) (ev_Target e))) (s, w2))
    as (err & [s3 w3] & -> & Hw3); [exact Hw2|]. eexists _, _; split; [reflexivity|exact Hw3].
Qed.
Lemma AddIncident_runs i : runs calm_sw (AddIncident (L := L) (K := K) (X := X) i).
Proof.
  intros [s w] Hw. unfold AddIncident, fill_incident.
  assert (exists id w1, (if bool_decide (in_ID i = "") then mint w else Some (in_ID i, w)) = Some (id, w1) /\ no_faults w1)
    as (id & w1 & -> & Hw1).
  { destruct (bool_decide _); [destruct (mint_calm w Hw) as [id ->]|]; eexists _, _; (split; [reflexivity|exact Hw]). }
  cbn [mbind option_bind].
  destruct (if Time.IsZero (in_Time i) then time_Now w1 else (in_Time i, w1)) as [t w2] eqn:E.
  assert (no_faults w2) as Hw2 by (destruct (Time.IsZero _); injection E as _ <-; exact Hw1).
  set (i' := mkIncident _ _ _ _ _ _ _ _ _ _ _). unfold time_Now. cbn iota beta.
  destruct (dedupe i' _ s) as [[] s1]; [eexists _, _; split; [reflexivity|exact Hw2]|].
  cbn [st_cases set_xdr set_incidents]. destruct (st_cases s1) as [k|]; [|eexists _, _; split; [reflexivity|exact Hw2]].
  destruct (sk_IngestIncident i' k (next_tick w2)) as [[err k'] w3] eqn:HI. eexists _, _. split; [reflexivity|].
  pose proof (ingest_calm (L := L) i' k (next_tick w2) Hw2) as Hc. by rewrite HI in Hc.
Qed.
Hint Resolve on_state_runs with_status_runs mint_runs : runs.
Hint Extern 1 (runs calm (modify _)) => apply runs_modify; intros ? ?; assumption : runs.
Hint Extern 1 (runs calm status) => apply runs_gets : runs.

Lemma event_runs a b c d : runs calm (event (L := L) (K := K) (X := X) a b c d).
Proof. apply in_state_runs, AddEvent_runs. Qed.
Lemma incident_runs i : runs calm (in_state (L := L) (K := K) (X := X) (AddIncident i)).
Proof. apply in_state_runs, AddIncident_runs. Qed.
Lemma publish_runs : runs calm (publish (L := L) (K := K) (X := X)).
Proof. unfold publish. runs_solve. Qed.
Lemma publish_policy_runs : runs calm (publish_policy (L := L) (K := K) (X := X)).
Proof. unfold publish_policy. runs_solve. Qed.
Lemma persist_runs e x : runs calm (persist (L := L) (K := K) (X := X) e x).
Proof.
  intros y Hy. unfold persist. destruct (Persist _ _ _ _ _ _) as [[err p] w] eqn:HP. eexists _, _. split; [reflexivity|].
  eapply same_calm; [by eapply Persist_frame|exact Hy].
Qed.
Lemma now_utc_runs : runs calm (now_utc (L := L) (K := K) (X := X)).
Proof. apply on_world_runs. by intros w. Qed.
Lemma now_mono_runs : runs calm (now_mono (L := L) (K := K) (X := X)).
Proof. apply on_world_runs. by intros w. Qed.
Lemma stat_runs path : runs calm (on_world (L := L) (K := K) (X := X) (os_Stat path)).
Proof.
  apply on_world_runs. intros w Hw. assert (w_oracle (os_Stat path w).2 = w_oracle w) as HO
    by (unfold os_Stat, os_Lstat, World.sys; by repeat case_match; simplify_eq/=).
  intros n. by rewrite HO.
Qed.
Lemma snapshot_runs : runs calm (in_state (L := L) (K := K) (X := X) State_Snapshot).
Proof. apply in_state_runs. intros [s w] Hw. eexists _, _. split; [reflexivity|]. exact Hw. Qed.
Hint Resolve event_runs incident_runs publish_runs publish_policy_runs persist_runs now_utc_runs now_mono_runs stat_runs
  snapshot_runs : runs.

Lemma sinceElapsed_runs : runs calm (sinceElapsed (L := L) (K := K) (X := X)).
Proof. unfold sinceElapsed. runs_solve. Qed.
Lemma nominalElapsed_runs : runs calm (nominalElapsed (L := L) (K := K) (X := X)).
Proof. unfold nominalElapsed. runs_solve. Qed.
Hint Resolve sinceElapsed_runs nominalElapsed_runs : runs.
Lemma currentBlockers_runs t d : runs calm (currentBlockersLocked (L := L) (K := K) (X := X) t d).
Proof. unfold currentBlockersLocked. runs_solve. Qed.
Hint Resolve currentBlockers_runs : runs.
Lemma refresh_runs : runs calm (refreshLocked (L := L) (K := K) (X := X)).
Proof. unfold refreshLocked. runs_solve. Qed.
Lemma stamp_runs : runs calm (stamp_phase (L := L) (K := K) (X := X)).
Proof. unfold stamp_phase. runs_solve. Qed.
Hint Resolve refresh_runs stamp_runs : runs.

Lemma add_runs t : runs calm (core_call (L := L) (K := K) (core_Add t)).
Proof. apply on_world_runs. intros w Hw. by apply add_calm. Qed.
Hint Resolve add_runs : runs.
Lemma confirm_runs bs : runs calm (confirm_blocks (L := L) (K := K) (X := X) bs).
Proof. induction bs as [|b bs IH]; cbn [confirm_blocks]; runs_solve. Qed.
Hint Resolve confirm_runs : runs.
Lemma reconcileVerified_runs : runs calm (reconcileVerifiedLocked (L := L) (K := K) (X := X)).
Proof. unfold reconcileVerifiedLocked. runs_solve. Qed.
Lemma markDegraded_runs r k v : runs calm (markDegradedLocked (L := L) (K := K) (X := X) r k v).
Proof. unfold markDegradedLocked. runs_solve. Qed.
Hint Resolve reconcileVerified_runs markDegraded_runs : runs.
Lemma degrade_runs r : runs calm (degradeLocked (L := L) (K := K) (X := X) r).
Proof. unfold degradeLocked. runs_solve. Qed.
Hint Resolve degrade_runs : runs.
Lemma ObserveCore_runs b : runs calm (ObserveCore (L := L) (K := K) (X := X) b).
Proof. unfold ObserveCore. runs_solve. Qed.
Lemma enter_enforce_runs d : runs calm (enter_enforce (L := L) (K := K) (X := X) d).
Proof. unfold enter_enforce. runs_solve. Qed.
Hint Resolve enter_enforce_runs : runs.
Lemma trackNominal_runs : runs calm (trackNominalLocked (L := L) (K := K) (X := X)).
Proof. unfold trackNominalLocked, markNominalLocked. runs_solve. Qed.
Hint Resolve trackNominal_runs : runs.
Lemma Evaluate_runs : runs calm (Evaluate (L := L) (K := K) (X := X)).
Proof. unfold Evaluate, recoverIfGatesPassLocked. runs_solve. Qed.

(** ** Heartbeat loss *)

Definition misses y : Z := rs_CoreMisses (rc_status (y_ctl y)).
Definition settings_of y : ReleaseConfig := effectiveReleaseConfigLocked (y_ctl y).

(** Neither the count of missed heartbeats nor the configuration changed. *)
Definition beats y y' : Prop := misses y' = misses y /\ frozen (y_ctl y') = frozen (y_ctl y).
#[export] Instance beats_preorder : PreOrder beats.
Proof. split; [by intros ?|]. unfold beats. intros ? ? ? H1 H2. intuition congruence. Qed.
Lemma still_beats {A} (m : M sys A) : moves still m -> moves beats m.
Proof. intros H. eapply moves_weaken; [exact H|]. intros y y' (Hc & _). unfold beats, misses. by rewrite Hc. Qed.
Lemma in_state_beats {A} (m : M (State L K * world X) A) : moves beats (in_state m).
Proof. intros y a y' H. unfold in_state in H. by apply zoom_inv in H as ([s w] & _ & ->). Qed.
Lemma on_state_beats f : moves beats (on_state (L := L) (K := K) (X := X) f).
Proof. apply in_state_beats. Qed.
Lemma on_world_beats {A} (f : world X -> A * world X) : moves beats (on_world (L := L) (K := K) f).
Proof. intros y a y' H. unfold on_world in H. by apply zoom_inv in H as (w & _ & ->). Qed.
Lemma mint_beats : moves beats (zoom (y_w (L := L) (K := K) (X := X)) set_w mint).
Proof. intros y a y' H. by apply zoom_inv in H as (w & _ & ->). Qed.
Lemma persist_beats e x : moves beats (persist (L := L) (K := K) (X := X) e x).
Proof. intros y a y' H. unfold persist in H. destruct (Persist _ _ _ _ _ _) as [[? ?] ?]. by simplify_eq. Qed.
Hint Resolve still_beats in_state_beats on_state_beats on_world_beats mint_beats persist_beats : moves.
Hint Extern 2 (moves beats (with_status _)) => apply moves_modify; intros; repeat split : moves.
Hint Extern 2 (moves beats (modify _)) => apply moves_modify; intros; repeat split : moves.
Hint Extern 1 (moves beats status) => unfold status; apply moves_gets, _ : moves.
Lemma confirm_beats bs : moves beats (confirm_blocks (L := L) (K := K) (X := X) bs).
Proof. induction bs; cbn [confirm_blocks]; unfold core_call; moves_solve. Qed.
Hint Resolve confirm_beats : moves.
Lemma degrade_beats r : moves beats (degradeLocked (L := L) (K := K) (X := X) r).
Proof.
  unfold degradeLocked, reconcileVerifiedLocked, markDegradedLocked, stamp_phase, now_utc, now_mono, publish, publish_policy,
    event. moves_solve.
Qed.
Lemma refresh_beats : moves beats (refreshLocked (L := L) (K := K) (X := X)).
Proof. unfold refreshLocked. moves_solve. Qed.
Lemma publish_beats : moves beats (publish (L := L) (K := K) (X := X)).
Proof. unfold publish. moves_solve. Qed.
Hint Resolve degrade_beats refresh_beats publish_beats : moves.

Lemma settings_frozen y y' : frozen (y_ctl y') = frozen (y_ctl y) -> settings_of y' = settings_of y.
Proof.
  intros HF. assert (rc_cfg (y_ctl y') = rc_cfg (y_ctl y)) as H1 by exact (f_equal rc_cfg HF).
  assert (rc_runtime (y_ctl y') = rc_runtime (y_ctl y)) as H2 by exact (f_equal rc_runtime HF).
  unfold settings_of, effectiveReleaseConfigLocked. by rewrite H1, H2.
Qed.

Definition next_misses y : Z :=
  if misses y <? rg_CoreFailureThreshold (settings_of y) + 1 then misses y + 1 else misses y.

(** One missed heartbeat. *)
Lemma missed_heartbeat y a y' : ObserveCore (L := L) (K := K) (X := X) false y = Some (a, y') ->
  misses y' = next_misses y /\ frozen (y_ctl y') = frozen (y_ctl y) /\
  phase y' = if rg_AutoDegrade (settings_of y) && negb (bool_decide (phase y = ReleasePhaseObserve))
                && (rg_CoreFailureThreshold (settings_of y) <=? next_misses y) then ReleasePhaseDegraded else phase y.
Proof.
  intros H. unfold ObserveCore in H. apply bind_inv in H as (c & y0 & H0 & H). apply gets_inv in H0 as [-> ->].
  apply bind_inv in H as (u & y1 & H1 & H). fold (settings_of y) in *.
  assert (misses y1 = next_misses y /\ frozen (y_ctl y1) = frozen (y_ctl y) /\ phase y1 = phase y) as (Hm & HF & Hp).
  { apply bind_inv in H1 as (st & y2 & H2 & H1). unfold status in H2. apply gets_inv in H2 as [-> ->].
    unfold next_misses, misses. destruct (_ <? _) in *; [by apply modify_inv in H1 as ->|by apply ret_inv in H1 as [_ ->]]. }
  apply bind_inv in H as (st & y2 & H2 & H). unfold status in H2. apply gets_inv in H2 as [-> ->].
  apply bind_inv in H as (u2 & y3 & H3 & H). fold (phase y1) in H3. fold (misses y1) in H3. rewrite Hp, Hm in H3.
  assert (beats y3 y') as [HB1 HB2] by by_moves H. assert (quiet y3 y') as HQ by (by_moves H).
  apply quiet_inv in HQ as (_ & Hq & _).
  destruct (rg_AutoDegrade _ && _ && _).
  - apply bind_inv in H3 as (e & y4 & H4 & H3). apply ret_inv in H3 as [_ ->].
    pose proof (degrade_beats _ _ _ _ H4) as [HC1 HC2]. apply degrade_ends in H4.
    split_and!; [congruence..|]. rewrite Hq. destruct H4 as [H4|H4]; by apply posture_inv in H4 as (? & _).
  - apply ret_inv in H3 as [_ ->]. split_and!; congruence.
Qed.

Fixpoint times {S} (n : nat) (m : M S unit) : M S unit :=
  match n with
  | O => mret tt
  | S n => m ;; times n m
  end.

Lemma missed_heartbeats n y y' : 0 <= misses y -> rg_AutoDegrade (settings_of y) = true ->
  phase y <> ReleasePhaseObserve -> times n (ObserveCore (L := L) (K := K) (X := X) false) y = Some (tt, y') ->
  rg_CoreFailureThreshold (settings_of y) - misses y <= Z.of_nat n -> (0 < n)%nat -> phase y' = ReleasePhaseDegraded.
Proof.
  revert y. induction n as [|n IH]; intros y H0 Ha Hp H Hn Hpos; [lia|]. cbn [times] in H.
  apply bind_inv in H as (u & y1 & H1 & H). apply missed_heartbeat in H1 as (Hm & HF & Hph).
  apply settings_frozen in HF. rewrite Ha, bool_decide_eq_false_2 in Hph by done. cbn [negb andb] in Hph.
  assert (phase y1 <> ReleasePhaseObserve) as Hp1 by (rewrite Hph; by destruct (_ <=? _)).
  assert (0 <= misses y1) as H01 by (rewrite Hm; unfold next_misses; destruct (_ <? _); lia).
  destruct n as [|n].
  - cbn [times] in H. apply ret_inv in H as [_ ->]. rewrite Hph.
    destruct (Z.leb_spec (rg_CoreFailureThreshold (settings_of y)) (next_misses y)) as [|Hlt]; [done|].
    exfalso. unfold next_misses in Hlt. destruct (Z.ltb_spec (misses y) (rg_CoreFailureThreshold (settings_of y) + 1)); lia.
  - apply (IH y1); [done|by rewrite HF|done|done| |lia].
    rewrite HF, Hm. unfold next_misses. destruct (Z.ltb_spec (misses y) (rg_CoreFailureThreshold (settings_of y) + 1)); lia.
Qed.

Lemma times_runs n (m : M sys unit) : runs calm m -> runs calm (times n m).
Proof. intros Hm. induction n; cbn [times]; runs_solve. Qed.

(** C21: a lost core is noticed. With automatic degradation on, a platform in
    canary or enforce whose core misses as many consecutive heartbeats as the
    threshold (at least one) is in the degraded phase; when no call fails the
    controller is guaranteed to get there, it neither blocks nor ends the
    process. *)
Theorem heartbeat_loss_degrades n y : calm y -> 0 <= misses y -> rg_AutoDegrade (settings_of y) = true ->
  phase y <> ReleasePhaseObserve -> (0 < n)%nat -> rg_CoreFailureThreshold (settings_of y) - misses y <= Z.of_nat n ->
  exists y', times n (ObserveCore false) y = Some (tt, y') /\ phase y' = ReleasePhaseDegraded.
Proof.
  intros Hc Hm Ha Hp Hpos Hn. destruct (times_runs n _ (ObserveCore_runs false) y Hc) as ([] & y' & H & _).
  exists y'. split; [done|]. by eapply missed_heartbeats.
Qed.

(** ** Recovery *)

(** The clock at a tick. *)
Definition clock_at (w : world X) (n : nat) : gotime :=
  mkGoTime (o_now (w_oracle w) n) (Some (mono_reading (w_ext w) n)).

(** Every gate of the enforcing phase is open, at any time. *)
Definition all_clear y : Prop :=
  w_fs (y_w y) !! rg_EmergencyStopFile (rc_cfg (y_ctl y)) = None /\
  forall now now2 el, blockers_of (y_ctl y) (snapshot_at now (y_state y)) (inl ErrNotExist) now2 el ReleasePhaseEnforce false = [].

Lemma clear_gate y : calm y -> all_clear y ->
  exists y', currentBlockersLocked (L := L) (K := K) (X := X) ReleasePhaseEnforce false y = Some ([], y') /\ still y y' /\ calm y'.
Proof.
  intros Hc [Hm Ha]. destruct (currentBlockers_runs ReleasePhaseEnforce false y Hc) as (bl & y' & H & Hc').
  exists y'. split_and!; [|by eapply currentBlockers_still|done]. rewrite H. repeat f_equal.
  unfold currentBlockersLocked in H.
  apply bind_inv in H as (snap & y1 & H1 & H). pose proof (snapshot_still _ _ _ H1) as (Hc1 & Hs1 & _ & Hf1 & _ & Ho1).
  apply bind_inv in H as (c & y2 & H2 & H). apply gets_inv in H2 as [-> ->].
  apply bind_inv in H as (stat & y3 & H3 & H). apply bind_inv in H as (now2 & y4 & H4 & H).
  apply bind_inv in H as (el & y5 & H5 & H). apply ret_inv in H as [-> ->].
  unfold in_state in H1. apply zoom_inv in H1 as ([s w] & H1 & _). unfold State_Snapshot, time_Now in H1. injection H1 as <- _ _.
  unfold on_world in H3. apply zoom_inv in H3 as (w3 & [= H3] & _). unfold os_Stat, os_Lstat, World.sys in H3.
  rewrite Ho1, (Hc (w_tick (y_w y1))), Hf1, Hc1, Hm in H3. cbn in H3. simplify_eq. rewrite Hc1. apply Ha.
Qed.

Lemma confirm_calm bs y : calm y ->
  exists y', confirm_blocks (L := L) (K := K) (X := X) bs y = Some (None, y') /\ calm y'.
Proof.
  revert y. induction bs as [|b bs IH]; intros y Hc; cbn [confirm_blocks]; [by exists y|].
  destruct (add_calm (L := L) (K := K) (b_Target b) (y_w y) Hc) as [H1 H2].
  unfold core_call, on_world, zoom, mbind, M_bind. cbn beta iota. destruct (core_Add (b_Target b) (y_w y)) as [e w]. cbn in H1, H2.
  subst e. cbn beta iota. apply IH. exact H2.
Qed.

Lemma still_clear y y' : still y y' -> all_clear y -> all_clear y'.
Proof. intros (H1 & H2 & _ & H3 & _). unfold all_clear. by rewrite H1, H2, H3. Qed.

Lemma recover_runs : runs calm (recoverIfGatesPassLocked (L := L) (K := K) (X := X)).
Proof. unfold recoverIfGatesPassLocked. runs_solve. Qed.

(** Ready to recover: degraded with a verified enforcement, calm since
    [since], and the soak is over. *)
Record recovering y : Prop := {
  rv_core : rc_core (y_ctl y) = true;
  rv_phase : phase y = ReleasePhaseDegraded;
  rv_stop : rs_EmergencyStop (rc_status (y_ctl y)) = false;
  rv_kernel : kernel_state y = "verified-enforce" /\ verified y = true;
  rv_since : is_Some (rs_NominalSince (rc_status (y_ctl y)));
  rv_clear : all_clear y;
  rv_soak n : seconds (rg_MinimumObserveSeconds (settings_of y)) <= nominal_elapsed_at (y_ctl y) (clock_at (y_w y) n);
}.
Lemma still_recovering y y' : still y y' -> recovering y -> recovering y'.
Proof.
  intros HS []. pose proof HS as (H1 & H2 & _ & H3 & H4 & H5). constructor; unfold phase, kernel_state, verified, settings_of,
    clock_at in *; rewrite ?H1, ?H4, ?H5; try done. by eapply still_clear.
Qed.

Lemma recover_calm y a y' : calm y -> recovering y ->
  recoverIfGatesPassLocked (L := L) (K := K) (X := X) y = Some (a, y') -> phase y' = ReleasePhaseEnforce.
Proof.
  intros Hc HR H. pose proof HR as [Hcore Hp He [Hk Hv] [since Hn] Ha Hel]. unfold recoverIfGatesPassLocked in H.
  apply bind_inv in H as (st & y0 & H0 & H). unfold status in H0. apply gets_inv in H0 as [-> ->].
  unfold phase, kernel_state, verified in *. rewrite Hp, He, Hk, Hv, Hn in H.
  rewrite !bool_decide_eq_true_2 in H by done. cbn [negb orb] in H.
  apply bind_inv in H as (c & y0 & H0 & H). apply gets_inv in H0 as [-> ->]. cbv zeta in H. fold (settings_of y) in H.
  apply bind_inv in H as (el & y1 & H1 & H). pose proof (nominalElapsed_still _ _ _ H1) as HS1.
  assert (seconds (rg_MinimumObserveSeconds (settings_of y)) <= el) as Hge.
  { unfold nominalElapsed in H1. run_inv H1. unfold now_mono, on_world in Hrun. apply zoom_inv in Hrun as (w & [= <- _] & _). exact (Hel (w_tick (y_w y))). }
  apply Z.ltb_ge in Hge. rewrite Hge in H.
  assert (calm y1) as Hc1 by (destruct HS1 as (_ & _ & _ & _ & _ & HO); intros n; rewrite HO; apply Hc).
  destruct (clear_gate y1 Hc1 (still_clear _ _ HS1 Ha)) as (y2 & HG & HS2 & Hc2).
  apply bind_inv in H as (bl & y2' & H2 & H). rewrite HG in H2. simplify_eq.
  rewrite bool_decide_eq_true_2 in H by done. cbn [negb] in H.
  apply bind_inv in H as (err & y3 & H3 & H). unfold reconcileVerifiedLocked in H3. apply bind_inv in H3 as (s & y4 & H4 & H3).
  apply get_inv in H4 as [-> ->]. destruct HS1 as (Hct1 & _). destruct HS2 as (Hct2 & _). rewrite Hct2, Hct1, Hcore in H3.
  cbn [negb] in H3. destruct (confirm_calm (BlocksSnapshot (y_state y2')) y2' Hc2) as (y5 & HC & _). rewrite HC in H3. simplify_eq.
  apply bind_inv in H as (u & y6 & H6 & H). apply enter_enforce_posture, posture_inv in H6 as (Hp6 & _).
  assert (quiet y6 y') as HQ by by_moves H. apply quiet_inv in HQ as (_ & Hq & _). unfold phase in *. congruence.
Qed.

(** C20: the fail-safe is not a dead end. A degraded platform with a verified
    kernel enforcement, no emergency stop, every gate open and the recovery
    soak over returns to enforce at the next evaluation: when no call fails,
    [Evaluate] returns with the enforcing phase. *)
Theorem recovery_completes y : calm y -> recovering y ->
  exists y', Evaluate y = Some (tt, y') /\ phase y' = ReleasePhaseEnforce.
Proof.
  intros Hc HR. destruct (Evaluate_runs y Hc) as ([] & y' & H & _). exists y'. split; [done|].
  pose proof HR as [_ Hp _ _ [since Hn] Ha _]. unfold Evaluate in H.
  apply bind_inv in H as (s & y0 & H0 & H). apply get_inv in H0 as [-> ->]. unfold phase in Hp. rewrite Hp in H.
  rewrite (bool_decide_eq_true_2 (ReleasePhaseDegraded = ReleasePhaseDegraded)), !orb_true_r in H by done.
  apply bind_inv in H as (u & y1 & H1 & H). apply bind_inv in H1 as (u2 & y2 & H2 & H1).
  assert (still y y2) as HS.
  { unfold trackNominalLocked in H2. apply bind_inv in H2 as (st & y3 & H3 & H2). unfold status in H3. apply gets_inv in H3 as [-> ->].
    rewrite Hp, bool_decide_eq_true_2 in H2 by done. cbn [negb] in H2.
    destruct (clear_gate y Hc Ha) as (y4 & HG & HS4 & _). apply bind_inv in H2 as (bl & y5 & H5 & H2). rewrite HG in H5. simplify_eq.
    rewrite bool_decide_eq_true_2 in H2 by done. cbn [negb] in H2. rewrite Hn in H2. by apply ret_inv in H2 as [_ ->]. }
  assert (calm y2) as Hc2 by (destruct HS as (_ & _ & _ & _ & _ & HO); intros n; rewrite HO; apply Hc).
  apply recover_calm in H1; [|done|by eapply still_recovering].
  assert (quiet y1 y') as HQ by by_moves H. apply quiet_inv in HQ as (_ & Hq & _). congruence.
Qed.
End Liveness.
