(* ===== verification/ReleaseWitness.v ===== *)
(** * The release controller on concrete inputs *)

From Stdlib Require Import ZArith Lia Ascii String.
From stdpp Require Import base gmap strings list.
From S2P Require Import Prelude.
From S2P Require Import GoLib.
From S2P Require Import Text.
From S2P Require Import World.
From S2P Require Import Storage.
From S2P Require Import Instances.
From S2P Require Import Policy.
From S2P Require Import PolicyWitness.
From S2P Require Import LimitsWitness.
From S2P Require Import Evidence.
From S2P Require Import NetIP.
From S2P Require Import Exec.
From S2P Require Import State.
From S2P Require Import Snapshot.
From S2P Require Import StateFacts.
From S2P Require Import Release.
From S2P Require Import ReleaseFrames.
From S2P Require Import ReleaseFacts.
From S2P Require Import ReleaseSafety.
From S2P Require Import ReleaseLiveness.

(** A kernel with a block map and a monotonic clock; the calls of the core
    fail when the oracle says so, before they have an effect. [kx_verify]
    decides whether the empty-state verification answers. *)
Record KernelX := mkKernelX { kx_set : gset string; kx_mono : nat -> Z; kx_verify : bool }.

Definition kx_call (f : gset string -> gset string) (w : world KernelX) : error * world KernelX :=
  match World.sys w with
  | (Some e, w1) => (Some e, w1)
  | (None, w1) => (None, set_ext (mkKernelX (f (kx_set (w_ext w))) (kx_mono (w_ext w)) (kx_verify (w_ext w))) w1)
  end.

#[export] Instance demo_core : CoreClient KernelX := {
  core_Add t := kx_call (fun s => {[t]} ∪ s);
  core_Delete t := kx_call (fun s => s ∖ {[t]});
  core_ClearBlocklist := kx_call (fun _ => ∅);
  core_VerifyBlocklistEmpty w :=
    if kx_verify (w_ext w) then
      (if bool_decide (kx_set (w_ext w) = ∅) then None else errors_New "kernel blocklist is not empty", next_tick w)
    else (errors_New "core connection lost", next_tick w);
  mono_reading x n := kx_mono x n;
}.

Lemma kx_call_inv f w e w' : kx_call f w = (e, w') ->
  kx_set (w_ext w') = (if e is Some _ then kx_set (w_ext w) else f (kx_set (w_ext w))) /\ w_oracle w' = w_oracle w.
Proof. unfold kx_call, World.sys. intros H. destruct (o_fault _ _); by simplify_eq/=. Qed.

#[export, refine] Instance demo_core_laws : CoreLaws KernelX := {| kernel := kx_set; feed_owned := fun _ => ∅ |}.
Proof.
  - intros t w e w' H. apply kx_call_inv in H as [H _]. destruct e; set_solver.
  - intros t w e w' H. apply kx_call_inv in H as [H _]. destruct e; set_solver.
  - intros t w w' H. apply kx_call_inv in H as [H _]. set_solver.
  - intros t w e w' H. apply kx_call_inv in H as [H _]. destruct e; rewrite H; [set_solver|].
    intros x Hx. destruct (decide (x = t)); set_solver.
  - intros t w e w' H. apply kx_call_inv in H as [H _]. destruct e; set_solver.
  - intros t w w' H. apply kx_call_inv in H as [H _]. set_solver.
  - cbn. intros w e w' H. destruct (kx_verify _); by simplify_eq.
  - cbn. intros w w' H. destruct (kx_verify _); [|done]. case_bool_decide; by simplify_eq.
  - done.
  - done.
Defined.

(** A ledger and a case history that accept everything. *)
#[export] Instance demo_sinks : Sinks unit unit KernelX := {
  sk_Append r l w := Some (None, l, w);
  sk_Status _ := mkEvidenceStatus true true false 0 "" "" "" 0 0 "full" None;
  sk_Healthy _ := None;
  sk_IngestIncident i k w := (None, k, w);
}.
#[export] Instance demo_quiet : QuietSinks unit unit KernelX.
Proof. split; cbn; intros; by simplify_eq. Qed.
#[export] Instance demo_calm : CalmOutside unit unit KernelX.
Proof.
  split.
  - intros t w Hw. cbn. unfold kx_call, World.sys. rewrite Hw. cbn. done.
  - intros r l w Hw. cbn. eauto.
  - done.
Qed.

Definition base_time : Z := 63900000000 * Time.Second.
Definition stop_file : string := "/run/gedefense/emergency-stop".

Definition release_cfg : ReleaseConfig := mkReleaseConfig "beta" 0 0 3 50 stop_file true.
Definition soak_cfg : ReleaseConfig := mkReleaseConfig "beta" 60 0 3 50 stop_file true.
Definition release_runtime : RuntimeSettings :=
  mkRuntime 0 false true ["10.0.0.0/8"] false "observe" 3600 86400 1000 300 300 3 50.

Definition release_ctl (cfg : ReleaseConfig) : ReleaseController unit unit KernelX :=
  mkController cfg "node" true false false (mkAdvisory false "report" 80) true release_runtime None None
    (wall_only 0) None (fresh_status "beta" 0).

Definition listed_block : BlockEntry :=
  mkBlock "b1" "192.0.2.1/32" "scan" "manual" 1 (base_time + 100 * Time.Second) false.

Definition release_state : State unit unit :=
  mkState "observe" "" base_time true "online" true {[ "192.0.2.1/32" := listed_block ]} ∅ [] 250
    (mkXDR true "observe" false "" 0 0 0 0 None "procfs" 0 0 0 0 0 0) ∅ 0
    (mkL7 false "observe" true 0 false true "" None 0 "" None None "" false "" false "" false false 0)
    [] ∅ 250 (mkPolicyStatus true 1 None "ed25519:00" "" 1) (fresh_status "beta" 0) release_runtime None
    (mkEvidenceStatus false false false 0 "" "" "" 0 0 "" None) None None
    (mkKinetic 0 0 0 0 0 0 None (mkCoverage CoverageOnline true ∅ "") (mkCounters 0 0 0 0 0 0 0 0 0 0 0 0 65536)) ∅.

(** A clock that advances a second per reading. *)
Definition ticking : Oracle :=
  mkOracle (fun _ => None) (fun _ => 0%nat) (fun _ => "entropy-entropy-entropy")
           (fun n => base_time + Z.of_nat n * Time.Second).
Definition release_world (verify : bool) : world KernelX := mkWorld ∅ 0 ticking (mkKernelX ∅ Z.of_nat verify).

Definition sys0 (cfg : ReleaseConfig) (verify : bool) : Sys unit unit KernelX :=
  mkSys (release_ctl cfg) release_state demo_policy (release_world verify).

(** The system after a computation. *)
Definition after {A} (m : M (Sys unit unit KernelX) A) (y : Sys unit unit KernelX) : Sys unit unit KernelX :=
  match m y with Some (_, y') => y' | None => y end.
Lemma after_run (m : M (Sys unit unit KernelX) unit) y : (if m y is Some _ then true else false) = true -> m y = Some (tt, after m y).
Proof. unfold after. destruct (m y) as [[[] y']|]; done. Qed.

Definition sys1 cfg verify := after NewReleaseController (sys0 cfg verify).
Definition sys2 cfg verify := after (run (OpStartup "enforce" true)) (sys1 cfg verify).
Definition sys3 cfg verify := after (run OpEvaluate) (sys2 cfg verify).

Example sys3_enforces : phase (sys3 release_cfg true) = ReleasePhaseEnforce.
Proof. by vm_compute. Qed.

(** The states are reachable, and their lists are keyed by target. *)
Lemma no_hook : hook_ok (y_ctl (sys0 release_cfg true)).
Proof. intros h s w s' w' [=]. Qed.
Lemma sys1_reachable : reachable (sys1 release_cfg true).
Proof. eapply reach_new; [exact no_hook|]. apply after_run. by vm_compute. Qed.
Lemma sys2_reachable : reachable (sys2 release_cfg true).
Proof. eapply (reach_op _ (OpStartup "enforce" true)); [exact sys1_reachable|]. apply after_run. by vm_compute. Qed.
Lemma sys3_reachable : reachable (sys3 release_cfg true).
Proof. eapply (reach_op _ OpEvaluate); [exact sys2_reachable|]. apply after_run. by vm_compute. Qed.

Lemma keyed_check (y : Sys unit unit KernelX) :
  forallb (fun tb => bool_decide (b_Target tb.2 = tb.1)) (map_to_list (st_blocks (y_state y))) = true -> keyed (y_state y).
Proof.
  intros H t b Hb. rewrite forallb_forall in H.
  apply elem_of_map_to_list, list_elem_of_In, H in Hb. by case_bool_decide.
Qed.
Lemma held_check (y : Sys unit unit KernelX) t :
  bool_decide (t ∈ kern y) && from_option b_Enforced false (st_blocks (y_state y) !! t) = true -> held y t.
Proof.
  intros [Hk Hb]%andb_true_iff. apply bool_decide_eq_true in Hk. split; [done|].
  destruct (st_blocks (y_state y) !! t) as [b|]; [|done]. eauto.
Qed.

Lemma enforce_is_verified_witness : kernel_state (sys3 release_cfg true) = "verified-enforce".
Proof. apply (enforce_is_verified _ sys3_reachable). by vm_compute. Defined.

(** The emergency stop retains the block the kernel holds. *)
Definition no_clock : time -> string := fun _ => "now".
Definition stop_answer : M (Sys unit unit KernelX) (ReleaseStatus * error) := EmergencyStop no_clock "operator stop drill".
Definition answered (m : M (Sys unit unit KernelX) (ReleaseStatus * error)) y : ReleaseStatus :=
  match m y with Some ((st, _), _) => st | None => fresh_status "" 0 end.
Lemma answered_run (m : M (Sys unit unit KernelX) (ReleaseStatus * error)) y :
  match m y with Some ((_, None), _) => true | _ => false end = true -> m y = Some ((answered m y, None), after m y).
Proof. unfold after, answered. destruct (m y) as [[[st [e|]] y']|]; done. Qed.

Definition stopped := after stop_answer (sys3 release_cfg true).
Lemma stopped_answer : stop_answer (sys3 release_cfg true) = Some ((answered stop_answer (sys3 release_cfg true), None), stopped).
Proof. apply answered_run. by vm_compute. Qed.
Lemma stopped_run : run (OpEmergencyStop no_clock "operator stop drill") (sys3 release_cfg true) = Some (tt, stopped).
Proof. cbn [run]. fold stop_answer. unfold ignore, mbind, M_bind. by rewrite stopped_answer. Qed.



(** After the stop, an evaluation does not come back. *)
Definition still_stopped := after (run OpEvaluate) stopped.

Lemma emergency_stop_latches_witness :
  phase still_stopped = ReleasePhaseObserve \/ phase still_stopped = ReleasePhaseDegraded.
Proof.
  apply (emergency_stop_latches no_clock "operator stop drill" (sys3 release_cfg true)
    (answered stop_answer (sys3 release_cfg true)) stopped still_stopped).
  - exact sys3_reachable.
  - exact stopped_answer.
  - eapply (mr_op _ OpEvaluate tt); [eexists; vm_compute; split; [reflexivity|done]|apply keyed_check; by vm_compute| |apply mr_done].
    apply after_run. by vm_compute.
Defined.

(** Three missed heartbeats with a threshold of three. *)
Lemma heartbeat_loss_degrades_witness :
  exists y', times 3 (ObserveCore false) (sys3 release_cfg true) = Some (tt, y') /\ phase y' = ReleasePhaseDegraded.
Proof. apply heartbeat_loss_degrades; [intros n; done|..]; vm_compute; first [done|lia]. Defined.

(** A minute of calm is over. *)
Definition calm_status : ReleaseStatus :=
  mkRelease "beta" ReleasePhaseDegraded base_time false [] 0 false true "verified-enforce" None "retained" "core lost"
    (Some base_time) (Some (base_time - 3600 * Time.Second)).
Definition sys_calm : Sys unit unit KernelX :=
  mkSys (set_status calm_status (release_ctl soak_cfg)) release_state demo_policy (release_world true).

Lemma sys_calm_clear : all_clear sys_calm.
Proof. split; [by vm_compute|]. intros now now2 el. vm_compute. reflexivity. Qed.
Lemma sys_calm_soaked n : seconds 60 <= nominal_elapsed_at (y_ctl sys_calm) (clock_at (y_w sys_calm) n).
Proof.
  change (nominal_elapsed_at _ _) with (Time.Sub (base_time + Z.of_nat n * Time.Second) (base_time - 3600 * Time.Second)).
  change (seconds 60) with (60 * Time.Second). apply Z.lt_le_incl, Time.Sub_gt; unfold MinInt64, MaxInt64, Time.Second, base_time; lia.
Qed.

Lemma recovery_completes_witness : exists y', Evaluate sys_calm = Some (tt, y') /\ phase y' = ReleasePhaseEnforce.
Proof.
  apply recovery_completes; [intros n; done|].
  constructor; [done|done|done|done|by eexists|exact sys_calm_clear|exact sys_calm_soaked].
Defined.

(** A phase change on the ticking clock: the wall clock says 63 days later,
    the monotonic clock says one second. *)
Definition stamped : Sys unit unit KernelX := after stamp_phase sys_calm.
Definition value {A} (d : A) (m : M (Sys unit unit KernelX) A) y : A := match m y with Some (a, _) => a | None => d end.
Lemma value_run {A} (d : A) m y : (if m y is Some _ then true else false) = true -> m y = Some (value d m y, after m y).
Proof. unfold after, value. by destruct (m y) as [[a y']|]. Qed.

Lemma soak_follows_wall_clock_witness : exists t, rs_Since (rc_status (y_ctl stamped)) = t /\
  since_elapsed_at (y_ctl stamped) (mkGoTime (t + 5443200 * Time.Second) (Some 2)) = 5443200 * Time.Second.
Proof.
  set (t := value 0 stamp_phase sys_calm). exists t.
  destruct (soak_follows_wall_clock sys_calm t stamped (t + 5443200 * Time.Second) (Some 2)) as [H1 H2].
  - intros n. cbn. unfold Time.Second. lia.
  - apply value_run. by vm_compute.
  - split; [exact H1|]. rewrite H2, Time.Sub_exact; unfold MinInt64, MaxInt64, Time.Second; lia.
Defined.

(** The core answers the clear and drops the connection before the check. *)
Definition half_done : world KernelX := (core_ClearBlocklist (y_w (sys3 release_cfg false))).2.
Lemma half_done_run : core_ClearBlocklist (y_w (sys3 release_cfg false)) = (None, half_done).
Proof. rewrite (surjective_pairing (core_ClearBlocklist _)). unfold half_done. by f_equal. Qed.
Lemma half_done_lost : core_VerifyBlocklistEmpty half_done = (errors_New "core connection lost", next_tick half_done).
Proof.
  assert (kx_verify (w_ext half_done) = false) as H by by vm_compute. revert H. generalize half_done. intros w H. cbn. by rewrite H.
Qed.
Lemma observe_half_done_witness : exists y' e,
  Transition "observe" "RETURN:OBSERVE" "maintenance window" (sys3 release_cfg false) =
    Some ((rc_status (y_ctl (sys3 release_cfg false)), Some e), y') /\
  phase y' = ReleasePhaseEnforce /\ kernel_state y' = "verified-enforce" /\ kern y' = ∅.
Proof.
  destruct (observe_half_done "RETURN:OBSERVE" "maintenance window" (sys3 release_cfg false) half_done
    (ErrText "core connection lost") (next_tick half_done)) as (y' & H & Hc & _ & Hk).
  - reflexivity.
  - by vm_compute.
  - by vm_compute.
  - by vm_compute.
  - exact half_done_run.
  - exact half_done_lost.
  - exists y', (ErrWrap "kernel blocklist empty-state verification failed" (ErrText "core connection lost")).
    split; [exact H|]. unfold phase, kernel_state. rewrite Hc, Hk. split_and!; [vm_compute; reflexivity..|]. reflexivity.
Defined.

Definition rearm_answer : M (Sys unit unit KernelX) (ReleaseStatus * error) := ReArmVerified "self-check passed".
Lemma rearm_not_published_witness : rs_Phase (answered rearm_answer (sys2 release_cfg true)) = ReleasePhaseEnforce /\
  rs_Phase (st_release (y_state (after rearm_answer (sys2 release_cfg true)))) = ReleasePhaseDegraded.
Proof.
  destruct (rearm_not_published "self-check passed" (sys2 release_cfg true) (answered rearm_answer (sys2 release_cfg true))
    (after rearm_answer (sys2 release_cfg true))) as [H1 H2].
  - apply (answered_run rearm_answer). by vm_compute.
  - by vm_compute.
  - split; [exact H1|]. rewrite H2. by vm_compute.
Defined.

(** * The shared state on concrete inputs *)

Definition clock0 : gotime := mkGoTime base_time (Some 5).
Definition add_op : sop (L := unit) (K := unit) := SAddBlock "198.51.100.7" "port scan" "manual" (600 * Time.Second) true 100 clock0 "b2" clock0.
Definition added : State unit unit :=
  (AddBlockAt "198.51.100.7" "port scan" "manual" (600 * Time.Second) true 100 clock0 "b2" clock0 release_state).2.

Lemma release_state_wf : wf release_state.
Proof.
  constructor; try (vm_compute; lia).
  - intros t b H. change (({[ "192.0.2.1/32" := listed_block ]} : gmap string BlockEntry) !! t = Some b) in H.
    apply lookup_singleton_Some in H as [<- <-]. done.
  - cbn. set_solver.
Qed.

Lemma state_well_formed_witness : wf added /\ size (st_blocks added) = 2%nat.
Proof.
  split; [|by vm_compute].
  apply (state_well_formed add_op release_state (release_world true) tt added (release_world true)); [done|exact release_state_wf].
Defined.

(** An hour's step of the wall clock releases a ten-minute block that is a
    second old. *)
Definition added_now := AddBlock "198.51.100.7" "port scan" "manual" (600 * Time.Second) true 100 "b2" clock0 release_state.
Definition added_entry : BlockEntry := match added_now.1 with inr b => b | inl _ => listed_block end.
Lemma added_block_follows_wall_clock_witness :
  blockExpired (blockExpiryDeadline "198.51.100.7/32" added_entry added_now.2)
    (wall_only (base_time + 3600 * Time.Second)) (mkGoTime (base_time + 3600 * Time.Second) (Some (5 + Time.Second))) = true.
Proof.
  rewrite (added_block_follows_wall_clock "198.51.100.7" "port scan" "manual" (600 * Time.Second) true 100 "b2" clock0
    release_state added_entry added_now.2 "198.51.100.7/32"); by vm_compute.
Defined.

(** The ledger's cause stands; the engine's is added and the verdict names both. *)
Definition evidence_down : State unit unit := markXDRCauseLocked xdrCauseEvidence "mandatory evidence ledger unavailable" release_state.
Lemma xdr_verdict_owned_witness : coherent (SetXDRDegraded true "sensor lost" evidence_down).
Proof.
  apply (xdr_verdict_owned (SEngineCause true "sensor lost") evidence_down (release_world true) tt
    (SetXDRDegraded true "sensor lost" evidence_down) (release_world true)); [done|done|].
  by split; vm_compute.
Defined.

Lemma scan_erases_cause_witness :
  x_Degraded (st_xdr evidence_down) = true /\
  x_Degraded (st_xdr (markXDRCauseLocked xdrCauseEvidence "mandatory evidence ledger unavailable"
    (UpdateXDRScan 10 (-1) base_time false "" 4 evidence_down))) = false.
Proof. split; [by vm_compute|]. apply scan_erases_cause. by vm_compute. Defined.
