(* ===== verification/KineticResponse.v ===== *)
(** * The kinetic response engine (src/control/kinetic_response.go)

    The automatic network containment: the gates a proposed block passes, the
    response budget, the escalating TTL, the change to the block list and to
    the kernel, and the commit or rollback once the signed policy was written
    ([handleKineticDecisions], src/control/kinetic_runtime.go;
    [persistPolicy], src/control/main.go). The engine is attached to the state
    and to the policy store when the server starts, so the nil checks on them
    have no counterpart here; the core may be absent. *)

From Stdlib Require Import ZArith Lia Ascii String.
From stdpp Require Import base gmap strings list sorting.
From S2P Require Import Prelude.
From S2P Require Import GoLib.
From S2P Require Import Text.
From S2P Require Import World.
From S2P Require Import Storage.
From S2P Require Import Exec.
From S2P Require Import NetIP.
From S2P Require Import Policy.
From S2P Require Import Evidence.
From S2P Require Import State.
From S2P Require Import Snapshot.
From S2P Require Import Release.
From S2P Require Import RateLimit.

Definition ErrAllowlistProtected : goerror :=
  ErrText "action rejected: target is within immutable management allowlist".
Definition ErrBroadSectorProtected : goerror :=
  ErrText "action rejected: automated /16 or wider CIDR containment is prohibited".
Definition ErrRateLimitThrottled : goerror := ErrText "action rejected: response token bucket exhausted".
Definition ErrSubnetEvidenceLow : goerror :=
  ErrText "action rejected: subnet containment requires multi-source evidence".
Definition ErrEmergencyStopActive : goerror :=
  ErrText "action rejected: emergency stop is active or cannot be verified".
Definition ErrResponseNotReady : goerror := ErrText "action rejected: kinetic active response is not safely enabled".
Definition ErrAutoContainDisabled : goerror :=
  ErrText "action rejected: automatic containment is disabled for target scope".
Definition ErrKernelStateDivergent : goerror := ErrText "kernel containment state may be divergent".

(** [errors.Is] against one of the errors above. *)
Fixpoint errors_Is (target e : goerror) : bool :=
  match e with
  | ErrWrap _ e' => errors_Is target e'
  | ErrJoin es => existsb (errors_Is target) es
  | RecoveryRequiredError _ e' => errors_Is target e'
  | ErrText m => match target with ErrText m' => bool_decide (m = m') | _ => false end
  | ErrNotExist => false
  end.
Definition not_ready (detail : string) : error := Some (ErrWrap detail ErrResponseNotReady).

(** [NetworkDecision] *)
Record NetworkDecision := mkDecision {
  d_Target : string; d_RuleIDs : list string; d_Score : Z; d_Confidence : float64; d_ContributorCount : Z;
  d_SuggestedAction : string; d_BaseTTL : duration; d_Reason : string; d_EvidenceRoot : string; d_Timestamp : gotime;
}.

Record TargetReputation := mkReputation { tr_StrikeCount : Z; tr_LastStrikeAt : gotime }.
Record pendingNetworkChange := mkPending {
  pc_previous : option BlockEntry; pc_kernelAdded : bool; pc_proposedStrike : TargetReputation;
}.

(** [KineticConfig] and the other parts of [Config] the engine reads. *)
Record KineticConfig := mkKineticConfig {
  kc_EnforcementMode : string; kc_MaxStrikesPerSec : Z; kc_BanTTLSeconds : Z;
  kc_SubnetMinSources : Z; kc_IPv6SubnetMinSources : Z;
  kc_AutoContainSingleIP : bool; kc_AutoContainIPv4Subnet : bool; kc_AutoContainIPv6Subnet : bool;
  kc_EmergencyStopFile : string; kc_RequireSigned : bool; kc_MaxTTLSeconds : Z; kc_MaxBlockEntries : Z;
}.

Record KineticResponseEngine := mkResponse {
  kr_cfg : KineticConfig; kr_core : bool;
  kr_allowlistNets : list IPNet; kr_allowlistIPs : gset string;
  kr_reputation : gmap string TargetReputation; kr_pending : gmap string pendingNetworkChange;
  kr_tokensAvailable : Z; kr_tokenLastSec : Z; kr_bansEnforcedTotal : Z; kr_throttledTotal : Z;
}.
Definition eta_kr (r : KineticResponseEngine) : KineticResponseEngine :=
  mkResponse (kr_cfg r) (kr_core r) (kr_allowlistNets r) (kr_allowlistIPs r) (kr_reputation r) (kr_pending r)
    (kr_tokensAvailable r) (kr_tokenLastSec r) (kr_bansEnforcedTotal r) (kr_throttledTotal r).
Definition set_krcfg : KineticConfig -> KineticResponseEngine -> KineticResponseEngine := ltac:(setter eta_kr kr_cfg).
Definition set_nets : list IPNet -> KineticResponseEngine -> KineticResponseEngine := ltac:(setter eta_kr kr_allowlistNets).
Definition set_ips : gset string -> KineticResponseEngine -> KineticResponseEngine := ltac:(setter eta_kr kr_allowlistIPs).
Definition set_reputation : gmap string TargetReputation -> KineticResponseEngine -> KineticResponseEngine :=
  ltac:(setter eta_kr kr_reputation).
Definition set_pending : gmap string pendingNetworkChange -> KineticResponseEngine -> KineticResponseEngine :=
  ltac:(setter eta_kr kr_pending).
Definition set_tokens : Z -> KineticResponseEngine -> KineticResponseEngine := ltac:(setter eta_kr kr_tokensAvailable).
Definition set_tokenSec : Z -> KineticResponseEngine -> KineticResponseEngine := ltac:(setter eta_kr kr_tokenLastSec).
Definition set_bans : Z -> KineticResponseEngine -> KineticResponseEngine := ltac:(setter eta_kr kr_bansEnforcedTotal).
Definition set_throttled : Z -> KineticResponseEngine -> KineticResponseEngine := ltac:(setter eta_kr kr_throttledTotal).

(** ** The allowlist *)

Section Allowlist.
Context `{U : Unicode}.

Definition allow_item (item : string) (r : KineticResponseEngine) : KineticResponseEngine :=
  let item := TrimSpace item in
  if bool_decide (item = "") then r
  else if bool_decide ("/"%char ∈ bytes_of item) then
    match ParseCIDR item with
    | Some n => set_nets (kr_allowlistNets r ++ [n]) r
    | None => r
    end
  else
    match ParseIP item with
    | Some a => set_ips ({[IP_String a]} ∪ kr_allowlistIPs r) r
    | None => r
    end.

(** [UpdateAllowlist] *)
Definition UpdateAllowlist (allowlist : list string) (r : KineticResponseEngine) : KineticResponseEngine :=
  let r := set_ips {["127.0.0.1"; "::1"; "0.0.0.0"; "::"]} (set_nets [] r) in
  let r := match ParseCIDR "fe80::/10" with
           | Some n => set_nets (kr_allowlistNets r ++ [n]) r
           | None => r
           end in
  fold_left (fun r item => allow_item item r) allowlist r.
End Allowlist.

(** [isAllowlistProtectedLocked] *)
Definition isAllowlistProtectedLocked (target : string) (r : KineticResponseEngine) : bool :=
  match ParseIP target with
  | Some a => bool_decide (IP_String a ∈ kr_allowlistIPs r) || existsb (fun n => Contains n a) (kr_allowlistNets r)
  | None =>
      match ParseCIDR target with
      | None => true
      | Some t =>
          existsb (fun s => match ParseIP s with Some a => Contains t a | None => false end)
            (elements (kr_allowlistIPs r))
          || existsb (fun n => Contains t (n_IP n) || Contains n (n_IP t)) (kr_allowlistNets r)
      end
  end.

(** [isBroadSectorCIDR], [isSubnetCIDR], [isIPv4Subnet24], [isIPv6Subnet64] *)
Definition has_slash (s : string) : bool := bool_decide ("/"%char ∈ bytes_of s).
Definition with_cidr (target : string) (f : Z -> Z -> bool) : bool :=
  match ParseCIDR target with Some n => f (n_ones n) (n_bits n) | None => false end.
Definition isBroadSectorCIDR (target : string) : bool :=
  has_slash target && with_cidr target (fun ones bits =>
    ((bits =? 32) && (ones <=? 16)) || ((bits =? 128) && (ones <=? 48))).
Definition isSubnetCIDR (target : string) : bool :=
  has_slash target && with_cidr target (fun ones bits =>
    ((bits =? 32) && (ones =? 24)) || ((bits =? 128) && (ones =? 64))).
Definition isIPv4Subnet24 (target : string) : bool := with_cidr target (fun ones bits => (bits =? 32) && (ones =? 24)).
Definition isIPv6Subnet64 (target : string) : bool := with_cidr target (fun ones bits => (bits =? 128) && (ones =? 64)).

(** [autoContainAllowedLocked] *)
Definition autoContainAllowedLocked (target : string) (cfg : KineticConfig) : bool :=
  if isIPv4Subnet24 target then kc_AutoContainIPv4Subnet cfg
  else if isIPv6Subnet64 target then kc_AutoContainIPv6Subnet cfg
  else with_cidr target (fun ones bits =>
    (((bits =? 32) && (ones =? 32)) || ((bits =? 128) && (ones =? 128))) && kc_AutoContainSingleIP cfg).

(** Gate 3: the evidence a subnet needs. *)
Definition subnet_evidence (target : string) (cfg : KineticConfig) (d : NetworkDecision) : bool :=
  if isSubnetCIDR target then
    let m := if isIPv4Subnet24 target then kc_SubnetMinSources cfg
             else if isIPv6Subnet64 target then kc_IPv6SubnetMinSources cfg else 2 in
    let m := if m <? 2 then 2 else m in
    negb ((d_Score d <? 90) || fgt (fdiv (f64 9) (f64 10)) (d_Confidence d) || (d_ContributorCount d <? m))
  else true.

(** Gates 1, 2, 2.5 and 3 on the normalized target. *)
Definition static_gates (target : string) (d : NetworkDecision) (r : KineticResponseEngine) : error :=
  if isAllowlistProtectedLocked target r then Some ErrAllowlistProtected
  else if isBroadSectorCIDR target then Some ErrBroadSectorProtected
  else if negb (autoContainAllowedLocked target (kr_cfg r)) then Some ErrAutoContainDisabled
  else if negb (subnet_evidence target (kr_cfg r) d) then Some ErrSubnetEvidenceLow
  else None.

(** Gate 5: the response budget of the current second. *)
Definition take_token (sec : Z) (r : KineticResponseEngine) : bool * KineticResponseEngine :=
  let r := if sec =? kr_tokenLastSec r then r
           else set_tokens (kc_MaxStrikesPerSec (kr_cfg r)) (set_tokenSec sec r) in
  if kr_tokensAvailable r <=? 0 then (false, set_throttled (u64 (kr_throttledTotal r + 1)) r)
  else (true, set_tokens (kr_tokensAvailable r - 1) r).

(** Gate 6: the next reputation and the escalated TTL; [int] and [Duration]
    are 64 bits wide and a shift by 64 or more gives zero. *)
Definition proposed_strike (target : string) (now : gotime) (r : KineticResponseEngine) : TargetReputation :=
  match kr_reputation r !! target with
  | Some rep => if g_Sub now (tr_LastStrikeAt rep) <=? 48 * 3600 * Time.Second
                then mkReputation (i64 (tr_StrikeCount rep + 1)) now else mkReputation 1 now
  | None => mkReputation 1 now
  end.
Definition banTTL (base : duration) (strikes : Z) (cfg : KineticConfig) : duration :=
  let ttl := if base <=? 0 then seconds (kc_BanTTLSeconds cfg) else base in
  let ttl := if 1 <? strikes then i64 (ttl * i64 (Z.shiftl 1 (strikes - 1))) else ttl in
  let maxTTL := seconds (kc_MaxTTLSeconds cfg) in
  if (0 <? maxTTL) && (maxTTL <? ttl) then maxTTL else ttl.

(** What an automatic update may change of a block that was there before. *)
Definition merge_previous (previous entry : BlockEntry) : BlockEntry :=
  mkBlock (b_ID entry) (b_Target entry)
    (if bool_decide (b_Source previous = "kinetic") then b_Reason entry else b_Reason previous)
    (b_Source previous) (b_CreatedAt previous)
    (if Time.After (b_ExpiresAt previous) (b_ExpiresAt entry) then b_ExpiresAt previous else b_ExpiresAt entry)
    (b_Enforced previous || b_Enforced entry).

Record KSys (L K X : Type) := mkKSys { k_eng : KineticResponseEngine; k_sys : Sys L K X }.
Arguments mkKSys {L K X}.
Arguments k_eng {L K X}.
Arguments k_sys {L K X}.

Section Response.
Context {L K X : Type} `{SK : !Sinks L K X} `{CC : !CoreClient X} `{U : Unicode} `{C : Crypto} `{ED : Policy.Ed25519}
  `{JE : JSONDoc encryptedStorageEnvelope} `{EP : !EnvelopeProbe} `{JP : JSONDoc PolicyEnvelope}
  `{JD : JSONDoc PolicyDocument} `{JF : JSONDoc policyFloorDocument}.
Abbreviation sys := (Sys L K X).
Abbreviation ksys := (KSys L K X).

Definition set_sys (y : sys) (k : ksys) : ksys := mkKSys (k_eng k) y.
Definition set_eng (r : KineticResponseEngine) (k : ksys) : ksys := mkKSys r (k_sys k).
Definition on_sys {A} (m : M sys A) : M ksys A := zoom k_sys set_sys m.
Definition engine : M ksys KineticResponseEngine := gets k_eng.
Definition with_engine (f : KineticResponseEngine -> KineticResponseEngine) : M ksys unit :=
  modify (fun k => set_eng (f (k_eng k)) k).

(** [persistPolicy] *)
Definition persistPolicy : M sys error :=
  s ← gets y_state;
  err ← persist (Modes s).1 (Modes s).2;
  publish_policy ;;
  mret err.

(** [State.AddBlockAt] with the clock and the identifier it draws itself: an
    identifier only for a new entry. *)
Definition add_block_at (target reason source : string) (ttl : duration) (enforced : bool) (maxEntries : Z)
    (now : gotime) : M sys (goerror + BlockEntry) :=
  clock ← (if Time.IsZero (g_wall now) then now_mono else mret now);
  s ← gets y_state;
  match (AddBlockAt target reason source ttl enforced maxEntries now "" clock s).1 with
  | inl e => mret (inl e)
  | inr _ =>
      id ← (match BlockByTarget target s with
            | Some _ => mret ""
            | None => zoom y_w set_w mint
            end);
      let '(r, s') := AddBlockAt target reason source ttl enforced maxEntries now id clock s in
      on_state (fun _ => s') ;;
      mret r
  end.

Definition restore (b : BlockEntry) : M sys unit := on_state (RestoreBlock b).
Definition remove_id (id : string) : M sys unit := on_state (fun s => (RemoveBlockByID id s).2).

(** The decision's time, or the clock. *)
Definition decision_time (d : NetworkDecision) : M sys gotime :=
  if Time.IsZero (g_wall (d_Timestamp d)) then t ← now_utc; mret (wall_only t) else mret (d_Timestamp d).

(** Gate 0 *)
Definition emergency_gate_open (cfg : KineticConfig) : M sys error :=
  let path := TrimSpace (kc_EmergencyStopFile cfg) in
  if bool_decide (path = "") then mret None
  else
    stat ← on_world (os_Stat path);
    mret (match stat with
          | inr _ => Some ErrEmergencyStopActive
          | inl e => if is_not_exist e then None else Some (ErrWrap (error_text e) ErrEmergencyStopActive)
          end).

(** [validateActiveResponseLocked] *)
Definition live_gates (d : NetworkDecision) (r : KineticResponseEngine) (modes : string * string) (snap : Snapshot) : error :=
  if negb (bool_decide (d_SuggestedAction d = "contain")) && negb (bool_decide (d_SuggestedAction d = "block"))
  then not_ready "unsupported active action"
  else if bool_decide (kc_EnforcementMode (kr_cfg r) = "observe") then not_ready "kinetic enforcement mode is observe"
  else if bool_decide (d_SuggestedAction d = "block") && negb (bool_decide (kc_EnforcementMode (kr_cfg r) = "block"))
  then not_ready "rule requested block while kinetic mode is lower"
  else if negb (bool_decide (modes.1 = "enforce")) then not_ready "global network enforcement is off"
  else if negb (bool_decide (rs_Phase (sn_Release snap) = ReleasePhaseEnforce)) || negb (rs_Ready (sn_Release snap))
          || rs_EmergencyStop (sn_Release snap) then not_ready "release phase"
  else if match cv_Sensors (sn_Coverage snap) !! "xdp_ingress" with
          | None => true
          | Some cov => negb (bool_decide (sc_Status cov = CoverageOnline)) || negb (sc_Required cov)
          end then not_ready "required ingress sensor is not verified online"
  else if negb (sn_AllowlistReady snap) then not_ready "kernel management allowlist is not synchronized"
  else if kc_RequireSigned (kr_cfg r) && negb (pst_Verified (sn_Policy snap)) then not_ready "signed policy is not verified"
  else if bool_decide (d_SuggestedAction d = "block") && (negb (sn_CoreConnected snap) || negb (kr_core r))
  then not_ready "authenticated kernel core is unavailable"
  else None.
Definition validateActiveResponseLocked (d : NetworkDecision) (r : KineticResponseEngine) : M sys error :=
  s ← gets y_state;
  snap ← in_state State_Snapshot;
  mret (live_gates d r (Modes s) snap).

(** The compensation when the core refuses the rule. *)
Definition undo_list (previous : option BlockEntry) (entry : BlockEntry) : M sys unit :=
  match previous with
  | Some p => restore p
  | None => remove_id (b_ID entry)
  end.
Definition kernel_apply (core : bool) (previous : option BlockEntry) (entry : BlockEntry) : M sys error :=
  if negb core then undo_list previous entry ;; mret (not_ready "kernel core is nil")
  else
    err ← core_call (core_Add (b_Target entry));
    match err with
    | None => mret None
    | Some e =>
        deleteErr ← core_call (core_Delete (b_Target entry));
        undo_list previous entry ;;
        mret (match deleteErr with
              | Some de => Some (ErrJoin [ErrWrap "kernel LPM trie sync failed" e;
                                          ErrWrap (error_text de) ErrKernelStateDivergent])
              | None => Some (ErrWrap "kernel LPM trie sync failed" e)
              end)
    end.

(** [ExecuteDecision] from gate 6 on: the block list and the kernel. *)
Definition apply_decision (target : string) (d : NetworkDecision) (now : gotime) (r : KineticResponseEngine)
  : M sys (goerror + (BlockEntry * pendingNetworkChange)) :=
  let rep := proposed_strike target now r in
  let ttl := banTTL (d_BaseTTL d) (tr_StrikeCount rep) (kr_cfg r) in
  let enforceInKernel := bool_decide (kc_EnforcementMode (kr_cfg r) = "block") && bool_decide (d_SuggestedAction d = "block") in
  s ← gets y_state;
  let previous := BlockByTarget target s in
  let maxBlocks := if kc_MaxBlockEntries (kr_cfg r) <=? 0 then 250000 else kc_MaxBlockEntries (kr_cfg r) in
  res ← add_block_at target (d_Reason d) "kinetic" ttl enforceInKernel maxBlocks now;
  match res with
  | inl e => mret (inl e)
  | inr entry =>
      let entry := match previous with Some p => merge_previous p entry | None => entry end in
      (match previous with Some _ => restore entry | None => mret tt end) ;;
      let kernelAdded := enforceInKernel && negb (match previous with Some p => b_Enforced p | None => false end) in
      err ← (if kernelAdded then kernel_apply (kr_core r) previous entry else mret None);
      match err with
      | Some e => mret (inl e)
      | None => mret (inr (entry, mkPending previous kernelAdded rep))
      end
  end.

(** [ExecuteDecision] *)
Definition ExecuteDecision (d : NetworkDecision) : M ksys (goerror + BlockEntry) :=
  r ← engine;
  now ← on_sys (decision_time d);
  stop ← on_sys (emergency_gate_open (kr_cfg r));
  match stop with
  | Some e => mret (inl e)
  | None =>
      match normalizeTarget (d_Target d) with
      | inl e => mret (inl e)
      | inr target =>
          match static_gates target d r with
          | Some e => mret (inl e)
          | None =>
              live ← on_sys (validateActiveResponseLocked d r);
              match live with
              | Some e => mret (inl e)
              | None =>
                  let '(ok, r) := take_token (Time.Unix (g_wall now)) r in
                  with_engine (fun _ => r) ;;
                  if negb ok then mret (inl ErrRateLimitThrottled)
                  else
                    res ← on_sys (apply_decision target d now r);
                    match res with
                    | inl e => mret (inl e)
                    | inr (entry, change) =>
                        with_engine (fun r => set_pending (<[b_ID entry := change]> (kr_pending r)) r) ;;
                        mret (inr entry)
                    end
              end
          end
      end
  end.

Definition telemetry (f : KineticTelemetry -> KineticTelemetry) : M sys unit :=
  on_state (UpdateKineticTelemetry (Some f)).

Definition note_enforced (at_ : time) (t : KineticTelemetry) : KineticTelemetry :=
  mkKinetic (u64 (kt_BansEnforcedTotal t + 1)) (kt_BansExpiredTotal t) (u64 (kt_ResponseAppliedTotal t + 1))
    (kt_ResponseRollbackTotal t) (kt_ResponseFailedTotal t) (kt_ResponseSuppressedTotal t) (Some at_) (kt_Coverage t) (kt_Detection t).
Definition note_rollback (failed : bool) (t : KineticTelemetry) : KineticTelemetry :=
  mkKinetic (kt_BansEnforcedTotal t) (kt_BansExpiredTotal t) (kt_ResponseAppliedTotal t)
    (u64 (kt_ResponseRollbackTotal t + 1))
    (if failed then u64 (kt_ResponseFailedTotal t + 1) else kt_ResponseFailedTotal t)
    (kt_ResponseSuppressedTotal t) (kt_LastStrikeAt t) (kt_Coverage t) (kt_Detection t).
Definition note_suppressed (t : KineticTelemetry) : KineticTelemetry :=
  mkKinetic (kt_BansEnforcedTotal t) (kt_BansExpiredTotal t) (kt_ResponseAppliedTotal t) (kt_ResponseRollbackTotal t)
    (kt_ResponseFailedTotal t) (u64 (kt_ResponseSuppressedTotal t + 1)) (kt_LastStrikeAt t) (kt_Coverage t) (kt_Detection t).
Definition note_failed (t : KineticTelemetry) : KineticTelemetry :=
  mkKinetic (kt_BansEnforcedTotal t) (kt_BansExpiredTotal t) (kt_ResponseAppliedTotal t) (kt_ResponseRollbackTotal t)
    (u64 (kt_ResponseFailedTotal t + 1)) (kt_ResponseSuppressedTotal t) (kt_LastStrikeAt t) (kt_Coverage t) (kt_Detection t).

(** [CommitApplied]; the message keeps the target and the reason. *)
Definition CommitApplied (d : NetworkDecision) (entry : BlockEntry) : M ksys error :=
  r ← engine;
  (match kr_pending r !! b_ID entry with
   | Some change =>
       with_engine (fun r => set_pending (delete (b_ID entry) (kr_pending r))
         (set_reputation (<[b_Target entry := pc_proposedStrike change]> (kr_reputation r)) r))
   | None => mret tt
   end) ;;
  now ← on_sys (decision_time d);
  err ← on_sys (in_state (RecordEvidence
    (mkEvidence 0 0 (b_ID entry) (g_wall now) "high" "kinetic_containment" "kinetic_response_engine"
       ("Contained target " +:+ b_Target entry +:+ " (" +:+ d_Reason d +:+ ")") (b_Target entry) "" "" "" "")));
  with_engine (fun r => set_bans (u64 (kr_bansEnforcedTotal r + 1)) r) ;;
  on_sys (telemetry (note_enforced (g_wall now))) ;;
  mret err.

(** [RollbackApplied] *)
Definition RollbackApplied (entry : BlockEntry) : M ksys error :=
  r ← engine;
  match kr_pending r !! b_ID entry with
  | None => mret (errors_New "kinetic rollback transaction is unavailable")
  | Some change =>
      with_engine (fun r => set_pending (delete (b_ID entry) (kr_pending r)) r) ;;
      kernelErr ← (if pc_kernelAdded change then
                     if negb (kr_core r) then mret (errors_New "kernel rollback core is unavailable")
                     else on_sys (core_call (core_Delete (b_Target entry)))
                   else mret None);
      on_sys (undo_list (pc_previous change) entry) ;;
      mret (match kernelErr with
            | Some e => Some (ErrWrap (error_text e) ErrKernelStateDivergent)
            | None => None
            end)
  end.

(** [RecordApplyRollback] *)
Definition RecordApplyRollback (d : NetworkDecision) (entry : BlockEntry) (cause : goerror) (rollbackErr : error) : M sys unit :=
  now ← decision_time d;
  let failed := match rollbackErr with Some _ => true | None => false end in
  telemetry (note_rollback failed) ;;
  id ← zoom y_w set_w mint;
  _ ← in_state (RecordEvidence (mkEvidence 0 0 id (g_wall now) (if failed then "critical" else "high")
    "kinetic_apply_rollback" "kinetic_response_engine"
    ("Containment for " +:+ b_Target entry +:+ " rolled back: " +:+ error_text cause) (b_Target entry) "" "" "" ""));
  mret tt.

Definition RecordSuppressed : M sys unit := telemetry note_suppressed.
Definition RecordFailure : M sys unit := telemetry note_failed.

(** [UpdateConfig], with the configuration the runtime settings give. *)
Definition UpdateConfig (cfg : KineticConfig) (r : KineticResponseEngine) : KineticResponseEngine :=
  let r := set_krcfg cfg r in
  if kc_MaxStrikesPerSec cfg <? kr_tokensAvailable r then set_tokens (kc_MaxStrikesPerSec cfg) r else r.

(** ** [handleKineticDecisions] *)

Record KineticEvent := mkKEvent {
  ke_Time : gotime; ke_RuleID : string; ke_SourceIP : string; ke_Subnet : string; ke_Score : Z;
  ke_Confidence : float64; ke_Action : string; ke_Decision : string; ke_EvidenceID : string; ke_Sources : Z;
}.

(** [kineticEventTarget] *)
Definition kineticEventTarget (e : KineticEvent) : string :=
  if bool_decide (ke_RuleID e = "NET.INGRESS.SUBNET_V4") || bool_decide (ke_RuleID e = "NET.INGRESS.SUBNET_V6")
  then ke_Subnet e
  else if bool_decide (ke_RuleID e = "NET.INGRESS.WIDE_V4") then "" else ke_SourceIP e.

(** The strongest event per target. *)
Definition stronger (e cur : KineticEvent) : bool :=
  (ke_Score cur <? ke_Score e) || ((ke_Score e =? ke_Score cur) && fgt (ke_Confidence e) (ke_Confidence cur)).
Definition strongest_step (m : gmap string KineticEvent) (e : KineticEvent) : gmap string KineticEvent :=
  if negb (bool_decide (ke_Action e = "contain")) && negb (bool_decide (ke_Action e = "block")) then m
  else
    let target := kineticEventTarget e in
    if bool_decide (target = "") then m
    else match m !! target with
         | None => <[target := e]> m
         | Some cur => if stronger e cur then <[target := e]> m else m
         end.
Definition strongest (events : list KineticEvent) : gmap string KineticEvent := fold_left strongest_step events ∅.

Definition target_event (at_ : gotime) (severity kind source message target : string) : M sys unit :=
  in_state (AddEvent (mkEvent "" (g_wall at_) severity kind source message target)).

Definition expected_suppression (e : goerror) : bool :=
  existsb (fun t => errors_Is t e)
    [ErrAllowlistProtected; ErrBroadSectorProtected; ErrSubnetEvidenceLow; ErrRateLimitThrottled;
     ErrEmergencyStopActive; ErrResponseNotReady; ErrAutoContainDisabled].

Definition decision_of (banTTLSeconds : Z) (target : string) (e : KineticEvent) : NetworkDecision :=
  mkDecision target [ke_RuleID e] (ke_Score e) (ke_Confidence e) (ke_Sources e) (ke_Action e) (seconds banTTLSeconds)
    (ke_Decision e) (ke_EvidenceID e) (ke_Time e).

Definition fail_safe (reason : string) : M ksys unit := on_sys (_ ← FailSafe reason; mret tt).

Definition handle_one (banTTLSeconds : Z) (te : string * KineticEvent) : M ksys unit :=
  let '(target, e) := te in
  let d := decision_of banTTLSeconds target e in
  res ← ExecuteDecision d;
  match res with
  | inl err =>
      (if expected_suppression err then on_sys RecordSuppressed else on_sys RecordFailure) ;;
      on_sys (target_event (ke_Time e) (if expected_suppression err then "low" else "high")
        (if expected_suppression err then "kinetic.response_suppressed" else "kinetic.response_failed")
        "kinetic_response_engine" (ke_RuleID e +:+ ": " +:+ error_text err) target) ;;
      if errors_Is ErrKernelStateDivergent err then fail_safe "kinetic kernel apply compensation failed" else mret tt
  | inr entry =>
      err ← on_sys persistPolicy;
      match err with
      | Some pe =>
          rollbackErr ← RollbackApplied entry;
          on_sys (RecordApplyRollback d entry pe rollbackErr) ;;
          on_sys (target_event (ke_Time e) "critical" "kinetic.policy_persist_failed" "kinetic_runtime"
            (error_text pe) (b_Target entry)) ;;
          match rollbackErr with
          | Some _ => fail_safe "kinetic block policy rollback failed"
          | None => mret tt
          end
      | None =>
          err ← CommitApplied d entry;
          match err with
          | Some ee =>
              on_sys RecordFailure ;;
              on_sys (target_event (ke_Time e) "critical" "kinetic.evidence_commit_failed" "kinetic_response_engine"
                (error_text ee) (b_Target entry)) ;;
              fail_safe "kinetic containment evidence commit failed"
          | None =>
              on_sys (target_event (ke_Time e) "high" "kinetic.block_applied" "kinetic_response_engine"
                (ke_RuleID e +:+ " applied for " +:+ b_Target entry) (b_Target entry))
          end
      end
  end.

(** The loop visits the targets in one of the orders of the map. *)
Definition handleKineticDecisions (banTTLSeconds : Z) (order : list string) (events : list KineticEvent) : M ksys unit :=
  for_each (handle_one banTTLSeconds)
    (omap (fun t => (fun e => (t, e)) <$> strongest events !! t) order).
End Response.
