(* ===== verification/BlockOps.v ===== *)
(** * Operator and expiry transactions on the block list

    The control API's [addBlock], [deleteBlock] and [undoBlock] with the
    server-side undo tokens (src/control/server.go), and the expiry pass
    [reconcileExpiredNetworkBlocks] (src/control/block_expiry.go). Each changes
    the list, the kernel and the signed policy as one transaction. A request
    arrives decoded ([None]: the body was refused); a reply keeps its status
    code, message and cause. *)

From Stdlib Require Import ZArith Lia Ascii String.
From stdpp Require Import base gmap strings list sorting.
From S2P Require Import Prelude.
From S2P Require Import GoLib.
From S2P Require Import Text.
From S2P Require Import World.
From S2P Require Import Storage.
From S2P Require Import Exec.
From S2P Require Import NetIP.
From S2P Require Import Policy.
From S2P Require Import Evidence.
From S2P Require Import State.
From S2P Require Import Snapshot.
From S2P Require Import Release.
From S2P Require Import RateLimit.
From S2P Require Import KineticResponse.

Inductive reply :=
| Refused (code : Z) (message : string) (cause : error)
| NotFound
| Created (b : BlockEntry)
| Removed (b : BlockEntry) (token : string).

(** [undoEntry] and [undoEntryTTL] *)
Record undoEntry := mkUndo { u_kind : string; u_block : BlockEntry; u_target : string; u_expires : time }.
Definition undoEntryTTL : duration := 5 * Time.Minute.

(** [NetworkRuntimeSettings], the limits the handlers read. *)
Record NetworkRuntimeSettings := mkNetwork {
  nr_DefaultTTLSeconds : Z; nr_MaxTTLSeconds : Z; nr_MaxBlockEntries : Z;
}.

(** Number of runes of a text: an invalid byte counts as one. *)
Fixpoint rune_count (fuel : nat) (l : list ascii) : Z :=
  match fuel, l with
  | S fuel, _ :: _ => 1 + rune_count fuel (drop (Nat.max 1 (rune_len l)) l)
  | _, _ => 0
  end.
Definition runes (s : string) : Z := rune_count (String.length s) (bytes_of s).

Record Server (L K X : Type) := mkServer {
  v_sys : Sys L K X; v_kinetic : KineticResponseEngine; v_network : NetworkRuntimeSettings;
  v_undo : gmap string undoEntry;
}.
Arguments mkServer {L K X}.
Arguments v_sys {L K X}.
Arguments v_kinetic {L K X}.
Arguments v_network {L K X}.
Arguments v_undo {L K X}.

Section Handlers.
Context {L K X : Type} `{SK : !Sinks L K X} `{CC : !CoreClient X} `{U : Unicode} `{C : Crypto} `{ED : Policy.Ed25519}
  `{JE : JSONDoc encryptedStorageEnvelope} `{EP : !EnvelopeProbe} `{JP : JSONDoc PolicyEnvelope}
  `{JD : JSONDoc PolicyDocument} `{JF : JSONDoc policyFloorDocument}.
Abbreviation sys := (Sys L K X).
Abbreviation server := (Server L K X).

Definition set_vsys (y : sys) (v : server) : server := mkServer y (v_kinetic v) (v_network v) (v_undo v).
Definition set_undo (u : gmap string undoEntry) (v : server) : server := mkServer (v_sys v) (v_kinetic v) (v_network v) u.
Definition with_sys {A} (m : M sys A) : M server A := zoom v_sys set_vsys m.

(** [State.AddBlock] *)
Definition add_block (target reason source : string) (ttl : duration) (enforced : bool) (maxEntries : Z)
  : M sys (goerror + BlockEntry) :=
  clock ← now_mono;
  add_block_at target reason source ttl enforced maxEntries (g_UTC clock).

Definition tell (severity kind source message target : string) : M sys unit :=
  in_state (AddEvent (mkEvent "" 0 severity kind source message target)).
Definition note_offline : M sys unit := on_state (SetCore false "offline").

(** The kernel rule of a block that could not be kept: removed again, and the
    fail-safe when that fails. [joined] says whether the reply names the
    fail-safe's error too. *)
Definition take_back (target fail_reason : string) (err : goerror) (joined : bool) (otherwise : reply) : M sys reply :=
  rollbackErr ← core_call (core_Delete target);
  match rollbackErr with
  | Some re =>
      failSafeErr ← FailSafe fail_reason;
      mret (Refused 503 "kernel transaction reconciliation failed"
              (errors_Join [Some err; Some re; if joined then failSafeErr else None]))
  | None => mret otherwise
  end.

(** The part [addBlock] and [undoBlock] share: kernel first, then the list,
    then the signed policy. *)
Definition install (target reason source : string) (ttl : duration) (maxEntries : Z)
    (on_list_error : bool -> goerror -> M sys reply) (on_persist_error : bool -> BlockEntry -> goerror -> M sys reply)
    (done : BlockEntry -> M sys reply) : M sys reply :=
  s ← gets y_state;
  let enforce := bool_decide ((Modes s).1 = "enforce") in
  err ← (if enforce then core_call (core_Add target) else mret None);
  match err with
  | Some e =>
      note_offline ;;
      mret (Refused 503 "kernel core unavailable" (Some e))
  | None =>
      res ← add_block target reason source ttl enforce maxEntries;
      match res with
      | inl e => on_list_error enforce e
      | inr b =>
          err ← persistPolicy;
          match err with
          | Some e => remove_id (b_ID b) ;; on_persist_error enforce b e
          | None => done b
          end
      end
  end.

Definition persist_refused (err : goerror) : reply := Refused 500 "signed policy persistence failed" (Some err).

(** [addBlock] after the request was decoded, normalized and cleared. *)
Definition add_checked (target reason : string) (ttl : Z) (network : NetworkRuntimeSettings) : M sys reply :=
  install target reason "manual" (seconds ttl) (nr_MaxBlockEntries network)
    (fun enforced e =>
       let refused := Refused 400 (error_text e) (Some e) in
       if enforced then take_back target "manual block rollback failed" e true refused else mret refused)
    (fun enforced b e =>
       if enforced then take_back (b_Target b) "manual block policy rollback failed" e true (persist_refused e)
       else mret (persist_refused e))
    (fun b =>
       tell "high" "block.added" "operator" "Signed block rule activated" (b_Target b) ;;
       mret (Created b)).

(** [addBlock] *)
Definition addBlock (request : option (string * string * Z)) : M server reply :=
  match request with
  | None => mret (Refused 400 "invalid request" None)
  | Some (target, reason, ttl) =>
      v ← get;
      let network := v_network v in
      let ttl := if ttl =? 0 then nr_DefaultTTLSeconds network else ttl in
      if (ttl <? 60) || (nr_MaxTTLSeconds network <? ttl) then mret (Refused 400 "TTL outside policy" None)
      else
        match normalizeTarget target with
        | inl e => mret (Refused 400 "invalid target" (Some e))
        | inr target =>
            if isAllowlistProtectedLocked target (v_kinetic v)
            then mret (Refused 409 "target overlaps immutable management allowlist" (Some ErrAllowlistProtected))
            else with_sys (add_checked target reason ttl network)
        end
  end.

(** [requireProtectionRemovalConfirmation] *)
Definition confirmed (expected : string) (request : option (string * string)) : option reply :=
  match request with
  | None => Some (Refused 400 ("confirmation required: " +:+ expected) None)
  | Some (confirmation, reason) =>
      let n := runes (TrimSpace reason) in
      if (n <? 8) || (240 <? n) then Some (Refused 400 "a reason of 8-240 characters is required" None)
      else if negb (bool_decide (TrimSpace confirmation = expected))
      then Some (Refused 400 ("confirmation required: " +:+ expected) None)
      else None
  end.

(** [randomBytesHex] *)
Definition randomBytesHex (n : nat) : M sys (goerror + string) :=
  r ← on_world (rand_Read n);
  mret (match r with inl e => inl e | inr b => inr (hex_EncodeToString b) end).

(** [newUndoToken] *)
Definition newUndoToken (entry : undoEntry) : M server (goerror + string) :=
  r ← with_sys (randomBytesHex 16);
  match r with
  | inl e => mret (inl e)
  | inr token =>
      now ← with_sys now_utc;
      v ← get;
      let live := filter (fun kv => Time.After (u_expires kv.2) now = true) (v_undo v) in
      modify (set_undo live) ;;
      if 256 <=? Z.of_nat (size live) then mret (inl (ErrText "undo capacity reached"))
      else
        modify (set_undo (<[token := mkUndo (u_kind entry) (u_block entry) (u_target entry) (Time.Add now undoEntryTTL)]> live)) ;;
        mret (inr token)
  end.

(** [takeUndoToken]: a token is used up by the attempt. *)
Definition takeUndoToken (token kind : string) : M server (option undoEntry) :=
  now ← with_sys now_utc;
  v ← get;
  let token := TrimSpace token in
  match v_undo v !! token with
  | None => mret None
  | Some e =>
      modify (set_undo (delete token (v_undo v))) ;;
      mret (if bool_decide (u_kind e = kind) && Time.After (u_expires e) now then Some e else None)
  end.

(** [deleteBlock] once the entry left the list. *)
Definition remove_checked (b : BlockEntry) : M sys (option reply) :=
  err ← (if b_Enforced b then core_call (core_Delete (b_Target b)) else mret None);
  match err with
  | Some e => restore b ;; mret (Some (Refused 503 "kernel core rejected rule removal" (Some e)))
  | None =>
      err ← persistPolicy;
      match err with
      | None => mret None
      | Some e =>
          restore b ;;
          if b_Enforced b then
            rollbackErr ← core_call (core_Add (b_Target b));
            match rollbackErr with
            | Some re =>
                tell "critical" "policy.rollback_failed" "policy"
                  "Kernel rollback failed after signed policy persistence error" (b_Target b) ;;
                failSafeErr ← FailSafe "block deletion policy rollback failed";
                mret (Some (Refused 503 "kernel transaction reconciliation failed"
                              (errors_Join [Some e; Some re; failSafeErr])))
            | None => mret (Some (persist_refused e))
            end
          else mret (Some (persist_refused e))
      end
  end.

(** [deleteBlock] *)
Definition deleteBlock (id : string) (request : option (string * string)) : M server reply :=
  if bool_decide (id = "") then mret (Refused 400 "missing rule id" None)
  else
    v ← get;
    match BlockByID id (y_state (v_sys v)) with
    | None => mret NotFound
    | Some b =>
        match confirmed ("REMOVE BLOCK " +:+ b_Target b) request with
        | Some refused => mret refused
        | None =>
            match RemoveBlockByID id (y_state (v_sys v)) with
            | (None, _) => mret NotFound
            | (Some b, s) =>
                with_sys (on_state (fun _ => s)) ;;
                r ← with_sys (remove_checked b);
                match r with
                | Some refused => mret refused
                | None =>
                    token ← newUndoToken (mkUndo "block" b "" 0);
                    with_sys (tell "info" "block.removed" "operator"
                      "Signed block rule removed; a short-lived server-side undo is available" (b_Target b)) ;;
                    mret (Removed b (match token with inr t => t | inl _ => "" end))
                end
            end
        end
    end.

(** [undoBlock] with a valid token. *)
Definition undo_checked (b : BlockEntry) (network : NetworkRuntimeSettings) : M sys reply :=
  now ← now_utc;
  let remaining := Time.Sub (b_ExpiresAt b) now in
  let remaining := if remaining <? Time.Minute then Time.Minute else remaining in
  let remaining := if seconds (nr_MaxTTLSeconds network) <? remaining then seconds (nr_MaxTTLSeconds network) else remaining in
  install (b_Target b) (b_Reason b) "operator.undo" remaining (nr_MaxBlockEntries network)
    (fun enforced e =>
       (if enforced then _ ← core_call (core_Delete (b_Target b)); mret tt else mret tt) ;;
       mret (Refused 409 "undo rejected" (Some e)))
    (fun enforced r e =>
       if enforced then take_back (b_Target r) "block undo policy rollback failed" e false (persist_refused e)
       else mret (persist_refused e))
    (fun r =>
       tell "high" "block.restored" "operator" "Removed block rule restored through the server-side undo window" (b_Target r) ;;
       mret (Created r)).

(** [undoBlock] *)
Definition undoBlock (request : option string) : M server reply :=
  match request with
  | None => mret (Refused 400 "invalid undo request" None)
  | Some token =>
      e ← takeUndoToken token "block";
      match e with
      | None => mret (Refused 404 "undo token is unknown or expired" None)
      | Some entry =>
          v ← get;
          with_sys (undo_checked (u_block entry) (v_network v))
      end
  end.

(** ** Expiry *)

(** One candidate of the pass: [None] when the rule was removed, the deferred
    error when it had to stay. *)
Definition expire_one (core : bool) (b : BlockEntry) : M sys error :=
  if negb (b_Enforced b) then mret None
  else if negb core then
    restore b ;;
    tell "warning" "block.expiry_deferred" "policy"
      "Kernel core unavailable for expired rule removal; signed policy retained the rule" (b_Target b) ;;
    mret (Some (ErrText ("cannot remove enforced block " +:+ b_Target b +:+ ": kernel core unavailable")))
  else
    err ← core_call (core_Delete (b_Target b));
    match err with
    | None => mret None
    | Some e =>
        restore b ;;
        tell "warning" "block.expiry_deferred" "policy"
          "Kernel core rejected expired rule removal; signed policy retained the rule" (b_Target b) ;;
        mret (Some (ErrWrap ("delete expired block " +:+ b_Target b) e))
    end.

Fixpoint expire_all (core : bool) (l : list BlockEntry) : M sys (list BlockEntry * list goerror) :=
  match l with
  | [] => mret ([], [])
  | b :: l =>
      err ← expire_one core b;
      rest ← expire_all core l;
      mret (match err with
            | None => (b :: rest.1, rest.2)
            | Some e => (rest.1, e :: rest.2)
            end)
  end.

(** The rollback when the policy could not be persisted. *)
Fixpoint put_back (core : bool) (l : list BlockEntry) : M sys (list goerror) :=
  match l with
  | [] => mret []
  | b :: l =>
      restore b ;;
      err ← (if negb (b_Enforced b) then mret None
             else if negb core
             then mret (Some (ErrText ("restore enforced block " +:+ b_Target b +:+ ": kernel core unavailable")))
             else (e ← core_call (core_Add (b_Target b)); mret (errorf_w ("restore enforced block " +:+ b_Target b) e)));
      rest ← put_back core l;
      mret (match err with None => rest | Some e => e :: rest end)
  end.

(** The records of a committed pass: the number of kinetic bans and the
    evidence errors. *)
Fixpoint record_expired (now : time) (l : list BlockEntry) : M sys (Z * list goerror) :=
  match l with
  | [] => mret (0, [])
  | b :: l =>
      in_state (AddEvent (mkEvent "" now "info" "block.expired" "policy" "Temporary block expired" (b_Target b))) ;;
      (if negb (bool_decide (b_Source b = "kinetic")) then record_expired now l
       else
         id ← zoom y_w set_w mint;
         err ← in_state (RecordEvidence (mkEvidence 0 0 id now "info" "kinetic_rollback" "kinetic_response_engine"
           "Kinetic containment expired and was removed from kernel/policy state" (b_Target b) "" "" "" ""));
         rest ← record_expired now l;
         mret (u64 (rest.1 + 1), match err with
                                 | None => rest.2
                                 | Some e => ErrWrap ("record expiry evidence for " +:+ b_Target b) e :: rest.2
                                 end))
  end.

Definition note_bans_expired (n : Z) (t : KineticTelemetry) : KineticTelemetry :=
  mkKinetic (kt_BansEnforcedTotal t) (u64 (kt_BansExpiredTotal t + n)) (kt_ResponseAppliedTotal t)
    (kt_ResponseRollbackTotal t) (kt_ResponseFailedTotal t) (kt_ResponseSuppressedTotal t) (kt_LastStrikeAt t) (kt_Coverage t) (kt_Detection t).

Definition joined (es : list goerror) : error := errors_Join (map Some es).

(** The rest of the pass once the policy is written: the records, the
    telemetry and the fail-safe when evidence could not be recorded. *)
Definition commit_expired (now : time) (removed : list BlockEntry) (deferred : list goerror) : M sys (list BlockEntry * error) :=
  counts ← record_expired now removed;
  (if 0 <? counts.1 then telemetry (note_bans_expired counts.1) else mret tt) ;;
  match joined counts.2 with
  | Some ee =>
      tell "critical" "kinetic.expiry_evidence_failed" "kinetic_response_engine" (error_text ee) "" ;;
      _ ← FailSafe "kinetic expiry evidence recording failed";
      mret (removed, errors_Join [Some ee; joined deferred])
  | None => mret (removed, joined deferred)
  end.

(** [reconcileExpiredNetworkBlocks] *)
Definition reconcileExpiredNetworkBlocks (now : gotime) : M sys (list BlockEntry * error) :=
  mono ← now_mono;
  y ← get;
  let core := rc_core (y_ctl y) in
  let '(candidates, s) := Expired now mono (y_state y) in
  on_state (fun _ => s) ;;
  match candidates with
  | [] => mret ([], None)
  | _ =>
      r ← expire_all core candidates;
      let '(removed, deferred) := r in
      match removed with
      | [] => mret ([], joined deferred)
      | _ =>
          err ← persistPolicy;
          match err with
          | Some e =>
              rollbackErrs ← put_back core removed;
              (match joined rollbackErrs with
               | Some re =>
                   failSafeErr ← FailSafe "expired block policy rollback failed";
                   tell "critical" "policy.rollback_failed" "policy"
                     (from_option error_text "" (errors_Join [Some re; failSafeErr])) ""
               | None => mret tt
               end) ;;
              tell "critical" "policy.persist_failed" "policy"
                "Failed to persist signed policy after expiry; removed rules were restored" "" ;;
              mret ([], errors_Join [Some (ErrWrap "persist policy after block expiry" e); joined rollbackErrs])
          | None =>
              commit_expired (g_wall now) removed deferred
          end
      end
  end.
End Handlers.
