(* ===== verification/BlockFacts.v ===== *)
(** * Steps of the block transactions

    What the list and kernel steps shared by the operator, expiry and kinetic
    transactions do: the list they leave, the kernel they leave, and that
    nothing else of the system changes. *)

From Stdlib Require Import ZArith Lia Ascii String.
From stdpp Require Import base gmap strings list sorting.
From S2P Require Import Prelude.
From S2P Require Import GoLib.
From S2P Require Import Text.
From S2P Require Import World.
From S2P Require Import Storage.
From S2P Require Import Policy.
From S2P Require Import PolicyFacts.
From S2P Require Import RateLimit.
From S2P Require Import Evidence.
From S2P Require Import NetIP.
From S2P Require Import NetIPFacts.
From S2P Require Import Exec.
From S2P Require Import State.
From S2P Require Import Snapshot.
From S2P Require Import StateFacts.
From S2P Require Import Release.
From S2P Require Import ReleaseFrames.
From S2P Require Import ReleaseFacts.
From S2P Require Import KineticResponse.
From S2P Require Import BlockOps.

Section Steps.
Context {L K X : Type} `{SK : !Sinks L K X} `{QS : !QuietSinks L K X} `{CC : !CoreClient X} `{CL : !CoreLaws X}
  `{U : Unicode} `{C : Crypto} `{ED : Policy.Ed25519} `{JE : JSONDoc encryptedStorageEnvelope} `{EP : !EnvelopeProbe}
  `{JP : JSONDoc PolicyEnvelope} `{JD : JSONDoc PolicyDocument} `{JF : JSONDoc policyFloorDocument}.
Abbreviation sys := (Sys L K X).
Implicit Types (y : sys) (b : BlockEntry) (m : gmap string BlockEntry).

Abbreviation blocks y := (st_blocks (y_state y)).

(** ** The list *)

(** Identifiers the random source of this run yields are not in use. *)
Definition fresh_ids y : Prop := forall (w : world X) id w', w_oracle w = w_oracle (y_w y) -> mint w = Some (id, w') ->
  forall t b, blocks y !! t = Some b -> b_ID b <> id.

Lemma remove_unique t b (s : State L K) : st_blocks s !! t = Some b ->
  (forall t' b', st_blocks s !! t' = Some b' -> b_ID b' = b_ID b -> t' = t) ->
  RemoveBlockByID (b_ID b) s = (Some b, drop_block t s).
Proof.
  intros Hb Hu. unfold RemoveBlockByID. destruct (list_find _ (block_list s)) as [[i [t' b']]|] eqn:Hf.
  - apply list_find_Some in Hf as (Hi & Hid & _). apply list_elem_of_lookup_2 in Hi. unfold block_list in Hi.
    apply elem_of_map_to_list in Hi. cbn in Hid. pose proof (Hu _ _ Hi Hid). simplify_eq. done.
  - apply list_find_None in Hf. rewrite Forall_forall in Hf. exfalso. apply (Hf (t, b)); [|done].
    unfold block_list. by apply elem_of_map_to_list.
Qed.

(** Everything but the list and the kernel. *)
Definition rest y :=
  (frozen (y_ctl y), (phase y, kernel_state y, verified y), (st_enforcement (y_state y), st_releaseXDRMode (y_state y))).
Record becomes y m (k : gset string) y' : Prop := {
  be_rest : rest y' = rest y;
  be_blocks : blocks y' = m;
  be_kern : kern y' = k;
}.
Lemma quiet_becomes y y' : quiet y y' -> becomes y (blocks y) (kern y) y'.
Proof.
  intros (H1 & H2 & H3 & H4 & H5 & H6 & H7 & H8)%quiet_inv. constructor; [|done|unfold kern; by rewrite H8].
  unfold rest. by rewrite H1, H2, H3, H4, H5, H6.
Qed.
Lemma becomes_trans y m k y1 m' k' y2 : becomes y m k y1 -> becomes y1 m' k' y2 -> becomes y m' k' y2.
Proof. intros [H1 _ _] [H2 H3 H4]. constructor; [congruence|done|done]. Qed.
Lemma becomes_quiet y m k y1 y2 : becomes y m k y1 -> quiet y1 y2 -> becomes y m k y2.
Proof. intros [H1 H2 H3] [H4 H5 H6]%quiet_becomes. constructor; congruence. Qed.
Lemma quiet_becomes_trans y y1 m k y2 : quiet y y1 -> becomes y1 m k y2 -> becomes y m k y2.
Proof. intros H. apply becomes_trans with (m := blocks y) (k := kern y). by apply quiet_becomes. Qed.

Lemma on_state_becomes f y a y' : on_state (L := L) (K := K) (X := X) f y = Some (a, y') ->
  (st_enforcement (f (y_state y)), st_releaseXDRMode (f (y_state y))) = (st_enforcement (y_state y), st_releaseXDRMode (y_state y)) ->
  becomes y (st_blocks (f (y_state y))) (kern y) y'.
Proof.
  unfold on_state, in_state. intros H Hm. apply zoom_inv in H as ([s w] & [= <- <- <-] & ->). constructor; try done.
  unfold rest. cbn. injection Hm as -> ->. done.
Qed.
Lemma restore_becomes b y a y' : restore b y = Some (a, y') -> becomes y (<[b_Target b := b]> (blocks y)) (kern y) y'.
Proof. intros H. by apply on_state_becomes in H. Qed.
Lemma core_becomes op y e y' : core_call (L := L) (K := K) op y = Some (e, y') -> becomes y (blocks y) (kern y') y'.
Proof. unfold core_call, on_world. intros H. by apply zoom_inv in H as (w & _ & ->). Qed.
Lemma core_world op y e y' : core_call (L := L) (K := K) op y = Some (e, y') -> op (y_w y) = (e, y_w y').
Proof. unfold core_call, on_world. intros H. by apply zoom_inv in H as (w & [= H] & ->). Qed.

Lemma core_add t y e y' : core_call (L := L) (K := K) (core_Add t) y = Some (e, y') ->
  becomes y (blocks y) (kern y') y' /\ kern y ⊆ kern y' /\ kern y' ⊆ {[t]} ∪ kern y /\ (e = None -> t ∈ kern y').
Proof.
  intros H. split; [by eapply core_becomes|]. apply core_world in H. unfold kern. split_and!.
  - by eapply add_keeps.
  - by eapply add_only.
  - intros ->. by eapply add_ok.
Qed.
Lemma core_delete t y e y' : core_call (L := L) (K := K) (core_Delete t) y = Some (e, y') ->
  becomes y (blocks y) (kern y') y' /\ kern y ⊆ {[t]} ∪ kern y' /\ kern y' ⊆ kern y /\ (e = None -> t ∉ kern y').
Proof.
  intros H. split; [by eapply core_becomes|]. apply core_world in H. unfold kern. split_and!.
  - by eapply delete_only.
  - by eapply delete_shrinks.
  - intros ->. by eapply delete_ok.
Qed.

Lemma persistPolicy_quiet : moves quiet (persistPolicy (L := L) (K := K) (X := X)).
Proof. unfold persistPolicy. moves_solve. Qed.

(** What an addition to the list leaves. *)
Definition added_to y target (e : bool) (src : string) b : Prop :=
  b_Enforced b = e /\
  match blocks y !! target with
  | Some old => b_ID b = b_ID old /\ b_Target b = b_Target old /\ b_Source b = b_Source old /\ b_CreatedAt b = b_CreatedAt old
  | None => b_Target b = target /\ b_Source b = src /\
            exists (w : world X) w', w_oracle w = w_oracle (y_w y) /\ mint w = Some (b_ID b, w')
  end.

Lemma AddBlockAt_entry t r src ttl e mx now id clock (s : State L K) b s' :
  AddBlockAt t r src ttl e mx now id clock s = (inr b, s') ->
  st_enforcement s' = st_enforcement s /\ st_releaseXDRMode s' = st_releaseXDRMode s /\
  exists target, normalizeTarget t = inr target /\ st_blocks s' = <[target := b]> (st_blocks s) /\ b_Enforced b = e /\
  match st_blocks s !! target with
  | Some old => b_ID b = b_ID old /\ b_Target b = b_Target old /\ b_Source b = b_Source old /\ b_CreatedAt b = b_CreatedAt old
  | None => b_Target b = target /\ b_Source b = src /\ b_ID b = id
  end.
Proof.
  unfold AddBlockAt. intros H. destruct (normalizeTarget t) as [|target]; [done|].
  destruct (_ || _); [done|]. destruct (_ <=? 0); [done|].
  destruct (st_blocks s !! target) as [old|] eqn:Ho; [|destruct (_ <=? _); [done|]]; simplify_eq; cbn;
    (split_and!; [done|done|]); exists target; rewrite Ho; done.
Qed.

Lemma AddBlockAt_again t r src ttl e mx now id id' clock (s : State L K) b s1 :
  AddBlockAt t r src ttl e mx now id clock s = (inr b, s1) -> exists b' s2, AddBlockAt t r src ttl e mx now id' clock s = (inr b', s2).
Proof.
  unfold AddBlockAt. destruct (normalizeTarget t) as [|target]; [done|]. destruct (_ || _); [done|]. destruct (_ <=? 0); [done|].
  destruct (st_blocks s !! target); [eauto|]. destruct (_ <=? _); [done|eauto].
Qed.

Lemma add_block_at_inv t r src ttl e mx now y res y' : add_block_at t r src ttl e mx now y = Some (res, y') ->
  match res with
  | inl _ => still y y'
  | inr b => exists target, normalizeTarget t = inr target /\ becomes y (<[target := b]> (blocks y)) (kern y) y' /\
               added_to y target e src b
  end.
Proof.
  intros H. unfold add_block_at in H. apply bind_inv in H as (clock & y1 & H1 & H).
  assert (still y y1) as HS. { destruct (Time.IsZero _); [by eapply now_mono_still|]. by apply ret_inv in H1 as [_ ->]. }
  apply bind_inv in H as (s & y2 & H2 & H). apply gets_inv in H2 as [-> ->].
  destruct (AddBlockAt t r src ttl e mx now "" clock (y_state y1)) as [[er|b0] s0] eqn:Hr0; cbn [fst] in H;
    [apply ret_inv in H as [-> ->]; done|].
  apply bind_inv in H as (id & y3 & H3 & H). eapply AddBlockAt_again in Hr0 as (b & s1 & Hr1). rewrite Hr1 in H.
  apply bind_inv in H as (u & y4 & H4 & H). apply ret_inv in H as [-> ->].
  pose proof HS as (_ & Hst & _ & _ & _ & Ho). apply AddBlockAt_entry in Hr1 as (He & Hx & target & Hn & Hb & Hen & Hold).
  exists target. split; [done|].
  assert (quiet y y3 /\ (blocks y !! target = None -> exists (w : world X) w', w_oracle w = w_oracle (y_w y) /\ mint w = Some (id, w'))) as [HQ Hid].
  { unfold BlockByTarget in H3. rewrite Hn, Hst in H3. destruct (blocks y !! target).
    - apply ret_inv in H3 as [_ ->]. split; [by apply still_quiet|done].
    - split; [transitivity y1; [by apply still_quiet|by eapply mint_quiet]|]. intros _. apply zoom_inv in H3 as (w & H3 & _). eauto. }
  split.
  - eapply quiet_becomes_trans; [exact HQ|]. apply quiet_inv in HQ as (_ & _ & _ & _ & Hq1 & Hq2 & Hq3 & Hq4).
    apply on_state_becomes in H4; [|rewrite He, Hx, Hst, Hq1, Hq2; done]. rewrite Hb, Hst in H4. unfold kern at 1 in H4. by rewrite Hq4 in H4.
  - split; [done|]. rewrite Hst in Hold. destruct (blocks y !! target); [done|]. destruct Hold as (H5 & H6 & H7).
    rewrite H7. split_and!; [done|done|by apply Hid].
Qed.
End Steps.

(** ** The signed policy after the write *)

Section Filing.
Context {L K X : Type} `{SK : !Sinks L K X} `{QS : !QuietSinks L K X} `{CC : !CoreClient X}
  `{U : Unicode} `{C : Crypto} `{CRL : !CryptoLaws C} `{ED : Policy.Ed25519} `{JE : JSONDoc encryptedStorageEnvelope}
  `{JEL : !JSONDocLaws encryptedStorageEnvelope} `{EP : !EnvelopeProbe}
  `{JP : JSONDoc PolicyEnvelope} `{JD : JSONDoc PolicyDocument} `{JF : JSONDoc policyFloorDocument}.
Abbreviation sys := (Sys L K X).
Implicit Types (y : sys) (b : BlockEntry).
Abbreviation blocks y := (st_blocks (y_state y)).

(** A step that only reads the clock or the random source, or only announces
    an event. *)
Inductive announces y : sys -> Prop :=
| an_still y' : still y y' -> announces y y'
| an_event e u y' : in_state (AddEvent e) y = Some (u, y') -> announces y y'.

(** [doc] is the signed policy of [y]: the state file held it, signed with the
    key of the policy store, before the last announcements of the run, and it
    has the mode of [y] and exactly those blocks of [y] that had not expired
    at the time it is stamped with. *)
Record filed (doc : PolicyDocument) y : Prop := {
  fi_disk : exists y1, signed_file (y_policy y1) (y_w y1) doc /\ rtc announces y1 y;
  fi_blocks : forall b, b ∈ pe_Blocks (pd_Envelope doc) <->
    blocks y !! b_Target b = Some b /\ Time.After (b_ExpiresAt b) (pe_UpdatedAt (pd_Envelope doc)) = true;
  fi_mode : pe_Enforcement (pd_Envelope doc) = (Modes (y_state y)).1;
}.

Lemma announces_quiet y y' : announces y y' -> quiet y y'.
Proof. intros [y1 H|e u y1 H]; [by apply still_quiet|]. revert H. apply in_state_quiet, AddEvent_recorded. Qed.
Lemma announces_filed doc y y' : announces y y' -> filed doc y -> filed doc y'.
Proof.
  intros HA [(y1 & HF & HR) HB HM]. pose proof (announces_quiet _ _ HA) as HQ%quiet_inv.
  destruct HQ as (_ & _ & _ & _ & He & _ & Hb & _). constructor.
  - exists y1. split; [done|]. exact (rtc_r _ _ _ HR HA).
  - intros b. by rewrite Hb.
  - rewrite HM. cbn. by rewrite He.
Qed.
Lemma tell_announces severity kind source message target y u y' :
  tell (L := L) (K := K) (X := X) severity kind source message target y = Some (u, y') -> announces y y'.
Proof. apply an_event. Qed.

(** A write of the policy that succeeds files the list of the moment. *)
Lemma persistPolicy_filed y y' : keyed (y_state y) -> persistPolicy y = Some (None, y') -> exists doc, filed doc y'.
Proof.
  intros HK H. unfold persistPolicy in H. apply bind_inv in H as (s & y0 & H0 & H). apply gets_inv in H0 as [-> ->].
  apply bind_inv in H as (e & y1 & H1 & H). apply bind_inv in H as (u & y2 & H2 & H). apply ret_inv in H as [<- ->].
  unfold persist in H1. destruct (Persist _ _ _ _ _ _) as [[e p1] w1] eqn:HP. injection H1 as -> <-.
  apply Persist_disk in HP as (doc & HF & HB & HE & _). unfold publish_policy, on_state, in_state in H2.
  apply bind_inv in H2 as (q & y3 & H3 & H2). apply gets_inv in H3 as [-> ->].
  apply zoom_inv in H2 as ([s2 w2] & [= <- <- <-] & ->). exists doc. constructor; [|intros b|done].
  - eexists. split; [|apply rtc_refl]. exact HF.
  - rewrite HB, list_elem_of_In, filter_In, <- list_elem_of_In. cbn. split; [intros [Hb Ha]; split; [by apply snapshot_lookup|done]|].
    intros [Hb Ha]. split; [apply snapshot_in; eauto|done].
Qed.
End Filing.

(** * The kinetic response: gates, no weakening, exact rollback

    Theorems about [ExecuteDecision], [RollbackApplied] and the handler around
    them (src/control/kinetic_response.go, kinetic_runtime.go), for every
    pattern of failing core, disk and evidence calls. *)

(** [b'] protects at least as much as [b] and keeps its provenance. *)
Record stronger_block (b b' : BlockEntry) : Prop := {
  sb_id : b_ID b' = b_ID b;
  sb_source : b_Source b' = b_Source b;
  sb_created : b_CreatedAt b' = b_CreatedAt b;
  sb_expires : b_ExpiresAt b <= b_ExpiresAt b';
  sb_enforced : b_Enforced b = true -> b_Enforced b' = true;
}.
#[export] Instance stronger_block_refl : Reflexive stronger_block.
Proof. intros b. by constructor. Qed.

Section Kinetic.
Context {L K X : Type} `{SK : !Sinks L K X} `{QS : !QuietSinks L K X} `{CC : !CoreClient X} `{CL : !CoreLaws X}
  `{U : Unicode} `{C : Crypto} `{ED : Policy.Ed25519} `{JE : JSONDoc encryptedStorageEnvelope} `{EP : !EnvelopeProbe}
  `{JP : JSONDoc PolicyEnvelope} `{JD : JSONDoc PolicyDocument} `{JF : JSONDoc policyFloorDocument}.
Abbreviation sys := (Sys L K X).
Abbreviation ksys := (KSys L K X).
Implicit Types (y : sys) (k : ksys) (b : BlockEntry) (m : gmap string BlockEntry).
Abbreviation blocks y := (st_blocks (y_state y)).

(** Taking an entry back restores the list it was put into. *)
Lemma undo_list_inv m target previous entry y1 a y2 : blocks y1 = <[target := entry]> m -> m !! target = previous ->
  (forall p, previous = Some p -> b_Target p = target) ->
  (previous = None -> forall t b, m !! t = Some b -> b_ID b <> b_ID entry) ->
  undo_list previous entry y1 = Some (a, y2) -> becomes y1 m (kern y1) y2.
Proof.
  intros Hb Hp Hk Hf H. destruct previous as [p|]; cbn [undo_list] in H.
  - apply restore_becomes in H. rewrite Hb, (Hk p eq_refl), insert_insert_eq, insert_id in H by done. exact H.
  - unfold remove_id in H. assert (RemoveBlockByID (b_ID entry) (y_state y1) = (Some entry, drop_block target (y_state y1))) as Hr.
    { apply remove_unique; [by rewrite Hb, lookup_insert_eq|]. intros t' b' Hb' Hid. rewrite Hb in Hb'.
      apply lookup_insert_Some in Hb' as [[<- _]|[_ Hb']]; [done|]. exfalso. by eapply Hf. }
    apply on_state_becomes in H; [|by rewrite Hr]. rewrite Hr in H. cbn in H. rewrite Hb, delete_insert_id in H by done. exact H.
Qed.

Lemma merge_stronger p b : b_ID b = b_ID p -> stronger_block p (merge_previous p b).
Proof.
  intros Hid. constructor; cbn; [done|done|done| |by intros ->].
  unfold Time.After. destruct (Z.ltb_spec (b_ExpiresAt b) (b_ExpiresAt p)); lia.
Qed.

(** Kernel part of a decision: on failure the list is the one before it and
    only the target may have left the kernel. *)
Lemma kernel_apply_inv core m target previous entry y1 e y2 : blocks y1 = <[target := entry]> m -> m !! target = previous ->
  b_Target entry = target -> (forall p, previous = Some p -> b_Target p = target) ->
  (previous = None -> forall t b, m !! t = Some b -> b_ID b <> b_ID entry) ->
  kernel_apply core previous entry y1 = Some (e, y2) ->
  match e with
  | None => becomes y1 (<[target := entry]> m) (kern y2) y2 /\ kern y1 ⊆ kern y2 /\ kern y2 ⊆ {[target]} ∪ kern y1 /\ target ∈ kern y2
  | Some _ => becomes y1 m (kern y2) y2 /\ kern y1 ⊆ {[target]} ∪ kern y2
  end.
Proof.
  intros Hb Hp Ht Hk Hf H. unfold kernel_apply in H. destruct core; cbn [negb] in H.
  - apply bind_inv in H as (ae & y3 & H3 & H). rewrite Ht in H3. apply core_add in H3 as (HA & Hsub & Hub & Hin).
    destruct ae as [ae|]; [|apply ret_inv in H as [-> ->]; rewrite Hb in HA; split_and!; [done|done|done|by apply Hin]].
    apply bind_inv in H as (de & y4 & H4 & H). rewrite Ht in H4. apply core_delete in H4 as (HD & Hdel & _ & _).
    apply bind_inv in H as (u & y5 & H5 & H). apply ret_inv in H as [-> ->].
    pose proof (be_blocks _ _ _ _ HA) as Hb3. pose proof (be_blocks _ _ _ _ HD) as Hb4. rewrite Hb3 in Hb4.
    apply (undo_list_inv m target) in H5; [|by rewrite Hb4|done..].
    assert (becomes y1 m (kern y5) y5) as HB.
    { pose proof (be_kern _ _ _ _ H5) as Hk5. rewrite Hk5. eapply becomes_trans; [exact HA|]. rewrite <- Hk5. eapply becomes_trans; [exact HD|]. by rewrite Hk5. }
    destruct de; (split; [done|]); pose proof (be_kern _ _ _ _ H5) as Hk5; rewrite Hk5; set_solver.
  - apply bind_inv in H as (u & y3 & H3 & H). apply ret_inv in H as [-> ->].
    apply (undo_list_inv m target) in H3; [|done..]. cbn. rewrite (be_kern _ _ _ _ H3). split; [done|set_solver].
Qed.

(** What a decision that took effect leaves: the list with one entry that
    protects at least as much as the one before it, and the kernel. *)
Record applied target y entry change y' : Prop := {
  ap_becomes : becomes y (<[target := entry]> (blocks y)) (kern y') y';
  ap_target : b_Target entry = target;
  ap_previous : pc_previous change = blocks y !! target;
  ap_stronger : forall p, blocks y !! target = Some p -> stronger_block p entry;
  ap_fresh : blocks y !! target = None -> forall t b, blocks y !! t = Some b -> b_ID b <> b_ID entry;
  ap_kern : kern y ⊆ kern y' /\ kern y' ⊆ {[target]} ∪ kern y /\ (pc_kernelAdded change = false -> kern y' = kern y);
  ap_added : pc_kernelAdded change = true -> b_Enforced entry = true /\ target ∈ kern y' /\ ~ held y target;
}.

Lemma add_merged target r ttl e mx now y res y' : normalizeTarget target = inr target -> keyed (y_state y) -> fresh_ids y ->
  add_block_at target r "kinetic" ttl e mx now y = Some (res, y') ->
  match res with
  | inl _ => still y y'
  | inr b =>
      let entry := match blocks y !! target with Some p => merge_previous p b | None => b end in
      becomes y (<[target := b]> (blocks y)) (kern y) y' /\ b_Target entry = target /\
      (e = true -> b_Enforced entry = true) /\
      (forall p, blocks y !! target = Some p -> stronger_block p entry) /\
      (blocks y !! target = None -> forall t b', blocks y !! t = Some b' -> b_ID b' <> b_ID entry)
  end.
Proof.
  intros Hn HK HF H. apply add_block_at_inv in H. destruct res as [er|b]; [done|].
  destruct H as (t & Ht & HB & He & Ha). rewrite Hn in Ht. injection Ht as <-. split; [done|].
  destruct (blocks y !! target) as [p|] eqn:Hp.
  - destruct Ha as (Hid & Ht & _ & _). cbn. split_and!; [by rewrite Ht, (HK _ _ Hp)|intros ->; rewrite He; by destruct (b_Enforced p)| |done].
    intros ? [= <-]. by apply merge_stronger.
  - destruct Ha as (Ht & _ & w & w' & Hw & Hm). split_and!; [done|by intros ->|done|]. intros _ t b' Hb. by eapply HF.
Qed.

Lemma restore_entry target previous b entry m y1 u y2 :
  entry = match previous with Some p => merge_previous p b | None => b end -> b_Target entry = target ->
  blocks y1 = <[target := b]> m ->
  match previous with Some _ => restore entry | None => mret tt end y1 = Some (u, y2) ->
  becomes y1 (<[target := entry]> m) (kern y1) y2.
Proof.
  intros He Ht Hb H. destruct previous as [p|].
  - apply restore_becomes in H. rewrite Ht, Hb, insert_insert_eq in H. exact H.
  - apply ret_inv in H as [_ ->]. subst entry. constructor; done.
Qed.

Lemma apply_decision_inv target d now r y res y' : normalizeTarget target = inr target -> keyed (y_state y) -> fresh_ids y ->
  apply_decision target d now r y = Some (res, y') ->
  match res with
  | inl _ => becomes y (blocks y) (kern y') y' /\ kern y ⊆ {[target]} ∪ kern y' /\ (held y target -> kern y ⊆ kern y')
  | inr (entry, change) => applied target y entry change y'
  end.
Proof.
  intros Hn HK HF H. unfold apply_decision in H. apply bind_inv in H as (s & y0 & H0 & H). apply gets_inv in H0 as [-> ->].
  unfold BlockByTarget in H. rewrite Hn in H. apply bind_inv in H as (ra & y1 & H1 & H).
  apply add_merged in H1; [|done..]. destruct ra as [er|b].
  { apply ret_inv in H as [-> ->]. apply still_quiet, quiet_becomes in H1. pose proof (be_kern _ _ _ _ H1) as ->. split; [done|set_solver]. }
  cbv zeta in H, H1. set (entry := match blocks y !! target with Some p => merge_previous p b | None => b end) in *.
  destruct H1 as (HB & Ht & Hen & Hst & Hfr).
  apply bind_inv in H as (u & y2 & H2 & H).
  assert (becomes y (<[target := entry]> (blocks y)) (kern y) y2) as HB2.
  { pose proof (be_kern _ _ _ _ HB) as Hk. eapply becomes_trans; [exact HB|]. rewrite <- Hk.
    eapply restore_entry; [|exact Ht|exact (be_blocks _ _ _ _ HB)|exact H2]. done. }
  set (ka := (_ && negb match blocks y !! target with Some p => b_Enforced p | None => false end)) in *.
  apply bind_inv in H as (ke & y3 & H3 & H). destruct ka eqn:Hka; cycle 1.
  { apply ret_inv in H3 as [-> ->]. apply ret_inv in H as [-> ->]. pose proof (be_kern _ _ _ _ HB2) as Hk.
    constructor; try done; rewrite Hk; [done|set_solver]. }
  apply andb_true_iff in Hka as [Hka1 Hka2].
  assert (~ held y target) as Hnh.
  { intros (_ & p & Hp & Hpe). by rewrite Hp, Hpe in Hka2. }
  apply (kernel_apply_inv _ (blocks y) target) in H3; [|exact (be_blocks _ _ _ _ HB2)|done|done| |by intros; eapply Hfr].
  2: { intros p Hp. by apply HK. }
  pose proof (be_kern _ _ _ _ HB2) as Hk2. rewrite Hk2 in H3. destruct ke as [ke|]; apply ret_inv in H as [-> ->].
  - destruct H3 as [H3 Hk]. split_and!; [by eapply becomes_trans|done|done].
  - destruct H3 as (H3 & Hk & Hub & Hin). constructor; cbn [pc_previous pc_kernelAdded]; try done.
    + by eapply becomes_trans.
    + intros _. split_and!; [by apply Hen|done|done].
Qed.
End Kinetic.
