(* ===== verification/KineticSafety.v ===== *)
(** * The kinetic response is gated, never weakens and rolls back exactly

    What a decision that took effect had passed, that no decision takes
    protection away, and that a rollback restores the block list
    (src/control/kinetic_response.go, [ExecuteDecision], [RollbackApplied]);
    the response budget and the escalating TTL. *)

From Stdlib Require Import ZArith Lia Ascii String.
From stdpp Require Import base gmap strings list sorting.
From S2P Require Import Prelude.
From S2P Require Import GoLib.
From S2P Require Import Text.
From S2P Require Import World.
From S2P Require Import Storage.
From S2P Require Import Exec.
From S2P Require Import NetIP.
From S2P Require Import NetIPFacts.
From S2P Require Import Policy.
From S2P Require Import Evidence.
From S2P Require Import State.
From S2P Require Import Snapshot.
From S2P Require Import StateFacts.
From S2P Require Import Release.
From S2P Require Import ReleaseFrames.
From S2P Require Import ReleaseFacts.
From S2P Require Import ReleaseSafety.
From S2P Require Import RateLimit.
From S2P Require Import KineticResponse.
From S2P Require Import BlockOps.
From S2P Require Import BlockFacts.

Section Gates.
Context {L K X : Type} `{SK : !Sinks L K X} `{QS : !QuietSinks L K X} `{CC : !CoreClient X} `{CL : !CoreLaws X}
  `{U : Unicode} `{C : Crypto} `{ED : Policy.Ed25519} `{JE : JSONDoc encryptedStorageEnvelope} `{EP : !EnvelopeProbe}
  `{JP : JSONDoc PolicyEnvelope} `{JD : JSONDoc PolicyDocument} `{JF : JSONDoc policyFloorDocument}.
Abbreviation sys := (Sys L K X).
Abbreviation ksys := (KSys L K X).
Implicit Types (y : sys) (k : ksys) (b : BlockEntry) (d : NetworkDecision) (r : KineticResponseEngine).

(** ** What the gates guarantee *)

(** The network [n] touches nothing of the management allowlist. *)
Definition off_allowlist r (n : IPNet) : Prop :=
  (forall s a, s ∈ kr_allowlistIPs r -> ParseIP s = Some a -> Contains n a = false) /\
  (forall m, m ∈ kr_allowlistNets r -> Contains n (n_IP m) = false /\ Contains m (n_IP n) = false).

(** The size of the network and the permission and evidence that size needs. *)
Definition sized (cfg : KineticConfig) d (n : IPNet) : Prop :=
  (n_ones n = n_bits n /\ kc_AutoContainSingleIP cfg = true) \/
  (90 <= d_Score d /\ 2 <= d_ContributorCount d /\ fgt (fdiv (f64 9) (f64 10)) (d_Confidence d) = false /\
   ((n_ones n = 24 /\ n_bits n = 32 /\ kc_AutoContainIPv4Subnet cfg = true /\ kc_SubnetMinSources cfg <= d_ContributorCount d) \/
    (n_ones n = 64 /\ n_bits n = 128 /\ kc_AutoContainIPv6Subnet cfg = true /\ kc_IPv6SubnetMinSources cfg <= d_ContributorCount d))).

Record may_respond d r y : Prop := {
  mr_action : d_SuggestedAction d = "block" /\ kc_EnforcementMode (kr_cfg r) = "block" /\
                kr_core r = true /\ st_coreConnected (y_state y) = true
              \/ d_SuggestedAction d = "contain" /\ kc_EnforcementMode (kr_cfg r) <> "observe";
  mr_enforce : st_enforcement (y_state y) = "enforce";
  mr_release : rs_Phase (st_release (y_state y)) = ReleasePhaseEnforce /\ rs_Ready (st_release (y_state y)) = true /\
               rs_EmergencyStop (st_release (y_state y)) = false;
  mr_sensor : exists cov, st_sensors (y_state y) !! "xdp_ingress" = Some cov /\
               sc_Status cov = CoverageOnline /\ sc_Required cov = true;
  mr_allowlist : st_allowlistReady (y_state y) = true;
  mr_signed : kc_RequireSigned (kr_cfg r) = true -> pst_Verified (st_policy (y_state y)) = true;
}.

(** The marker file the kinetic configuration names is there. *)
Definition stop_requested (cfg : KineticConfig) y : Prop := TrimSpace (kc_EmergencyStopFile cfg) <> "" /\ exists i,
  w_fs (y_w y) !! TrimSpace (kc_EmergencyStopFile cfg) = Some i /\
  (i_kind i = Symlink -> is_Some (w_fs (y_w y) !! i_data i)).

Lemma allowlist_pass target n r : has "/" target -> ParseCIDR target = Some n ->
  isAllowlistProtectedLocked target r = false -> off_allowlist r n.
Proof.
  intros Hs Hn H. unfold isAllowlistProtectedLocked, ParseIP at 1 in H. rewrite (ParseAddr_slash _ Hs), Hn in H. cbn in H.
  apply orb_false_iff in H as [H1 H2]. split.
  - intros s a Hin Ha. destruct (Contains n a) eqn:Hc; [|done]. exfalso. rewrite <- not_true_iff_false in H1. apply H1.
    apply existsb_exists. exists s. rewrite <- list_elem_of_In, elem_of_elements. by rewrite Ha.
  - intros m Hin. apply orb_false_iff. rewrite <- not_true_iff_false in H2 |- *. intros Hc. apply H2.
    apply existsb_exists. exists m. by rewrite <- list_elem_of_In.
Qed.

Lemma with_cidr_eq target n f : ParseCIDR target = Some n -> with_cidr target f = f (n_ones n) (n_bits n).
Proof. unfold with_cidr. by intros ->. Qed.

Lemma size_pass target n d cfg : has "/" target -> ParseCIDR target = Some n ->
  autoContainAllowedLocked target cfg = true -> subnet_evidence target cfg d = true -> sized cfg d n.
Proof.
  intros Hs Hn. assert (has_slash target = true) as Hh by by apply bool_decide_eq_true_2.
  unfold autoContainAllowedLocked, subnet_evidence, isSubnetCIDR, isIPv4Subnet24, isIPv6Subnet64.
  rewrite Hh, !(with_cidr_eq _ _ _ Hn). cbn [andb].
  destruct ((n_bits n =? 32) && (n_ones n =? 24)) eqn:E4; cbn [orb].
  { apply andb_true_iff in E4 as [?%Z.eqb_eq ?%Z.eqb_eq]. intros Hf He%negb_true_iff. rewrite !orb_false_iff in He.
    destruct He as [[?%Z.ltb_ge ?] Hc%Z.ltb_ge]. destruct (kc_SubnetMinSources cfg <? 2) eqn:?; right; split_and!; try lia; try done;
      left; split_and!; try done; lia. }
  destruct ((n_bits n =? 128) && (n_ones n =? 64)) eqn:E6.
  { apply andb_true_iff in E6 as [?%Z.eqb_eq ?%Z.eqb_eq]. intros Hf He%negb_true_iff. rewrite !orb_false_iff in He.
    destruct He as [[?%Z.ltb_ge ?] Hc%Z.ltb_ge]. destruct (kc_IPv6SubnetMinSources cfg <? 2) eqn:?; right; split_and!; try lia; try done;
      right; split_and!; try done; lia. }
  intros [He Hf]%andb_true_iff _. left. split; [|done]. apply orb_true_iff in He.
  destruct He as [[?%Z.eqb_eq ?%Z.eqb_eq]%andb_true_iff|[?%Z.eqb_eq ?%Z.eqb_eq]%andb_true_iff]; congruence.
Qed.

Lemma static_pass target n d r : has "/" target -> ParseCIDR target = Some n -> static_gates target d r = None ->
  off_allowlist r n /\ sized (kr_cfg r) d n.
Proof.
  intros Hs Hn H. unfold static_gates in H. destruct (isAllowlistProtectedLocked target r) eqn:Ha; [done|].
  destruct (isBroadSectorCIDR target); [done|]. destruct (autoContainAllowedLocked _ _) eqn:Hc; [|done].
  destruct (subnet_evidence _ _ _) eqn:He; [|done]. split; [by eapply allowlist_pass|by eapply size_pass].
Qed.

Lemma EvaluateCoverage_sensors m : cv_Sensors (EvaluateCoverage m) = m.
Proof. unfold EvaluateCoverage. by repeat case_match. Qed.

Lemma live_pass d r y now : live_gates d r (Modes (y_state y)) (snapshot_at now (y_state y)) = None -> may_respond d r y.
Proof.
  destruct (snapshot_fields now (y_state y)) as (Fp & _ & _ & Fc & Fa).
  destruct (snapshot_coverage now (y_state y)) as [l7 Fv].
  assert (sn_Release (snapshot_at now (y_state y)) = st_release (y_state y)) as Fr by done.
  unfold live_gates. rewrite Fp, Fc, Fa, Fr, Fv. intros H.
  repeat match type of H with (if ?c then _ else _) = None => let E := fresh "E" in destruct c eqn:E; [done|] end.
  rewrite ?orb_false_iff, ?negb_false_iff, ?bool_decide_eq_true, ?bool_decide_eq_false, ?andb_false_iff in *.
  assert (cv_Sensors (EvaluateCoverage (<["l7_application" := l7]> (st_sensors (y_state y)))) !! "xdp_ingress" =
          st_sensors (y_state y) !! "xdp_ingress") as Hx.
  { rewrite EvaluateCoverage_sensors. by rewrite lookup_insert_ne. }
  rewrite Hx in *. constructor.
  - clear -E E0 E1 E7. rewrite !negb_false_iff, !bool_decide_eq_true in E. rewrite negb_false_iff, bool_decide_eq_true, bool_decide_eq_false in E1.
    rewrite orb_false_iff, !negb_false_iff, bool_decide_eq_false in E7. destruct E as [E|E]; [by right|left]. naive_solver.
  - done.
  - naive_solver.
  - destruct (st_sensors (y_state y) !! "xdp_ingress") as [cov|]; [|done]. exists cov.
    rewrite orb_false_iff, !negb_false_iff, bool_decide_eq_true in E4. naive_solver.
  - done.
  - rewrite negb_false_iff in E6. intros Hs. destruct E6; congruence.
Qed.

Lemma emergency_pass cfg y y' : emergency_gate_open cfg y = Some (None, y') -> ~ stop_requested cfg y /\ still y y'.
Proof.
  unfold emergency_gate_open, stop_requested. case_bool_decide as Hp; intros H.
  - apply ret_inv in H as [_ ->]. split; [by intros []|done].
  - apply bind_inv in H as (st & y1 & H1 & H). apply ret_inv in H as [H ->]. pose proof (os_Stat_still _ _ _ _ H1) as HS.
    split; [|done]. intros (_ & i & Hi & Hl). unfold on_world in H1. apply zoom_inv in H1 as (w & [= H1] & _).
    apply (os_Stat_marker _ _ _ _ _ Hi Hl) in H1. unfold emergency_gate in H1. destruct st as [e|]; [|done].
    by destruct (is_not_exist e).
Qed.

Lemma decision_time_still d : moves still (decision_time (L := L) (K := K) (X := X) d).
Proof. unfold decision_time. moves_solve. Qed.
Lemma emergency_still cfg : moves still (emergency_gate_open (L := L) (K := K) (X := X) cfg).
Proof. unfold emergency_gate_open. moves_solve. Qed.
Lemma validate_still d r : moves still (validateActiveResponseLocked (L := L) (K := K) (X := X) d r).
Proof. unfold validateActiveResponseLocked. moves_solve. Qed.
Lemma validate_pass d r y y' : validateActiveResponseLocked d r y = Some (None, y') -> may_respond d r y.
Proof.
  unfold validateActiveResponseLocked. intros H. apply bind_inv in H as (s & y1 & H1 & H). apply gets_inv in H1 as [-> ->].
  apply bind_inv in H as (snap & y2 & H2 & H). apply ret_inv in H as [H ->].
  unfold in_state in H2. apply zoom_inv in H2 as ([s w] & H2 & _). unfold State_Snapshot, time_Now in H2.
  injection H2 as <- _ _. by eapply live_pass.
Qed.

(** Everything a decision passed before it took effect. *)
Record admitted d r y target n : Prop := {
  ad_target : normalizeTarget (d_Target d) = inr target;
  ad_net : ParseCIDR target = Some n;
  ad_allowlist : off_allowlist r n;
  ad_size : sized (kr_cfg r) d n;
  ad_live : may_respond d r y;
  ad_stop : ~ stop_requested (kr_cfg r) y;
}.

Lemma fresh_ids_still y y' : still y y' -> fresh_ids y -> fresh_ids y'.
Proof. intros (_ & Hs & _ & _ & _ & Ho) HF w id w' Hw. rewrite Hs. apply HF. by rewrite Hw. Qed.
Lemma held_still y y' t : still y y' -> held y' t <-> held y t.
Proof. intros (_ & Hs & _ & _ & Hx & _). unfold held, kern. by rewrite Hs, Hx. Qed.

Lemma take_token_keeps sec r ok r' : take_token sec r = (ok, r') ->
  kr_pending r' = kr_pending r /\ kr_reputation r' = kr_reputation r /\ kr_core r' = kr_core r /\ kr_cfg r' = kr_cfg r.
Proof. unfold take_token. intros H. destruct (sec =? _), (_ <=? 0); by simplify_eq. Qed.

Lemma may_respond_still d r y y' : still y y' -> may_respond d r y' -> may_respond d r y.
Proof. intros (_ & Hs & _) []. constructor; by rewrite <- Hs. Qed.
Lemma stop_still cfg y y' : still y y' -> stop_requested cfg y -> stop_requested cfg y'.
Proof. intros (_ & _ & _ & Hf & _) [Hp H]. split; [done|]. by rewrite Hf. Qed.

Lemma on_sys_inv {A} (m : M sys A) k a k' : on_sys m k = Some (a, k') ->
  exists y', m (k_sys k) = Some (a, y') /\ k' = mkKSys (k_eng k) y'.
Proof. intros H. apply zoom_inv in H as (y' & H & ->). eauto. Qed.

(** The engine after the budget was charged. *)
Definition same_book r r' : Prop :=
  kr_pending r' = kr_pending r /\ kr_reputation r' = kr_reputation r /\ kr_core r' = kr_core r /\ kr_cfg r' = kr_cfg r.

(** A decision is refused before the list is touched, or it passed every gate
    and was handed to [apply_decision]. *)
Definition turned_down k (res : goerror + BlockEntry) k' : Prop :=
  (exists e, res = inl e) /\ still (k_sys k) (k_sys k') /\ same_book (k_eng k) (k_eng k').
Definition handed_on d k (res : goerror + BlockEntry) k' : Prop := exists target n now r1 y1 ra,
  admitted d (k_eng k) (k_sys k) target n /\ still (k_sys k) y1 /\ same_book (k_eng k) r1 /\
  apply_decision target d now r1 y1 = Some (ra, k_sys k') /\
  match ra with
  | inl e => res = inl e /\ k_eng k' = r1
  | inr (entry, change) => res = inr entry /\ k_eng k' = set_pending (<[b_ID entry := change]> (kr_pending r1)) r1
  end.

Lemma turn_down k e k' : still (k_sys k) (k_sys k') -> same_book (k_eng k) (k_eng k') -> turned_down k (inl e) k'.
Proof. intros HS HB. split; [by exists e|done]. Qed.

Lemma execute_inv d k res k' : ExecuteDecision d k = Some (res, k') -> turned_down k res k' \/ handed_on d k res k'.
Proof.
  intros H. unfold ExecuteDecision in H. apply bind_inv in H as (r & k0 & H0 & H). apply gets_inv in H0 as [-> ->].
  apply bind_inv in H as (now & k1 & (y1 & H1 & ->)%on_sys_inv & H). apply decision_time_still in H1 as S1.
  apply bind_inv in H as (stop & k2 & (y2 & H2 & ->)%on_sys_inv & H). cbn [k_sys k_eng] in *. apply emergency_still in H2 as S2.
  assert (still (k_sys k) y2) as S12 by by transitivity y1.
  assert (forall e, turned_down k (inl e) (mkKSys (k_eng k) y2)) as HT2.
  { intros e. by apply turn_down. }
  destruct stop as [e|]; [apply ret_inv in H as [-> ->]; by left|].
  destruct (normalizeTarget (d_Target d)) as [e|target] eqn:Hn; [apply ret_inv in H as [-> ->]; by left|].
  destruct (static_gates target d (k_eng k)) as [e|] eqn:Hg; [apply ret_inv in H as [-> ->]; by left|].
  apply bind_inv in H as (live & k3 & (y3 & H3 & ->)%on_sys_inv & H). cbn [k_sys k_eng] in *. apply validate_still in H3 as S3.
  assert (still (k_sys k) y3) as S13 by by transitivity y2.
  destruct live as [e|]; [apply ret_inv in H as [-> ->]; left; split_and!; [by eexists|done|done..]|].
  destruct (take_token _ (k_eng k)) as [ok r1] eqn:Hk. apply take_token_keeps in Hk.
  apply bind_inv in H as (u & k4 & H4 & H). apply modify_inv in H4 as ->.
  destruct ok; cbn [negb] in H; [|apply ret_inv in H as [-> ->]; left; by apply turn_down]. right.
  apply bind_inv in H as (ra & k5 & (y5 & H5 & ->)%on_sys_inv & H). cbn [k_sys k_eng set_eng] in *.
  destruct (normalizeTarget_net _ _ Hn) as (n & Hc & _ & _). pose proof (normalizeTarget_slash _ _ Hn) as Hs.
  destruct (static_pass _ _ _ _ Hs Hc Hg) as [Ha Hz]. apply emergency_pass in H2 as [Hst _]. apply validate_pass in H3.
  assert (admitted d (k_eng k) (k_sys k) target n) as HA.
  { constructor; [done..| |intros Hr; exact (Hst (stop_still _ _ _ S1 Hr))]. exact (may_respond_still _ _ _ _ S12 H3). }
  destruct ra as [e|[entry change]].
  - apply ret_inv in H as [-> ->]. exists target, n, now, r1, y3, (inl e). done.
  - apply bind_inv in H as (u' & k6 & H6 & H). apply modify_inv in H6 as ->. apply ret_inv in H as [-> ->].
    exists target, n, now, r1, y3, (inr (entry, change)). done.
Qed.

(** One decision: refused without a change to the list, or applied. *)
Definition decided d k (res : goerror + BlockEntry) k' : Prop :=
  kr_reputation (k_eng k') = kr_reputation (k_eng k) /\ kr_core (k_eng k') = kr_core (k_eng k) /\
  match res with
  | inl _ => becomes (k_sys k) (st_blocks (y_state (k_sys k))) (kern (k_sys k')) (k_sys k') /\
      (forall t, held (k_sys k) t -> t ∈ kern (k_sys k')) /\ kr_pending (k_eng k') = kr_pending (k_eng k)
  | inr entry => exists target change, normalizeTarget target = inr target /\
      applied target (k_sys k) entry change (k_sys k') /\
      kr_pending (k_eng k') = <[b_ID entry := change]> (kr_pending (k_eng k))
  end.

Lemma applied_still target y y1 entry change y' : still y y1 -> applied target y1 entry change y' -> applied target y entry change y'.
Proof.
  intros HS [HB Ht Hp Hst Hf Hk Ha]. pose proof (quiet_becomes _ _ (still_quiet _ _ HS)) as [HR Hb Hk0].
  rewrite Hb, ?Hk0 in *. constructor; try done.
  - eapply quiet_becomes_trans; [by apply still_quiet|done].
  - intros (H1 & H2 & H3)%Ha. split_and!; [done|done|]. by rewrite <- (held_still _ _ _ HS).
Qed.

Lemma execute_decided d k res k' : keyed (y_state (k_sys k)) -> fresh_ids (k_sys k) ->
  ExecuteDecision d k = Some (res, k') -> decided d k res k'.
Proof.
  intros HK HF [(He & HS & Hp & Hr & Hc & _)|H]%execute_inv.
  - destruct He as [e ->]. pose proof (quiet_becomes _ _ (still_quiet _ _ HS)) as HB. unfold decided.
    rewrite (be_kern _ _ _ _ HB). split_and!; try done. by intros t [Ht _].
  - destruct H as (target & n & now & r1 & y1 & ra & HA & HS & (Hp & Hr & Hc & _) & H & Hres).
    pose proof (normalizeTarget_fixed _ _ (ad_target _ _ _ _ _ HA)) as Hn.
    pose proof HS as (_ & Hst & _). apply apply_decision_inv in H; [|done|by rewrite Hst|by eapply fresh_ids_still].
    destruct ra as [e|[entry change]]; destruct Hres as [-> He]; unfold decided; rewrite !He.
    + destruct H as (HB & Hk & Hh). rewrite Hst in HB. split_and!; [done|done| | |done].
      * eapply quiet_becomes_trans; [by apply still_quiet|done].
      * intros t Ht. rewrite <- (held_still _ _ _ HS) in Ht. destruct (decide (t = target)) as [->|Hne].
        -- by apply (Hh Ht), Ht.
        -- destruct Ht as [Ht _]. set_solver.
    + split_and!; [done|done|]. exists target, change. split_and!; [done|by eapply applied_still|].
      cbn. by rewrite Hp.
Qed.

(** C5: automatic containment is gated. Whatever rules, scores and event times
    the engine proposes, a decision takes effect only when the target is a
    canonical network that neither contains nor lies in anything of the
    management allowlist; when it is a single host, a /24 or an IPv6 /64 that
    the configuration opened, the two networks only with score 90, confidence
    0.9 and the configured number of sources, at least two; when the action
    fits the configured mode, the platform enforces in the enforce phase, ready
    and without emergency stop, the required ingress sensor is online, the
    kernel allowlist is synchronized and the policy is verified where that is
    required; and when the emergency-stop marker is absent. *)
Theorem decision_gated d k entry k' : ExecuteDecision d k = Some (inr entry, k') ->
  exists target n, admitted d (k_eng k) (k_sys k) target n.
Proof.
  intros [((e & [=]) & _)|(target & n & now & r1 & y1 & ra & HA & _)]%execute_inv. by exists target, n.
Qed.

(** C4: automatic containment never takes protection away. Whatever is proposed
    and whichever calls of the core, the disk or the clock fail, every block
    listed before a decision is listed after it with the same identifier,
    source and creation time, an expiry that is not earlier and the enforced
    flag not lowered, and every block that was enforced in the kernel still
    is. *)
Theorem kinetic_never_weakens d k res k' : keyed (y_state (k_sys k)) -> fresh_ids (k_sys k) ->
  ExecuteDecision d k = Some (res, k') ->
  (forall t b, st_blocks (y_state (k_sys k)) !! t = Some b ->
     exists b', st_blocks (y_state (k_sys k')) !! t = Some b' /\ stronger_block b b') /\
  (forall t, held (k_sys k) t -> held (k_sys k') t) /\ keyed (y_state (k_sys k')).
Proof.
  intros HK HF (_ & _ & H)%execute_decided; [|done..]. destruct res as [e|entry].
  - destruct H as (HB & Hh & _). pose proof (be_blocks _ _ _ _ HB) as Hb. unfold keyed, held. rewrite !Hb. split_and!; [by intros t b Hl; exists b| |done].
    intros t Ht. split; [by apply (Hh t)|]. by destruct Ht.
  - destruct H as (target & change & _ & HA & _). destruct HA as [HB Ht _ Hst _ [Hk _] _].
    pose proof (be_blocks _ _ _ _ HB) as Hb. unfold keyed, held. rewrite !Hb.
    assert (forall t b, st_blocks (y_state (k_sys k)) !! t = Some b ->
      exists b', <[target := entry]> (st_blocks (y_state (k_sys k))) !! t = Some b' /\ stronger_block b b') as HS.
    { intros t b Hl. destruct (decide (t = target)) as [->|Hne].
      - exists entry. rewrite lookup_insert_eq. split; [done|by apply Hst].
      - exists b. by rewrite lookup_insert_ne. }
    split_and!; [done| |].
    + intros t [Hin (b & Hl & He)]. split; [by apply Hk|]. destruct (HS _ _ Hl) as (b' & Hb' & Hw). exists b'. split; [done|by apply Hw].
    + intros t b [[<- <-]|[_ Hl]]%lookup_insert_Some; [done|by apply HK].
Qed.

Lemma rollback_inv entry k change err k' : kr_pending (k_eng k) !! b_ID entry = Some change ->
  RollbackApplied entry k = Some (err, k') ->
  exists y1 e1 u, (if pc_kernelAdded change
     then if kr_core (k_eng k) then core_call (core_Delete (b_Target entry)) (k_sys k) = Some (e1, y1)
          else y1 = k_sys k /\ is_Some e1
     else y1 = k_sys k /\ e1 = None) /\ (err = None -> e1 = None) /\
  undo_list (pc_previous change) entry y1 = Some (u, k_sys k') /\
  k_eng k' = set_pending (delete (b_ID entry) (kr_pending (k_eng k))) (k_eng k).
Proof.
  intros Hp H. unfold RollbackApplied in H. apply bind_inv in H as (r & k0 & H0 & H). apply gets_inv in H0 as [-> ->].
  rewrite Hp in H. apply bind_inv in H as (u & k1 & H1 & H). apply modify_inv in H1 as ->.
  apply bind_inv in H as (e1 & k2 & H2 & H). apply bind_inv in H as (u' & k3 & (y3 & H3 & ->)%on_sys_inv & H).
  apply ret_inv in H as [-> ->]. exists (k_sys k2), e1, u'. cbn [k_sys k_eng].
  destruct (pc_kernelAdded change); [destruct (kr_core (k_eng k)); cbn [negb] in H2|].
  - apply on_sys_inv in H2 as (y2 & H2 & ->). split_and!; [done|by destruct e1|done|done].
  - apply ret_inv in H2 as [-> ->]. by split_and!.
  - apply ret_inv in H2 as [-> ->]. by split_and!.
Qed.

(** C29: a rolled back containment leaves no trace in the block list. When the
    signed policy could not be written after a decision took effect, taking the
    decision back gives the block list from before it, entry for entry, and the
    reputation from before it, whether or not the core answers; nothing that
    was enforced in the kernel is lost, and a rollback that reports success
    leaves no rule in the kernel that was not there before. *)
Theorem rollback_restores d k entry k1 perr k2 err k3 : keyed (y_state (k_sys k)) -> fresh_ids (k_sys k) ->
  ExecuteDecision d k = Some (inr entry, k1) -> on_sys persistPolicy k1 = Some (perr, k2) ->
  RollbackApplied entry k2 = Some (err, k3) ->
  st_blocks (y_state (k_sys k3)) = st_blocks (y_state (k_sys k)) /\
  kr_reputation (k_eng k3) = kr_reputation (k_eng k) /\
  (forall t, held (k_sys k) t -> held (k_sys k3) t) /\
  (err = None -> kern (k_sys k3) ⊆ kern (k_sys k)).
Proof.
  intros HK HF (HR & HC & H)%execute_decided; [|done..]. destruct H as (target & change & _ & HA & Hp).
  intros (y2 & H2 & ->)%on_sys_inv H3. apply persistPolicy_quiet in H2.
  apply (rollback_inv _ _ change) in H3; [|cbn; by rewrite Hp, lookup_insert_eq]. cbn [k_sys k_eng] in H3.
  destruct H3 as (y3 & e1 & u & Hd & He & Hu & ->). destruct HA as [HB Ht Hpr Hst Hfr (Hk1 & Hk2 & Hk3) Had].
  apply (becomes_quiet _ _ _ _ _ HB) in H2 as HB2.
  assert (becomes (k_sys k) (<[target := entry]> (st_blocks (y_state (k_sys k)))) (kern y3) y3 /\
    (forall t, held (k_sys k) t -> t ∈ kern y3) /\ (e1 = None -> kern y3 ⊆ kern (k_sys k))) as (HB3 & Hh & Hs).
  { pose proof (be_kern _ _ _ _ HB2) as Hk. pose proof (be_blocks _ _ _ _ HB2) as Hb2. destruct (pc_kernelAdded change).
    - destruct (Had eq_refl) as (_ & _ & Hnh). destruct (kr_core (k_eng k1)).
      + apply core_delete in Hd as (HD & HD1 & HD2 & HD3). rewrite Ht in *. split_and!.
        * rewrite Hb2 in HD. by eapply becomes_trans.
        * intros t Hh. assert (t <> target) by by intros ->. destruct Hh as [Hin _]. set_solver.
        * intros Hn. specialize (HD3 Hn). set_solver.
      + destruct Hd as [-> [? ->]]. rewrite Hk. split_and!; [done| |done]. intros t [Hin _]. set_solver.
    - destruct Hd as [-> ->]. rewrite Hk, (Hk3 eq_refl). split_and!; [|by intros t []|done]. by rewrite <- (Hk3 eq_refl). }
  apply (undo_list_inv (st_blocks (y_state (k_sys k))) target) in Hu; [|exact (be_blocks _ _ _ _ HB3)|done|..].
  2: { rewrite Hpr. intros p Hl. exact (HK _ _ Hl). }
  2: { rewrite Hpr. exact Hfr. }
  pose proof (be_blocks _ _ _ _ Hu) as Hb. pose proof (be_kern _ _ _ _ Hu) as Hk. cbn [k_sys k_eng kr_reputation set_pending].
  split_and!; [done|done| |].
  - intros t Hl. unfold held. rewrite Hb, Hk. split; [by apply Hh|by destruct Hl].
  - intros Hn. rewrite Hk. by apply Hs, He.
Qed.
End Gates.

(** ** The response budget and the escalating TTL *)

(** The answers of the budget to decisions at the given seconds. *)
Fixpoint grants (secs : list Z) (r : KineticResponseEngine) : list bool :=
  match secs with
  | [] => []
  | sec :: secs => let '(ok, r) := take_token sec r in ok :: grants secs r
  end.

Lemma grants_same sec n r : kr_tokenLastSec r = sec ->
  grants (replicate n sec) r = map (fun i => Z.of_nat i <? kr_tokensAvailable r) (seq 0 n).
Proof.
  revert r. induction n as [|n IH]; intros r Hr; [done|]. cbn [replicate grants seq map].
  unfold take_token. rewrite Hr, Z.eqb_refl.
  destruct (kr_tokensAvailable r <=? 0) eqn:Hk; cbn [map].
  - apply Z.leb_le in Hk. f_equal; [symmetry; by apply Z.ltb_ge|]. rewrite IH by done. cbn [kr_tokensAvailable set_throttled].
    rewrite <- (seq_shift n 0), map_map. apply map_ext. intros i. rewrite !(proj2 (Z.ltb_ge _ _)); cbn; lia.
  - apply Z.leb_gt in Hk. f_equal; [symmetry; by apply Z.ltb_lt|]. rewrite IH by done. cbn [kr_tokensAvailable set_tokens].
    rewrite <- (seq_shift n 0), map_map. apply map_ext. intros i.
    destruct (Z.ltb_spec (Z.of_nat i) (kr_tokensAvailable r - 1)), (Z.ltb_spec (Z.of_nat (S i)) (kr_tokensAvailable r)); lia.
Qed.

(** The response budget holds within one second. Decisions whose time falls
    in the same second are granted exactly up to the configured number of
    strikes per second, the first ones first. *)
Theorem budget_exact sec n r : kr_tokenLastSec r <> sec ->
  grants (replicate n sec) r = map (fun i => Z.of_nat i <? kc_MaxStrikesPerSec (kr_cfg r)) (seq 0 n).
Proof.
  intros Hne. destruct n as [|n]; [done|].
  set (r0 := set_tokens (kc_MaxStrikesPerSec (kr_cfg r)) (set_tokenSec sec r)).
  assert (take_token sec r = take_token sec r0) as HT.
  { unfold take_token. apply not_eq_sym, Z.eqb_neq in Hne. rewrite Hne. cbn. by rewrite Z.eqb_refl. }
  transitivity (grants (replicate (S n) sec) r0); [cbn [replicate grants]; by rewrite HT|].
  by rewrite grants_same.
Qed.

(** The budget follows the decisions' own times and not the clock: decisions
    whose times alternate between two seconds are all granted, however many
    there are and however short the time in which they are handled. *)
Theorem budget_alternates s1 s2 n r : s1 <> s2 -> kr_tokenLastSec r <> s1 -> 0 < kc_MaxStrikesPerSec (kr_cfg r) ->
  grants (flat_map (fun _ => [s1; s2]) (seq 0 n)) r = repeat true (2 * n).
Proof.
  intros Hs. enough (forall i r, kr_tokenLastSec r <> s1 -> 0 < kc_MaxStrikesPerSec (kr_cfg r) ->
    grants (flat_map (fun _ => [s1; s2]) (seq i n)) r = repeat true (2 * n)) by auto. clear r.
  induction n as [|n IH]; intros i r Hr Hm; [done|].
  replace (2 * S n)%nat with (S (S (2 * n))) by lia. cbn [seq flat_map app grants repeat].
  unfold take_token. apply not_eq_sym, Z.eqb_neq in Hr. rewrite Hr. cbn. apply Z.leb_gt in Hm as Hl. rewrite Hl. cbn.
  rewrite (proj2 (Z.eqb_neq s2 s1)) by congruence. cbn. rewrite Hl. do 2 f_equal. apply IH; cbn; [by apply not_eq_sym|lia].
Qed.

Lemma i64_pow k : 64 <= k -> i64 (Z.shiftl 1 k) = 0.
Proof.
  intros Hk. rewrite Z.shiftl_mul_pow2, Z.mul_1_l by lia. unfold i64, swrap.
  replace k with (64 + (k - 64)) by lia. rewrite Z.pow_add_r by lia.
  by rewrite Z.mul_comm, Z.mod_mul.
Qed.

(** The ban grows with every strike up to the configured maximum. While the
    product fits a duration, the time of the n-th strike within the decay
    window is the base time doubled n - 1 times, cut at the maximum; no ban is
    longer than the maximum. *)
Theorem backoff_exact base n cfg : 0 < base -> 1 <= n -> base * 2 ^ (n - 1) <= MaxInt64 -> 0 < seconds (kc_MaxTTLSeconds cfg) ->
  banTTL base n cfg = Z.min (base * 2 ^ (n - 1)) (seconds (kc_MaxTTLSeconds cfg)).
Proof.
  intros Hb Hn Ho Hm. unfold banTTL. rewrite (proj2 (Z.leb_gt base 0)) by lia.
  assert ((if 1 <? n then i64 (base * i64 (Z.shiftl 1 (n - 1))) else base) = base * 2 ^ (n - 1)) as ->.
  { destruct (Z.ltb_spec 1 n).
    - rewrite Z.shiftl_mul_pow2, Z.mul_1_l by lia. assert (0 < 2 ^ (n - 1)) by (apply Z.pow_pos_nonneg; lia).
      rewrite (i64_small (2 ^ (n - 1))) by (unfold MinInt64; nia). rewrite i64_small by (unfold MinInt64; nia). done.
    - replace n with 1 by lia. lia. }
  apply Z.ltb_lt in Hm as ->. cbn [andb]. destruct (Z.ltb_spec (seconds (kc_MaxTTLSeconds cfg)) (base * 2 ^ (n - 1))); lia.
Qed.

(** The product is not guarded against overflow. With the default base of one
    day the eighteenth strike gives a negative time, which the maximum does
    not cut, and from the sixty-fifth strike on the time is zero for every
    base: the repeat offender's block has expired when it is entered. *)
Theorem backoff_wraps cfg : 0 < seconds (kc_MaxTTLSeconds cfg) ->
  banTTL (86400 * Time.Second) 18 cfg < 0 /\ (forall base n, 0 < base -> 65 <= n -> banTTL base n cfg = 0).
Proof.
  intros Hm. unfold banTTL. apply Z.ltb_lt in Hm as Hm'. rewrite Hm'. cbn [andb]. split.
  - assert (i64 (86400 * Time.Second * i64 (Z.shiftl 1 (18 - 1))) = -7122123273709551616) as E by (vm_compute; reflexivity).
    change (86400 * Time.Second <=? 0) with false. change (1 <? 18) with true. cbn [andb]. rewrite E.
    destruct (Z.ltb_spec (seconds (kc_MaxTTLSeconds cfg)) (-7122123273709551616)); lia.
  - intros base n Hb Hn. rewrite (proj2 (Z.leb_gt base 0)), (proj2 (Z.ltb_lt 1 n)), i64_pow, Z.mul_0_r by lia.
    change (i64 0) with 0. destruct (Z.ltb_spec (seconds (kc_MaxTTLSeconds cfg)) 0); lia.
Qed.
