(* ===== verification/ExpiryFacts.v ===== *)
(** * The expiry pass is a transaction

    What [reconcileExpiredNetworkBlocks] (src/control/block_expiry.go) leaves
    of the block list and of the kernel on every path: rules the core refuses
    to remove, a policy that cannot be written, evidence that cannot be
    recorded, and the fail-safe those lead to. *)

From Stdlib Require Import ZArith Lia Ascii String.
From stdpp Require Import base gmap strings list sorting.
From S2P Require Import Prelude.
From S2P Require Import GoLib.
From S2P Require Import Text.
From S2P Require Import World.
From S2P Require Import Storage.
From S2P Require Import Exec.
From S2P Require Import NetIP.
From S2P Require Import Policy.
From S2P Require Import Evidence.
From S2P Require Import State.
From S2P Require Import Snapshot.
From S2P Require Import StateFacts.
From S2P Require Import Release.
From S2P Require Import ReleaseFrames.
From S2P Require Import ReleaseFacts.
From S2P Require Import RateLimit.
From S2P Require Import KineticResponse.
From S2P Require Import BlockOps.
From S2P Require Import BlockFacts.

Section Settling.
Context {L K X : Type} `{SK : !Sinks L K X} `{QS : !QuietSinks L K X} `{CC : !CoreClient X} `{CL : !CoreLaws X}
  `{U : Unicode} `{C : Crypto} `{CRL : !CryptoLaws C} `{ED : Policy.Ed25519} `{JE : JSONDoc encryptedStorageEnvelope}
  `{JEL : !JSONDocLaws encryptedStorageEnvelope} `{EP : !EnvelopeProbe}
  `{JP : JSONDoc PolicyEnvelope} `{JD : JSONDoc PolicyDocument} `{JF : JSONDoc policyFloorDocument}.
Abbreviation sys := (Sys L K X).
Abbreviation blocks y := (st_blocks (y_state y)).
Implicit Types (y : sys) (b : BlockEntry) (T : gset string).

(** ** The fail-safe settles: it adds to the kernel only what is listed *)

(** An entry without its enforcement flag, which the fail-safe may set. *)
Definition unflag b : BlockEntry := set_Enforced false b.

Record bounded T y y' : Prop := {
  bd_keyed : keyed (y_state y) -> keyed (y_state y');
  bd_entries : unflag <$> blocks y' = unflag <$> blocks y;
  bd_kern : kern y' ⊆ kern y ∪ T;
}.
#[export] Instance bounded_preorder T : PreOrder (bounded T).
Proof. split; [constructor; [done|done|clear; set_solver]|]. intros ? ? ? [] []. constructor; [auto|congruence|set_solver]. Qed.
Lemma bd_dom T y y' : bounded T y y' -> dom (blocks y') = dom (blocks y).
Proof. intros [_ H _]. by rewrite <- (dom_fmap_L unflag), H, dom_fmap_L. Qed.

Lemma flag_entries t e y a y' : on_state (L := L) (K := K) (X := X) (SetBlockEnforced t e) y = Some (a, y') ->
  unflag <$> blocks y' = unflag <$> blocks y.
Proof.
  unfold on_state, in_state. intros H. apply zoom_inv in H as ([s w] & [= <- <- <-] & ->). cbn. unfold SetBlockEnforced.
  destruct (blocks y !! t) as [b|] eqn:Hb; [|done]. cbn. rewrite fmap_insert. apply insert_id.
  rewrite lookup_fmap, Hb. by destruct b.
Qed.

Definition settles y y' : Prop := keyed (y_state y) -> bounded (dom (blocks y)) y y'.
#[export] Instance settles_preorder : PreOrder settles.
Proof.
  split; [by intros y _|]. intros y1 y2 y3 H1 H2 HK. specialize (H1 HK). specialize (H2 (bd_keyed _ _ _ H1 HK)).
  rewrite (bd_dom _ _ _ H1) in H2. by transitivity y2.
Qed.

Lemma same_bounded T y y' : blocks y' = blocks y -> w_ext (y_w y') = w_ext (y_w y) -> bounded T y y'.
Proof. intros HB HW. constructor; unfold keyed, kern; rewrite ?HB, ?HW; [done|done|clear; set_solver]. Qed.
Lemma same_settles y y' : blocks y' = blocks y -> w_ext (y_w y') = w_ext (y_w y) -> settles y y'.
Proof. intros HB HW _. by apply same_bounded. Qed.
Lemma quiet_settles {A} (m : M sys A) : moves quiet m -> moves settles m.
Proof.
  intros H. eapply moves_weaken; [exact H|]. intros y y' (_ & _ & _ & _ & _ & _ & HB & HW)%quiet_inv. by apply same_settles.
Qed.

Lemma confirm_bounded T bs : (forall b, b ∈ bs -> b_Target b ∈ T) -> moves (bounded T) (confirm_blocks (L := L) (K := K) (X := X) bs).
Proof.
  induction bs as [|b bs IH]; intros HT; cbn [confirm_blocks]; [moves_solve|].
  assert (moves (bounded T) (confirm_blocks (L := L) (K := K) (X := X) bs)) by (apply IH; set_solver).
  assert (moves (bounded T) (core_call (L := L) (K := K) (core_Add (b_Target b)))).
  { intros y e y' (HB & _ & Hk & _)%core_add. constructor; rewrite ?(be_blocks _ _ _ _ HB); [|done|].
    - unfold keyed. by rewrite (be_blocks _ _ _ _ HB).
    - assert (b_Target b ∈ T) by (apply HT; set_solver). set_solver. }
  assert (moves (bounded T) (on_state (L := L) (K := K) (X := X) (SetBlockEnforced (b_Target b) true))).
  { intros y a y' H1. pose proof (flag_kern _ _ _ _ _ H1) as Hk. pose proof (flag_entries _ _ _ _ _ H1) as Hu.
    apply flag_kept in H1 as []. constructor; [done|done|rewrite Hk; clear; set_solver]. }
  moves_solve.
Qed.
Lemma reconcileVerified_settles : moves settles (reconcileVerifiedLocked (L := L) (K := K) (X := X)).
Proof.
  intros y e y' H HK. unfold reconcileVerifiedLocked in H. apply bind_inv in H as (y0 & y1 & H1 & H). apply get_inv in H1 as [-> ->].
  destruct (negb _); [by apply ret_inv in H as [_ ->]|]. revert H. apply confirm_bounded.
  intros b Hb. apply snapshot_lookup in Hb; [|done]. by apply elem_of_dom_2 in Hb.
Qed.
Lemma set_modes_settles e x : moves settles (on_state (L := L) (K := K) (X := X) (SetModes e x)).
Proof. intros y a y' H. unfold on_state, in_state in H. apply zoom_inv in H as ([s w] & [= <- <- <-] & ->). by apply same_settles. Qed.
Lemma with_status_settles f : moves settles (with_status (L := L) (K := K) (X := X) f).
Proof. apply moves_modify. intros y. by apply same_settles. Qed.
Hint Resolve quiet_settles reconcileVerified_settles set_modes_settles with_status_settles : moves.
Hint Resolve refresh_quiet stamp_quiet mint_quiet : moves.

Lemma markDegraded_settles r k v : moves settles (markDegradedLocked (L := L) (K := K) (X := X) r k v).
Proof. unfold markDegradedLocked. moves_solve. Qed.
Hint Resolve markDegraded_settles : moves.
Lemma degrade_settles r : moves settles (degradeLocked (L := L) (K := K) (X := X) r).
Proof. unfold degradeLocked. moves_solve. Qed.
Hint Resolve degrade_settles : moves.
Lemma FailSafe_settles r : moves settles (FailSafe (L := L) (K := K) (X := X) r).
Proof. unfold FailSafe. moves_solve. Qed.
Hint Resolve FailSafe_settles FailSafe_retains : moves.

(** ** The steps of the pass *)

Abbreviation targets bs := (map b_Target bs).

Lemma tell_quiet severity kind source message target :
  moves quiet (tell (L := L) (K := K) (X := X) severity kind source message target).
Proof. apply in_state_quiet, AddEvent_recorded. Qed.
Lemma telemetry_quiet f : moves quiet (telemetry (L := L) (K := K) (X := X) f).
Proof. intros y a y' H. unfold telemetry, on_state, in_state in H. by apply zoom_inv in H as ([s w] & [= <- <- <-] & ->). Qed.
Lemma evidence_quiet r : moves quiet (in_state (L := L) (K := K) (X := X) (RecordEvidence r)).
Proof. apply in_state_quiet, RecordEvidence_recorded. Qed.
Lemma add_event_quiet e : moves quiet (in_state (L := L) (K := K) (X := X) (AddEvent e)).
Proof. apply in_state_quiet, AddEvent_recorded. Qed.
Hint Resolve tell_quiet telemetry_quiet evidence_quiet add_event_quiet : moves.
Lemma record_expired_quiet now l : moves quiet (record_expired (L := L) (K := K) (X := X) now l).
Proof. induction l as [|b l IH]; cbn [record_expired]; moves_solve. Qed.

(** One candidate: out of the list and, when it was enforced, out of the
    kernel; or back in the list. *)
Lemma expire_one_inv core b y e y' : expire_one core b y = Some (e, y') ->
  match e with
  | None => becomes y (blocks y) (kern y') y' /\ (b_Enforced b = true -> b_Target b ∉ kern y')
  | Some _ => becomes y (<[b_Target b := b]> (blocks y)) (kern y') y'
  end /\ kern y' ⊆ kern y /\ kern y ⊆ {[b_Target b]} ∪ kern y'.
Proof.
  unfold expire_one. destruct (b_Enforced b); cbn [negb].
  2: { intros [-> ->]%ret_inv. split; [done|set_solver]. }
  destruct core; cbn [negb]; intros H.
  - apply bind_inv in H as (de & y1 & H1 & H). apply core_delete in H1 as (HB & H1 & H2 & H3). destruct de as [de|].
    + apply bind_inv in H as (u & y2 & H4 & H). apply bind_inv in H as (u' & y3 & H5 & H). apply ret_inv in H as [-> ->].
      apply restore_becomes in H4. apply tell_quiet in H5. rewrite (be_blocks _ _ _ _ HB) in H4.
      pose proof (becomes_quiet _ _ _ _ _ (becomes_trans _ _ _ _ _ _ _ HB H4) H5) as HB'. pose proof (be_kern _ _ _ _ HB') as ->. done.
    + apply ret_inv in H as [-> ->]. split; [split; [done|by intros _; apply H3]|done].
  - apply bind_inv in H as (u & y2 & H4 & H). apply bind_inv in H as (u' & y3 & H5 & H). apply ret_inv in H as [-> ->].
    apply restore_becomes in H4. apply tell_quiet in H5. pose proof (becomes_quiet _ _ _ _ _ H4 H5) as HB.
    pose proof (be_kern _ _ _ _ HB) as ->. split; [done|set_solver].
Qed.

(** The entries of [bs], by target. *)
Definition listed (bs : list BlockEntry) : gmap string BlockEntry := list_to_map (map (fun b => (b_Target b, b)) bs).
Lemma listed_cons b bs : listed (b :: bs) = <[b_Target b := b]> (listed bs).
Proof. done. Qed.
Lemma dom_listed bs : dom (listed bs) = list_to_set (targets bs).
Proof. induction bs as [|b bs IH]; [apply dom_empty_L|]. rewrite listed_cons, dom_insert_L, IH. done. Qed.
Lemma listed_None t bs : t ∉ targets bs -> listed bs !! t = None.
Proof. intros H. apply not_elem_of_dom. rewrite dom_listed. set_solver. Qed.
Lemma listed_Some t b bs : listed bs !! t = Some b -> b ∈ bs /\ b_Target b = t.
Proof.
  induction bs as [|c bs IH]; [done|]. rewrite listed_cons. intros [[<- <-]|[_ H]]%lookup_insert_Some; [split; [left|done]|].
  apply IH in H as [H1 H2]. split; [by right|done].
Qed.

Lemma expire_all_inv core cs y removed deferred y' : NoDup (targets cs) -> expire_all core cs y = Some ((removed, deferred), y') ->
  exists stay, cs ≡ₚ removed ++ stay /\ becomes y (listed stay ∪ blocks y) (kern y') y' /\
    (forall b, b ∈ removed -> b_Enforced b = true -> b_Target b ∉ kern y') /\
    kern y' ⊆ kern y /\ kern y ⊆ list_to_set (targets cs) ∪ kern y'.
Proof.
  revert y removed deferred. induction cs as [|b cs IH]; intros y removed deferred Hnd H; cbn [expire_all] in H.
  { apply ret_inv in H as [[= -> ->] ->]. exists []. unfold listed. cbn. rewrite (left_id_L ∅ (∪)). split_and!; try done; set_solver. }
  cbn in Hnd. apply NoDup_cons in Hnd as [Hnb Hnd]. apply bind_inv in H as (e & y1 & H1 & H). apply expire_one_inv in H1 as (H1 & Hk1 & Hk2).
  apply bind_inv in H as ([rs ds] & y2 & H2 & H). apply ret_inv in H as [H ->].
  apply IH in H2 as (stay & Hp & HB & Hr & Hk3 & Hk4); [|done]. cbn [fst snd] in H.
  assert (kern y2 ⊆ kern y /\ kern y ⊆ list_to_set (targets (b :: cs)) ∪ kern y2) as [Hk5 Hk6].
  { clear -Hk1 Hk2 Hk3 Hk4. cbn. set_solver. }
  destruct e as [e|]; injection H as -> ->.
  - assert (b_Target b ∉ targets stay) as Hns.
    { intros Hin. apply Hnb. apply list_elem_of_fmap in Hin as (c & Hc & Hin). apply list_elem_of_fmap. exists c. split; [done|]. rewrite Hp. apply elem_of_app. by right. }
    exists (b :: stay). split_and!; [by rewrite Hp, Permutation_middle| |done|done|done].
    pose proof (be_blocks _ _ _ _ H1) as Hb1. rewrite Hb1 in HB. rewrite listed_cons, <- insert_union_l.
    rewrite insert_union_r by by apply listed_None. by eapply becomes_trans.
  - destruct H1 as [H1 Hd]. exists stay. split_and!; [by rewrite Hp| | |done|done].
    + pose proof (be_blocks _ _ _ _ H1) as Hb1. rewrite Hb1 in HB. by eapply becomes_trans.
    + intros c [->|Hc]%elem_of_cons He; [|by apply Hr]. specialize (Hd He). clear -Hd Hk3. set_solver.
Qed.

Lemma put_back_inv core bs y errs y' : NoDup (targets bs) -> put_back core bs y = Some (errs, y') ->
  becomes y (listed bs ∪ blocks y) (kern y') y' /\ kern y ⊆ kern y'.
Proof.
  revert y errs. induction bs as [|b bs IH]; intros y errs Hnd H; cbn [put_back] in H.
  { apply ret_inv in H as [-> ->]. unfold listed. cbn. by rewrite (left_id_L ∅ (∪)). }
  cbn in Hnd. apply NoDup_cons in Hnd as [Hnb Hnd]. apply bind_inv in H as (u & y1 & H1 & H). apply restore_becomes in H1.
  apply bind_inv in H as (e & y2 & H2 & H). apply bind_inv in H as (es & y3 & H3 & H). apply ret_inv in H as [-> ->].
  apply IH in H3 as [H3 Hk3]; [|done].
  assert (becomes y1 (blocks y1) (kern y2) y2 /\ kern y1 ⊆ kern y2) as [HB Hk].
  { destruct (b_Enforced b), core; cbn [negb] in H2; try (apply ret_inv in H2 as [_ ->]; done).
    apply bind_inv in H2 as (ae & y4 & H2 & H). apply ret_inv in H as [_ ->]. by apply core_add in H2 as (? & ? & _). }
  pose proof (be_blocks _ _ _ _ H1) as Hb1. pose proof (be_blocks _ _ _ _ HB) as Hb2. rewrite (be_kern _ _ _ _ H1) in Hk.
  rewrite Hb2, Hb1 in H3. split; [|by etransitivity]. rewrite listed_cons, <- insert_union_l, insert_union_r by by apply listed_None.
  eapply becomes_trans; [exact H1|]. by eapply becomes_trans.
Qed.

(** What leaves the list for the pass. *)
Lemma Expired_targets now mono (s : State L K) : keyed s -> NoDup (targets (Expired now mono s).1).
Proof.
  intros HK. unfold Expired. cbn [fst]. set (due := fun kb : string * BlockEntry => blockExpired _ now mono).
  assert (NoDup (List.filter due (block_list s)).*1) as Hnd.
  { assert (sublist (List.filter due (block_list s)) (block_list s)) as Hs.
    { generalize (block_list s) as l. intros l. induction l as [|x l IH]; [constructor|]. cbn. destruct (due x); by constructor. }
    eapply sublist_NoDup; [|apply fmap_sublist, Hs]. apply NoDup_fst_map_to_list. }
  replace (targets (map snd _)) with (List.filter due (block_list s)).*1; [done|]. rewrite map_map. apply map_ext_in.
  intros [t b] [Hin _]%filter_In. apply list_elem_of_In, elem_of_map_to_list, HK in Hin. done.
Qed.
Lemma Expired_modes now mono (s : State L K) : st_enforcement (Expired now mono s).2 = st_enforcement s /\
  st_releaseXDRMode (Expired now mono s).2 = st_releaseXDRMode s.
Proof.
  unfold Expired. cbn [snd]. generalize (List.filter (fun kb => blockExpired (blockExpiryDeadline kb.1 kb.2 s) now mono) (block_list s)) as l.
  intros l. revert s. induction l as [|x l IH]; intros s; [done|]. cbn [fold_left]. by destruct (IH (drop_block x.1 s)) as [-> ->].
Qed.
Lemma Expired_split now mono (s : State L K) : keyed s -> let cs := (Expired now mono s).1 in let s' := (Expired now mono s).2 in
  st_blocks s = listed cs ∪ st_blocks s' /\ dom (st_blocks s') ## list_to_set (targets cs) /\
  (forall b, b ∈ cs -> st_blocks s !! b_Target b = Some b /\ blockExpired (blockExpiryDeadline (b_Target b) b s) now mono = true) /\
  (forall t b, st_blocks s !! t = Some b -> blockExpired (blockExpiryDeadline t b s) now mono = false ->
     st_blocks s' !! t = Some b /\ t ∉ targets cs).
Proof.
  intros HK cs s'. pose proof (fun t => proj1 (expired_exact now mono s t)) as Hl.
  pose proof (proj2 (expired_exact now mono s "")) as Hc. fold cs in Hc. fold s' in Hl.
  assert (forall b, b ∈ cs -> st_blocks s !! b_Target b = Some b /\ blockExpired (blockExpiryDeadline (b_Target b) b s) now mono = true) as Hin.
  { intros b (t & Ht & Hd)%Hc. by rewrite (HK _ _ Ht). }
  assert (forall t, t ∈ targets cs -> st_blocks s' !! t = None) as Hout.
  { intros t (b & -> & [Hb Hd]%Hin)%list_elem_of_fmap. rewrite Hl, Hb. cbn. by rewrite Hd. }
  assert (forall t b, st_blocks s !! t = Some b -> blockExpired (blockExpiryDeadline t b s) now mono = false ->
     st_blocks s' !! t = Some b /\ t ∉ targets cs) as Hkeep.
  { intros t b Hb Hd. assert (st_blocks s' !! t = Some b) as Hs by (rewrite Hl, Hb; cbn; by rewrite Hd).
    split; [done|]. intros Ht%Hout. congruence. }
  split_and!; [|intros t Ht Hn; apply elem_of_list_to_set, Hout in Hn; apply elem_of_dom in Ht as [? ?]; congruence|done|done].
  apply map_eq. intros t. rewrite lookup_union. destruct (st_blocks s !! t) as [b|] eqn:Hb.
  - destruct (blockExpired (blockExpiryDeadline t b s) now mono) eqn:Hd.
    + assert (b ∈ cs) as Hbc by (apply Hc; eauto). assert (is_Some (listed cs !! t)) as [c Hcs].
      { apply elem_of_dom. rewrite dom_listed. apply elem_of_list_to_set, list_elem_of_fmap. exists b. by rewrite (HK _ _ Hb). }
      apply listed_Some in Hcs as Hcc. destruct Hcc as [Hcc Ht]. apply Hin in Hcc as [Hcc _]. rewrite Ht, Hb in Hcc. injection Hcc as <-.
      rewrite Hcs. by destruct (st_blocks s' !! t).
    + destruct (Hkeep _ _ Hb Hd) as [Hs Hn]. rewrite Hs, listed_None by done. reflexivity.
  - rewrite Hl, Hb. cbn [mbind option_bind]. destruct (listed cs !! t) as [c|] eqn:Hcs; [|reflexivity].
    apply listed_Some in Hcs as [[Hcc _]%Hin <-]. congruence.
Qed.

Lemma listed_app bs cs : listed (bs ++ cs) = listed bs ∪ listed cs.
Proof. unfold listed. by rewrite map_app, list_to_map_app. Qed.

Lemma listed_perm bs cs : NoDup (targets bs) -> bs ≡ₚ cs -> listed bs = listed cs.
Proof.
  intros Hn Hp. unfold listed. apply list_to_map_proper; [|by rewrite Hp]. by rewrite <- list_fmap_compose.
Qed.

(** ** The transaction *)

Definition due now mono y (t : string) b : bool := blockExpired (blockExpiryDeadline t b (y_state y)) now mono.

(** The list without [removed]. *)
Definition without removed y (t : string) : option BlockEntry :=
  if decide (t ∈ targets removed) then None else blocks y !! t.

(** What the pass leaves when it reports [removed]: every one of them was due,
    the list lost exactly them and kept every other entry (the fail-safe may
    flag some as enforced), the kernel holds no rule of theirs, and what was
    not due and enforced still is. *)
Record expiry_outcome now mono y removed y' : Prop := {
  eo_due : forall b, b ∈ removed -> blocks y !! b_Target b = Some b /\ due now mono y (b_Target b) b = true;
  eo_list : forall t, unflag <$> blocks y' !! t = unflag <$> without removed y t;
  eo_gone : forall b, b ∈ removed -> b_Enforced b = true -> b_Target b ∉ kern y';
  eo_held : forall t b, blocks y !! t = Some b -> due now mono y t b = false -> held y t -> held y' t;
  eo_keyed : keyed (y_state y');
}.

Lemma outcome_step now mono y removed y1 y2 : expiry_outcome now mono y removed y1 -> settles y1 y2 -> retains y1 y2 ->
  expiry_outcome now mono y removed y2.
Proof.
  intros [H1 H2 H3 H4 H5] HS HR. specialize (HS H5). constructor; [done| | |intros; apply HR; by eapply H4|by apply HR].
  - intros t. by rewrite <- lookup_fmap, (bd_entries _ _ _ HS), lookup_fmap.
  - intros b Hb He Hin. apply (bd_kern _ _ _ HS) in Hin. apply elem_of_union in Hin as [Hin|Hin]; [by eapply H3|].
    apply elem_of_dom in Hin as [c Hc]. specialize (H2 (b_Target b)). rewrite Hc in H2. unfold without in H2.
    rewrite decide_True in H2; [done|]. apply list_elem_of_fmap. eauto.
Qed.
Lemma outcome_moves {A} (m : M sys A) now mono y removed y1 a y2 : moves settles m -> moves retains m ->
  expiry_outcome now mono y removed y1 -> m y1 = Some (a, y2) -> expiry_outcome now mono y removed y2.
Proof. intros HS HR HO H. eapply outcome_step; [exact HO|by eapply HS|by eapply HR]. Qed.
Lemma outcome_quiet now mono y removed y1 y2 : expiry_outcome now mono y removed y1 -> quiet y1 y2 -> expiry_outcome now mono y removed y2.
Proof.
  intros HO HQ. eapply outcome_step; [exact HO| |by apply quiet_retains].
  apply quiet_inv in HQ as (_ & _ & _ & _ & _ & _ & HB & HW). by apply same_settles.
Qed.

(** After the candidates left the list and the kernel. *)
Section Pass.
Context (now mono : gotime) (y : sys) (cs : list BlockEntry) (s' : State L K).
Context (HK : keyed (y_state y)) (HE : Expired now mono (y_state y) = (cs, s')).

Lemma pass_split : blocks y = listed cs ∪ st_blocks s' /\ dom (st_blocks s') ## list_to_set (targets cs) /\
  (forall b, b ∈ cs -> blocks y !! b_Target b = Some b /\ due now mono y (b_Target b) b = true) /\
  (forall t b, blocks y !! t = Some b -> due now mono y t b = false -> st_blocks s' !! t = Some b /\ t ∉ targets cs) /\
  NoDup (targets cs).
Proof.
  pose proof (Expired_split now mono _ HK) as H. pose proof (Expired_targets now mono _ HK) as Hn. rewrite HE in H, Hn.
  destruct H as (H1 & H2 & H3 & H4). by split_and!.
Qed.

Lemma pass_keyed bs : bs ⊆ cs -> forall t b, (listed bs ∪ st_blocks s') !! t = Some b -> b_Target b = t.
Proof.
  intros Hs t b [H|[_ H]]%lookup_union_Some_raw; [by apply listed_Some in H as [_ ?]|].
  pose proof (proj1 (expired_exact now mono (y_state y) t)) as Hl. rewrite HE in Hl. cbn [snd] in Hl. rewrite H in Hl.
  destruct (st_blocks (y_state y) !! t) as [c|] eqn:Hc; cbn in Hl; [|done]. destruct (blockExpired _ now mono); [done|].
  injection Hl as ->. by apply HK.
Qed.

Lemma pass_without removed stay y1 : cs ≡ₚ removed ++ stay -> blocks y1 = listed stay ∪ st_blocks s' ->
  forall t, blocks y1 !! t = without removed y t.
Proof.
  intros Hp Hb t. destruct pass_split as (Hsp & Hdj & _ & _ & Hnc). pose proof Hnc as Hnd. rewrite Hp, map_app in Hnd.
  apply NoDup_app in Hnd as (_ & Hnd & _). unfold without. rewrite Hb, Hsp. destruct (decide _) as [Ht|Ht].
  - rewrite lookup_union_None. split; [by apply listed_None, Hnd|]. apply not_elem_of_dom. intros Hd. apply (Hdj t); [done|].
    apply elem_of_list_to_set. rewrite Hp, map_app. apply elem_of_app. by left.
  - rewrite (listed_perm cs (removed ++ stay)), listed_app by done. by rewrite !lookup_union, (listed_None _ _ Ht), (left_id_L None (∪)).
Qed.

(** Any way of putting part of the candidates back. *)
Lemma pass_outcome removed stay y1 : cs ≡ₚ removed ++ stay -> blocks y1 = listed stay ∪ st_blocks s' ->
  (forall b, b ∈ removed -> b_Enforced b = true -> b_Target b ∉ kern y1) ->
  kern y ⊆ list_to_set (targets cs) ∪ kern y1 -> expiry_outcome now mono y removed y1.
Proof.
  intros Hp Hb Hg Hk. destruct pass_split as (Hsp & Hdj & Hdue & Hkeep & Hnd). constructor.
  - intros b Hin. apply Hdue. rewrite Hp. apply elem_of_app. by left.
  - intros t. by rewrite (pass_without _ _ _ Hp Hb).
  - done.
  - intros t b Hl Hd [Hin (b0 & Hb0 & He)]. destruct (Hkeep _ _ Hl Hd) as [Hs Hn]. split; [clear -Hk Hin Hn; set_solver|].
    exists b. rewrite Hl in Hb0. injection Hb0 as ->. split; [|done]. rewrite Hb, lookup_union_r; [done|]. apply listed_None.
    intros Hst. apply Hn. rewrite Hp, map_app. apply elem_of_app. by right.
  - intros t b. rewrite Hb. apply pass_keyed. intros c Hc. rewrite Hp. apply elem_of_app. by right.
Qed.
End Pass.

Lemma outcome_none now mono y y1 : keyed (y_state y) -> still y y1 -> expiry_outcome now mono y [] y1.
Proof.
  intros HK HS. pose proof (still_quiet _ _ HS) as HQ. eapply outcome_quiet; [|exact HQ].
  constructor; [by intros b ?%not_elem_of_nil|done|by intros b ?%not_elem_of_nil|done|done].
Qed.

(** The tails of the pass: nothing they do disturbs the outcome. *)
Lemma rolled_back_tail now mono y y1 (re : error) (e a : list BlockEntry * error) y2 : expiry_outcome now mono y [] y1 ->
  ((match re with
    | Some re => failSafeErr ← FailSafe "expired block policy rollback failed";
                 tell "critical" "policy.rollback_failed" "policy"
                   (from_option error_text "" (errors_Join [Some re; failSafeErr])) ""
    | None => mret tt
    end) ;;
   tell "critical" "policy.persist_failed" "policy"
     "Failed to persist signed policy after expiry; removed rules were restored" "" ;;
   mret e) y1 = Some (a, y2) -> a = e /\ expiry_outcome now mono y [] y2.
Proof.
  intros HO H. apply bind_inv in H as (u & y3 & H1 & H). apply bind_inv in H as (u' & y4 & H2 & H). apply ret_inv in H as [-> ->].
  split; [done|]. eapply outcome_quiet; [|by eapply tell_quiet]. revert HO H1.
  apply outcome_moves; destruct re; moves_solve.
Qed.
Lemma committed_tail now mono y y1 at_ removed deferred (a : list BlockEntry * error) y2 : expiry_outcome now mono y removed y1 ->
  commit_expired at_ removed deferred y1 = Some (a, y2) -> a.1 = removed /\ expiry_outcome now mono y removed y2.
Proof.
  unfold commit_expired. intros HO H. apply bind_inv in H as (counts & y3 & H1 & H). apply record_expired_quiet in H1. apply (outcome_quiet _ _ _ _ _ _ HO) in H1 as HO1.
  apply bind_inv in H as (u & y4 & H2 & H).
  assert (expiry_outcome now mono y removed y4) as HO2.
  { eapply outcome_quiet; [exact HO1|]. destruct (0 <? _); [by eapply telemetry_quiet|by apply ret_inv in H2 as [_ ->]]. }
  destruct (joined counts.2) as [ee|]; [|by apply ret_inv in H as [-> ->]].
  apply bind_inv in H as (u' & y5 & H3 & H). apply bind_inv in H as (fe & y6 & H4 & H). apply ret_inv in H as [-> ->]. split; [done|].
  apply tell_quiet in H3. apply (outcome_quiet _ _ _ _ _ _ HO2) in H3. revert H3 H4. apply outcome_moves; moves_solve.
Qed.

End Settling.
