(* ===== verification/BlockSafety.v ===== *)
(** * The operator's block transactions

    [addBlock], [deleteBlock] and [undoBlock] (src/control/server.go): what a
    success means, what a refusal leaves, and the undo tokens. *)

From Stdlib Require Import ZArith Lia Ascii String.
From stdpp Require Import base gmap strings list sorting.
From S2P Require Import Prelude.
From S2P Require Import GoLib.
From S2P Require Import Text.
From S2P Require Import World.
From S2P Require Import Storage.
From S2P Require Import Exec.
From S2P Require Import NetIP.
From S2P Require Import NetIPFacts.
From S2P Require Import Policy.
From S2P Require Import Evidence.
From S2P Require Import State.
From S2P Require Import Snapshot.
From S2P Require Import StateFacts.
From S2P Require Import Release.
From S2P Require Import ReleaseFrames.
From S2P Require Import ReleaseFacts.
From S2P Require Import RateLimit.
From S2P Require Import KineticResponse.
From S2P Require Import BlockOps.
From S2P Require Import BlockFacts.
From S2P Require Import ExpiryFacts.

Section Operator.
Context {L K X : Type} `{SK : !Sinks L K X} `{QS : !QuietSinks L K X} `{CC : !CoreClient X} `{CL : !CoreLaws X}
  `{U : Unicode} `{C : Crypto} `{CRL : !CryptoLaws C} `{ED : Policy.Ed25519} `{JE : JSONDoc encryptedStorageEnvelope}
  `{JEL : !JSONDocLaws encryptedStorageEnvelope} `{EP : !EnvelopeProbe}
  `{JP : JSONDoc PolicyEnvelope} `{JD : JSONDoc PolicyDocument} `{JF : JSONDoc policyFloorDocument}.
Abbreviation sys := (Sys L K X).
Abbreviation server := (Server L K X).
Abbreviation blocks y := (st_blocks (y_state y)).
Implicit Types (y : sys) (v : server) (b : BlockEntry).

Lemma with_sys_inv {A} (m : M sys A) v a v' : with_sys m v = Some (a, v') ->
  exists y', m (v_sys v) = Some (a, y') /\ v' = set_vsys y' v.
Proof. intros H. apply zoom_inv in H as (y' & H & ->). eauto. Qed.

(** ** Additions *)

Definition enforcing y : bool := bool_decide ((Modes (y_state y)).1 = "enforce").

Lemma add_block_inv t r src ttl e mx y res y' : normalizeTarget t = inr t -> add_block t r src ttl e mx y = Some (res, y') ->
  match res with
  | inl _ => still y y'
  | inr b => becomes y (<[t := b]> (blocks y)) (kern y) y' /\ added_to y t e src b
  end.
Proof.
  intros Hn H. unfold add_block in H. apply bind_inv in H as (clock & y1 & H1 & H). apply now_mono_still in H1 as HS.
  apply add_block_at_inv in H. destruct res as [er|b]; [by transitivity y1|].
  destruct H as (t' & Ht & HB & Ha). rewrite Hn in Ht. injection Ht as <-.
  pose proof (quiet_becomes _ _ (still_quiet _ _ HS)) as HB1. pose proof HS as (_ & Hst & _ & _ & _ & Ho). rewrite Hst in HB. split.
  - rewrite <- (be_kern _ _ _ _ HB1). by eapply becomes_trans.
  - unfold added_to in *. by rewrite Hst, Ho in Ha.
Qed.

(** The entry an addition leaves: a new one, or the old one with its identifier. *)
Definition entry_for y t b : Prop := b_Enforced b = enforcing y /\
  match blocks y !! t with
  | Some old => b_ID b = b_ID old /\ b_Target b = b_Target old
  | None => b_Target b = t
  end.

(** The rule reached the kernel where the mode asks for it. *)
Definition reached t y y1 : Prop := kern y ⊆ kern y1 /\ kern y1 ⊆ {[t]} ∪ kern y /\
  (if enforcing y then t ∈ kern y1 else kern y1 = kern y).

(** The paths of [install]: the core refused; the list refused; the policy
    could not be written; success. *)
Inductive install_path t (le : bool -> goerror -> M sys reply) (pe : bool -> BlockEntry -> goerror -> M sys reply)
    (ok : BlockEntry -> M sys reply) y : reply -> sys -> Prop :=
| ip_offline e y' : becomes y (blocks y) (kern y') y' -> kern y ⊆ kern y' ->
    install_path t le pe ok y (Refused 503 "kernel core unavailable" (Some e)) y'
| ip_unlisted e y1 rep y' : becomes y (blocks y) (kern y1) y1 -> reached t y y1 ->
    le (enforcing y) e y1 = Some (rep, y') -> install_path t le pe ok y rep y'
| ip_unsigned b e y1 u y2 rep y' : becomes y (<[t := b]> (blocks y)) (kern y1) y1 -> reached t y y1 ->
    entry_for y t b -> remove_id (b_ID b) y1 = Some (u, y2) ->
    pe (enforcing y) b e y2 = Some (rep, y') -> install_path t le pe ok y rep y'
| ip_ok b y0 y1 rep y' : becomes y (<[t := b]> (blocks y)) (kern y1) y1 -> reached t y y1 ->
    entry_for y t b -> keyed (y_state y0) -> persistPolicy y0 = Some (None, y1) ->
    ok b y1 = Some (rep, y') -> install_path t le pe ok y rep y'.

Lemma note_offline_becomes y u y' : note_offline y = Some (u, y') -> becomes y (blocks y) (kern y) y'.
Proof. intros H. by apply on_state_becomes in H. Qed.

Lemma install_inv t r src ttl mx le pe ok y rep y' : normalizeTarget t = inr t -> keyed (y_state y) ->
  install t r src ttl mx le pe ok y = Some (rep, y') -> install_path t le pe ok y rep y'.
Proof.
  intros Hn HK H. unfold install in H. apply bind_inv in H as (s & y0 & H0 & H). apply gets_inv in H0 as [-> ->]. fold (enforcing y) in H.
  apply bind_inv in H as (ae & y1 & H1 & H).
  assert (becomes y (blocks y) (kern y1) y1 /\ kern y ⊆ kern y1 /\ (ae = None -> reached t y y1)) as (HB & Hk & HR).
  { unfold reached. destruct (enforcing y).
    - apply core_add in H1 as (HB & H1 & H2 & H3). by split_and!; try done; intros ->; split_and!; try done; apply H3.
    - apply ret_inv in H1 as [-> ->]. by split_and!; try done; set_solver. }
  destruct ae as [e|].
  { apply bind_inv in H as (u & y2 & H2 & H). apply ret_inv in H as [-> ->]. apply note_offline_becomes in H2.
    pose proof (be_blocks _ _ _ _ HB) as Hb. rewrite Hb in H2. pose proof (be_kern _ _ _ _ H2) as Hk2.
    apply ip_offline; rewrite Hk2; [by eapply becomes_trans|done]. }
  specialize (HR eq_refl). apply bind_inv in H as (res & y2 & H2 & H). apply add_block_inv in H2; [|done].
  pose proof (be_blocks _ _ _ _ HB) as Hb. destruct res as [e|b].
  { pose proof (quiet_becomes _ _ (still_quiet _ _ H2)) as HB2. rewrite Hb in HB2. pose proof (be_kern _ _ _ _ HB2) as Hk2.
    eapply ip_unlisted; [| |exact H]; [rewrite Hk2; by eapply becomes_trans|]. unfold reached in *. by rewrite Hk2. }
  destruct H2 as [HB2 Ha]. rewrite Hb in HB2. unfold added_to in Ha. rewrite Hb in Ha.
  assert (entry_for y t b) as He.
  { destruct Ha as [He Ha]. split; [done|]. destruct (blocks y !! t); tauto. }
  apply bind_inv in H as (perr & y3 & H3 & H). apply persistPolicy_quiet in H3 as HQ.
  assert (becomes y (<[t := b]> (blocks y)) (kern y3) y3) as HB3.
  { pose proof (becomes_quiet _ _ _ _ _ HB2 HQ) as HB3. rewrite (be_kern _ _ _ _ HB3). by eapply becomes_trans. }
  assert (reached t y y3) as HR3.
  { pose proof (becomes_quiet _ _ _ _ _ HB2 HQ) as HB3'. unfold reached in *. by rewrite (be_kern _ _ _ _ HB3'). }
  destruct perr as [pe1|].
  - apply bind_inv in H as (u & y4 & H4 & H). by eapply ip_unsigned.
  - eapply ip_ok; [exact HB3|exact HR3|exact He| |exact H3|exact H]. intros t' c. rewrite (be_blocks _ _ _ _ HB2).
    intros [[<- <-]|[_ Hc]]%lookup_insert_Some; [|by apply HK]. destruct He as [_ He].
    destruct (blocks y !! t) as [old|] eqn:Ho; [|done]. destruct He as [_ ->]. by apply HK.
Qed.

Lemma take_back_inv t reason e j other y rep y' : take_back t reason e j other y = Some (rep, y') ->
  (rep = other /\ becomes y (blocks y) (kern y') y' /\ t ∉ kern y') \/ (exists c, rep = Refused 503 "kernel transaction reconciliation failed" c).
Proof.
  unfold take_back. intros H. apply bind_inv in H as (re & y1 & H1 & H). destruct re as [re|].
  - right. apply bind_inv in H as (fe & y2 & H2 & H). apply ret_inv in H as [-> ->]. eauto.
  - left. apply ret_inv in H as [-> ->]. apply core_delete in H1 as (HB & _ & _ & Hg). by split_and!; [| |apply Hg].
Qed.

Lemma add_checked_inv t reason ttl network y rep y' : normalizeTarget t = inr t -> keyed (y_state y) ->
  add_checked t reason ttl network y = Some (rep, y') ->
  match rep with
  | Created b => becomes y (<[t := b]> (blocks y)) (kern y') y' /\ reached t y y' /\ b_Target b = t /\
      b_Enforced b = enforcing y /\ exists doc, filed doc y'
  | Refused 400 _ _ => blocks y' = blocks y /\ (enforcing y = true -> t ∉ kern y')
  | Refused _ _ _ => True
  | _ => False
  end.
Proof.
  intros Hn HK H. apply install_inv in H; [|done..]. inversion H as [e y1 HB Hk|e y1 rep' y1' HB HR Hle|b e y1 u y2 rep' y1' HB HR He Hr Hpe|
    b y0 y1 rep' y1' HB HR He HK0 Hp Hok]; subst; [done|..].
  - pose proof (be_blocks _ _ _ _ HB) as Hb. destruct (enforcing y) eqn:Hen.
    + apply take_back_inv in Hle as [(-> & HB2 & Hg)|[c ->]]; [|done]. pose proof (be_blocks _ _ _ _ HB2) as Hb2. split; [congruence|done].
    + by apply ret_inv in Hle as [-> ->].
  - destruct (enforcing y); [apply take_back_inv in Hpe as [(-> & _)|[c ->]]; done|by apply ret_inv in Hpe as [-> ->]].
  - apply bind_inv in Hok as (u & y2 & H2 & Hok). apply ret_inv in Hok as [-> ->]. apply tell_announces in H2 as HA. apply tell_quiet in H2.
    pose proof (becomes_quiet _ _ _ _ _ HB H2) as HB2. pose proof (be_kern _ _ _ _ HB2) as Hk2. destruct He as [He Hold].
    split_and!; [by rewrite Hk2|by unfold reached in *; rewrite Hk2| |done|].
    + destruct (blocks y !! t) as [old|] eqn:Ho; [|done]. destruct Hold as [_ ->]. by apply HK.
    + apply persistPolicy_filed in Hp as [doc Hdoc]; [|done]. exists doc. by eapply announces_filed.
Qed.

(** What the request of [addBlock] passed. *)
Definition add_request v (request : option (string * string * Z)) (target : string) : Prop := exists raw reason ttl,
  request = Some (raw, reason, ttl) /\ normalizeTarget raw = inr target /\
  isAllowlistProtectedLocked target (v_kinetic v) = false /\
  60 <= (if ttl =? 0 then nr_DefaultTTLSeconds (v_network v) else ttl) <= nr_MaxTTLSeconds (v_network v).

Lemma addBlock_inv request v rep v' : addBlock request v = Some (rep, v') ->
  (exists m c, rep = Refused 400 m c /\ v' = v /\ (c = None \/ exists r s t e, request = Some (r, s, t) /\ normalizeTarget r = inl e)) \/
  (exists m c, rep = Refused 409 m c) \/
  exists target reason ttl, add_request v request target /\ v' = set_vsys (v_sys v') v /\
    add_checked target reason ttl (v_network v) (v_sys v) = Some (rep, v_sys v').
Proof.
  unfold addBlock. destruct request as [[[raw reason] ttl]|]; intros H.
  2: { apply ret_inv in H as [-> ->]. left. eauto 10. }
  apply bind_inv in H as (v0 & v1 & H1 & H). apply get_inv in H1 as [-> ->].
  set (ttl' := if ttl =? 0 then nr_DefaultTTLSeconds (v_network v) else ttl) in *.
  destruct ((ttl' <? 60) || (nr_MaxTTLSeconds (v_network v) <? ttl')) eqn:Ht.
  { apply ret_inv in H as [-> ->]. left. eauto 10. }
  destruct (normalizeTarget raw) as [e|target] eqn:Hn.
  { apply ret_inv in H as [-> ->]. left. eexists _, _. split_and!; [done|done|]. right. eauto 10. }
  destruct (isAllowlistProtectedLocked target (v_kinetic v)) eqn:Ha.
  { apply ret_inv in H as [-> ->]. right. left. eauto. }
  right. right. apply with_sys_inv in H as (y' & H & ->). exists target, reason, ttl'. split_and!; [|done|done].
  exists raw, reason, ttl. apply orb_false_iff in Ht as [?%Z.ltb_ge ?%Z.ltb_ge]. by split_and!.
Qed.


(** A refused addition takes the rule of an existing block out of the kernel.
    When the platform enforces and the list refuses an addition (a reason of
    the wrong length, a full list), the compensation deletes the rule of the
    target whether or not it was there before: an existing block stays in the
    list, still flagged as enforced, and the kernel no longer has it. *)
Theorem refused_add_drops_rule request v target message e v' b : keyed (y_state (v_sys v)) -> enforcing (v_sys v) = true ->
  add_request v request target -> blocks (v_sys v) !! target = Some b ->
  addBlock request v = Some (Refused 400 message (Some e), v') ->
  blocks (v_sys v') !! target = Some b /\ target ∉ kern (v_sys v').
Proof.
  intros HK He (raw & rs & ttl0 & -> & Hn & _ & _) Hb
    [(m & c & [= <- <-] & _ & [|(r & s & t & e' & [= <- <- <-] & Hn')])|[(m & c & [=])|(t & reason & ttl & HR & Hv & H)]]%addBlock_inv;
    [done|congruence|].
  destruct HR as (raw' & rs' & ttl' & [= <- <- <-] & Hn' & _). rewrite Hn in Hn'. injection Hn' as <-.
  apply add_checked_inv in H as [Hb' Hg]; [|by eapply normalizeTarget_fixed|done]. rewrite Hb'. split; [done|by apply Hg].
Qed.

(** An update that cannot be signed removes the block it was to update. When
    an operator renews or re-states a block that exists and the signed policy
    cannot be written, the compensation removes the entry by its identifier,
    which the update kept, and its kernel rule: the target, blocked before the
    request, is no longer blocked. *)
Theorem unsigned_update_drops_block target reason ttl network y old message e y' : keyed (y_state y) -> enforcing y = true ->
  normalizeTarget target = inr target -> blocks y !! target = Some old ->
  (forall t b, blocks y !! t = Some b -> b_ID b = b_ID old -> t = target) ->
  add_checked target reason ttl network y = Some (Refused 500 message (Some e), y') ->
  blocks y' = delete target (blocks y) /\ target ∉ kern y'.
Proof.
  intros HK Hen Hn Ho Hu H. apply install_inv in H; [|done..]. inversion H as [|e1 y1 rep' y1' HB HR Hle|b e1 y1 u y2 rep' y1' HB HR He Hr Hpe|
    b y0 y1 rep' y1' HB HR He HK0 Hp Hok]; subst.
  - rewrite Hen in Hle. by apply take_back_inv in Hle as [(? & _)|[? ?]].
  - rewrite Hen in Hpe. unfold entry_for in He. rewrite Ho in He. destruct He as (_ & Hid & Ht). rewrite (HK _ _ Ho) in Ht.
    pose proof (be_blocks _ _ _ _ HB) as Hb1.
    assert (RemoveBlockByID (b_ID b) (y_state y1) = (Some b, drop_block target (y_state y1))) as Hrm.
    { apply remove_unique; [by rewrite Hb1, lookup_insert_eq|]. intros t c. rewrite Hb1, Hid.
      intros [[<- _]|[_ Hc]]%lookup_insert_Some Hcid; [done|by eapply Hu]. }
    unfold remove_id in Hr. apply on_state_becomes in Hr; [|by rewrite Hrm]. rewrite Hrm in Hr. cbn [snd st_blocks drop_block] in Hr.
    apply take_back_inv in Hpe as [(_ & HB2 & Hg)|[? ?]]; [|done]. rewrite Ht in Hg. split; [|done].
    rewrite (be_blocks _ _ _ _ HB2), (be_blocks _ _ _ _ Hr). cbn. by rewrite Hb1, delete_insert_eq.
  - apply bind_inv in Hok as (? & ? & _ & Hok). by apply ret_inv in Hok as [? _].
Qed.

(** ** Removals *)

Lemma RemoveBlockByID_inv id (s : State L K) b s' : RemoveBlockByID id s = (Some b, s') ->
  exists t, st_blocks s !! t = Some b /\ b_ID b = id /\ s' = drop_block t s /\ BlockByID id s = Some b.
Proof.
  unfold RemoveBlockByID, BlockByID. destruct (list_find _ (block_list s)) as [[i [t b']]|] eqn:Hf; [|done]. intros [= -> <-].
  apply list_find_Some in Hf as (Hi & Hid & _). apply list_elem_of_lookup_2, elem_of_map_to_list in Hi. by exists t.
Qed.

(** Every block but [t] that was enforced still is. *)
Definition others_held t y y' : Prop := forall u, u <> t -> held y u -> held y' u.

Lemma others_held_becomes t (m' : gmap string BlockEntry) k y y' : becomes y m' k y' -> kern y ⊆ {[t]} ∪ k ->
  (forall u, u <> t -> m' !! u = blocks y !! u) -> others_held t y y'.
Proof.
  intros [_ Hb Hk] Hs Hm u Hu [Hin (b & Hl & He)]. split; [rewrite Hk; clear -Hs Hin Hu; set_solver|].
  exists b. by rewrite Hb, Hm.
Qed.

(** The fail-safe after a quiet step. *)
Lemma failed_safe y y1 reason e y2 : keyed (y_state y) -> quiet y y1 -> FailSafe reason y1 = Some (e, y2) ->
  (forall t, held y t -> held y2 t) /\ unflag <$> blocks y2 = unflag <$> blocks y.
Proof.
  intros HK HQ H. pose proof (quiet_retains _ _ HQ) as HR1. pose proof (FailSafe_retains _ _ _ _ H) as HR2. apply FailSafe_settles in H.
  split; [intros t Ht; by apply HR2, HR1|]. pose proof (H (rt_keyed _ _ HR1 HK)) as HS. rewrite (bd_entries _ _ _ HS).
  apply quiet_inv in HQ as (_ & _ & _ & _ & _ & _ & -> & _). done.
Qed.

(** The entry is out of the list and of the kernel, or back in it. *)
Lemma remove_checked_inv b y r y' : keyed (y_state y) -> blocks y !! b_Target b = None -> remove_checked b y = Some (r, y') ->
  others_held (b_Target b) y y' /\
  match r with
  | None => becomes y (blocks y) (kern y') y' /\ (b_Enforced b = true -> b_Target b ∉ kern y') /\ exists doc, filed doc y'
  | Some (Refused _ _ _) => unflag <$> blocks y' = unflag <$> <[b_Target b := b]> (blocks y)
  | Some _ => False
  end.
Proof.
  intros HK Hno H. unfold remove_checked in H. apply bind_inv in H as (de & y1 & H1 & H).
  assert (becomes y (blocks y) (kern y1) y1 /\ kern y ⊆ {[b_Target b]} ∪ kern y1 /\
          (de = None -> b_Enforced b = true -> b_Target b ∉ kern y1)) as (HB & Hk & Hg).
  { destruct (b_Enforced b); [apply core_delete in H1 as (? & ? & _ & Hd); by split_and!; [| |intros Hn _; apply Hd]|]. apply ret_inv in H1 as [-> ->].
    split_and!; [done|clear; set_solver|done]. }
  assert (forall u y2 y3, quiet y1 y2 -> restore b y2 = Some (u, y3) ->
    becomes y (<[b_Target b := b]> (blocks y)) (kern y1) y3 /\ others_held (b_Target b) y y3) as Hback.
  { intros u y2 y3 HQ H3. pose proof (becomes_quiet _ _ _ _ _ HB HQ) as HB2. apply restore_becomes in H3.
    rewrite (be_blocks _ _ _ _ HB2), (be_kern _ _ _ _ HB2) in H3. pose proof (becomes_trans _ _ _ _ _ _ _ HB2 H3) as HB3.
    split; [done|]. eapply others_held_becomes; [exact HB3|done|]. intros v Hv. by rewrite lookup_insert_ne. }
  destruct de as [e|].
  { apply bind_inv in H as (u & y2 & H2 & H). apply ret_inv in H as [-> ->]. apply Hback in H2 as [HB2 Ho]; [|done].
    split; [done|]. by rewrite (be_blocks _ _ _ _ HB2). }
  apply bind_inv in H as (pe & y2 & H2 & H). apply persistPolicy_quiet in H2 as HQ. destruct pe as [pe|].
  - apply bind_inv in H as (u & y3 & H3 & H). apply Hback in H3 as [HB3 Ho]; [|done].
    pose proof (be_blocks _ _ _ _ HB3) as Hd.
    destruct (b_Enforced b); [|apply ret_inv in H as [-> ->]; by rewrite Hd].
    apply bind_inv in H as (ae & y4 & H4 & H). apply core_add in H4 as (HB4 & Hk4 & _ & _).
    assert (others_held (b_Target b) y y4) as Ho4.
    { intros t Ht Hh. apply Ho in Hh as [Hin Hb]; [|done]. split; [clear -Hk4 Hin; set_solver|by rewrite (be_blocks _ _ _ _ HB4)]. }
    pose proof (be_blocks _ _ _ _ HB4) as Hd4. rewrite Hd in Hd4.
    destruct ae as [ae|]; [|apply ret_inv in H as [-> ->]; by rewrite Hd4].
    apply bind_inv in H as (u1 & y5 & H5 & H). apply bind_inv in H as (fe & y6 & H6 & H). apply ret_inv in H as [-> ->].
    assert (keyed (y_state y4)) as HK4.
    { intros t c. rewrite (be_blocks _ _ _ _ HB4), (be_blocks _ _ _ _ HB3). intros [[<- <-]|[_ Hc]]%lookup_insert_Some; [done|by apply HK]. }
    apply tell_quiet in H5. destruct (failed_safe _ _ _ _ _ HK4 H5 H6) as [Hh6 Hd6].
    split; [intros t Ht Hh; by apply Hh6, Ho4|by rewrite Hd6, Hd4].
  - apply ret_inv in H as [-> ->]. pose proof (becomes_quiet _ _ _ _ _ HB HQ) as HB2. pose proof (be_kern _ _ _ _ HB2) as Hk2. split.
    + eapply others_held_becomes; [exact HB2|done|done].
    + split_and!; [by rewrite Hk2|rewrite Hk2; by apply Hg|]. eapply persistPolicy_filed; [|exact H2].
      unfold keyed. by rewrite (be_blocks _ _ _ _ HB).
Qed.

(** The operator typed the phrase and gave a reason. *)
Definition asked_for (phrase : string) (request : option (string * string)) : Prop := exists confirmation reason,
  request = Some (confirmation, reason) /\ TrimSpace confirmation = phrase /\ 8 <= runes (TrimSpace reason) <= 240.
Lemma confirmed_pass phrase request : confirmed phrase request = None -> asked_for phrase request.
Proof.
  unfold confirmed. destruct request as [[confirmation reason]|]; [|done].
  destruct (Z.ltb_spec (runes (TrimSpace reason)) 8); [done|]. destruct (Z.ltb_spec 240 (runes (TrimSpace reason))); [done|].
  case_bool_decide; [|done]. intros _. by exists confirmation, reason.
Qed.

Lemma newUndoToken_inv entry v r v' : newUndoToken entry v = Some (r, v') -> still (v_sys v) (v_sys v') /\
  match r with
  | inr token => exists now, v_undo v' !! token = Some (mkUndo (u_kind entry) (u_block entry) (u_target entry) (Time.Add now undoEntryTTL)) /\
      (forall t e, v_undo v' !! t = Some e -> t = token \/ v_undo v !! t = Some e)
  | inl _ => True
  end.
Proof.
  unfold newUndoToken. intros H. apply bind_inv in H as (rr & v1 & (y1 & H1 & ->)%with_sys_inv & H).
  assert (still (v_sys v) y1) as HQ1.
  { unfold randomBytesHex in H1. apply bind_inv in H1 as (x & y0 & H0 & H1). apply ret_inv in H1 as [_ ->]. unfold on_world in H0.
    apply zoom_inv in H0 as (w & [= H0] & ->). unfold rand_Read, World.sys in H0.
    unfold still. destruct (o_fault _ _); injection H0 as <- <-; by split_and!. }
  destruct rr as [e|token]; [by apply ret_inv in H as [-> ->]|].
  apply bind_inv in H as (now & v2 & (y2 & H2 & ->)%with_sys_inv & H). apply now_utc_still in H2. cbn [v_sys set_vsys] in H2.
  assert (still (v_sys v) y2) as HQ2 by by transitivity y1.
  apply bind_inv in H as (v3 & v3' & H3 & H). apply get_inv in H3 as [-> ->].
  apply bind_inv in H as (u & v4 & H4 & H). apply modify_inv in H4 as ->.
  destruct (256 <=? _); [by apply ret_inv in H as [-> ->]|].
  apply bind_inv in H as (u' & v5 & H5 & H). apply modify_inv in H5 as ->. apply ret_inv in H as [-> ->]. cbn. split; [done|].
  exists now. rewrite lookup_insert_eq. split; [done|]. intros t e [[-> _]|[_ [Ht _]%map_lookup_filter_Some]]%lookup_insert_Some; [by left|by right].
Qed.

(** C17: a removal is complete or leaves the list as it was. A block is reported
    as removed only after the operator gave a reason and typed the phrase
    naming its target, and then the list has lost exactly that entry; the
    state file held, when all that was left was to issue the token and
    announce the removal, a document signed with the store's key that lists
    exactly the unexpired blocks of the remaining list; the kernel has no rule
    of an entry that was enforced; and the undo token, when one was issued,
    restores that entry. After any other answer the list has the entries it
    had, up to enforcement flags, which the fail-safe may set. In every case
    all other blocks that were enforced in the kernel still are, whatever
    calls fail. *)
Theorem removal_all_or_nothing id request v rep v' : keyed (y_state (v_sys v)) -> deleteBlock id request v = Some (rep, v') ->
  match rep with
  | Removed b token => blocks (v_sys v) !! b_Target b = Some b /\ b_ID b = id /\
      asked_for ("REMOVE BLOCK " +:+ b_Target b) request /\
      blocks (v_sys v') = delete (b_Target b) (blocks (v_sys v)) /\ (exists doc, filed doc (v_sys v')) /\
      (b_Enforced b = true -> b_Target b ∉ kern (v_sys v')) /\
      (token <> "" -> exists e, v_undo v' !! token = Some e /\ u_kind e = "block" /\ u_block e = b)
  | _ => unflag <$> blocks (v_sys v') = unflag <$> blocks (v_sys v)
  end /\
  (forall t b, blocks (v_sys v) !! t = Some b -> b_ID b <> id -> held (v_sys v) t -> held (v_sys v') t).
Proof.
  intros HK H. unfold deleteBlock in H. destruct (bool_decide (id = "")); [by apply ret_inv in H as [-> ->]|].
  apply bind_inv in H as (v0 & v1 & H1 & H). apply get_inv in H1 as [-> ->].
  destruct (BlockByID id (y_state (v_sys v))) as [b0|] eqn:Hid; [|by apply ret_inv in H as [-> ->]].
  destruct (confirmed ("REMOVE BLOCK " +:+ b_Target b0) request) as [rf|] eqn:Hc.
  { apply ret_inv in H as [-> ->]. unfold confirmed in Hc. by repeat case_match; simplify_eq. }
  destruct (RemoveBlockByID id (y_state (v_sys v))) as [[b|] s] eqn:Hr; [|by apply ret_inv in H as [-> ->]].
  apply RemoveBlockByID_inv in Hr as (t & Hb & Hbid & -> & Hid'). rewrite Hid in Hid'. injection Hid' as ->.
  pose proof (HK _ _ Hb) as Ht. subst t. apply bind_inv in H as (u & v1 & (y1 & H1 & ->)%with_sys_inv & H).
  apply on_state_becomes in H1; [|done]. cbn [st_blocks drop_block] in H1.
  apply bind_inv in H as (r & v2 & (y2 & H2 & ->)%with_sys_inv & H). cbn [v_sys set_vsys] in *.
  pose proof (be_blocks _ _ _ _ H1) as Hb1. cbn in Hb1.
  assert (forall z, others_held (b_Target b) y1 z -> forall t c, blocks (v_sys v) !! t = Some c -> b_ID c <> id -> held (v_sys v) t -> held z t) as Hoth.
  { intros z Hz t c Hl Hne [Hin (c' & Hl' & He)]. assert (t <> b_Target b) as Hnt by (intros ->; congruence).
    apply Hz; [done|]. split; [by rewrite (be_kern _ _ _ _ H1)|]. exists c'. by rewrite Hb1, lookup_delete_ne. }
  apply remove_checked_inv in H2 as [Ho Hres]; cycle 1.
  { intros t c. rewrite Hb1. intros [_ Hl]%lookup_delete_Some. by apply HK. }
  { by rewrite Hb1, lookup_delete_eq. }
  destruct r as [rf|].
  - apply ret_inv in H as [-> ->]. cbn [v_sys set_vsys]. split; [|by apply Hoth]. destruct rf; try done. by rewrite Hres, Hb1, insert_delete_id.
  - destruct Hres as (HB2 & Hg & Hs). apply bind_inv in H as (tok & v3 & H3 & H). apply newUndoToken_inv in H3 as [HQ3 Htok]. cbn [v_sys set_vsys] in HQ3.
    apply bind_inv in H as (u1 & v4 & (y4 & H4 & ->)%with_sys_inv & H). apply ret_inv in H as [-> ->].
    assert (exists doc, filed doc y4) as Hs4.
    { destruct Hs as [doc Hdoc]. exists doc. eapply announces_filed; [by eapply tell_announces|]. by eapply announces_filed; [apply an_still|]. }
    apply tell_quiet in H4. assert (quiet y2 y4) as HQ by (transitivity (v_sys v3); [by apply still_quiet|done]). clear HQ3 H4. cbn [v_sys set_vsys v_undo].
    pose proof (becomes_quiet _ _ _ _ _ HB2 HQ) as HB4. pose proof (be_blocks _ _ _ _ HB4) as Hb4. pose proof (be_kern _ _ _ _ HB4) as Hk4.
    split; [split_and!|].
    + done.
    + done.
    + by apply confirmed_pass.
    + by rewrite Hb4, Hb1.
    + done.
    + by rewrite Hk4.
    + destruct tok as [|tok]; [done|]. intros _. destruct Htok as (now & Hl & _). eauto.
    + apply Hoth. intros t Hnt Hh. apply quiet_retains in HQ. by apply HQ, Ho.
Qed.

(** ** Undo *)

(** The clock the handler reads. *)
Definition clock v : time := o_now (w_oracle (y_w (v_sys v))) (w_tick (y_w (v_sys v))).

Lemma takeUndoToken_inv token kind v r v' : takeUndoToken token kind v = Some (r, v') ->
  still (v_sys v) (v_sys v') /\ v_undo v' = delete (TrimSpace token) (v_undo v) /\
  (forall e, r = Some e -> v_undo v !! TrimSpace token = Some e /\ u_kind e = kind /\ clock v < u_expires e).
Proof.
  unfold takeUndoToken. intros H. apply bind_inv in H as (now & v1 & (y1 & H1 & ->)%with_sys_inv & H).
  assert (now = clock v) as ->.
  { unfold now_utc, on_world in H1. by apply zoom_inv in H1 as (w & [= <- _] & _). }
  apply now_utc_still in H1. apply bind_inv in H as (v2 & v3 & H2 & H). apply get_inv in H2 as [-> ->]. cbn [v_undo set_vsys] in H.
  destruct (v_undo v !! TrimSpace token) as [e|] eqn:He.
  - apply bind_inv in H as (u & v4 & H4 & H). apply modify_inv in H4 as ->. apply ret_inv in H as [-> ->]. cbn. split_and!; [done|done|].
    destruct (bool_decide (u_kind e = kind) && _) eqn:Hk; [|done]. intros ? [= <-].
    apply andb_true_iff in Hk as [Hk%bool_decide_eq_true Ha]. unfold Time.After in Ha. apply Z.ltb_lt in Ha. done.
  - apply ret_inv in H as [-> ->]. cbn. split_and!; [done|by rewrite delete_id|done].
Qed.

Lemma undoBlock_inv token v rep v' : undoBlock (Some token) v = Some (rep, v') ->
  v_undo v' = delete (TrimSpace token) (v_undo v) /\
  ((rep = Refused 404 "undo token is unknown or expired" None /\ still (v_sys v) (v_sys v')) \/
   exists e y1, v_undo v !! TrimSpace token = Some e /\ u_kind e = "block" /\ clock v < u_expires e /\ still (v_sys v) y1 /\
     undo_checked (u_block e) (v_network v) y1 = Some (rep, v_sys v')).
Proof.
  unfold undoBlock. intros H. apply bind_inv in H as (r & v1 & H1 & H).
  assert (v_network v1 = v_network v) as Hnet.
  { unfold takeUndoToken in H1. apply bind_inv in H1 as (? & v2 & (y2 & _ & ->)%with_sys_inv & H1).
    apply bind_inv in H1 as (? & ? & H2 & H1). apply get_inv in H2 as [-> ->]. cbn in H1.
    destruct (v_undo v !! TrimSpace token); run_inv H1; done. }
  apply takeUndoToken_inv in H1 as (HS & Hu & He). destruct r as [e|].
  - apply bind_inv in H as (v2 & v3 & H2 & H). apply get_inv in H2 as [-> ->]. apply with_sys_inv in H as (y' & H & ->). cbn.
    split; [done|]. right. destruct (He e eq_refl) as (? & ? & ?). exists e, (v_sys v1). rewrite <- Hnet. by split_and!.
  - apply ret_inv in H as [-> ->]. split; [done|]. by left.
Qed.

(** An undo token works once. Whatever becomes of an undo request, the same
    token is refused from then on and the refusal changes nothing; a request
    that gets past the token was made with a live token of a block removal,
    before its expiry; and when it reports success, the removed block's target
    is listed again, in the signed policy and, when the platform enforces, in
    the kernel. *)
Theorem undo_token_once token v rep v1 rep2 v2 : keyed (y_state (v_sys v)) ->
  (forall t e, v_undo v !! t = Some e -> normalizeTarget (b_Target (u_block e)) = inr (b_Target (u_block e))) ->
  undoBlock (Some token) v = Some (rep, v1) -> undoBlock (Some token) v1 = Some (rep2, v2) ->
  rep2 = Refused 404 "undo token is unknown or expired" None /\ still (v_sys v1) (v_sys v2) /\
  (rep <> Refused 404 "undo token is unknown or expired" None ->
     exists e, v_undo v !! TrimSpace token = Some e /\ u_kind e = "block" /\ clock v < u_expires e /\
     forall b, rep = Created b -> blocks (v_sys v1) = <[b_Target (u_block e) := b]> (blocks (v_sys v)) /\ (exists doc, filed doc (v_sys v1)) /\
       (enforcing (v_sys v) = true -> held (v_sys v1) (b_Target (u_block e)))).
Proof.
  intros HK Hnorm [Hu1 H1]%undoBlock_inv [_ [[-> HS]|(e & y1 & He & _)]]%undoBlock_inv.
  2: { by rewrite Hu1, lookup_delete_eq in He. }
  split_and!; [done|done|]. intros Hne. destruct H1 as [[-> _]|(e & y1 & He & Hk & Hx & HS1 & H1)]; [done|].
  exists e. split_and!; [done|done|done|]. intros b ->. unfold undo_checked in H1.
  apply bind_inv in H1 as (now & y2 & H2 & H1). apply now_utc_still in H2. assert (still (v_sys v) y2) as HS2 by by transitivity y1.
  pose proof (quiet_becomes _ _ (still_quiet _ _ HS2)) as HB2. pose proof HS2 as (_ & Hst & _).
  apply install_inv in H1; [|by eapply Hnorm|by rewrite Hst]. inversion H1 as [|e1 y3 rep' y3' HB HR Hle|c e1 y3 u y4 rep' y3' HB HR Hc Hr Hpe|
    c y0 y3 rep' y3' HB HR Hc HK0 Hp Hok]; subst.
  - apply bind_inv in Hle as (? & ? & _ & Hle). by apply ret_inv in Hle as [? _].
  - destruct (enforcing y2); [apply take_back_inv in Hpe as [(? & _)|[? ?]]; done|by apply ret_inv in Hpe as [? _]].
  - apply bind_inv in Hok as (u & y4 & H4 & Hok). apply ret_inv in Hok as [[= <-] ->]. apply tell_announces in H4 as HA. apply tell_quiet in H4.
    pose proof (becomes_quiet _ _ _ _ _ HB H4) as HB4. rewrite Hst in HB4. pose proof (be_blocks _ _ _ _ HB4) as Hb4.
    pose proof (be_kern _ _ _ _ HB4) as Hk4. destruct Hc as [Hce _]. destruct HR as (_ & _ & HR). unfold enforcing in *. rewrite Hst in *.
    split_and!; [done| |].
    + apply persistPolicy_filed in Hp as [doc Hdoc]; [|done]. exists doc. by eapply announces_filed.
    + intros Hen. rewrite Hen in HR, Hce. split; [by rewrite Hk4|]. exists b. by rewrite Hb4, lookup_insert_eq.
Qed.
End Operator.
