(* ===== verification/BlockWitness.v ===== *)
(** * The block transactions on concrete inputs *)

From Stdlib Require Import ZArith Lia Ascii String.
From stdpp Require Import base gmap strings list.
From S2P Require Import Prelude.
From S2P Require Import GoLib.
From S2P Require Import Text.
From S2P Require Import World.
From S2P Require Import Storage.
From S2P Require Import Instances.
From S2P Require Import Exec.
From S2P Require Import NetIP.
From S2P Require Import Policy.
From S2P Require Import PolicyWitness.
From S2P Require Import Evidence.
From S2P Require Import State.
From S2P Require Import Snapshot.
From S2P Require Import LimitsWitness.
From S2P Require Import Release.
From S2P Require Import ReleaseFrames.
From S2P Require Import ReleaseFacts.
From S2P Require Import ReleaseWitness.
From S2P Require Import RateLimit.
From S2P Require Import KineticResponse.
From S2P Require Import BlockOps.
From S2P Require Import BlockFacts.
From S2P Require Import KineticSafety.
From S2P Require Import ExpiryFacts.
From S2P Require Import BlockSafety.

(** The enforcing system with its ingress sensor online. *)
Definition ingress : SensorCoverage := mkSensor "xdp_ingress" CoverageOnline true None "" "" "".
Definition sys_armed : Sys unit unit KernelX :=
  let y := sys3 release_cfg true in
  mkSys (y_ctl y) (set_sensors {[ "xdp_ingress" := ingress ]} (y_state y)) (y_policy y) (y_w y).

Definition kinetic_cfg : KineticConfig := mkKineticConfig "block" 10 3600 3 3 true true true stop_file true 604800 1000.
Definition kinetic_engine : KineticResponseEngine :=
  UpdateAllowlist ["10.0.0.0/8"; "198.51.100.1"] (mkResponse kinetic_cfg true [] ∅ ∅ ∅ 0 0 0 0).
Definition ksys_armed : KSys unit unit KernelX := mkKSys kinetic_engine sys_armed.

Definition scan_decision (target : string) : NetworkDecision :=
  mkDecision target ["NET.INGRESS.SCAN"] 95 (fdiv (f64 19) (f64 20)) 4 "block" (3600 * Time.Second) "port scan" "root"
    (wall_only (base_time + 30 * Time.Second)).

Definition kafter {A} (m : M (KSys unit unit KernelX) A) (k : KSys unit unit KernelX) : KSys unit unit KernelX :=
  match m k with Some (_, k') => k' | None => k end.
Definition kvalue {A} (d : A) (m : M (KSys unit unit KernelX) A) k : A := match m k with Some (a, _) => a | None => d end.
Lemma kvalue_run {A} (d : A) m k : (if m k is Some _ then true else false) = true -> m k = Some (kvalue d m k, kafter m k).
Proof. unfold kafter, kvalue. by destruct (m k) as [[a k']|]. Qed.

Abbreviation decide_new := (ExecuteDecision (L := unit) (K := unit) (scan_decision "203.0.113.7")).
Definition got (m : M (KSys unit unit KernelX) (goerror + BlockEntry)) k : BlockEntry :=
  match m k with Some (inr b, _) => b | _ => listed_block end.
Lemma got_run m k : match m k with Some (inr _, _) => true | _ => false end = true -> m k = Some (inr (got m k), kafter m k).
Proof. unfold kafter, got. by destruct (m k) as [[[e|b] k']|]. Qed.
Definition new_entry : BlockEntry := got decide_new ksys_armed.
Definition contained := kafter decide_new ksys_armed.

Example decide_new_target : b_Target new_entry = "203.0.113.7/32".
Proof. by vm_compute. Qed.

(** The random source of this system yields an identifier no block has. *)
Definition constant_source (o : Oracle) : Prop := forall n, o_fault o n = None /\ o_rand o n = "entropy-entropy-entropy".
Definition the_id : string := hex_EncodeToString (fit 8 "entropy-entropy-entropy").
Lemma minted (w : world KernelX) id w' : constant_source (w_oracle w) -> mint w = Some (id, w') -> id = the_id.
Proof.
  intros Hw H. unfold mint, randomID, rand_Read, World.sys in H. destruct (Hw (w_tick w)) as [Hf Hr]. rewrite Hf, Hr in H.
  cbn [fmap option_fmap option_map] in H. by injection H as <- _.
Qed.
Lemma fresh_check (y : Sys unit unit KernelX) : constant_source (w_oracle (y_w y)) ->
  forallb (fun tb => negb (bool_decide (b_ID tb.2 = the_id))) (map_to_list (st_blocks (y_state y))) = true -> fresh_ids y.
Proof.
  intros Hw H w id w' Hw' Hm t b Hb Hid. rewrite <- Hw' in Hw. apply minted in Hm; [|done]. rewrite forallb_forall in H.
  apply elem_of_map_to_list, list_elem_of_In, H in Hb. cbn [snd] in Hb. by rewrite Hid, Hm, bool_decide_eq_true_2 in Hb.
Qed.
Lemma armed_keyed : keyed (y_state sys_armed).
Proof. apply keyed_check. by vm_compute. Qed.
Lemma armed_fresh : fresh_ids sys_armed.
Proof. apply fresh_check; [|by vm_compute]. intros n. split; by vm_compute. Qed.

Lemma decide_new_run : decide_new ksys_armed = Some (inr new_entry, contained).
Proof. apply got_run. by vm_compute. Qed.

(** A single host, off the allowlist. *)
Lemma decision_gated_witness : b_Target new_entry = "203.0.113.7/32" /\
  exists target n, admitted (scan_decision "203.0.113.7") kinetic_engine sys_armed target n.
Proof.
  split; [by vm_compute|].
  pose proof (decision_gated (scan_decision "203.0.113.7") ksys_armed new_entry contained) as H.
  pose proof (H decide_new_run) as H1. clear H.
  exact H1.
Defined.

(** A decision on a target the operator already blocked. *)
Abbreviation decide_old := (ExecuteDecision (L := unit) (K := unit) (scan_decision "192.0.2.1")).
Lemma kinetic_never_weakens_witness : held sys_armed "192.0.2.1/32" /\ held (k_sys (kafter decide_old ksys_armed)) "192.0.2.1/32".
Proof.
  assert (held sys_armed "192.0.2.1/32") as Hh by (apply held_check; by vm_compute). split; [exact Hh|].
  apply (kinetic_never_weakens (scan_decision "192.0.2.1") ksys_armed (kvalue (inl ErrNotExist) decide_old ksys_armed)
    (kafter decide_old ksys_armed)).
  - exact armed_keyed.
  - exact armed_fresh.
  - apply kvalue_run. by vm_compute.
  - exact Hh.
Defined.

(** The decision is taken back: the block goes again. *)
Abbreviation persisted := (on_sys (L := unit) (K := unit) (X := KernelX) persistPolicy).
Definition unsigned := kafter persisted contained.
Abbreviation taken_back := (RollbackApplied (L := unit) (K := unit) (X := KernelX) new_entry).
Lemma persisted_run : persisted contained = Some (kvalue None persisted contained, unsigned).
Proof. refine (kvalue_run None persisted contained _). by vm_compute. Qed.
Lemma taken_back_run : taken_back unsigned = Some (kvalue None taken_back unsigned, kafter taken_back unsigned).
Proof. refine (kvalue_run None taken_back unsigned _). by vm_compute. Qed.
Lemma rollback_restores_witness :
  st_blocks (y_state (k_sys contained)) !! "203.0.113.7/32" = Some new_entry /\
  st_blocks (y_state (k_sys (kafter taken_back unsigned))) !! "203.0.113.7/32" = None.
Proof.
  split; [by vm_compute|].
  destruct (rollback_restores (scan_decision "203.0.113.7") ksys_armed new_entry contained (kvalue None persisted contained) unsigned
    (kvalue None taken_back unsigned) (kafter taken_back unsigned)) as (Hb & _).
  - exact armed_keyed.
  - exact armed_fresh.
  - exact decide_new_run.
  - exact persisted_run.
  - exact taken_back_run.
  - rewrite Hb. by vm_compute.
Defined.

Lemma budget_exact_witness : grants (replicate 12 5) kinetic_engine = replicate 10 true ++ [false; false].
Proof. rewrite (budget_exact 5 12 kinetic_engine); [by vm_compute|by vm_compute]. Defined.

Lemma backoff_exact_witness : banTTL (3600 * Time.Second) 4 kinetic_cfg = 28800 * Time.Second.
Proof. rewrite (backoff_exact (3600 * Time.Second) 4 kinetic_cfg); [by vm_compute|by vm_compute|lia|by vm_compute|by vm_compute]. Defined.

(** The listed block has expired and goes, from the list and from the kernel. *)
Abbreviation expiry_pass := (reconcileExpiredNetworkBlocks (L := unit) (K := unit) (X := KernelX) (wall_only (base_time + 200 * Time.Second))).
Definition gone : list BlockEntry * error := value ([], None) expiry_pass sys_armed.
Lemma first_in (l : list BlockEntry) d : (if l is [] then false else true) = true -> hd d l ∈ l.
Proof. destruct l; [done|]. intros _. left. Qed.

(** ** The operator's interface *)

Definition network : NetworkRuntimeSettings := mkNetwork 3600 604800 1000.
Definition server_armed : Server unit unit KernelX := mkServer sys_armed kinetic_engine network ∅.
Definition vafter {A} (m : M (Server unit unit KernelX) A) v : Server unit unit KernelX :=
  match m v with Some (_, v') => v' | None => v end.
Definition vvalue (m : M (Server unit unit KernelX) reply) v : reply := match m v with Some (r, _) => r | None => NotFound end.
Lemma vvalue_run m v : (if m v is Some _ then true else false) = true -> m v = Some (vvalue m v, vafter m v).
Proof. unfold vafter, vvalue. by destruct (m v) as [[a v']|]. Qed.

Definition add_request_new : option (string * string * Z) := Some ("203.0.113.9", "scanner seen by the edge", 0).
Abbreviation add_new := (addBlock (L := unit) (K := unit) (X := KernelX) add_request_new).
Definition created : BlockEntry := match vvalue add_new server_armed with Created b => b | _ => listed_block end.
Lemma created_run m v : match m v with Some (Created _, _) => true | _ => false end = true ->
  m v = Some (Created (match vvalue m v with Created b => b | _ => listed_block end), vafter m v).
Proof. unfold vafter, vvalue. by destruct (m v) as [[[] v']|]. Qed.


(** The removal of the listed block and its undo. *)
Definition removal : option (string * string) := Some ("REMOVE BLOCK 192.0.2.1/32", "false positive, checked").
Abbreviation remove_listed := (deleteBlock (L := unit) (K := unit) (X := KernelX) "b1" removal).
Definition server_removed := vafter remove_listed server_armed.
Definition undo_token : string := match vvalue remove_listed server_armed with Removed _ t => t | _ => "" end.
Lemma removal_all_or_nothing_witness :
  match vvalue remove_listed server_armed with
  | Removed b token => b_Target b = "192.0.2.1/32" /\ token <> "" /\
      st_blocks (y_state (v_sys server_removed)) = delete "192.0.2.1/32" (st_blocks (y_state sys_armed)) /\
      ("192.0.2.1/32" ∉ kern (v_sys server_removed)) /\ exists doc, filed doc (v_sys server_removed)
  | _ => False
  end.
Proof.
  pose proof (removal_all_or_nothing "b1" removal server_armed (vvalue remove_listed server_armed) server_removed) as H.
  assert (match vvalue remove_listed server_armed with
          | Removed b token => b_Target b = "192.0.2.1/32" /\ b_Enforced b = true /\ token <> "" | _ => False end) as Hv.
  { vm_compute. split_and!; done. }
  destruct H as [H _]; [exact armed_keyed|refine (vvalue_run remove_listed server_armed _); by vm_compute|].
  revert H Hv. generalize (vvalue remove_listed server_armed) as r. intros [c m e| |b|b token] H Hv; [destruct Hv|destruct Hv|destruct Hv|].
  destruct H as (_ & _ & _ & Hb & Hd & Hg & _). destruct Hv as (Ht & He & Hn). rewrite Ht in Hb, Hg.
  exact (conj Ht (conj Hn (conj Hb (conj (Hg He) Hd)))).
Defined.

Abbreviation undo_listed := (undoBlock (L := unit) (K := unit) (X := KernelX) (Some undo_token)).
Definition server_undone := vafter undo_listed server_removed.
Lemma canonical_check (m : gmap string undoEntry) :
  forallb (fun kv => match normalizeTarget (b_Target (u_block kv.2)) with
                     | inr t => bool_decide (t = b_Target (u_block kv.2))
                     | inl _ => false
                     end) (map_to_list m) = true ->
  forall t e, m !! t = Some e -> normalizeTarget (b_Target (u_block e)) = inr (b_Target (u_block e)).
Proof.
  intros H t e He. rewrite forallb_forall in H. apply elem_of_map_to_list, list_elem_of_In, H in He. cbn [snd] in He.
  destruct (normalizeTarget _) as [|t']; [done|]. by apply bool_decide_eq_true in He as ->.
Qed.
Lemma undo_token_once_witness : vvalue undo_listed server_undone = Refused 404 "undo token is unknown or expired" None /\
  match vvalue undo_listed server_removed with Created b => b_Target b = "192.0.2.1/32" | _ => False end.
Proof.
  split; [|by vm_compute].
  apply (undo_token_once undo_token server_removed (vvalue undo_listed server_removed) server_undone
    (vvalue undo_listed server_undone) (vafter undo_listed server_undone)).
  - apply keyed_check. by vm_compute.
  - apply canonical_check. by vm_compute.
  - refine (vvalue_run undo_listed server_removed _). by vm_compute.
  - refine (vvalue_run undo_listed server_undone _). by vm_compute.
Defined.

(** A one-letter reason for a target that is already blocked. *)
Definition careless : option (string * string * Z) := Some ("192.0.2.1", "x", 0).
Abbreviation add_careless := (addBlock (L := unit) (K := unit) (X := KernelX) careless).
Lemma refused_run m v : match m v with Some (Refused 400 _ (Some _), _) => true | _ => false end = true ->
  exists text e, m v = Some (Refused 400 text (Some e), vafter m v).
Proof.
  unfold vafter. destruct (m v) as [[r v']|]; [|done]. intros H. destruct r as [code text c| | |]; try done.
  destruct (decide (code = 400)) as [->|Hne]; [destruct c as [e|]; [eauto|done]|].
  exfalso. revert H Hne. clear. destruct code as [|p|p]; [done| |done]. intros H Hne. apply Hne.
  repeat (destruct p as [p|p|]; try done).
Qed.
Lemma refused_add_drops_rule_witness : held sys_armed "192.0.2.1/32" /\
  from_option b_Enforced false (st_blocks (y_state (v_sys (vafter add_careless server_armed))) !! "192.0.2.1/32") = true /\
  "192.0.2.1/32" ∉ kern (v_sys (vafter add_careless server_armed)).
Proof.
  split; [apply held_check; by vm_compute|]. destruct (refused_run add_careless server_armed) as (text & e & H); [by vm_compute|].
  set (b := from_option id listed_block (st_blocks (y_state sys_armed) !! "192.0.2.1/32")).
  destruct (refused_add_drops_rule careless server_armed "192.0.2.1/32" text e (vafter add_careless server_armed) b) as [Hb Hk].
  - exact armed_keyed.
  - by vm_compute.
  - exists "192.0.2.1", "x", 0. split_and!; vm_compute; done.
  - by vm_compute.
  - exact H.
  - split; [|exact Hk]. rewrite Hb. by vm_compute.
Defined.
