(* ===== verification/L7Decode.v ===== *)
(** * The Layer-7 decoder (src/control/l7_decode.go)

    The transformations an attacker may have hidden a payload behind (URL,
    HTML, text escapes, full-width forms, base64, hexadecimal) and the bounded
    expansion that feeds every decoded value back into them. Texts are byte
    strings; lengths and budgets are [int]s. The table of HTML entities
    ([html.UnescapeString]) is a parameter. *)

From Stdlib Require Import ZArith Lia Ascii String.
From stdpp Require Import base gmap strings list.
From S2P Require Import Prelude.
From S2P Require Import GoLib.
From S2P Require Import Text.

(** ** Go's text functions *)

Class HTMLEntities := { html_UnescapeString : string -> string }.

(** The code point of a valid encoding. *)
Definition low6 (c : ascii) : Z := byte_val c mod 64.
Definition rune_value (l : list ascii) : Z :=
  match l with
  | [a] => byte_val a
  | [a; b] => byte_val a mod 32 * 64 + low6 b
  | [a; b; c] => (byte_val a mod 16 * 64 + low6 b) * 64 + low6 c
  | [a; b; c; d] => ((byte_val a mod 8 * 64 + low6 b) * 64 + low6 c) * 64 + low6 d
  | _ => 65533
  end.
Definition RuneError : Z := 65533.

(** [utf8.AppendRune]: surrogates and values out of range are written as U+FFFD. *)
Definition tail_byte (n : Z) : ascii := byte_of (128 + n mod 64).
Definition encode_rune (r : Z) : list ascii :=
  if (0 <=? r) && (r <? 128) then [byte_of r]
  else if (128 <=? r) && (r <? 2048) then [byte_of (192 + r / 64); tail_byte r]
  else if (r <? 0) || ((55296 <=? r) && (r <=? 57343)) || (1114111 <? r) then replacement
  else if r <? 65536 then [byte_of (224 + r / 4096); tail_byte (r / 64); tail_byte r]
  else [byte_of (240 + r / 262144); tail_byte (r / 4096); tail_byte (r / 64); tail_byte r].

(** The next rune of a text ([range], [utf8.DecodeRuneInString]): its value and
    its width; one invalid byte reads as U+FFFD of width one. *)
Definition next_rune (l : list ascii) : Z * nat :=
  match rune_len l with
  | O => (RuneError, 1%nat)
  | n => (rune_value (take n l), n)
  end.

(** The number of leading bytes that satisfy [p]. *)
Fixpoint leading (p : ascii -> bool) (l : list ascii) : nat :=
  match l with
  | c :: l => if p c then S (leading p l) else O
  | [] => O
  end.

(** [url.PathUnescape]: a percent sign starts two hexadecimal digits. *)
Fixpoint path_unescape (l : list ascii) : option (list ascii) :=
  match l with
  | [] => Some []
  | c :: l1 =>
      if Ascii.eqb c "%" then
        match l1 with
        | a :: b :: l2 =>
            match hex_value a, hex_value b with
            | Some x, Some y => cons (ascii_of_N (16 * x + y)) <$> path_unescape l2
            | _, _ => None
            end
        | _ => None
        end
      else cons c <$> path_unescape l1
  end.
Definition PathUnescape (s : string) : option string := of_bytes <$> path_unescape (bytes_of s).

(** [base64.StdEncoding], [RawStdEncoding], [URLEncoding], [RawURLEncoding]:
    line breaks are skipped; the padded ones need whole quanta. *)
Record base64_Encoding := mkEncoding { be_url : bool; be_padded : bool }.
Definition be_value (e : base64_Encoding) (c : ascii) : option Z :=
  if be_url e then b64_value c
  else if Ascii.eqb c "+" then Some 62 else if Ascii.eqb c "/" then Some 63
  else if Ascii.eqb c "-" || Ascii.eqb c "_" then None else b64_value c.
Definition strip_padding (l : list ascii) : list ascii :=
  match rev l with
  | "="%char :: "="%char :: l' => rev l'
  | "="%char :: l' => rev l'
  | _ => l
  end.
Definition base64_Decode (e : base64_Encoding) (s : string) : option (list ascii) :=
  let l := List.filter b64_keep (bytes_of s) in
  if be_padded e && negb (length l mod 4 =? 0)%nat then None
  else
    let l := if be_padded e then strip_padding l else l in
    match mapM (be_value e) l with
    | Some vs => b64_decode_list vs
    | None => None
    end.
Definition base64_DecodedLen (e : base64_Encoding) (n : Z) : Z :=
  if be_padded e then n / 4 * 3 else n / 4 * 3 + n mod 4 * 6 / 8.
Definition base64_EncodedLen (n : Z) : Z := (n + 2) / 3 * 4.

(** ** The decoders *)

(** [truncateUTF8] *)
Fixpoint drop_invalid (n : nat) (l : list ascii) : list ascii :=
  match n with
  | O => []
  | S n' => if utf8_valid_list (length l) l then l else drop_invalid n' (take n' l)
  end.
Definition truncateUTF8 (value : string) (maxBytes : Z) : string :=
  if maxBytes <=? 0 then ""
  else if slen value <=? maxBytes then value
  else of_bytes (drop_invalid (Z.to_nat maxBytes) (take (Z.to_nat maxBytes) (bytes_of value))).

(** [isMostlyText] *)
Definition printable (c : ascii) : bool :=
  let b := byte_val c in (b =? 10) || (b =? 13) || (b =? 9) || ((32 <=? b) && negb (b =? 127)).
Definition isMostlyText (buf : list ascii) : bool :=
  if (length buf =? 0)%nat then false
  else 85 <=? Z.of_nat (length (List.filter printable buf)) * 100 / Z.of_nat (length buf).

(** [decodeTextBase64] *)
Definition text_encodings : list base64_Encoding :=
  [mkEncoding false true; mkEncoding false false; mkEncoding true true; mkEncoding true false].
Fixpoint first_base64 (es : list base64_Encoding) (source : string) (maxBytes : Z) : option string :=
  match es with
  | [] => None
  | e :: es =>
      let next := first_base64 es source maxBytes in
      if maxBytes <? base64_DecodedLen e (slen source) then next
      else
        match base64_Decode e source with
        | Some (c :: l) =>
            if isMostlyText (c :: l) && utf8_valid_list (length (c :: l)) (c :: l) then Some (of_bytes (c :: l)) else next
        | _ => next
        end
  end.
Definition decodeTextBase64 (value : string) (maxBytes : Z) : option string :=
  let trimmed := TrimSpace value in
  if (maxBytes <=? 0) || (slen trimmed <? 12) || (base64_EncodedLen maxBytes + 4 <? slen trimmed) || (slen trimmed mod 4 =? 1)
  then None
  else first_base64 text_encodings trimmed maxBytes.

(** [foldL7CompatibilityASCII]; the fuel is the number of bytes left, [out] the
    builder. *)
Definition fold_rune (r : Z) : Z * bool :=
  if r =? 12288 then (32, true)
  else if (65281 <=? r) && (r <=? 65374) then (r - 65248, true) else (r, false).
Fixpoint fold_compat (fuel : nat) (l out : list ascii) (changed : bool) (maxBytes : Z) : list ascii * bool :=
  match fuel, l with
  | S fuel, _ :: _ =>
      let '(r, n) := next_rune l in
      let '(r, folded) := fold_rune r in
      let changed := changed || folded in
      if maxBytes <? Z.of_nat (length out) + Z.of_nat (length (encode_rune r)) then (out, changed)
      else fold_compat fuel (drop n l) (out ++ encode_rune r) changed maxBytes
  | _, _ => (out, changed)
  end.
Definition foldL7CompatibilityASCII (value : string) (maxBytes : Z) : option string :=
  if maxBytes <=? 0 then None
  else
    let '(out, changed) := fold_compat (String.length value) (bytes_of value) [] false maxBytes in
    if changed then Some (of_bytes out) else None.

(** [parseL7EscapedRune] on two or four digits. *)
Fixpoint hex_number (acc : Z) (l : list ascii) : option Z :=
  match l with
  | [] => Some acc
  | c :: l => match hex_value c with Some d => hex_number (acc * 16 + Z.of_N d) l | None => None end
  end.
Definition parseL7EscapedRune (digits : list ascii) : option Z :=
  match hex_number 0 digits with
  | Some r => if (1114111 <? r) || ((55296 <=? r) && (r <=? 57343)) then None else Some r
  | None => None
  end.

(** The escape a text starts with, and its width. *)
Definition is_one_of (c : ascii) (cs : list ascii) : bool := existsb (Ascii.eqb c) cs.
Definition escape_at (l : list ascii) : option (Z * nat) :=
  match l with
  | a :: b :: l2 =>
      if Ascii.eqb a "\" && is_one_of b ["x"%char; "X"%char] && (2 <=? length l2)%nat
      then (fun r => (r, 4%nat)) <$> parseL7EscapedRune (take 2 l2)
      else if (Ascii.eqb a "\" || Ascii.eqb a "%") && is_one_of b ["u"%char; "U"%char] && (4 <=? length l2)%nat
      then (fun r => (r, 6%nat)) <$> parseL7EscapedRune (take 4 l2)
      else None
  | _ => None
  end.

(** [decodeL7TextEscapes]: [None] when the text is not valid UTF-8. *)
Fixpoint unescape (fuel : nat) (l out : list ascii) (changed : bool) (maxBytes : Z) : option (list ascii * bool) :=
  match fuel, l with
  | S fuel, _ :: _ =>
      match escape_at l with
      | Some (r, consumed) =>
          if maxBytes <? Z.of_nat (length out) + Z.of_nat (length (encode_rune r)) then Some (out, changed)
          else unescape fuel (drop consumed l) (out ++ encode_rune r) true maxBytes
      | None =>
          match rune_len l with
          | O => None
          | n =>
              if maxBytes <? Z.of_nat (length out) + Z.of_nat n then Some (out, changed)
              else unescape fuel (drop n l) (out ++ encode_rune (rune_value (take n l))) changed maxBytes
          end
      end
  | _, _ => Some (out, changed)
  end.
Definition decodeL7TextEscapes (value : string) (maxBytes : Z) : option string :=
  if (maxBytes <=? 0) || (slen value <? 4) then None
  else
    match unescape (String.length value) (bytes_of value) [] false maxBytes with
    | Some (out, true) => Some (of_bytes out)
    | _ => None
    end.

(** [decodeTextHex] *)
Definition TrimPrefix (s prefix : string) : string :=
  if HasPrefix s prefix then of_bytes (drop (String.length prefix) (bytes_of s)) else s.
Definition decodeTextHex (value : string) (maxBytes : Z) : option string :=
  let trimmed := TrimPrefix (TrimSpace value) "0x" in
  if (slen trimmed <? 16) || negb (slen trimmed mod 2 =? 0) || (maxBytes * 2 <? slen trimmed) then None
  else
    match hex_decode_list (bytes_of trimmed) with
    | Some l => if isMostlyText l && utf8_valid_list (length l) l then Some (of_bytes l) else None
    | None => None
    end.

(** ** The expansion *)

Record l7DecodedLayer := mkLayer { ly_Value : string; ly_Label : string; ly_Depth : Z }.

Section Expansion.
Context `{HE : HTMLEntities}.

Definition unless_same (v decoded : string) : option string := if bool_decide (decoded = v) then None else Some decoded.
Definition transforms : list (string * (string -> Z -> option string)) :=
  [(".url", fun v _ => d ← PathUnescape v; unless_same v d);
   (".html", fun v _ => unless_same v (html_UnescapeString v));
   (".escaped", decodeL7TextEscapes);
   (".compat", foldL7CompatibilityASCII);
   (".base64", decodeTextBase64);
   (".hex", decodeTextHex)].

(** The result of one transformation that is kept for inspection. *)
Definition accept (maxBytes : Z) (decoded : string) : option string :=
  let decoded := truncateUTF8 decoded maxBytes in
  if (slen decoded <? 4) || negb (utf8_ValidString decoded) || negb (isMostlyText (bytes_of decoded)) then None
  else Some decoded.
Definition decode_with (maxBytes : Z) (f : string -> Z -> option string) (v : string) : option string :=
  d ← f v maxBytes; accept maxBytes d.

(** The loop over the transformations of one value. *)
Record expansion := mkExpansion {
  xp_queue : list l7DecodedLayer; xp_seen : gset string; xp_layers : list l7DecodedLayer; xp_truncated : bool;
}.
Fixpoint decode_layer (maxBytes : Z) (maxVisited : nat) (current : l7DecodedLayer)
    (ts : list (string * (string -> Z -> option string))) (x : expansion) : expansion :=
  match ts with
  | [] => x
  | (label, f) :: ts =>
      match decode_with maxBytes f (ly_Value current) with
      | None => decode_layer maxBytes maxVisited current ts x
      | Some decoded =>
          if bool_decide (decoded ∈ xp_seen x) then decode_layer maxBytes maxVisited current ts x
          else if (maxVisited <=? length (xp_layers x))%nat
          then mkExpansion (xp_queue x) (xp_seen x) (xp_layers x) true
          else
            let layer := mkLayer decoded (ly_Label current +:+ label) (ly_Depth current + 1) in
            decode_layer maxBytes maxVisited current ts
              (mkExpansion (xp_queue x ++ [layer]) ({[decoded]} ∪ xp_seen x) (xp_layers x ++ [layer]) false)
      end
  end.

(** The queue; [None] when the fuel is used up. *)
Fixpoint expand_loop (fuel : nat) (maxDepth maxBytes : Z) (maxVisited : nat) (x : expansion) : option (list l7DecodedLayer * bool) :=
  match xp_queue x with
  | [] => Some (xp_layers x, false)
  | current :: queue =>
      match fuel with
      | O => None
      | S fuel =>
          let x := mkExpansion queue (xp_seen x) (xp_layers x) false in
          if maxDepth <=? ly_Depth current then expand_loop fuel maxDepth maxBytes maxVisited x
          else
            let x := decode_layer maxBytes maxVisited current transforms x in
            if xp_truncated x then Some (xp_layers x, true)
            else expand_loop fuel maxDepth maxBytes maxVisited x
      end
  end.

Definition expandL7DecodedLayers (value : string) (maxDepth maxBytes maxVisited : Z) : option (list l7DecodedLayer * bool) :=
  if (maxDepth <? 1) || (maxBytes <=? 0) || (maxVisited <? 1) || bool_decide (value = "") then Some ([], false)
  else
    let root := mkLayer value "" 0 in
    expand_loop (S (Z.to_nat maxVisited)) maxDepth maxBytes (Z.to_nat maxVisited)
      (mkExpansion [root] {[value]} [] false).
End Expansion.
