(* ===== verification/L7DecodeFacts.v ===== *)
(** * The expansion is complete, exact and ends

    What [expandL7DecodedLayers] (src/control/l7_decode.go) returns: the values
    reachable by the decoders within the depth budget, each once, when it does
    not report truncation; and that its queue empties. *)

From Stdlib Require Import ZArith Lia Ascii String Sorted.
From stdpp Require Import base gmap strings list sorting.
From S2P Require Import Prelude.
From S2P Require Import GoLib.
From S2P Require Import Text.
From S2P Require Import L7Decode.

Section Expansion.
Context `{HE : HTMLEntities}.
Context (maxBytes : Z).
Implicit Types (v w : string) (l : l7DecodedLayer) (x : expansion).

(** ** What an attacker can hide: the values reachable by decoding *)

Definition step v w : Prop := exists label f, (label, f) ∈ transforms /\ decode_with maxBytes f v = Some w.
Inductive reach : nat -> string -> string -> Prop :=
| reach_here v : reach 0 v v
| reach_step n v u w : reach n v u -> step u w -> reach (S n) v w.

(** ** One value *)

Definition via (ts : list (string * (string -> Z -> option string))) v w : Prop :=
  exists label f, (label, f) ∈ ts /\ decode_with maxBytes f v = Some w.

Record decoded_from (ts : list (string * (string -> Z -> option string))) (n : nat) (c : l7DecodedLayer) x
    (news : list l7DecodedLayer) x' : Prop := {
  df_layers : xp_layers x' = xp_layers x ++ news;
  df_queue : xp_queue x' = xp_queue x ++ news;
  df_seen : xp_seen x' = list_to_set (map ly_Value news) ∪ xp_seen x;
  df_new : Forall (fun l => ly_Depth l = ly_Depth c + 1 /\ via ts (ly_Value c) (ly_Value l)) news;
  df_fresh : NoDup (map ly_Value news) /\ Forall (fun l => ly_Value l ∉ xp_seen x) news;
  df_budget : (length (xp_layers x) <= n)%nat -> (length (xp_layers x') <= n)%nat;
  df_all : xp_truncated x' = false -> forall w, via ts (ly_Value c) w -> w ∈ xp_seen x';
}.

Lemma via_cons t ts v w : via ts v w -> via (t :: ts) v w.
Proof. intros (label & f & H & Hd). exists label, f. split; [by right|done]. Qed.
Lemma via_here label f ts v w : decode_with maxBytes f v = Some w -> via ((label, f) :: ts) v w.
Proof. intros H. exists label, f. split; [left|done]. Qed.
Lemma via_inv label f ts v w : via ((label, f) :: ts) v w -> decode_with maxBytes f v = Some w \/ via ts v w.
Proof. intros (label' & f' & [[= <- <-]|H]%elem_of_cons & Hd); [by left|right]. by exists label', f'. Qed.

(** A transformation that adds nothing. *)
Lemma decoded_skip label f ts n c x news x' : decoded_from ts n c x news x' ->
  (forall w, decode_with maxBytes f (ly_Value c) = Some w -> w ∈ xp_seen x) -> decoded_from ((label, f) :: ts) n c x news x'.
Proof.
  intros [H1 H2 H3 H4 H5 H6 H7] Hs. constructor; try done.
  - eapply Forall_impl; [exact H4|]. cbn. intros l [Hd Hv]. split; [done|by apply via_cons].
  - intros Ht w [Hd|Hv]%via_inv; [|by apply H7]. rewrite H3. apply elem_of_union. right. by apply Hs.
Qed.

Lemma decode_layer_spec ts n c x : xp_truncated x = false -> exists news,
  decoded_from ts n c x news (decode_layer maxBytes n c ts x).
Proof.
  revert x. induction ts as [|[label f] ts IH]; intros x Hx; cbn [decode_layer].
  { exists []. constructor; rewrite ?app_nil_r; try done; [cbn; by rewrite (left_id_L ∅ (∪))|split; constructor|].
    intros _ w (? & ? & ?%not_elem_of_nil & _). done. }
  destruct (decode_with maxBytes f (ly_Value c)) as [w|] eqn:Hd.
  2: { destruct (IH x Hx) as [news Hn]. exists news. apply decoded_skip; [done|by rewrite Hd]. }
  case_bool_decide as Hs.
  { destruct (IH x Hx) as [news Hn]. exists news. apply decoded_skip; [done|]. rewrite Hd. by intros ? [= <-]. }
  destruct (n <=? length (xp_layers x))%nat eqn:Hb.
  { exists []. constructor; cbn; rewrite ?app_nil_r; try done; [by rewrite (left_id_L ∅ (∪))|split; constructor]. }
  set (layer := mkLayer w (ly_Label c +:+ label) (ly_Depth c + 1)).
  set (x1 := mkExpansion _ _ _ _). destruct (IH x1 eq_refl) as [news [H1 H2 H3 H4 [H5 H5'] H6 H7]]. exists (layer :: news).
  cbn [x1 xp_layers xp_queue xp_seen] in *. apply Nat.leb_gt in Hb. constructor.
  - by rewrite H1, <- app_assoc.
  - by rewrite H2, <- app_assoc.
  - rewrite H3. cbn. set_solver.
  - constructor; [split; [done|by apply via_here]|]. eapply Forall_impl; [exact H4|]. cbn. intros l [Hl Hv]. split; [done|by apply via_cons].
  - rewrite Forall_forall in H5'. split.
    + cbn. constructor; [|done]. intros (l & Hl & Hin)%list_elem_of_fmap. apply H5' in Hin. set_solver.
    + constructor; [done|]. rewrite Forall_forall. intros l Hin. apply H5' in Hin. set_solver.
  - intros _. apply H6. rewrite length_app. cbn. lia.
  - intros Ht w' [Hw|Hv]%via_inv; [|by apply H7]. rewrite Hd in Hw. injection Hw as <-. rewrite H3. set_solver.
Qed.

(** ** The queue *)

Section Loop.
Context (value : string) (maxDepth : Z) (n : nat).

Definition root : l7DecodedLayer := mkLayer value "" 0.
Definition recorded x l : Prop := l = root \/ l ∈ xp_layers x.

Definition shallower l l' : Prop := ly_Depth l <= ly_Depth l'.
Definition breadth_first x : Prop := StronglySorted shallower (xp_queue x) /\
  forall c rest, xp_queue x = c :: rest -> forall l, l ∈ xp_queue x \/ recorded x l -> ly_Depth l <= ly_Depth c + 1.

(** What is reported of one layer. *)
Definition sound_layer l : Prop := 1 <= ly_Depth l <= maxDepth /\ reach (Z.to_nat (ly_Depth l)) value (ly_Value l) /\
  accept maxBytes (ly_Value l) = Some (ly_Value l).

Record expanding x : Prop := {
  xg_flag : xp_truncated x = false;
  xg_seen : xp_seen x = {[value]} ∪ list_to_set (map ly_Value (xp_layers x));
  xg_queue : Forall (recorded x) (xp_queue x);
  xg_sound : Forall sound_layer (xp_layers x);
  xg_nodup : NoDup (value :: map ly_Value (xp_layers x));
  xg_order : breadth_first x;
  xg_closed : forall l, recorded x l -> ly_Depth l < maxDepth -> l ∈ xp_queue x \/
    forall w, step (ly_Value l) w -> exists l', recorded x l' /\ ly_Value l' = w /\ ly_Depth l' <= ly_Depth l + 1;
  xg_budget : (length (xp_layers x) <= n)%nat;
}.

Lemma seen_recorded x w : expanding x -> w ∈ xp_seen x -> exists l, recorded x l /\ ly_Value l = w.
Proof.
  intros Hx Hw. rewrite (xg_seen _ Hx) in Hw. apply elem_of_union in Hw as [->%elem_of_singleton|Hw].
  - exists root. split; [by left|done].
  - apply elem_of_list_to_set, list_elem_of_fmap in Hw as (l & -> & Hl). exists l. split; [by right|done].
Qed.

Lemma recorded_depth x l : expanding x -> recorded x l -> 0 <= ly_Depth l /\ reach (Z.to_nat (ly_Depth l)) value (ly_Value l).
Proof.
  intros Hx [->|Hl]; [split; [done|constructor]|]. pose proof (xg_sound _ Hx) as HS. rewrite Forall_forall in HS.
  destruct (HS _ Hl) as (? & ? & _). split; [lia|done].
Qed.

(** The value at the head leaves the queue at full depth. *)
Lemma pop_deep x c rest : expanding x -> xp_queue x = c :: rest -> maxDepth <= ly_Depth c ->
  expanding (mkExpansion rest (xp_seen x) (xp_layers x) false).
Proof.
  intros [H1 H2 H3 H4 H5 [H6 H6'] H7 H8] Hq Hd. rewrite Hq in H3, H6. apply Forall_cons in H3 as [Hc H3].
  apply StronglySorted_inv in H6 as [Hs Hle]. constructor; cbn; try done.
  - split; [done|]. cbn. intros c' rest' -> l Hl.
    assert (ly_Depth c <= ly_Depth c') by (rewrite Forall_forall in Hle; apply Hle; left).
    assert (ly_Depth l <= ly_Depth c + 1); [|lia]. eapply H6'; [exact Hq|]. destruct Hl as [Hl|Hl]; [left; rewrite Hq; by right|by right].
  - intros l Hl Hlt. destruct (H7 l Hl Hlt) as [Hin|Hall]; [|by right]. rewrite Hq in Hin.
    apply elem_of_cons in Hin as [->|Hin]; [lia|by left].
Qed.

Lemma drop_invalid_length k (bs : list ascii) : (length (drop_invalid k bs) <= length bs)%nat.
Proof.
  revert bs. induction k as [|k IH]; intros bs; cbn; [lia|]. destruct (utf8_valid_list _ _); [lia|].
  specialize (IH (take k bs)). rewrite length_take in IH. lia.
Qed.
Lemma truncate_length v m : 0 < m -> slen (truncateUTF8 v m) <= m.
Proof.
  intros Hm. unfold truncateUTF8. rewrite (proj2 (Z.leb_gt m 0)) by lia. destruct (Z.leb_spec (slen v) m); [done|].
  rewrite slen_of_bytes. pose proof (drop_invalid_length (Z.to_nat m) (take (Z.to_nat m) (bytes_of v))) as Hl. rewrite length_take in Hl. lia.
Qed.
Lemma accept_idem d w : 0 < maxBytes -> accept maxBytes d = Some w -> accept maxBytes w = Some w.
Proof.
  intros Hm. unfold accept. destruct (_ || _) eqn:Hb; [done|]. intros [= <-].
  assert (truncateUTF8 (truncateUTF8 d maxBytes) maxBytes = truncateUTF8 d maxBytes) as ->; [|by rewrite Hb].
  unfold truncateUTF8 at 1. rewrite (proj2 (Z.leb_gt maxBytes 0)) by lia.
  by rewrite (proj2 (Z.leb_le _ _) (truncate_length d maxBytes Hm)).
Qed.

Lemma accept_inv d w : accept maxBytes d = Some w ->
  w = truncateUTF8 d maxBytes /\ utf8_ValidString w = true /\ isMostlyText (bytes_of w) = true.
Proof.
  unfold accept. cbv zeta. destruct (_ || _) eqn:E; [done|]. intros [= <-].
  rewrite !orb_false_iff, !negb_false_iff in E. by destruct E as [[_ ?] ?].
Qed.

Lemma accept_short w : 0 < maxBytes -> accept maxBytes w = Some w -> w <> "" /\ slen w <= maxBytes.
Proof.
  intros Hm H. pose proof (accept_inv _ _ H) as (Hw & _ & Ht). split; [by intros ->|rewrite Hw; by apply truncate_length].
Qed.

(** The value at the head is decoded. *)
Lemma pop_decode x c rest x' : 0 < maxBytes -> expanding x -> xp_queue x = c :: rest -> ly_Depth c < maxDepth ->
  x' = decode_layer maxBytes n c transforms (mkExpansion rest (xp_seen x) (xp_layers x) false) ->
  exists news, xp_layers x' = xp_layers x ++ news /\ xp_queue x' = rest ++ news /\ (length (xp_layers x') <= n)%nat /\
    Forall sound_layer (xp_layers x') /\ NoDup (value :: map ly_Value (xp_layers x')) /\ (xp_truncated x' = false -> expanding x').
Proof.
  intros Hm Hx Hq Hd ->. set (x0 := mkExpansion rest _ _ _). destruct (decode_layer_spec transforms n c x0 eq_refl) as [news HD].
  set (x' := decode_layer _ _ _ _ _) in *. exists news. destruct HD as [D1 D2 D3 D4 [D5 D5'] D6 D7]. cbn [x0 xp_layers xp_queue xp_seen] in *.
  pose proof Hx as [H1 H2 H3 H4 H5 [H6 H6'] H7 H8].
  rewrite Hq in H3, H6. apply Forall_cons in H3 as [Hc H3]. apply StronglySorted_inv in H6 as [Hs Hle].
  destruct (recorded_depth x c Hx Hc) as [Hc0 Hcr]. rewrite Forall_forall in D4, D5', Hle.
  assert (Forall sound_layer (xp_layers x')) as HS.
  { rewrite D1. apply Forall_app. split; [done|]. rewrite Forall_forall. intros l Hl. destruct (D4 _ Hl) as [Hld (lab & f & Hin & Hf)].
    split_and!; [lia|lia| |].
    - rewrite Hld. replace (Z.to_nat (ly_Depth c + 1)) with (S (Z.to_nat (ly_Depth c))) by lia. econstructor; [exact Hcr|]. by exists lab, f.
    - unfold decode_with in Hf. apply bind_Some in Hf as (d & _ & Hf). by eapply accept_idem. }
  assert (NoDup (value :: map ly_Value (xp_layers x'))) as HN.
  { rewrite D1, map_app. change (value :: ?a ++ ?b) with ((value :: a) ++ b). apply NoDup_app. split_and!; [done| |done].
    intros w Hw (l & -> & Hl)%list_elem_of_fmap. apply D5' in Hl. apply Hl. rewrite H2.
    apply elem_of_union. apply elem_of_cons in Hw as [->|Hw]; [left; by apply elem_of_singleton|right]. by apply elem_of_list_to_set. }
  split_and!; [done|done|by apply D6|done|done|]. intros Ht.
  assert (forall l, recorded x l -> recorded x' l) as Hrec. { intros l [->|Hl]; [by left|right]. rewrite D1. apply elem_of_app. by left. }
  assert (forall l, l ∈ news -> recorded x' l) as Hnew. { intros l Hl. right. rewrite D1. apply elem_of_app. by right. }
  assert (forall l, recorded x' l -> recorded x l \/ l ∈ news) as Hsplit.
  { intros l [->|Hl]; [left; by left|]. rewrite D1 in Hl. apply elem_of_app in Hl as [Hl|Hl]; [left; by right|by right]. }
  assert (forall l, recorded x l -> ly_Depth l <= ly_Depth c + 1) as Hmax by (intros l Hl; eapply H6'; [exact Hq|by right]).
  constructor; [done| | |done|done| | |by apply D6].
  - rewrite D3, D1, map_app, list_to_set_app_L, H2. rewrite (comm_L (∪)). by rewrite (assoc_L (∪)).
  - rewrite D2. apply Forall_app. split; [eapply Forall_impl; [exact H3|done]|by rewrite Forall_forall].
  - split.
    + rewrite D2. apply StronglySorted_app_2; [|done|].
      * intros l l' Hl Hl'. destruct (D4 _ Hl') as [Hd' _]. unfold shallower. rewrite Hd'. eapply H6'; [exact Hq|]. left. rewrite Hq. by right.
      * apply Sorted_StronglySorted; [intros ? ? ?; unfold shallower; lia|].
        clear -D4. induction news as [|l news IH]; constructor; [apply IH; intros; apply D4; by right|].
        destruct news as [|l' news]; constructor. unfold shallower. rewrite (proj1 (D4 l ltac:(left))), (proj1 (D4 l' ltac:(right; left))). lia.
    + intros c' rest' Hq' l Hl. assert (ly_Depth c <= ly_Depth c' /\ ly_Depth l <= ly_Depth c + 1) as [? ?]; [|lia]. split.
      * assert (c' ∈ rest ++ news) as [Hin|Hin]%elem_of_app by (rewrite <- D2, Hq'; left); [by apply Hle|]. rewrite (proj1 (D4 _ Hin)). lia.
      * destruct Hl as [Hl|[Hl|Hl]%Hsplit]; [|by apply Hmax|rewrite (proj1 (D4 _ Hl)); lia].
        rewrite D2 in Hl. apply elem_of_app in Hl as [Hl|Hl]; [|rewrite (proj1 (D4 _ Hl)); lia].
        eapply H6'; [exact Hq|]. left. rewrite Hq. by right.
  - intros l Hl Hlt. apply Hsplit in Hl as [Hl|Hl]; [|left; rewrite D2; apply elem_of_app; by right].
    destruct (H7 l Hl Hlt) as [Hin|Hall].
    + rewrite Hq in Hin. apply elem_of_cons in Hin as [->|Hin]; [|left; rewrite D2; apply elem_of_app; by left].
      right. intros w Hw. specialize (D7 Ht w Hw). rewrite D3 in D7. apply elem_of_union in D7 as [Hw'|Hw'].
      * apply elem_of_list_to_set, list_elem_of_fmap in Hw' as (l' & -> & Hl'). exists l'. split_and!; [by apply Hnew|done|]. rewrite (proj1 (D4 _ Hl')). lia.
      * apply (seen_recorded x w Hx) in Hw' as (l' & Hl' & <-). exists l'. split_and!; [by apply Hrec|done|by apply Hmax].
    + right. intros w Hw. destruct (Hall w Hw) as (l' & Hl' & ? & ?). exists l'. split_and!; [by apply Hrec|done|done].
Qed.

(** ** The loop *)

Lemma expand_loop_spec fuel x : 0 < maxBytes -> expanding x -> (length (xp_queue x) + n <= fuel + length (xp_layers x))%nat ->
  exists layers t, expand_loop fuel maxDepth maxBytes n x = Some (layers, t) /\ (length layers <= n)%nat /\
    Forall sound_layer layers /\ NoDup (value :: map ly_Value layers) /\
    (t = false -> exists x', expanding x' /\ xp_queue x' = [] /\ xp_layers x' = layers).
Proof.
  intros Hm. revert x. induction fuel as [|fuel IH]; intros x Hx Hf; cbn [expand_loop];
    (destruct (xp_queue x) as [|c rest] eqn:Hq; [exists (xp_layers x), false; by split_and!; [|apply Hx..|eauto]|]).
  { pose proof (xg_budget _ Hx). cbn in Hf. lia. }
  cbn in Hf. destruct (Z.leb_spec maxDepth (ly_Depth c)) as [Hd|Hd].
  - apply IH; [by eapply pop_deep|]. cbn. lia.
  - destruct (pop_decode x c rest _ Hm Hx Hq Hd eq_refl) as (news & H1 & H2 & H3 & H4 & H5 & H6).
    set (x' := decode_layer _ _ _ _ _) in *. destruct (xp_truncated x') eqn:Ht.
    + exists (xp_layers x'), true. by split_and!.
    + apply IH; [by apply H6|]. rewrite H1, H2, !length_app. lia.
Qed.

(** A closed queue holds everything within reach. *)
Lemma closed_complete x k w : expanding x -> xp_queue x = [] -> (k <= Z.to_nat maxDepth)%nat -> reach k value w ->
  exists l, recorded x l /\ ly_Value l = w /\ ly_Depth l <= Z.of_nat k.
Proof.
  intros Hx Hq Hk Hr. remember value as v0 eqn:Hv. induction Hr as [v|k v u w Hr IH Hs]; subst v.
  - exists root. split_and!; [by left|done|done].
  - destruct IH as (l & Hl & <- & Hd); [lia|done|]. destruct (xg_closed _ Hx l Hl) as [Hin|Hall]; [lia|rewrite Hq in Hin; by apply not_elem_of_nil in Hin|].
    destruct (Hall w Hs) as (l' & Hl' & <- & ?). exists l'. split_and!; [done|done|lia].
Qed.

Lemma start_expanding : expanding (mkExpansion [root] {[value]} [] false).
Proof.
  constructor; cbn; try done.
  - by rewrite (right_id_L ∅ (∪)).
  - constructor; [by left|constructor].
  - constructor; [apply not_elem_of_nil|constructor].
  - split; [repeat constructor|]. cbn. intros c rest [= <- <-] l [->%list_elem_of_singleton|[->|Hl]]; [cbn; lia|cbn; lia|by apply not_elem_of_nil in Hl].
  - intros l [->|Hl] _; [left; left|by apply not_elem_of_nil in Hl].
  - lia.
Qed.
End Loop.
End Expansion.

Lemma expansion_returns `{HE : HTMLEntities} value maxDepth maxBytes maxVisited : exists layers truncated,
  expandL7DecodedLayers value maxDepth maxBytes maxVisited = Some (layers, truncated) /\
  Z.of_nat (length layers) <= Z.max 0 maxVisited.
Proof.
  unfold expandL7DecodedLayers. destruct (_ || _) eqn:Hg; [exists [], false; split; [done|cbn; lia]|].
  rewrite !orb_false_iff in Hg. destruct Hg as [[[Hd%Z.ltb_ge Hb%Z.leb_gt] Hv%Z.ltb_ge] _].
  destruct (expand_loop_spec maxBytes value maxDepth (Z.to_nat maxVisited) (S (Z.to_nat maxVisited))
    (mkExpansion [root value] {[value]} [] false)) as (layers & t & H & Hl & _); [lia|apply start_expanding|cbn; lia|].
  exists layers, t. split; [exact H|]. lia.
Qed.

(** Everything the theorems below need of one expansion. *)
Lemma expansion_facts `{HE : HTMLEntities} value maxDepth maxBytes maxVisited layers truncated :
  1 <= maxDepth -> 0 < maxBytes -> 1 <= maxVisited -> value <> "" ->
  expandL7DecodedLayers value maxDepth maxBytes maxVisited = Some (layers, truncated) ->
  (truncated = false -> forall k w, (k <= Z.to_nat maxDepth)%nat -> reach maxBytes k value w ->
     w = value \/ exists l, l ∈ layers /\ ly_Value l = w /\ ly_Depth l <= Z.of_nat k) /\
  Forall (sound_layer maxBytes value maxDepth) layers /\ NoDup (value :: map ly_Value layers).
Proof.
  intros Hd Hb Hv Hne H. unfold expandL7DecodedLayers in H. destruct (_ || _) eqn:Hg.
  { rewrite !orb_true_iff, Z.ltb_lt, Z.leb_le, Z.ltb_lt, bool_decide_eq_true in Hg. exfalso. naive_solver lia. }
  destruct (expand_loop_spec maxBytes value maxDepth (Z.to_nat maxVisited) (S (Z.to_nat maxVisited))
    (mkExpansion [root value] {[value]} [] false)) as (layers' & t & H' & _ & HS & HN & HC); [lia|apply start_expanding|cbn; lia|].
  change (mkLayer value "" 0) with (root value) in H. rewrite H in H'. injection H' as <- <-. split_and!; [|done|done].
  intros Ht k w Hk Hr. destruct (HC Ht) as (x & Hx & Hq & Hl). destruct (closed_complete _ _ _ _ x k w Hx Hq Hk Hr) as (l & [->|Hin] & Hw & Hld).
  - by left.
  - right. exists l. by rewrite <- Hl.
Qed.

(** C32: the decode expansion ends. For every value and every budget the queue
    empties within [maxVisited + 1] rounds, the function returns, and it
    returns at most [maxVisited] layers. *)
Theorem expansion_terminates `{HE : HTMLEntities} value maxDepth maxBytes maxVisited : exists layers truncated,
  expandL7DecodedLayers value maxDepth maxBytes maxVisited = Some (layers, truncated) /\
  Z.of_nat (length layers) <= Z.max 0 maxVisited.
Proof. apply expansion_returns. Qed.

(** C31: the decode expansion is exact. An expansion that is not truncated
    returns precisely the texts a payload could be hidden behind: every text
    some chain of at most [maxDepth] decoders makes of the value is returned,
    at a depth no greater than the length of the chain; and every layer
    returned, truncated or not, is such a text, at its depth, fits the byte
    budget, is valid and printable, and appears once. *)
Theorem expansion_exact `{HE : HTMLEntities} value maxDepth maxBytes maxVisited layers truncated :
  1 <= maxDepth -> 0 < maxBytes -> 1 <= maxVisited -> value <> "" ->
  expandL7DecodedLayers value maxDepth maxBytes maxVisited = Some (layers, truncated) ->
  (truncated = false -> forall k w, (k <= Z.to_nat maxDepth)%nat -> reach maxBytes k value w ->
     w = value \/ exists l, l ∈ layers /\ ly_Value l = w /\ ly_Depth l <= Z.of_nat k) /\
  (forall l, l ∈ layers -> 1 <= ly_Depth l <= maxDepth /\ reach maxBytes (Z.to_nat (ly_Depth l)) value (ly_Value l) /\
     slen (ly_Value l) <= maxBytes /\ utf8_ValidString (ly_Value l) = true /\ isMostlyText (bytes_of (ly_Value l)) = true) /\
  NoDup (value :: map ly_Value layers).
Proof.
  intros Hd Hb Hv Hne H. destruct (expansion_facts _ _ _ _ _ _ Hd Hb Hv Hne H) as (HC & HS & HN). split_and!; [done| |done].
  rewrite Forall_forall in HS. intros l (Hdl & Hr & Ha)%HS. apply accept_inv in Ha as (Hw & Hu & Ht). split_and!; try done; [lia|lia|].
  rewrite Hw. by apply truncate_length.
Qed.

(** * Runes of a text

    A valid UTF-8 text is a sequence of complete encodings. The lemmas say what
    cutting such a text at a byte position does: where [truncateUTF8]
    (src/control/l7_decode.go) ends, and where the next rune starts. *)

Lemma between_spec lo hi c : between lo hi c = true <-> lo <= byte_val c <= hi.
Proof. unfold between. rewrite andb_true_iff, !Z.leb_le. lia. Qed.
Lemma between_false lo hi c : between lo hi c = false <-> ~ (lo <= byte_val c <= hi).
Proof. rewrite <- between_spec. by destruct (between lo hi c). Qed.
Lemma between_weaken lo hi lo' hi' c : between lo hi c = true -> lo' <= lo -> hi <= hi' -> between lo' hi' c = true.
Proof. rewrite !between_spec. lia. Qed.

(** A complete encoding: a first byte, then continuation bytes. *)
Record is_rune (r : list ascii) : Prop := {
  ir_self : forall x, rune_len (r ++ x) = length r;
  ir_short : (1 <= length r <= 4)%nat;
  ir_bytes : exists a t, r = a :: t /\ continuation a = false /\ forallb continuation t = true;
  ir_proper : forall p q, r = p ++ q -> p <> [] -> q <> [] -> rune_len p = 0%nat;
}.

Ltac byte_facts := rewrite ?andb_true_iff, ?between_spec, ?between_false in *.
Ltac byte_case :=
  match goal with
  | H : context [if ?b then _ else _] |- _ => let E := fresh "E" in destruct b eqn:E
  | |- context [if ?b then _ else _] => let E := fresh "E" in destruct b eqn:E
  end.

Lemma cont_true c lo hi : between lo hi c = true -> 128 <= lo -> hi <= 191 -> continuation c = true.
Proof. intros H ? ?. by eapply between_weaken. Qed.
Lemma cont_false c lo hi : between lo hi c = true -> hi <= 127 \/ 192 <= lo -> continuation c = false.
Proof. unfold continuation. rewrite between_spec, between_false. lia. Qed.

Lemma rune1 a : between 0 127 a = true -> is_rune [a].
Proof.
  intros H. constructor; cbn; [by rewrite H|lia| |].
  - exists a, []. split_and!; [done|eapply cont_false; [exact H|lia]|done].
  - intros [|p1 p] q Hq Hp Hq'; [done|]. simplify_eq/=. by destruct p, q.
Qed.
Lemma rune2 a b : between 194 223 a = true -> continuation b = true -> is_rune [a; b].
Proof.
  intros Ha Hb. assert (between 0 127 a = false) as H0 by (byte_facts; lia). constructor; cbn; [by rewrite H0, Ha, Hb|lia| |].
  - exists a, [b]. split_and!; [done|eapply cont_false; [exact Ha|lia]|cbn; by rewrite Hb].
  - intros [|p1 [|p2 p]] q Hq Hp Hq'; [done|..]; simplify_eq/=; [by rewrite H0|by destruct p, q].
Qed.
Definition second3 (a b : ascii) : bool :=
  if between 224 224 a then between 160 191 b
  else if between 237 237 a then between 128 159 b
  else between 225 239 a && continuation b.
Lemma second3_cont a b : second3 a b = true -> continuation b = true.
Proof. unfold second3. repeat byte_case; intros H; [by eapply cont_true|by eapply cont_true|]. by apply andb_true_iff in H as [_ ?]. Qed.
Lemma rune3 a b c : between 224 239 a = true -> second3 a b = true -> continuation c = true -> is_rune [a; b; c].
Proof.
  intros Ha Hb Hc. assert (between 0 127 a = false) as H0 by (byte_facts; lia).
  assert (between 194 223 a = false) as H1 by (byte_facts; lia). pose proof (second3_cont _ _ Hb) as Hb'. constructor.
  - intros x. cbn. rewrite H0, H1, Ha. fold (second3 a b). by rewrite Hb, Hc.
  - cbn. lia.
  - exists a, [b; c]. split_and!; [done|eapply cont_false; [exact Ha|lia]|cbn; by rewrite Hb', Hc].
  - intros [|p1 [|p2 [|p3 p]]] q Hq Hp Hq'; [done|..]; simplify_eq/=; [by rewrite H0|by rewrite H0, H1|by destruct p, q].
Qed.
Definition second4 (a b : ascii) : bool :=
  if between 240 240 a then between 144 191 b
  else if between 244 244 a then between 128 143 b
  else between 241 243 a && continuation b.
Lemma second4_cont a b : second4 a b = true -> continuation b = true /\ between 240 244 a = true.
Proof.
  unfold second4. repeat byte_case; intros H.
  - split; [by eapply cont_true|]. by eapply between_weaken.
  - split; [by eapply cont_true|]. by eapply between_weaken.
  - apply andb_true_iff in H as [? ?]. split; [done|]. by eapply between_weaken.
Qed.
Lemma rune4 a b c d : second4 a b = true -> continuation c = true -> continuation d = true -> is_rune [a; b; c; d].
Proof.
  intros Hb Hc Hd. destruct (second4_cont _ _ Hb) as [Hb' Ha]. assert (between 0 127 a = false) as H0 by (byte_facts; lia).
  assert (between 194 223 a = false) as H1 by (byte_facts; lia). assert (between 224 239 a = false) as H2 by (byte_facts; lia). constructor.
  - intros x. cbn. rewrite H0, H1, H2. fold (second4 a b). by rewrite Hb, Hc, Hd.
  - cbn. lia.
  - exists a, [b; c; d]. split_and!; [done|eapply cont_false; [exact Ha|lia]|cbn; by rewrite Hb', Hc, Hd].
  - intros [|p1 [|p2 [|p3 [|p4 p]]]] q Hq Hp Hq'; [done|..]; simplify_eq/=;
      [by rewrite H0|by rewrite H0, H1|by rewrite H0, H1, H2|by destruct p, q].
Qed.

Lemma rune_len_rune l n : rune_len l = S n -> is_rune (take (S n) l).
Proof.
  destruct l as [|a l]; [done|]. cbn [rune_len]. destruct (between 0 127 a) eqn:H0; [intros [= <-]; by apply rune1|].
  destruct l as [|b l]; [done|]. destruct (between 194 223 a) eqn:H1.
  { destruct (continuation b) eqn:Hb; [|done]. intros [= <-]. by apply rune2. }
  destruct l as [|c l]; [done|]. fold (second3 a b). destruct (between 224 239 a) eqn:H2.
  { destruct (second3 a b && continuation c) eqn:Hb; [|done]. apply andb_true_iff in Hb as [? ?]. intros [= <-]. by apply rune3. }
  destruct l as [|d l]; [done|]. fold (second4 a b). destruct (second4 a b && continuation c && continuation d) eqn:Hb; [|done].
  rewrite !andb_true_iff in Hb. destruct Hb as [[? ?] ?]. intros [= <-]. by apply rune4.
Qed.

(** ** Valid texts *)

Definition text (l : list ascii) : Prop := exists rs, Forall is_rune rs /\ l = concat rs.

Lemma valid_concat rs fuel : Forall is_rune rs -> (length (concat rs) <= fuel)%nat -> utf8_valid_list fuel (concat rs) = true.
Proof.
  intros Hr. revert fuel. induction Hr as [|r rs H Hr IH]; intros fuel Hf; [by destruct fuel|].
  cbn [concat] in *. rewrite length_app in Hf. pose proof (ir_short _ H) as Hs. destruct (ir_bytes _ H) as (a & t & -> & _).
  destruct fuel as [|fuel]; [cbn in Hf; lia|]. cbn [utf8_valid_list app]. change (a :: t ++ concat rs) with ((a :: t) ++ concat rs).
  rewrite (ir_self _ H). cbn [length]. change (S (length t)) with (length (a :: t)). rewrite drop_app_length. apply IH. cbn in Hf. lia.
Qed.
Lemma concat_valid fuel l : utf8_valid_list fuel l = true -> text l.
Proof.
  revert l. induction fuel as [|fuel IH]; intros l H; [destruct l; [by exists []|done]|].
  destruct l as [|c l']; [by exists []|]. cbn [utf8_valid_list] in H. destruct (rune_len (c :: l')) as [|n] eqn:Hn; [done|].
  apply IH in H as (rs & Hrs & Hd). apply rune_len_rune in Hn as Hr. exists (take (S n) (c :: l') :: rs). split; [by constructor|].
  cbn [concat]. by rewrite <- Hd, take_drop.
Qed.
Lemma text_valid l : text l <-> utf8_valid_list (length l) l = true.
Proof. split; [intros (rs & Hr & ->); by apply valid_concat|apply concat_valid]. Qed.
Lemma text_app l1 l2 : text l1 -> text l2 -> text (l1 ++ l2).
Proof. intros (r1 & H1 & ->) (r2 & H2 & ->). exists (r1 ++ r2). split; [by apply Forall_app|by rewrite concat_app]. Qed.

(** A text followed by part of a rune is not valid. *)
Lemma partial_invalid rs p fuel : Forall is_rune rs -> p <> [] -> rune_len p = 0%nat -> utf8_valid_list fuel (concat rs ++ p) = false.
Proof.
  intros Hr Hp Hz. revert fuel. induction Hr as [|r rs H Hr IH]; intros fuel; cbn [concat app].
  - destruct p as [|c p]; [done|]. destruct fuel; cbn [utf8_valid_list]; [done|by rewrite Hz].
  - destruct (ir_bytes _ H) as (a & t & -> & _). destruct fuel as [|fuel]; [done|].
    rewrite <- app_assoc. cbn [utf8_valid_list app]. change (a :: t ++ concat rs ++ p) with ((a :: t) ++ concat rs ++ p).
    rewrite (ir_self _ H). cbn [length]. change (S (length t)) with (length (a :: t)). by rewrite drop_app_length.
Qed.

(** Every position is at the end of a rune or inside one. *)
Lemma position rs m : Forall is_rune rs -> (m <= length (concat rs))%nat -> exists rs1 rs2, rs = rs1 ++ rs2 /\
  ((length (concat rs1) = m) \/
   exists r rs3 p q, rs2 = r :: rs3 /\ r = p ++ q /\ p <> [] /\ q <> [] /\ m = (length (concat rs1) + length p)%nat).
Proof.
  intros Hr. revert m. induction Hr as [|r rs H Hr IH]; intros m Hm.
  { exists [], []. split; [done|]. left. cbn in *. lia. }
  cbn [concat] in Hm. rewrite length_app in Hm. destruct (decide (m < length r)%nat) as [Hlt|Hge].
  - destruct m as [|m].
    + exists [], (r :: rs). split; [done|]. by left.
    + exists [], (r :: rs). split; [done|]. right. exists r, rs, (take (S m) r), (drop (S m) r). split_and!; [done|by rewrite take_drop| | |].
      * destruct r; [cbn in Hlt; lia|done].
      * intros Hd. apply (f_equal length) in Hd. rewrite length_drop in Hd. cbn [length] in Hd. lia.
      * cbn [concat length]. rewrite length_take. lia.
  - destruct (IH (m - length r)%nat) as (rs1 & rs2 & -> & Hc); [lia|]. exists (r :: rs1), rs2. split; [done|]. cbn [concat]. rewrite length_app.
    destruct Hc as [Hc|(r' & rs3 & p & q & ? & ? & ? & ? & Hc)]; [left; lia|right]. exists r', rs3, p, q. split_and!; try done. lia.
Qed.

(** ** Cutting a text *)

Lemma drop_partial rs p q : Forall is_rune rs -> is_rune (p ++ q) -> q <> [] ->
  drop_invalid (length (concat rs) + length p) (concat rs ++ p) = concat rs.
Proof.
  intros Hr. revert q. induction p as [|c p IH] using rev_ind; intros q H Hq.
  - rewrite app_nil_r, Nat.add_0_r. destruct (length (concat rs)) as [|n] eqn:Hl; cbn [drop_invalid].
    + by apply nil_length_inv in Hl as ->.
    + by rewrite valid_concat.
  - rewrite length_app. cbn [length]. replace (length (concat rs) + (length p + 1))%nat with (S (length (concat rs) + length p)) by lia.
    cbn [drop_invalid]. rewrite partial_invalid; [|done|by destruct p|apply (ir_proper _ H (p ++ [c]) q); [done|by destruct p|done]].
    rewrite (app_assoc (concat rs)), take_app_le, take_ge by (rewrite ?length_app; lia).
    apply (IH ([c] ++ q)); [by rewrite app_assoc|done].
Qed.

(** Where a truncation at [m] bytes ends: at most three bytes before. *)
Lemma truncate_text l m : text l -> (m <= length l)%nat -> exists l1 l2, l = l1 ++ l2 /\ text l1 /\ text l2 /\
  drop_invalid m (take m l) = l1 /\ (m <= length l1 + 3)%nat /\ (length l1 <= m)%nat.
Proof.
  intros (rs & Hr & ->) Hm. destruct (position rs m Hr Hm) as (rs1 & rs2 & -> & Hc). apply Forall_app in Hr as [Hr1 Hr2].
  rewrite concat_app in *. exists (concat rs1), (concat rs2). split; [done|]. split; [by exists rs1|]. split; [by exists rs2|].
  destruct Hc as [<-|(r & rs3 & p & q & -> & -> & Hp & Hq & ->)].
  - rewrite take_app_length. pose proof (drop_partial rs1 [] (" "%char :: []) Hr1) as Hd. rewrite app_nil_r, Nat.add_0_r in Hd.
    rewrite Hd; [split_and!; [done|lia|lia]|by apply rune1|done].
  - apply Forall_cons in Hr2 as [H _]. cbn [concat]. rewrite take_app_add', <- app_assoc, take_app_length by done.
    rewrite (drop_partial rs1 p q Hr1 H Hq). pose proof (ir_short _ H) as Hs. rewrite length_app in Hs.
    destruct q; [done|]. cbn [length] in Hs. split_and!; [done|lia|lia].
Qed.

(** The start of the next rune is at most three bytes ahead. *)
Lemma leading_all (q x : list ascii) : forallb continuation q = true ->
  match x with c :: _ => continuation c = false | [] => True end -> L7Decode.leading continuation (q ++ x) = length q.
Proof.
  intros Hq Hx. induction q as [|c q IH]; cbn in *; [destruct x; cbn; [done|by rewrite Hx]|].
  apply andb_true_iff in Hq as [-> Hq]. by rewrite IH.
Qed.
Lemma text_head rs : Forall is_rune rs -> match concat rs with c :: _ => continuation c = false | [] => True end.
Proof. intros [|r rs' H _]; [done|]. destruct (ir_bytes _ H) as (a & t & -> & Ha & _). done. Qed.
Lemma next_boundary l m : text l -> (m <= length l)%nat -> let k := L7Decode.leading continuation (drop m l) in (k <= 3)%nat /\
  exists l1 l2, l = l1 ++ l2 /\ length l1 = (m + k)%nat /\ text l1 /\ text l2.
Proof.
  intros (rs & Hr & ->) Hm. destruct (position rs m Hr Hm) as (rs1 & rs2 & -> & Hc). apply Forall_app in Hr as [Hr1 Hr2]. rewrite concat_app.
  destruct Hc as [<-|(r & rs3 & p & q & -> & -> & Hp & Hq & ->)].
  - rewrite drop_app_length. pose proof (leading_all [] (concat rs2) eq_refl (text_head _ Hr2)) as Hk. cbn [app length] in Hk. rewrite Hk.
    split; [lia|]. exists (concat rs1), (concat rs2). split_and!; [done|lia|by exists rs1|by exists rs2].
  - apply Forall_cons in Hr2 as [H Hr3]. cbn [concat]. rewrite drop_app_add', <- app_assoc, drop_app_length by done.
    assert (forallb continuation q = true) as Hqc.
    { destruct (ir_bytes _ H) as (a & t & He & _ & Ht). destruct p as [|a' p]; [done|]. injection He as -> <-. rewrite forallb_app in Ht. by apply andb_true_iff in Ht as [_ ?]. }
    rewrite (leading_all q (concat rs3) Hqc (text_head _ Hr3)). pose proof (ir_short _ H) as Hs. rewrite length_app in Hs.
    assert (0 < length p)%nat by (destruct p; [done|cbn; lia]). split; [lia|].
    exists (concat rs1 ++ p ++ q), (concat rs3). split_and!; [by rewrite <- !app_assoc|rewrite !length_app; lia| |by exists rs3].
    apply text_app; [by exists rs1|]. exists [p ++ q]. split; [by constructor|]. cbn. by rewrite app_nil_r.
Qed.
