(* ===== verification/L7Normalize.v ===== *)
(** * The Layer-7 normalizer

    src/control/l7_normalize.go, l7_candidates.go and l7_validate.go: from the
    raw request to the bounded list of texts the detectors read. The parsers of
    the Go standard library the normalizer calls on the request (URLs, media
    types, JSON tokens, multipart bodies, compressed bodies) are an interface;
    query strings, UTF-8 repair, route and host checks are modelled. The
    identifier drawn for a request without one is an argument. *)

From Stdlib Require Import ZArith Lia Ascii String.
From stdpp Require Import base gmap strings list sorting.
From S2P Require Import Prelude.
From S2P Require Import GoLib.
From S2P Require Import Strconv.
From S2P Require Import Text.
From S2P Require Import Storage.
From S2P Require Import NetIP.
From S2P Require Import RateLimit.
From S2P Require Import L7Settings.
From S2P Require Import L7Engine.
From S2P Require Import L7Decode.

Definition ErrL7InvalidRequest (detail : string) : goerror := ErrWrap detail (ErrText "l7 request validation failed").
Definition ErrL7ResourceLimit (detail : string) : goerror := ErrWrap detail (ErrText "l7 resource budget exceeded").
Definition ErrL7UnsupportedEncoding (detail : string) : goerror := ErrWrap detail (ErrText "l7 content encoding is unsupported").

Definition l7ProtocolVersion : Z := 1.

Record L7Header := mkHeader { h_Name : string; h_Value : string }.
Record L7InspectionRequest := mkInspection {
  ir_Version : Z; ir_RequestID : string; ir_Method : string; ir_Scheme : string; ir_Host : string; ir_URI : string;
  ir_RemoteIP : string; ir_Headers : list L7Header; ir_ServerPID : Z; ir_ServerProcess : string;
}.

(** ** The parsers of the standard library *)

Record request_uri := mkURI { ru_IsAbs : bool; ru_Path : string; ru_EscapedPath : string; ru_RawQuery : string }.
Record host_url := mkHostURL { hu_Host : string; hu_HasUser : bool; hu_Hostname : string; hu_Port : string }.
Inductive json_token := OpenDelim | CloseDelim | StringToken (s : string) | OtherToken.
Record multipart_part := mkPart { mp_FileName : string; mp_FormName : string; mp_data : option string }.

Class Parsers := {
  url_ParseRequestURI : string -> option request_uri;
  url_Parse_host : string -> option host_url;
  mime_ParseMediaType : string -> option (string * gmap string string);
  json_tokens : string -> list json_token * bool;               (* the tokens; whether the input ended after them *)
  multipart_parts : string -> string -> list multipart_part * bool; (* boundary, body *)
  inflate : string -> string -> option (Z -> option string);       (* encoding, body; the first bytes of the content *)
}.

(** [strings.ToValidUTF8]: a run of invalid bytes becomes one blank. *)
Fixpoint to_valid (fuel : nat) (invalid : bool) (l : list ascii) : list ascii :=
  match fuel, l with
  | S fuel, _ :: l' =>
      match rune_len l with
      | O => (if invalid then [] else [" "%char]) ++ to_valid fuel true l'
      | n => take n l ++ to_valid fuel false (drop n l)
      end
  | _, _ => []
  end.
Definition ToValidUTF8 (s : string) : string := of_bytes (to_valid (String.length s) false (bytes_of s)).

(** [url.QueryUnescape] and [url.ParseQuery]; [None] on the first error. *)
Definition plus_to_blank (c : ascii) : ascii := if Ascii.eqb c "+" then " " else c.
Definition QueryUnescape (s : string) : option string := PathUnescape (map_bytes plus_to_blank s).
Definition Cut (s : string) (c : ascii) : string * string :=
  match Split s c with
  | [] => (s, "")
  | a :: _ => (a, of_bytes (drop (S (String.length a)) (bytes_of s)))
  end.
Fixpoint parse_entries (es : list string) : option (list (string * string)) :=
  match es with
  | [] => Some []
  | e :: es =>
      if bool_decide (e = "") then parse_entries es
      else if bool_decide (";"%char ∈ bytes_of e) then None
      else
        let '(k, v) := Cut e "=" in
        key ← QueryUnescape k; value ← QueryUnescape v; rest ← parse_entries es;
        Some ((key, value) :: rest)
  end.
Definition url_ParseQuery (raw : string) : option (list (string * string)) := parse_entries (Split raw "&").
(** The keys of the map, sorted, each with its values in order. *)
Definition grouped (es : list (string * string)) : list (string * list string) :=
  map (fun k => (k, map snd (List.filter (fun kv => bool_decide (kv.1 = k)) es)))
    (sort_Strings (elements (list_to_set (map fst es) : gset string))).

(** ** l7_validate.go *)

Definition key_byte (r : Z) : bool :=
  ((97 <=? r) && (r <=? 122)) || ((65 <=? r) && (r <=? 90)) || ((48 <=? r) && (r <=? 57)) || (r =? 95) || (r =? 45) || (r =? 46).
Fixpoint safe_key (fuel : nat) (l : list ascii) : list ascii :=
  match fuel, l with
  | S fuel, _ :: _ =>
      let '(r, n) := next_rune l in
      (if key_byte r then encode_rune r else ["_"%char]) ++ safe_key fuel (drop n l)
  | _, _ => []
  end.
Definition safeLocationKey (value : string) : string :=
  let value := take 64 (bytes_of (TrimSpace value)) in
  match safe_key (length value) value with
  | [] => "field"
  | l => of_bytes l
  end.

Definition safeProcessName (value : string) : string :=
  let value := take 64 (bytes_of (TrimSpace value)) in
  if existsb (fun c => (byte_val c <? 32) || (byte_val c =? 127)) value then "" else of_bytes value.

Definition token_byte (c : ascii) : bool :=
  let b := byte_val c in
  ((97 <=? b) && (b <=? 122)) || ((65 <=? b) && (b <=? 90)) || ((48 <=? b) && (b <=? 57)) ||
  is_one_of c ["!"%char; "#"%char; "$"%char; "%"%char; "&"%char; "'"%char; "*"%char; "+"%char; "-"%char; "."%char;
               "^"%char; "_"%char; "`"%char; "|"%char; "~"%char].
Definition isHTTPToken (value : string) (maxLen : Z) : bool :=
  negb (bool_decide (value = "")) && (slen value <=? maxLen) && forallb token_byte (bytes_of value).

Definition label_ok (label : string) : bool :=
  (1 <=? slen label) && (slen label <=? 63) &&
  negb (Ascii.eqb (hd "-"%char (bytes_of label)) "-") && negb (Ascii.eqb (hd "-"%char (rev (bytes_of label))) "-") &&
  forallb (fun c => let b := byte_val c in
    ((97 <=? b) && (b <=? 122)) || ((65 <=? b) && (b <=? 90)) || ((48 <=? b) && (b <=? 57)) || (b =? 45)) (bytes_of label).
Definition validDNSHostname (host : string) : bool := (slen host <=? 253) && forallb label_ok (Split host ".").

Definition canonicalL7RoutePath (decodedPath : string) (asterisk : bool) : string :=
  if asterisk then "*"
  else if bool_decide (decodedPath = "") then "/"
  else
    let cleaned := Clean decodedPath in
    if HasPrefix cleaned "/" then cleaned else "/" +:+ cleaned.

(** [strconv.Atoi]: an optional sign and decimal digits, 64 bits. *)
Definition Atoi (s : string) : option Z :=
  let '(neg, digits) := match s with
                        | String "-" s' => (true, s')
                        | String "+" s' => (false, s')
                        | _ => (false, s)
                        end in
  match ParseUint digits with
  | Some n => let n := if neg then - n else n in if (MinInt64 <=? n) && (n <=? MaxInt64) then Some n else None
  | None => None
  end.
Definition TrimSuffix (s suffix : string) : string :=
  if HasSuffix s suffix then of_bytes (take (String.length s - String.length suffix) (bytes_of s)) else s.

Definition cr : string := String "013" EmptyString.
Definition JoinHostPort (host port : string) : string :=
  if bool_decide (":"%char ∈ bytes_of host) then "[" +:+ host +:+ "]:" +:+ port else host +:+ ":" +:+ port.

Section Normalizer.
Context `{U : Unicode} `{HE : HTMLEntities} `{C : Crypto} `{PR : Parsers}.

Definition normalizeL7Host (raw : string) : goerror + string :=
  let host := TrimSpace raw in
  let invalid := inl (ErrL7InvalidRequest "invalid host") in
  if bool_decide (host = "") || (255 <? slen host) || ContainsAny host (cr +:+ newline +:+ nul +:+ " /?#@") then invalid
  else
    match url_Parse_host ("http://" +:+ host) with
    | None => invalid
    | Some parsed =>
        if negb (bool_decide (hu_Host parsed = host)) || hu_HasUser parsed || bool_decide (hu_Hostname parsed = "") then invalid
        else
          let port := hu_Port parsed in
          let port_ok := bool_decide (port = "") ||
            match Atoi port with Some n => (1 <=? n) && (n <=? 65535) | None => false end in
          if negb port_ok then inl (ErrL7InvalidRequest "invalid host port")
          else
            let hostname := ToLower (TrimSuffix (hu_Hostname parsed) ".") in
            if bool_decide (hostname = "") then invalid
            else
              match ParseIP hostname with
              | Some ip =>
                  let hostname := IP_String ip in
                  inr (if negb (bool_decide (port = "")) then JoinHostPort hostname port
                       else if bool_decide (":"%char ∈ bytes_of hostname) then "[" +:+ hostname +:+ "]" else hostname)
              | None =>
                  if negb (validDNSHostname hostname) then inl (ErrL7InvalidRequest "invalid host name")
                  else inr (if negb (bool_decide (port = "")) then JoinHostPort hostname port else hostname)
              end
    end.

(** ** Candidates (l7_candidates.go)

    The three fields of the request the functions below fill. *)
Record collected := mkCollected { co_Candidates : list l7Candidate; co_Bytes : Z; co_Exceeded : bool }.
Definition exceed (out : collected) : collected := mkCollected (co_Candidates out) (co_Bytes out) true.
Definition count (out : collected) : Z := Z.of_nat (length (co_Candidates out)).
Definition budget_left (cfg : L7Config) (out : collected) : bool :=
  negb ((c_MaxDecodedValues cfg <=? count out) || (c_MaxInspectionBytes cfg <=? co_Bytes out)).

(** [appendCandidate] *)
Definition appendCandidate (cfg : L7Config) (location value : string) (depth : Z) (out : collected) : bool * collected :=
  if bool_decide (value = "") then (false, out)
  else if c_MaxDecodedValues cfg <=? count out then (false, exceed out)
  else
    let value := truncateUTF8 value (c_MaxValueBytes cfg) in
    if bool_decide (value = "") then (false, out)
    else if c_MaxInspectionBytes cfg - co_Bytes out <? slen value then (false, exceed out)
    else (true, mkCollected (co_Candidates out ++ [mkCandidate location value depth]) (co_Bytes out + slen value) (co_Exceeded out)).

Fixpoint append_layers (cfg : L7Config) (location : string) (layers : list l7DecodedLayer) (out : collected) : collected :=
  match layers with
  | [] => out
  | l :: layers =>
      match appendCandidate cfg (location +:+ ly_Label l) (ly_Value l) (ly_Depth l) out with
      | (true, out) => append_layers cfg location layers out
      | (false, out) => out
      end
  end.

(** URL and HTML decoding up to a fixed point or the depth budget. *)
Fixpoint canonicalize (rounds : nat) (maxBytes : Z) (canonical : string) : string :=
  match rounds with
  | O => canonical
  | S rounds =>
      let decoded := match PathUnescape canonical with Some v => v | None => canonical end in
      let decoded := truncateUTF8 (html_UnescapeString decoded) maxBytes in
      if bool_decide (decoded = canonical) then canonical else canonicalize rounds maxBytes decoded
  end.

(** [addCandidateChunk]; an expansion always returns. *)
Definition addCandidateChunk (cfg : L7Config) (location value : string) (out : collected) : collected :=
  if bool_decide (value = "") then out
  else if negb (budget_left cfg out) then exceed out
  else
    let value := truncateUTF8 value (c_MaxValueBytes cfg) in
    if bool_decide (value = "") then out
    else
      let canonical := canonicalize (Z.to_nat (c_MaxDecodeDepth cfg)) (c_MaxValueBytes cfg) value in
      match appendCandidate cfg location canonical 0 out with
      | (false, out) => out
      | (true, out) =>
          let layerLimit := if 256 <? c_MaxDecodedValues cfg then 256 else c_MaxDecodedValues cfg in
          match expandL7DecodedLayers canonical (c_MaxDecodeDepth cfg) (c_MaxValueBytes cfg) layerLimit with
          | Some (layers, false) => append_layers cfg location layers out
          | _ => exceed out
          end
      end.

(** Where the chunk after one of [len] bytes at [start] begins: an overlap
    back, then forward to the start of a rune. *)
Definition next_start (value : list ascii) (start len : nat) : nat :=
  let stop := (start + len)%nat in
  let next := (stop - Nat.min 256 (len / 2))%nat in
  let next := (next + leading continuation (drop next value))%nat in
  if (next <=? start)%nat then stop else next.

(** The chunks of a long value; every round advances, so [fuel] above the
    number of bytes left is never used up. *)
Fixpoint add_chunks (fuel : nat) (cfg : L7Config) (location : string) (value : list ascii) (start : nat) (out : collected)
  : collected :=
  match fuel with
  | O => out
  | S fuel =>
      if (length value <=? start)%nat then out
      else if negb (budget_left cfg out) then exceed out
      else
        let chunk := truncateUTF8 (of_bytes (drop start value)) (c_MaxValueBytes cfg) in
        if bool_decide (chunk = "") then exceed out
        else
          let out := addCandidateChunk cfg location chunk out in
          if co_Exceeded out then out
          else if (length value <=? start + String.length chunk)%nat then out
          else add_chunks fuel cfg location value (next_start value start (String.length chunk)) out
  end.

(** [addCandidate] *)
Definition addCandidate (cfg : L7Config) (location value : string) (out : collected) : collected :=
  if bool_decide (value = "") then out
  else if negb (budget_left cfg out) then exceed out
  else
    let value := ToValidUTF8 value in
    if slen value <=? c_MaxValueBytes cfg then addCandidateChunk cfg location value out
    else add_chunks (S (String.length value)) cfg location (bytes_of value) 0 out.

(** [addTextChunks]: 16 KiB windows that overlap by 256 bytes. *)
Definition chunkSize : nat := Z.to_nat 16384.
Fixpoint add_windows (fuel : nat) (cfg : L7Config) (location : string) (rest : list ascii) (out : collected) : collected :=
  match fuel, rest with
  | S fuel, _ :: _ =>
      let out := addCandidate cfg location (ToValidUTF8 (of_bytes (take chunkSize rest))) out in
      if co_Exceeded out then out
      else if (length rest <=? chunkSize)%nat then out
      else add_windows fuel cfg location (drop (chunkSize - 256) rest) out
  | _, _ => out
  end.
Definition addTextChunks (cfg : L7Config) (location body : string) (out : collected) : collected :=
  add_windows (String.length body) cfg location (bytes_of body) out.

(** *** Queries and forms *)

(** [l7RawEntryBudgetString] and [l7RawEntryBudgetBytes] *)
Fixpoint entries_within (entries : Z) (limit : Z) (l : list ascii) : bool :=
  match l with
  | [] => true
  | c :: l =>
      if Ascii.eqb c "&" then if limit <? entries + 1 then false else entries_within (entries + 1) limit l
      else entries_within entries limit l
  end.
Definition l7RawEntryBudget (raw : string) (limit : Z) : bool :=
  if bool_decide (raw = "") then true else if limit <? 1 then false else entries_within 1 limit (bytes_of raw).

(** [l7FormEntryCount] over the groups in one of the orders of the map. *)
Fixpoint entry_count (limit total : Z) (groups : list (list string)) : Z :=
  match groups with
  | [] => total
  | g :: groups =>
      if limit - total <? Z.of_nat (length g) then limit + 1 else entry_count limit (total + Z.of_nat (length g)) groups
  end.
Definition l7FormEntryCount (groups : list (list string)) (limit : Z) : Z := if limit <? 1 then 1 else entry_count limit 0 groups.

Definition add_all (cfg : L7Config) (location : string) (values : list string) (out : collected) : collected :=
  fold_left (fun out v => addCandidate cfg location v out) values out.

(** The loop over the sorted keys that queries and forms share. *)
Fixpoint add_groups (cfg : L7Config) (keys fields what : string) (groups : list (string * list string)) (out : collected)
  : goerror + collected :=
  match groups with
  | [] => inr out
  | (key, entries) :: groups =>
      let out := addCandidate cfg keys key out in
      if 32 <? Z.of_nat (length entries) then inl (ErrL7ResourceLimit ("repeated " +:+ what +:+ " field budget exceeded"))
      else add_groups cfg keys fields what groups (add_all cfg (fields +:+ safeLocationKey key) entries out)
  end.
Definition add_pairs (cfg : L7Config) (keys fields what malformed : string) (raw : string) (out : collected) : goerror + collected :=
  if negb (l7RawEntryBudget raw (c_MaxFormFields cfg)) then inl (ErrL7ResourceLimit (what +:+ " entry budget exceeded"))
  else
    match url_ParseQuery raw with
    | None => inl (ErrL7InvalidRequest malformed)
    | Some es =>
        let groups := grouped es in
        if c_MaxFormFields cfg <? Z.of_nat (length groups) then inl (ErrL7ResourceLimit (what +:+ " field budget exceeded"))
        else if c_MaxFormFields cfg <? l7FormEntryCount (map snd groups) (c_MaxFormFields cfg)
        then inl (ErrL7ResourceLimit (what +:+ " entry budget exceeded"))
        else add_groups cfg keys fields what groups out
    end.

(** [addQueryCandidates], [addFormCandidates] *)
Definition addQueryCandidates (cfg : L7Config) (raw : string) (out : collected) : goerror + collected :=
  add_pairs cfg "query.key" "query." "query" "malformed query encoding" raw out.
Definition addFormCandidates (cfg : L7Config) (body : string) (out : collected) : goerror + collected :=
  if c_MaxBodyBytes cfg <? slen body then inl (ErrL7ResourceLimit "form body exceeds budget")
  else add_pairs cfg "body.form.key" "body.form." "form" "malformed form body" body out.

(** *** Bodies *)

Definition isL7JSONMediaType (contentType : string) : bool :=
  bool_decide (contentType = "application/json") || bool_decide (contentType = "application/problem+json") ||
  bool_decide (contentType = "application/ld+json") || HasSuffix contentType "+json".
Definition isL7XMLMediaType (contentType : string) : bool :=
  bool_decide (contentType = "application/xml") || bool_decide (contentType = "text/xml") ||
  bool_decide (contentType = "image/svg+xml") || HasSuffix contentType "+xml".

(** [addJSONCandidates] over the tokens of the body. *)
Fixpoint add_tokens (cfg : L7Config) (ts : list json_token) (ended : bool) (depth values tokens : Z) (out : collected)
  : goerror + collected :=
  match ts with
  | [] =>
      if negb ended then inl (ErrL7InvalidRequest "malformed json body")
      else if negb (depth =? 0) then inl (ErrL7InvalidRequest "malformed json nesting") else inr out
  | t :: ts =>
      let tokens := tokens + 1 in
      if Z.max (c_MaxFormFields cfg * 8) 256 <? tokens then inl (ErrL7ResourceLimit "json token budget exceeded")
      else
        match t with
        | OpenDelim =>
            if c_MaxJSONDepth cfg <? depth + 1 then inl (ErrL7ResourceLimit "json depth budget exceeded")
            else add_tokens cfg ts ended (depth + 1) values tokens out
        | CloseDelim =>
            if depth - 1 <? 0 then inl (ErrL7InvalidRequest "malformed json nesting")
            else add_tokens cfg ts ended (depth - 1) values tokens out
        | StringToken v =>
            if c_MaxFormFields cfg <? values + 1 then inl (ErrL7ResourceLimit "json value budget exceeded")
            else add_tokens cfg ts ended depth (values + 1) tokens (addCandidate cfg "body.json" v out)
        | OtherToken => add_tokens cfg ts ended depth values tokens out
        end
  end.
Definition addJSONCandidates (cfg : L7Config) (body : string) (out : collected) : goerror + collected :=
  let '(ts, ended) := json_tokens body in add_tokens cfg ts ended 0 0 0 out.

(** [addMultipartCandidates] over the parts of the body. *)
Fixpoint add_parts (cfg : L7Config) (ps : list multipart_part) (ended : bool) (parts : Z) (out : collected) : goerror + collected :=
  match ps with
  | [] => if ended then inr out else inl (ErrL7InvalidRequest "malformed multipart body")
  | p :: ps =>
      let parts := parts + 1 in
      if c_MaxMultipartParts cfg <? parts then inl (ErrL7ResourceLimit "multipart part budget exceeded")
      else if negb (bool_decide (mp_FileName p = "")) then add_parts cfg ps ended parts out
      else
        match mp_data p with
        | None => inl (ErrL7InvalidRequest "multipart field read failed")
        | Some value =>
            if c_MaxBodyBytes cfg <? slen value then inl (ErrL7ResourceLimit "multipart field budget exceeded")
            else add_parts cfg ps ended parts
                   (addCandidate cfg ("body.multipart." +:+ safeLocationKey (mp_FormName p)) (ToValidUTF8 value) out)
        end
  end.
Definition addMultipartCandidates (cfg : L7Config) (contentTypes : list string) (body : string) (out : collected)
  : goerror + collected :=
  match contentTypes with
  | [ct] =>
      let boundary := match mime_ParseMediaType ct with Some (_, params) => from_option id "" (params !! "boundary") | None => "" end in
      if bool_decide (boundary = "") || (200 <? slen boundary)
      then inl (ErrL7InvalidRequest "malformed multipart content type")
      else let '(ps, ended) := multipart_parts boundary body in add_parts cfg ps ended 0 out
  | _ => inr out
  end.

(** [addBodyCandidates] *)
Definition addBodyCandidates (cfg : L7Config) (contentType : string) (contentTypes : list string) (body : string) (out : collected)
  : goerror + collected :=
  if isL7JSONMediaType contentType then addJSONCandidates cfg body out
  else if bool_decide (contentType = "application/x-www-form-urlencoded") then addFormCandidates cfg body out
  else if isL7XMLMediaType contentType then inr (addTextChunks cfg "body.xml" body out)
  else if bool_decide (contentType = "multipart/form-data") then addMultipartCandidates cfg contentTypes body out
  else inr (if isMostlyText (bytes_of body) then addTextChunks cfg "body.text" body out else out).

(** ** Headers *)

Definition l7SensitiveHeader (name : string) : bool :=
  bool_decide (ToLower (TrimSpace name) ∈
    ["authorization"; "proxy-authorization"; "cookie"; "set-cookie"; "x-api-key"; "x-auth-token"]).
Definition l7GatewayMetadataHeader (name : string) : bool :=
  bool_decide (ToLower (TrimSpace name) ∈
    ["x-gedefense-client-ip"; "x-gedefense-original-scheme"; "x-gedefense-request-id"]).

Fixpoint collect_headers (cfg : L7Config) (hs : list L7Header) (total : Z) (headers : gmap string (list string))
  : goerror + gmap string (list string) :=
  match hs with
  | [] => inr headers
  | h :: hs =>
      let name := ToLower (TrimSpace (h_Name h)) in
      if negb (isHTTPToken name 128) then inl (ErrL7InvalidRequest "invalid header name")
      else if ContainsAny (h_Value h) (cr +:+ newline +:+ nul) then inl (ErrL7InvalidRequest "invalid header value")
      else
        let total := total + slen name + slen (h_Value h) in
        if c_MaxHeaderBytes cfg <? total then inl (ErrL7ResourceLimit "header budget exceeded")
        else if l7SensitiveHeader name || l7GatewayMetadataHeader name then collect_headers cfg hs total headers
        else
          let values := from_option id [] (headers !! name) ++ [h_Value h] in
          if 16 <? Z.of_nat (length values) then inl (ErrL7ResourceLimit "duplicate header budget exceeded")
          else collect_headers cfg hs total (<[name := values]> headers)
  end.
Definition values_of (headers : gmap string (list string)) (name : string) : list string := from_option id [] (headers !! name).

(** [normalizeHeaders] *)
Definition normalizeHeaders (cfg : L7Config) (hs : list L7Header) : goerror + (gmap string (list string) * string) :=
  if c_MaxHeaders cfg <? Z.of_nat (length hs) then inl (ErrL7ResourceLimit "too many headers")
  else
    match collect_headers cfg hs 0 ∅ with
    | inl e => inl e
    | inr headers =>
        match values_of headers "content-type" with
        | [] => inr (headers, "")
        | [ct] =>
            match mime_ParseMediaType ct with
            | Some (parsed, _) => inr (headers, ToLower parsed)
            | None => inl (ErrL7InvalidRequest "malformed content type")
            end
        | _ => inl (ErrL7InvalidRequest "duplicate content-type header")
        end
    end.

(** [decodeContentEncoding] *)
Definition decodeContentEncoding (cfg : L7Config) (body : string) (values : list string) : goerror + string :=
  if bool_decide (body = "") then inr body
  else
    match values with
    | [] => inr body
    | [v] =>
        let encoding := ToLower (TrimSpace v) in
        if bool_decide (encoding = "") || bool_decide (encoding = "identity") then inr body
        else if bool_decide (","%char ∈ bytes_of encoding) then inl (ErrL7UnsupportedEncoding "stacked content encoding")
        else if negb (bool_decide (encoding ∈ ["gzip"; "x-gzip"; "deflate"])) then inl (ErrL7UnsupportedEncoding encoding)
        else
          match inflate encoding body with
          | None => inl (ErrL7InvalidRequest "invalid compressed request body")
          | Some first =>
              match first (c_MaxBodyBytes cfg + 1) with
              | None => inl (ErrL7InvalidRequest "compressed request decode failed")
              | Some decoded =>
                  if c_MaxBodyBytes cfg <? slen decoded then inl (ErrL7ResourceLimit "decoded request body exceeds budget")
                  else inr decoded
              end
          end
    | _ => inl (ErrL7InvalidRequest "multiple content-encoding headers")
    end.

(** ** [normalizeRaw] *)

(** The checks on the request line and the peer, before headers and body. *)
Definition request_line (cfg : L7Config) (req : L7InspectionRequest) (body : string)
  : goerror + (string * string * string * string * request_uri * ip) :=
  if negb (ir_Version req =? l7ProtocolVersion) then inl (ErrL7InvalidRequest "unsupported protocol version")
  else if c_MaxBodyBytes cfg <? slen body then inl (ErrL7ResourceLimit "body exceeds budget")
  else
    let method := ToUpper (TrimSpace (ir_Method req)) in
    if negb (isHTTPToken method 32) then inl (ErrL7InvalidRequest "invalid method")
    else
      let scheme := ToLower (TrimSpace (ir_Scheme req)) in
      let scheme := if bool_decide (scheme = "") then "https" else scheme in
      if negb (bool_decide (scheme ∈ ["http"; "https"])) then inl (ErrL7InvalidRequest "invalid scheme")
      else
        match normalizeL7Host (ir_Host req) with
        | inl e => inl e
        | inr host =>
            let uri := TrimSpace (ir_URI req) in
            if bool_decide (uri = "") || (c_MaxURIBytes cfg <? slen uri) || ContainsAny uri nul
            then inl (ErrL7InvalidRequest "invalid uri")
            else if negb (bool_decide (uri = "*")) && negb (HasPrefix uri "/")
            then inl (ErrL7InvalidRequest "request uri must use origin-form")
            else if bool_decide (uri = "*") && negb (bool_decide (method = "OPTIONS"))
            then inl (ErrL7InvalidRequest "asterisk-form is only valid for OPTIONS")
            else
              match url_ParseRequestURI uri with
              | None => inl (ErrL7InvalidRequest "malformed request uri")
              | Some parsed =>
                  if ru_IsAbs parsed then inl (ErrL7InvalidRequest "malformed request uri")
                  else
                    match ParseIP (TrimSpace (ir_RemoteIP req)) with
                    | None => inl (ErrL7InvalidRequest "invalid remote ip")
                    | Some remote =>
                        if IsUnspecified remote then inl (ErrL7InvalidRequest "invalid remote ip")
                        else if (ir_ServerPID req <? 0) || (1073741824 <? ir_ServerPID req)
                        then inl (ErrL7InvalidRequest "invalid server pid")
                        else inr (method, scheme, host, uri, parsed, remote)
                    end
              end
        end.

(** The identifier of the request; [drawn] is what [newL7RequestID] yields. *)
Definition request_id (req : L7InspectionRequest) (drawn : goerror + string) : goerror + string :=
  let id := TrimSpace (ir_RequestID req) in
  if bool_decide (id = "") then drawn
  else if requestIDPattern id then inr id else inl (ErrL7InvalidRequest "invalid request id").

Definition inspected_headers : list string := ["user-agent"; "referer"; "x-forwarded-host"; "x-original-uri"].
Definition add_headers (cfg : L7Config) (headers : gmap string (list string)) (out : collected) : collected :=
  fold_left (fun out name => add_all cfg ("header." +:+ name) (values_of headers name) out) inspected_headers out.

(** The candidates of one request. *)
Definition collect (cfg : L7Config) (rawPath ratePath rawQuery : string) (headers : gmap string (list string))
    (contentType body : string) : goerror + collected :=
  let out := mkCollected [] 0 false in
  let out := addCandidate cfg "uri.path" rawPath out in
  let out := if bool_decide (ratePath = rawPath) then out else addCandidate cfg "uri.path.canonical" ratePath out in
  let queried := if bool_decide (rawQuery = "") then inr out
                 else addQueryCandidates cfg rawQuery (addCandidate cfg "uri.query.raw" rawQuery out) in
  match queried with
  | inl e => inl e
  | inr out =>
      let out := add_headers cfg headers out in
      if bool_decide (body = "") then inr out
      else addBodyCandidates cfg contentType (values_of headers "content-type") body out
  end.

Definition normalizeRaw (snapshot : L7Config) (drawn : goerror + string) (req : L7InspectionRequest) (body : string)
  : goerror + l7NormalizedRequest :=
  let cfg := snapshot in
  match request_line cfg req body with
  | inl e => inl e
  | inr (method, scheme, host, uri, parsed, remote) =>
      match request_id req drawn with
      | inl e => inl e
      | inr id =>
          match normalizeHeaders cfg (ir_Headers req) with
          | inl e => inl e
          | inr (headers, contentType) =>
              match decodeContentEncoding cfg body (values_of headers "content-encoding") with
              | inl e => inl e
              | inr body =>
                  let digest := if bool_decide (body = "") then "" else hex_EncodeToString (sha256_Sum body) in
                  let rawPath := if bool_decide (uri = "*") then "*" else ru_EscapedPath parsed in
                  let ratePath := canonicalL7RoutePath (ru_Path parsed) (bool_decide (uri = "*")) in
                  match collect cfg rawPath ratePath (ru_RawQuery parsed) headers contentType body with
                  | inl e => inl e
                  | inr out =>
                      if co_Exceeded out then inl (ErrL7ResourceLimit "inspection candidate budget exhausted")
                      else inr (mkNormalized id method scheme host rawPath ratePath (IP_String remote) headers body digest
                                  contentType (co_Candidates out) (co_Bytes out) (co_Exceeded out) (ir_ServerPID req)
                                  (safeProcessName (ir_ServerProcess req)))
                  end
              end
          end
      end
  end.
End Normalizer.
