(* ===== verification/L7NormalizeFacts.v ===== *)
(** * The normalizer keeps its budgets and hides nothing

    What the candidates of a request (src/control/l7_candidates.go) are: within
    every budget of the configuration, and, unless the request is refused for
    its size, covering every window of every text of the request together with
    everything the decoders make of it. *)

From Stdlib Require Import ZArith Lia Ascii String.
From stdpp Require Import base gmap strings list sorting.
From S2P Require Import Prelude.
From S2P Require Import GoLib.
From S2P Require Import Strconv.
From S2P Require Import Text.
From S2P Require Import Storage.
From S2P Require Import NetIP.
From S2P Require Import RateLimit.
From S2P Require Import L7Settings.
From S2P Require Import L7Engine.
From S2P Require Import L7Decode.
From S2P Require Import L7DecodeFacts.
From S2P Require Import L7Normalize.

(** An entity is not shorter than the text it stands for, and stands for some
    text (the property the tests of package html check of its table). *)
Class HTMLLaws (HE : HTMLEntities) := {
  html_shrinks s : slen (html_UnescapeString s) <= slen s;
  html_nonempty s : html_UnescapeString s = "" -> s = "";
}.

Section Candidates.
Context `{U : Unicode} `{HE : HTMLEntities} `{C : Crypto} `{PR : Parsers}.
Context (cfg : L7Config).
Implicit Types (out : collected).

(** ** Budgets *)

Definition total (cs : list l7Candidate) : Z := fold_right (fun c n => slen (ca_Value c) + n) 0 cs.
Lemma total_app cs ds : total (cs ++ ds) = total cs + total ds.
Proof. unfold total. induction cs as [|c cs IH]; cbn; [done|]. rewrite IH. lia. Qed.

Record within out : Prop := {
  wi_count : count out <= Z.max 0 (c_MaxDecodedValues cfg);
  wi_sum : co_Bytes out = total (co_Candidates out);
  wi_bytes : co_Bytes out <= Z.max 0 (c_MaxInspectionBytes cfg);
  wi_each : Forall (fun c => ca_Value c <> "" /\ slen (ca_Value c) <= c_MaxValueBytes cfg /\
                     0 <= ca_Depth c <= Z.max 0 (c_MaxDecodeDepth cfg)) (co_Candidates out);
}.

(** Candidates are only added, and an exceeded budget stays so. *)
Definition grows out out' : Prop := co_Candidates out `prefix_of` co_Candidates out' /\
  (co_Exceeded out = true -> co_Exceeded out' = true).
#[export] Instance grows_preorder : PreOrder grows.
Proof. split; [by split|]. intros a b c [H1 H2] [H3 H4]. split; [by etransitivity|auto]. Qed.

Definition keeps out out' : Prop := grows out out' /\ (within out -> within out').
#[export] Instance keeps_preorder : PreOrder keeps.
Proof. split; [by split|]. intros a b c [H1 H2] [H3 H4]. split; [by etransitivity|auto]. Qed.

Lemma exceed_keeps out : keeps out (exceed out).
Proof. split; [split; [done|done]|]. intros []. by constructor. Qed.

Lemma truncate_bound v m : truncateUTF8 v m <> "" -> slen (truncateUTF8 v m) <= m.
Proof.
  intros Hn. destruct (Z.leb_spec m 0) as [Hm|Hm]; [|by apply truncate_length].
  unfold truncateUTF8 in Hn. rewrite (proj2 (Z.leb_le m 0) Hm) in Hn. done.
Qed.

Lemma append_keeps location v d out : 0 <= d <= Z.max 0 (c_MaxDecodeDepth cfg) -> keeps out (appendCandidate cfg location v d out).2.
Proof.
  intros Hd. unfold appendCandidate. case_bool_decide; [done|]. destruct (Z.leb_spec (c_MaxDecodedValues cfg) (count out)); [apply exceed_keeps|].
  case_bool_decide as Ht; [done|]. destruct (Z.ltb_spec (c_MaxInspectionBytes cfg - co_Bytes out) (slen (truncateUTF8 v (c_MaxValueBytes cfg)))); [apply exceed_keeps|].
  cbn [snd]. split; [split; [by eexists|done]|]. intros [W1 W2 W3 W4]. constructor; cbn.
  - unfold count in *. cbn. rewrite length_app. cbn. lia.
  - rewrite total_app, W2. cbn. lia.
  - lia.
  - apply Forall_app. split; [done|]. constructor; [|constructor]. split_and!; [done|by apply truncate_bound|cbn; lia|cbn; lia].
Qed.

Lemma layers_keeps location layers out : Forall (fun l => 0 <= ly_Depth l <= Z.max 0 (c_MaxDecodeDepth cfg)) layers ->
  keeps out (append_layers cfg location layers out).
Proof.
  intros H. revert out. induction H as [|l layers Hl H IH]; intros out; cbn [append_layers]; [done|].
  pose proof (append_keeps (location +:+ ly_Label l) (ly_Value l) _ out Hl) as HK.
  destruct (appendCandidate _ _ _ _ _) as [[] out1]; [|done]. by transitivity out1.
Qed.

Lemma chunk_keeps location v out : keeps out (addCandidateChunk cfg location v out).
Proof.
  unfold addCandidateChunk. case_bool_decide; [done|]. destruct (negb _) eqn:Hb; [apply exceed_keeps|]. case_bool_decide as Ht; [done|].
  set (cn := canonicalize _ _ _). pose proof (append_keeps location cn 0 out) as HK. destruct (appendCandidate cfg location cn 0 out) as [ok out1] eqn:Ha.
  cbn [snd] in HK. destruct ok; [|apply HK; lia]. transitivity out1; [apply HK; lia|].
  destruct (expandL7DecodedLayers _ _ _ _) as [[layers []]|] eqn:Hx; [apply exceed_keeps| |apply exceed_keeps].
  apply layers_keeps. destruct (Z.ltb_spec (c_MaxDecodeDepth cfg) 1) as [Hd|Hd].
  { unfold expandL7DecodedLayers in Hx. rewrite (proj2 (Z.ltb_lt _ _) Hd) in Hx. injection Hx as <-. constructor. }
  assert (0 < c_MaxValueBytes cfg). { destruct (Z.leb_spec (c_MaxValueBytes cfg) 0) as [Hm|]; [|lia]. unfold truncateUTF8 in Ht. by rewrite (proj2 (Z.leb_le _ _) Hm) in Ht. }
  assert (cn <> "") as Hcn. { intros Hc. unfold appendCandidate in Ha. rewrite Hc in Ha. done. }
  assert (1 <= c_MaxDecodedValues cfg).
  { apply negb_false_iff in Hb. unfold budget_left, count in Hb. rewrite negb_true_iff, orb_false_iff, Z.leb_gt in Hb. lia. }
  apply expansion_facts in Hx as (_ & HS & _); [|lia|lia|destruct (Z.ltb_spec 256 (c_MaxDecodedValues cfg)); lia|done].
  eapply Forall_impl; [exact HS|]. cbn. intros l [Hl _]. lia.
Qed.

Lemma chunks_keeps fuel location value start out : keeps out (add_chunks fuel cfg location value start out).
Proof.
  revert start out. induction fuel as [|fuel IH]; intros start out; cbn [add_chunks]; [done|]. destruct (_ <=? _)%nat; [done|].
  destruct (negb _); [apply exceed_keeps|]. case_bool_decide; [apply exceed_keeps|].
  transitivity (addCandidateChunk cfg location (truncateUTF8 (of_bytes (drop start value)) (c_MaxValueBytes cfg)) out); [apply chunk_keeps|].
  destruct (co_Exceeded _); [done|]. destruct (_ <=? _)%nat; [done|apply IH].
Qed.
Lemma addCandidate_keeps location v out : keeps out (addCandidate cfg location v out).
Proof.
  unfold addCandidate. case_bool_decide; [done|]. destruct (negb _); [apply exceed_keeps|].
  destruct (slen _ <=? _); [apply chunk_keeps|apply chunks_keeps].
Qed.
Lemma add_all_keeps location vs out : keeps out (add_all cfg location vs out).
Proof. unfold add_all. revert out. induction vs as [|v vs IH]; intros out; cbn; [done|]. etransitivity; [apply addCandidate_keeps|apply IH]. Qed.
Lemma windows_keeps fuel location rest out : keeps out (add_windows fuel cfg location rest out).
Proof.
  revert rest out. induction fuel as [|fuel IH]; intros rest out; cbn [add_windows]; [done|]. destruct rest as [|c rest]; [done|].
  set (out1 := addCandidate _ _ _ _). assert (keeps out out1) as HK by apply addCandidate_keeps. destruct (co_Exceeded out1); [done|].
  destruct (_ <=? _)%nat; [done|]. transitivity out1; [done|apply IH].
Qed.

(** ** Completeness *)

Section Complete.
Context `{HL : !HTMLLaws HE} (Hvalue : 16 <= c_MaxValueBytes cfg) (Hdepth : 1 <= c_MaxDecodeDepth cfg).
Abbreviation maxV := (c_MaxValueBytes cfg).

(** The canonical form of a chunk. *)
Definition canonical_of (c : string) : string := canonicalize (Z.to_nat (c_MaxDecodeDepth cfg)) maxV c.

(** The detectors get the chunk and everything the decoders make of it. *)
Definition inspected (c : string) out : Prop := forall k t, (k <= Z.to_nat (c_MaxDecodeDepth cfg))%nat ->
  reach maxV k (canonical_of c) t -> t ∈ map ca_Value (co_Candidates out).

Lemma inspected_grows c out out' : grows out out' -> inspected c out -> inspected c out'.
Proof. intros [[more Hm] _] H k t Hk Hr. rewrite Hm, map_app. apply elem_of_app. left. by eapply H. Qed.

Lemma unescape_size l r : path_unescape l = Some r -> (length r <= length l)%nat /\ (r = [] -> l = []).
Proof.
  revert l r. refine (fix go l r := _). destruct l as [|c l1]; cbn [path_unescape]; [intros [= <-]; done|].
  destruct (Ascii.eqb c "%").
  - destruct l1 as [|a [|b l2]]; try done. destruct (hex_value a), (hex_value b); try done. intros H.
    apply fmap_Some in H as (r' & H & ->). apply go in H as [H _]. cbn. split; [lia|done].
  - intros H. apply fmap_Some in H as (r' & H & ->). apply go in H as [H _]. cbn. split; [lia|done].
Qed.
Lemma PathUnescape_size s t : PathUnescape s = Some t -> slen t <= slen s /\ (t = "" -> s = "").
Proof.
  unfold PathUnescape. intros H. apply fmap_Some in H as (r & H & ->). apply unescape_size in H as [H1 H2]. rewrite slen_of_bytes. split.
  - rewrite length_bytes_of in H1. unfold slen. lia.
  - intros Hr. destruct r; [|done]. specialize (H2 eq_refl). by destruct s.
Qed.

Lemma canonicalize_size n c : c <> "" -> slen c <= maxV -> canonicalize n maxV c <> "" /\ slen (canonicalize n maxV c) <= maxV.
Proof.
  revert c. induction n as [|n IH]; intros c Hc Hl; cbn [canonicalize]; [done|].
  set (d := match PathUnescape c with Some v => v | None => c end).
  assert (d <> "" /\ slen d <= slen c) as [Hd Hdl].
  { unfold d. destruct (PathUnescape c) as [t|] eqn:Ht; [|done]. apply PathUnescape_size in Ht as [? ?]. split; [auto|done]. }
  pose proof (html_shrinks d) as Hh. assert (html_UnescapeString d <> "") as Hhn by (intros ?%html_nonempty; done).
  assert (truncateUTF8 (html_UnescapeString d) maxV = html_UnescapeString d) as ->.
  { unfold truncateUTF8. rewrite (proj2 (Z.leb_gt _ _)) by lia. by rewrite (proj2 (Z.leb_le _ _)) by lia. }
  case_bool_decide; [done|]. apply IH; [done|lia].
Qed.

Lemma truncate_id v : slen v <= maxV -> truncateUTF8 v maxV = v.
Proof. intros H. unfold truncateUTF8. rewrite (proj2 (Z.leb_gt _ _)) by lia. by rewrite (proj2 (Z.leb_le _ _)). Qed.

(** A text that fits is added, or the budget is exceeded. *)
Lemma append_adds location v d out ok out' : v <> "" -> slen v <= maxV -> appendCandidate cfg location v d out = (ok, out') ->
  co_Exceeded out' = false -> ok = true /\ v ∈ map ca_Value (co_Candidates out') /\ grows out out'.
Proof.
  intros Hv Hl. unfold appendCandidate. rewrite bool_decide_eq_false_2, truncate_id by done. intros H He.
  destruct (_ <=? _); [injection H as <- <-; done|]. rewrite bool_decide_eq_false_2 in H by done. destruct (_ <? _); injection H as <- <-; [done|].
  split_and!; [done| |split; [by eexists|done]]. cbn. rewrite map_app. apply elem_of_app. right. left.
Qed.
Lemma layers_grow location layers out : grows out (append_layers cfg location layers out).
Proof.
  revert out. induction layers as [|l layers IH]; intros out; cbn [append_layers]; [done|].
  assert (grows out (appendCandidate cfg (location +:+ ly_Label l) (ly_Value l) (ly_Depth l) out).2) as HG.
  { unfold appendCandidate. repeat (case_bool_decide || case_match); cbn; (split; [|done]); first [done|by eexists]. }
  destruct (appendCandidate _ _ _ _ _) as [[] out1]; [|done]. by transitivity out1.
Qed.
Lemma layers_added location layers out : Forall (fun l => ly_Value l <> "" /\ slen (ly_Value l) <= maxV) layers ->
  co_Exceeded (append_layers cfg location layers out) = false ->
  forall l, l ∈ layers -> ly_Value l ∈ map ca_Value (co_Candidates (append_layers cfg location layers out)).
Proof.
  intros H. revert out. induction H as [|l layers [Hn Hl] H IH]; intros out; cbn [append_layers]; [by intros _ l ?%not_elem_of_nil|].
  destruct (appendCandidate _ _ _ _ _) as [ok out1] eqn:Ha. intros He.
  pose proof (layers_grow location layers out1) as [[more Hm] Hg].
  assert (co_Exceeded out1 = false) as He1. { destruct ok; [|done]. destruct (co_Exceeded out1); [|done]. by rewrite Hg in He. }
  apply append_adds in Ha as (-> & Hin & _); [|done..]. intros l' [->|Hl']%elem_of_cons; [|by apply IH].
  rewrite Hm, map_app. apply elem_of_app. by left.
Qed.

Lemma chunk_inspected location c out : c <> "" -> slen c <= maxV ->
  co_Exceeded (addCandidateChunk cfg location c out) = false -> inspected c (addCandidateChunk cfg location c out).
Proof.
  intros Hc Hl. unfold addCandidateChunk. rewrite bool_decide_eq_false_2 by done. destruct (negb _) eqn:Hb; [done|].
  rewrite truncate_id, bool_decide_eq_false_2 by done. fold (canonical_of c).
  destruct (canonicalize_size (Z.to_nat (c_MaxDecodeDepth cfg)) c Hc Hl) as [Hn Hs]. fold (canonical_of c) in Hn, Hs.
  destruct (appendCandidate cfg location (canonical_of c) 0 out) as [ok out1] eqn:Ha.
  assert (1 <= c_MaxDecodedValues cfg).
  { apply negb_false_iff in Hb. unfold budget_left, count in Hb. rewrite negb_true_iff, orb_false_iff, Z.leb_gt in Hb. lia. }
  set (lim := if 256 <? c_MaxDecodedValues cfg then 256 else c_MaxDecodedValues cfg).
  assert (1 <= lim) by (unfold lim; destruct (Z.ltb_spec 256 (c_MaxDecodedValues cfg)); lia).
  destruct ok.
  2: { intros He. apply append_adds in Ha as [? _]; done. }
  destruct (expandL7DecodedLayers (canonical_of c) _ _ lim) as [[layers [|]]|] eqn:Hx; [done| |done]. intros He.
  assert (co_Exceeded out1 = false) as He1.
  { destruct (layers_grow location layers out1) as [_ Hg]. destruct (co_Exceeded out1); [|done]. by rewrite Hg in He. }
  apply append_adds in Ha as (_ & Hin & _); [|done..].
  apply expansion_facts in Hx as (HC & HS & _); [|lia|lia|done|done]. intros k t Hk Hr.
  destruct (HC eq_refl k t Hk Hr) as [->|(l & Hll & <- & _)].
  - destruct (layers_grow location layers out1) as [[more ->] _]. rewrite map_app. apply elem_of_app. by left.
  - apply layers_added; [|done|done]. eapply Forall_impl; [exact HS|]. cbn. intros l' (_ & _ & Ha').
    apply accept_short in Ha'; [done|lia].
Qed.

(** *** Long values *)

Lemma chunk_spec l : text l -> l <> [] -> let c := truncateUTF8 (of_bytes l) maxV in exists n : nat,
  c = of_bytes (take n l) /\ String.length c = n /\ Z.of_nat n <= maxV /\ (n = length l \/ maxV - 3 <= Z.of_nat n < Z.of_nat (length l)) /\
  (1 <= n)%nat /\ text (drop n l).
Proof.
  intros Ht Hl c. assert (0 < length l)%nat by (destruct l; [done|cbn; lia]). unfold c, truncateUTF8. rewrite slen_of_bytes, (proj2 (Z.leb_gt _ _)) by lia.
  destruct (Z.leb_spec (Z.of_nat (length l)) maxV).
  - exists (length l). rewrite take_ge, drop_ge by lia. split_and!; [done|by rewrite <- length_bytes_of, bytes_of_of|lia|by left|lia|by exists []].
  - rewrite bytes_of_of. destruct (truncate_text l (Z.to_nat maxV) Ht) as (l1 & l2 & -> & H1 & H2 & -> & H3 & H4); [lia|].
    rewrite length_app in *. exists (length l1). rewrite take_app_length, drop_app_length.
    split_and!; [done|by rewrite <- length_bytes_of, bytes_of_of|lia|right; lia|lia|done].
Qed.

(** A window this long never falls between two chunks. *)
Definition window : nat := Z.to_nat (Z.min 256 ((maxV - 3) / 2) - 3).

Lemma add_chunks_covers fuel location value start out : text value -> text (drop start value) -> (length value < fuel + start)%nat ->
  co_Exceeded (add_chunks fuel cfg location value start out) = false ->
  forall i w, (start <= i)%nat -> (i + w <= length value)%nat -> (1 <= w <= window)%nat ->
  exists s n, (s <= i)%nat /\ (i + w <= s + n)%nat /\ Z.of_nat n <= maxV /\ inspected (of_bytes (take n (drop s value))) (add_chunks fuel cfg location value start out).
Proof.
  intros Hv. revert start out. induction fuel as [|fuel IH]; intros start out Hs Hf He i w Hi Hw Hwin; [lia|].
  cbn [add_chunks] in *. destruct (Nat.leb_spec (length value) start); [lia|]. destruct (negb _); [done|].
  destruct (chunk_spec (drop start value) Hs) as (n & Hc & Hn & Hmax & Hend & Hpos & Htail).
  { intros Hd. apply (f_equal length) in Hd. rewrite length_drop in Hd. cbn in Hd. lia. }
  set (c := truncateUTF8 (of_bytes (drop start value)) maxV) in *.
  assert (c <> "") as Hcn by (intros Hce; rewrite Hce in Hn; cbn in Hn; lia).
  rewrite bool_decide_eq_false_2 in * by done. rewrite Hn in *. rewrite length_drop in Hend. rewrite drop_drop in Htail.
  set (out1 := addCandidateChunk cfg location c out) in *. destruct (co_Exceeded out1) eqn:He1; [congruence|].
  assert (inspected c out1) as Hin by (apply chunk_inspected; [done|unfold slen; lia|exact He1]). rewrite Hc in Hin.
  destruct (Nat.leb_spec (length value) (start + n)).
  { exists start, n. split_and!; [done|lia|done|done]. }
  assert (inspected (of_bytes (take n (drop start value))) (add_chunks fuel cfg location value (next_start value start n) out1)) as Hin'.
  { eapply inspected_grows; [|exact Hin]. apply chunks_keeps. }
  unfold next_start in *. set (ov := Nat.min 256 (n / 2)) in *.
  assert (ov <= n / 2 /\ n / 2 < n)%nat as [Ho1 Ho2] by (split; [unfold ov; lia|apply Nat.div_lt; lia]).
  destruct (next_boundary value (start + n - ov) Hv) as (Hk & l1 & l2 & Hl & Hl1 & _ & Hl2); [lia|].
  set (next := (start + n - ov + leading continuation (drop (start + n - ov) value))%nat) in *.
  destruct (Nat.leb_spec next start); [unfold next in *; lia|].
  destruct (decide (i < next)%nat) as [Hlt|Hge].
  - exists start, n. split_and!; [done| |done|done]. assert (window + 3 <= ov)%nat; [|unfold next in *; lia].
    assert (maxV - 3 <= Z.of_nat n) by lia. unfold window, ov.
    assert (Z.of_nat (n / 2) = Z.of_nat n / 2) as Hdiv by (by rewrite Nat2Z.inj_div).
    pose proof (Z.div_le_mono (maxV - 3) (Z.of_nat n) 2 ltac:(lia) ltac:(lia)) as Hle. revert Hdiv Hle.
    generalize (n / 2)%nat as h. generalize (Z.of_nat n / 2) as z. assert (3 <= (maxV - 3) / 2) as H3 by (apply Z.div_le_lower_bound; lia).
    revert H3. generalize ((maxV - 3) / 2) as q. lia.
  - apply IH; [|lia|exact He|lia|lia|lia]. rewrite Hl, <- Hl1, drop_app_length. done.
Qed.

(** *** Whole values *)

Lemma to_valid_text fuel b l : text (to_valid fuel b l).
Proof.
  revert b l. induction fuel as [|fuel IH]; intros b l; cbn [to_valid]; [by exists []|]. destruct l as [|c l']; [by exists []|].
  destruct (rune_len (c :: l')) as [|n] eqn:Hn.
  - apply text_app; [|apply IH]. destruct b; [by exists []|]. exists [[" "%char]]. split; [|done]. constructor; [by apply rune1|constructor].
  - apply text_app; [|apply IH]. exists [take (S n) (c :: l')]. split; [|cbn [concat]; by rewrite app_nil_r].
    constructor; [by apply rune_len_rune|constructor].
Qed.

(** Every window of the repaired value is part of an inspected chunk that fits
    the value budget. *)
Definition covered (v : string) out : Prop := let l := bytes_of (ToValidUTF8 v) in
  forall i w, (i + w <= length l)%nat -> (1 <= w <= window)%nat ->
  exists s n, (s <= i)%nat /\ (i + w <= s + n)%nat /\ Z.of_nat n <= maxV /\ inspected (of_bytes (take n (drop s l))) out.
Lemma covered_grows v out out' : grows out out' -> covered v out -> covered v out'.
Proof. intros HG H i w Hi Hw. destruct (H i w Hi Hw) as (s & n & ? & ? & ? & ?). exists s, n. split_and!; [done|done|done|by eapply inspected_grows]. Qed.

Lemma addCandidate_covers location v out : co_Exceeded (addCandidate cfg location v out) = false ->
  covered v (addCandidate cfg location v out).
Proof.
  unfold addCandidate. case_bool_decide as Hv; [subst v; intros _ i w Hi Hw; cbn in Hi; lia|]. destruct (negb _); [done|].
  unfold covered. set (l := bytes_of (ToValidUTF8 v)). destruct (Z.leb_spec (slen (ToValidUTF8 v)) maxV) as [Hl|Hl]; intros He i w Hi Hw.
  - exists 0%nat, (length l). split_and!; [lia|lia|unfold slen in Hl; rewrite <- length_bytes_of in Hl; exact Hl|]. rewrite drop_0, take_ge by lia. unfold l. rewrite of_bytes_of.
    apply chunk_inspected; [|done|done]. intros Hn. unfold l in Hi. rewrite Hn in Hi. cbn in Hi. lia.
  - apply add_chunks_covers; [| | |done|lia|lia|lia]; unfold l, ToValidUTF8; rewrite ?bytes_of_of, ?drop_0.
    + apply to_valid_text.
    + apply to_valid_text.
    + rewrite <- (length_bytes_of (of_bytes _)), bytes_of_of. lia.
Qed.

(** [fills vs]: the values [vs] were handed over. *)
Definition fills (vs : list string) out out' : Prop := grows out out' /\ (co_Exceeded out' = false -> Forall (fun v => covered v out') vs).
Lemma fills_nil out : fills [] out out.
Proof. split; [done|constructor]. Qed.
Lemma fills_app vs ws a b c : fills vs a b -> fills ws b c -> fills (vs ++ ws) a c.
Proof.
  intros [H1 H2] [H3 H4]. split; [by transitivity b|]. intros He. apply Forall_app. split; [|by apply H4].
  assert (co_Exceeded b = false) as Hb. { destruct (co_Exceeded b) eqn:E; [|done]. by rewrite (proj2 H3 E) in He. }
  eapply Forall_impl; [by apply H2|]. intros v. by apply covered_grows.
Qed.
Lemma add_fills location v out : fills [v] out (addCandidate cfg location v out).
Proof. split; [apply addCandidate_keeps|]. intros He. constructor; [by apply addCandidate_covers|constructor]. Qed.
Lemma add_all_fills location vs out : fills vs out (add_all cfg location vs out).
Proof.
  unfold add_all. revert out. induction vs as [|v vs IH]; intros out; cbn; [apply fills_nil|].
  eapply (fills_app [v]); [apply add_fills|apply IH].
Qed.
End Complete.
End Candidates.
