(* ===== verification/L7NormalizeSafety.v ===== *)
(** * One normalized request

    The theorems about [normalizeRaw] (src/control/l7_normalize.go): budgets,
    completeness of the candidates, the headers that pass, the route. *)

From Stdlib Require Import ZArith Lia Ascii String.
From stdpp Require Import base gmap strings list sorting.
From S2P Require Import Prelude.
From S2P Require Import GoLib.
From S2P Require Import Strconv.
From S2P Require Import Text.
From S2P Require Import Paths.
From S2P Require Import Storage.
From S2P Require Import Instances.
From S2P Require Import RateLimit.
From S2P Require Import LimitsWitness.
From S2P Require Import L7Settings.
From S2P Require Import L7SettingsFacts.
From S2P Require Import L7Engine.
From S2P Require Import NetIP.
From S2P Require Import L7Decode.
From S2P Require Import L7DecodeFacts.
From S2P Require Import L7Normalize.
From S2P Require Import L7NormalizeFacts.

(** ** The texts of a request the detectors must see *)

Section Texts.
Context `{U : Unicode} `{HE : HTMLEntities} `{C : Crypto} `{PR : Parsers}.

Definition pair_texts (raw : string) : list string :=
  match url_ParseQuery raw with Some es => flat_map (fun g => g.1 :: g.2) (grouped es) | None => [] end.
Fixpoint window_texts (fuel : nat) (rest : list ascii) : list string :=
  match fuel, rest with
  | S fuel, _ :: _ =>
      ToValidUTF8 (of_bytes (take chunkSize rest)) ::
      (if (length rest <=? chunkSize)%nat then [] else window_texts fuel (drop (chunkSize - 256) rest))
  | _, _ => []
  end.
Definition token_texts (ts : list json_token) : list string := omap (fun t => match t with StringToken s => Some s | _ => None end) ts.
Definition part_texts (ps : list multipart_part) : list string :=
  omap (fun p => if bool_decide (mp_FileName p = "") then ToValidUTF8 <$> mp_data p else None) ps.

(** The texts of a body, by its media type. Uploaded files and bodies that are
    mostly not text have none. *)
Definition body_texts (contentType : string) (contentTypes : list string) (body : string) : list string :=
  if isL7JSONMediaType contentType then token_texts (json_tokens body).1
  else if bool_decide (contentType = "application/x-www-form-urlencoded") then pair_texts body
  else if isL7XMLMediaType contentType then window_texts (String.length body) (bytes_of body)
  else if bool_decide (contentType = "multipart/form-data") then
    match contentTypes with
    | [ct] => part_texts (multipart_parts (match mime_ParseMediaType ct with
                                           | Some (_, params) => from_option id "" (params !! "boundary")
                                           | None => "" end) body).1
    | _ => []
    end
  else if isMostlyText (bytes_of body) then window_texts (String.length body) (bytes_of body) else [].

Definition texts (rawPath ratePath rawQuery : string) (headers : gmap string (list string)) (contentType body : string)
  : list string :=
  [rawPath; ratePath] ++ (if bool_decide (rawQuery = "") then [] else rawQuery :: pair_texts rawQuery) ++
  flat_map (values_of headers) inspected_headers ++
  (if bool_decide (body = "") then [] else body_texts contentType (values_of headers "content-type") body).
End Texts.

Section Request.
Context `{U : Unicode} `{HE : HTMLEntities} `{C : Crypto} `{PR : Parsers}.
Context (cfg : L7Config).
Implicit Types (out : collected).

(** ** Every part of the normalizer keeps the budgets and hands its texts over *)

(** What a part of the normalizer that may refuse does. *)
Definition handles (vs : list string) out (r : goerror + collected) : Prop := forall out', r = inr out' ->
  keeps cfg out out' /\
  (HTMLLaws HE -> 16 <= c_MaxValueBytes cfg -> 1 <= c_MaxDecodeDepth cfg -> fills cfg vs out out').

Lemma handles_nil out : handles [] out (inr out).
Proof. intros ? [= <-]. split; [done|]. intros. apply fills_nil. Qed.
Lemma handles_err vs out e : handles vs out (inl e).
Proof. by intros ? [=]. Qed.
Lemma handles_exceeded vs out out1 : keeps cfg out out1 -> co_Exceeded out1 = true -> handles vs out (inr out1).
Proof. intros HK He ? [= <-]. split; [done|]. intros. split; [apply HK|by rewrite He]. Qed.
Lemma handles_then vs ws out out1 r : (keeps cfg out out1 /\
    (HTMLLaws HE -> 16 <= c_MaxValueBytes cfg -> 1 <= c_MaxDecodeDepth cfg -> fills cfg vs out out1)) ->
  handles ws out1 r -> handles (vs ++ ws) out r.
Proof.
  intros [K1 F1] H out' Hr. destruct (H out' Hr) as [K2 F2]. split; [by transitivity out1|]. intros HL Hv Hd. eapply fills_app; auto.
Qed.
Lemma add_handles location v out : keeps cfg out (addCandidate cfg location v out) /\
  (HTMLLaws HE -> 16 <= c_MaxValueBytes cfg -> 1 <= c_MaxDecodeDepth cfg -> fills cfg [v] out (addCandidate cfg location v out)).
Proof. split; [apply addCandidate_keeps|]. intros. by apply add_fills. Qed.
Lemma add_all_handles location vs out : keeps cfg out (add_all cfg location vs out) /\
  (HTMLLaws HE -> 16 <= c_MaxValueBytes cfg -> 1 <= c_MaxDecodeDepth cfg -> fills cfg vs out (add_all cfg location vs out)).
Proof. split; [apply add_all_keeps|]. intros. by apply add_all_fills. Qed.

Lemma groups_handle keys fields what gs out :
  handles (flat_map (fun g => g.1 :: g.2) gs) out (add_groups cfg keys fields what gs out).
Proof.
  revert out. induction gs as [|[k es] gs IH]; intros out; cbn [add_groups flat_map fst snd]; [apply handles_nil|].
  destruct (32 <? _); [apply handles_err|]. change ((k :: es) ++ ?x) with ([k] ++ (es ++ x)).
  eapply handles_then; [apply add_handles|]. eapply handles_then; [apply add_all_handles|apply IH].
Qed.
Lemma pairs_handle keys fields what malformed raw out : handles (pair_texts raw) out (add_pairs cfg keys fields what malformed raw out).
Proof.
  unfold add_pairs, pair_texts. destruct (negb _); [apply handles_err|]. destruct (url_ParseQuery raw); [|apply handles_err].
  destruct (_ <? _); [apply handles_err|]. destruct (_ <? _); [apply handles_err|apply groups_handle].
Qed.
Lemma tokens_handle ts ended d v t out : handles (token_texts ts) out (add_tokens cfg ts ended d v t out).
Proof.
  revert d v t out. induction ts as [|x ts IH]; intros d v t out; cbn [add_tokens].
  { destruct (negb ended); [apply handles_err|]. destruct (negb _); [apply handles_err|apply handles_nil]. }
  destruct (_ <? _); [apply handles_err|]. destruct x as [| |s|]; [| | |apply IH].
  - destruct (_ <? _); [apply handles_err|apply IH].
  - destruct (_ <? _); [apply handles_err|apply IH].
  - destruct (_ <? _); [apply handles_err|]. change (token_texts (StringToken s :: ts)) with ([s] ++ token_texts ts).
    eapply handles_then; [apply add_handles|apply IH].
Qed.
Lemma parts_handle ps ended n out : handles (part_texts ps) out (add_parts cfg ps ended n out).
Proof.
  revert n out. induction ps as [|p ps IH]; intros n out; cbn [add_parts]; [destruct ended; [apply handles_nil|apply handles_err]|].
  destruct (_ <? _); [apply handles_err|]. unfold part_texts. cbn [omap list_omap]. case_bool_decide as Hf; cbn [negb]; [|apply IH].
  destruct (mp_data p) as [v|]; [|apply handles_err]. destruct (_ <? _); [apply handles_err|]. cbn [fmap option_fmap option_map].
  change (ToValidUTF8 v :: ?x) with ([ToValidUTF8 v] ++ x). eapply handles_then; [apply add_handles|apply IH].
Qed.
Lemma windows_handle fuel location rest out : handles (window_texts fuel rest) out (inr (add_windows fuel cfg location rest out)).
Proof.
  revert rest out. induction fuel as [|fuel IH]; intros rest out; [apply handles_nil|]. destruct rest as [|c rest]; [apply handles_nil|].
  cbn [window_texts add_windows]. set (v := ToValidUTF8 _). set (out1 := addCandidate cfg location v out).
  pose proof (add_handles location v out) as HA. fold out1 in HA. destruct (co_Exceeded out1) eqn:He.
  { apply handles_exceeded; [apply HA|exact He]. }
  change (v :: ?x) with ([v] ++ x). eapply handles_then; [exact HA|]. destruct (_ <=? _)%nat; [apply handles_nil|apply IH].
Qed.
Lemma body_handles ct cts body out : handles (body_texts ct cts body) out (addBodyCandidates cfg ct cts body out).
Proof.
  unfold addBodyCandidates, body_texts. destruct (isL7JSONMediaType ct).
  { unfold addJSONCandidates. destruct (json_tokens body). apply tokens_handle. }
  case_bool_decide. { unfold addFormCandidates. destruct (_ <? _); [apply handles_err|apply pairs_handle]. }
  destruct (isL7XMLMediaType ct); [apply windows_handle|]. case_bool_decide.
  { unfold addMultipartCandidates. destruct cts as [|c [|]]; [apply handles_nil| |apply handles_nil].
    set (bd := match mime_ParseMediaType c with Some (_, params) => _ | None => "" end).
    destruct (_ || _); [apply handles_err|]. destruct (multipart_parts bd body). apply parts_handle. }
  destruct (isMostlyText _); [apply windows_handle|apply handles_nil].
Qed.

Lemma handles_value vs out out1 : handles vs out (inr out1) -> keeps cfg out out1 /\
  (HTMLLaws HE -> 16 <= c_MaxValueBytes cfg -> 1 <= c_MaxDecodeDepth cfg -> fills cfg vs out out1).
Proof. intros H. by apply H. Qed.

Lemma headers_handle headers out : handles (flat_map (values_of headers) inspected_headers) out (inr (add_headers cfg headers out)).
Proof.
  unfold add_headers. revert out. generalize inspected_headers as names. intros names. induction names as [|n names IH]; intros out; cbn; [apply handles_nil|].
  eapply handles_then; [apply add_all_handles|apply IH].
Qed.

Lemma paths_handle rawPath ratePath out : let out1 := addCandidate cfg "uri.path" rawPath out in
  handles [rawPath; ratePath] out (inr (if bool_decide (ratePath = rawPath) then out1 else addCandidate cfg "uri.path.canonical" ratePath out1)).
Proof.
  intros out1. case_bool_decide as Hp.
  - intros ? [= <-]. destruct (add_handles "uri.path" rawPath out) as [HK HF]. split; [done|]. intros HL Hv Hd.
    destruct (HF HL Hv Hd) as [HG HC]. split; [done|]. intros He. subst ratePath. change [rawPath; rawPath] with ([rawPath] ++ [rawPath]). apply Forall_app. split; exact (HC He).
  - change [rawPath; ratePath] with ([rawPath] ++ [ratePath]). eapply handles_then; [apply add_handles|].
    intros ? [= <-]. apply add_handles.
Qed.

Lemma collect_handles rawPath ratePath rawQuery headers ct body :
  handles (texts rawPath ratePath rawQuery headers ct body) (mkCollected [] 0 false) (collect cfg rawPath ratePath rawQuery headers ct body).
Proof.
  unfold collect, texts. set (out0 := mkCollected [] 0 false). cbv zeta.
  set (out1 := if bool_decide (ratePath = rawPath) then addCandidate cfg "uri.path" rawPath out0
               else addCandidate cfg "uri.path.canonical" ratePath (addCandidate cfg "uri.path" rawPath out0)).
  eapply (handles_then _ _ _ out1); [apply handles_value, paths_handle|]. generalize out1. clear out1 out0. intros out.
  assert (forall q, q = (if bool_decide (rawQuery = "") then inr out
      else addQueryCandidates cfg rawQuery (addCandidate cfg "uri.query.raw" rawQuery out)) ->
    handles (if bool_decide (rawQuery = "") then [] else rawQuery :: pair_texts rawQuery) out q) as HQ.
  { intros q ->. case_bool_decide; [apply handles_nil|]. change (rawQuery :: ?x) with ([rawQuery] ++ x).
    eapply handles_then; [apply add_handles|apply pairs_handle]. }
  destruct (if bool_decide (rawQuery = "") then _ else addQueryCandidates _ _ _) as [e|out2]; [apply handles_err|].
  eapply handles_then; [apply handles_value, HQ, eq_refl|].
  eapply handles_then; [apply handles_value, headers_handle|]. destruct (bool_decide (body = "")); [apply handles_nil|apply body_handles].
Qed.

Lemma within_none : within cfg (mkCollected [] 0 false).
Proof. constructor; try done; unfold count; cbn; lia. Qed.

(** The parts of a normalization that succeeded. *)
Lemma normalizeRaw_inv drawn req body r : normalizeRaw cfg drawn req body = inr r ->
  exists method scheme host uri parsed remote out, request_line cfg req body = inr (method, scheme, host, uri, parsed, remote) /\
    url_ParseRequestURI (TrimSpace (ir_URI req)) = Some parsed /\
    normalizeHeaders cfg (ir_Headers req) = inr (no_Headers r, no_ContentType r) /\
    decodeContentEncoding cfg body (values_of (no_Headers r) "content-encoding") = inr (no_Body r) /\
    no_RatePath r = canonicalL7RoutePath (ru_Path parsed) (bool_decide (uri = "*")) /\
    collect cfg (no_Path r) (no_RatePath r) (ru_RawQuery parsed) (no_Headers r) (no_ContentType r) (no_Body r) = inr out /\
    co_Exceeded out = false /\ no_Candidates r = co_Candidates out /\ no_CandidateBytes r = co_Bytes out.
Proof.
  unfold normalizeRaw. destruct (request_line cfg req body) as [e|[[[[[method scheme] host] uri] parsed] remote]] eqn:HR; [done|].
  destruct (request_id req drawn); [done|]. destruct (normalizeHeaders _ _) as [e|[headers ct]] eqn:HH; [done|].
  destruct (decodeContentEncoding _ _ _) as [e|body1] eqn:HB; [done|]. destruct (collect _ _ _ _ _ _ _) as [e|out] eqn:HC; [done|].
  destruct (co_Exceeded out) eqn:He; [done|]. intros [= <-]. exists method, scheme, host, uri, parsed, remote, out. cbn.
  split_and!; try done. unfold request_line in HR. clear HC. repeat (case_match; try done); by simplify_eq.
Qed.

(** The candidates of a request stay within every budget. A request that is
    normalized has at most the configured number of candidates, their sizes add
    up to the recorded number of bytes and stay within the inspection budget,
    and each is non-empty, fits the value budget and lies within the decode
    depth; and the budget flag is clear. *)
Theorem candidates_within_budget drawn req body r : normalizeRaw cfg drawn req body = inr r ->
  Z.of_nat (length (no_Candidates r)) <= Z.max 0 (c_MaxDecodedValues cfg) /\
  no_CandidateBytes r = total (no_Candidates r) /\ no_CandidateBytes r <= Z.max 0 (c_MaxInspectionBytes cfg) /\
  Forall (fun c => ca_Value c <> "" /\ slen (ca_Value c) <= c_MaxValueBytes cfg /\
            0 <= ca_Depth c <= Z.max 0 (c_MaxDecodeDepth cfg)) (no_Candidates r).
Proof.
  intros H. apply normalizeRaw_inv in H as (m & s & h & u & p & rm & out & _ & _ & _ & _ & _ & HC & He & Hc & Hb).
  destruct (collect_handles _ _ _ _ _ _ out HC) as [[_ HW] _]. rewrite Hc, Hb. destruct (HW (within_none)) as [W1 W2 W3 W4]. by split_and!.
Qed.

(** C13: nothing of a request is hidden from the detectors. A request whose
    texts do not all fit the budgets is refused; of one that is normalized,
    every window of every text (path, canonical path, query, query and form
    keys and values, inspected headers, JSON strings, multipart fields, text
    and XML bodies) lies in one chunk of at most the value budget whose
    canonical form is a candidate, together with every text that a chain of
    decoders within the decode depth makes of it. A window is
    at most 253 bytes, and shorter where the value budget is small. *)
Theorem nothing_hidden (HL : HTMLLaws HE) drawn req body r : 16 <= c_MaxValueBytes cfg -> 1 <= c_MaxDecodeDepth cfg ->
  normalizeRaw cfg drawn req body = inr r -> exists parsed, url_ParseRequestURI (TrimSpace (ir_URI req)) = Some parsed /\
  forall v, v ∈ texts (no_Path r) (no_RatePath r) (ru_RawQuery parsed) (no_Headers r) (no_ContentType r) (no_Body r) ->
  let l := bytes_of (ToValidUTF8 v) in forall i w, (i + w <= length l)%nat -> (1 <= w <= window cfg)%nat ->
  exists s n, (s <= i)%nat /\ (i + w <= s + n)%nat /\ Z.of_nat n <= c_MaxValueBytes cfg /\
    forall k t, (k <= Z.to_nat (c_MaxDecodeDepth cfg))%nat ->
      reach (c_MaxValueBytes cfg) k (canonical_of cfg (of_bytes (take n (drop s l)))) t -> t ∈ map ca_Value (no_Candidates r).
Proof.
  intros Hv Hd H. apply normalizeRaw_inv in H as (m & s & h & u & p & rm & out & _ & Hu & _ & _ & _ & HC & He & Hc & _).
  exists p. split; [done|]. destruct (collect_handles _ _ _ _ _ _ out HC) as [_ HF]. destruct (HF HL Hv Hd) as [_ HA].
  specialize (HA He). rewrite Forall_forall in HA. rewrite Hc. intros v Hin l i w Hi Hw. destruct (HA v Hin i w Hi Hw) as (st & n & H1 & H2 & Hb & H3).
  exists st, n. split_and!; [done|done|done|exact H3].
Qed.
End Request.

(** * Headers *)

Section Headers.
Context `{U : Unicode} `{PR : Parsers}.
Context (cfg : L7Config).
Implicit Types (hs : list L7Header) (headers : gmap string (list string)).

(** The name a header is filed under, and whether it is kept from the detectors. *)
Definition filed (h : L7Header) : string := ToLower (TrimSpace (h_Name h)).
Definition withheld (name : string) : bool := l7SensitiveHeader name || l7GatewayMetadataHeader name.
(** The values sent under [name], in order. *)
Definition sent name hs : list string := map h_Value (filter (fun h => filed h = name) hs).
(** The bytes of names and values. *)
Definition header_bytes hs : Z := fold_right (fun h n => slen (filed h) + slen (h_Value h) + n) 0 hs.

Lemma sent_cons name h hs : sent name (h :: hs) = (if decide (filed h = name) then [h_Value h] else []) ++ sent name hs.
Proof. unfold sent. rewrite filter_cons. by case_decide. Qed.

Lemma values_of_insert headers name name' vs : values_of (<[name := vs]> headers) name' = if decide (name = name') then vs else values_of headers name'.
Proof. unfold values_of. case_decide; [subst; by rewrite lookup_insert_eq|by rewrite lookup_insert_ne]. Qed.

Record headers_read hs total headers0 headers : Prop := {
  hr_values : forall name, values_of headers name = values_of headers0 name ++ (if withheld name then [] else sent name hs);
  hr_valid : Forall (fun h => isHTTPToken (filed h) 128 = true /\ ContainsAny (h_Value h) (cr +:+ newline +:+ nul) = false) hs;
  hr_bytes : hs = [] \/ total + header_bytes hs <= c_MaxHeaderBytes cfg;
  hr_few : (forall name, (length (values_of headers0 name) <= 16)%nat) -> forall name, (length (values_of headers name) <= 16)%nat;
}.

Lemma collect_headers_reads hs total headers0 headers : collect_headers cfg hs total headers0 = inr headers ->
  headers_read hs total headers0 headers.
Proof.
  revert total headers0. induction hs as [|h hs IH]; intros total headers0; cbn [collect_headers].
  { intros [= ->]. constructor; [|done|by left|done]. intros. by destruct (withheld _); rewrite app_nil_r. }
  fold (filed h). destruct (isHTTPToken _ _) eqn:Ht; [|done]. cbn [negb]. destruct (ContainsAny _ _) eqn:Hc; [done|].
  destruct (_ <? _) eqn:Hb; [done|]. fold (withheld (filed h)). apply Z.ltb_ge in Hb.
  assert (forall total', 0 <= total' \/ True -> total' = total + slen (filed h) + slen (h_Value h) ->
    hs = [] \/ total' + header_bytes hs <= c_MaxHeaderBytes cfg -> total + header_bytes (h :: hs) <= c_MaxHeaderBytes cfg) as HB.
  { intros total' _ -> [->|]; unfold header_bytes in *; cbn in *; lia. }
  destruct (withheld (filed h)) eqn:Hw.
  - intros [H1 H2 H3 H4]%IH. constructor; [|by constructor|right; by eapply HB; [right| |]|done].
    intros name. rewrite H1, sent_cons. case_decide; [subst name; by rewrite Hw|done].
  - destruct (16 <? _) eqn:Hn; [done|]. apply Z.ltb_ge in Hn. intros [H1 H2 H3 H4]%IH.
    constructor; [|by constructor|right; by eapply HB; [right| |]|].
    + intros name. rewrite H1, sent_cons, values_of_insert. case_decide; [|done]. subst name. rewrite Hw. by rewrite <- app_assoc.
    + intros Hf. apply H4. intros name. rewrite values_of_insert. case_decide; [|done]. lia.
Qed.

(** The header set of a normalized request is exact. Under every name it
    holds the values sent under that name, in the order they were sent and at
    most sixteen of them, except under the credential names and the names the
    gateway uses for its own metadata, under which it holds none. Every header
    name is a token and no value has a line break or a NUL byte; number and
    total size are within the budgets; and there is at most one content type. *)
Theorem headers_exact hs headers ct : normalizeHeaders cfg hs = inr (headers, ct) ->
  (forall name, values_of headers name = (if withheld name then [] else sent name hs) /\ (length (values_of headers name) <= 16)%nat) /\
  Forall (fun h => isHTTPToken (filed h) 128 = true /\ ContainsAny (h_Value h) (cr +:+ newline +:+ nul) = false) hs /\
  Z.of_nat (length hs) <= c_MaxHeaders cfg /\ (hs = [] \/ header_bytes hs <= c_MaxHeaderBytes cfg) /\
  (length (values_of headers "content-type") <= 1)%nat.
Proof.
  unfold normalizeHeaders. destruct (_ <? _) eqn:Hn; [done|]. apply Z.ltb_ge in Hn.
  destruct (collect_headers _ _ _ _) as [|hd] eqn:HC; [done|]. apply collect_headers_reads in HC as [H1 H2 H3 H4]. intros HT.
  assert (hd = headers /\ (length (values_of hd "content-type") <= 1)%nat) as [-> Hct] by (repeat case_match; simplify_eq/=; split; (done || lia)).
  assert (forall name, values_of (∅ : gmap string (list string)) name = []) as He by (intros; unfold values_of; by rewrite lookup_empty).
  split_and!; [|done|done|destruct H3; [by left|right; lia]|done].
  intros name. split; [by rewrite H1, He|]. apply H4. intros. rewrite He. cbn. lia.
Qed.
End Headers.

(** * Routes *)

Lemma canonical_abs p : IsAbs p = true -> canonicalL7RoutePath p false = Clean p.
Proof.
  intros HA. unfold canonicalL7RoutePath. rewrite bool_decide_eq_false_2 by (by intros ->).
  pose proof (IsAbs_Clean p HA) as HC. unfold IsAbs in HC. by rewrite HC.
Qed.

(** The path that routes and rate limits use is canonical. For an absolute
    request path it is absolute, has no dot, dot-dot or empty element, and
    making it canonical once more changes nothing; and two spellings are the
    same route exactly when they have the same elements, so no spelling of a
    path evades the limit of its route. *)
Theorem route_canonical p q : IsAbs p = true -> IsAbs q = true ->
  IsAbs (canonicalL7RoutePath p false) = true /\
  canonicalL7RoutePath (canonicalL7RoutePath p false) false = canonicalL7RoutePath p false /\
  Forall name (elems_of (canonicalL7RoutePath p false)) /\
  (canonicalL7RoutePath p false = canonicalL7RoutePath q false <-> elems_of p = elems_of q).
Proof.
  intros Hp Hq. pose proof (IsAbs_Clean p Hp) as HC. rewrite !canonical_abs by (try rewrite canonical_abs; done).
  split_and!; [done|by apply Clean_idem|by apply elems_of_abs|by apply Clean_inj].
Qed.

(** * The decoder and the normalizer on concrete requests *)

(** One entity, and requests in origin form without a host port. *)
Fixpoint unescape_lt (s : string) : string :=
  match s with
  | String "&" (String "l" (String "t" (String ";" s'))) => String "<" (unescape_lt s')
  | String c s' => String c (unescape_lt s')
  | EmptyString => EmptyString
  end.
#[export] Instance lt_entities : HTMLEntities := { html_UnescapeString := unescape_lt }.

Lemma unescape_lt_facts s : (String.length (unescape_lt s) <= String.length s)%nat /\ (unescape_lt s = "" -> s = "").
Proof.
  assert (forall n s, (String.length s <= n)%nat ->
    (String.length (unescape_lt s) <= String.length s)%nat /\ (unescape_lt s = "" -> s = "")) as H; [|by apply (H (String.length s))].
  clear s. induction n as [|n IH]; intros s Hn; [by destruct s; [|cbn in Hn; lia]|].
  destruct s as [|c s]; [done|]. cbn [String.length] in Hn.
  assert ((exists s', s = String "l" (String "t" (String ";" s')) /\ unescape_lt (String c s) = String "<" (unescape_lt s')) \/
    unescape_lt (String c s) = String c (unescape_lt s)) as [(s' & -> & ->)| ->].
  { cbn [unescape_lt]. repeat case_match; subst; eauto. }
  - cbn [String.length] in *. destruct (IH s') as [H _]; [lia|]. split; [lia|done].
  - cbn [String.length]. destruct (IH s) as [H _]; [lia|]. split; [lia|done].
Qed.
Lemma lt_entities_laws : HTMLLaws lt_entities.
Proof. split; intros s; pose proof (unescape_lt_facts s) as [H1 H2]; [unfold slen; cbn; lia|exact H2]. Qed.

Fixpoint split_query (s : string) : string * string :=
  match s with
  | String "?" s' => ("", s')
  | String c s' => let '(p, q) := split_query s' in (String c p, q)
  | EmptyString => ("", "")
  end.
#[export] Instance plain_parsers : Parsers := {
  url_ParseRequestURI s := let '(p, q) := split_query s in Some (mkURI false p p q);
  url_Parse_host s := Some (mkHostURL (substring 7 (String.length s - 7) s) false (substring 7 (String.length s - 7) s) "");
  mime_ParseMediaType s := Some (s, ∅);
  json_tokens s := ([StringToken s], true);
  multipart_parts _ s := ([mkPart "" "field" (Some s)], true);
  inflate _ s := Some (fun n => Some (substring 0 (Z.to_nat n) s));
}.

Definition demo_cfg : L7Config := Eval vm_compute in toConfig few_large.
Definition demo_request : L7InspectionRequest :=
  mkInspection 1 "" "get" "" "Example.org" "/a/../login?q=%253Cscript%253E" "192.0.2.7"
    [mkHeader "User-Agent" "curl"; mkHeader "Cookie" "session=secret"; mkHeader " X-Gedefense-Client-IP" "10.0.0.1";
     mkHeader "Content-Type" "text/plain"; mkHeader "user-agent" "second"] 7 "nginx".
Abbreviation demo_run := (normalizeRaw demo_cfg (inr "0123456789abcdef0123456789abcdef") demo_request "hello &lt;b").

Lemma expansion_exact_witness : exists layers,
  expandL7DecodedLayers "%3Cscript%3E" 2 64 8 = Some (layers, false) /\
  (forall w, reach 64 2 "%3Cscript%3E" w -> w = "%3Cscript%3E" \/ w = "<script>").
Proof.
  exists [mkLayer "<script>" ".url" 1]. split; [reflexivity|].
  destruct (expansion_exact "%3Cscript%3E" 2 64 8 [mkLayer "<script>" ".url" 1] false) as [H _]; [lia..|done|reflexivity|].
  intros w Hw. destruct (H eq_refl 2%nat w) as [->|(l & Hl & <- & _)]; [lia|exact Hw|by left|right].
  apply list_elem_of_singleton in Hl. by subst l.
Defined.

Lemma candidates_within_budget_witness : exists r, demo_run = inr r /\ length (no_Candidates r) = 9%nat /\
  no_CandidateBytes r = total (no_Candidates r) /\ no_CandidateBytes r <= 64 * MiB.
Proof.
  destruct demo_run as [e|r] eqn:H; [exfalso; by vm_compute in H|]. exists r.
  destruct (candidates_within_budget demo_cfg (inr "0123456789abcdef0123456789abcdef") demo_request "hello &lt;b" r H) as (_ & H1 & H2 & _). split; [done|]. split; [|by split].
  vm_compute in H. by injection H as <-.
Defined.

(** A script tag encoded twice is in front of the detectors. *)
Lemma nothing_hidden_witness : exists r, demo_run = inr r /\ "<script>" ∈ map ca_Value (no_Candidates r).
Proof.
  destruct demo_run as [e|r] eqn:H; [exfalso; by vm_compute in H|]. exists r. split; [done|].
  destruct (nothing_hidden demo_cfg lt_entities_laws (inr "0123456789abcdef0123456789abcdef") demo_request "hello &lt;b" r) with (3 := H) as (parsed & HP & HN); [by vm_compute..|].
  assert (ru_RawQuery parsed = "q=%253Cscript%253E") as HQ by (injection HP as <-; reflexivity).
  destruct (HN "%3Cscript%3E") with (i := 0%nat) (w := 12%nat) as (s & n & Hs & Hn & _ & HT).
  - rewrite HQ. unfold texts. apply elem_of_app. right. apply elem_of_app. left. by vm_compute; repeat (apply list_elem_of_here || apply list_elem_of_further).
  - vm_compute. lia.
  - vm_compute. lia.
  - apply (HT 0%nat); [lia|]. replace s with 0%nat by lia. rewrite take_ge by (vm_compute; lia).
    exact (reach_here _ "<script>").
Defined.

Lemma headers_exact_witness : exists headers ct, normalizeHeaders demo_cfg (ir_Headers demo_request) = inr (headers, ct) /\
  values_of headers "user-agent" = ["curl"; "second"] /\ values_of headers "cookie" = [].
Proof.
  assert (match normalizeHeaders demo_cfg (ir_Headers demo_request) with inr _ => true | inl _ => false end = true) as HO by by vm_compute.
  destruct (normalizeHeaders demo_cfg (ir_Headers demo_request)) as [e|[headers ct]] eqn:H; [discriminate HO|]. clear HO.
  destruct (headers_exact demo_cfg _ headers ct H) as [HV _]. exists headers, ct. split; [reflexivity|split].
  - destruct (HV "user-agent") as [-> _]. by vm_compute.
  - destruct (HV "cookie") as [-> _]. by vm_compute.
Defined.

Lemma route_canonical_witness : canonicalL7RoutePath "/a/./../login/" false = canonicalL7RoutePath "//login" false.
Proof. apply (route_canonical "/a/./../login/" "//login"); by vm_compute. Defined.
