(* ===== verification/ThreatIndex.v ===== *)
(** * Threat-intelligence indicators and their index

    src/control/feeds.go: the parser of one feed line, the normal form of an
    indicator, and the index the detectors ask whether an address is covered.
    An address of Go's [netip] is its eight 16-bit groups and its width; the
    keys of the index are byte arrays, masked bit by bit as the code does. *)

From Stdlib Require Import ZArith Lia Ascii String.
From stdpp Require Import base gmap strings list sorting.
From S2P Require Import Prelude.
From S2P Require Import GoLib.
From S2P Require Import Strconv.
From S2P Require Import Text.
From S2P Require Import Storage.
From S2P Require Import NetIP.

(** ** [netip] *)

Record Prefix := mkPrefix { p_addr : ip; p_width : Z; p_bits : Z }.
Definition Is4 (p : Prefix) : bool := p_width p =? 32.
(** [Addr.Is4In6], [Addr.Unmap] *)
Definition Is4In6 (a : ip) (w : Z) : bool := (w =? 128) && is_v4 a.
Definition Unmap_width (a : ip) (w : Z) : Z := if is_v4 a then 32 else w.
(** [PrefixFrom]: bits out of range make the prefix invalid. *)
Definition PrefixFrom (a : ip) (w bits : Z) : option Prefix :=
  if (0 <=? bits) && (bits <=? w) then Some (mkPrefix a w bits) else None.
Definition Masked (p : Prefix) : Prefix := mkPrefix (mask_ip (p_addr p) (p_bits p) (p_width p)) (p_width p) (p_bits p).
Definition Prefix_String (p : Prefix) : string := IP_String (p_addr p) +:+ "/" +:+ itoa (p_bits p).

(** [netip.ParsePrefix]: the last slash; no sign and no leading zero. *)
Definition cut_last_slash (s : string) : option (string * string) :=
  match rev (Split s "/") with
  | b :: (_ :: _) as a => Some (join_with "/" (rev a), b)
  | _ => None
  end.
Definition prefix_bits (s : string) : option Z :=
  match s with
  | String c (String _ _) => if in_range "1" "9" c then parse_digits 0 s else None
  | String _ EmptyString => parse_digits 0 s
  | EmptyString => None
  end.
Definition ParsePrefix (s : string) : option Prefix :=
  p ← cut_last_slash s; a ← ParseAddr p.1; n ← prefix_bits p.2; PrefixFrom a.1 a.2 n.

(** The address classes the parser refuses, on a normalized address. *)
Definition first_group (a : ip) : Z := nth 0 a 0.
Definition octets_of (a : ip) : list Z := flat_map (fun g => [g / 256; g mod 256]) a.
Definition v4_octets (a : ip) : list Z := octets_of (drop 6 a).
Definition on_v4 (a : ip) (f : Z -> Z -> Z -> Z -> bool) : bool :=
  match v4_octets a with
  | [b0; b1; b2; b3] => f b0 b1 b2 b3
  | _ => false
  end.
Definition IsLoopback (a : ip) (four : bool) : bool :=
  if four then on_v4 a (fun b0 _ _ _ => b0 =? 127) else bool_decide (a = [0; 0; 0; 0; 0; 0; 0; 1]).
Definition IsPrivate (a : ip) (four : bool) : bool :=
  if four then on_v4 a (fun b0 b1 _ _ => (b0 =? 10) || ((b0 =? 172) && (b1 / 16 =? 1)) || ((b0 =? 192) && (b1 =? 168)))
  else first_group a / 512 =? 126.
Definition IsMulticast (a : ip) (four : bool) : bool :=
  if four then on_v4 a (fun b0 _ _ _ => b0 / 16 =? 14) else first_group a / 256 =? 255.
Definition IsLinkLocalUnicast (a : ip) (four : bool) : bool :=
  if four then on_v4 a (fun b0 b1 _ _ => (b0 =? 169) && (b1 =? 254)) else first_group a / 64 =? 1018.
Definition IsLinkLocalMulticast (a : ip) (four : bool) : bool :=
  if four then on_v4 a (fun b0 b1 b2 _ => (b0 =? 224) && (b1 =? 0) && (b2 =? 0))
  else (first_group a / 256 =? 255) && (first_group a mod 16 =? 2).

(** ** The parser *)

(** [normalizeThreatPrefix] *)
Definition normalizeThreatPrefix (p : Prefix) : option Prefix :=
  if Is4In6 (p_addr p) (p_width p)
  then if p_bits p <? 96 then None else Masked <$> PrefixFrom (p_addr p) 32 (p_bits p - 96)
  else Masked <$> PrefixFrom (p_addr p) (p_width p) (p_bits p).

(** [isCloudMetadataNetip] *)
Definition isCloudMetadataNetip (a : ip) (four : bool) : bool :=
  if four then
    on_v4 a (fun b0 b1 b2 b3 => ((b0 =? 169) && (b1 =? 254)) ||
      ((b0 =? 100) && (b1 =? 100) && (b2 =? 100) && (b3 =? 200)) ||
      ((b0 =? 168) && (b1 =? 63) && (b2 =? 129) && (b3 =? 16)))
  else bool_decide (ParseAddr "fd00:ec2::254" = Some (a, 128)) || IsLinkLocalUnicast a four || IsLinkLocalMulticast a four.

(** [threatTokenRegex] *)
Definition token_char (c : ascii) : bool :=
  in_range "0" "9" c || in_range "a" "f" c || in_range "A" "F" c || bool_decide (c ∈ ["."; ":"; "/"]%char).

Definition refused_address (a : ip) (four : bool) : bool :=
  IsLoopback a four || IsPrivate a four || IsUnspecified a || IsMulticast a four || IsLinkLocalUnicast a four ||
  IsLinkLocalMulticast a four || isCloudMetadataNetip a four.

(** The prefix a token denotes, before normalization. *)
Definition token_prefix (tok : string) : option Prefix :=
  if bool_decide ("/"%char ∈ bytes_of tok)
  then parsed ← ParsePrefix tok; if p_bits parsed =? 0 then None else Some (Masked parsed)
  else a ← ParseAddr tok; PrefixFrom a.1 (Unmap_width a.1 a.2) a.2.

(** [parseThreatToken] *)
Definition parseThreatToken (tok : string) : option string :=
  if (slen tok <? 3) || (49 <? slen tok) then None
  else if negb (string_forallb token_char tok) then None
  else
    prefix ← token_prefix tok; prefix ← normalizeThreatPrefix prefix;
    if refused_address (p_addr prefix) (Is4 prefix) then None else Some (Prefix_String prefix).

(** [strings.Fields(s)[0]] of a text without leading white space. *)
Fixpoint first_field (l : list ascii) : list ascii :=
  match l with
  | [] => []
  | c :: l' => if existsb (fun r => is_prefix_of r l) space_runes then [] else c :: first_field l'
  end.
Fixpoint until_any (cs l : list ascii) : list ascii :=
  match l with
  | [] => []
  | c :: l' => if bool_decide (c ∈ cs) then [] else c :: until_any cs l'
  end.
Fixpoint skip_any (cs l : list ascii) : list ascii :=
  match l with
  | c :: l' => if bool_decide (c ∈ cs) then skip_any cs l' else l
  | [] => []
  end.

(** [parseThreatLine] *)
Definition parseThreatLine (line : string) : option string :=
  let line := TrimSpace line in
  if bool_decide (line = "") || HasPrefix line "#" || HasPrefix line ";" then None
  else
    let line := TrimSpace (of_bytes (until_any ["#"; ";"]%char (bytes_of line))) in
    if bool_decide (line = "") then None
    else parseThreatToken (of_bytes (rev (skip_any [";"; ","; " "]%char (rev (first_field (bytes_of line)))))).

(** ** The index *)

Abbreviation bytes := (list Z).

Section Index.
Context `{C : Crypto}.

(** [computeFingerprint] *)
Definition no_items : string := of_bytes (replicate 64 "0"%char).
Definition computeFingerprint (items : list string) : string :=
  if bool_decide (items = []) then no_items
  else hex_EncodeToString (sha256_Sum (String.concat "" (map (fun i => i +:+ newline) (sort_Strings items)))).

Record ThreatIndex := mkIndex {
  ti_v4 : gmap Z (gset bytes); ti_v6 : gmap Z (gset bytes); ti_v4Lengths : list Z; ti_v6Lengths : list Z;
  ti_count : Z; ti_generation : Z; ti_fingerprint : string;
}.
Definition NewThreatIndex : ThreatIndex := mkIndex ∅ ∅ [] [] 0 0 no_items.

(** [maskIPv4], [maskIPv6]: clear the bits from [prefix] on, one by one. *)
Definition clear_bit (a : bytes) (bit : nat) : bytes :=
  alter (fun b => Z.ldiff b (Z.shiftl 1 (7 - Z.of_nat (bit mod 8)))) (bit / 8)%nat a.
Definition maskIP (width : nat) (a : bytes) (prefix : Z) : bytes :=
  fold_left clear_bit (seq (Z.to_nat prefix) (width - Z.to_nat prefix)) a.
Definition maskIPv4 : bytes -> Z -> bytes := maskIP 32.
Definition maskIPv6 : bytes -> Z -> bytes := maskIP 128.

(** [addr.AsSlice] *)
Definition AsSlice (a : ip) (four : bool) : bytes := if four then v4_octets a else octets_of a.

(** [Replace] *)
Definition put_key (ones : Z) (key : bytes) (m : gmap Z (gset bytes)) : gmap Z (gset bytes) :=
  <[ones := {[key]} ∪ default ∅ (m !! ones)]> m.
Definition index_item (acc : gmap Z (gset bytes) * gmap Z (gset bytes)) (raw : string)
  : gmap Z (gset bytes) * gmap Z (gset bytes) :=
  match ParsePrefix raw ≫= normalizeThreatPrefix with
  | None => acc
  | Some p =>
      let key := AsSlice (p_addr p) (Is4 p) in
      if Is4 p then (put_key (p_bits p) key acc.1, acc.2) else (acc.1, put_key (p_bits p) key acc.2)
  end.
Definition lengths (m : gmap Z (gset bytes)) : list Z := merge_sort Z.ge (elements (dom m)).
Definition entries (m : gmap Z (gset bytes)) : Z := map_fold (fun _ s n => Z.of_nat (size s) + n) 0 m.
Definition Replace (items : list string) (t : ThreatIndex) : ThreatIndex :=
  let '(v4, v6) := fold_left index_item items (∅, ∅) in
  mkIndex v4 v6 (lengths v4) (lengths v6) (entries v4 + entries v6) (u64 (ti_generation t + 1)) (computeFingerprint items).

(** The address [ContainsString] looks for: a zone is dropped, a mapped address
    is an IPv4 address. [net.ParseIP], the fallback, accepts no more. *)
Definition cut_zone (s : string) : option string :=
  if bool_decide ("%"%char ∈ bytes_of s)
  then if bool_decide (s = take_until "%" s +:+ "%") then None else Some (take_until "%" s)
  else Some s.
Definition observed (raw : string) : option ip :=
  let s := TrimSpace raw in
  match first_mark s with
  | Some ":"%char => s ← cut_zone s; parseIPv6 s
  | Some "."%char => ParseIP s
  | _ => None
  end.

(** [ContainsString] *)
Definition hit (width : nat) (m : gmap Z (gset bytes)) (address : bytes) (prefix : Z) : bool :=
  bool_decide (maskIP width address prefix ∈ default ∅ (m !! prefix)).
Definition ContainsString (raw : string) (t : ThreatIndex) : bool :=
  match observed raw with
  | None => false
  | Some a =>
      if is_v4 a then existsb (hit 32 (ti_v4 t) (v4_octets a)) (ti_v4Lengths t)
      else existsb (hit 128 (ti_v6 t) (octets_of a)) (ti_v6Lengths t)
  end.
End Index.
