(* ===== verification/ThreatFacts.v ===== *)
(** * The index answers exactly

    [ContainsString] (src/control/feeds.go), which masks byte arrays bit by bit
    and probes one table per prefix length, answers whether an indicator covers
    the address. *)

From Stdlib Require Import ZArith Lia Ascii String.
From stdpp Require Import base gmap strings list sorting.
From S2P Require Import Prelude.
From S2P Require Import GoLib.
From S2P Require Import Strconv.
From S2P Require Import Text.
From S2P Require Import Storage.
From S2P Require Import NetIP.
From S2P Require Import NetIPFacts.
From S2P Require Import ThreatIndex.

(** ** Byte arrays as numbers *)

Fixpoint bytes_value (l : bytes) : Z :=
  match l with
  | [] => 0
  | b :: l => b * 256 ^ Z.of_nat (length l) + bytes_value l
  end.

Lemma bytes_value_range l : Forall octet l -> 0 <= bytes_value l < 256 ^ Z.of_nat (length l).
Proof.
  induction 1 as [|b l Hb Hl IH]; cbn [bytes_value length]; [lia|]. unfold octet in Hb.
  rewrite Nat2Z.inj_succ, Z.pow_succ_r by lia. nia.
Qed.

Lemma bytes_value_inj l l' : Forall octet l -> Forall octet l' -> length l = length l' -> bytes_value l = bytes_value l' -> l = l'.
Proof.
  intros Hl. revert l'. induction Hl as [|b l Hb Hl IH]; intros [|b' l'] Hl' Hn HV; try done. cbn [bytes_value length] in *.
  injection Hn as Hn. apply Forall_cons in Hl' as [Hb' Hl']. unfold octet in *.
  pose proof (bytes_value_range l Hl) as H1. pose proof (bytes_value_range l' Hl') as H2. rewrite <- Hn in H2, HV.
  assert (b = b') as <- by nia. f_equal. apply IH; [done|done|nia].
Qed.

(** Clearing one bit. *)
Lemma ldiff_bit x k : 0 <= k -> Z.ldiff x (2 ^ k) = x - 2 ^ k * ((x / 2 ^ k) mod 2).
Proof.
  intros Hk. pose proof (Z.testbit_spec' x k Hk) as HS. rewrite <- HS. destruct (Z.testbit x k) eqn:HB; cbn [Z.b2z].
  - rewrite Z.mul_1_r. symmetry. apply Z.sub_nocarry_ldiff. apply Z.bits_inj'. intros n Hn.
    rewrite Z.ldiff_spec, Z.pow2_bits_eqb, Z.bits_0 by lia. destruct (Z.eqb_spec k n); [subst; by rewrite HB|done].
  - rewrite Z.mul_0_r, Z.sub_0_r. apply Z.bits_inj'. intros n Hn. rewrite Z.ldiff_spec, Z.pow2_bits_eqb by lia.
    destruct (Z.eqb_spec k n); [subst; by rewrite HB|]. by rewrite andb_true_r.
Qed.

Lemma clear_bit_value l bit : Forall octet l -> (bit < 8 * length l)%nat ->
  Forall octet (clear_bit l bit) /\ length (clear_bit l bit) = length l /\
  bytes_value (clear_bit l bit) = Z.ldiff (bytes_value l) (2 ^ (8 * Z.of_nat (length l) - 1 - Z.of_nat bit)).
Proof.
  intros Hl. revert bit. induction Hl as [|b l Hb Hl IH]; intros bit Hbit; cbn [length] in *; [lia|].
  pose proof (bytes_value_range l Hl) as HR. unfold octet in Hb.
  assert (256 ^ Z.of_nat (length l) = 2 ^ (8 * Z.of_nat (length l))) as HP by (rewrite Z.pow_mul_r by lia; done).
  destruct (Nat.lt_ge_cases bit 8) as [Hlt|Hge].
  - unfold clear_bit. rewrite Nat.div_small, Nat.mod_small by lia. cbn [alter list_alter].
    rewrite Z.shiftl_mul_pow2, Z.mul_1_l by lia. set (k := 7 - Z.of_nat bit). assert (0 <= k < 8) as Hk by lia.
    assert (octet (Z.ldiff b (2 ^ k))) as Ho.
    { unfold octet. rewrite ldiff_bit by lia. pose proof (Z.mod_pos_bound (b / 2 ^ k) 2 ltac:(lia)).
      pose proof (Z.mul_div_le b (2 ^ k) ltac:(lia)). pose proof (Z.div_pos b (2 ^ k) ltac:(lia) ltac:(lia)).
      pose proof (Z.mod_le (b / 2 ^ k) 2 ltac:(lia) ltac:(lia)).
      pose proof (Z.mul_le_mono_nonneg_l ((b / 2 ^ k) mod 2) (b / 2 ^ k) (2 ^ k) ltac:(lia) ltac:(lia)).
      pose proof (Z.mul_nonneg_nonneg (2 ^ k) ((b / 2 ^ k) mod 2) ltac:(lia) ltac:(lia)). lia. }
    split; [by constructor|]. split; [done|]. cbn [bytes_value].
    replace (8 * Z.of_nat (S (length l)) - 1 - Z.of_nat bit) with (k + 8 * Z.of_nat (length l)) by lia.
    rewrite !ldiff_bit by lia. rewrite HP in *. rewrite Z.pow_add_r by lia. set (m := 2 ^ (8 * Z.of_nat (length l))) in *.
    assert ((b * m + bytes_value l) / (2 ^ k * m) = b / 2 ^ k) as ->.
    { rewrite (Z.mul_comm (2 ^ k)), <- Z.div_div by lia. rewrite (Z.add_comm (b * m)), Z.div_add by lia. rewrite (Z.div_small (bytes_value l)) by lia. done. }
    ring.
  - assert (clear_bit (b :: l) bit = b :: clear_bit l (bit - 8)) as ->.
    { unfold clear_bit. assert (bit = (bit - 8) + 1 * 8)%nat as HE by lia. set (c := (bit - 8)%nat) in *. rewrite HE.
      rewrite Nat.div_add, Nat.Div0.mod_add by lia. by rewrite Nat.add_1_r. }
    destruct (IH (bit - 8)%nat ltac:(lia)) as (H1 & H2 & H3). split; [by constructor|]. split; [cbn; lia|]. cbn [bytes_value].
    rewrite H2, H3. replace (8 * Z.of_nat (S (length l)) - 1 - Z.of_nat bit) with (8 * Z.of_nat (length l) - 1 - Z.of_nat (bit - 8)) by lia.
    set (k := 8 * Z.of_nat (length l) - 1 - Z.of_nat (bit - 8)). assert (0 <= k < 8 * Z.of_nat (length l)) as Hk by lia.
    rewrite !ldiff_bit by lia. rewrite HP. replace (8 * Z.of_nat (length l)) with (k + (1 + (8 * Z.of_nat (length l) - k - 1))) by lia.
    rewrite !Z.pow_add_r by lia. set (r := 2 ^ (8 * Z.of_nat (length l) - k - 1)).
    replace (b * (2 ^ k * (2 ^ 1 * r)) + bytes_value l) with (bytes_value l + (b * r * 2) * 2 ^ k) by ring.
    rewrite Z.div_add, Z.mod_add by lia. ring.
Qed.

Definition clear_value (w : Z) (v : Z) (bit : nat) : Z := Z.ldiff v (2 ^ (w - 1 - Z.of_nat bit)).
Lemma clear_bits_value l bits : Forall octet l -> Forall (fun b => (b < 8 * length l)%nat) bits ->
  let r := fold_left clear_bit bits l in
  Forall octet r /\ length r = length l /\ bytes_value r = fold_left (clear_value (8 * Z.of_nat (length l))) bits (bytes_value l).
Proof.
  intros Hl HB. revert l Hl HB. induction bits as [|b bits IH]; intros l Hl HB; [done|]. cbn [fold_left].
  apply Forall_cons in HB as [Hb HB]. destruct (clear_bit_value l b Hl Hb) as (H1 & H2 & H3).
  rewrite <- H2 in HB. destruct (IH _ H1 HB) as (R1 & R2 & R3). split; [done|]. split; [lia|]. rewrite R3, H2, H3. done.
Qed.

Lemma clear_all_bits w s n v i : 0 <= i -> Z.testbit (fold_left (clear_value w) (seq s n) v) i =
  Z.testbit v i && negb ((Z.of_nat s <=? w - 1 - i) && (w - 1 - i <? Z.of_nat (s + n))).
Proof.
  intros Hi. revert s v. induction n as [|n IH]; intros s v; cbn [seq fold_left].
  - destruct (Z.leb_spec (Z.of_nat s) (w - 1 - i)), (Z.ltb_spec (w - 1 - i) (Z.of_nat (s + 0))); cbn; try lia; by rewrite andb_true_r.
  - rewrite IH. unfold clear_value. rewrite Z.ldiff_spec.
    assert (Z.testbit (2 ^ (w - 1 - Z.of_nat s)) i = (w - 1 - i =? Z.of_nat s)) as ->.
    { destruct (Z.leb_spec 0 (w - 1 - Z.of_nat s)).
      - rewrite Z.pow2_bits_eqb by lia. destruct (Z.eqb_spec (w - 1 - Z.of_nat s) i), (Z.eqb_spec (w - 1 - i) (Z.of_nat s)); lia.
      - rewrite Z.pow_neg_r, Z.bits_0 by lia. symmetry. apply Z.eqb_neq. lia. }
    destruct (Z.testbit v i); cbn [andb]; [|done].
    destruct (Z.eqb_spec (w - 1 - i) (Z.of_nat s)), (Z.leb_spec (Z.of_nat (S s)) (w - 1 - i)), (Z.ltb_spec (w - 1 - i) (Z.of_nat (S s + n))),
      (Z.leb_spec (Z.of_nat s) (w - 1 - i)), (Z.ltb_spec (w - 1 - i) (Z.of_nat (s + S n))); cbn [andb negb]; first [done|exfalso; lia].
Qed.

(** The bitwise mask is the mask of the address as one number. *)
Lemma maskIP_value l p : Forall octet l -> 0 <= p <= 8 * Z.of_nat (length l) ->
  let w := 8 * Z.of_nat (length l) in let r := maskIP (8 * length l) l p in
  Forall octet r /\ length r = length l /\ bytes_value r = bytes_value l / 2 ^ (w - p) * 2 ^ (w - p).
Proof.
  intros Hl Hp w r. unfold r, maskIP. destruct (clear_bits_value l (seq (Z.to_nat p) (8 * length l - Z.to_nat p)) Hl) as (H1 & H2 & H3).
  { apply Forall_forall. intros b Hb. apply elem_of_seq in Hb. lia. }
  split; [done|]. split; [done|]. rewrite H3. fold w. rewrite <- Z.shiftr_div_pow2, <- Z.shiftl_mul_pow2 by lia.
  apply Z.bits_inj'. intros i Hi. rewrite clear_all_bits by done. destruct (Z.ltb_spec i (w - p)).
  - rewrite Z.shiftl_spec_low by lia. destruct (Z.leb_spec (Z.of_nat (Z.to_nat p)) (w - 1 - i)); [|lia].
    destruct (Z.ltb_spec (w - 1 - i) (Z.of_nat (Z.to_nat p + (8 * length l - Z.to_nat p)))); [|lia]. by rewrite andb_false_r.
  - rewrite Z.shiftl_spec, Z.shiftr_spec by lia. replace (i - (w - p) + (w - p)) with i by lia.
    destruct (Z.leb_spec (Z.of_nat (Z.to_nat p)) (w - 1 - i)); [lia|]. by rewrite andb_true_r.
Qed.

(** ** Addresses as byte arrays *)

Lemma octets_value a : Forall group a -> Forall octet (octets_of a) /\ length (octets_of a) = (2 * length a)%nat /\
  bytes_value (octets_of a) = ip_value a.
Proof.
  assert (forall l acc, Forall group l -> fold_left (fun acc g => acc * 65536 + g) l acc =
    acc * 256 ^ Z.of_nat (2 * length l) + bytes_value (octets_of l)) as HV.
  { induction l as [|g l IH]; intros acc Hl; [cbn; lia|]. apply Forall_cons in Hl as [Hg Hl]. unfold group in Hg.
    cbn [fold_left]. rewrite IH by done. change (octets_of (g :: l)) with (g / 256 :: g mod 256 :: octets_of l). cbn [bytes_value length].
    assert (length (octets_of l) = (2 * length l)%nat) as Hn by (clear; unfold octets_of; induction l as [|x l IH]; cbn in *; lia).
    rewrite Hn. replace (Z.of_nat (2 * S (length l))) with (Z.of_nat (2 * length l) + 2) by lia.
    replace (Z.of_nat (S (2 * length l))) with (Z.of_nat (2 * length l) + 1) by lia. rewrite !Z.pow_add_r by lia.
    set (m := 256 ^ Z.of_nat (2 * length l)). change (256 ^ 2) with 65536. change (256 ^ 1) with 256.
    rewrite (Z.div_mod g 256) at 1 by lia. ring. }
  intros Ha. split_and!.
  - unfold octets_of. induction Ha as [|g l Hg Hl IH]; [done|]. destruct (group_octets g Hg). cbn [flat_map app].
    apply Forall_cons. split; [done|]. apply Forall_cons. by split.
  - clear. unfold octets_of. induction a as [|x l IH]; cbn in *; lia.
  - unfold ip_value. rewrite HV by done. lia.
Qed.

Definition width_of (four : bool) : Z := if four then 32 else 128.
Lemma slice_facts a four : wf_ip a -> (four = true -> is_v4 a = true) ->
  Forall octet (AsSlice a four) /\ Z.of_nat (length (AsSlice a four)) * 8 = width_of four /\
  (ip_value a = bytes_value (AsSlice a four) + (if four then 65535 * 2 ^ 32 else 0)).
Proof.
  intros [Hn Hg] H4. destruct four; cbn [AsSlice width_of].
  - destruct (is_v4_shape a) as (hi & lo & -> & H1 & H2); [done|by apply H4|].
    destruct (octets_value [hi; lo]) as (E1 & E2 & E3); [by rewrite !Forall_cons|]. change (v4_octets (v4_prefix ++ [hi; lo])) with (octets_of [hi; lo]).
    split; [done|]. split; [by rewrite E2|]. rewrite v4_value, E3. unfold ip_value. cbn [fold_left]. lia.
  - destruct (octets_value a Hg) as (E1 & E2 & E3). split; [done|]. rewrite E2, Hn. split; [done|]. lia.
Qed.

(** ** What an indicator covers *)

Definition covers (p : Prefix) (a : ip) : Prop := Is4 p = is_v4 a /\
  ip_value (p_addr p) / 2 ^ (p_width p - p_bits p) = ip_value a / 2 ^ (p_width p - p_bits p).
(** The normal form of an indicator. *)
Definition indicator (raw : string) : option Prefix := ParsePrefix raw ≫= normalizeThreatPrefix.
Record normal (p : Prefix) : Prop := {
  no_wf : wf_ip (p_addr p); no_v4 : is_v4 (p_addr p) = true -> Is4 p = true; no_shape : Is4 p = true -> is_v4 (p_addr p) = true;
  no_width : p_width p = width_of (Is4 p); no_bits : 0 <= p_bits p <= p_width p;
  no_masked : (2 ^ (p_width p - p_bits p) | ip_value (p_addr p));
}.

Lemma PrefixFrom_inv a w b p : PrefixFrom a w b = Some p -> p = mkPrefix a w b /\ 0 <= b <= w.
Proof. unfold PrefixFrom. destruct (_ && _) eqn:E; [|done]. intros [= <-]. split; [done|]. lia. Qed.

Lemma is_v4_value a : wf_ip a -> is_v4 a = true <-> ip_value a / 2 ^ 32 = 65535.
Proof.
  intros [Hn Hg]. split.
  - intros H4. destruct (is_v4_shape a) as (hi & lo & -> & H1 & H2); [done|done|]. rewrite v4_value. unfold group in *.
    rewrite Z.add_comm, Z.div_add by lia. rewrite Z.div_small by lia. done.
  - destruct a as [|a0 [|a1 [|a2 [|a3 [|a4 [|a5 [|a6 [|a7 [|]]]]]]]]]; try done. repeat (apply Forall_cons in Hg as [? Hg]).
    unfold group in *. unfold ip_value. cbn [fold_left]. intros HV.
    assert ((((((a0 * 65536 + a1) * 65536 + a2) * 65536 + a3) * 65536 + a4) * 65536 + a5) = 65535) as HE.
    { rewrite <- HV. apply (Z.div_unique _ _ _ (a6 * 65536 + a7)); [left; lia|ring]. }
    unfold is_v4. apply bool_decide_eq_true. cbn [take]. unfold v4_prefix. repeat f_equal; lia.
Qed.

Lemma Masked_normal a w n : wf_ip a -> w = width_of (is_v4 a) -> 0 <= n <= w -> normal (Masked (mkPrefix a w n)).
Proof.
  intros Hw -> Hn. destruct (is_v4 a) eqn:H4; cbn [width_of] in *.
  - constructor; cbn [Masked p_addr p_width p_bits]; unfold Is4; cbn [p_width]; try done; [by apply mask_wf|intros _; by apply mask_v4|apply mask_divides; [done|lia]].
  - constructor; cbn [Masked p_addr p_width p_bits]; unfold Is4; cbn [p_width]; try done; [by apply mask_wf| |apply mask_divides; [done|lia]]. intros Hm. exfalso.
    apply is_v4_value in Hm; [|by apply mask_wf]. rewrite mask_value in Hm by (done || lia). set (k := 128 - n) in *.
    assert (ip_value a / 2 ^ 32 <> 65535) as Hne by (intros HE; apply is_v4_value in HE; [by rewrite H4 in HE|done]).
    destruct (Z.leb_spec k 32) as [Hk|Hk].
    + apply Hne. rewrite <- Hm. replace 32 with (k + (32 - k)) by lia. rewrite !Z.pow_add_r, <- !Z.div_div by lia. by rewrite Z.div_mul by lia.
    + revert Hm. replace k with (32 + (1 + (k - 33))) at 2 by lia. rewrite !Z.pow_add_r by lia.
      rewrite (Z.mul_comm (2 ^ 32)), Z.mul_assoc, Z.div_mul by lia. intros Hm.
      assert (Z.odd 65535 = false); [|done]. rewrite <- Hm, !Z.odd_mul. cbn. by rewrite andb_false_r.
Qed.

(** An address with one of its widths, and a prefix of one. *)
Definition sized (a : ip) (w : Z) : Prop := wf_ip a /\ ((w = 32 /\ is_v4 a = true) \/ w = 128).
Lemma normalize_normal q p : sized (p_addr q) (p_width q) -> normalizeThreatPrefix q = Some p -> normal p.
Proof.
  destruct q as [a w n]. unfold normalizeThreatPrefix, Is4In6. cbn [p_addr p_width p_bits].
  intros [Hw HW]. destruct HW as [[-> H4]| ->]; cbn [Z.eqb Pos.eqb andb].
  - destruct (PrefixFrom a 32 n) as [q|] eqn:HQ; [|done]. intros [= <-]. apply PrefixFrom_inv in HQ as [-> ?]. apply Masked_normal; [done|by rewrite H4|lia].
  - destruct (is_v4 a) eqn:H4.
    + destruct (_ <? _); [done|]. destruct (PrefixFrom a 32 _) as [q|] eqn:HQ; [|done]. intros [= <-].
      apply PrefixFrom_inv in HQ as [-> ?]. apply Masked_normal; [done|by rewrite H4|lia].
    + destruct (PrefixFrom a 128 n) as [q|] eqn:HQ; [|done]. intros [= <-]. apply PrefixFrom_inv in HQ as [-> ?]. apply Masked_normal; [done|by rewrite H4|lia].
Qed.

Lemma ParsePrefix_sized s q : ParsePrefix s = Some q -> sized (p_addr q) (p_width q) /\ 0 <= p_bits q <= p_width q.
Proof.
  unfold ParsePrefix. destruct (cut_last_slash s) as [[x y]|]; [|done]. cbn [mbind option_bind fst snd].
  destruct (ParseAddr x) as [[a w]|] eqn:HA; [|done]. destruct (prefix_bits y) as [n|]; [|done]. cbn [mbind option_bind fst snd].
  intros [-> Hn]%PrefixFrom_inv. apply ParseAddr_wf in HA. done.
Qed.
Lemma indicator_normal raw p : indicator raw = Some p -> normal p.
Proof. intros (q & HQ & HN)%bind_Some. eapply normalize_normal; [|exact HN]. by apply ParsePrefix_sized in HQ as [? _]. Qed.

(** ** Printing and parsing *)

Lemma bits_table n : 0 <= n <= 128 -> prefix_bits (itoa n) = Some n /\ ~ has "/" (itoa n).
Proof.
  intros Hn. assert (forallb (fun k => bool_decide (prefix_bits (itoa (Z.of_nat k)) = Some (Z.of_nat k)) &&
    negb (bool_decide ("/"%char ∈ bytes_of (itoa (Z.of_nat k))))) (seq 0 129) = true) as HT by by vm_compute.
  rewrite forallb_forall in HT. specialize (HT (Z.to_nat n)). rewrite Z2Nat.id in HT by lia.
  apply andb_true_iff in HT as [H1 H2]; [|apply in_seq; lia]. apply bool_decide_eq_true in H1. split; [done|].
  apply negb_true_iff, bool_decide_eq_false in H2. exact H2.
Qed.

Lemma reparse_prefix p : normal p -> indicator (Prefix_String p) = Some p.
Proof.
  intros [N1 N2 N3 N4 N5 N6]. destruct p as [a w n]. cbn [p_addr p_width p_bits] in *. unfold Is4 in *. cbn [p_width] in *.
  assert (0 <= n <= 128) as Hn by (destruct (w =? 32); cbn [width_of] in N4; lia). destruct (bits_table n Hn) as [HB HS].
  assert ((if is_v4 a then 32 else 128) = w) as Hw.
  { destruct (w =? 32) eqn:E; cbn [width_of] in N4; [by rewrite N3|]. destruct (is_v4 a); [by specialize (N2 eq_refl)|done]. }
  unfold indicator, ParsePrefix, Prefix_String, cut_last_slash, Split. cbn [p_addr p_bits].
  rewrite bytes_of_app. change (bytes_of ("/" +:+ itoa n)) with ("/"%char :: bytes_of (itoa n)).
  rewrite split_bytes_one, split_bytes_none by (done || by apply IP_String_no_slash). cbn [map rev app join_with]. rewrite !of_bytes_of.
  cbn [mbind option_bind fst snd]. rewrite parse_print by done. cbn [mbind option_bind fst snd]. rewrite HB, Hw. cbn [mbind option_bind].
  unfold PrefixFrom. rewrite (proj2 (Z.leb_le 0 n)), (proj2 (Z.leb_le n w)) by lia. cbn [andb mbind option_bind].
  unfold normalizeThreatPrefix, Is4In6. cbn [p_addr p_width p_bits]. destruct ((w =? 128) && is_v4 a) eqn:E.
  { apply andb_true_iff in E as [E1 E2]. rewrite E2 in Hw. lia. }
  unfold PrefixFrom. rewrite (proj2 (Z.leb_le 0 n)), (proj2 (Z.leb_le n w)) by lia. cbn [andb fmap option_fmap option_map].
  unfold Masked. cbn [p_addr p_width p_bits]. rewrite mask_fixed by (done || lia). done.
Qed.

Lemma default_route_unspecified p : normal p -> p_bits p = 0 -> IsUnspecified (p_addr p) = true.
Proof.
  intros [N1 N2 N3 N4 N5 N6] H0. rewrite H0, N4, Z.sub_0_r in N6. destruct N6 as [q Hq]. destruct N1 as [Hn Hg].
  pose proof (ip_value_range _ Hg) as HR. rewrite Hn in HR. change (65536 ^ Z.of_nat 8) with (2 ^ 128) in HR.
  assert (groups_of 8 (ip_value (p_addr p)) = p_addr p) as HG by (rewrite <- Hn; by apply groups_value).
  unfold IsUnspecified. destruct (Is4 p) eqn:H4; cbn [width_of] in *.
  - assert (ip_value (p_addr p) / 2 ^ 32 = 65535) as HV by (apply is_v4_value; [done|by apply N3]).
    rewrite Hq, Z.div_mul in HV by lia. rewrite Hq, HV in HG. rewrite (bool_decide_eq_true_2 (p_addr p = v4_prefix ++ [0; 0])); [done|]. by rewrite <- HG.
  - assert (q = 0) as -> by nia. rewrite Hq in HG. rewrite (bool_decide_eq_true_2 (p_addr p = replicate 8 0)); [by rewrite orb_true_r|]. by rewrite <- HG.
Qed.

(** ** The tables *)

Definition held (m : gmap Z (gset bytes)) (ones : Z) (key : bytes) : Prop := key ∈ default ∅ (m !! ones).
Lemma put_key_held ones key m ones' key' : held (put_key ones key m) ones' key' <-> (ones' = ones /\ key' = key) \/ held m ones' key'.
Proof.
  unfold held, put_key. destruct (decide (ones = ones')) as [<-|Hne].
  - rewrite lookup_insert_eq. cbn. set_solver.
  - rewrite lookup_insert_ne by done. naive_solver.
Qed.

Definition listed (four : bool) (items : list string) (ones : Z) (key : bytes) : Prop :=
  exists raw p, raw ∈ items /\ indicator raw = Some p /\ Is4 p = four /\ p_bits p = ones /\ AsSlice (p_addr p) four = key.
Lemma index_held items acc ones key :
  (held (fold_left index_item items acc).1 ones key <-> held acc.1 ones key \/ listed true items ones key) /\
  (held (fold_left index_item items acc).2 ones key <-> held acc.2 ones key \/ listed false items ones key).
Proof.
  revert acc. induction items as [|raw items IH]; intros acc.
  { unfold listed. split; cbn; split; intros; [by left|naive_solver set_solver|by left|naive_solver set_solver]. }
  cbn [fold_left]. destruct (IH (index_item acc raw)) as [-> ->]. clear IH. unfold listed. setoid_rewrite elem_of_cons.
  unfold index_item. change (ParsePrefix raw ≫= normalizeThreatPrefix) with (indicator raw).
  destruct (indicator raw) as [p|] eqn:HP; [|split; naive_solver]. destruct (Is4 p) eqn:H4; cbn [fst snd]; rewrite put_key_held; split; naive_solver congruence.
Qed.

(** ** The lookup *)

Lemma covers_mask p a four : normal p -> wf_ip a -> Is4 p = four -> is_v4 a = four ->
  maskIP (Z.to_nat (width_of four)) (AsSlice a four) (p_bits p) = AsSlice (p_addr p) four <-> covers p a.
Proof.
  intros [N1 N2 N3 N4 N5 N6] Ha HP H4. subst four. unfold covers. rewrite H4.
  destruct (slice_facts a (Is4 p) Ha) as (A1 & A2 & A3); [congruence|].
  destruct (slice_facts (p_addr p) (Is4 p) N1 N3) as (P1 & P2 & P3).
  set (w := width_of (Is4 p)) in *. set (la := AsSlice a (Is4 p)) in *. set (lp := AsSlice (p_addr p) (Is4 p)) in *.
  set (c := if Is4 p then 65535 * 2 ^ 32 else 0) in *. rewrite N4 in *. set (k := w - p_bits p) in *. assert (0 <= k) as Hk by lia.
  assert (exists d, c = d * 2 ^ k) as [d Hd].
  { unfold c, k, w in *. destruct (Is4 p); cbn [width_of] in *; [|by exists 0]. exists (65535 * 2 ^ p_bits p).
    rewrite <- Z.mul_assoc, <- Z.pow_add_r by lia. repeat f_equal. lia. }
  destruct (maskIP_value la (p_bits p) A1) as (M1 & M2 & M3); [lia|].
  replace (Z.to_nat w) with (8 * length la)%nat by lia. replace (8 * Z.of_nat (length la) - p_bits p) with k in M3 by lia.
  rewrite A3, P3, Hd, !Z.div_add by lia.
  assert (bytes_value lp / 2 ^ k * 2 ^ k = bytes_value lp) as HD.
  { rewrite P3, Hd, Z.add_comm in N6. apply Z.divide_add_cancel_r in N6; [|by exists d]. destruct N6 as [q Hq]. rewrite Hq, Z.div_mul by lia. done. }
  split.
  - intros HE. split; [done|]. rewrite HE in M3. assert (bytes_value lp / 2 ^ k = bytes_value la / 2 ^ k); [|lia].
    apply (Z.mul_cancel_r _ _ (2 ^ k)); [lia|]. by rewrite HD, <- M3.
  - intros [_ HE]. apply bytes_value_inj; [done|done|lia|].
    assert (bytes_value lp / 2 ^ k = bytes_value la / 2 ^ k) as HE' by lia. by rewrite M3, <- HE', HD.
Qed.

Lemma parseIPv6_wf s a : parseIPv6 s = Some a -> wf_ip a.
Proof.
  unfold parseIPv6. assert (forall pre ell t, Forall group pre -> (p ← parse_groups 8 pre ell t; expand p.1 p.2) = Some a -> wf_ip a) as HG.
  { intros pre ell t Hp H. destruct (parse_groups 8 pre ell t) as [[l e]|] eqn:E; [|done]. apply parse_groups_range in E; [|done]. by eapply expand_wf. }
  repeat case_match; intros H'; try (by eapply HG; [|exact H']); try (by simplify_eq).
  injection H' as <-. split; [done|]. by repeat constructor.
Qed.
Lemma observed_wf raw a : observed raw = Some a -> wf_ip a.
Proof.
  unfold observed. destruct (first_mark _) as [c|]; [|done]. repeat case_match; try done.
  all: intros H'; try (apply bind_Some in H' as (s & _ & H'); by eapply parseIPv6_wf).
  all: unfold ParseIP in H'; apply fmap_Some in H' as ([? ?] & H' & ->); by eapply ParseAddr_wf.
Qed.

Section Lookup.
Context `{C : Crypto}.

Lemma probe_held width m address : existsb (hit width m address) (lengths m) = true <->
  exists ones, held m ones (maskIP width address ones).
Proof.
  rewrite existsb_exists. setoid_rewrite <- list_elem_of_In. unfold hit, held, lengths. split.
  - intros (x & _ & Hx). exists x. by apply bool_decide_eq_true in Hx.
  - intros (x & Hx). exists x. split; [|by apply bool_decide_eq_true].
    rewrite (merge_sort_Permutation Z.ge), elem_of_elements, elem_of_dom. destruct (m !! x); [done|set_solver].
Qed.

Lemma listed_covers items a four : wf_ip a -> is_v4 a = four ->
  (exists ones, listed four items ones (maskIP (Z.to_nat (width_of four)) (AsSlice a four) ones)) <->
  (exists item p, item ∈ items /\ indicator item = Some p /\ covers p a).
Proof.
  intros Ha H4. split.
  - intros (ones & item & p & Hi & HP & Hf & Hb & HK). exists item, p. split_and!; [done|done|]. subst ones.
    apply (covers_mask p a four); [by eapply indicator_normal|done|done|done|done].
  - intros (item & p & Hi & HP & HC). exists (p_bits p), item, p. pose proof (proj1 HC) as Hf. rewrite H4 in Hf. split_and!; try done.
    symmetry. apply (covers_mask p a four); [by eapply indicator_normal|done|done|done|done].
Qed.

Lemma contains_iff items raw t : ContainsString raw (Replace items t) = true <->
  exists a, observed raw = Some a /\ exists item p, item ∈ items /\ indicator item = Some p /\ covers p a.
Proof.
  unfold ContainsString, Replace. destruct (fold_left index_item items (∅, ∅)) as [v4 v6] eqn:HI.
  cbn [ti_v4 ti_v6 ti_v4Lengths ti_v6Lengths]. destruct (observed raw) as [a|] eqn:HO; [|split; [done|naive_solver]].
  pose proof (observed_wf _ _ HO) as Ha. trans (exists item p, item ∈ items /\ indicator item = Some p /\ covers p a); [|naive_solver].
  assert (forall ones key, (held v4 ones key <-> listed true items ones key) /\ (held v6 ones key <-> listed false items ones key)) as HH.
  { intros ones key. pose proof (index_held items (∅, ∅) ones key) as HX. rewrite HI in HX. cbn [fst snd] in HX.
    assert (~ held ∅ ones key) as HN by (unfold held; rewrite lookup_empty; cbn; set_solver). tauto. }
  destruct (is_v4 a) eqn:H4; rewrite probe_held.
  - rewrite <- (listed_covers items a true Ha H4). by setoid_rewrite (proj1 (HH _ _)).
  - rewrite <- (listed_covers items a false Ha H4). by setoid_rewrite (proj2 (HH _ _)).
Qed.

(** C25: the threat index answers exactly. An address text is reported as covered
    when, and only when, it denotes an address (without its zone, a mapped one
    as the IPv4 address) that some indicator of the list covers: same family and
    equal in the leading bits. Lines of the list that are no indicators have no
    effect, and neither has the order or a repetition. *)
Theorem contains_exact items raw t : ContainsString raw (Replace items t) = true <->
  exists a, observed raw = Some a /\ exists item p, item ∈ items /\ indicator item = Some p /\ covers p a.
Proof. apply contains_iff. Qed.

(** A list whose tokens all passed the parser can cover the loopback address:
    the filter against poisoned lists looks at the first address of a prefix
    only, and a prefix wider than the refused range starts outside it. *)
Theorem wide_prefix_poisons t : parseThreatToken "64.0.0.0/2" = Some "64.0.0.0/2" /\
  parseThreatToken "127.0.0.0/8" = None /\ ContainsString "127.0.0.1" (Replace ["64.0.0.0/2"] t) = true.
Proof. split_and!; by vm_compute. Qed.

(** A bare mapped address is dropped although its prefix form is the same
    indicator, and a mapped prefix shorter than 96 bits, which no address ever
    matches, is kept. *)
Theorem mapped_forms_differ : parseThreatToken "::ffff:203.0.113.7" = None /\
  parseThreatToken "::ffff:203.0.113.7/128" = Some "203.0.113.7/32" /\
  parseThreatToken "::ffff:203.0.113.7/90" = Some "::ffc0:0:0/90".
Proof. split_and!; by vm_compute. Qed.

(** C39: a token that passes is a canonical indicator. What the parser returns is
    the text of the indicator the token denotes and parses back to it, so
    publishing, storing and loading a list loses nothing; it is no default
    route, and its first address is none of the refused ones (loopback, private,
    unspecified, multicast, link-local, cloud metadata). *)
Theorem token_canonical tok s : parseThreatToken tok = Some s -> exists p, (token_prefix tok ≫= normalizeThreatPrefix) = Some p /\
  Prefix_String p = s /\ indicator s = Some p /\ 1 <= p_bits p /\ refused_address (p_addr p) (Is4 p) = false.
Proof.
  unfold parseThreatToken. destruct (_ || _); [done|]. destruct (negb _); [done|]. destruct (token_prefix tok) as [q|] eqn:HQ; [|done].
  cbn [mbind option_bind]. destruct (normalizeThreatPrefix q) as [p|] eqn:HP; [|done]. cbn [mbind option_bind].
  destruct (refused_address _ _) eqn:HR; [done|]. intros [= <-]. exists p. split; [done|]. split; [done|].
  assert (normal p) as HN.
  { eapply normalize_normal; [|exact HP]. unfold token_prefix in HQ. case_bool_decide.
    - apply bind_Some in HQ as (r & HA & HB). destruct (_ =? 0); [done|]. injection HB as <-. apply ParsePrefix_sized in HA as [[Hw HS] Hb].
      split; [apply mask_wf|]. cbn [Masked p_addr p_width]. destruct HS as [[Hw' H4]|?]; [left|by right]. split; [done|]. rewrite Hw' in *. by apply mask_v4.
    - apply bind_Some in HQ as ([a w] & HA & HB). apply PrefixFrom_inv in HB as [-> Hb]. apply ParseAddr_wf in HA as [Hw HS].
      split; [done|]. cbn [p_addr p_width fst snd]. unfold Unmap_width. destruct (is_v4 a) eqn:H4; [by left|]. destruct HS as [[_ ?]|?]; [done|by right]. }
  split; [by apply reparse_prefix|]. split; [|done]. destruct (Z.eq_dec (p_bits p) 0) as [H0|]; [|destruct HN; lia].
  apply default_route_unspecified in H0; [|done]. unfold refused_address in HR. rewrite H0 in HR. by rewrite !orb_true_r in HR.
Qed.
End Lookup.

Lemma token_canonical_witness : exists p, indicator "203.0.113.0/24" = Some p /\ p_bits p = 24.
Proof.
  destruct (token_canonical "::ffff:203.0.113.9/120" "203.0.113.0/24") as (p & H1 & H2 & H3 & _); [by vm_compute|].
  exists p. split; [exact H3|]. vm_compute in H3. by injection H3 as <-.
Defined.
