(* ===== verification/KineticEngine.v ===== *)
(** * The kinetic detection engine

    src/control/kinetic_engine.go and the rolling counters of
    src/control/kinetic_live.go: one bounded tracking bucket per source, bounded
    aggregates per subnet, and the rules that turn their counters into events.
    An operation runs on the engine, the shared state and the world. The fields
    [FiveMinEpochs], [FiveMinHits], ... and [HourlyEpochs], ... of a bucket are
    arrays over the same index; here they are one array of slots. The three
    kinds of subnet bucket have the same fields. The engine is attached to the
    state when it is made, as the server does. An operation that ranges over a
    map takes the order of the keys as [visit]. *)

From Stdlib Require Import ZArith Lia Ascii String.
From stdpp Require Import base gmap strings list sorting.
From S2P Require Import Prelude.
From S2P Require Import GoLib.
From S2P Require Import Strconv.
From S2P Require Import Text.
From S2P Require Import World.
From S2P Require Import Storage.
From S2P Require Import Policy.
From S2P Require Import RateLimit.
From S2P Require Import Evidence.
From S2P Require Import NetIP.
From S2P Require Import Exec.
From S2P Require Import State.
From S2P Require Import Snapshot.
From S2P Require Import Release.
From S2P Require Import ThreatIndex.

(** * The kinetic rule registry (src/control/kinetic_rules.go)

    The rules of the network detectors with their severity, score and
    eligibility for containment. *)

(** [DefenseLayer] (src/control/kinetic_types.go) *)
Definition LayerIngressNetwork : string := "ingress_network".
Definition LayerApplicationL7 : string := "application_l7".
Definition LayerThreatIntel : string := "threat_intel".

Record KineticRuleDefinition := mkRuleDef {
  rd_ID : string; rd_Layer : string; rd_Category : string; rd_Severity : string; rd_DefaultScore : Z;
  rd_ContainEligible : bool; rd_BlockEligible : bool; rd_SignalSource : string; rd_Summary : string; rd_DefaultTTL : duration;
}.

Abbreviation KineticRuleRegistry := (gmap string KineticRuleDefinition).

(** [NewKineticRuleRegistry] *)
Definition kinetic_rules : list KineticRuleDefinition :=
  [mkRuleDef "NET.INGRESS.IP_RATE" LayerIngressNetwork "rate_limit" "medium" 75 true true "ebpf_sliding_window"
     "Single IP exceeded sustained hit rate threshold" (24 * Time.Hour);
   mkRuleDef "NET.INGRESS.IP_VELOCITY" LayerIngressNetwork "burst_limit" "high" 85 true true "ebpf_sliding_window"
     "Single IP exceeded instantaneous velocity/burst threshold" (24 * Time.Hour);
   mkRuleDef "NET.INGRESS.SYN_FLOOD" LayerIngressNetwork "flood" "high" 90 true true "ebpf_xdp"
     "Abnormal TCP SYN-only packet flood without handshake completion" (24 * Time.Hour);
   mkRuleDef "NET.INGRESS.PORT_SCAN" LayerIngressNetwork "reconnaissance" "high" 95 true true "ebpf_sliding_window"
     "Hostile portscan or connection attempt to protected dark port" (24 * Time.Hour);
   mkRuleDef "NET.INGRESS.PORT_DIVERSITY" LayerIngressNetwork "reconnaissance" "medium" 65 true false "ebpf_sliding_window"
     "Single IP probed multiple distinct destination ports" (6 * Time.Hour);
   mkRuleDef "NET.INGRESS.SUBNET_V4" LayerIngressNetwork "botnet_aggregation" "high" 100 true true "radix_subnet_aggregator"
     "Coordinated traffic surge across IPv4 /24 subnet block" (24 * Time.Hour);
   mkRuleDef "NET.INGRESS.SUBNET_V6" LayerIngressNetwork "botnet_aggregation" "high" 100 true true "radix_subnet_aggregator"
     "Coordinated traffic surge across IPv6 /64 subnet block" (24 * Time.Hour);
   mkRuleDef "NET.INGRESS.WIDE_V4" LayerIngressNetwork "botnet_aggregation" "critical" 120 false false "radix_subnet_aggregator"
     "Mass distributed botnet surge across IPv4 /16 sector block" (24 * Time.Hour);
   mkRuleDef "NET.INGRESS.LOW_SLOW_SCAN" LayerIngressNetwork "reconnaissance" "high" 92 true true "kinetic_long_window"
     "Source probed distinct destination ports across a long low-rate window" (24 * Time.Hour);
   mkRuleDef "NET.INGRESS.THREAT_INTEL_MATCH" LayerThreatIntel "threat_intelligence" "high" 80 false false "threat_intel_correlate"
     "Ingress source matched an active threat-intelligence prefix" 0;
   mkRuleDef "NET.INGRESS.MALFORMED_TCP" LayerIngressNetwork "protocol_anomaly" "high" 80 true true "ebpf_xdp"
     "Illegal or evasive TCP flag combinations detected in kernel" (12 * Time.Hour);
   mkRuleDef "TLS.CLIENTHELLO.MALFORMED" LayerApplicationL7 "protocol_anomaly" "medium" 45 false false "l7_tls_parser"
     "Malformed or truncated TLS ClientHello observed" 0;
   mkRuleDef "TLS.SNI.MISSING" LayerApplicationL7 "protocol_anomaly" "low" 25 false false "l7_tls_parser"
     "TLS ClientHello omitted SNI" 0;
   mkRuleDef "TLS.HOST_MISMATCH" LayerApplicationL7 "domain_spoofing" "medium" 60 false false "l7_tls_http_correlator"
     "HTTP Host did not match recent TLS SNI from the same source" 0;
   mkRuleDef "TLS.SNI.INVALID" LayerApplicationL7 "protocol_anomaly" "medium" 60 false false "l7_tls_parser"
     "Repeated direct IP or malformed hostname presented in TLS SNI" (12 * Time.Hour);
   mkRuleDef "TLS.SNI.REPEATED_INVALID" LayerApplicationL7 "protocol_anomaly" "high" 100 true true "l7_tls_parser"
     "Repeated invalid or missing TLS SNI crossed the configured strike threshold" (24 * Time.Hour);
   mkRuleDef "TLS.SNI.FOREIGN" LayerApplicationL7 "domain_spoofing" "high" 85 false false "l7_tls_parser"
     "TLS SNI requests domain outside authorized server scope" (24 * Time.Hour);
   mkRuleDef "TLS.JA3.MALICIOUS" LayerApplicationL7 "threat_signature" "critical" 150 true true "l7_tls_parser"
     "Client TLS handshake matched known malicious JA3 fingerprint" (48 * Time.Hour);
   mkRuleDef "TLS.JA3.STRUCTURAL_SPOOF" LayerApplicationL7 "evasion_detection" "high" 90 false false "l7_tls_parser"
     "TLS ClientHello simulates browser JA3 but lacks ALPN or GREASE extensions" (48 * Time.Hour);
   mkRuleDef "TLS.HANDSHAKE.FLOOD" LayerApplicationL7 "resource_exhaustion" "high" 95 true true "l7_tls_parser"
     "Client completed multiple TLS handshakes with zero subsequent HTTP requests" (24 * Time.Hour)].
Definition NewKineticRuleRegistry : KineticRuleRegistry := fold_left (fun m d => <[rd_ID d := d]> m) kinetic_rules ∅.

(** [Get], [CountLayer]; [List] in one of the orders of the map; [Register] *)
Definition Get (id : string) (r : KineticRuleRegistry) : option KineticRuleDefinition := r !! id.
Definition CountLayer (layer : string) (r : KineticRuleRegistry) : Z :=
  map_fold (fun _ d n => if bool_decide (rd_Layer d = layer) then n + 1 else n) 0 r.
Definition List_rules (order : list string) (r : KineticRuleRegistry) : list KineticRuleDefinition := omap (fun id => r !! id) order.
Definition Register (def : KineticRuleDefinition) (r : KineticRuleRegistry) : error * KineticRuleRegistry :=
  if bool_decide (rd_ID def = "") then (Some (ErrText "rule id cannot be empty"), r)
  else if bool_decide (rd_Layer def = "") then (Some (ErrText ("rule layer cannot be empty for " +:+ rd_ID def)), r)
  else (None, <[rd_ID def := def]> r).

(** ** The engine *)

(** [KineticConfig] (src/control/config.go) *)
Record KineticConfig := mkKConfig {
  kc_Enabled : bool; kc_EnforcementMode : string; kc_IPThreshold : Z; kc_VelocityLimit : Z; kc_RangeThreshold : Z;
  kc_IPv6SubThreshold : Z; kc_WideRangeThreshold : Z; kc_PortscanThreshold : Z; kc_SYNThreshold : Z; kc_SYNAckRatio : Z;
  kc_LowSlowMinSeconds : Z; kc_SubnetMinSources : Z; kc_IPv6SubnetMinSources : Z; kc_WideMinSources : Z;
  kc_AutoContainSingleIP : bool; kc_AutoContainIPv4Subnet : bool; kc_AutoContainIPv6Subnet : bool;
  kc_MaxTrackingIPs : Z; kc_BanTTLSeconds : Z; kc_MaxStrikesPerSec : Z;
  kc_ServicePortsWeb : list Z; kc_ServicePortsMail : list Z; kc_ServicePortsAdmin : list Z;
  kc_GeoIPCSV : string; kc_GeoIPSigningKeys : list string;
}.

(** [KineticRuntimeSettings] (src/control/runtime_settings.go) *)
Record KineticRuntimeSettings := mkKRuntime {
  rt_Enabled : bool; rt_EnforcementMode : string; rt_IPThreshold : Z; rt_VelocityLimit : Z; rt_RangeThreshold : Z;
  rt_IPv6SubThreshold : Z; rt_WideRangeThreshold : Z; rt_PortscanThreshold : Z; rt_SYNThreshold : Z; rt_SYNAckRatio : Z;
  rt_LowSlowMinSeconds : Z; rt_SubnetMinSources : Z; rt_IPv6SubnetMinSources : Z; rt_WideMinSources : Z;
  rt_AutoContainSingleIP : bool; rt_AutoContainIPv4Subnet : bool; rt_AutoContainIPv6Subnet : bool;
  rt_MaxTrackingIPs : Z; rt_BanTTLSeconds : Z; rt_MaxStrikesPerSec : Z;
  rt_ServicePortsWeb : list Z; rt_ServicePortsMail : list Z; rt_ServicePortsAdmin : list Z;
}.

(** [IngressPacket] *)
Record IngressPacket := mkPacket {
  pk_Family : Z; pk_Protocol : Z; pk_SrcIP : option ip; pk_DstIP : option ip; pk_SrcPort : Z; pk_DstPort : Z; pk_TCPFlags : Z;
  pk_AttemptCount : Z; pk_Packets : Z; pk_SYNCount : Z; pk_ACKCount : Z; pk_Bytes : Z; pk_Timestamp : time; pk_WindowEpoch : Z;
}.

(** [KineticTrafficBucket], and one slot of the rings of a source. *)
Record KineticTrafficBucket := mkTraffic { tb_Epoch : Z; tb_Hits : Z; tb_Attempts : Z; tb_SYNs : Z; tb_ACKs : Z }.

(** [IPTrackingBucket] *)
Record IPTrackingBucket := mkBucket {
  b_SrcIP : ip; b_IsV6 : bool; b_Hits : Z; b_Attempts : Z; b_Attempts1m : Z; b_WindowHits : Z; b_Velocity1s : Z;
  b_CurrentSecEpoch : Z; b_LastSeen : time; b_FirstSeen : time; b_PortsSeen : gset Z; b_PortAttempts : gmap Z Z;
  b_SYNCount : Z; b_ACKCount : Z; b_SYN1m : Z; b_ACK1m : Z; b_MalformedCount : Z; b_Score : Z; b_LastStrikeRule : string;
  b_LastStrikeAt : time; b_RuleLastSeen : gmap string time; b_CurrentMinute : Z; b_LastWindowEpoch : Z; b_Hits1m : Z;
  b_FiveMin : list KineticTrafficBucket; b_Hourly : list KineticTrafficBucket;
}.
Definition eta_bucket (b : IPTrackingBucket) : IPTrackingBucket :=
  mkBucket (b_SrcIP b) (b_IsV6 b) (b_Hits b) (b_Attempts b) (b_Attempts1m b) (b_WindowHits b) (b_Velocity1s b)
    (b_CurrentSecEpoch b) (b_LastSeen b) (b_FirstSeen b) (b_PortsSeen b) (b_PortAttempts b) (b_SYNCount b) (b_ACKCount b)
    (b_SYN1m b) (b_ACK1m b) (b_MalformedCount b) (b_Score b) (b_LastStrikeRule b) (b_LastStrikeAt b) (b_RuleLastSeen b)
    (b_CurrentMinute b) (b_LastWindowEpoch b) (b_Hits1m b) (b_FiveMin b) (b_Hourly b).
Definition set_Hits : Z -> IPTrackingBucket -> IPTrackingBucket := ltac:(setter eta_bucket b_Hits).
Definition set_Attempts : Z -> IPTrackingBucket -> IPTrackingBucket := ltac:(setter eta_bucket b_Attempts).
Definition set_Attempts1m : Z -> IPTrackingBucket -> IPTrackingBucket := ltac:(setter eta_bucket b_Attempts1m).
Definition set_WindowHits : Z -> IPTrackingBucket -> IPTrackingBucket := ltac:(setter eta_bucket b_WindowHits).
Definition set_Velocity1s : Z -> IPTrackingBucket -> IPTrackingBucket := ltac:(setter eta_bucket b_Velocity1s).
Definition set_CurrentSecEpoch : Z -> IPTrackingBucket -> IPTrackingBucket := ltac:(setter eta_bucket b_CurrentSecEpoch).
Definition set_LastSeen : time -> IPTrackingBucket -> IPTrackingBucket := ltac:(setter eta_bucket b_LastSeen).
Definition set_PortsSeen : gset Z -> IPTrackingBucket -> IPTrackingBucket := ltac:(setter eta_bucket b_PortsSeen).
Definition set_PortAttempts : gmap Z Z -> IPTrackingBucket -> IPTrackingBucket := ltac:(setter eta_bucket b_PortAttempts).
Definition set_SYNCount : Z -> IPTrackingBucket -> IPTrackingBucket := ltac:(setter eta_bucket b_SYNCount).
Definition set_ACKCount : Z -> IPTrackingBucket -> IPTrackingBucket := ltac:(setter eta_bucket b_ACKCount).
Definition set_SYN1m : Z -> IPTrackingBucket -> IPTrackingBucket := ltac:(setter eta_bucket b_SYN1m).
Definition set_ACK1m : Z -> IPTrackingBucket -> IPTrackingBucket := ltac:(setter eta_bucket b_ACK1m).
Definition set_MalformedCount : Z -> IPTrackingBucket -> IPTrackingBucket := ltac:(setter eta_bucket b_MalformedCount).
Definition set_Score : Z -> IPTrackingBucket -> IPTrackingBucket := ltac:(setter eta_bucket b_Score).
Definition set_LastStrikeRule : string -> IPTrackingBucket -> IPTrackingBucket := ltac:(setter eta_bucket b_LastStrikeRule).
Definition set_LastStrikeAt : time -> IPTrackingBucket -> IPTrackingBucket := ltac:(setter eta_bucket b_LastStrikeAt).
Definition set_RuleLastSeen : gmap string time -> IPTrackingBucket -> IPTrackingBucket := ltac:(setter eta_bucket b_RuleLastSeen).
Definition set_CurrentMinute : Z -> IPTrackingBucket -> IPTrackingBucket := ltac:(setter eta_bucket b_CurrentMinute).
Definition set_LastWindowEpoch : Z -> IPTrackingBucket -> IPTrackingBucket := ltac:(setter eta_bucket b_LastWindowEpoch).
Definition set_Hits1m : Z -> IPTrackingBucket -> IPTrackingBucket := ltac:(setter eta_bucket b_Hits1m).
Definition set_FiveMin : list KineticTrafficBucket -> IPTrackingBucket -> IPTrackingBucket := ltac:(setter eta_bucket b_FiveMin).
Definition set_Hourly : list KineticTrafficBucket -> IPTrackingBucket -> IPTrackingBucket := ltac:(setter eta_bucket b_Hourly).

(** [SubnetV4Bucket], [WideV4Bucket], [SubnetV6Bucket] *)
Record SubnetBucket := mkSubnet {
  sb_Subnet : string; sb_AggregateHits : Z; sb_ActiveIPs : gmap string time; sb_WindowStart : time; sb_LastSeen : time; sb_LastStrikeAt : time;
}.

(** [KineticEvent] (src/control/kinetic_types.go), the fields the engine fills. *)
Inductive meta := MBool (b : bool) | MInt (n : Z) | MText (s : string).
Record KineticEvent := mkKEvent {
  ke_ID : string; ke_Time : time; ke_Layer : string; ke_Sensor : string; ke_RuleID : string; ke_Category : string; ke_Severity : string;
  ke_Score : Z; ke_Confidence : float64; ke_SourceIP : string; ke_DestinationIP : string; ke_Port : Z; ke_Protocol : string;
  ke_Domain : string; ke_JA3Fingerprint : string; ke_Subnet : string; ke_Hits : Z; ke_RatePerSec : float64; ke_Action : string;
  ke_Decision : string; ke_Fingerprint : string; ke_Metadata : gmap string meta;
}.

(** [BoundedEventQueue] *)
Record BoundedEventQueue := mkQueue { q_capacity : Z; q_events : list KineticEvent; q_drops : Z }.
Definition NewBoundedEventQueue (capacity : Z) : BoundedEventQueue := mkQueue (if capacity <=? 0 then 250 else capacity) [] 0.
Definition Push (e : KineticEvent) (q : BoundedEventQueue) : BoundedEventQueue :=
  if q_capacity q <=? Z.of_nat (length (q_events q))
  then mkQueue (q_capacity q) (drop 1 (q_events q) ++ [e]) (u64 (q_drops q + 1))
  else mkQueue (q_capacity q) (q_events q ++ [e]) (q_drops q).

(** The event counters of the engine. *)
Record Tallies := mkTallies {
  ta_hits : Z; ta_velocityBursts : Z; ta_portscans : Z; ta_subnetStrikes : Z; ta_l7Strikes : Z;
  ta_trackingDrops : Z; ta_trackingEvictions : Z; ta_aggregateEvictions : Z;
}.
Definition eta_tallies (t : Tallies) : Tallies :=
  mkTallies (ta_hits t) (ta_velocityBursts t) (ta_portscans t) (ta_subnetStrikes t) (ta_l7Strikes t) (ta_trackingDrops t)
    (ta_trackingEvictions t) (ta_aggregateEvictions t).
Definition set_hits : Z -> Tallies -> Tallies := ltac:(setter eta_tallies ta_hits).
Definition set_velocityBursts : Z -> Tallies -> Tallies := ltac:(setter eta_tallies ta_velocityBursts).
Definition set_portscans : Z -> Tallies -> Tallies := ltac:(setter eta_tallies ta_portscans).
Definition set_subnetStrikes : Z -> Tallies -> Tallies := ltac:(setter eta_tallies ta_subnetStrikes).
Definition set_l7Strikes : Z -> Tallies -> Tallies := ltac:(setter eta_tallies ta_l7Strikes).
Definition set_trackingDrops : Z -> Tallies -> Tallies := ltac:(setter eta_tallies ta_trackingDrops).
Definition set_trackingEvictions : Z -> Tallies -> Tallies := ltac:(setter eta_tallies ta_trackingEvictions).
Definition set_aggregateEvictions : Z -> Tallies -> Tallies := ltac:(setter eta_tallies ta_aggregateEvictions).

(** [KineticEngine] *)
Record KineticEngine := mkEngine {
  en_cfg : KineticConfig; en_rules : KineticRuleRegistry; en_eventQueue : BoundedEventQueue;
  en_ipBuckets : gmap string IPTrackingBucket; en_subnetV4 : gmap string SubnetBucket; en_wideV4 : gmap string SubnetBucket;
  en_subnetV6 : gmap string SubnetBucket; en_allowlistNets : list IPNet; en_allowlistIPs : gset string;
  en_threatBlock : option ThreatIndex; en_threatCorrelate : option ThreatIndex; en_threatAnnotate : option ThreatIndex;
  en_tallies : Tallies; en_maxSubnetBuckets : Z; en_maxWideBuckets : Z; en_tokenBucketAvailable : Z; en_tokenBucketLastSec : Z;
  en_startedAt : time; en_secondHistory : list KineticTrafficBucket; en_minuteHistory : list KineticTrafficBucket;
}.
Definition eta_engine (e : KineticEngine) : KineticEngine :=
  mkEngine (en_cfg e) (en_rules e) (en_eventQueue e) (en_ipBuckets e) (en_subnetV4 e) (en_wideV4 e) (en_subnetV6 e)
    (en_allowlistNets e) (en_allowlistIPs e) (en_threatBlock e) (en_threatCorrelate e) (en_threatAnnotate e) (en_tallies e)
    (en_maxSubnetBuckets e) (en_maxWideBuckets e) (en_tokenBucketAvailable e) (en_tokenBucketLastSec e) (en_startedAt e)
    (en_secondHistory e) (en_minuteHistory e).
Definition set_ecfg : KineticConfig -> KineticEngine -> KineticEngine := ltac:(setter eta_engine en_cfg).
Definition set_queue : BoundedEventQueue -> KineticEngine -> KineticEngine := ltac:(setter eta_engine en_eventQueue).
Definition set_ipBuckets : gmap string IPTrackingBucket -> KineticEngine -> KineticEngine := ltac:(setter eta_engine en_ipBuckets).
Definition set_subnetV4 : gmap string SubnetBucket -> KineticEngine -> KineticEngine := ltac:(setter eta_engine en_subnetV4).
Definition set_wideV4 : gmap string SubnetBucket -> KineticEngine -> KineticEngine := ltac:(setter eta_engine en_wideV4).
Definition set_subnetV6 : gmap string SubnetBucket -> KineticEngine -> KineticEngine := ltac:(setter eta_engine en_subnetV6).
Definition set_enets : list IPNet -> KineticEngine -> KineticEngine := ltac:(setter eta_engine en_allowlistNets).
Definition set_eips : gset string -> KineticEngine -> KineticEngine := ltac:(setter eta_engine en_allowlistIPs).
Definition set_threatBlock : option ThreatIndex -> KineticEngine -> KineticEngine := ltac:(setter eta_engine en_threatBlock).
Definition set_threatCorrelate : option ThreatIndex -> KineticEngine -> KineticEngine := ltac:(setter eta_engine en_threatCorrelate).
Definition set_threatAnnotate : option ThreatIndex -> KineticEngine -> KineticEngine := ltac:(setter eta_engine en_threatAnnotate).
Definition set_tallies : Tallies -> KineticEngine -> KineticEngine := ltac:(setter eta_engine en_tallies).
Definition set_maxSubnetBuckets : Z -> KineticEngine -> KineticEngine := ltac:(setter eta_engine en_maxSubnetBuckets).
Definition set_maxWideBuckets : Z -> KineticEngine -> KineticEngine := ltac:(setter eta_engine en_maxWideBuckets).
Definition set_tokenAvailable : Z -> KineticEngine -> KineticEngine := ltac:(setter eta_engine en_tokenBucketAvailable).
Definition set_tokenSec : Z -> KineticEngine -> KineticEngine := ltac:(setter eta_engine en_tokenBucketLastSec).
Definition set_secondHistory : list KineticTrafficBucket -> KineticEngine -> KineticEngine := ltac:(setter eta_engine en_secondHistory).
Definition set_minuteHistory : list KineticTrafficBucket -> KineticEngine -> KineticEngine := ltac:(setter eta_engine en_minuteHistory).
Definition count (f : Tallies -> Tallies) (e : KineticEngine) : KineticEngine := set_tallies (f (en_tallies e)) e.

(** ** Capacity, allowlist, services *)

(** [boundedAggregateCapacity] *)
Definition boundedAggregateCapacity (maxTracking divisor floor ceiling : Z) : Z :=
  let divisor := if divisor <=? 0 then 1 else divisor in
  let capacity := Z.quot maxTracking divisor in
  let capacity := if capacity <? floor then floor else capacity in
  if ceiling <? capacity then ceiling else capacity.
Definition subnet_capacity (maxTracking : Z) : Z := boundedAggregateCapacity maxTracking 4 256 16384.
Definition wide_capacity (maxTracking : Z) : Z := boundedAggregateCapacity maxTracking 16 128 4096.

(** [UpdateAllowlist]; the host addresses and the link-local network are always
    on it. *)
Section Allowlist.
Context `{U : Unicode}.
Definition allow_entry (item : string) (e : KineticEngine) : KineticEngine :=
  let item := TrimSpace item in
  if bool_decide (item = "") then e
  else if bool_decide ("/"%char ∈ bytes_of item) then
    match ParseCIDR item with
    | Some n => set_enets (en_allowlistNets e ++ [n]) e
    | None => e
    end
  else
    match ParseIP item with
    | Some a => set_eips ({[IP_String a]} ∪ en_allowlistIPs e) e
    | None => e
    end.
Definition UpdateAllowlist (allowlist : list string) (e : KineticEngine) : KineticEngine :=
  let e := set_eips {["127.0.0.1"; "::1"; "0.0.0.0"; "::"]} (set_enets [] e) in
  let e := match ParseCIDR "fe80::/10" with
           | Some n => set_enets (en_allowlistNets e ++ [n]) e
           | None => e
           end in
  fold_left (fun e item => allow_entry item e) allowlist e.

(** [NewKineticEngine] *)
Definition at_least (x dflt : Z) : Z := if x <=? 0 then dflt else x.
Definition with_defaults (c : KineticConfig) : KineticConfig :=
  mkKConfig (kc_Enabled c) (kc_EnforcementMode c) (at_least (kc_IPThreshold c) 35) (at_least (kc_VelocityLimit c) 15)
    (at_least (kc_RangeThreshold c) 45) (at_least (kc_IPv6SubThreshold c) 55) (at_least (kc_WideRangeThreshold c) 77)
    (at_least (kc_PortscanThreshold c) 5) (at_least (kc_SYNThreshold c) 25) (at_least (kc_SYNAckRatio c) 4)
    (at_least (kc_LowSlowMinSeconds c) 60) (at_least (kc_SubnetMinSources c) 2) (at_least (kc_IPv6SubnetMinSources c) 2)
    (at_least (kc_WideMinSources c) 4) (kc_AutoContainSingleIP c) (kc_AutoContainIPv4Subnet c) (kc_AutoContainIPv6Subnet c)
    (at_least (kc_MaxTrackingIPs c) 65536) (at_least (kc_BanTTLSeconds c) 86400) (at_least (kc_MaxStrikesPerSec c) 100)
    (kc_ServicePortsWeb c) (kc_ServicePortsMail c) (kc_ServicePortsAdmin c) (kc_GeoIPCSV c) (kc_GeoIPSigningKeys c).
Definition empty_slot : KineticTrafficBucket := mkTraffic 0 0 0 0 0.
Definition NewKineticEngine (cfg : KineticConfig) (rules : KineticRuleRegistry) (allowlist : list string) (now : time) : KineticEngine :=
  let cfg := with_defaults cfg in
  UpdateAllowlist allowlist
    (mkEngine cfg rules (NewBoundedEventQueue 250) ∅ ∅ ∅ ∅ [] ∅ None None None (mkTallies 0 0 0 0 0 0 0 0)
       (subnet_capacity (kc_MaxTrackingIPs cfg)) (wide_capacity (kc_MaxTrackingIPs cfg)) (kc_MaxStrikesPerSec cfg) (Time.Unix now) now
       (replicate 60 empty_slot) (replicate (Z.to_nat 1441) empty_slot)).
End Allowlist.

(** [isAllowlistedLocked]; [IsAllowlisted] is the same under the read lock. *)
Definition isAllowlistedLocked (a : option ip) (e : KineticEngine) : bool :=
  match a with
  | None => true
  | Some a => bool_decide (IP_String a ∈ en_allowlistIPs e) || existsb (fun n => Contains n a) (en_allowlistNets e)
  end.

(** [SetThreatIntel] *)
Definition SetThreatIntel (block correlate annotate : option ThreatIndex) (e : KineticEngine) : KineticEngine :=
  set_threatBlock block (set_threatCorrelate correlate (set_threatAnnotate annotate e)).

(** [classifyKineticService] *)
Definition classifyKineticService (cfg : KineticConfig) (port : Z) : string * Z :=
  if bool_decide (port ∈ kc_ServicePortsWeb cfg) then ("web", 1)
  else if bool_decide (port ∈ kc_ServicePortsMail cfg) then ("mail", 2)
  else if bool_decide (port ∈ kc_ServicePortsAdmin cfg) then
    if bool_decide (port ∈ [22; 2222]) then ("ssh", 5)
    else if bool_decide (port ∈ [3306; 5432; 27017; 6379]) then ("database", 6) else ("admin_panel", 5)
  else if port =? 21 then ("ftp", 4) else ("other", 3).

(** [kineticConfigFromRuntime] *)
Definition kineticConfigFromRuntime (base : KineticConfig) (runtime : KineticRuntimeSettings) : KineticConfig :=
  mkKConfig (rt_Enabled runtime) (rt_EnforcementMode runtime) (rt_IPThreshold runtime) (rt_VelocityLimit runtime)
    (rt_RangeThreshold runtime) (rt_IPv6SubThreshold runtime) (rt_WideRangeThreshold runtime) (rt_PortscanThreshold runtime)
    (rt_SYNThreshold runtime) (rt_SYNAckRatio runtime) (rt_LowSlowMinSeconds runtime) (rt_SubnetMinSources runtime)
    (rt_IPv6SubnetMinSources runtime) (rt_WideMinSources runtime) (rt_AutoContainSingleIP runtime)
    (rt_AutoContainIPv4Subnet runtime) (rt_AutoContainIPv6Subnet runtime) (rt_MaxTrackingIPs runtime)
    (rt_BanTTLSeconds runtime) (rt_MaxStrikesPerSec runtime) (rt_ServicePortsWeb runtime) (rt_ServicePortsMail runtime)
    (rt_ServicePortsAdmin runtime) (kc_GeoIPCSV base) (kc_GeoIPSigningKeys base).

(** [SubnetKeys]: is it IPv6, the /24 or /64, the /16. *)
Definition hex2 (n : Z) : string := of_bytes [hex_char (n / 16); hex_char (n mod 16)].
Definition hex4 (g : Z) : string := hex2 (g / 256) +:+ hex2 (g mod 256).
Definition SubnetKeys (a : option ip) : bool * string * string :=
  match a with
  | None => (false, "", "")
  | Some a =>
      if is_v4 a then
        match v4_octets a with
        | [b0; b1; b2; _] => (false, itoa b0 +:+ "." +:+ itoa b1 +:+ "." +:+ itoa b2 +:+ ".0/24", itoa b0 +:+ "." +:+ itoa b1 +:+ ".0.0/16")
        | _ => (false, "", "")
        end
      else
        match a with
        | g0 :: g1 :: g2 :: g3 :: _ => (true, join_with ":" (map hex4 [g0; g1; g2; g3]) +:+ "::/64", "IPv6_WIDE")
        | _ => (false, "", "")
        end
  end.

(** ** Eviction *)

Definition visits (visit : gset string -> list string) : Prop := forall d, visit d ≡ₚ elements d.

Section Evict.
Context {A : Type} (seen : A -> time).

(** [evictOldestSubnetV4Locked] and its siblings; the key to remove. *)
Definition older_step (m : gmap string A) (acc : string * time) (key : string) : string * time :=
  match m !! key with
  | Some b => if bool_decide (acc.1 = "") || Time.Before (seen b) acc.2 then (key, seen b) else acc
  | None => acc
  end.
Definition oldest_key (visit : gset string -> list string) (m : gmap string A) : string :=
  (fold_left (older_step m) (visit (dom m)) ("", 0)).1.
Definition evict_oldest (visit : gset string -> list string) (m : gmap string A) : bool * gmap string A :=
  let key := oldest_key visit m in
  if bool_decide (key = "") then (false, m) else (true, delete key m).

(** [evictStaleIPBucketLocked] removes the first bucket it meets that was idle
    for over an hour, or else the oldest. *)
Fixpoint stale_or_oldest (now : time) (m : gmap string A) (order : list string) (acc : string * time) : string :=
  match order with
  | [] => acc.1
  | key :: order =>
      let acc := older_step m acc key in
      match m !! key with
      | Some b => if Time.Hour <? Time.Sub now (seen b) then key else stale_or_oldest now m order acc
      | None => stale_or_oldest now m order acc
      end
  end.
Definition evict_stale (now : time) (visit : gset string -> list string) (m : gmap string A) : bool * gmap string A :=
  let key := stale_or_oldest now m (visit (dom m)) ("", 0) in
  if bool_decide (key = "") then (false, m) else (true, delete key m).
End Evict.

Definition evictStaleIPBucketLocked (visit : gset string -> list string) (now : time) (e : KineticEngine) : KineticEngine :=
  let '(evicted, m) := evict_stale b_LastSeen now visit (en_ipBuckets e) in
  let e := set_ipBuckets m e in
  if evicted then count (fun t => set_trackingEvictions (u64 (ta_trackingEvictions t + 1)) t) e else e.
Definition note_aggregate (evicted : bool) (e : KineticEngine) : KineticEngine :=
  if evicted then count (fun t => set_aggregateEvictions (u64 (ta_aggregateEvictions t + 1)) t) e else e.
Definition evictOldestSubnetV4Locked (visit : gset string -> list string) (e : KineticEngine) : KineticEngine :=
  let '(evicted, m) := evict_oldest sb_LastSeen visit (en_subnetV4 e) in note_aggregate evicted (set_subnetV4 m e).
Definition evictOldestSubnetV6Locked (visit : gset string -> list string) (e : KineticEngine) : KineticEngine :=
  let '(evicted, m) := evict_oldest sb_LastSeen visit (en_subnetV6 e) in note_aggregate evicted (set_subnetV6 m e).
Definition evictOldestWideV4Locked (visit : gset string -> list string) (e : KineticEngine) : KineticEngine :=
  let '(evicted, m) := evict_oldest sb_LastSeen visit (en_wideV4 e) in note_aggregate evicted (set_wideV4 m e).

(** ** Rolling counters *)

(** [positiveRingIndex] *)
Definition positiveRingIndex (epoch size : Z) : Z :=
  if size <=? 0 then 0
  else let idx := Z.rem epoch size in if idx <? 0 then idx + size else idx.

(** [addUint16Saturating], [addUint32Saturating] *)
Definition add_saturating (limit dst value : Z) : Z :=
  if value <=? 0 then dst else dst + Z.min value (limit - dst).

(** One slot of a ring: emptied when another epoch begins, then counted up. *)
Definition slot_add (add : Z -> Z -> Z) (epoch hits attempts syns acks : Z) (s : KineticTrafficBucket) : KineticTrafficBucket :=
  let s := if tb_Epoch s =? epoch then s else mkTraffic epoch 0 0 0 0 in
  mkTraffic epoch (add (tb_Hits s) hits) (add (tb_Attempts s) attempts) (add (tb_SYNs s) syns) (add (tb_ACKs s) acks).
Definition ring_add (add : Z -> Z -> Z) (epoch hits attempts syns acks : Z) (ring : list KineticTrafficBucket) : list KineticTrafficBucket :=
  alter (slot_add add epoch hits attempts syns acks) (Z.to_nat (positiveRingIndex epoch (Z.of_nat (length ring)))) ring.

(** [recordLongWindowsLocked] *)
Definition recordLongWindowsLocked (windowEpoch hits attempts syns acks : Z) (b : IPTrackingBucket) : IPTrackingBucket :=
  if hits <=? 0 then b
  else
    let minute := Z.quot windowEpoch 60 in
    let b := if b_CurrentMinute b =? minute then b
             else set_CurrentMinute minute (set_Hits1m 0 (set_Attempts1m 0 (set_SYN1m 0 (set_ACK1m 0 b)))) in
    let b := set_Hits1m (i64 (b_Hits1m b + hits)) (set_Attempts1m (i64 (b_Attempts1m b + attempts))
               (set_SYN1m (i64 (b_SYN1m b + syns)) (set_ACK1m (i64 (b_ACK1m b + acks)) b))) in
    let b := set_LastWindowEpoch windowEpoch b in
    let b := set_FiveMin (ring_add (add_saturating MaxUint16) (Z.quot windowEpoch 300) hits attempts syns acks (b_FiveMin b)) b in
    set_Hourly (ring_add (add_saturating MaxUint32) (Z.quot windowEpoch 3600) hits attempts syns acks (b_Hourly b)) b.

(** [recordTrafficHistoryLocked] (src/control/kinetic_live.go) *)
Definition add_u64 (dst value : Z) : Z := u64 (dst + Z.max value 0).
Definition recordTrafficHistoryLocked (secEpoch hits attempts syns acks : Z) (e : KineticEngine) : KineticEngine :=
  if (secEpoch <=? 0) || (hits <=? 0) then e
  else
    set_secondHistory (ring_add add_u64 secEpoch hits attempts syns acks (en_secondHistory e))
      (set_minuteHistory (ring_add add_u64 (Z.quot secEpoch 60) hits attempts syns acks (en_minuteHistory e)) e).

(** [windowHitsLocked] *)
Definition windowHitsLocked (b : IPTrackingBucket) (window : duration) : Z :=
  if window <=? 0 then 0
  else if window <=? Time.Minute then b_Hits1m b
  else
    let nowFive := Z.quot (b_LastWindowEpoch b) 300 in
    let nowFive := if nowFive =? 0 then Z.quot (Time.Unix (b_LastSeen b)) 300 else nowFive in
    let buckets := Z.quot (i64 (window + 5 * Time.Minute - 1)) (5 * Time.Minute) in
    let buckets := if Z.of_nat (length (b_FiveMin b)) <? buckets then Z.of_nat (length (b_FiveMin b)) else buckets in
    fold_left (fun total s =>
      if (0 <? tb_Epoch s) && (0 <=? nowFive - tb_Epoch s) && (nowFive - tb_Epoch s <? buckets) then total + tb_Hits s else total)
      (b_FiveMin b) 0.

(** [UpdateConfig]. A loop [for len(m) > max { evict }] ends when every round
    removes a key; [None] stands for a loop that does not end. The clock is read
    in every round, here as a function of the buckets left. *)
Section Shrink.
Context {A : Type} (size_of : A -> Z) (evict : A -> A) (max : Z).
Fixpoint shrink (fuel : nat) (x : A) : option A :=
  if size_of x <=? max then Some x
  else match fuel with
       | O => None
       | S fuel => shrink fuel (evict x)
       end.
End Shrink.
Definition sizeZ {A} (m : gmap string A) : Z := Z.of_nat (size m).
Definition shrink_to (len : KineticEngine -> Z) (evict : KineticEngine -> KineticEngine) (max : Z) (e : KineticEngine) : option KineticEngine :=
  shrink len evict max (Z.to_nat (len e)) e.
Definition UpdateConfig (visit : gset string -> list string) (clock : gset string -> time) (runtime : KineticRuntimeSettings) (e : KineticEngine)
  : option KineticEngine :=
  let e := set_ecfg (kineticConfigFromRuntime (en_cfg e) runtime) e in
  let e := set_maxSubnetBuckets (subnet_capacity (kc_MaxTrackingIPs (en_cfg e))) e in
  let e := set_maxWideBuckets (wide_capacity (kc_MaxTrackingIPs (en_cfg e))) e in
  let e := if kc_MaxStrikesPerSec (en_cfg e) <? en_tokenBucketAvailable e then set_tokenAvailable (kc_MaxStrikesPerSec (en_cfg e)) e else e in
  e ← shrink_to (fun e => sizeZ (en_ipBuckets e)) (fun e => evictStaleIPBucketLocked visit (clock (dom (en_ipBuckets e))) e) (kc_MaxTrackingIPs (en_cfg e)) e;
  e ← shrink_to (fun e => sizeZ (en_subnetV4 e)) (evictOldestSubnetV4Locked visit) (en_maxSubnetBuckets e) e;
  e ← shrink_to (fun e => sizeZ (en_subnetV6 e)) (evictOldestSubnetV6Locked visit) (en_maxSubnetBuckets e) e;
  shrink_to (fun e => sizeZ (en_wideV4 e)) (evictOldestWideV4Locked visit) (en_maxWideBuckets e) e.

(** ** One packet: counting *)

(** The deltas of a sample. *)
Definition flag (pkt : IngressPacket) (mask : Z) : bool := negb (Z.land (pk_TCPFlags pkt) mask =? 0).
Definition sampleCount (pkt : IngressPacket) : Z := if pk_Packets pkt <=? 0 then 1 else pk_Packets pkt.
Definition single_tcp (pkt : IngressPacket) : bool := (pk_Protocol pkt =? 6) && (sampleCount pkt =? 1).
Definition synDelta (pkt : IngressPacket) : Z :=
  if single_tcp pkt && (pk_SYNCount pkt =? 0) && flag pkt 2 && negb (flag pkt 16) then 1 else pk_SYNCount pkt.
Definition ackDelta (pkt : IngressPacket) : Z :=
  if single_tcp pkt && (pk_ACKCount pkt =? 0) && flag pkt 16 then 1 else pk_ACKCount pkt.
Definition activityCount (pkt : IngressPacket) : Z :=
  let n := if pk_WindowEpoch pkt =? 0
           then (if (pk_Protocol pkt =? 6) || (pk_Protocol pkt =? 0) then synDelta pkt else sampleCount pkt)
           else pk_AttemptCount pkt in
  if (n <? 0) || (sampleCount pkt <? n) then 0 else n.
Definition second_of (pkt : IngressPacket) (now : time) : Z :=
  if 0 <? pk_WindowEpoch pkt then i64 (pk_WindowEpoch pkt) else Time.Unix now.

(** The bucket of the source, made when there is room or after an eviction;
    [None] when the sample is dropped. *)
Definition fresh_bucket (a : ip) (now : time) (secEpoch : Z) : IPTrackingBucket :=
  mkBucket a (SubnetKeys (Some a)).1.1 0 0 0 0 0 secEpoch now now ∅ ∅ 0 0 0 0 0 0 "" 0 ∅ (Z.quot secEpoch 60) 0 0
    (replicate 13 empty_slot) (replicate 25 empty_slot).
Definition admit_source (visit : gset string -> list string) (a : ip) (now : time) (secEpoch : Z) (e : KineticEngine)
  : option IPTrackingBucket * KineticEngine :=
  match en_ipBuckets e !! IP_String a with
  | Some b => (Some b, e)
  | None =>
      let e := if kc_MaxTrackingIPs (en_cfg e) <=? sizeZ (en_ipBuckets e) then evictStaleIPBucketLocked visit now e else e in
      if kc_MaxTrackingIPs (en_cfg e) <=? sizeZ (en_ipBuckets e)
      then (None, count (fun t => set_trackingDrops (u64 (ta_trackingDrops t + 1)) t) e)
      else (Some (fresh_bucket a now secEpoch), e)
  end.

(** The one-second window, the totals and the long windows. *)
Definition count_velocity (pkt : IngressPacket) (secEpoch : Z) (b : IPTrackingBucket) : IPTrackingBucket :=
  let b := if b_CurrentSecEpoch b =? secEpoch then b else set_CurrentSecEpoch secEpoch (set_Velocity1s 0 b) in
  if 0 <? synDelta pkt then set_Velocity1s (i64 (b_Velocity1s b + synDelta pkt)) b
  else if negb (pk_Protocol pkt =? 0) && negb (pk_Protocol pkt =? 6) then set_Velocity1s (i64 (b_Velocity1s b + sampleCount pkt)) b
  else b.
Definition count_totals (pkt : IngressPacket) (now : time) (secEpoch : Z) (b : IPTrackingBucket) : IPTrackingBucket :=
  let b := set_Hits (i64 (b_Hits b + sampleCount pkt)) (set_Attempts (i64 (b_Attempts b + activityCount pkt))
             (set_WindowHits (i64 (b_WindowHits b + sampleCount pkt)) (set_LastSeen now b))) in
  let b := recordLongWindowsLocked secEpoch (sampleCount pkt) (activityCount pkt) (synDelta pkt) (ackDelta pkt) b in
  set_SYNCount (i64 (b_SYNCount b + synDelta pkt)) (set_ACKCount (i64 (b_ACKCount b + ackDelta pkt)) b).

(** Destination ports, sixty-four at most. *)
Definition count_port (pkt : IngressPacket) (b : IPTrackingBucket) : IPTrackingBucket :=
  let port := pk_DstPort pkt in
  if (0 <? activityCount pkt) && (0 <? port) && (bool_decide (port ∈ b_PortsSeen b) || (Z.of_nat (size (b_PortsSeen b)) <? 64)) then
    let current := default 0 (b_PortAttempts b !! port) in
    let b := set_PortsSeen ({[port]} ∪ b_PortsSeen b) b in
    let add := Z.min (activityCount pkt) (MaxUint16 - current) in
    if (current <? MaxUint16) && (0 <? add) then set_PortAttempts (<[port := current + add]> (b_PortAttempts b)) b else b
  else b.

(** Illegal combinations of TCP flags. *)
Definition count_malformed (pkt : IngressPacket) (b : IPTrackingBucket) : IPTrackingBucket :=
  if (pk_Protocol pkt =? 6) && ((pk_TCPFlags pkt =? 0) || (flag pkt 2 && flag pkt 4) || (flag pkt 1 && flag pkt 8 && flag pkt 32))
  then set_MalformedCount (i64 (b_MalformedCount b + 1)) b else b.

Definition count_packet (pkt : IngressPacket) (now : time) (secEpoch : Z) (b : IPTrackingBucket) : IPTrackingBucket :=
  count_malformed pkt (count_port pkt (count_totals pkt now secEpoch (count_velocity pkt secEpoch b))).

(** The aggregate of one subnet: a window of [window], [sources] addresses at
    most. *)
Definition aggregate (window : duration) (sources : Z) (ipKey : string) (now : time) (n : Z) (b : SubnetBucket) : SubnetBucket :=
  let b := if Time.IsZero (sb_WindowStart b) || (window <=? Time.Sub now (sb_WindowStart b))
           then mkSubnet (sb_Subnet b) 0 ∅ now (sb_LastSeen b) (sb_LastStrikeAt b) else b in
  mkSubnet (sb_Subnet b) (i64 (sb_AggregateHits b + n))
    (if sizeZ (sb_ActiveIPs b) <? sources then <[ipKey := now]> (sb_ActiveIPs b) else sb_ActiveIPs b)
    (sb_WindowStart b) now (sb_LastStrikeAt b).
Definition fresh_subnet (key : string) (now : time) : SubnetBucket := mkSubnet key 0 ∅ now 0 0.

Definition aggregate_v4 (visit : gset string -> list string) (subKey ipKey : string) (now : time) (n : Z) (e : KineticEngine) : KineticEngine :=
  let '(b, e) := match en_subnetV4 e !! subKey with
                 | Some b => (b, e)
                 | None => (fresh_subnet subKey now, if en_maxSubnetBuckets e <=? sizeZ (en_subnetV4 e) then evictOldestSubnetV4Locked visit e else e)
                 end in
  set_subnetV4 (<[subKey := aggregate (5 * Time.Minute) 256 ipKey now n b]> (en_subnetV4 e)) e.
Definition aggregate_wide (visit : gset string -> list string) (wideKey ipKey : string) (now : time) (n : Z) (e : KineticEngine) : KineticEngine :=
  let '(b, e) := match en_wideV4 e !! wideKey with
                 | Some b => (b, e)
                 | None => (fresh_subnet wideKey now, if en_maxWideBuckets e <=? sizeZ (en_wideV4 e) then evictOldestWideV4Locked visit e else e)
                 end in
  set_wideV4 (<[wideKey := aggregate (15 * Time.Minute) 1024 ipKey now n b]> (en_wideV4 e)) e.
Definition aggregate_v6 (visit : gset string -> list string) (subKey ipKey : string) (now : time) (n : Z) (e : KineticEngine) : KineticEngine :=
  let '(b, e) := match en_subnetV6 e !! subKey with
                 | Some b => (b, e)
                 | None => (fresh_subnet subKey now, if en_maxSubnetBuckets e <=? sizeZ (en_subnetV6 e) then evictOldestSubnetV6Locked visit e else e)
                 end in
  set_subnetV6 (<[subKey := aggregate (5 * Time.Minute) 256 ipKey now n b]> (en_subnetV6 e)) e.
Definition aggregate_subnets (visit : gset string -> list string) (pkt : IngressPacket) (a : ip) (now : time) (e : KineticEngine) : KineticEngine :=
  let '(isV6, subKey, wideKey) := SubnetKeys (Some a) in
  let n := activityCount pkt in
  if negb (0 <? n) || bool_decide (subKey = "") then e
  else if isV6 then aggregate_v6 visit subKey (IP_String a) now n e
  else
    let e := aggregate_v4 visit subKey (IP_String a) now n e in
    if bool_decide (wideKey = "") then e else aggregate_wide visit wideKey (IP_String a) now n e.

(** Everything the packet does to the counters; [None] when it was dropped. *)
Definition account (visit : gset string -> list string) (pkt : IngressPacket) (a : ip) (now : time) (e : KineticEngine)
  : bool * KineticEngine :=
  let secEpoch := second_of pkt now in
  match admit_source visit a now secEpoch (count (fun t => set_hits (u64 (ta_hits t + sampleCount pkt)) t) e) with
  | (None, e) => (false, e)
  | (Some b, e) =>
      let e := set_ipBuckets (<[IP_String a := count_packet pkt now secEpoch b]> (en_ipBuckets e)) e in
      let e := recordTrafficHistoryLocked secEpoch (sampleCount pkt) (activityCount pkt) (synDelta pkt) (ackDelta pkt) e in
      (true, aggregate_subnets visit pkt a now e)
  end.

(** ** Events *)

(** [ComputeFingerprint] (src/control/kinetic_types.go) *)
Section Events.
Context `{C : Crypto}.
Definition fingerprint (e : KineticEvent) : string :=
  let raw := ke_Layer e +:+ "|" +:+ ke_RuleID e +:+ "|" +:+ ke_SourceIP e +:+ "|" +:+ ke_DestinationIP e +:+ "|" +:+ ke_Subnet e
    +:+ "|" +:+ itoa (ke_Port e) +:+ "|" +:+ ke_Protocol e +:+ "|" +:+ ke_Domain e in
  hex_EncodeToString (of_bytes (take 16 (bytes_of (sha256_Sum raw)))).
Definition ComputeFingerprint (e : KineticEvent) : KineticEvent :=
  mkKEvent (ke_ID e) (ke_Time e) (ke_Layer e) (ke_Sensor e) (ke_RuleID e) (ke_Category e) (ke_Severity e) (ke_Score e) (ke_Confidence e)
    (ke_SourceIP e) (ke_DestinationIP e) (ke_Port e) (ke_Protocol e) (ke_Domain e) (ke_JA3Fingerprint e) (ke_Subnet e) (ke_Hits e)
    (ke_RatePerSec e) (ke_Action e) (ke_Decision e) (fingerprint e) (ke_Metadata e).

(** [resolveAction] *)
Definition resolveAction (ruleID : string) (e : KineticEngine) : string :=
  match Get ruleID (en_rules e) with
  | None => "track"
  | Some def =>
      if bool_decide (kc_EnforcementMode (en_cfg e) = "block")
      then if rd_BlockEligible def then "block" else if rd_ContainEligible def then "contain" else "warn"
      else if bool_decide (kc_EnforcementMode (en_cfg e) = "contain")
      then if rd_ContainEligible def then "contain" else "warn"
      else "track"
  end.

(** [ruleReadyLocked]: fifteen seconds between two strikes of a rule. *)
Definition ruleReadyLocked (b : IPTrackingBucket) (ruleID : string) (now : time) : bool :=
  let last := default 0 (b_RuleLastSeen b !! ruleID) in
  Time.IsZero last || (15 * Time.Second <=? Time.Sub now last).

Definition threat_match (t : option ThreatIndex) (key : string) : bool :=
  match t with Some t => ContainsString key t | None => false end.

(** The parts of [createEventLocked] that do not touch the world. *)
Definition note_strike (ruleID : string) (now : time) (b : IPTrackingBucket) : IPTrackingBucket :=
  set_RuleLastSeen (<[ruleID := now]> (b_RuleLastSeen b)) (set_LastStrikeAt now (set_LastStrikeRule ruleID b)).
Definition strike_score (ruleID : string) (src : string) (score : Z) (e : KineticEngine) : Z :=
  let score := match Get ruleID (en_rules e) with
               | Some def => if 0 <? rd_DefaultScore def then rd_DefaultScore def else score
               | None => score
               end in
  let block := threat_match (en_threatBlock e) src in
  if negb (bool_decide (ruleID = "NET.INGRESS.THREAT_INTEL_MATCH")) && (block || threat_match (en_threatCorrelate e) src)
  then Z.min 180 (i64 (score + (if block then 20 else 10))) else score.
Definition protocol_name (p : Z) : string :=
  if p =? 6 then "tcp" else if p =? 17 then "udp" else if p =? 1 then "icmp" else if p =? 58 then "icmpv6" else "other".
Definition nil_String (a : option ip) : string := match a with Some a => IP_String a | None => "<nil>" end.
Definition hundredths (n : Z) : float64 := fdiv (f64 n) (f64 100).
Definition feed_metadata (block correlate : bool) : gmap string meta :=
  if block || correlate
  then <["threat_intel_match" := MBool true]> (<["feed_block_match" := MBool block]> {["feed_correlate_match" := MBool correlate]})
  else ∅.
Definition strike_event (id : string) (now : time) (ruleID : string) (pkt : IngressPacket) (b : IPTrackingBucket) (subnet decision : string)
    (score : Z) (e : KineticEngine) : KineticEvent :=
  let src := nil_String (pk_SrcIP pkt) in
  let block := threat_match (en_threatBlock e) src in
  let correlate := threat_match (en_threatCorrelate e) src in
  let '(layer, category, severity) := match Get ruleID (en_rules e) with
                                      | Some def => (rd_Layer def, rd_Category def, rd_Severity def)
                                      | None => (LayerIngressNetwork, "ingress_threat", "medium")
                                      end in
  ComputeFingerprint (mkKEvent id now layer "xdp_ingress" ruleID category severity score
    (hundredths (if block || correlate then 99 else 95)) src (nil_String (pk_DstIP pkt)) (pk_DstPort pkt) (protocol_name (pk_Protocol pkt)) "" ""
    subnet (b_Hits b) (f64 (b_Velocity1s b)) (resolveAction ruleID e) decision "" (feed_metadata block correlate)).
Definition subnet_event (id : string) (now : time) (ruleID severity src subnet : string) (score hits confidence : Z) (action decision : string)
    (metadata : gmap string meta) : KineticEvent :=
  ComputeFingerprint (mkKEvent id now LayerIngressNetwork "radix_subnet_aggregator" ruleID "botnet_aggregation" severity score
    (hundredths confidence) src "" 0 "" "" "" subnet hits (f64 0) action decision "" metadata).
End Events.

(** [d.Round(time.Second).String()] *)
Definition Round_Second (d : duration) : duration :=
  let m := Time.Second in
  let r := Z.rem d m in
  if d <? 0 then
    let r := - r in
    if 2 * r <? m then d + r
    else let d1 := i64 (d - m + r) in if d1 <? d then d1 else MinInt64
  else if 2 * r <? m then d - r
  else let d1 := i64 (d + m - r) in if d <? d1 then d1 else MaxInt64.
Fixpoint drop_zeros (l : list ascii) : list ascii :=
  match l with
  | "0"%char :: l' => drop_zeros l'
  | _ => l
  end.
Definition fraction (ns : Z) : string :=
  let digits := bytes_of (itoa (1000000000 + ns)) in
  match rev (drop_zeros (rev (drop 1 digits))) with
  | [] => ""
  | l => "." +:+ of_bytes l
  end.
Definition Duration_String (d : duration) : string :=
  let u := Z.abs d in
  let s := u / Time.Second in
  let text := itoa (s mod 60) +:+ fraction (u mod Time.Second) +:+ "s" in
  let text := if s <? 60 then text else itoa (s / 60 mod 60) +:+ "m" +:+ text in
  let text := if s <? 3600 then text else itoa (s / 3600) +:+ "h" +:+ text in
  if d <? 0 then "-" +:+ text else text.

(** ** Effects *)

Section Engine.
Context {L K X : Type} `{SK : !Sinks L K X} `{C : Crypto}.
Abbreviation esys := (KineticEngine * (State L K * world X))%type.
Definition engine : M esys KineticEngine := gets fst.
Definition with_engine (f : KineticEngine -> KineticEngine) : M esys unit := modify (fun s => (f s.1, s.2)).
Definition in_shared {A} (m : M (State L K * world X) A) : M esys A := zoom snd (fun t s => (s.1, t)) m.
Definition in_world {A} (f : world X -> A * world X) : M esys A := in_shared (fun sw => let '(a, w) := f sw.2 in Some (a, (sw.1, w))).

(** [generateEventID] *)
Definition generateEventID : M esys string :=
  in_world (fun w => match rand_Read 8 w with
                     | (inr b, w) => ("kin-" +:+ hex_EncodeToString b, w)
                     | (inl _, w) => let '(t, w) := time_Now w in ("kin-" +:+ itoa (Time.UnixNano t), w)
                     end).
Definition stamp (t : time) : M esys time := if Time.IsZero t then in_world time_Now else mret t.

(** [syncTelemetryStateLocked] *)
Definition counters_of (e : KineticEngine) : DetectionCounters :=
  let t := en_tallies e in
  mkCounters (ta_hits t) (ta_velocityBursts t) (ta_portscans t) (ta_subnetStrikes t) (ta_l7Strikes t) (ta_trackingDrops t)
    (ta_trackingEvictions t) (ta_aggregateEvictions t) (sizeZ (en_ipBuckets e)) (sizeZ (en_subnetV4 e)) (sizeZ (en_subnetV6 e))
    (sizeZ (en_wideV4 e)) (kc_MaxTrackingIPs (en_cfg e)).
Definition set_detection (d : DetectionCounters) (t : KineticTelemetry) : KineticTelemetry :=
  mkKinetic (kt_BansEnforcedTotal t) (kt_BansExpiredTotal t) (kt_ResponseAppliedTotal t) (kt_ResponseRollbackTotal t)
    (kt_ResponseFailedTotal t) (kt_ResponseSuppressedTotal t) (kt_LastStrikeAt t) (kt_Coverage t) d.
Definition syncTelemetryStateLocked : M esys unit :=
  e ← engine;
  in_shared (modify (fun sw => (set_kinetic (set_detection (counters_of e) (st_kinetic sw.1)) sw.1, sw.2))).

(** [createEventLocked]: the bucket of the source is the one in the table. *)
Definition update_bucket (key : string) (f : IPTrackingBucket -> IPTrackingBucket) (e : KineticEngine) : KineticEngine :=
  set_ipBuckets (alter f key (en_ipBuckets e)) e.
Definition push_event (evt : KineticEvent) (e : KineticEngine) : KineticEngine := set_queue (Push evt (en_eventQueue e)) e.
Definition createEventLocked (ruleID : string) (pkt : IngressPacket) (a : ip) (subnet decision : string) (score : Z)
  : M esys KineticEvent :=
  now ← stamp (pk_Timestamp pkt);
  with_engine (update_bucket (IP_String a) (note_strike ruleID now)) ;;
  e ← engine;
  let score := strike_score ruleID (IP_String a) score e in
  with_engine (update_bucket (IP_String a) (fun b => if b_Score b <? score then set_Score score b else b)) ;;
  id ← generateEventID;
  b ← lift (en_ipBuckets e !! IP_String a);
  let evt := strike_event id now ruleID pkt b subnet decision score e in
  with_engine (push_event evt) ;;
  in_shared (AddEvent (mkEvent (ke_ID evt) (ke_Time evt) (ke_Severity evt) "kinetic_strike" (ke_Sensor evt)
    ("[" +:+ ke_RuleID evt +:+ "] " +:+ ke_Decision evt +:+ " (IP: " +:+ ke_SourceIP evt +:+ ", Port: " +:+ itoa (ke_Port evt) +:+ ")")
    (ke_SourceIP evt))) ;;
  mret evt.

(** The rules of [IngestPacket], in their order. Each returns its events. *)
Definition when_ready (fires : KineticEngine -> IPTrackingBucket -> bool) (ruleID : string) (a : ip) (now : time)
    (m : KineticEngine -> IPTrackingBucket -> M esys (list KineticEvent)) : M esys (list KineticEvent) :=
  e ← engine;
  match en_ipBuckets e !! IP_String a with
  | Some b => if fires e b && ruleReadyLocked b ruleID now then m e b else mret []
  | None => mret []
  end.
Definition tally (f : Tallies -> Tallies) : M esys unit := with_engine (count f).
Definition one (m : M esys KineticEvent) : M esys (list KineticEvent) := evt ← m; mret [evt].

Definition rule_threat_intel (pkt : IngressPacket) (a : ip) (subKey : string) (now : time) : M esys (list KineticEvent) :=
  when_ready (fun e _ => threat_match (en_threatCorrelate e) (IP_String a) || threat_match (en_threatBlock e) (IP_String a))
    "NET.INGRESS.THREAT_INTEL_MATCH" a now (fun e _ =>
    one (createEventLocked "NET.INGRESS.THREAT_INTEL_MATCH" pkt a subKey
      (if threat_match (en_threatBlock e) (IP_String a)
       then "Threat-intelligence BLOCK prefix matched ingress source; kernel feed policy owns enforcement"
       else "Threat-intelligence correlate prefix matched ingress source") 80)).
Definition rule_malformed (pkt : IngressPacket) (a : ip) (subKey : string) (now : time) : M esys (list KineticEvent) :=
  when_ready (fun _ b => 3 <=? b_MalformedCount b) "NET.INGRESS.MALFORMED_TCP" a now (fun _ _ =>
    one (createEventLocked "NET.INGRESS.MALFORMED_TCP" pkt a subKey "Illegal TCP flag combination (NULL, SYN-RST, or XMAS)" 80)).
Definition rule_velocity (pkt : IngressPacket) (a : ip) (subKey : string) (now : time) : M esys (list KineticEvent) :=
  when_ready (fun e b => kc_VelocityLimit (en_cfg e) <=? b_Velocity1s b) "NET.INGRESS.IP_VELOCITY" a now (fun _ b =>
    tally (fun t => set_velocityBursts (u64 (ta_velocityBursts t + 1)) t) ;;
    one (createEventLocked "NET.INGRESS.IP_VELOCITY" pkt a subKey ("High velocity burst: " +:+ itoa (b_Velocity1s b) +:+ " hits/sec") 85)).
Definition rule_syn_flood (pkt : IngressPacket) (a : ip) (subKey : string) (now : time) : M esys (list KineticEvent) :=
  when_ready (fun e b => (kc_SYNThreshold (en_cfg e) <=? b_SYN1m b) &&
      ((b_ACK1m b =? 0) || (i64 (b_ACK1m b * kc_SYNAckRatio (en_cfg e)) <=? b_SYN1m b))) "NET.INGRESS.SYN_FLOOD" a now (fun _ b =>
    one (createEventLocked "NET.INGRESS.SYN_FLOOD" pkt a subKey
      ("SYN flood detected: " +:+ itoa (b_SYN1m b) +:+ " SYNs vs " +:+ itoa (b_ACK1m b) +:+ " ACKs in current 1m window") 90)).

Definition ports (b : IPTrackingBucket) : Z := Z.of_nat (size (b_PortsSeen b)).
Definition low_slow (now : time) (e : KineticEngine) (b : IPTrackingBucket) : bool :=
  (kc_PortscanThreshold (en_cfg e) <=? ports b) && (seconds (kc_LowSlowMinSeconds (en_cfg e)) <=? Time.Sub now (b_FirstSeen b)) &&
  (b_Velocity1s b <? Z.max 2 (Z.quot (kc_VelocityLimit (en_cfg e)) 2)).
Definition scan_tally : M esys unit := tally (fun t => set_portscans (u64 (ta_portscans t + 1)) t).
Definition rule_port_scan (pkt : IngressPacket) (a : ip) (subKey : string) (now : time) : M esys (list KineticEvent) :=
  e ← engine;
  match en_ipBuckets e !! IP_String a with
  | None => mret []
  | Some b =>
      let service := (classifyKineticService (en_cfg e) (pk_DstPort pkt)).1 in
      if low_slow now e b && ruleReadyLocked b "NET.INGRESS.LOW_SLOW_SCAN" now then
        scan_tally ;;
        one (createEventLocked "NET.INGRESS.LOW_SLOW_SCAN" pkt a subKey
          ("Low-and-slow scan: " +:+ itoa (ports b) +:+ " distinct ports across " +:+ Duration_String (Round_Second (Time.Sub now (b_FirstSeen b)))
           +:+ " (" +:+ itoa (windowHitsLocked b (15 * Time.Minute)) +:+ " hits/15m)") 92)
      else if (kc_PortscanThreshold (en_cfg e) <=? ports b) && ruleReadyLocked b "NET.INGRESS.PORT_SCAN" now then
        scan_tally ;;
        one (createEventLocked "NET.INGRESS.PORT_SCAN" pkt a subKey ("Portscan detected: " +:+ itoa (ports b) +:+ " distinct ports probed") 95)
      else if bool_decide (service ∈ ["database"; "admin_panel"]) && (3 <=? default 0 (b_PortAttempts b !! pk_DstPort pkt)) &&
              ruleReadyLocked b "NET.INGRESS.PORT_SCAN" now then
        scan_tally ;;
        one (createEventLocked "NET.INGRESS.PORT_SCAN" pkt a subKey
          ("Connection probe to protected service port " +:+ itoa (pk_DstPort pkt) +:+ " (" +:+ service +:+ ")") 95)
      else mret []
  end.
Definition rule_ip_rate (pkt : IngressPacket) (a : ip) (subKey : string) (now : time) : M esys (list KineticEvent) :=
  when_ready (fun e b => kc_IPThreshold (en_cfg e) <=? b_Attempts1m b) "NET.INGRESS.IP_RATE" a now (fun _ b =>
    one (createEventLocked "NET.INGRESS.IP_RATE" pkt a subKey
      ("Single IP connection/activity rate threshold reached: " +:+ itoa (b_Attempts1m b) +:+ " attempts/1m (" +:+ itoa (b_Attempts b)
       +:+ " attempts lifetime)") 75)).

(** The rules over the aggregates. *)
Definition strike_subnet (now : time) (b : SubnetBucket) : SubnetBucket :=
  mkSubnet (sb_Subnet b) (sb_AggregateHits b) (sb_ActiveIPs b) (sb_WindowStart b) (sb_LastSeen b) now.
Definition sources (b : SubnetBucket) : Z := sizeZ (sb_ActiveIPs b).
Definition surge (threshold minSources : Z) (pause : duration) (now : time) (b : SubnetBucket) : bool :=
  (threshold <=? sb_AggregateHits b) && (minSources <=? sources b) && (pause <=? Time.Sub now (sb_LastStrikeAt b)).
Definition emit (evt : KineticEvent) : M esys (list KineticEvent) := with_engine (push_event evt) ;; mret [evt].
Definition strike_tally : M esys unit := tally (fun t => set_subnetStrikes (u64 (ta_subnetStrikes t + 1)) t).
Definition across (b : SubnetBucket) : string := itoa (sb_AggregateHits b) +:+ " hits across " +:+ itoa (sources b) +:+ " IPs".
Definition rule_subnet_v4 (src subKey : string) (now : time) : M esys (list KineticEvent) :=
  e ← engine;
  match en_subnetV4 e !! subKey with
  | Some b =>
      if surge (kc_RangeThreshold (en_cfg e)) (kc_SubnetMinSources (en_cfg e)) (30 * Time.Second) now b then
        with_engine (set_subnetV4 (<[subKey := strike_subnet now b]> (en_subnetV4 e))) ;;
        strike_tally ;;
        id ← generateEventID;
        emit (subnet_event id now "NET.INGRESS.SUBNET_V4" "high" src subKey 100 (sb_AggregateHits b) 95
                (resolveAction "NET.INGRESS.SUBNET_V4" e) ("Coordinated IPv4 /24 flood: " +:+ across b) {["active_sources" := MInt (sources b)]})
      else mret []
  | None => mret []
  end.
Definition rule_subnet_v6 (src subKey : string) (now : time) : M esys (list KineticEvent) :=
  e ← engine;
  match en_subnetV6 e !! subKey with
  | Some b =>
      if surge (kc_IPv6SubThreshold (en_cfg e)) (kc_IPv6SubnetMinSources (en_cfg e)) (30 * Time.Second) now b then
        with_engine (set_subnetV6 (<[subKey := strike_subnet now b]> (en_subnetV6 e))) ;;
        strike_tally ;;
        id ← generateEventID;
        emit (subnet_event id now "NET.INGRESS.SUBNET_V6" "high" src subKey 100 (sb_AggregateHits b) 95
                (resolveAction "NET.INGRESS.SUBNET_V6" e) ("Coordinated IPv6 /64 flood: " +:+ across b) {["active_sources" := MInt (sources b)]})
      else mret []
  | None => mret []
  end.
Definition rule_wide_v4 (src wideKey : string) (now : time) : M esys (list KineticEvent) :=
  e ← engine;
  match en_wideV4 e !! wideKey with
  | Some b =>
      if surge (kc_WideRangeThreshold (en_cfg e)) (kc_WideMinSources (en_cfg e)) (60 * Time.Second) now b then
        with_engine (set_wideV4 (<[wideKey := strike_subnet now b]> (en_wideV4 e))) ;;
        id ← generateEventID;
        emit (subnet_event id now "NET.INGRESS.WIDE_V4" "critical" src wideKey 120 (sb_AggregateHits b) 90 "warn"
                ("Mass campaign IPv4 /16 sector surge: " +:+ across b) ∅)
      else mret []
  | None => mret []
  end.

Definition rules (pkt : IngressPacket) (a : ip) (now : time) : M esys (list KineticEvent) :=
  let '(isV6, subKey, wideKey) := SubnetKeys (Some a) in
  e1 ← rule_threat_intel pkt a subKey now;
  e2 ← rule_malformed pkt a subKey now;
  e3 ← rule_velocity pkt a subKey now;
  e4 ← rule_syn_flood pkt a subKey now;
  e5 ← rule_port_scan pkt a subKey now;
  e6 ← rule_ip_rate pkt a subKey now;
  e7 ← (if negb isV6 && negb (bool_decide (subKey = "")) then rule_subnet_v4 (IP_String a) subKey now else mret []);
  e8 ← (if isV6 && negb (bool_decide (subKey = "")) then rule_subnet_v6 (IP_String a) subKey now else mret []);
  e9 ← (if negb isV6 && negb (bool_decide (wideKey = "")) then rule_wide_v4 (IP_String a) wideKey now else mret []);
  mret (e1 ++ e2 ++ e3 ++ e4 ++ e5 ++ e6 ++ e7 ++ e8 ++ e9).

(** [IngestPacket] *)
Definition IngestPacket (visit : gset string -> list string) (pkt : IngressPacket) : M esys (list KineticEvent) :=
  e ← engine;
  match pk_SrcIP pkt with
  | Some a =>
      if negb (kc_Enabled (en_cfg e)) || isAllowlistedLocked (Some a) e then mret []
      else
        now ← stamp (pk_Timestamp pkt);
        let '(kept, e) := account visit pkt a now e in
        with_engine (fun _ => e) ;;
        if kept then events ← rules pkt a now; syncTelemetryStateLocked ;; mret events else mret []
  | None => mret []
  end.

(** [Sweep] *)
Definition idle {A} (seen : A -> time) (limit : duration) (now : time) (m : gmap string A) : gmap string A :=
  filter (fun kb => (limit <? Time.Sub now (seen kb.2)) = false) m.
Definition Sweep (now : time) : M esys unit :=
  with_engine (fun e =>
    let kept := idle b_LastSeen Time.Hour now (en_ipBuckets e) in
    let e := count (fun t => set_trackingEvictions (u64 (ta_trackingEvictions t + (sizeZ (en_ipBuckets e) - sizeZ kept))) t) (set_ipBuckets kept e) in
    let e := set_subnetV4 (idle sb_LastSeen (300 * Time.Second) now (en_subnetV4 e)) e in
    let e := set_subnetV6 (idle sb_LastSeen (300 * Time.Second) now (en_subnetV6 e)) e in
    let e := set_wideV4 (idle sb_LastSeen (300 * Time.Second) now (en_wideV4 e)) e in
    if Time.Unix now =? en_tokenBucketLastSec e then e
    else set_tokenAvailable (kc_MaxStrikesPerSec (en_cfg e)) (set_tokenSec (Time.Unix now) e)) ;;
  syncTelemetryStateLocked.
End Engine.
