(* ===== verification/KineticLive.v ===== *)
(** * Live windows, recent events and TLS findings of the kinetic engine

    The operator windows of src/control/kinetic_live.go over the rings and the
    event queue of the engine, and [IngestTLSFindings] of
    src/control/kinetic_engine.go, which turns the findings of the TLS parser
    into kinetic events. A map that is only ranged over to be sorted afterwards
    is visited in the order [visit]. *)

From Stdlib Require Import ZArith Lia Ascii String Floats.SpecFloat.
From stdpp Require Import base gmap strings list sorting.
From S2P Require Import Prelude.
From S2P Require Import GoLib.
From S2P Require Import Strconv.
From S2P Require Import Text.
From S2P Require Import World.
From S2P Require Import Storage.
From S2P Require Import Exec.
From S2P Require Import NetIP.
From S2P Require Import Policy.
From S2P Require Import Evidence.
From S2P Require Import State.
From S2P Require Import Snapshot.
From S2P Require Import Release.
From S2P Require Import RateLimit.
From S2P Require Import L7Engine.
From S2P Require Import ThreatIndex.
From S2P Require Import KineticEngine.

(** ** Windows *)

(** [KineticWindowSpec] *)
Record KineticWindowSpec := mkSpec { ws_Name : string; ws_Duration : duration }.

(** [parseKineticWindow] *)
Definition parseKineticWindow `{U : Unicode} (raw : string) : option KineticWindowSpec :=
  let raw := ToLower (TrimSpace raw) in
  if bool_decide (raw ∈ [""; "live"]) then Some (mkSpec "live" Time.Minute)
  else if bool_decide (raw = "1m") then Some (mkSpec "1m" Time.Minute)
  else if bool_decide (raw = "5m") then Some (mkSpec "5m" (5 * Time.Minute))
  else if bool_decide (raw = "15m") then Some (mkSpec "15m" (15 * Time.Minute))
  else if bool_decide (raw = "1h") then Some (mkSpec "1h" Time.Hour)
  else if bool_decide (raw = "24h") then Some (mkSpec "24h" (24 * Time.Hour))
  else None.

(** [KineticTrafficWindow] *)
Record KineticTrafficWindow := mkWindow {
  tw_Name : string; tw_Seconds : Z; tw_GeneratedAt : time; tw_Hits : Z; tw_Attempts : Z; tw_SYNs : Z; tw_ACKs : Z;
  tw_BucketResolution : string; tw_HistoryComplete : bool; tw_RuntimeSeconds : Z;
}.

(** The slots a window selects, added up at the width [wrap]. *)
Definition slot_sum (wrap : Z -> Z) (chosen : KineticTrafficBucket -> bool) (ring : list KineticTrafficBucket) : KineticTrafficBucket :=
  fold_left (fun total s =>
    if chosen s
    then mkTraffic 0 (wrap (tb_Hits total + tb_Hits s)) (wrap (tb_Attempts total + tb_Attempts s)) (wrap (tb_SYNs total + tb_SYNs s))
           (wrap (tb_ACKs total + tb_ACKs s))
    else total) ring empty_slot.

(** A slot of [width] seconds that meets the window. *)
Definition meets (width cutoffUnix nowUnix : Z) (s : KineticTrafficBucket) : bool :=
  let bucketStart := i64 (tb_Epoch s * width) in
  (0 <? tb_Epoch s) && (cutoffUnix <=? i64 (bucketStart + (width - 1))) && (bucketStart <=? nowUnix).

(** [int64(x)] of a floating-point number in range. *)
Definition truncate (x : float64) : Z :=
  match x with
  | S754_finite neg m ex => (if neg then -1 else 1) * Z.shiftl (Zpos m) ex
  | _ => 0
  end.

(** [TrafficWindow] *)
Definition traffic_window (spec : KineticWindowSpec) (now : time) (e : KineticEngine) : KineticTrafficWindow :=
  let seconds := Z.quot (ws_Duration spec) Time.Second in
  let nowUnix := Time.Unix now in
  let '(resolution, sum) :=
    if ws_Duration spec <=? Time.Minute then
      ("1s", slot_sum u64 (fun s => (i64 (nowUnix - seconds + 1) <=? tb_Epoch s) && (tb_Epoch s <=? nowUnix)) (en_secondHistory e))
    else
      ("60s", slot_sum u64 (meets 60 (Time.Unix (Time.Add now (- ws_Duration spec))) nowUnix) (en_minuteHistory e)) in
  mkWindow (ws_Name spec) seconds now (tb_Hits sum) (tb_Attempts sum) (tb_SYNs sum) (tb_ACKs sum) resolution
    (negb (Time.IsZero (en_startedAt e)) && (ws_Duration spec <=? Time.Sub now (en_startedAt e)))
    (Z.max 0 (truncate (Seconds (Time.Sub now (en_startedAt e))))).

(** [sourceWindowCountsLocked] *)
Definition sourceWindowCountsLocked (b : IPTrackingBucket) (spec : KineticWindowSpec) (now : time) : Z * Z * Z * Z :=
  let nothing := (0, 0, 0, 0) in
  let of_slot (s : KineticTrafficBucket) := (tb_Hits s, tb_Attempts s, tb_SYNs s, tb_ACKs s) in
  let cutoffUnix := Time.Unix (Time.Add now (- ws_Duration spec)) in
  if Time.IsZero now || (ws_Duration spec <=? 0) then nothing
  else if ws_Duration spec <? Time.Sub now (b_LastSeen b) then nothing
  else if ws_Duration spec <=? Time.Minute then
    if b_CurrentMinute b =? Z.quot (Time.Unix now) 60 then (b_Hits1m b, b_Attempts1m b, b_SYN1m b, b_ACK1m b) else nothing
  else if ws_Duration spec <=? Time.Hour then of_slot (slot_sum i64 (meets 300 cutoffUnix (Time.Unix now)) (b_FiveMin b))
  else of_slot (slot_sum i64 (meets 3600 cutoffUnix (Time.Unix now)) (b_Hourly b)).

(** ** Recent events *)

Definition bounded_limit (limit ceiling dflt : Z) : Z := if (limit <=? 0) || (ceiling <? limit) then dflt else limit.
(** The newest events that pass, [limit] at most, in the order of the queue. *)
Definition newest (limit : Z) (keep : KineticEvent -> bool) (l : list KineticEvent) : list KineticEvent :=
  rev (take (Z.to_nat limit) (List.filter keep (rev l))).

(** [RecentEventsForWindow] *)
Definition recent_for_window (spec : KineticWindowSpec) (now : time) (limit : Z) (q : BoundedEventQueue)
  : list KineticEvent * Z * bool :=
  let limit := bounded_limit limit 250 100 in
  let cutoff := Time.Add now (- ws_Duration spec) in
  let complete :=
    (q_drops q =? 0) ||
    match q_events q with
    | [] => false
    | e0 :: rest =>
        negb (Time.After (fold_left (fun oldest e => if Time.Before (ke_Time e) oldest then ke_Time e else oldest) rest (ke_Time e0)) cutoff)
    end in
  (newest limit (fun e => negb (Time.Before (ke_Time e) cutoff)) (q_events q), q_drops q, complete).

(** [kineticDecisions] *)
Definition kineticDecisions `{U : Unicode} (events : list KineticEvent) (limit : Z) : list KineticEvent :=
  newest (bounded_limit limit 100 50) (fun e => bool_decide (ToLower (ke_Action e) ∈ ["contain"; "block"; "drop"])) events.

(** [aggregateKineticRules] and [aggregateKineticPorts]: how often, the most
    frequent first. *)
Section Top.
Context {A : Type} `{ED : EqDecision A} `{CO : Countable A} (below : A -> A -> bool).
Definition tally_of (l : list A) : gmap A Z := fold_left (fun m a => <[a := default 0 (m !! a) + 1]> m) l ∅.
Definition ranked (x y : A * Z) : Prop := (y.2 <? x.2) || ((x.2 =? y.2) && negb (below y.1 x.1)) = true.
#[global] Instance ranked_dec x y : Decision (ranked x y).
Proof. unfold ranked. apply _. Defined.
Definition top (visit : gset A -> list A) (limit : Z) (l : list A) : list (A * Z) :=
  let counts := tally_of l in
  let out := merge_sort ranked (omap (fun a => (fun n => (a, n)) <$> counts !! a) (visit (dom counts))) in
  if (0 <? limit) && (limit <? Z.of_nat (length out)) then take (Z.to_nat limit) out else out.
End Top.
Definition aggregateKineticRules (visit : gset string -> list string) (events : list KineticEvent) (limit : Z) : list (string * Z) :=
  top string_lt visit limit (List.filter (fun r => negb (bool_decide (r = ""))) (map ke_RuleID events)).
Definition aggregateKineticPorts (visit : gset Z -> list Z) (events : list KineticEvent) (limit : Z) : list (Z * Z) :=
  top Z.ltb visit limit (List.filter (fun p => 0 <? p) (map ke_Port events)).

(** ** TLS findings *)

Section Live.
Context {L K X : Type} `{SK : !Sinks L K X} `{C : Crypto}.
Abbreviation esys := (KineticEngine * (State L K * world X))%type.

Definition TrafficWindow (spec : KineticWindowSpec) (now : time) : M esys KineticTrafficWindow :=
  now ← stamp now; e ← engine; mret (traffic_window spec now e).
Definition RecentEventsForWindow (spec : KineticWindowSpec) (now : time) (limit : Z) : M esys (list KineticEvent * Z * bool) :=
  now ← stamp now; e ← engine; mret (recent_for_window spec now limit (en_eventQueue e)).

(** What [IngestTLSFindings] knows of the client. *)
Record Client := mkClient {
  cl_IP : string; cl_Subnet : string; cl_Allowlisted : bool; cl_RecentIngress : bool; cl_FeedBlock : bool; cl_FeedCorrelate : bool;
}.
Definition client_of (a : ip) (now : time) (e : KineticEngine) : Client :=
  let clientIP := IP_String a in
  mkClient clientIP (SubnetKeys (Some a)).1.2 (isAllowlistedLocked (Some a) e)
    match en_ipBuckets e !! clientIP with
    | Some b => (Time.Sub now (b_LastSeen b) <=? Time.Minute) && (65 <=? b_Score b)
    | None => false
    end
    (threat_match (en_threatBlock e) clientIP) (threat_match (en_threatCorrelate e) clientIP).

Definition when {A} (b : bool) (f : A -> A) (a : A) : A := if b then f a else a.
Definition tls_score (c : Client) (def : KineticRuleDefinition) (fi : L7Finding) : Z :=
  let score := if fi_Score fi <=? 0 then rd_DefaultScore def else fi_Score fi in
  let score := when (cl_RecentIngress c) (fun s => i64 (s + 15)) score in
  let score := when (cl_FeedCorrelate c) (fun s => i64 (s + 10)) score in
  let score := when (cl_FeedBlock c) (fun s => i64 (s + 20)) score in
  if 180 <? score then 180 else score.
Definition tls_metadata (c : Client) (fi : L7Finding) : gmap string meta :=
  let m := <["l7_location" := MText (fi_Location fi)]> {["l7_finding" := MBool true]} in
  let m := when (negb (bool_decide (fi_EvidenceSHA256 fi = ""))) (insert "evidence_sha256" (MText (fi_EvidenceSHA256 fi))) m in
  let m := when (negb (bool_decide (fi_FingerprintType fi = "")) && negb (bool_decide (fi_Fingerprint fi = "")))
             (fun m => <["fingerprint" := MText (fi_Fingerprint fi)]> (<["fingerprint_type" := MText (fi_FingerprintType fi)]> m)) m in
  let m := when (cl_RecentIngress c) (insert "recent_ingress_correlation" (MBool true)) m in
  let m := when (cl_FeedCorrelate c) (insert "feed_correlate_match" (MBool true)) m in
  let m := when (cl_FeedBlock c) (insert "feed_block_match" (MBool true)) m in
  when (cl_Allowlisted c) (insert "suppressed_by_management_allowlist" (MBool true)) m.
Definition tls_confidence (c : Client) (fi : L7Finding) : float64 :=
  let x := fdiv (f64 (fi_Confidence fi)) (f64 100) in
  let x := if fge (f64 0) x || fgt x (f64 1) then hundredths 80 else x in
  if (cl_RecentIngress c || cl_FeedBlock c || cl_FeedCorrelate c) && fgt (hundredths 99) x then
    let x := fadd x (hundredths 4) in if fgt x (hundredths 99) then hundredths 99 else x
  else x.
Definition tls_event (id : string) (now : time) (sni ja3 : string) (c : Client) (def : KineticRuleDefinition) (fi : L7Finding) (e : KineticEngine)
  : KineticEvent :=
  ComputeFingerprint (mkKEvent id now LayerApplicationL7 "l7_tls_parser" (fi_RuleID fi) (rd_Category def) (rd_Severity def) (tls_score c def fi)
    (tls_confidence c fi) (cl_IP c) "" 0 "tls" sni ja3 (cl_Subnet c) 0 (f64 0)
    (if cl_Allowlisted c then "warn" else resolveAction (fi_RuleID fi) e) (fi_Summary fi) "" (tls_metadata c fi)).

Definition tls_finding (now : time) (sni ja3 : string) (c : Client) (fi : L7Finding) : M esys (list KineticEvent) :=
  e ← engine;
  match Get (fi_RuleID fi) (en_rules e) with
  | Some def =>
      if bool_decide (rd_Layer def = LayerApplicationL7) then
        id ← generateEventID;
        let evt := tls_event id now sni ja3 c def fi e in
        with_engine (push_event evt) ;;
        tally (fun t => set_l7Strikes (u64 (ta_l7Strikes t + 1)) t) ;;
        in_shared (AddEvent (mkEvent (ke_ID evt) (ke_Time evt) (ke_Severity evt) "kinetic.l7_signal" (ke_Sensor evt)
          ("[" +:+ ke_RuleID evt +:+ "] " +:+ ke_Decision evt +:+ " (IP: " +:+ ke_SourceIP evt +:+ ")") (ke_SourceIP evt))) ;;
        mret [evt]
      else mret []
  | None => mret []
  end.
Fixpoint tls_findings (now : time) (sni ja3 : string) (c : Client) (findings : list L7Finding) : M esys (list KineticEvent) :=
  match findings with
  | [] => mret []
  | fi :: findings => e1 ← tls_finding now sni ja3 c fi; e2 ← tls_findings now sni ja3 c findings; mret (e1 ++ e2)
  end.

(** [IngestTLSFindings], with the server name and the JA3 hash of the summary. *)
Definition IngestTLSFindings (clientIP sni ja3 : string) (findings : list L7Finding) (now : time) : M esys (list KineticEvent) :=
  match findings, ParseIP clientIP with
  | _ :: _, Some a =>
      now ← stamp now;
      e ← engine;
      events ← tls_findings now sni ja3 (client_of a now e) findings;
      syncTelemetryStateLocked ;;
      mret events
  | _, _ => mret []
  end.
End Live.
