(* ===== verification/EngineBounds.v ===== *)
(** * The kinetic engine keeps within its bounds

    Every table of the engine has a configured capacity. The invariant below
    holds in a new engine and is kept by every operation, in whatever order a
    map is ranged over; lowering a capacity ends and leaves a part of what was
    tracked. *)

From Stdlib Require Import ZArith Lia Ascii String.
From stdpp Require Import base gmap strings list sorting.
From S2P Require Import Prelude.
From S2P Require Import GoLib.
From S2P Require Import Strconv.
From S2P Require Import Text.
From S2P Require Import World.
From S2P Require Import Storage.
From S2P Require Import Exec.
From S2P Require Import NetIP.
From S2P Require Import NetIPFacts.
From S2P Require Import Policy.
From S2P Require Import Evidence.
From S2P Require Import State.
From S2P Require Import Snapshot.
From S2P Require Import Release.
From S2P Require Import RateLimit.
From S2P Require Import L7Engine.
From S2P Require Import ThreatIndex.
From S2P Require Import KineticEngine.
From S2P Require Import KineticLive.

(** ** Sizes *)

Section Sizes.
Context {A : Type}.
Implicit Types m : gmap string A.
Lemma sizeZ_nonneg m : 0 <= sizeZ m.
Proof. unfold sizeZ. lia. Qed.
Lemma sizeZ_insert_some m k x y : m !! k = Some y -> sizeZ (<[k := x]> m) = sizeZ m.
Proof. intros H. unfold sizeZ. by rewrite map_size_insert, H. Qed.
Lemma sizeZ_insert_none m k x : m !! k = None -> sizeZ (<[k := x]> m) = sizeZ m + 1.
Proof. intros H. unfold sizeZ. rewrite map_size_insert, H. cbn. lia. Qed.
Lemma sizeZ_insert_le m k x : sizeZ (<[k := x]> m) <= sizeZ m + 1.
Proof. destruct (m !! k) eqn:E; [rewrite (sizeZ_insert_some _ _ _ _ E)|rewrite (sizeZ_insert_none _ _ _ E)]; lia. Qed.
Lemma sizeZ_delete m k : is_Some (m !! k) -> sizeZ (delete k m) = sizeZ m - 1.
Proof.
  intros [x E]. unfold sizeZ. rewrite map_size_delete, E.
  assert (size m <> 0)%nat; [|cbn; lia]. intros H0%map_size_empty_inv. by rewrite H0, lookup_empty in E.
Qed.
Lemma sizeZ_alter f m k : sizeZ (alter f k m) = sizeZ m.
Proof. unfold sizeZ. f_equal. by rewrite <-!size_dom, dom_alter_L. Qed.
Lemma sizeZ_subseteq m m' : m ⊆ m' -> sizeZ m <= sizeZ m'.
Proof. intros H. unfold sizeZ. rewrite <-!size_dom. apply inj_le, subseteq_size. by apply subseteq_dom. Qed.
End Sizes.

(** ** Eviction takes one bucket away *)

Section Evict.
Context {A : Type} (seen : A -> time).
Implicit Types m : gmap string A.

(** The keys the engine uses are never empty; that is the sign for "no key". *)
Definition keyed m : Prop := m !! "" = None.
Lemma older_step_inv m acc k : keyed m -> (acc.1 <> "" -> is_Some (m !! acc.1)) ->
  ((older_step seen m acc k).1 <> "" -> is_Some (m !! (older_step seen m acc k).1)) /\
  (is_Some (m !! k) \/ acc.1 <> "" -> (older_step seen m acc k).1 <> "").
Proof.
  intros Hk Hacc. unfold older_step. destruct (m !! k) as [b|] eqn:E.
  - assert (k <> "") by (intros ->; unfold keyed in Hk; by rewrite Hk in E).
    case_bool_decide as H0; cbn; [eauto|]. destruct (Time.Before _ _); cbn; eauto.
  - split; [done|]. intros [[? ?]|?]; done.
Qed.
Lemma oldest_inv m order acc : keyed m -> (acc.1 <> "" -> is_Some (m !! acc.1)) ->
  let r := fold_left (older_step seen m) order acc in
  (r.1 <> "" -> is_Some (m !! r.1)) /\ ((exists k, k ∈ order /\ is_Some (m !! k)) \/ acc.1 <> "" -> r.1 <> "").
Proof.
  intros Hk. revert acc. induction order as [|k order IH]; intros acc Hacc; cbn.
  - split; [done|]. intros [(k & []%elem_of_nil & _)|]; done.
  - destruct (older_step_inv m acc k Hk Hacc) as [H1 H2]. destruct (IH _ H1) as [H3 H4]. split; [done|].
    intros [(k' & [->|Hin]%elem_of_cons & HS)|Hne]; apply H4; eauto.
Qed.
Lemma stale_inv now m order acc : keyed m -> (acc.1 <> "" -> is_Some (m !! acc.1)) ->
  let r := stale_or_oldest seen now m order acc in
  (r <> "" -> is_Some (m !! r)) /\ ((exists k, k ∈ order /\ is_Some (m !! k)) \/ acc.1 <> "" -> r <> "").
Proof.
  intros Hk. revert acc. induction order as [|k order IH]; intros acc Hacc; cbn [stale_or_oldest].
  - split; [done|]. intros [(k & []%elem_of_nil & _)|]; done.
  - destruct (older_step_inv m acc k Hk Hacc) as [H1 H2]. destruct (IH _ H1) as [H3 H4].
    assert ((exists k', k' ∈ k :: order /\ is_Some (m !! k')) \/ acc.1 <> "" -> stale_or_oldest seen now m order (older_step seen m acc k) <> "") as H5.
    { intros [(k' & [->|Hin]%elem_of_cons & HS)|Hne]; apply H4; eauto. }
    cbv zeta. destruct (m !! k) as [b|] eqn:E; [|done]. destruct (_ <? _); [|done].
    split; [by rewrite E; eauto|]. intros _ ->. unfold keyed in Hk. by rewrite Hk in E.
Qed.

(** What both evictions promise: a part of the table, one bucket less when
    there was one. *)
Definition takes_one (evict : gmap string A -> bool * gmap string A) : Prop :=
  forall m, keyed m -> (evict m).2 ⊆ m /\ sizeZ (evict m).2 = Z.max 0 (sizeZ m - 1).

Lemma take_key m k : keyed m -> (k <> "" -> is_Some (m !! k)) -> (m <> ∅ -> k <> "") ->
  let r := if bool_decide (k = "") then (false, m) else (true, delete k m) in r.2 ⊆ m /\ sizeZ r.2 = Z.max 0 (sizeZ m - 1).
Proof.
  intros Hm HS Hne. case_bool_decide as H0; cbn.
  - split; [done|]. destruct (decide (m = ∅)) as [->|H]; [done|]. by destruct (Hne H).
  - split; [apply delete_subseteq|]. rewrite sizeZ_delete by auto.
    assert (sizeZ m <> 0); [|pose proof (sizeZ_nonneg m); lia]. destruct (HS H0) as [x E]. unfold sizeZ. intros H.
    assert (m = ∅) as -> by (apply map_size_empty_inv; lia). by rewrite lookup_empty in E.
Qed.
Lemma visited_key visit m : visits visit -> m <> ∅ -> exists k, k ∈ visit (dom m) /\ is_Some (m !! k).
Proof.
  intros Hv Hne. destruct (map_choose m Hne) as (k & x & E). exists k. split; [|by eauto].
  rewrite (Hv (dom m)). apply elem_of_elements, elem_of_dom. by eauto.
Qed.
Lemma evict_oldest_takes visit : visits visit -> takes_one (evict_oldest seen visit).
Proof.
  intros Hv m Hm. unfold evict_oldest, oldest_key. destruct (oldest_inv m (visit (dom m)) ("", 0) Hm) as [H1 H2]; [done|].
  apply take_key; [done..|]. intros Hne. apply H2. left. by apply visited_key.
Qed.
Lemma evict_stale_takes now visit : visits visit -> takes_one (evict_stale seen now visit).
Proof.
  intros Hv m Hm. unfold evict_stale. destruct (stale_inv now m (visit (dom m)) ("", 0) Hm) as [H1 H2]; [done|].
  apply take_key; [done..|]. intros Hne. apply H2. left. by apply visited_key.
Qed.
End Evict.

(** ** The invariant *)

(** A source: its key, at most sixty-four ports, attempts only for those, at
    sixteen bits, and rings of their length. *)
Record source_ok (key : string) (b : IPTrackingBucket) : Prop := {
  so_key : IP_String (b_SrcIP b) = key;
  so_ports : Z.of_nat (size (b_PortsSeen b)) <= 64;
  so_attempts : forall port n, b_PortAttempts b !! port = Some n -> port ∈ b_PortsSeen b /\ 0 <= n <= MaxUint16;
  so_five : length (b_FiveMin b) = 13%nat;
  so_hourly : length (b_Hourly b) = 25%nat;
}.

Record table_ok {A} (capacity : Z) (ok : string -> A -> Prop) (m : gmap string A) : Prop := {
  to_keyed : keyed m;
  to_size : sizeZ m <= capacity;
  to_all : map_Forall ok m;
}.
Definition subnet_ok (sources : Z) (key : string) (b : SubnetBucket) : Prop := sizeZ (sb_ActiveIPs b) <= sources.

Record bounded (e : KineticEngine) : Prop := {
  bo_ips : table_ok (kc_MaxTrackingIPs (en_cfg e)) source_ok (en_ipBuckets e);
  bo_v4 : table_ok (en_maxSubnetBuckets e) (subnet_ok 256) (en_subnetV4 e);
  bo_v6 : table_ok (en_maxSubnetBuckets e) (subnet_ok 256) (en_subnetV6 e);
  bo_wide : table_ok (en_maxWideBuckets e) (subnet_ok 1024) (en_wideV4 e);
  bo_caps : 256 <= en_maxSubnetBuckets e <= 16384 /\ 128 <= en_maxWideBuckets e <= 4096;
  bo_queue : q_capacity (en_eventQueue e) = 250 /\ Z.of_nat (length (q_events (en_eventQueue e))) <= 250;
  bo_rings : length (en_secondHistory e) = 60%nat /\ length (en_minuteHistory e) = Z.to_nat 1441;
}.

Section Table.
Context {A : Type}.
Implicit Types (m : gmap string A) (ok : string -> A -> Prop).
Lemma keyed_subseteq m m' : m ⊆ m' -> keyed m' -> keyed m.
Proof. unfold keyed. intros H H0. by eapply lookup_weaken_None. Qed.
Lemma table_subseteq cap ok m m' : m ⊆ m' -> table_ok cap ok m' -> table_ok cap ok m.
Proof.
  intros Hs [Hk Hz Ha]. pose proof (sizeZ_subseteq _ _ Hs). split; [by eapply keyed_subseteq|lia|].
  intros k b E. eapply Ha, lookup_weaken; done.
Qed.
Lemma table_empty cap ok : 0 <= cap -> table_ok cap ok ∅.
Proof. by split; [|unfold sizeZ; rewrite map_size_empty|apply map_Forall_empty]. Qed.
Lemma table_alter cap ok f m k : table_ok cap ok m -> (forall b, ok k b -> ok k (f b)) -> table_ok cap ok (alter f k m).
Proof.
  intros [Hk Hz Ha] Hf. split.
  - unfold keyed in *. destruct (decide (k = "")) as [->|?]; [by rewrite lookup_alter_eq, Hk|by rewrite lookup_alter_ne].
  - by rewrite sizeZ_alter.
  - intros k' b. destruct (decide (k = k')) as [->|?].
    + rewrite lookup_alter_eq. intros (x & E & ->)%fmap_Some. by apply Hf, Ha.
    + rewrite lookup_alter_ne by done. apply Ha.
Qed.
Lemma table_insert cap ok m k b : table_ok cap ok m -> k <> "" -> ok k b -> (m !! k = None -> sizeZ m < cap) ->
  table_ok cap ok (<[k := b]> m).
Proof.
  intros [Hk Hz Ha] Hne Hb Hroom. split.
  - unfold keyed. by rewrite lookup_insert_ne.
  - destruct (m !! k) eqn:E; [by rewrite (sizeZ_insert_some _ _ _ _ E)|]. rewrite (sizeZ_insert_none _ _ _ E). specialize (Hroom eq_refl). lia.
  - by apply map_Forall_insert_2.
Qed.
End Table.

(** ** Counting keeps the invariant *)

Lemma bounded_count f e : bounded e -> bounded (count f e).
Proof. by intros []; split. Qed.
Lemma bounded_set_ips m e : table_ok (kc_MaxTrackingIPs (en_cfg e)) source_ok m -> bounded e -> bounded (set_ipBuckets m e).
Proof. by intros ? []; split. Qed.
Lemma bounded_set_v4 m e : table_ok (en_maxSubnetBuckets e) (subnet_ok 256) m -> bounded e -> bounded (set_subnetV4 m e).
Proof. by intros ? []; split. Qed.
Lemma bounded_set_v6 m e : table_ok (en_maxSubnetBuckets e) (subnet_ok 256) m -> bounded e -> bounded (set_subnetV6 m e).
Proof. by intros ? []; split. Qed.
Lemma bounded_set_wide m e : table_ok (en_maxWideBuckets e) (subnet_ok 1024) m -> bounded e -> bounded (set_wideV4 m e).
Proof. by intros ? []; split. Qed.
Create HintDb bounded.
#[export] Hint Resolve bounded_count bounded_set_ips bounded_set_v4 bounded_set_v6 bounded_set_wide : bounded.

Lemma ring_add_length add ep h a s k ring : length (ring_add add ep h a s k ring) = length ring.
Proof. apply length_alter. Qed.

Lemma bounded_push evt e : bounded e -> bounded (push_event evt e).
Proof.
  intros []. split; try done. cbn. unfold Push. destruct bo_queue0 as [Hc Hq].
  destruct (q_capacity _ <=? _) eqn:E; cbn; (split; [done|]); rewrite length_app; cbn; [rewrite length_drop|]; lia.
Qed.

Lemma bounded_history sec h a s k e : bounded e -> bounded (recordTrafficHistoryLocked sec h a s k e).
Proof.
  intros []. unfold recordTrafficHistoryLocked. destruct (_ || _); [by split|]. split; try done.
  cbn. by rewrite !ring_add_length.
Qed.
#[export] Hint Resolve bounded_push bounded_history : bounded.

Lemma fresh_ok a now sec : source_ok (IP_String a) (fresh_bucket a now sec).
Proof. by split; cbn; [|rewrite size_empty| | |]. Qed.

(** Every step of the counting leaves the fields the invariant reads, or keeps
    their bounds. *)
Lemma count_velocity_ok key pkt sec b : source_ok key b -> source_ok key (count_velocity pkt sec b).
Proof. intros []. unfold count_velocity. by repeat case_match; split. Qed.
Lemma long_windows_ok key sec h a s k b : source_ok key b -> source_ok key (recordLongWindowsLocked sec h a s k b).
Proof.
  intros []. unfold recordLongWindowsLocked. destruct (h <=? 0); [by split|].
  destruct (b_CurrentMinute b =? _); split; cbn; rewrite ?ring_add_length; done.
Qed.
Lemma count_totals_ok key pkt now sec b : source_ok key b -> source_ok key (count_totals pkt now sec b).
Proof.
  intros H. unfold count_totals. set (b1 := set_Hits _ _).
  assert (source_ok key b1) as H1 by (destruct H; by split).
  apply (long_windows_ok key sec (sampleCount pkt) (activityCount pkt) (synDelta pkt) (ackDelta pkt)) in H1.
  destruct H1. by split.
Qed.
Lemma count_port_ok key pkt b : source_ok key b -> source_ok key (count_port pkt b).
Proof.
  intros []. unfold count_port. destruct (_ && _ && _) eqn:E; [|by split].
  rewrite !andb_true_iff, orb_true_iff, bool_decide_eq_true in E. destruct E as [[Ha Hp] Hroom].
  assert (Z.of_nat (size ({[pk_DstPort pkt]} ∪ b_PortsSeen b)) <= 64) as Hsz.
  { destruct (decide (pk_DstPort pkt ∈ b_PortsSeen b)) as [Hin|Hout].
    - by replace ({[pk_DstPort pkt]} ∪ b_PortsSeen b) with (b_PortsSeen b) by set_solver.
    - rewrite size_union by set_solver. rewrite size_singleton. destruct Hroom; [done|lia]. }
  destruct (_ && _) eqn:E2; split; cbn; try done.
  - apply andb_true_iff in E2 as [E2 E3]. intros port n. destruct (decide (port = pk_DstPort pkt)) as [->|?].
    + rewrite lookup_insert_eq. intros [= <-]. split; [set_solver|].
      assert (0 <= default 0 (b_PortAttempts b !! pk_DstPort pkt)) as H0; [|lia].
      destruct (b_PortAttempts b !! pk_DstPort pkt) eqn:E4; cbn; [|done]. apply so_attempts0 in E4. lia.
    + rewrite lookup_insert_ne by done. intros ?%so_attempts0. set_solver.
  - intros port n ?%so_attempts0. set_solver.
Qed.
Lemma count_packet_ok key pkt now sec b : source_ok key b -> source_ok key (count_packet pkt now sec b).
Proof.
  intros H. unfold count_packet. apply (count_velocity_ok _ pkt sec), (count_totals_ok _ pkt now sec), (count_port_ok _ pkt) in H.
  unfold count_malformed. destruct (_ && _); [|done]. destruct H. by split.
Qed.

(** ** Eviction and admission *)

Lemma IP_String_nonempty a : wf_ip a -> IP_String a <> "".
Proof. intros Hw H. pose proof (parse_print a Hw) as HP. by rewrite H in HP. Qed.

Section Visits.
Context (visit : gset string -> list string) (Hv : visits visit).

(** The four evictions, as functions of their table. *)
Lemma evict_ips_spec now e : let e' := evictStaleIPBucketLocked visit now e in let m := (evict_stale b_LastSeen now visit (en_ipBuckets e)).2 in
  en_ipBuckets e' = m /\ en_cfg e' = en_cfg e /\ (bounded e -> bounded e').
Proof.
  cbv zeta. unfold evictStaleIPBucketLocked. pose proof (evict_stale_takes b_LastSeen now visit Hv (en_ipBuckets e)) as Ht.
  destruct (evict_stale _ _ _ _) as [[] m]; (split; [done|]; split; [done|]); intros He;
    destruct (Ht (to_keyed _ _ _ (bo_ips _ He))) as [Hs _]; eauto using table_subseteq, bo_ips with bounded.
Qed.
Lemma evict_v4_spec e : let e' := evictOldestSubnetV4Locked visit e in
  en_subnetV4 e' = (evict_oldest sb_LastSeen visit (en_subnetV4 e)).2 /\ en_maxSubnetBuckets e' = en_maxSubnetBuckets e /\ (bounded e -> bounded e').
Proof.
  cbv zeta. unfold evictOldestSubnetV4Locked. pose proof (evict_oldest_takes sb_LastSeen visit Hv (en_subnetV4 e)) as Ht.
  destruct (evict_oldest _ _ _) as [[] m]; (split; [done|]; split; [done|]); intros He;
    destruct (Ht (to_keyed _ _ _ (bo_v4 _ He))) as [Hs _]; cbn [note_aggregate]; eauto using table_subseteq, bo_v4 with bounded.
Qed.
Lemma evict_v6_spec e : let e' := evictOldestSubnetV6Locked visit e in
  en_subnetV6 e' = (evict_oldest sb_LastSeen visit (en_subnetV6 e)).2 /\ en_maxSubnetBuckets e' = en_maxSubnetBuckets e /\ (bounded e -> bounded e').
Proof.
  cbv zeta. unfold evictOldestSubnetV6Locked. pose proof (evict_oldest_takes sb_LastSeen visit Hv (en_subnetV6 e)) as Ht.
  destruct (evict_oldest _ _ _) as [[] m]; (split; [done|]; split; [done|]); intros He;
    destruct (Ht (to_keyed _ _ _ (bo_v6 _ He))) as [Hs _]; cbn [note_aggregate]; eauto using table_subseteq, bo_v6 with bounded.
Qed.
Lemma evict_wide_spec e : let e' := evictOldestWideV4Locked visit e in
  en_wideV4 e' = (evict_oldest sb_LastSeen visit (en_wideV4 e)).2 /\ en_maxWideBuckets e' = en_maxWideBuckets e /\ (bounded e -> bounded e').
Proof.
  cbv zeta. unfold evictOldestWideV4Locked. pose proof (evict_oldest_takes sb_LastSeen visit Hv (en_wideV4 e)) as Ht.
  destruct (evict_oldest _ _ _) as [[] m]; (split; [done|]; split; [done|]); intros He;
    destruct (Ht (to_keyed _ _ _ (bo_wide _ He))) as [Hs _]; cbn [note_aggregate]; eauto using table_subseteq, bo_wide with bounded.
Qed.

(** A table at its capacity has room after one eviction. *)
Lemma room_after {A} (seen : A -> time) cap ok (m : gmap string A) : table_ok cap ok m -> 1 <= cap ->
  sizeZ (evict_oldest seen visit m).2 < cap.
Proof.
  intros [Hk Hz _] Hc. destruct (evict_oldest_takes seen visit Hv m Hk) as [_ ->]. lia.
Qed.

Lemma admit_ok a now sec e : bounded e -> 
  let '(ob, e') := admit_source visit a now sec e in
  bounded e' /\ forall b, ob = Some b -> source_ok (IP_String a) b /\
    (en_ipBuckets e' !! IP_String a = None -> sizeZ (en_ipBuckets e') < kc_MaxTrackingIPs (en_cfg e')).
Proof.
  intros He. unfold admit_source. destruct (en_ipBuckets e !! IP_String a) as [b|] eqn:E.
  - split; [done|]. intros ? [= <-]. split; [by apply (to_all _ _ _ (bo_ips _ He))|]. by rewrite E.
  - cbv zeta. set (e1 := if (kc_MaxTrackingIPs (en_cfg e) <=? _) then evictStaleIPBucketLocked visit now e else e).
    assert (bounded e1) as H1 by (subst e1; destruct (_ <=? _); [by apply evict_ips_spec|done]).
    destruct (kc_MaxTrackingIPs (en_cfg e1) <=? _) eqn:Ez; cbv iota beta; (split; [by auto with bounded|]); intros ? [= <-]. split; [apply fresh_ok|]. lia.
Qed.

(** ** Aggregates *)

Lemma aggregate_ok window sources key ipKey now n b : 1 <= sources -> subnet_ok sources key b -> subnet_ok sources key (aggregate window sources ipKey now n b).
Proof.
  unfold subnet_ok, aggregate. intros Hs Hb. destruct (_ || _); cbn [sb_ActiveIPs].
  - destruct (_ <? _) eqn:E; [|unfold sizeZ in *; rewrite map_size_empty; lia].
    pose proof (sizeZ_insert_le (∅ : gmap string time) ipKey now) as H. replace (sizeZ (∅ : gmap string time)) with 0 in * by done. lia.
  - destruct (_ <? _) eqn:E; [|done]. pose proof (sizeZ_insert_le (sb_ActiveIPs b) ipKey now). lia.
Qed.
Lemma fresh_subnet_ok sources key now : 1 <= sources -> subnet_ok sources key (fresh_subnet key now).
Proof. intros ?. unfold subnet_ok. cbn. unfold sizeZ. rewrite map_size_empty. lia. Qed.

Lemma aggregate_v4_ok subKey ipKey now n e : subKey <> "" -> bounded e -> bounded (aggregate_v4 visit subKey ipKey now n e).
Proof.
  intros Hne He. unfold aggregate_v4. destruct (en_subnetV4 e !! subKey) as [b|] eqn:E.
  - apply bounded_set_v4; [|done]. apply table_insert; [apply He|done| |by rewrite E].
    apply aggregate_ok; [done|]. by apply (to_all _ _ _ (bo_v4 _ He)).
  - set (e1 := if en_maxSubnetBuckets e <=? _ then _ else e). assert (bounded e1 /\ sizeZ (en_subnetV4 e1) < en_maxSubnetBuckets e1) as [H1 Hroom].
    { subst e1. destruct (_ <=? _) eqn:Ez; [|split; [done|lia]]. destruct (evict_v4_spec e) as (Hm & Hc & Hb). split; [by apply Hb|].
      rewrite Hm, Hc. apply (room_after sb_LastSeen _ _ _ (bo_v4 _ He)). pose proof (bo_caps _ He). lia. }
    apply bounded_set_v4; [|done]. apply table_insert; [apply H1|done| |done]. by apply aggregate_ok, fresh_subnet_ok.
Qed.
Lemma aggregate_v6_ok subKey ipKey now n e : subKey <> "" -> bounded e -> bounded (aggregate_v6 visit subKey ipKey now n e).
Proof.
  intros Hne He. unfold aggregate_v6. destruct (en_subnetV6 e !! subKey) as [b|] eqn:E.
  - apply bounded_set_v6; [|done]. apply table_insert; [apply He|done| |by rewrite E].
    apply aggregate_ok; [done|]. by apply (to_all _ _ _ (bo_v6 _ He)).
  - set (e1 := if en_maxSubnetBuckets e <=? _ then _ else e). assert (bounded e1 /\ sizeZ (en_subnetV6 e1) < en_maxSubnetBuckets e1) as [H1 Hroom].
    { subst e1. destruct (_ <=? _) eqn:Ez; [|split; [done|lia]]. destruct (evict_v6_spec e) as (Hm & Hc & Hb). split; [by apply Hb|].
      rewrite Hm, Hc. apply (room_after sb_LastSeen _ _ _ (bo_v6 _ He)). pose proof (bo_caps _ He). lia. }
    apply bounded_set_v6; [|done]. apply table_insert; [apply H1|done| |done]. by apply aggregate_ok, fresh_subnet_ok.
Qed.
Lemma aggregate_wide_ok wideKey ipKey now n e : wideKey <> "" -> bounded e -> bounded (aggregate_wide visit wideKey ipKey now n e).
Proof.
  intros Hne He. unfold aggregate_wide. destruct (en_wideV4 e !! wideKey) as [b|] eqn:E.
  - apply bounded_set_wide; [|done]. apply table_insert; [apply He|done| |by rewrite E].
    apply aggregate_ok; [done|]. by apply (to_all _ _ _ (bo_wide _ He)).
  - set (e1 := if en_maxWideBuckets e <=? _ then _ else e). assert (bounded e1 /\ sizeZ (en_wideV4 e1) < en_maxWideBuckets e1) as [H1 Hroom].
    { subst e1. destruct (_ <=? _) eqn:Ez; [|split; [done|lia]]. destruct (evict_wide_spec e) as (Hm & Hc & Hb). split; [by apply Hb|].
      rewrite Hm, Hc. apply (room_after sb_LastSeen _ _ _ (bo_wide _ He)). pose proof (bo_caps _ He). lia. }
    apply bounded_set_wide; [|done]. apply table_insert; [apply H1|done| |done]. by apply aggregate_ok, fresh_subnet_ok.
Qed.

Lemma account_ok pkt a now e : wf_ip a -> bounded e -> bounded (account visit pkt a now e).2.
Proof.
  intros Hw He. unfold account. pose proof (admit_ok a now (second_of pkt now) _ (bounded_count (fun t => set_hits (u64 (ta_hits t + sampleCount pkt)) t) _ He)) as Had.
  destruct (admit_source _ _ _ _ _) as [[b|] e1]; [|by apply Had]. destruct Had as [H1 Hb]. destruct (Hb b eq_refl) as [Hok Hroom].
  cbn [snd]. set (e2 := set_ipBuckets _ e1). assert (bounded e2) as H2.
  { apply bounded_set_ips; [|done]. apply table_insert; [apply H1|by apply IP_String_nonempty|by apply count_packet_ok|done]. }
  unfold aggregate_subnets. destruct (SubnetKeys (Some a)) as [[isV6 subKey] wideKey].
  destruct (_ || _) eqn:E; [by auto with bounded|]. apply orb_false_iff in E as [_ Hsub%bool_decide_eq_false].
  destruct isV6; [by apply aggregate_v6_ok; auto with bounded|].
  case_bool_decide; [|apply aggregate_wide_ok; [done|]]; apply aggregate_v4_ok; auto with bounded.
Qed.
End Visits.

(** ** Lowering the capacities *)

(** A loop whose rounds take one away ends at the bound. *)
Lemma shrink_ends {A} (I : A -> Prop) (len : A -> Z) evict max fuel x :
  (forall x, I x -> I (evict x) /\ len (evict x) = Z.max 0 (len x - 1)) -> 0 <= max -> I x -> 0 <= len x <= Z.of_nat fuel ->
  exists x', shrink len evict max fuel x = Some x' /\ I x' /\ len x' = Z.min (len x) max.
Proof.
  intros He Hmax. revert x. induction fuel as [|fuel IH]; intros x Hx Hlen; cbn [shrink];
    destruct (len x <=? max) eqn:E; try (exists x; split; [done|]; split; [done|lia]); [lia|].
  destruct (He x Hx) as [H1 H2]. destruct (IH (evict x) H1) as (x' & H3 & H4 & H5); [lia|]. exists x'. split; [done|]. split; [done|]. lia.
Qed.

(** The parts of [e0] that are left in [e], with the given capacities. *)
Record part_of (c1 c2 c3 c4 : Z) (e0 e : KineticEngine) : Prop := {
  po_cfg : en_cfg e = en_cfg e0;
  po_caps : en_maxSubnetBuckets e = en_maxSubnetBuckets e0 /\ en_maxWideBuckets e = en_maxWideBuckets e0;
  po_queue : en_eventQueue e = en_eventQueue e0;
  po_rings : en_secondHistory e = en_secondHistory e0 /\ en_minuteHistory e = en_minuteHistory e0;
  po_ips : table_ok c1 source_ok (en_ipBuckets e) /\ en_ipBuckets e ⊆ en_ipBuckets e0;
  po_v4 : table_ok c2 (subnet_ok 256) (en_subnetV4 e) /\ en_subnetV4 e ⊆ en_subnetV4 e0;
  po_v6 : table_ok c3 (subnet_ok 256) (en_subnetV6 e) /\ en_subnetV6 e ⊆ en_subnetV6 e0;
  po_wide : table_ok c4 (subnet_ok 1024) (en_wideV4 e) /\ en_wideV4 e ⊆ en_wideV4 e0;
}.
Lemma smaller_table {A} cap cap' ok (m : gmap string A) : table_ok cap ok m -> sizeZ m <= cap' -> table_ok cap' ok m.
Proof. by intros [] ?; split. Qed.

Section Shrink.
Context (visit : gset string -> list string) (Hv : visits visit) (c1 c2 c3 c4 : Z) (e0 : KineticEngine).
Lemma takes_part {A} (evict : gmap string A -> bool * gmap string A) cap ok m m0 : takes_one evict -> table_ok cap ok m /\ m ⊆ m0 ->
  (table_ok cap ok (evict m).2 /\ (evict m).2 ⊆ m0) /\ sizeZ (evict m).2 = Z.max 0 (sizeZ m - 1).
Proof.
  intros Ht [Hm H0]. destruct (Ht m (to_keyed _ _ _ Hm)) as [Hs Hz]. split; [|done]. split; [by eapply table_subseteq|by etransitivity].
Qed.
Lemma shrink_ips clock max e : 0 <= max -> part_of c1 c2 c3 c4 e0 e ->
  exists e', shrink_to (fun e => sizeZ (en_ipBuckets e)) (fun e => evictStaleIPBucketLocked visit (clock (dom (en_ipBuckets e))) e) max e = Some e' /\
    part_of max c2 c3 c4 e0 e' /\ sizeZ (en_ipBuckets e') = Z.min (sizeZ (en_ipBuckets e)) max.
Proof.
  intros Hmax He. destruct (shrink_ends (part_of c1 c2 c3 c4 e0) (fun e => sizeZ (en_ipBuckets e))
    (fun e => evictStaleIPBucketLocked visit (clock (dom (en_ipBuckets e))) e) max (Z.to_nat (sizeZ (en_ipBuckets e))) e) as (e' & H1 & H2 & H3); [|done..| |].
  - intros x []. unfold evictStaleIPBucketLocked.
    destruct (takes_part _ _ _ _ _ (evict_stale_takes b_LastSeen (clock (dom (en_ipBuckets x))) visit Hv) po_ips0) as [Hp Hz].
    by destruct (evict_stale _ _ _ _) as [[] m]; (split; [split|]).
  - pose proof (sizeZ_nonneg (en_ipBuckets e)). lia.
  - exists e'. split; [done|]. split; [|done]. destruct H2. split; try done. destruct po_ips0. split; [|done]. eapply smaller_table; [done|lia].
Qed.
Lemma shrink_v4 max e : 0 <= max -> part_of c1 c2 c3 c4 e0 e ->
  exists e', shrink_to (fun e => sizeZ (en_subnetV4 e)) (evictOldestSubnetV4Locked visit) max e = Some e' /\
    part_of c1 max c3 c4 e0 e' /\ en_ipBuckets e' = en_ipBuckets e.
Proof.
  intros Hmax He. destruct (shrink_ends (fun x => part_of c1 c2 c3 c4 e0 x /\ en_ipBuckets x = en_ipBuckets e) (fun e => sizeZ (en_subnetV4 e))
    (evictOldestSubnetV4Locked visit) max (Z.to_nat (sizeZ (en_subnetV4 e))) e) as (e' & H1 & [Hx Hi] & H3); [|done..| |].
  - intros x [Hx Hi]. unfold evictOldestSubnetV4Locked.
    destruct (takes_part _ _ _ _ _ (evict_oldest_takes sb_LastSeen visit Hv) (po_v4 _ _ _ _ _ _ Hx)) as [Hp Hz].
    by destruct Hx, (evict_oldest _ _ _) as [[] m]; (split; [split; [split|]|]).
  - pose proof (sizeZ_nonneg (en_subnetV4 e)). lia.
  - exists e'. split; [done|]. split; [|done]. destruct (po_v4 _ _ _ _ _ _ Hx) as [Ht Hs].
    destruct Hx. split; try done. split; [|done]. eapply smaller_table; [done|lia].
Qed.
Lemma shrink_v6 max e : 0 <= max -> part_of c1 c2 c3 c4 e0 e ->
  exists e', shrink_to (fun e => sizeZ (en_subnetV6 e)) (evictOldestSubnetV6Locked visit) max e = Some e' /\
    part_of c1 c2 max c4 e0 e' /\ en_ipBuckets e' = en_ipBuckets e.
Proof.
  intros Hmax He. destruct (shrink_ends (fun x => part_of c1 c2 c3 c4 e0 x /\ en_ipBuckets x = en_ipBuckets e) (fun e => sizeZ (en_subnetV6 e))
    (evictOldestSubnetV6Locked visit) max (Z.to_nat (sizeZ (en_subnetV6 e))) e) as (e' & H1 & [Hx Hi] & H3); [|done..| |].
  - intros x [Hx Hi]. unfold evictOldestSubnetV6Locked.
    destruct (takes_part _ _ _ _ _ (evict_oldest_takes sb_LastSeen visit Hv) (po_v6 _ _ _ _ _ _ Hx)) as [Hp Hz].
    by destruct Hx, (evict_oldest _ _ _) as [[] m]; (split; [split; [split|]|]).
  - pose proof (sizeZ_nonneg (en_subnetV6 e)). lia.
  - exists e'. split; [done|]. split; [|done]. destruct (po_v6 _ _ _ _ _ _ Hx) as [Ht Hs].
    destruct Hx. split; try done. split; [|done]. eapply smaller_table; [done|lia].
Qed.
Lemma shrink_wide max e : 0 <= max -> part_of c1 c2 c3 c4 e0 e ->
  exists e', shrink_to (fun e => sizeZ (en_wideV4 e)) (evictOldestWideV4Locked visit) max e = Some e' /\
    part_of c1 c2 c3 max e0 e' /\ en_ipBuckets e' = en_ipBuckets e.
Proof.
  intros Hmax He. destruct (shrink_ends (fun x => part_of c1 c2 c3 c4 e0 x /\ en_ipBuckets x = en_ipBuckets e) (fun e => sizeZ (en_wideV4 e))
    (evictOldestWideV4Locked visit) max (Z.to_nat (sizeZ (en_wideV4 e))) e) as (e' & H1 & [Hx Hi] & H3); [|done..| |].
  - intros x [Hx Hi]. unfold evictOldestWideV4Locked.
    destruct (takes_part _ _ _ _ _ (evict_oldest_takes sb_LastSeen visit Hv) (po_wide _ _ _ _ _ _ Hx)) as [Hp Hz].
    by destruct Hx, (evict_oldest _ _ _) as [[] m]; (split; [split; [split|]|]).
  - pose proof (sizeZ_nonneg (en_wideV4 e)). lia.
  - exists e'. split; [done|]. split; [|done]. destruct (po_wide _ _ _ _ _ _ Hx) as [Ht Hs].
    destruct Hx. split; try done. split; [|done]. eapply smaller_table; [done|lia].
Qed.
End Shrink.

Lemma capacity_range n divisor floor ceiling : floor <= ceiling -> floor <= boundedAggregateCapacity n divisor floor ceiling <= ceiling.
Proof. intros ?. unfold boundedAggregateCapacity. cbv zeta. repeat case_match; lia. Qed.

Lemma update_config_spec visit clock runtime e : visits visit -> 0 <= rt_MaxTrackingIPs runtime -> bounded e ->
  exists e', UpdateConfig visit clock runtime e = Some e' /\ bounded e' /\ en_cfg e' = kineticConfigFromRuntime (en_cfg e) runtime /\
    en_ipBuckets e' ⊆ en_ipBuckets e /\ en_subnetV4 e' ⊆ en_subnetV4 e /\ en_subnetV6 e' ⊆ en_subnetV6 e /\ en_wideV4 e' ⊆ en_wideV4 e /\
    sizeZ (en_ipBuckets e') = Z.min (sizeZ (en_ipBuckets e)) (rt_MaxTrackingIPs runtime).
Proof.
  intros Hv Hmax []. unfold UpdateConfig. cbv zeta. set (e1 := set_maxWideBuckets _ _). set (e2 := if _ <? en_tokenBucketAvailable e1 then _ else e1).
  pose proof (capacity_range (rt_MaxTrackingIPs runtime) 4 256 16384 ltac:(done) : 256 <= en_maxSubnetBuckets e1 <= 16384) as Hs.
  pose proof (capacity_range (rt_MaxTrackingIPs runtime) 16 128 4096 ltac:(done) : 128 <= en_maxWideBuckets e1 <= 4096) as Hw.
  assert (0 <= en_maxSubnetBuckets e1) as Hs0 by lia. assert (0 <= en_maxWideBuckets e1) as Hw0 by lia.
  assert (part_of (kc_MaxTrackingIPs (en_cfg e)) (en_maxSubnetBuckets e) (en_maxSubnetBuckets e) (en_maxWideBuckets e) e1 e2) as H2.
  { subst e2. destruct (_ <? _); by split. }
  destruct (shrink_ips visit Hv _ _ _ _ e1 clock (rt_MaxTrackingIPs runtime) e2 Hmax H2) as (e3 & E3 & H3 & Hz).
  destruct (shrink_v4 visit Hv _ _ _ _ e1 (en_maxSubnetBuckets e1) e3 Hs0 H3) as (e4 & E4 & H4 & Hi4).
  destruct (shrink_v6 visit Hv _ _ _ _ e1 (en_maxSubnetBuckets e1) e4 Hs0 H4) as (e5 & E5 & H5 & Hi5).
  destruct (shrink_wide visit Hv _ _ _ _ e1 (en_maxWideBuckets e1) e5 Hw0 H5) as (e6 & E6 & H6 & Hi6).
  exists e6. split.
  - assert (kc_MaxTrackingIPs (en_cfg e2) = rt_MaxTrackingIPs runtime) as -> by by rewrite (po_cfg _ _ _ _ _ _ H2).
    rewrite E3. cbn [mbind option_bind]. rewrite (proj1 (po_caps _ _ _ _ _ _ H3)), E4. cbn [mbind option_bind].
    rewrite (proj1 (po_caps _ _ _ _ _ _ H4)), E5. cbn [mbind option_bind]. by rewrite (proj2 (po_caps _ _ _ _ _ _ H5)).
  - destruct H6 as [Hcfg [Hc1 Hc2] Hq [Hr1 Hr2] [T1 S1] [T2 S2] [T3 S3] [T4 S4]].
    split; [split; rewrite ?Hc1, ?Hc2, ?Hr1, ?Hr2, ?Hcfg, ?Hq; done|].
    repeat (split; [done|]). rewrite Hi6, Hi5, Hi4, Hz. by subst e2; destruct (_ <? en_tokenBucketAvailable e1).
Qed.

(** ** Events keep the invariant *)

Section Effects.
Context {L K X : Type} `{SK : !Sinks L K X} `{C : Crypto} `{U : Unicode}.
Abbreviation esys := (KineticEngine * (State L K * world X))%type.
Definition within (s : esys) : Prop := bounded s.1.
Definition kept (s s' : esys) : Prop := within s -> within s'.
#[local] Instance kept_preorder : PreOrder kept := keeps_preorder within.
Abbreviation stays m := (moves kept m).

Lemma stays_shared {A} (m : M (State L K * world X) A) : stays (in_shared m).
Proof. apply (moves_zoom _ (fun _ _ => True)); [by intros ???|]. intros s t _ H. exact H. Qed.
Lemma stays_with f : (forall e, bounded e -> bounded (f e)) -> stays (with_engine f).
Proof. intros Hf. apply moves_modify. intros s Hs. by apply Hf. Qed.
Lemma stays_engine : stays engine.
Proof. apply moves_gets, _. Qed.
Lemma stays_tally f : stays (tally f).
Proof. apply stays_with. auto with bounded. Qed.
Lemma stays_push evt : stays (with_engine (push_event evt)).
Proof. apply stays_with. auto with bounded. Qed.
Lemma stays_id : stays generateEventID.
Proof. apply stays_shared. Qed.
Lemma stays_stamp t : stays (stamp t).
Proof. unfold stamp. destruct (Time.IsZero t); [apply stays_shared|apply moves_ret, _]. Qed.
Hint Resolve stays_shared stays_engine stays_tally stays_push stays_id stays_stamp : moves.

Lemma stays_update key f : (forall b, source_ok key b -> source_ok key (f b)) -> stays (with_engine (update_bucket key f)).
Proof. intros Hf. apply stays_with. intros e He. apply bounded_set_ips; [|done]. apply table_alter; [apply He|done]. Qed.
Lemma stays_note ruleID now key : stays (with_engine (update_bucket key (note_strike ruleID now))).
Proof. apply stays_update. intros b []. by split. Qed.
Lemma stays_score score key : stays (with_engine (update_bucket key (fun b => if b_Score b <? score then set_Score score b else b))).
Proof. apply stays_update. intros b []. destruct (_ <? _); by split. Qed.
Hint Resolve stays_note stays_score : moves.

Lemma stays_create ruleID pkt a subnet decision score : stays (createEventLocked ruleID pkt a subnet decision score).
Proof. unfold createEventLocked. moves_solve. Qed.
Lemma stays_sync : stays syncTelemetryStateLocked.
Proof. unfold syncTelemetryStateLocked. moves_solve. Qed.
Hint Resolve stays_create stays_sync : moves.

Lemma stays_when fires ruleID a now m : (forall e b, stays (m e b)) -> stays (when_ready fires ruleID a now m).
Proof. intros Hm. unfold when_ready. moves_solve. Qed.

(** A rule over an aggregate writes back the bucket it read. *)
Lemma strike_table {A} cap ok (m : gmap string A) k b b' : table_ok cap ok m -> m !! k = Some b -> (ok k b -> ok k b') -> table_ok cap ok (<[k := b']> m).
Proof.
  intros Ht Hb Hok. apply table_insert; [done| |by apply Hok, (to_all _ _ _ Ht)|by rewrite Hb].
  intros ->. pose proof (to_keyed _ _ _ Ht) as H. unfold keyed in H. by rewrite H in Hb.
Qed.
Lemma stays_subnet_v4 src key now : stays (rule_subnet_v4 src key now).
Proof.
  intros s evs s' Hrun Hs. unfold rule_subnet_v4, engine in Hrun. run_inv Hrun. destruct (en_subnetV4 s.1 !! key) as [b|] eqn:E; [|by run_inv Hrun].
  destruct (surge _ _ _ _ _); [|by run_inv Hrun]. apply bind_inv in Hrun as (? & s1 & H1 & Hrun).
  assert (within s1) as Hs1.
  { unfold with_engine in H1. run_inv H1. apply bounded_set_v4; [|done]. by eapply strike_table; [apply Hs|done|]. }
  enough (kept s1 s') as Hk by (by apply Hk). unfold emit in Hrun. by_moves Hrun.
Qed.
Lemma stays_subnet_v6 src key now : stays (rule_subnet_v6 src key now).
Proof.
  intros s evs s' Hrun Hs. unfold rule_subnet_v6, engine in Hrun. run_inv Hrun. destruct (en_subnetV6 s.1 !! key) as [b|] eqn:E; [|by run_inv Hrun].
  destruct (surge _ _ _ _ _); [|by run_inv Hrun]. apply bind_inv in Hrun as (? & s1 & H1 & Hrun).
  assert (within s1) as Hs1.
  { unfold with_engine in H1. run_inv H1. apply bounded_set_v6; [|done]. by eapply strike_table; [apply Hs|done|]. }
  enough (kept s1 s') as Hk by (by apply Hk). unfold emit in Hrun. by_moves Hrun.
Qed.
Lemma stays_wide_v4 src key now : stays (rule_wide_v4 src key now).
Proof.
  intros s evs s' Hrun Hs. unfold rule_wide_v4, engine in Hrun. run_inv Hrun. destruct (en_wideV4 s.1 !! key) as [b|] eqn:E; [|by run_inv Hrun].
  destruct (surge _ _ _ _ _); [|by run_inv Hrun]. apply bind_inv in Hrun as (? & s1 & H1 & Hrun).
  assert (within s1) as Hs1.
  { unfold with_engine in H1. run_inv H1. apply bounded_set_wide; [|done]. by eapply strike_table; [apply Hs|done|]. }
  enough (kept s1 s') as Hk by (by apply Hk). unfold emit in Hrun. by_moves Hrun.
Qed.
Hint Resolve stays_when stays_subnet_v4 stays_subnet_v6 stays_wide_v4 : moves.
Lemma stays_rules pkt a now : stays (rules pkt a now).
Proof.
  unfold rules. destruct (SubnetKeys (Some a)) as [[isV6 subKey] wideKey].
  unfold rule_threat_intel, rule_malformed, rule_velocity, rule_syn_flood, rule_ip_rate, rule_port_scan, one, scan_tally, strike_tally.
  moves_solve; apply stays_when; intros; moves_solve.
Qed.

(** ** Every operation *)

Definition source_wf (pkt : IngressPacket) : Prop := forall a, pk_SrcIP pkt = Some a -> wf_ip a.
Lemma stays_ingest visit pkt : visits visit -> source_wf pkt -> stays (IngestPacket visit pkt).
Proof.
  intros Hv Hw s evs s' Hrun Hs. unfold IngestPacket, engine in Hrun. run_inv Hrun.
  destruct (pk_SrcIP pkt) as [a|] eqn:Ea; [|by run_inv Hrun]. destruct (_ || _); [by run_inv Hrun|].
  apply bind_inv in Hrun as (now & s1 & H1 & Hrun). apply stays_stamp in H1. specialize (H1 Hs).
  pose proof (account_ok visit Hv pkt a now s.1 (Hw a Ea) Hs) as Hacc.
  destruct (account visit pkt a now s.1) as [kept1 e1]. apply bind_inv in Hrun as (? & s2 & H2 & Hrun).
  assert (within s2) as Hs2 by (unfold with_engine in H2; run_inv H2; done).
  enough (kept s2 s') as Hk by (by apply Hk). pose proof stays_rules. destruct kept1; by_moves Hrun.
Qed.

Lemma idle_subseteq {A} (seen : A -> time) limit now (m : gmap string A) : idle seen limit now m ⊆ m.
Proof. apply map_filter_subseteq. Qed.
Lemma stays_sweep now : stays (Sweep now).
Proof.
  unfold Sweep. apply moves_bind; [apply _| |intros; apply stays_sync]. apply stays_with. intros e He. cbv zeta.
  set (e1 := set_wideV4 _ _). assert (bounded e1) as H1.
  { assert (forall A (seen : A -> time) limit cap ok m, table_ok cap ok m -> table_ok cap ok (idle seen limit now m)) as Hi
      by (intros; by eapply table_subseteq; [apply idle_subseteq|]).
    subst e1. apply bounded_set_wide; [apply Hi, He|]. apply bounded_set_v6; [apply Hi, He|]. apply bounded_set_v4; [apply Hi, He|].
    apply bounded_count, bounded_set_ips; [apply Hi, He|done]. }
  destruct (_ =? _); [done|]. destruct H1. by split.
Qed.

Lemma stays_findings now sni ja3 c findings : stays (tls_findings now sni ja3 c findings).
Proof. induction findings as [|fi findings IH]; cbn [tls_findings]; [|unfold tls_finding]; moves_solve. Qed.
Lemma stays_tls clientIP sni ja3 findings now : stays (IngestTLSFindings clientIP sni ja3 findings now).
Proof. unfold IngestTLSFindings. pose proof stays_findings. moves_solve. Qed.

Lemma bounded_allow allowlist e : bounded e -> bounded (UpdateAllowlist allowlist e).
Proof.
  intros He. unfold UpdateAllowlist. cbv zeta. set (e1 := match ParseCIDR "fe80::/10" with Some n => _ | None => _ end).
  assert (bounded e1) as H1 by (subst e1; destruct He, (ParseCIDR _); by split). clearbody e1. revert e1 H1.
  induction allowlist as [|item l IH]; intros e1 H1; [done|]. cbn [fold_left]. apply IH. unfold allow_entry.
  destruct H1. repeat case_match; by split.
Qed.
Lemma bounded_new cfg rules allowlist now : bounded (NewKineticEngine cfg rules allowlist now).
Proof.
  apply bounded_allow. pose proof (capacity_range (at_least (kc_MaxTrackingIPs cfg) 65536) 4 256 16384 ltac:(done)) as Hs.
  pose proof (capacity_range (at_least (kc_MaxTrackingIPs cfg) 65536) 16 128 4096 ltac:(done)) as Hw.
  assert (0 <= at_least (kc_MaxTrackingIPs cfg) 65536) by (unfold at_least; case_match; lia).
  split; cbn [en_ipBuckets en_subnetV4 en_subnetV6 en_wideV4 en_maxSubnetBuckets en_maxWideBuckets en_cfg kc_MaxTrackingIPs with_defaults en_eventQueue];
    unfold subnet_capacity, wide_capacity; try (apply table_empty; lia); [lia|by split|].
  split; [done|]. apply length_replicate.
Qed.

(** The operations on the engine, in any order, with any order of the maps. *)
Inductive kstep : esys -> esys -> Prop :=
  | k_ingest visit pkt events s s' : visits visit -> source_wf pkt -> IngestPacket visit pkt s = Some (events, s') -> kstep s s'
  | k_tls clientIP sni ja3 findings now events s s' :
      IngestTLSFindings clientIP sni ja3 findings now s = Some (events, s') -> kstep s s'
  | k_sweep now s s' : Sweep now s = Some (tt, s') -> kstep s s'
  | k_config visit clock runtime e e' sw : visits visit -> 0 <= rt_MaxTrackingIPs runtime ->
      UpdateConfig visit clock runtime e = Some e' -> kstep (e, sw) (e', sw)
  | k_allow allowlist e sw : kstep (e, sw) (UpdateAllowlist allowlist e, sw)
  | k_intel block correlate annotate e sw : kstep (e, sw) (SetThreatIntel block correlate annotate e, sw).

Lemma kstep_within s s' : kstep s s' -> within s -> within s'.
Proof.
  intros Hstep Hs. destruct Hstep.
  - by eapply stays_ingest.
  - by eapply stays_tls.
  - by eapply stays_sweep.
  - destruct (update_config_spec visit clock runtime e) as (e1 & E1 & H1' & _); [done..|]. by simplify_eq.
  - by apply bounded_allow.
  - destruct Hs. by split.
Qed.
Lemma ksteps_within s s' : rtc kstep s s' -> within s -> within s'.
Proof. induction 1; eauto using kstep_within. Qed.

(** C12: Whatever packets, TLS findings, sweeps, settings, allowlists and feeds
    the engine is given, and in whatever order its maps are ranged over, it
    keeps within its bounds: the sources within the configured capacity, the
    subnets and sectors within the capacities derived from it (at most 16384
    and 4096), sixty-four ports and sixteen-bit attempt counters per source,
    256 or 1024 addresses per aggregate, 250 queued events. *)
Theorem engine_bounded cfg rules allowlist now sw s :
  rtc kstep (NewKineticEngine cfg rules allowlist now, sw) s -> bounded s.1.
Proof. intros H. apply (ksteps_within _ _ H). apply bounded_new. Qed.

(** Changing the settings of a running engine always ends, for every
    capacity that is not negative: the loops remove buckets one by one until the
    new bounds hold, no more of the sources than they must, and what is left was
    there before. *)
Theorem reconfigure_ends cfg rules allowlist now sw s visit clock runtime :
  rtc kstep (NewKineticEngine cfg rules allowlist now, sw) s -> visits visit -> 0 <= rt_MaxTrackingIPs runtime ->
  exists e', UpdateConfig visit clock runtime s.1 = Some e' /\ bounded e' /\ en_cfg e' = kineticConfigFromRuntime (en_cfg s.1) runtime /\
    en_ipBuckets e' ⊆ en_ipBuckets s.1 /\ en_subnetV4 e' ⊆ en_subnetV4 s.1 /\ en_subnetV6 e' ⊆ en_subnetV6 s.1 /\ en_wideV4 e' ⊆ en_wideV4 s.1 /\
    sizeZ (en_ipBuckets e') = Z.min (sizeZ (en_ipBuckets s.1)) (rt_MaxTrackingIPs runtime).
Proof.
  intros Hsteps Hv Hmax. apply update_config_spec; [done..|]. apply (ksteps_within _ _ Hsteps), bounded_new.
Qed.
End Effects.
