(* ===== verification/EngineStrikes.v ===== *)
(** * What a packet makes the kinetic engine report

    The rules of [IngestPacket] run one after the other and each writes to the
    bucket of the source while later rules still read it. [expected] is the
    specification: the rules whose condition holds on the counters of the packet
    and which were silent for fifteen seconds, in their order. The engine
    reports exactly those; in an observing mode it reports nothing the response
    engine acts upon. *)

From Stdlib Require Import ZArith Lia Ascii String.
From stdpp Require Import base gmap strings list sorting.
From S2P Require Import Prelude.
From S2P Require Import GoLib.
From S2P Require Import Strconv.
From S2P Require Import Text.
From S2P Require Import World.
From S2P Require Import Storage.
From S2P Require Import Exec.
From S2P Require Import NetIP.
From S2P Require Import NetIPFacts.
From S2P Require Import Policy.
From S2P Require Import Evidence.
From S2P Require Import State.
From S2P Require Import Snapshot.
From S2P Require Import Release.
From S2P Require Import RateLimit.
From S2P Require Import L7Engine.
From S2P Require Import ThreatIndex.
From S2P Require Import KineticEngine.
From S2P Require Import KineticLive.

(** ** The specification *)

Section Expected.
Context (pkt : IngressPacket) (a : ip) (now : time) (e : KineticEngine) (b : IPTrackingBucket).
Abbreviation key := (IP_String a).
Abbreviation cfg := (en_cfg e).

Definition strike (id : string) (cond : bool) : list string := if cond && ruleReadyLocked b id now then [id] else [].
Definition listed : bool := threat_match (en_threatCorrelate e) key || threat_match (en_threatBlock e) key.
Definition flooding : bool :=
  (kc_SYNThreshold cfg <=? b_SYN1m b) && ((b_ACK1m b =? 0) || (i64 (b_ACK1m b * kc_SYNAckRatio cfg) <=? b_SYN1m b)).
Definition many_ports : bool := kc_PortscanThreshold cfg <=? ports b.
Definition protected_probe : bool :=
  bool_decide ((classifyKineticService cfg (pk_DstPort pkt)).1 ∈ ["database"; "admin_panel"]) && (3 <=? default 0 (b_PortAttempts b !! pk_DstPort pkt)).
(** One scan at most: the slow form before the fast one, both before a probe. *)
Definition scan : list string :=
  if low_slow now e b && ruleReadyLocked b "NET.INGRESS.LOW_SLOW_SCAN" now then ["NET.INGRESS.LOW_SLOW_SCAN"]
  else strike "NET.INGRESS.PORT_SCAN" (many_ports || protected_probe).
Definition swarm (id : string) (m : gmap string SubnetBucket) (subnet : string) (threshold minSources : Z) (pause : duration) : list string :=
  match m !! subnet with
  | Some sb => if surge threshold minSources pause now sb then [id] else []
  | None => []
  end.
Definition expected_of : list string :=
  let '(isV6, subKey, wideKey) := SubnetKeys (Some a) in
  strike "NET.INGRESS.THREAT_INTEL_MATCH" listed ++
  strike "NET.INGRESS.MALFORMED_TCP" (3 <=? b_MalformedCount b) ++
  strike "NET.INGRESS.IP_VELOCITY" (kc_VelocityLimit cfg <=? b_Velocity1s b) ++
  strike "NET.INGRESS.SYN_FLOOD" flooding ++
  scan ++
  strike "NET.INGRESS.IP_RATE" (kc_IPThreshold cfg <=? b_Attempts1m b) ++
  (if negb isV6 && negb (bool_decide (subKey = ""))
   then swarm "NET.INGRESS.SUBNET_V4" (en_subnetV4 e) subKey (kc_RangeThreshold cfg) (kc_SubnetMinSources cfg) (30 * Time.Second) else []) ++
  (if isV6 && negb (bool_decide (subKey = ""))
   then swarm "NET.INGRESS.SUBNET_V6" (en_subnetV6 e) subKey (kc_IPv6SubThreshold cfg) (kc_IPv6SubnetMinSources cfg) (30 * Time.Second) else []) ++
  (if negb isV6 && negb (bool_decide (wideKey = ""))
   then swarm "NET.INGRESS.WIDE_V4" (en_wideV4 e) wideKey (kc_WideRangeThreshold cfg) (kc_WideMinSources cfg) (60 * Time.Second) else []).
End Expected.
Definition expected (pkt : IngressPacket) (a : ip) (now : time) (e : KineticEngine) : list string :=
  match en_ipBuckets e !! IP_String a with
  | Some b => expected_of pkt a now e b
  | None => []
  end.

(** The action of an event: the registry and the mode decide, except that a
    sector is never more than a warning. *)
Definition action_of (id : string) (e : KineticEngine) : string :=
  if bool_decide (id = "NET.INGRESS.WIDE_V4") then "warn" else resolveAction id e.
Definition reported (a : ip) (now : time) (e : KineticEngine) (ids : list string) (events : list KineticEvent) : Prop :=
  map ke_RuleID events = ids /\
  Forall (fun evt => ke_SourceIP evt = IP_String a /\ ke_Time evt = now /\ ke_Action evt = action_of (ke_RuleID evt) e) events.

(** ** What a strike changes *)

(** A bucket that differs only in the record of its strikes. *)
Definition struck (score : Z) (rule : string) (last : time) (rules_seen : gmap string time) (b : IPTrackingBucket) : IPTrackingBucket :=
  set_Score score (set_LastStrikeRule rule (set_LastStrikeAt last (set_RuleLastSeen rules_seen b))).

Section Strikes.
Context {L K X : Type} `{SK : !Sinks L K X} `{C : Crypto}.
Abbreviation esys := (KineticEngine * (State L K * world X))%type.
Context (pkt : IngressPacket) (a : ip) (now : time) (e1 : KineticEngine) (b1 : IPTrackingBucket).
Context (Hsrc : pk_SrcIP pkt = Some a) (Hnow : pk_Timestamp pkt = now) (Hnz : Time.IsZero now = false).

(** The engine after the rules in [fired], and after the first [n] of the three
    rules over aggregates. *)
Record tracks (n : nat) (fired : list string) (s : esys) : Prop := {
  tr_cfg : en_cfg s.1 = en_cfg e1;
  tr_rules : en_rules s.1 = en_rules e1;
  tr_block : en_threatBlock s.1 = en_threatBlock e1;
  tr_corr : en_threatCorrelate s.1 = en_threatCorrelate e1;
  tr_v4 : (n < 1)%nat -> en_subnetV4 s.1 = en_subnetV4 e1;
  tr_v6 : (n < 2)%nat -> en_subnetV6 s.1 = en_subnetV6 e1;
  tr_wide : (n < 3)%nat -> en_wideV4 s.1 = en_wideV4 e1;
  tr_bucket : exists score rule last seen, en_ipBuckets s.1 !! IP_String a = Some (struck score rule last seen b1) /\
    forall id, id ∉ fired -> seen !! id = b_RuleLastSeen b1 !! id;
}.

Lemma tracks_shared {A} (m : M (State L K * world X) A) n fired s r s' :
  in_shared m s = Some (r, s') -> tracks n fired s -> tracks n fired s'.
Proof. intros (t & _ & ->)%zoom_inv []. by split. Qed.
Lemma tracks_tally f n fired s r s' : tally f s = Some (r, s') -> tracks n fired s -> tracks n fired s'.
Proof. intros ->%modify_inv []. by split. Qed.
Lemma tracks_push evt n fired s r s' : with_engine (push_event evt) s = Some (r, s') -> tracks n fired s -> tracks n fired s'.
Proof. intros ->%modify_inv []. by split. Qed.
Lemma tracks_id n fired s r s' : generateEventID s = Some (r, s') -> tracks n fired s -> tracks n fired s'.
Proof. apply tracks_shared. Qed.
Lemma tracks_weaken n fired fired' s : fired ⊆ fired' -> tracks n fired s -> tracks n fired' s.
Proof.
  intros Hsub []. split; try done. destruct tr_bucket0 as (sc & ru & la & se & Hb & Hid). exists sc, ru, la, se. split; [done|].
  intros id Hout. apply Hid. set_solver.
Qed.
Lemma resolve_same id n fired s : tracks n fired s -> resolveAction id s.1 = resolveAction id e1.
Proof. intros []. unfold resolveAction. by rewrite tr_rules0, tr_cfg0. Qed.

Lemma stamp_now (s : esys) r s' : stamp now s = Some (r, s') -> r = now /\ s' = s.
Proof. unfold stamp. rewrite Hnz. by intros ?%ret_inv. Qed.
Lemma tracks_note id n fired (s : esys) s' : with_engine (update_bucket (IP_String a) (note_strike id now)) s = Some (tt, s') ->
  tracks n fired s -> tracks n (id :: fired) s'.
Proof.
  intros ->%modify_inv []. split; try done. destruct tr_bucket0 as (sc & ru & la & se & Hb & Hid).
  exists sc, id, now, (<[id := now]> se). cbn. rewrite lookup_alter_eq, Hb. split; [done|].
  intros id' [Hne Hout]%not_elem_of_cons. rewrite lookup_insert_ne by done. by apply Hid.
Qed.
Lemma tracks_score score n fired (s : esys) s' :
  with_engine (update_bucket (IP_String a) (fun b => if b_Score b <? score then set_Score score b else b)) s = Some (tt, s') ->
  tracks n fired s -> tracks n fired s'.
Proof.
  intros ->%modify_inv []. split; try done. destruct tr_bucket0 as (sc & ru & la & se & Hb & Hid). cbn. rewrite lookup_alter_eq, Hb.
  cbn [fmap option_fmap option_map]. destruct (_ <? _); by eexists _, _, _, _.
Qed.

Lemma reported_app ids1 ids2 l1 l2 : reported a now e1 ids1 l1 -> reported a now e1 ids2 l2 -> reported a now e1 (ids1 ++ ids2) (l1 ++ l2).
Proof. intros [<- H1] [<- H2]. split; [apply map_app|by apply Forall_app]. Qed.
Lemma reported_nil : reported a now e1 [] [].
Proof. by split. Qed.

(** One strike: the event, and the rule noted in the bucket. *)
Lemma create_strikes id subnet decision score n fired s evs s' : id <> "NET.INGRESS.WIDE_V4" ->
  one (createEventLocked id pkt a subnet decision score) s = Some (evs, s') -> tracks n fired s ->
  reported a now e1 [id] evs /\ tracks n (id :: fired) s'.
Proof.
  intros Hid Hrun Ht. unfold one in Hrun. apply bind_inv in Hrun as (evt & s9 & Hrun & H9). apply ret_inv in H9 as [-> ->].
  unfold createEventLocked in Hrun. rewrite Hnow in Hrun. apply bind_inv in Hrun as (now' & s1 & [-> ->]%stamp_now & Hrun).
  apply bind_inv in Hrun as ([] & s1 & H1 & Hrun). apply (tracks_note id n fired _ _ H1) in Ht.
  unfold engine in Hrun. apply bind_inv in Hrun as (e & s2 & [-> ->]%gets_inv & Hrun). cbv zeta in Hrun.
  apply bind_inv in Hrun as ([] & s2 & H2 & Hrun). pose proof (tracks_score _ _ _ _ _ H2 Ht) as Ht2.
  apply bind_inv in Hrun as (eid & s3 & H3 & Hrun). pose proof (tracks_id _ _ _ _ _ H3 Ht2) as Ht3.
  apply bind_inv in Hrun as (b & s4 & H4 & Hrun).
  assert (s4 = s3) as -> by (unfold lift in H4; destruct (_ !! _); [by simplify_eq/=|done]).
  apply bind_inv in Hrun as ([] & s5 & H5 & Hrun). apply (tracks_push _ _ _ _ _ _ H5) in Ht3.
  apply bind_inv in Hrun as ([] & s6 & H6 & Hrun). apply (tracks_shared _ _ _ _ _ _ H6) in Ht3.
  apply ret_inv in Hrun as [-> ->]. split; [|done]. split.
  - unfold strike_event. by destruct (Get id (en_rules s1.1)).
  - apply Forall_singleton. unfold strike_event. rewrite Hsrc.
    destruct (Get id (en_rules s1.1)); cbn; (split; [done|]; split; [done|]); unfold action_of;
      rewrite bool_decide_eq_false_2 by done; by eapply resolve_same.
Qed.

(** A rule behind its cooldown. *)
Lemma ready_same id n fired s b : tracks n fired s -> id ∉ fired -> en_ipBuckets s.1 !! IP_String a = Some b ->
  ruleReadyLocked b id now = ruleReadyLocked b1 id now.
Proof.
  intros [] Hout Hb. destruct tr_bucket0 as (sc & ru & la & se & Hb' & Hid). simplify_eq. unfold ruleReadyLocked. cbn. by rewrite Hid.
Qed.
Lemma when_strikes fires id cond m n fired s evs s' : id ∉ fired ->
  (forall e score rule last seen, en_cfg e = en_cfg e1 -> en_threatBlock e = en_threatBlock e1 -> en_threatCorrelate e = en_threatCorrelate e1 ->
     fires e (struck score rule last seen b1) = cond) ->
  (forall e b s evs s', m e b s = Some (evs, s') -> tracks n fired s -> reported a now e1 [id] evs /\ tracks n (id :: fired) s') ->
  when_ready fires id a now m s = Some (evs, s') -> tracks n fired s ->
  reported a now e1 (strike now b1 id cond) evs /\ tracks n (id :: fired) s'.
Proof.
  intros Hout Hf Hm Hrun Ht. unfold when_ready, engine in Hrun. apply bind_inv in Hrun as (e & s1 & [-> ->]%gets_inv & Hrun).
  destruct (en_ipBuckets s.1 !! IP_String a) as [b|] eqn:Hb.
  - rewrite (ready_same _ _ _ _ _ Ht Hout Hb) in Hrun. destruct (tr_bucket _ _ _ Ht) as (sc & ru & la & se & Hb' & _).
    rewrite Hb in Hb'. injection Hb' as ->. rewrite Hf in Hrun by apply Ht. unfold strike.
    destruct (cond && _); [by eapply Hm|]. apply ret_inv in Hrun as [-> ->]. split; [apply reported_nil|].
    eapply tracks_weaken; [|done]. set_solver.
  - destruct (tr_bucket _ _ _ Ht) as (sc & ru & la & se & Hb' & _). by rewrite Hb in Hb'.
Qed.

Definition fires_as (cond : bool) (id : string) (m : M esys (list KineticEvent)) : Prop :=
  forall n fired s evs s', id ∉ fired -> m s = Some (evs, s') -> tracks n fired s ->
  reported a now e1 (strike now b1 id cond) evs /\ tracks n (id :: fired) s'.
Ltac rule_strikes :=
  intros n fired s evs s' Hout Hrun Ht;
  eapply when_strikes; [exact Hout| | |exact Hrun|exact Ht];
  [intros e sc ru la se Hc Hb Hcorr; cbn; by rewrite ?Hc, ?Hb, ?Hcorr
  |intros e b s2 evs2 s2' Hm Hs2; cbv beta in Hm; try (apply bind_inv in Hm as ([] & s3 & H3 & Hm); apply (tracks_tally _ _ _ _ _ _ H3) in Hs2);
   by eapply create_strikes].

Lemma threat_intel_strikes subKey : fires_as (listed a e1) "NET.INGRESS.THREAT_INTEL_MATCH" (rule_threat_intel pkt a subKey now).
Proof. rule_strikes. Qed.
Lemma malformed_strikes subKey : fires_as (3 <=? b_MalformedCount b1) "NET.INGRESS.MALFORMED_TCP" (rule_malformed pkt a subKey now).
Proof. rule_strikes. Qed.
Lemma velocity_strikes subKey :
  fires_as (kc_VelocityLimit (en_cfg e1) <=? b_Velocity1s b1) "NET.INGRESS.IP_VELOCITY" (rule_velocity pkt a subKey now).
Proof. rule_strikes. Qed.
Lemma syn_flood_strikes subKey : fires_as (flooding e1 b1) "NET.INGRESS.SYN_FLOOD" (rule_syn_flood pkt a subKey now).
Proof. rule_strikes. Qed.
Lemma ip_rate_strikes subKey :
  fires_as (kc_IPThreshold (en_cfg e1) <=? b_Attempts1m b1) "NET.INGRESS.IP_RATE" (rule_ip_rate pkt a subKey now).
Proof. rule_strikes. Qed.
Lemma port_scan_strikes subKey n fired s evs s' :
  "NET.INGRESS.LOW_SLOW_SCAN" ∉ fired -> "NET.INGRESS.PORT_SCAN" ∉ fired -> rule_port_scan pkt a subKey now s = Some (evs, s') ->
  tracks n fired s -> reported a now e1 (scan pkt now e1 b1) evs /\ tracks n ("NET.INGRESS.LOW_SLOW_SCAN" :: "NET.INGRESS.PORT_SCAN" :: fired) s'.
Proof.
  intros Hout1 Hout2 Hrun Ht. unfold rule_port_scan, engine in Hrun. apply bind_inv in Hrun as (e & s1 & [-> ->]%gets_inv & Hrun).
  destruct (tr_bucket _ _ _ Ht) as (sc & ru & la & se & Hb & Hid). rewrite Hb in Hrun. cbv zeta in Hrun.
  rewrite !(ready_same _ _ _ _ _ Ht Hout1 Hb), !(ready_same _ _ _ _ _ Ht Hout2 Hb) in Hrun.
  assert (low_slow now s.1 (struck sc ru la se b1) = low_slow now e1 b1) as Hl by (unfold low_slow; by rewrite (tr_cfg _ _ _ Ht)).
  rewrite Hl, (tr_cfg _ _ _ Ht) in Hrun. change (ports (struck sc ru la se b1)) with (ports b1) in Hrun.
  change (b_PortAttempts (struck sc ru la se b1)) with (b_PortAttempts b1) in Hrun.
  assert (forall id dec score, id = "NET.INGRESS.LOW_SLOW_SCAN" \/ id = "NET.INGRESS.PORT_SCAN" ->
    (scan_tally ;; one (createEventLocked id pkt a subKey dec score)) s = Some (evs, s') ->
    reported a now e1 [id] evs /\ tracks n ("NET.INGRESS.LOW_SLOW_SCAN" :: "NET.INGRESS.PORT_SCAN" :: fired) s') as Hone.
  { intros id dec score Hor H. apply bind_inv in H as ([] & s3 & H3 & H). apply (tracks_tally _ _ _ _ _ _ H3) in Ht.
    apply (create_strikes id subKey dec score n fired) in H as [H1 H2]; [|by destruct Hor as [->| ->]|done].
    split; [done|]. eapply tracks_weaken; [|exact H2]. destruct Hor as [->| ->]; set_solver. }
  unfold scan, strike, many_ports, protected_probe. destruct (low_slow now e1 b1 && _); [by eapply Hone; [left|]|].
  destruct (kc_PortscanThreshold (en_cfg e1) <=? ports b1); cbn [orb andb] in Hrun |- *.
  - destruct (ruleReadyLocked b1 "NET.INGRESS.PORT_SCAN" now); [by eapply Hone; [right|]|]. rewrite andb_false_r in Hrun.
    apply ret_inv in Hrun as [-> ->]. split; [apply reported_nil|]. eapply tracks_weaken; [|done]. set_solver.
  - destruct (_ && _ && _); [by eapply Hone; [right|]|]. apply ret_inv in Hrun as [-> ->]. split; [apply reported_nil|].
    eapply tracks_weaken; [|done]. set_solver.
Qed.

(** The rules over aggregates; each leaves the aggregates of the later ones. *)
Lemma subnet_v4_strikes subKey fired s evs s' : rule_subnet_v4 (IP_String a) subKey now s = Some (evs, s') -> tracks 0 fired s ->
  reported a now e1 (swarm now "NET.INGRESS.SUBNET_V4" (en_subnetV4 e1) subKey (kc_RangeThreshold (en_cfg e1)) (kc_SubnetMinSources (en_cfg e1))
    (30 * Time.Second)) evs /\ tracks 1 fired s'.
Proof.
  intros Hrun Ht. unfold rule_subnet_v4, engine in Hrun. apply bind_inv in Hrun as (e & s1 & [-> ->]%gets_inv & Hrun).
  rewrite (tr_v4 _ _ _ Ht), (tr_cfg _ _ _ Ht) in Hrun by lia. unfold swarm.
  assert (forall s, tracks 0 fired s -> tracks 1 fired s) as Hup by (intros ? []; split; auto with lia).
  destruct (en_subnetV4 e1 !! subKey) as [b|]; [|by apply ret_inv in Hrun as [-> ->]; split; [apply reported_nil|apply Hup]].
  destruct (surge _ _ _ _ _); [|by apply ret_inv in Hrun as [-> ->]; split; [apply reported_nil|apply Hup]].
  pose proof (resolve_same "NET.INGRESS.SUBNET_V4" _ _ _ Ht) as Hact.
  apply bind_inv in Hrun as ([] & s2 & H2%modify_inv & Hrun). assert (tracks 1 fired s2) as Ht2 by (subst; destruct Ht; split; auto with lia).
  apply bind_inv in Hrun as ([] & s3 & H3 & Hrun). apply (tracks_tally _ _ _ _ _ _ H3) in Ht2.
  apply bind_inv in Hrun as (id & s4 & H4 & Hrun). apply (tracks_id _ _ _ _ _ H4) in Ht2. unfold emit in Hrun.
  apply bind_inv in Hrun as ([] & s5 & H5 & [-> ->]%ret_inv). apply (tracks_push _ _ _ _ _ _ H5) in Ht2. split; [|done].
  split; [done|]. by apply Forall_singleton.
Qed.
Lemma subnet_v6_strikes subKey fired s evs s' : rule_subnet_v6 (IP_String a) subKey now s = Some (evs, s') -> tracks 1 fired s ->
  reported a now e1 (swarm now "NET.INGRESS.SUBNET_V6" (en_subnetV6 e1) subKey (kc_IPv6SubThreshold (en_cfg e1)) (kc_IPv6SubnetMinSources (en_cfg e1))
    (30 * Time.Second)) evs /\ tracks 2 fired s'.
Proof.
  intros Hrun Ht. unfold rule_subnet_v6, engine in Hrun. apply bind_inv in Hrun as (e & s1 & [-> ->]%gets_inv & Hrun).
  rewrite (tr_v6 _ _ _ Ht), (tr_cfg _ _ _ Ht) in Hrun by lia. unfold swarm.
  assert (forall s, tracks 1 fired s -> tracks 2 fired s) as Hup by (intros ? []; split; auto with lia).
  destruct (en_subnetV6 e1 !! subKey) as [b|]; [|by apply ret_inv in Hrun as [-> ->]; split; [apply reported_nil|apply Hup]].
  destruct (surge _ _ _ _ _); [|by apply ret_inv in Hrun as [-> ->]; split; [apply reported_nil|apply Hup]].
  pose proof (resolve_same "NET.INGRESS.SUBNET_V6" _ _ _ Ht) as Hact.
  apply bind_inv in Hrun as ([] & s2 & H2%modify_inv & Hrun). assert (tracks 2 fired s2) as Ht2 by (subst; destruct Ht; split; auto with lia).
  apply bind_inv in Hrun as ([] & s3 & H3 & Hrun). apply (tracks_tally _ _ _ _ _ _ H3) in Ht2.
  apply bind_inv in Hrun as (id & s4 & H4 & Hrun). apply (tracks_id _ _ _ _ _ H4) in Ht2. unfold emit in Hrun.
  apply bind_inv in Hrun as ([] & s5 & H5 & [-> ->]%ret_inv). apply (tracks_push _ _ _ _ _ _ H5) in Ht2. split; [|done].
  split; [done|]. by apply Forall_singleton.
Qed.
Lemma wide_v4_strikes wideKey fired s evs s' : rule_wide_v4 (IP_String a) wideKey now s = Some (evs, s') -> tracks 2 fired s ->
  reported a now e1 (swarm now "NET.INGRESS.WIDE_V4" (en_wideV4 e1) wideKey (kc_WideRangeThreshold (en_cfg e1)) (kc_WideMinSources (en_cfg e1))
    (60 * Time.Second)) evs /\ tracks 3 fired s'.
Proof.
  intros Hrun Ht. unfold rule_wide_v4, engine in Hrun. apply bind_inv in Hrun as (e & s1 & [-> ->]%gets_inv & Hrun).
  rewrite (tr_wide _ _ _ Ht), (tr_cfg _ _ _ Ht) in Hrun by lia. unfold swarm.
  assert (forall s, tracks 2 fired s -> tracks 3 fired s) as Hup by (intros ? []; split; auto with lia).
  destruct (en_wideV4 e1 !! wideKey) as [b|]; [|by apply ret_inv in Hrun as [-> ->]; split; [apply reported_nil|apply Hup]].
  destruct (surge _ _ _ _ _); [|by apply ret_inv in Hrun as [-> ->]; split; [apply reported_nil|apply Hup]].
  apply bind_inv in Hrun as ([] & s2 & H2%modify_inv & Hrun). assert (tracks 3 fired s2) as Ht2 by (subst; destruct Ht; split; auto with lia).
  apply bind_inv in Hrun as (id & s4 & H4 & Hrun). apply (tracks_id _ _ _ _ _ H4) in Ht2. unfold emit in Hrun.
  apply bind_inv in Hrun as ([] & s5 & H5 & [-> ->]%ret_inv). apply (tracks_push _ _ _ _ _ _ H5) in Ht2. split; [|done].
  split; [done|]. by apply Forall_singleton.
Qed.

Lemma guarded_strikes (c : bool) ids (m : M esys (list KineticEvent)) n fired s evs s' :
  (forall evs s', m s = Some (evs, s') -> tracks n fired s -> reported a now e1 ids evs /\ tracks (S n) fired s') ->
  (if c then m else mret []) s = Some (evs, s') -> tracks n fired s ->
  reported a now e1 (if c then ids else []) evs /\ tracks (S n) fired s'.
Proof.
  intros Hm Hrun Ht. destruct c; [by apply Hm|]. apply ret_inv in Hrun as [-> ->]. split; [apply reported_nil|].
  destruct Ht. split; auto with lia.
Qed.

Definition source_rules : list string :=
  ["NET.INGRESS.IP_RATE"; "NET.INGRESS.LOW_SLOW_SCAN"; "NET.INGRESS.PORT_SCAN"; "NET.INGRESS.SYN_FLOOD"; "NET.INGRESS.IP_VELOCITY";
   "NET.INGRESS.MALFORMED_TCP"; "NET.INGRESS.THREAT_INTEL_MATCH"].
Lemma rules_strikes s evs s' : rules pkt a now s = Some (evs, s') -> s.1 = e1 -> en_ipBuckets e1 !! IP_String a = Some b1 ->
  reported a now e1 (expected_of pkt a now e1 b1) evs /\ tracks 3 source_rules s'.
Proof.
  intros Hrun Hs Hb. assert (tracks O [] s) as Ht.
  { split; rewrite Hs; try done. exists (b_Score b1), (b_LastStrikeRule b1), (b_LastStrikeAt b1), (b_RuleLastSeen b1).
    split; [|done]. rewrite Hb. by destruct b1. }
  unfold rules in Hrun. unfold expected_of. destruct (SubnetKeys (Some a)) as [[isV6 subKey] wideKey].
  apply bind_inv in Hrun as (l1 & s1 & H1 & Hrun). destruct (threat_intel_strikes subKey _ _ _ _ _ (not_elem_of_nil _) H1 Ht) as [R1 T1].
  apply bind_inv in Hrun as (l2 & s2 & H2 & Hrun). edestruct (malformed_strikes subKey) as [R2 T2]; [|exact H2|exact T1|]; [set_solver|].
  apply bind_inv in Hrun as (l3 & s3 & H3 & Hrun). edestruct (velocity_strikes subKey) as [R3 T3]; [|exact H3|exact T2|]; [set_solver|].
  apply bind_inv in Hrun as (l4 & s4 & H4 & Hrun). edestruct (syn_flood_strikes subKey) as [R4 T4]; [|exact H4|exact T3|]; [set_solver|].
  apply bind_inv in Hrun as (l5 & s5 & H5 & Hrun). edestruct (port_scan_strikes subKey) as [R5 T5]; [| |exact H5|exact T4|]; [set_solver..|].
  apply bind_inv in Hrun as (l6 & s6 & H6 & Hrun). edestruct (ip_rate_strikes subKey) as [R6 T6]; [|exact H6|exact T5|]; [set_solver|].
  apply bind_inv in Hrun as (l7 & s7 & H7 & Hrun).
  eapply guarded_strikes in H7 as [R7 T7]; [|intros ??; apply subnet_v4_strikes|exact T6].
  apply bind_inv in Hrun as (l8 & s8 & H8 & Hrun).
  eapply guarded_strikes in H8 as [R8 T8]; [|intros ??; apply subnet_v6_strikes|exact T7].
  apply bind_inv in Hrun as (l9 & s9 & H9 & [-> ->]%ret_inv).
  eapply guarded_strikes in H9 as [R9 T9]; [|intros ??; apply wide_v4_strikes|exact T8].
  split; [|done]. repeat (apply reported_app; [done|]). done.
Qed.
End Strikes.

(** ** The operation *)

Section Ingest.
Context {L K X : Type} `{SK : !Sinks L K X} `{C : Crypto}.
Abbreviation esys := (KineticEngine * (State L K * world X))%type.
Implicit Types s : esys.

Definition watched (a : ip) (e : KineticEngine) : bool := kc_Enabled (en_cfg e) && negb (isAllowlistedLocked (Some a) e).
Lemma account_kept visit pkt a now e : (account visit pkt a now e).1 = true -> is_Some (en_ipBuckets (account visit pkt a now e).2 !! IP_String a).
Proof.
  unfold account. destruct (admit_source _ _ _ _ _) as [[b|] e1]; [|done]. intros _. cbn [snd]. set (e2 := recordTrafficHistoryLocked _ _ _ _ _ _).
  assert (is_Some (en_ipBuckets e2 !! IP_String a)) as H2.
  { subst e2. unfold recordTrafficHistoryLocked. destruct (_ || _); cbn; rewrite lookup_insert_eq; by eauto. }
  clearbody e2. assert (forall f, en_ipBuckets (count f e2) = en_ipBuckets e2) as Hc by done.
  unfold aggregate_subnets, aggregate_v4, aggregate_v6, aggregate_wide, evictOldestSubnetV4Locked, evictOldestSubnetV6Locked,
    evictOldestWideV4Locked, note_aggregate.
  destruct (SubnetKeys (Some a)) as [[isV6 subKey] wideKey]. repeat case_match; simplify_eq/=; done.
Qed.
Lemma sync_id s r s' : syncTelemetryStateLocked s = Some (r, s') -> s'.1 = s.1.
Proof.
  unfold syncTelemetryStateLocked, engine. intros H. apply bind_inv in H as (e & s1 & [-> ->]%gets_inv & (t & _ & ->)%zoom_inv). done.
Qed.

Lemma ingest_inv visit pkt a s events s' : pk_SrcIP pkt = Some a -> Time.IsZero (pk_Timestamp pkt) = false ->
  IngestPacket visit pkt s = Some (events, s') ->
  let now := pk_Timestamp pkt in let r := account visit pkt a now s.1 in
  if watched a s.1 then s'.1 = r.2 /\ events = [] /\ r.1 = false \/
    r.1 = true /\ exists b s2 s3, en_ipBuckets r.2 !! IP_String a = Some b /\ s2.1 = r.2 /\ rules pkt a now s2 = Some (events, s3) /\ s'.1 = s3.1
  else events = [] /\ s' = s.
Proof.
  intros Hsrc Hnz Hrun. unfold IngestPacket, engine in Hrun. apply bind_inv in Hrun as (e & s1 & [-> ->]%gets_inv & Hrun).
  rewrite Hsrc in Hrun. cbv zeta. unfold watched. rewrite <-(negb_involutive (kc_Enabled _)), <-negb_orb.
  destruct (_ || _); cbn [negb]; [by apply ret_inv in Hrun as [-> ->]|].
  apply bind_inv in Hrun as (now & s1 & Hst & Hrun). unfold stamp in Hst. rewrite Hnz in Hst. apply ret_inv in Hst as [-> ->].
  pose proof (account_kept visit pkt a (pk_Timestamp pkt) s.1) as Hk.
  destruct (account visit pkt a (pk_Timestamp pkt) s.1) as [kept e1]. cbn [fst snd] in *.
  apply bind_inv in Hrun as ([] & s2 & ->%modify_inv & Hrun). destruct kept.
  - right. split; [done|]. destruct (Hk eq_refl) as [b Hb]. apply bind_inv in Hrun as (evs & s3 & Hr & Hrun).
    apply bind_inv in Hrun as ([] & s4 & Hs & [-> ->]%ret_inv). apply sync_id in Hs. by exists b, (e1, s.2), s3.
  - left. by apply ret_inv in Hrun as [-> ->].
Qed.

Lemma ingest_reports visit pkt a s events s' : pk_SrcIP pkt = Some a -> Time.IsZero (pk_Timestamp pkt) = false ->
  IngestPacket visit pkt s = Some (events, s') ->
  let now := pk_Timestamp pkt in let r := account visit pkt a now s.1 in
  reported a now r.2 (if watched a s.1 && r.1 then expected pkt a now r.2 else []) events.
Proof.
  intros Hsrc Hnz Hrun. pose proof (ingest_inv visit pkt a s events s' Hsrc Hnz Hrun) as Hi. cbv zeta in *.
  destruct (watched a s.1); cbn [andb]; [|destruct Hi as [-> _]; apply reported_nil].
  destruct Hi as [(_ & -> & ->)|(-> & b & s2 & s3 & Hb & Hs2 & Hr & _)]; [apply reported_nil|].
  unfold expected. rewrite Hb. eapply rules_strikes; [done..|exact Hr|done|done].
Qed.

(** C11: The events of a packet are exactly those of the specification: for a
    source that is watched and admitted, the rules whose condition holds on the
    counters after the packet and whose cooldown is over, in their order,
    although each rule changes the bucket the next ones read; every event names
    the source and the time, and its action is what the registry allows in the
    configured mode, a warning at most for a sector. A source that is on the
    allowlist, or any source while the engine is off, gives no event and leaves
    no trace. *)
Theorem strikes_exact visit pkt a s events s' : pk_SrcIP pkt = Some a -> Time.IsZero (pk_Timestamp pkt) = false ->
  IngestPacket visit pkt s = Some (events, s') ->
  let now := pk_Timestamp pkt in let r := account visit pkt a now s.1 in
  reported a now r.2 (if watched a s.1 && r.1 then expected pkt a now r.2 else []) events /\ (watched a s.1 = false -> s' = s).
Proof.
  intros Hsrc Hnz Hrun. split; [by eapply ingest_reports|]. intros Hw.
  pose proof (ingest_inv visit pkt a s events s' Hsrc Hnz Hrun) as Hi. cbv zeta in Hi. rewrite Hw in Hi. apply Hi.
Qed.
End Ingest.
