(* ===== verification/EngineResponse.v ===== *)
(** * From kinetic events to the response engine

    A rule that struck a source is silent for fifteen seconds, and an engine
    that observes, or a source on the allowlist, never makes the response engine
    act: neither through packets nor through TLS findings. *)

From Stdlib Require Import ZArith Lia Ascii String.
From stdpp Require Import base gmap strings list sorting.
From S2P Require Import Prelude.
From S2P Require Import GoLib.
From S2P Require Import Strconv.
From S2P Require Import Text.
From S2P Require Import World.
From S2P Require Import Storage.
From S2P Require Import Exec.
From S2P Require Import NetIP.
From S2P Require Import NetIPFacts.
From S2P Require Import Policy.
From S2P Require Import Evidence.
From S2P Require Import State.
From S2P Require Import Snapshot.
From S2P Require Import Release.
From S2P Require Import RateLimit.
From S2P Require Import L7Engine.
From S2P Require Import ThreatIndex.
From S2P Require Import KineticResponse.
From S2P Require Import KineticEngine.
From S2P Require Import KineticLive.
From S2P Require Import EngineStrikes.

(** ** Cooldown *)

Section Cooldown.
Context {L K X : Type} `{SK : !Sinks L K X} `{C : Crypto}.
Abbreviation esys := (KineticEngine * (State L K * world X))%type.
Context (pkt : IngressPacket) (a : ip) (now : time).
Context (Hnow : pk_Timestamp pkt = now) (Hnz : Time.IsZero now = false).

(** When a rule last struck the source. *)
Definition last_strike (id : string) (s : esys) : option time := b ← en_ipBuckets s.1 !! IP_String a; b_RuleLastSeen b !! id.
Definition noting (s s' : esys) : Prop := forall id, last_strike id s' = last_strike id s \/ last_strike id s' = Some now.
#[local] Instance noting_preorder : PreOrder noting.
Proof. split; [by left|]. intros s1 s2 s3 H1 H2 id. destruct (H2 id) as [->|]; auto. Qed.

Lemma noting_shared {A} (m : M (State L K * world X) A) : moves noting (in_shared m).
Proof. apply (moves_zoom _ (fun _ _ => True)); [by intros ???|]. intros s t _ id. by left. Qed.
Lemma noting_with f : (forall e, en_ipBuckets (f e) = en_ipBuckets e) -> moves noting (with_engine f).
Proof. intros Hf. apply moves_modify. intros s id. left. unfold last_strike. cbn. by rewrite Hf. Qed.
Lemma noting_tally f : moves noting (tally f).
Proof. by apply noting_with. Qed.
Lemma noting_push evt : moves noting (with_engine (push_event evt)).
Proof. by apply noting_with. Qed.
Lemma noting_engine : moves noting engine.
Proof. apply moves_gets, _. Qed.
Lemma noting_id : moves noting generateEventID.
Proof. apply noting_shared. Qed.
Lemma noting_stamp t : moves noting (stamp t).
Proof. unfold stamp. destruct (Time.IsZero t); [apply noting_shared|apply moves_ret, _]. Qed.
Lemma noting_note id : moves noting (with_engine (update_bucket (IP_String a) (note_strike id now))).
Proof.
  apply moves_modify. intros s id'. unfold last_strike. cbn. rewrite lookup_alter_eq. destruct (en_ipBuckets s.1 !! _) as [b|]; cbn; [|by left].
  destruct (decide (id = id')) as [->|Hne]; [right; apply lookup_insert_eq|left; by apply lookup_insert_ne].
Qed.
Lemma noting_score score : moves noting (with_engine (update_bucket (IP_String a) (fun b => if b_Score b <? score then set_Score score b else b))).
Proof.
  apply moves_modify. intros s id'. left. unfold last_strike. cbn. rewrite lookup_alter_eq. destruct (en_ipBuckets s.1 !! _) as [b|]; cbn; [|done].
  by destruct (_ <? _).
Qed.
Hint Resolve noting_shared noting_tally noting_push noting_engine noting_id noting_stamp noting_note noting_score : moves.

(** Every event of a rule over one source leaves its time in the bucket. *)
Definition noted (evs : list KineticEvent) (s s' : esys) : Prop :=
  noting s s' /\ Forall (fun evt => ke_RuleID evt ∈ source_rules -> last_strike (ke_RuleID evt) s' = Some now) evs.
Lemma noted_app l1 l2 s1 s2 s3 : noted l1 s1 s2 -> noted l2 s2 s3 -> noted (l1 ++ l2) s1 s3.
Proof.
  intros [N1 F1] [N2 F2]. split; [by etransitivity|]. apply Forall_app. split; [|done]. eapply Forall_impl; [exact F1|].
  cbn. intros evt H Hin. destruct (N2 (ke_RuleID evt)) as [->|]; auto.
Qed.
Lemma noted_nil s s' : noting s s' -> noted [] s s'.
Proof. by split. Qed.

Lemma create_noted id subnet decision score s evs s' :
  one (createEventLocked id pkt a subnet decision score) s = Some (evs, s') -> noted evs s s'.
Proof.
  intros Hrun. split.
  - revert Hrun. assert (moves noting (one (createEventLocked id pkt a subnet decision score))) as Hm; [|by intros ?%Hm].
    intros s0 l0 s0' H. unfold one, createEventLocked in H. rewrite Hnow in H. unfold stamp in H. rewrite Hnz in H.
    apply bind_inv in H as (evt & s9 & H & [-> ->]%ret_inv). apply bind_inv in H as (n1 & s1 & [-> ->]%ret_inv & H). by_moves H.
  - unfold one, createEventLocked in Hrun. rewrite Hnow in Hrun. unfold stamp in Hrun. rewrite Hnz in Hrun.
    apply bind_inv in Hrun as (evt & s9 & Hrun & [-> ->]%ret_inv). apply bind_inv in Hrun as (n1 & s1 & [-> ->]%ret_inv & Hrun).
    apply bind_inv in Hrun as ([] & s1 & H1 & Hrun). unfold engine in Hrun. apply bind_inv in Hrun as (e & s2 & [-> ->]%gets_inv & Hrun).
    assert (noting s1 s9) as Hn by by_moves Hrun. apply bind_inv in Hrun as ([] & s2 & H2 & Hrun).
    apply bind_inv in Hrun as (eid & s3 & H3 & Hrun). apply bind_inv in Hrun as (b & s4 & H4 & Hrun).
    unfold lift in H4. destruct (en_ipBuckets s1.1 !! IP_String a) as [b'|] eqn:Hb; [|done]. simplify_eq/=.
    apply bind_inv in Hrun as ([] & s5 & H5 & Hrun). apply bind_inv in Hrun as ([] & s6 & H6 & [-> ->]%ret_inv).
    apply Forall_singleton. assert (ke_RuleID (strike_event eid now id pkt b subnet decision (strike_score id (IP_String a) score s1.1) s1.1) = id) as ->
      by (unfold strike_event; by destruct (Get id (en_rules s1.1))).
    intros _. destruct (Hn id) as [->|]; [|done]. apply modify_inv in H1 as ->. unfold last_strike in *. cbn in *.
    rewrite lookup_alter_eq in Hb |- *. destruct (en_ipBuckets s.1 !! _) as [b0|]; [|done]. apply lookup_insert_eq.
Qed.

(** The rules, in sequence. *)
Definition notes (m : M esys (list KineticEvent)) : Prop := forall s evs s', m s = Some (evs, s') -> noted evs s s'.
Lemma notes_nil : notes (mret []).
Proof. intros s evs s' [-> ->]%ret_inv. by apply noted_nil. Qed.
Lemma notes_create id subnet decision score : notes (one (createEventLocked id pkt a subnet decision score)).
Proof. intros s evs s'. apply create_noted. Qed.
Lemma notes_after {A} (m : M esys A) k : moves noting m -> (forall x, notes (k x)) -> notes (m ≫= k).
Proof.
  intros Hm Hk s evs s' H. apply bind_inv in H as (x & s1 & H1 & H). apply Hm in H1. apply Hk in H as [H2 H3].
  split; [by etransitivity|done].
Qed.
Lemma notes_emit evt : ke_RuleID evt ∉ source_rules -> notes (emit evt).
Proof.
  intros Hout s evs s' H. unfold emit in H. apply bind_inv in H as ([] & s1 & H1 & [-> ->]%ret_inv). split; [by eapply noting_push|].
  by apply Forall_singleton.
Qed.
Ltac notes_solve :=
  repeat first
    [ apply notes_nil | apply notes_create | apply notes_emit; cbn; set_solver
    | apply notes_after; [by auto with moves|intros ?]
    | apply notes_after; [by apply noting_with|intros ?]
    | lazymatch goal with
      | |- notes (match ?x with _ => _ end) => destruct x
      end ].

Lemma notes_rule_threat subKey : notes (rule_threat_intel pkt a subKey now).
Proof. unfold rule_threat_intel, when_ready. notes_solve. Qed.
Lemma notes_rule_malformed subKey : notes (rule_malformed pkt a subKey now).
Proof. unfold rule_malformed, when_ready. notes_solve. Qed.
Lemma notes_rule_velocity subKey : notes (rule_velocity pkt a subKey now).
Proof. unfold rule_velocity, when_ready. notes_solve. Qed.
Lemma notes_rule_syn subKey : notes (rule_syn_flood pkt a subKey now).
Proof. unfold rule_syn_flood, when_ready. notes_solve. Qed.
Lemma notes_rule_scan subKey : notes (rule_port_scan pkt a subKey now).
Proof. unfold rule_port_scan, scan_tally. notes_solve. Qed.
Lemma notes_rule_rate subKey : notes (rule_ip_rate pkt a subKey now).
Proof. unfold rule_ip_rate, when_ready. notes_solve. Qed.
Lemma notes_subnet_v4 key : notes (rule_subnet_v4 (IP_String a) key now).
Proof. unfold rule_subnet_v4, strike_tally. notes_solve. Qed.
Lemma notes_subnet_v6 key : notes (rule_subnet_v6 (IP_String a) key now).
Proof. unfold rule_subnet_v6, strike_tally. notes_solve. Qed.
Lemma notes_wide_v4 key : notes (rule_wide_v4 (IP_String a) key now).
Proof. unfold rule_wide_v4. notes_solve. Qed.

Lemma notes_if (c : bool) m : notes m -> notes (if c then m else mret []).
Proof. intros Hm. destruct c; [done|apply notes_nil]. Qed.
Lemma rules_noted : notes (rules pkt a now).
Proof.
  intros s evs s' Hrun. unfold rules in Hrun. destruct (SubnetKeys (Some a)) as [[isV6 subKey] wideKey].
  apply bind_inv in Hrun as (l1 & s1 & H1%notes_rule_threat & Hrun). apply bind_inv in Hrun as (l2 & s2 & H2%notes_rule_malformed & Hrun).
  apply bind_inv in Hrun as (l3 & s3 & H3%notes_rule_velocity & Hrun). apply bind_inv in Hrun as (l4 & s4 & H4%notes_rule_syn & Hrun).
  apply bind_inv in Hrun as (l5 & s5 & H5%notes_rule_scan & Hrun). apply bind_inv in Hrun as (l6 & s6 & H6%notes_rule_rate & Hrun).
  apply bind_inv in Hrun as (l7 & s7 & H7 & Hrun). apply bind_inv in Hrun as (l8 & s8 & H8 & Hrun).
  apply bind_inv in Hrun as (l9 & s9 & H9 & [-> ->]%ret_inv).
  apply (notes_if _ _ (notes_subnet_v4 _)) in H7.
  apply (notes_if _ _ (notes_subnet_v6 _)) in H8.
  apply (notes_if _ _ (notes_wide_v4 _)) in H9.
  repeat (eapply noted_app; [done|]). done.
Qed.
End Cooldown.

(** A rule reported for a source was ready. *)
Lemma expected_ready pkt a now e b id : id ∈ expected_of pkt a now e b -> id ∈ source_rules -> ruleReadyLocked b id now = true.
Proof.
  intros Hin Hid. unfold expected_of in Hin. destruct (SubnetKeys (Some a)) as [[isV6 subKey] wideKey].
  assert (forall i c, id ∈ strike now b i c -> ruleReadyLocked b id now = true) as Hs.
  { unfold strike. intros i c. destruct (c && _) eqn:E; [|by intros ?%elem_of_nil]. intros ->%list_elem_of_singleton. by apply andb_true_iff in E as [_ E]. }
  assert (forall i m k x y z, i ∉ source_rules -> id ∉ swarm now i m k x y z) as Hw.
  { intros i m k x y z Hi. unfold swarm. destruct (m !! k) as [sb|]; [|by intros ?%elem_of_nil]. destruct (surge x y z now sb); [|by intros ?%elem_of_nil]. intros ->%list_elem_of_singleton. by apply Hi. }
  rewrite !elem_of_app in Hin. destruct Hin as [H|[H|[H|[H|[H|[H|[H|[H|H]]]]]]]]; try (by eapply Hs);
    try (destruct (_ && _); [exfalso; revert H; apply Hw; set_solver|by apply elem_of_nil in H]).
  unfold scan in H. destruct (_ && _) eqn:E; [|by eapply Hs]. apply list_elem_of_singleton in H as ->. by apply andb_true_iff in E as [_ E].
Qed.

Lemma velocity_seen pkt sec b : b_RuleLastSeen (count_velocity pkt sec b) = b_RuleLastSeen b.
Proof. unfold count_velocity. destruct (b_CurrentSecEpoch b =? sec), (0 <? synDelta pkt); try done; by destruct (_ && _). Qed.
Lemma windows_seen sec h n sy ac b : b_RuleLastSeen (recordLongWindowsLocked sec h n sy ac b) = b_RuleLastSeen b.
Proof. unfold recordLongWindowsLocked. destruct (h <=? 0); [done|]. by destruct (b_CurrentMinute b =? _). Qed.
Lemma port_seen pkt b : b_RuleLastSeen (count_port pkt b) = b_RuleLastSeen b.
Proof. unfold count_port. destruct (_ && _ && _); [|done]. cbv zeta. by destruct (_ && _). Qed.
Lemma count_packet_seen pkt now sec b : b_RuleLastSeen (count_packet pkt now sec b) = b_RuleLastSeen b.
Proof.
  unfold count_packet, count_malformed. set (b1 := count_port _ _). transitivity (b_RuleLastSeen b1); [by destruct (_ && _)|].
  subst b1. rewrite port_seen. unfold count_totals. set (b2 := recordLongWindowsLocked _ _ _ _ _ _).
  transitivity (b_RuleLastSeen b2); [done|]. subst b2. rewrite windows_seen. apply velocity_seen.
Qed.
Section Sources.
Context (visit : gset string -> list string).
Lemma aggregate_subnets_ips pkt a now e : en_ipBuckets (aggregate_subnets visit pkt a now e) = en_ipBuckets e.
Proof.
  unfold aggregate_subnets, aggregate_v4, aggregate_v6, aggregate_wide, evictOldestSubnetV4Locked, evictOldestSubnetV6Locked,
    evictOldestWideV4Locked, note_aggregate.
  destruct (SubnetKeys (Some a)) as [[isV6 subKey] wideKey]. by repeat (case_match; simplify_eq/=).
Qed.
Lemma account_known pkt a now e b : en_ipBuckets e !! IP_String a = Some b ->
  en_ipBuckets (account visit pkt a now e).2 !! IP_String a = Some (count_packet pkt now (second_of pkt now) b).
Proof.
  intros Hb. unfold account, admit_source. cbn [en_ipBuckets count set_tallies]. change (en_ipBuckets (count _ e)) with (en_ipBuckets e). rewrite Hb. cbn [snd].
  rewrite aggregate_subnets_ips. unfold recordTrafficHistoryLocked. destruct (_ || _); cbn; apply lookup_insert_eq.
Qed.
End Sources.

Section Effects.
Context {L K X : Type} `{SK : !Sinks L K X} `{C : Crypto}.
Abbreviation esys := (KineticEngine * (State L K * world X))%type.
Implicit Types s : esys.

(** A rule that struck a source is silent for fifteen seconds: after a
    packet that made it strike, the next packet of the source makes it strike
    again only when fifteen seconds have passed, whatever its counters say. *)
Theorem strike_cooldown visit pkt s events s1 visit' pkt' events' s2 a id :
  pk_SrcIP pkt = Some a -> pk_SrcIP pkt' = Some a -> Time.IsZero (pk_Timestamp pkt) = false -> Time.IsZero (pk_Timestamp pkt') = false ->
  IngestPacket visit pkt s = Some (events, s1) -> IngestPacket visit' pkt' s1 = Some (events', s2) ->
  id ∈ source_rules -> id ∈ map ke_RuleID events -> Time.Sub (pk_Timestamp pkt') (pk_Timestamp pkt) < 15 * Time.Second ->
  id ∉ map ke_RuleID events'.
Proof.
  intros Ha Ha' Hz Hz' Hrun Hrun' Hid Hin Hsoon Hin'.
  apply (ingest_inv visit pkt a) in Hrun; [|done..]. cbv zeta in Hrun.
  destruct (watched a s.1); [|by destruct Hrun as [-> _]; apply elem_of_nil in Hin].
  destruct Hrun as [(_ & -> & _)|(_ & b & s3 & s4 & Hb & Hs3 & Hr & Hs1)]; [by apply elem_of_nil in Hin|].
  apply (rules_noted pkt a _ eq_refl Hz) in Hr as [_ Hn]. apply list_elem_of_In, in_map_iff in Hin as (evt & <- & Hevt%list_elem_of_In).
  rewrite Forall_forall in Hn. specialize (Hn evt Hevt Hid). unfold last_strike in Hn. rewrite <-Hs1 in Hn.
  destruct (en_ipBuckets s1.1 !! IP_String a) as [b'|] eqn:Hb'; [cbn in Hn|done].
  destruct (ingest_reports visit' pkt' a s1 events' s2 Ha' Hz' Hrun') as [Hmap _]. rewrite Hmap in Hin'.
  destruct (_ && _); [|by apply elem_of_nil in Hin']. unfold expected in Hin'. rewrite (account_known _ _ _ _ _ _ Hb') in Hin'.
  apply expected_ready in Hin'; [|done]. unfold ruleReadyLocked in Hin'. rewrite count_packet_seen, Hn in Hin'. cbn [default] in Hin'.
  unfold id in Hin'. rewrite Hz in Hin'. cbn [orb] in Hin'. lia.
Qed.
End Effects.

(** ** The response engine *)

(** [kineticContributorCount] (src/control/kinetic_runtime.go) *)
Definition kineticContributorCount (e : KineticEvent) : Z :=
  match ke_Metadata e !! "active_sources" with
  | Some (MInt n) => n
  | _ => 0
  end.
(** The fields of an event the response engine reads. Its time is in UTC, hence
    without a monotonic reading; the engine sets no evidence identifier. *)
Definition response_view (e : KineticEvent) : KineticResponse.KineticEvent :=
  KineticResponse.mkKEvent (mkGoTime (ke_Time e) None) (ke_RuleID e) (ke_SourceIP e) (ke_Subnet e) (ke_Score e) (ke_Confidence e) (ke_Action e)
    (ke_Decision e) "" (kineticContributorCount e).

Definition passive (e : KineticEvent) : Prop := ke_Action e <> "contain" /\ ke_Action e <> "block".
Lemma strongest_passive events : Forall passive events -> strongest (map response_view events) = ∅.
Proof.
  unfold strongest. generalize (∅ : gmap string KineticResponse.KineticEvent). induction events as [|e l IH]; intros m; [done|].
  intros [[H1 H2] Hl]%Forall_cons. cbn [map fold_left].
  assert (strongest_step m (response_view e) = m) as ->; [|by apply IH]. unfold strongest_step.
  rewrite !bool_decide_eq_false_2 by done. done.
Qed.

(** A mode that neither contains nor blocks. *)
Definition observing (e : KineticEngine) : Prop := kc_EnforcementMode (en_cfg e) <> "contain" /\ kc_EnforcementMode (en_cfg e) <> "block".
Lemma observing_action id e : observing e -> resolveAction id e = "track".
Proof. intros [H1 H2]. unfold resolveAction. destruct (Get id (en_rules e)); [|done]. by rewrite !bool_decide_eq_false_2. Qed.
Lemma account_cfg visit pkt a now e : en_cfg (account visit pkt a now e).2 = en_cfg e.
Proof.
  assert (forall e, en_cfg (aggregate_subnets visit pkt a now e) = en_cfg e) as Hs.
  { intros e0. unfold aggregate_subnets, aggregate_v4, aggregate_v6, aggregate_wide, evictOldestSubnetV4Locked, evictOldestSubnetV6Locked,
      evictOldestWideV4Locked, note_aggregate. destruct (SubnetKeys (Some a)) as [[isV6 subKey] wideKey]. by repeat (case_match; simplify_eq/=). }
  assert (forall t e, en_cfg (evictStaleIPBucketLocked visit t e) = en_cfg e) as He.
  { intros t e0. unfold evictStaleIPBucketLocked. by destruct (evict_stale _ _ _ _) as [[] m]. }
  assert (forall e, en_cfg (admit_source visit a now (second_of pkt now) e).2 = en_cfg e) as Ha.
  { intros e0. unfold admit_source. destruct (en_ipBuckets e0 !! IP_String a); [done|]. cbv zeta.
    set (e1 := if kc_MaxTrackingIPs (en_cfg e0) <=? _ then _ else e0).
    assert (en_cfg e1 = en_cfg e0) as Hc by (subst e1; destruct (_ <=? _); [apply He|done]).
    clearbody e1. destruct (_ <=? _); exact Hc. }
  specialize (Ha (count (fun t => set_hits (u64 (ta_hits t + sampleCount pkt)) t) e)). unfold account.
  destruct (admit_source _ _ _ _ _) as [[b|] e1]; cbn [snd] in *; [|done]. rewrite Hs. unfold recordTrafficHistoryLocked. by destruct (_ || _).
Qed.

Section Response.
Context {L K X : Type} `{SK : !Sinks L K X} `{C : Crypto}.
Abbreviation esys := (KineticEngine * (State L K * world X))%type.
Implicit Types s : esys.

Lemma ingest_passive visit pkt a s events s' : pk_SrcIP pkt = Some a -> Time.IsZero (pk_Timestamp pkt) = false ->
  isAllowlistedLocked (Some a) s.1 = true \/ observing s.1 -> IngestPacket visit pkt s = Some (events, s') -> Forall passive events.
Proof.
  intros Ha Hz Hq Hrun. destruct (ingest_reports visit pkt a s events s' Ha Hz Hrun) as [Hmap Hall]. destruct Hq as [Hallow|Hobs].
  - unfold watched in Hmap. rewrite Hallow, andb_false_r in Hmap. by apply map_eq_nil in Hmap as ->.
  - eapply Forall_impl; [exact Hall|]. cbn. intros evt (_ & _ & Hact). unfold passive. rewrite Hact. unfold action_of.
    case_bool_decide; [done|]. rewrite observing_action; [done|]. unfold observing. by rewrite account_cfg.
Qed.

(** The engine while the findings are worked through. *)
Lemma finding_run now sni ja3 c fi s events s' : tls_finding now sni ja3 c fi s = Some (events, s') ->
  en_cfg s'.1 = en_cfg s.1 /\ Forall (fun evt => ke_Action evt = if cl_Allowlisted c then "warn" else resolveAction (fi_RuleID fi) s.1) events.
Proof.
  unfold tls_finding, engine. intros H. apply bind_inv in H as (e & s1 & [-> ->]%gets_inv & H).
  destruct (Get (fi_RuleID fi) (en_rules s.1)) as [def|]; [|by apply ret_inv in H as [-> ->]].
  case_bool_decide; [|by apply ret_inv in H as [-> ->]].
  apply bind_inv in H as (id & s1 & H1 & H). unfold generateEventID, in_world, in_shared in H1. apply zoom_inv in H1 as (t & _ & ->). cbv zeta in H.
  apply bind_inv in H as ([] & s2 & ->%modify_inv & H). apply bind_inv in H as ([] & s3 & ->%modify_inv & H).
  apply bind_inv in H as ([] & s4 & (t' & _ & ->)%zoom_inv & [-> ->]%ret_inv). split; [done|]. by apply Forall_singleton.
Qed.
Lemma findings_passive now sni ja3 c findings s events s' : cl_Allowlisted c = true \/ observing s.1 ->
  tls_findings now sni ja3 c findings s = Some (events, s') -> Forall passive events.
Proof.
  revert s events. induction findings as [|fi l IH]; intros s events Hq H; cbn [tls_findings] in H; [by apply ret_inv in H as [-> ->]|].
  apply bind_inv in H as (l1 & s1 & [Hc H1]%finding_run & H). apply bind_inv in H as (l2 & s2 & H2 & [-> ->]%ret_inv).
  apply Forall_app. split.
  - eapply Forall_impl; [exact H1|]. cbn. intros evt Hact. unfold passive. rewrite Hact.
    destruct (cl_Allowlisted c); [done|]. destruct Hq as [|Hobs]; [done|]. by rewrite observing_action.
  - eapply IH; [|exact H2]. destruct Hq as [|Hobs]; [by left|right]. unfold observing. by rewrite Hc.
Qed.
Lemma tls_passive clientIP sni ja3 findings now a s events s' : ParseIP clientIP = Some a ->
  isAllowlistedLocked (Some a) s.1 = true \/ observing s.1 -> IngestTLSFindings clientIP sni ja3 findings now s = Some (events, s') ->
  Forall passive events.
Proof.
  intros Ha Hq H. unfold IngestTLSFindings in H. rewrite Ha in H. destruct findings as [|fi l]; [by apply ret_inv in H as [-> ->]|].
  apply bind_inv in H as (now' & s1 & Hst & H). assert (s1.1 = s.1) as Hs1.
  { unfold stamp, in_world, in_shared in Hst. destruct (Time.IsZero now); [by apply zoom_inv in Hst as (t & _ & ->)|by apply ret_inv in Hst as [_ ->]]. }
  unfold engine in H. apply bind_inv in H as (e & s2 & [-> ->]%gets_inv & H).
  apply bind_inv in H as (evs & s3 & H2 & H). apply bind_inv in H as ([] & s4 & _ & [-> ->]%ret_inv).
  eapply findings_passive; [|exact H2]. rewrite Hs1. exact Hq.
Qed.

End Response.

Section Pipeline.
Context {L K X : Type} `{SK : !Sinks L K X} `{CC : !CoreClient X} `{U : Unicode} `{C : Crypto} `{ED : Policy.Ed25519}
  `{JE : JSONDoc encryptedStorageEnvelope} `{EP : !EnvelopeProbe} `{JP : JSONDoc PolicyEnvelope}
  `{JD : JSONDoc PolicyDocument} `{JF : JSONDoc policyFloorDocument}.

Lemma passive_no_response ttl order events (k : KSys L K X) : Forall passive events ->
  handleKineticDecisions ttl order (map response_view events) k = Some (tt, k).
Proof.
  intros Hp. unfold handleKineticDecisions. rewrite (strongest_passive _ Hp).
  assert (omap (fun t => (fun e => (t, e)) <$> (∅ : gmap string KineticResponse.KineticEvent) !! t) order = []) as ->; [|done].
  induction order as [|t l IH]; [done|]. cbn. by rewrite lookup_empty.
Qed.

(** C24: While the engine observes, and at any time for a source on the
    allowlist, neither packets nor TLS findings of the source make the response
    engine do anything: it handles the events by leaving its own state, the
    shared state, the stored policy and the kernel as they were. *)
Theorem quiet_never_acts (s : KineticEngine * (State L K * world X)) a ttl order (k : KSys L K X) :
  isAllowlistedLocked (Some a) s.1 = true \/ observing s.1 ->
  (forall visit pkt events s', pk_SrcIP pkt = Some a -> Time.IsZero (pk_Timestamp pkt) = false -> IngestPacket visit pkt s = Some (events, s') ->
     handleKineticDecisions ttl order (map response_view events) k = Some (tt, k)) /\
  (forall clientIP sni ja3 findings now events s', ParseIP clientIP = Some a -> IngestTLSFindings clientIP sni ja3 findings now s = Some (events, s') ->
     handleKineticDecisions ttl order (map response_view events) k = Some (tt, k)).
Proof.
  intros Hq. split; intros; apply passive_no_response; [by eapply ingest_passive|by eapply tls_passive].
Qed.
End Pipeline.
