(* ===== verification/EngineWindows.v ===== *)
(** * The operator windows count exactly what was ingested

    The engine keeps the traffic of the last minute in sixty slots and that of
    the last day in 1441. A slot is reused when another epoch begins. The
    windows below are compared with the list of all samples the engine ever
    recorded. *)

From Stdlib Require Import ZArith Lia Ascii String.
From stdpp Require Import base gmap strings list sorting.
From S2P Require Import Prelude.
From S2P Require Import GoLib.
From S2P Require Import Strconv.
From S2P Require Import Text.
From S2P Require Import World.
From S2P Require Import Storage.
From S2P Require Import Exec.
From S2P Require Import NetIP.
From S2P Require Import NetIPFacts.
From S2P Require Import Policy.
From S2P Require Import Evidence.
From S2P Require Import State.
From S2P Require Import Snapshot.
From S2P Require Import Release.
From S2P Require Import RateLimit.
From S2P Require Import L7Engine.
From S2P Require Import ThreatIndex.
From S2P Require Import KineticEngine.
From S2P Require Import KineticLive.
From S2P Require Import EngineStrikes.

(** What one packet adds. *)
Record sample := mkSample { sm_sec : Z; sm_hits : Z; sm_attempts : Z; sm_syns : Z; sm_acks : Z }.

(** The sum of [val] over the samples that [keep] selects. *)
Definition total (val : sample -> Z) (keep : sample -> bool) (l : list sample) : Z :=
  fold_right (fun x acc => (if keep x then val x else 0) + acc) 0 l.
Lemma sum_app val keep l1 l2 : total val keep (l1 ++ l2) = total val keep l1 + total val keep l2.
Proof. induction l1 as [|x l IH]; cbn; [done|]. unfold total in *. rewrite IH. lia. Qed.
Lemma total_ext val keep keep' l : (forall x, x ∈ l -> keep x = keep' x) -> total val keep l = total val keep' l.
Proof.
  induction l as [|x l IH]; intros H; cbn; [done|]. rewrite (H x) by set_solver. f_equal. apply IH. set_solver.
Qed.
Lemma total_split val k k1 k2 l : (forall x, x ∈ l -> k x = k1 x || k2 x /\ k1 x && k2 x = false) -> total val k l = total val k1 l + total val k2 l.
Proof.
  induction l as [|x l IH]; intros H; cbn; [done|]. unfold total in IH. rewrite IH by set_solver. destruct (H x) as [-> Hd]; [set_solver|].
  destruct (k1 x), (k2 x); cbn in *; try done; lia.
Qed.
Lemma total_none val keep l : (forall x, x ∈ l -> keep x = false) -> total val keep l = 0.
Proof. induction l as [|x l IH]; intros H; cbn; [done|]. rewrite (H x) by set_solver. apply IH. set_solver. Qed.

(** No sample is [n] epochs or more behind one that came before it. *)
Definition timely (n : Z) (ep : sample -> Z) (l : list sample) : Prop :=
  forall i j x y, (i < j)%nat -> l !! i = Some x -> l !! j = Some y -> ep x - n < ep y.
Lemma timely_snoc n ep l x : timely n ep (l ++ [x]) -> timely n ep l /\ forall y, y ∈ l -> ep y - n < ep x.
Proof.
  intros H. split.
  - intros i j y z Hij Hy Hz. apply (H i j y z Hij); by apply lookup_app_l_Some.
  - intros y (i & Hi)%list_elem_of_lookup. apply (H i (length l) y x); [by eapply lookup_lt_Some|by apply lookup_app_l_Some|].
    by apply list_lookup_middle.
Qed.

(** ** One ring *)

Section Ring.
Context (N : Z) (HN : 0 < N) (ep : sample -> Z).
Definition ring_all (l : list sample) (ring : list KineticTrafficBucket) : list KineticTrafficBucket :=
  fold_left (fun r x => ring_add add_u64 (ep x) (sm_hits x) (sm_attempts x) (sm_syns x) (sm_acks x) r) l ring.

(** One of the four counters. *)
Context (get : KineticTrafficBucket -> Z) (val : sample -> Z).
Context (Hget : forall x s, get (slot_add add_u64 (ep x) (sm_hits x) (sm_attempts x) (sm_syns x) (sm_acks x) s) =
  add_u64 (if tb_Epoch s =? ep x then get s else 0) (val x)).
Context (Hempty : get empty_slot = 0).

Definition in_class (i : nat) (x : sample) : bool := ep x mod N =? Z.of_nat i.
(** A slot holds the newest epoch of its class, counted up exactly. *)
Record slot_ok (l : list sample) (i : nat) (s : KineticTrafficBucket) : Prop := {
  sl_newest : forall x, x ∈ l -> in_class i x = true -> ep x <= tb_Epoch s;
  sl_from : tb_Epoch s = 0 \/ exists x, x ∈ l /\ in_class i x = true /\ ep x = tb_Epoch s;
  sl_count : get s = u64 (total val (fun x => in_class i x && (ep x =? tb_Epoch s)) l);
}.
Definition ring_ok (l : list sample) (ring : list KineticTrafficBucket) : Prop :=
  Z.of_nat (length ring) = N /\ forall i s, ring !! i = Some s -> slot_ok l i s.

Lemma ring_index x : 0 <= ep x -> positiveRingIndex (ep x) N = ep x mod N.
Proof.
  intros Hx. unfold positiveRingIndex. rewrite (proj2 (Z.leb_gt N 0)) by lia. rewrite Z.rem_mod_nonneg by lia.
  pose proof (Z.mod_pos_bound (ep x) N HN). by rewrite (proj2 (Z.ltb_ge _ _)) by lia.
Qed.
Lemma slot_other l i s x : in_class i x = false -> slot_ok l i s -> slot_ok (l ++ [x]) i s.
Proof.
  intros Hc [H1 H2 H3]. split.
  - intros y [Hy|Hy%list_elem_of_singleton]%elem_of_app Hi; [by apply H1|subst; congruence].
  - destruct H2 as [|(y & Hy & ?)]; [by left|right]. exists y. split; [set_solver|done].
  - rewrite H3, sum_app. cbn. by rewrite Hc, Z.add_0_r.
Qed.
Lemma u64_add_l x y : u64 (u64 x + y) = u64 (x + y).
Proof. unfold u64. apply Z.add_mod_idemp_l. done. Qed.
Lemma slot_same l i s x : (forall y, y ∈ l -> ep y - N < ep x) -> 0 <= ep x -> 0 <= val x -> in_class i x = true -> slot_ok l i s ->
  slot_ok (l ++ [x]) i (slot_add add_u64 (ep x) (sm_hits x) (sm_attempts x) (sm_syns x) (sm_acks x) s).
Proof.
  intros Hlate Hx Hval Hc [H1 H2 H3]. set (s' := slot_add _ _ _ _ _ _ s). assert (tb_Epoch s' = ep x) as He by done.
  assert (tb_Epoch s <= ep x) as Hle.
  { destruct H2 as [->|(y & Hy & Hcy & Hey)]; [done|]. specialize (Hlate y Hy). unfold in_class in *.
    apply Z.eqb_eq in Hc, Hcy. rewrite <-Hcy in Hc. rewrite <-Hey. destruct (Z.le_gt_cases (ep y) (ep x)) as [|Hgt]; [done|exfalso].
    assert ((ep y - ep x) mod N = 0) as Hm by (rewrite Zminus_mod, Hc, Z.sub_diag; apply Zmod_0_l).
    rewrite Z.mod_small in Hm; lia. }
  split; rewrite ?He.
  - intros y [Hy|Hy%list_elem_of_singleton]%elem_of_app Hi; [|by subst]. specialize (H1 y Hy Hi). lia.
  - right. exists x. split; [set_solver|done].
  - subst s'. rewrite Hget, sum_app. cbn. rewrite Hc, Z.eqb_refl. cbn [andb]. unfold add_u64. rewrite Z.max_l by done.
    destruct (tb_Epoch s =? ep x) eqn:E.
    + apply Z.eqb_eq in E. rewrite H3, E, u64_add_l. f_equal. lia.
    + rewrite (total_none val _ l); [f_equal; lia|]. intros y Hy. apply Z.eqb_neq in E.
      destruct (in_class i y) eqn:Hi; [|done]. specialize (H1 y Hy Hi). cbn. apply Z.eqb_neq. lia.
Qed.
Lemma ring_step l ring x : timely N ep (l ++ [x]) -> 0 <= ep x -> 0 <= val x -> ring_ok l ring ->
  ring_ok (l ++ [x]) (ring_add add_u64 (ep x) (sm_hits x) (sm_attempts x) (sm_syns x) (sm_acks x) ring).
Proof.
  intros [_ Hlate]%timely_snoc Hx Hval [HL Hs]. unfold ring_add. split; [by rewrite length_alter|]. rewrite HL, ring_index by done.
  intros i s Hi. destruct (decide (Z.to_nat (ep x mod N) = i)) as [<-|Hne].
  - rewrite list_lookup_alter_eq in Hi. destruct (ring !! _) as [s0|] eqn:E; [|done]. injection Hi as <-.
    apply slot_same; [done..| |by apply Hs]. unfold in_class. pose proof (Z.mod_pos_bound (ep x) N HN). apply Z.eqb_eq. lia.
  - rewrite list_lookup_alter_ne in Hi by done. apply slot_other; [|by apply Hs]. unfold in_class. apply Z.eqb_neq.
    pose proof (Z.mod_pos_bound (ep x) N HN). lia.
Qed.
Lemma ring_run l : timely N ep l -> Forall (fun x => 0 <= ep x /\ 0 <= val x) l ->
  ring_ok l (ring_all l (replicate (Z.to_nat N) empty_slot)).
Proof.
  induction l as [|x l IH] using rev_ind; intros Ht HF.
  - split; [cbn; rewrite length_replicate; lia|]. intros i s [-> _]%lookup_replicate_1. split; [by intros ? ?%elem_of_nil|by left|done].
  - apply Forall_app in HF as [HF [[Hx Hv] _]%Forall_cons]. unfold ring_all. rewrite fold_left_app. cbn [fold_left].
    apply ring_step; [done..|]. apply IH; [|done]. by apply timely_snoc in Ht as [? _].
Qed.

(** ** Reading a ring *)

Context (Hsum : forall t s, get (mkTraffic 0 (u64 (tb_Hits t + tb_Hits s)) (u64 (tb_Attempts t + tb_Attempts s)) (u64 (tb_SYNs t + tb_SYNs s))
  (u64 (tb_ACKs t + tb_ACKs s))) = u64 (get t + get s)).
Context (chosen : Z -> bool).
Definition picked (ring : list KineticTrafficBucket) : Z :=
  fold_right (fun s acc => (if chosen (tb_Epoch s) then get s else 0) + acc) 0 ring.

Lemma u64_idem x : u64 (u64 x) = u64 x.
Proof. unfold u64. by apply Zmod_mod. Qed.
Lemma slot_sum_picked ring : get (slot_sum u64 (fun s => chosen (tb_Epoch s)) ring) = u64 (picked ring).
Proof.
  unfold slot_sum. assert (forall t, get t = u64 (get t) -> get (fold_left (fun total s => if chosen (tb_Epoch s)
    then mkTraffic 0 (u64 (tb_Hits total + tb_Hits s)) (u64 (tb_Attempts total + tb_Attempts s)) (u64 (tb_SYNs total + tb_SYNs s))
           (u64 (tb_ACKs total + tb_ACKs s))
    else total) ring t) = u64 (get t + picked ring)) as H.
  { induction ring as [|s ring IH]; intros t Ht; cbn [fold_left picked fold_right]; [by rewrite Z.add_0_r|].
    destruct (chosen (tb_Epoch s)); [|by rewrite IH, Z.add_0_l].
    rewrite IH, Hsum by (by rewrite Hsum, u64_idem). rewrite u64_add_l. f_equal. unfold picked. lia. }
  rewrite H; rewrite Hempty; done.
Qed.

(** No sample is [N] or more newer than a chosen one. *)
Definition recent (l : list sample) : Prop := forall x y, x ∈ l -> y ∈ l -> chosen (ep x) = true -> ep y < ep x + N.
Lemma slot_picked l i s : recent l -> Forall (fun x => 0 <= ep x) l -> slot_ok l i s ->
  u64 (if chosen (tb_Epoch s) then get s else 0) = u64 (total val (fun x => in_class i x && chosen (ep x)) l).
Proof.
  intros Hr Hpos [H1 H2 H3]. rewrite Forall_forall in Hpos.
  assert (forall x, x ∈ l -> in_class i x = true -> chosen (ep x) = true -> ep x = tb_Epoch s) as Heq.
  { intros x Hx Hc Hch. specialize (H1 x Hx Hc). specialize (Hpos x Hx). destruct H2 as [H0|(y & Hy & Hcy & Hey)]; [lia|].
    specialize (Hr x y Hx Hy Hch). unfold in_class in *. apply Z.eqb_eq in Hc, Hcy. rewrite <-Hey in *.
    assert ((ep y - ep x) mod N = 0) as Hm by (rewrite Zminus_mod, Hc, Hcy, Z.sub_diag; apply Zmod_0_l).
    rewrite Z.mod_small in Hm; lia. }
  destruct (chosen (tb_Epoch s)) eqn:E.
  - rewrite H3, u64_idem. f_equal. apply total_ext. intros x Hx. destruct (in_class i x) eqn:Hc; [|done]. cbn [andb].
    destruct (chosen (ep x)) eqn:Hch; [by rewrite (Heq x Hx Hc Hch), Z.eqb_refl|]. apply Z.eqb_neq. intros Hee. by rewrite Hee, E in Hch.
  - rewrite (total_none val); [done|]. intros x Hx. destruct (in_class i x) eqn:Hc; [|done]. cbn [andb].
    destruct (chosen (ep x)) eqn:Hch; [|done]. by rewrite (Heq x Hx Hc Hch), E in Hch.
Qed.
Lemma u64_add_cong x y x' y' : u64 x = u64 x' -> u64 y = u64 y' -> u64 (x + y) = u64 (x' + y').
Proof. unfold u64, wrap. intros H1 H2. rewrite Zplus_mod, H1, H2. symmetry. apply Zplus_mod. Qed.
Lemma ring_picked l k ring : recent l -> Forall (fun x => 0 <= ep x) l -> (forall i s, ring !! i = Some s -> slot_ok l (k + i) s) ->
  u64 (picked ring) = u64 (total val (fun x => (Z.of_nat k <=? ep x mod N) && (ep x mod N <? Z.of_nat (k + length ring)) && chosen (ep x)) l).
Proof.
  intros Hr Hpos. revert k. induction ring as [|s ring IH]; intros k Hs.
  - cbn [picked fold_right length]. rewrite (total_none val); [done|]. intros x _. rewrite Nat.add_0_r.
    destruct (Z.of_nat k <=? _) eqn:E; [|done]. by rewrite (proj2 (Z.ltb_ge _ _)) by lia.
  - rewrite (total_split val _ (fun x => in_class k x && chosen (ep x))
      (fun x => (Z.of_nat (S k) <=? ep x mod N) && (ep x mod N <? Z.of_nat (S k + length ring)) && chosen (ep x))).
    + cbn [picked fold_right]. apply u64_add_cong.
      * apply slot_picked; [done..|]. replace k with (k + 0)%nat at 1 by lia. by apply Hs.
      * apply IH. intros i s' Hi. replace (S k + i)%nat with (k + S i)%nat by lia. by apply Hs.
    + intros x _. unfold in_class. destruct (chosen (ep x)); rewrite ?andb_true_r, ?andb_false_r; [|done].
      cbn [length]. split.
      * apply eq_true_iff_eq. rewrite orb_true_iff, !andb_true_iff, Z.eqb_eq, !Z.leb_le, !Z.ltb_lt. lia.
      * destruct (_ =? _) eqn:E; [|done]. by rewrite (proj2 (Z.leb_gt _ _)) by lia.
Qed.

Lemma ring_exact l : timely N ep l -> Forall (fun x => 0 <= ep x /\ 0 <= val x) l -> recent l ->
  get (slot_sum u64 (fun s => chosen (tb_Epoch s)) (ring_all l (replicate (Z.to_nat N) empty_slot))) = u64 (total val (fun x => chosen (ep x)) l).
Proof.
  intros Ht HF Hr. destruct (ring_run l Ht HF) as [HL Hs]. rewrite slot_sum_picked.
  rewrite (ring_picked l 0 _ Hr); [|eapply Forall_impl; [exact HF|]; cbn; tauto|done].
  f_equal. apply total_ext. intros x _. pose proof (Z.mod_pos_bound (ep x) N HN). rewrite Nat.add_0_l, HL.
  rewrite (proj2 (Z.leb_le _ _)), (proj2 (Z.ltb_lt _ _)) by lia. done.
Qed.
End Ring.

(** ** The history of the engine *)

Definition histories (e : KineticEngine) : list KineticTrafficBucket * list KineticTrafficBucket := (en_secondHistory e, en_minuteHistory e).
Definition record (x : sample) (h : list KineticTrafficBucket * list KineticTrafficBucket) :=
  (ring_add add_u64 (sm_sec x) (sm_hits x) (sm_attempts x) (sm_syns x) (sm_acks x) h.1,
   ring_add add_u64 (Z.quot (sm_sec x) 60) (sm_hits x) (sm_attempts x) (sm_syns x) (sm_acks x) h.2).
Definition sample_of (pkt : IngressPacket) (now : time) : sample :=
  mkSample (second_of pkt now) (sampleCount pkt) (activityCount pkt) (synDelta pkt) (ackDelta pkt).
(** The counters of a packet are unsigned. *)
Definition counters_wf (pkt : IngressPacket) : Prop := 0 <= pk_SYNCount pkt /\ 0 <= pk_ACKCount pkt.

Lemma sample_wf pkt now : counters_wf pkt ->
  let x := sample_of pkt now in 0 < sm_hits x /\ 0 <= sm_attempts x /\ 0 <= sm_syns x /\ 0 <= sm_acks x.
Proof.
  intros [H1 H2]. cbn. unfold synDelta, ackDelta, activityCount, sampleCount. repeat split; repeat case_match; lia.
Qed.

Definition record_packet (pkt : IngressPacket) (now : time) : KineticEngine -> KineticEngine :=
  recordTrafficHistoryLocked (second_of pkt now) (sampleCount pkt) (activityCount pkt) (synDelta pkt) (ackDelta pkt).
Lemma packet_recorded pkt now e : counters_wf pkt -> 0 < second_of pkt now ->
  histories (record_packet pkt now e) = record (sample_of pkt now) (histories e).
Proof.
  intros Hw Hsec. destruct (sample_wf pkt now Hw) as [Hh _]. cbn in Hh. unfold record_packet, recordTrafficHistoryLocked.
  by rewrite (proj2 (Z.leb_gt _ _) Hsec), (proj2 (Z.leb_gt _ _) Hh).
Qed.
Lemma account_history visit pkt a now e : let r := account visit pkt a now e in
  histories r.2 = if r.1 then histories (record_packet pkt now e) else histories e.
Proof.
  cbv zeta.
  assert (forall e, histories (aggregate_subnets visit pkt a now e) = histories e) as Hs.
  { intros e0. unfold aggregate_subnets, aggregate_v4, aggregate_v6, aggregate_wide, evictOldestSubnetV4Locked, evictOldestSubnetV6Locked,
      evictOldestWideV4Locked, note_aggregate. destruct (SubnetKeys (Some a)) as [[isV6 subKey] wideKey]. by repeat (case_match; simplify_eq/=). }
  assert (forall e, histories (admit_source visit a now (second_of pkt now) e).2 = histories e) as Ha.
  { intros e0. unfold admit_source. destruct (en_ipBuckets e0 !! IP_String a); [done|]. cbv zeta.
    set (e1 := if kc_MaxTrackingIPs (en_cfg e0) <=? _ then _ else e0).
    assert (histories e1 = histories e0) as Hc.
    { subst e1. destruct (_ <=? _); [|done]. unfold evictStaleIPBucketLocked. by destruct (evict_stale _ _ _ _) as [[] m]. }
    clearbody e1. destruct (_ <=? _); exact Hc. }
  specialize (Ha (count (fun t => set_hits (u64 (ta_hits t + sampleCount pkt)) t) e)). unfold account.
  destruct (admit_source _ _ _ _ _) as [[b|] e1]; cbn [fst snd] in *; [|done]. rewrite Hs.
  unfold record_packet, recordTrafficHistoryLocked. destruct (_ || _); [done|]. unfold histories in *. cbn. by injection Ha as -> ->.
Qed.

Section Trace.
Context {L K X : Type} `{SK : !Sinks L K X} `{C : Crypto} `{U : Unicode}.
Abbreviation esys := (KineticEngine * (State L K * world X))%type.
Definition same_history (s s' : esys) : Prop := histories s'.1 = histories s.1.
#[local] Instance same_history_preorder : PreOrder same_history.
Proof. split; [done|]. intros s1 s2 s3 H1 H2. unfold same_history in *. congruence. Qed.
Lemma same_shared {A} (m : M (State L K * world X) A) : moves same_history (in_shared m).
Proof. apply (moves_zoom _ (fun _ _ => True)); [by intros ???|]. by intros s t _. Qed.
Lemma same_with f : (forall e, histories (f e) = histories e) -> moves same_history (with_engine f).
Proof. intros Hf. apply moves_modify. intros s. apply Hf. Qed.
Lemma same_tally f : moves same_history (tally f).
Proof. by apply same_with. Qed.
Lemma same_push evt : moves same_history (with_engine (push_event evt)).
Proof. by apply same_with. Qed.
Lemma same_update key f : moves same_history (with_engine (update_bucket key f)).
Proof. by apply same_with. Qed.
Lemma same_v4 m : moves same_history (with_engine (set_subnetV4 m)).
Proof. by apply same_with. Qed.
Lemma same_v6 m : moves same_history (with_engine (set_subnetV6 m)).
Proof. by apply same_with. Qed.
Lemma same_wide m : moves same_history (with_engine (set_wideV4 m)).
Proof. by apply same_with. Qed.
Lemma same_engine : moves same_history engine.
Proof. apply moves_gets, _. Qed.
Lemma same_id : moves same_history generateEventID.
Proof. apply same_shared. Qed.
Lemma same_stamp t : moves same_history (stamp t).
Proof. unfold stamp. destruct (Time.IsZero t); [apply same_shared|apply moves_ret, _]. Qed.
Hint Resolve same_shared same_tally same_push same_update same_v4 same_v6 same_wide same_engine same_id same_stamp : moves.
Lemma same_rules pkt a now : moves same_history (rules pkt a now).
Proof.
  unfold rules. destruct (SubnetKeys (Some a)) as [[isV6 subKey] wideKey].
  unfold rule_threat_intel, rule_malformed, rule_velocity, rule_syn_flood, rule_ip_rate, rule_port_scan, rule_subnet_v4, rule_subnet_v6,
    rule_wide_v4, when_ready, one, scan_tally, strike_tally, emit, createEventLocked. moves_solve.
Qed.
Lemma same_sync : moves same_history syncTelemetryStateLocked.
Proof. unfold syncTelemetryStateLocked. moves_solve. Qed.
Hint Resolve same_sync : moves.
Lemma same_tls clientIP sni ja3 findings now : moves same_history (IngestTLSFindings clientIP sni ja3 findings now).
Proof.
  assert (forall now sni ja3 c l, moves same_history (tls_findings now sni ja3 c l)) as Hf.
  { intros n1 n2 n3 c l. induction l as [|fi l IH]; cbn [tls_findings]; [|unfold tls_finding]; moves_solve. }
  unfold IngestTLSFindings. moves_solve.
Qed.
Lemma same_sweep now : moves same_history (Sweep now).
Proof.
  unfold Sweep. apply moves_bind; [apply _| |intros; apply same_sync]. apply same_with. intros e. cbv zeta.
  by destruct (_ =? en_tokenBucketLastSec _).
Qed.
Lemma shrink_keeps {A} (P : A -> Prop) len evict max fuel x x' :
  (forall x, P x -> P (evict x)) -> P x -> shrink len evict max fuel x = Some x' -> P x'.
Proof.
  intros He. revert x. induction fuel as [|fuel IH]; intros x Hx; cbn [shrink]; destruct (len x <=? max); try (by intros [= <-]).
  apply IH. auto.
Qed.
Lemma same_config visit clock runtime e e' : UpdateConfig visit clock runtime e = Some e' -> histories e' = histories e.
Proof.
  unfold UpdateConfig. cbv zeta. set (e1 := if _ <? en_tokenBucketAvailable _ then _ else _).
  assert (histories e1 = histories e) as H1 by (subst e1; by destruct (_ <? _)). clearbody e1.
  intros (e2 & H2 & (e3 & H3 & (e4 & H4 & H5)%bind_Some)%bind_Some)%bind_Some.
  assert (forall e, histories (evictOldestSubnetV4Locked visit e) = histories e) as Hv4
    by (intros x; unfold evictOldestSubnetV4Locked; by destruct (evict_oldest _ _ _) as [[] m]).
  assert (forall e, histories (evictOldestSubnetV6Locked visit e) = histories e) as Hv6
    by (intros x; unfold evictOldestSubnetV6Locked; by destruct (evict_oldest _ _ _) as [[] m]).
  assert (forall e, histories (evictOldestWideV4Locked visit e) = histories e) as Hw
    by (intros x; unfold evictOldestWideV4Locked; by destruct (evict_oldest _ _ _) as [[] m]).
  apply (shrink_keeps (fun x => histories x = histories e)) in H2;
    [|by intros x; unfold evictStaleIPBucketLocked; destruct (evict_stale _ _ _ _) as [[] m]|done].
  apply (shrink_keeps (fun x => histories x = histories e)) in H3; [|intros x; by rewrite Hv4|done].
  apply (shrink_keeps (fun x => histories x = histories e)) in H4; [|intros x; by rewrite Hv6|done].
  by apply (shrink_keeps (fun x => histories x = histories e)) in H5; [|intros x; by rewrite Hw|].
Qed.
Lemma same_allow allowlist e : histories (UpdateAllowlist allowlist e) = histories e.
Proof.
  unfold UpdateAllowlist. cbv zeta. set (e1 := match ParseCIDR "fe80::/10" with Some n => _ | None => _ end).
  assert (histories e1 = histories e) as <- by (subst e1; by destruct (ParseCIDR _)). clearbody e1. revert e1.
  induction allowlist as [|item l IH]; intros e1; [done|]. cbn [fold_left]. rewrite IH. unfold allow_entry. by repeat case_match.
Qed.

(** The engine from [s0] on, with the samples it recorded. *)
Inductive trace (s0 : esys) : list sample -> esys -> Prop :=
  | t_start : trace s0 [] s0
  | t_ingest l s visit pkt a events s' : trace s0 l s -> pk_SrcIP pkt = Some a -> Time.IsZero (pk_Timestamp pkt) = false -> counters_wf pkt ->
      IngestPacket visit pkt s = Some (events, s') ->
      trace s0 (l ++ if watched a s.1 && (account visit pkt a (pk_Timestamp pkt) s.1).1 then [sample_of pkt (pk_Timestamp pkt)] else []) s'
  | t_tls l s clientIP sni ja3 findings now events s' : trace s0 l s -> IngestTLSFindings clientIP sni ja3 findings now s = Some (events, s') -> trace s0 l s'
  | t_sweep l s now s' : trace s0 l s -> Sweep now s = Some (tt, s') -> trace s0 l s'
  | t_config l e sw visit clock runtime e' : trace s0 l (e, sw) -> UpdateConfig visit clock runtime e = Some e' -> trace s0 l (e', sw)
  | t_allow l e sw allowlist : trace s0 l (e, sw) -> trace s0 l (UpdateAllowlist allowlist e, sw)
  | t_intel l e sw block correlate annotate : trace s0 l (e, sw) -> trace s0 l (SetThreatIntel block correlate annotate e, sw).

Definition sample_ok (x : sample) : Prop := 0 < sm_hits x /\ 0 <= sm_attempts x /\ 0 <= sm_syns x /\ 0 <= sm_acks x.
Lemma ingest_history visit pkt a s events s' : pk_SrcIP pkt = Some a -> Time.IsZero (pk_Timestamp pkt) = false ->
  IngestPacket visit pkt s = Some (events, s') ->
  histories s'.1 = if watched a s.1 && (account visit pkt a (pk_Timestamp pkt) s.1).1 then histories (record_packet pkt (pk_Timestamp pkt) s.1)
                   else histories s.1.
Proof.
  intros Ha Hz Hrun. apply (ingest_inv visit pkt a) in Hrun; [|done..]. cbv zeta in Hrun.
  pose proof (account_history visit pkt a (pk_Timestamp pkt) s.1) as Hacc. cbv zeta in Hacc.
  destruct (watched a s.1); cbn [andb]; [|by destruct Hrun as [_ ->]].
  destruct Hrun as [(-> & _ & Hk)|(Hk & b & s2 & s3 & _ & Hs2 & Hr%same_rules & ->)]; rewrite Hk in *; [done|].
  unfold same_history in Hr. by rewrite Hr, Hs2.
Qed.
Lemma trace_history s0 l s : trace s0 l s -> Forall (fun x => 0 < sm_sec x) l ->
  histories s.1 = fold_left (fun h x => record x h) l (histories s0.1) /\ Forall sample_ok l.
Proof.
  induction 1 as [|l s visit pkt a events s' Ht IH Ha Hz Hw Hrun|l s c sni ja3 fs now evs s' Ht IH Hrun%same_tls|l s now s' Ht IH Hrun%same_sweep
    |l e sw visit clock runtime e' Ht IH Hrun%same_config|l e sw al Ht IH|l e sw b1 b2 b3 Ht IH]; intros HF.
  - done.
  - apply Forall_app in HF as [HF Hx]. destruct (IH HF) as [IHh IHs]. rewrite fold_left_app, <-IHh, (ingest_history visit pkt a s events s') by done.
    destruct (_ && _); [|by rewrite app_nil_r]. rewrite Forall_singleton in Hx. cbn [fold_left].
    split; [apply packet_recorded; [done|exact Hx]|]. apply Forall_app. split; [done|]. apply Forall_singleton. by apply sample_wf.
  - unfold same_history in Hrun. rewrite Hrun. auto.
  - unfold same_history in Hrun. rewrite Hrun. auto.
  - cbn [fst]. rewrite Hrun. auto.
  - cbn [fst]. rewrite same_allow. auto.
  - auto.
Qed.
Lemma record_all l h : fold_left (fun h x => record x h) l h = (ring_all sm_sec l h.1, ring_all (fun x => Z.quot (sm_sec x) 60) l h.2).
Proof. revert h. induction l as [|x l IH]; intros [h1 h2]; cbn [fold_left]; [done|]. by rewrite IH. Qed.
Lemma new_history cfg rules allowlist now : histories (NewKineticEngine cfg rules allowlist now) =
  (replicate (Z.to_nat 60) empty_slot, replicate (Z.to_nat 1441) empty_slot).
Proof. unfold NewKineticEngine. by rewrite same_allow. Qed.
End Trace.

(** ** The windows *)

(** A window in whole seconds, a day at most, and a sample within it: to the
    second up to a minute, to the minute beyond. *)
Definition spec_ok (spec : KineticWindowSpec) : Prop := exists n, 1 <= n <= 86400 /\ ws_Duration spec = n * Time.Second.
Definition in_window (spec : KineticWindowSpec) (now : time) (x : sample) : bool :=
  let cutoff := Time.Unix now - Z.quot (ws_Duration spec) Time.Second in
  if ws_Duration spec <=? Time.Minute then cutoff <? sm_sec x else cutoff / 60 <=? sm_sec x / 60.

Ltac divs := Z.div_mod_to_equations; lia.

Section Counter.
Context (get : KineticTrafficBucket -> Z) (val : sample -> Z).
Context (Hget : forall ep x s, get (slot_add add_u64 ep (sm_hits x) (sm_attempts x) (sm_syns x) (sm_acks x) s) =
  add_u64 (if tb_Epoch s =? ep then get s else 0) (val x)).
Context (Hempty : get empty_slot = 0).
Context (Hsum : forall t s, get (mkTraffic 0 (u64 (tb_Hits t + tb_Hits s)) (u64 (tb_Attempts t + tb_Attempts s)) (u64 (tb_SYNs t + tb_SYNs s))
  (u64 (tb_ACKs t + tb_ACKs s))) = u64 (get t + get s)).
Context (l : list sample) (spec : KineticWindowSpec) (now : time).
Context (Hspec : spec_ok spec) (Hnow : 86460 <= Time.Unix now <= MaxInt64 - 60) (Ht : timely 60 sm_sec l).
Context (Hl : Forall (fun x => 0 < sm_sec x <= Time.Unix now /\ 0 <= val x) l).
Abbreviation nowUnix := (Time.Unix now).
Abbreviation secs := (Z.quot (ws_Duration spec) Time.Second).

Lemma seconds_window : ws_Duration spec <= Time.Minute ->
  get (slot_sum u64 (fun s => (i64 (nowUnix - secs + 1) <=? tb_Epoch s) && (tb_Epoch s <=? nowUnix)) (ring_all sm_sec l (replicate (Z.to_nat 60) empty_slot)))
  = u64 (total val (in_window spec now) l).
Proof.
  destruct Hspec as (n & Hn & Hd). intros Hmin. rewrite Hd, Z.quot_mul by done. rewrite Hd in Hmin.
  assert (n <= 60) as Hn60 by (unfold Time.Minute in Hmin; change Time.Second with 1000000000 in Hmin; lia).
  rewrite i64_small by (unfold MinInt64, MaxInt64 in *; lia). rewrite Forall_forall in Hl.
  rewrite (ring_exact 60 ltac:(done) sm_sec get val (fun x s => Hget (sm_sec x) x s) Hempty Hsum
    (fun ep => (nowUnix - n + 1 <=? ep) && (ep <=? nowUnix)) l Ht).
  - f_equal. apply total_ext. intros x Hx. specialize (Hl x Hx). unfold in_window. rewrite Hd, Z.quot_mul by done.
    rewrite (proj2 (Z.leb_le (n * Time.Second) Time.Minute)) by done. apply eq_true_iff_eq. rewrite andb_true_iff, !Z.leb_le, Z.ltb_lt. lia.
  - apply Forall_forall. intros x Hx. specialize (Hl x Hx). lia.
  - intros x y Hx Hy Hc. apply andb_true_iff in Hc as [Hc1%Z.leb_le Hc2%Z.leb_le]. pose proof (Hl y Hy). lia.
Qed.
Lemma unix_before n : Time.Unix (Time.Add now (- (n * Time.Second))) = nowUnix - n.
Proof.
  unfold Time.Unix, Time.Add. replace (now + - (n * Time.Second)) with (now + (- n) * Time.Second) by lia. rewrite Z.div_add by done. lia.
Qed.
Lemma minutes_window : Time.Minute < ws_Duration spec ->
  get (slot_sum u64 (meets 60 (Time.Unix (Time.Add now (- ws_Duration spec))) nowUnix)
         (ring_all (fun x => Z.quot (sm_sec x) 60) l (replicate (Z.to_nat 1441) empty_slot)))
  = u64 (total val (in_window spec now) l).
Proof.
  destruct Hspec as (n & Hn & Hd). intros Hmin. rewrite Hd, unix_before. rewrite Forall_forall in Hl.
  assert (forall x, x ∈ l -> Z.quot (sm_sec x) 60 = sm_sec x / 60) as Hq by (intros x Hx; specialize (Hl x Hx); apply Z.quot_div_nonneg; lia).
  refine (eq_trans (ring_exact 1441 ltac:(done) (fun x => Z.quot (sm_sec x) 60) get val (fun x s => Hget (Z.quot (sm_sec x) 60) x s) Hempty Hsum
    (fun ep => (0 <? ep) && (nowUnix - n <=? i64 (i64 (ep * 60) + (60 - 1))) && (i64 (ep * 60) <=? nowUnix)) l _ _ _) _).
  - intros i j x y Hij Hi Hj. specialize (Ht i j x y Hij Hi Hj).
    rewrite (Hq x), (Hq y) by (by eapply list_elem_of_lookup_2). divs.
  - apply Forall_forall. intros x Hx. rewrite (Hq x Hx). specialize (Hl x Hx). split; [divs|lia].
  - intros x y Hx Hy Hc. rewrite (Hq x Hx), (Hq y Hy) in *. pose proof (Hl x Hx). pose proof (Hl y Hy).
    rewrite !andb_true_iff, !Z.leb_le in Hc. destruct Hc as [[_ Hc] _].
    rewrite !i64_small in Hc by (unfold MinInt64, MaxInt64 in *; rewrite ?i64_small by (unfold MinInt64, MaxInt64 in *; divs); divs). divs.
  - f_equal. apply total_ext. intros x Hx. specialize (Hl x Hx). rewrite (Hq x Hx). unfold in_window. rewrite Hd, Z.quot_mul by done.
    rewrite (proj2 (Z.leb_gt (n * Time.Second) Time.Minute)) by (rewrite <-Hd; done).
    rewrite !i64_small by (unfold MinInt64, MaxInt64 in *; rewrite ?i64_small by (unfold MinInt64, MaxInt64 in *; divs); divs).
    apply eq_true_iff_eq. rewrite !andb_true_iff, !Z.leb_le, Z.ltb_lt. divs.
Qed.
End Counter.

Section Exact.
Context {L K X : Type} `{SK : !Sinks L K X} `{C : Crypto} `{U : Unicode}.
Lemma window_counts cfg rules allowlist t0 sw l (s : KineticEngine * (State L K * world X)) spec now :
  trace (NewKineticEngine cfg rules allowlist t0, sw) l s -> spec_ok spec -> 86460 <= Time.Unix now <= MaxInt64 - 60 -> timely 60 sm_sec l ->
  Forall (fun x => 0 < sm_sec x <= Time.Unix now) l ->
  let w := traffic_window spec now s.1 in let count f := u64 (total f (in_window spec now) l) in
  tw_Hits w = count sm_hits /\ tw_Attempts w = count sm_attempts /\ tw_SYNs w = count sm_syns /\ tw_ACKs w = count sm_acks.
Proof.
  intros Htr Hspec Hnow Ht HF. destruct (trace_history _ _ _ Htr) as [Hh Hok]; [eapply Forall_impl; [exact HF|]; cbn; tauto|].
  cbn [fst] in Hh. rewrite record_all, new_history in Hh. unfold histories in Hh. cbn [fst snd] in Hh. injection Hh as H1 H2.
  assert (forall f, (forall x, sample_ok x -> 0 <= f x) -> Forall (fun x => 0 < sm_sec x <= Time.Unix now /\ 0 <= f x) l) as Hf.
  { intros f Hpos. rewrite Forall_forall in *. intros x Hx. auto. }
  cbv zeta. unfold traffic_window. destruct (ws_Duration spec <=? Time.Minute) eqn:E; cbn [tw_Hits tw_Attempts tw_SYNs tw_ACKs].
  - apply Z.leb_le in E. rewrite H1. repeat split; apply seconds_window; try done; try (intros ep x s0; unfold slot_add; by destruct (_ =? _));
      apply Hf; unfold sample_ok; lia.
  - apply Z.leb_gt in E. rewrite H2. repeat split; apply minutes_window; try done; try (intros ep x s0; unfold slot_add; by destruct (_ =? _));
      apply Hf; unfold sample_ok; lia.
Qed.

(** A window the operator reads counts exactly the packets, attempts, SYNs
    and ACKs of the samples that fall into it, out of everything the engine ever
    recorded (at 64 bits): to the second for windows up to a minute, to the
    minute for windows up to a day. Samples may come out of order as long as
    none is a minute late; the sixty and 1441 slots are enough. The seconds of the
    samples are compared with the wall clock, as the code does; the next theorem
    says what that means for the seconds the kernel delivers. *)
Theorem window_exact cfg rules allowlist t0 sw l (s : KineticEngine * (State L K * world X)) spec now :
  trace (NewKineticEngine cfg rules allowlist t0, sw) l s -> spec_ok spec -> 86460 <= Time.Unix now <= MaxInt64 - 60 -> timely 60 sm_sec l ->
  Forall (fun x => 0 < sm_sec x <= Time.Unix now) l ->
  let w := traffic_window spec now s.1 in let count f := u64 (total f (in_window spec now) l) in
  tw_Hits w = count sm_hits /\ tw_Attempts w = count sm_attempts /\ tw_SYNs w = count sm_syns /\ tw_ACKs w = count sm_acks.
Proof. apply window_counts. Qed.

End Exact.
