(* ===== verification/EngineWitness.v ===== *)
(** * The kinetic engine on concrete traffic *)

From Stdlib Require Import ZArith Lia Ascii String.
From stdpp Require Import base gmap strings list.
From S2P Require Import Prelude.
From S2P Require Import GoLib.
From S2P Require Import Strconv.
From S2P Require Import Text.
From S2P Require Import World.
From S2P Require Import Storage.
From S2P Require Import Instances.
From S2P Require Import Exec.
From S2P Require Import NetIP.
From S2P Require Import NetIPFacts.
From S2P Require Import Policy.
From S2P Require Import PolicyWitness.
From S2P Require Import Evidence.
From S2P Require Import State.
From S2P Require Import Snapshot.
From S2P Require Import LimitsWitness.
From S2P Require Import Release.
From S2P Require Import ReleaseWitness.
From S2P Require Import RateLimit.
From S2P Require Import L7Engine.
From S2P Require Import ThreatIndex.
From S2P Require Import KineticResponse.
From S2P Require Import BlockWitness.
From S2P Require Import KineticEngine.
From S2P Require Import KineticLive.
From S2P Require Import EngineBounds.
From S2P Require Import EngineStrikes.
From S2P Require Import EngineResponse.
From S2P Require Import EngineWindows.

Definition engine_cfg (mode : string) : KineticConfig :=
  mkKConfig true mode 35 15 45 55 77 5 25 4 60 2 2 4 true true true 1000 86400 100 [80; 443] [25] [22; 3306; 8443] "" [].
Definition engine_start : time := base_time + 30 * Time.Second.
Definition new_engine (mode : string) : KineticEngine :=
  NewKineticEngine (engine_cfg mode) NewKineticRuleRegistry ["198.51.100.1"] engine_start.
Abbreviation esys := (KineticEngine * (State unit unit * world KernelX))%type.
Definition start (mode : string) : esys := (new_engine mode, (release_state, release_world true)).

Definition host (c : Z) : ip := [0; 0; 0; 0; 0; 65535; 51968; 28928 + c].
Example host_text : IP_String (host 7) = "203.0.113.7".
Proof. by vm_compute. Qed.
(** Twenty connection attempts in one second. *)
Definition burst (c epoch : Z) (at_ : time) : IngressPacket :=
  mkPacket 4 6 (Some (host c)) (Some (host 1)) 4000 443 2 20 20 20 0 1200 at_ epoch.
Definition now1 : time := engine_start + 60 * Time.Second.
Definition now2 : time := now1 + 5 * Time.Second.
Definition sec1 : Z := Time.Unix now1.

Definition any_order (d : gset string) : list string := elements d.
Lemma any_order_visits : visits any_order.
Proof. by intros d. Qed.

Abbreviation ingest pkt := (IngestPacket (L := unit) (K := unit) (X := KernelX) any_order pkt).
Definition estate {A} (m : M esys A) (s : esys) : esys := match m s with Some (_, s') => s' | None => s end.
Definition evalue {A} (d : A) (m : M esys A) (s : esys) : A := match m s with Some (a, _) => a | None => d end.
Lemma evalue_run {A} (d : A) m s : (if m s is Some _ then true else false) = true -> m s = Some (evalue d m s, estate m s).
Proof. unfold estate, evalue. by destruct (m s) as [[a s']|]. Qed.

Definition burst1 : IngressPacket := burst 7 sec1 now1.
Definition burst2 : IngressPacket := burst 7 (sec1 + 5) now2.
Definition after1 : esys := estate (ingest burst1) (start "block").
Definition after2 : esys := estate (ingest burst2) after1.
Lemma run1 : ingest burst1 (start "block") = Some (evalue [] (ingest burst1) (start "block"), after1).
Proof. unfold after1. apply (evalue_run [] (ingest burst1) (start "block")). by vm_compute. Qed.
Lemma run2 : ingest burst2 after1 = Some (evalue [] (ingest burst2) after1, after2).
Proof. unfold after2. apply (evalue_run [] (ingest burst2) after1). by vm_compute. Qed.
(** The first burst is too fast; the second one is too, but it is not reported
    again. It is one too many for the minute. *)
Example strikes1 : map (fun e => (ke_RuleID e, ke_Action e)) (evalue [] (ingest burst1) (start "block")) = [("NET.INGRESS.IP_VELOCITY", "block")].
Proof. by vm_compute. Qed.
Example strikes2 : map ke_RuleID (evalue [] (ingest burst2) after1) = ["NET.INGRESS.SYN_FLOOD"; "NET.INGRESS.IP_RATE"].
Proof. by vm_compute. Qed.

Lemma host_wf c : 0 <= c < 256 -> wf_ip (host c).
Proof. intros Hc. split; [done|]. unfold host. repeat apply Forall_cons_2; try apply Forall_nil_2; unfold group; lia. Qed.
Lemma burst_wf c epoch at_ : 0 <= c < 256 -> source_wf (burst c epoch at_).
Proof. intros Hc a [= <-]. by apply host_wf. Qed.
Lemma steps2 : rtc kstep (start "block") after2.
Proof.
  eapply rtc_l; [eapply (k_ingest any_order burst1); [apply any_order_visits|by apply burst_wf|apply run1]|].
  eapply rtc_l; [eapply (k_ingest any_order burst2); [apply any_order_visits|by apply burst_wf|apply run2]|]. reflexivity.
Qed.

Lemma engine_bounded_witness : sizeZ (en_ipBuckets after2.1) = 1 /\ bounded after2.1.
Proof.
  split; [by vm_compute|].
  apply (engine_bounded (engine_cfg "block") NewKineticRuleRegistry ["198.51.100.1"] engine_start (release_state, release_world true) after2).
  exact steps2.
Defined.

(** A capacity of zero empties the table. *)
Definition no_room : KineticRuntimeSettings :=
  mkKRuntime true "block" 35 15 45 55 77 5 25 4 60 2 2 4 true true true 0 86400 100 [80; 443] [25] [22; 3306; 8443].
Lemma reconfigure_ends_witness :
  exists e', UpdateConfig any_order (fun _ => now2) no_room after2.1 = Some e' /\ sizeZ (en_ipBuckets e') = 0.
Proof.
  destruct (reconfigure_ends (engine_cfg "block") NewKineticRuleRegistry ["198.51.100.1"] engine_start (release_state, release_world true) after2
    any_order (fun _ => now2) no_room steps2 any_order_visits) as (e' & H1 & _ & _ & _ & _ & _ & _ & H2); [done|].
  exists e'. split; [exact H1|]. rewrite H2. by vm_compute.
Defined.

Abbreviation events1 := (evalue [] (ingest burst1) (start "block")).
Abbreviation counted1 := (account any_order burst1 (host 7) (pk_Timestamp burst1) (start "block").1).
Lemma expected1 : (if watched (host 7) (start "block").1 && counted1.1 then expected burst1 (host 7) (pk_Timestamp burst1) counted1.2 else [])
  = ["NET.INGRESS.IP_VELOCITY"].
Proof. by vm_compute. Qed.
Lemma strikes_exact_witness : reported (host 7) (pk_Timestamp burst1) counted1.2 ["NET.INGRESS.IP_VELOCITY"] events1.
Proof.
  rewrite <-expected1.
  exact (proj1 (strikes_exact any_order burst1 (host 7) (start "block") events1 after1 eq_refl eq_refl run1)).
Defined.

Lemma strike_cooldown_witness : "NET.INGRESS.IP_VELOCITY" ∉ map ke_RuleID (evalue [] (ingest burst2) after1).
Proof.
  apply (strike_cooldown any_order burst1 (start "block") (evalue [] (ingest burst1) (start "block")) after1 any_order burst2 _ after2 (host 7)
    "NET.INGRESS.IP_VELOCITY" eq_refl eq_refl eq_refl eq_refl run1 run2).
  - set_solver.
  - rewrite list_elem_of_In. by vm_compute; left.
  - by vm_compute.
Defined.

(** The same burst while the engine observes. *)
Lemma quiet_never_acts_witness :
  handleKineticDecisions 3600 ["203.0.113.7"] (map response_view (evalue [] (ingest burst1) (start "observe"))) ksys_armed = Some (tt, ksys_armed).
Proof.
  assert (observing (start "observe").1) as Ho by (split; by vm_compute).
  apply (proj1 (quiet_never_acts (start "observe") (host 7) 3600 ["203.0.113.7"] ksys_armed (or_intror Ho)) any_order burst1 _
    (estate (ingest burst1) (start "observe")) eq_refl eq_refl).
  apply (evalue_run [] (ingest burst1) (start "observe")). by vm_compute.
Defined.

(** Two bursts within the minute. *)
Definition window_1m : KineticWindowSpec := mkSpec "1m" Time.Minute.
Definition two_samples : list sample := [sample_of burst1 now1; sample_of burst2 now2].
Lemma trace2 : trace (start "block") two_samples after2.
Proof.
  pose proof (t_ingest (start "block") [] (start "block") any_order burst1 (host 7) _ after1 (t_start _) eq_refl eq_refl ltac:(done) run1) as H1.
  pose proof (t_ingest (start "block") _ after1 any_order burst2 (host 7) _ after2 H1 eq_refl eq_refl ltac:(done) run2) as H2.
  assert (watched (host 7) (start "block").1 && (account any_order burst1 (host 7) (pk_Timestamp burst1) (start "block").1).1 = true) as E1 by by vm_compute.
  assert (watched (host 7) after1.1 && (account any_order burst2 (host 7) (pk_Timestamp burst2) after1.1).1 = true) as E2 by by vm_compute.
  rewrite E1, E2 in H2. exact H2.
Qed.
Lemma two_timely (x y : sample) : sm_sec x - 60 < sm_sec y -> timely 60 sm_sec [x; y].
Proof. intros H [|[|i]] [|[|j]] u v Hij Hu Hv; cbn in *; simplify_eq; try done; lia. Qed.
Lemma window_exact_witness : tw_Hits (traffic_window window_1m now2 after2.1) = 40.
Proof.
  destruct (window_exact (engine_cfg "block") NewKineticRuleRegistry ["198.51.100.1"] engine_start (release_state, release_world true) two_samples after2
    window_1m now2 trace2) as [H _].
  - by exists 60.
  - by vm_compute.
  - apply two_timely. by vm_compute.
  - repeat apply Forall_cons_2; try apply Forall_nil_2; by vm_compute.
  - rewrite H. by vm_compute.
Defined.

(** The kernel's second: an hour after boot. *)
Definition booted : IngressPacket := burst 7 3600 now1.
Definition after_boot : esys := estate (ingest booted) (start "block").
Lemma run_boot : ingest booted (start "block") = Some (evalue [] (ingest booted) (start "block"), after_boot).
Proof. unfold after_boot. apply (evalue_run [] (ingest booted) (start "block")). by vm_compute. Qed.
