(* ===== verification/FeedSettings.v ===== *)
(** * Threat-intelligence settings

    src/control/threat_intel_fabric.go: the administrable settings, their
    validation, the immutable snapshot one synchronisation reads, and the
    policy on one downloaded line; src/control/styx_egress.go and the URL
    check of src/control/feeds.go: which destinations a feed may name.
    [net/url] is reached through [URLParser]. Go's [int] is 64 bits wide; no
    count or bound below leaves that range, so they are plain integers; the texts of errors omit the quotation marks of
    [%q]. *)

From Stdlib Require Import ZArith Lia Ascii String.
From stdpp Require Import base gmap strings list sorting.
From S2P Require Import Prelude.
From S2P Require Import GoLib.
From S2P Require Import Strconv.
From S2P Require Import Text.
From S2P Require Import Storage.
From S2P Require Import NetIP.
From S2P Require Import L7Settings.
From S2P Require Import L7Normalize.
From S2P Require Import ThreatIndex.

(** ** Data *)

Definition FeedActionBlock : string := "BLOCK".
Definition FeedActionCorrelateOnly : string := "CORRELATE_ONLY".
Definition FeedActionAnnotateOnly : string := "ANNOTATE_ONLY".
Definition known_action (a : string) : bool :=
  bool_decide (a = FeedActionBlock) || bool_decide (a = FeedActionCorrelateOnly) || bool_decide (a = FeedActionAnnotateOnly).

Record ThreatFeedSource := mkSource {
  fs_ID : string; fs_Name : string; fs_URL : string; fs_Action : string; fs_Format : string;
  fs_Priority : Z; fs_TrustWeight : Z; fs_RefreshMinutes : Z; fs_MaxEntries : Z; fs_MaxDownloadBytes : Z;
}.

Record ThreatFeedSourceSettings := mkFeed {
  fd_ID : string; fd_Name : string; fd_Enabled : bool; fd_URL : string; fd_Format : string; fd_Action : string;
  fd_Priority : Z; fd_TrustWeight : Z; fd_RefreshMinutes : Z; fd_MaxEntries : Z; fd_MaxDownloadBytes : Z;
}.

Record ThreatIntelTransportSettings := mkTransport {
  tp_AllowedHosts : list string; tp_MaxRedirects : Z; tp_AllowCrossHostRedirect : bool;
  tp_RequireContentType : bool; tp_AllowedContentTypes : list string;
}.
Record ThreatIntelValidationSettings := mkValidation {
  va_IPv4Enabled : bool; va_IPv6Enabled : bool; va_MinimumValidEntryPermille : Z; va_MalformedEntryPermille : Z;
  va_GenerationPolicy : string;
}.
Record ThreatIntelRetrySettings := mkRetry { re_Attempts : Z; re_BackoffSeconds : Z }.
Record ThreatIntelKernelSettings := mkKernelSettings {
  ks_AutoApply : bool; ks_MaximumDiffPerSync : Z; ks_DivergenceDegrades : bool;
}.

Record ThreatIntelFabricSettings := mkFabric {
  fa_Enabled : bool; fa_AutoSync : bool; fa_RefreshMinutes : Z;
  fa_StaleWarningMinutes : Z; fa_StaleCriticalMinutes : Z;
  fa_MaxDownloadBytesPerFeed : Z; fa_MaxEntriesPerFeed : Z; fa_MaxTotalEntries : Z;
  fa_DownloadTimeoutSeconds : Z; fa_ConcurrentDownloads : Z;
  fa_Transport : ThreatIntelTransportSettings; fa_Validation : ThreatIntelValidationSettings;
  fa_Retry : ThreatIntelRetrySettings; fa_Kernel : ThreatIntelKernelSettings;
  fa_Feeds : list ThreatFeedSourceSettings;
}.
Definition eta_fa (s : ThreatIntelFabricSettings) : ThreatIntelFabricSettings :=
  mkFabric (fa_Enabled s) (fa_AutoSync s) (fa_RefreshMinutes s) (fa_StaleWarningMinutes s) (fa_StaleCriticalMinutes s)
    (fa_MaxDownloadBytesPerFeed s) (fa_MaxEntriesPerFeed s) (fa_MaxTotalEntries s) (fa_DownloadTimeoutSeconds s)
    (fa_ConcurrentDownloads s) (fa_Transport s) (fa_Validation s) (fa_Retry s) (fa_Kernel s) (fa_Feeds s).
Definition set_transport : ThreatIntelTransportSettings -> ThreatIntelFabricSettings -> ThreatIntelFabricSettings :=
  ltac:(setter eta_fa fa_Transport).
Definition set_feeds : list ThreatFeedSourceSettings -> ThreatIntelFabricSettings -> ThreatIntelFabricSettings :=
  ltac:(setter eta_fa fa_Feeds).

(** [ThreatIntelFabricSettings{}], what a runtime without a snapshot reports. *)
Definition no_settings : ThreatIntelFabricSettings :=
  mkFabric false false 0 0 0 0 0 0 0 0 (mkTransport [] 0 false false []) (mkValidation false false 0 0 "")
    (mkRetry 0 0) (mkKernelSettings false 0 false) [].

(** [FeedConfig] (src/control/config.go) *)
Record FeedConfig := mkFeedConfig {
  fc_Enabled : bool; fc_AutoApply : bool; fc_RefreshMinutes : Z; fc_MaxDownloadBytes : Z; fc_MaxEntries : Z;
  fc_Sources : list string; fc_RequireSignedManifest : bool; fc_TrustedSigningKeys : list string;
  fc_ManifestPath : string; fc_ManifestMaxAgeMinutes : Z; fc_LocalSigning : bool; fc_SigningKeyFile : string;
  fc_SnapshotDir : string;
}.

(** [defaultThreatIntelFabricSettings] *)
Definition default_feed (index : nat) (source : ThreatFeedSource) : ThreatFeedSourceSettings :=
  mkFeed (fs_ID source) (fs_Name source) true (fs_URL source) (fs_Format source) (fs_Action source)
    ((Z.of_nat index + 1) * 10) 100 0 0 0.
Definition defaultThreatIntelFabricSettings (cfg : FeedConfig) (sources : list ThreatFeedSource)
    : ThreatIntelFabricSettings :=
  let refresh := if (fc_RefreshMinutes cfg <? 5) || (1440 <? fc_RefreshMinutes cfg) then 720 else fc_RefreshMinutes cfg in
  let maxDownload := if fc_MaxDownloadBytes cfg <? 1024 then 16777216 else fc_MaxDownloadBytes cfg in
  let maxEntries := if fc_MaxEntries cfg <? 1 then 250000 else fc_MaxEntries cfg in
  mkFabric (fc_Enabled cfg) false refresh (refresh * 2) (refresh * 6) maxDownload maxEntries maxEntries 25 3
    (mkTransport [] 2 false false ["text/plain"; "application/json"; "application/octet-stream"; "text/"])
    (mkValidation true true 0 250 "bump") (mkRetry 2 5) (mkKernelSettings false 0 true) (imap default_feed sources).

(** [toSource] *)
Definition toSource (f : ThreatFeedSourceSettings) : ThreatFeedSource :=
  mkSource (fd_ID f) (fd_Name f) (fd_URL f) (fd_Action f) (fd_Format f) (fd_Priority f) (fd_TrustWeight f)
    (fd_RefreshMinutes f) (fd_MaxEntries f) (fd_MaxDownloadBytes f).

(** [effectiveFeedConfig] *)
Definition effectiveFeedConfig (s : ThreatIntelFabricSettings) (base : FeedConfig) : FeedConfig :=
  mkFeedConfig (fa_Enabled s) (ks_AutoApply (fa_Kernel s)) (fa_RefreshMinutes s) (fa_MaxDownloadBytesPerFeed s)
    (fa_MaxTotalEntries s) (map fd_URL (List.filter fd_Enabled (fa_Feeds s)))
    (fc_RequireSignedManifest base) (fc_TrustedSigningKeys base) (fc_ManifestPath base) (fc_ManifestMaxAgeMinutes base)
    (fc_LocalSigning base) (fc_SigningKeyFile base) (fc_SnapshotDir base).

(** The built-in catalog; the descriptions are left out. *)
Definition DefaultThreatFeedSources : list ThreatFeedSource :=
  let feed id name url action format := mkSource id name url action format 0 0 0 0 0 in
  [feed "feodo-c2" "Feodo Tracker C2" "https://feodotracker.abuse.ch/downloads/ipblocklist.txt" FeedActionBlock "lines";
   feed "spamhaus-drop-v4" "Spamhaus DROP IPv4" "https://www.spamhaus.org/drop/drop_v4.json" FeedActionBlock "json";
   feed "spamhaus-drop-v6" "Spamhaus DROP IPv6" "https://www.spamhaus.org/drop/drop_v6.json" FeedActionBlock "json";
   feed "cins-badguys" "CINS Army Badguys" "https://cinsscore.com/list/ci-badguys.txt" FeedActionCorrelateOnly "lines";
   feed "blocklist-de-all" "blocklist.de All" "https://lists.blocklist.de/lists/all.txt" FeedActionCorrelateOnly "lines";
   feed "emerging-threats-block" "Emerging Threats Block IPs"
     "https://rules.emergingthreats.net/fwrules/emerging-Block-IPs.txt" FeedActionCorrelateOnly "lines";
   feed "ipsum-level-1" "IPsum Level 1+" "https://raw.githubusercontent.com/stamparm/ipsum/master/ipsum.txt"
     FeedActionCorrelateOnly "ipsum";
   feed "firehol-level-1" "FireHOL Level 1" "https://iplists.firehol.org/files/firehol_level1.netset" FeedActionBlock "lines";
   feed "tor-bulk-exit" "Tor Bulk Exit Nodes" "https://check.torproject.org/torbulkexitlist" FeedActionAnnotateOnly "lines"].

(** ** Destinations *)

(** [netip.Addr.IsGlobalUnicast] of an unmapped address. *)
Definition IsGlobalUnicast (a : ip) : bool :=
  let four := is_v4 a in
  negb (four && on_v4 a (fun b0 b1 b2 b3 =>
    ((b0 =? 0) && (b1 =? 0) && (b2 =? 0) && (b3 =? 0)) || ((b0 =? 255) && (b1 =? 255) && (b2 =? 255) && (b3 =? 255)))) &&
  negb (bool_decide (a = [0; 0; 0; 0; 0; 0; 0; 0])) &&
  negb (IsLoopback a four) && negb (IsMulticast a four) && negb (IsLinkLocalUnicast a four).

(** [netip.Prefix.Contains] *)
Definition prefix_contains (p : Prefix) (a : ip) : bool :=
  Bool.eqb (Is4 p) (is_v4 a) &&
  bool_decide (mask_ip a (p_bits p) (p_width p) = mask_ip (p_addr p) (p_bits p) (p_width p)).
Definition in_prefixes (ps : list string) (a : ip) : bool :=
  existsb (fun s => match ParsePrefix s with Some p => prefix_contains p a | None => false end) ps.

Definition metadataEgressPrefixes : list string :=
  ["169.254.169.254/32"; "100.100.100.200/32"; "168.63.129.16/32"; "192.0.0.192/32"; "fd00:ec2::254/128"].
Definition forbiddenEgressPrefixes : list string :=
  ["0.0.0.0/8"; "10.0.0.0/8"; "100.64.0.0/10"; "127.0.0.0/8"; "169.254.0.0/16"; "172.16.0.0/12"; "192.0.0.0/24";
   "192.0.2.0/24"; "192.168.0.0/16"; "198.18.0.0/15"; "198.51.100.0/24"; "203.0.113.0/24"; "224.0.0.0/4"; "240.0.0.0/4";
   "::/128"; "::1/128"; "64:ff9b:1::/48"; "100::/64"; "2001:2::/48"; "2001:db8::/32"; "fc00::/7"; "fe80::/10"; "ff00::/8"].

(** [ClassifyEgressDestination]: the reason of the refusal. *)
Definition ClassifyEgressDestination (a : ip) : option string :=
  if negb (IsGlobalUnicast a) then Some "destination is not globally routable unicast"
  else if in_prefixes metadataEgressPrefixes a then Some "destination is a cloud metadata endpoint"
  else if in_prefixes forbiddenEgressPrefixes a then Some "destination is a special-use address"
  else None.

(** [parseIPv4Number], [parseFlexibleIPv4]: decimal, octal and hexadecimal
    spellings, one to four parts ([ParseUint] with 32 bits). *)
Definition digit_value (base : Z) (c : ascii) : option Z :=
  let v := if in_range "0" "9" c then byte_val c - 48
           else if in_range "a" "f" c then byte_val c - 87
           else if in_range "A" "F" c then byte_val c - 55 else 99 in
  if v <? base then Some v else None.
Fixpoint parse_base (base acc : Z) (l : list ascii) : option Z :=
  match l with
  | [] => Some acc
  | c :: l => v ← digit_value base c; parse_base base (acc * base + v) l
  end.
Definition parseIPv4Number (part : string) : option Z :=
  if bool_decide (part = "") || (10 <? slen part) then None
  else
    let '(base, digits) :=
      if (2 <? slen part) && (HasPrefix part "0x" || HasPrefix part "0X") then (16, drop 2 (bytes_of part))
      else if (1 <? slen part) && HasPrefix part "0" then (8, drop 1 (bytes_of part)) else (10, bytes_of part) in
    v ← parse_base base 0 digits; if v <=? 4294967295 then Some v else None.
Definition combine_parts (values : list Z) : option Z :=
  match values with
  | [a] => if 4294967295 <? a then None else Some a
  | [a; b] => if (255 <? a) || (16777215 <? b) then None else Some (Z.lor (Z.shiftl a 24) b)
  | [a; b; c] =>
      if (255 <? a) || (255 <? b) || (65535 <? c) then None else Some (Z.lor (Z.lor (Z.shiftl a 24) (Z.shiftl b 16)) c)
  | [a; b; c; d] =>
      if (255 <? a) || (255 <? b) || (255 <? c) || (255 <? d) then None
      else Some (Z.lor (Z.lor (Z.lor (Z.shiftl a 24) (Z.shiftl b 16)) (Z.shiftl c 8)) d)
  | _ => None
  end.
Definition parseFlexibleIPv4 (host : string) : option ip :=
  let parts := Split host "." in
  if (length parts <? 1)%nat || (4 <? length parts)%nat then None
  else
    values ← mapM parseIPv4Number parts;
    n ← combine_parts values;
    Some [0; 0; 0; 0; 0; 65535; n / 65536; n mod 65536].

(** What the code reads of a parsed [url.URL]. *)
Record URL := mkURL { u_Scheme : string; u_Hostname : string; u_User : bool; u_Fragment : string; u_Port : string; u_Path : string }.
Class URLParser := { url_Parse : string -> goerror + URL }.

Section Settings.
Context `{U : Unicode} `{UP : URLParser}.

(** [validateFeedSourceURL]; every failure is a validation or a security
    exception, which the retry loop does not repeat. *)
Definition feed_host (u : URL) : string := TrimSuffix (ToLower (u_Hostname u)) ".".
Definition host_address (host : string) : option ip :=
  match ParseIP host with Some a => Some a | None => parseFlexibleIPv4 host end.
Definition validateFeedSourceURL (source : string) : goerror + URL :=
  match url_Parse source with
  | inl e => inl (ErrWrap "invalid HTTPS feed URL" e)
  | inr u =>
      let host := feed_host u in
      if negb (bool_decide (u_Scheme u = "https")) || bool_decide (u_Hostname u = "") || u_User u ||
         negb (bool_decide (u_Fragment u = ""))
      then inl (ErrText "invalid HTTPS feed URL")
      else if negb (bool_decide (u_Port u = "")) && negb (bool_decide (u_Port u = "443"))
      then inl (ErrText "feed destination port refused")
      else if bool_decide (host = "localhost") || HasSuffix host ".localhost" || HasSuffix host ".local" || HasSuffix host ".internal"
      then inl (ErrText "feed hostname is not public")
      else match host_address host ≫= ClassifyEgressDestination with
           | Some reason => inl (ErrText ("feed IP is not public: " +:+ reason))
           | None => inr u
           end
  end.

(** ** Validation *)

Definition protocolFieldValid (v : string) : bool :=
  negb (bool_decide (v = "")) && (slen v <=? 3072) &&
  negb (ContainsAny v (blanks +:+ nul +:+ String "031" EmptyString)).

(** The bounds in front of the lists. *)
Definition check_scalars (s : ThreatIntelFabricSettings) : error :=
  first_error
    [((fa_RefreshMinutes s <? 5) || (1440 <? fa_RefreshMinutes s),
      "threat intelligence refresh interval must be between 5 and 1440 minutes");
     ((fa_StaleWarningMinutes s <? 1) || (100000 <? fa_StaleWarningMinutes s),
      "threat intelligence stale warning interval is outside safe bounds");
     ((fa_StaleCriticalMinutes s <? fa_StaleWarningMinutes s) || (100000 <? fa_StaleCriticalMinutes s),
      "threat intelligence stale critical interval must be at least the warning interval");
     ((fa_MaxDownloadBytesPerFeed s <? 1024) || (67108864 <? fa_MaxDownloadBytesPerFeed s),
      "threat intelligence download bound must be between 1 KiB and 64 MiB");
     ((fa_MaxEntriesPerFeed s <? 1) || (5000000 <? fa_MaxEntriesPerFeed s),
      "threat intelligence per-feed entry bound is outside safe bounds");
     ((fa_MaxTotalEntries s <? 1) || (5000000 <? fa_MaxTotalEntries s),
      "threat intelligence total entry bound is outside safe bounds");
     ((fa_DownloadTimeoutSeconds s <? 5) || (300 <? fa_DownloadTimeoutSeconds s),
      "threat intelligence download timeout must be between 5 and 300 seconds");
     ((fa_ConcurrentDownloads s <? 1) || (16 <? fa_ConcurrentDownloads s),
      "threat intelligence concurrency must be between 1 and 16");
     ((tp_MaxRedirects (fa_Transport s) <? 0) || (10 <? tp_MaxRedirects (fa_Transport s)),
      "threat intelligence redirect budget must be between 0 and 10");
     (512 <? Z.of_nat (length (tp_AllowedHosts (fa_Transport s))),
      "threat intelligence host allowlist exceeds 512 entries")].

Definition allowed_host (raw : string) : goerror + option string :=
  let host := TrimSuffix (ToLower (TrimSpace raw)) "." in
  if bool_decide (host = "") then inr None
  else if ContainsAny host ("/*:" +:+ blanks +:+ nul)
  then inl (ErrText ("threat intelligence host allowlist entry " +:+ raw +:+ " must be a bare hostname"))
  else inr (Some host).
Definition allowed_type (raw : string) : goerror + option string :=
  let media := ToLower (TrimSpace raw) in
  if bool_decide (media = "") then inr None
  else if ContainsAny media (blanks +:+ nul +:+ ",;")
  then inl (ErrText ("threat intelligence content type " +:+ raw +:+ " must be a bare media type or prefix"))
  else inr (Some media).
Definition check_types (t : ThreatIntelTransportSettings) : error :=
  first_error
    [(32 <? Z.of_nat (length (tp_AllowedContentTypes t)), "threat intelligence content type policy exceeds 32 entries");
     (tp_RequireContentType t && bool_decide (tp_AllowedContentTypes t = []),
      "threat intelligence content type policy is required but empty")].

(** The bounds behind the lists. *)
Definition check_policy (s : ThreatIntelFabricSettings) : error :=
  let v := fa_Validation s in
  first_error
    [((va_MinimumValidEntryPermille v <? 0) || (1000 <? va_MinimumValidEntryPermille v),
      "threat intelligence minimum entry ratio must be between 0 and 1000 per mille");
     ((va_MalformedEntryPermille v <? 0) || (1000 <? va_MalformedEntryPermille v),
      "threat intelligence malformed entry threshold must be between 0 and 1000 per mille");
     (negb (bool_decide (va_GenerationPolicy v = "bump")) && negb (bool_decide (va_GenerationPolicy v = "stable")),
      "threat intelligence generation policy must be bump or stable");
     (negb (va_IPv4Enabled v) && negb (va_IPv6Enabled v), "threat intelligence must accept at least one address family");
     ((re_Attempts (fa_Retry s) <? 0) || (5 <? re_Attempts (fa_Retry s)),
      "threat intelligence retry attempts must be between 0 and 5");
     ((re_BackoffSeconds (fa_Retry s) <? 1) || (300 <? re_BackoffSeconds (fa_Retry s)),
      "threat intelligence retry backoff must be between 1 and 300 seconds");
     ((ks_MaximumDiffPerSync (fa_Kernel s) <? 0) || (1000000 <? ks_MaximumDiffPerSync (fa_Kernel s)),
      "threat intelligence kernel diff budget is outside safe bounds");
     (256 <? Z.of_nat (length (fa_Feeds s)), "threat intelligence feed limit of 256 exceeded");
     (fa_AutoSync s && negb (fa_Enabled s), "automatic feed synchronisation requires threat intelligence to be enabled");
     (fa_Enabled s && bool_decide (fa_Feeds s = []), "threat intelligence requires at least one feed definition")].

Definition normal_feed (f : ThreatFeedSourceSettings) : ThreatFeedSourceSettings :=
  mkFeed (ToLower (TrimSpace (fd_ID f))) (TrimSpace (fd_Name f)) (fd_Enabled f) (TrimSpace (fd_URL f))
    (ToLower (TrimSpace (fd_Format f))) (ToUpper (TrimSpace (fd_Action f))) (fd_Priority f) (fd_TrustWeight f)
    (fd_RefreshMinutes f) (fd_MaxEntries f) (fd_MaxDownloadBytes f).

Definition check_identity (index : nat) (f : ThreatFeedSourceSettings) : error :=
  first_error
    [(bool_decide (fd_ID f = "") || (64 <? slen (fd_ID f)) || negb (protocolFieldValid (fd_ID f)) || L7Settings.Contains (fd_ID f) ".",
      "feed " +:+ itoa (Z.of_nat index) +:+ " identifier must be a protocol-safe identifier of at most 64 characters")].
Definition check_feed (f : ThreatFeedSourceSettings) : error :=
  let named msg := "feed " +:+ fd_ID f +:+ msg in
  first_error
    [((slen (fd_Name f) <? 1) || (96 <? slen (fd_Name f)) || ContainsAny (fd_Name f) (String "013" newline +:+ nul),
      named " name must contain 1-96 single-line characters");
     (negb (bool_decide (fd_Format f ∈ ["lines"; "json"; "ipsum"])), named " format must be lines, json or ipsum");
     (negb (known_action (fd_Action f)), named " action must be BLOCK, CORRELATE_ONLY or ANNOTATE_ONLY");
     ((fd_Priority f <? 0) || (1000000 <? fd_Priority f), named " priority is outside safe bounds");
     ((fd_TrustWeight f <? 1) || (1000 <? fd_TrustWeight f), named " trust weight must be between 1 and 1000");
     (negb (fd_RefreshMinutes f =? 0) && ((fd_RefreshMinutes f <? 5) || (1440 <? fd_RefreshMinutes f)),
      named " refresh override must be 0 or between 5 and 1440 minutes");
     (negb (fd_MaxEntries f =? 0) && ((fd_MaxEntries f <? 1) || (5000000 <? fd_MaxEntries f)),
      named " entry override is outside safe bounds");
     (negb (fd_MaxDownloadBytes f =? 0) && ((fd_MaxDownloadBytes f <? 1024) || (67108864 <? fd_MaxDownloadBytes f)),
      named " download override must be 0 or between 1 KiB and 64 MiB")].

(** The loop over the feeds: identifiers and the URLs of the enabled ones are
    unique. *)
Fixpoint check_feeds (index : nat) (feeds : list ThreatFeedSourceSettings) (seenIDs seenURLs : gset string)
    : goerror + list ThreatFeedSourceSettings :=
  match feeds with
  | [] => inr []
  | raw :: rest =>
      let f := normal_feed raw in
      match check_identity index f with
      | Some e => inl e
      | None =>
          if bool_decide (fd_ID f ∈ seenIDs) then inl (ErrText ("duplicate feed identifier " +:+ fd_ID f))
          else match check_feed f with
          | Some e => inl e
          | None =>
              let next urls := ok_map (cons f) (check_feeds (S index) rest ({[fd_ID f]} ∪ seenIDs) urls) in
              if negb (fd_Enabled f) then next seenURLs
              else match validateFeedSourceURL (fd_URL f) with
                   | inl e => inl (ErrWrap ("feed " +:+ fd_ID f) e)
                   | inr _ =>
                       if bool_decide (fd_URL f ∈ seenURLs)
                       then inl (ErrText ("feed " +:+ fd_ID f +:+ " duplicates another feed URL"))
                       else next ({[fd_URL f]} ∪ seenURLs)
                   end
          end
      end
  end.

(** [sort.Slice] by priority, then by identifier, which is unique. *)
Definition feed_before (a b : ThreatFeedSourceSettings) : Prop :=
  fd_Priority a < fd_Priority b \/ (fd_Priority a = fd_Priority b /\ String.le (fd_ID a) (fd_ID b)).
#[export] Instance feed_before_dec : RelDecision feed_before.
Proof. intros a b. unfold feed_before. apply _. Defined.

(** [validateThreatIntelFabricSettings]: the normalized settings. *)
Definition validateThreatIntelFabricSettings (s : ThreatIntelFabricSettings) : goerror + ThreatIntelFabricSettings :=
  match check_scalars s with
  | Some e => inl e
  | None =>
  match collect_sorted allowed_host (tp_AllowedHosts (fa_Transport s)) with
  | inl e => inl e
  | inr hosts =>
  match check_types (fa_Transport s) with
  | Some e => inl e
  | None =>
  match collect_sorted allowed_type (tp_AllowedContentTypes (fa_Transport s)) with
  | inl e => inl e
  | inr types =>
  match check_policy s with
  | Some e => inl e
  | None =>
  match check_feeds 0 (fa_Feeds s) ∅ ∅ with
  | inl e => inl e
  | inr feeds =>
      let t := fa_Transport s in
      inr (set_feeds (merge_sort feed_before feeds)
        (set_transport (mkTransport hosts (tp_MaxRedirects t) (tp_AllowCrossHostRedirect t) (tp_RequireContentType t) types) s))
  end end end end end end.

(** ** The snapshot one synchronisation reads *)

Record threatIntelSnapshot := mkIntelSnapshot {
  sn_revision : Z; sn_settings : ThreatIntelFabricSettings; sn_sources : list ThreatFeedSource;
  sn_byID : gmap string ThreatFeedSource; sn_hosts : gset string;
}.

(** [buildThreatIntelSnapshot] *)
Definition buildThreatIntelSnapshot (s : ThreatIntelFabricSettings) (revision : Z) : threatIntelSnapshot :=
  mkIntelSnapshot revision s (map toSource (List.filter fd_Enabled (fa_Feeds s)))
    (fold_left (fun m f => <[fd_ID f := toSource f]> m) (fa_Feeds s) ∅)
    (list_to_set (tp_AllowedHosts (fa_Transport s))).

(** [hostAllowed], [contentAllowed], [feedBounds] *)
Definition hostAllowed (sn : threatIntelSnapshot) (host : string) : bool :=
  bool_decide (sn_hosts sn = ∅) || bool_decide (TrimSuffix (ToLower host) "." ∈ sn_hosts sn).
Definition contentAllowed (sn : threatIntelSnapshot) (header : string) : bool :=
  let media := ToLower (TrimSpace header) in
  let media := if bool_decide (";"%char ∈ bytes_of media) then TrimSpace (take_until ";" media) else media in
  let t := fa_Transport (sn_settings sn) in
  if bool_decide (media = "") then negb (tp_RequireContentType t)
  else existsb (fun allowed => bool_decide (media = allowed) || HasPrefix media allowed) (tp_AllowedContentTypes t).
Definition feedBounds (sn : threatIntelSnapshot) (src : ThreatFeedSource) : Z * Z * Z :=
  let s := sn_settings sn in
  (if 0 <? fs_MaxEntries src then fs_MaxEntries src else fa_MaxEntriesPerFeed s,
   if 0 <? fs_MaxDownloadBytes src then fs_MaxDownloadBytes src else fa_MaxDownloadBytesPerFeed s,
   fa_DownloadTimeoutSeconds s).

(** [orderedSources]: stable, by priority, then by trust, then by identifier. *)
Definition source_before (a b : ThreatFeedSource) : Prop :=
  fs_Priority a < fs_Priority b \/ (fs_Priority a = fs_Priority b /\
  (fs_TrustWeight b < fs_TrustWeight a \/ (fs_TrustWeight a = fs_TrustWeight b /\ String.le (fs_ID a) (fs_ID b)))).
#[export] Instance source_before_dec : RelDecision source_before.
Proof. intros a b. unfold source_before. apply _. Defined.
Definition orderedSources (sn : threatIntelSnapshot) : list ThreatFeedSource := merge_sort source_before (sn_sources sn).

(** ** One downloaded line *)

Inductive threatLineKind := threatLineAccepted | threatLineMalformed | threatLineSkipped | threatLineFiltered.

Definition ipv4Allowed (p : ThreatIntelValidationSettings) (value : string) : bool :=
  va_IPv4Enabled p || bool_decide (":"%char ∈ bytes_of value).
Definition ipv6Allowed (p : ThreatIntelValidationSettings) (value : string) : bool :=
  va_IPv6Enabled p || negb (bool_decide (":"%char ∈ bytes_of value)).

(** [classifyThreatLine] *)
Definition classifyThreatLine (line : string) (policy : ThreatIntelValidationSettings) : string * threatLineKind :=
  let trimmed := TrimSpace line in
  if bool_decide (trimmed = "") || HasPrefix trimmed "#" || HasPrefix trimmed ";" then ("", threatLineSkipped)
  else
    let body := TrimSpace (of_bytes (until_any ["#"; ";"]%char (bytes_of trimmed))) in
    if bool_decide (body = "") then ("", threatLineSkipped)
    else
      let tok := of_bytes (rev (skip_any [";"; ","; " "]%char (rev (first_field (bytes_of body))))) in
      match parseThreatToken tok with
      | None => ("", threatLineMalformed)
      | Some value =>
          if negb (ipv4Allowed policy value) || negb (ipv6Allowed policy value) then ("", threatLineFiltered)
          else (value, threatLineAccepted)
      end.
End Settings.
