(* ===== verification/FeedFetch.v ===== *)
(** * Downloading and authenticating one threat feed

    src/control/feeds.go: the parser of a downloaded document, the signed
    manifest that binds its bytes and its indicators, and the bounded, retried
    download. The HTTP client, its timers and the JSON tokenizer are reached
    through [FeedTransport] and [JSONTokens]; Ed25519 and SHA-256 are the
    parameters of the evidence ledger. Times of the manifest are rendered by its
    [json_Marshal]. *)

From Stdlib Require Import ZArith Lia Ascii String.
From stdpp Require Import base gmap strings list sorting.
From S2P Require Import Prelude.
From S2P Require Import GoLib.
From S2P Require Import Strconv.
From S2P Require Import Text.
From S2P Require Import World.
From S2P Require Import Storage.
From S2P Require Import Lines.
From S2P Require Import NetIP.
From S2P Require Import Evidence.
From S2P Require Import L7Settings.
From S2P Require Import L7Decode.
From S2P Require Import L7Normalize.
From S2P Require Import ThreatIndex.
From S2P Require Import FeedSettings.

(** ** Errors

    The validation and security exceptions and plain errors are final; only
    [feedTransientError] is worth another attempt. *)
Inductive feedError := Final (e : goerror) | Transient (e : goerror).
Definition feed_cause (e : feedError) : goerror := match e with Final e => e | Transient e => e end.
Definition threatFeedRetryable (e : feedError) : bool := match e with Final _ => false | Transient _ => true end.

(** ** Parsing *)

Record threatFeedStats := mkStats { st_Candidates : Z; st_Accepted : Z; st_Malformed : Z; st_Filtered : Z }.
Definition no_stats : threatFeedStats := mkStats 0 0 0 0.
Definition acceptedPermille (s : threatFeedStats) : Z :=
  if st_Candidates s <=? 0 then 1000 else st_Accepted s * 1000 / st_Candidates s.
Definition malformedPermille (s : threatFeedStats) : Z :=
  if st_Candidates s <=? 0 then 0 else st_Malformed s * 1000 / st_Candidates s.

Definition tally (kind : threatLineKind) (s : threatFeedStats) : threatFeedStats :=
  match kind with
  | threatLineAccepted => mkStats (st_Candidates s + 1) (st_Accepted s + 1) (st_Malformed s) (st_Filtered s)
  | threatLineMalformed => mkStats (st_Candidates s + 1) (st_Accepted s) (st_Malformed s + 1) (st_Filtered s)
  | threatLineFiltered => mkStats (st_Candidates s + 1) (st_Accepted s) (st_Malformed s) (st_Filtered s + 1)
  | threatLineSkipped => s
  end.

(** [finalizeThreatFeed] *)
Definition finalizeThreatFeed (set : gset string) (stats : threatFeedStats) (policy : ThreatIntelValidationSettings)
    : feedError + list string :=
  if st_Candidates stats =? 0 then inr []
  else if va_MalformedEntryPermille policy * st_Candidates stats <? st_Malformed stats * 1000
  then inl (Final (ErrText ("feed integrity failure: " +:+ itoa (st_Malformed stats) +:+ " of " +:+
    itoa (st_Candidates stats) +:+ " entries are malformed (" +:+ itoa (malformedPermille stats) +:+ " per mille, limit " +:+
    itoa (va_MalformedEntryPermille policy) +:+ ")")))
  else if acceptedPermille stats <? va_MinimumValidEntryPermille policy
  then inl (Final (ErrText ("feed validity failure: only " +:+ itoa (acceptedPermille stats) +:+
    " per mille of entries were usable (minimum " +:+ itoa (va_MinimumValidEntryPermille policy) +:+ ")")))
  else inr (sort_Strings (elements set)).

(** The line scanner with its 64 KiB buffer: the loop stops at the entry
    bound, before it meets a later line that does not fit. *)
Definition feed_token : Z := 65536.
Definition full (maxEntries : Z) (set : gset string) : bool := maxEntries <=? Z.of_nat (size set).
Fixpoint scan_lines (lines : list (list ascii)) (maxEntries : Z) (policy : ThreatIntelValidationSettings)
    (set : gset string) (stats : threatFeedStats) : feedError + (gset string * threatFeedStats) :=
  match lines with
  | [] => inr (set, stats)
  | l :: rest =>
      if feed_token <=? Z.of_nat (length l)
      then inl (Transient (ErrWrap "feed stream read failed" (ErrText "bufio.Scanner: token too long")))
      else
        let '(value, kind) := classifyThreatLine (of_bytes (drop_cr l)) policy in
        let set := if kind is threatLineAccepted then {[value]} ∪ set else set in
        let stats := tally kind stats in
        if full maxEntries set then inr (set, stats) else scan_lines rest maxEntries policy set stats
  end.

(** [couldBeNetworkToken] *)
Definition couldBeNetworkToken (value : string) : bool := (slen value <=? 128) && string_forallb token_char value.

(** [dec.Token()] until the end of the document: the string tokens, and the
    error that ended the reading when it was not the end of the input. *)
Class JSONTokens := { json_Tokens : string -> list string * error }.

Section Parse.
Context `{U : Unicode} `{UP : URLParser} `{JT : JSONTokens}.

(** [collectJSONThreatEntries] *)
Fixpoint collect_json (tokens : list string) (err : error) (maxEntries : Z) (policy : ThreatIntelValidationSettings)
    (set : gset string) (stats : threatFeedStats) (metadata : Z) : feedError + (gset string * threatFeedStats) :=
  match tokens with
  | [] =>
      match err with
      | Some e => inl (Transient (ErrWrap "feed JSON read failed" e))
      | None =>
          if (st_Candidates stats =? 0) && (0 <? metadata)
          then inl (Final (ErrText ("feed validity failure: " +:+ itoa metadata +:+
                 " values were read and none of them was a network address")))
          else inr (set, stats)
      end
  | t :: rest =>
      let str := TrimSpace t in
      if bool_decide (str = "") then collect_json rest err maxEntries policy set stats metadata
      else if negb (couldBeNetworkToken str) then collect_json rest err maxEntries policy set stats (metadata + 1)
      else
        match parseThreatToken str with
        | None => collect_json rest err maxEntries policy set (tally threatLineMalformed stats) metadata
        | Some item =>
            if negb (ipv4Allowed policy item) || negb (ipv6Allowed policy item)
            then collect_json rest err maxEntries policy set (tally threatLineFiltered stats) metadata
            else
              let set := {[item]} ∪ set in
              let stats := tally threatLineAccepted stats in
              if full maxEntries set then inr (set, stats)
              else collect_json rest err maxEntries policy set stats metadata
        end
  end.

(** [parseFeedRaw] *)
Definition is_json (src : ThreatFeedSource) (contentType : string) : bool :=
  bool_decide (fs_Format src = "json") || L7Settings.Contains (ToLower contentType) "application/json" ||
  match url_Parse (fs_URL src) with inr u => HasSuffix (ToLower (u_Path u)) ".json" | inl _ => false end.
Definition parseFeedRaw (src : ThreatFeedSource) (raw contentType : string) (policy : ThreatIntelValidationSettings)
    (maxEntries : Z) : feedError + list string :=
  if maxEntries <? 1 then inl (Final (ErrText "feed entry bound is not configured"))
  else
    let parsed :=
      if is_json src contentType
      then let '(tokens, err) := json_Tokens raw in collect_json tokens err maxEntries policy ∅ no_stats 0
      else scan_lines (split_lf (bytes_of raw) []) maxEntries policy ∅ no_stats in
    match parsed with
    | inl e => inl e
    | inr (set, stats) => finalizeThreatFeed set stats policy
    end.
End Parse.

(** ** The signed manifest *)

Definition threatFeedManifestSchema : string := "vgt-threat-feed-manifest/v1".

Record threatFeedManifestEntry := mkManifestEntry {
  me_ID : string; me_URL : string; me_RawSHA256 : string; me_ItemsSHA256 : string; me_Version : Z;
  me_Action : string; me_ValidUntil : time;
}.
Record threatFeedManifestDocument := mkManifest {
  md_Schema : string; md_GeneratedAt : time; md_ValidUntil : time; md_Feeds : list threatFeedManifestEntry;
  md_Signature : string;
}.
Record threatFeedManifestMessage := mkManifestMessage {
  mm_Schema : string; mm_GeneratedAt : time; mm_ValidUntil : time; mm_Feeds : list threatFeedManifestEntry;
}.
Record threatFeedCertificate := mkCertificate { ct_Version : Z; ct_ValidUntil : time; ct_Entry : threatFeedManifestEntry }.

(** [base64.StdEncoding], then [base64.RawStdEncoding]. *)
Definition decode_base64 (s : string) : option string :=
  match base64_Decode (mkEncoding false true) s with
  | Some l => Some (of_bytes l)
  | None => of_bytes <$> base64_Decode (mkEncoding false false) s
  end.

(** [parsePinnedFeedSigningKeys] *)
Fixpoint pinned_keys (raw : list string) (seen : list string) : goerror + list string :=
  match raw with
  | [] => inr seen
  | value :: rest =>
      let trimmed := TrimSpace value in
      if bool_decide (trimmed = "") then pinned_keys rest seen
      else
        match decode_base64 trimmed with
        | Some decoded =>
            if negb (slen decoded =? 32) then inl (ErrText "feed signing key is not a valid Ed25519 public key")
            else if bool_decide (decoded ∈ seen) then pinned_keys rest seen else pinned_keys rest (seen ++ [decoded])
        | None => inl (ErrText "feed signing key is not a valid Ed25519 public key")
        end
  end.
Definition parsePinnedFeedSigningKeys (raw : list string) : goerror + list string :=
  match pinned_keys raw [] with
  | inl e => inl e
  | inr keys => if 8 <? Z.of_nat (length keys) then inl (ErrText "too many pinned feed signing keys") else inr keys
  end.

(** [strings.EqualFold] where one side is hexadecimal text: no other character
    folds to a hexadecimal digit. *)
Definition EqualFold (a b : string) : bool := bool_decide (map_bytes lower_byte a = map_bytes lower_byte b).

(** [validateSignedFeedManifest] *)
Definition check_entry (document : threatFeedManifestDocument) (now : time) (seen : gset string)
    (e : threatFeedManifestEntry) : error :=
  first_error
    [(bool_decide (me_ID e = "") || (64 <? slen (me_ID e)), "signed feed manifest entry identifier rejected");
     (bool_decide (me_ID e ∈ seen), "signed feed manifest entry duplicated");
     (bool_decide (me_URL e = "") || (2048 <? slen (me_URL e)) || negb (HasPrefix (me_URL e) "https://"),
      "signed feed manifest entry URL rejected");
     (negb (slen (me_RawSHA256 e) =? 64) || negb (slen (me_ItemsSHA256 e) =? 64), "signed feed manifest entry digest rejected");
     (bool_decide (hex_DecodeString (me_RawSHA256 e) = None), "signed feed manifest entry raw digest rejected");
     (bool_decide (hex_DecodeString (me_ItemsSHA256 e) = None), "signed feed manifest entry items digest rejected");
     (me_Version e =? 0, "signed feed manifest entry version rejected");
     (negb (bool_decide (me_Action e = "")) && negb (known_action (me_Action e)), "signed feed manifest entry action rejected");
     (Time.IsZero (me_ValidUntil e) || negb (Time.After (me_ValidUntil e) now), "signed feed manifest entry validity expired");
     (Time.After (me_ValidUntil e) (md_ValidUntil document),
      "signed feed manifest entry validity exceeds the document window")].
Fixpoint check_entries (document : threatFeedManifestDocument) (now : time) (seen : gset string)
    (es : list threatFeedManifestEntry) : error :=
  match es with
  | [] => None
  | e :: rest =>
      match check_entry document now seen e with
      | Some err => Some err
      | None => check_entries document now ({[me_ID e]} ∪ seen) rest
      end
  end.
Definition validateSignedFeedManifest (d : threatFeedManifestDocument) (now : time) (maxAge : duration) : error :=
  match first_error
    [(negb (bool_decide (md_Schema d = threatFeedManifestSchema)), "signed feed manifest schema rejected");
     (Time.IsZero (md_GeneratedAt d) || Time.IsZero (md_ValidUntil d), "signed feed manifest timestamps rejected");
     (Time.After (md_GeneratedAt d) (Time.Add now (5 * Time.Minute)), "signed feed manifest was issued in the future");
     (negb (Time.Before now (md_ValidUntil d)),
      "signed feed manifest has expired; feeds fail closed until a fresh signed manifest is provisioned");
     (Time.Before (md_ValidUntil d) (md_GeneratedAt d), "signed feed manifest validity window is inverted");
     ((maxAge <? Time.Sub (md_ValidUntil d) (md_GeneratedAt d)) || (maxAge <? Time.Sub now (md_GeneratedAt d)),
      "signed feed manifest exceeds the configured maximum age");
     (bool_decide (md_Feeds d = []) || (512 <? Z.of_nat (length (md_Feeds d))), "signed feed manifest feed count rejected")]
  with
  | Some e => Some e
  | None => check_entries d now ∅ (md_Feeds d)
  end.

(** [threatFeedManifestMessageFor]; the identifiers are unique when the order
    matters. *)
Definition entry_before (a b : threatFeedManifestEntry) : Prop := String.le (me_ID a) (me_ID b).
#[export] Instance entry_before_dec : RelDecision entry_before.
Proof. intros a b. unfold entry_before. apply _. Defined.
Definition message_of (d : threatFeedManifestDocument) : threatFeedManifestMessage :=
  mkManifestMessage (md_Schema d) (md_GeneratedAt d) (md_ValidUntil d) (merge_sort entry_before (md_Feeds d)).

Section Manifest.
Context {X : Type} `{U : Unicode} `{C : Crypto} `{ED : Evidence.Ed25519}
  `{JM : JSONDoc threatFeedManifestMessage} `{JD : JSONDoc threatFeedManifestDocument}.
Implicit Types (w : world X).

Definition threatFeedManifestMessageFor (d : threatFeedManifestDocument) : string :=
  match json_Marshal (message_of d) with inr raw => raw | inl _ => "" end.

(** The signature of a decoded document against the pinned keys. *)
Definition signature_error (d : threatFeedManifestDocument) (keys : list string) : error :=
  if bool_decide (keys = [])
  then errors_New "no pinned feed signing key is configured; signed feed manifests cannot be authenticated"
  else
    match decode_base64 (TrimSpace (md_Signature d)) with
    | Some signature =>
        if negb (slen signature =? 64) then errors_New "signed feed manifest signature encoding rejected"
        else if existsb (fun key => ed_Verify key (threatFeedManifestMessageFor d) signature) keys then None
        else errors_New "signed feed manifest signature verification failed"
    | None => errors_New "signed feed manifest signature encoding rejected"
    end.

(** [os.ReadFile] of a path that was a regular file a moment ago. *)
Definition os_ReadFile (path : string) w : (goerror + string) * world X :=
  match World.sys w with
  | (Some e, w1) => (inl e, w1)
  | (None, w1) =>
      match w_fs w !! path with
      | Some i => (inr (i_data i), w1)
      | None => (inl ErrNotExist, w1)
      end
  end.

(** [readSignedFeedManifest] *)
Definition readSignedFeedManifest (path : string) (keys : list string) (maxAge : duration) w
    : (goerror + threatFeedManifestDocument) * world X :=
  match os_Lstat path w with
  | (inl e, w1) =>
      (inl (ErrWrap "signed feed manifest is missing; feeds fail closed until the trust anchor is provisioned" e), w1)
  | (inr info, w1) =>
      if decide (i_kind info <> Regular)
      then (inl (ErrText "signed feed manifest must be a regular non-symlink file"), w1)
      else if (slen (i_data info) <=? 0) || (1048576 <? slen (i_data info))
      then (inl (ErrText "signed feed manifest size rejected"), w1)
      else
        match os_ReadFile path w1 with
        | (inl e, w2) => (inl (ErrWrap "signed feed manifest read failed" e), w2)
        | (inr raw, w2) =>
            match json_Decode raw with
            | inl e => (inl (ErrWrap "signed feed manifest JSON rejected" e), w2)
            | inr document =>
                let '(now, w3) := time_Now w2 in
                match validateSignedFeedManifest document now maxAge with
                | Some e => (inl e, w3)
                | None =>
                    match signature_error document keys with
                    | Some e => (inl e, w3)
                    | None => (inr document, w3)
                    end
                end
            end
        end
  end.

(** What [signingConfig] returns. *)
Record signingPolicy := mkSigningPolicy {
  sg_required : bool; sg_keys : list string; sg_manifestPath : string; sg_maxAge : duration;
}.

(** The entry of the manifest against the configured source and the bytes. *)
Definition entry_error (e : threatFeedManifestEntry) (src : ThreatFeedSource) (raw : string) : error :=
  first_error
    [(negb (bool_decide (me_URL e = fs_URL src)), "signed feed manifest URL does not match the configured feed URL");
     (negb (bool_decide (me_Action e = "")) && negb (bool_decide (me_Action e = fs_Action src)),
      "signed feed manifest action does not match the catalog authority");
     (negb (EqualFold (hex_EncodeToString (sha256_Sum raw)) (me_RawSHA256 e)),
      "feed download does not match the signed manifest raw digest")].

(** [verifyFeedArtifact] *)
Definition verifyFeedArtifact (sp : signingPolicy) (src : ThreatFeedSource) (raw : string) w
    : (goerror + option threatFeedCertificate) * world X :=
  if negb (sg_required sp) then (inr None, w)
  else if bool_decide (sg_keys sp = [])
  then (inl (ErrText "feed signing trust anchor is not provisioned (no pinned Ed25519 key); feeds fail closed"), w)
  else
    match readSignedFeedManifest (sg_manifestPath sp) (sg_keys sp) (sg_maxAge sp) w with
    | (inl e, w1) => (inl e, w1)
    | (inr document, w1) =>
        match List.find (fun e => bool_decide (me_ID e = fs_ID src)) (md_Feeds document) with
        | None => (inl (ErrText ("signed feed manifest has no entry for " +:+ fs_ID src +:+ "; feed rejected")), w1)
        | Some e =>
            match entry_error e src raw with
            | Some err => (inl err, w1)
            | None => (inr (Some (mkCertificate (me_Version e) (me_ValidUntil e) e)), w1)
            end
        end
    end.

(** [verifyFeedItemsDigest] *)
Definition verifyFeedItemsDigest (certificate : option threatFeedCertificate) (items : list string) : error :=
  match certificate with
  | None => None
  | Some c =>
      if EqualFold (computeFingerprint items) (me_ItemsSHA256 (ct_Entry c)) then None
      else errors_New "feed indicator set does not match the signed manifest items digest"
  end.
End Manifest.

(** ** The download *)

(** One HTTP exchange with its deadline ([client.Do] and the bounded read of
    the body, at most [limit] bytes) and the wait between two attempts
    (false when the context ended first). *)
Record feedResponse := mkHTTPResponse { rs_Status : Z; rs_ContentType : string; rs_Body : goerror + string }.
Class FeedTransport (X : Type) := {
  client_Do : string -> Z -> Z -> world X -> (feedError + feedResponse) * world X;
  backoff_wait : duration -> world X -> bool * world X;
}.

Section Fetch.
Context {X : Type} `{U : Unicode} `{C : Crypto} `{ED : Evidence.Ed25519} `{UP : URLParser} `{JT : JSONTokens}
  `{JM : JSONDoc threatFeedManifestMessage} `{JD : JSONDoc threatFeedManifestDocument} `{TR : !FeedTransport X}.
Implicit Types (w : world X).

Definition http_error (status : Z) : feedError :=
  if (status =? 429) || (500 <=? status) then Transient (ErrText ("HTTP " +:+ itoa status))
  else Final (ErrText ("feed returned HTTP " +:+ itoa status)).

(** [fetchFeedRawOnce] *)
Definition fetchFeedRawOnce (src : ThreatFeedSource) (sn : threatIntelSnapshot) w
    : (feedError + (string * string)) * world X :=
  let '(_, maxBytes, timeout) := feedBounds sn src in
  match client_Do (fs_URL src) timeout (maxBytes + 1) w with
  | (inl e, w1) => (inl e, w1)
  | (inr r, w1) =>
      if negb (rs_Status r =? 200) then (inl (http_error (rs_Status r)), w1)
      else if negb (contentAllowed sn (rs_ContentType r))
      then (inl (Final (ErrText "feed content type is outside the configured policy")), w1)
      else
        match rs_Body r with
        | inl e => (inl (Transient (ErrWrap "feed read failed" e)), w1)
        | inr raw =>
            if maxBytes <? slen raw then (inl (Final (ErrText "feed exceeds bounded size limit")), w1)
            else (inr (raw, rs_ContentType r), w1)
        end
  end.

(** [fetchSourceOnce] *)
Definition fetchSourceOnce (sp : signingPolicy) (src : ThreatFeedSource) (sn : threatIntelSnapshot) w
    : (feedError + (list string * option threatFeedCertificate)) * world X :=
  match fetchFeedRawOnce src sn w with
  | (inl e, w1) => (inl e, w1)
  | (inr (raw, contentType), w1) =>
      match verifyFeedArtifact sp src raw w1 with
      | (inl e, w2) => (inl (Final e), w2)
      | (inr certificate, w2) =>
          if bool_decide (TrimSpace raw = "") then (inr ([], certificate), w2)
          else
            match parseFeedRaw src raw contentType (fa_Validation (sn_settings sn)) (feedBounds sn src).1.1 with
            | inl e => (inl e, w2)
            | inr items =>
                match verifyFeedItemsDigest certificate items with
                | Some e => (inl (Final e), w2)
                | None => (inr (items, certificate), w2)
                end
            end
      end
  end.

(** The retry loop around one attempt: [n] attempts remain, [attempt] counts
    from 1. *)
Definition backoff (policy : ThreatIntelRetrySettings) (attempt : Z) : duration :=
  i64 (i64 (re_BackoffSeconds policy * Time.Second) * Z.shiftl 1 (Z.min (attempt - 2) 4)).
Fixpoint attempts {A} (once : world X -> (feedError + A) * world X) (policy : ThreatIntelRetrySettings) (n : nat)
    (attempt : Z) (lastErr : feedError) w : (feedError + A) * world X :=
  match n with
  | O => (inl lastErr, w)
  | S n =>
      let '(going, w1) := if 1 <? attempt then backoff_wait (backoff policy attempt) w else (true, w) in
      if negb going then (inl (Final (ErrText "context canceled")), w1)
      else
        match once w1 with
        | (inr r, w2) => (inr r, w2)
        | (inl e, w2) =>
            if threatFeedRetryable e then attempts once policy n (attempt + 1) e w2 else (inl e, w2)
        end
  end.

(** The common part of [fetchSource] and [downloadFeedRaw]: the URL, the host
    and the attempts. *)
Definition guarded {A} (once : world X -> (feedError + A) * world X) (src : ThreatFeedSource) (sn : threatIntelSnapshot) w
    : (feedError + A) * world X :=
  match validateFeedSourceURL (fs_URL src) with
  | inl e => (inl (Final e), w)
  | inr u =>
      if negb (hostAllowed sn (u_Hostname u))
      then (inl (Final (ErrText "feed host is outside the configured allowlist")), w)
      else
        let policy := fa_Retry (sn_settings sn) in
        attempts once policy (Z.to_nat (Z.max 1 (re_Attempts policy))) 1 (Final (ErrText "")) w
  end.

(** [fetchSource] from the network, [downloadFeedRaw] *)
Definition fetchSourceNetwork (sp : signingPolicy) (src : ThreatFeedSource) (sn : threatIntelSnapshot) w
    : (feedError + (list string * option threatFeedCertificate)) * world X :=
  guarded (fetchSourceOnce sp src sn) src sn w.
Definition raw_once (src : ThreatFeedSource) (sn : threatIntelSnapshot) w : (feedError + string) * world X :=
  match fetchFeedRawOnce src sn w with
  | (inl e, w1) => (inl e, w1)
  | (inr (raw, _), w1) => (inr raw, w1)
  end.
Definition downloadFeedRaw (src : ThreatFeedSource) (sn : threatIntelSnapshot) w : (feedError + string) * world X :=
  guarded (raw_once src sn) src sn w.
End Fetch.
