(* ===== verification/Feeds.v ===== *)
(** * The threat-feed manager: state, lock and generations

    src/control/feeds.go: the last good generation of every feed, the lock of
    the synchronisation, the composition of the published generations and the
    persisted state. The lock and the status read the clock through their
    argument [now]; a map the code ranges over in arbitrary order is a list of
    its entries. The live settings are never absent after construction, so the
    nil checks on the snapshot have no counterpart. *)

From Stdlib Require Import ZArith Lia Ascii String.
From stdpp Require Import base gmap strings list sorting.
From S2P Require Import Prelude.
From S2P Require Import GoLib.
From S2P Require Import Strconv.
From S2P Require Import Text.
From S2P Require Import World.
From S2P Require Import Storage.
From S2P Require Import Lines.
From S2P Require Import NetIP.
From S2P Require Import L7Settings.
From S2P Require Import L7Decode.
From S2P Require Import L7Normalize.
From S2P Require Import ThreatIndex.
From S2P Require Import FeedSettings.
From S2P Require Import FeedFetch.

(** ** The lock *)

Definition threatIntelLockTTL : duration := 15 * Time.Minute.

Record ThreatIntelLock := mkLock {
  lk_active : bool; lk_ownerID : string; lk_acquiredAt : time; lk_persistedAt : time;
}.
Definition fresh_lock : ThreatIntelLock := mkLock false "" 0 0.

(** [TryLock]: whether the lock was taken, and else the time to wait. *)
Definition TryLock (holder : string) (now : time) (l : ThreatIntelLock) : bool * duration * ThreatIntelLock :=
  if lk_active l then
    let rem := threatIntelLockTTL - Z.rem (Time.Sub now (lk_acquiredAt l)) threatIntelLockTTL in
    (false, if rem <=? 0 then threatIntelLockTTL else rem, l)
  else if negb (Time.IsZero (lk_persistedAt l)) && (Time.Sub now (lk_persistedAt l) <? threatIntelLockTTL)
  then (false, threatIntelLockTTL - Time.Sub now (lk_persistedAt l), l)
  else (true, 0, mkLock true holder now now).

(** [Unlock] *)
Definition Unlock (l : ThreatIntelLock) : ThreatIntelLock := mkLock false "" (lk_acquiredAt l) 0.

(** [Status] *)
Definition LockStatus (now : time) (l : ThreatIntelLock) : bool * time * string * duration :=
  if lk_active l then (true, lk_acquiredAt l, lk_ownerID l, threatIntelLockTTL)
  else if negb (Time.IsZero (lk_persistedAt l)) && (Time.Sub now (lk_persistedAt l) <? threatIntelLockTTL)
  then (true, lk_persistedAt l, lk_ownerID l, threatIntelLockTTL - Time.Sub now (lk_persistedAt l))
  else (false, 0, "", 0).

(** ** The generation of one feed *)

Record FeedGenerationState := mkGen {
  g_ID : string; g_Name : string; g_Action : string; g_LastGoodItems : list string; g_LastGoodCount : Z;
  g_LastGoodGen : Z; g_LastGoodAt : time; g_LastAttemptAt : time; g_LastError : string; g_ConsecutiveFails : Z;
  g_Status : string; g_LastGoodFingerprint : string; g_ManifestVersion : Z; g_ManifestValidUntil : time;
  g_ManifestVerified : bool; g_ManifestAuthenticity : string;
}.
Definition eta_g (g : FeedGenerationState) : FeedGenerationState :=
  mkGen (g_ID g) (g_Name g) (g_Action g) (g_LastGoodItems g) (g_LastGoodCount g) (g_LastGoodGen g) (g_LastGoodAt g)
    (g_LastAttemptAt g) (g_LastError g) (g_ConsecutiveFails g) (g_Status g) (g_LastGoodFingerprint g)
    (g_ManifestVersion g) (g_ManifestValidUntil g) (g_ManifestVerified g) (g_ManifestAuthenticity g).
Definition set_name : string -> FeedGenerationState -> FeedGenerationState := ltac:(setter eta_g g_Name).
Definition set_action : string -> FeedGenerationState -> FeedGenerationState := ltac:(setter eta_g g_Action).
Definition set_attempt : time -> FeedGenerationState -> FeedGenerationState := ltac:(setter eta_g g_LastAttemptAt).
Definition set_error : string -> FeedGenerationState -> FeedGenerationState := ltac:(setter eta_g g_LastError).
Definition set_fails : Z -> FeedGenerationState -> FeedGenerationState := ltac:(setter eta_g g_ConsecutiveFails).
Definition set_status : string -> FeedGenerationState -> FeedGenerationState := ltac:(setter eta_g g_Status).
Definition set_items : list string -> FeedGenerationState -> FeedGenerationState := ltac:(setter eta_g g_LastGoodItems).

Definition new_gen (id name action : string) : FeedGenerationState :=
  mkGen id name action [] 0 0 0 0 "" 0 "" "" 0 0 false "".

(** [computeFeedStatus] *)
Definition minutes (n : Z) : duration := i64 (n * Time.Minute).
Definition aged (at_ now : time) (limit : Z) : bool :=
  negb (Time.IsZero at_) && (0 <? limit) && (minutes limit <=? Time.Sub now at_).
Definition computeFeedStatus (now : time) (g : FeedGenerationState) (s : ThreatIntelFabricSettings) : string :=
  if Time.IsZero (g_LastAttemptAt g) then "NEVER_SYNCED"
  else if aged (g_LastGoodAt g) now (fa_StaleCriticalMinutes s) then "CRITICAL"
  else if aged (g_LastGoodAt g) now (fa_StaleWarningMinutes s) then "STALE"
  else if negb (Time.IsZero (g_ManifestValidUntil g)) && Time.After now (g_ManifestValidUntil g) then "CRITICAL"
  else if negb (bool_decide (g_LastError g = "")) || (0 <? g_ConsecutiveFails g)
  then (if 0 <? g_LastGoodGen g then "STALE" else "ERROR")
  else "OK".

(** [checkManifestRollback] *)
Definition checkManifestRollback (g : FeedGenerationState) (c : threatFeedCertificate) : error :=
  if ct_Version c <? g_ManifestVersion g
  then errors_New "signed feed manifest rollback rejected: generation version is older than the last accepted version"
  else if (ct_Version c =? g_ManifestVersion g) && negb (bool_decide (g_LastGoodFingerprint g = "")) &&
          negb (EqualFold (g_LastGoodFingerprint g) (me_ItemsSHA256 (ct_Entry c)))
  then errors_New "signed feed manifest version reuse with different content rejected"
  else None.

(** [shouldAdvanceGeneration] *)
Definition shouldAdvanceGeneration (g : FeedGenerationState) (digest : string) (p : ThreatIntelValidationSettings) : bool :=
  negb (bool_decide (va_GenerationPolicy p = "stable") && (0 <? g_LastGoodGen g) &&
        bool_decide (digest = g_LastGoodFingerprint g)).

(** ** Composition of the published generations *)

(** The position of every configured feed; a later entry wins. *)
Definition rank_of (feeds : list ThreatFeedSourceSettings) : gmap string nat :=
  fold_left (fun m p => <[fd_ID p.2 := p.1]> m) (imap pair feeds) ∅.

(** The order of [sort.Slice]. *)
Definition id_before (rank : gmap string nat) (a b : string) : Prop :=
  match rank !! a, rank !! b with
  | Some x, Some y => (x < y)%nat \/ (x = y /\ String.le a b)
  | Some _, None => True
  | None, Some _ => False
  | None, None => String.le a b
  end.
#[export] Instance id_before_dec rank : RelDecision (id_before rank).
Proof. intros a b. unfold id_before. destruct (rank !! a), (rank !! b); apply _. Defined.

(** The loops over the items of one feed: they stop at the budget. *)
Definition spent (budget : Z) (s : gset string) : bool := (0 <? budget) && (budget <=? Z.of_nat (size s)).
Fixpoint fill (budget : Z) (items : list string) (s : gset string) : gset string :=
  match items with
  | [] => s
  | i :: rest => if spent budget s then s else fill budget rest ({[i]} ∪ s)
  end.
Fixpoint fill_block (budget : Z) (items : list string) (block corr : gset string) : gset string * gset string :=
  match items with
  | [] => (block, corr)
  | i :: rest =>
      if spent budget block then (block, corr) else fill_block budget rest ({[i]} ∪ block) ({[i]} ∪ corr)
  end.

Record generations := mkGenerations { gn_block : gset string; gn_corr : gset string; gn_annot : gset string }.
Definition publish_feed (budget : Z) (acc : generations) (g : FeedGenerationState) : generations :=
  if bool_decide (g_Action g = FeedActionBlock) then
    let '(block, corr) := fill_block budget (g_LastGoodItems g) (gn_block acc) (gn_corr acc) in
    mkGenerations block corr (gn_annot acc)
  else if bool_decide (g_Action g = FeedActionCorrelateOnly) then
    mkGenerations (gn_block acc) (fill budget (g_LastGoodItems g) (gn_corr acc)) (gn_annot acc)
  else if bool_decide (g_Action g = FeedActionAnnotateOnly) then
    mkGenerations (gn_block acc) (gn_corr acc) (fill budget (g_LastGoodItems g) (gn_annot acc))
  else acc.

(** [composeGenerationsLocked], where the ids come in the order [ids]. *)
Definition compose_in (s : ThreatIntelFabricSettings) (states : gmap string FeedGenerationState) (ids : list string)
    : generations :=
  fold_left (publish_feed (fa_MaxTotalEntries s))
    (omap (fun id => states !! id) (merge_sort (id_before (rank_of (fa_Feeds s))) ids)) (mkGenerations ∅ ∅ ∅).
Definition composeGenerationsLocked (s : ThreatIntelFabricSettings) (states : gmap string FeedGenerationState)
    : list string * list string * list string :=
  let acc := compose_in s states (map_to_list states).*1 in
  (sort_Strings (elements (gn_block acc)), sort_Strings (elements (gn_corr acc)), sort_Strings (elements (gn_annot acc))).

(** ** The manager *)

Definition kernelApplyNotApplied : string := "NOT_APPLIED".
Definition kernelApplyApplied : string := "APPLIED".
Definition kernelApplyError : string := "ERROR".
Definition kernelApplyDivergent : string := "DIVERGENT".
Definition threatIntelStateSchema : string := "vgt-gedefense-threat-intel-state-v3".

(** The key pair of the local signing pipeline. *)
Record feedSigningKeyPair := mkKeyPair { kp_private : string; kp_public : string }.

(** The times of the synchronisation. *)
Record syncTimes := mkTimes {
  t_lastAttemptAt : time; t_lastSuccessfulSyncAt : time; t_lastPartialSuccessfulSyncAt : time;
  t_lastFullySuccessfulSyncAt : time;
}.
(** The outcome of the last kernel update. *)
Record kernelReport := mkReport {
  kr_lastAt : time; kr_status : string; kr_generation : Z; kr_added : Z; kr_deleted : Z; kr_error : string;
}.

Record FeedManager := mkManager {
  fm_cfg : FeedConfig; fm_live : threatIntelSnapshot; fm_statePath : string; fm_lock : ThreatIntelLock;
  fm_feedStates : gmap string FeedGenerationState;
  fm_blockIndex : ThreatIndex; fm_correlateIndex : ThreatIndex; fm_annotateIndex : ThreatIndex;
  fm_applied : gset string; fm_generation : Z; fm_fingerprint : string; fm_overallStatus : string;
  fm_times : syncTimes; fm_kernel : kernelReport; fm_signingKeys : list string;
  fm_feedSigningKey : option feedSigningKeyPair; fm_feedSigningErr : error; fm_localManifestVersion : Z;
}.
Definition eta_fm (m : FeedManager) : FeedManager :=
  mkManager (fm_cfg m) (fm_live m) (fm_statePath m) (fm_lock m) (fm_feedStates m) (fm_blockIndex m) (fm_correlateIndex m)
    (fm_annotateIndex m) (fm_applied m) (fm_generation m) (fm_fingerprint m) (fm_overallStatus m) (fm_times m) (fm_kernel m)
    (fm_signingKeys m) (fm_feedSigningKey m) (fm_feedSigningErr m) (fm_localManifestVersion m).
Definition set_cfg : FeedConfig -> FeedManager -> FeedManager := ltac:(setter eta_fm fm_cfg).
Definition set_live : threatIntelSnapshot -> FeedManager -> FeedManager := ltac:(setter eta_fm fm_live).
Definition set_lock : ThreatIntelLock -> FeedManager -> FeedManager := ltac:(setter eta_fm fm_lock).
Definition set_states : gmap string FeedGenerationState -> FeedManager -> FeedManager := ltac:(setter eta_fm fm_feedStates).
Definition set_blockIndex : ThreatIndex -> FeedManager -> FeedManager := ltac:(setter eta_fm fm_blockIndex).
Definition set_corrIndex : ThreatIndex -> FeedManager -> FeedManager := ltac:(setter eta_fm fm_correlateIndex).
Definition set_annotIndex : ThreatIndex -> FeedManager -> FeedManager := ltac:(setter eta_fm fm_annotateIndex).
Definition set_applied : gset string -> FeedManager -> FeedManager := ltac:(setter eta_fm fm_applied).
Definition set_generation : Z -> FeedManager -> FeedManager := ltac:(setter eta_fm fm_generation).
Definition set_fingerprint : string -> FeedManager -> FeedManager := ltac:(setter eta_fm fm_fingerprint).
Definition set_overall : string -> FeedManager -> FeedManager := ltac:(setter eta_fm fm_overallStatus).
Definition set_times : syncTimes -> FeedManager -> FeedManager := ltac:(setter eta_fm fm_times).
Definition set_report : kernelReport -> FeedManager -> FeedManager := ltac:(setter eta_fm fm_kernel).
Definition set_signingKey : option feedSigningKeyPair -> FeedManager -> FeedManager := ltac:(setter eta_fm fm_feedSigningKey).
Definition set_signingErr : error -> FeedManager -> FeedManager := ltac:(setter eta_fm fm_feedSigningErr).
Definition set_localVersion : Z -> FeedManager -> FeedManager := ltac:(setter eta_fm fm_localManifestVersion).

Definition activeSettings (m : FeedManager) : ThreatIntelFabricSettings := sn_settings (fm_live m).

(** [signingConfig] *)
Definition signingConfig (m : FeedManager) : signingPolicy :=
  let c := fm_cfg m in
  let path := TrimSpace (fc_ManifestPath c) in
  let maxAge := minutes (fc_ManifestMaxAgeMinutes c) in
  mkSigningPolicy (fc_RequireSignedManifest c) (fm_signingKeys m)
    (if bool_decide (path = "") then Clean (Dir (fm_statePath m) +:+ "/" +:+ "threat-feed-manifest.json") else path)
    (if maxAge <=? 0 then 24 * Time.Hour else maxAge).

(** [KernelApplyStatus], [OverallStatus], [KernelDivergent] *)
Definition KernelApplyStatus (m : FeedManager) : string :=
  if bool_decide (kr_status (fm_kernel m) = "") then kernelApplyNotApplied else kr_status (fm_kernel m).
Definition OverallStatus (m : FeedManager) : string :=
  if negb (bool_decide (fm_overallStatus m = "")) then fm_overallStatus m
  else if Time.IsZero (t_lastAttemptAt (fm_times m)) then "NEVER_SYNCED" else "OK".
Definition KernelDivergent (m : FeedManager) : bool := bool_decide (kr_status (fm_kernel m) = kernelApplyDivergent).

(** [SnapshotFeedStates]: without the raw items, by identifier. *)
Definition gen_before (a b : FeedGenerationState) : Prop := String.le (g_ID a) (g_ID b).
#[export] Instance gen_before_dec : RelDecision gen_before.
Proof. intros a b. unfold gen_before. apply _. Defined.
Definition SnapshotFeedStates (now : time) (m : FeedManager) : list FeedGenerationState :=
  merge_sort gen_before
    (map (fun g => set_status (computeFeedStatus now g (activeSettings m)) (set_items [] g)) (map_to_list (fm_feedStates m)).*2).

(** [ModuleDetails] *)
Record ThreatIntelModuleDetails := mkDetails {
  dt_ActiveRevision : Z; dt_EnabledSources : Z; dt_DisabledSources : Z; dt_TotalVectors : Z; dt_BlockVectors : Z;
  dt_CorrelateVectors : Z; dt_AnnotateVectors : Z; dt_KernelStatus : string; dt_KernelDivergent : bool;
  dt_LastKernelError : string; dt_Feeds : list FeedGenerationState;
}.
Definition ModuleDetails (now : time) (m : FeedManager) : ThreatIntelModuleDetails :=
  let enabled := Z.of_nat (length (List.filter fd_Enabled (fa_Feeds (activeSettings m)))) in
  let b := ti_count (fm_blockIndex m) in
  let c := ti_count (fm_correlateIndex m) in
  let a := ti_count (fm_annotateIndex m) in
  mkDetails (sn_revision (fm_live m)) enabled (Z.of_nat (length (fa_Feeds (activeSettings m))) - enabled) (b + c + a) b c a
    (KernelApplyStatus m) (KernelDivergent m) (kr_error (fm_kernel m)) (SnapshotFeedStates now m).

(** [Telemetry] *)
Record ThreatIntelTelemetry := mkTelemetry {
  te_OverallStatus : string; te_Times : syncTimes; te_Kernel : kernelReport; te_Generation : Z; te_Fingerprint : string;
  te_BlockVectors : Z; te_CorrelateVectors : Z; te_AnnotateVectors : Z; te_TotalVectors : Z; te_Feeds : list FeedGenerationState;
}.
Definition Telemetry (now : time) (m : FeedManager) : ThreatIntelTelemetry :=
  let t := fm_times m in
  let k := fm_kernel m in
  let b := ti_count (fm_blockIndex m) in
  let c := ti_count (fm_correlateIndex m) in
  let a := ti_count (fm_annotateIndex m) in
  let status :=
    if negb (bool_decide (fm_overallStatus m = "")) then fm_overallStatus m
    else if Time.IsZero (t_lastAttemptAt t) then "NEVER_SYNCED"
    else if negb (Time.IsZero (t_lastFullySuccessfulSyncAt t)) then "OK" else "PARTIAL" in
  mkTelemetry status t (mkReport (kr_lastAt k) (KernelApplyStatus m) (kr_generation k) (kr_added k) (kr_deleted k) (kr_error k))
    (fm_generation m) (fm_fingerprint m) b c a (b + c + a) (SnapshotFeedStates now m).

(** ** The persisted state *)

Record ThreatIntelPersistentState := mkPersistent {
  tp_Schema : string; tp_OverallStatus : string; tp_Times : syncTimes; tp_Kernel : kernelReport; tp_Generation : Z;
  tp_Fingerprint : string; tp_Feeds : gmap string FeedGenerationState;
}.

Section Persist.
Context {X : Type} `{C : Crypto} `{JS : JSONDoc ThreatIntelPersistentState}.
Implicit Types (w : world X).

(** [savePersistentStateLocked]; [json.MarshalIndent] is [json_Marshal]. *)
Definition savePersistentStateLocked (m : FeedManager) w : error * world X :=
  let doc := mkPersistent threatIntelStateSchema (fm_overallStatus m) (fm_times m) (fm_kernel m) (fm_generation m)
               (fm_fingerprint m) (fm_feedStates m) in
  match json_Marshal doc with
  | inl e => (Some e, w)
  | inr data =>
      match os_MkdirAll w with
      | (Some e, w1) => (Some e, w1)
      | (None, w1) => atomicWriteFile (fm_statePath m) data 384 w1
      end
  end.
(** The calls discard the error. *)
Definition save (m : FeedManager) w : world X := (savePersistentStateLocked m w).2.

(** What a persisted feed replaces of the one in memory. *)
Definition restore_gen (now : time) (s : ThreatIntelFabricSettings) (existing stored : FeedGenerationState) : FeedGenerationState :=
  let g := mkGen (g_ID existing) (g_Name existing) (g_Action existing) (g_LastGoodItems stored)
    (Z.of_nat (length (g_LastGoodItems stored))) (g_LastGoodGen stored) (g_LastGoodAt stored) (g_LastAttemptAt stored)
    (g_LastError stored) (g_ConsecutiveFails stored) (g_Status existing) (g_LastGoodFingerprint stored)
    (g_ManifestVersion stored) (g_ManifestValidUntil stored) (g_ManifestVerified stored) (g_ManifestAuthenticity stored) in
  set_status (computeFeedStatus now g s) g.
Definition migrate_times (t : syncTimes) : syncTimes :=
  let success := t_lastSuccessfulSyncAt t in
  mkTimes (if Time.IsZero (t_lastAttemptAt t) then success else t_lastAttemptAt t) success
    (t_lastPartialSuccessfulSyncAt t)
    (if Time.IsZero (t_lastFullySuccessfulSyncAt t) then success else t_lastFullySuccessfulSyncAt t).
Definition migrate (d : ThreatIntelPersistentState) : ThreatIntelPersistentState :=
  if bool_decide (tp_Schema d = "vgt-gedefense-threat-intel-state-v1") then
    mkPersistent (tp_Schema d)
      (if bool_decide (tp_OverallStatus d = "")
       then (if Time.IsZero (t_lastSuccessfulSyncAt (tp_Times d)) then "NEVER_SYNCED" else "OK") else tp_OverallStatus d)
      (migrate_times (tp_Times d)) (tp_Kernel d) (tp_Generation d) (tp_Fingerprint d) (tp_Feeds d)
  else d.
Definition known_schema (s : string) : bool :=
  bool_decide (s ∈ ["vgt-gedefense-threat-intel-state-v1"; "vgt-gedefense-threat-intel-state-v2"; threatIntelStateSchema]).
Definition legacy_status (s : string) : string :=
  if bool_decide (s = "OK") then kernelApplyApplied else if bool_decide (s = "") then kernelApplyNotApplied else s.

(** The three indexes replaced by a composition. *)
Definition publish_indexes (block corr annot : list string) (m : FeedManager) : FeedManager :=
  set_annotIndex (Replace annot (fm_annotateIndex m))
    (set_corrIndex (Replace corr (fm_correlateIndex m)) (set_blockIndex (Replace block (fm_blockIndex m)) m)).

(** The loop over the persisted feeds: a feed this version does not know is
    dropped. *)
Fixpoint restore_feeds (s : ThreatIntelFabricSettings) (stored : list (string * FeedGenerationState))
    (states : gmap string FeedGenerationState) w : gmap string FeedGenerationState * world X :=
  match stored with
  | [] => (states, w)
  | (id, g) :: rest =>
      match states !! id with
      | None => restore_feeds s rest states w
      | Some existing =>
          let '(now, w) := time_Now w in restore_feeds s rest (<[id := restore_gen now s existing g]> states) w
      end
  end.

(** [loadPersistentState] *)
Definition restore (d : ThreatIntelPersistentState) (m : FeedManager) w : FeedManager * world X :=
  let k := tp_Kernel d in
  let '(states, w) := restore_feeds (activeSettings m) (map_to_list (tp_Feeds d)) (fm_feedStates m) w in
  let m := set_times (tp_Times d) (set_overall (tp_OverallStatus d) (set_generation (tp_Generation d)
    (set_fingerprint (tp_Fingerprint d) (set_states states
      (set_report (mkReport (kr_lastAt k) (legacy_status (kr_status k)) (kr_generation k) (kr_added k) (kr_deleted k)
        (kr_error k)) m))))) in
  let '(block, corr, annot) := composeGenerationsLocked (activeSettings m) (fm_feedStates m) in
  (publish_indexes block corr annot m, w).
Definition loadPersistentState (m : FeedManager) w : error * FeedManager * world X :=
  match os_ReadFile (fm_statePath m) w with
  | (inl e, w1) => (Some e, m, w1)
  | (inr data, w1) =>
      match json_Decode data with
      | inl e => (Some e, m, w1)
      | inr doc =>
          if negb (known_schema (tp_Schema doc)) then (errors_New "state schema mismatch", m, w1)
          else let '(m, w2) := restore (migrate doc) m w1 in (None, m, w2)
      end
  end.

(** [NewFeedManager]; [healed] is the key [selfHealFeedSigningPin] returned,
    which is asked for when no key is pinned. *)
Definition new_manager (cfg : FeedConfig) (dir : string) (healed : option string) : FeedManager :=
  let dir := if bool_decide (dir = "") then "/var/lib/vgt/gedefense" else dir in
  let keys := match parsePinnedFeedSigningKeys (fc_TrustedSigningKeys cfg) with inr ks => ks | inl _ => [] end in
  let keys := match keys, healed with [], Some k => [k] | _, _ => keys end in
  mkManager cfg (buildThreatIntelSnapshot (defaultThreatIntelFabricSettings cfg DefaultThreatFeedSources) 0)
    (Clean (dir +:+ "/threat-intel-state.json")) fresh_lock
    (fold_left (fun states src => <[fs_ID src := new_gen (fs_ID src) (fs_Name src) (fs_Action src)]> states)
       DefaultThreatFeedSources ∅)
    NewThreatIndex NewThreatIndex NewThreatIndex ∅ 0 no_items "NEVER_SYNCED" (mkTimes 0 0 0 0)
    (mkReport 0 kernelApplyNotApplied 0 0 0 "") keys None None 0.
Definition NewFeedManager (cfg : FeedConfig) (dir : string) (healed : option string) w : FeedManager * world X :=
  let '(_, m, w) := loadPersistentState (new_manager cfg dir healed) w in (m, w).
End Persist.
