(* ===== verification/FeedSigning.v ===== *)
(** * The local feed-signing pipeline

    src/control/feed_signing.go: the operator key, the snapshots of the raw
    downloads, the manifest signed over them, and the gate in front of the
    kernel. The directories above a path are not part of the world, so the
    symbolic links of the snapshot directory resolve to themselves; the
    snapshot directory is configured as an absolute path. The downloads of one
    round run in the order of the sources. *)

From Stdlib Require Import ZArith Lia Ascii String.
From stdpp Require Import base gmap strings list sorting.
From S2P Require Import Prelude.
From S2P Require Import GoLib.
From S2P Require Import Strconv.
From S2P Require Import Text.
From S2P Require Import World.
From S2P Require Import Storage.
From S2P Require Import Lines.
From S2P Require Import NetIP.
From S2P Require Import Evidence.
From S2P Require Import State.
From S2P Require Import L7Settings.
From S2P Require Import L7Decode.
From S2P Require Import L7Normalize.
From S2P Require Import ThreatIndex.
From S2P Require Import FeedSettings.
From S2P Require Import FeedFetch.
From S2P Require Import Feeds.

(** [validFeedSigningFeedID] *)
Definition id_byte (c : ascii) : bool :=
  in_range "a" "z" c || in_range "A" "Z" c || in_range "0" "9" c || Ascii.eqb c "-" || Ascii.eqb c "_" || Ascii.eqb c ".".
Definition validFeedSigningFeedID (id : string) : bool :=
  negb (bool_decide (id = "")) && (slen id <=? 64) && negb (HasPrefix id ".") && string_forallb id_byte id.

(** [validFeedSigningPrivateKeyMode] *)
Definition validFeedSigningPrivateKeyMode (perm : Z) : bool :=
  negb (Z.land perm 256 =? 0) && (Z.land perm 7 =? 0) && (Z.land perm 16 =? 0).

(** [feedSigningFingerprint] *)
Definition feedSigningFingerprint (public : string) : string :=
  if negb (slen public =? 32) then "ed25519:invalid"
  else "ed25519:" +:+ hex_EncodeToString (of_bytes (take 8 (bytes_of public))).

(** [nextLocalManifestVersion] *)
Definition nextLocalManifestVersion (m : FeedManager) : Z :=
  u64 (map_fold (fun _ g v => Z.max (g_ManifestVersion g) v) (fm_localManifestVersion m) (fm_feedStates m) + 1).

Record feedSigningSnapshotResult := mkSnapshotResult {
  sr_source : ThreatFeedSource; sr_raw : string; sr_items : list string; sr_reused : bool;
}.

Section Signing.
Context {X : Type} `{U : Unicode} `{C : Crypto} `{ED : Evidence.Ed25519} `{UP : URLParser} `{JT : JSONTokens}
  `{JM : JSONDoc threatFeedManifestMessage} `{JD : JSONDoc threatFeedManifestDocument} `{TR : !FeedTransport X}.
Implicit Types (w : world X).

(** [loadFeedSigningKeyPair] *)
Definition pair_of (private : string) : feedSigningKeyPair := mkKeyPair private (ed_Public private).
Definition loadFeedSigningKeyPair (path : string) w : (goerror + feedSigningKeyPair) * world X :=
  if negb (IsAbs (TrimSpace path)) then (inl (ErrText "feed signing key file must be an absolute path"), w)
  else
    match os_Lstat path w with
    | (inl e, w1) => (inl (ErrWrap "feed signing key file is not readable" e), w1)
    | (inr info, w1) =>
        if decide (i_kind info <> Regular) then (inl (ErrText "feed signing key must be a regular non-symlink file"), w1)
        else if (slen (i_data info) <=? 0) || (4096 <? slen (i_data info))
        then (inl (ErrText "feed signing key size rejected"), w1)
        else if negb (validFeedSigningPrivateKeyMode (i_perm info))
        then (inl (ErrText "feed signing key must be owner-readable and not group/other accessible (0600 or 0640)"), w1)
        else
          match os_ReadFile path w1 with
          | (inl e, w2) => (inl (ErrWrap "read feed signing key" e), w2)
          | (inr raw, w2) =>
              if slen raw =? 32 then (inr (pair_of (ed_NewKeyFromSeed raw)), w2)
              else if slen raw =? 64 then (inr (pair_of raw), w2)
              else (inl (ErrText "feed signing key must contain a 32-byte seed or a 64-byte private key"), w2)
          end
    end.

(** [ensureLocalSigningKey]: loaded once, and a failure sticks. *)
Definition ensureLocalSigningKey (keyFile : string) (m : FeedManager) w : error * FeedManager * world X :=
  match fm_feedSigningKey m, fm_feedSigningErr m with
  | None, None =>
      match loadFeedSigningKeyPair keyFile w with
      | (inl e, w1) =>
          let err := Some (ErrWrap "feeds.local_signing trust anchor unavailable" e) in (err, set_signingErr err m, w1)
      | (inr key, w1) => (None, set_signingKey (Some key) m, w1)
      end
  | _, err => (err, m, w)
  end.

(** [localSigningKeyPinned] and [localSigningApplyGate] test the loaded key
    alike; they differ in their messages. *)
Definition pinned_error (missing refused : string) (m : FeedManager) : error :=
  match fm_feedSigningErr m, fm_feedSigningKey m with
  | Some e, _ => Some e
  | None, None => errors_New missing
  | None, Some key =>
      if bool_decide (kp_public key ∈ fm_signingKeys m) then None
      else errors_New ("feeds.local_signing key " +:+ feedSigningFingerprint (kp_public key) +:+
             " is not pinned in feeds.trusted_signing_keys; " +:+ refused)
  end.
Definition localSigningKeyPinned : FeedManager -> error :=
  pinned_error "feed signing key is not loaded" "kernel apply and feed acceptance would fail closed".
Definition localSigningApplyGate (m : FeedManager) : error :=
  if negb (fc_LocalSigning (fm_cfg m)) then None
  else pinned_error "feeds.local_signing is enabled but the operator signing key was never loaded" "kernel apply refused" m.

(** ** Snapshots *)

(** [feedSigningSnapshotDir], [resolveFeedSigningSnapshotPath] *)
Definition resolveFeedSigningSnapshotPath (snapshotDir feedID : string) w : (goerror + string) * world X :=
  if negb (validFeedSigningFeedID feedID)
  then (inl (ErrText ("feed identifier " +:+ feedID +:+ " is not a safe snapshot file name")), w)
  else
    let trimmed := TrimSpace snapshotDir in
    if bool_decide (trimmed = "") then (inl (ErrText "feeds.snapshot_dir must be configured for local feed signing"), w)
    else
      let absDir := Clean trimmed in
      match os_Lstat absDir w with
      | (inr info, w1) =>
          if decide (i_kind info <> Directory)
          then (inl (ErrText "feeds.snapshot_dir must be a real directory, not a symlink"), w1)
          else (inr (absDir +:+ "/raw/" +:+ feedID), w1)
      | (inl e, w1) =>
          if is_not_exist e then (inr (absDir +:+ "/raw/" +:+ feedID), w1)
          else (inl (ErrWrap "inspect feeds.snapshot_dir" e), w1)
      end.

(** [writeFeedSnapshot] *)
Definition writeFeedSnapshot (snapshotDir feedID raw : string) w : error * world X :=
  match resolveFeedSigningSnapshotPath snapshotDir feedID w with
  | (inl e, w1) => (Some e, w1)
  | (inr path, w1) =>
      match os_MkdirAll w1 with
      | (Some e, w2) => (Some (ErrWrap "create feed snapshot directory" e), w2)
      | (None, w2) =>
          match World.sys w2 with
          | (Some e, w3) => (Some (ErrWrap "restrict feed snapshot directory" e), w3)
          | (None, w3) =>
              let '(err, w4) := atomicWriteFile path raw 384 w3 in
              (ErrWrap ("write feed snapshot " +:+ feedID) <$> err, w4)
          end
      end
  end.

(** [readFeedSnapshot] *)
Definition readFeedSnapshot (snapshotDir feedID : string) (maxBytes : Z) w : (goerror + string) * world X :=
  if maxBytes <=? 0 then (inl (ErrText "feed snapshot size bound is not configured"), w)
  else
    match resolveFeedSigningSnapshotPath snapshotDir feedID w with
    | (inl e, w1) => (inl e, w1)
    | (inr path, w1) =>
        match os_Lstat path w1 with
        | (inl e, w2) => (inl (ErrWrap "feed snapshot is missing; feeds fail closed in local signing mode" e), w2)
        | (inr info, w2) =>
            if decide (i_kind info <> Regular) then (inl (ErrText "feed snapshot must be a regular non-symlink file"), w2)
            else if (slen (i_data info) <=? 0) || (maxBytes <? slen (i_data info))
            then (inl (ErrText "feed snapshot size rejected"), w2)
            else
              match read_limited path (maxBytes + 1) w2 with
              | (inl e, w3) => (inl (ErrWrap "feed snapshot read failed" e), w3)
              | (inr raw, w3) =>
                  if maxBytes <? slen raw then (inl (ErrText "feed snapshot exceeds the bounded size limit"), w3)
                  else (inr raw, w3)
              end
        end
    end.

(** ** The signed manifest over the snapshots *)

(** [feedSigningManifestEntryFor], [signFeedSigningManifest],
    [verifyFeedSigningManifest] *)
Definition feedSigningManifestEntryFor (src : ThreatFeedSource) (raw : string) (items : list string) (version : Z)
    (validUntil : time) : goerror + threatFeedManifestEntry :=
  if bool_decide (raw = "") then inl (ErrText "feed snapshot is empty; refusing to sign an empty feed")
  else if version =? 0 then inl (ErrText "feed manifest version must be greater than zero")
  else inr (mkManifestEntry (fs_ID src) (fs_URL src) (hex_EncodeToString (sha256_Sum raw)) (computeFingerprint items)
              version (fs_Action src) validUntil).
Definition signFeedSigningManifest (d : threatFeedManifestDocument) (key : feedSigningKeyPair)
    : goerror + threatFeedManifestDocument :=
  if negb (slen (kp_private key) =? 64) then inl (ErrText "feed signing key is not loaded")
  else
    let unsigned := mkManifest (md_Schema d) (md_GeneratedAt d) (md_ValidUntil d) (merge_sort entry_before (md_Feeds d)) "" in
    inr (mkManifest (md_Schema d) (md_GeneratedAt d) (md_ValidUntil d) (md_Feeds unsigned)
          (base64_EncodeToString (ed_Sign (kp_private key) (threatFeedManifestMessageFor unsigned)))).
Definition verifyFeedSigningManifest (d : threatFeedManifestDocument) (keys : list string) : error :=
  match decode_base64 (TrimSpace (md_Signature d)) with
  | Some signature =>
      if negb (slen signature =? 64) then errors_New "feed manifest signature encoding rejected"
      else if existsb (fun key => ed_Verify key (threatFeedManifestMessageFor d) signature) keys then None
      else errors_New "feed manifest signature verification failed"
  | None => errors_New "feed manifest signature encoding rejected"
  end.

(** [resolveSignedSnapshotSource]: a fresh download, or else the bytes of the
    snapshot directory. *)
Definition fresh_items (src : ThreatFeedSource) (sn : threatIntelSnapshot) (raw : string) : option (list string) :=
  if slen raw <=? (feedBounds sn src).1.2 then
    match parseFeedRaw src raw "" (fa_Validation (sn_settings sn)) (feedBounds sn src).1.1 with
    | inr (_ :: _ as items) => Some items
    | _ => None
    end
  else None.
Definition reuse_snapshot (snapshotDir : string) (src : ThreatFeedSource) (sn : threatIntelSnapshot)
    (downloadErr : option feedError) w : (goerror + feedSigningSnapshotResult) * world X :=
  let '(maxEntries, maxBytes, _) := feedBounds sn src in
  match readFeedSnapshot snapshotDir (fs_ID src) maxBytes w with
  | (inl e, w1) =>
      (inl (match downloadErr with
            | Some d => ErrText (error_text (feed_cause d) +:+ " (no reusable signed snapshot: " +:+ error_text e +:+ ")")
            | None => ErrWrap "feed produced no indicators and no reusable signed snapshot exists" e
            end), w1)
  | (inr existing, w1) =>
      match parseFeedRaw src existing "" (fa_Validation (sn_settings sn)) maxEntries with
      | inl e => (inl (ErrWrap "reused feed snapshot does not parse" (feed_cause e)), w1)
      | inr [] => (inl (ErrText "feed produced no indicators and the reusable snapshot is empty"), w1)
      | inr items => (inr (mkSnapshotResult src existing items true), w1)
      end
  end.
Definition resolveSignedSnapshotSource (snapshotDir : string) (sn : threatIntelSnapshot) (src : ThreatFeedSource) w
    : (goerror + feedSigningSnapshotResult) * world X :=
  match downloadFeedRaw src sn w with
  | (inl e, w1) => reuse_snapshot snapshotDir src sn (Some e) w1
  | (inr raw, w1) =>
      match fresh_items src sn raw with
      | Some items => (inr (mkSnapshotResult src raw items false), w1)
      | None => reuse_snapshot snapshotDir src sn None w1
      end
  end.

(** [downloadSourcesForSignedSnapshot], and the failures of the round. *)
Fixpoint resolve_all (snapshotDir : string) (sn : threatIntelSnapshot) (sources : list ThreatFeedSource) w
    : list string * list feedSigningSnapshotResult * world X :=
  match sources with
  | [] => ([], [], w)
  | src :: rest =>
      let '(r, w1) := resolveSignedSnapshotSource snapshotDir sn src w in
      let '(failures, results, w2) := resolve_all snapshotDir sn rest w1 in
      match r with
      | inl e => ((fs_ID src +:+ ": " +:+ error_text e) :: failures, results, w2)
      | inr result => (failures, result :: results, w2)
      end
  end.

Fixpoint build_entries (results : list feedSigningSnapshotResult) (version : Z) (validUntil : time)
    : goerror + list threatFeedManifestEntry :=
  match results with
  | [] => inr []
  | r :: rest =>
      match feedSigningManifestEntryFor (sr_source r) (sr_raw r) (sr_items r) version validUntil with
      | inl e => inl (ErrWrap ("build signed feed manifest entry for " +:+ fs_ID (sr_source r)) e)
      | inr entry => ok_map (cons entry) (build_entries rest version validUntil)
      end
  end.
Fixpoint write_snapshots (snapshotDir : string) (results : list feedSigningSnapshotResult) w : error * world X :=
  match results with
  | [] => (None, w)
  | r :: rest =>
      match writeFeedSnapshot snapshotDir (fs_ID (sr_source r)) (sr_raw r) w with
      | (Some e, w1) => (Some (ErrWrap ("persist feed snapshot for " +:+ fs_ID (sr_source r)) e), w1)
      | (None, w1) => write_snapshots snapshotDir rest w1
      end
  end.

(** The manifest is built, checked and signed in memory, then the snapshots
    are written, then the manifest. *)
Definition signed_document (m : FeedManager) (key : feedSigningKeyPair) (results : list feedSigningSnapshotResult)
    (version : Z) (generatedAt : time) : goerror + threatFeedManifestDocument :=
  let maxAge := sg_maxAge (signingConfig m) in
  let validUntil := Time.Add generatedAt maxAge in
  match build_entries results version validUntil with
  | inl e => inl e
  | inr entries =>
      let document := mkManifest threatFeedManifestSchema generatedAt validUntil (merge_sort entry_before entries) "" in
      match validateSignedFeedManifest document generatedAt maxAge with
      | Some e => inl (ErrWrap "built feed manifest failed validation" e)
      | None =>
          match signFeedSigningManifest document key with
          | inl e => inl (ErrWrap "sign feed manifest" e)
          | inr signed =>
              match verifyFeedSigningManifest signed (fm_signingKeys m) with
              | Some e => inl (ErrWrap "signed feed manifest does not verify with the pinned key" e)
              | None => inr signed
              end
          end
      end
  end.
Definition publish_signed (m : FeedManager) (results : list feedSigningSnapshotResult) (signed : threatFeedManifestDocument) w
    : error * world X :=
  match write_snapshots (TrimSpace (fc_SnapshotDir (fm_cfg m))) results w with
  | (Some e, w1) => (Some e, w1)
  | (None, w1) =>
      match json_Marshal signed with
      | inl e => (Some (ErrWrap "encode signed feed manifest" e), w1)
      | inr encoded =>
          match os_MkdirAll w1 with
          | (Some e, w2) => (Some (ErrWrap "create feed manifest directory" e), w2)
          | (None, w2) =>
              let '(err, w3) := atomicWriteFile (sg_manifestPath (signingConfig m)) encoded 384 w2 in
              (ErrWrap "write signed feed manifest" <$> err, w3)
          end
      end
  end.

(** The refusals in front of the downloads. *)
Definition prepare_refusal (m : FeedManager) : error :=
  first_error
    [(negb (fc_RequireSignedManifest (fm_cfg m)), "feeds.local_signing requires feeds.require_signed_manifest=true");
     (bool_decide (fm_signingKeys m = []), "feeds.local_signing requires at least one pinned feeds.trusted_signing_keys entry");
     (bool_decide (sg_manifestPath (signingConfig m) = ""), "feeds.local_signing requires feeds.manifest_path")].

(** [prepareLocalSignedSnapshots] *)
Definition prepareLocalSignedSnapshots (sn : threatIntelSnapshot) (m : FeedManager) w : error * FeedManager * world X :=
  if negb (fc_LocalSigning (fm_cfg m)) then (None, m, w)
  else
  match prepare_refusal m with
  | Some e => (Some e, m, w)
  | None =>
  let '(err, m, w) := ensureLocalSigningKey (TrimSpace (fc_SigningKeyFile (fm_cfg m))) m w in
  match err, fm_feedSigningKey m with
  | Some e, _ => (Some (ErrWrap "local feed signing trust anchor unavailable" e), m, w)
  | None, None => (errors_New "local feed signing trust anchor is not loaded", m, w)
  | None, Some key =>
  match localSigningKeyPinned m with
  | Some e => (Some (ErrWrap "local feed signing trust anchor is not pinned" e), m, w)
  | None =>
  match orderedSources sn with
  | [] => (None, m, w)
  | sources =>
  let '(failures, results, w) := resolve_all (TrimSpace (fc_SnapshotDir (fm_cfg m))) sn sources w in
  if negb (bool_decide (failures = []))
  then (errors_New ("local feed snapshot fetch failed; no signed manifest was produced and no feed is promoted (feeds fail closed): "
          +:+ join_with "; " (sort_Strings failures)), m, w)
  else
    let version := nextLocalManifestVersion m in
    let '(generatedAt, w) := time_Now w in
    match signed_document m key results version generatedAt with
    | inl e => (Some e, m, w)
    | inr signed =>
        let '(err, w) := publish_signed m results signed w in
        match err with
        | Some e => (Some e, m, w)
        | None => (None, set_localVersion (Z.max version (fm_localManifestVersion m)) m, w)
        end
    end
  end end end end.

(** [fetchSourceFromSnapshot] *)
Definition fetchSourceFromSnapshot (m : FeedManager) (src : ThreatFeedSource) (sn : threatIntelSnapshot) w
    : (feedError + (list string * option threatFeedCertificate)) * world X :=
  match validateFeedSourceURL (fs_URL src) with
  | inl e => (inl (Final e), w)
  | inr _ =>
      let '(maxEntries, maxBytes, _) := feedBounds sn src in
      match readFeedSnapshot (TrimSpace (fc_SnapshotDir (fm_cfg m))) (fs_ID src) maxBytes w with
      | (inl e, w1) => (inl (Final e), w1)
      | (inr raw, w1) =>
          match verifyFeedArtifact (signingConfig m) src raw w1 with
          | (inl e, w2) => (inl (Final e), w2)
          | (inr None, w2) =>
              (inl (Final (ErrText "local feed signing is enabled but the signed manifest was not verified")), w2)
          | (inr (Some certificate), w2) =>
              match parseFeedRaw src raw "" (fa_Validation (sn_settings sn)) maxEntries with
              | inl e => (inl e, w2)
              | inr items =>
                  match verifyFeedItemsDigest (Some certificate) items with
                  | Some e => (inl (Final e), w2)
                  | None => (inr (items, Some certificate), w2)
                  end
              end
          end
      end
  end.

(** [fetchSource] *)
Definition fetchSource (m : FeedManager) (src : ThreatFeedSource) (sn : threatIntelSnapshot) w
    : (feedError + (list string * option threatFeedCertificate)) * world X :=
  if fc_LocalSigning (fm_cfg m) then fetchSourceFromSnapshot m src sn w
  else fetchSourceNetwork (signingConfig m) src sn w.
End Signing.
