(* ===== verification/FeedSync.v ===== *)
(** * Synchronisation and kernel application of the threat feeds

    src/control/feeds.go: one synchronisation (download, promotion of the
    generations, publication of the indexes), the transactional update of the
    kernel block map, and the settings that take effect at run time
    (src/control/threat_intel_fabric.go). The downloads run concurrently and
    their results arrive in any order: [promote_all] takes them in the order
    they arrive, and the downloads themselves, which change nothing of the
    manager, run in the order of the sources. The core may be absent. *)

From Stdlib Require Import ZArith Lia Ascii String.
From stdpp Require Import base gmap strings list sorting.
From S2P Require Import Prelude.
From S2P Require Import GoLib.
From S2P Require Import Strconv.
From S2P Require Import Text.
From S2P Require Import World.
From S2P Require Import Storage.
From S2P Require Import Lines.
From S2P Require Import NetIP.
From S2P Require Import Evidence.
From S2P Require Import State.
From S2P Require Import Release.
From S2P Require Import L7Settings.
From S2P Require Import L7Decode.
From S2P Require Import L7Normalize.
From S2P Require Import ThreatIndex.
From S2P Require Import FeedSettings.
From S2P Require Import FeedFetch.
From S2P Require Import Feeds.
From S2P Require Import FeedSigning.

Record fetchResult := mkResult {
  r_id : string; r_url : string; r_items : list string; r_cert : option threatFeedCertificate; r_err : option feedError;
}.

(** The counters and the errors of one synchronisation. *)
Record syncTally := mkTally { tl_success : Z; tl_fail : Z; tl_errs : gmap string goerror }.
Definition no_tally : syncTally := mkTally 0 0 ∅.

(** ** Promotion of one result *)

(** The first reason to keep the generation, as the code tests them. *)
Definition refusal (requireSigned : bool) (g : FeedGenerationState) (r : fetchResult) : error :=
  match r_err r with
  | Some e => Some (feed_cause e)
  | None =>
      if bool_decide (r_items r = []) then errors_New "empty download rejected: active generation preserved"
      else if requireSigned then
        match r_cert r with
        | None => errors_New "feed generation rejected: no verified signed manifest"
        | Some c => checkManifestRollback g c
        end
      else None
  end.

Definition failed_gen (now clock : time) (e : goerror) (s : ThreatIntelFabricSettings) (g : FeedGenerationState)
    : FeedGenerationState :=
  let g := set_fails (i64 (g_ConsecutiveFails g + 1)) (set_error (error_text e) (set_attempt now g)) in
  set_status (computeFeedStatus clock g s) g.

Section Promote.
Context `{C : Crypto}.

Definition promoted_gen (now : time) (s : ThreatIntelFabricSettings) (r : fetchResult) (g : FeedGenerationState)
    : FeedGenerationState :=
  let digest := computeFingerprint (r_items r) in
  mkGen (g_ID g) (g_Name g) (g_Action g) (r_items r) (Z.of_nat (length (r_items r)))
    (if shouldAdvanceGeneration g digest (fa_Validation s) then u64 (g_LastGoodGen g + 1) else g_LastGoodGen g)
    now now "" 0 "OK" digest
    (match r_cert r with Some c => ct_Version c | None => g_ManifestVersion g end)
    (match r_cert r with Some c => ct_ValidUntil c | None => 0 end)
    (match r_cert r with Some _ => true | None => false end)
    (match r_cert r with Some _ => "SIGNED" | None => "UNVERIFIED" end).

(** The feed of a result: a source without a state gets one. *)
Definition gen_for (sn : threatIntelSnapshot) (states : gmap string FeedGenerationState) (id : string) : FeedGenerationState :=
  match states !! id with
  | Some g => g
  | None =>
      match sn_byID sn !! id with
      | Some src => new_gen id (fs_Name src) (fs_Action src)
      | None => new_gen id id FeedActionCorrelateOnly
      end
  end.

Definition promote {X} (requireSigned : bool) (now : time) (sn : threatIntelSnapshot) (r : fetchResult)
    (st : gmap string FeedGenerationState * syncTally) (w : world X)
    : gmap string FeedGenerationState * syncTally * world X :=
  let '(states, tl) := st in
  let g := gen_for sn states (r_id r) in
  match refusal requireSigned g r with
  | Some e =>
      let '(clock, w) := time_Now w in
      (<[r_id r := failed_gen now clock e (sn_settings sn) g]> states,
       mkTally (tl_success tl) (tl_fail tl + 1) (<[r_url r := e]> (tl_errs tl)), w)
  | None =>
      (<[r_id r := promoted_gen now (sn_settings sn) r g]> states, mkTally (tl_success tl + 1) (tl_fail tl) (tl_errs tl), w)
  end.

(** The loop over the results, in the order they arrive. *)
Fixpoint promote_all {X} (requireSigned : bool) (now : time) (sn : threatIntelSnapshot) (rs : list fetchResult)
    (st : gmap string FeedGenerationState * syncTally) (w : world X)
    : gmap string FeedGenerationState * syncTally * world X :=
  match rs with
  | [] => (st, w)
  | r :: rest => let '(st, w) := promote requireSigned now sn r st w in promote_all requireSigned now sn rest st w
  end.
End Promote.

(** The status and the times after the loop. *)
Definition conclude (now : time) (sources : Z) (tl : syncTally) (m : FeedManager) : FeedManager :=
  let t := fm_times m in
  if (tl_fail tl =? 0) && (tl_success tl =? sources) then
    set_overall "OK" (set_times (mkTimes (t_lastAttemptAt t) now (t_lastPartialSuccessfulSyncAt t) now) m)
  else if (0 <? tl_success tl) && (0 <? tl_fail tl) then
    set_overall "PARTIAL" (set_times (mkTimes (t_lastAttemptAt t) now now (t_lastFullySuccessfulSyncAt t)) m)
  else if tl_success tl =? 0 then set_overall "ERROR" m
  else m.

Section Sync.
Context {X : Type} `{U : Unicode} `{C : Crypto} `{ED : Evidence.Ed25519} `{UP : URLParser} `{JT : JSONTokens}
  `{JM : JSONDoc threatFeedManifestMessage} `{JD : JSONDoc threatFeedManifestDocument}
  `{JS : JSONDoc ThreatIntelPersistentState} `{TR : !FeedTransport X} `{CC : !CoreClient X}.
Implicit Types (m : FeedManager) (w : world X).

(** The downloads of a synchronisation. *)
Fixpoint fetch_all m (sn : threatIntelSnapshot) (sources : list ThreatFeedSource) w : list fetchResult * world X :=
  match sources with
  | [] => ([], w)
  | src :: rest =>
      let '(r, w1) := fetchSource m src sn w in
      let '(rs, w2) := fetch_all m sn rest w1 in
      ((match r with
        | inl e => mkResult (fs_ID src) (fs_URL src) [] None (Some e)
        | inr (items, cert) => mkResult (fs_ID src) (fs_URL src) items cert None
        end) :: rs, w2)
  end.

(** A failed preparation of the local signatures: every enabled feed with a
    state records it. *)
Fixpoint signing_failed (now : time) (e : goerror) (sn : threatIntelSnapshot) (sources : list ThreatFeedSource)
    (states : gmap string FeedGenerationState) w : gmap string FeedGenerationState * world X :=
  match sources with
  | [] => (states, w)
  | src :: rest =>
      match states !! fs_ID src with
      | None => signing_failed now e sn rest states w
      | Some g =>
          let '(clock, w) := time_Now w in
          let g := failed_gen now clock (ErrText ("local signing: " +:+ error_text e)) (sn_settings sn) g in
          signing_failed now e sn rest (<[fs_ID src := g]> states) w
      end
  end.

(** The second half of [syncInternal], under the manager's lock, with the
    results in the order they arrived. *)
Definition settle (now : time) (sources : Z) (rs : list fetchResult) (sn : threatIntelSnapshot) m w
    : list string * gmap string goerror * FeedManager * world X :=
  let '(states, tl, w) := promote_all (fc_RequireSignedManifest (fm_cfg m)) now sn rs (fm_feedStates m, no_tally) w in
  let m := conclude now sources tl (set_states states m) in
  let '(block, corr, annot) := composeGenerationsLocked (sn_settings sn) (fm_feedStates m) in
  let m := set_annotIndex (Replace annot (fm_annotateIndex m)) (set_corrIndex (Replace corr (fm_correlateIndex m)) m) in
  (block, tl_errs tl, m, save m w).

(** [syncInternal]; [arrive] is the order in which the results arrive. *)
Definition syncInternal (arrive : list fetchResult -> list fetchResult) m w
    : list string * gmap string goerror * FeedManager * world X :=
  let sn := fm_live m in
  match orderedSources sn with
  | [] => ([], {["configuration" := ErrText "no threat intelligence source is enabled"]}, m, w)
  | sources =>
      let '(now, w) := time_Now w in
      let t := fm_times m in
      let m := set_times (mkTimes now (t_lastSuccessfulSyncAt t) (t_lastPartialSuccessfulSyncAt t)
                 (t_lastFullySuccessfulSyncAt t)) m in
      let '(prepErr, m, w) := prepareLocalSignedSnapshots sn m w in
      match prepErr with
      | Some e =>
          let '(states, w) := signing_failed now e sn (sn_sources sn) (fm_feedStates m) w in
          let m := set_states states (set_overall "ERROR" m) in
          ([], {["local_signing" := e]}, m, save m w)
      | None =>
          let '(rs, w) := fetch_all m sn sources w in
          settle now (Z.of_nat (length sources)) (arrive rs) sn m w
      end
  end.

(** [SyncWithLock]: the message of a refusal names the caller; the time to wait
    is rendered in nanoseconds. *)
Definition SyncWithLock (arrive : list fetchResult -> list fetchResult) (holder : string) m w
    : option (list string * gmap string goerror) * error * FeedManager * world X :=
  let '(now, w) := time_Now w in
  let '(locked, remaining, l) := TryLock holder now (fm_lock m) in
  let m := set_lock l m in
  if negb locked then
    (None, errors_New ("vis_threat_intel_sync_lock active: held by " +:+ holder +:+ ", retry after " +:+ itoa remaining), m, w)
  else
    let '(items, errs, m, w) := syncInternal arrive m w in
    (Some (items, errs), None, set_lock (Unlock (fm_lock m)) m, w).

(** ** The kernel *)

(** [verifySignedKernelGenerationsLocked] *)
Fixpoint unsigned_feed (now : time) (states : gmap string FeedGenerationState) (feeds : list ThreatFeedSourceSettings) : error :=
  match feeds with
  | [] => None
  | f :: rest =>
      if negb (fd_Enabled f) || negb (bool_decide (fd_Action f = FeedActionBlock)) then unsigned_feed now states rest
      else
        match states !! fd_ID f with
        | None => unsigned_feed now states rest
        | Some g =>
            if bool_decide (g_LastGoodItems g = []) then unsigned_feed now states rest
            else if negb (g_ManifestVerified g) || Time.IsZero (g_ManifestValidUntil g) ||
                    negb (Time.Before now (g_ManifestValidUntil g))
            then errors_New ("signed feed manifest is missing or expired for " +:+ fd_ID f +:+
                   "; kernel apply refused (previous enforcement retained)")
            else if g_ManifestVersion g =? 0
            then errors_New "feed generation has no signed manifest version; kernel apply refused"
            else unsigned_feed now states rest
        end
  end.

(** A kernel update that ends with an error: the report and the state file,
    nothing else. *)
Definition report_failure (status text : string) m w : FeedManager * world X :=
  let '(now, w) := time_Now w in
  let k := fm_kernel m in
  let m := set_report (mkReport now status (kr_generation k) (kr_added k) (kr_deleted k) text) m in
  (m, save m w).

(** Calls of the core in order, until one fails: the items done, and the one
    that failed. *)
Fixpoint call_all (call : string -> world X -> error * world X) (items done : list string) w
    : list string * option (string * goerror) * world X :=
  match items with
  | [] => (done, None, w)
  | i :: rest =>
      match call i w with
      | (Some e, w1) => (done, Some (i, e), w1)
      | (None, w1) => call_all call rest (done ++ [i]) w1
      end
  end.
(** The calls of a rollback: every one is made, [true] when one failed. *)
Fixpoint undo_all (call : string -> world X -> error * world X) (items : list string) w : bool * world X :=
  match items with
  | [] => (false, w)
  | i :: rest =>
      let '(e, w1) := call i w in
      let '(failed, w2) := undo_all call rest w1 in
      (bool_decide (e <> None) || failed, w2)
  end.

(** The two lists of the diff. *)
Definition additions m (block : list string) : list string :=
  sort_Strings (List.filter (fun i => bool_decide (i ∉ fm_applied m)) block).
Definition deletions m (block : list string) : list string :=
  sort_Strings (List.filter (fun i => bool_decide (i ∉ block)) (elements (fm_applied m))).

Definition sync_failure (status : string) (e : goerror) (suffix text : string) m w : Z * Z * error * FeedManager * world X :=
  let '(m, w) := report_failure status (if bool_decide (status = kernelApplyDivergent) then error_text e +:+ suffix else error_text e) m w in
  (0, 0, Some (ErrWrap (text +:+ error_text e) e), m, w).

(** The commit: the mirror, the indexes, the generation and the report. *)
Definition commit (settings : ThreatIntelFabricSettings) (block : list string) (added deleted : Z) m w : FeedManager * world X :=
  let m := set_applied (list_to_set block) m in
  let '(_, corr, annot) := composeGenerationsLocked settings (fm_feedStates m) in
  let m := publish_indexes block corr annot m in
  let generation := u64 (fm_generation m + 1) in
  let m := set_fingerprint (computeFingerprint block) (set_generation generation m) in
  let '(now, w) := time_Now w in
  let m := set_report (mkReport now kernelApplyApplied generation added deleted "") m in
  (m, save m w).

Definition rolled_back (failed : bool) : string := if failed then kernelApplyDivergent else kernelApplyError.

(** The additions, then the deletions, each with its rollback. *)
Definition apply_diff (core : bool) (settings : ThreatIntelFabricSettings) (block toAdd toDel : list string) m w
    : Z * Z * error * FeedManager * world X :=
  let '(added, failure, w) := if core then call_all core_Add toAdd [] w else (toAdd, None, w) in
  match failure with
  | Some (item, e) =>
      let '(failed, w) := undo_all core_Delete added w in
      sync_failure (rolled_back failed) e "; addition rollback incomplete"
        ("kernel block addition failed for " +:+ item +:+ "; rolled back: ") m w
  | None =>
      let '(deleted, failure, w) := if core then call_all core_Delete toDel [] w else (toDel, None, w) in
      match failure with
      | Some (item, e) =>
          let '(failed1, w) := undo_all core_Add deleted w in
          let '(failed2, w) := undo_all core_Delete added w in
          sync_failure (rolled_back (failed1 || failed2)) e "; deletion rollback incomplete"
            ("kernel block deletion failed for " +:+ item +:+ "; previous generation restored where possible: ") m w
      | None =>
          let '(m, w) := commit settings block (Z.of_nat (length added)) (Z.of_nat (length deleted)) m w in
          (Z.of_nat (length added), Z.of_nat (length deleted), None, m, w)
      end
  end.

(** [ApplyToKernel] under the manager's lock: the gates and the diff. The
    allowlist the callers pass is not used. *)
Definition apply_locked (core : bool) m w : Z * Z * error * FeedManager * world X :=
  let settings := activeSettings m in
  match localSigningApplyGate m with
  | Some e =>
      let '(m, w) := report_failure kernelApplyError (error_text e) m w in
      (0, 0, Some (ErrWrap "local feed signing trust anchor refused kernel apply" e), m, w)
  | None =>
      let '(unsigned, w) :=
        if fc_RequireSignedManifest (fm_cfg m)
        then let '(now, w) := time_Now w in (unsigned_feed now (fm_feedStates m) (fa_Feeds settings), w)
        else (None, w) in
      match unsigned with
      | Some e => let '(m, w) := report_failure kernelApplyError (error_text e) m w in (0, 0, Some e, m, w)
      | None =>
          let '(block, _, _) := composeGenerationsLocked settings (fm_feedStates m) in
          let toAdd := additions m block in
          let toDel := deletions m block in
          let size := Z.of_nat (length toAdd) + Z.of_nat (length toDel) in
          let budget := ks_MaximumDiffPerSync (fa_Kernel settings) in
          if (0 <? budget) && (budget <? size) then
            let e := ErrText ("kernel diff of " +:+ itoa size +:+ " entries exceeds the configured budget of " +:+
                       itoa budget +:+ " per sync") in
            let '(m, w) := report_failure kernelApplyError (error_text e) m w in (0, 0, Some e, m, w)
          else apply_diff core settings block toAdd toDel m w
      end
  end.
(** The operator key is loaded before the lock is taken. *)
Definition preload_key m w : FeedManager * world X :=
  let keyFile := TrimSpace (fc_SigningKeyFile (fm_cfg m)) in
  if fc_LocalSigning (fm_cfg m) && negb (bool_decide (keyFile = ""))
  then let '(_, m, w) := ensureLocalSigningKey keyFile m w in (m, w) else (m, w).
Definition ApplyToKernel (core : bool) m w : Z * Z * error * FeedManager * world X :=
  let '(m, w) := preload_key m w in apply_locked core m w.

(** [ClearFromKernel], the entries ranged over in the order [items]; a failed
    deletion is not counted, and its entry leaves the mirror all the same. *)
Fixpoint clear_all (items : list string) w : Z * world X :=
  match items with
  | [] => (0, w)
  | i :: rest =>
      let '(e, w1) := core_Delete i w in
      let '(n, w2) := clear_all rest w1 in
      (match e with None => n + 1 | Some _ => n end, w2)
  end.
Definition ClearFromKernel (core : bool) (items : list string) m w : Z * FeedManager * world X :=
  let '(cleared, w) := if core then clear_all items w else (0, w) in
  let m := publish_indexes [] [] [] (set_applied ∅ m) in
  let generation := u64 (fm_generation m + 1) in
  let m := set_fingerprint (computeFingerprint []) (set_generation generation m) in
  let '(now, w) := time_Now w in
  let m := set_report (mkReport now kernelApplyNotApplied generation 0 cleared "") m in
  (cleared, m, save m w).

(** ** New settings *)

(** [reconcileSourceStates]; the composition it computes is not used. *)
Fixpoint reconcile_sources (s : ThreatIntelFabricSettings) (sources : list ThreatFeedSource)
    (states : gmap string FeedGenerationState) w : gmap string FeedGenerationState * world X :=
  match sources with
  | [] => (states, w)
  | src :: rest =>
      match states !! fs_ID src with
      | None =>
          reconcile_sources s rest (<[fs_ID src := new_gen (fs_ID src) (fs_Name src) (fs_Action src)]> states) w
      | Some g =>
          let '(clock, w) := time_Now w in
          let g := set_action (fs_Action src) (set_name (fs_Name src) g) in
          reconcile_sources s rest (<[fs_ID src := set_status (computeFeedStatus clock g s) g]> states) w
      end
  end.
Definition reconcileSourceStates (sn : threatIntelSnapshot) m w : FeedManager * world X :=
  let '(states, w) := reconcile_sources (sn_settings sn) (sn_sources sn) (fm_feedStates m) w in
  let m := set_states states m in
  (m, save m w).

(** [applyThreatIntelSettings] *)
Definition applyThreatIntelSettings (settings : ThreatIntelFabricSettings) (revision : Z) m w : error * FeedManager * world X :=
  match validateThreatIntelFabricSettings settings with
  | inl e => (Some e, m, w)
  | inr candidate =>
      let sn := buildThreatIntelSnapshot candidate revision in
      let m := set_cfg (effectiveFeedConfig candidate (fm_cfg m)) (set_live sn m) in
      let '(m, w) := reconcileSourceStates sn m w in (None, m, w)
  end.
End Sync.
