(* ===== verification/FeedCompose.v ===== *)
(** * The published generations and the synchronisation lock

    The composition of the feeds is a function of the settings and of the last
    good generations, whatever order the code ranges over its map in; it stays
    within the entry budget and loses nothing that fits. *)

From Stdlib Require Import ZArith Lia Ascii String.
From stdpp Require Import base gmap strings list sorting.
From S2P Require Import Prelude.
From S2P Require Import GoLib.
From S2P Require Import Strconv.
From S2P Require Import Text.
From S2P Require Import World.
From S2P Require Import Storage.
From S2P Require Import Lines.
From S2P Require Import NetIP.
From S2P Require Import L7Settings.
From S2P Require Import L7Decode.
From S2P Require Import L7Normalize.
From S2P Require Import ThreatIndex.
From S2P Require Import FeedSettings.
From S2P Require Import FeedFetch.
From S2P Require Import Feeds.

(** ** The order of the feeds *)

#[export] Instance id_before_total rank : Total (id_before rank).
Proof.
  intros a b. unfold id_before. destruct (rank !! a), (rank !! b); auto; [|by apply (total String.le)].
  destruct (total String.le a b); destruct (lt_eq_lt_dec n n0) as [[]|]; naive_solver.
Qed.
#[export] Instance id_before_trans rank : Transitive (id_before rank).
Proof.
  intros a b c. unfold id_before. destruct (rank !! a), (rank !! b), (rank !! c); try done; [|by etrans].
  intros [?|[-> ?]] [?|[-> ?]]; [left; lia|left; lia|left; lia|right; split; [done|by etrans]].
Qed.
#[export] Instance id_before_anti rank : AntiSymm (=) (id_before rank).
Proof.
  intros a b. unfold id_before. destruct (rank !! a), (rank !! b); try done; [|by apply (anti_symm String.le)].
  intros [?|[-> ?]] [?|[? ?]]; try lia. by apply (anti_symm String.le).
Qed.

Lemma visit_unique rank ids ids' : ids ≡ₚ ids' -> merge_sort (id_before rank) ids = merge_sort (id_before rank) ids'.
Proof.
  intros Hp. apply (StronglySorted_unique (id_before rank)).
  - apply StronglySorted_merge_sort; apply _.
  - apply StronglySorted_merge_sort; apply _.
  - by rewrite !merge_sort_Permutation.
Qed.

Lemma compose_any_order s states ids ids' : ids ≡ₚ ids' -> compose_in s states ids = compose_in s states ids'.
Proof. intros Hp. unfold compose_in. by rewrite (visit_unique _ _ _ Hp). Qed.

(** ** The budget *)

Lemma spent_size budget s i : 0 < budget -> spent budget s = false -> Z.of_nat (size ({[i]} ∪ s : gset string)) <= budget.
Proof.
  unfold spent. intros Hb Hs. rewrite (proj2 (Z.ltb_lt _ _) Hb) in Hs. cbn in Hs. apply Z.leb_gt in Hs.
  destruct (decide (i ∈ s)).
  - replace ({[i]} ∪ s) with s by set_solver. lia.
  - rewrite size_union, size_singleton by set_solver. lia.
Qed.

Lemma fill_block_fst budget items block corr : (fill_block budget items block corr).1 = fill budget items block.
Proof. revert block corr. induction items as [|i l IH]; intros; cbn; [done|]. destruct (spent _ _); [done|]. apply IH. Qed.

Lemma fill_bound budget items s : 0 < budget -> Z.of_nat (size s) <= budget -> Z.of_nat (size (fill budget items s)) <= budget.
Proof.
  intros Hb. revert s. induction items as [|i l IH]; intros s Hs; cbn; [done|]. destruct (spent budget s) eqn:E; [done|].
  apply IH. by apply spent_size.
Qed.

Lemma fill_grows budget items s : s ⊆ fill budget items s.
Proof. revert s. induction items as [|i l IH]; intros s; cbn; [done|]. destruct (spent _ _); [done|]. specialize (IH ({[i]} ∪ s)). set_solver. Qed.

Lemma fill_only budget items s : fill budget items s ⊆ list_to_set items ∪ s.
Proof. revert s. induction items as [|i l IH]; intros s; cbn; [set_solver|]. destruct (spent _ _); [set_solver|]. specialize (IH ({[i]} ∪ s)). set_solver. Qed.

(** What the block loop adds to the correlation set. *)
Lemma fill_block_corr budget items block corr : exists extra : gset string,
  (fill_block budget items block corr).2 = extra ∪ corr /\ (fill_block budget items block corr).1 = extra ∪ block /\
  extra ⊆ list_to_set items.
Proof.
  revert block corr. induction items as [|i l IH]; intros block corr; cbn; [by exists ∅; set_solver|].
  destruct (spent _ _); [by exists ∅; set_solver|].
  destruct (IH ({[i]} ∪ block) ({[i]} ∪ corr)) as (e & -> & -> & He). exists ({[i]} ∪ e). set_solver.
Qed.

(** A budget that is not reached keeps everything. *)
Lemma fill_all budget items s : (0 < budget -> Z.of_nat (size (list_to_set items ∪ s : gset string)) <= budget) ->
  fill budget items s = list_to_set items ∪ s.
Proof.
  revert s. induction items as [|i l IH]; intros s Hs; cbn; [set_solver|]. cbn in Hs.
  destruct (spent budget s) eqn:E.
  - unfold spent in E. apply andb_prop in E as [Hb E]. apply Z.ltb_lt in Hb. apply Z.leb_le in E. specialize (Hs Hb).
    assert ({[i]} ∪ list_to_set l ⊆ s) as Hsub.
    { destruct (decide (s = {[i]} ∪ list_to_set l ∪ s)) as [->|Hne]; [set_solver|].
      assert (s ⊂ {[i]} ∪ list_to_set l ∪ s) as Hlt by set_solver. apply subset_size in Hlt. lia. }
    set_solver.
  - rewrite IH; [set_solver|]. intros Hb. specialize (Hs Hb). by replace (list_to_set l ∪ ({[i]} ∪ s)) with ({[i]} ∪ list_to_set l ∪ s : gset string) by set_solver.
Qed.

(** ** One feed at a time *)

Record within (budget : Z) (acc : generations) : Prop := {
  wi_block : 0 < budget -> Z.of_nat (size (gn_block acc)) <= budget;
  wi_annot : 0 < budget -> Z.of_nat (size (gn_annot acc)) <= budget;
  wi_corr : 0 < budget -> Z.of_nat (size (gn_corr acc ∖ gn_block acc)) <= budget;
  wi_sub : gn_block acc ⊆ gn_corr acc;
}.

Lemma publish_within budget acc g : within budget acc -> within budget (publish_feed budget acc g).
Proof.
  intros [H1 H2 H3 H4]. unfold publish_feed. case_bool_decide; [|case_bool_decide; [|case_bool_decide; [|by split]]].
  - pose proof (fill_block_fst budget (g_LastGoodItems g) (gn_block acc) (gn_corr acc)) as Hf.
    destruct (fill_block_corr budget (g_LastGoodItems g) (gn_block acc) (gn_corr acc)) as (e & He2 & He1 & _).
    destruct (fill_block _ _ _ _) as [block corr]. cbn in *. split; cbn; [| | |set_solver].
    + intros Hb. rewrite Hf. apply fill_bound; auto.
    + auto.
    + intros Hb. specialize (H3 Hb). etrans; [|exact H3]. apply inj_le, subseteq_size. set_solver.
  - pose proof (fill_grows budget (g_LastGoodItems g) (gn_corr acc)). split; cbn; [auto|auto| |set_solver].
    intros Hb. specialize (H1 Hb); specialize (H3 Hb).
    destruct (spent budget (gn_corr acc)) eqn:E.
    + assert (fill budget (g_LastGoodItems g) (gn_corr acc) = gn_corr acc) as ->; [|done].
      destruct (g_LastGoodItems g); cbn; [done|]. by rewrite E.
    + assert (Z.of_nat (size (gn_corr acc)) <= budget) as Hc.
      { unfold spent in E. rewrite (proj2 (Z.ltb_lt _ _) Hb) in E. apply Z.leb_gt in E. lia. }
      etrans; [|by apply (fill_bound budget (g_LastGoodItems g) (gn_corr acc))]. apply inj_le, subseteq_size. set_solver.
  - split; cbn; auto. intros Hb. apply fill_bound; auto.
Qed.

Lemma publish_all_within budget gs acc : within budget acc -> within budget (fold_left (publish_feed budget) gs acc).
Proof. revert acc. induction gs as [|g l IH]; intros acc H; cbn; [done|]. by apply IH, publish_within. Qed.

Lemma none_within budget : within budget (mkGenerations ∅ ∅ ∅).
Proof. split; cbn; [| | |done]; intros; rewrite ?difference_diag_L, size_empty; lia. Qed.

(** The items of the feeds with an action. *)
Definition items_of (action : string) (gs : list FeedGenerationState) : gset string :=
  ⋃ (map (fun g => list_to_set (g_LastGoodItems g) : gset string) (List.filter (fun g => bool_decide (g_Action g = action)) gs)).

Lemma items_of_cons action g gs : items_of action (g :: gs) =
  (if bool_decide (g_Action g = action) then list_to_set (g_LastGoodItems g) else ∅) ∪ items_of action gs.
Proof. unfold items_of. cbn. case_bool_decide; cbn; [done|set_solver]. Qed.

Lemma publish_block_only budget gs acc :
  gn_block (fold_left (publish_feed budget) gs acc) ⊆ items_of FeedActionBlock gs ∪ gn_block acc.
Proof.
  revert acc. induction gs as [|g l IH]; intros acc; cbn [fold_left]; [set_solver|]. rewrite items_of_cons.
  etrans; [apply IH|]. unfold publish_feed. case_bool_decide as Ha; [|case_bool_decide; [|case_bool_decide]; cbn; set_solver].
  pose proof (fill_block_fst budget (g_LastGoodItems g) (gn_block acc) (gn_corr acc)) as Hf.
  destruct (fill_block _ _ _ _) as [block corr]. cbn in *. subst block.
  pose proof (fill_only budget (g_LastGoodItems g) (gn_block acc)). set_solver.
Qed.

Lemma publish_block_all budget gs acc :
  (0 < budget -> Z.of_nat (size (items_of FeedActionBlock gs ∪ gn_block acc)) <= budget) ->
  gn_block (fold_left (publish_feed budget) gs acc) = items_of FeedActionBlock gs ∪ gn_block acc.
Proof.
  revert acc. induction gs as [|g l IH]; intros acc Hfit; cbn [fold_left]; [unfold items_of; cbn; set_solver|].
  rewrite items_of_cons in Hfit |- *.
  unfold publish_feed at 2. case_bool_decide as Ha.
  - pose proof (fill_block_fst budget (g_LastGoodItems g) (gn_block acc) (gn_corr acc)) as Hf.
    destruct (fill_block _ _ _ _) as [block corr]. cbn in Hf. subst block.
    assert (fill budget (g_LastGoodItems g) (gn_block acc) = list_to_set (g_LastGoodItems g) ∪ gn_block acc) as Hall.
    { apply fill_all. intros Hb. etrans; [apply inj_le, subseteq_size|by apply Hfit]. set_solver. }
    rewrite IH; cbn [gn_block]; rewrite Hall; [set_solver|]. intros Hb.
    etrans; [apply inj_le, subseteq_size|by apply Hfit]. set_solver.
  - assert (forall acc', gn_block acc' = gn_block acc ->
      gn_block (fold_left (publish_feed budget) l acc') = ∅ ∪ items_of FeedActionBlock l ∪ gn_block acc) as Hgo.
    { intros acc' He. rewrite IH; rewrite He; [set_solver|]. intros Hb. etrans; [apply inj_le, subseteq_size|by apply Hfit]. set_solver. }
    case_bool_decide; [|case_bool_decide]; by apply Hgo.
Qed.

(** The states in the order they are visited, and in any order. *)
Lemma items_of_perm action gs gs' : gs ≡ₚ gs' -> items_of action gs = items_of action gs'.
Proof. induction 1; rewrite ?items_of_cons; [done|by rewrite IHPermutation|set_solver|congruence]. Qed.

Definition feeds_of (states : gmap string FeedGenerationState) : list FeedGenerationState := (map_to_list states).*2.

Lemma visited_feeds rank (states : gmap string FeedGenerationState) :
  omap (fun id => states !! id) (merge_sort (id_before rank) (map_to_list states).*1) ≡ₚ feeds_of states.
Proof.
  rewrite merge_sort_Permutation. unfold feeds_of.
  assert (forall l, (forall i g, (i, g) ∈ l -> states !! i = Some g) -> omap (fun id => states !! id) l.*1 = l.*2) as Hgo.
  { induction l as [|[i g] l IH]; intros Hl; cbn; [done|]. rewrite (Hl i g) by set_solver. f_equal. apply IH. set_solver. }
  rewrite Hgo; [done|]. intros i g. by rewrite elem_of_map_to_list.
Qed.

Lemma elem_sorted (x : string) (s : gset string) : x ∈ sort_Strings (elements s) <-> x ∈ s.
Proof. unfold sort_Strings. rewrite merge_sort_Permutation. set_solver. Qed.

Lemma sorted_length (s : gset string) : length (sort_Strings (elements s)) = size s.
Proof. unfold sort_Strings. by rewrite merge_sort_Permutation. Qed.

Lemma sorted_NoDup (s : gset string) : NoDup (sort_Strings (elements s)).
Proof. unfold sort_Strings. rewrite merge_sort_Permutation. apply NoDup_elements. Qed.

Lemma composed_within s states block corr annot : composeGenerationsLocked s states = (block, corr, annot) ->
  0 < fa_MaxTotalEntries s ->
  Z.of_nat (length block) <= fa_MaxTotalEntries s /\ Z.of_nat (length annot) <= fa_MaxTotalEntries s /\
  Z.of_nat (length corr) <= Z.of_nat (length block) + fa_MaxTotalEntries s /\ (forall x, x ∈ block -> x ∈ corr).
Proof.
  intros [= <- <- <-] Hb. rewrite !sorted_length.
  destruct (publish_all_within (fa_MaxTotalEntries s) (omap (fun id => states !! id) (merge_sort
    (id_before (rank_of (fa_Feeds s))) (map_to_list states).*1)) _ (none_within _)) as [H1 H2 H3 H4].
  fold (compose_in s states (map_to_list states).*1) in *. set (acc := compose_in _ _ _) in *.
  split_and!; [auto|auto| |].
  - specialize (H3 Hb).
    assert (size (gn_corr acc) = (size (gn_corr acc ∖ gn_block acc) + size (gn_block acc))%nat) as ->; [|lia].
    rewrite <- size_union by set_solver. f_equal. rewrite difference_union_L. set_solver.
  - intros x. rewrite !elem_sorted. set_solver.
Qed.

Lemma composed_block s states block corr annot : composeGenerationsLocked s states = (block, corr, annot) ->
  NoDup block /\ (forall x, x ∈ block -> x ∈ items_of FeedActionBlock (feeds_of states)) /\
  (Z.of_nat (size (items_of FeedActionBlock (feeds_of states))) <= fa_MaxTotalEntries s ->
   forall x, x ∈ items_of FeedActionBlock (feeds_of states) -> x ∈ block).
Proof.
  intros [= <- _ _]. split; [apply sorted_NoDup|]. unfold compose_in.
  set (gs := omap _ _). assert (items_of FeedActionBlock gs = items_of FeedActionBlock (feeds_of states)) as Hi
    by apply items_of_perm, visited_feeds. rewrite <- Hi. split.
  - intros x. rewrite elem_sorted. intros Hx. pose proof (publish_block_only (fa_MaxTotalEntries s) gs (mkGenerations ∅ ∅ ∅)).
    cbn in *. set_solver.
  - intros Hfit x Hx. rewrite elem_sorted, publish_block_all; cbn [gn_block]; [set_solver|]. intros _.
    by replace (items_of FeedActionBlock gs ∪ ∅) with (items_of FeedActionBlock gs) by set_solver.
Qed.

(** C26: The published generations are a function of the settings and of the
    last good generations alone, in whatever order the feeds are ranged over.
    The block set holds each indicator once, only indicators of blocking
    feeds, and all of them when they fit the budget; the block and annotation
    sets stay within the budget, the correlation set within the budget beyond
    the block set, which it contains. *)
Theorem composed_generation s states ids block corr annot : ids ≡ₚ (map_to_list states).*1 ->
  composeGenerationsLocked s states = (block, corr, annot) ->
  let acc := compose_in s states ids in
  (sort_Strings (elements (gn_block acc)), sort_Strings (elements (gn_corr acc)), sort_Strings (elements (gn_annot acc)))
    = (block, corr, annot) /\
  NoDup block /\ (forall x, x ∈ block -> x ∈ items_of FeedActionBlock (feeds_of states)) /\
  (Z.of_nat (size (items_of FeedActionBlock (feeds_of states))) <= fa_MaxTotalEntries s ->
   forall x, x ∈ items_of FeedActionBlock (feeds_of states) -> x ∈ block) /\
  (0 < fa_MaxTotalEntries s -> Z.of_nat (length block) <= fa_MaxTotalEntries s /\
   Z.of_nat (length annot) <= fa_MaxTotalEntries s /\
   Z.of_nat (length corr) <= Z.of_nat (length block) + fa_MaxTotalEntries s /\ (forall x, x ∈ block -> x ∈ corr)).
Proof.
  intros Hp Hc. cbn zeta. rewrite (compose_any_order s states _ _ Hp).
  destruct (composed_block s states block corr annot Hc) as (? & ? & ?).
  pose proof (composed_within s states block corr annot Hc). split; [exact Hc|]. auto.
Qed.

(** ** Disabled feeds *)

Definition toggle (on : bool) (f : ThreatFeedSourceSettings) : ThreatFeedSourceSettings :=
  mkFeed (fd_ID f) (fd_Name f) on (fd_URL f) (fd_Format f) (fd_Action f) (fd_Priority f) (fd_TrustWeight f)
    (fd_RefreshMinutes f) (fd_MaxEntries f) (fd_MaxDownloadBytes f).

Lemma rank_toggle on feeds : rank_of (map (toggle on) feeds) = rank_of feeds.
Proof.
  unfold rank_of. change (map (toggle on) feeds) with (toggle on <$> feeds). rewrite imap_fmap.
  assert (forall (f : nat -> nat) l m, fold_left (fun m p => <[fd_ID p.2 := p.1]> m) (imap (fun i x => (f i, toggle on x)) l) m =
    fold_left (fun m p => <[fd_ID p.2 := p.1]> m) (imap (fun i x => (f i, x)) l) (m : gmap string nat)) as Hgo.
  { intros f l. revert f. induction l as [|x l IH]; intros f m; [done|]. cbn. apply (IH (f ∘ S)). }
  apply (Hgo id).
Qed.

Lemma compose_ignores_enabled on s states :
  composeGenerationsLocked (set_feeds (map (toggle on) (fa_Feeds s)) s) states = composeGenerationsLocked s states.
Proof. unfold composeGenerationsLocked, compose_in, set_feeds. cbn [fa_Feeds fa_MaxTotalEntries]. by rewrite rank_toggle. Qed.

(** ** The lock *)

Fixpoint run_tries (tries : list (string * time)) (l : ThreatIntelLock) : list bool * ThreatIntelLock :=
  match tries with
  | [] => ([], l)
  | (holder, now) :: rest =>
      let '(locked, _, l) := TryLock holder now l in
      let '(bs, l) := run_tries rest l in (locked :: bs, l)
  end.

(** Once the lock is taken every other attempt is refused, however much time
    passes, until it is released; then the next attempt gets it. *)
Theorem lock_exclusive holder now l r l' tries : TryLock holder now l = (true, r, l') ->
  lk_ownerID l' = holder /\ run_tries tries l' = (replicate (length tries) false, l') /\
  forall holder' now', (TryLock holder' now' (Unlock l')).1.1 = true.
Proof.
  unfold TryLock at 1. intros H. destruct (lk_active l); [done|]. destruct (_ && _); [done|]. simplify_eq.
  split; [done|]. split; [|by intros].
  induction tries as [|[h t] tries IH]; cbn; [done|]. by rewrite IH.
Qed.
