(* ===== verification/FeedSyncFacts.v ===== *)
(** * What a synchronisation may change

    A download replaces the last good generation of its feed only when it was
    accepted, under the signed-manifest policy only when its bytes and its
    indicators are the signed ones; the published result does not depend on
    the order in which concurrent downloads finish. *)

From Stdlib Require Import ZArith Lia Ascii String.
From stdpp Require Import base gmap strings list sorting.
From S2P Require Import Prelude.
From S2P Require Import GoLib.
From S2P Require Import Strconv.
From S2P Require Import Text.
From S2P Require Import World.
From S2P Require Import Storage.
From S2P Require Import Lines.
From S2P Require Import L7Settings.
From S2P Require Import Evidence.
From S2P Require Import NetIP.
From S2P Require Import State.
From S2P Require Import Release.
From S2P Require Import L7Decode.
From S2P Require Import L7Normalize.
From S2P Require Import ThreatIndex.
From S2P Require Import FeedSettings.
From S2P Require Import FeedFetch.
From S2P Require Import Feeds.
From S2P Require Import FeedSigning.
From S2P Require Import FeedSync.
From S2P Require Import FeedCompose.

(** ** Accepted downloads *)

Section Fetched.
Context {X : Type} `{U : Unicode} `{C : Crypto} `{ED : Evidence.Ed25519} `{UP : URLParser} `{JT : JSONTokens}
  `{JM : JSONDoc threatFeedManifestMessage} `{JD : JSONDoc threatFeedManifestDocument} `{TR : !FeedTransport X}.
Implicit Types (w : world X).

(** A manifest entry that one of the pinned keys signed. *)
Definition signed_entry (keys : list string) (e : threatFeedManifestEntry) : Prop :=
  exists d key signature, key ∈ keys /\ ed_Verify key (threatFeedManifestMessageFor d) signature = true /\ e ∈ md_Feeds d.

(** The certificate of a source over the bytes the items were parsed from. *)
Definition attests (sp : signingPolicy) (sn : threatIntelSnapshot) (src : ThreatFeedSource) (items : list string)
    (c : threatFeedCertificate) : Prop :=
  exists e raw contentType, signed_entry (sg_keys sp) e /\ me_ID e = fs_ID src /\ me_URL e = fs_URL src /\
    c = mkCertificate (me_Version e) (me_ValidUntil e) e /\
    EqualFold (hex_EncodeToString (sha256_Sum raw)) (me_RawSHA256 e) = true /\
    parseFeedRaw src raw contentType (fa_Validation (sn_settings sn)) (feedBounds sn src).1.1 = inr items /\
    EqualFold (computeFingerprint items) (me_ItemsSHA256 e) = true.

Definition genuine (sp : signingPolicy) (sn : threatIntelSnapshot) (src : ThreatFeedSource) (items : list string)
    (cert : option threatFeedCertificate) : Prop :=
  items <> [] -> if sg_required sp then exists c, cert = Some c /\ attests sp sn src items c else cert = None.

Lemma fetch_error_none guards : first_error guards = None -> Forall (fun g => g.1 = false) guards.
Proof. induction guards as [|[b msg] l IH]; cbn; [done|]. destruct b; [done|]. auto. Qed.

Lemma signature_ok d keys : signature_error d keys = None -> exists key signature, key ∈ keys /\
  ed_Verify key (threatFeedManifestMessageFor d) signature = true.
Proof.
  unfold signature_error. case_bool_decide; [done|]. destruct (decode_base64 _) as [sig|]; [|done].
  destruct (negb _); [done|]. destruct (existsb _ _) eqn:E; [|done]. intros _. apply existsb_exists in E as (key & Hk & Hv).
  exists key, sig. by rewrite list_elem_of_In.
Qed.

Lemma read_manifest_ok path keys maxAge w d w' : readSignedFeedManifest path keys maxAge w = (inr d, w') ->
  signature_error d keys = None.
Proof.
  unfold readSignedFeedManifest. intros H. destruct (os_Lstat _ _) as [[?|info] w1]; [done|].
  destruct (decide _); [done|]. destruct (_ || _); [done|]. destruct (os_ReadFile _ _) as [[?|raw] w2]; [done|].
  destruct (json_Decode raw) as [?|doc]; [done|]. destruct (time_Now w2) as [now w3].
  destruct (validateSignedFeedManifest _ _ _); [done|]. destruct (signature_error doc keys) eqn:E; [done|]. by simplify_eq.
Qed.

Lemma artifact_ok sp src raw w cert w' : verifyFeedArtifact sp src raw w = (inr cert, w') ->
  if sg_required sp then exists e, signed_entry (sg_keys sp) e /\ me_ID e = fs_ID src /\ me_URL e = fs_URL src /\
    EqualFold (hex_EncodeToString (sha256_Sum raw)) (me_RawSHA256 e) = true /\
    cert = Some (mkCertificate (me_Version e) (me_ValidUntil e) e)
  else cert = None.
Proof.
  unfold verifyFeedArtifact. intros H. destruct (sg_required sp); cbn [negb] in H; [|by simplify_eq].
  case_bool_decide; [done|]. destruct (readSignedFeedManifest _ _ _ _) as [[?|d] w1] eqn:HR; [done|].
  apply read_manifest_ok, signature_ok in HR as (key & sig & Hk & Hv).
  destruct (List.find _ _) as [e|] eqn:HF; [|done]. apply find_some in HF as [Hin He]. apply bool_decide_eq_true in He.
  destruct (entry_error e src raw) eqn:HE; [done|]. simplify_eq. apply fetch_error_none in HE.
  rewrite !Forall_cons in HE. cbn [fst] in HE. destruct HE as (H1 & _ & H3 & _).
  apply negb_false_iff in H1, H3. apply bool_decide_eq_true in H1.
  exists e. split; [exists d, key, sig; split_and!; [done|done|by apply list_elem_of_In]|]. auto.
Qed.

Lemma digest_ok cert items : verifyFeedItemsDigest cert items = None -> forall c, cert = Some c ->
  EqualFold (computeFingerprint items) (me_ItemsSHA256 (ct_Entry c)) = true.
Proof. unfold verifyFeedItemsDigest. intros H c ->. by destruct (EqualFold _ _). Qed.

(** From a verified artifact and its digest to a genuine result. *)
Lemma genuine_parsed sp sn src raw contentType items cert w w' :
  verifyFeedArtifact sp src raw w = (inr cert, w') ->
  parseFeedRaw src raw contentType (fa_Validation (sn_settings sn)) (feedBounds sn src).1.1 = inr items ->
  verifyFeedItemsDigest cert items = None -> genuine sp sn src items cert.
Proof.
  intros HV HP HD _. apply artifact_ok in HV. pose proof (digest_ok _ _ HD) as Hd.
  destruct (sg_required sp); [|done]. destruct HV as (e & He & Hid & Hurl & Hraw & ->).
  eexists. split; [done|]. exists e, raw, contentType. specialize (Hd _ eq_refl). naive_solver.
Qed.

Lemma once_genuine sp src sn w items cert w' : fetchSourceOnce sp src sn w = (inr (items, cert), w') -> genuine sp sn src items cert.
Proof.
  unfold fetchSourceOnce. intros H. destruct (fetchFeedRawOnce _ _ _) as [[?|[raw ct]] w1]; [done|].
  destruct (verifyFeedArtifact _ _ _ _) as [[?|c] w2] eqn:HV; [done|].
  case_bool_decide; [simplify_eq; intros Hne; by destruct Hne|]. destruct (parseFeedRaw _ _ _ _ _) as [?|l] eqn:HP; [done|].
  destruct (verifyFeedItemsDigest c l) eqn:HD; [done|]. simplify_eq. by eapply genuine_parsed.
Qed.

Lemma attempts_ok {A} (once : world X -> (feedError + A) * world X) policy n attempt e w a w' :
  attempts once policy n attempt e w = (inr a, w') -> exists w0 w1, once w0 = (inr a, w1).
Proof.
  revert attempt e w. induction n as [|n IH]; intros attempt e w; cbn; [done|]. intros H.
  destruct (if 1 <? attempt then _ else _) as [going w1]. destruct going; [|done]. cbn in H.
  destruct (once w1) as [[x|r] w2] eqn:HO; [|simplify_eq; eauto]. destruct (threatFeedRetryable x); [by eapply IH|done].
Qed.

Lemma fetch_genuine m src sn w items cert w' : fetchSource m src sn w = (inr (items, cert), w') ->
  genuine (signingConfig m) sn src items cert.
Proof.
  unfold fetchSource, fetchSourceNetwork, guarded, fetchSourceFromSnapshot. intros H.
  destruct (fc_LocalSigning _); destruct (validateFeedSourceURL _) as [?|u]; [done| |done|].
  - destruct (feedBounds sn src) as [[n b] t] eqn:HB. destruct (readFeedSnapshot _ _ _ _) as [[?|raw] w1]; [done|].
    destruct (verifyFeedArtifact _ _ _ _) as [[?|[c|]] w2] eqn:HV; [done| |done].
    destruct (parseFeedRaw _ _ _ _ _) as [?|l] eqn:HP; [done|]. destruct (verifyFeedItemsDigest _ _) eqn:HD; [done|].
    simplify_eq. eapply genuine_parsed; [done| |done]. rewrite HB. exact HP.
  - destruct (negb _); [done|]. apply attempts_ok in H as (w0 & w1 & H). by eapply once_genuine.
Qed.

(** The results of a round. *)
Definition result_genuine (sp : signingPolicy) (sn : threatIntelSnapshot) (r : fetchResult) : Prop :=
  r_err r = None -> exists src, fs_ID src = r_id r /\ genuine sp sn src (r_items r) (r_cert r).

Lemma fetch_all_genuine m sn sources w rs w' : fetch_all m sn sources w = (rs, w') ->
  Forall (result_genuine (signingConfig m) sn) rs.
Proof.
  revert w rs w'. induction sources as [|src l IH]; intros w rs w'; cbn [fetch_all]; [by intros [= <- _]|]. intros H.
  destruct (fetchSource m src sn w) as [r w1] eqn:HF. destruct (fetch_all m sn l w1) as [rs' w2] eqn:HA. simplify_eq.
  constructor; [|by eapply IH]. destruct r as [e|[items cert]]; [done|]. intros _. exists src. split; [done|]. by eapply fetch_genuine.
Qed.
End Fetched.

(** ** The promotion *)

(** The last good generation of a feed, with its authenticity. *)
Definition last_good (g : FeedGenerationState) : list string * Z * string * Z * time * bool :=
  (g_LastGoodItems g, g_LastGoodGen g, g_LastGoodFingerprint g, g_ManifestVersion g, g_ManifestValidUntil g, g_ManifestVerified g).

Section Promotion.
Context {X : Type} `{U : Unicode} `{C : Crypto} `{ED : Evidence.Ed25519} `{UP : URLParser} `{JT : JSONTokens}
  `{JM : JSONDoc threatFeedManifestMessage} `{JD : JSONDoc threatFeedManifestDocument}.
Implicit Types (w : world X).

(** A new generation: not empty, fingerprinted, at least as recent as the
    version floor and, under the signed-manifest policy, attested. *)
Record accepted (sp : signingPolicy) (sn : threatIntelSnapshot) (id : string) (floor : Z) (g : FeedGenerationState) : Prop := {
  ac_items : g_LastGoodItems g <> [];
  ac_fingerprint : g_LastGoodFingerprint g = computeFingerprint (g_LastGoodItems g);
  ac_floor : floor <= g_ManifestVersion g;
  ac_attested : sg_required sp = true -> g_ManifestVerified g = true /\ exists src c, fs_ID src = id /\
    attests sp sn src (g_LastGoodItems g) c /\ g_ManifestVersion g = ct_Version c /\ g_ManifestValidUntil g = ct_ValidUntil c;
}.

Definition advances (sp : signingPolicy) (sn : threatIntelSnapshot) (states states' : gmap string FeedGenerationState) : Prop :=
  forall id g, states !! id = Some g -> exists g', states' !! id = Some g' /\ g_Action g' = g_Action g /\
    (last_good g' = last_good g \/ accepted sp sn id (g_ManifestVersion g) g').

#[export] Instance advances_preorder sp sn : PreOrder (advances sp sn).
Proof.
  split.
  - intros states id g Hg. exists g. auto.
  - intros s1 s2 s3 H12 H23 id g Hg. destruct (H12 id g Hg) as (g2 & Hg2 & Ha2 & H2).
    destruct (H23 id g2 Hg2) as (g3 & Hg3 & Ha3 & H3). exists g3. split; [done|]. split; [congruence|].
    unfold last_good in *. destruct H2 as [H2|[? ? ? ?]], H3 as [H3|[? ? ? ?]]; simplify_eq/=.
    + left. congruence.
    + right. split; [done|done|congruence|done].
    + right. split; [congruence|congruence|congruence|]. intros Hr. destruct (ac_attested0 Hr) as (Hv & src & c & Hs & Hc & Hn & Ht).
      split; [congruence|]. exists src, c. replace (g_LastGoodItems g3) with (g_LastGoodItems g2) by congruence.
      split_and!; [done|done|congruence|congruence].
    + right. split; [done|done|lia|done].
Qed.

Lemma failed_last_good now clock e s g : last_good (failed_gen now clock e s g) = last_good g /\
  g_Action (failed_gen now clock e s g) = g_Action g.
Proof. done. Qed.

Lemma advances_insert sp sn states id g g' : states !! id = Some g \/ states !! id = None ->
  (states !! id = Some g -> g_Action g' = g_Action g /\ (last_good g' = last_good g \/ accepted sp sn id (g_ManifestVersion g) g')) ->
  advances sp sn states (<[id := g']> states).
Proof.
  intros Hid Hg i h Hi. destruct (decide (i = id)) as [->|Hne].
  - rewrite lookup_insert_eq. eexists. split; [done|]. destruct Hid as [Hid|Hid]; simplify_eq. by apply Hg.
  - rewrite lookup_insert_ne by done. eauto.
Qed.

Lemma refusal_none req g r : refusal req g r = None -> r_err r = None /\ r_items r <> [] /\
  (req = true -> exists c, r_cert r = Some c /\ checkManifestRollback g c = None).
Proof.
  unfold refusal. destruct (r_err r) as [e|]; [done|]. case_bool_decide; [done|]. intros Hall. split; [done|]. split; [done|].
  intros ->. destruct (r_cert r); [eauto|done].
Qed.

Lemma rollback_floor g c : checkManifestRollback g c = None -> g_ManifestVersion g <= ct_Version c.
Proof. unfold checkManifestRollback. destruct (_ <? _) eqn:E; [done|]. apply Z.ltb_ge in E. lia. Qed.

Lemma promote_advances sp now sn r states tl w states' tl' w' : result_genuine sp sn r ->
  promote (sg_required sp) now sn r (states, tl) w = (states', tl', w') -> advances sp sn states states'.
Proof.
  intros Hgen. unfold promote. intros H.
  assert (states !! r_id r = Some (gen_for sn states (r_id r)) \/ states !! r_id r = None) as Hid
    by (unfold gen_for; destruct (states !! r_id r); auto).
  destruct (refusal _ _ _) as [e|] eqn:HR.
  - destruct (time_Now w) as [clock w1]. simplify_eq. eapply advances_insert; [exact Hid|]. intros _. split; [done|by left].
  - simplify_eq. eapply advances_insert; [exact Hid|]. intros _. split; [done|]. right.
    apply refusal_none in HR as (He & Hi & Hreq). destruct (Hgen He) as (src & Hs & Hg). specialize (Hg Hi).
    destruct (sg_required sp) eqn:Hsr.
    + destruct Hg as (c & Hc & Hat). destruct (Hreq eq_refl) as (c' & Hc' & Hroll). rewrite Hc in Hc'. injection Hc' as <-.
      apply rollback_floor in Hroll. split; cbn; rewrite ?Hc; [done|done|done|]. intros _. split; [done|]. by exists src, c.
    + split; cbn; rewrite ?Hg; [done|done|lia|congruence].
Qed.

Lemma promote_all_advances sp now sn rs st w st' w' : Forall (result_genuine sp sn) rs ->
  promote_all (sg_required sp) now sn rs st w = (st', w') -> advances sp sn st.1 st'.1.
Proof.
  intros Hrs. revert st w. induction Hrs as [|r rs Hr _ IH]; intros [states tl] w; cbn [promote_all]; [by intros [= <- _]|].
  destruct (promote _ _ _ _ _ _) as [[states1 tl1] w1] eqn:HP. intros H. etrans; [by eapply promote_advances|].
  by apply (IH (states1, tl1) w1).
Qed.

Lemma signing_failed_advances sp now e sn sources states w states' w' :
  signing_failed now e sn sources states w = (states', w') -> advances sp sn states states'.
Proof.
  revert states w. induction sources as [|src l IH]; intros states w; cbn [signing_failed]; [by intros [= <- _]|].
  destruct (states !! fs_ID src) as [g|] eqn:Hg; [|apply IH]. destruct (time_Now w) as [clock w1]. intros H.
  etrans; [|by eapply IH]. eapply advances_insert; [by left|]. intros _. split; [done|by left].
Qed.
End Promotion.

(** ** A whole synchronisation *)

Section Whole.
Context {X : Type} `{U : Unicode} `{C : Crypto} `{ED : Evidence.Ed25519} `{UP : URLParser} `{JT : JSONTokens}
  `{JM : JSONDoc threatFeedManifestMessage} `{JD : JSONDoc threatFeedManifestDocument}
  `{JS : JSONDoc ThreatIntelPersistentState} `{TR : !FeedTransport X}.
Implicit Types (m : FeedManager) (w : world X).

(** The pipeline of the local signatures changes its own fields only. *)
Definition signing_only m m' : Prop :=
  exists k e v, m' = set_localVersion v (set_signingErr e (set_signingKey k m)).

Lemma signing_only_refl m : signing_only m m.
Proof. exists (fm_feedSigningKey m), (fm_feedSigningErr m), (fm_localManifestVersion m). by destruct m. Qed.

Lemma ensure_signing_only keyFile m w err m' w' : ensureLocalSigningKey keyFile m w = (err, m', w') -> signing_only m m'.
Proof.
  unfold ensureLocalSigningKey. intros H. destruct (fm_feedSigningKey m) as [k|] eqn:Hk.
  - simplify_eq. apply signing_only_refl.
  - destruct (fm_feedSigningErr m) as [e|]; [simplify_eq; apply signing_only_refl|].
    destruct (loadFeedSigningKeyPair _ _) as [[e|key] w1]; simplify_eq.
    + exists None, (Some (ErrWrap "feeds.local_signing trust anchor unavailable" e)), (fm_localManifestVersion m). rewrite <- Hk. by destruct m.
    + exists (Some key), (fm_feedSigningErr m), (fm_localManifestVersion m). by destruct m.
Qed.

Lemma prepare_signing_only sn m w err m' w' : prepareLocalSignedSnapshots sn m w = (err, m', w') -> signing_only m m'.
Proof.
  unfold prepareLocalSignedSnapshots. intros H. destruct (negb _); [simplify_eq; apply signing_only_refl|].
  destruct (prepare_refusal m); [simplify_eq; apply signing_only_refl|].
  destruct (ensureLocalSigningKey _ _ _) as [[err1 m1] w1] eqn:HE. apply ensure_signing_only in HE.
  destruct err1; [by simplify_eq|]. destruct (fm_feedSigningKey m1) as [key|]; [|by simplify_eq].
  destruct (localSigningKeyPinned m1); [by simplify_eq|]. destruct (orderedSources sn) as [|src l]; [by simplify_eq|].
  destruct (resolve_all _ _ _ _) as [[failures results] w2]. destruct (negb _); [by simplify_eq|].
  destruct (time_Now w2) as [generatedAt w3]. destruct (signed_document _ _ _ _ _) as [?|signed]; [by simplify_eq|].
  destruct (publish_signed _ _ _ _) as [[?|] w4]; [by simplify_eq|]. simplify_eq. destruct HE as (k & e & v & ->).
  by exists k, e, (nextLocalManifestVersion (set_localVersion v (set_signingErr e (set_signingKey k m))) `max` v).
Qed.

(** What only the kernel application publishes. *)
Definition enforcement m : ThreatIndex * gset string * Z * string * kernelReport :=
  (fm_blockIndex m, fm_applied m, fm_generation m, fm_fingerprint m, fm_kernel m).

Lemma conclude_keeps now n tl m : fm_feedStates (conclude now n tl m) = fm_feedStates m /\
  enforcement (conclude now n tl m) = enforcement m /\ fm_lock (conclude now n tl m) = fm_lock m.
Proof. unfold conclude. destruct (_ && _); [done|]. destruct (_ && _); [done|]. by destruct (_ =? _). Qed.

Lemma settle_advances now n rs sn m w block errs m' w' : Forall (result_genuine (signingConfig m) sn) rs ->
  settle now n rs sn m w = (block, errs, m', w') ->
  advances (signingConfig m) sn (fm_feedStates m) (fm_feedStates m') /\ enforcement m' = enforcement m /\ fm_lock m' = fm_lock m.
Proof.
  intros Hrs. unfold settle. destruct (promote_all _ _ _ _ _ _) as [[states tl] w1] eqn:HP.
  apply (promote_all_advances (signingConfig m)) in HP; [|done]. cbn [fst] in HP.
  destruct (composeGenerationsLocked _ _) as [[b c] a]. intros [= _ _ <- _].
  destruct (conclude_keeps now n tl (set_states states m)) as (H1 & H2 & H3). cbn in *. by rewrite H1, H3.
Qed.

Lemma sync_internal_advances arrive m w block errs m' w' : (forall rs, arrive rs ≡ₚ rs) ->
  syncInternal arrive m w = (block, errs, m', w') ->
  advances (signingConfig m) (fm_live m) (fm_feedStates m) (fm_feedStates m') /\ enforcement m' = enforcement m /\
  fm_lock m' = fm_lock m.
Proof.
  intros Harr. unfold syncInternal. destruct (orderedSources (fm_live m)) as [|src l]; [by intros [= _ _ <- _]|].
  destruct (time_Now w) as [now w1]. destruct (prepareLocalSignedSnapshots _ _ _) as [[perr m1] w2] eqn:HP.
  apply prepare_signing_only in HP as (k & e & v & ->). destruct perr as [e'|].
  - destruct (signing_failed _ _ _ _ _ _) as [states w3] eqn:HS. intros [= _ _ <- _].
    split; [|done]. by apply (signing_failed_advances (signingConfig m)) in HS.
  - destruct (fetch_all _ _ _ _) as [rs w3] eqn:HF. apply fetch_all_genuine in HF. intros HS.
    apply settle_advances in HS; [exact HS|]. by rewrite Harr.
Qed.

(** C23: A synchronisation replaces the last good generation of a feed only by
    an accepted download: a non-empty set with its fingerprint, not older than
    the version floor of the feed and, when signed manifests are required,
    exactly the indicators parsed from bytes whose digest, like the digest of
    the indicators, stands in a manifest entry for this feed and URL that a
    pinned key signed. Every other feed keeps its last good generation; the
    mirror of the kernel, the block index and the published generation are
    untouched; the lock is free again, or the call was refused without any
    change. *)
Theorem sync_authenticated arrive holder m w out err m' w' : (forall rs, arrive rs ≡ₚ rs) ->
  SyncWithLock arrive holder m w = (out, err, m', w') ->
  advances (signingConfig m) (fm_live m) (fm_feedStates m) (fm_feedStates m') /\ enforcement m' = enforcement m /\
  match err with
  | None => lk_active (fm_lock m') = false
  | Some _ => m' = m
  end.
Proof.
  intros Harr. unfold SyncWithLock. destruct (time_Now w) as [now w1].
  destruct (TryLock holder now (fm_lock m)) as [[locked remaining] l] eqn:HT. destruct locked; cbn [negb].
  - destruct (syncInternal _ _ _) as [[[items errs] m2] w2] eqn:HS. intros [= _ <- <- _].
    apply sync_internal_advances in HS as (HA & HE & _); [|done]. split; [exact HA|]. split; [exact HE|done].
  - intros [= _ <- <- _]. assert (l = fm_lock m) as -> by (unfold TryLock in HT; repeat case_match; by simplify_eq).
    split; [by destruct m|]. split; [done|by destruct m].
Qed.
End Whole.

(** * Concurrent downloads

    The downloads of a synchronisation finish in any order; what is promoted,
    composed and reported does not depend on it. The status text of a feed is
    set aside: it is derived from the clock whenever it is shown. *)

Definition timeless (g : FeedGenerationState) : FeedGenerationState := set_status "" g.
Definition same_states (s1 s2 : gmap string FeedGenerationState) : Prop := forall id, timeless <$> s1 !! id = timeless <$> s2 !! id.

(** ** The composition does not read the status *)

Lemma publish_timeless budget acc g g' : timeless g = timeless g' -> publish_feed budget acc g = publish_feed budget acc g'.
Proof. destruct g, g'. unfold timeless, set_status. cbn. intros [=]. by subst. Qed.

Lemma publish_all_timeless budget l l' acc : Forall2 (fun g g' => timeless g = timeless g') l l' ->
  fold_left (publish_feed budget) l acc = fold_left (publish_feed budget) l' acc.
Proof. intros H. revert acc. induction H as [|g g' l l' Hg _ IH]; intros acc; cbn; [done|]. rewrite (publish_timeless _ _ g g' Hg). apply IH. Qed.

Lemma same_states_ids s1 s2 : same_states s1 s2 -> (map_to_list s1).*1 ≡ₚ (map_to_list s2).*1.
Proof.
  intros H. apply NoDup_Permutation; [apply NoDup_fst_map_to_list..|]. intros id. rewrite !list_elem_of_fmap.
  assert (forall s s' : gmap string FeedGenerationState, same_states s s' -> (exists y, id = y.1 /\ y ∈ map_to_list s) ->
    exists y, id = y.1 /\ y ∈ map_to_list s') as Hgo.
  { intros s s' Hs ([i g] & -> & Hg). apply elem_of_map_to_list in Hg. specialize (Hs i). rewrite Hg in Hs. cbn in *.
    destruct (s' !! i) as [g'|] eqn:E; [|done]. exists (i, g'). by rewrite elem_of_map_to_list. }
  split; apply Hgo; [done|]. intros i. by symmetry.
Qed.

Lemma same_states_visit s1 s2 ids : same_states s1 s2 ->
  Forall2 (fun g g' => timeless g = timeless g') (omap (fun id => s1 !! id) ids) (omap (fun id => s2 !! id) ids).
Proof.
  intros H. induction ids as [|id ids IH]; cbn [omap list_omap]; [constructor|]. specialize (H id).
  destruct (s1 !! id), (s2 !! id); try done. apply (inj Some) in H. by constructor.
Qed.

Lemma compose_timeless s s1 s2 : same_states s1 s2 -> composeGenerationsLocked s s1 = composeGenerationsLocked s s2.
Proof.
  intros H. unfold composeGenerationsLocked. rewrite (compose_any_order s s2 _ _ (symmetry (same_states_ids _ _ H))).
  unfold compose_in. by rewrite (publish_all_timeless _ _ _ _ (same_states_visit _ _ _ H)).
Qed.

(** ** The promotion, result by result *)

Section Order.
Context {X : Type} `{C : Crypto}.
Implicit Types (w : world X).

(** What a result makes of the state its feed had at the start. *)
Definition outcome (req : bool) (now : time) (sn : threatIntelSnapshot) (r : fetchResult) (g : FeedGenerationState)
    : FeedGenerationState :=
  timeless (match refusal req g r with
            | Some e => failed_gen now 0 e (sn_settings sn) g
            | None => promoted_gen now (sn_settings sn) r g
            end).
Definition wins (req : bool) (sn : threatIntelSnapshot) (states : gmap string FeedGenerationState) (r : fetchResult) : bool :=
  bool_decide (refusal req (gen_for sn states (r_id r)) r = None).
Definition count (b : bool) (l : list bool) : Z := Z.of_nat (length (List.filter (Bool.eqb b) l)).

Lemma gen_for_ne sn (states : gmap string FeedGenerationState) id id' g : id <> id' ->
  gen_for sn (<[id := g]> states) id' = gen_for sn states id'.
Proof. intros. unfold gen_for. by rewrite lookup_insert_ne. Qed.

Lemma promote_step req now sn r states tl w states' tl' w' : promote req now sn r (states, tl) w = (states', tl', w') ->
  (exists g, states' = <[r_id r := g]> states /\ timeless g = outcome req now sn r (gen_for sn states (r_id r))) /\
  tl_success tl' = tl_success tl + (if wins req sn states r then 1 else 0) /\
  tl_fail tl' = tl_fail tl + (if wins req sn states r then 0 else 1).
Proof.
  unfold promote, wins, outcome. intros H. destruct (refusal _ _ _) as [e|].
  - destruct (time_Now w). simplify_eq. cbn. rewrite Z.add_0_r. eauto 10.
  - simplify_eq. cbn. rewrite Z.add_0_r. eauto 10.
Qed.

Lemma promote_all_spec req now sn rs states tl w states' tl' w' : NoDup (map r_id rs) ->
  promote_all req now sn rs (states, tl) w = (states', tl', w') ->
  (forall id, id ∉ map r_id rs -> states' !! id = states !! id) /\
  (forall r, r ∈ rs -> timeless <$> states' !! r_id r = Some (outcome req now sn r (gen_for sn states (r_id r)))) /\
  tl_success tl' = tl_success tl + count true (map (wins req sn states) rs) /\
  tl_fail tl' = tl_fail tl + count false (map (wins req sn states) rs).
Proof.
  revert states tl w. induction rs as [|r rs IH]; intros states tl w Hnd H; cbn [promote_all map] in *.
  { simplify_eq. unfold count. cbn. split_and!; [done|set_solver|lia|lia]. }
  apply NoDup_cons in Hnd as [Hr Hnd]. destruct (promote _ _ _ _ _ _) as [[states1 tl1] w1] eqn:HP.
  apply promote_step in HP as ((g & -> & Hg) & Hs & Hf). apply IH in H as (H1 & H2 & H3 & H4); [|done].
  assert (forall r', r' ∈ rs -> gen_for sn (<[r_id r := g]> states) (r_id r') = gen_for sn states (r_id r')) as Hsame.
  { intros r' Hin. apply gen_for_ne. intros He. apply Hr. rewrite He. by apply (list_elem_of_fmap_2 r_id). }
  assert (map (wins req sn (<[r_id r := g]> states)) rs = map (wins req sn states) rs) as Hw.
  { apply map_ext_in. intros r' Hin. apply list_elem_of_In in Hin. unfold wins. by rewrite Hsame. }
  rewrite Hw in H3, H4. split_and!.
  - intros id Hid. rewrite not_elem_of_cons in Hid. destruct Hid as [Hne Hid]. rewrite H1 by done. by rewrite lookup_insert_ne.
  - intros r' [->|Hin]%elem_of_cons.
    + rewrite H1 by done. rewrite lookup_insert_eq. cbn. by rewrite Hg.
    + rewrite H2 by done. by rewrite Hsame.
  - rewrite H3, Hs. unfold count. cbn. destruct (wins req sn states r); cbn; lia.
  - rewrite H4, Hf. unfold count. cbn. destruct (wins req sn states r); cbn; lia.
Qed.

Lemma count_perm b (l l' : list bool) : l ≡ₚ l' -> count b l = count b l'.
Proof. intros H. unfold count. f_equal. induction H; cbn; repeat (destruct (Bool.eqb b _); cbn); congruence || lia. Qed.

Lemma count_all l : count false l = 0 <-> Forall (fun b => b = true) l.
Proof.
  unfold count. induction l as [|[] l IH]; cbn; [by split| |].
  - rewrite Forall_cons, <- IH. naive_solver.
  - split; [lia|]. intros H. by inversion H.
Qed.
Lemma count_sum l : count true l + count false l = Z.of_nat (length l).
Proof. unfold count. induction l as [|[] l IH]; cbn in *; lia. Qed.

Lemma promote_all_perm req now sn rs rs' states tl w1 w2 states1 tl1 states2 tl2 w1' w2' : rs ≡ₚ rs' -> NoDup (map r_id rs) ->
  promote_all req now sn rs (states, tl) w1 = (states1, tl1, w1') ->
  promote_all req now sn rs' (states, tl) w2 = (states2, tl2, w2') ->
  same_states states1 states2 /\ tl_success tl1 = tl_success tl2 /\ tl_fail tl1 = tl_fail tl2.
Proof.
  intros Hp Hnd H1 H2. assert (NoDup (map r_id rs')) as Hnd' by (by rewrite <- (Permutation_map r_id Hp)).
  apply promote_all_spec in H1 as (A1 & B1 & C1 & D1); [|done]. apply promote_all_spec in H2 as (A2 & B2 & C2 & D2); [|done].
  split.
  - intros id. destruct (decide (id ∈ map r_id rs)) as [Hin|Hout].
    + apply (list_elem_of_fmap_1 r_id) in Hin as (r & -> & Hr). rewrite B1 by done. rewrite B2; [done|]. by rewrite <- Hp.
    + rewrite A1 by done. rewrite A2; [done|]. by rewrite <- (Permutation_map r_id Hp).
  - rewrite C1, C2, D1, D2. by rewrite !(count_perm _ _ _ (Permutation_map (wins req sn states) Hp)).
Qed.
End Order.

Section Settled.
Context {X : Type} `{C : Crypto} `{JS : JSONDoc ThreatIntelPersistentState}.
Implicit Types (w : world X).

(** What a settled synchronisation publishes. *)
Definition published (m : FeedManager) : ThreatIndex * ThreatIndex * ThreatIndex * string * syncTimes * gset string :=
  (fm_blockIndex m, fm_correlateIndex m, fm_annotateIndex m, fm_overallStatus m, fm_times m, fm_applied m).

Lemma conclude_counts now n tl tl' m : tl_success tl = tl_success tl' -> tl_fail tl = tl_fail tl' ->
  conclude now n tl m = conclude now n tl' m.
Proof. unfold conclude. by intros -> ->. Qed.

Lemma conclude_states now n tl states m : conclude now n tl (set_states states m) = set_states states (conclude now n tl m).
Proof. unfold conclude. destruct (_ && _); [done|]. destruct (_ && _); [done|]. by destruct (_ =? _). Qed.

(** C27: The order in which the concurrent downloads of a synchronisation
    finish, and the clock readings in between, do not matter: the composed
    block set, the three indexes, the per-feed generations, the overall status
    and the times are the same. The status is OK exactly when every download
    was promoted. *)
Theorem arrival_order_irrelevant now rs rs' sn m w1 w2 : rs ≡ₚ rs' -> NoDup (map r_id rs) -> rs <> [] ->
  let '(block, _, m1, _) := settle now (Z.of_nat (length rs)) rs sn m w1 in
  let '(block', _, m2, _) := settle now (Z.of_nat (length rs')) rs' sn m w2 in
  block = block' /\ published m1 = published m2 /\ same_states (fm_feedStates m1) (fm_feedStates m2) /\
  (fm_overallStatus m1 = "OK" <->
   forall r, r ∈ rs -> refusal (fc_RequireSignedManifest (fm_cfg m)) (gen_for sn (fm_feedStates m) (r_id r)) r = None).
Proof.
  intros Hp Hnd Hne. unfold settle. rewrite <- (Permutation_length Hp).
  destruct (promote_all _ _ _ rs _ _) as [[states1 tl1] w1'] eqn:H1.
  destruct (promote_all _ _ _ rs' _ _) as [[states2 tl2] w2'] eqn:H2.
  destruct (promote_all_perm _ _ _ _ _ _ _ _ _ _ _ _ _ _ _ Hp Hnd H1 H2) as (Hs & Hok & Hko).
  rewrite (conclude_counts now _ tl1 tl2) by done. rewrite !conclude_states. cbn [fm_feedStates set_states].
  rewrite (compose_timeless (sn_settings sn) states1 states2 Hs).
  destruct (composeGenerationsLocked _ _) as [[b c] a]. split_and!; [done|done|exact Hs|].
  apply promote_all_spec in H1 as (_ & _ & C1 & D1); [|done]. cbn in C1, D1. rewrite Hok in C1. rewrite Hko in D1.
  rewrite Z.add_0_l in C1, D1. set (ws := map (wins _ _ _) rs) in *. pose proof (count_sum ws) as Hsum. pose proof (count_all ws) as Hall.
  assert (length ws = length rs) as Hlen by apply length_map. assert (0 < Z.of_nat (length rs)) as Hpos by (destruct rs; [done|cbn; lia]).
  assert (count false ws = 0 <-> forall r, r ∈ rs -> refusal (fc_RequireSignedManifest (fm_cfg m)) (gen_for sn (fm_feedStates m) (r_id r)) r = None) as <-.
  { rewrite Hall. unfold ws. rewrite Forall_map, Forall_forall. unfold wins. by setoid_rewrite bool_decide_eq_true. }
  cbn. unfold conclude. rewrite C1, D1. assert (0 <= count true ws /\ 0 <= count false ws) as [? ?] by (unfold count; lia).
  destruct (Z.eqb_spec (count false ws) 0) as [Hz|Hz]; cbn.
  - destruct (Z.eqb_spec (count true ws) (Z.of_nat (length rs))); [done|lia].
  - split; [|lia]. destruct (Z.ltb_spec 0 (count true ws)); cbn.
    + destruct (Z.ltb_spec 0 (count false ws)); [done|lia].
    + destruct (Z.eqb_spec (count true ws) 0); [done|lia].
Qed.
End Settled.
