(* ===== verification/FeedKernel.v ===== *)
(** * The kernel application of the threat feeds

    The update of the kernel block map is a transaction: it completes, or the
    published generation stays what it was and the kernel with it, except for
    the one target whose call failed, or the divergence is reported. *)

From Stdlib Require Import ZArith Lia Ascii String.
From stdpp Require Import base gmap strings list sorting.
From S2P Require Import Prelude.
From S2P Require Import GoLib.
From S2P Require Import Strconv.
From S2P Require Import Text.
From S2P Require Import World.
From S2P Require Import Storage.
From S2P Require Import Lines.
From S2P Require Import NetIP.
From S2P Require Import Evidence.
From S2P Require Import State.
From S2P Require Import Release.
From S2P Require Import ReleaseFrames.
From S2P Require Import L7Settings.
From S2P Require Import L7Decode.
From S2P Require Import L7Normalize.
From S2P Require Import ThreatIndex.
From S2P Require Import FeedSettings.
From S2P Require Import FeedFetch.
From S2P Require Import Feeds.
From S2P Require Import FeedSigning.
From S2P Require Import FeedSync.
From S2P Require Import FeedCompose.
From S2P Require Import FeedSyncFacts.

Section Kernel.
Context {X : Type} `{U : Unicode} `{C : Crypto} `{ED : Evidence.Ed25519} `{JS : JSONDoc ThreatIntelPersistentState}
  `{CC : !CoreClient X} `{CL : !CoreLaws X}.
Implicit Types (m : FeedManager) (w : world X) (items done : list string).

Definition blocked w : gset string := kernel (w_ext w).

(** ** One call *)

Lemma add_success t w w' : core_Add t w = (None, w') -> blocked w' = {[t]} ∪ blocked w.
Proof. intros H. pose proof (add_ok _ _ _ H). apply add_only in H as H1. apply add_keeps in H. unfold blocked. set_solver. Qed.
Lemma add_elsewhere t w e w' : core_Add t w = (e, w') -> blocked w' ∖ {[t]} = blocked w ∖ {[t]}.
Proof. intros H. apply add_only in H as H1. apply add_keeps in H. unfold blocked. set_solver. Qed.
Lemma delete_success t w w' : core_Delete t w = (None, w') -> blocked w' = blocked w ∖ {[t]}.
Proof. intros H. pose proof (delete_ok _ _ _ H). apply delete_only in H as H1. apply delete_shrinks in H. unfold blocked. set_solver. Qed.
Lemma delete_elsewhere t w e w' : core_Delete t w = (e, w') -> blocked w' ∖ {[t]} = blocked w ∖ {[t]}.
Proof. intros H. apply delete_only in H as H1. apply delete_shrinks in H. unfold blocked. set_solver. Qed.

(** ** The loops *)

(** A loop of calls with the effect [f] on success. *)
Section Calls.
Context (call : string -> world X -> error * world X) (f : gset string -> gset string -> gset string).
Context (Hok : forall t w w', call t w = (None, w') -> blocked w' = f {[t]} (blocked w)).
Context (Helse : forall t w e w', call t w = (e, w') -> blocked w' ∖ {[t]} = blocked w ∖ {[t]}).
Context (Hnil : forall s, f ∅ s = s) (Hcomp : forall a b s, f a (f b s) = f (a ∪ b) s).

Lemma call_all_spec items done w done' failure w' : call_all call items done w = (done', failure, w') ->
  exists made, done' = done ++ made /\
  match failure with
  | None => made = items /\ blocked w' = f (list_to_set items) (blocked w)
  | Some (t, _) => blocked w' ∖ {[t]} = f (list_to_set made) (blocked w) ∖ {[t]} /\ made ⊆ items /\ t ∈ items
  end.
Proof.
  revert done w. induction items as [|i l IH]; intros done w; cbn [call_all].
  { intros [= <- <- <-]. exists []. rewrite app_nil_r. cbn. by rewrite Hnil. }
  destruct (call i w) as [[e|] w1] eqn:HC.
  - intros [= <- <- <-]. exists []. rewrite app_nil_r. cbn. rewrite Hnil. split; [done|]. split; [by eapply Helse|]. set_solver.
  - apply Hok in HC. intros H. apply IH in H as (made & -> & H). exists (i :: made). rewrite <- app_assoc. split; [done|].
    assert (f (list_to_set made) (f {[i]} (blocked w)) = f (list_to_set (i :: made)) (blocked w)) as Hi.
    { rewrite Hcomp. f_equal. set_solver. }
    rewrite HC, Hi in H. destruct failure as [[t e]|].
    + destruct H as (H & H1 & H2). split; [done|]. set_solver.
    + destruct H as [-> H]. by rewrite H, Hi.
Qed.

Lemma undo_all_spec items w w' : undo_all call items w = (false, w') -> blocked w' = f (list_to_set items) (blocked w).
Proof.
  revert w. induction items as [|i l IH]; intros w; cbn [undo_all]; [intros [= <-]; cbn; by rewrite Hnil|].
  destruct (call i w) as [e w1] eqn:HC. destruct (undo_all call l w1) as [failed w2] eqn:HU. intros [= Hf <-].
  apply orb_false_iff in Hf as [He ->]. apply bool_decide_eq_false in He. destruct e; [by destruct He|].
  apply Hok in HC. rewrite (IH _ HU), HC, Hcomp. f_equal. set_solver.
Qed.
End Calls.

Lemma minus_empty (s : gset string) : s ∖ ∅ = s.
Proof. set_solver. Qed.
Lemma minus_minus (a b s : gset string) : (s ∖ b) ∖ a = s ∖ (a ∪ b).
Proof. set_solver. Qed.

Lemma adds items done w done' failure w' : call_all core_Add items done w = (done', failure, w') ->
  exists made, done' = done ++ made /\
  match failure with
  | None => made = items /\ blocked w' = list_to_set items ∪ blocked w
  | Some (t, _) => blocked w' ∖ {[t]} = (list_to_set made ∪ blocked w) ∖ {[t]} /\ made ⊆ items /\ t ∈ items
  end.
Proof. apply (call_all_spec core_Add (∪)); [exact add_success|exact add_elsewhere|set_solver|set_solver]. Qed.
Lemma deletes items done w done' failure w' : call_all core_Delete items done w = (done', failure, w') ->
  exists made, done' = done ++ made /\
  match failure with
  | None => made = items /\ blocked w' = blocked w ∖ list_to_set items
  | Some (t, _) => blocked w' ∖ {[t]} = (blocked w ∖ list_to_set made) ∖ {[t]} /\ made ⊆ items /\ t ∈ items
  end.
Proof. apply (call_all_spec core_Delete (fun a s => s ∖ a)); [exact delete_success|exact delete_elsewhere|exact minus_empty|exact minus_minus]. Qed.
Lemma undo_adds items w w' : undo_all core_Delete items w = (false, w') -> blocked w' = blocked w ∖ list_to_set items.
Proof. apply (undo_all_spec core_Delete (fun a s => s ∖ a)); [exact delete_success|exact delete_elsewhere|exact minus_empty|exact minus_minus]. Qed.
Lemma undo_deletes items w w' : undo_all core_Add items w = (false, w') -> blocked w' = list_to_set items ∪ blocked w.
Proof. apply (undo_all_spec core_Add (∪)); [exact add_success|exact add_elsewhere|set_solver|set_solver]. Qed.

(** ** What does not reach the kernel *)

Lemma save_quiet m w : w_ext (save m w) = w_ext w.
Proof.
  unfold save, savePersistentStateLocked. destruct (json_Marshal _); [done|].
  destruct (os_MkdirAll w) as [[e|] w1] eqn:HM; apply sys_post in HM as (_ & HM & _); [exact HM|].
  destruct (atomicWriteFile _ _ _ w1) as [e w2] eqn:HA. apply atomicWriteFile_post in HA as [(_ & HA & _) _ _]. cbn. congruence.
Qed.

Lemma read_file_quiet path w r w' : os_ReadFile path w = (r, w') -> w_ext w' = w_ext w.
Proof. unfold os_ReadFile, World.sys. destruct (_ <$> _); [by intros [= _ <-]|]. destruct (_ !! _); by intros [= _ <-]. Qed.
Lemma lstat_quiet path w r w' : os_Lstat path w = (r, w') -> w_ext w' = w_ext w.
Proof. unfold os_Lstat, World.sys. destruct (_ <$> _); [by intros [= _ <-]|]. destruct (_ !! _); by intros [= _ <-]. Qed.

Lemma load_key_quiet path w r w' : loadFeedSigningKeyPair path w = (r, w') -> w_ext w' = w_ext w.
Proof.
  unfold loadFeedSigningKeyPair. destruct (negb _); [by intros [= _ <-]|]. destruct (os_Lstat _ _) as [[?|info] w1] eqn:HL;
    apply lstat_quiet in HL; [by intros [= _ <-]|]. destruct (decide _); [by intros [= _ <-]|]. destruct (_ || _); [by intros [= _ <-]|].
  destruct (negb _); [by intros [= _ <-]|]. destruct (os_ReadFile _ _) as [[?|raw] w2] eqn:HR; apply read_file_quiet in HR.
  - intros [= _ <-]. congruence.
  - destruct (_ =? _); [intros [= _ <-]; congruence|]. destruct (_ =? _); intros [= _ <-]; congruence.
Qed.
Lemma ensure_quiet keyFile m w err m' w' : ensureLocalSigningKey keyFile m w = (err, m', w') -> w_ext w' = w_ext w.
Proof.
  unfold ensureLocalSigningKey. destruct (fm_feedSigningKey m); [by intros [= _ _ <-]|]. destruct (fm_feedSigningErr m); [by intros [= _ _ <-]|].
  destruct (loadFeedSigningKeyPair _ _) as [[?|key] w1] eqn:HL; apply load_key_quiet in HL; by intros [= _ _ <-].
Qed.

Lemma report_quiet status text m w m' w' : report_failure status text m w = (m', w') -> w_ext w' = w_ext w.
Proof. unfold report_failure. destruct (time_Now w) as [now w1] eqn:HT. intros [= _ <-]. rewrite save_quiet. unfold time_Now in HT. by simplify_eq. Qed.
Lemma commit_quiet s block a d m w m' w' : commit s block a d m w = (m', w') -> w_ext w' = w_ext w.
Proof.
  unfold commit. destruct (composeGenerationsLocked _ _) as [[? ?] ?]. destruct (time_Now w) as [now w1] eqn:HT. intros [= _ <-].
  rewrite save_quiet. unfold time_Now in HT. by simplify_eq.
Qed.

(** ** The diff *)

Definition target_block m : list string := (composeGenerationsLocked (activeSettings m) (fm_feedStates m)).1.1.

(** The mirror is right about the targets of the feeds. *)
Definition mirrored m w : Prop :=
  forall i, i ∈ target_block m \/ i ∈ fm_applied m -> (i ∈ blocked w <-> i ∈ fm_applied m).

(** What a failed update leaves alone. *)
Definition published_state m : ThreatIndex * ThreatIndex * ThreatIndex * gset string * Z * string * gmap string FeedGenerationState :=
  (fm_blockIndex m, fm_correlateIndex m, fm_annotateIndex m, fm_applied m, fm_generation m, fm_fingerprint m, fm_feedStates m).

Record not_applied m w m' w' : Prop := {
  na_published : published_state m' = published_state m;
  na_status : kr_status (fm_kernel m') = kernelApplyError \/ kr_status (fm_kernel m') = kernelApplyDivergent;
  na_restored : mirrored m w -> kr_status (fm_kernel m') = kernelApplyError -> exists t, blocked w' ∖ {[t]} = blocked w ∖ {[t]};
}.
Record applied_now m w m' w' : Prop := {
  an_mirror : fm_applied m' = list_to_set (target_block m);
  an_index : fm_blockIndex m' = Replace (target_block m) (fm_blockIndex m);
  an_generation : fm_generation m' = u64 (fm_generation m + 1) /\ fm_fingerprint m' = computeFingerprint (target_block m);
  an_status : kr_status (fm_kernel m') = kernelApplyApplied;
  an_exact : blocked w' = (blocked w ∪ list_to_set (additions m (target_block m))) ∖ list_to_set (deletions m (target_block m));
}.

Lemma elem_additions m block i : i ∈ additions m block <-> i ∈ block /\ i ∉ fm_applied m.
Proof.
  unfold additions, sort_Strings. rewrite merge_sort_Permutation, list_elem_of_In, filter_In, <- list_elem_of_In, bool_decide_eq_true. done.
Qed.
Lemma elem_deletions m block i : i ∈ deletions m block <-> i ∈ fm_applied m /\ i ∉ block.
Proof.
  unfold deletions, sort_Strings. rewrite merge_sort_Permutation, list_elem_of_In, filter_In, <- list_elem_of_In, bool_decide_eq_true, elem_of_elements. done.
Qed.

(** The two rollbacks, for a target other than the one that failed. *)
Lemma elsewhere_iff (x t : string) (k k' : gset string) : x <> t -> k ∖ {[t]} = k' ∖ {[t]} -> (x ∈ k <-> x ∈ k').
Proof.
  intros Hx Hk. assert (x ∈ k ∖ {[t]} <-> x ∈ k' ∖ {[t]}) as Hi by (by rewrite Hk).
  rewrite !elem_of_difference, !not_elem_of_singleton in Hi. naive_solver.
Qed.
Lemma undone_additions (x t : string) (made : list string) (k0 k1 k2 : gset string) : x <> t ->
  k1 ∖ {[t]} = (list_to_set made ∪ k0) ∖ {[t]} -> k2 = k1 ∖ list_to_set made -> (x ∈ made -> x ∉ k0) -> (x ∈ k2 <-> x ∈ k0).
Proof.
  intros Hx H1 -> Hm. apply (elsewhere_iff x t) in H1; [|done]. rewrite elem_of_difference, H1, elem_of_union, elem_of_list_to_set.
  destruct (decide (x ∈ made)); naive_solver.
Qed.
Lemma undone_deletions (x t : string) (gone toAdd : list string) (k0 k1 k2 k3 k4 : gset string) : x <> t ->
  k1 = list_to_set toAdd ∪ k0 -> k2 ∖ {[t]} = (k1 ∖ list_to_set gone) ∖ {[t]} -> k3 = list_to_set gone ∪ k2 ->
  k4 = k3 ∖ list_to_set toAdd -> (x ∈ gone -> x ∈ k0 /\ x ∉ toAdd) -> (x ∈ toAdd -> x ∉ k0) -> (x ∈ k4 <-> x ∈ k0).
Proof.
  intros Hx -> H2 -> -> Hg Ha. apply (elsewhere_iff x t) in H2; [|done].
  rewrite elem_of_difference, elem_of_union, H2, elem_of_difference, elem_of_union, !elem_of_list_to_set.
  destruct (decide (x ∈ gone)), (decide (x ∈ toAdd)); naive_solver.
Qed.

Lemma sync_failure_inv status e suffix text m w a d err m' w' : sync_failure status e suffix text m w = (a, d, err, m', w') ->
  a = 0 /\ d = 0 /\ err <> None /\ published_state m' = published_state m /\ kr_status (fm_kernel m') = status /\ w_ext w' = w_ext w.
Proof.
  unfold sync_failure. destruct (report_failure _ _ _ _) as [m1 w1] eqn:HR. pose proof (report_quiet _ _ _ _ _ _ HR) as Hq.
  unfold report_failure in HR. destruct (time_Now w). intros [= <- <- <- <- <-]. simplify_eq. done.
Qed.

Lemma commit_inv s block a d m w m' w' : commit s block a d m w = (m', w') ->
  fm_applied m' = list_to_set block /\ fm_blockIndex m' = Replace block (fm_blockIndex m) /\
  fm_generation m' = u64 (fm_generation m + 1) /\ fm_fingerprint m' = computeFingerprint block /\
  kr_status (fm_kernel m') = kernelApplyApplied /\ w_ext w' = w_ext w.
Proof.
  intros H. pose proof (commit_quiet _ _ _ _ _ _ _ _ H) as Hq. unfold commit in H.
  destruct (composeGenerationsLocked _ _) as [[? ?] ?]. destruct (time_Now w). simplify_eq. done.
Qed.

Lemma apply_diff_inv s m w a d err m' w' :
  apply_diff true s (target_block m) (additions m (target_block m)) (deletions m (target_block m)) m w = (a, d, err, m', w') ->
  match err with
  | None => applied_now m w m' w' /\ a = Z.of_nat (length (additions m (target_block m))) /\ d = Z.of_nat (length (deletions m (target_block m)))
  | Some _ => not_applied m w m' w' /\ a = 0 /\ d = 0
  end.
Proof.
  unfold apply_diff. set (toAdd := additions _ _). set (toDel := deletions _ _).
  assert (forall i, i ∈ toAdd <-> i ∈ target_block m /\ i ∉ fm_applied m) as HtA by apply elem_additions.
  assert (forall i, i ∈ toDel <-> i ∈ fm_applied m /\ i ∉ target_block m) as HtD by apply elem_deletions.
  destruct (call_all core_Add toAdd [] w) as [[added failure] w1] eqn:HA. apply adds in HA as (made & -> & HA). cbn [app].
  destruct failure as [[t e]|].
  - destruct HA as (HA & Hsub & Ht). destruct (undo_all core_Delete made w1) as [failed w2] eqn:HU. intros H.
    apply sync_failure_inv in H as (-> & -> & Herr & Hp & Hst & Hw). destruct err; [|done]. split; [|done]. split; [done| |].
    + rewrite Hst. destruct failed; auto.
    + intros Hm. rewrite Hst. destruct failed; [done|]. intros _. apply undo_adds in HU. exists t. unfold blocked in *. rewrite Hw.
      apply set_eq. intros x. rewrite !elem_of_difference, !not_elem_of_singleton.
      destruct (decide (x = t)) as [->|Hne]; [naive_solver|]. rewrite (undone_additions x t made (kernel (w_ext w)) _ _ Hne HA HU); [done|].
      intros Hx. apply Hsub, HtA in Hx as [Hb Hn]. intros Hk. by apply Hn, Hm; [left|].
  - destruct HA as [-> HA]. destruct (call_all core_Delete toDel [] w1) as [[deleted failure] w2] eqn:HD.
    apply deletes in HD as (gone & -> & HD). cbn [app]. destruct failure as [[t e]|].
    + destruct HD as (HD & Hsub & Ht). destruct (undo_all core_Add gone w2) as [failed1 w3] eqn:HU1.
      destruct (undo_all core_Delete toAdd w3) as [failed2 w4] eqn:HU2. intros H.
      apply sync_failure_inv in H as (-> & -> & Herr & Hp & Hst & Hw). destruct err; [|done]. split; [|done]. split; [done| |].
      * rewrite Hst. destruct (failed1 || failed2); auto.
      * intros Hm. rewrite Hst. destruct failed1, failed2; try done. intros _. apply undo_deletes in HU1. apply undo_adds in HU2.
        exists t. unfold blocked in *. rewrite Hw. apply set_eq. intros x. rewrite !elem_of_difference, !not_elem_of_singleton.
        destruct (decide (x = t)) as [->|Hne]; [naive_solver|].
        rewrite (undone_deletions x t gone toAdd (kernel (w_ext w)) _ _ _ _ Hne HA HD HU1 HU2); [done| |].
        -- intros Hx. apply Hsub, HtD in Hx as [Hi Hb]. rewrite HtA. split; [by apply Hm; [right|]|naive_solver].
        -- rewrite HtA. intros [Hb Hn] Hk. by apply Hn, Hm; [left|].
    + destruct HD as [-> HD]. destruct (commit _ _ _ _ _ _) as [m1 w3] eqn:HC. apply commit_inv in HC as (H1 & H2 & H3 & H4 & H5 & H6).
      intros [= <- <- <- <- <-]. split; [|done]. split; [done|done|done|done|]. unfold blocked in *. rewrite H6, HD, HA. set_solver.
Qed.

(** ** The gates *)

Lemma refused_before m w status text m' w' (e : goerror) : status = kernelApplyError -> report_failure status text m w = (m', w') ->
  not_applied m w m' w'.
Proof.
  intros -> H. pose proof (report_quiet _ _ _ _ _ _ H) as Hq. unfold report_failure in H. destruct (time_Now w). simplify_eq.
  split; [done|by left|]. intros _ _. exists "". unfold blocked. by rewrite Hq.
Qed.

(** Every enabled blocking feed with indicators is vouched for at [now]. *)
Definition vouched (now : time) m : Prop := forall f g, f ∈ fa_Feeds (activeSettings m) -> fd_Enabled f = true ->
  fd_Action f = FeedActionBlock -> fm_feedStates m !! fd_ID f = Some g -> g_LastGoodItems g <> [] ->
  g_ManifestVerified g = true /\ now < g_ManifestValidUntil g /\ g_ManifestVersion g <> 0.

Lemma unsigned_none now states feeds : unsigned_feed now states feeds = None -> forall f g, f ∈ feeds -> fd_Enabled f = true ->
  fd_Action f = FeedActionBlock -> states !! fd_ID f = Some g -> g_LastGoodItems g <> [] ->
  g_ManifestVerified g = true /\ now < g_ManifestValidUntil g /\ g_ManifestVersion g <> 0.
Proof.
  induction feeds as [|f0 l IH]; [set_solver|]. cbn [unsigned_feed]. intros H f g [->|Hin]%elem_of_cons He Ha Hg Hi.
  - rewrite He, Ha, Hg in H. rewrite bool_decide_true in H by done. cbn [negb orb] in H. rewrite bool_decide_false in H by done.
    destruct (g_ManifestVerified g); [|done]. unfold Time.IsZero, Time.Before in H. cbn in H.
    destruct (_ =? 0) eqn:E1; [done|]. destruct (Z.ltb_spec now (g_ManifestValidUntil g)); [|done]. cbn in H.
    destruct (Z.eqb_spec (g_ManifestVersion g) 0); done.
  - apply (IH ltac:(repeat case_match; done) f g); done.
Qed.

Lemma preload_inv m w m1 w1 : preload_key m w = (m1, w1) -> signing_only m m1 /\ w_ext w1 = w_ext w.
Proof.
  unfold preload_key. intros H. destruct (_ && _); [|simplify_eq; split; [apply signing_only_refl|done]].
  destruct (ensureLocalSigningKey _ _ _) as [[? m2] w2] eqn:HS. simplify_eq. split; [by eapply ensure_signing_only|by eapply ensure_quiet].
Qed.

Lemma apply_locked_inv m w a d err m' w' : apply_locked true m w = (a, d, err, m', w') ->
  match err with
  | None => applied_now m w m' w' /\ a = Z.of_nat (length (additions m (target_block m))) /\
      d = Z.of_nat (length (deletions m (target_block m))) /\
      (fc_RequireSignedManifest (fm_cfg m) = true -> exists now, vouched now m)
  | Some _ => not_applied m w m' w' /\ a = 0 /\ d = 0
  end.
Proof.
  unfold apply_locked. destruct (localSigningApplyGate m) as [e|].
  { destruct (report_failure _ _ _ _) as [m1 w1] eqn:HR. intros [= <- <- <- <- <-]. split; [|done]. by eapply refused_before. }
  destruct (if fc_RequireSignedManifest _ then _ else _) as [unsigned w1] eqn:HU.
  assert (w_ext w1 = w_ext w /\ (unsigned = None -> fc_RequireSignedManifest (fm_cfg m) = true -> exists now, vouched now m)) as [Hw Hv].
  { destruct (fc_RequireSignedManifest _); [|by simplify_eq]. unfold time_Now in HU. simplify_eq. split; [done|].
    intros Hn _. eexists. intros f g. by apply (unsigned_none _ _ _ Hn). }
  assert (forall m' w', not_applied m w1 m' w' -> not_applied m w m' w') as Hna.
  { intros m2 w2 [H1 H2 H3]. split; [done|done|]. unfold mirrored, blocked in *. by rewrite Hw in H3. }
  destruct unsigned as [e|].
  { destruct (report_failure _ _ _ _) as [m1 w2] eqn:HR. intros [= <- <- <- <- <-]. split; [|done]. apply Hna. by eapply refused_before. }
  specialize (Hv eq_refl). pose proof (eq_refl (target_block m)) as Ht. unfold target_block at 1 in Ht.
  destruct (composeGenerationsLocked _ _) as [[block c] n]. cbn in Ht. subst block.
  destruct (_ && _).
  { destruct (report_failure _ _ _ _) as [m1 w2] eqn:HR. intros [= <- <- <- <- <-]. split; [|done]. apply Hna.
    eapply refused_before; [exact (ErrText "")|done|done]. }
  intros H. apply apply_diff_inv in H. destruct err; [naive_solver|]. destruct H as ([H1 H2 H3 H4 H5] & -> & ->). split; [|done].
  split; [done|done|done|done|]. unfold blocked in *. by rewrite <- Hw.
Qed.

(** C22: [ApplyToKernel] is a transaction when the mirror agrees with the kernel
    about the feeds' targets before the call ([mirrored]; nothing in the code
    restores that agreement once it is lost). On success the mirror, the block
    index and the fingerprint are the composed block set, and the kernel holds
    it beside exactly the entries that never were the feeds'; under the
    signed-manifest policy every enabled blocking feed was vouched for by an
    unexpired manifest. On failure the published indexes, generation and mirror
    are untouched and the kernel is as before except for at most the one target
    whose call failed, unless the state is reported as DIVERGENT. *)
Theorem feed_apply_transaction m w a d err m' w' : mirrored m w -> ApplyToKernel true m w = (a, d, err, m', w') ->
  match err with
  | None =>
      fm_applied m' = list_to_set (target_block m) /\ fm_blockIndex m' = Replace (target_block m) (fm_blockIndex m) /\
      kr_status (fm_kernel m') = kernelApplyApplied /\
      (forall x, x ∈ blocked w' <-> x ∈ target_block m \/ (x ∈ blocked w /\ x ∉ fm_applied m)) /\
      (fc_RequireSignedManifest (fm_cfg m) = true -> exists now, vouched now m)
  | Some _ =>
      published_state m' = published_state m /\ a = 0 /\ d = 0 /\
      (kr_status (fm_kernel m') = kernelApplyDivergent \/
       (kr_status (fm_kernel m') = kernelApplyError /\ exists t, blocked w' ∖ {[t]} = blocked w ∖ {[t]}))
  end.
Proof.
  intros Hm. unfold ApplyToKernel. destruct (preload_key m w) as [m1 w1] eqn:HE. apply preload_inv in HE as [(k & e & v & ->) Hw].
  intros H. apply apply_locked_inv in H. destruct err as [e'|].
  - destruct H as ([H1 H2 H3] & -> & ->). split; [exact H1|]. do 2 (split; [done|]). destruct H2 as [H2|H2]; [right|by left].
    split; [done|]. unfold blocked in *. rewrite <- Hw. apply H3; [|done]. intros i Hi. unfold blocked. rewrite Hw. by apply Hm.
  - destruct H as ([H1 H2 _ H4 H5] & _ & _ & H8). split; [exact H1|]. split; [exact H2|]. split; [done|]. split; [|exact H8].
    intros x. rewrite H5. unfold blocked in *. rewrite Hw, elem_of_difference, elem_of_union, !elem_of_list_to_set, elem_additions, elem_deletions.
    specialize (Hm x). cbn. unfold target_block in *. cbn in *. destruct (decide (x ∈ fm_applied m)), (decide (x ∈ (composeGenerationsLocked (activeSettings m) (fm_feedStates m)).1.1)); naive_solver.
Qed.

(** C40: A kernel application trusts its mirror: when the mirror already is the
    composed block set, a successful call adds and deletes nothing and reports
    APPLIED, whatever the kernel holds. In particular after a reconciliation
    emptied the block map the feeds stay absent from it. *)
Theorem reapply_blind m w a d m' w' : fm_applied m = list_to_set (target_block m) ->
  ApplyToKernel true m w = (a, d, None, m', w') ->
  a = 0 /\ d = 0 /\ blocked w' = blocked w /\ kr_status (fm_kernel m') = kernelApplyApplied.
Proof.
  intros Hm. unfold ApplyToKernel. destruct (preload_key m w) as [m1 w1] eqn:HE. apply preload_inv in HE as [(k & e & v & ->) Hw].
  intros H. apply apply_locked_inv in H. destruct H as ([_ _ _ H4 H5] & -> & -> & _).
  set (m1 := set_localVersion _ _) in *. change (target_block m1) with (target_block m) in *. change (fm_applied m) with (fm_applied m1) in Hm.
  assert (additions m1 (target_block m) = []) as Ha.
  { apply elem_of_nil_inv. intros i. rewrite elem_additions, Hm, elem_of_list_to_set. naive_solver. }
  assert (deletions m1 (target_block m) = []) as Hd.
  { apply elem_of_nil_inv. intros i. rewrite elem_deletions, Hm, elem_of_list_to_set. naive_solver. }
  rewrite Ha, Hd in *. cbn in H5. split_and!; [done|done| |done]. rewrite H5. unfold blocked. rewrite Hw. set_solver.
Qed.
End Kernel.
