(* ===== verification/KernelHook.v ===== *)
(** * The hook after a kernel reconciliation

    The function [main] (src/control/main.go) installs with
    [SetKernelReconciledHook]: it republishes the threat feeds after the
    release controller rewrote the kernel block map. It keeps the promise the
    controller's theorems rely on, [hook_ok]. *)

From Stdlib Require Import ZArith Lia Ascii String.
From stdpp Require Import base gmap strings list sorting.
From S2P Require Import Prelude.
From S2P Require Import GoLib.
From S2P Require Import Text.
From S2P Require Import World.
From S2P Require Import Storage.
From S2P Require Import Evidence.
From S2P Require Import Exec.
From S2P Require Import State.
From S2P Require Import Release.
From S2P Require Import ReleaseFrames.
From S2P Require Import FeedSettings.
From S2P Require Import Feeds.
From S2P Require Import FeedSigning.
From S2P Require Import FeedSync.
From S2P Require Import FeedSyncFacts.
From S2P Require Import FeedKernel.

(** Where the closure finds the feed manager and the settings. *)
Class FeedHost (X : Type) := {
  fh_feeds : X -> FeedManager;
  fh_put : FeedManager -> X -> X;
  fh_FeedsEnabled : X -> bool;
}.

Section Hook.
Context {L K X : Type} `{SK : !Sinks L K X} `{QS : !QuietSinks L K X} `{U : Unicode} `{C : Crypto} `{ED : Evidence.Ed25519}
  `{JS : JSONDoc ThreatIntelPersistentState} `{CC : !CoreClient X} `{CL : !CoreLaws X} `{FH : !FeedHost X}.
Implicit Types (m : FeedManager) (w : world X) (s : State L K).

(** The closure. *)
Definition kernel_reconciled : M (State L K * world X) unit := fun '(s, w) =>
  let m := fh_feeds (w_ext w) in
  if negb (fh_FeedsEnabled (w_ext w)) || negb (ks_AutoApply (fa_Kernel (activeSettings m))) || (fm_generation m =? 0)
  then Some (tt, (s, w))
  else
    let '(added, deleted, err, m, w) := ApplyToKernel true m w in
    let w := set_ext (fh_put m (w_ext w)) w in
    match err with
    | Some e =>
        AddEvent (mkEvent "" 0 "warning" "feeds.kernel_reapply_failed" "intelligence"
          ("Threat intelligence kernel republication after a release reconciliation failed: " +:+ error_text e) "") (s, w)
    | None =>
        if (0 <? added) || (0 <? deleted)
        then AddEvent (mkEvent "" 0 "info" "feeds.kernel_reapplied" "intelligence"
               ("Threat intelligence republished after release reconciliation: +" +:+ itoa added +:+ "/-" +:+ itoa deleted +:+
                " kernel entries") "") (s, w)
        else Some (tt, (s, w))
    end.

(** The targets the feeds own: what they applied and what they compose. *)
Definition feed_targets m : gset string := fm_applied m ∪ list_to_set (target_block m).

(** ** The kernel outside the feeds' targets *)

Section Elsewhere.
Context (call : string -> world X -> error * world X).
Context (Helse : forall t w e w', call t w = (e, w') -> blocked w' ∖ {[t]} = blocked w ∖ {[t]}).

Lemma call_all_elsewhere x items done w done' failure w' : x ∉ items -> call_all call items done w = (done', failure, w') ->
  x ∈ blocked w' <-> x ∈ blocked w.
Proof.
  revert done w. induction items as [|i l IH]; intros done w Hx H; cbn [call_all] in H; [by simplify_eq|].
  apply not_elem_of_cons in Hx as [Hi Hl]. destruct (call i w) as [[e|] w1] eqn:HC; pose proof (elsewhere_iff x i _ _ Hi (Helse _ _ _ _ HC)) as HE.
  - by simplify_eq.
  - rewrite (IH _ _ Hl H). exact HE.
Qed.
Lemma undo_all_elsewhere x items w failed w' : x ∉ items -> undo_all call items w = (failed, w') -> x ∈ blocked w' <-> x ∈ blocked w.
Proof.
  revert w failed. induction items as [|i l IH]; intros w failed Hx H; cbn [undo_all] in H; [by simplify_eq|].
  apply not_elem_of_cons in Hx as [Hi Hl]. destruct (call i w) as [e w1] eqn:HC. destruct (undo_all call l w1) as [f w2] eqn:HU.
  simplify_eq. rewrite (IH _ _ Hl HU). exact (elsewhere_iff x i _ _ Hi (Helse _ _ _ _ HC)).
Qed.
End Elsewhere.

(** What every outcome of an application leaves of the rest. *)
Record feeds_only m w m' w' : Prop := {
  fo_kernel : forall x, x ∉ feed_targets m -> x ∈ blocked w' <-> x ∈ blocked w;
  fo_targets : feed_targets m' ⊆ feed_targets m;
}.

Lemma feeds_only_failure status e suffix text m w w0 a d err m' w' :
  (forall x, x ∉ feed_targets m -> x ∈ blocked w <-> x ∈ blocked w0) ->
  sync_failure status e suffix text m w = (a, d, err, m', w') -> feeds_only m w0 m' w'.
Proof.
  intros Hk H. pose proof (sync_failure_inv _ _ _ _ _ _ _ _ _ _ _ H) as (_ & _ & _ & _ & _ & Hw). unfold sync_failure, report_failure in H.
  destruct (time_Now w). simplify_eq. constructor; [|done]. intros x Hx. unfold blocked at 1. rewrite Hw. by apply Hk.
Qed.
Lemma feeds_only_report status text m w m' w' : report_failure status text m w = (m', w') -> feeds_only m w m' w'.
Proof.
  intros H. pose proof (report_quiet _ _ _ _ _ _ H) as Hw. unfold report_failure in H. destruct (time_Now w). simplify_eq.
  constructor; [|done]. intros x _. unfold blocked. by rewrite Hw.
Qed.

Lemma apply_diff_only (st : ThreatIntelFabricSettings) m w a d err m' w' :
  apply_diff true st (target_block m) (additions m (target_block m)) (deletions m (target_block m)) m w = (a, d, err, m', w') ->
  feeds_only m w m' w'.
Proof.
  unfold apply_diff. set (toAdd := additions _ _). set (toDel := deletions _ _).
  assert (forall x, x ∉ feed_targets m -> (x ∉ toAdd) /\ (x ∉ toDel)) as Hout.
  { intros x Hx. unfold feed_targets in Hx. rewrite elem_of_union, elem_of_list_to_set in Hx.
    split; [intros [? _]%elem_additions|intros [? _]%elem_deletions]; tauto. }
  destruct (call_all core_Add toAdd [] w) as [[added failure] w1] eqn:HA.
  assert (added ⊆ toAdd) as Hadded.
  { apply adds in HA as (made & -> & HA). destruct failure as [[t e]|]; [apply HA|]. by destruct HA as [-> _]. }
  assert (forall x, x ∉ feed_targets m -> x ∈ blocked w1 <-> x ∈ blocked w) as H1.
  { intros x [Hx _]%Hout. by eapply (call_all_elsewhere core_Add add_elsewhere). }
  assert (forall x, x ∉ feed_targets m -> x ∉ added) as Hna by (intros x [Hx _]%Hout; set_solver).
  destruct failure as [[t e]|].
  { destruct (undo_all core_Delete added w1) as [failed w2] eqn:HU. apply feeds_only_failure. intros x Hx. rewrite <- (H1 x Hx).
    eapply (undo_all_elsewhere core_Delete delete_elsewhere); [by apply Hna|exact HU]. }
  destruct (call_all core_Delete toDel [] w1) as [[deleted failure] w2] eqn:HD.
  assert (deleted ⊆ toDel) as Hdeleted.
  { apply deletes in HD as (made & -> & HD). destruct failure as [[t e]|]; [apply HD|]. by destruct HD as [-> _]. }
  assert (forall x, x ∉ feed_targets m -> x ∈ blocked w2 <-> x ∈ blocked w) as H2.
  { intros x Hx. rewrite <- (H1 x Hx). apply Hout in Hx as [_ Hx]. by eapply (call_all_elsewhere core_Delete delete_elsewhere). }
  assert (forall x, x ∉ feed_targets m -> x ∉ deleted) as Hnd by (intros x [_ Hx]%Hout; set_solver).
  destruct failure as [[t e]|].
  - destruct (undo_all core_Add deleted w2) as [failed1 w3] eqn:HU1. destruct (undo_all core_Delete added w3) as [failed2 w4] eqn:HU2.
    apply feeds_only_failure. intros x Hx. rewrite <- (H2 x Hx).
    rewrite (undo_all_elsewhere core_Delete delete_elsewhere _ _ _ _ _ (Hna _ Hx) HU2).
    exact (undo_all_elsewhere core_Add add_elsewhere _ _ _ _ _ (Hnd _ Hx) HU1).
  - destruct (commit _ _ _ _ _ _) as [m1 w3] eqn:HC. pose proof (commit_inv _ _ _ _ _ _ _ _ HC) as (Hap & _ & _ & _ & _ & Hw).
    intros [= <- <- <- <- <-]. constructor.
    + intros x Hx. unfold blocked at 1. rewrite Hw. by apply H2.
    + assert (target_block m1 = target_block m) as Ht.
      { unfold commit in HC. destruct (composeGenerationsLocked _ _) as [[? ?] ?]. destruct (time_Now w2). by simplify_eq. }
      unfold feed_targets. rewrite Hap, Ht. set_solver.
Qed.

Lemma apply_locked_only m w a d err m' w' : apply_locked true m w = (a, d, err, m', w') -> feeds_only m w m' w'.
Proof.
  intros H. unfold apply_locked in H. destruct (localSigningApplyGate m) as [e1|].
  { destruct (report_failure _ _ _ _) as [m2 w2] eqn:HR. simplify_eq. by eapply feeds_only_report. }
  destruct (if fc_RequireSignedManifest _ then _ else _) as [unsigned w2] eqn:HU.
  assert (w_ext w2 = w_ext w) as Hw2 by (destruct (fc_RequireSignedManifest _); unfold time_Now in HU; by simplify_eq).
  assert (feeds_only m w2 m' w') as [Hk Ht]; [|constructor; [|exact Ht]; intros x Hx; rewrite (Hk x Hx); unfold blocked; by rewrite Hw2].
  destruct unsigned as [e1|].
  { destruct (report_failure _ _ _ _) as [m2 w3] eqn:HR. simplify_eq. by eapply feeds_only_report. }
  pose proof (eq_refl (target_block m)) as Heq. unfold target_block at 1 in Heq.
  destruct (composeGenerationsLocked _ _) as [[block c] n]. cbn in Heq. subst block.
  destruct (_ && _); [|by apply apply_diff_only in H].
  destruct (report_failure _ _ _ _) as [m2 w3] eqn:HR. simplify_eq. by eapply feeds_only_report.
Qed.
Lemma ApplyToKernel_only m w a d err m' w' : ApplyToKernel true m w = (a, d, err, m', w') -> feeds_only m w m' w'.
Proof.
  unfold ApplyToKernel. destruct (preload_key m w) as [m1 w1] eqn:HE. apply preload_inv in HE as [(k & e & v & ->) Hw].
  intros [Hk Ht]%apply_locked_only. constructor; [|exact Ht]. intros x Hx. rewrite (Hk x Hx). unfold blocked. by rewrite Hw.
Qed.

(** ** The promise *)

(** What is relied on of the place the closure keeps the manager in: putting
    the manager back does not reach the kernel, and what the feeds own is what
    the manager says. *)
Class FeedHostLaws := {
  fh_get_put m (x : X) : fh_feeds (fh_put m x) = m;
  fh_kernel m (x : X) : kernel (fh_put m x) = kernel x;
  fh_owned (x : X) : feed_owned x = feed_targets (fh_feeds x);
}.

(** The closure of [main] keeps the promise: it leaves the block list and the
    modes alone, withdraws from the kernel only what the feeds own, and the
    feeds own no more than before. *)
Theorem kernel_reconciled_ok `{FHL : !FeedHostLaws} (c : ReleaseController L K X) :
  rc_hook c = Some kernel_reconciled -> hook_ok c.
Proof.
  intros Hc h s w s' w' Hh H. rewrite Hc in Hh. injection Hh as <-. unfold kernel_reconciled in H.
  destruct (_ || _ || _); [by simplify_eq|].
  destruct (ApplyToKernel true (fh_feeds (w_ext w)) w) as [[[[added deleted] err] m'] w1] eqn:HA.
  apply ApplyToKernel_only in HA as [Hk Ht].
  assert (recorded (s, set_ext (fh_put m' (w_ext w1)) w1) (s', w')) as [Ho Hw].
  { destruct err as [e|]; [by eapply AddEvent_recorded|]. destruct (_ || _); [by eapply AddEvent_recorded|by simplify_eq]. }
  cbn in Ho, Hw. rewrite Hw, fh_kernel, !fh_owned, fh_get_put. split_and!; [exact Ho|exact Ht|].
  intros t _ Hn Hin. by apply Hk.
Qed.
End Hook.

(** ** A place that meets the laws *)

Record Host := mkHost { ho_kernel : gset string; ho_feeds : FeedManager; ho_enabled : bool; ho_mono : nat -> Z }.
Definition host_call (f : gset string -> gset string) (w : world Host) : error * world Host :=
  match World.sys w with
  | (Some e, w1) => (Some e, w1)
  | (None, w1) => let x := w_ext w in (None, set_ext (mkHost (f (ho_kernel x)) (ho_feeds x) (ho_enabled x) (ho_mono x)) w1)
  end.
Lemma host_call_inv f w e w' : host_call f w = (e, w') -> ho_feeds (w_ext w') = ho_feeds (w_ext w) /\
  ho_kernel (w_ext w') = (if e is Some _ then ho_kernel (w_ext w) else f (ho_kernel (w_ext w))).
Proof. unfold host_call, World.sys. intros H. destruct (o_fault _ _); by simplify_eq/=. Qed.

#[export] Instance host_client : CoreClient Host := {
  core_Add t := host_call (fun s => {[t]} ∪ s);
  core_Delete t := host_call (fun s => s ∖ {[t]});
  core_ClearBlocklist := host_call (fun _ => ∅);
  core_VerifyBlocklistEmpty w :=
    (if bool_decide (ho_kernel (w_ext w) = ∅) then None else errors_New "kernel blocklist is not empty", next_tick w);
  mono_reading x n := ho_mono x n;
}.
#[export] Instance host_feeds : FeedHost Host := {
  fh_feeds := ho_feeds;
  fh_put m x := mkHost (ho_kernel x) m (ho_enabled x) (ho_mono x);
  fh_FeedsEnabled := ho_enabled;
}.
#[export, refine] Instance host_laws : CoreLaws Host := {| kernel := ho_kernel; feed_owned x := feed_targets (ho_feeds x) |}.
Proof.
  - intros t w e w' [_ H]%host_call_inv. destruct e; rewrite H; set_solver.
  - intros t w e w' [_ H]%host_call_inv. destruct e; rewrite H; set_solver.
  - intros t w w' [_ H]%host_call_inv. rewrite H. set_solver.
  - intros t w e w' [_ H]%host_call_inv. destruct e; rewrite H; [set_solver|]. intros x Hx. destruct (decide (x = t)); set_solver.
  - intros t w e w' [_ H]%host_call_inv. destruct e; rewrite H; set_solver.
  - intros t w w' [_ H]%host_call_inv. rewrite H. set_solver.
  - cbn. intros w e w' H. by simplify_eq.
  - cbn. intros w w' H. case_bool_decide; by simplify_eq.
  - intros t w e w' [H _]%host_call_inv. by rewrite H.
  - intros t w e w' [H _]%host_call_inv. by rewrite H.
Defined.
#[export] Instance host_feeds_laws : FeedHostLaws (X := Host).
Proof. by constructor. Qed.
