(* ===== verification/FeedWitness.v ===== *)
(** * The threat feeds on concrete inputs *)

From Stdlib Require Import ZArith Lia Ascii String.
From stdpp Require Import base gmap strings list sorting.
From S2P Require Import Prelude.
From S2P Require Import GoLib.
From S2P Require Import Strconv.
From S2P Require Import Text.
From S2P Require Import World.
From S2P Require Import Storage.
From S2P Require Import Lines.
From S2P Require Import Instances.
From S2P Require Import LimitsWitness.
From S2P Require Import L7Settings.
From S2P Require Import Evidence.
From S2P Require Import EvidenceInstances.
From S2P Require Import NetIP.
From S2P Require Import State.
From S2P Require Import Release.
From S2P Require Import ReleaseFrames.
From S2P Require Import ReleaseWitness.
From S2P Require Import L7Decode.
From S2P Require Import L7Normalize.
From S2P Require Import ThreatIndex.
From S2P Require Import FeedSettings.
From S2P Require Import FeedFetch.
From S2P Require Import Feeds.
From S2P Require Import FeedSigning.
From S2P Require Import FeedSync.
From S2P Require Import FeedCompose.
From S2P Require Import FeedSyncFacts.
From S2P Require Import FeedKernel.

(** * Where the threat feeds do less than they say

    Behaviours of src/control/feeds.go, src/control/threat_intel_fabric.go and
    src/control/feed_signing.go that differ from their comments. *)

(** Disabling every feed changes nothing of what is published: the last good
    indicators of disabled blocking feeds still compose the kernel set, and the
    signed-manifest gate no longer looks at them. *)
Theorem disabled_feeds_published now s states :
  composeGenerationsLocked (set_feeds (map (toggle false) (fa_Feeds s)) s) states = composeGenerationsLocked s states /\
  unsigned_feed now states (map (toggle false) (fa_Feeds s)) = None.
Proof.
  split; [apply compose_ignores_enabled|]. induction (fa_Feeds s) as [|f l IH]; [done|]. exact IH.
Qed.

(** The correlation set can exceed the entry budget: a blocking feed ranked
    after a correlating one adds its indicators without looking at it. *)
Theorem correlation_over_budget : exists s states,
  fa_MaxTotalEntries s = 1 /\ length (composeGenerationsLocked s states).1.2 = 2%nat.
Proof.
  pose (feed id action := mkFeed id id true "" "lines" action 10 100 0 0 0).
  pose (gen id action item := mkGen id id action [item] 1 1 1 1 "" 0 "OK" "" 0 0 false "").
  exists (mkFabric true false 720 1440 4320 1024 1 1 25 3 (mkTransport [] 2 false false []) (mkValidation true true 0 250 "bump")
    (mkRetry 2 5) (mkKernelSettings true 0 true) [feed "a" FeedActionCorrelateOnly; feed "b" FeedActionBlock]).
  exists {["a" := gen "a" FeedActionCorrelateOnly "203.0.113.7/32"; "b" := gen "b" FeedActionBlock "198.51.100.9/32"]}.
  by vm_compute.
Qed.

Section Findings.
Context {X : Type} `{U : Unicode} `{C : Crypto} `{ED : Evidence.Ed25519} `{UP : URLParser} `{JT : JSONTokens}
  `{JM : JSONDoc threatFeedManifestMessage} `{JD : JSONDoc threatFeedManifestDocument}
  `{JS : JSONDoc ThreatIntelPersistentState} `{TR : !FeedTransport X} `{CC : !CoreClient X} `{CL : !CoreLaws X}.
Implicit Types (w : world X).

(** Clearing forgets every entry, also those whose deletion failed: the number
    it returns counts the deletions, and when it is all of them the kernel is
    rid of them; the mirror is empty in any case. *)
Lemma clear_all_bound items w n w' : clear_all items w = (n, w') ->
  0 <= n <= Z.of_nat (length items) /\ (n = Z.of_nat (length items) -> blocked w' = blocked w ∖ list_to_set items).
Proof.
  revert w n w'. induction items as [|i l IH]; intros w n w'; cbn [clear_all]; [intros [= <- <-]; split; [cbn; lia|set_solver]|].
  destruct (core_Delete i w) as [e w1] eqn:HD. destruct (clear_all l w1) as [k w2] eqn:HC. apply IH in HC as [Hb Hk].
  intros [= <- <-]. cbn [length]. destruct e as [e|]; [split; lia|]. split; [lia|]. intros Hn.
  rewrite Hk by lia. apply delete_success in HD. rewrite HD. set_solver.
Qed.

Theorem clear_forgets items m w n m' w' : ClearFromKernel true items m w = (n, m', w') ->
  fm_applied m' = ∅ /\ kr_status (fm_kernel m') = kernelApplyNotApplied /\
  (n = Z.of_nat (length items) -> blocked w' = blocked w ∖ list_to_set items).
Proof.
  unfold ClearFromKernel. destruct (clear_all items w) as [k w1] eqn:HC. destruct (time_Now w1) as [now w2] eqn:HT.
  intros [= <- <- <-]. split; [done|]. split; [done|]. intros Hn. apply clear_all_bound in HC as [_ HC].
  unfold blocked in *. rewrite save_quiet. unfold time_Now in HT. simplify_eq/=. by apply HC.
Qed.

(** The fallback of the signing pipeline signs whatever lies in the snapshot
    directory: when the download fails, the bytes found there become the
    signed bytes, without any comparison with the manifest they came with. *)
Theorem snapshot_signed_unchecked snapshotDir src sn w e w1 data items :
  downloadFeedRaw src sn w = (inl e, w1) -> no_faults w1 ->
  validFeedSigningFeedID (fs_ID src) = true -> TrimSpace snapshotDir <> "" -> w_fs w1 !! Clean (TrimSpace snapshotDir) = None ->
  w_fs w1 !! (Clean (TrimSpace snapshotDir) +:+ "/raw/" +:+ fs_ID src) = Some (mkInode Regular 384 data) ->
  0 < slen data <= (feedBounds sn src).1.2 ->
  parseFeedRaw src data "" (fa_Validation (sn_settings sn)) (feedBounds sn src).1.1 = inr items -> items <> [] ->
  exists w', resolveSignedSnapshotSource snapshotDir sn src w = (inr (mkSnapshotResult src data items true), w').
Proof.
  intros HD Hf Hid Hdir Hno Hfile Hlen HP Hne. unfold resolveSignedSnapshotSource. rewrite HD. unfold reuse_snapshot.
  destruct (feedBounds sn src) as [[maxEntries maxBytes] t] eqn:HB. cbn [fst snd] in *.
  unfold readFeedSnapshot. rewrite (proj2 (Z.leb_gt _ _)) by lia. unfold resolveFeedSigningSnapshotPath. rewrite Hid. cbn [negb].
  rewrite bool_decide_false by done. unfold os_Lstat, World.sys. rewrite Hf. cbn [fmap option_fmap option_map]. rewrite Hno. cbn [is_not_exist].
  cbn [w_oracle next_tick w_tick w_fs]. rewrite Hf. cbn [fmap option_fmap option_map]. rewrite Hfile. cbn [i_kind i_data].
  rewrite decide_False by (intros Hk; by apply Hk). rewrite (proj2 (Z.leb_gt (slen data) 0)), (proj2 (Z.ltb_ge maxBytes (slen data))) by lia. cbn [orb].
  unfold read_limited, World.sys. cbn [w_oracle next_tick w_tick w_fs]. rewrite Hf. cbn [fmap option_fmap option_map]. rewrite Hfile.
  cbn [w_oracle next_tick w_tick]. rewrite Hf. cbn [fmap option_fmap option_map i_data].
  assert (of_bytes (take (Z.to_nat (maxBytes + 1)) (bytes_of data)) = data) as ->.
  { rewrite take_ge; [apply of_bytes_of|]. rewrite length_bytes_of. unfold slen in Hlen. lia. }
  rewrite (proj2 (Z.ltb_ge maxBytes (slen data))) by lia. rewrite HP. destruct items; [done|]. eauto.
Qed.
End Findings.

(** ** Concrete inputs *)

(** ** A blocking feed behind a signed manifest *)

Definition alpha_url : string := "https://feeds.example.org/alpha.txt".
Definition alpha_raw : string := "203.0.113.7" +:+ newline.
Definition alpha_items : list string := ["203.0.113.7/32"].

#[export] Instance demo_urls : URLParser := {
  url_Parse s := if bool_decide (s = alpha_url) then inr (mkURL "https" "feeds.example.org" false "" "" "/alpha.txt")
                 else inl (ErrText "unknown URL");
}.
#[export] Instance demo_tokens : JSONTokens := { json_Tokens _ := ([], None) }.
#[export] Instance demo_transport : FeedTransport KernelX := {
  client_Do url timeout limit w := (inr (mkHTTPResponse 200 "text/plain" (inr alpha_raw)), next_tick w);
  backoff_wait _ w := (true, next_tick w);
}.

(** The message names the schema and the entries. *)
Definition entry_text (e : threatFeedManifestEntry) : string :=
  me_ID e +:+ " " +:+ me_RawSHA256 e +:+ " " +:+ me_ItemsSHA256 e +:+ " " +:+ itoa (me_Version e).
#[export] Instance demo_message : JSONDoc threatFeedManifestMessage := {
  json_Marshal d := inr (mm_Schema d +:+ join_with "," (map entry_text (mm_Feeds d)));
  json_Decode _ := inl (ErrText "not read back");
  json_canonical _ := False;
}.

Definition private_key : string := fit 64 "feed-signing-key".
Definition public_key : string := ed_Public (Ed25519 := toy_ed25519) private_key.

Definition alpha_entry (version : Z) : threatFeedManifestEntry :=
  mkManifestEntry "alpha" alpha_url (hex_EncodeToString (sha256_Sum alpha_raw)) (computeFingerprint alpha_items) version
    FeedActionBlock (base_time + 3600 * Time.Second).
Definition unsigned_manifest (version : Z) : threatFeedManifestDocument :=
  mkManifest threatFeedManifestSchema base_time (base_time + 3600 * Time.Second) [alpha_entry version] "".
Definition demo_manifest : threatFeedManifestDocument :=
  mkManifest threatFeedManifestSchema base_time (base_time + 3600 * Time.Second) [alpha_entry 5]
    (base64_EncodeToString (ed_Sign (Ed25519 := toy_ed25519) private_key (threatFeedManifestMessageFor (unsigned_manifest 5)))).
#[export] Instance demo_document : JSONDoc threatFeedManifestDocument := {
  json_Marshal _ := inr "manifest";
  json_Decode s := if bool_decide (s = "manifest") then inr demo_manifest else inl (ErrText "no manifest");
  json_canonical d := d = demo_manifest;
}.
#[export] Instance demo_persistent : JSONDoc ThreatIntelPersistentState := {
  json_Marshal d := inr (tp_Schema d);
  json_Decode _ := inl (ErrText "not read back");
  json_canonical _ := False;
}.

Definition alpha_feed : ThreatFeedSourceSettings :=
  mkFeed "alpha" "Alpha" true alpha_url "lines" FeedActionBlock 10 100 0 0 0.
Definition demo_settings : ThreatIntelFabricSettings :=
  mkFabric true false 720 1440 4320 1048576 1000 1000 25 3 (mkTransport [] 2 false false ["text/plain"])
    (mkValidation true true 0 250 "bump") (mkRetry 2 5) (mkKernelSettings true 0 true) [alpha_feed].
Definition demo_cfg : FeedConfig :=
  mkFeedConfig true true 720 1048576 1000 [] true [] "/etc/gedefense/manifest.json" 1440 false "" "".
Definition demo_manager (states : gmap string FeedGenerationState) (applied : gset string) : FeedManager :=
  mkManager demo_cfg (buildThreatIntelSnapshot demo_settings 1) "/var/lib/gedefense/intel.json" fresh_lock states
    NewThreatIndex NewThreatIndex NewThreatIndex applied 0 "" "NEVER_SYNCED" (mkTimes 0 0 0 0)
    (mkReport 0 kernelApplyNotApplied 0 0 0 "") [public_key] None None 0.
Definition fresh_states : gmap string FeedGenerationState := {["alpha" := new_gen "alpha" "Alpha" FeedActionBlock]}.
Definition demo_world (set : gset string) : world KernelX :=
  mkWorld {["/etc/gedefense/manifest.json" := mkInode Regular 384 "manifest"]} 0 ticking (mkKernelX set Z.of_nat true).
Definition operator_block : string := "198.51.100.9/32".

(** ** The synchronisation *)

Definition synced := SyncWithLock (fun rs => rs) "operator" (demo_manager fresh_states ∅) (demo_world {[operator_block]}).
Definition synced_manager : FeedManager := synced.1.2.

Lemma sync_authenticated_witness :
  g_LastGoodItems <$> fm_feedStates synced_manager !! "alpha" = Some alpha_items /\
  g_ManifestVersion <$> fm_feedStates synced_manager !! "alpha" = Some 5 /\
  advances (signingConfig (demo_manager fresh_states ∅)) (fm_live (demo_manager fresh_states ∅))
    (fm_feedStates (demo_manager fresh_states ∅)) (fm_feedStates synced_manager).
Proof.
  split; [by vm_compute|]. split; [by vm_compute|]. unfold synced_manager. destruct synced as [[[out err] m'] w'] eqn:E.
  apply (sync_authenticated (fun rs => rs) "operator" (demo_manager fresh_states ∅) (demo_world {[operator_block]}) out err m' w');
    [reflexivity|exact E].
Defined.

(** A manifest with an older version than the accepted one is refused. *)
Example older_manifest_kept :
  let g := mkGen "alpha" "Alpha" FeedActionBlock ["192.0.2.1/32"] 1 3 base_time base_time "" 0 "OK" "ff" 9 (base_time + 1) true "SIGNED" in
  g_LastGoodItems <$> fm_feedStates (SyncWithLock (fun rs => rs) "operator" (demo_manager {["alpha" := g]} ∅)
    (demo_world ∅)).1.2 !! "alpha" = Some ["192.0.2.1/32"].
Proof. by vm_compute. Qed.

(** ** Concurrent downloads *)

Definition good (id url : string) : fetchResult := mkResult id url alpha_items None None.
Definition bad (id url : string) : fetchResult := mkResult id url [] None (Some (Transient (ErrText "HTTP 503"))).

Definition two_results : list fetchResult := [good "alpha" alpha_url; bad "beta" "https://b.example.org/"].
Definition open_manager : FeedManager :=
  set_cfg (mkFeedConfig true true 720 1048576 1000 [] false [] "" 1440 false "" "") (demo_manager fresh_states ∅).
Definition settled (rs : list fetchResult) (set : gset string) :=
  settle base_time (Z.of_nat (length rs)) rs (fm_live open_manager) open_manager (demo_world set).

Lemma arrival_order_irrelevant_witness :
  fm_overallStatus (settled two_results ∅).1.2 = "PARTIAL" /\ (settled two_results ∅).1.1.1 = alpha_items /\
  (settled two_results ∅).1.1.1 = (settled (reverse two_results) {[operator_block]}).1.1.1.
Proof.
  split; [by vm_compute|]. split; [by vm_compute|].
  pose proof (arrival_order_irrelevant base_time two_results (reverse two_results) (fm_live open_manager) open_manager
    (demo_world ∅) (demo_world {[operator_block]})) as H.
  unfold settled. destruct (settle _ _ two_results _ _ _) as [[[block e] m1] w1].
  destruct (settle _ _ (reverse two_results) _ _ _) as [[[block' e'] m2] w2].
  destruct H as (H1 & _); [by rewrite reverse_Permutation|by apply (bool_decide_unpack _); vm_compute|done|]. exact H1.
Defined.

(** ** The composition *)

Lemma composed_generation_witness :
  length (composeGenerationsLocked demo_settings (fm_feedStates synced_manager)).1.1 = 1%nat /\
  NoDup (composeGenerationsLocked demo_settings (fm_feedStates synced_manager)).1.1.
Proof.
  split; [by vm_compute|].
  destruct (composeGenerationsLocked demo_settings (fm_feedStates synced_manager)) as [[block corr] annot] eqn:E.
  apply (composed_generation demo_settings (fm_feedStates synced_manager) _ block corr annot (reflexivity _) E).
Defined.

(** ** The kernel *)

Lemma single_mirrored (m : FeedManager) w t : target_block m = [t] -> fm_applied m = ∅ -> t ∉ blocked w -> mirrored m w.
Proof. intros Ht Ha Hn i. rewrite Ht, Ha. intros [->%list_elem_of_singleton|?]; set_solver. Qed.

Definition applied_run := ApplyToKernel true synced_manager (demo_world {[operator_block]}).
Definition applied_manager : FeedManager := applied_run.1.2.

Lemma feed_apply_transaction_witness :
  applied_run.1.1.2 = None /\ (forall x, x ∈ blocked applied_run.2 <-> x ∈ alpha_items \/ (x ∈ ({[operator_block]} : gset string) /\ x ∉ (∅ : gset string))).
Proof.
  split; [by vm_compute|].
  assert (applied_run.1.1.2 = None) as He by (by vm_compute).
  destruct applied_run as [[[[a d] err] m'] w'] eqn:E. cbn [fst snd] in *. subst err.
  destruct (feed_apply_transaction synced_manager (demo_world {[operator_block]}) a d None m' w') as (_ & _ & _ & H & _).
  - eapply (single_mirrored _ _ "203.0.113.7/32"); [by vm_compute|by vm_compute|by vm_compute].
  - exact E.
  - exact H.
Defined.

(** After the block map was emptied, applying again leaves it empty. *)
Definition reapplied := ApplyToKernel true applied_manager (demo_world ∅).
Lemma reapply_blind_witness : reapplied.1.1.2 = None /\ blocked reapplied.2 = ∅ /\ kr_status (fm_kernel reapplied.1.2) = kernelApplyApplied.
Proof.
  assert (reapplied.1.1.2 = None) as He by (by vm_compute). split; [exact He|].
  destruct reapplied as [[[[a d] err] m'] w'] eqn:E. cbn [fst snd] in *. subst err.
  destruct (reapply_blind applied_manager (demo_world ∅) a d m' w') as (_ & _ & H & Hs).
  - by vm_compute.
  - exact E.
  - split; [exact H|exact Hs].
Defined.

(** A deletion that fails leaves the entry in the kernel and out of the
    mirror. *)
Definition failing : Oracle := mkOracle (fun _ => Some "core unavailable") (fun _ => 0%nat) (fun _ => "") (fun _ => base_time).
Example clear_orphans :
  let '(n, m', w') := ClearFromKernel true ["203.0.113.7/32"] (demo_manager fresh_states {["203.0.113.7/32"]})
    (mkWorld ∅ 0 failing (mkKernelX {["203.0.113.7/32"]} Z.of_nat true)) in
  n = 0 /\ fm_applied m' = ∅ /\ kx_set (w_ext w') = {["203.0.113.7/32"]}.
Proof. by vm_compute. Qed.
